(* ===== verification/_CoqProject ===== *)
-Q . S2P
Prelude.v
JsString.v
Regex.v
JsInt.v
JsDate.v
Prog.v
Cidr.v
Rfc6890.v
NetDerive.v
PrivateIp.v
Float64.v
TokenBucket.v
RateLimiter.v
KvStore.v
MemoryKvStore.v
PostgresKvStore.v
DynamoDb.v
Retry.v
DynamoKvStore.v
DynamoRace.v
SecretCache.v
Json.v
AuditCore.v
AuditMetadata.v
TextCodec.v
Session.v
SignIn.v
MagicLink.v
MagicLinkRace.v
BounceHandler.v
PreSignup.v
AuthEndpoints.v
AuthEndpointsRace.v
Verify.v
IssuerVerifier.v
JwksFallback.v
GuardedFetch.v
OidcProbe.v
SamlMetadata.v
IdpName.v
IdpWorld.v
SecretRef.v
IdpSecrets.v
IdpManager.v
Profiles.v
SpMetadata.v
TtlCache.v
Tenant.v
Region.v
FeatureToggles.v
AuditStores.v
Keycloak.v
TenantHost.v
EdgeCheck.v
SiteEdge.v
EdgeConfig.v
PreToken.v
TenantAdmin.v
TenantTriggers.v
TenantEdge.v
LegacyKv.v
CdkProps.v
QueueStorage.v
SecretStores.v
AsyncContext.v
RequestContext.v
CdkAspects.v
CdkRules.v
Deployment.v
CloudFront.v
SharedDeployment.v
Metrics.v
