(* ===== verification/Prelude.v ===== *)
(** saas-foundation in Rocq: the run-time packages [@de-otio/saas-foundation]
    ([packages/foundation/src]) and [@de-otio/vestibulum]
    ([packages/vestibulum/src]), and the checks of the CDK packages that deploy
    them ([packages/vestibulum-cdk], [packages/foundation-cdk]).

    * The program

    A multi-tenant backend's lower floor. [foundation] holds what every
    service uses: the derivation of the client's address, rate limiting, a
    key-value port with three adapters, a cache of secrets, audit records,
    sealed session cookies, tenant identifiers and resolvers. [vestibulum] is
    the identity side: sign-in by mailed link as Cognito triggers and HTTP
    endpoints, the edge functions that let requests through to a site, the
    administration of tenants on a shared Cognito pool, the verification of
    tokens, and the onboarding of external identity providers: discovery of
    OIDC issuers and SAML metadata behind a guard against private addresses,
    their secrets, and their registration in the pool. The parts meet where one
    calls another: the rate limiter keys its buckets by the address [net]
    derives; the limiters and the key-value adapters share the
    optimistic-locking discipline of a conditional write; the triggers and
    endpoints share the tables; the edge reads the cookies and the claims the
    endpoints and triggers write; tenant identifiers are common to all.

    * The files, and what of the program each holds

    - [Prelude]: [result] (a function that may throw), automation, generic
      lemmas.
    - [JsString], [JsInt], [JsDate], [Regex]: what the code uses of the
      language: code-unit strings with [split], [trim], [Number(s)] and the
      rest; 32-bit bit operations; [Date.prototype.toISOString]; matching of
      the regular expressions in the source, with a language to reason about.
    - [Prog]: a handler as a tree of SDK commands, with message loss, alone
      ([run]) or interleaved with others ([run_steps]).
    - [Cidr], [Rfc6890], [NetDerive]: foundation [net/cidr.ts],
      [net/rfc6890.ts], [net/derive.ts].
    - [PrivateIp]: vestibulum [discovery/private-ip.ts].
    - [Float64]: the doubles of the language and their rounding;
      [TokenBucket], [RateLimiter]: foundation [rate-limit/]: the arithmetic
      of a bucket; the in-process limiter and the Postgres and DynamoDB ones.
    - [KvStore] (the port, [kv/store-types.ts]), [MemoryKvStore],
      [PostgresKvStore], [DynamoDb] and [DynamoKvStore] (the adapters),
      [DynamoRace] (concurrent creations).
    - [SecretCache]: foundation [secrets/cache.ts], [secrets/resolve.ts].
    - [AuditCore], [AuditMetadata]: foundation [audit/]: ulid, retention and
      the fan-out; the PII filter, the size cap and the log.
    - [TextCodec]: [TextEncoder] and [TextDecoder] on UTF-16 text;
      [Session]: foundation [session/].
    - [Tenant]: foundation [types/frozen/tenant*.ts], [tenant/].
    - [TenantAdmin]: vestibulum [lambda/shared-distribution/admin/].
    - [Json]: [JSON.parse] and [JSON.stringify] on values, with their round
      trip.
    - [SignIn]: vestibulum [lambda/shared/]: addresses, allowlists, HMAC of an
      address, environment, and the world the sign-in handlers share (token,
      counter and denylist tables, users, secrets, mails sent).
    - [MagicLink]: [lambda/handlers/{define,create,verify}-auth-challenge];
      [MagicLinkRace]: many of them interleaved.
    - [BounceHandler], [PreSignup]: [lambda/handlers/bounce-handler],
      [lambda/handlers/pre-signup], on the same world.
    - [AuthEndpoints]: [lambda/handlers/auth-{login,verify,signout}];
      [AuthEndpointsRace]: interleaved.
    - [TtlCache]: [lambda/shared-distribution/shared/ttl-cache.ts], the
      promise cache under interleaved calls and settlements.
    - [TenantHost], [EdgeCheck]: [lambda/shared-distribution/edge/];
      [TenantTriggers]: [lambda/shared-distribution/triggers/] and
      [shared/client-config-loader.ts]; [TenantEdge]: the triggers, the
      administration and the edge together.
    - [SiteEdge]: [lambda/edge/check-auth/].
    - [PreToken]: [lambda/pre-token-generation.ts],
      [lambda/post-confirmation.ts], [lambda/cognito-events.ts].
    - [Verify]: [verify/permitted-algs.ts], [verify/multi-pool-verifier.ts]
      and [pools/]; [IssuerVerifier]: [verify/issuer-verifier.ts];
      [JwksFallback]: [verify/jwks-fallback.ts].
    - [GuardedFetch]: what the two discovery clients share: name service,
      pinned connections, the capped body; [OidcProbe]:
      [discovery/oidc-probe.ts]; [SamlMetadata]: [discovery/saml-metadata.ts],
      on documents as trees of elements with identity.
    - [IdpName]: [idp/idp-name.ts]; [IdpWorld]: a Cognito pool with Secrets
      Manager; [SecretRef]: foundation [types/frozen/secrets.ts];
      [IdpSecrets]: [secrets/]; [IdpManager]: [idp/{saml,oidc}-manager.ts];
      [Profiles]: [profiles/]; [SpMetadata]: [saml/sp-metadata.ts].
    - [Region]: foundation [region/]; [FeatureToggles]: foundation
      [feature-toggles/]; [AuditStores]: foundation [audit/dynamo-store.ts],
      [audit/prisma.ts].
    - [Keycloak]: foundation [identity/], with a realm as the endpoints are
      documented, its rules for imports a parameter.
    - [LegacyKv]: foundation [kv/dynamo-kv.ts], [kv/memory.ts]; [Retry]:
      [_internal/retry.ts] around any operation; [QueueStorage]: [queue/],
      [storage/]; [SecretStores]: [secrets/memory-secret-store.ts],
      [secrets/scaleway.ts].
    - [AsyncContext]: [AsyncLocalStorage] under any order of turns;
      [RequestContext]: foundation [request-context/], [tenant/als.ts],
      [logger/].
    - The CDK packages, where they decide something: [CdkProps]
      (vestibulum-cdk: validators of properties, the self-defence handler),
      [EdgeConfig] ([shared-distribution-identity/edge-function.ts],
      [check-auth-config-baker.ts]), [CdkAspects] ([aspects/],
      [cdk-nag-rules/], foundation-cdk [aspects/]), [CdkRules] (WAF rules,
      certificates, app clients, triggers), [Deployment] (the environments and
      roles that [magic-link-identity/] and [magic-link-auth-site/] give the
      sign-in handlers, and the handlers under them), [CloudFront] (the
      behaviours of both distributions), [SharedDeployment]
      ([shared-distribution-identity/identity.ts], [triggers.ts],
      [admin-lambda.ts], [reconciler.ts]), [Metrics] ([metrics/index.ts], the
      alarms, and how handlers print metrics).
    Names are the source's. A function that throws returns a [result]; one
    that awaits a service is a program or a step relation; a mutable object is
    a state that is passed on; buffers that are shared and zeroed live in a
    heap ([SecretCache]).

    * Contracts and their implementations

    [KvStore.kv_port] is the port as it is documented, a function on records;
    the refinement theorem of each of [MemoryKvStore], [PostgresKvStore] and
    [DynamoKvStore] says that every operation answers as that function does
    and lists the operations and states where the adapter departs from it.
    [KvStore.KvAdapter] is the port as a class with [KvStore.kv_spec], the part
    of the contract that all three keep;
    [put_if_absent_single_winner] and [stale_compare_and_set_rejected] are
    proved once, for every adapter. [RateLimiter] refines its two database
    limiters to the in-process one. [Prog.Service] is what a handler is run
    against. [DynamoDb.DynamoDB], [PostgresKvStore.PgNumeric],
    [RateLimiter.Backend], [Session.WebCrypto], [TenantAdmin.Cognito],
    [SignIn.Digests], [AuthEndpoints.CognitoAuth], [EdgeCheck.AwsJwtVerify],
    [SiteEdge.CognitoVerifier], [TenantTriggers.TenantAuth],
    [Verify.CognitoJwtVerifier], [IssuerVerifier.JwtVerifier],
    [JwksFallback.JwksLib], [GuardedFetch.Platform], [Saml.SamlLib],
    [IdpWorld.SecretNaming], [SecretStores.Base64], [EdgeConfig.CdkTokens] and [Deployment.AwsIam] state what the code relies on in services and packages that are not part of the
    repository; each has an instance, on which the theorems are evaluated.
    [AuthEndpoints.CognitoAuth] is also instantiated by the triggers of
    [MagicLink], which gives the end-to-end sign-in.

    * The theorems

    - Tenant administration: a creation that fails leaves nothing behind (or,
      when messages were lost, at most the named leftovers); creations
      exclude each other by reservation under any interleaving; idempotent
      replay; order of a deletion; the reconciler reports exactly the
      orphans, each once; update and read agree.
    - Rate limits: tokens granted over any period stay within capacity plus
      refill plus the rounding of one operation per call; the optimistic
      limiters behave as the atomic one; every call finishes.
    - Key-value port: the three refinements; single winner, sequentially for
      all adapters and under concurrency for DynamoDB; stale versions lose;
      the sweep is invisible.
    - Addresses: when an address is trusted, and that a client cannot
      influence it behind a load balancer; the CIDR loops decide prefix
      equality; the classifiers fail closed and agree on mapped addresses.
    - Secrets and audit: evicted buffers are zeros and others are untouched;
      LRU order; the PII scrubber at every depth; the size cap;
      [emitAwait] on every branch; the fan-out; ulid.
    - Sessions and tenants: sealing round trip and key rotation; what the
      resolvers accept.
    - Mailed links: a link is redeemed at most once however redemptions
      interleave; every redemption branch; mail goes out only when every gate
      passed, at most once per window and within the daily cap; the round
      trip from login to session; login answers do not depend on whether the
      user exists; a binding is used once; no mail after a bounce; what a
      sign-up is refused for.
    - The shared distribution: the edge forwards exactly the requests whose
      token names the tenant of the host; keys are never older than their
      lifetime; the pre-token wrapper binds every token to the tenant of its
      client; hence a tenant's tokens open its own host only ([TenantEdge]).
      What composition shows to be broken is proved there as well. The promise
      cache loads a key once per lifetime and refines a memo table.
    - Single site: the edge fails closed. Templates: no token carries a
      reserved claim, errors are never hidden, the event versions agree.
    - Token verification: a token of one pool is never taken for another's;
      only unexpired tokens of the pinned issuer, audience and algorithms
      pass; a failure is retried once, on fresh keys, if new keys can cure
      it; a stored key set is used within its pins and its time only, never
      silently, and an outage within that time is survived.
    - Discovery: both clients dial only addresses that were checked, whatever
      a name service or a site answers, and close what they opened; the probe
      ends; signed metadata is signed over the element it was read from.
    - Identity providers: a derived name is one Cognito accepts, and unique
      under a mapping; only admitted metadata reaches the pool; the pinned
      secret version is the one the pool holds; attaching and deleting leave
      everything else as it was; secrets read back; printed metadata escapes
      without loss.
    - Regions and toggles: a detected region is one of the deployment's; a
      cached residency answer is the policy's and fresh; the Prisma toggle
      store gives what the in-memory one gives, and a cached toggle's age is
      bounded.
    - Audit stores: every write that resolved is in the table, under its
      tenant, and reads back to its event; both stores keep it equally long.
      What an unconditional put and the key layout let happen is proved too.
    - Keycloak: a creation is sent only after look-ups that found no such user,
      and never as an overwrite; deletion by address is exact; the service token is fresh and
      its failures say nothing of the credentials.
    - Shims: the legacy key-value shims give back what was put, until it
      expires, and page without loss; a batch that resolves has been queued,
      and undisturbed each message once; an object is what was put last; a resolver on the
      in-memory store returns the seeded value, and no secret is answered with
      another's bytes as long as no part of its reference holds a colon.
    - Contexts: however requests interleave, each logs under its own id and
      sees its own tenant; the first configuration of the logger stands.
    - Infrastructure checks: what a synthesis that passes guarantees (bounded
      logs, no password flows, a WAF, tags); what the edge is configured with
      is what was resolved, and what happens when it was not; the baker
      publishes the injected code or nothing; rule sets are well-formed; app
      clients are public and without passwords.
    - Deployment: the handlers read back what the constructs were asked for;
      every call a handler makes is one its role allows; mail is sent by the
      create trigger alone, as one sender, within the recipient fence; the
      binding table is written and taken by one endpoint each.
      In the shared distribution the roles let the endpoints, the reconciler
      and every administration request but a creation through; what the
      deployment cannot do (create a tenant, sign anyone in) is proved too.
    - Distributions: which paths pass the edge check, which endpoint answers
      them and what pages, mailed links and cookies reach.
    - Metrics: a printed line is taken as the one datum it stands for; an orphan
      raises its alarm; which alarms and handles can see nothing.
    * Bounds and fuel

    Machine arithmetic that wraps ([JsInt], addresses, masks) is written out.
    Token counts are doubles: rationals rounded after every operation to 53
    bits, ties to even, with gradual underflow and without overflow
    ([Float64]). Times are integers of milliseconds. The limiter's retry loop and the DynamoDB retry
    policy are unrolled to the constants of the source ([MAX_RETRIES],
    [transientRetry_maxAttempts]). Loops that page through a service ([deleteTenant],
    [runReconciler], [query]) take a number of pages; the theorems say how
    many suffice for the data at hand, and that this many give the result.
    The loop that reads a body takes a number of chunks;
    [probe_finishes] shows that the cap and two suffices when every chunk
    holds a byte. Seconds of key ages and of metadata durations are exact
    rationals.
    The size loop of [AuditMetadata] recurs over the entries it drops.
    [JSON_parse] recurs on fuel twice the length of the text, and
    [JSON_parse_fuel] shows that more never changes the answer.

    * Not modelled

    The constructs of the CDK packages that only declare infrastructure, the
    Lambda entry points that only wire handlers, the build and CI scripts;
    [getPresignedUploadUrl], which only calls a signer; what pino prints. Zod schemas,
    HMAC, base64, the XML and X.509 parsers and the
    npm [cookie] package are parameters, and so is the verification of a
    token's or a document's signature. DynamoDB's own removal of expired rows is not a step:
    the code checks expiries itself. Code units above 255 do not occur in
    model strings; the payloads of session cookies are lists of 16-bit units.

    * Plan

    The core of both run-time packages is modelled, and of the CDK packages
    what they decide. Left: what the constructs of the CDK packages declare,
    which needs a model of the templates the CDK renders. *)

From Stdlib Require Export ZArith Lia.
From stdpp Require Export base tactics numbers strings gmap option.
From stdpp Require Export list.

#[export] Set Default Goal Selector "!".

(** ** Results of fallible code

    A TypeScript function that can [throw] is a function into [result E A]:
    [Ok a] is a normal return, [Throw e] a thrown error (or a rejected
    promise) carrying [e]. *)
Inductive result (E A : Type) : Type :=
| Ok (a : A)
| Throw (e : E).
Arguments Ok {E A} a.
Arguments Throw {E A} e.

Definition result_bind {E A B} (m : result E A) (k : A -> result E B) : result E B :=
  match m with
  | Ok a => k a
  | Throw e => Throw e
  end.

Definition result_map {E A B} (f : A -> B) (m : result E A) : result E B :=
  match m with
  | Ok a => Ok (f a)
  | Throw e => Throw e
  end.

(** [try m catch h]: the handler sees the thrown error. *)
Definition result_catch {E F A} (m : result E A) (h : E -> result F A) : result F A :=
  match m with
  | Ok a => Ok a
  | Throw e => h e
  end.

Definition is_ok {E A} (m : result E A) : bool :=
  match m with Ok _ => true | Throw _ => false end.

Declare Scope js_scope.
Delimit Scope js_scope with js.
Notation "'let*' x := m 'in' k" := (result_bind m (fun x => k))
  (at level 10, x pattern, m at level 100, k at level 200) : js_scope.

#[export] Instance result_eq_dec {E A} `{EqDecision E, EqDecision A} : EqDecision (result E A).
Proof. solve_decision. Defined.

(** ** Automation

    [split_match] destructs every [match] and [if] head in the goal and the
    hypotheses; [bool_hyps] turns boolean tests into propositions. *)
Ltac split_match :=
  repeat match goal with
  | |- context [match ?x with _ => _ end] => destruct x eqn:?; simplify_eq/=
  | H : context [match ?x with _ => _ end] |- _ => destruct x eqn:?; simplify_eq/=
  end.

Ltac bool_hyps :=
  repeat match goal with
  | H : andb _ _ = true |- _ => apply andb_true_iff in H; destruct H
  | H : orb _ _ = false |- _ => apply orb_false_iff in H; destruct H
  | H : negb _ = true |- _ => apply negb_true_iff in H
  | H : negb _ = false |- _ => apply negb_false_iff in H
  | H : Z.ltb _ _ = true |- _ => apply Z.ltb_lt in H
  | H : Z.ltb _ _ = false |- _ => apply Z.ltb_ge in H
  | H : Z.leb _ _ = true |- _ => apply Z.leb_le in H
  | H : Z.leb _ _ = false |- _ => apply Z.leb_gt in H
  | H : Z.eqb _ _ = true |- _ => apply Z.eqb_eq in H
  | H : Z.eqb _ _ = false |- _ => apply Z.eqb_neq in H
  | H : Nat.eqb _ _ = true |- _ => apply Nat.eqb_eq in H
  | H : Nat.eqb _ _ = false |- _ => apply Nat.eqb_neq in H
  | H : Nat.ltb _ _ = true |- _ => apply Nat.ltb_lt in H
  | H : Nat.ltb _ _ = false |- _ => apply Nat.ltb_ge in H
  | H : Nat.leb _ _ = true |- _ => apply Nat.leb_le in H
  | H : Nat.leb _ _ = false |- _ => apply Nat.leb_gt in H
  | H : bool_decide _ = true |- _ => apply bool_decide_eq_true in H
  | H : bool_decide _ = false |- _ => apply bool_decide_eq_false in H
  | H : Is_true _ |- _ => apply Is_true_true in H
  end.

Ltac bool_goal :=
  repeat match goal with
  | |- andb _ _ = true => apply andb_true_iff; split
  | |- Z.ltb _ _ = true => apply Z.ltb_lt
  | |- Z.ltb _ _ = false => apply Z.ltb_ge
  | |- Z.leb _ _ = true => apply Z.leb_le
  | |- Z.leb _ _ = false => apply Z.leb_gt
  | |- Z.eqb _ _ = true => apply Z.eqb_eq
  | |- Z.eqb _ _ = false => apply Z.eqb_neq
  end.

(** ** Generic lemmas shared by the components *)

Lemma result_bind_ok {E A B} (m : result E A) (k : A -> result E B) b :
  result_bind m k = Ok b <-> exists a, m = Ok a /\ k a = Ok b.
Proof. destruct m; simpl; naive_solver. Qed.

Lemma bool_eq_iff (a b : bool) : (a = true <-> b = true) -> a = b.
Proof. destruct a, b; naive_solver. Qed.

Lemma existsb_exists_In {A} (f : A -> bool) l :
  existsb f l = true <-> exists x, x ∈ l /\ f x = true.
Proof.
  rewrite existsb_exists. setoid_rewrite list_elem_of_In. done.
Qed.

Lemma existsb_false_Forall {A} (f : A -> bool) l :
  existsb f l = false <-> Forall (fun x => f x = false) l.
Proof.
  induction l as [|x l IH]; simpl; [done|].
  rewrite orb_false_iff, Forall_cons, IH. done.
Qed.

(** A check over the first [n] numbers, to discharge finite case analyses by
    computation. *)
Definition forall_below (n : nat) (p : Z -> bool) : bool :=
  forallb p (seqZ 0 (Z.of_nat n)).

Lemma forall_below_spec n p z :
  forall_below n p = true -> (0 <= z < Z.of_nat n)%Z -> p z = true.
Proof.
  unfold forall_below. intros H Hz.
  apply (proj1 (forallb_forall p _) H), list_elem_of_In, elem_of_seqZ. lia.
Qed.
