(* ===== verification/JsString.v ===== *)
(** JavaScript strings and [Number(...)], as the modelled files use them.

    A JavaScript string is a sequence of code units; a model string is a
    [string] of code units below 256, which covers every header, address,
    hostname, key and identifier the modelled code handles. [Number(s)] is
    the ECMAScript StringToNumber conversion: surrounding white space is
    trimmed, the empty string is 0, [0x]/[0o]/[0b] prefixes are read, and a
    decimal literal may have a sign, a fraction and an exponent. The value is
    an exact rational ([None] for NaN and the infinities, neither of which is
    ever an integer), so the rounding of literals with more than 15
    significant digits is not modelled. *)

From S2P Require Import Prelude.
From Stdlib Require Import Ascii String QArith.
From stdpp Require Import strings.

#[global] Arguments String.append : simpl nomatch.

#[local] Open Scope string_scope.
#[local] Open Scope Z_scope.

(** ** Characters *)

Definition code (c : ascii) : Z := Z.of_N (N_of_ascii c).
Definition in_range (lo hi : ascii) (c : ascii) : bool :=
  (code lo <=? code c) && (code c <=? code hi).
Definition is_digit : ascii -> bool := in_range "0" "9".
Definition is_alpha (c : ascii) : bool := in_range "a" "z" c || in_range "A" "Z" c.
Definition is_alnum (c : ascii) : bool := is_alpha c || is_digit c.
Definition is_hex_digit (c : ascii) : bool :=
  is_digit c || in_range "a" "f" c || in_range "A" "F" c.
(** White space and line terminators below 256: HT, LF, VT, FF, CR, SP, NBSP. *)
Definition is_space (c : ascii) : bool :=
  ((9 <=? code c) && (code c <=? 13)) || (code c =? 32) || (code c =? 160).

Definition digit_value (c : ascii) : Z := code c - 48.
Definition hex_value (c : ascii) : Z :=
  if is_digit c then code c - 48
  else if in_range "a" "f" c then code c - 87
  else code c - 55.

Definition lower_char (c : ascii) : ascii :=
  if in_range "A" "Z" c || ((192 <=? code c) && (code c <=? 222) && negb (code c =? 215))
  then ascii_of_N (Z.to_N (code c + 32)) else c.

(** ** Strings *)

Fixpoint str_all (p : ascii -> bool) (s : string) : bool :=
  match s with
  | EmptyString => true
  | String c r => p c && str_all p r
  end.

Fixpoint str_exists (p : ascii -> bool) (s : string) : bool :=
  match s with
  | EmptyString => false
  | String c r => p c || str_exists p r
  end.

Fixpoint str_map (f : ascii -> ascii) (s : string) : string :=
  match s with
  | EmptyString => EmptyString
  | String c r => String (f c) (str_map f r)
  end.

Definition toLowerCase : string -> string := str_map lower_char.

(** [Buffer.byteLength(s, "utf-8")]: two bytes for a code unit of 128..255. *)
Fixpoint byteLength (s : string) : Z :=
  match s with
  | EmptyString => 0
  | String c r => (if code c <? 128 then 1 else 2) + byteLength r
  end.

(** [s.slice(0, n)] and [s.slice(n)]. *)
Fixpoint str_take (n : nat) (s : string) : string :=
  match n, s with
  | S n', String c r => String c (str_take n' r)
  | _, _ => EmptyString
  end.

Fixpoint str_drop (n : nat) (s : string) : string :=
  match n, s with
  | S n', String _ r => str_drop n' r
  | O, _ => s
  | _, EmptyString => EmptyString
  end.

Definition startsWith (s pre : string) : bool := String.prefix pre s.
Definition endsWith (s suf : string) : bool :=
  bool_decide (String.length suf <= String.length s)%nat &&
  String.eqb (str_drop (String.length s - String.length suf) s) suf.

(** [s.indexOf(pat)], [None] for -1. *)
Fixpoint indexOf (s pat : string) : option nat :=
  if String.prefix pat s then Some 0%nat
  else match s with
       | EmptyString => None
       | String _ r => S <$> indexOf r pat
       end.

Definition includes (s pat : string) : bool :=
  match indexOf s pat with Some _ => true | None => false end.

Definition char_in (c : ascii) (s : string) : bool := str_exists (Ascii.eqb c) s.

(** [s.split(c)] for a one-character separator. *)
Fixpoint split (c : ascii) (s : string) : list string :=
  match s with
  | EmptyString => [""]
  | String d r =>
      if Ascii.eqb d c then "" :: split c r
      else match split c r with
           | h :: t => String d h :: t
           | [] => [String d ""]
           end
  end.

(** [l.join(sep)]. *)
Fixpoint join (sep : string) (l : list string) : string :=
  match l with
  | [] => ""
  | [x] => x
  | x :: r => x ++ sep ++ join sep r
  end.

(** [l.filter(Boolean)] and [l.filter((x) => x !== "")]. *)
Definition non_empty (s : string) : bool := negb (String.eqb s "").
Definition filter_non_empty (l : list string) : list string := List.filter non_empty l.

Fixpoint trim_start (s : string) : string :=
  match s with
  | EmptyString => EmptyString
  | String c r => if is_space c then trim_start r else s
  end.

Fixpoint trim_end (s : string) : string :=
  match s with
  | EmptyString => EmptyString
  | String c r =>
      match trim_end r with
      | EmptyString => if is_space c then EmptyString else String c EmptyString
      | r' => String c r'
      end
  end.

Definition trim (s : string) : string := trim_end (trim_start s).

(** [s.split(/[...]+/)]: a run of separators cuts once. *)
Fixpoint split_runs (p : ascii -> bool) (s : string) : list string :=
  match s with
  | EmptyString => [""]
  | String c r =>
      if p c then
        match r with
        | String d _ => if p d then split_runs p r else "" :: split_runs p r
        | EmptyString => [""; ""]
        end
      else
        match split_runs p r with
        | h :: t => String c h :: t
        | [] => [String c ""]
        end
  end.

(** The value of a digit string in base 10, most significant digit first. *)
Fixpoint dec_acc (acc : Z) (s : string) : Z :=
  match s with
  | EmptyString => acc
  | String c r => dec_acc (10 * acc + digit_value c) r
  end.
Definition dec_val : string -> Z := dec_acc 0.

Fixpoint radix_acc (base acc : Z) (s : string) : Z :=
  match s with
  | EmptyString => acc
  | String c r => radix_acc base (base * acc + hex_value c) r
  end.

(** The decimal rendering of 0..255, as a template literal prints it. *)
Definition digit_char (d : Z) : ascii := ascii_of_N (Z.to_N (48 + d)).
Definition show_octet (n : Z) : string :=
  if n <? 10 then String (digit_char n) ""
  else if n <? 100 then String (digit_char (n / 10)) (String (digit_char (n mod 10)) "")
  else String (digit_char (n / 100))
         (String (digit_char ((n / 10) mod 10)) (String (digit_char (n mod 10)) "")).

(** ** Number(s) *)

(** The longest prefix of digits, and what follows it. *)
Fixpoint span_digits (s : string) : string * string :=
  match s with
  | String c r =>
      if is_digit c then let '(d, rest) := span_digits r in (String c d, rest)
      else ("", s)
  | EmptyString => ("", "")
  end.

Definition is_sign (c : ascii) : bool := Ascii.eqb c "+" || Ascii.eqb c "-".

(** An exponent part, after the mantissa: nothing, or [e] with a signed
    digit string. *)
Definition parse_exponent (s : string) : option Z :=
  match s with
  | EmptyString => Some 0
  | String c r =>
      if Ascii.eqb c "e" || Ascii.eqb c "E" then
        let '(neg, ds) :=
          match r with
          | String d r' => if is_sign d then (Ascii.eqb d "-", r') else (false, r)
          | EmptyString => (false, r)
          end in
        if non_empty ds && str_all is_digit ds then
          Some (if neg then - dec_val ds else dec_val ds)
        else None
      else None
  end.

Definition scale10 (m e : Z) : Q :=
  if 0 <=? e then inject_Z (m * 10 ^ e) else m # Z.to_pos (10 ^ (- e)).

(** An unsigned decimal literal: digits, an optional fraction, an optional
    exponent; at least one digit before or after the point. *)
Definition parse_decimal (s : string) : option Q :=
  let '(ip, rest) := span_digits s in
  let '(fp, rest') :=
    match rest with
    | String "."%char r => span_digits r
    | _ => ("", rest)
    end in
  if negb (non_empty ip || non_empty fp) then None
  else e ← parse_exponent rest';
       Some (scale10 (dec_val (ip ++ fp)) (e - Z.of_nat (String.length fp))).

Definition radix_of (c : ascii) : option (Z * (ascii -> bool)) :=
  if Ascii.eqb c "x" || Ascii.eqb c "X" then Some (16, is_hex_digit)
  else if Ascii.eqb c "o" || Ascii.eqb c "O" then Some (8, in_range "0" "7")
  else if Ascii.eqb c "b" || Ascii.eqb c "B" then Some (2, in_range "0" "1")
  else None.

Definition Number (s0 : string) : option Q :=
  let s := trim s0 in
  match s with
  | EmptyString => Some (inject_Z 0)
  | String c r =>
      let decimal :=
        if is_sign c then
          (if Ascii.eqb c "-" then Qopp else fun q => q) <$> parse_decimal r
        else parse_decimal s in
      match (if Ascii.eqb c "0" then r else "") with
      | String d ds =>
          match radix_of d with
          | Some (b, ok) =>
              if non_empty ds && str_all ok ds then Some (inject_Z (radix_acc b 0 ds))
              else None
          | None => decimal
          end
      | EmptyString => decimal
      end
  end.

(** [Number.isInteger(n)], returning the integer. *)
Definition asInteger (n : option Q) : option Z :=
  q ← n;
  if Qnum q mod Zpos (Qden q) =? 0 then Some (Qnum q / Zpos (Qden q)) else None.

Example number_examples :
  (asInteger <$> [Number "24"; Number ""; Number " 7 "; Number "0x1f"; Number "1e1";
                  Number "1.5"; Number "12a"; Number "-3"; Number "010"])
  = [Some 24; Some 0; Some 7; Some 31; Some 10; None; None; Some (-3); Some 10].
Proof. reflexivity. Qed.

(** ** Lemmas *)

Create HintDb jsstr.

Lemma str_app_nil_r s : s ++ "" = s.
Proof. induction s as [|c s IH]; simpl; [done|]. by rewrite IH. Qed.

Lemma str_app_assoc s t u : (s ++ t) ++ u = s ++ (t ++ u).
Proof. induction s as [|c s IH]; simpl; [done|]. by rewrite IH. Qed.

Lemma str_length_app s t : String.length (s ++ t) = (String.length s + String.length t)%nat.
Proof. induction s as [|c s IH]; simpl; [done|]. by rewrite IH. Qed.

Lemma str_all_app p s t : str_all p (s ++ t) = str_all p s && str_all p t.
Proof. induction s as [|c s IH]; simpl; [done|]. by rewrite IH, andb_assoc. Qed.

Lemma str_exists_app p s t : str_exists p (s ++ t) = str_exists p s || str_exists p t.
Proof. induction s as [|c s IH]; simpl; [done|]. by rewrite IH, orb_assoc. Qed.

Lemma str_all_not_exists p q s :
  (forall c, p c = true -> q c = false) -> str_all p s = true -> str_exists q s = false.
Proof.
  intros Hpq. induction s as [|c s IH]; simpl; [done|].
  intros [Hc Hs]%andb_true_iff. by rewrite (Hpq c Hc), IH.
Qed.

Lemma str_take_app s t : str_take (String.length s) (s ++ t) = s.
Proof. induction s as [|c s IH]; simpl; [by destruct t|]. by rewrite IH. Qed.

Lemma str_drop_app s t : str_drop (String.length s) (s ++ t) = t.
Proof. induction s as [|c s IH]; simpl; [by destruct t|]. done. Qed.

Lemma str_drop_length n s :
  (n <= String.length s)%nat ->
  String.length (str_drop n s) = (String.length s - n)%nat.
Proof.
  revert s; induction n as [|n IH]; intros [|c s] Hn; simpl in *; try lia.
  apply IH. lia.
Qed.

Lemma str_take_drop n s : str_take n s ++ str_drop n s = s.
Proof.
  revert s; induction n as [|n IH]; intros [|c s]; simpl; try done. by rewrite IH.
Qed.

Lemma split_nonempty c s : split c s <> [].
Proof. destruct s as [|d r]; simpl; [done|]. by destruct (Ascii.eqb d c), (split c r). Qed.

Lemma split_none c s : char_in c s = false -> split c s = [s].
Proof.
  unfold char_in. induction s as [|d r IH]; simpl; [done|].
  rewrite orb_false_iff, Ascii.eqb_sym. intros [-> Hr]. by rewrite IH.
Qed.

Lemma split_cons c x r : char_in c x = false -> split c (x ++ String c r) = x :: split c r.
Proof.
  unfold char_in. induction x as [|d x IH]; simpl.
  - intros _. by rewrite Ascii.eqb_refl.
  - rewrite orb_false_iff, Ascii.eqb_sym. intros [-> Hr]. by rewrite IH.
Qed.

Lemma split_parts c s : Forall (fun p => char_in c p = false) (split c s).
Proof.
  unfold char_in. induction s as [|d r IH]; simpl; [by repeat constructor|].
  destruct (Ascii.eqb d c) eqn:E; [by constructor|].
  destruct (split c r) as [|h t] eqn:Es.
  - constructor; [|done]. simpl. by rewrite Ascii.eqb_sym, E.
  - inversion_clear IH. constructor; [|done]. simpl. rewrite Ascii.eqb_sym, E. done.
Qed.

Lemma join_split c s : join (String c "") (split c s) = s.
Proof.
  induction s as [|d r IH]; simpl; [done|].
  pose proof (split_nonempty c r) as Hne.
  destruct (Ascii.eqb_spec d c) as [->|Hd].
  - destruct (split c r) as [|h t] eqn:Es; [done|]. simpl in *. by rewrite IH.
  - destruct (split c r) as [|h t]; [done|].
    destruct t; simpl in *; by rewrite IH.
Qed.

(** A split into exactly four parts is a concatenation with three separators. *)
Lemma split_four c s p1 p2 p3 p4 :
  split c s = [p1; p2; p3; p4] <->
  s = p1 ++ String c (p2 ++ String c (p3 ++ String c p4)) /\
  char_in c p1 = false /\ char_in c p2 = false /\
  char_in c p3 = false /\ char_in c p4 = false.
Proof.
  split.
  - intros H. pose proof (split_parts c s) as Hp. rewrite H in Hp.
    rewrite !Forall_cons_iff in Hp. destruct Hp as (?&?&?&?&_).
    split; [|done]. by rewrite <- (join_split c s), H.
  - intros (-> & H1 & H2 & H3 & H4). by rewrite !split_cons, split_none by done.
Qed.

Lemma prefix_app s t : String.prefix s (s ++ t) = true.
Proof.
  induction s as [|c s IH]; simpl; [by destruct t|].
  by destruct (Ascii.ascii_dec c c).
Qed.

Lemma prefix_spec s t : String.prefix s t = true <-> exists u, t = s ++ u.
Proof.
  split; [|intros [u ->]; apply prefix_app].
  revert t; induction s as [|c s IH]; intros [|d t]; simpl; try (by eauto).
  destruct (Ascii.ascii_dec c d) as [->|]; [|done].
  intros [u ->]%IH. by exists u.
Qed.

Lemma endsWith_spec s suf : endsWith s suf = true <-> exists p, s = p ++ suf.
Proof.
  unfold endsWith. rewrite andb_true_iff, bool_decide_eq_true, String.eqb_eq. split.
  - intros [Hl Hd]. exists (str_take (String.length s - String.length suf) s).
    rewrite <- Hd at 2. by rewrite str_take_drop.
  - intros [p ->]. rewrite str_length_app. split; [lia|].
    replace (String.length p + String.length suf - String.length suf)%nat
      with (String.length p) by lia.
    apply str_drop_app.
Qed.

Lemma indexOf_Some s pat n :
  indexOf s pat = Some n -> exists p r, s = p ++ pat ++ r /\ String.length p = n.
Proof.
  revert n; induction s as [|c s IH]; intros n H; cbn [indexOf] in H.
  - destruct pat; simpl in H; [|done]. simplify_eq. by exists "", "".
  - destruct (String.prefix pat (String c s)) eqn:Hp.
    + simplify_eq. apply prefix_spec in Hp as [u Hu]. exists "", u. split; [exact Hu|done].
    + apply fmap_Some in H as (m & Hm & ->).
      destruct (IH m Hm) as (p & r & -> & <-). by exists (String c p), r.
Qed.

Lemma includes_char s c :
  includes s (String c "") = char_in c s.
Proof.
  unfold includes, char_in. induction s as [|d s IH]; [done|].
  cbn [indexOf str_exists String.prefix].
  destruct (Ascii.ascii_dec c d) as [->|Hne].
  - rewrite Ascii.eqb_refl. by destruct s.
  - destruct (Ascii.eqb_spec c d); [done|]. cbn [orb]. rewrite <- IH.
    by destruct (indexOf s (String c "")).
Qed.

Lemma is_digit_range c : is_digit c = true -> 48 <= code c <= 57.
Proof. unfold is_digit, in_range. intros H. bool_hyps. split; assumption. Qed.

Lemma code_range c : 0 <= code c < 256.
Proof. unfold code. destruct c as [[] [] [] [] [] [] [] []]; vm_compute; split; congruence. Qed.

Lemma code_inj c d : code c = code d -> c = d.
Proof.
  unfold code. intros H. rewrite <- (ascii_N_embedding c), <- (ascii_N_embedding d).
  f_equal. lia.
Qed.

Lemma dec_acc_app acc s t : dec_acc acc (s ++ t) = dec_acc (dec_acc acc s) t.
Proof. revert acc; induction s as [|c s IH]; intros acc; simpl; [done|]. apply IH. Qed.

Lemma dec_acc_ge acc s :
  0 <= acc -> str_all is_digit s = true ->
  acc * 10 ^ Z.of_nat (String.length s) <= dec_acc acc s.
Proof.
  revert acc; induction s as [|c s IH]; intros acc Hacc Hs;
    cbn [String.length dec_acc str_all] in *.
  - lia.
  - bool_hyps. pose proof (is_digit_range c ltac:(done)).
    etrans; [|apply IH; [unfold digit_value; lia | done]].
    rewrite Nat2Z.inj_succ, Z.pow_succ_r by lia. unfold digit_value.
    pose proof (Z.pow_nonneg 10 (Z.of_nat (String.length s))). nia.
Qed.

(** ** Number on digit strings *)

Lemma digit_not_space c : is_digit c = true -> is_space c = false.
Proof.
  intros H%is_digit_range. unfold is_space.
  destruct (Z.leb_spec 9 (code c)), (Z.leb_spec (code c) 13), (Z.eqb_spec (code c) 32),
    (Z.eqb_spec (code c) 160); simpl; lia || done.
Qed.

Lemma trim_end_digits s : str_all is_digit s = true -> trim_end s = s.
Proof.
  induction s as [|c s IH]; simpl; [done|]. intros [Hc Hs]%andb_true_iff.
  rewrite IH by done. rewrite digit_not_space by done. by destruct s.
Qed.

Lemma trim_digits s : str_all is_digit s = true -> trim s = s.
Proof.
  intros H. unfold trim. rewrite <- (trim_end_digits s) at 2 by done. f_equal.
  destruct s as [|c s]; simpl in *; [done|]. bool_hyps. by rewrite digit_not_space.
Qed.

Lemma span_digits_all s : str_all is_digit s = true -> span_digits s = (s, "").
Proof.
  induction s as [|c s IH]; simpl; [done|]. intros [Hc Hs]%andb_true_iff.
  by rewrite Hc, IH.
Qed.

Lemma digit_cases c :
  is_digit c = true ->
  c = "0"%char \/ c = "1"%char \/ c = "2"%char \/ c = "3"%char \/ c = "4"%char \/
  c = "5"%char \/ c = "6"%char \/ c = "7"%char \/ c = "8"%char \/ c = "9"%char.
Proof.
  destruct c as [[] [] [] [] [] [] [] []]; vm_compute; intros H; try discriminate H; clear H;
    repeat (first [reflexivity | left; reflexivity | right]).
Qed.

Lemma asInteger_inject z : asInteger (Some (inject_Z z)) = Some z.
Proof. unfold asInteger. simpl. by rewrite Z.mod_1_r, Z.div_1_r. Qed.

Lemma parse_decimal_digits s :
  s <> "" -> str_all is_digit s = true -> parse_decimal s = Some (inject_Z (dec_val s)).
Proof.
  intros Hne Hs. unfold parse_decimal. rewrite span_digits_all by done.
  assert (non_empty s = true) as -> by by destruct s. simpl. unfold scale10. simpl.
  rewrite str_app_nil_r. change (10 ^ 0) with 1. by rewrite Z.mul_1_r.
Qed.

Lemma Number_digits_value s :
  s <> "" -> str_all is_digit s = true -> Number s = Some (inject_Z (dec_val s)).
Proof.
  intros Hne Hs. unfold Number. rewrite trim_digits by done.
  destruct s as [|c r]; [done|]. simpl in Hs. bool_hyps.
  assert (is_sign c = false) as ->.
  { destruct (digit_cases c ltac:(done)) as [->|H']; [done|].
    repeat destruct H' as [->|H']; try done. by subst. }
  rewrite parse_decimal_digits by (try done; simpl; by rewrite H, H0).
  destruct (Ascii.eqb c "0"); [|done]. destruct r as [|d r]; [done|]. simpl in H0. bool_hyps.
  assert (radix_of d = None) as ->; [|done].
  destruct (digit_cases d ltac:(done)) as [->|H']; [done|].
  repeat destruct H' as [->|H']; try done. by subst.
Qed.

Lemma Number_digits s :
  s <> "" -> str_all is_digit s = true -> asInteger (Number s) = Some (dec_val s).
Proof. intros Hne Hs. rewrite Number_digits_value by done. apply asInteger_inject. Qed.

Lemma str_map_app f s t : str_map f (s +:+ t) = str_map f s +:+ str_map f t.
Proof. induction s as [|c s IH]; simpl; [done|]. by rewrite IH. Qed.

Lemma str_map_id f p s : (forall c, p c = true -> f c = c) -> str_all p s = true -> str_map f s = s.
Proof.
  intros Hf. induction s as [|c s IH]; simpl; [done|]. intros [Hc Hs]%andb_true_iff. by rewrite Hf, IH.
Qed.

Lemma str_all_impl (p q : ascii -> bool) s :
  (forall c, p c = true -> q c = true) -> str_all p s = true -> str_all q s = true.
Proof.
  intros Hpq. induction s as [|c s IH]; simpl; [done|].
  intros [Hc Hs]%andb_true_iff. by rewrite (Hpq c Hc), IH.
Qed.

Lemma ascii_of_code c : ascii_of_N (Z.to_N (code c)) = c.
Proof. unfold code. by rewrite N2Z.id, ascii_N_embedding. Qed.

(** A property of one character, checked on all 256 code units. *)
Definition all_chars (p : ascii -> bool) : bool := forall_below 256 (fun n => p (ascii_of_N (Z.to_N n))).

Lemma all_chars_spec p c : all_chars p = true -> p c = true.
Proof.
  intros H. pose proof (forall_below_spec 256 _ (code c) H (code_range c)) as Hc.
  cbv beta in Hc. by rewrite ascii_of_code in Hc.
Qed.

Lemma byteLength_app s t : byteLength (s +:+ t) = byteLength s + byteLength t.
Proof. induction s as [|c s IH]; cbn [byteLength String.append]; [done|]. rewrite IH. lia. Qed.

#[export] Hint Rewrite str_app_nil_r str_app_assoc str_length_app str_all_app
  str_exists_app : jsstr.

Lemma str_app_inj_r s1 s2 t : s1 +:+ t = s2 +:+ t -> s1 = s2.
Proof.
  intros H. assert (String.length s1 = String.length s2) as Hl.
  { apply (f_equal String.length) in H. rewrite !str_length_app in H. lia. }
  apply (f_equal (str_take (String.length s1))) in H. rewrite str_take_app in H.
  by rewrite Hl, str_take_app in H.
Qed.

Lemma str_all_cons p c s : str_all p (String c s) = true <-> p c = true /\ str_all p s = true.
Proof. apply andb_true_iff. Qed.

Lemma str_all_drop p n s : str_all p s = true -> str_all p (str_drop n s) = true.
Proof. revert n. induction s as [|c s IH]; intros [|n]; auto. intros [_ Hs]%str_all_cons. by apply IH. Qed.

Lemma str_all_trim_start p s : str_all p s = true -> str_all p (trim_start s) = true.
Proof.
  induction s as [|c s IH]; [done|]. cbn [trim_start]. destruct (is_space c); [|done].
  intros [_ Hs]%str_all_cons. by apply IH.
Qed.

Lemma str_all_trim p s : str_all p s = true -> str_all p (trim s) = true.
Proof.
  intros Hs%str_all_trim_start. unfold trim. revert Hs. generalize (trim_start s). clear s. intros s.
  induction s as [|c s IH]; [done|]. intros [Hc Hs]%str_all_cons. specialize (IH Hs). cbn [trim_end].
  destruct (trim_end s) as [|d r]; [destruct (is_space c); [done|]|]; by apply str_all_cons.
Qed.

Lemma trim_start_fix s : match s with EmptyString => True | String c _ => is_space c = false end ->
  trim_start s = s.
Proof. destruct s as [|c s]; [done|]. cbn. by intros ->. Qed.

Lemma trim_start_head s : match trim_start s with EmptyString => True | String c _ => is_space c = false end.
Proof. induction s as [|c s IH]; [done|]. cbn. by destruct (is_space c) eqn:E. Qed.

Lemma trim_end_head s : match s with EmptyString => True | String c _ => is_space c = false end ->
  match trim_end s with EmptyString => True | String c _ => is_space c = false end.
Proof. destruct s as [|c s]; [done|]. cbn. intros H. destruct (trim_end s); [by rewrite H|done]. Qed.

Lemma trim_end_idem s : trim_end (trim_end s) = trim_end s.
Proof.
  induction s as [|c s IH]; [done|]. cbn. destruct (trim_end s) as [|d r] eqn:E.
  - destruct (is_space c) eqn:Ec; [done|]. cbn. by rewrite Ec.
  - cbn in IH |- *. by rewrite IH.
Qed.

Lemma trim_idem s : trim (trim s) = trim s.
Proof.
  unfold trim. rewrite (trim_start_fix (trim_end _)); [apply trim_end_idem|].
  apply trim_end_head, trim_start_head.
Qed.

Lemma split_runs_parts p s : Forall (fun g => str_all (fun c => negb (p c)) g = true) (split_runs p s).
Proof.
  induction s as [|c s IH]; cbn; [by repeat constructor|]. destruct (p c) eqn:E.
  - destruct s as [|d s']; [by repeat constructor|]. destruct (p d); [done|]. by constructor.
  - destruct (split_runs p s) as [|h t].
    + constructor; [|done]. cbn. by rewrite E.
    + inversion_clear IH as [|? ? Hh Ht]. constructor; [|done]. cbn. by rewrite E.
Qed.

Lemma split_runs_none p s : str_all (fun c => negb (p c)) s = true -> split_runs p s = [s].
Proof. induction s as [|c s IH]; [done|]. cbn. intros [Hc Hs]%andb_true_iff. apply negb_true_iff in Hc. by rewrite Hc, IH. Qed.

Lemma split_runs_cons p x c d r : str_all (fun c => negb (p c)) x = true -> p c = true -> p d = false ->
  split_runs p (x ++ String c (String d r)) = x :: split_runs p (String d r).
Proof.
  intros Hx Hc Hd. induction x as [|e x IH].
  - cbn [String.append split_runs]. by rewrite Hc, Hd.
  - cbn [str_all] in Hx. apply andb_true_iff in Hx as [He Hx]. apply negb_true_iff in He.
    cbn [String.append]. cbn [split_runs]. rewrite He. specialize (IH Hx). cbn [split_runs] in IH. by rewrite IH.
Qed.

Lemma str_map_length f s : String.length (str_map f s) = String.length s.
Proof. induction s as [|c s IH]; cbn; [done|]. by rewrite IH. Qed.

Lemma str_take_all n s : (String.length s <= n)%nat -> str_take n s = s.
Proof. revert n. induction s as [|c r IH]; intros [|n] Hn; cbn in *; try done; [lia|]. by rewrite IH by lia. Qed.

Lemma str_take_length n s : (String.length (str_take n s) <= n)%nat.
Proof. revert n. induction s as [|c r IH]; intros [|n]; cbn; try lia. specialize (IH n). lia. Qed.

Lemma str_app_inj_l s t1 t2 : s ++ t1 = s ++ t2 -> t1 = t2.
Proof. induction s as [|c s IH]; [done|]. cbn. intros [= H]. by apply IH. Qed.

Lemma join_cons sep x y r : join sep (x :: y :: r) = x ++ sep ++ join sep (y :: r).
Proof. done. Qed.
