(* ===== verification/Regex.v ===== *)
(** Anchored regular expressions, so that the patterns of the source can be
    transcribed symbol by symbol. [re_match r s] is [/^r$/.test(s)], executed
    by derivatives; [re_lang] is its declarative meaning, and [re_match_spec]
    says the two agree. [re_suffix r s] is [/(r)$/.exec(s)], the leftmost
    match that reaches the end of the string. *)

From S2P Require Import Prelude JsString.
From Stdlib Require Import Ascii.

#[local] Open Scope string_scope.

Inductive re : Type :=
| REmpty
| REps
| RCls (p : ascii -> bool)
| RCat (r1 r2 : re)
| RAlt (r1 r2 : re)
| RStar (r : re).

Declare Scope re_scope.
Delimit Scope re_scope with re.
Bind Scope re_scope with re.
Infix "⋅" := RCat (at level 40, left associativity) : re_scope.
Infix "∥" := RAlt (at level 50, left associativity) : re_scope.
#[local] Open Scope re_scope.

(** Derived forms: a literal, [[lo-hi]], [r?], [r+], [r{n}], [r{lo,hi}]. *)
Definition lit (c : ascii) : re := RCls (Ascii.eqb c).
Definition rng (lo hi : ascii) : re := RCls (in_range lo hi).
Definition opt (r : re) : re := r ∥ REps.
Definition plus (r : re) : re := r ⋅ RStar r.
Fixpoint rep (n : nat) (r : re) : re :=
  match n with O => REps | S n' => r ⋅ rep n' r end.
(** A text, character by character. *)
Fixpoint lits (s : string) : re :=
  match s with EmptyString => REps | String.String c r => lit c ⋅ lits r end.
Fixpoint rep_upto (n : nat) (r : re) : re :=
  match n with O => REps | S n' => opt (r ⋅ rep_upto n' r) end.
Definition rep_between (lo hi : nat) (r : re) : re := rep lo r ⋅ rep_upto (hi - lo) r.

(** ** The matcher *)

Fixpoint nullable (r : re) : bool :=
  match r with
  | REmpty | RCls _ => false
  | REps | RStar _ => true
  | RCat r1 r2 => nullable r1 && nullable r2
  | RAlt r1 r2 => nullable r1 || nullable r2
  end.

Definition cat (r1 r2 : re) : re :=
  match r1 with REmpty => REmpty | REps => r2 | _ => RCat r1 r2 end.
Definition alt (r1 r2 : re) : re :=
  match r1, r2 with REmpty, _ => r2 | _, REmpty => r1 | _, _ => RAlt r1 r2 end.

Fixpoint deriv (c : ascii) (r : re) : re :=
  match r with
  | REmpty | REps => REmpty
  | RCls p => if p c then REps else REmpty
  | RCat r1 r2 =>
      if nullable r1 then alt (cat (deriv c r1) r2) (deriv c r2)
      else cat (deriv c r1) r2
  | RAlt r1 r2 => alt (deriv c r1) (deriv c r2)
  | RStar r1 => cat (deriv c r1) (RStar r1)
  end.

Fixpoint re_match (r : re) (s : string) : bool :=
  match s with
  | EmptyString => nullable r
  | String c s' => re_match (deriv c r) s'
  end.

Fixpoint re_suffix (r : re) (s : string) : option string :=
  if re_match r s then Some s
  else match s with
       | EmptyString => None
       | String _ s' => re_suffix r s'
       end.

(** ** The meaning of an expression *)

Inductive re_lang : re -> string -> Prop :=
| L_eps : re_lang REps ""
| L_cls p c : p c = true -> re_lang (RCls p) (String c "")
| L_cat r1 r2 s1 s2 : re_lang r1 s1 -> re_lang r2 s2 -> re_lang (r1 ⋅ r2) (s1 ++ s2)
| L_alt_l r1 r2 s : re_lang r1 s -> re_lang (r1 ∥ r2) s
| L_alt_r r1 r2 s : re_lang r2 s -> re_lang (r1 ∥ r2) s
| L_star_nil r : re_lang (RStar r) ""
| L_star_cons r c s1 s2 :
    re_lang r (String c s1) -> re_lang (RStar r) s2 ->
    re_lang (RStar r) (String c s1 ++ s2).

Create HintDb regex.
#[export] Hint Constructors re_lang : regex.

(** ** Correctness of the matcher *)

Lemma nullable_spec r : nullable r = true <-> re_lang r "".
Proof.
  split.
  - induction r; simpl; intros H; try done; try (by constructor).
    + apply andb_true_iff in H as [? ?].
      change "" with (String.append "" ""). constructor; auto.
    + apply orb_true_iff in H as [?|?]; [apply L_alt_l|apply L_alt_r]; auto.
  - intros H. remember "" as s eqn:Es. revert Es. induction H; intros Es; simpl; try done.
    + destruct s1; [|done]. simpl in Es. subst. by rewrite IHre_lang1, IHre_lang2.
    + by rewrite IHre_lang.
    + rewrite IHre_lang by done. by rewrite orb_true_r.
Qed.

Lemma cat_lang r1 r2 s : re_lang (cat r1 r2) s <-> re_lang (r1 ⋅ r2) s.
Proof.
  destruct r1; simpl; try done.
  - split; intros H; inversion H; by inversion H2.
  - split; intros H; [change s with (String.append "" s); by repeat constructor|].
    inversion H; subst. by inversion H2.
Qed.

Lemma alt_lang r1 r2 s : re_lang (alt r1 r2) s <-> re_lang (r1 ∥ r2) s.
Proof.
  assert (Hl : re_lang r2 s <-> re_lang (REmpty ∥ r2) s).
  { split; [by apply L_alt_r|]. intros H; inversion H; subst; [by inversion H3|done]. }
  assert (Hr : re_lang r1 s <-> re_lang (r1 ∥ REmpty) s).
  { split; [by apply L_alt_l|]. intros H; inversion H; subst; [done|by inversion H3]. }
  destruct r1, r2; simpl; first [done | exact Hl | exact Hr].
Qed.

Lemma star_uncons r c s :
  re_lang (RStar r) (String c s) ->
  exists s1 s2, s = s1 ++ s2 /\ re_lang r (String c s1) /\ re_lang (RStar r) s2.
Proof. intros H. inversion H; subst. eauto. Qed.

Lemma cat_uncons r1 r2 c s :
  re_lang (r1 ⋅ r2) (String c s) <->
  (exists s1 s2, s = s1 ++ s2 /\ re_lang r1 (String c s1) /\ re_lang r2 s2) \/
  (re_lang r1 "" /\ re_lang r2 (String c s)).
Proof.
  split.
  - intros H. inversion H as [| |? ? s1 s2 H1 H2| | | |]; subst.
    destruct s1 as [|d s1]; simpl in *; [by right|]. simplify_eq. left. eauto.
  - intros [(s1 & s2 & -> & H1 & H2)|[H1 H2]].
    + change (String c (s1 ++ s2)) with (String c s1 ++ s2). by constructor.
    + change (String c s) with ("" ++ String c s). by constructor.
Qed.

Lemma deriv_spec c r s : re_lang (deriv c r) s <-> re_lang r (String c s).
Proof.
  revert s; induction r; intros s; simpl.
  - split; intros H; inversion H.
  - split; intros H; inversion H.
  - destruct (p c) eqn:Hp; split; intros H; inversion H; subst; try congruence;
      by constructor.
  - assert (Hc : forall t, re_lang (deriv c r1 ⋅ r2) t <->
      exists s1 s2, t = s1 ++ s2 /\ re_lang r1 (String c s1) /\ re_lang r2 s2).
    { intros t. split.
      - intros H; inversion H; subst. do 2 eexists. rewrite <- IHr1. eauto.
      - intros (s1 & s2 & -> & H1%IHr1 & H2). by constructor. }
    rewrite cat_uncons, <- nullable_spec.
    destruct (nullable r1).
    + rewrite alt_lang. split.
      * intros H; inversion H; subst.
        -- left. by apply Hc, cat_lang.
        -- right. by rewrite <- IHr2.
      * intros [H|[_ H]]; [apply L_alt_l, cat_lang, Hc, H | apply L_alt_r, IHr2, H].
    + rewrite cat_lang, Hc. naive_solver.
  - rewrite alt_lang. split; intros H; inversion H; subst;
      [apply L_alt_l, IHr1 | apply L_alt_r, IHr2 | apply L_alt_l, IHr1 | apply L_alt_r, IHr2];
      done.
  - rewrite cat_lang. split.
    + intros H; inversion H; subst.
      change (String c (s1 ++ s2)) with (String c s1 ++ s2). constructor; [by apply IHr|done].
    + intros (s1 & s2 & -> & H1 & H2)%star_uncons. constructor; [by apply IHr|done].
Qed.

Theorem re_match_spec r s : re_match r s = true <-> re_lang r s.
Proof.
  revert r; induction s as [|c s IH]; intros r; simpl; [apply nullable_spec|].
  by rewrite IH, deriv_spec.
Qed.

(** ** Inversion lemmas for the derived forms *)

Lemma lang_cls p s : re_lang (RCls p) s <-> exists c, s = String c "" /\ p c = true.
Proof.
  split; [intros H; inversion H; subst; eauto|]. intros (c & -> & H). by constructor.
Qed.

Lemma lang_cat r1 r2 s :
  re_lang (r1 ⋅ r2) s <-> exists s1 s2, s = s1 ++ s2 /\ re_lang r1 s1 /\ re_lang r2 s2.
Proof.
  split; [intros H; inversion H; subst; eauto|]. intros (? & ? & -> & ? & ?). by constructor.
Qed.

Lemma lang_alt r1 r2 s : re_lang (r1 ∥ r2) s <-> re_lang r1 s \/ re_lang r2 s.
Proof. split; [intros H; inversion H; subst; eauto|]. intros [?|?]; auto with regex. Qed.

Lemma lang_eps s : re_lang REps s <-> s = "".
Proof. split; [intros H; by inversion H|]. intros ->. constructor. Qed.

Lemma lang_opt r s : re_lang (opt r) s <-> re_lang r s \/ s = "".
Proof. unfold opt. by rewrite lang_alt, lang_eps. Qed.

Lemma lang_lit c s : re_lang (lit c) s <-> s = String c "".
Proof.
  unfold lit. rewrite lang_cls. split.
  - intros (d & -> & ->%Ascii.eqb_eq). done.
  - intros ->. exists c. by rewrite Ascii.eqb_refl.
Qed.

(** Classes under [+] and [*] are character-wise tests. *)
Lemma lang_star_cls p s : re_lang (RStar (RCls p)) s <-> str_all p s = true.
Proof.
  split.
  - intros H. remember (RStar (RCls p)) as r eqn:Er. revert Er.
    induction H as [| | | | | |r c s1 s2 H1 _ H2 IH]; intros; simplify_eq; try done.
    apply lang_cls in H1 as (? & ? & ?). simplify_eq/=. rewrite H0. by apply IH.
  - induction s as [|c s IH]; simpl; [by constructor|].
    intros [Hc Hs]%andb_true_iff.
    change (String c s) with (String c "" ++ s). constructor; [by constructor|auto].
Qed.

Lemma match_plus_cls p s :
  re_match (plus (RCls p)) s = non_empty s && str_all p s.
Proof.
  apply bool_eq_iff. rewrite re_match_spec. unfold plus. rewrite lang_cat, andb_true_iff.
  split.
  - intros (s1 & s2 & -> & (c & -> & Hc)%lang_cls & Hs%lang_star_cls). simpl. by rewrite Hc.
  - intros [Hne Hs]. destruct s as [|c s]; [done|]. simpl in Hs. bool_hyps.
    exists (String c ""), s. rewrite lang_star_cls. split; [done|]. split; [by constructor|done].
Qed.

Lemma match_rep_upto_cls n p s :
  re_match (rep_upto n (RCls p)) s = (String.length s <=? n)%nat && str_all p s.
Proof.
  revert s; induction n as [|n IH]; intros s.
  - destruct s as [|c s]; [done|]. cbn [rep_upto re_match deriv].
    apply bool_eq_iff. rewrite re_match_spec.
    split; [intros H; inversion H|]. simpl. done.
  - apply bool_eq_iff. rewrite re_match_spec. cbn [rep_upto].
    rewrite lang_opt, lang_cat, andb_true_iff, Nat.leb_le. split.
    + intros [(s1 & s2 & -> & (c & -> & Hc)%lang_cls & Hs%re_match_spec)| ->];
        [|simpl; split; [lia|done]].
      rewrite IH in Hs. bool_hyps. simpl. rewrite Hc. split; [simpl; lia|done].
    + intros [Hl Hs]. destruct s as [|c s]; [by right|left]. simpl in *. bool_hyps.
      exists (String c ""), s. rewrite <- (re_match_spec _ s), IH. split; [done|].
      split; [by constructor|]. bool_goal; [apply Nat.leb_le; lia|done].
Qed.

Lemma match_rep_cls n p s :
  re_match (rep n (RCls p)) s = (String.length s =? n)%nat && str_all p s.
Proof.
  revert s. induction n as [|n IH]; intros s; apply bool_eq_iff; rewrite re_match_spec; cbn [rep].
  - rewrite lang_eps, andb_true_iff, Nat.eqb_eq. destruct s; simpl; naive_solver.
  - rewrite lang_cat, andb_true_iff, Nat.eqb_eq. split.
    + intros (s1 & s2 & -> & (c & -> & Hc)%lang_cls & Hs%re_match_spec).
      rewrite IH in Hs. bool_hyps. simpl. rewrite Hc. split; [lia|done].
    + intros [Hl Hs]. destruct s as [|c s]; [done|]. simpl in *. bool_hyps.
      exists (String c ""), s. rewrite <- (re_match_spec _ s), IH. split; [done|].
      split; [by constructor|]. apply andb_true_iff. split; [apply Nat.eqb_eq; lia|done].
Qed.
