(* ===== verification/JsInt.v ===== *)
(** The 32-bit integer operators of JavaScript ([<<], [|], [&], [~],
    [>>> 0]): operands are reduced to signed 32-bit integers, [<<] wraps
    around, and [>>> 0] reinterprets the result as unsigned. *)

From S2P Require Import Prelude.

#[local] Open Scope Z_scope.

Definition to_uint32 (z : Z) : Z := z mod 2 ^ 32.
Definition to_int32 (z : Z) : Z :=
  let m := z mod 2 ^ 32 in if m <? 2 ^ 31 then m else m - 2 ^ 32.

Definition js_shl (a n : Z) : Z := to_int32 (Z.shiftl (to_int32 a) (n mod 32)).
Definition js_or (a b : Z) : Z := to_int32 (Z.lor (to_int32 a) (to_int32 b)).
Definition js_and (a b : Z) : Z := to_int32 (Z.land (to_int32 a) (to_int32 b)).
Definition js_not (a : Z) : Z := to_int32 (Z.lnot (to_int32 a)).
Definition js_shr (a n : Z) : Z := Z.shiftr (to_int32 a) (n mod 32).
Definition js_ushr0 (a : Z) : Z := to_uint32 a.

Example shl_wraps : js_shl 255 24 = -16777216 /\ js_ushr0 (js_shl 255 24) = 4278190080.
Proof. vm_compute. done. Qed.

(** ** Lemmas *)

Lemma to_uint32_range z : 0 <= to_uint32 z < 2 ^ 32.
Proof. apply Z.mod_pos_bound. lia. Qed.

Lemma to_uint32_small z : 0 <= z < 2 ^ 32 -> to_uint32 z = z.
Proof. apply Z.mod_small. Qed.

Lemma to_uint32_int32 z : to_uint32 (to_int32 z) = to_uint32 z.
Proof.
  unfold to_uint32, to_int32. destruct (Z.ltb_spec (z mod 2 ^ 32) (2 ^ 31)).
  - apply Z.mod_mod. lia.
  - rewrite <- (Z_mod_plus_full (z mod 2 ^ 32 - 2 ^ 32) 1), Z.mul_1_l, Z.sub_add.
    apply Z.mod_mod. lia.
Qed.

Lemma to_int32_eq a b : to_int32 a = to_int32 b <-> to_uint32 a = to_uint32 b.
Proof.
  split; intros H.
  - rewrite <- (to_uint32_int32 a), <- (to_uint32_int32 b). by rewrite H.
  - unfold to_int32. unfold to_uint32 in H. by rewrite H.
Qed.

Lemma to_int32_small z : 0 <= z < 2 ^ 31 -> to_int32 z = z.
Proof.
  intros H. unfold to_int32. rewrite Z.mod_small by lia.
  destruct (Z.ltb_spec z (2 ^ 31)); lia.
Qed.

Lemma uint32_lor a b : to_uint32 (Z.lor a b) = Z.lor (to_uint32 a) (to_uint32 b).
Proof.
  unfold to_uint32. apply Z.bits_inj'. intros n Hn.
  rewrite Z.lor_spec, !Z.testbit_mod_pow2, Z.lor_spec by lia.
  by destruct (n <? 32).
Qed.

Lemma uint32_land a b : to_uint32 (Z.land a b) = Z.land (to_uint32 a) (to_uint32 b).
Proof.
  unfold to_uint32. apply Z.bits_inj'. intros n Hn.
  rewrite Z.land_spec, !Z.testbit_mod_pow2, Z.land_spec by lia.
  by destruct (n <? 32).
Qed.

Lemma uint32_js_or a b : to_uint32 (js_or a b) = Z.lor (to_uint32 a) (to_uint32 b).
Proof. unfold js_or. by rewrite to_uint32_int32, uint32_lor, !to_uint32_int32. Qed.

Lemma uint32_js_and a b : to_uint32 (js_and a b) = Z.land (to_uint32 a) (to_uint32 b).
Proof. unfold js_and. by rewrite to_uint32_int32, uint32_land, !to_uint32_int32. Qed.

Lemma uint32_js_shl a n :
  0 <= n < 32 -> to_uint32 (js_shl a n) = to_uint32 (to_uint32 a * 2 ^ n).
Proof.
  intros Hn. unfold js_shl. rewrite to_uint32_int32, (Z.mod_small n) by lia.
  rewrite Z.shiftl_mul_pow2 by lia. unfold to_uint32 at 1 2.
  rewrite <- Z.mul_mod_idemp_l by lia. fold (to_uint32 (to_int32 a)).
  by rewrite to_uint32_int32.
Qed.

(** Or-ing in a value below the shift amount is addition. *)
Lemma lor_low a b k : 0 <= k -> 0 <= b < 2 ^ k -> Z.lor (a * 2 ^ k) b = a * 2 ^ k + b.
Proof.
  intros Hk Hb. assert (Z.land (a * 2 ^ k) b = 0) as H0.
  { apply Z.bits_inj'. intros n Hn. rewrite Z.land_spec, Z.bits_0.
    destruct (Z.ltb_spec n k).
    - by rewrite Z.mul_pow2_bits_low.
    - rewrite <- (Z.mod_small b (2 ^ k)), Z.mod_pow2_bits_high by lia. apply andb_false_r. }
  rewrite Z.add_nocarry_lxor by done. by rewrite Z.lxor_lor.
Qed.

(** Masking with the top bits of a [w]-bit word keeps the quotient. *)
Lemma land_top_mask x w k :
  0 <= k <= w -> 0 <= x < 2 ^ w -> Z.land x (2 ^ w - 2 ^ k) = x / 2 ^ k * 2 ^ k.
Proof.
  intros Hk Hx.
  assert (2 ^ w - 2 ^ k = Z.shiftl (Z.ones (w - k)) k) as ->.
  { rewrite Z.shiftl_mul_pow2, Z.ones_equiv by lia. unfold Z.pred.
    rewrite Z.mul_add_distr_r, <- Z.pow_add_r by lia. replace (w - k + k) with w by lia. lia. }
  apply Z.bits_inj'. intros n Hn.
  rewrite Z.land_spec, Z.shiftl_spec by lia.
  rewrite <- Z.shiftr_div_pow2, <- Z.shiftl_mul_pow2, Z.shiftl_spec by lia.
  destruct (Z.ltb_spec n k).
  - rewrite !(Z.testbit_neg_r _ (n - k)) by lia. apply andb_false_r.
  - rewrite Z.shiftr_spec by lia. replace (n - k + k) with n by lia.
    rewrite Z.testbit_ones_nonneg by lia.
    destruct (Z.ltb_spec (n - k) (w - k)); [apply andb_true_r|].
    rewrite andb_false_r. rewrite <- (Z.mod_small x (2 ^ w)) by lia.
    symmetry. apply Z.mod_pow2_bits_high. lia.
Qed.

Lemma div_mul_eq_iff x y m : 0 < m -> x / m * m = y / m * m <-> x / m = y / m.
Proof. intros Hm. split; [|by intros ->]. intros H. by apply Z.mul_reg_r in H; [|lia]. Qed.
