(* ===== verification/JsDate.v ===== *)
(** [new Date(ms).toISOString()], the ECMAScript rendering of an instant in
    the proleptic Gregorian calendar; [None] is its [RangeError]. *)

From S2P Require Import Prelude JsString.
From Stdlib Require Import Ascii.

#[local] Open Scope string_scope.
#[local] Open Scope Z_scope.

Fixpoint pad (width : nat) (v : Z) : string :=
  match width with
  | O => ""
  | S w => pad w (v / 10) +:+ String.String (digit_char (v mod 10)) ""
  end.

(** Year, month and day of a day number counted from 1970-01-01, in the
    proleptic Gregorian calendar. *)
Definition civil_of_days (days : Z) : Z * Z * Z :=
  let z := days + 719468 in
  let era := z / 146097 in
  let doe := z mod 146097 in
  let yoe := (doe - doe / 1460 + doe / 36524 - doe / 146096) / 365 in
  let doy := doe - (365 * yoe + yoe / 4 - yoe / 100) in
  let mp := (5 * doy + 2) / 153 in
  let d := doy - (153 * mp + 2) / 5 + 1 in
  let m := if mp <? 10 then mp + 3 else mp - 9 in
  (yoe + era * 400 + (if m <=? 2 then 1 else 0), m, d).

Definition show_year (y : Z) : string :=
  if (0 <=? y) && (y <=? 9999) then pad 4 y
  else (if y <? 0 then "-" else "+") +:+ pad 6 (Z.abs y).

Definition toISOString (ms : Z) : option string :=
  if 8640000000000000 <? Z.abs ms then None
  else
    let '(y, m, d) := civil_of_days (ms / 86400000) in
    let t := ms mod 86400000 in
    Some (show_year y +:+ "-" +:+ pad 2 m +:+ "-" +:+ pad 2 d +:+ "T" +:+ pad 2 (t / 3600000)
          +:+ ":" +:+ pad 2 (t / 60000 mod 60) +:+ ":" +:+ pad 2 (t / 1000 mod 60)
          +:+ "." +:+ pad 3 (t mod 1000) +:+ "Z").

Example toISOString_examples :
  toISOString 0 = Some "1970-01-01T00:00:00.000Z" /\
  toISOString 1709210096789 = Some "2024-02-29T12:34:56.789Z" /\
  toISOString (-1) = Some "1969-12-31T23:59:59.999Z" /\
  toISOString 281474976710655 = Some "+010889-08-02T05:31:50.655Z".
Proof. repeat split. Qed.

(** ** Date.parse *)

(** Read a number of exactly [n] digits. *)
Fixpoint digits_n (n : nat) (acc : Z) (s : string) : option (Z * string) :=
  match n, s with
  | O, _ => Some (acc, s)
  | S k, String.String c r => if is_digit c then digits_n k (10 * acc + digit_value c) r else None
  | S _, EmptyString => None
  end.

Definition expect (c : ascii) (s : string) : option string :=
  match s with String.String d r => if Ascii.eqb c d then Some r else None | EmptyString => None end.

Definition days_of_civil (y m d : Z) : Z :=
  let y' := y - (if m <=? 2 then 1 else 0) in
  let era := y' / 400 in
  let yoe := y' mod 400 in
  let doy := (153 * (if 2 <? m then m - 3 else m + 9) + 2) / 5 + d - 1 in
  era * 146097 + (yoe * 365 + yoe / 4 - yoe / 100 + doy) - 719468.

Definition read_year (s : string) : option (Z * string) :=
  match s with
  | String.String c r =>
      if Ascii.eqb c "+" then digits_n 6 0 r
      else if Ascii.eqb c "-" then p ← digits_n 6 0 r; Some (- fst p, snd p)
      else digits_n 4 0 s
  | EmptyString => None
  end.

(** [Date.parse] on the full form that [toISOString] prints; the shorter forms
    and what else a platform accepts are left out. *)
Definition parseISO (s : string) : option Z :=
  '(y, s) ← read_year s; s ← expect "-" s; '(m, s) ← digits_n 2 0 s; s ← expect "-" s; '(d, s) ← digits_n 2 0 s;
  s ← expect "T" s; '(hh, s) ← digits_n 2 0 s; s ← expect ":" s; '(mm, s) ← digits_n 2 0 s; s ← expect ":" s;
  '(ss, s) ← digits_n 2 0 s; s ← expect "." s; '(ml, s) ← digits_n 3 0 s; s ← expect "Z" s;
  match s with
  | EmptyString => Some (days_of_civil y m d * 86400000 + (hh * 3600000 + mm * 60000 + ss * 1000 + ml))
  | _ => None
  end.

Lemma digits_n_snoc n : forall acc s a c r,
  digits_n n acc s = Some (a, String.String c r) -> is_digit c = true -> digits_n (S n) acc s = Some (10 * a + digit_value c, r).
Proof.
  induction n as [|n IH]; intros acc s a c r.
  - cbn. intros [= -> ->] Hc. by rewrite Hc.
  - intros H Hc. destruct s as [|x s]; [done|]. cbn [digits_n] in H. change (digits_n (S (S n)) acc (String.String x s)) with
      (if is_digit x then digits_n (S n) (10 * acc + digit_value x) s else None).
    destruct (is_digit x); [|done]. by apply IH.
Qed.

Lemma digit_char_read d : 0 <= d < 10 -> is_digit (digit_char d) = true /\ digit_value (digit_char d) = d.
Proof.
  intros H. assert (d = 0 \/ d = 1 \/ d = 2 \/ d = 3 \/ d = 4 \/ d = 5 \/ d = 6 \/ d = 7 \/ d = 8 \/ d = 9) as Hd by lia.
  repeat destruct Hd as [-> | Hd]; [..|subst d]; by vm_compute.
Qed.

Lemma digits_n_pad w : forall acc v rest, 0 <= v < 10 ^ Z.of_nat w ->
  digits_n w acc (pad w v +:+ rest) = Some (acc * 10 ^ Z.of_nat w + v, rest).
Proof.
  induction w as [|w IH]; intros acc v rest H.
  - cbn in *. f_equal. f_equal. lia.
  - rewrite Nat2Z.inj_succ, Z.pow_succ_r in * by lia. cbn [pad]. rewrite str_app_assoc.
    destruct (digit_char_read (v mod 10)) as [H1 H2]; [apply Z.mod_pos_bound; lia|].
    erewrite digits_n_snoc; [|apply IH|exact H1].
    + rewrite H2. f_equal. f_equal. pose proof (Z.div_mod v 10). lia.
    + split; [apply Z.div_pos; lia|]. apply Z.div_lt_upper_bound; lia.
Qed.

Lemma expect_app c rest : expect c (String.String c "" +:+ rest) = Some rest.
Proof. cbn. by rewrite Ascii.eqb_refl. Qed.

(** Inside an era of 400 years that start in March. *)
Lemma year_of_era doe : 0 <= doe < 146097 ->
  let yoe := (doe - doe / 1460 + doe / 36524 - doe / 146096) / 365 in
  0 <= yoe < 400 /\ 0 <= doe - (365 * yoe + yoe / 4 - yoe / 100) <= 365.
Proof. intros H yoe. subst yoe. Z.div_mod_to_equations. lia. Qed.

Lemma month_of_year doy : 0 <= doy <= 365 ->
  let mp := (5 * doy + 2) / 153 in
  let m := if mp <? 10 then mp + 3 else mp - 9 in
  let d := doy - (153 * mp + 2) / 5 + 1 in
  1 <= m <= 12 /\ 1 <= d <= 31 /\ (153 * (if 2 <? m then m - 3 else m + 9) + 2) / 5 + d - 1 = doy.
Proof.
  intros H mp m d. assert (0 <= mp <= 11) by (subst mp; Z.div_mod_to_equations; lia).
  assert ((if 2 <? m then m - 3 else m + 9) = mp) as ->.
  { subst m. destruct (Z.ltb_spec mp 10); [destruct (Z.ltb_spec 2 (mp + 3))|destruct (Z.ltb_spec 2 (mp - 9))]; lia. }
  split; [subst m; destruct (Z.ltb_spec mp 10); lia|]. split; [subst d mp; Z.div_mod_to_equations; lia|]. lia.
Qed.

Lemma civil_spec z y m d : civil_of_days z = (y, m, d) ->
  days_of_civil y m d = z /\ 1 <= m <= 12 /\ 1 <= d <= 31 /\ (z + 719468) / 146097 * 400 <= y <= (z + 719468) / 146097 * 400 + 400.
Proof.
  unfold civil_of_days. set (era := (z + 719468) / 146097). set (doe := (z + 719468) mod 146097).
  assert (0 <= doe < 146097) as Hd by (apply Z.mod_pos_bound; lia).
  assert (z = era * 146097 + doe - 719468) as Hz by (pose proof (Z.div_mod (z + 719468) 146097); lia).
  destruct (year_of_era doe Hd) as [Hyoe Hdoy]. cbn zeta in Hyoe, Hdoy. cbn zeta.
  set (yoe := (doe - doe / 1460 + doe / 36524 - doe / 146096) / 365) in *.
  destruct (month_of_year (doe - (365 * yoe + yoe / 4 - yoe / 100)) Hdoy) as (Hm & Hday & Hback). cbn zeta in Hm, Hday, Hback.
  set (doy := doe - (365 * yoe + yoe / 4 - yoe / 100)) in *. set (mp := (5 * doy + 2) / 153) in *.
  set (m0 := if mp <? 10 then mp + 3 else mp - 9) in *. set (d0 := doy - (153 * mp + 2) / 5 + 1) in *.
  intros [= <- <- <-]. unfold days_of_civil.
  replace (yoe + era * 400 + (if m0 <=? 2 then 1 else 0) - (if m0 <=? 2 then 1 else 0)) with (yoe + era * 400) by lia.
  rewrite Z.div_add, Z.mod_add by lia. rewrite (Z.div_small yoe), (Z.mod_small yoe) by lia. rewrite Hback.
  split; [subst doy; lia|]. split; [done|]. split; [done|]. destruct (m0 <=? 2); lia.
Qed.

(** The instant that is printed is the one that is read. *)
Lemma parse_toISOString ms s : toISOString ms = Some s -> parseISO s = Some ms.
Proof.
  unfold toISOString. destruct (Z.ltb_spec 8640000000000000 (Z.abs ms)) as [|Hms]; [done|].
  destruct (civil_of_days (ms / 86400000)) as [[y m] d] eqn:Hc. apply civil_spec in Hc as (Hdays & Hm & Hd & Hy).
  set (t := ms mod 86400000). assert (0 <= t < 86400000) as Ht by (apply Z.mod_pos_bound; lia). intros Hs. apply (inj Some) in Hs. subst s.
  assert (-1000000 < y < 1000000) as Hy6.
  { assert (-100000001 <= ms / 86400000 <= 100000001) by (split; [apply Z.div_le_lower_bound|apply Z.div_le_upper_bound]; lia).
    assert (-700 <= (ms / 86400000 + 719468) / 146097 <= 700) by (split; [apply Z.div_le_lower_bound|apply Z.div_le_upper_bound]; lia). lia. }
  assert (forall rest, read_year (show_year y +:+ "-" +:+ rest) = Some (y, "-" +:+ rest)) as Hyear.
  { intros rest. unfold show_year. destruct ((0 <=? y) && (y <=? 9999)) eqn:Hr.
    - assert (exists c r, pad 4 y = String.String c r /\ is_digit c = true) as (c & r & He & Hcd).
      { cbn [pad]. eexists _, _. split; [reflexivity|]. apply digit_char_read. apply Z.mod_pos_bound. lia. }
      pose proof (digits_n_pad 4 0 y ("-" +:+ rest) ltac:(lia)) as Hp. rewrite He in *. cbn [String.append read_year] in *.
      destruct (Ascii.eqb_spec c "+") as [->|_]; [done|]. destruct (Ascii.eqb_spec c "-") as [->|_]; [done|].
      rewrite Hp. f_equal.
    - pose proof (digits_n_pad 6 0 (Z.abs y) ("-" +:+ rest) ltac:(lia)) as Hp. destruct (Z.ltb_spec y 0).
      + change (("-" +:+ pad 6 (Z.abs y)) +:+ "-" +:+ rest) with (String.String "-" (pad 6 (Z.abs y) +:+ "-" +:+ rest)).
        cbn [read_year]. change (Ascii.eqb "-" "+") with false. change (Ascii.eqb "-" "-") with true. cbv iota.
        rewrite Hp. cbn [mbind option_bind fst snd]. f_equal. f_equal. lia.
      + change (("+" +:+ pad 6 (Z.abs y)) +:+ "-" +:+ rest) with (String.String "+" (pad 6 (Z.abs y) +:+ "-" +:+ rest)).
        cbn [read_year]. change (Ascii.eqb "+" "+") with true. cbv iota. rewrite Hp. f_equal. f_equal. lia. }
  unfold parseISO. rewrite Hyear. cbn [mbind option_bind].
  assert (0 <= t / 3600000 < 100) by (split; [apply Z.div_pos|apply Z.div_lt_upper_bound]; lia).
  assert (0 <= t / 60000 mod 60 < 60) by (apply Z.mod_pos_bound; lia).
  assert (0 <= t / 1000 mod 60 < 60) by (apply Z.mod_pos_bound; lia).
  assert (0 <= t mod 1000 < 1000) by (apply Z.mod_pos_bound; lia).
  repeat first [rewrite expect_app; cbn [mbind option_bind] | rewrite digits_n_pad by (cbn; lia); cbn [mbind option_bind]].
  change (expect "Z" "Z") with (Some ""). cbn [mbind option_bind]. f_equal. rewrite !Z.mul_0_l, !Z.add_0_l, Hdays.
  assert (t / 3600000 * 3600000 + t / 60000 mod 60 * 60000 + t / 1000 mod 60 * 1000 + t mod 1000 = t) as ->.
  { clear -Ht. Z.div_mod_to_equations. lia. }
  pose proof (Z.div_mod ms 86400000). lia.
Qed.
