(* ===== verification/Prog.v ===== *)
(** Handlers that call services, as programs.

    A handler of the source awaits calls of an SDK, reads the clock, writes
    log lines and metrics, and returns or throws. Here it is a tree: [Send] a
    typed command and continue with its result, read [Now], [Emit] an event,
    [Ret]urn or [Raise]. A [Service] says what a command does to the state of
    the outside world. [run] executes one program alone, where each message
    may be delivered, lost on the way, or lost on the way back; [run_steps]
    interleaves programs, one step at a time. *)

From S2P Require Import Prelude.

(** Commands [C], whose type says what they answer; errors [CE] of a command
    and [E] of a handler; events [Ev]. *)
Inductive prog (C : Type -> Type) (CE E Ev A : Type) : Type :=
| Ret (a : A)
| Raise (e : E)
| Now (k : Z -> prog C CE E Ev A)
| Emit (e : Ev) (p : prog C CE E Ev A)
| Send {X : Type} (c : C X) (k : result CE X -> prog C CE E Ev A).
Arguments Ret {C CE E Ev A} a.
Arguments Raise {C CE E Ev A} e.
Arguments Now {C CE E Ev A} k.
Arguments Emit {C CE E Ev A} e p.
Arguments Send {C CE E Ev A X} c k.

(** [try { return ok(p) } catch (e) { return err(e) }]. *)
Fixpoint try_catch {C CE E F Ev A B} (p : prog C CE E Ev A) (ok : A -> B) (err : E -> B) :
    prog C CE F Ev B :=
  match p with
  | Ret a => Ret (ok a)
  | Raise e => Ret (err e)
  | Now k => Now (fun t => try_catch (k t) ok err)
  | Emit e p => Emit e (try_catch p ok err)
  | Send c k => Send c (fun r => try_catch (k r) ok err)
  end.

(** The world [W] the commands act on. *)
Class Service (W : Type) (C : Type -> Type) (CE Ev : Type) := {
  perform : forall {X : Type}, W -> C X -> W * result CE X;
  lost : CE;
  record_event : W -> Ev -> W
}.

Inductive delivery := Delivered | LostRequest | LostReply.

Section service.
Context {W : Type} {C : Type -> Type} {CE E Ev : Type} `{Service W C CE Ev}.

Definition deliver {X} (dv : delivery) (w : W) (c : C X) : W * result CE X :=
  match dv with
  | Delivered => perform w c
  | LostRequest => (w, Throw lost)
  | LostReply => (fst (perform w c), Throw lost)
  end.

(** Alone, each step [n] with its clock reading and delivery [env n]. *)
Fixpoint run {A} (p : prog C CE E Ev A) (env : nat -> Z * delivery) (n : nat) (w : W) : W * result E A :=
  match p with
  | Ret a => (w, Ok a)
  | Raise e => (w, Throw e)
  | Now k => run (k (fst (env n))) env (S n) w
  | Emit e p => run p env (S n) (record_event w e)
  | Send c k =>
      let '(w', r) := deliver (snd (env n)) w c in
      run (k r) env (S n) w'
  end.

(** One step of a program beside others. *)
Definition step {A} (now : Z) (dv : delivery) (w : W) (p : prog C CE E Ev A) : W * prog C CE E Ev A :=
  match p with
  | Ret _ | Raise _ => (w, p)
  | Now k => (w, k now)
  | Emit e p => (record_event w e, p)
  | Send c k => let '(w', r) := deliver dv w c in (w', k r)
  end.

Fixpoint run_steps {A} (sched : list (nat * (Z * delivery))) (w : W) (ps : list (prog C CE E Ev A)) :
    W * list (prog C CE E Ev A) :=
  match sched with
  | [] => (w, ps)
  | (i, (now, dv)) :: rest =>
      match ps !! i with
      | None => run_steps rest w ps
      | Some p => let '(w', p') := step now dv w p in run_steps rest w' (<[i := p']> ps)
      end
  end.
End service.

(** A run in which every message is delivered, with clock [ms]. *)
Definition delivered (ms : nat -> Z) : nat -> Z * delivery := fun n => (ms n, Delivered).

(** An invariant of the interleaving is one of its steps. *)
Lemma run_steps_ind {W C CE E Ev A} `{Service W C CE Ev}
    (I : W -> list (prog C CE E Ev A) -> Prop) (Ok_ : nat * (Z * delivery) -> Prop) sched w ps :
  (forall w ps i now dv p, I w ps -> Ok_ (i, (now, dv)) -> ps !! i = Some p ->
     I (fst (step now dv w p)) (<[i := snd (step now dv w p)]> ps)) ->
  I w ps -> Forall Ok_ sched ->
  let '(w', ps') := run_steps sched w ps in I w' ps'.
Proof.
  intros Hstep. revert w ps. induction sched as [|[i [now dv]] sched IH]; intros w ps HI Hs; [done|].
  inversion Hs as [|? ? Hok Hs']; subst. cbn [run_steps].
  destruct (ps !! i) as [p|] eqn:E0; [|by apply IH].
  specialize (Hstep w ps i now dv p HI Hok E0). destruct (step now dv w p) as [w' p']. by apply IH.
Qed.

(** ** Sequencing *)

(** [p] as the body of a [try] whose outcome the rest sees. *)
Fixpoint attempt {C CE E F Ev A B} (p : prog C CE E Ev A) (k : result E A -> prog C CE F Ev B) :
    prog C CE F Ev B :=
  match p with
  | Ret a => k (Ok a)
  | Raise e => k (Throw e)
  | Now f => Now (fun t => attempt (f t) k)
  | Emit e p => Emit e (attempt p k)
  | Send c f => Send c (fun r => attempt (f r) k)
  end.

(** [const a = await p; k]. *)
Definition await {C CE E Ev A B} (p : prog C CE E Ev A) (k : A -> prog C CE E Ev B) : prog C CE E Ev B :=
  attempt p (fun r => match r with Ok a => k a | Throw e => Raise e end).

Declare Scope prog_scope.
Delimit Scope prog_scope with prog.
Notation "'let!' x ':=' p 'in' k" := (await p (fun x => k))
  (at level 10, x pattern, p at level 100, k at level 200) : prog_scope.

(** ** Weakest preconditions

    [wp T D p w Q]: run alone from [w], with clock readings in [T] and
    deliveries in [D], [p] ends in a world and an outcome that satisfy [Q]. *)
Section wp.
Context {W : Type} {C : Type -> Type} {CE Ev : Type} `{Service W C CE Ev}.
Context (T : Z -> Prop) (D : delivery -> Prop).

Fixpoint wp {E A} (p : prog C CE E Ev A) (w : W) (Q : W -> result E A -> Prop) : Prop :=
  match p with
  | Ret a => Q w (Ok a)
  | Raise e => Q w (Throw e)
  | Now k => forall t, T t -> wp (k t) w Q
  | Emit e p => wp p (record_event w e) Q
  | Send c k => forall dv, D dv -> wp (k (snd (deliver dv w c))) (fst (deliver dv w c)) Q
  end.

Lemma wp_run {E A} (p : prog C CE E Ev A) env Q : forall n w,
  (forall i, T (fst (env i)) /\ D (snd (env i))) -> wp p w Q ->
  let '(w', r) := run p env n w in Q w' r.
Proof.
  intros n w Henv. revert n w. induction p as [a|e|k IH|e p IH|X c k IH]; intros n w Hp; cbn in *.
  - done.
  - done.
  - apply IH, Hp, Henv.
  - by apply IH.
  - specialize (Hp (snd (env n)) (proj2 (Henv n))).
    destruct (deliver (snd (env n)) w c) as [w' r]. by apply IH.
Qed.

Lemma wp_weaken {E A} (p : prog C CE E Ev A) (P Q : W -> result E A -> Prop) : forall w,
  (forall w' r, P w' r -> Q w' r) -> wp p w P -> wp p w Q.
Proof.
  intros w HPQ. revert w. induction p as [a|e|k IH|e p IH|X c k IH]; intros w; cbn; auto.
Qed.

Lemma wp_attempt {E F A B} (p : prog C CE E Ev A) (k : result E A -> prog C CE F Ev B) Q : forall w,
  wp p w (fun w' r => wp (k r) w' Q) -> wp (attempt p k) w Q.
Proof. induction p as [a|e|f IH|e p IH|X c f IH]; intros w; cbn; auto. Qed.

Lemma wp_await {E A B} (p : prog C CE E Ev A) (k : A -> prog C CE E Ev B) Q w :
  wp p w (fun w' r => match r with Ok a => wp (k a) w' Q | Throw e => Q w' (Throw e) end) ->
  wp (await p k) w Q.
Proof.
  intros Hp. apply wp_attempt. revert Hp. apply wp_weaken. by intros w' [a|e].
Qed.
End wp.

(** ** Programs that send only some commands *)

Section sends.
Context {C : Type -> Type} {CE Ev : Type} (allowed : forall X, C X -> Prop).

Fixpoint sends {E A} (p : prog C CE E Ev A) : Prop :=
  match p with
  | Ret _ | Raise _ => True
  | Now k => forall t, sends (k t)
  | Emit _ p => sends p
  | @Send _ _ _ _ _ X c k => allowed X c /\ forall r, sends (k r)
  end.

Lemma sends_attempt {E F A B} (p : prog C CE E Ev A) (k : result E A -> prog C CE F Ev B) :
  sends p -> (forall r, sends (k r)) -> sends (attempt p k).
Proof. induction p as [a|e|f IH|e p IH|X c f IH]; cbn; naive_solver. Qed.

Lemma sends_await {E A B} (p : prog C CE E Ev A) (k : A -> prog C CE E Ev B) :
  sends p -> (forall a, sends (k a)) -> sends (await p k).
Proof. intros Hp Hk. apply sends_attempt; [done|]. by intros [a|e]; [apply Hk|]. Qed.

(** What all of them preserve, they preserve together. *)
Lemma wp_sends {W} `{Service W C CE Ev} T D {E A} (I : W -> Prop) (p : prog C CE E Ev A) w :
  (forall X (c : C X) dv w, D dv -> allowed X c -> I w -> I (fst (deliver dv w c))) ->
  (forall e w, I w -> I (record_event w e)) ->
  sends p -> I w -> wp T D p w (fun w' _ => I w').
Proof.
  intros Hc He. revert w. induction p as [a|e|f IH|e p IH|X c f IH]; intros w; cbn; auto.
  intros [Ha Hk] HI dv Hdv. apply IH; [done|]. by apply Hc.
Qed.
End sends.

Definition any_time (t : Z) : Prop := True.
Definition any_delivery (d : delivery) : Prop := True.

(** ** Interleaving and potentials

    A command gives its sender [gain] units, at the expense of the world's
    potential [m]. [budget Q b p]: started with [b] units, [p] sends only
    [allowed] commands, never has less than none, and ends with a balance and
    an outcome in [Q], as long as clocks are in [T] and replies in [replies].
    Then, however programs interleave, what their results [claim] is bounded
    by what they and the world had. *)
Definition sumZ : list Z -> Z := foldr Z.add 0%Z.

Lemma sumZ_insert (bs : list Z) i b b' :
  bs !! i = Some b -> sumZ (<[i := b']> bs) = (sumZ bs - b + b')%Z.
Proof.
  revert i. induction bs as [|x bs IH]; intros [|i]; simpl; [done|done| |].
  - intros [= ->]. lia.
  - intros Hi. rewrite (IH _ Hi). lia.
Qed.

Lemma sumZ_zero {X} (f : X -> Z) l : (forall x, f x = 0%Z) -> sumZ (map f l) = 0%Z.
Proof. intros Hf. induction l as [|x l IH]; simpl; [done|]. by rewrite Hf, IH. Qed.

Section potential.
Context {W : Type} {C : Type -> Type} {CE Ev : Type} `{Service W C CE Ev}.
Context (T : Z -> Prop) (I : W -> Prop) (m : W -> Z).
Context (allowed : forall X, C X -> Prop) (replies : forall X, C X -> result CE X -> Prop).
Context (gain : forall X, C X -> result CE X -> Z).

Fixpoint budget {E A} (Q : Z -> result E A -> Prop) (b : Z) (p : prog C CE E Ev A) : Prop :=
  match p with
  | Ret a => Q b (Ok a)
  | Raise e => Q b (Throw e)
  | Now k => (0 <= b)%Z /\ forall t, T t -> budget Q b (k t)
  | Emit _ p => (0 <= b)%Z /\ budget Q b p
  | @Send _ _ _ _ _ X c k =>
      (0 <= b)%Z /\ allowed X c /\ forall r, replies X c r -> budget Q (b + gain X c r)%Z (k r)
  end.

Lemma budget_weaken {E A} (P Q : Z -> result E A -> Prop) p : forall b,
  (forall b' r, P b' r -> Q b' r) -> budget P b p -> budget Q b p.
Proof.
  intros b HPQ. revert b. induction p as [a|e|k IH|e p IH|X c k IH]; intros b; cbn; naive_solver.
Qed.

Lemma budget_attempt {E F A B} (p : prog C CE E Ev A) (k : result E A -> prog C CE F Ev B) Q : forall b,
  budget (fun b' r => budget Q b' (k r)) b p -> budget Q b (attempt p k).
Proof. induction p as [a|e|f IH|e p IH|X c f IH]; intros b; cbn; naive_solver. Qed.

Lemma budget_await {E A B} (p : prog C CE E Ev A) (k : A -> prog C CE E Ev B) Q b :
  budget (fun b' r => match r with Ok a => budget Q b' (k a) | Throw e => Q b' (Throw e) end) b p ->
  budget Q b (await p k).
Proof. intros Hp. apply budget_attempt. revert Hp. apply budget_weaken. by intros b' [a|e]. Qed.

Context {E A : Type} (claim : A -> Z).

(** A finished program's balance covers what its result claims. *)
Definition settles (b : Z) (r : result E A) : Prop :=
  match r with Ok a => (0 <= b)%Z /\ (claim a <= b)%Z | Throw _ => (0 <= b)%Z end.

Definition claimed (p : prog C CE E Ev A) : Z := match p with Ret a => claim a | _ => 0%Z end.

Lemma claimed_sum bs ps : Forall2 (budget settles) bs ps -> (sumZ (map claimed ps) <= sumZ bs)%Z.
Proof.
  induction 1 as [|b p bs ps Hb _ IH]; [cbn; lia|]. simpl.
  assert (claimed p <= b)%Z by (destruct p; cbn in *; naive_solver lia). lia.
Qed.

Lemma run_steps_potential sched w ps bs :
  (forall X w (c : C X) dv, I w -> allowed X c ->
     let '(w', r) := deliver dv w c in I w' /\ replies X c r /\ (m w' + gain X c r <= m w)%Z) ->
  (forall w e, I w -> I (record_event w e) /\ (m (record_event w e) <= m w)%Z) ->
  Forall2 (budget settles) bs ps -> Forall (fun s => T (fst (snd s))) sched -> I w ->
  let '(w', ps') := run_steps sched w ps in
  I w' /\ (sumZ (map claimed ps') + m w' <= sumZ bs + m w)%Z.
Proof.
  intros Hsend Hev Hps Hsched HI.
  pose proof (run_steps_ind
    (fun w' ps' => I w' /\ exists bs', Forall2 (budget settles) bs' ps' /\ (sumZ bs' + m w' <= sumZ bs + m w)%Z)
    (fun s => T (fst (snd s))) sched w ps) as Hind.
  destruct (run_steps sched w ps) as [w' ps'].
  destruct Hind as (HI' & bs' & Hbs & Hle); [|by split; [|exists bs]|done|].
  2:{ apply claimed_sum in Hbs. split; [done|lia]. }
  clear Hps HI. intros u qs i now dv p (HI & cs & Hcs & Hle) Ht Hi.
  destruct (Forall2_lookup_r _ _ _ _ _ Hcs Hi) as (b & Hb & Hw).
  assert (forall u' b' p', budget settles b' p' -> (b' + m u' <= b + m u)%Z ->
    exists bs', Forall2 (budget settles) bs' (<[i := p']> qs) /\ (sumZ bs' + m u' <= sumZ bs + m w)%Z) as Hins.
  { intros u' b' p' Hp' Hb'. exists (<[i := b']> cs). split; [by apply Forall2_insert|].
    rewrite (sumZ_insert _ _ b) by done. lia. }
  destruct p as [a|e|k|e p|X c k]; cbn [step fst snd].
  - split; [done|]. by apply (Hins u b).
  - split; [done|]. by apply (Hins u b).
  - split; [done|]. destruct Hw as [_ Hw]. by apply (Hins u b); [apply Hw|].
  - destruct Hw as [_ Hw], (Hev u e HI) as [HI' Hm]. split; [done|]. apply (Hins _ b); [done|lia].
  - destruct Hw as (_ & Ha & Hw). pose proof (Hsend X u c dv HI Ha) as Hm.
    destruct (deliver dv u c) as [u' r]. destruct Hm as (HI' & Hr & Hm). cbn [fst snd].
    split; [done|]. apply (Hins u' (b + gain X c r)%Z); [by apply Hw|lia].
Qed.
End potential.
