(* ===== verification/Cidr.v ===== *)
(** CIDR membership: [packages/foundation/src/net/cidr.ts].

    [parseIPv4] is the 32-bit shift-and-or loop of the source; [parseIPv6]
    the [::]-expansion into sixteen bytes; [ipv4InCidr]/[ipv6InCidr] the mask
    comparisons. [null] is [None]. *)

From S2P Require Import Prelude JsString Regex JsInt.
From Stdlib Require Import Ascii.

#[local] Open Scope string_scope.
#[local] Open Scope Z_scope.

(** ** IPv4 *)

(** [/^\d+$/] *)
Definition DIGITS_RE : re := plus (RCls is_digit).

(** One iteration of the loop of [parseIPv4] per part. *)
Fixpoint parse_octets (parts : list string) (res : Z) : option Z :=
  match parts with
  | [] => Some res
  | part :: rest =>
      if String.eqb part "" || negb (re_match DIGITS_RE part) then None
      else if (1 <? String.length part)%nat && startsWith part "0" then None
      else match asInteger (Number part) with
           | None => None
           | Some n =>
               if (n <? 0) || (255 <? n) then None
               else parse_octets rest (js_or (js_shl res 8) n)
           end
  end.

Definition parseIPv4 (s : string) : option Z :=
  let parts := split "." s in
  if negb (length parts =? 4)%nat then None
  else js_ushr0 <$> parse_octets parts 0.

Definition ipv4InCidr (ip networkInt prefixLen : Z) : bool :=
  if prefixLen =? 0 then true
  else if prefixLen =? 32 then ip =? networkInt
  else
    let mask := js_ushr0 (js_shl (js_not 0) (32 - prefixLen)) in
    js_and ip mask =? js_and networkInt mask.

(** The [network/prefix] split both string-level tests share; [None] when
    there is no slash or the prefix is not an integer in [0, maxLen]. *)
Definition parse_cidr (cidr : string) (maxLen : Z) : option (string * Z) :=
  slashIdx ← indexOf cidr "/";
  let networkStr := str_take slashIdx cidr in
  let prefixStr := str_drop (slashIdx + 1) cidr in
  prefixLen ← asInteger (Number prefixStr);
  if (prefixLen <? 0) || (maxLen <? prefixLen) then None else Some (networkStr, prefixLen).

Definition isIPv4InCidr (ip cidr : string) : bool :=
  match parse_cidr cidr 32 with
  | None => false
  | Some (networkStr, prefixLen) =>
      match parseIPv4 ip, parseIPv4 networkStr with
      | Some ipInt, Some networkInt => ipv4InCidr ipInt networkInt prefixLen
      | _, _ => false
      end
  end.

(** ** IPv6 *)

(** [/^[0-9a-fA-F]{1,4}$/] *)
Definition HEX_GROUP_RE : re := rep_between 1 4 (RCls is_hex_digit).

(** [writeGroup]: the two bytes one hextet appends to the buffer. *)
Definition writeGroup (hexStr : string) : option (list Z) :=
  if negb (re_match HEX_GROUP_RE hexStr) then None
  else let val := radix_acc 16 0 hexStr in
       Some [js_and (js_shr val 8) 255; js_and val 255].

Fixpoint writeGroups (gs : list string) : option (list Z) :=
  match gs with
  | [] => Some []
  | g :: r => b ← writeGroup g; bs ← writeGroups r; Some (b ++ bs)%list
  end.

(** The four bytes of a dotted tail; each part goes through [Number]. *)
Fixpoint parse_v4_parts (parts : list string) : option (list Z) :=
  match parts with
  | [] => Some []
  | p :: r =>
      n ← asInteger (Number p);
      if (n <? 0) || (255 <? n) then None else bs ← parse_v4_parts r; Some (n :: bs)
  end.

Definition last_is_dotted (l : list string) : bool :=
  match last l with Some g => includes g "." | None => false end.

(** The [hi]/[lo] groups around the first [::]. *)
Definition split_groups (addr : string) : bool * list string * list string :=
  match indexOf addr "::" with
  | None => (false, split ":" addr, [])
  | Some i => (true, filter_non_empty (split ":" (str_take i addr)),
                     filter_non_empty (split ":" (str_drop (i + 2) addr)))
  end.

Definition strip_zone (s : string) : string :=
  match indexOf s "%" with Some i => str_take i s | None => s end.

Definition parseIPv6 (s : string) : option (list Z) :=
  let '(compressed, hi0, lo0) := split_groups (strip_zone s) in
  let allGroups := (hi0 ++ lo0)%list in
  let embedded := last_is_dotted allGroups in
  let lo := if embedded && last_is_dotted lo0 then removelast lo0 else lo0 in
  let hi := if embedded && negb (last_is_dotted lo0) && last_is_dotted hi0
            then removelast hi0 else hi0 in
  ipv4Bytes ←
    (if embedded then
       let ipv4Parts := split "." (default "" (last allGroups)) in
       if negb (length ipv4Parts =? 4)%nat then None
       else Some <$> parse_v4_parts ipv4Parts
     else Some None);
  let ipv4GroupCount := match ipv4Bytes with Some _ => 2 | None => 0 end in
  let nhi := Z.of_nat (length hi) in
  let nlo := Z.of_nat (length lo) in
  let fillerCount := if compressed then 8 - nhi - nlo - ipv4GroupCount else 0 in
  if fillerCount <? 0 then None
  else if negb compressed && negb (nhi + ipv4GroupCount =? 8) then None
  else
    hiBytes ← writeGroups hi;
    loBytes ← writeGroups lo;
    let bytes := (hiBytes ++ replicate (2 * Z.to_nat fillerCount) 0 ++ loBytes
                    ++ default [] ipv4Bytes)%list in
    if (length bytes =? 16)%nat then Some bytes else None.

Definition byte_at (bytes : list Z) (i : nat) : Z := default 0 (bytes !! i).

(** The byte loop [for (i < fullBytes)] of [ipv6InCidr]. *)
Fixpoint prefix_bytes_equal (n : nat) (a b : list Z) : bool :=
  match n with
  | O => true
  | S m => prefix_bytes_equal m a b && (byte_at a m =? byte_at b m)
  end.

Definition ipv6InCidr (ipBytes networkBytes : list Z) (prefixLen : Z) : bool :=
  if prefixLen =? 0 then true
  else
    let fullBytes := Z.to_nat (prefixLen / 8) in
    let remainingBits := prefixLen mod 8 in
    if negb (prefix_bytes_equal fullBytes ipBytes networkBytes) then false
    else if 0 <? remainingBits then
      let mask := js_and 255 (js_shl 255 (8 - remainingBits)) in
      js_and (byte_at ipBytes fullBytes) mask =? js_and (byte_at networkBytes fullBytes) mask
    else true.

Definition isIPv6InCidr (ip cidr : string) : bool :=
  match parse_cidr cidr 128 with
  | None => false
  | Some (networkStr, prefixLen) =>
      match parseIPv6 ip, parseIPv6 networkStr with
      | Some ipBytes, Some networkBytes => ipv6InCidr ipBytes networkBytes prefixLen
      | _, _ => false
      end
  end.

Example parse_examples :
  parseIPv4 "203.0.113.7" = Some 3405803783 /\
  parseIPv4 "1.2.3" = None /\ parseIPv4 "1.2.3.04" = None /\ parseIPv4 "256.0.0.1" = None /\
  parseIPv6 "::ffff:192.0.2.1%eth0" = Some [0;0;0;0;0;0;0;0;0;0;255;255;192;0;2;1] /\
  parseIPv6 "2001:db8::5" = Some [32;1;13;184;0;0;0;0;0;0;0;0;0;0;0;5] /\
  parseIPv6 "1:2:3" = None /\
  isIPv4InCidr "10.1.2.3" "10.0.0.0/8" = true /\
  isIPv6InCidr "fe80::1" "fe80::/10" = true /\ isIPv6InCidr "fec0::1" "fe80::/10" = false.
Proof. vm_compute. repeat split. Qed.

(** ** The reference IPv4 text form

    A canonical octet is the decimal rendering of 0..255; an address is four
    of them. *)

Definition show_ipv4 (a b c d : Z) : string :=
  show_octet a ++ "." ++ show_octet b ++ "." ++ show_octet c ++ "." ++ show_octet d.

Definition octet_value (a b c d : Z) : Z := a * 2 ^ 24 + b * 2 ^ 16 + c * 2 ^ 8 + d.

Definition is_octet (n : Z) : Prop := 0 <= n < 256.

(** The guard of one loop iteration, as a predicate on the part. *)
Definition octet_ok (p : string) : bool :=
  non_empty p && str_all is_digit p &&
  negb ((1 <? String.length p)%nat && startsWith p "0") && (dec_val p <=? 255).

(** ** Lemmas *)

Create HintDb cidr.

Lemma dec_val_nonneg p : str_all is_digit p = true -> 0 <= dec_val p.
Proof.
  intros H. pose proof (dec_acc_ge 0 p ltac:(lia) H). unfold dec_val. lia.
Qed.

Lemma octet_ok_step p rest res :
  parse_octets (p :: rest) res =
  if octet_ok p then parse_octets rest (js_or (js_shl res 8) (dec_val p)) else None.
Proof.
  cbn [parse_octets]. unfold octet_ok, DIGITS_RE. rewrite match_plus_cls.
  assert (String.eqb p "" = negb (non_empty p)) as ->
    by (unfold non_empty; by rewrite negb_involutive).
  destruct (non_empty p) eqn:Hne; [|done].
  destruct (str_all is_digit p) eqn:Hd; [|done]. cbn [negb andb orb].
  rewrite Number_digits by (try done; by destruct p).
  destruct ((1 <? String.length p)%nat && startsWith p "0"); [done|]. cbn [negb andb].
  pose proof (dec_val_nonneg p Hd).
  destruct (Z.ltb_spec (dec_val p) 0); [lia|].
  by destruct (Z.leb_spec (dec_val p) 255), (Z.ltb_spec 255 (dec_val p)); try lia.
Qed.

(** Computation over all octets. *)
Definition octet_table_ok (n : Z) : bool :=
  octet_ok (show_octet n) && (dec_val (show_octet n) =? n) &&
  negb (char_in "." (show_octet n)) && negb (char_in ":" (show_octet n)) &&
  negb (char_in "%" (show_octet n)) && (String.length (show_octet n) <=? 3)%nat.

Lemma octet_table : forall_below 256 octet_table_ok = true.
Proof. vm_compute. done. Qed.

Lemma show_octet_props n :
  is_octet n ->
  octet_ok (show_octet n) = true /\ dec_val (show_octet n) = n /\
  char_in "." (show_octet n) = false /\ char_in ":" (show_octet n) = false /\
  char_in "%" (show_octet n) = false /\ (String.length (show_octet n) <= 3)%nat.
Proof.
  intros Hn. pose proof (forall_below_spec 256 _ n octet_table ltac:(unfold is_octet in Hn; lia)) as H.
  unfold octet_table_ok in H. bool_hyps. done.
Qed.

(** Digit strings of one, two or three digits, checked exhaustively: an
    accepted octet is the rendering of its value. *)
Definition digits_of_len (k : nat) (check : string -> bool) : bool :=
  let ds := String.list_ascii_of_string "0123456789" in
  match k with
  | 1%nat => forallb (fun a => check (String a "")) ds
  | 2%nat => forallb (fun a => forallb (fun b => check (String a (String b ""))) ds) ds
  | _ => forallb (fun a => forallb (fun b => forallb (fun c =>
            check (String a (String b (String c "")))) ds) ds) ds
  end.

Lemma digit_in_list c :
  is_digit c = true -> In c (String.list_ascii_of_string "0123456789").
Proof.
  intros H. simpl. pose proof (digit_cases c H). intuition congruence.
Qed.

Lemma digits_of_len_spec k check p :
  (1 <= k <= 3)%nat -> String.length p = k -> str_all is_digit p = true ->
  digits_of_len k check = true -> check p = true.
Proof.
  intros Hk Hl Hd Hc. unfold digits_of_len in Hc.
  destruct p as [|a [|b [|c [|d p]]]]; simpl in Hl; subst k; try lia;
    simpl in Hd; bool_hyps; rewrite forallb_forall in Hc;
    pose proof (Hc a (digit_in_list a ltac:(done))) as Ha; cbv beta in Ha; [done| |];
    rewrite forallb_forall in Ha; pose proof (Ha b (digit_in_list b ltac:(done))) as Hb;
    cbv beta in Hb; [done|];
    rewrite forallb_forall in Hb; exact (Hb c (digit_in_list c ltac:(done))).
Qed.

Definition canonical_if_ok (p : string) : bool :=
  negb (octet_ok p) || String.eqb p (show_octet (dec_val p)).

Lemma octet_ok_length p : octet_ok p = true -> (1 <= String.length p <= 3)%nat.
Proof.
  unfold octet_ok. intros H. bool_hyps.
  destruct p as [|c p]; [done|]. split; [simpl; lia|].
  destruct (Nat.leb_spec (String.length (String c p)) 3); [done|]. exfalso.
  cbn [String.length] in *.
  assert (startsWith (String c p) "0" = false) as Hz.
  { destruct (1 <? S (String.length p))%nat eqn:E; [done|].
    apply Nat.ltb_ge in E. lia. }
  assert (1 <= digit_value c) as Hc.
  { simpl in H2. bool_hyps. pose proof (is_digit_range c ltac:(done)). unfold digit_value.
    unfold startsWith in Hz. cbn in Hz. destruct (ascii_dec "0" c) as [<-|Hne]; [by destruct p|].
    enough (code c <> 48) by lia. intros Hc. apply Hne. symmetry. by apply (code_inj c "0"). }
  simpl in H2. bool_hyps. unfold dec_val in H0. cbn [dec_acc] in H0.
  pose proof (dec_acc_ge (10 * 0 + digit_value c) p ltac:(lia) ltac:(done)).
  assert (10 ^ 3 <= 10 ^ Z.of_nat (String.length p)) by (apply Z.pow_le_mono_r; lia).
  nia.
Qed.

Lemma octet_ok_canonical p : octet_ok p = true -> p = show_octet (dec_val p).
Proof.
  intros H. pose proof (octet_ok_length p H) as Hl.
  assert (canonical_if_ok p = true) as Hc.
  { assert (str_all is_digit p = true) by (unfold octet_ok in H; by bool_hyps).
    apply (digits_of_len_spec (String.length p) canonical_if_ok p); try done.
    destruct (String.length p) as [|[|[|[|]]]]; try lia; vm_compute; done. }
  unfold canonical_if_ok in Hc. rewrite H in Hc. simpl in Hc. by apply String.eqb_eq.
Qed.

Lemma octet_ok_value p : octet_ok p = true -> is_octet (dec_val p).
Proof.
  intros H. unfold octet_ok in H. bool_hyps. unfold is_octet.
  pose proof (dec_val_nonneg p ltac:(done)). lia.
Qed.

(** A part accepted by the loop is exactly the rendering of an octet. *)
Lemma octet_ok_spec p : octet_ok p = true <-> exists n, is_octet n /\ p = show_octet n.
Proof.
  split.
  - intros H. exists (dec_val p). split; [by apply octet_ok_value|by apply octet_ok_canonical].
  - intros (n & Hn & ->). by apply show_octet_props.
Qed.

Lemma shift_in_octet r n :
  is_octet n ->
  to_uint32 (js_or (js_shl r 8) n) = (to_uint32 r * 2 ^ 8 + n) mod 2 ^ 32.
Proof.
  unfold is_octet. intros Hn. rewrite uint32_js_or, uint32_js_shl by lia.
  rewrite (to_uint32_small n) by lia. unfold to_uint32 at 1.
  replace 32 with (24 + 8) by lia. rewrite Z.pow_add_r by lia.
  rewrite (Z.mul_comm (2 ^ 24)), !(Z.mul_comm _ (2 ^ 8)), Z.mul_mod_distr_l by lia.
  rewrite Z.mul_comm, lor_low by lia. rewrite (Z.mul_comm _ (2 ^ 8)).
  rewrite (Z.add_mod (2 ^ 8 * to_uint32 r)) by lia.
  rewrite Z.mul_mod_distr_l by lia. rewrite (Z.mod_small n) by lia.
  symmetry. apply Z.mod_small.
  pose proof (Z.mod_pos_bound (to_uint32 r) (2 ^ 24) ltac:(lia)). nia.
Qed.

Lemma four_octets_value a b c d :
  is_octet a -> is_octet b -> is_octet c -> is_octet d ->
  js_ushr0 (js_or (js_shl (js_or (js_shl (js_or (js_shl (js_or (js_shl 0 8) a) 8) b) 8) c) 8) d)
  = octet_value a b c d.
Proof.
  intros Ha Hb Hc Hd. unfold js_ushr0, octet_value.
  rewrite !shift_in_octet by done. unfold is_octet in *.
  change (to_uint32 0) with 0.
  rewrite (Z.mod_small (0 * 2 ^ 8 + a)) by lia.
  rewrite (Z.mod_small (_ + b)) by lia. rewrite (Z.mod_small (_ + c)) by lia.
  rewrite Z.mod_small; lia.
Qed.

Lemma octet_value_range a b c d :
  is_octet a -> is_octet b -> is_octet c -> is_octet d ->
  0 <= octet_value a b c d < 2 ^ 32.
Proof. unfold is_octet, octet_value. lia. Qed.

(** [parseIPv4] on a rendered address. *)
Lemma parseIPv4_show a b c d :
  is_octet a -> is_octet b -> is_octet c -> is_octet d ->
  parseIPv4 (show_ipv4 a b c d) = Some (octet_value a b c d).
Proof.
  intros Ha Hb Hc Hd.
  destruct (show_octet_props a Ha) as (Oa & Va & Da & _), (show_octet_props b Hb) as (Ob & Vb & Db & _),
    (show_octet_props c Hc) as (Oc & Vc & Dc & _), (show_octet_props d Hd) as (Od & Vd & Dd & _).
  unfold parseIPv4. assert (split "." (show_ipv4 a b c d)
    = [show_octet a; show_octet b; show_octet c; show_octet d]) as ->.
  { apply split_four. unfold show_ipv4. done. }
  cbn [length Nat.eqb negb]. rewrite !octet_ok_step, Oa, Ob, Oc, Od, Va, Vb, Vc, Vd.
  simpl. f_equal. by apply four_octets_value.
Qed.

(** Everything [parseIPv4] accepts is a rendered address. *)
Lemma parseIPv4_Some s v :
  parseIPv4 s = Some v ->
  exists a b c d, (is_octet a /\ is_octet b /\ is_octet c /\ is_octet d) /\
    s = show_ipv4 a b c d /\ v = octet_value a b c d.
Proof.
  unfold parseIPv4. destruct (split "." s) as [|p1 [|p2 [|p3 [|p4 [|]]]]] eqn:Hs; try done.
  cbn [length Nat.eqb negb]. rewrite !octet_ok_step.
  destruct (octet_ok p1) eqn:H1; [|done]. destruct (octet_ok p2) eqn:H2; [|done].
  destruct (octet_ok p3) eqn:H3; [|done]. destruct (octet_ok p4) eqn:H4; [|done].
  simpl. intros ?; simplify_eq.
  exists (dec_val p1), (dec_val p2), (dec_val p3), (dec_val p4).
  split; [auto using octet_ok_value|]. split.
  - apply split_four in Hs as (-> & _). unfold show_ipv4.
    by rewrite <- !octet_ok_canonical by done.
  - by apply four_octets_value; apply octet_ok_value.
Qed.

Lemma parseIPv4_range s v : parseIPv4 s = Some v -> 0 <= v < 2 ^ 32.
Proof.
  intros (a & b & c & d & (?&?&?&?) & _ & ->)%parseIPv4_Some. by apply octet_value_range.
Qed.

#[export] Hint Resolve octet_ok_value octet_value_range parseIPv4_show parseIPv4_range : cidr.

(** ** Masks are integer division *)

Lemma ipv4_mask p :
  0 < p < 32 -> js_ushr0 (js_shl (js_not 0) (32 - p)) = 2 ^ 32 - 2 ^ (32 - p).
Proof.
  intros Hp. unfold js_ushr0. rewrite uint32_js_shl by lia.
  change (to_uint32 (js_not 0)) with (2 ^ 32 - 1).
  unfold to_uint32. rewrite Z.mul_sub_distr_r, Z.mul_1_l.
  assert (0 < 2 ^ (32 - p) < 2 ^ 32) by (split; [lia | apply Z.pow_lt_mono_r; lia]).
  replace (2 ^ 32 * 2 ^ (32 - p) - 2 ^ (32 - p))
    with (2 ^ 32 - 2 ^ (32 - p) + (2 ^ (32 - p) - 1) * 2 ^ 32) by lia.
  rewrite Z_mod_plus_full. apply Z.mod_small. lia.
Qed.

Lemma js_and_eqb a b m :
  0 <= a < 2 ^ 32 -> 0 <= b < 2 ^ 32 -> 0 <= m < 2 ^ 32 ->
  (js_and a m =? js_and b m) = (Z.land a m =? Z.land b m).
Proof.
  intros Ha Hb Hm. apply bool_eq_iff. rewrite !Z.eqb_eq. unfold js_and at 1 2.
  rewrite to_int32_eq, !uint32_land, !to_uint32_int32, !to_uint32_small by lia. done.
Qed.

Lemma div_eq_eqb a b m :
  0 < m -> (a / m * m =? b / m * m) = bool_decide (a / m = b / m).
Proof.
  intros Hm. apply bool_eq_iff. rewrite Z.eqb_eq, bool_decide_eq_true. by apply div_mul_eq_iff.
Qed.

(** The network number of a [w]-bit address under a prefix of length [p]. *)
Definition network_of (w : Z) (v p : Z) : Z := v / 2 ^ (w - p).

Lemma ipv4InCidr_network ip net p :
  0 <= ip < 2 ^ 32 -> 0 <= net < 2 ^ 32 -> 0 <= p <= 32 ->
  ipv4InCidr ip net p = bool_decide (network_of 32 ip p = network_of 32 net p).
Proof.
  intros Hi Hn Hp. unfold ipv4InCidr, network_of.
  destruct (Z.eqb_spec p 0) as [->|Hp0].
  - symmetry. apply bool_decide_eq_true. rewrite !Z.div_small; lia.
  - destruct (Z.eqb_spec p 32) as [->|Hp32].
    + apply bool_eq_iff. rewrite Z.eqb_eq, bool_decide_eq_true.
      change (2 ^ (32 - 32)) with 1. by rewrite !Z.div_1_r.
    + rewrite ipv4_mask by lia.
      assert (0 < 2 ^ (32 - p) < 2 ^ 32) by (split; [lia | apply Z.pow_lt_mono_r; lia]).
      rewrite js_and_eqb, !land_top_mask by lia. apply div_eq_eqb. lia.
Qed.

(** ** IPv6 byte arrays *)

(** The 128-bit value of a byte array, most significant byte first. *)
Definition be_val (l : list Z) : Z := fold_left (fun acc b => acc * 256 + b) l 0.

Definition is_byte_array (l : list Z) : Prop := length l = 16%nat /\ Forall is_octet l.

Lemma be_acc l acc :
  fold_left (fun acc b => acc * 256 + b) l acc = acc * 256 ^ Z.of_nat (length l) + be_val l.
Proof.
  unfold be_val. revert acc. induction l as [|b l IH]; intros acc.
  - simpl. lia.
  - cbn [fold_left length]. rewrite IH, (IH (0 * 256 + b)).
    rewrite Nat2Z.inj_succ, Z.pow_succ_r by lia. lia.
Qed.

Lemma be_val_app l k :
  be_val (l ++ k)%list = be_val l * 256 ^ Z.of_nat (length k) + be_val k.
Proof. unfold be_val at 1. rewrite fold_left_app. apply be_acc. Qed.

Lemma be_val_snoc l b : be_val (l ++ [b])%list = be_val l * 256 + b.
Proof. rewrite be_val_app. unfold be_val at 2. simpl. lia. Qed.

Lemma be_val_range l : Forall is_octet l -> 0 <= be_val l < 256 ^ Z.of_nat (length l).
Proof.
  induction l as [|b l IH] using rev_ind; intros H.
  - vm_compute. split; [congruence | done].
  - apply Forall_app in H as [Hl Hb]. apply Forall_inv in Hb. specialize (IH Hl).
    rewrite be_val_snoc, length_app. cbn [length]. unfold is_octet in Hb.
    replace (Z.of_nat (length l + 1)) with (Z.of_nat (length l) + 1) by lia.
    rewrite Z.pow_add_r by lia. lia.
Qed.

Lemma be_val_inj l k :
  length l = length k -> Forall is_octet l -> Forall is_octet k ->
  be_val l = be_val k -> l = k.
Proof.
  revert k. induction l as [|b l IH] using rev_ind; intros k Hlen Hl Hk Hv.
  - by destruct k.
  - destruct k as [|c k _] using rev_ind; [rewrite length_app in Hlen; simpl in Hlen; lia|].
    rewrite !length_app in Hlen. simpl in Hlen.
    apply Forall_app in Hl as [Hl Hb], Hk as [Hk Hc].
    apply Forall_inv in Hb, Hc. unfold is_octet in Hb, Hc.
    rewrite !be_val_snoc in Hv. assert (be_val l = be_val k) by lia.
    rewrite (IH k) by (auto; lia). do 2 f_equal. lia.
Qed.

(** Dropping the low bytes is dividing by a power of 256. *)
Lemma be_val_take n l :
  (n <= length l)%nat -> Forall is_octet l ->
  be_val l / 256 ^ Z.of_nat (length l - n) = be_val (take n l).
Proof.
  intros Hn Hl. rewrite <- (take_drop n l) at 1.
  pose proof (be_val_range (drop n l) ltac:(by apply Forall_drop)) as Hr.
  rewrite be_val_app, length_drop in *. rewrite Z.div_add_l by lia.
  rewrite Z.div_small by lia. lia.
Qed.

Lemma prefix_bytes_equal_take n a b :
  (n <= length a)%nat -> (n <= length b)%nat ->
  prefix_bytes_equal n a b = bool_decide (take n a = take n b).
Proof.
  induction n as [|n IH]; intros Ha Hb; cbn [prefix_bytes_equal].
  - by rewrite bool_decide_eq_true_2.
  - rewrite IH by lia. unfold byte_at.
    destruct (lookup_lt_is_Some_2 a n ltac:(lia)) as [x Hx],
      (lookup_lt_is_Some_2 b n ltac:(lia)) as [y Hy].
    rewrite (take_S_r _ _ _ Hx), (take_S_r _ _ _ Hy), Hx, Hy. simpl.
    apply bool_eq_iff. rewrite andb_true_iff, !bool_decide_eq_true, Z.eqb_eq. split.
    + by intros [-> ->].
    + intros H. by apply app_inj_tail in H.
Qed.

Lemma byte_mask r : 0 < r < 8 -> js_and 255 (js_shl 255 (8 - r)) = 2 ^ 8 - 2 ^ (8 - r).
Proof.
  intros H. pose proof (forall_below_spec 8 (fun r => (r =? 0) ||
    (js_and 255 (js_shl 255 (8 - r)) =? 2 ^ 8 - 2 ^ (8 - r))) r eq_refl ltac:(lia)) as Hc.
  cbv beta in Hc. apply orb_true_iff in Hc as [Hc|Hc]; bool_hyps; [lia|done].
Qed.

Lemma byte_at_octet l i : Forall is_octet l -> is_octet (byte_at l i).
Proof.
  intros H. unfold byte_at. destruct (l !! i) eqn:E; simpl; [|unfold is_octet; lia].
  by eapply Forall_lookup_1.
Qed.

(** Comparing a full-byte prefix and the top [r] bits of the next byte. *)
Lemma network_split l n r :
  (n < length l)%nat -> 0 < r < 8 -> Forall is_octet l ->
  be_val l / 2 ^ (8 * Z.of_nat (length l - n) - r)
  = be_val (take n l) * 2 ^ r + byte_at l n / 2 ^ (8 - r).
Proof.
  intros Hn Hr Hl. destruct (lookup_lt_is_Some_2 l n Hn) as [b Hb].
  replace (8 * Z.of_nat (length l - n) - r)
    with (8 * Z.of_nat (length l - S n) + (8 - r)) by lia.
  rewrite Z.pow_add_r, <- Z.div_div by lia. rewrite Z.pow_mul_r by lia. change (2 ^ 8) with 256.
  rewrite be_val_take by (auto; lia). rewrite (take_S_r _ _ _ Hb), be_val_snoc.
  unfold byte_at. rewrite Hb. simpl.
  replace 256 with (2 ^ r * 2 ^ (8 - r)) 
    by (rewrite <- Z.pow_add_r by lia; by replace (r + (8 - r)) with 8 by lia).
  rewrite Z.mul_assoc, Z.div_add_l by lia. done.
Qed.

Lemma top_bits_lt b r : is_octet b -> 0 < r < 8 -> 0 <= b / 2 ^ (8 - r) < 2 ^ r.
Proof.
  unfold is_octet. intros Hb Hr. split; [apply Z.div_pos; lia|].
  apply Z.div_lt_upper_bound; [lia|]. rewrite <- Z.pow_add_r by lia.
  replace (8 - r + r) with 8 by lia. lia.
Qed.

Lemma combine_eq_iff x y b c m :
  0 <= b < m -> 0 <= c < m -> x * m + b = y * m + c <-> x = y /\ b = c.
Proof. intros Hb Hc. split; [|by intros [-> ->]]. intros H. assert (x = y) by nia. lia. Qed.

Lemma ipv6InCidr_network a b p :
  is_byte_array a -> is_byte_array b -> 0 <= p <= 128 ->
  ipv6InCidr a b p = bool_decide (network_of 128 (be_val a) p = network_of 128 (be_val b) p).
Proof.
  intros [La Ha] [Lb Hb] Hp. unfold ipv6InCidr, network_of.
  pose proof (be_val_range a Ha) as Ra. pose proof (be_val_range b Hb) as Rb.
  rewrite La in Ra. rewrite Lb in Rb. change (256 ^ Z.of_nat 16) with (2 ^ 128) in *.
  destruct (Z.eqb_spec p 0) as [->|Hp0].
  { symmetry. apply bool_decide_eq_true. rewrite !Z.div_small; lia. }
  pose proof (Z.div_mod p 8 ltac:(lia)) as Hdm. pose proof (Z.mod_pos_bound p 8 ltac:(lia)).
  assert (0 <= p / 8 <= 16) by lia.
  remember (Z.to_nat (p / 8)) as n eqn:En. remember (p mod 8) as r eqn:Er.
  assert (p = 8 * Z.of_nat n + r) as -> by lia.
  rewrite prefix_bytes_equal_take by lia.
  assert (Htake : be_val (take n a) = be_val (take n b) <-> take n a = take n b).
  { split; [|by intros ->]. apply be_val_inj; [rewrite !length_take; lia| |];
      by apply Forall_take. }
  destruct (Z.ltb_spec 0 r) as [Hr|Hr].
  - replace (128 - (8 * Z.of_nat n + r)) with (8 * Z.of_nat (length a - n) - r) by lia.
    rewrite (network_split a) by (auto; lia).
    replace (length a - n)%nat with (length b - n)%nat by lia.
    rewrite (network_split b) by (auto; lia). rewrite byte_mask by lia.
    pose proof (byte_at_octet a n Ha) as Oa. pose proof (byte_at_octet b n Hb) as Ob.
    assert (0 < 2 ^ (8 - r) <= 2 ^ 8) by (split; [lia | apply Z.pow_le_mono_r; lia]).
    rewrite js_and_eqb, !land_top_mask, div_eq_eqb by (unfold is_octet in *; lia).
    apply bool_eq_iff.
    rewrite bool_decide_eq_true, combine_eq_iff, Htake
      by (apply top_bits_lt; [done|lia]).
    destruct (bool_decide (take n a = take n b)) eqn:E; bool_hyps; simpl; [|naive_solver].
    rewrite bool_decide_eq_true. naive_solver.
  - assert (r = 0) as -> by lia.
    replace (128 - (8 * Z.of_nat n + 0)) with (8 * Z.of_nat (length a - n)) by lia.
    rewrite Z.pow_mul_r by lia. change (2 ^ 8) with 256.
    rewrite be_val_take by (auto; lia).
    replace (length a - n)%nat with (length b - n)%nat by lia.
    rewrite be_val_take by (auto; lia). apply bool_eq_iff.
    rewrite bool_decide_eq_true, Htake.
    destruct (bool_decide (take n a = take n b)) eqn:E; bool_hyps; simpl; naive_solver.
Qed.

(** ** Parsed addresses are well-formed byte arrays *)

Lemma js_and_255 x : is_octet (js_and x 255).
Proof.
  unfold js_and, is_octet. change (to_int32 255) with (Z.ones 8).
  rewrite Z.land_ones by lia. pose proof (Z.mod_pos_bound (to_int32 x) (2 ^ 8) ltac:(lia)).
  rewrite to_int32_small by lia. lia.
Qed.

Lemma writeGroups_octets gs bs : writeGroups gs = Some bs -> Forall is_octet bs.
Proof.
  revert bs. induction gs as [|g gs IH]; intros bs; simpl; [intros ?; by simplify_eq|].
  intros (b & Hb & (bs' & Hbs & [= <-])%bind_Some)%bind_Some.
  apply Forall_app. split; [|by apply IH].
  unfold writeGroup in Hb. destruct (negb _); simplify_eq.
  repeat constructor; apply js_and_255.
Qed.

Lemma parse_v4_parts_octets ps bs : parse_v4_parts ps = Some bs -> Forall is_octet bs.
Proof.
  revert bs. induction ps as [|p ps IH]; intros bs; simpl; [intros ?; by simplify_eq|].
  intros (n & Hn & H)%bind_Some. destruct ((n <? 0) || (255 <? n)) eqn:E; [done|].
  apply bind_Some in H as (bs' & Hbs & [= <-]). bool_hyps.
  constructor; [unfold is_octet; lia|by apply IH].
Qed.

Lemma parseIPv6_bytes s bs : parseIPv6 s = Some bs -> is_byte_array bs.
Proof.
  unfold parseIPv6. destruct (split_groups (strip_zone s)) as [[comp hi0] lo0].
  intros (v4 & Hv4 & H)%bind_Some.
  destruct (_ <? 0); [done|]. destruct (negb comp && _); [done|].
  apply bind_Some in H as (hb & Hhi & H). apply bind_Some in H as (lb & Hlo & H).
  destruct (_ =? 16)%nat eqn:El; [|done]. simplify_eq. bool_hyps. split; [done|].
  rewrite !Forall_app. split; [by eapply writeGroups_octets|]. split.
  { apply Forall_replicate. unfold is_octet. lia. }
  split; [by eapply writeGroups_octets|].
  destruct (last_is_dotted (hi0 ++ lo0)); [|simplify_eq; by constructor].
  destruct (negb _); [done|]. apply fmap_Some in Hv4 as (b4 & Hb4 & ->). simpl.
  by eapply parse_v4_parts_octets.
Qed.

Lemma indexOf_char c x r :
  char_in c x = false -> indexOf (x +:+ String.String c r) (String.String c "") = Some (String.length x).
Proof.
  induction x as [|d x IH]; intros H.
  - cbn. destruct (ascii_dec c c); [|done]. by destruct r.
  - unfold char_in in *. cbn [str_exists] in H. apply orb_false_iff in H as [Hd Hx].
    cbn [String.append indexOf String.prefix]. destruct (ascii_dec c d) as [->|].
    + by rewrite Ascii.eqb_refl in Hd.
    + rewrite IH by done. done.
Qed.

Lemma show_octet_no_slash n : is_octet n -> char_in "/" (show_octet n) = false.
Proof.
  intros Hn. pose proof (forall_below_spec 256 (fun n => negb (char_in "/" (show_octet n))) n
    ltac:(vm_compute; done) ltac:(unfold is_octet in Hn; lia)) as H. cbv beta in H. by bool_hyps.
Qed.

Lemma char_in_app c s t : char_in c (s +:+ t) = char_in c s || char_in c t.
Proof. apply str_exists_app. Qed.

Lemma show_ipv4_no_char ch a b c d :
  (forall n, is_octet n -> char_in ch (show_octet n) = false) -> Ascii.eqb ch "." = false ->
  is_octet a -> is_octet b -> is_octet c -> is_octet d ->
  char_in ch (show_ipv4 a b c d) = false.
Proof.
  intros H Hdot Ha Hb Hc Hd. unfold show_ipv4.
  rewrite !char_in_app, !H by done. unfold char_in. simpl. by rewrite Hdot.
Qed.

Lemma Number_show_octet n : is_octet n -> asInteger (Number (show_octet n)) = Some n.
Proof.
  intros Hn. destruct (show_octet_props n Hn) as (Hok & Hv & _).
  unfold octet_ok in Hok. bool_hyps.
  rewrite Number_digits, Hv; [done| |done]. by destruct (show_octet n).
Qed.

Lemma parse_cidr_show net p maxLen :
  char_in "/" net = false -> is_octet p -> p <= maxLen ->
  parse_cidr (net +:+ "/" +:+ show_octet p) maxLen = Some (net, p).
Proof.
  intros Hn Hp Hm. unfold parse_cidr.
  change ("/" +:+ show_octet p) with (String.String "/" (show_octet p)).
  rewrite indexOf_char by done. simpl.
  rewrite str_take_app. change (String.String "/" (show_octet p)) with ("/" +:+ show_octet p).
  rewrite <- str_app_assoc. replace (String.length net + 1)%nat
    with (String.length (net +:+ "/")) by (rewrite str_length_app; simpl; lia).
  rewrite str_drop_app, Number_show_octet by done. simpl. unfold is_octet in Hp.
  destruct (Z.ltb_spec p 0); [lia|]. by destruct (Z.ltb_spec maxLen p); [lia|].
Qed.

(** ** Properties *)

(** Also (round trip). [parseIPv4] accepts exactly the canonical dotted quads,
    four decimal octets 0..255 without leading zeros, and its result is the
    big-endian value a*2^24 + b*2^16 + c*2^8 + d: the signed shift-and-or loop
    with the final [>>> 0] neither loses nor wraps a bit. *)
Theorem parseIPv4_canonical s v :
  parseIPv4 s = Some v <->
  exists a b c d, (is_octet a /\ is_octet b /\ is_octet c /\ is_octet d) /\
    s = show_ipv4 a b c d /\ v = octet_value a b c d.
Proof.
  split; [apply parseIPv4_Some|].
  intros (a & b & c & d & (?&?&?&?) & -> & ->). by apply parseIPv4_show.
Qed.

(** Also (functional). For well-formed texts, [isIPv4InCidr] decides equality of
    the network numbers: the address and the network agree on their first
    [p] bits, for every prefix length 0..32, the special-cased 0 and 32
    included. *)
Theorem isIPv4InCidr_network a b c d e f g h p :
  is_octet a -> is_octet b -> is_octet c -> is_octet d ->
  is_octet e -> is_octet f -> is_octet g -> is_octet h -> 0 <= p <= 32 ->
  isIPv4InCidr (show_ipv4 a b c d) (show_ipv4 e f g h +:+ "/" +:+ show_octet p)
  = bool_decide (network_of 32 (octet_value a b c d) p = network_of 32 (octet_value e f g h) p).
Proof.
  intros. unfold isIPv4InCidr.
  rewrite parse_cidr_show by
    (first [apply show_ipv4_no_char; auto using show_octet_no_slash | unfold is_octet; lia]).
  rewrite !parseIPv4_show by done.
  apply ipv4InCidr_network; auto with cidr.
Qed.

Lemma isIPv4InCidr_network_witness :
  isIPv4InCidr (show_ipv4 172 31 255 1) (show_ipv4 172 16 0 0 +:+ "/" +:+ show_octet 12)
  = bool_decide (network_of 32 (octet_value 172 31 255 1) 12
                 = network_of 32 (octet_value 172 16 0 0) 12).
Proof. apply isIPv4InCidr_network; unfold is_octet; lia. Defined.

(** Also (functional). On any two texts that parse as IPv6 addresses, the
    byte-and-mask loop of [ipv6InCidr] decides equality of the first [p] bits
    of the two 128-bit values, for every prefix length 0..128. *)
Theorem ipv6InCidr_prefix s t a b p :
  parseIPv6 s = Some a -> parseIPv6 t = Some b -> 0 <= p <= 128 ->
  ipv6InCidr a b p
  = bool_decide (network_of 128 (be_val a) p = network_of 128 (be_val b) p).
Proof. intros Ha Hb. apply ipv6InCidr_network; by eapply parseIPv6_bytes. Qed.

Lemma ipv6InCidr_prefix_witness :
  ipv6InCidr [254;191;0;0;0;0;0;0;0;0;0;0;0;0;0;1] [254;128;0;0;0;0;0;0;0;0;0;0;0;0;0;0] 10
  = bool_decide (network_of 128 (be_val [254;191;0;0;0;0;0;0;0;0;0;0;0;0;0;1]) 10
                 = network_of 128 (be_val [254;128;0;0;0;0;0;0;0;0;0;0;0;0;0;0]) 10).
Proof.
  apply (ipv6InCidr_prefix "febf::1" "fe80::"); [vm_compute; reflexivity..|lia].
Defined.
