(* ===== verification/NetDerive.v ===== *)
(** Trusted-proxy client IP derivation, reserved-address rejection and IP
    anonymisation: [packages/foundation/src/net/derive.ts].

    The two shape regexes are transcribed with [Regex]; a [Request] is the
    header lookup and the socket hint the code reads from it; HMAC-SHA-256
    (node:crypto) is a parameter of the anonymiser. *)

From S2P Require Import Prelude JsString Regex JsInt Cidr Rfc6890.
From Stdlib Require Import Ascii.

#[local] Open Scope string_scope.
#[local] Open Scope Z_scope.
#[local] Open Scope re_scope.

(** ** Shape validation *)

(** [25[0-5]|2[0-4]\d|1\d\d|[1-9]?\d] *)
Definition OCTET_RE : re :=
  lit "2" ⋅ lit "5" ⋅ rng "0" "5" ∥ lit "2" ⋅ rng "0" "4" ⋅ RCls is_digit
  ∥ lit "1" ⋅ RCls is_digit ⋅ RCls is_digit ∥ opt (rng "1" "9") ⋅ RCls is_digit.

Definition IPV4_RE : re := OCTET_RE ⋅ rep 3 (lit "." ⋅ OCTET_RE).

(** [/^[0-9a-fA-F:.]+$/] *)
Definition ipv6_body_char (c : ascii) : bool :=
  is_hex_digit c || Ascii.eqb c ":" || Ascii.eqb c ".".
Definition IPV6_BODY_RE : re := plus (RCls ipv6_body_char).

Definition isIpShape (s : string) : bool :=
  if String.eqb s "" || (64 <? String.length s)%nat then false
  else if re_match IPV4_RE s then true
  else if negb (includes s ":") then false
  else
    let body := match indexOf s "%" with Some i => str_take i s | None => s end in
    re_match IPV6_BODY_RE body.

(** ** Reserved blocks *)

Definition is_line_terminator (c : ascii) : bool := (code c =? 10) || (code c =? 13).

(** [ip.replace(/%.*$/, "")]: the dot does not match a line terminator, so the
    match starts at the first [%] with none after it. *)
Fixpoint replace_zone (s : string) : string :=
  match s with
  | String.EmptyString => ""
  | String.String c r =>
      if Ascii.eqb c "%" && str_all (fun d => negb (is_line_terminator d)) r then ""
      else String.String c (replace_zone r)
  end.

Definition isReservedIp (ip : string) : bool :=
  if String.eqb ip "" then false
  else if re_match IPV4_RE ip then
    existsb (fun block => isIPv4InCidr ip (cidr block)) RFC6890_IPV4_RESERVED
  else if includes ip ":" && re_match IPV6_BODY_RE (replace_zone ip) then
    existsb (fun block => isIPv6InCidr ip (cidr block)) RFC6890_IPV6_RESERVED
  else false.

(** ** Anonymisation *)

Inductive IpAnonymizationLevel := level_none | level_partial | level_hash.

Definition nth_part (l : list string) (i : nat) : string := default "" (l !! i).

(** The replacement text for the first [::], [":0:0:0:0:0:0:0:0:"]. *)
Definition expand_gap (addr : string) (i : nat) : string :=
  str_take i addr +:+ ":0:0:0:0:0:0:0:0:" +:+ str_drop (i + 2) addr.

Definition anonymizeIpPartial (ip : string) : string :=
  if String.eqb ip "" then ip
  else if re_match IPV4_RE ip then
    let parts := split "." ip in
    nth_part parts 0 +:+ "." +:+ nth_part parts 1 +:+ "." +:+ nth_part parts 2 +:+ ".0"
  else
    let addr := match indexOf ip "%" with Some i => str_take i ip | None => ip end in
    let first4 parts := nth_part parts 0 +:+ ":" +:+ nth_part parts 1 +:+ ":"
                        +:+ nth_part parts 2 +:+ ":" +:+ nth_part parts 3 +:+ "::" in
    match indexOf addr "::" with
    | Some i =>
        let parts := filter_non_empty (split ":" (expand_gap addr i)) in
        if (4 <=? length parts)%nat then first4 parts else addr +:+ "::"
    | None =>
        let parts := split ":" addr in
        if (length parts =? 8)%nat then first4 parts else ip
    end.

Record IpAnonymizer := {
  hashSalt : option string;
  defaultLevel : IpAnonymizationLevel
}.

Definition new_IpAnonymizer (salt : option string) (level : option IpAnonymizationLevel) :
    IpAnonymizer :=
  {| hashSalt := salt; defaultLevel := default level_partial level |}.

Inductive anonymize_error := MissingHashSalt.

Section anonymize.
(** [createHmac("sha256", salt).update(ip).digest("hex")] *)
Variable hmac_sha256_hex : string -> string -> string.

Definition hashIp (ip salt : string) : string :=
  "hashed:v1:" +:+ str_take 16 (hmac_sha256_hex salt ip).

Definition anonymize (self : IpAnonymizer) (ip : string) (level : option IpAnonymizationLevel) :
    result anonymize_error string :=
  match default (defaultLevel self) level with
  | level_none => Ok ip
  | level_hash =>
      match hashSalt self with
      | None => Throw MissingHashSalt
      | Some salt => Ok (hashIp ip salt)
      end
  | level_partial => Ok (anonymizeIpPartial ip)
  end.
End anonymize.

(** ** Trusted-proxy derivation *)

Inductive TrustedProxyMode := mode_none | mode_alb | mode_cloudflare.

Record Request := {
  headers_get : string -> option string;
  socket_remoteAddress : option string
}.

Definition remoteAddrFromRequest (request : Request) : option string :=
  match socket_remoteAddress request with
  | Some a => if (0 <? String.length a)%nat then Some a else None
  | None => None
  end.

Definition select_candidate (request : Request) (mode : TrustedProxyMode) : option string :=
  match mode with
  | mode_cloudflare => trim <$> headers_get request "CF-Connecting-IP"
  | mode_alb =>
      match headers_get request "X-Forwarded-For" with
      | Some xff => last (filter_non_empty (trim <$> split "," xff))
      | None => None
      end
  | mode_none => remoteAddrFromRequest request
  end.

Definition trustedClientIp (request : Request) (mode : TrustedProxyMode) : string :=
  match select_candidate request mode with
  | None => "unknown"
  | Some candidate =>
      if negb (isIpShape candidate) then "unknown"
      else if isReservedIp candidate then "unknown"
      else candidate
  end.

Example derive_examples :
  let req xff := {| headers_get := fun h => if String.eqb h "X-Forwarded-For" then Some xff else None;
                    socket_remoteAddress := None |} in
  trustedClientIp (req "1.2.3.4, 8.8.8.8") mode_alb = "8.8.8.8" /\
  trustedClientIp (req "8.8.8.8, 10.0.0.1 ,") mode_alb = "unknown" /\
  trustedClientIp (req "8.8.8.8") mode_none = "unknown" /\
  anonymizeIpPartial "203.0.113.77" = "203.0.113.0" /\
  anonymizeIpPartial "2001:db8::1%eth0" = "2001:db8:0:0::" /\
  isReservedIp "2001:db8::5" = true /\ isReservedIp "::1%eth0" = true /\
  isReservedIp "2606:4700::1111" = false.
Proof. vm_compute. repeat split. Qed.

(** ** Specification of the IPv4 block table: inclusive numeric ranges *)

Definition IPV4_RESERVED_RANGES : list (Z * Z) := [
  (octet_value 0 0 0 0, octet_value 0 255 255 255);
  (octet_value 10 0 0 0, octet_value 10 255 255 255);
  (octet_value 100 64 0 0, octet_value 100 127 255 255);
  (octet_value 127 0 0 0, octet_value 127 255 255 255);
  (octet_value 169 254 0 0, octet_value 169 254 255 255);
  (octet_value 172 16 0 0, octet_value 172 31 255 255);
  (octet_value 192 0 0 0, octet_value 192 0 0 255);
  (octet_value 192 0 2 0, octet_value 192 0 2 255);
  (octet_value 192 168 0 0, octet_value 192 168 255 255);
  (octet_value 198 18 0 0, octet_value 198 19 255 255);
  (octet_value 198 51 100 0, octet_value 198 51 100 255);
  (octet_value 203 0 113 0, octet_value 203 0 113 255);
  (octet_value 224 0 0 0, octet_value 255 255 255 255)
].

Definition in_ranges (v : Z) (l : list (Z * Z)) : bool :=
  existsb (fun '(lo, hi) => (lo <=? v) && (v <=? hi)) l.

(** ** Lemmas: the shape regex is the parser *)

Lemma octet_re_digits w :
  re_lang OCTET_RE w -> str_all is_digit w = true /\ (1 <= String.length w <= 3)%nat.
Proof.
  assert (Hr : forall lo hi c, in_range lo hi c = true ->
    (code "0" <=? code lo) && (code hi <=? code "9") = true -> is_digit c = true).
  { unfold is_digit, in_range. intros lo hi c H1 H2. bool_hyps. bool_goal; lia. }
  unfold OCTET_RE, opt, rng. rewrite !lang_alt, !lang_cat. intros H.
  repeat match goal with
  | H : _ \/ _ |- _ => destruct H as [H|H]
  | H : exists _, _ |- _ => destruct H as (? & H)
  | H : _ /\ _ |- _ => destruct H
  | H : re_lang (RCls _) _ |- _ => apply lang_cls in H
  | H : re_lang (lit _) _ |- _ => apply lang_lit in H
  | H : re_lang (_ ⋅ _) _ |- _ => apply lang_cat in H
  | H : re_lang (_ ∥ _) _ |- _ => apply lang_alt in H
  | H : re_lang REps _ |- _ => apply lang_eps in H
  | H : in_range _ _ _ = true |- _ => apply Hr in H; [|reflexivity]
  end; subst; simpl;
  repeat match goal with H : is_digit _ = true |- _ => rewrite H; clear H end;
  (split; [done|lia]).
Qed.

Lemma octet_re_spec w : re_lang OCTET_RE w <-> exists n, is_octet n /\ w = show_octet n.
Proof.
  split.
  - intros H. destruct (octet_re_digits w H) as [Hd Hl]. apply octet_ok_spec.
    apply re_match_spec in H.
    pose proof (digits_of_len_spec (String.length w)
      (fun w => negb (re_match OCTET_RE w) || octet_ok w) w ltac:(lia) eq_refl Hd) as Hc.
    cbv beta in Hc. rewrite H in Hc. simpl in Hc. apply Hc.
    destruct (String.length w) as [|[|[|[|]]]]; try lia; vm_compute; done.
  - intros (n & Hn & ->). apply re_match_spec.
    apply (forall_below_spec 256 (fun n => re_match OCTET_RE (show_octet n)));
      [vm_compute; done|unfold is_octet in Hn; lia].
Qed.

Lemma ipv4_re_spec s :
  re_match IPV4_RE s = true <->
  exists a b c d, (is_octet a /\ is_octet b /\ is_octet c /\ is_octet d) /\ s = show_ipv4 a b c d.
Proof.
  rewrite re_match_spec. unfold IPV4_RE. cbn [rep]. split.
  - intros H. repeat match goal with
    | H : re_lang (_ ⋅ _) _ |- _ => apply lang_cat in H as (? & ? & -> & ? & ?)
    | H : re_lang (lit _) _ |- _ => apply lang_lit in H as ->
    | H : re_lang OCTET_RE _ |- _ => apply octet_re_spec in H as (? & ? & ->)
    | H : re_lang REps _ |- _ => apply lang_eps in H as ->
    end.
    do 4 eexists. split; [|unfold show_ipv4; rewrite !str_app_assoc, str_app_nil_r; reflexivity].
    auto.
  - intros (a & b & c & d & (Ha & Hb & Hc & Hd) & ->). unfold show_ipv4.
    rewrite <- (str_app_nil_r (show_octet d)).
    rewrite <- !(str_app_assoc "." (show_octet _) _).
    repeat first [apply L_eps | apply L_cat | by apply lang_lit | by apply octet_re_spec; eauto].
Qed.

Lemma IPV4_RE_show a b c d :
  is_octet a -> is_octet b -> is_octet c -> is_octet d ->
  re_match IPV4_RE (show_ipv4 a b c d) = true.
Proof. intros. apply ipv4_re_spec. by exists a, b, c, d. Qed.

Lemma show_ipv4_nonempty a b c d : String.eqb (show_ipv4 a b c d) "" = false.
Proof. unfold show_ipv4. by destruct (show_octet a). Qed.

(** Equal network numbers, as a range of addresses. *)
Lemma network_range w p v n : 0 <= p <= w ->
  bool_decide (network_of w v p = network_of w n p) =
  (network_of w n p * 2 ^ (w - p) <=? v) && (v <=? (network_of w n p + 1) * 2 ^ (w - p) - 1).
Proof.
  intros Hp. unfold network_of. assert (0 < 2 ^ (w - p)) by lia.
  apply bool_eq_iff. rewrite bool_decide_eq_true, andb_true_iff, !Z.leb_le. split.
  - intros <-. pose proof (Z.div_mod v (2 ^ (w - p)) ltac:(lia)).
    pose proof (Z.mod_pos_bound v (2 ^ (w - p)) ltac:(lia)). lia.
  - intros [Hlo Hhi]. symmetry. eapply (Z.div_unique_pos _ _ _ (v - n / 2 ^ (w - p) * 2 ^ (w - p)));
      lia.
Qed.

(** One table entry: its string-level test is a range test. *)
Definition block_is_range (b : ReservedBlock) (r : Z * Z) : bool :=
  match parse_cidr (cidr b) 32 with
  | Some (net, p) =>
      match parseIPv4 net with
      | Some n => (network_of 32 n p * 2 ^ (32 - p) =? fst r) &&
                  ((network_of 32 n p + 1) * 2 ^ (32 - p) - 1 =? snd r) &&
                  (0 <=? p) && (p <=? 32)
      | None => false
      end
  | None => false
  end.

Lemma block_range_test b lo hi s v :
  block_is_range b (lo, hi) = true -> parseIPv4 s = Some v ->
  isIPv4InCidr s (cidr b) = (lo <=? v) && (v <=? hi).
Proof.
  unfold block_is_range, isIPv4InCidr. intros H Hs. rewrite Hs.
  destruct (parse_cidr (cidr b) 32) as [[net p]|]; [|done].
  destruct (parseIPv4 net) as [n|] eqn:Hn; [|done]. simpl in H. bool_hyps. subst lo hi.
  rewrite ipv4InCidr_network by (eauto with cidr). apply network_range. lia.
Qed.

(** The last two blocks of the table (Class E and broadcast) and Multicast are
    merged into one range of the specification. *)
Definition IPV4_TABLE_RANGES : list (Z * Z) :=
  take 12 IPV4_RESERVED_RANGES ++
  [(octet_value 224 0 0 0, octet_value 239 255 255 255);
   (octet_value 240 0 0 0, octet_value 255 255 255 255);
   (octet_value 255 255 255 255, octet_value 255 255 255 255)].

Lemma table_ranges_ok :
  forallb (fun '(b, r) => block_is_range b r)
    (zip RFC6890_IPV4_RESERVED IPV4_TABLE_RANGES) = true.
Proof. vm_compute. done. Qed.

Lemma existsb_zip {A B} (f : A -> bool) (g : B -> bool) l k :
  length l = length k -> (forall a b, (a, b) ∈ zip l k -> f a = g b) ->
  existsb f l = existsb g k.
Proof.
  revert k; induction l as [|a l IH]; intros [|b k] Hlen H; simpl in *; try done.
  rewrite (H a b) by set_solver. f_equal. apply IH; [lia|]. set_solver.
Qed.

Lemma isReservedIp_ipv4 s v :
  parseIPv4 s = Some v -> isReservedIp s = in_ranges v IPV4_RESERVED_RANGES.
Proof.
  intros Hs. destruct (parseIPv4_Some s v Hs) as (a & b & c & d & (?&?&?&?) & -> & Hv).
  unfold isReservedIp. rewrite show_ipv4_nonempty, IPV4_RE_show by done.
  etrans; [apply (existsb_zip _ (fun '(lo, hi) => (lo <=? v) && (v <=? hi)) _ IPV4_TABLE_RANGES)|].
  - done.
  - intros blk [lo hi] Hin. apply block_range_test; [|done].
    pose proof (proj1 (forallb_forall _ _) table_ranges_ok (blk, (lo, hi))) as Ht.
    apply Ht. by apply list_elem_of_In.
  - unfold in_ranges, IPV4_TABLE_RANGES, IPV4_RESERVED_RANGES, octet_value. simpl. lia.
Qed.

(** ** Specification of the IPv6 block table *)

(** The address of eight hextets. *)
Definition hextets (l : list Z) : Z := fold_left (fun acc h => acc * 2 ^ 16 + h) l 0.
Definition from_hextets (first last : list Z) : Z * Z :=
  (hextets (take 8 (first ++ replicate 8 0)), hextets (take 8 (last ++ replicate 8 65535))).

(** Loopback, unspecified and the IPv4-compatible addresses; IPv4-mapped; discard;
    IETF protocol assignments (Teredo and benchmarking in them); documentation;
    6to4; unique local; link local; multicast. *)
Definition IPV6_RESERVED_RANGES : list (Z * Z) := [
  from_hextets [0; 0; 0; 0; 0; 0; 0; 0] [0; 0; 0; 0; 0; 0];
  from_hextets [0; 0; 0; 0; 0; 0xffff] [0; 0; 0; 0; 0; 0xffff];
  from_hextets [0x100] [0x100; 0; 0; 0];
  from_hextets [0x2001] [0x2001; 0x01ff];
  from_hextets [0x2001; 0x0db8] [0x2001; 0x0db8];
  from_hextets [0x2002] [0x2002];
  from_hextets [0xfc00] [0xfdff];
  from_hextets [0xfe80] [0xfebf];
  from_hextets [0xff00] [0xffff]
].

(** The range of each block of the table. *)
Definition IPV6_TABLE_RANGES : list (Z * Z) := [
  from_hextets [0; 0; 0; 0; 0; 0; 0; 1] [0; 0; 0; 0; 0; 0; 0; 1];
  from_hextets [0] [0; 0; 0; 0; 0; 0; 0; 0];
  from_hextets [0; 0; 0; 0; 0; 0xffff] [0; 0; 0; 0; 0; 0xffff];
  from_hextets [0] [0; 0; 0; 0; 0; 0];
  from_hextets [0x100] [0x100; 0; 0; 0];
  from_hextets [0x2001] [0x2001; 0x01ff];
  from_hextets [0x2001] [0x2001; 0];
  from_hextets [0x2001; 2] [0x2001; 2; 0];
  from_hextets [0x2001; 0x0db8] [0x2001; 0x0db8];
  from_hextets [0x2002] [0x2002];
  from_hextets [0xfc00] [0xfdff];
  from_hextets [0xfe80] [0xfebf];
  from_hextets [0xff00] [0xffff]
].

Definition block6_is_range (b : ReservedBlock) (r : Z * Z) : bool :=
  match parse_cidr (cidr b) 128 with
  | Some (net, p) =>
      match parseIPv6 net with
      | Some n => (network_of 128 (be_val n) p * 2 ^ (128 - p) =? fst r) &&
                  ((network_of 128 (be_val n) p + 1) * 2 ^ (128 - p) - 1 =? snd r) &&
                  (0 <=? p) && (p <=? 128)
      | None => false
      end
  | None => false
  end.

Lemma block6_range_test b lo hi s bs :
  block6_is_range b (lo, hi) = true -> parseIPv6 s = Some bs ->
  isIPv6InCidr s (cidr b) = (lo <=? be_val bs) && (be_val bs <=? hi).
Proof.
  unfold block6_is_range, isIPv6InCidr. intros H Hs. rewrite Hs.
  destruct (parse_cidr (cidr b) 128) as [[net p]|]; [|done].
  destruct (parseIPv6 net) as [n|] eqn:Hn; [|done]. simpl in H. bool_hyps. subst lo hi.
  rewrite ipv6InCidr_network by (first [by eapply parseIPv6_bytes | lia]). apply network_range. lia.
Qed.

Lemma table6_ranges_ok :
  forallb (fun '(b, r) => block6_is_range b r) (zip RFC6890_IPV6_RESERVED IPV6_TABLE_RANGES) = true.
Proof. vm_compute. done. Qed.

Definition ranges_within (l k : list (Z * Z)) : bool :=
  forallb (fun r => existsb (fun q => (fst q <=? fst r) && (snd r <=? snd q)) k) l.

Lemma ranges_within_in l k v : ranges_within l k = true -> in_ranges v l = true -> in_ranges v k = true.
Proof.
  unfold ranges_within, in_ranges. rewrite forallb_forall, !existsb_exists. intros Hw ([lo hi] & Hin & Hv).
  specialize (Hw _ Hin). apply existsb_exists in Hw as ([lo' hi'] & Hin' & Hq). exists (lo', hi'). split; [done|].
  cbn in *. bool_hyps. bool_goal; lia.
Qed.

Lemma table6_covered v : in_ranges v IPV6_TABLE_RANGES = in_ranges v IPV6_RESERVED_RANGES.
Proof. apply bool_eq_iff. split; apply ranges_within_in; vm_compute; reflexivity. Qed.

Lemma table6_test s bs : parseIPv6 s = Some bs ->
  existsb (fun block => isIPv6InCidr s (cidr block)) RFC6890_IPV6_RESERVED = in_ranges (be_val bs) IPV6_RESERVED_RANGES.
Proof.
  intros Hs. rewrite <- table6_covered.
  apply (existsb_zip _ (fun '(lo, hi) => (lo <=? be_val bs) && (be_val bs <=? hi)) _ IPV6_TABLE_RANGES); [done|].
  intros blk [lo hi] Hin. apply block6_range_test; [|done].
  pose proof (proj1 (forallb_forall _ _) table6_ranges_ok (blk, (lo, hi))) as Ht. apply Ht. by apply list_elem_of_In.
Qed.

Lemma table6_unparsed s : parseIPv6 s = None -> existsb (fun block => isIPv6InCidr s (cidr block)) RFC6890_IPV6_RESERVED = false.
Proof.
  intros Hs. apply not_true_iff_false. rewrite existsb_exists. intros (b & _ & H). unfold isIPv6InCidr in H.
  rewrite Hs in H. by destruct (parse_cidr _ _) as [[]|].
Qed.

(** ** Anonymisation lemmas *)

Lemma anonymize_show a b c d :
  is_octet a -> is_octet b -> is_octet c -> is_octet d ->
  anonymizeIpPartial (show_ipv4 a b c d) = show_ipv4 a b c 0.
Proof.
  intros Ha Hb Hc Hd. unfold anonymizeIpPartial.
  rewrite show_ipv4_nonempty, IPV4_RE_show by done.
  assert (split "." (show_ipv4 a b c d)
    = [show_octet a; show_octet b; show_octet c; show_octet d]) as ->.
  { apply split_four. unfold show_ipv4. repeat split; by apply show_octet_props. }
  reflexivity.
Qed.

(** ** Candidate selection *)

Lemma filter_last_app x l :
  non_empty x = true -> last (filter_non_empty (l ++ [x])) = Some x.
Proof.
  intros Hx. unfold filter_non_empty. rewrite List.filter_app. simpl. rewrite Hx.
  apply last_snoc.
Qed.

Lemma split_snoc c s x :
  char_in c x = false -> split c (s +:+ String.String c x) = (split c s ++ [x])%list.
Proof.
  intros Hx. induction s as [|d s IH]; simpl.
  - by rewrite Ascii.eqb_refl, split_none.
  - rewrite IH. pose proof (split_nonempty c s). destruct (Ascii.eqb d c); [done|].
    by destruct (split c s).
Qed.

(** ** Properties *)

(** Finding (equivalence). The shape regex [IPV4_RE] and the parser [parseIPv4]
    accept the same strings, so everything the shape check passes as IPv4 is
    classified by its numeric value, and nothing else is. *)
Theorem IPV4_RE_iff_parseIPv4 s :
  re_match IPV4_RE s = true <-> is_Some (parseIPv4 s).
Proof.
  rewrite ipv4_re_spec. split.
  - intros (a & b & c & d & (?&?&?&?) & ->). rewrite parseIPv4_show by done. eauto.
  - intros [v (a & b & c & d & ? & -> & _)%parseIPv4_Some]. eauto 6.
Qed.

(** Also (equivalence). On every IPv4 address, walking the RFC 6890 table of CIDR
    strings ([isReservedIp]) is membership of the address value in thirteen
    numeric ranges. *)
Theorem isReservedIp_ipv4_ranges s v :
  parseIPv4 s = Some v -> isReservedIp s = in_ranges v IPV4_RESERVED_RANGES.
Proof. apply isReservedIp_ipv4. Qed.

Lemma isReservedIp_ipv4_ranges_witness :
  isReservedIp "100.127.255.255" = in_ranges 1686110207 IPV4_RESERVED_RANGES.
Proof. apply isReservedIp_ipv4_ranges. vm_compute. reflexivity. Defined.

(** ** Specification of the derivation *)

(** What each trust mode lets speak for the client: the socket; Cloudflare's
    header; the rightmost entry of X-Forwarded-For that is not blank. *)
Definition trusted_source (request : Request) (mode : TrustedProxyMode) (r : string) : Prop :=
  match mode with
  | mode_none => socket_remoteAddress request = Some r /\ r <> ""
  | mode_cloudflare => exists v, headers_get request "CF-Connecting-IP" = Some v /\ r = trim v
  | mode_alb =>
      exists v before entry blanks, headers_get request "X-Forwarded-For" = Some v /\
        split "," v = (before ++ entry :: blanks)%list /\ Forall (fun b => trim b = "") blanks /\
        r = trim entry /\ r <> ""
  end.

Definition dotted_quad (r : string) (v : Z) : Prop :=
  exists a b c d, (is_octet a /\ is_octet b /\ is_octet c /\ is_octet d) /\
    r = show_ipv4 a b c d /\ v = octet_value a b c d.

(** Hexadecimal digits, colons and dots, a colon among them or in the zone that
    may follow a [%]. *)
Definition colon_text (r : string) : Prop :=
  (String.length r <= 64)%nat /\ char_in ":" r = true /\
  exists body zone, r = body +:+ zone /\ body <> "" /\
    str_all (fun c => char_in c "0123456789abcdefABCDEF:.") body = true /\
    (zone = "" \/ exists z, zone = "%" +:+ z).

Definition address_text (r : string) : Prop := (exists v, dotted_quad r v) \/ colon_text r.

Definition within (v : Z) (l : list (Z * Z)) : Prop := exists lo hi, (lo, hi) ∈ l /\ lo <= v <= hi.

(** A text of an address of the reserved ranges; an IPv6 text whose zone breaks
    the line does not count. *)
Definition reserved_text (r : string) : Prop :=
  (exists v, dotted_quad r v /\ within v IPV4_RESERVED_RANGES) \/
  (exists bs, parseIPv6 r = Some bs /\ within (be_val bs) IPV6_RESERVED_RANGES /\
     str_all (fun c => negb (is_line_terminator c)) r = true).

(** ** Lemmas: the specification is what is computed *)

Lemma in_ranges_within v l : in_ranges v l = true <-> within v l.
Proof.
  unfold in_ranges, within. rewrite existsb_exists. split.
  - intros ([lo hi] & Hin & H). bool_hyps. exists lo, hi. rewrite list_elem_of_In. split; [done|lia].
  - intros (lo & hi & Hin & H). exists (lo, hi). rewrite <- list_elem_of_In. split; [done|]. bool_goal; lia.
Qed.

Lemma dotted_quad_re r : re_match IPV4_RE r = true <-> exists v, dotted_quad r v.
Proof.
  rewrite ipv4_re_spec. unfold dotted_quad. split.
  - intros (a & b & c & d & H & ->). exists (octet_value a b c d), a, b, c, d. done.
  - intros (v & a & b & c & d & H & -> & _). by exists a, b, c, d.
Qed.

Lemma dotted_quad_parsed r v : dotted_quad r v -> parseIPv4 r = Some v.
Proof. intros (a & b & c & d & (? & ? & ? & ?) & -> & ->). by apply parseIPv4_show. Qed.

Lemma body_char c : ipv6_body_char c = char_in c "0123456789abcdefABCDEF:.".
Proof. destruct c as [[] [] [] [] [] [] [] []]; reflexivity. Qed.

Lemma body_chars s : str_all ipv6_body_char s = str_all (fun c => char_in c "0123456789abcdefABCDEF:.") s.
Proof. induction s as [|c s IH]; cbn [str_all]; [done|]. by rewrite body_char, IH. Qed.

Lemma indexOf_percent_cons c s :
  indexOf (String.String c s) "%" = if Ascii.eqb c "%" then Some 0%nat else S <$> indexOf s "%".
Proof.
  cbn [indexOf String.prefix]. destruct (ascii_dec "%" c) as [<-|Hne]; [by destruct s|].
  destruct (Ascii.eqb_spec c "%") as [->|]; done.
Qed.

Lemma strip_zone_cons c s : strip_zone (String.String c s) = if Ascii.eqb c "%" then "" else String.String c (strip_zone s).
Proof.
  unfold strip_zone. rewrite indexOf_percent_cons. destruct (Ascii.eqb c "%"); [done|]. by destruct (indexOf s "%").
Qed.

Lemma strip_zone_split s : exists zone, s = strip_zone s +:+ zone /\ (zone = "" \/ exists z, zone = "%" +:+ z).
Proof.
  induction s as [|c s (zone & Hs & Hz)]; [exists ""; split; [done|by left]|]. rewrite strip_zone_cons.
  destruct (Ascii.eqb_spec c "%") as [->|_].
  - exists (String.String "%" s). split; [done|]. right. by exists s.
  - exists zone. split; [|done]. cbn. by rewrite <- Hs.
Qed.

Lemma strip_zone_body body zone : str_all ipv6_body_char body = true -> zone = "" \/ (exists z, zone = "%" +:+ z) ->
  strip_zone (body +:+ zone) = body.
Proof.
  intros Hb Hz. induction body as [|c body IH].
  - destruct Hz as [->|[z ->]]; [done|]. apply (strip_zone_cons "%" z).
  - apply str_all_cons in Hb as [Hc Hb]. change (String.String c body +:+ zone) with (String.String c (body +:+ zone)).
    rewrite strip_zone_cons. destruct (Ascii.eqb_spec c "%") as [->|_]; [done|]. by rewrite IH.
Qed.

Lemma show_ipv4_short a b c d : is_octet a -> is_octet b -> is_octet c -> is_octet d -> (String.length (show_ipv4 a b c d) <= 64)%nat.
Proof.
  intros Ha Hb Hc Hd. assert (forall n, is_octet n -> (String.length (show_octet n) <= 3)%nat) as H.
  { intros n Hn. apply octet_ok_length, (show_octet_props n Hn). }
  unfold show_ipv4. rewrite !str_length_app. pose proof (H a Ha). pose proof (H b Hb). pose proof (H c Hc). pose proof (H d Hd).
  cbn [String.length]. lia.
Qed.

Lemma show_octet_lacks ch n : is_digit ch = false -> is_octet n -> char_in ch (show_octet n) = false.
Proof.
  intros Hch Hn. destruct (show_octet_props n Hn) as (Hok & _). unfold octet_ok in Hok. bool_hyps.
  assert (str_all is_digit (show_octet n) = true) as Hd by done. clear -Hd Hch. apply not_true_iff_false. unfold char_in. intros H.
  induction (show_octet n) as [|x s IH]; [done|]. apply str_all_cons in Hd as [Hx Hd]. cbn [str_exists] in H.
  destruct (Ascii.eqb_spec ch x) as [->|]; [congruence|]. by apply IH.
Qed.

Lemma indexOf_absent s ch pat : char_in ch s = false -> indexOf s (String.String ch pat) = None.
Proof.
  intros H. destruct (indexOf s _) as [n|] eqn:E; [|done]. apply indexOf_Some in E as (p & r & -> & _).
  rewrite !char_in_app in H. unfold char_in in H. cbn [str_exists] in H. by rewrite Ascii.eqb_refl, !orb_true_r in H.
Qed.

(** A dotted quad alone is no IPv6 text. *)
Lemma parseIPv6_show_ipv4 a b c d : is_octet a -> is_octet b -> is_octet c -> is_octet d -> parseIPv6 (show_ipv4 a b c d) = None.
Proof.
  intros Ha Hb Hc Hd. unfold parseIPv6, strip_zone.
  assert (char_in ":" (show_ipv4 a b c d) = false) as Hcolon by (apply show_ipv4_no_char; auto using show_octet_lacks).
  rewrite indexOf_absent by (apply show_ipv4_no_char; auto using show_octet_lacks).
  unfold split_groups. rewrite indexOf_absent, split_none by done. cbv iota beta zeta. cbn [app last_is_dotted last negb andb].
  assert (includes (show_ipv4 a b c d) "." = true) as Hdot.
  { rewrite includes_char. unfold show_ipv4. rewrite !char_in_app. unfold char_in at 2. cbn. by rewrite orb_true_r. }
  change (last_is_dotted [show_ipv4 a b c d]) with (includes (show_ipv4 a b c d) ".").
  rewrite Hdot. cbn [negb andb removelast length default].
  destruct (negb _); [done|]. by destruct (parse_v4_parts _).
Qed.

Lemma includes_colon r : includes r ":" = char_in ":" r.
Proof. apply includes_char. Qed.

Lemma isIpShape_spec r : isIpShape r = true <-> address_text r.
Proof.
  unfold isIpShape, address_text. rewrite <- dotted_quad_re. change (match indexOf r "%" with Some i => str_take i r | None => r end) with (strip_zone r).
  cbv zeta. unfold IPV6_BODY_RE. rewrite match_plus_cls, includes_colon. split.
  - destruct (String.eqb r ""); [done|]. destruct (Nat.ltb_spec 64 (String.length r)); [done|]. cbn [orb].
    destruct (re_match IPV4_RE r); [by left|]. destruct (char_in ":" r) eqn:Hc; [|done]. cbn [negb].
    intros [Hn Hb]%andb_true_iff. right. split; [lia|]. split; [done|]. destruct (strip_zone_split r) as (zone & Hr & Hz).
    exists (strip_zone r), zone. rewrite <- body_chars. repeat split; try done. by intros He; rewrite He in Hn.
  - intros [H|(Hl & Hc & body & zone & -> & Hne & Hb & Hz)].
    + destruct (proj1 (ipv4_re_spec r) H) as (a & b & c & d & (? & ? & ? & ?) & Hr). rewrite H. subst r.
      rewrite show_ipv4_nonempty. assert (String.length (show_ipv4 a b c d) <= 64)%nat as Hl by (by apply show_ipv4_short).
      apply Nat.ltb_ge in Hl. by rewrite Hl.
    + rewrite <- body_chars in Hb. rewrite Hc, strip_zone_body, Hb by done. apply Nat.ltb_ge in Hl. rewrite Hl.
      destruct body as [|c body]; [done|]. cbn [String.append String.eqb orb negb]. by destruct (re_match _ _).
Qed.

(** A zone that the replacement does not strip keeps the text out of the IPv6
    alphabet. *)
Lemma replace_zone_stripped r : str_all (fun c => negb (is_line_terminator c)) r = true -> replace_zone r = strip_zone r.
Proof.
  induction r as [|c r IH]; intros H; [done|]. apply str_all_cons in H as [_ H]. rewrite strip_zone_cons. cbn [replace_zone].
  rewrite H, andb_true_r. destruct (Ascii.eqb c "%"); [done|]. by rewrite IH.
Qed.

Lemma replace_zone_body r : str_all ipv6_body_char (replace_zone r) = true -> str_all (fun c => negb (is_line_terminator c)) r = true.
Proof.
  induction r as [|c r IH]; [done|]. cbn [replace_zone]. destruct (Ascii.eqb c "%" && _) eqn:E.
  - apply andb_true_iff in E as [->%Ascii.eqb_eq E]. intros _. by apply str_all_cons.
  - intros [Hc H]%str_all_cons. apply str_all_cons. split; [|by apply IH].
    revert Hc. clear. destruct c as [[] [] [] [] [] [] [] []]; by vm_compute.
Qed.

Lemma isReservedIp_spec r : address_text r -> isReservedIp r = true <-> reserved_text r.
Proof.
  intros Ha. unfold reserved_text. destruct (re_match IPV4_RE r) eqn:H4.
  - destruct (proj1 (dotted_quad_re r) H4) as (v & Hv). rewrite (isReservedIp_ipv4 r v), in_ranges_within by (by apply dotted_quad_parsed).
    split; [intros H; left; by exists v|]. intros [(v' & Hv' & H)|(bs & H & _)].
    + apply dotted_quad_parsed in Hv, Hv'. by simplify_eq.
    + exfalso. destruct Hv as (a & b & c & d & (Ha' & Hb & Hc & Hd) & -> & _). by rewrite parseIPv6_show_ipv4 in H.
  - assert (String.eqb r "" = false) as Hn.
    { apply String.eqb_neq. intros ->. by apply isIpShape_spec in Ha. }
    destruct Ha as [Ha%dotted_quad_re|(_ & Hc & body & zone & Hr & Hne & Hb & Hz)]; [congruence|].
    unfold isReservedIp. rewrite Hn, H4, includes_colon, Hc. cbn [andb]. unfold IPV6_BODY_RE. rewrite match_plus_cls.
    rewrite <- body_chars in Hb. pose proof (strip_zone_body body zone Hb Hz) as Hs. rewrite <- Hr in Hs.
    destruct (str_all (fun c => negb (is_line_terminator c)) r) eqn:Hl.
    + rewrite replace_zone_stripped, Hs, Hb by done. replace (non_empty body) with true by (by destruct body). cbn [andb].
      destruct (parseIPv6 r) as [bs|] eqn:Hp; [rewrite (table6_test r bs), in_ranges_within by done|rewrite table6_unparsed by done].
      * split; [intros H; right; by exists bs|]. intros [(v & Hv & _)|(bs' & [= <-] & H & _)]; [|done].
        assert (re_match IPV4_RE r = true) as H' by (apply dotted_quad_re; by exists v). congruence.
      * split; [done|]. intros [(v & Hv & _)|(bs' & [=] & _)].
        assert (re_match IPV4_RE r = true) as H' by (apply dotted_quad_re; by exists v). congruence.
    + destruct (str_all ipv6_body_char (replace_zone r)) eqn:Hz'; [by rewrite (replace_zone_body r) in Hl|]. rewrite andb_false_r.
      split; [done|]. intros [(v & Hv & _)|(bs' & _ & _ & [=])].
      assert (re_match IPV4_RE r = true) as H' by (apply dotted_quad_re; by exists v). congruence.
Qed.

Lemma last_non_blank l r : last (filter_non_empty l) = Some r <->
  exists before blanks, l = (before ++ r :: blanks)%list /\ Forall (fun b => b = "") blanks /\ r <> "".
Proof.
  induction l as [|x l IH] using rev_ind.
  - split; [done|]. by intros ([|] & ? & ? & _).
  - unfold filter_non_empty in *. rewrite List.filter_app. cbn [List.filter]. destruct (non_empty x) eqn:Hx.
    + rewrite last_snoc. assert (x <> "") as Hne by (intros ->; done). split.
      * intros [= <-]. exists l, []. done.
      * intros (before & blanks & H & Hb & Hr). destruct blanks as [|b blanks _] using rev_ind; [apply app_inj_tail in H as [_ ->]; done|].
        change (before ++ r :: blanks ++ [b])%list with (before ++ (r :: blanks) ++ [b])%list in H. rewrite app_assoc in H.
        apply app_inj_tail in H as [_ ->]. apply Forall_app in Hb as [_ Hb]. inversion Hb. done.
    + rewrite app_nil_r. rewrite IH. assert (x = "") as -> by (by destruct x). split.
      * intros (before & blanks & -> & Hb & Hr). exists before, (blanks ++ [""])%list. rewrite <- app_assoc. split; [done|].
        split; [|done]. apply Forall_app. by split; [|repeat constructor].
      * intros (before & blanks & H & Hb & Hr). destruct blanks as [|b blanks _] using rev_ind; [by apply app_inj_tail in H as [_ <-]|].
        change (before ++ r :: blanks ++ [b])%list with (before ++ (r :: blanks) ++ [b])%list in H. rewrite app_assoc in H.
        apply app_inj_tail in H as [-> _]. exists before, blanks. apply Forall_app in Hb as [Hb _]. done.
Qed.

Lemma trimmed_split (f : string -> string) l before r blanks : f <$> l = (before ++ r :: blanks)%list ->
  exists b e k, l = (b ++ e :: k)%list /\ r = f e /\ blanks = f <$> k.
Proof.
  intros (b & l' & -> & Hl & ->)%fmap_app_inv. destruct l' as [|e k]; [done|].
  injection Hl as -> ->. by exists b, e, k.
Qed.

Lemma select_candidate_spec request mode r : isIpShape r = true ->
  select_candidate request mode = Some r <-> trusted_source request mode r.
Proof.
  intros Hs. unfold select_candidate, trusted_source. destruct mode.
  - unfold remoteAddrFromRequest. destruct (socket_remoteAddress request) as [a|]; [|naive_solver].
    destruct a as [|c a]; cbn; [split; [done|by intros [[= <-] ?]]|]. split; [intros [= <-]; done|by intros [[= <-] _]].
  - destruct (headers_get request "X-Forwarded-For") as [v|]; [|split; [done|by intros (? & ? & ? & ? & ? & _)]].
    rewrite last_non_blank. split.
    + intros (before & blanks & H & Hb & Hr). apply trimmed_split in H as (b & e & k & H & -> & ->).
      exists v, b, e, k. apply Forall_fmap in Hb. done.
    + intros (v' & before & entry & blanks & [= <-] & H & Hb & -> & Hr). exists (trim <$> before), (trim <$> blanks).
      rewrite H, fmap_app. split; [done|]. split; [by apply Forall_fmap|done].
  - destruct (headers_get request "CF-Connecting-IP") as [v|]; cbn; [|split; [done|by intros (? & ? & _)]].
    split; [intros [= <-]; by exists v|by intros (v' & [= <-] & ->)].
Qed.


(** Also (safety). In [alb] mode the address depends only on the entry the load
    balancer appended: whatever comma-separated text the client put in
    X-Forwarded-For before it, the candidate is the trimmed last entry. *)
Theorem alb_ignores_client_supplied_prefix request spoofed appended :
  headers_get request "X-Forwarded-For" = Some (spoofed +:+ "," +:+ appended) ->
  char_in "," appended = false -> trim appended <> "" ->
  select_candidate request mode_alb = Some (trim appended).
Proof.
  intros Hx Hc Hne. unfold select_candidate. rewrite Hx.
  change ("," +:+ appended) with (String.String "," appended).
  rewrite split_snoc, fmap_app by done. apply filter_last_app.
  unfold non_empty. by destruct (String.eqb_spec (trim appended) "").
Qed.

Lemma alb_ignores_client_supplied_prefix_witness :
  select_candidate {| headers_get := fun h => if String.eqb h "X-Forwarded-For"
                                              then Some "1.1.1.1,, 9.9.9.9, 8.8.8.8 " else None;
                      socket_remoteAddress := None |} mode_alb = Some (trim " 8.8.8.8 ").
Proof.
  apply (alb_ignores_client_supplied_prefix _ "1.1.1.1,, 9.9.9.9"); [reflexivity..|].
  vm_compute. discriminate.
Defined.

(** Also (functional). Partial anonymisation of an IPv4 address clears exactly
    the last octet: the result is again a canonical address, with value
    [v / 256 * 256]. *)
Theorem anonymizeIpPartial_ipv4 s v :
  parseIPv4 s = Some v -> parseIPv4 (anonymizeIpPartial s) = Some (v / 2 ^ 8 * 2 ^ 8).
Proof.
  intros (a & b & c & d & (?&?&?&?) & -> & ->)%parseIPv4_Some.
  assert (is_octet 0) by (unfold is_octet; lia).
  rewrite anonymize_show, parseIPv4_show by done. f_equal.
  unfold octet_value, is_octet in *.
  replace (a * 2 ^ 24 + b * 2 ^ 16 + c * 2 ^ 8 + d)
    with ((a * 2 ^ 16 + b * 2 ^ 8 + c) * 2 ^ 8 + d) by lia.
  rewrite Z.div_add_l, Z.div_small by lia. lia.
Qed.

Lemma anonymizeIpPartial_ipv4_witness :
  parseIPv4 (anonymizeIpPartial "203.0.113.77") = Some (3405803853 / 2 ^ 8 * 2 ^ 8).
Proof. apply anonymizeIpPartial_ipv4. vm_compute. reflexivity. Defined.

(** Finding (functional). Partial anonymisation of IPv6 text does not always keep
    the first four hextets or drop the rest: one address has two texts with
    different anonymised addresses (a short [::] gap is widened to eight
    groups), and a full-form text with a dotted tail is returned unchanged. *)
Theorem anonymizeIpPartial_ipv6_anomalies :
  (exists s t, parseIPv6 s = parseIPv6 t /\ is_Some (parseIPv6 s) /\
     parseIPv6 (anonymizeIpPartial s) <> parseIPv6 (anonymizeIpPartial t)) /\
  (exists s, is_Some (parseIPv6 s) /\ isIpShape s = true /\ anonymizeIpPartial s = s).
Proof.
  split.
  - exists "2001::db8:2:3:4:5:6", "2001:0:db8:2:3:4:5:6". vm_compute.
    split; [done|]. split; [eauto|]. congruence.
  - exists "2606:4700:1:2:3:4:203.0.113.77". vm_compute. eauto.
Qed.
