(* ===== verification/PrivateIp.v ===== *)
(** The SSRF address classifier of vestibulum:
    [packages/vestibulum/src/discovery/private-ip.ts], on top of foundation's
    [isIpShape] and [isReservedIp]. *)

From S2P Require Import Prelude JsString Regex JsInt Cidr Rfc6890 NetDerive.
From Stdlib Require Import Ascii.

#[local] Open Scope string_scope.
#[local] Open Scope Z_scope.

Definition isPrivateIPv4 (ip : string) : bool :=
  if negb (isIpShape ip) then true
  else if includes ip ":" then true
  else if isReservedIp ip then true
  else
    let octets := split "." ip in
    String.eqb (nth_part octets 0) "192" && String.eqb (nth_part octets 1) "0".

(** [work.split("::")]. *)
Fixpoint split_pair (c : ascii) (s : string) : list string :=
  match s with
  | String.String a (String.String b r as t) =>
      if Ascii.eqb a c && Ascii.eqb b c then "" :: split_pair c r
      else match split_pair c t with
           | h :: l => String.String a h :: l
           | [] => [String.String a ""]
           end
  | _ => [s]
  end.

#[local] Open Scope re_scope.
(** [([0-9]{1,3}\.[0-9]{1,3}\.[0-9]{1,3}\.[0-9]{1,3})$] and [^[0-9a-f]{0,4}$] *)
Definition D13 : re := rep_between 1 3 (rng "0" "9").
Definition V4_TAIL_RE : re :=
  D13 ⋅ lit "." ⋅ D13 ⋅ lit "." ⋅ D13 ⋅ lit "." ⋅ D13.
Definition lower_hex (c : ascii) : bool := in_range "0" "9" c || in_range "a" "f" c.
Definition SEGMENT_RE : re := rep_between 0 4 (RCls lower_hex).
#[local] Close Scope re_scope.

(** [work.replace(/:$/, "")] *)
Definition strip_final_colon (s : string) : string :=
  if endsWith s ":" then str_take (String.length s - 1) s else s.

(** The two 16-bit groups of a dotted tail. The regex only lets digit strings
    through, so [Number] is never NaN here. *)
Definition tail_groups (matched : string) : option (list Z) :=
  let o := (fun s => default 0 (asInteger (Number s))) <$> split "." matched in
  if existsb (fun x => (x <? 0) || (255 <? x)) o then None
  else let at_ i := default 0 (o !! i) in
       Some [js_or (js_shl (at_ 0%nat) 8) (at_ 1%nat); js_or (js_shl (at_ 2%nat) 8) (at_ 3%nat)].

Fixpoint parse_segments (l : list string) : option (list Z) :=
  match l with
  | [] => Some []
  | s :: r =>
      if negb (re_match SEGMENT_RE s) then None
      else rest ← parse_segments r;
           Some (radix_acc 16 0 (if String.eqb s "" then "0" else s) :: rest)
  end.

Definition expandIPv6 (ip : string) : option (list Z) :=
  tail_work ←
    match re_suffix V4_TAIL_RE ip with
    | None => Some (None, ip)
    | Some matched =>
        t ← tail_groups matched;
        Some (Some t, strip_final_colon (str_take (String.length ip - String.length matched) ip))
    end;
  let '(v4Tail, work) := tail_work in
  let parts := split_pair ":" work in
  if (2 <? length parts)%nat then None
  else
    let groups p := if String.eqb p "" then [] else split ":" p in
    let head := groups (nth_part parts 0) in
    let compressed := (length parts =? 2)%nat in
    let tail := if compressed then groups (nth_part parts 1) else [] in
    let v4n := match v4Tail with Some _ => 2 | None => 0 end in
    let missing := 8 - (Z.of_nat (length head) + Z.of_nat (length tail) + v4n) in
    if (if compressed then missing <? 0 else negb (missing =? 0)) then None
    else
      let fill := if compressed then replicate (Z.to_nat missing) "0" else [] in
      out ← parse_segments (head ++ fill ++ tail);
      let out := (out ++ default [] v4Tail)%list in
      if (length out =? 8)%nat then Some out else None.

Definition seg (segs : list Z) (i : nat) : Z := default 0 (segs !! i).

Definition isPrivateIPv6 (ip : string) : bool :=
  if String.eqb ip "" || negb (includes ip ":") then true
  else if negb (isIpShape ip) then true
  else
    let stripped := toLowerCase (nth_part (split "%" ip) 0) in
    match expandIPv6 stripped with
    | None => true
    | Some segs =>
        if forallb (fun i => seg segs i =? 0) [0; 1; 2; 3; 4]%nat && (seg segs 5 =? 65535) then
          isPrivateIPv4 (show_ipv4 (js_and (js_shr (seg segs 6) 8) 255) (js_and (seg segs 6) 255)
                                   (js_and (js_shr (seg segs 7) 8) 255) (js_and (seg segs 7) 255))
        else isReservedIp stripped
    end.

Definition isPrivateAddress (address : string) : bool :=
  if includes address ":" then isPrivateIPv6 address else isPrivateIPv4 address.

Example private_examples :
  isPrivateAddress "8.8.8.8" = false /\ isPrivateAddress "192.0.7.1" = true /\
  isPrivateAddress "::ffff:8.8.8.8" = false /\ isPrivateAddress "::FFFF:10.0.0.1" = true /\
  isPrivateAddress "::ffff:a00:1" = true /\ isPrivateAddress "2606:4700::1111" = false /\
  isPrivateAddress "fe80::1%eth0" = true /\ isPrivateAddress "not-an-ip" = true /\
  isPrivateAddress ":::" = true.
Proof. vm_compute. repeat split. Qed.

(** ** Lemmas *)

Lemma isIpShape_no_colon s :
  includes s ":" = false -> isIpShape s = true -> re_match IPV4_RE s = true.
Proof.
  unfold isIpShape. intros -> H. destruct (_ || _); [done|].
  by destruct (re_match IPV4_RE s).
Qed.

Lemma show_ipv4_no_colon a b c d :
  is_octet a -> is_octet b -> is_octet c -> is_octet d ->
  includes (show_ipv4 a b c d) ":" = false.
Proof.
  intros. rewrite includes_char. apply show_ipv4_no_char; [|done..].
  intros n Hn. by apply show_octet_props.
Qed.

Lemma show_ipv4_length a b c d :
  is_octet a -> is_octet b -> is_octet c -> is_octet d ->
  (String.length (show_ipv4 a b c d) <= 15)%nat.
Proof.
  intros Ha Hb Hc Hd. unfold show_ipv4. rewrite !str_length_app. simpl.
  destruct (show_octet_props a Ha) as (_&_&_&_&_&?), (show_octet_props b Hb) as (_&_&_&_&_&?),
    (show_octet_props c Hc) as (_&_&_&_&_&?), (show_octet_props d Hd) as (_&_&_&_&_&?). lia.
Qed.

Lemma isIpShape_show a b c d :
  is_octet a -> is_octet b -> is_octet c -> is_octet d ->
  isIpShape (show_ipv4 a b c d) = true.
Proof.
  intros. unfold isIpShape. rewrite show_ipv4_nonempty, IPV4_RE_show by done.
  assert (String.length (show_ipv4 a b c d) <= 15)%nat by (by apply show_ipv4_length).
  destruct (64 <? _)%nat eqn:E; bool_hyps; [lia|done].
Qed.

Lemma show_octet_inj a b : is_octet a -> is_octet b -> show_octet a = show_octet b -> a = b.
Proof.
  intros Ha Hb H. destruct (show_octet_props a Ha) as (_&<-&_), (show_octet_props b Hb) as (_&<-&_).
  by rewrite H.
Qed.

Lemma isPrivateIPv4_show a b c d :
  is_octet a -> is_octet b -> is_octet c -> is_octet d ->
  isPrivateIPv4 (show_ipv4 a b c d)
  = in_ranges (octet_value a b c d) IPV4_RESERVED_RANGES || ((a =? 192) && (b =? 0)).
Proof.
  intros Ha Hb Hc Hd. unfold isPrivateIPv4.
  rewrite isIpShape_show, show_ipv4_no_colon by done. cbn [negb].
  rewrite (isReservedIp_ipv4 _ (octet_value a b c d)) by (by apply parseIPv4_show).
  destruct (in_ranges _ _); [done|]. cbn [orb].
  assert (split "." (show_ipv4 a b c d)
    = [show_octet a; show_octet b; show_octet c; show_octet d]) as ->.
  { apply split_four. unfold show_ipv4. repeat split; by apply show_octet_props. }
  unfold nth_part. cbn [lookup list_lookup default].
  change "192" with (show_octet 192). change "0" with (show_octet 0).
  apply bool_eq_iff. rewrite !andb_true_iff, !String.eqb_eq, !Z.eqb_eq. split.
  - intros [H1 H2]. apply show_octet_inj in H1; [|done|unfold is_octet; lia].
    by apply show_octet_inj in H2; [|done|unfold is_octet; lia].
  - by intros [-> ->].
Qed.

(** ** IPv4-mapped addresses *)

(** The characters of a dotted quad. *)
Definition quad_char (c : ascii) : bool := is_digit c || Ascii.eqb c ".".

Lemma show_ipv4_chars a b c d :
  is_octet a -> is_octet b -> is_octet c -> is_octet d ->
  str_all quad_char (show_ipv4 a b c d) = true.
Proof.
  assert (H : forall n, is_octet n -> str_all quad_char (show_octet n) = true).
  { intros n Hn. apply (forall_below_spec 256 (fun n => str_all quad_char (show_octet n)));
      [vm_compute; done|unfold is_octet in Hn; lia]. }
  intros. unfold show_ipv4. by rewrite !str_all_app, !H.
Qed.

Lemma quad_char_impl (q : ascii -> bool) :
  all_chars (fun c => negb (quad_char c) || q c) = true ->
  forall c, quad_char c = true -> q c = true.
Proof.
  intros H c Hc. pose proof (all_chars_spec _ c H) as Hq. cbv beta in Hq. by rewrite Hc in Hq.
Qed.

Lemma re_match_empty s : re_match REmpty s = false.
Proof.
  destruct (re_match REmpty s) eqn:E; [|done]. apply re_match_spec in E. inversion E.
Qed.

Lemma v4_tail_show a b c d :
  is_octet a -> is_octet b -> is_octet c -> is_octet d ->
  re_match V4_TAIL_RE (show_ipv4 a b c d) = true.
Proof.
  assert (H : forall n, is_octet n -> re_lang D13 (show_octet n)).
  { intros n Hn. apply re_match_spec.
    apply (forall_below_spec 256 (fun n => re_match D13 (show_octet n)));
      [vm_compute; done|unfold is_octet in Hn; lia]. }
  intros. apply re_match_spec. unfold V4_TAIL_RE, show_ipv4.
  rewrite <- !str_app_assoc.
  repeat first [apply L_cat | by apply lang_lit | by apply H].
Qed.

Lemma re_suffix_skip r c s :
  deriv c r = REmpty -> re_suffix r (String.String c s) = re_suffix r s.
Proof. intros H. cbn [re_suffix re_match]. by rewrite H, re_match_empty. Qed.

Lemma re_suffix_here r s : re_match r s = true -> re_suffix r s = Some s.
Proof. intros H. destruct s; cbn [re_suffix]; by rewrite H. Qed.

Lemma js_shl_or_octets a b :
  is_octet a -> is_octet b -> js_or (js_shl a 8) b = a * 2 ^ 8 + b.
Proof.
  unfold is_octet. intros Ha Hb. pose proof (shift_in_octet a b ltac:(done)) as H.
  rewrite (to_uint32_small a), Z.mod_small in H by lia.
  assert (to_int32 (a * 2 ^ 8 + b) = a * 2 ^ 8 + b) as <- by (apply to_int32_small; lia).
  unfold js_or at 1. apply to_int32_eq. fold (js_or (js_shl a 8) b).
  rewrite <- to_uint32_int32. fold (js_or (js_shl a 8) b).
  rewrite H. symmetry. apply to_uint32_small. lia.
Qed.

Lemma tail_groups_show a b c d :
  is_octet a -> is_octet b -> is_octet c -> is_octet d ->
  tail_groups (show_ipv4 a b c d) = Some [a * 2 ^ 8 + b; c * 2 ^ 8 + d].
Proof.
  intros Ha Hb Hc Hd. unfold tail_groups.
  assert (split "." (show_ipv4 a b c d)
    = [show_octet a; show_octet b; show_octet c; show_octet d]) as ->.
  { apply split_four. unfold show_ipv4. repeat split; by apply show_octet_props. }
  cbn [fmap list_fmap map]. rewrite !Number_show_octet by done. cbn [default].
  rewrite <- !js_shl_or_octets by done. unfold is_octet in *. simpl.
  repeat match goal with |- context [?x <? ?y] => destruct (Z.ltb_spec x y); [lia|] end.
  done.
Qed.

Lemma expandIPv6_mapped a b c d :
  is_octet a -> is_octet b -> is_octet c -> is_octet d ->
  expandIPv6 ("::ffff:" +:+ show_ipv4 a b c d)
  = Some [0; 0; 0; 0; 0; 65535; a * 2 ^ 8 + b; c * 2 ^ 8 + d].
Proof.
  intros Ha Hb Hc Hd. unfold expandIPv6.
  assert (re_suffix V4_TAIL_RE ("::ffff:" +:+ show_ipv4 a b c d) = Some (show_ipv4 a b c d)) as ->.
  { cbn [String.append]. rewrite !re_suffix_skip by reflexivity.
    apply re_suffix_here. by apply v4_tail_show. }
  rewrite tail_groups_show by done. cbn [mbind option_bind].
  rewrite str_length_app, Nat.add_sub, str_take_app.
  generalize (a * 2 ^ 8 + b) (c * 2 ^ 8 + d). intros x y. vm_compute. reflexivity.
Qed.

Lemma js_and_255_mod x : 0 <= x < 2 ^ 31 -> js_and x 255 = x mod 2 ^ 8.
Proof.
  intros Hx. unfold js_and. change (to_int32 255) with (Z.ones 8).
  rewrite Z.land_ones, (to_int32_small x) by lia.
  pose proof (Z.mod_pos_bound x (2 ^ 8) ltac:(lia)). apply to_int32_small. lia.
Qed.

Lemma group_octets a b :
  is_octet a -> is_octet b ->
  js_and (js_shr (a * 2 ^ 8 + b) 8) 255 = a /\ js_and (a * 2 ^ 8 + b) 255 = b.
Proof.
  unfold is_octet. intros Ha Hb. unfold js_shr.
  rewrite to_int32_small by lia.
  change (8 mod 32) with 8. rewrite Z.shiftr_div_pow2 by lia.
  rewrite Z.div_add_l by lia. rewrite (Z.div_small b), Z.add_0_r by lia.
  rewrite (js_and_255_mod a), (js_and_255_mod (a * 2 ^ 8 + b)) by lia.
  split; [apply Z.mod_small; lia|].
  rewrite Z.add_comm, Z_mod_plus_full. apply Z.mod_small. lia.
Qed.

Lemma indexOf_char_none c s : char_in c s = false -> indexOf s (String.String c "") = None.
Proof. rewrite <- includes_char. unfold includes. by destruct (indexOf _ _). Qed.

Lemma mapped_shape a b c d :
  is_octet a -> is_octet b -> is_octet c -> is_octet d ->
  isIpShape ("::ffff:" +:+ show_ipv4 a b c d) = true /\
  split "%" ("::ffff:" +:+ show_ipv4 a b c d) = ["::ffff:" +:+ show_ipv4 a b c d] /\
  toLowerCase ("::ffff:" +:+ show_ipv4 a b c d) = "::ffff:" +:+ show_ipv4 a b c d.
Proof.
  intros Ha Hb Hc Hd. pose proof (show_ipv4_chars a b c d Ha Hb Hc Hd) as Hch.
  assert (char_in "%" ("::ffff:" +:+ show_ipv4 a b c d) = false) as Hz.
  { unfold char_in. eapply str_all_not_exists; [|].
    2: { rewrite str_all_app. apply andb_true_iff. split; [|].
         2: { eapply str_all_impl; [|exact Hch].
              apply (quad_char_impl (fun c => negb (Ascii.eqb "%" c))). vm_compute. done. }
         vm_compute. done. }
    intros ch H. by apply negb_true_iff. }
  split; [|split].
  - unfold isIpShape. destruct (re_match IPV4_RE _).
    { destruct (_ || _) eqn:E; [|done]. exfalso. apply orb_true_iff in E as [E|E]; [done|].
      apply Nat.ltb_lt in E. rewrite str_length_app in E.
      pose proof (show_ipv4_length a b c d Ha Hb Hc Hd). simpl in E. lia. }
    destruct (_ || _) eqn:E.
    { exfalso. apply orb_true_iff in E as [E|E]; [done|].
      apply Nat.ltb_lt in E. rewrite str_length_app in E.
      pose proof (show_ipv4_length a b c d Ha Hb Hc Hd). simpl in E. lia. }
    rewrite (indexOf_char_none _ _ Hz).
    assert (includes ("::ffff:" +:+ show_ipv4 a b c d) ":" = true) as ->
      by (by rewrite includes_char). cbn [negb].
    unfold IPV6_BODY_RE. rewrite match_plus_cls. apply andb_true_iff. split; [done|].
    rewrite str_all_app. apply andb_true_iff. split; [vm_compute; done|].
    eapply str_all_impl; [|exact Hch]. apply quad_char_impl. vm_compute. done.
  - by apply split_none.
  - apply (str_map_id _ (fun c => Ascii.eqb (lower_char c) c)); [intros ch; apply Ascii.eqb_eq|]. rewrite str_all_app. apply andb_true_iff. split; [vm_compute; done|].
    eapply str_all_impl; [|exact Hch].
    apply (quad_char_impl (fun c => Ascii.eqb (lower_char c) c)). vm_compute. done.
Qed.

(** ** Properties *)

(** Also (safety). The IPv4 classifier fails closed: an input is public exactly
    when it is a canonical dotted quad outside every reserved range and
    outside 192.0.0.0/16; anything else, malformed text included, is private. *)
Theorem isPrivateIPv4_fail_closed s :
  isPrivateIPv4 s = false <->
  exists a b c d, (is_octet a /\ is_octet b /\ is_octet c /\ is_octet d) /\
    s = show_ipv4 a b c d /\
    in_ranges (octet_value a b c d) IPV4_RESERVED_RANGES = false /\ ~ (a = 192 /\ b = 0).
Proof.
  split.
  - intros H. destruct (isIpShape s) eqn:Hs; [|unfold isPrivateIPv4 in H; by rewrite Hs in H].
    destruct (includes s ":") eqn:Hc; [unfold isPrivateIPv4 in H; by rewrite Hs, Hc in H|].
    pose proof (isIpShape_no_colon s Hc Hs) as (a & b & c & d & (?&?&?&?) & ->)%ipv4_re_spec.
    rewrite isPrivateIPv4_show in H by done. exists a, b, c, d.
    apply orb_false_iff in H as [-> H]. split; [done|]. split; [done|]. split; [done|].
    intros [-> ->]. done.
  - intros (a & b & c & d & (?&?&?&?) & -> & Hr & Hn). rewrite isPrivateIPv4_show, Hr by done.
    simpl. destruct (Z.eqb_spec a 192), (Z.eqb_spec b 0); simpl; tauto.
Qed.

(** Also (equivalence). An IPv4-mapped IPv6 address is classified as the IPv4
    address it embeds: the tail is expanded into two 16-bit groups, taken
    apart again and handed to the IPv4 classifier unchanged. *)
Theorem isPrivateAddress_ipv4_mapped a b c d :
  is_octet a -> is_octet b -> is_octet c -> is_octet d ->
  isPrivateAddress ("::ffff:" +:+ show_ipv4 a b c d) = isPrivateIPv4 (show_ipv4 a b c d).
Proof.
  intros Ha Hb Hc Hd. unfold isPrivateAddress, isPrivateIPv6.
  destruct (mapped_shape a b c d Ha Hb Hc Hd) as (-> & Hsp & Hlow).
  rewrite Hsp. assert (forall x, nth_part [x] 0 = x) as -> by done.
  rewrite Hlow, expandIPv6_mapped by done.
  assert (includes ("::ffff:" +:+ show_ipv4 a b c d) ":" = true) as ->
    by (by rewrite includes_char).
  assert (String.eqb ("::ffff:" +:+ show_ipv4 a b c d) "" = false) as -> by done.
  cbn [negb orb]. unfold seg. cbn [forallb lookup list_lookup from_option id Z.eqb Pos.eqb andb].
  destruct (group_octets a b Ha Hb) as [-> ->], (group_octets c d Hc Hd) as [-> ->]. done.
Qed.

Lemma isPrivateAddress_ipv4_mapped_witness :
  isPrivateAddress ("::ffff:" +:+ show_ipv4 169 254 169 254)
  = isPrivateIPv4 (show_ipv4 169 254 169 254).
Proof. apply isPrivateAddress_ipv4_mapped; unfold is_octet; lia. Defined.

(** Finding (error). The IPv6 classifier does not fail closed on all malformed
    text: some strings that no parser of the program accepts as an address
    (here, eight groups the last of which is empty) are classified public. *)
Theorem isPrivateIPv6_fails_open :
  exists s, includes s ":" = true /\ parseIPv6 s = None /\ isPrivateAddress s = false.
Proof. exists "fe80:1:2:3:4:5:6:". vm_compute. repeat split. Qed.
