(* ===== verification/Float64.v ===== *)
(** JavaScript's numbers, as far as arithmetic rounds them: a double is the
    rational it denotes, and [rnd] rounds a rational to the nearest double, ties
    to even, subnormals included. Overflow to infinity and NaN are not
    modelled: the exponent has no upper bound. *)

From S2P Require Import Prelude.
From Stdlib Require Import QArith Qround Qabs Qpower Lqa.

#[local] Open Scope Q_scope.

(** ** Rounding *)

(** The exponent of a positive rational: [2 ^ ilog x <= x < 2 ^ (ilog x + 1)]. *)
Definition ilog (x : Q) : Z :=
  let k := (Z.log2 (Qnum x) - Z.log2 (Zpos (Qden x)))%Z in
  if Qle_bool (2 ^ k) x then k else (k - 1)%Z.

(** The unit in the last place, [2 ^ ulp_exponent x], of a 53-bit significand;
    none is below that of the subnormals. *)
Definition ulp_exponent (x : Q) : Z := Z.max (ilog (Qabs x) - 52) (-1074).

(** The nearest integer, ties to even. *)
Definition nearest_even (x : Q) : Z :=
  let f := Qfloor x in
  let d := x - inject_Z f in
  if negb (Qle_bool (1 # 2) d) then f
  else if negb (Qle_bool d (1 # 2)) then (f + 1)%Z
  else if Z.even f then f else (f + 1)%Z.

Definition rnd (x : Q) : Q :=
  if Qeq_bool x 0 then 0
  else let e := ulp_exponent x in Qred (inject_Z (nearest_even (x / 2 ^ e)) * 2 ^ e).

(** The arithmetic of doubles. *)
Definition fadd (x y : Q) : Q := rnd (x + y).
Definition fsub (x y : Q) : Q := rnd (x - y).
Definition fmul (x y : Q) : Q := rnd (x * y).
Definition fdiv (x y : Q) : Q := rnd (x / y).

(** Half a unit, relative to the number and for the subnormals. *)
Definition ROUNDOFF : Q := 1 # 9007199254740992.
Definition UNDERFLOW : Q := 2 ^ (-1075).

Example rounding_runs :
  rnd (1 # 10) = 3602879701896397 # 36028797018963968 /\
  fadd (rnd (1 # 10)) (rnd (2 # 10)) = 1351079888211149 # 4503599627370496 /\
  rnd (3 # 10) = 5404319552844595 # 18014398509481984 /\
  fdiv (fmul 10000 (rnd (3 # 10))) 1000 = 3 /\
  rnd (9007199254740993 # 1) = 9007199254740992 # 1 /\ rnd (9007199254740995 # 1) = 9007199254740996 # 1 /\
  rnd (2 ^ (-1075)) = 0 /\ Qeq (rnd (3 * 2 ^ (-1075))) (2 ^ (-1073)).
Proof. vm_compute. repeat split. Qed.

(** ** Lemmas *)

Lemma pow2_pos k : 0 < 2 ^ k.
Proof. by apply Qpower_0_lt. Qed.

Lemma pow2_plus a b : 2 ^ (a + b) == 2 ^ a * 2 ^ b.
Proof. by apply Qpower_plus. Qed.

Lemma pow2_inject k : (0 <= k)%Z -> 2 ^ k == inject_Z (2 ^ k).
Proof.
  intros Hk. rewrite <- (Z2Nat.id k) by done. induction (Z.to_nat k) as [|n IH]; [done|].
  rewrite Nat2Z.inj_succ, <- Z.add_1_r, pow2_plus, IH, Z.pow_add_r, inject_Z_mult by lia. reflexivity.
Qed.

Lemma ilog_spec x : 0 < x -> 2 ^ ilog x <= x < 2 ^ (ilog x + 1).
Proof.
  intros Hx. destruct x as [n d]. unfold Qlt in Hx. cbn in Hx. rewrite Z.mul_1_r in Hx.
  unfold ilog. cbn [Qnum Qden]. set (a := Z.log2 n). set (b := Z.log2 (Z.pos d)).
  destruct (Z.log2_spec n Hx) as [Ha1 Ha2]. destruct (Z.log2_spec (Z.pos d) ltac:(lia)) as [Hb1 Hb2]. fold a in Ha1, Ha2. fold b in Hb1, Hb2.
  assert (0 <= a)%Z as Ha by apply Z.log2_nonneg. assert (0 <= b)%Z as Hb by apply Z.log2_nonneg.
  assert (forall k, 2 ^ (k - b) == 2 ^ k / 2 ^ b) as Hdiv.
  { intros k. unfold Z.sub. rewrite pow2_plus, Qpower_opp. reflexivity. }
  assert (n # d == inject_Z n / inject_Z (Z.pos d)) as Hq by apply Qmake_Qdiv.
  assert (0 < inject_Z (Z.pos d)) as Hd by (change 0 with (inject_Z 0); rewrite <- Zlt_Qlt; lia).
  assert (n # d < 2 ^ (a - b + 1)) as Hup.
  { rewrite Hq. replace (a - b + 1)%Z with (Z.succ a - b)%Z by lia. rewrite Hdiv. pose proof (pow2_pos b).
    apply Qlt_shift_div_r; [done|].
    assert (inject_Z n < 2 ^ Z.succ a) as H1 by (rewrite pow2_inject by lia; rewrite <- Zlt_Qlt; lia).
    assert (2 ^ b <= inject_Z (Z.pos d)) as H2 by (rewrite pow2_inject by lia; rewrite <- Zle_Qle; lia).
    assert (1 <= inject_Z (Z.pos d) / 2 ^ b) as H3 by (apply Qle_shift_div_l; [done|lra]).
    pose proof (pow2_pos (Z.succ a)).
    assert (2 ^ Z.succ a / 2 ^ b * inject_Z (Z.pos d) == 2 ^ Z.succ a * (inject_Z (Z.pos d) / 2 ^ b)) as -> by (field; lra).
    nra. }
  assert (2 ^ (a - b - 1) <= n # d) as Hlow.
  { rewrite Hq. replace (a - b - 1)%Z with (a - Z.succ b)%Z by lia.
    assert (2 ^ (a - Z.succ b) == 2 ^ a / 2 ^ Z.succ b) as -> by (unfold Z.sub; rewrite pow2_plus, Qpower_opp; reflexivity).
    pose proof (pow2_pos (Z.succ b)). apply Qle_shift_div_l; [done|].
    assert (2 ^ a <= inject_Z n) as H1 by (rewrite pow2_inject by lia; rewrite <- Zle_Qle; lia).
    assert (inject_Z (Z.pos d) <= 2 ^ Z.succ b) as H2 by (rewrite pow2_inject by lia; rewrite <- Zle_Qle; lia).
    assert (inject_Z (Z.pos d) / 2 ^ Z.succ b <= 1) as H3 by (apply Qle_shift_div_r; [done|lra]).
    pose proof (pow2_pos a).
    assert (2 ^ a / 2 ^ Z.succ b * inject_Z (Z.pos d) == 2 ^ a * (inject_Z (Z.pos d) / 2 ^ Z.succ b)) as -> by (field; lra).
    assert (0 <= inject_Z (Z.pos d) / 2 ^ Z.succ b) by (apply Qle_shift_div_l; lra). nra. }
  destruct (Qle_bool (2 ^ (a - b)) (n # d)) eqn:E.
  - apply Qle_bool_iff in E. done.
  - split; [done|]. replace (a - b - 1 + 1)%Z with (a - b)%Z by lia.
    apply Qnot_le_lt. intros H%Qle_bool_iff. congruence.
Qed.

Lemma nearest_even_error x : Qabs (inject_Z (nearest_even x) - x) <= 1 # 2.
Proof.
  pose proof (Qfloor_le x) as H1. pose proof (Qlt_floor x) as H2. rewrite inject_Z_plus in H2. change (inject_Z 1) with 1 in H2.
  unfold nearest_even. set (f := Qfloor x) in *.
  assert (forall a b, Qle_bool a b = false -> b < a) as Hf.
  { intros a b H. apply Qnot_le_lt. intros Hle%Qle_bool_iff. congruence. }
  apply Qabs_Qle_condition.
  destruct (Qle_bool (1 # 2) (x - inject_Z f)) eqn:E1; cbn [negb]; [apply Qle_bool_iff in E1|apply Hf in E1; lra].
  destruct (Qle_bool (x - inject_Z f) (1 # 2)) eqn:E2; cbn [negb]; [apply Qle_bool_iff in E2|apply Hf in E2].
  - destruct (Z.even f); [lra|]. rewrite inject_Z_plus. change (inject_Z 1) with 1. lra.
  - rewrite inject_Z_plus. change (inject_Z 1) with 1. lra.
Qed.

Lemma nearest_even_nonneg x : 0 <= x -> (0 <= nearest_even x)%Z.
Proof.
  intros Hx. assert (0 <= Qfloor x)%Z by (change 0%Z with (Qfloor 0); by apply Qfloor_resp_le).
  unfold nearest_even. repeat case_match; lia.
Qed.

Lemma ulp_size x : ~ x == 0 -> 2 ^ ulp_exponent x <= 2 * ROUNDOFF * Qabs x + 2 * UNDERFLOW.
Proof.
  intros Hx. assert (0 < Qabs x) as Ha.
  { destruct (Qlt_le_dec 0 (Qabs x)); [done|]. pose proof (Qabs_nonneg x). destruct Hx.
    apply Qabs_Qle_condition in q. lra. }
  unfold ulp_exponent. destruct (Z.max_spec (ilog (Qabs x) - 52) (-1074)) as [[_ ->]|[_ ->]].
  - assert (2 * UNDERFLOW == 2 ^ (-1074)) as -> by reflexivity. unfold ROUNDOFF. lra.
  - assert (2 ^ (ilog (Qabs x) - 52) == 2 ^ ilog (Qabs x) * 2 ^ (-52)) as -> by apply pow2_plus.
    assert (2 ^ (-52) == 2 * ROUNDOFF) as -> by reflexivity.
    destruct (ilog_spec _ Ha) as [H1 _]. assert (0 <= UNDERFLOW) by (apply Qlt_le_weak, pow2_pos). unfold ROUNDOFF in *. lra.
Qed.

(** The rounding error: half a unit in the last place. *)
Lemma rnd_error x : Qabs (rnd x - x) <= ROUNDOFF * Qabs x + UNDERFLOW.
Proof.
  assert (0 <= UNDERFLOW) as Hu by (apply Qlt_le_weak, pow2_pos). unfold rnd. destruct (Qeq_bool x 0) eqn:E.
  - apply Qeq_bool_iff in E. assert (0 - x == 0) as -> by lra. pose proof (Qabs_nonneg x).
    change (Qabs 0) with 0. unfold ROUNDOFF. lra.
  - assert (~ x == 0) as Hx by (intros H%Qeq_bool_iff; congruence). rewrite Qred_correct.
    pose proof (ulp_size x Hx) as Hs. set (p := 2 ^ ulp_exponent x) in *. assert (0 < p) as Hp by apply pow2_pos.
    assert (inject_Z (nearest_even (x / p)) * p - x == (inject_Z (nearest_even (x / p)) - x / p) * p) as -> by (field; lra).
    rewrite Qabs_Qmult, (Qabs_pos p) by lra. pose proof (nearest_even_error (x / p)) as He.
    set (err := Qabs (inject_Z (nearest_even (x / p)) - x / p)) in *. set (ax := Qabs x) in *.
    assert (err * p <= (1 # 2) * p) by (apply Qmult_le_compat_r; lra). lra.
Qed.

Lemma rnd_nonneg x : 0 <= x -> 0 <= rnd x.
Proof.
  intros Hx. unfold rnd. destruct (Qeq_bool x 0); [lra|]. rewrite Qred_correct.
  pose proof (pow2_pos (ulp_exponent x)) as Hp. apply Qmult_le_0_compat; [|lra].
  change 0 with (inject_Z 0). rewrite <- Zle_Qle. apply nearest_even_nonneg. apply Qle_shift_div_l; [done|lra].
Qed.

Lemma rnd_upper x : 0 <= x -> rnd x <= x * (1 + ROUNDOFF) + UNDERFLOW.
Proof.
  intros Hx. pose proof (rnd_error x) as H. apply Qabs_Qle_condition in H as [_ H]. rewrite (Qabs_pos x) in H by done. lra.
Qed.

Lemma rnd_lower x : 0 <= x -> x * (1 - ROUNDOFF) - UNDERFLOW <= rnd x.
Proof.
  intros Hx. pose proof (rnd_error x) as H. apply Qabs_Qle_condition in H as [H _]. rewrite (Qabs_pos x) in H by done. lra.
Qed.

(** ** Order *)

Lemma pow2_le a b : (a <= b)%Z -> 2 ^ a <= 2 ^ b.
Proof. intros H. apply Qpower_le_compat_l; [done|lra]. Qed.

Lemma pow2_lt_inv a b : 2 ^ a < 2 ^ b -> (a < b)%Z.
Proof.
  intros H. destruct (Z.lt_ge_cases a b) as [|Hle]; [done|]. apply pow2_le in Hle. lra.
Qed.

Lemma ilog_mono x y : 0 < x -> x <= y -> (ilog x <= ilog y)%Z.
Proof.
  intros Hx Hxy. destruct (ilog_spec x Hx) as [H1 _]. destruct (ilog_spec y ltac:(lra)) as [_ H2].
  enough (ilog x < ilog y + 1)%Z by lia. apply pow2_lt_inv. lra.
Qed.

Lemma nearest_even_mono x y : x <= y -> (nearest_even x <= nearest_even y)%Z.
Proof.
  intros Hxy. pose proof (Qfloor_resp_le _ _ Hxy) as Hf. pose proof (Qfloor_le x). pose proof (Qfloor_le y).
  assert (forall a b, Qle_bool a b = false -> b < a) as Hb.
  { intros a b H'. apply Qnot_le_lt. intros Hle%Qle_bool_iff. congruence. }
  unfold nearest_even. destruct (Z.eq_dec (Qfloor x) (Qfloor y)) as [E|]; [rewrite E in *|repeat case_match; lia].
  destruct (Qle_bool (1 # 2) (x - inject_Z (Qfloor y))) eqn:E1, (Qle_bool (x - inject_Z (Qfloor y)) (1 # 2)) eqn:E2,
    (Qle_bool (1 # 2) (y - inject_Z (Qfloor y))) eqn:E3, (Qle_bool (y - inject_Z (Qfloor y)) (1 # 2)) eqn:E4; cbn [negb];
    try (destruct (Z.even _); lia); try lia; exfalso;
    repeat match goal with
    | H : Qle_bool _ _ = true |- _ => apply Qle_bool_iff in H
    | H : Qle_bool _ _ = false |- _ => apply Hb in H
    end; lra.
Qed.

Lemma nearest_even_integer n : nearest_even (inject_Z n) = n.
Proof.
  unfold nearest_even. rewrite Qfloor_Z. destruct (Qle_bool (1 # 2) (inject_Z n - inject_Z n)) eqn:E; [|done].
  apply Qle_bool_iff in E. lra.
Qed.

#[export] Instance nearest_even_proper : Proper (Qeq ==> eq) nearest_even.
Proof. intros x y H. apply Z.le_antisymm; apply nearest_even_mono; lra. Qed.

Lemma rnd_pos_eq x : 0 < x -> rnd x == inject_Z (nearest_even (x / 2 ^ ulp_exponent x)) * 2 ^ ulp_exponent x.
Proof.
  intros Hx. unfold rnd. destruct (Qeq_bool x 0) eqn:E; [apply Qeq_bool_iff in E; lra|]. apply Qred_correct.
Qed.

Lemma div_pow2_le x y k : x <= y -> x / 2 ^ k <= y / 2 ^ k.
Proof. intros H. pose proof (pow2_pos k). apply Qmult_le_compat_r; [done|]. apply Qlt_le_weak, Qinv_lt_0_compat, pow2_pos. Qed.

Lemma ulp_exponent_pos x : 0 < x -> ulp_exponent x = Z.max (ilog x - 52) (-1074).
Proof.
  intros Hx. pose proof (Qabs_pos x ltac:(lra)) as Ha. unfold ulp_exponent.
  assert (ilog (Qabs x) = ilog x) as ->; [|done]. apply Z.le_antisymm; apply ilog_mono; lra.
Qed.

(** Rounding keeps the order. *)
Lemma rnd_mono x y : 0 <= x -> x <= y -> rnd x <= rnd y.
Proof.
  intros Hx Hxy. destruct (Qlt_le_dec 0 x) as [Hpos|Hz].
  2: { assert (Qeq_bool x 0 = true) as E by (apply Qeq_bool_iff; lra). unfold rnd at 1. rewrite E. apply rnd_nonneg. lra. }
  rewrite !rnd_pos_eq by lra. assert (0 < y) as Hy by lra.
  assert (ulp_exponent x <= ulp_exponent y)%Z as He.
  { rewrite !ulp_exponent_pos by lra. pose proof (ilog_mono x y Hpos Hxy). lia. }
  set (ex := ulp_exponent x) in *. set (ey := ulp_exponent y) in *.
  pose proof (pow2_pos ex) as Px. pose proof (pow2_pos ey) as Py.
  destruct (Z.eq_dec ex ey) as [->|Hne].
  { apply Qmult_le_compat_r; [|lra]. rewrite <- Zle_Qle. by apply nearest_even_mono, div_pow2_le. }
  assert (ilog x - 52 <= ex /\ ilog y - 52 = ey)%Z as [Lx Ly].
  { unfold ex, ey in *. rewrite !ulp_exponent_pos in * by lra. lia. }
  assert (nearest_even (x / 2 ^ ex) <= 2 ^ 53)%Z as Bx.
  { rewrite <- (nearest_even_integer (2 ^ 53)). apply nearest_even_mono. apply Qle_shift_div_r; [done|].
    rewrite <- pow2_inject, <- pow2_plus by lia. destruct (ilog_spec x Hpos) as [_ H].
    apply Qlt_le_weak, (Qlt_le_trans _ _ _ H), pow2_le. lia. }
  assert (2 ^ 52 <= nearest_even (y / 2 ^ ey))%Z as By.
  { rewrite <- (nearest_even_integer (2 ^ 52)). apply nearest_even_mono. apply Qle_shift_div_l; [done|].
    rewrite <- pow2_inject, <- pow2_plus by lia. destruct (ilog_spec y Hy) as [H _].
    replace (52 + ey)%Z with (ilog y) by lia. done. }
  assert (inject_Z (nearest_even (x / 2 ^ ex)) * 2 ^ ex <= 2 ^ (53 + ex)) as H1.
  { rewrite pow2_plus, (pow2_inject 53) by lia. apply Qmult_le_compat_r; [by rewrite <- Zle_Qle|lra]. }
  assert (2 ^ (52 + ey) <= inject_Z (nearest_even (y / 2 ^ ey)) * 2 ^ ey) as H2.
  { rewrite pow2_plus, (pow2_inject 52) by lia. apply Qmult_le_compat_r; [by rewrite <- Zle_Qle|lra]. }
  pose proof (pow2_le (53 + ex) (52 + ey) ltac:(lia)). lra.
Qed.

(** A rational that is a double. *)
Definition is_double (x : Q) : Prop := rnd x == x.
