(* ===== verification/TokenBucket.v ===== *)
(** The pure token-bucket algorithm:
    [packages/foundation/src/rate-limit/token-bucket.ts] (with [types.ts] and
    [schemas.ts]).

    Clock readings are integer milliseconds ([Date.now()], below 2^53 with
    whatever is added to them); token counts, rates and costs are doubles, and
    every operation on them rounds ([Float64]). *)

From S2P Require Import Prelude Float64.
From Stdlib Require Import QArith Qround Qminmax Qabs Lqa.

#[local] Open Scope Q_scope.

(** ** Data *)

Record TokenBucketConfig := { capacity : Q; refillRate : Q }.

Record RateLimitResult := {
  allowed : bool;
  remaining : Z;
  resetAt : Z;
  retryAfter : option Z
}.

Record BucketState := { tokens : Q; lastRefillMs : Z }.

Record ConsumeComputeResult := { newState : BucketState; consumed : RateLimitResult }.

(** [TokenBucketConfigSchema]: both numbers positive (and finite). *)
Definition valid_config (c : TokenBucketConfig) : bool :=
  negb (Qle_bool (capacity c) 0) && negb (Qle_bool (refillRate c) 0).

(** ** Operations *)

Definition effective_state (state : option BucketState) (nowMs : Z) (config : TokenBucketConfig) :
    BucketState :=
  match state with
  | Some s => s
  | None => {| tokens := capacity config; lastRefillMs := nowMs |}
  end.

Definition refill (state : option BucketState) (nowMs : Z) (config : TokenBucketConfig) : Q :=
  let s := effective_state state nowMs config in
  let elapsedMs := Z.max 0 (nowMs - lastRefillMs s) in
  Qmin (capacity config) (fadd (tokens s) (fdiv (fmul (inject_Z elapsedMs) (refillRate config)) 1000)).

Definition reset_at (refilled : Q) (nowMs : Z) (config : TokenBucketConfig) : Z :=
  (nowMs + Qceiling (fmul (fdiv (fsub (capacity config) refilled) (refillRate config)) 1000))%Z.

Definition retry_after (refilled cost : Q) (config : TokenBucketConfig) : Z :=
  let retryAfterMs := Qceiling (fmul (fdiv (fsub cost refilled) (refillRate config)) 1000) in
  Z.max 1 (Qceiling (fdiv (inject_Z retryAfterMs) 1000)).

Definition computeConsumeResult (state : option BucketState) (nowMs : Z) (cost : Q)
    (config : TokenBucketConfig) : ConsumeComputeResult :=
  let refilled := refill state nowMs config in
  let resetAt := reset_at refilled nowMs config in
  if Qle_bool cost refilled then
    let left := fsub refilled cost in
    {| newState := {| tokens := left; lastRefillMs := nowMs |};
       consumed := {| allowed := true; remaining := Qfloor left; resetAt := resetAt;
                      retryAfter := None |} |}
  else
    {| newState := {| tokens := refilled; lastRefillMs := nowMs |};
       consumed := {| allowed := false; remaining := 0; resetAt := resetAt;
                      retryAfter := Some (retry_after refilled cost config) |} |}.

Definition computePeekResult (state : option BucketState) (nowMs : Z)
    (config : TokenBucketConfig) : RateLimitResult :=
  let refilled := refill state nowMs config in
  {| allowed := Qle_bool 1 refilled; remaining := Qfloor refilled;
     resetAt := reset_at refilled nowMs config; retryAfter := None |}.

Definition computeBucketTtlSeconds (state : BucketState) (nowMs : Z)
    (config : TokenBucketConfig) : Z :=
  let tokensNeeded := Qmax 0 (fsub (capacity config) (tokens state)) in
  (Qceiling (fdiv tokensNeeded (refillRate config)) + 60)%Z.

Example consume_example :
  let c := {| capacity := 10; refillRate := 2 |} in
  let r := computeConsumeResult (Some {| tokens := 1; lastRefillMs := 0 |}) 1500 6 c in
  allowed (consumed r) = false /\ retryAfter (consumed r) = Some 1%Z /\
  Qeq (tokens (newState r)) 4 /\
  allowed (consumed (computeConsumeResult (Some (newState r)) 2500 6 c)) = true.
Proof. vm_compute. repeat split. Qed.

(** ** Runs: a sequence of consume calls on one bucket *)

Record call := { call_now : Z; call_cost : Q }.

(** Tokens granted and final state after a sequence of calls. *)
Fixpoint run (config : TokenBucketConfig) (state : option BucketState) (calls : list call) :
    Q * option BucketState :=
  match calls with
  | [] => (0, state)
  | c :: rest =>
      let r := computeConsumeResult state (call_now c) (call_cost c) config in
      let '(granted, final) := run config (Some (newState r)) rest in
      ((if allowed (consumed r) then call_cost c else 0) + granted, final)
  end.

(** The clock never goes back from [t] on, and ends by [t_end]. *)
Fixpoint clock_monotone (t : Z) (calls : list call) (t_end : Z) : Prop :=
  match calls with
  | [] => (t <= t_end)%Z
  | c :: rest => (t <= call_now c)%Z /\ clock_monotone (call_now c) rest t_end
  end.

Definition costs_nonneg (calls : list call) : Prop := Forall (fun c => 0 <= call_cost c) calls.

(** ** Invariant *)

Definition bucket_ok (config : TokenBucketConfig) (s : BucketState) : Prop :=
  0 <= tokens s <= capacity config.

(** No bucket yet, or one whose balance is not negative. *)
Definition state_ok (s : option BucketState) : Prop :=
  match s with Some s => 0 <= tokens s | None => True end.

(** ** Lemmas *)

Lemma valid_config_pos c : valid_config c = true -> 0 < capacity c /\ 0 < refillRate c.
Proof.
  unfold valid_config. intros H. bool_hyps. split; apply Qnot_le_lt; intros Hle;
    apply Qle_bool_iff in Hle; congruence.
Qed.

Lemma Qle_bool_false x y : Qle_bool x y = false <-> y < x.
Proof.
  split.
  - intros H. apply Qnot_le_lt. intros Hle%Qle_bool_iff. congruence.
  - intros H. destruct (Qle_bool x y) eqn:E; [|done]. apply Qle_bool_iff in E. lra.
Qed.

Lemma inject_nonneg z : (0 <= z)%Z -> 0 <= inject_Z z.
Proof. intros H. change 0 with (inject_Z 0). by rewrite <- Zle_Qle. Qed.

Lemma roundoff_bounds : 0 < ROUNDOFF < 1 # 1000 /\ 0 < UNDERFLOW < 1 # 1000.
Proof. by vm_compute. Qed.

(** The credit of an interval, as computed. *)
Definition credit (config : TokenBucketConfig) (elapsedMs : Z) : Q :=
  fdiv (fmul (inject_Z elapsedMs) (refillRate config)) 1000.

Lemma credit_nonneg config z : valid_config config = true -> (0 <= z)%Z -> 0 <= credit config z.
Proof.
  intros [_ Hr]%valid_config_pos Hz%inject_nonneg. apply rnd_nonneg. apply Qle_shift_div_l; [lra|].
  assert (0 <= fmul (inject_Z z) (refillRate config)); [|lra]. apply rnd_nonneg. nra.
Qed.

(** What a rate yields, rounded up twice. *)
Definition yield (config : TokenBucketConfig) (elapsedMs : Z) : Q :=
  inject_Z elapsedMs * refillRate config / 1000 * ((1 + ROUNDOFF) * (1 + ROUNDOFF)).

Lemma yield_plus config x y : yield config (x + y) == yield config x + yield config y.
Proof. unfold yield. rewrite inject_Z_plus. field. Qed.

Lemma yield_nonneg config z : valid_config config = true -> (0 <= z)%Z -> 0 <= yield config z.
Proof.
  intros [_ Hr]%valid_config_pos Hz%inject_nonneg. pose proof roundoff_bounds as [[Hu _] _]. unfold yield.
  assert (0 <= inject_Z z * refillRate config / 1000) by (apply Qle_shift_div_l; [lra|nra]). nra.
Qed.

Lemma credit_upper config z : valid_config config = true -> (0 <= z)%Z -> credit config z <= yield config z + 2 * UNDERFLOW.
Proof.
  intros [_ Hr]%valid_config_pos Hz%inject_nonneg. pose proof roundoff_bounds as [[Hu Hu'] [Hv Hv']]. unfold credit, fdiv, fmul, yield.
  set (x := inject_Z z * refillRate config) in *. assert (0 <= x) as Hx by (unfold x; nra).
  pose proof (rnd_upper x Hx) as H1. pose proof (rnd_nonneg x Hx) as H0. set (a := rnd x) in *.
  assert (0 <= a / 1000) as Ha by (apply Qle_shift_div_l; lra). pose proof (rnd_upper _ Ha) as H2.
  set (u := ROUNDOFF) in *. set (v := UNDERFLOW) in *. clearbody u v a.
  assert (a / 1000 == a * (1 # 1000)) as E1 by field. assert (x / 1000 == x * (1 # 1000)) as E2 by field.
  rewrite E1 in H2 at 2. rewrite E2. clearbody x.
  assert (a * (1 # 1000) * (1 + u) <= (x * (1 + u) + v) * (1 # 1000) * (1 + u)) by (apply Qmult_le_compat_r; lra).
  assert (v * u <= v * 1) by (apply Qmult_le_l; lra). lra.
Qed.

Lemma refill_bounds config s now :
  valid_config config = true -> state_ok s ->
  0 <= refill s now config <= capacity config.
Proof.
  intros Hv Hs. pose proof (valid_config_pos config Hv) as [Hc Hr]. unfold refill. split; [|apply Q.le_min_l].
  apply Q.min_glb; [lra|]. apply rnd_nonneg.
  pose proof (credit_nonneg config (Z.max 0 (now - lastRefillMs (effective_state s now config))) Hv ltac:(lia)) as H.
  unfold credit in H. destruct s as [s|]; simpl in *; unfold bucket_ok in *; lra.
Qed.

(** Refilling is bounded by the elapsed time, however often it happens, up to
    the rounding of the sum. *)
Lemma refill_credit config s now : valid_config config = true -> 0 <= tokens s ->
  refill (Some s) now config
  <= tokens s + credit config (Z.max 0 (now - lastRefillMs s)) + (ROUNDOFF * capacity config + UNDERFLOW).
Proof.
  intros Hv Ht. pose proof (valid_config_pos config Hv) as [Hc _]. pose proof roundoff_bounds as [[Hu Hu'] [Hw Hw']].
  unfold refill. cbn [effective_state]. fold (credit config (Z.max 0 (now - lastRefillMs s))).
  pose proof (credit_nonneg config (Z.max 0 (now - lastRefillMs s)) Hv ltac:(lia)) as Hn.
  set (c := credit config _) in *. set (total := tokens s + c) in *. assert (0 <= total) as Htot by (unfold total; lra).
  unfold fadd. pose proof (rnd_upper total Htot) as H.
  destruct (Qlt_le_dec total (capacity config)) as [Hlt|Hle].
  - pose proof (Q.le_min_r (capacity config) (rnd total)).
    assert (total * ROUNDOFF <= capacity config * ROUNDOFF) by (apply Qmult_le_compat_r; lra). unfold total in *. lra.
  - pose proof (Q.le_min_l (capacity config) (rnd total)).
    assert (0 <= ROUNDOFF * capacity config) by (apply Qmult_le_0_compat; lra). unfold total in *. lra.
Qed.

Lemma consume_state config s now cost :
  lastRefillMs (newState (computeConsumeResult s now cost config)) = now /\
  tokens (newState (computeConsumeResult s now cost config)) =
    if allowed (consumed (computeConsumeResult s now cost config)) then fsub (refill s now config) cost
    else refill s now config.
Proof. unfold computeConsumeResult. by destruct (Qle_bool cost (refill s now config)). Qed.

Lemma consume_allowed_iff config s now cost :
  allowed (consumed (computeConsumeResult s now cost config))
  = Qle_bool cost (refill s now config).
Proof. unfold computeConsumeResult. by destruct (Qle_bool cost (refill s now config)). Qed.

Lemma consume_ok config s now cost :
  valid_config config = true -> is_double (capacity config) -> state_ok s -> 0 <= cost ->
  bucket_ok config (newState (computeConsumeResult s now cost config)).
Proof.
  intros Hv Hd Hs Hcost. pose proof (refill_bounds config s now Hv Hs).
  unfold bucket_ok, computeConsumeResult.
  destruct (Qle_bool cost (refill s now config)) eqn:E; simpl; [|done].
  apply Qle_bool_iff in E. unfold fsub. split; [apply rnd_nonneg; lra|].
  unfold is_double in Hd. rewrite <- Hd. apply rnd_mono; lra.
Qed.

Lemma consume_nonneg config s now cost : valid_config config = true -> state_ok s ->
  0 <= tokens (newState (computeConsumeResult s now cost config)).
Proof.
  intros Hv Hs. pose proof (refill_bounds config s now Hv Hs). unfold computeConsumeResult.
  destruct (Qle_bool cost (refill s now config)) eqn:E; simpl; [|lra].
  apply Qle_bool_iff in E. apply rnd_nonneg. lra.
Qed.

(** What a call takes from the balance, up to the rounding of the difference. *)
Lemma consume_spends config s now cost : valid_config config = true -> 0 <= cost ->
  let r := computeConsumeResult s now cost config in
  0 <= refill s now config <= capacity config ->
  (if allowed (consumed r) then cost else 0) + tokens (newState r)
  <= refill s now config + (ROUNDOFF * capacity config + UNDERFLOW).
Proof.
  intros Hv Hcost r Hb. unfold r, computeConsumeResult. pose proof roundoff_bounds as [[Hu Hu'] [Hw Hw']].
  assert (0 <= ROUNDOFF * capacity config) as Hn by (apply Qmult_le_0_compat; lra).
  destruct (Qle_bool cost (refill s now config)) eqn:E; cbn [newState consumed allowed tokens]; [|lra].
  apply Qle_bool_iff in E. unfold fsub. pose proof (rnd_upper (refill s now config - cost) ltac:(lra)) as H.
  assert ((refill s now config - cost) * ROUNDOFF <= capacity config * ROUNDOFF) by (apply Qmult_le_compat_r; lra). lra.
Qed.

Lemma run_budget config calls : forall s t_end,
  valid_config config = true -> 0 <= tokens s -> costs_nonneg calls ->
  clock_monotone (lastRefillMs s) calls t_end ->
  fst (run config (Some s) calls)
  <= tokens s + yield config (t_end - lastRefillMs s)
     + inject_Z (Z.of_nat (length calls)) * (2 * (ROUNDOFF * capacity config) + 4 * UNDERFLOW).
Proof.
  induction calls as [|c rest IH]; intros s t_end Hv Hs Hcosts Hclk; cbn [run clock_monotone length fst] in *.
  - pose proof (yield_nonneg config (t_end - lastRefillMs s) Hv ltac:(lia)). change (inject_Z (Z.of_nat 0)) with 0. lra.
  - inversion_clear Hcosts. destruct Hclk as [Hle Hclk].
    pose proof (refill_bounds config (Some s) (call_now c) Hv Hs) as Hb.
    pose proof (consume_spends config (Some s) (call_now c) (call_cost c) Hv ltac:(done) Hb) as Hspend.
    pose proof (consume_nonneg config (Some s) (call_now c) (call_cost c) Hv Hs) as Hn.
    destruct (consume_state config (Some s) (call_now c) (call_cost c)) as [Hl _].
    set (r := computeConsumeResult (Some s) (call_now c) (call_cost c) config) in *. cbv zeta in Hspend.
    specialize (IH (newState r) t_end Hv Hn ltac:(done) ltac:(by rewrite Hl)).
    destruct (run config (Some (newState r)) rest) as [g fin]. cbn [fst] in *.
    pose proof (refill_credit config s (call_now c) Hv Hs) as Hcr. rewrite Z.max_r in Hcr by lia.
    pose proof (credit_upper config (call_now c - lastRefillMs s) Hv ltac:(lia)) as Hup. rewrite Hl in IH.
    replace (t_end - lastRefillMs s)%Z with ((t_end - call_now c) + (call_now c - lastRefillMs s))%Z by lia.
    rewrite yield_plus. rewrite Nat2Z.inj_succ, <- Z.add_1_r, inject_Z_plus. change (inject_Z 1) with 1.
    set (k := inject_Z (Z.of_nat (length rest))) in *. set (e := ROUNDOFF * capacity config) in *. lra.
Qed.

(** ** Properties *)

(** Also (invariant). Consuming keeps the token count between 0 and the
    capacity and stamps the bucket with the current time; it grants exactly
    when the refilled balance covers the cost, takes exactly the rounded cost
    when it grants and nothing when it denies, and never reports a negative
    remainder nor a wait of less than a second. *)
Theorem consume_invariant config s now cost :
  valid_config config = true -> is_double (capacity config) -> state_ok s -> 0 <= cost ->
  let r := computeConsumeResult s now cost config in
  bucket_ok config (newState r) /\ lastRefillMs (newState r) = now /\
  (allowed (consumed r) = true <-> cost <= refill s now config) /\
  tokens (newState r) = (if allowed (consumed r) then fsub (refill s now config) cost else refill s now config) /\
  (0 <= remaining (consumed r))%Z /\
  (forall ra, retryAfter (consumed r) = Some ra -> (1 <= ra)%Z).
Proof.
  intros Hv Hd Hs Hcost r. split; [by apply consume_ok|].
  split; [apply consume_state|]. split; [unfold r; by rewrite consume_allowed_iff, Qle_bool_iff|].
  split; [apply consume_state|]. unfold r, computeConsumeResult.
  destruct (Qle_bool cost (refill s now config)) eqn:E; cbn [consumed remaining retryAfter]; (split; [|intros ra [=]]); try lia.
  - apply Qle_bool_iff in E. change 0%Z with (Qfloor 0). apply Qfloor_resp_le, rnd_nonneg. lra.
  - subst ra. unfold retry_after. lia.
Qed.

Lemma consume_invariant_witness :
  let config := {| capacity := 5; refillRate := rnd (1 # 10) |} in
  let r := computeConsumeResult (Some {| tokens := rnd (3 # 10); lastRefillMs := 0 |}) 1500 2 config in
  bucket_ok config (newState r).
Proof.
  intros config r. apply (consume_invariant config (Some {| tokens := rnd (3 # 10); lastRefillMs := 0 |}) 1500 2);
    [reflexivity|reflexivity|vm_compute; congruence|lra].
Defined.

(** C36 (safety). The limit holds in the arithmetic of doubles: over any calls of
    non-negative cost until [t_end], on a clock that does not go back and from a
    bucket of no negative balance (or none), the tokens granted are at most the
    capacity plus what the rate yields over that time, and the rounding: a
    relative 2^-52 (and 2^-106) of that yield, and for each call 2^-52 of the
    capacity and 2^-1073. *)
Theorem granted_within_budget config s calls t0 t_end :
  valid_config config = true -> state_ok s -> costs_nonneg calls ->
  clock_monotone t0 calls t_end ->
  fst (run config s calls)
  <= capacity config + inject_Z (t_end - t0) * refillRate config / 1000 * (1 + 2 ^ (-52) + 2 ^ (-106))
     + inject_Z (Z.of_nat (length calls)) * (2 ^ (-52) * capacity config + 2 ^ (-1073)).
Proof.
  intros Hv Hs Hcosts Hclk. pose proof (valid_config_pos config Hv) as [Hc Hr].
  assert (2 ^ (-52) == 2 * ROUNDOFF) as E1 by reflexivity. assert (2 ^ (-1073) == 4 * UNDERFLOW) as E2 by reflexivity.
  assert (1 + 2 ^ (-52) + 2 ^ (-106) == (1 + ROUNDOFF) * (1 + ROUNDOFF)) as -> by reflexivity. rewrite E1, E2.
  fold (yield config (t_end - t0)). pose proof roundoff_bounds as [[Hu _] [Hw _]].
  destruct calls as [|c rest]; cbn [run clock_monotone length fst] in *.
  { pose proof (yield_nonneg config (t_end - t0) Hv ltac:(lia)). change (inject_Z (Z.of_nat 0)) with 0. lra. }
  inversion_clear Hcosts. destruct Hclk as [Hle Hclk].
  pose proof (refill_bounds config s (call_now c) Hv Hs) as Hb.
  pose proof (consume_spends config s (call_now c) (call_cost c) Hv ltac:(done) Hb) as Hspend. cbv zeta in Hspend.
  pose proof (consume_nonneg config s (call_now c) (call_cost c) Hv Hs) as Hn.
  destruct (consume_state config s (call_now c) (call_cost c)) as [Hl _].
  set (r := computeConsumeResult s (call_now c) (call_cost c) config) in *.
  pose proof (run_budget config rest (newState r) t_end Hv Hn ltac:(done) ltac:(by rewrite Hl)) as Hrest.
  destruct (run config (Some (newState r)) rest) as [g fin]. cbn [fst] in *. rewrite Hl in Hrest.
  replace (t_end - t0)%Z with ((t_end - call_now c) + (call_now c - t0))%Z by lia. rewrite yield_plus.
  pose proof (yield_nonneg config (call_now c - t0) Hv ltac:(lia)).
  rewrite Nat2Z.inj_succ, <- Z.add_1_r, inject_Z_plus. change (inject_Z 1) with 1.
  assert (0 <= ROUNDOFF * capacity config) by (apply Qmult_le_0_compat; lra).
  set (k := inject_Z (Z.of_nat (length rest))) in *. set (e := ROUNDOFF * capacity config) in *.
  assert (2 * ROUNDOFF * capacity config == 2 * e) as -> by (unfold e; ring). lra.
Qed.

(** The tokens of these calls exceed, by a rounding, what exact arithmetic would
    let through: the double nearest to 0.3 is below it, but ten seconds of it
    round to 3. *)
Lemma granted_within_budget_witness :
  let config := {| capacity := 3; refillRate := rnd (3 # 10) |} in
  let calls := [{| call_now := 0; call_cost := 3 |}; {| call_now := 10000; call_cost := 3 |}] in
  fst (run config None calls) == 6 /\ capacity config + inject_Z 10000 * refillRate config / 1000 < 6 /\
  fst (run config None calls)
  <= capacity config + inject_Z (10000 - 0) * refillRate config / 1000 * (1 + 2 ^ (-52) + 2 ^ (-106))
     + inject_Z 2 * (2 ^ (-52) * capacity config + 2 ^ (-1073)).
Proof.
  intros config calls. split; [vm_compute; reflexivity|]. split; [vm_compute; reflexivity|].
  apply (granted_within_budget config None calls 0 10000); [vm_compute; reflexivity | exact I | |].
  - unfold costs_nonneg, calls. repeat constructor; simpl; lra.
  - unfold calls. simpl. lia.
Defined.

(** Also (functional). A call that costs more than the capacity is denied at
    every time. Peeking reports what consuming would see: it answers "allowed"
    exactly when consuming one token would be, and agrees with any consume on
    [resetAt]. *)
Theorem peek_agrees_with_consume config s now cost :
  valid_config config = true -> state_ok s ->
  (capacity config < cost -> allowed (consumed (computeConsumeResult s now cost config)) = false) /\
  allowed (computePeekResult s now config)
  = allowed (consumed (computeConsumeResult s now 1 config)) /\
  resetAt (computePeekResult s now config)
  = resetAt (consumed (computeConsumeResult s now cost config)) /\
  remaining (computePeekResult s now config) = Qfloor (refill s now config).
Proof.
  intros Hv Hs. split.
  { intros Hc. rewrite consume_allowed_iff, Qle_bool_false. pose proof (refill_bounds config s now Hv Hs). lra. }
  split; [by rewrite consume_allowed_iff|].
  split; [unfold computeConsumeResult; by destruct (Qle_bool cost (refill s now config))|done].
Qed.

Lemma peek_agrees_with_consume_witness :
  let config := {| capacity := 10; refillRate := 1 |} in
  allowed (computePeekResult None 5 config)
  = allowed (consumed (computeConsumeResult None 5 1 config)).
Proof.
  intros config. apply (peek_agrees_with_consume config None 5 1); [reflexivity | exact I].
Defined.

(** The skewed schedule: two clients whose clocks differ by ten seconds take
    turns, the client that is behind being denied. *)
Definition skew_config : TokenBucketConfig := {| capacity := 10; refillRate := 1 |}.
Fixpoint skewed_calls (n : nat) : list call :=
  match n with
  | O => []
  | S m => {| call_now := 0; call_cost := 10 |} :: {| call_now := 10000; call_cost := 10 |}
             :: skewed_calls m
  end.

Lemma skewed_run n :
  fst (run skew_config (Some {| tokens := 0; lastRefillMs := 10000 |}) (skewed_calls n)) == inject_Z (10 * Z.of_nat n).
Proof.
  induction n as [|n IH]; [reflexivity|]. cbn [skewed_calls run call_now call_cost].
  set (r1 := computeConsumeResult (Some _) 0 10 skew_config). vm_compute in r1. subst r1. cbn [consumed newState allowed].
  set (r2 := computeConsumeResult (Some _) 10000 10 skew_config). vm_compute in r2. subst r2. cbn [consumed newState allowed].
  destruct (run skew_config _ (skewed_calls n)) as [g fin]. cbn [fst] in *.
  rewrite IH. replace (10 * Z.of_nat (S n))%Z with (10 + 10 * Z.of_nat n)%Z by lia.
  rewrite inject_Z_plus. change (inject_Z 10) with 10. lra.
Qed.

(** Finding (bounds). The clamp [Math.max(0, elapsed)] does not protect against
    clocks that disagree: [lastRefillMs] is moved back with the slower clock,
    so calls whose timestamps all lie within ten seconds are granted more
    than any bound, whatever the capacity of ten would allow. *)
Theorem clock_skew_unbounded n :
  exists calls, Forall (fun c => 0 <= call_now c <= 10000)%Z calls /\ costs_nonneg calls /\
    inject_Z (10 * Z.of_nat n) <= fst (run skew_config None calls).
Proof.
  exists ({| call_now := 10000; call_cost := 10 |} :: skewed_calls n).
  assert (Forall (fun c => 0 <= call_now c <= 10000)%Z (skewed_calls n) /\
          costs_nonneg (skewed_calls n)) as [H1 H2].
  { induction n as [|n [IH1 IH2]]; [by repeat constructor|].
    split; repeat constructor; simpl; try lia; try lra; done. }
  split; [constructor; [simpl; lia|done]|]. split; [constructor; [simpl; lra|done]|].
  cbn [run call_now call_cost]. set (r := computeConsumeResult None 10000 10 skew_config). vm_compute in r. subst r.
  cbn [consumed newState allowed]. pose proof (skewed_run n) as H.
  destruct (run skew_config _ (skewed_calls n)). cbn [fst] in *. lra.
Qed.
