(* ===== verification/RateLimiter.v ===== *)
(** The limiters around the token bucket:
    [packages/foundation/src/rate-limit/memory-limiter.ts],
    [dynamo-limiter.ts] and [postgres-limiter.ts].

    The in-memory limiter is one atomic step per call and is the specification
    ([bucket_consume]). The two database limiters run the same optimistic
    protocol: read the clock, read the row, write it back on condition that
    [lastRefillMs] is unchanged, at most [MAX_RETRIES] times. A call in flight
    is a [client] with a program counter, one transition per database round
    trip ([client_step]); any number of them run against one table in any
    order ([sys_step]), with the clock reading, a storage fault and row
    deletions ([reset], the TTL sweeper) chosen by the environment. What
    distinguishes the databases (which errors are retried, which clock stamps
    the expiry) is the class [Backend]. *)

From S2P Require Import Prelude JsString TokenBucket.
From Stdlib Require Import QArith_base.

#[local] Open Scope string_scope.
#[local] Open Scope Z_scope.

(** ** Options and configuration *)

Inductive UnknownKeyStrategy := SharedBucket | Reject | Allow.

Inductive RateLimitConfigError :=
| EmptyTableName
| EmptyNamespace
| InvalidDefaultConfig
| InvalidTokenBucketConfig.

Record LimiterOptions := {
  opt_tableName : string;
  opt_namespace : string;
  opt_defaultConfig : option TokenBucketConfig;
  opt_unknownKeyStrategy : option UnknownKeyStrategy
}.

Record Limiter := {
  tableName : string;
  namespace : string;
  defaultConfig : TokenBucketConfig;
  unknownKeyStrategy : UnknownKeyStrategy
}.

Definition DEFAULT_CONFIG : TokenBucketConfig := {| capacity := 60%Q; refillRate := 1%Q |}.
Definition MAX_RETRIES : nat := 3.

(** The constructor of the two database limiters. *)
Definition new_limiter (o : LimiterOptions) : result RateLimitConfigError Limiter :=
  if String.eqb (opt_tableName o) "" then Throw EmptyTableName
  else if String.eqb (opt_namespace o) "" then Throw EmptyNamespace
  else
    let rawConfig := default DEFAULT_CONFIG (opt_defaultConfig o) in
    if negb (valid_config rawConfig) then Throw InvalidDefaultConfig
    else Ok {| tableName := opt_tableName o; namespace := opt_namespace o;
               defaultConfig := rawConfig;
               unknownKeyStrategy := default SharedBucket (opt_unknownKeyStrategy o) |}.

Definition isUnknownKey (key : string) : bool :=
  String.eqb key "unknown" || endsWith key ":unknown".

Definition resolveKey (strategy : UnknownKeyStrategy) (key : string) : option string :=
  if negb (isUnknownKey key) then Some key
  else match strategy with
       | Reject => None
       | Allow => Some key
       | SharedBucket => Some key
       end.

Definition resolveConfig (dflt : TokenBucketConfig) (override : option TokenBucketConfig) :
    result RateLimitConfigError TokenBucketConfig :=
  match override with
  | None => Ok dflt
  | Some c => if valid_config c then Ok c else Throw InvalidTokenBucketConfig
  end.

Definition rejected_result (nowMs : Z) : RateLimitResult :=
  {| allowed := false; remaining := 0; resetAt := nowMs; retryAfter := Some 0 |}.

(** ** The in-memory limiter *)

Notation Buckets := (gmap string BucketState).

(** The read-compute-write of one call, which JavaScript runs without
    interruption. *)
Definition bucket_consume (buckets : Buckets) (key : string) (nowMs : Z) (cost : Q)
    (config : TokenBucketConfig) : Buckets * RateLimitResult :=
  let r := computeConsumeResult (buckets !! key) nowMs cost config in
  (<[key := newState r]> buckets, consumed r).

Record MemoryLimiter := {
  buckets : Buckets;
  mem_defaultConfig : TokenBucketConfig;
  mem_unknownKeyStrategy : UnknownKeyStrategy
}.

Definition new_memory_limiter (dflt : option TokenBucketConfig)
    (strategy : option UnknownKeyStrategy) : result RateLimitConfigError MemoryLimiter :=
  let rawConfig := default DEFAULT_CONFIG dflt in
  if negb (valid_config rawConfig) then Throw InvalidDefaultConfig
  else Ok {| buckets := ∅; mem_defaultConfig := rawConfig;
             mem_unknownKeyStrategy := default SharedBucket strategy |}.

Definition with_buckets (l : MemoryLimiter) (b : Buckets) : MemoryLimiter :=
  {| buckets := b; mem_defaultConfig := mem_defaultConfig l;
     mem_unknownKeyStrategy := mem_unknownKeyStrategy l |}.

Definition mem_consume (l : MemoryLimiter) (nowMs : Z) (key : string) (cost : Q)
    (config : option TokenBucketConfig) :
    result RateLimitConfigError (MemoryLimiter * RateLimitResult) :=
  match resolveKey (mem_unknownKeyStrategy l) key with
  | None => Ok (l, rejected_result nowMs)
  | Some effectiveKey =>
      (let* effectiveConfig := resolveConfig (mem_defaultConfig l) config in
       let '(b, r) := bucket_consume (buckets l) effectiveKey nowMs cost effectiveConfig in
       Ok (with_buckets l b, r))%js
  end.

Definition mem_peek (l : MemoryLimiter) (nowMs : Z) (key : string)
    (config : option TokenBucketConfig) : result RateLimitConfigError RateLimitResult :=
  let effectiveKey := default key (resolveKey (mem_unknownKeyStrategy l) key) in
  (let* effectiveConfig := resolveConfig (mem_defaultConfig l) config in
   Ok (computePeekResult (buckets l !! effectiveKey) nowMs effectiveConfig))%js.

Definition mem_reset (l : MemoryLimiter) (key : string) : MemoryLimiter :=
  with_buckets l (delete key (buckets l)).

(** ** The database rows *)

(** A column that does not read back as a (finite) number is [None]. *)
Record BucketRow := {
  row_tokens : option Q;
  row_last_refill_ms : option Z;
  row_expires_at : Z
}.

Notation Table := (gmap string BucketRow).

Inductive StoreError :=
| WriteConflict
| StoreFault (code : option string).

Definition bucketKey (ns key : string) : string := ns +:+ "#" +:+ key.

Definition row_state (row : BucketRow) : option BucketState :=
  match row_tokens row, row_last_refill_ms row with
  | Some t, Some l => Some {| tokens := t; lastRefillMs := l |}
  | _, _ => None
  end.

Definition readState (t : Table) (pk : string) : option BucketState :=
  match t !! pk with
  | None => None
  | Some row => row_state row
  end.

Definition make_row (s : BucketState) (ttl : Z) : BucketRow :=
  {| row_tokens := Some (tokens s); row_last_refill_ms := Some (lastRefillMs s);
     row_expires_at := ttl |}.

(** [None] is the failed condition: no row affected, or
    [ConditionalCheckFailedException]. *)
Definition writeState (t : Table) (pk : string) (new : BucketState) (prev : option BucketState)
    (config : TokenBucketConfig) (nowMs : Z) : option Table :=
  let ttl := nowMs / 1000 + computeBucketTtlSeconds new nowMs config in
  match prev with
  | None =>
      match t !! pk with
      | None => Some (<[pk := make_row new ttl]> t)
      | Some _ => None
      end
  | Some p =>
      match t !! pk with
      | Some row =>
          if bool_decide (row_last_refill_ms row = Some (lastRefillMs p))
          then Some (<[pk := make_row new ttl]> t) else None
      | None => None
      end
  end.

(** What a database brings to the shared protocol: the errors worth a retry,
    and which of the two clock readings (the one the attempt started with, the
    one at the write) the expiry is computed from. *)
Class Backend := {
  isRetryable : StoreError -> bool;
  ttl_clock : Z -> Z -> Z
}.

Definition PG_SERIALIZATION_FAILURE := "40001".
Definition PG_DEADLOCK_DETECTED := "40P01".

Definition pg_isRetryable (e : StoreError) : bool :=
  match e with
  | WriteConflict => true
  | StoreFault (Some code) =>
      String.eqb code PG_SERIALIZATION_FAILURE || String.eqb code PG_DEADLOCK_DETECTED
  | StoreFault None => false
  end.

Definition isConditionalCheckFailed (e : StoreError) : bool :=
  match e with WriteConflict => true | StoreFault _ => false end.

Definition postgres_backend : Backend :=
  {| isRetryable := pg_isRetryable; ttl_clock := fun nowMs _ => nowMs |}.
Definition dynamo_backend : Backend :=
  {| isRetryable := isConditionalCheckFailed; ttl_clock := fun _ clock => clock |}.

(** ** A call in flight *)

Inductive pc :=
| Starting (attempt : nat)
| Reading (attempt : nat) (nowMs : Z)
| Writing (attempt : nat) (nowMs : Z) (prev : option BucketState)
| Returned (r : RateLimitResult)
| Rejected (e : StoreError).

Record client := {
  cl_namespace : string;
  cl_key : string;
  cl_cost : Q;
  cl_config : TokenBucketConfig;
  cl_pc : pc
}.

Definition set_pc (c : client) (p : pc) : client :=
  {| cl_namespace := cl_namespace c; cl_key := cl_key c; cl_cost := cl_cost c;
     cl_config := cl_config c; cl_pc := p |}.

Definition cl_pk (c : client) : string := bucketKey (cl_namespace c) (cl_key c).

(** [consume]: either an immediate answer or a call that goes to the
    database. *)
Definition consume (l : Limiter) (nowMs : Z) (key : string) (cost : Q)
    (config : option TokenBucketConfig) : result RateLimitConfigError (RateLimitResult + client) :=
  match resolveKey (unknownKeyStrategy l) key with
  | None => Ok (inl (rejected_result nowMs))
  | Some resolvedKey =>
      (let* effectiveConfig := resolveConfig (defaultConfig l) config in
       Ok (inr {| cl_namespace := namespace l; cl_key := resolvedKey; cl_cost := cost;
                  cl_config := effectiveConfig; cl_pc := Starting 0 |}))%js
  end.

Definition peek (l : Limiter) (nowMs : Z) (t : Table) (key : string)
    (config : option TokenBucketConfig) : result RateLimitConfigError RateLimitResult :=
  let resolvedKey := default key (resolveKey (unknownKeyStrategy l) key) in
  (let* effectiveConfig := resolveConfig (defaultConfig l) config in
   Ok (computePeekResult (readState t (bucketKey (namespace l) resolvedKey)) nowMs
         effectiveConfig))%js.

Definition reset (l : Limiter) (t : Table) (key : string) : Table :=
  delete (bucketKey (namespace l) key) t.

(** A storage fault: the error's SQLSTATE, and whether the statement took
    effect before the error reached the caller (a lost reply). *)
Record fault := { f_code : option string; f_applied : bool }.

Section protocol.
Context `{Backend}.

(** One round trip of [consumeWithRetry]; the flag says whether it changed the
    row. *)
Definition client_step (clock : Z) (f : option fault) (t : Table) (c : client) :
    Table * client * bool :=
  match cl_pc c with
  | Starting attempt => (t, set_pc c (Reading attempt clock), false)
  | Reading attempt nowMs =>
      match f with
      | Some f => (t, set_pc c (Rejected (StoreFault (f_code f))), false)
      | None => (t, set_pc c (Writing attempt nowMs (readState t (cl_pk c))), false)
      end
  | Writing attempt nowMs prev =>
      let r := computeConsumeResult prev nowMs (cl_cost c) (cl_config c) in
      let w := writeState t (cl_pk c) (newState r) prev (cl_config c) (ttl_clock nowMs clock) in
      let '(t', err) :=
        match f with
        | Some f => (if f_applied f then default t w else t, Some (StoreFault (f_code f)))
        | None => (default t w, if w then None else Some WriteConflict)
        end in
      let applied := match f with Some f => f_applied f | None => true end in
      let done := set_pc c (Returned (consumed r)) in
      let c' :=
        match err with
        | Some e => if isRetryable e && (attempt <? MAX_RETRIES - 1)%nat
                    then set_pc c (Starting (S attempt)) else done
        | None => done
        end in
      (t', c', applied && bool_decide (is_Some w))
  | Returned _ => (t, c, false)
  | Rejected _ => (t, c, false)
  end.

(** ** Any number of calls against one table *)

Record sys := { table : Table; clients : list client }.

Inductive event :=
| Act (i : nat) (clock : Z) (f : option fault)
| DeleteRow (pk : string).

(** The atomic operations of the specification. *)
Inductive op :=
| AConsume (i : nat) (pk : string) (nowMs : Z) (cost : Q) (config : TokenBucketConfig)
| ADelete (pk : string).

Definition client_now (c : client) : Z :=
  match cl_pc c with
  | Reading _ n => n
  | Writing _ n _ => n
  | _ => 0
  end.

(** A transition, with the atomic operation it takes effect as, if any. *)
Definition sys_step (s : sys) (e : event) : sys * option op :=
  match e with
  | Act i clock f =>
      match clients s !! i with
      | None => (s, None)
      | Some c =>
          let '(t, c', committed) := client_step clock f (table s) c in
          ({| table := t; clients := <[i := c']> (clients s) |},
           if committed then Some (AConsume i (cl_pk c) (client_now c) (cl_cost c) (cl_config c))
           else None)
      end
  | DeleteRow pk => ({| table := delete pk (table s); clients := clients s |}, Some (ADelete pk))
  end.

Fixpoint sys_run (s : sys) (evs : list event) : sys :=
  match evs with
  | [] => s
  | e :: rest => sys_run (fst (sys_step s e)) rest
  end.

Fixpoint ops_of (s : sys) (evs : list event) : list op :=
  match evs with
  | [] => []
  | e :: rest => (option_list (snd (sys_step s e)) ++ ops_of (fst (sys_step s e)) rest)%list
  end.

(** The clock readings that attempts start with. *)
Definition stamp_of (s : sys) (e : event) : list Z :=
  match e with
  | Act i clock _ =>
      match clients s !! i with
      | Some c => match cl_pc c with Starting _ => [clock] | _ => [] end
      | None => []
      end
  | DeleteRow _ => []
  end.

Fixpoint stamps (s : sys) (evs : list event) : list Z :=
  match evs with
  | [] => []
  | e :: rest => (stamp_of s e ++ stamps (fst (sys_step s e)) rest)%list
  end.

(** A fault whose code is retried means that nothing was written. *)
Definition rolled_back (e : event) : Prop :=
  match e with
  | Act _ _ (Some f) => f_applied f = true -> isRetryable (StoreFault (f_code f)) = false
  | _ => True
  end.
End protocol.

(** The specification: the same calls, each atomic. *)
Definition atomic_step (b : Buckets) (o : op) : Buckets * list (nat * RateLimitResult) :=
  match o with
  | AConsume i pk nowMs cost config =>
      let '(b', r) := bucket_consume b pk nowMs cost config in (b', [(i, r)])
  | ADelete pk => (delete pk b, [])
  end.

Fixpoint atomic_run (b : Buckets) (ops : list op) : Buckets * list (nat * RateLimitResult) :=
  match ops with
  | [] => (b, [])
  | o :: rest =>
      let '(b', rs) := atomic_step b o in
      let '(b'', rs') := atomic_run b' rest in (b'', (rs ++ rs')%list)
  end.

(** ** Lemmas *)

Lemma readState_insert t pk s ttl pk' :
  readState (<[pk := make_row s ttl]> t) pk'
  = if bool_decide (pk' = pk) then Some s else readState t pk'.
Proof.
  unfold readState. case_bool_decide as E.
  - subst. rewrite lookup_insert_eq. by destruct s.
  - by rewrite lookup_insert_ne.
Qed.

Lemma readState_delete t pk pk' :
  readState (delete pk t) pk' = if bool_decide (pk' = pk) then None else readState t pk'.
Proof.
  unfold readState. case_bool_decide as E.
  - subst. by rewrite lookup_delete_eq.
  - by rewrite lookup_delete_ne.
Qed.

Definition table_wf (t : Table) : Prop := forall pk row, t !! pk = Some row -> is_Some (row_state row).

Lemma table_wf_insert t pk s ttl : table_wf t -> table_wf (<[pk := make_row s ttl]> t).
Proof. intros H pk' row [[_ <-]|[_ E]]%lookup_insert_Some; [by eexists|by eapply H]. Qed.

Lemma table_wf_delete t pk : table_wf t -> table_wf (delete pk t).
Proof. intros H pk' row [_ E]%lookup_delete_Some. by eapply H. Qed.

(** A write that lands found the row it was computed from, by timestamp. *)
Lemma writeState_Some t pk new prev config now t' :
  table_wf t -> writeState t pk new prev config now = Some t' ->
  (exists ttl, t' = <[pk := make_row new ttl]> t) /\
  match prev with
  | None => readState t pk = None
  | Some p => exists b, readState t pk = Some b /\ lastRefillMs b = lastRefillMs p
  end.
Proof.
  intros Hwf. unfold writeState, readState. destruct prev as [p|], (t !! pk) as [row|] eqn:E; try done.
  - case_bool_decide as Hl; [|done]. intros [= <-]. split; [by eexists|].
    destruct (Hwf _ _ E) as [b Hb]. exists b. split; [done|].
    unfold row_state in Hb. rewrite Hl in Hb. destruct (row_tokens row); naive_solver.
  - intros [= <-]. split; [by eexists|done].
Qed.

Definition pending (c : client) : option Z :=
  match cl_pc c with
  | Reading _ n => Some n
  | Writing _ n _ => Some n
  | _ => None
  end.

Definition holds (c : client) : option BucketState :=
  match cl_pc c with Writing _ _ prev => prev | _ => None end.

(** The protocol invariant: timestamps in rows, in flight and read are all
    among those used so far, an attempt in flight owns its timestamp, and a
    row that still carries the timestamp a call has read is the row it read. *)
Record protocol_inv (used : list Z) (s : sys) (mem : Buckets) : Prop := {
  inv_wf : table_wf (table s);
  inv_mem : forall pk, readState (table s) pk = mem !! pk;
  inv_row : forall pk b, readState (table s) pk = Some b -> lastRefillMs b ∈ used;
  inv_used : forall i c n, clients s !! i = Some c -> pending c = Some n -> n ∈ used;
  inv_row_free : forall i c n pk b, clients s !! i = Some c -> pending c = Some n ->
    readState (table s) pk = Some b -> lastRefillMs b <> n;
  inv_own : forall i j c d n, clients s !! i = Some c -> clients s !! j = Some d ->
    pending c = Some n -> pending d = Some n -> i = j;
  inv_held : forall i c p, clients s !! i = Some c -> holds c = Some p ->
    lastRefillMs p ∈ used /\
    (forall j d, clients s !! j = Some d -> pending d <> Some (lastRefillMs p)) /\
    (forall b, readState (table s) (cl_pk c) = Some b -> lastRefillMs b = lastRefillMs p -> b = p)
}.

(** Moving one call to a state that owns no more than before. *)
Lemma inv_weaken used s mem i c c' :
  protocol_inv used s mem -> clients s !! i = Some c ->
  (pending c' = pending c \/ pending c' = None) -> holds c' = None ->
  protocol_inv used {| table := table s; clients := <[i := c']> (clients s) |} mem.
Proof.
  intros [] Hc Hp Hh.
  assert (forall j d n, <[i := c']> (clients s) !! j = Some d -> pending d = Some n ->
    exists d0, clients s !! j = Some d0 /\ pending d0 = Some n) as Hback.
  { intros j d n [(<- & <- & _)|[? ?]]%list_lookup_insert_Some Hn; [|naive_solver].
    destruct Hp as [Hp|Hp]; [exists c; split; congruence|congruence]. }
  split; simpl; try done.
  - intros j d n Hd Hn. destruct (Hback _ _ _ Hd Hn) as (d0 & ? & ?); eauto.
  - intros j d n pk b Hd Hn. destruct (Hback _ _ _ Hd Hn) as (d0 & ? & ?); eauto.
  - intros j k d e n Hd He Hn Hn'. destruct (Hback _ _ _ Hd Hn) as (d0 & ? & ?).
    destruct (Hback _ _ _ He Hn') as (e0 & ? & ?); eauto.
  - intros j d p [(<- & <- & _)|[? Hd]]%list_lookup_insert_Some Hhd; [congruence|].
    destruct (inv_held0 _ _ _ Hd Hhd) as (Hu & Hno & Hrow). split; [done|]. split; [|done].
    intros k e He Hpe. destruct (Hback _ _ _ He Hpe) as (e0 & ? & ?). by eapply Hno.
Qed.

Lemma inv_start used s mem i c clock a :
  protocol_inv used s mem -> clients s !! i = Some c -> clock ∉ used ->
  protocol_inv (clock :: used)
    {| table := table s; clients := <[i := set_pc c (Reading a clock)]> (clients s) |} mem.
Proof.
  intros [] Hc Hfresh.
  split; simpl; try done.
  - intros pk b Hb. right. eauto.
  - intros j d n [(<- & <- & _)|[? Hd]]%list_lookup_insert_Some Hn.
    + injection Hn as <-. left.
    + right. eauto.
  - intros j d n pk b [(<- & <- & _)|[? Hd]]%list_lookup_insert_Some Hn Hb; [|eauto].
    injection Hn as <-. intros Hl. apply Hfresh. rewrite <- Hl. eauto.
  - intros j k d e n [(<- & <- & _)|[? Hd]]%list_lookup_insert_Some
      [(<- & <- & _)|[? He]]%list_lookup_insert_Some Hn Hn'; try done; [| |eauto].
    + injection Hn as <-. destruct Hfresh. eauto.
    + injection Hn' as <-. destruct Hfresh. eauto.
  - intros j d p [(<- & <- & _)|[? Hd]]%list_lookup_insert_Some Hhd; [done|].
    destruct (inv_held0 _ _ _ Hd Hhd) as (Hu & Hno & Hrow). split; [by right|]. split; [|done].
    intros k e [(<- & <- & _)|[? He]]%list_lookup_insert_Some; [|eauto].
    intros [= Hl]. apply Hfresh. by rewrite Hl.
Qed.

Lemma inv_read used s mem i c a n :
  protocol_inv used s mem -> clients s !! i = Some c -> cl_pc c = Reading a n ->
  protocol_inv used {| table := table s;
    clients := <[i := set_pc c (Writing a n (readState (table s) (cl_pk c)))]> (clients s) |} mem.
Proof.
  intros Hinv Hc Hpc.
  assert (pending c = Some n) as Hpend by (unfold pending; by rewrite Hpc).
  pose proof (inv_weaken _ _ _ _ _ (set_pc c (Reading a n)) Hinv Hc (or_introl (eq_sym Hpend)) eq_refl)
    as Hinv'.
  destruct Hinv, Hinv'. simpl in *.
  assert (forall j d n', <[i := set_pc c (Writing a n (readState (table s) (cl_pk c)))]> (clients s) !! j
      = Some d -> pending d = Some n' -> exists d0, clients s !! j = Some d0 /\ pending d0 = Some n')
    as Hback.
  { intros j d n' [(<- & <- & _)|[? ?]]%list_lookup_insert_Some Hn; [|naive_solver].
    exists c. split; [done|]. by rewrite Hpend. }
  split; simpl; try done.
  - intros j d m Hd Hm. destruct (Hback _ _ _ Hd Hm) as (d0 & ? & ?); eauto.
  - intros j d m pk b Hd Hm. destruct (Hback _ _ _ Hd Hm) as (d0 & ? & ?); eauto.
  - intros j k d e m Hd He Hm Hm'. destruct (Hback _ _ _ Hd Hm) as (d0 & ? & ?).
    destruct (Hback _ _ _ He Hm') as (e0 & ? & ?); eauto.
  - intros j d p Hd Hhd.
    assert (lastRefillMs p ∈ used /\
      (forall k e, clients s !! k = Some e -> pending e <> Some (lastRefillMs p)) /\
      (forall b, readState (table s) (cl_pk d) = Some b -> lastRefillMs b = lastRefillMs p -> b = p))
      as (Hu & Hno & Hrow).
    { apply list_lookup_insert_Some in Hd as [(<- & <- & _)|[? Hd]]; [|eauto].
      cbn [holds set_pc cl_pc] in Hhd. change (cl_pk (set_pc c _)) with (cl_pk c).
      split; [eauto|]. split; [|congruence].
      intros k e He Hpe. by eapply inv_row_free0. }
    split; [done|]. split; [|done]. intros k e He Hpe.
    destruct (Hback _ _ _ He Hpe) as (e0 & ? & ?). by eapply Hno.
Qed.

Lemma inv_delete used s mem pk :
  protocol_inv used s mem ->
  protocol_inv used {| table := delete pk (table s); clients := clients s |} (delete pk mem).
Proof.
  intros [].
  assert (forall pk' b, readState (delete pk (table s)) pk' = Some b ->
    readState (table s) pk' = Some b) as Hback
    by (intros pk' b; rewrite readState_delete; by case_bool_decide).
  split; simpl; try done; eauto.
  - by apply table_wf_delete.
  - intros pk'. rewrite readState_delete. case_bool_decide as E.
    + subst. by rewrite lookup_delete_eq.
    + by rewrite lookup_delete_ne.
  - intros i c p Hc Hp. destruct (inv_held0 _ _ _ Hc Hp) as (? & ? & ?); eauto.
Qed.

(** A successful write takes effect as one atomic consume. *)
Lemma inv_write used s mem i c a n prev t' now2 c' :
  protocol_inv used s mem -> clients s !! i = Some c -> cl_pc c = Writing a n prev ->
  let r := computeConsumeResult prev n (cl_cost c) (cl_config c) in
  writeState (table s) (cl_pk c) (newState r) prev (cl_config c) now2 = Some t' ->
  pending c' = None -> holds c' = None ->
  mem !! cl_pk c = prev /\
  protocol_inv used {| table := t'; clients := <[i := c']> (clients s) |}
    (<[cl_pk c := newState r]> mem).
Proof.
  intros Hinv Hc Hpc r Hw Hp' Hh'.
  assert (pending c = Some n) as Hpend by (unfold pending; by rewrite Hpc).
  assert (holds c = prev) as Hhold by (unfold holds; by rewrite Hpc).
  assert (lastRefillMs (newState r) = n) as Hlast by apply consume_state. clearbody r.
  apply writeState_Some in Hw as [[ttl ->] Hrow]; [|apply Hinv].
  pose proof (inv_weaken _ _ _ _ _ c' Hinv Hc (or_intror Hp') Hh') as Hweak.
  assert (forall j d, <[i := c']> (clients s) !! j = Some d -> pending d <> Some n) as Hothers.
  { intros j d [(<- & <- & _)|[Hne Hd]]%list_lookup_insert_Some Hn; [congruence|].
    destruct Hne. by eapply (inv_own _ _ _ Hinv). }
  split.
  { rewrite <- (inv_mem _ _ _ Hinv). destruct prev as [p|]; [|done].
    destruct Hrow as (b & Hb & Hl). rewrite Hb.
    destruct (inv_held _ _ _ Hinv _ _ _ Hc Hhold) as (_ & _ & Heq). f_equal. by apply Heq. }
  destruct Hweak. simpl in *. pose proof (inv_used _ _ _ Hinv _ _ _ Hc Hpend) as Hu.
  split; simpl.
  - by apply table_wf_insert.
  - intros pk. rewrite readState_insert. case_bool_decide as E.
    + subst pk. by rewrite lookup_insert_eq.
    + by rewrite lookup_insert_ne.
  - intros pk b. rewrite readState_insert. case_bool_decide; [intros [= <-]; by rewrite Hlast|eauto].
  - eauto.
  - intros j d m pk b Hd Hm. rewrite readState_insert. case_bool_decide; [|eauto].
    intros [= <-] Hl. apply (Hothers _ _ Hd). by rewrite Hm, <- Hlast, Hl.
  - eauto.
  - intros j d p Hd Hp. destruct (inv_held0 _ _ _ Hd Hp) as (Hup & Hno & Hb).
    split; [done|]. split; [done|]. intros b. rewrite readState_insert. case_bool_decide; [|eauto].
    intros [= <-] Hl. apply list_lookup_insert_Some in Hd as [(<- & <- & _)|[Hne Hd]]; [congruence|].
    destruct (inv_held _ _ _ Hinv _ _ _ Hd Hp) as (_ & Hno' & _).
    destruct (Hno' _ _ Hc). by rewrite <- Hl, Hlast, Hpend.
Qed.

Definition returned_ok (s : sys) (rs : list (nat * RateLimitResult)) : Prop :=
  Forall (fun ir => exists c, clients s !! fst ir = Some c /\ cl_pc c = Returned (snd ir)) rs.

Section refinement.
Context `{Backend}.

Lemma step_returned s e i c r :
  clients s !! i = Some c -> cl_pc c = Returned r ->
  clients (fst (sys_step s e)) !! i = Some c.
Proof.
  intros Hc Hr. destruct e as [j clock f|pk]; simpl; [|done].
  destruct (clients s !! j) as [d|] eqn:Hd; [|done].
  destruct (client_step clock f (table s) d) as [[t c'] b] eqn:Hs. simpl.
  destruct (decide (i = j)) as [->|]; [|by rewrite list_lookup_insert_ne].
  simplify_eq. unfold client_step in Hs. rewrite Hr in Hs. injection Hs as <- <- <-.
  by rewrite list_insert_id.
Qed.

Lemma run_returned evs s i c r :
  clients s !! i = Some c -> cl_pc c = Returned r ->
  clients (sys_run s evs) !! i = Some c.
Proof.
  revert s. induction evs as [|e evs IH]; intros s Hc Hr; [done|].
  simpl. eapply IH; [by eapply step_returned|done].
Qed.

(** One transition: either nothing observable, or one atomic operation whose
    result is what the call returns. *)
Lemma sys_step_inv used s mem e :
  protocol_inv used s mem -> Forall (fun n => n ∉ used) (stamp_of s e) -> rolled_back e ->
  let s' := fst (sys_step s e) in
  let '(mem', rs) := atomic_run mem (option_list (snd (sys_step s e))) in
  protocol_inv (stamp_of s e ++ used) s' mem' /\ returned_ok s' rs.
Proof.
  intros Hinv Hfresh Hrb. destruct e as [i clock f|pk]; [|split; [by apply inv_delete|constructor]].
  cbn [sys_step stamp_of] in *. destruct (clients s !! i) as [c|] eqn:Hc; [|split; [done|constructor]].
  pose proof (lookup_lt_Some _ _ _ Hc) as Hlt.
  unfold client_step. destruct (cl_pc c) as [a|a n|a n prev|r|e] eqn:Hpc; cbn [fst snd option_list option_rect atomic_run].
  - split; [|constructor]. inversion_clear Hfresh. by eapply inv_start.
  - destruct f as [f|]; cbn [fst snd option_list option_rect atomic_run]; (split; [|constructor]).
    + by eapply inv_weaken; [| |right|].
    + by eapply inv_read.
  - set (r := computeConsumeResult prev n (cl_cost c) (cl_config c)).
    set (w := writeState _ _ _ _ _ _).
    set (res := match f with Some _ => _ | None => _ end). destruct res as [t' err] eqn:Hres.
    set (c' := match err with Some _ => _ | None => _ end).
    assert (pending c' = None /\ holds c' = None) as [Hp Hh].
    { unfold c'. destruct err as [e|]; [|done]. by destruct (_ && _). }
    destruct (match f with Some f => f_applied f | None => true end && bool_decide (is_Some w)) eqn:Ecom.
    + apply andb_true_iff in Ecom as [Ha Hw]. apply bool_decide_eq_true in Hw as [t'' Hw].
      assert (t' = t'') as -> by (unfold res in Hres; rewrite Hw in Hres; destruct f as [f|];
        [rewrite Ha in Hres|]; simpl in Hres; congruence).
      destruct (inv_write _ _ _ _ _ _ _ _ _ _ c' Hinv Hc Hpc Hw Hp Hh) as [Hmem Hinv'].
      cbn [fst snd option_list option_rect atomic_run atomic_step]. unfold bucket_consume, client_now.
      rewrite Hmem, Hpc. fold r. split; [done|].
      constructor; [|constructor]. exists c'. cbn [fst snd clients].
      split; [by rewrite list_lookup_insert_eq|].
      unfold c', res in *. rewrite Hw in Hres. destruct f as [f|]; [|by simplify_eq/=].
      cbn [rolled_back] in Hrb. injection Hres as _ <-. cbn [set_pc]. by rewrite (Hrb Ha).
    + assert (t' = table s) as ->.
      { unfold res in Hres. destruct f as [f|], w; simpl in *; try destruct (f_applied f); naive_solver. }
      cbn [fst snd option_list option_rect atomic_run]. split; [|constructor].
      eapply inv_weaken; eauto.
  - rewrite list_insert_id by done. split; [|constructor]. by destruct s.
  - rewrite list_insert_id by done. split; [|constructor]. by destruct s.
Qed.

Lemma atomic_run_app b o1 o2 :
  atomic_run b (o1 ++ o2)%list
  = let '(b1, r1) := atomic_run b o1 in let '(b2, r2) := atomic_run b1 o2 in (b2, (r1 ++ r2)%list).
Proof.
  revert b. induction o1 as [|o o1 IH]; intros b; simpl.
  - by destruct (atomic_run b o2).
  - destruct (atomic_step b o) as [b1 r1]. rewrite IH.
    destruct (atomic_run b1 o1) as [b2 r2]. destruct (atomic_run b2 o2) as [b3 r3].
    by rewrite app_assoc.
Qed.

Lemma sys_run_inv evs used s mem :
  protocol_inv used s mem -> NoDup (stamps s evs) -> Forall (fun n => n ∉ used) (stamps s evs) ->
  Forall rolled_back evs ->
  let '(mem', rs) := atomic_run mem (ops_of s evs) in
  (exists used', protocol_inv used' (sys_run s evs) mem') /\ returned_ok (sys_run s evs) rs.
Proof.
  revert used s mem. induction evs as [|e evs IH]; intros used s mem Hinv Hnd Hfr Hrb.
  { simpl. split; [by eexists|constructor]. }
  cbn [ops_of stamps sys_run] in *. rewrite atomic_run_app.
  apply Forall_app in Hfr as [Hfr1 Hfr2]. apply Forall_cons in Hrb as [Hrb1 Hrb2].
  apply NoDup_app in Hnd as (Hnd1 & Hdisj & Hnd2).
  pose proof (sys_step_inv _ _ _ _ Hinv Hfr1 Hrb1) as Hstep. cbn zeta in Hstep.
  destruct (atomic_run mem (option_list (snd (sys_step s e)))) as [mem1 r1].
  destruct Hstep as [Hinv1 Hret1].
  assert (Forall (fun n => n ∉ stamp_of s e ++ used)%list (stamps (fst (sys_step s e)) evs)) as Hfr3.
  { rewrite Forall_forall in Hfr2 |- *. intros n Hn [?|?]%elem_of_app; [|by eapply Hfr2].
    by eapply Hdisj. }
  specialize (IH _ _ _ Hinv1 Hnd2 Hfr3 Hrb2).
  destruct (atomic_run mem1 _) as [mem2 r2]. destruct IH as [Hex Hret2].
  split; [done|]. apply Forall_app. split; [|done].
  eapply Forall_impl; [exact Hret1|]. intros [i r] (c & Hc & Hp). exists c. cbn [fst snd] in *.
  split; [by eapply run_returned|done].
Qed.

Lemma protocol_inv_init cs :
  Forall (fun c => cl_pc c = Starting 0) cs -> protocol_inv [] {| table := ∅; clients := cs |} ∅.
Proof.
  intros Hcs.
  assert (forall i c, cs !! i = Some c -> cl_pc c = Starting 0) as Hpc
    by (intros i c Hc; by eapply Forall_lookup_1 in Hcs).
  assert (forall i c, cs !! i = Some c -> pending c = None) as Hp
    by (intros i c Hc; unfold pending; by rewrite (Hpc _ _ Hc)).
  assert (forall i c, cs !! i = Some c -> holds c = None) as Hh
    by (intros i c Hc; unfold holds; by rewrite (Hpc _ _ Hc)).
  split; simpl.
  - intros pk row. by rewrite lookup_empty.
  - intros pk. unfold readState. by rewrite !lookup_empty.
  - intros pk b. unfold readState. by rewrite lookup_empty.
  - intros i c n Hc. by rewrite (Hp _ _ Hc).
  - intros i c n pk b Hc. by rewrite (Hp _ _ Hc).
  - intros i j c d n Hc. by rewrite (Hp _ _ Hc).
  - intros i c p Hc. by rewrite (Hh _ _ Hc).
Qed.
End refinement.

(** ** Progress *)

(** Round trips a call still needs at most. *)
Definition rounds (c : client) : nat :=
  match cl_pc c with
  | Starting a => 3 * (MAX_RETRIES - a)
  | Reading a _ => 3 * (MAX_RETRIES - a) - 1
  | Writing a _ _ => 3 * (MAX_RETRIES - a) - 2
  | Returned _ => 0
  | Rejected _ => 0
  end.

Fixpoint acts (i : nat) (evs : list event) : nat :=
  match evs with
  | [] => 0
  | Act j _ _ :: rest => (if decide (i = j) then 1 else 0) + acts i rest
  | DeleteRow _ :: rest => acts i rest
  end.

(** A call [c] that began as [c0]: below the retry limit while in flight,
    otherwise with a computed result or the error of one of its faults. *)
Definition accounted (i : nat) (evs : list event) (c0 c : client) : Prop :=
  cl_cost c = cl_cost c0 /\ cl_config c = cl_config c0 /\
  match cl_pc c with
  | Starting a => (a < MAX_RETRIES)%nat
  | Reading a _ => (a < MAX_RETRIES)%nat
  | Writing a _ _ => (a < MAX_RETRIES)%nat
  | Returned r => exists prev nowMs,
      r = consumed (computeConsumeResult prev nowMs (cl_cost c0) (cl_config c0))
  | Rejected e => exists clock f, Act i clock (Some f) ∈ evs /\ e = StoreFault (f_code f)
  end.

Section progress.
Context `{Backend}.

Lemma client_step_accounted i evs c0 clock f t c :
  accounted i evs c0 c -> (forall g, f = Some g -> Act i clock (Some g) ∈ evs) ->
  let '(_, c', _) := client_step clock f t c in
  accounted i evs c0 c' /\ (rounds c' <= rounds c - 1)%nat.
Proof.
  intros (Hcost & Hcfg & Hpc) Hf. unfold client_step, accounted, rounds.
  destruct (cl_pc c) as [a|a n|a n prev|r|e] eqn:E.
  - cbn [set_pc cl_pc cl_cost cl_config]. unfold MAX_RETRIES in *. repeat split; try done; lia.
  - destruct f as [g|]; cbn [set_pc cl_pc cl_cost cl_config]; unfold MAX_RETRIES in *.
    + repeat split; try done; [|lia]. exists clock, g. eauto.
    + repeat split; try done; lia.
  - set (res := match f with Some _ => _ | None => _ end). destruct res as [t' err].
    set (c' := match err with Some _ => _ | None => _ end).
    assert (c' = set_pc c (Returned (consumed (computeConsumeResult prev n (cl_cost c) (cl_config c))))
      \/ (c' = set_pc c (Starting (S a)) /\ (S a < MAX_RETRIES)%nat)) as [->|[-> Ha]].
    { unfold c'. destruct err as [e|]; [|by left].
      destruct (isRetryable e && (a <? MAX_RETRIES - 1)%nat) eqn:Eb; [right|by left].
      bool_hyps. unfold MAX_RETRIES in *. split; [done|lia]. }
    + cbn [set_pc cl_pc cl_cost cl_config]. repeat split; try done; [|lia]. exists prev, n. congruence.
    + cbn [set_pc cl_pc cl_cost cl_config]. unfold MAX_RETRIES in *. repeat split; try done; lia.
  - rewrite E. by repeat split.
  - rewrite E. by repeat split.
Qed.

Lemma sys_run_accounted i c0 evs0 evs s c :
  clients s !! i = Some c -> accounted i evs0 c0 c -> (forall e, e ∈ evs -> e ∈ evs0) ->
  exists c', clients (sys_run s evs) !! i = Some c' /\ accounted i evs0 c0 c' /\
    (rounds c' <= rounds c - acts i evs)%nat.
Proof.
  revert s c. induction evs as [|e evs IH]; intros s c Hc Hacc Hin.
  { exists c. repeat split; try done; try apply Hacc. simpl. lia. }
  assert (forall e', e' ∈ evs -> e' ∈ evs0) as Hin' by (intros; apply Hin; by right).
  cbn [sys_run acts]. destruct e as [j clock f|pk]; [|by apply (IH _ c)].
  cbn [sys_step]. case_decide as Hij.
  - subst j. rewrite Hc.
    pose proof (client_step_accounted i evs0 c0 clock f (table s) c Hacc) as Hstep.
    destruct (client_step clock f (table s) c) as [[t c'] b]. cbn [fst].
    destruct Hstep as [Hacc' Hr]; [intros g ->; apply Hin; left|].
    destruct (IH {| table := t; clients := <[i:=c']> (clients s) |} c') as (c2 & ? & ? & ?);
      [apply list_lookup_insert_eq; by eapply lookup_lt_Some|done|done|].
    exists c2. repeat split; try done; try apply H1. lia.
  - destruct (clients s !! j) as [d|] eqn:Hd; [|by apply IH].
    destruct (client_step clock f (table s) d) as [[t d'] b]. cbn [fst].
    apply (IH {| table := t; clients := <[j:=d']> (clients s) |} c); [|done|done].
    cbn [clients]. by rewrite list_lookup_insert_ne.
Qed.
End progress.

(** ** Properties *)

(** C31 (refinement). Optimistic locking on [lastRefillMs] makes the database
    limiters behave as the atomic in-memory one, provided no two attempts
    start in the same millisecond: whatever the interleaving of calls, row
    deletions and storage faults, the committed writes, in commit order, are a
    run of the in-memory limiter that leaves the same buckets, and every call
    whose write committed returns the result of that run. *)
Theorem limiter_refines_atomic `{Backend} cs evs :
  let s := {| table := ∅; clients := cs |} in
  Forall (fun c => cl_pc c = Starting 0) cs ->
  NoDup (stamps s evs) -> Forall rolled_back evs ->
  let '(mem, rs) := atomic_run ∅ (ops_of s evs) in
  (forall pk, readState (table (sys_run s evs)) pk = mem !! pk) /\
  returned_ok (sys_run s evs) rs.
Proof.
  intros s Hcs Hnd Hrb.
  pose proof (sys_run_inv evs [] s ∅ (protocol_inv_init cs Hcs) Hnd
    (proj2 (Forall_forall _ _) (fun n _ => not_elem_of_nil n)) Hrb) as Hrun.
  destruct (atomic_run ∅ (ops_of s evs)) as [mem rs].
  destruct Hrun as [[used Hinv] Hret]. split; [apply Hinv|done].
Qed.

Definition demo_client (cost : Q) : client :=
  {| cl_namespace := "ns"; cl_key := "user"; cl_cost := cost;
     cl_config := {| capacity := 10%Q; refillRate := 1%Q |}; cl_pc := Starting 0 |}.

(** Two calls race: the second write fails its condition and is retried. *)
Lemma limiter_refines_atomic_witness :
  let s := {| table := ∅; clients := [demo_client 6%Q; demo_client 6%Q] |} in
  let evs := [Act 0 1000 None; Act 1 1001 None; Act 0 1002 None; Act 1 1003 None;
              Act 0 1004 None; Act 1 1005 None; Act 1 1016 None; Act 1 1017 None;
              Act 1 1018 None] in
  let '(mem, rs) := atomic_run ∅ (@ops_of postgres_backend s evs) in
  (forall pk, readState (table (@sys_run postgres_backend s evs)) pk = mem !! pk) /\
  returned_ok (@sys_run postgres_backend s evs) rs.
Proof.
  intros s evs. apply (@limiter_refines_atomic postgres_backend).
  - by repeat constructor.
  - apply (bool_decide_unpack _). vm_compute. exact I.
  - by repeat constructor.
Defined.

(** Also (liveness). A call always finishes within [MAX_RETRIES] attempts of
    three round trips, whatever the other calls and the storage do: it returns
    a result computed from its own arguments (failing open when its writes
    never land), or rejects with the error of a storage fault it met. *)
Theorem consume_finishes `{Backend} s i c evs :
  clients s !! i = Some c -> cl_pc c = Starting 0 -> (9 <= acts i evs)%nat ->
  exists c', clients (sys_run s evs) !! i = Some c' /\
    ((exists prev nowMs, cl_pc c' = Returned
        (consumed (computeConsumeResult prev nowMs (cl_cost c) (cl_config c)))) \/
     (exists clock f, Act i clock (Some f) ∈ evs /\ cl_pc c' = Rejected (StoreFault (f_code f)))).
Proof.
  intros Hc Hpc Hacts.
  destruct (sys_run_accounted i c evs evs s c) as (c' & Hc' & (_ & _ & Hacc) & Hr);
    [done| |done|].
  { unfold accounted. rewrite Hpc. unfold MAX_RETRIES. repeat split. lia. }
  exists c'. split; [done|]. unfold rounds in Hr. rewrite Hpc in Hr. unfold MAX_RETRIES in *.
  destruct (cl_pc c') as [a|a n|a n p|r|e] eqn:E; try lia.
  - left. destruct Hacc as (prev & n & ->). by exists prev, n.
  - right. destruct Hacc as (clock & f & Hf & ->). by exists clock, f.
Qed.

Lemma consume_finishes_witness :
  let s := {| table := ∅; clients := [demo_client 6%Q] |} in
  let fl := Some {| f_code := Some "40001"; f_applied := false |} in
  let evs := concat (replicate 3 [Act 0 5 None; Act 0 6 None; Act 0 7 fl]) in
  exists c', clients (@sys_run postgres_backend s evs) !! 0%nat = Some c' /\
    ((exists prev nowMs, cl_pc c' = Returned
        (consumed (computeConsumeResult prev nowMs 6%Q {| capacity := 10%Q; refillRate := 1%Q |}))) \/
     (exists clock f, Act 0 clock (Some f) ∈ evs /\ cl_pc c' = Rejected (StoreFault (f_code f)))).
Proof.
  intros s fl evs.
  apply (@consume_finishes postgres_backend s 0 (demo_client 6%Q) evs); [reflexivity|reflexivity|].
  apply (bool_decide_unpack _). vm_compute. exact I.
Defined.

(** Finding (safety). Within one millisecond the condition on [lastRefillMs] does
    not see a concurrent write: from a bucket of ten tokens written at
    millisecond 1000, two calls of ten tokens each that run in that same
    millisecond both commit, so twenty tokens are granted off one count. *)
Theorem same_millisecond_double_spend :
  let s := {| table := {[ "ns#user" := make_row {| tokens := 10%Q; lastRefillMs := 1000 |} 1070 ]};
              clients := [demo_client 10%Q; demo_client 10%Q] |} in
  let evs := [Act 0 1000 None; Act 1 1000 None; Act 0 1000 None; Act 1 1000 None;
              Act 0 1000 None; Act 1 1000 None] in
  let s' := @sys_run postgres_backend s evs in
  length (@ops_of postgres_backend s evs) = 2%nat /\
  map (fun c => match cl_pc c with Returned r => allowed r | _ => false end) (clients s')
  = [true; true].
Proof. vm_compute. split; reflexivity. Qed.

(** The unknown-key strategy [allow] is not a pass-through: it resolves the
    key exactly as the shared bucket does. *)
Lemma allow_is_shared_bucket key : resolveKey Allow key = resolveKey SharedBucket key.
Proof. unfold resolveKey. by destruct (negb (isUnknownKey key)). Qed.

(** A serialization failure of the read is not retried: it rejects the call. *)
Lemma read_fault_rejects clock t c attempt nowMs f :
  cl_pc c = Reading attempt nowMs ->
  @client_step postgres_backend clock (Some f) t c
  = (t, set_pc c (Rejected (StoreFault (f_code f))), false).
Proof. intros H. unfold client_step. by rewrite H. Qed.

(** [bucketKey] does not separate namespaces that contain the separator. *)
Lemma bucketKey_collision : bucketKey "a#b" "c" = bucketKey "a" "b#c".
Proof. reflexivity. Qed.
