(* ===== verification/KvStore.v ===== *)
(** The record-store port: [packages/foundation/src/kv/store-types.ts].

    The data every adapter exchanges with its callers, and the port as a
    function: [kv_port] says what an operation leaves of the row it finds and
    what it answers, as [store-types.ts] and the version rules of
    [memory-kv-store.ts] document it; its parameter is the instant at which an
    entry expires, which they leave open within a second. Each adapter's file
    says where it departs from [kv_port], and proves that it does so nowhere
    else. [kv_spec] is what the three have in common; an adapter is an instance
    of [KvAdapter], [KvAdapterOk] says that it keeps to [kv_spec], and the
    theorems of the last section are proved from that alone, so they hold of
    every adapter.

    Numbers inside stored values are integers ([JNum]) or some other number
    that the model keeps opaque ([JOtherNum], a fraction or NaN). *)

From S2P Require Import Prelude JsString Regex.
From Stdlib Require Import Ascii.

#[local] Open Scope string_scope.
#[local] Open Scope Z_scope.

(** ** Data *)

Inductive json :=
| JNull
| JBool (b : bool)
| JNum (z : Z)
| JOtherNum
| JStr (s : string)
| JArr (l : list json)
| JObj (l : list (string * json)).

(** A record's value is an object: its top-level fields. *)
Notation KvValue := (gmap string json).

Record KvRecord := { value : KvValue; version : Z; expiresAt : option Z }.

Record KvWriteOptions := {
  opt_ttlSeconds : option Z;
  opt_expiresAt : option Z;
  opt_indexedKey : option string
}.

Record KvCasResult := { applied : bool; record : option KvRecord }.

Inductive kv_error :=
| InvalidField
| ReservedSeparator
| ReservedAttribute
| NoIndex
| BackendError
| OutOfFuel.

(** [KV_FIELD_PATTERN]. *)
Definition KV_FIELD_PATTERN : re :=
  (RCls is_alpha ⋅ RStar (RCls (fun c => is_alnum c || Ascii.eqb c "_"%char)))%re.

Definition valid_field (field : string) : bool := re_match KV_FIELD_PATTERN field.

Definition KV_NAMESPACES : list string :=
  ["costtrack"; "costbudget"; "discexposure"; "invitations"; "idem"; "claims";
   "agent-refresh"; "device"; "job"; "cron"].

Definition nowSeconds (now : Z) : Z := now / 1000.

(** Absolute expiry, epoch seconds, resolved from write options ([now] in
    epoch milliseconds). *)
Definition resolveExpiry (now : Z) (o : KvWriteOptions) : option Z :=
  match opt_expiresAt o with
  | Some e => Some e
  | None =>
      match opt_ttlSeconds o with
      | Some t => Some (nowSeconds now + t)
      | None => None
      end
  end.

(** JavaScript's [Number(x ?? 0)] on a field, as an integer; [None] is any
    number that is not one. *)
Fixpoint numberOf (top : bool) (j : json) : option Z :=
  match j with
  | JNull => Some 0
  | JBool b => if top then Some (if b then 1 else 0) else None
  | JNum z => Some z
  | JOtherNum => None
  | JStr s => asInteger (Number s)
  | JArr [] => Some 0
  | JArr [x] => numberOf false x
  | JArr _ => None
  | JObj _ => None
  end.

Definition ofNumber (n : option Z) : json :=
  match n with Some z => JNum z | None => JOtherNum end.

(** ** Operations and answers *)

Inductive kv_op :=
| OpGet (includeExpired : bool)
| OpPut (v : KvValue) (o : KvWriteOptions)
| OpPutIfAbsent (v : KvValue) (o : KvWriteOptions)
| OpCompareAndSet (expectedVersion : Z) (v : KvValue) (o : KvWriteOptions)
| OpPutIfFresher (v : KvValue) (incoming : Z) (indexedKey : option string)
| OpIncrement (field : string) (delta : Z) (o : KvWriteOptions)
| OpDelete (expectedVersion : option Z).

Inductive kv_resp :=
| RRecord (r : option KvRecord)
| RPut (r : KvRecord)
| RCas (c : KvCasResult)
| RNumber (n : json)
| RBool (b : bool).

(** ** The port *)

Record KvRow := {
  row_value : KvValue;
  row_version : Z;
  row_expiresAt : option Z;
  row_indexedKey : option string
}.

Definition record_of (r : KvRow) : KvRecord :=
  {| value := row_value r; version := row_version r; expiresAt := row_expiresAt r |}.

Definition live_at (now : Z) (r : KvRow) : bool :=
  match row_expiresAt r with None => true | Some e => now <? e * 1000 end.

Definition dead_at (now : Z) (r : KvRow) : bool :=
  match row_expiresAt r with None => false | Some e => e * 1000 + 1000 <=? now end.

Definition version_of (row : option KvRow) : Z :=
  match row with Some r => row_version r | None => 0 end.

Definition value_of (row : option KvRow) : KvValue :=
  match row with Some r => row_value r | None => ∅ end.

Definition may_be_absent (now : Z) (row : option KvRow) : bool :=
  match row with Some r => negb (live_at now r) | None => true end.

Definition written (now : Z) (v : KvValue) (ver : Z) (o : KvWriteOptions) : KvRow :=
  {| row_value := v; row_version := ver; row_expiresAt := resolveExpiry now o;
     row_indexedKey := opt_indexedKey o |}.

(** The field an increment adds to, where it is a number or missing. *)
Definition numeric_field (row : option KvRow) (field : string) : option Z :=
  match value_of row !! field with
  | None => Some 0
  | Some (JNum z) => Some z
  | _ => None
  end.

Definition incremented (now : Z) (row : option KvRow) (field : string) (n : Z)
    (o : KvWriteOptions) : KvRow :=
  {| row_value := <[field := JNum n]> (value_of row);
     row_version := version_of row + 1;
     row_expiresAt := match row ≫= row_expiresAt with
                      | Some e => Some e
                      | None => resolveExpiry now o
                      end;
     row_indexedKey := row ≫= row_indexedKey |}.

Definition won (r : KvRow) : kv_resp := RCas {| applied := true; record := Some (record_of r) |}.
Definition lost (r : option KvRecord) : kv_resp := RCas {| applied := false; record := r |}.

(** Two readings of "past [expiresAt]": an entry lives through the second of its
    expiry, or until that second begins. *)
Definition lives_through (now : Z) (r : KvRow) : bool :=
  match row_expiresAt r with None => true | Some e => now / 1000 <=? e end.
Definition lives_until (now : Z) (r : KvRow) : bool :=
  match row_expiresAt r with None => true | Some e => now <? e * 1000 end.

Definition current (lives : Z -> KvRow -> bool) (now : Z) (row : option KvRow) : option KvRow :=
  r ← row; if lives now r then Some r else None.

Definition applies (r : KvRow) : option KvRow * kv_resp := (Some r, won r).

(** A rejected write leaves the row and reports the live record. *)
Definition rejects (lives : Z -> KvRow -> bool) (now : Z) (row : option KvRow) : option KvRow * kv_resp :=
  (row, lost (record_of <$> current lives now row)).

(** No stored expiry, or one that is older. *)
Definition fresher (incoming : Z) (row : option KvRow) : bool :=
  match row ≫= row_expiresAt with None => true | Some e => e <? incoming end.

Definition cached (v : KvValue) (ver incoming : Z) (idx : option string) : KvRow :=
  {| row_value := v; row_version := ver; row_expiresAt := Some incoming; row_indexedKey := idx |}.

(** The row an operation leaves and its answer. Expired is absent for reads and
    for conditional writes; a write bumps the version of the row it replaces,
    live or expired, by one, from zero if there is none, except that a freshness
    write restarts at one; increments and deletes act on the stored row. *)
Definition kv_port (lives : Z -> KvRow -> bool) (now : Z) (op : kv_op) (row : option KvRow) : option KvRow * kv_resp :=
  match op with
  | OpGet true => (row, RRecord (record_of <$> row))
  | OpGet false => (row, RRecord (record_of <$> current lives now row))
  | OpPut v o => let r := written now v (version_of row + 1) o in (Some r, RPut (record_of r))
  | OpPutIfAbsent v o =>
      match current lives now row with
      | Some _ => rejects lives now row
      | None => applies (written now v (version_of row + 1) o)
      end
  | OpCompareAndSet n v o =>
      if version_of (current lives now row) =? n then applies (written now v (version_of row + 1) o)
      else rejects lives now row
  | OpPutIfFresher v incoming idx =>
      if fresher incoming (current lives now row) then applies (cached v 1 incoming idx) else rejects lives now row
  | OpIncrement f d o =>
      match numeric_field row f with
      | Some n => (Some (incremented now row f (n + d) o), RNumber (JNum (n + d)))
      | None => (row, RNumber JOtherNum)
      end
  | OpDelete guard =>
      match row, guard with
      | Some r, Some n => if row_version r =? n then (None, RBool true) else (row, RBool false)
      | Some _, None => (None, RBool true)
      | None, _ => (None, RBool false)
      end
  end.

(** The records an index lookup returns: the live ones under that value, each
    key once. *)
Definition index_lookup (lives : Z -> KvRow -> bool) (now : Z) (row_of : string -> option KvRow) (idx : string)
    (found : list (string * KvRecord)) : Prop :=
  NoDup (map fst found) /\
  forall k rec, (k, rec) ∈ found <->
    exists r, row_of k = Some r /\ row_indexedKey r = Some idx /\ lives now r = true /\ rec = record_of r.

(** ** What the adapters have in common *)

(** The record a rejected write reports: the live one, or nothing. *)
Inductive reported (now : Z) : option KvRow -> option KvRecord -> Prop :=
| reported_absent : reported now None None
| reported_live r : dead_at now r = false -> reported now (Some r) (Some (record_of r))
| reported_dead r : live_at now r = false -> reported now (Some r) None.

(** [kv_spec now op row row' resp]: at time [now] (epoch milliseconds), [op]
    on a key whose stored row is [row] may leave [row'] and answer [resp]. *)
Inductive kv_spec (now : Z) : kv_op -> option KvRow -> option KvRow -> kv_resp -> Prop :=
| spec_get_all row : kv_spec now (OpGet true) row row (RRecord (record_of <$> row))
| spec_get row rec :
    reported now row rec -> kv_spec now (OpGet false) row row (RRecord rec)
| spec_put v o row :
    let r := written now v (version_of row + 1) o in
    kv_spec now (OpPut v o) row (Some r) (RPut (record_of r))
| spec_absent_win v o row :
    let r := written now v (version_of row + 1) o in
    may_be_absent now row = true ->
    kv_spec now (OpPutIfAbsent v o) row (Some r) (won r)
| spec_absent_lose v o r rec :
    dead_at now r = false -> reported now (Some r) rec ->
    kv_spec now (OpPutIfAbsent v o) (Some r) (Some r) (lost rec)
| spec_cas_win n v o old :
    let r := written now v (n + 1) o in
    row_version old = n -> n <> 0 ->
    kv_spec now (OpCompareAndSet n v o) (Some old) (Some r) (won r)
| spec_cas_create v o row ver :
    let r := written now v ver o in
    may_be_absent now row = true -> ver = 1 \/ ver = version_of row + 1 ->
    kv_spec now (OpCompareAndSet 0 v o) row (Some r) (won r)
| spec_cas_lose n v o row rec :
    match row with
    | Some r => row_version r <> n \/ live_at now r = false
    | None => n <> 0
    end ->
    reported now row rec -> kv_spec now (OpCompareAndSet n v o) row row (lost rec)
| spec_fresher_win v incoming idx row ver :
    let r := {| row_value := v; row_version := ver; row_expiresAt := Some incoming;
                row_indexedKey := idx |} in
    match row with
    | Some old => live_at now old = false \/
        match row_expiresAt old with Some e => e < incoming | None => True end
    | None => True
    end ->
    ver = 1 \/ ver = version_of row + 1 ->
    kv_spec now (OpPutIfFresher v incoming idx) row (Some r) (won r)
| spec_fresher_lose v incoming idx old e rec :
    row_expiresAt old = Some e -> incoming <= e -> reported now (Some old) rec ->
    kv_spec now (OpPutIfFresher v incoming idx) (Some old) (Some old) (lost rec)
| spec_increment field delta o row n :
    numeric_field row field = Some n ->
    kv_spec now (OpIncrement field delta o) row
      (Some (incremented now row field (n + delta) o)) (RNumber (JNum (n + delta)))
| spec_delete_hit guard r :
    match guard with Some n => row_version r = n | None => True end ->
    kv_spec now (OpDelete guard) (Some r) None (RBool true)
| spec_delete_miss guard row :
    match row, guard with
    | None, _ => True
    | Some r, Some n => row_version r <> n
    | Some _, None => False
    end ->
    kv_spec now (OpDelete guard) row row (RBool false).

(** ** Adapters *)

(** One call of an adapter at a frozen clock [now]. [kv_valid] says which
    calls the adapter accepts. *)
Class KvAdapter := {
  kv_state : Type;
  kv_view : kv_state -> string -> option KvRow;
  kv_inv : kv_state -> Prop;
  kv_valid : string -> kv_op -> option KvRow -> Prop;
  kv_step : kv_state -> Z -> string -> kv_op -> result kv_error (kv_state * kv_resp)
}.

Class KvAdapterOk (A : KvAdapter) := {
  kv_step_ok : forall s now key op,
    kv_inv s -> kv_valid key op (kv_view s key) ->
    exists s' resp, kv_step s now key op = Ok (s', resp) /\ kv_inv s' /\
      kv_spec now op (kv_view s key) (kv_view s' key) resp /\
      (forall key', key' <> key -> kv_view s' key' = kv_view s key')
}.

(** ** Consequences of the contract *)

Lemma live_not_dead now r : live_at now r = true -> dead_at now r = false.
Proof. unfold live_at, dead_at. destruct (row_expiresAt r); [intros; bool_hyps; lia|done]. Qed.

Lemma dead_not_live now r : dead_at now r = true -> live_at now r = false.
Proof. intros H. destruct (live_at now r) eqn:E; [rewrite (live_not_dead _ _ E) in H; done|done]. Qed.

(** The comparison in whole seconds, as two of the adapters make it. *)
Lemma expired_seconds_dead now r :
  match row_expiresAt r with Some e => e <? nowSeconds now | None => false end = dead_at now r.
Proof.
  unfold dead_at, nowSeconds. destruct (row_expiresAt r); [|done].
  apply bool_eq_iff. rewrite Z.ltb_lt, Z.leb_le.
  pose proof (Z.div_mod now 1000 ltac:(lia)). pose proof (Z.mod_pos_bound now 1000 ltac:(lia)). lia.
Qed.

Lemma lives_through_dead now r : lives_through now r = negb (dead_at now r).
Proof.
  rewrite <- expired_seconds_dead. unfold lives_through, nowSeconds. destruct (row_expiresAt r) as [e|]; [|done].
  by rewrite Z.ltb_antisym, negb_involutive.
Qed.

(** A reading of the expiry that differs from others within one second only. *)
Definition within_a_second (lives : Z -> KvRow -> bool) : Prop :=
  forall now r, (live_at now r = true -> lives now r = true) /\ (dead_at now r = true -> lives now r = false).

Lemma lives_through_second : within_a_second lives_through.
Proof. intros now r. rewrite lives_through_dead. split; intros H; [by rewrite (live_not_dead _ _ H)|by rewrite H]. Qed.

Lemma lives_until_second : within_a_second lives_until.
Proof. intros now r. change (lives_until now r) with (live_at now r). split; [done|apply dead_not_live]. Qed.

Section common.
Context (lives : Z -> KvRow -> bool) (Hlives : within_a_second lives).

Lemma lives_not_dead now r : lives now r = true -> dead_at now r = false.
Proof. intros H. destruct (dead_at now r) eqn:E; [|done]. by rewrite (proj2 (Hlives now r) E) in H. Qed.

Lemma not_lives_live now r : lives now r = false -> live_at now r = false.
Proof. intros H. destruct (live_at now r) eqn:E; [|done]. by rewrite (proj1 (Hlives now r) E) in H. Qed.

Lemma current_reported now row : reported now row (record_of <$> current lives now row).
Proof.
  unfold current. destruct row as [r|]; [|constructor]. cbn [mbind option_bind].
  destruct (lives now r) eqn:E; [by apply reported_live, lives_not_dead|by apply reported_dead, not_lives_live].
Qed.

Lemma current_none now row : current lives now row = None -> may_be_absent now row = true.
Proof.
  unfold current, may_be_absent. destruct row as [r|]; [|done]. cbn [mbind option_bind].
  destruct (lives now r) eqn:E; [done|]. by rewrite not_lives_live.
Qed.

Lemma current_some now row r : current lives now row = Some r -> row = Some r /\ dead_at now r = false.
Proof.
  unfold current. destruct row as [r'|]; [|done]. cbn [mbind option_bind].
  destruct (lives now r') eqn:E; [|done]. intros [= <-]. split; [done|by apply lives_not_dead].
Qed.

(** What the documented port does is within the common contract. *)
Lemma port_common now op row :
  (forall r, row = Some r -> 0 < row_version r) ->
  match op with
  | OpCompareAndSet n _ _ => 0 <= n
  | OpIncrement f _ _ => is_Some (numeric_field row f)
  | _ => True
  end ->
  kv_spec now op row (fst (kv_port lives now op row)) (snd (kv_port lives now op row)).
Proof.
  intros Hpos Hop. destruct op as [[]|v o|v o|n v o|v inc idx|f d o|g]; cbn [kv_port].
  - apply spec_get_all.
  - apply spec_get, current_reported.
  - apply spec_put.
  - destruct (current lives now row) as [r|] eqn:E; cbn [fst snd applies rejects].
    + destruct (current_some _ _ _ E) as [-> Hd]. apply spec_absent_lose; [done|]. apply current_reported.
    + by apply spec_absent_win, current_none with (1 := E).
  - destruct (Z.eqb_spec (version_of (current lives now row)) n) as [Hn|Hn]; cbn [fst snd applies rejects].
    + destruct (current lives now row) as [r|] eqn:E; cbn in Hn.
      * destruct (current_some _ _ _ E) as [-> Hd]. pose proof (Hpos r eq_refl). cbn [version_of]. rewrite Hn.
        apply spec_cas_win; [done|lia].
      * subst n. apply spec_cas_create; [by apply current_none|by right].
    + apply spec_cas_lose; [|apply current_reported]. unfold current in Hn. destruct row as [r|]; cbn in *; [|done].
      destruct (lives now r) eqn:E; cbn in Hn; [by left|right; by apply not_lives_live].
  - destruct (fresher inc (current lives now row)) eqn:E; cbn [fst snd applies rejects].
    + apply spec_fresher_win; [|by left]. unfold fresher, current in E. destruct row as [r|]; [|done]. cbn in E.
      destruct (lives now r) eqn:El; cbn in E; [right; destruct (row_expiresAt r); [lia|done]|left; by apply not_lives_live].
    + unfold fresher in E. destruct (current lives now row) as [r|] eqn:Ec; cbn in E; [|done].
      destruct (current_some _ _ _ Ec) as [-> Hd]. destruct (row_expiresAt r) as [e|] eqn:Ee; [|done].
      eapply spec_fresher_lose; [done|lia|].
      pose proof (current_reported now (Some r)) as Hr. by rewrite Ec in Hr.
  - destruct Hop as [n Hn]. rewrite Hn. by apply spec_increment.
  - destruct row as [r|]; [|by apply spec_delete_miss]. destruct g as [n|]; [|by apply (spec_delete_hit now None)].
    destruct (Z.eqb_spec (row_version r) n); [by apply (spec_delete_hit now (Some n))|by apply spec_delete_miss].
Qed.
End common.

Lemma live_before now now' r : now <= now' -> live_at now' r = true -> live_at now r = true.
Proof. unfold live_at. destruct (row_expiresAt r); [intros; bool_hyps; lia|done]. Qed.

(** A live row keeps the create-once and the freshness-guarded writes out. *)
Lemma spec_absent_live now v o r row' resp :
  kv_spec now (OpPutIfAbsent v o) (Some r) row' resp -> live_at now r = true ->
  row' = Some r /\ resp = lost (Some (record_of r)).
Proof.
  intros H Hl. inversion H as [| | |v' o' row Hrow|v' o' r' rec Hd Hrep| | | | | | | |]; subst; simplify_eq/=.
  - unfold may_be_absent in *. rewrite Hl in *. done.
  - split; [done|]. inversion Hrep; simplify_eq; [done|congruence].
Qed.

(** Every write of the contract that succeeds raises the version, or is one of
    the two resets the port allows (a compare-and-set creation over an expired
    row, a freshness write). *)
Definition versioned_op (op : kv_op) : bool :=
  match op with
  | OpCompareAndSet n _ _ => negb (n =? 0)
  | OpPutIfFresher _ _ _ => false
  | _ => true
  end.

Lemma spec_version now op row row' resp r' :
  kv_spec now op row row' resp -> versioned_op op = true -> row' = Some r' ->
  row' = row \/ row_version r' = version_of row + 1.
Proof.
  intros H Hop E. destruct H; simplify_eq/=; auto.
Qed.

Definition is_delete (op : kv_op) : bool :=
  match op with OpDelete _ => true | _ => false end.

Lemma spec_version_grows now op row row' resp n :
  kv_spec now op row row' resp -> versioned_op op = true -> is_delete op = false ->
  n < version_of row -> n < version_of row'.
Proof.
  intros H Hop Hdel Hn. destruct row' as [r'|].
  - destruct (spec_version _ _ _ _ _ _ H Hop eq_refl) as [<-|E]; simpl in *; lia.
  - inversion H; simplify_eq/=; done.
Qed.

Lemma spec_cas_stale now n v o row row' resp :
  kv_spec now (OpCompareAndSet n v o) row row' resp -> n < version_of row -> 0 < n ->
  row' = row /\ exists rec, resp = lost rec.
Proof.
  intros H Hn Hpos. inversion H; simplify_eq/=; try lia. eauto.
Qed.

(** ** Clients of the port *)

Section clients.
Context {A : KvAdapter} `{!KvAdapterOk A}.

(** A sequence of calls on one key, each with its clock reading. *)
Fixpoint kv_calls (s : kv_state) (key : string) (calls : list (Z * kv_op)) :
    result kv_error (kv_state * list kv_resp) :=
  match calls with
  | [] => Ok (s, [])
  | (now, op) :: rest =>
      (let* (s1, resp) := kv_step s now key op in
       let* (s2, resps) := kv_calls s1 key rest in
       Ok (s2, resp :: resps))%js
  end.

Definition accepts (key : string) (op : kv_op) : Prop := forall row, kv_valid key op row.

Lemma absent_calls_lose calls : forall s key r,
  kv_inv s -> kv_view s key = Some r ->
  Forall (fun c => exists v o, snd c = OpPutIfAbsent v o /\ accepts key (snd c) /\
                               live_at (fst c) r = true) calls ->
  exists s', kv_calls s key calls =
    Ok (s', map (fun _ => lost (Some (record_of r))) calls) /\ kv_view s' key = Some r.
Proof.
  induction calls as [|[now op] calls IH]; intros s key r Hinv Hr Hall; [by exists s|].
  apply Forall_cons in Hall as [(v & o & Hop & Hok & Hl) Hall]. cbn [fst snd] in *. subst op.
  destruct (kv_step_ok s now key (OpPutIfAbsent v o) Hinv (Hok _))
    as (s' & resp & Hstep & Hinv' & Hspec & _).
  rewrite Hr in Hspec. destruct (spec_absent_live _ _ _ _ _ _ Hspec Hl) as [Hr' ->].
  destruct (IH s' key r Hinv' Hr' Hall) as (s2 & Hcalls & Hview).
  exists s2. cbn [kv_calls map]. rewrite Hstep. simpl. by rewrite Hcalls.
Qed.

Lemma version_calls_grow calls : forall s key n,
  kv_inv s -> n < version_of (kv_view s key) ->
  Forall (fun c => versioned_op (snd c) = true /\ is_delete (snd c) = false /\
                   accepts key (snd c)) calls ->
  exists s' resps, kv_calls s key calls = Ok (s', resps) /\ kv_inv s' /\
    n < version_of (kv_view s' key).
Proof.
  induction calls as [|[now op] calls IH]; intros s key n Hinv Hn Hall; [by exists s, []|].
  apply Forall_cons in Hall as [(Hv & Hd & Hok) Hall]. cbn [fst snd] in *.
  destruct (kv_step_ok s now key op Hinv (Hok _)) as (s1 & resp & Hstep & Hinv1 & Hspec & _).
  destruct (IH s1 key n Hinv1 (spec_version_grows _ _ _ _ _ _ Hspec Hv Hd Hn) Hall)
    as (s2 & resps & Hcalls & Hinv2 & Hn2).
  exists s2, (resp :: resps). cbn [kv_calls]. rewrite Hstep. simpl. by rewrite Hcalls.
Qed.

(** Also (safety). Single winner: once a [putIfAbsent] has been applied, every
    later [putIfAbsent] on that key made before the written expiry is
    rejected, is told the winner's record, and changes nothing. *)
Theorem put_if_absent_single_winner s key now v o s1 rec calls :
  kv_inv s -> accepts key (OpPutIfAbsent v o) ->
  kv_step s now key (OpPutIfAbsent v o) = Ok (s1, RCas {| applied := true; record := rec |}) ->
  Forall (fun c => exists v' o', snd c = OpPutIfAbsent v' o' /\ accepts key (snd c) /\
    match resolveExpiry now o with Some e => fst c < e * 1000 | None => True end) calls ->
  exists s2, kv_calls s1 key calls = Ok (s2, map (fun _ => lost rec) calls) /\
    kv_view s2 key = kv_view s1 key.
Proof.
  intros Hinv Hok Hstep Hall.
  destruct (kv_step_ok s now key _ Hinv (Hok _)) as (s1' & resp & Hstep' & Hinv1 & Hspec & _).
  rewrite Hstep in Hstep'. injection Hstep' as <- <-.
  assert (exists ver, kv_view s1 key = Some (written now v ver o) /\
    rec = Some (record_of (written now v ver o))) as (ver & Hview & ->)
    by (inversion Hspec; simplify_eq/=; eauto).
  destruct (absent_calls_lose calls s1 key _ Hinv1 Hview) as (s2 & Hcalls & Hv2).
  - eapply Forall_impl; [exact Hall|]. intros c (v' & o' & Hc & Hacc & Hlive).
    exists v', o'. repeat split; [done|done|]. unfold live_at. cbn [written row_expiresAt].
    destruct (resolveExpiry now o); [|done]. bool_goal. done.
  - exists s2. split; [done|]. by rewrite Hv2.
Qed.

(** Also (safety). A stale version never wins: once a key has moved past
    version [n], a [compareAndSet] that expects [n] is rejected and changes
    nothing, whatever puts, increments, creations and version-guarded writes
    came in between. *)
Theorem stale_compare_and_set_rejected s key n calls now v o :
  kv_inv s -> 0 < n < version_of (kv_view s key) ->
  Forall (fun c => versioned_op (snd c) = true /\ is_delete (snd c) = false /\
                   accepts key (snd c)) calls ->
  accepts key (OpCompareAndSet n v o) ->
  exists s1 resps s2 rec, kv_calls s key calls = Ok (s1, resps) /\
    kv_step s1 now key (OpCompareAndSet n v o) = Ok (s2, lost rec) /\
    kv_view s2 key = kv_view s1 key.
Proof.
  intros Hinv [Hpos Hn] Hall Hok.
  destruct (version_calls_grow calls s key n Hinv Hn Hall) as (s1 & resps & Hcalls & Hinv1 & Hn1).
  destruct (kv_step_ok s1 now key _ Hinv1 (Hok _)) as (s2 & resp & Hstep & _ & Hspec & _).
  destruct (spec_cas_stale _ _ _ _ _ _ _ Hspec Hn1 Hpos) as [Hv [rec ->]].
  exists s1, resps, s2, rec. done.
Qed.
End clients.
