(* ===== verification/MemoryKvStore.v ===== *)
(** The in-memory record store:
    [packages/foundation/src/kv/memory-kv-store.ts]. Values are immutable in
    the model, so [structuredClone] is the identity; the iteration order of
    the [Map], which only [queryByIndex] exposes, is not modelled. *)

From S2P Require Import Prelude JsString KvStore.

#[local] Open Scope string_scope.
#[local] Open Scope Z_scope.

(** [MemoryEntry] has the four fields of [KvRow]. *)
Notation MemoryStore := (gmap string KvRow).

(** ** Pure helpers *)

Definition isExpired (now : Z) (entry : KvRow) : bool :=
  match row_expiresAt entry with
  | Some e => e <? nowSeconds now
  | None => false
  end.

Definition toRecord (entry : KvRow) : KvRecord :=
  {| value := row_value entry; version := row_version entry; expiresAt := row_expiresAt entry |}.

Definition makeEntry (v : KvValue) (ver : Z) (e : option Z) (idx : option string) : KvRow :=
  {| row_value := v; row_version := ver; row_expiresAt := e; row_indexedKey := idx |}.

(** [existing !== undefined && !isExpired(existing)]. *)
Definition live_entry (now : Z) (existing : option KvRow) : option KvRow :=
  match existing with
  | Some e => if isExpired now e then None else Some e
  | None => None
  end.

(** ** Operations *)

Definition get (store : MemoryStore) (now : Z) (key : string) (includeExpired : bool) :
    option KvRecord :=
  match store !! key with
  | None => None
  | Some entry => if negb includeExpired && isExpired now entry then None else Some (toRecord entry)
  end.

Definition put (store : MemoryStore) (now : Z) (key : string) (v : KvValue) (o : KvWriteOptions) :
    MemoryStore * KvRecord :=
  let existing := store !! key in
  let ver := version_of existing + 1 in
  let entry := makeEntry v ver (resolveExpiry now o) (opt_indexedKey o) in
  (<[key := entry]> store, toRecord entry).

Definition putIfAbsent (store : MemoryStore) (now : Z) (key : string) (v : KvValue)
    (o : KvWriteOptions) : MemoryStore * KvCasResult :=
  let existing := store !! key in
  match live_entry now existing with
  | Some e => (store, {| applied := false; record := Some (toRecord e) |})
  | None =>
      let ver := version_of existing + 1 in
      let entry := makeEntry v ver (resolveExpiry now o) (opt_indexedKey o) in
      (<[key := entry]> store, {| applied := true; record := Some (toRecord entry) |})
  end.

Definition compareAndSet (store : MemoryStore) (now : Z) (key : string) (expectedVersion : Z)
    (v : KvValue) (o : KvWriteOptions) : MemoryStore * KvCasResult :=
  let live := live_entry now (store !! key) in
  let currentVersion := version_of live in
  if negb (currentVersion =? expectedVersion)
  then (store, {| applied := false; record := toRecord <$> live |})
  else
    let entry := makeEntry v (expectedVersion + 1) (resolveExpiry now o) (opt_indexedKey o) in
    (<[key := entry]> store, {| applied := true; record := Some (toRecord entry) |}).

Definition putIfFresher (store : MemoryStore) (now : Z) (key : string) (v : KvValue)
    (incoming : Z) (idx : option string) : MemoryStore * KvCasResult :=
  let live := live_entry now (store !! key) in
  let canWrite :=
    match live with
    | None => true
    | Some e => match row_expiresAt e with None => true | Some x => x <? incoming end
    end in
  if negb canWrite then (store, {| applied := false; record := toRecord <$> live |})
  else
    let entry := makeEntry v 1 (Some incoming) idx in
    (<[key := entry]> store, {| applied := true; record := Some (toRecord entry) |}).

Definition increment (store : MemoryStore) (now : Z) (key field : string) (delta : Z)
    (o : KvWriteOptions) : result kv_error (MemoryStore * json) :=
  if negb (valid_field field) then Throw InvalidField
  else
    let existing := store !! key in
    let base := value_of existing in
    let current := numberOf true (default JNull (base !! field)) in
    let next := ofNumber ((fun n => n + delta) <$> current) in
    let newValue := <[field := next]> base in
    let ver := version_of existing + 1 in
    let e := match existing ≫= row_expiresAt with
             | Some e => Some e
             | None => resolveExpiry now o
             end in
    let entry := makeEntry newValue ver e (existing ≫= row_indexedKey) in
    Ok (<[key := entry]> store, next).

Definition delete_key (store : MemoryStore) (key : string) (expectedVersion : option Z) :
    MemoryStore * bool :=
  match store !! key with
  | None => (store, false)
  | Some existing =>
      match expectedVersion with
      | Some n => if negb (row_version existing =? n) then (store, false)
                  else (delete key store, true)
      | None => (delete key store, true)
      end
  end.

Definition queryByIndex (store : MemoryStore) (now : Z) (indexValue : string) :
    list (string * KvRecord) :=
  map (fun '(k, entry) => (k, toRecord entry))
    (List.filter (fun '(_, entry) => negb (isExpired now entry) &&
                    bool_decide (row_indexedKey entry = Some indexValue))
       (map_to_list store)).

Definition memory_step (store : MemoryStore) (now : Z) (key : string) (op : kv_op) :
    result kv_error (MemoryStore * kv_resp) :=
  match op with
  | OpGet all => Ok (store, RRecord (get store now key all))
  | OpPut v o => let '(s, r) := put store now key v o in Ok (s, RPut r)
  | OpPutIfAbsent v o => let '(s, r) := putIfAbsent store now key v o in Ok (s, RCas r)
  | OpCompareAndSet n v o => let '(s, r) := compareAndSet store now key n v o in Ok (s, RCas r)
  | OpPutIfFresher v inc idx => let '(s, r) := putIfFresher store now key v inc idx in Ok (s, RCas r)
  | OpIncrement f d o =>
      result_map (fun '(s, n) => (s, RNumber n)) (increment store now key f d o)
  | OpDelete g => let '(s, b) := delete_key store key g in Ok (s, RBool b)
  end.

(** The port as this adapter keeps it: entries live through the second of their
    expiry, and a creating [compareAndSet] over an expired entry starts again at
    version 1. *)
Definition memory_port (now : Z) (op : kv_op) (row : option KvRow) : option KvRow * kv_resp :=
  match op, row with
  | OpCompareAndSet 0 v o, Some r =>
      if lives_through now r then kv_port lives_through now op row else applies (written now v 1 o)
  | _, _ => kv_port lives_through now op row
  end.

(** Rows written by the adapter have a positive version. *)
Definition memory_inv (store : MemoryStore) : Prop :=
  forall key row, store !! key = Some row -> 0 < row_version row.

Definition memory_valid (key : string) (op : kv_op) (row : option KvRow) : Prop :=
  match op with
  | OpIncrement f _ _ => valid_field f = true /\ is_Some (numeric_field row f)
  | OpCompareAndSet n _ _ => 0 <= n
  | _ => True
  end.

#[export] Instance MemoryKvStore : KvAdapter := {
  kv_state := MemoryStore;
  kv_view s key := s !! key;
  kv_inv := memory_inv;
  kv_valid := memory_valid;
  kv_step := memory_step
}.

(** ** Lemmas *)

Lemma isExpired_lives now r : isExpired now r = negb (lives_through now r).
Proof.
  unfold isExpired, lives_through, nowSeconds. destruct (row_expiresAt r); [|done]. by rewrite Z.ltb_antisym.
Qed.

Lemma live_entry_current now existing : live_entry now existing = current lives_through now existing.
Proof.
  unfold live_entry, current. destruct existing as [r|]; [|done]. cbn [mbind option_bind].
  rewrite isExpired_lives. by destruct (lives_through now r).
Qed.

Lemma numeric_field_current row field n :
  numeric_field row field = Some n -> numberOf true (default JNull (value_of row !! field)) = Some n.
Proof. unfold numeric_field. destruct (value_of row !! field) as [[]|]; naive_solver. Qed.

Lemma memory_inv_insert s key row :
  memory_inv s -> 0 < row_version row -> memory_inv (<[key := row]> s).
Proof. intros H Hv k r [[_ <-]|[_ E]]%lookup_insert_Some; [done|by eapply H]. Qed.

Lemma memory_inv_delete s key : memory_inv s -> memory_inv (delete key s).
Proof. intros H k r [_ E]%lookup_delete_Some. by eapply H. Qed.

Lemma memory_inv_version s key : memory_inv s -> 0 <= version_of (s !! key).
Proof. intros H. destruct (s !! key) eqn:E; simpl; [specialize (H _ _ E); lia|lia]. Qed.

(** The state in which a call leaves the store. *)
Definition memory_after (s s' : MemoryStore) (key : string) (row' : option KvRow) : Prop :=
  memory_inv s' /\ s' !! key = row' /\ (forall key', key' <> key -> s' !! key' = s !! key').

Lemma memory_writes s key row : memory_inv s -> 0 < row_version row -> memory_after s (<[key := row]> s) key (Some row).
Proof.
  intros Hinv Hv. split; [by apply memory_inv_insert|]. rewrite lookup_insert_eq. split; [done|].
  intros. by rewrite lookup_insert_ne.
Qed.

Lemma memory_stays s key : memory_inv s -> memory_after s s key (s !! key).
Proof. done. Qed.

Lemma memory_deletes s key : memory_inv s -> memory_after s (delete key s) key None.
Proof.
  intros Hinv. split; [by apply memory_inv_delete|]. rewrite lookup_delete_eq. split; [done|].
  intros. by rewrite lookup_delete_ne.
Qed.

Lemma memory_get_port s now key all :
  RRecord (get s now key all) = snd (memory_port now (OpGet all) (s !! key)).
Proof.
  unfold get, memory_port, kv_port, current. destruct (s !! key) as [r|]; [|by destruct all].
  rewrite isExpired_lives. destruct all; cbn; [done|]. by destruct (lives_through now r).
Qed.

Lemma memory_cas_port s now key n v o : memory_inv s -> 0 <= n ->
  let '(s', r) := compareAndSet s now key n v o in
  memory_after s s' key (fst (memory_port now (OpCompareAndSet n v o) (s !! key))) /\
  RCas r = snd (memory_port now (OpCompareAndSet n v o) (s !! key)).
Proof.
  intros Hinv Hn. pose proof (memory_inv_version s key Hinv) as Hpos. unfold compareAndSet. rewrite live_entry_current.
  assert (memory_port now (OpCompareAndSet n v o) (s !! key) =
    if version_of (current lives_through now (s !! key)) =? n then applies (written now v (n + 1) o)
    else rejects lives_through now (s !! key)) as ->.
  { unfold memory_port, kv_port, current. destruct (s !! key) as [r|] eqn:E; cbn.
    - pose proof (Hinv _ _ E). destruct n as [|p|p]; [|destruct (lives_through now r); [|done]|lia].
      + destruct (lives_through now r); [|done]. cbn. by replace (row_version r =? 0) with false by lia.
      + cbn. by destruct (Z.eqb_spec (row_version r) (Z.pos p)) as [->|].
    - by destruct (Z.eqb_spec 0 n) as [<-|]; [|destruct n; [done|done|done]]. }
  destruct (Z.eqb_spec (version_of (current lives_through now (s !! key))) n); cbn [negb applies rejects fst snd].
  - split; [apply memory_writes; [done|cbn; lia]|done].
  - split; [by apply memory_stays|done].
Qed.

Lemma memory_absent_port s now key v o : memory_inv s ->
  let '(s', r) := putIfAbsent s now key v o in
  memory_after s s' key (fst (memory_port now (OpPutIfAbsent v o) (s !! key))) /\
  RCas r = snd (memory_port now (OpPutIfAbsent v o) (s !! key)).
Proof.
  intros Hinv. unfold putIfAbsent, memory_port, kv_port. rewrite live_entry_current. pose proof (memory_inv_version s key Hinv).
  destruct (current lives_through now (s !! key)) as [e|] eqn:E; cbn [applies rejects fst snd].
  - split; [by apply memory_stays|]. by rewrite E.
  - split; [|done]. apply memory_writes; [done|cbn; lia].
Qed.

Lemma memory_fresher_port s now key v incoming idx : memory_inv s ->
  let '(s', r) := putIfFresher s now key v incoming idx in
  memory_after s s' key (fst (memory_port now (OpPutIfFresher v incoming idx) (s !! key))) /\
  RCas r = snd (memory_port now (OpPutIfFresher v incoming idx) (s !! key)).
Proof.
  intros Hinv. unfold putIfFresher, memory_port, kv_port. rewrite live_entry_current.
  assert (fresher incoming (current lives_through now (s !! key)) =
    match current lives_through now (s !! key) with
    | None => true | Some e => match row_expiresAt e with None => true | Some x => x <? incoming end end) as ->
    by (unfold fresher; by destruct (current _ _ _)).
  destruct (match current _ _ _ with None => _ | Some _ => _ end); cbn [negb applies rejects fst snd].
  - split; [|done]. by apply memory_writes.
  - split; [by apply memory_stays|done].
Qed.

Lemma memory_increment_port s now key field delta o n : memory_inv s -> valid_field field = true ->
  numeric_field (s !! key) field = Some n ->
  let row := incremented now (s !! key) field (n + delta) o in
  increment s now key field delta o = Ok (<[key := row]> s, JNum (n + delta)).
Proof.
  intros Hinv Hf Hn row. unfold increment. rewrite Hf. cbn [negb]. by rewrite (numeric_field_current _ _ _ Hn).
Qed.

Lemma memory_delete_port s now key g : memory_inv s ->
  let '(s', b) := delete_key s key g in
  memory_after s s' key (fst (memory_port now (OpDelete g) (s !! key))) /\
  RBool b = snd (memory_port now (OpDelete g) (s !! key)).
Proof.
  intros Hinv. unfold delete_key, memory_port, kv_port. pose proof (memory_stays s key Hinv) as Hs.
  destruct (s !! key) as [r|]; [|done]. destruct g as [n|]; [|split; [by apply memory_deletes|done]].
  destruct (row_version r =? n); cbn [negb fst snd]; [split; [by apply memory_deletes|done]|done].
Qed.

(** Every call, against the port as this adapter keeps it. *)
Lemma memory_step_port s now key op : memory_inv s -> memory_valid key op (s !! key) ->
  exists s', memory_step s now key op = Ok (s', snd (memory_port now op (s !! key))) /\
    memory_after s s' key (fst (memory_port now op (s !! key))).
Proof.
  intros Hinv Hvalid. destruct op as [all|v o|v o|n v o|v inc idx|f d o|g]; cbn [memory_step memory_valid] in *.
  - exists s. rewrite (memory_get_port s now key all). split; [done|].
    replace (fst _) with (s !! key) by (destruct (s !! key), all; done). by apply memory_stays.
  - eexists. split; [done|]. pose proof (memory_inv_version s key Hinv). apply memory_writes; [done|cbn; lia].
  - pose proof (memory_absent_port s now key v o Hinv) as H. destruct (putIfAbsent s now key v o) as [s' r].
    destruct H as [Ha <-]. by exists s'.
  - pose proof (memory_cas_port s now key n v o Hinv Hvalid) as H. destruct (compareAndSet s now key n v o) as [s' r].
    destruct H as [Ha <-]. by exists s'.
  - pose proof (memory_fresher_port s now key v inc idx Hinv) as H. destruct (putIfFresher s now key v inc idx) as [s' r].
    destruct H as [Ha <-]. by exists s'.
  - destruct Hvalid as [Hf [n Hn]]. rewrite (memory_increment_port s now key f d o n Hinv Hf Hn). cbn [result_map].
    replace (memory_port now (OpIncrement f d o) (s !! key)) with
      (Some (incremented now (s !! key) f (n + d) o), RNumber (JNum (n + d)))
      by (unfold memory_port, kv_port; rewrite Hn; by destruct (s !! key)).
    pose proof (memory_inv_version s key Hinv). eexists. split; [done|]. apply memory_writes; [done|cbn; lia].
  - pose proof (memory_delete_port s now key g Hinv) as H. destruct (delete_key s key g) as [s' b].
    destruct H as [Ha <-]. by exists s'.
Qed.

(** The departure is one the common contract allows. *)
Lemma memory_port_common now op row : (forall r, row = Some r -> 0 < row_version r) -> memory_valid "" op row ->
  kv_spec now op row (fst (memory_port now op row)) (snd (memory_port now op row)).
Proof.
  intros Hpos Hvalid.
  assert (kv_spec now op row (fst (kv_port lives_through now op row)) (snd (kv_port lives_through now op row))) as Hport.
  { apply port_common; [apply lives_through_second|done|]. destruct op; try done. apply Hvalid. }
  unfold memory_port. destruct op as [| | |n v o| | |]; try done. destruct n, row as [r|]; try done.
  destruct (lives_through now r) eqn:E; [done|]. apply spec_cas_create; [|by left]. unfold may_be_absent.
  by rewrite (not_lives_live lives_through lives_through_second).
Qed.

#[export] Instance MemoryKvStore_ok : KvAdapterOk MemoryKvStore.
Proof.
  split. intros s now key op Hinv Hvalid. cbn [kv_step kv_view kv_inv MemoryKvStore kv_state] in *.
  destruct (memory_step_port s now key op Hinv Hvalid) as (s' & Hstep & Hinv' & Hrow & Hframe).
  exists s', (snd (memory_port now op (s !! key))). rewrite Hrow. split; [done|]. split; [done|]. split; [|done].
  apply memory_port_common; [by apply Hinv|done].
Qed.

Lemma memory_index_lookup s now idx : index_lookup lives_through now (fun k => s !! k) idx (queryByIndex s now idx).
Proof.
  unfold queryByIndex. split.
  - rewrite map_map, (map_ext _ fst) by (by intros []). pose proof (NoDup_fst_map_to_list s) as Hn.
    induction (map_to_list s) as [|[k r] l IH]; [constructor|]. cbn [List.filter].
    cbn [fmap list_fmap fst] in Hn. apply NoDup_cons in Hn as [Hk Hn]. destruct (_ && _); [|by apply IH].
    cbn [map fst]. apply NoDup_cons. split; [|by apply IH]. intros Hin. apply Hk.
    apply list_elem_of_fmap in Hin as (x & -> & Hx). apply list_elem_of_In, filter_In in Hx as [Hx _].
    apply list_elem_of_fmap. exists x. by rewrite list_elem_of_In.
  - intros k rec. rewrite list_elem_of_In, in_map_iff. split.
    + intros ([k' r] & [= <- <-] & [Hin Hf]%filter_In). apply list_elem_of_In, elem_of_map_to_list in Hin.
      rewrite isExpired_lives, negb_involutive in Hf. apply andb_true_iff in Hf as [Hl Hi].
      apply bool_decide_eq_true in Hi. by exists r.
    + intros (r & Hr & Hi & Hl & ->). exists (k, r). split; [done|]. apply filter_In.
      split; [by apply list_elem_of_In, elem_of_map_to_list|]. rewrite isExpired_lives, negb_involutive, Hl.
      by rewrite bool_decide_eq_true_2.
Qed.

(** ** Properties *)

(** C35 (refinement). The in-memory store does what the port documents, and one
    thing else: a creating [compareAndSet] over an expired entry restarts its
    version at 1. On a store whose rows have positive versions, with entries
    living through the second of their expiry, every call (of an increment, on
    an integer or missing field) leaves its key and answers as [kv_port] says,
    leaves other keys alone, and [queryByIndex] returns the live rows of that
    index value, each once. *)
Theorem memory_refines_port (s : MemoryStore) now key op idx :
  memory_inv s -> memory_valid key op (s !! key) ->
  (exists s' resp, memory_step s now key op = Ok (s', resp) /\ memory_inv s' /\
    (s' !! key, resp) =
      match op, s !! key with
      | OpCompareAndSet 0 v o, Some r =>
          if lives_through now r then kv_port lives_through now op (s !! key) else applies (written now v 1 o)
      | _, _ => kv_port lives_through now op (s !! key)
      end /\
    (forall key', key' <> key -> s' !! key' = s !! key')) /\
  index_lookup lives_through now (fun k => s !! k) idx (queryByIndex s now idx).
Proof.
  intros Hinv Hvalid. split; [|apply memory_index_lookup].
  destruct (memory_step_port s now key op Hinv Hvalid) as (s' & Hstep & Hinv' & Hrow & Hframe).
  exists s', (snd (memory_port now op (s !! key))). rewrite Hrow. split; [done|]. split; [done|]. split; [|done].
  fold (memory_port now op (s !! key)). by destruct (memory_port now op (s !! key)).
Qed.

Definition no_options : KvWriteOptions :=
  {| opt_ttlSeconds := None; opt_expiresAt := None; opt_indexedKey := None |}.
Definition ttl (n : Z) : KvWriteOptions :=
  {| opt_ttlSeconds := Some n; opt_expiresAt := None; opt_indexedKey := None |}.

Lemma memory_inv_empty : memory_inv ∅.
Proof. intros k r. by rewrite lookup_empty. Qed.

Lemma memory_refines_port_witness :
  let s : MemoryStore := {[ "k" := makeEntry {[ "units" := JNum 4 ]} 7 (Some 1) (Some "u") ]} in
  exists s' resp, memory_step s 5000 "k" (OpIncrement "units" 3 no_options) = Ok (s', resp) /\
    (s' !! "k", resp) = kv_port lives_through 5000 (OpIncrement "units" 3 no_options) (s !! "k").
Proof.
  intros s. destruct (memory_refines_port s 5000 "k" (OpIncrement "units" 3 no_options) "u") as [(s' & resp & H1 & _ & H2 & _) _].
  - intros k r [<- <-]%lookup_singleton_Some. reflexivity.
  - split; [reflexivity|by exists 4].
  - exists s', resp. split; [exact H1|exact H2].
Defined.

Lemma put_if_absent_single_winner_witness :
  let v : KvValue := {[ "owner" := JStr "a" ]} in
  let w : KvValue := {[ "owner" := JStr "b" ]} in
  let first := putIfAbsent ∅ 5000 "lock" v (ttl 30) in
  exists s2, @kv_calls MemoryKvStore (fst first) "lock"
      [(5000, OpPutIfAbsent w (ttl 30)); (34999, OpPutIfAbsent w (ttl 30))]
    = Ok (s2, map (fun _ => lost (record (snd first)))
        [(5000, OpPutIfAbsent w (ttl 30)); (34999, OpPutIfAbsent w (ttl 30))]) /\
    @kv_view MemoryKvStore s2 "lock" = @kv_view MemoryKvStore (fst first) "lock".
Proof.
  intros v w first.
  apply (@put_if_absent_single_winner MemoryKvStore _ (∅ : MemoryStore) "lock" 5000 v (ttl 30));
    [exact memory_inv_empty|by intros row|reflexivity|].
  apply Forall_forall. intros c [->|[->|[]%elem_of_nil]%elem_of_cons]%elem_of_cons;
    exists w, (ttl 30); (split; [reflexivity|]); (split; [by intros row|]); vm_compute; reflexivity.
Defined.

Lemma stale_compare_and_set_rejected_witness :
  let v : KvValue := {[ "status" := JStr "used" ]} in
  let s : MemoryStore := {[ "k" := makeEntry v 2 None None ]} in
  exists s1 resps s2 rec,
    @kv_calls MemoryKvStore s "k" [(0, OpPut v no_options)] = Ok (s1, resps) /\
    memory_step s1 0 "k" (OpCompareAndSet 1 v no_options) = Ok (s2, lost rec) /\
    (s2 : MemoryStore) !! "k" = (s1 : MemoryStore) !! "k".
Proof.
  intros v s. apply (@stale_compare_and_set_rejected MemoryKvStore _ s "k" 1).
  - intros k r [<- <-]%lookup_singleton_Some. simpl. lia.
  - split; vm_compute; reflexivity.
  - repeat constructor.
  - intros row. simpl. lia.
Defined.

(** A compare-and-set that requires absence, over an expired row, restarts
    the version at 1 instead of bumping it. *)
Lemma memory_cas_create_resets_version :
  let v : KvValue := ∅ in
  let s : MemoryStore := {[ "k" := makeEntry v 7 (Some 1) None ]} in
  row_version <$> (fst (compareAndSet s 5000 "k" 0 v no_options) !! "k") = Some 1 /\
    row_version <$> (fst (putIfAbsent s 5000 "k" v no_options) !! "k") = Some 8.
Proof. split; reflexivity. Qed.
