(* ===== verification/PostgresKvStore.v ===== *)
(** The Postgres record store and its expiry sweep:
    [packages/foundation/src/kv/postgres-kv-store.ts].

    The table maps [(namespace, key)] to a row; every method is the SQL
    statement of the source read as a function on the table, followed by the
    read that reports the current record when a conditional write matched no
    row. [expires_at] is a timestamp in milliseconds, as the source binds
    [new Date(seconds * 1000)]. The cast [(value ->> field)::numeric] of a
    field that does not hold a JSON integer is left to the database
    ([PgNumeric]). *)

From S2P Require Import Prelude JsString KvStore.

#[local] Open Scope string_scope.
#[local] Open Scope Z_scope.

(** ** The table *)

Record PgRow := {
  pg_value : KvValue;
  pg_version : Z;
  pg_expires_at : option Z;
  pg_indexed_key : option string
}.

Notation KvEntries := (gmap (string * string) PgRow).

Class PgNumeric := {
  numeric_cast : json -> option Z;
  numeric_cast_num : forall z, numeric_cast (JNum z) = Some z
}.

Definition expiryParam (seconds : option Z) : option Z := (fun s => s * 1000) <$> seconds.

Definition rowToRecord (row : PgRow) : KvRecord :=
  {| value := pg_value row; version := pg_version row;
     expiresAt := (fun ms => ms / 1000) <$> pg_expires_at row |}.

(** [expires_at IS NULL OR expires_at > now]. *)
Definition not_expired (now : Z) (row : PgRow) : bool :=
  match pg_expires_at row with None => true | Some e => now <? e end.

(** [expires_at IS NOT NULL AND expires_at < now]. *)
Definition expired_before (now : Z) (row : PgRow) : bool :=
  match pg_expires_at row with None => false | Some e => e <? now end.

(** [INSERT ... ON CONFLICT (namespace, key) DO UPDATE SET ... WHERE guard
    RETURNING version]: the row to insert, and the row an existing one is
    replaced by when the guard holds. [None]: no row returned. *)
Definition upsert (t : KvEntries) (pk : string * string) (ins : PgRow)
    (guard : PgRow -> bool) (upd : PgRow -> PgRow) : KvEntries * option PgRow :=
  match t !! pk with
  | None => (<[pk := ins]> t, Some ins)
  | Some old => if guard old then (<[pk := upd old]> t, Some (upd old)) else (t, None)
  end.

Definition overwrite (v : KvValue) (e : option Z) (idx : option string) (old : PgRow) : PgRow :=
  {| pg_value := v; pg_version := pg_version old + 1; pg_expires_at := e; pg_indexed_key := idx |}.

Definition fresh (v : KvValue) (e : option Z) (idx : option string) : PgRow :=
  {| pg_value := v; pg_version := 1; pg_expires_at := e; pg_indexed_key := idx |}.

Definition appliedCas (row : option PgRow) (v : KvValue) (expiry : option Z) : option KvCasResult :=
  match row with
  | None => None
  | Some r => Some {| applied := true;
                      record := Some {| value := v; version := pg_version r; expiresAt := expiry |} |}
  end.

(** ** Operations *)

Section operations.
Context `{PgNumeric} (namespace : string).

Definition get (t : KvEntries) (now : Z) (key : string) (includeExpired : bool) : option KvRecord :=
  match t !! (namespace, key) with
  | None => None
  | Some row => if includeExpired || not_expired now row then Some (rowToRecord row) else None
  end.

Definition put (t : KvEntries) (now : Z) (key : string) (v : KvValue) (o : KvWriteOptions) :
    KvEntries * KvRecord :=
  let expiry := resolveExpiry now o in
  let e := expiryParam expiry in
  let '(t', row) := upsert t (namespace, key) (fresh v e (opt_indexedKey o)) (fun _ => true)
                      (overwrite v e (opt_indexedKey o)) in
  (t', {| value := v; version := match row with Some r => pg_version r | None => 1 end;
          expiresAt := expiry |}).

(** The creation statement shared by [putIfAbsent] and [compareAndSet(0)]. *)
Definition create_or_take_over (t : KvEntries) (now : Z) (key : string) (v : KvValue)
    (o : KvWriteOptions) : KvEntries * KvCasResult :=
  let expiry := resolveExpiry now o in
  let e := expiryParam expiry in
  let '(t', row) := upsert t (namespace, key) (fresh v e (opt_indexedKey o)) (expired_before now)
                      (overwrite v e (opt_indexedKey o)) in
  match appliedCas row v expiry with
  | Some c => (t', c)
  | None => (t', {| applied := false; record := get t' now key false |})
  end.

Definition putIfAbsent := create_or_take_over.

Definition compareAndSet (t : KvEntries) (now : Z) (key : string) (expectedVersion : Z)
    (v : KvValue) (o : KvWriteOptions) : KvEntries * KvCasResult :=
  if expectedVersion =? 0 then create_or_take_over t now key v o
  else
    let expiry := resolveExpiry now o in
    let '(t', row) :=
      match t !! (namespace, key) with
      | Some old =>
          if (pg_version old =? expectedVersion) && not_expired now old then
            let new := overwrite v (expiryParam expiry) (opt_indexedKey o) old in
            (<[(namespace, key) := new]> t, Some new)
          else (t, None)
      | None => (t, None)
      end in
    match appliedCas row v expiry with
    | Some c => (t', c)
    | None => (t', {| applied := false; record := get t' now key false |})
    end.

Definition putIfFresher (t : KvEntries) (now : Z) (key : string) (v : KvValue) (incoming : Z)
    (idx : option string) : KvEntries * KvCasResult :=
  let incomingDate := incoming * 1000 in
  let guard old := match pg_expires_at old with None => true | Some e => e <? incomingDate end in
  let '(t', row) := upsert t (namespace, key) (fresh v (Some incomingDate) idx) guard
                      (overwrite v (Some incomingDate) idx) in
  match appliedCas row v (Some incoming) with
  | Some c => (t', c)
  | None => (t', {| applied := false; record := get t' now key false |})
  end.

(** [COALESCE((value ->> field)::numeric, 0)]; [None] is a failed cast. *)
Definition field_numeric (v : KvValue) (field : string) : option Z :=
  match v !! field with
  | None => Some 0
  | Some JNull => Some 0
  | Some j => numeric_cast j
  end.

Definition increment (t : KvEntries) (now : Z) (key field : string) (delta : Z)
    (o : KvWriteOptions) : result kv_error (KvEntries * json) :=
  if negb (valid_field field) then Throw InvalidField
  else
    let e := expiryParam (resolveExpiry now o) in
    match t !! (namespace, key) with
    | None =>
        let row := fresh {[ field := JNum delta ]} e None in
        Ok (<[(namespace, key) := row]> t, JNum delta)
    | Some old =>
        match field_numeric (pg_value old) field with
        | None => Throw BackendError
        | Some n =>
            let row := {| pg_value := <[field := JNum (n + delta)]> (pg_value old);
                          pg_version := pg_version old + 1;
                          pg_expires_at := match pg_expires_at old with
                                           | Some x => Some x | None => e end;
                          pg_indexed_key := pg_indexed_key old |} in
            Ok (<[(namespace, key) := row]> t, JNum (n + delta))
        end
    end.

Definition delete_key (t : KvEntries) (key : string) (expectedVersion : option Z) :
    KvEntries * bool :=
  match t !! (namespace, key) with
  | None => (t, false)
  | Some row =>
      if match expectedVersion with Some n => pg_version row =? n | None => true end
      then (delete (namespace, key) t, true) else (t, false)
  end.

Definition queryByIndex (t : KvEntries) (now : Z) (indexValue : string) :
    list (string * KvRecord) :=
  map (fun '((_, k), row) => (k, rowToRecord row))
    (List.filter (fun '((ns, _), row) => String.eqb ns namespace &&
                    bool_decide (pg_indexed_key row = Some indexValue) && not_expired now row)
       (map_to_list t)).

Definition pg_step (t : KvEntries) (now : Z) (key : string) (op : kv_op) :
    result kv_error (KvEntries * kv_resp) :=
  match op with
  | OpGet all => Ok (t, RRecord (get t now key all))
  | OpPut v o => let '(t, r) := put t now key v o in Ok (t, RPut r)
  | OpPutIfAbsent v o => let '(t, r) := putIfAbsent t now key v o in Ok (t, RCas r)
  | OpCompareAndSet n v o => let '(t, r) := compareAndSet t now key n v o in Ok (t, RCas r)
  | OpPutIfFresher v inc idx => let '(t, r) := putIfFresher t now key v inc idx in Ok (t, RCas r)
  | OpIncrement f d o => result_map (fun '(t, n) => (t, RNumber n)) (increment t now key f d o)
  | OpDelete g => let '(t, b) := delete_key t key g in Ok (t, RBool b)
  end.

Definition row_view (row : PgRow) : KvRow :=
  {| row_value := pg_value row; row_version := pg_version row;
     row_expiresAt := (fun ms => ms / 1000) <$> pg_expires_at row;
     row_indexedKey := pg_indexed_key row |}.

(** Rows written by the adapter: a positive version and a whole second. *)
Definition row_ok (row : PgRow) : Prop :=
  0 < pg_version row /\ match pg_expires_at row with Some ms => ms mod 1000 = 0 | None => True end.

Definition pg_inv (t : KvEntries) : Prop := forall pk row, t !! pk = Some row -> row_ok row.

Definition pg_valid (key : string) (op : kv_op) (row : option KvRow) : Prop :=
  match op with
  | OpIncrement f _ _ => valid_field f = true /\ is_Some (numeric_field row f)
  | OpCompareAndSet n _ _ => 0 <= n
  | _ => True
  end.

(** The port as this adapter keeps it: entries live until the second of their
    expiry begins; at that very millisecond an entry, absent for reads, still
    blocks a creation; a freshness write is compared with the stored expiry even
    of an expired row, and bumps the version of the row it replaces. *)
Definition pg_port (now : Z) (op : kv_op) (row : option KvRow) : option KvRow * kv_resp :=
  let expires_now r := bool_decide (row_expiresAt r = Some (now / 1000) /\ now mod 1000 = 0) in
  match op, row with
  | OpPutIfAbsent _ _, Some r =>
      if expires_now r then (row, lost None) else kv_port lives_until now op row
  | OpCompareAndSet 0 _ _, Some r =>
      if expires_now r then (row, lost None) else kv_port lives_until now op row
  | OpPutIfFresher v incoming idx, Some r =>
      if fresher incoming row then applies (cached v (row_version r + 1) incoming idx)
      else rejects lives_until now row
  | _, _ => kv_port lives_until now op row
  end.

#[export] Instance PostgresKvStore : KvAdapter := {
  kv_state := KvEntries;
  kv_view t key := row_view <$> t !! (namespace, key);
  kv_inv := pg_inv;
  kv_valid := pg_valid;
  kv_step := pg_step
}.
End operations.

(** [sweepExpiredKvEntries]: all namespaces at once. *)
Definition sweepExpiredKvEntries (t : KvEntries) (now : Z) : KvEntries * nat :=
  (filter (fun p => expired_before now p.2 = false) t,
   size (filter (fun p => expired_before now p.2 = true) t)).

(** ** Lemmas *)

Lemma second_expiry r ms :
  row_ok r -> pg_expires_at r = Some ms -> ms / 1000 * 1000 = ms.
Proof.
  intros [_ H] E. rewrite E in H. pose proof (Z.div_mod ms 1000 ltac:(lia)). lia.
Qed.

Lemma not_expired_lives now r : row_ok r -> not_expired now r = lives_until now (row_view r).
Proof.
  intros Hok. unfold not_expired, lives_until. cbn [row_view row_expiresAt].
  destruct (pg_expires_at r) as [ms|] eqn:E; [|done]. simpl.
  by rewrite (second_expiry r ms).
Qed.

(** Neither expired nor live: the millisecond of the expiry. *)
Lemma expired_before_facts now r : row_ok r ->
  expired_before now r = negb (lives_until now (row_view r)) &&
    negb (bool_decide (row_expiresAt (row_view r) = Some (now / 1000) /\ now mod 1000 = 0)).
Proof.
  intros Hok. unfold expired_before, lives_until. cbn [row_view row_expiresAt].
  destruct (pg_expires_at r) as [ms|] eqn:E; [|done]. simpl. pose proof (second_expiry r ms Hok E) as Hs.
  apply bool_eq_iff. rewrite andb_true_iff, !negb_true_iff, Z.ltb_lt, Z.ltb_ge, Hs, bool_decide_eq_false.
  pose proof (Z.div_mod now 1000 ltac:(lia)). split.
  - intros Hlt. split; [lia|]. intros [[= He] Hm]. lia.
  - intros [Hle Hne]. destruct (decide (ms = now)) as [->|]; [|lia]. destruct Hne. split; [done|lia].
Qed.

Lemma row_ok_written v ver sec idx :
  0 < ver -> row_ok {| pg_value := v; pg_version := ver; pg_expires_at := expiryParam sec;
                       pg_indexed_key := idx |}.
Proof.
  intros Hv. split; [done|]. destruct sec as [s|]; [|done]. simpl. by rewrite Z.mod_mul.
Qed.

Lemma view_written now v ver o :
  row_view {| pg_value := v; pg_version := ver; pg_expires_at := expiryParam (resolveExpiry now o);
              pg_indexed_key := opt_indexedKey o |} = written now v ver o.
Proof.
  unfold row_view, written. f_equal. cbn [pg_expires_at].
  destruct (resolveExpiry now o) as [s|]; [|done]. simpl. by rewrite Z.div_mul.
Qed.

Section refinement.
Context `{PgNumeric} (namespace : string).

#[local] Notation view t key := (row_view <$> t !! (namespace, key)).

Lemma get_current t now key : pg_inv t ->
  get namespace t now key false = record_of <$> current lives_until now (view t key).
Proof.
  intros Hinv. unfold get, current. destruct (t !! (namespace, key)) as [r|] eqn:E; [|done]. cbn.
  rewrite not_expired_lives by (by eapply Hinv). by destruct (lives_until now (row_view r)).
Qed.

(** The table a call leaves. *)
Definition pg_after (t t' : KvEntries) (key : string) (row' : option KvRow) : Prop :=
  pg_inv t' /\ view t' key = row' /\ (forall key', key' <> key -> view t' key' = view t key').

Lemma pg_writes t key row : pg_inv t -> row_ok row -> pg_after t (<[(namespace, key) := row]> t) key (Some (row_view row)).
Proof.
  intros Hinv Hok. split; [|split].
  - intros pk r [[_ <-]|[_ E]]%lookup_insert_Some; [done|by eapply Hinv].
  - by rewrite lookup_insert_eq.
  - intros key' Hne. rewrite lookup_insert_ne; [done|]. congruence.
Qed.

Lemma pg_stays t key : pg_inv t -> pg_after t t key (view t key).
Proof. done. Qed.

Lemma pg_deletes t key : pg_inv t -> pg_after t (delete (namespace, key) t) key None.
Proof.
  intros Hinv. split; [intros pk r [_ Hr]%lookup_delete_Some; by eapply Hinv|].
  rewrite lookup_delete_eq. split; [done|]. intros key' Hne. rewrite lookup_delete_ne; [done|]. congruence.
Qed.

(** A write of whole seconds, by its view. *)
Lemma pg_writes_row t key v ver sec idx : pg_inv t -> 0 < ver ->
  pg_after t (<[(namespace, key) := {| pg_value := v; pg_version := ver; pg_expires_at := expiryParam sec; pg_indexed_key := idx |}]> t)
    key (Some {| row_value := v; row_version := ver; row_expiresAt := sec; row_indexedKey := idx |}).
Proof.
  intros Hinv Hv. pose proof (pg_writes t key _ Hinv (row_ok_written v ver sec idx Hv)) as Hw.
  replace (row_view _) with {| row_value := v; row_version := ver; row_expiresAt := sec; row_indexedKey := idx |} in Hw; [done|].
  unfold row_view. cbn. f_equal. destruct sec; cbn; [by rewrite Z.div_mul|done].
Qed.

(** The creation statement, for either of its two callers. *)
Lemma create_port t now key v o op : pg_inv t -> op = OpPutIfAbsent v o \/ op = OpCompareAndSet 0 v o ->
  let '(t', r) := create_or_take_over namespace t now key v o in
  pg_after t t' key (fst (pg_port now op (view t key))) /\ RCas r = snd (pg_port now op (view t key)).
Proof.
  intros Hinv Hop. unfold create_or_take_over, upsert. destruct (t !! (namespace, key)) as [old|] eqn:E.
  - pose proof (Hinv _ _ E) as Hold. pose proof Hold as [Hpos _]. rewrite (expired_before_facts now old Hold).
    assert (pg_port now op (view t key) =
      if negb (lives_until now (row_view old)) && negb (bool_decide (row_expiresAt (row_view old) = Some (now / 1000) /\ now mod 1000 = 0))
      then applies (written now v (pg_version old + 1) o) else rejects lives_until now (view t key)) as Hport.
    { rewrite E. unfold pg_port, kv_port, rejects, current. cbn.
      assert (bool_decide (row_expiresAt (row_view old) = Some (now / 1000) /\ now mod 1000 = 0) = true ->
        lives_until now (row_view old) = false) as Hb.
      { intros [He Hm]%bool_decide_eq_true. unfold lives_until. cbn in *. rewrite He. pose proof (Z.div_mod now 1000 ltac:(lia)). lia. }
      destruct Hop as [->| ->]; destruct (bool_decide _); [rewrite (Hb eq_refl); done| |rewrite (Hb eq_refl); done|];
        destruct (lives_until now (row_view old)); cbn; try done.
      by replace (pg_version old =? 0) with false by lia. }
    rewrite E in Hport. cbn [fmap option_fmap option_map] in *. rewrite Hport. destruct (_ && _); cbn [appliedCas applies rejects fst snd].
    + split; [|done]. apply pg_writes_row; [done|lia].
    + rewrite (get_current t now key Hinv), E. split; [|done]. pose proof (pg_stays t key Hinv) as Hs. by rewrite E in Hs.
  - cbn [appliedCas fmap option_fmap option_map]. split; [|by destruct Hop as [->| ->]].
    replace (fst _) with (Some (written now v 1 o)) by (by destruct Hop as [->| ->]). by apply pg_writes_row.
Qed.

Lemma update_port t now key n v o : pg_inv t -> 0 <= n ->
  let '(t', r) := compareAndSet namespace t now key n v o in
  pg_after t t' key (fst (pg_port now (OpCompareAndSet n v o) (view t key))) /\
  RCas r = snd (pg_port now (OpCompareAndSet n v o) (view t key)).
Proof.
  intros Hinv Hn. unfold compareAndSet. destruct (n =? 0) eqn:En.
  { bool_hyps. subst n. apply create_port; [done|by right]. }
  bool_hyps.
  assert (pg_port now (OpCompareAndSet n v o) (view t key) =
    if version_of (current lives_until now (view t key)) =? n then applies (written now v (version_of (view t key) + 1) o)
    else rejects lives_until now (view t key)) as ->.
  { unfold pg_port. by destruct n; [lia| |lia]; destruct (view t key). }
  pose proof (get_current t now key Hinv) as Hg. pose proof (pg_stays t key Hinv) as Hs.
  destruct (t !! (namespace, key)) as [old|] eqn:E; cbn [fmap option_fmap option_map] in *.
  - pose proof (Hinv _ _ E) as Hold. rewrite (not_expired_lives now old Hold).
    assert (version_of (current lives_until now (Some (row_view old))) =
      if lives_until now (row_view old) then pg_version old else 0) as ->
      by (unfold current; cbn; by destruct (lives_until now (row_view old))).
    destruct (lives_until now (row_view old)) eqn:El; [rewrite andb_true_r|rewrite andb_false_r].
    + destruct (Z.eqb_spec (pg_version old) n) as [<-|]; cbn [appliedCas applies rejects fst snd].
      * split; [|done]. apply pg_writes_row; [done|]. destruct Hold. lia.
      * rewrite Hg. done.
    + replace (0 =? n) with false by lia. cbn [appliedCas rejects fst snd]. by rewrite Hg.
  - change (version_of (current lives_until now None)) with 0. replace (0 =? n) with false by lia.
    cbn [appliedCas rejects fst snd]. by rewrite Hg.
Qed.

Lemma fresher_port t now key v inc idx : pg_inv t ->
  let '(t', r) := putIfFresher namespace t now key v inc idx in
  pg_after t t' key (fst (pg_port now (OpPutIfFresher v inc idx) (view t key))) /\
  RCas r = snd (pg_port now (OpPutIfFresher v inc idx) (view t key)).
Proof.
  intros Hinv. unfold putIfFresher, upsert.
  pose proof (get_current t now key Hinv) as Hg. pose proof (pg_stays t key Hinv) as Hs.
  destruct (t !! (namespace, key)) as [old|] eqn:E; cbn [fmap option_fmap option_map] in *.
  - pose proof (Hinv _ _ E) as Hold. pose proof Hold as [Hpos _].
    replace (match pg_expires_at old with None => true | Some e => e <? inc * 1000 end) with (fresher inc (Some (row_view old))).
    2: { unfold fresher. cbn. destruct (pg_expires_at old) as [ms|] eqn:Em; [|done]. cbn.
         pose proof (second_expiry old ms Hold Em). apply bool_eq_iff. rewrite !Z.ltb_lt. lia. }
    unfold pg_port. destruct (fresher inc (Some (row_view old))); cbn [appliedCas applies rejects fst snd].
    + split; [|done]. apply (pg_writes_row t key v (pg_version old + 1) (Some inc)); [done|lia].
    + rewrite Hg. done.
  - cbn [appliedCas]. split; [|done]. by apply (pg_writes_row t key v 1 (Some inc)).
Qed.

Lemma increment_port t now key f d o n : pg_inv t -> valid_field f = true -> numeric_field (view t key) f = Some n ->
  exists t', increment namespace t now key f d o = Ok (t', JNum (n + d)) /\
    pg_after t t' key (Some (incremented now (view t key) f (n + d) o)).
Proof.
  intros Hinv Hf Hn. unfold increment. rewrite Hf. cbn [negb].
  destruct (t !! (namespace, key)) as [old|] eqn:E; cbn [fmap option_fmap option_map] in *.
  - assert (field_numeric (pg_value old) f = Some n) as ->.
    { unfold numeric_field in Hn. simpl in Hn. unfold field_numeric.
      destruct (pg_value old !! f) as [[]|]; simplify_eq; try done. apply numeric_cast_num. }
    pose proof (Hinv _ _ E) as [Hv He]. eexists. split; [done|]. unfold incremented. cbn.
    destruct (pg_expires_at old) as [ms|] eqn:Em; cbn.
    + pose proof (second_expiry old ms (Hinv _ _ E) Em) as Hs.
      pose proof (pg_writes_row t key (<[f := JNum (n + d)]> (pg_value old)) (pg_version old + 1) (Some (ms / 1000)) (pg_indexed_key old) Hinv) as H1.
      cbn in H1. rewrite Hs in H1. apply H1. lia.
    + apply pg_writes_row; [done|lia].
  - unfold numeric_field in Hn. cbn in Hn. rewrite lookup_empty in Hn. injection Hn as <-.
    eexists. split; [done|]. by apply pg_writes_row.
Qed.

Lemma delete_port t now key g : pg_inv t ->
  let '(t', b) := delete_key namespace t key g in
  pg_after t t' key (fst (pg_port now (OpDelete g) (view t key))) /\ RBool b = snd (pg_port now (OpDelete g) (view t key)).
Proof.
  intros Hinv. unfold delete_key, pg_port, kv_port. pose proof (pg_stays t key Hinv) as Hs.
  destruct (t !! (namespace, key)) as [old|]; cbn [fmap option_fmap option_map] in *; [|done].
  destruct g as [n|]; [|split; [by apply pg_deletes|done]]. cbn [row_view row_version].
  destruct (pg_version old =? n); [split; [by apply pg_deletes|done]|done].
Qed.

(** Every call, against the port as this adapter keeps it. *)
Lemma pg_step_port t now key op : pg_inv t -> pg_valid key op (view t key) ->
  exists t', pg_step namespace t now key op = Ok (t', snd (pg_port now op (view t key))) /\
    pg_after t t' key (fst (pg_port now op (view t key))).
Proof.
  intros Hinv Hvalid. destruct op as [all|v o|v o|n v o|v inc idx|f d o|g]; cbn [pg_step pg_valid] in *.
  - exists t. replace (pg_port now (OpGet all) (view t key)) with (kv_port lives_until now (OpGet all) (view t key)) by done.
    pose proof (get_current t now key Hinv) as Hg. destruct all; cbn [kv_port fst snd]; [|by rewrite Hg].
    split; [|by apply pg_stays]. unfold get. by destruct (t !! (namespace, key)).
  - unfold put, upsert. destruct (t !! (namespace, key)) as [old|] eqn:E; eexists; (split; [done|]); cbn.
    + apply pg_writes_row; [done|]. destruct (Hinv _ _ E). lia.
    + by apply pg_writes_row.
  - pose proof (create_port t now key v o _ Hinv (or_introl eq_refl)) as H1. unfold putIfAbsent.
    destruct (create_or_take_over namespace t now key v o) as [t' r]. destruct H1 as [Ha <-]. by exists t'.
  - pose proof (update_port t now key n v o Hinv Hvalid) as H1.
    destruct (compareAndSet namespace t now key n v o) as [t' r]. destruct H1 as [Ha <-]. by exists t'.
  - pose proof (fresher_port t now key v inc idx Hinv) as H1.
    destruct (putIfFresher namespace t now key v inc idx) as [t' r]. destruct H1 as [Ha <-]. by exists t'.
  - destruct Hvalid as [Hf [n Hn]]. destruct (increment_port t now key f d o n Hinv Hf Hn) as (t' & -> & Ha). cbn [result_map].
    exists t'. unfold pg_port, kv_port. rewrite Hn. by destruct (view t key).
  - pose proof (delete_port t now key g Hinv) as H1. destruct (delete_key namespace t key g) as [t' b].
    destruct H1 as [Ha <-]. by exists t'.
Qed.

(** The departures are among those the common contract allows. *)
Lemma pg_port_common now op row : (forall r, row = Some r -> 0 < row_version r) -> pg_valid "" op row ->
  kv_spec now op row (fst (pg_port now op row)) (snd (pg_port now op row)).
Proof.
  intros Hpos Hvalid.
  assert (kv_spec now op row (fst (kv_port lives_until now op row)) (snd (kv_port lives_until now op row))) as Hport.
  { apply port_common; [apply lives_until_second|done|]. destruct op; try done. apply Hvalid. }
  assert (forall r, row = Some r -> row_expiresAt r = Some (now / 1000) /\ now mod 1000 = 0 ->
    live_at now r = false /\ dead_at now r = false) as Hedge.
  { intros r _ [He Hm]. unfold live_at, dead_at. rewrite He. pose proof (Z.div_mod now 1000 ltac:(lia)). lia. }
  destruct op as [| |v o|n v o|v inc idx| |]; try done; cbn [pg_port]; (destruct row as [r|]; [|by try destruct n]).
  - destruct (bool_decide_reflect (row_expiresAt r = Some (now / 1000) /\ now mod 1000 = 0)) as [He|]; [|done].
    destruct (Hedge r eq_refl He). apply spec_absent_lose; [done|by apply reported_dead].
  - destruct n; try done.
    destruct (bool_decide_reflect (row_expiresAt r = Some (now / 1000) /\ now mod 1000 = 0)) as [He|]; [|done].
    destruct (Hedge r eq_refl He). apply spec_cas_lose; [by right|by apply reported_dead].
  - destruct (fresher inc (Some r)) eqn:Ef; cbn [applies rejects fst snd].
    + apply spec_fresher_win; [right|by right]. unfold fresher in Ef. cbn in Ef. destruct (row_expiresAt r); [lia|done].
    + unfold fresher in Ef. cbn in Ef. destruct (row_expiresAt r) as [e|] eqn:Ee; [|done].
      eapply spec_fresher_lose; [done|lia|]. apply current_reported, lives_until_second.
Qed.

#[export] Instance PostgresKvStore_ok : KvAdapterOk (PostgresKvStore namespace).
Proof.
  split. intros t now key op Hinv Hvalid. cbn [kv_step kv_view kv_inv PostgresKvStore kv_state kv_valid] in *.
  destruct (pg_step_port t now key op Hinv Hvalid) as (t' & Hstep & Hinv' & Hrow & Hframe).
  exists t', (snd (pg_port now op (view t key))). rewrite Hrow. split; [done|]. split; [done|]. split; [|done].
  apply pg_port_common; [|done]. intros r Hr. destruct (t !! (namespace, key)) as [old|] eqn:E; [|done].
  injection Hr as <-. apply (Hinv _ _ E).
Qed.
End refinement.

Lemma queryByIndex_elem namespace t now idx k r :
  (k, r) ∈ queryByIndex namespace t now idx <->
  exists row, t !! (namespace, k) = Some row /\ pg_indexed_key row = Some idx /\
    not_expired now row = true /\ r = rowToRecord row.
Proof.
  unfold queryByIndex. rewrite list_elem_of_In, in_map_iff. split.
  - intros ([[ns k'] row] & [= <- <-] & [Hin Hf]%List.filter_In).
    apply list_elem_of_In, elem_of_map_to_list in Hin. bool_hyps.
    apply String.eqb_eq in H. subst ns. eauto.
  - intros (row & Hrow & Hidx & Hne & ->). exists (namespace, k, row). split; [done|].
    apply List.filter_In. split; [by apply list_elem_of_In, elem_of_map_to_list|].
    rewrite String.eqb_refl, Hne. by rewrite bool_decide_eq_true_2.
Qed.

Lemma queryByIndex_keys namespace t now idx : NoDup (map fst (queryByIndex namespace t now idx)).
Proof.
  unfold queryByIndex. rewrite map_map. pose proof (NoDup_fst_map_to_list t) as Hn.
  induction (map_to_list t) as [|[[ns k] r] l IH]; [constructor|]. cbn [List.filter].
  cbn [fmap list_fmap fst] in Hn. apply NoDup_cons in Hn as [Hk Hn].
  destruct (String.eqb_spec ns namespace) as [->|]; cbn [andb]; [|by apply IH]. destruct (_ && _); [|by apply IH].
  cbn [map fst]. apply NoDup_cons. split; [|by apply IH]. intros Hin. apply Hk.
  apply list_elem_of_fmap in Hin as ([[ns' k'] r'] & He & Hx). cbn in He. subst k'.
  apply list_elem_of_In, filter_In in Hx as [Hx Hf]. bool_hyps. apply String.eqb_eq in H. subst ns'.
  apply list_elem_of_fmap. exists (namespace, k, r'). by rewrite list_elem_of_In.
Qed.

Lemma pg_index_lookup namespace t now idx : pg_inv t ->
  index_lookup lives_until now (fun k => row_view <$> t !! (namespace, k)) idx (queryByIndex namespace t now idx).
Proof.
  intros Hinv. split; [apply queryByIndex_keys|]. intros k rec. rewrite queryByIndex_elem. split.
  - intros (row & Hrow & Hi & Hl & ->). exists (row_view row). rewrite Hrow, <- not_expired_lives by (by eapply Hinv). done.
  - intros (r & Hr & Hi & Hl & ->). apply fmap_Some in Hr as (row & Hrow & ->). exists row.
    rewrite not_expired_lives by (by eapply Hinv). done.
Qed.

(** ** Properties *)

(** C34 (refinement). The Postgres store does what the port documents, with
    three departures: at the very millisecond of its expiry an entry, absent for
    reads, still blocks a creation; a freshness write is compared with the stored
    expiry even of an expired row; and it bumps the version instead of restarting
    it. On a table its adapters wrote, with entries living until the second of
    their expiry begins, every call (of an increment, on an integer or missing
    field) leaves its key and answers so and leaves the other keys alone;
    [queryByIndex] returns the live rows of that index value, each once. *)
Theorem postgres_refines_port `{PgNumeric} (namespace : string) (t : KvEntries) (now : Z) (key : string)
    (op : kv_op) (idx : string) :
  let view (t : KvEntries) (k : string) := row_view <$> t !! (namespace, k) in
  let expires_now r := bool_decide (row_expiresAt r = Some (now / 1000) /\ now mod 1000 = 0) in
  pg_inv t -> pg_valid key op (view t key) ->
  (exists t' resp, pg_step namespace t now key op = Ok (t', resp) /\ pg_inv t' /\
    (view t' key, resp) =
      match op, view t key with
      | OpPutIfAbsent _ _, Some r =>
          if expires_now r then (view t key, lost None) else kv_port lives_until now op (view t key)
      | OpCompareAndSet 0 _ _, Some r =>
          if expires_now r then (view t key, lost None) else kv_port lives_until now op (view t key)
      | OpPutIfFresher v incoming idx, Some r =>
          if fresher incoming (view t key) then applies (cached v (row_version r + 1) incoming idx)
          else rejects lives_until now (view t key)
      | _, _ => kv_port lives_until now op (view t key)
      end /\
    (forall key', key' <> key -> view t' key' = view t key')) /\
  index_lookup lives_until now (view t) idx (queryByIndex namespace t now idx).
Proof.
  intros view expires_now Hinv Hvalid. split; [|by apply pg_index_lookup].
  destruct (pg_step_port namespace t now key op Hinv Hvalid) as (t' & Hstep & Hinv' & Hrow & Hframe).
  exists t', (snd (pg_port now op (view t key))). change (row_view <$> t' !! (namespace, key)) with (view t' key) in Hrow.
  rewrite Hrow. split; [done|]. split; [done|]. split; [|done].
  transitivity (pg_port now op (view t key)); [symmetry; apply surjective_pairing|reflexivity].
Qed.

Definition integers_only : PgNumeric :=
  {| numeric_cast := fun j => match j with JNum z => Some z | _ => None end;
     numeric_cast_num := fun _ => eq_refl |}.

Lemma pg_inv_empty : pg_inv ∅.
Proof. intros pk r. by rewrite lookup_empty. Qed.

Definition no_options : KvWriteOptions :=
  {| opt_ttlSeconds := None; opt_expiresAt := None; opt_indexedKey := None |}.
Definition ttl (n : Z) : KvWriteOptions :=
  {| opt_ttlSeconds := Some n; opt_expiresAt := None; opt_indexedKey := None |}.

Lemma postgres_refines_port_witness :
  let t : KvEntries := {[ ("costtrack", "k") := {| pg_value := {[ "units" := JNum 4 ]}; pg_version := 7;
                                                   pg_expires_at := Some 1000; pg_indexed_key := Some "u" |} ]} in
  let op := OpIncrement "units" 3 no_options in
  exists t' resp, @pg_step integers_only "costtrack" t 5000 "k" op = Ok (t', resp) /\
    (row_view <$> t' !! ("costtrack", "k"), resp) = kv_port lives_until 5000 op (row_view <$> t !! ("costtrack", "k")).
Proof.
  intros t op.
  destruct (@postgres_refines_port integers_only "costtrack" t 5000 "k" op "u") as [(t' & resp & H1 & _ & H2 & _) _].
  - intros pk r [<- <-]%lookup_singleton_Some. split; reflexivity.
  - split; [reflexivity|by exists 4].
  - exists t', resp. split; [exact H1|exact H2].
Defined.

Lemma sweep_lookup t now pk row :
  fst (sweepExpiredKvEntries t now) !! pk = Some row <->
  t !! pk = Some row /\ expired_before now row = false.
Proof. unfold sweepExpiredKvEntries. cbn [fst]. by rewrite map_lookup_filter_Some. Qed.

Lemma not_expired_survives t now now' pk row :
  now <= now' -> t !! pk = Some row -> not_expired now' row = true ->
  fst (sweepExpiredKvEntries t now) !! pk = Some row.
Proof.
  intros Hle Hrow Hne. apply sweep_lookup. split; [done|]. unfold not_expired, expired_before in *.
  destruct (pg_expires_at row); [lia|done].
Qed.

(** Also (safety). The sweep deletes no row without an expiry and is invisible
    to reads: from the time it runs, expiry-aware [get] and [queryByIndex]
    answer in every namespace as if it had not run. *)
Theorem sweep_invisible_to_reads t now now' namespace key idx :
  now <= now' ->
  let t' := fst (sweepExpiredKvEntries t now) in
  get namespace t' now' key false = get namespace t now' key false /\
  (forall k r, (k, r) ∈ queryByIndex namespace t' now' idx <->
               (k, r) ∈ queryByIndex namespace t now' idx) /\
  (forall pk row, t !! pk = Some row -> pg_expires_at row = None -> t' !! pk = Some row).
Proof.
  intros Hle t'. split; [|split].
  - unfold get. destruct (t' !! (namespace, key)) as [row|] eqn:E.
    + by apply sweep_lookup in E as [-> _].
    + destruct (t !! (namespace, key)) as [row|] eqn:Et; [|done]. simpl.
      destruct (not_expired now' row) eqn:Hne; [|done].
      pose proof (not_expired_survives _ _ _ _ _ Hle Et Hne). unfold t' in E. congruence.
  - intros k r. rewrite !queryByIndex_elem. split; intros (row & Hrow & Hi & Hne & ->); exists row.
    + apply sweep_lookup in Hrow as [Hrow _]. done.
    + repeat split; try done. by eapply not_expired_survives.
  - intros pk row Hrow He. apply sweep_lookup. split; [done|]. unfold expired_before. by rewrite He.
Qed.

Lemma sweep_invisible_to_reads_witness :
  let t : KvEntries := {[ ("cron", "k") := fresh ∅ (Some 4000) None ]} in
  get "cron" (fst (sweepExpiredKvEntries t 5000)) 6000 "k" false = get "cron" t 6000 "k" false.
Proof. intros t. apply (sweep_invisible_to_reads t 5000 6000 "cron" "k" ""). lia. Defined.

(** Finding (safety). The sweep is visible to lock tokens: a version restarts at 1
    after a row is swept, so a crashed holder's version-guarded delete, which
    an expired take-over alone would defeat, releases the lock of the next
    holder once the sweep has run in between. *)
Theorem sweep_reuses_lock_version :
  let lock t now := putIfAbsent "cron" t now "job" ∅ (ttl 10) in
  let release t := delete_key "cron" t "job" (Some 1) in
  let held := fst (lock ∅ 0) in
  let swept := fst (sweepExpiredKvEntries held 20000) in
  snd (release (fst (lock held 20000))) = false /\
  snd (release (fst (lock swept 20000))) = true /\
  get "cron" (fst (release (fst (lock swept 20000)))) 20000 "job" false = None.
Proof. vm_compute. repeat split. Qed.

(** In the millisecond in which it expires, an entry is absent for [get] and
    still blocks [putIfAbsent], which then reports no record at all. *)
Lemma boundary_blocks_creation :
  let t : KvEntries := {[ ("cron", "job") := fresh ∅ (Some 10000) None ]} in
  get "cron" t 10000 "job" false = None /\
  snd (putIfAbsent "cron" t 10000 "job" ∅ (ttl 10)) = {| applied := false; record := None |}.
Proof. vm_compute. split; reflexivity. Qed.
