(* ===== verification/DynamoDb.v ===== *)
(** DynamoDB as the source uses it, and the retry policy of
    [packages/foundation/src/_internal/retry.ts].

    The service is not part of the repository: it is the class [DynamoDB],
    whose law [ddb_send_spec] states the documented effect of the four commands
    the stores send, on the items of one table. [in_memory_ddb] is a concrete
    instance. Reads are strongly consistent. A store method is a [prog]: the
    commands it sends and the clock readings it makes, in order, with what it
    does next as continuations; [run_prog] runs one method alone (with replies
    and requests that may be lost), [thread_step] lets several interleave. *)

From S2P Require Import Prelude JsString KvStore.

#[local] Open Scope string_scope.
#[local] Open Scope Z_scope.

(** ** Commands and their documented effect *)

Notation item := (gmap string json).

Inductive ddb_cond :=
| CTrue
| CNotExists (attr : string)
| CEq (attr : string) (z : Z)
| CNotExistsOrLess (attr : string) (z : Z).

Inductive ddb_req :=
| GetItem (pk : string)
| PutItem (pk : string) (it : item) (c : ddb_cond)
| UpdateAdd (pk : string) (key_attrs : item) (adds : list (string * Z))
    (set_once : option (string * Z))
| DeleteItem (pk : string) (c : ddb_cond).

Inductive ddb_error := ConditionalCheckFailed | ValidationException | Unavailable.

Definition eval_cond (c : ddb_cond) (it : option item) : bool :=
  match c with
  | CTrue => true
  | CNotExists a => match it ≫= lookup a with None => true | Some _ => false end
  | CEq a z => match it ≫= lookup a with Some (JNum x) => x =? z | _ => false end
  | CNotExistsOrLess a z =>
      match it ≫= lookup a with
      | None => true
      | Some (JNum x) => x <? z
      | Some _ => false
      end
  end.

(** [ADD a :d] on an item; [None] when the attribute is not a number. *)
Definition add_attr (it : item) (a : string) (d : Z) : option item :=
  match it !! a with
  | None => Some (<[a := JNum d]> it)
  | Some (JNum z) => Some (<[a := JNum (z + d)]> it)
  | Some _ => None
  end.

Fixpoint add_attrs (it : item) (adds : list (string * Z)) : option item :=
  match adds with
  | [] => Some it
  | (a, d) :: rest => it' ← add_attr it a d; add_attrs it' rest
  end.

(** The paths of one update expression must not overlap, nor touch the key. *)
Definition paths_ok (key_attrs : item) (adds : list (string * Z)) (s : option (string * Z)) : bool :=
  let paths := (map fst adds ++ option_list (fst <$> s))%list in
  bool_decide (NoDup paths) && forallb (fun a => bool_decide (key_attrs !! a = None)) paths.

Definition ddb_effect (m : gmap string item) (r : ddb_req) :
    gmap string item * result ddb_error (option item) :=
  match r with
  | GetItem pk => (m, Ok (m !! pk))
  | PutItem pk it c =>
      if eval_cond c (m !! pk) then (<[pk := it]> m, Ok None) else (m, Throw ConditionalCheckFailed)
  | UpdateAdd pk key_attrs adds s =>
      if paths_ok key_attrs adds s then
        match add_attrs (default key_attrs (m !! pk)) adds with
        | None => (m, Throw ValidationException)
        | Some it =>
            let it' := match s with
                       | Some (a, z) => match it !! a with
                                        | None => <[a := JNum z]> it
                                        | Some _ => it
                                        end
                       | None => it
                       end in
            (<[pk := it']> m, Ok (Some it'))
        end
      else (m, Throw ValidationException)
  | DeleteItem pk c =>
      if eval_cond c (m !! pk) then (delete pk m, Ok (m !! pk)) else (m, Throw ConditionalCheckFailed)
  end.

Class DynamoDB := {
  ddb : Type;
  ddb_items : ddb -> gmap string item;
  ddb_send : ddb -> ddb_req -> ddb * result ddb_error (option item);
  ddb_send_spec : forall d r,
    (ddb_items (fst (ddb_send d r)), snd (ddb_send d r)) = ddb_effect (ddb_items d) r
}.

Definition in_memory_ddb : DynamoDB.
Proof.
  refine {| ddb := gmap string item; ddb_items := fun m => m; ddb_send := ddb_effect;
            ddb_send_spec := _ |}.
  intros d r. by destruct (ddb_effect d r).
Defined.

(** ** The retry policy *)

Definition TERMINAL_ERROR_NAMES : list string :=
  ["NoSuchKey"; "NotFound"; "ResourceNotFoundException"; "ConditionalCheckFailedException";
   "AccessDeniedException"; "InvalidSignatureException"].

Definition isTransientError (name : option string) : bool :=
  match name with
  | Some n => negb ((0 <? String.length n)%nat && existsb (String.eqb n) TERMINAL_ERROR_NAMES)
  | None => true
  end.

Definition error_name (e : ddb_error) : string :=
  match e with
  | ConditionalCheckFailed => "ConditionalCheckFailedException"
  | ValidationException => "ValidationException"
  | Unavailable => "ServiceUnavailable"
  end.

Definition isConditionalCheckFailed (e : ddb_error) : bool :=
  String.eqb (error_name e) "ConditionalCheckFailedException".

(** [maxAttempts] of [transientRetry]: retries after the first call. *)
Definition transientRetry_maxAttempts : nat := 3.

(** ** Methods as programs *)

Inductive prog (A : Type) :=
| Ret (a : A)
| Raise (e : kv_error)
| Now (k : Z -> prog A)
| Send (r : ddb_req) (k : result ddb_error (option item) -> prog A).
Arguments Ret {A} a.
Arguments Raise {A} e.
Arguments Now {A} k.
Arguments Send {A} r k.

Definition lift {A B} (m : result kv_error A) (k : A -> prog B) : prog B :=
  match m with Ok a => k a | Throw e => Raise e end.

(** What becomes of one request: it arrives and is answered, it is lost, or
    it arrives and the reply is lost. An empty list: all arrive. *)
Inductive delivery := Delivered | LostRequest | LostReply.

Section service.
Context `{DynamoDB}.

Definition deliver (env : list delivery) (d : ddb) (r : ddb_req) :
    list delivery * ddb * result ddb_error (option item) :=
  match env with
  | [] => let '(d', res) := ddb_send d r in ([], d', res)
  | Delivered :: env' => let '(d', res) := ddb_send d r in (env', d', res)
  | LostRequest :: env' => (env', d, Throw Unavailable)
  | LostReply :: env' => (env', fst (ddb_send d r), Throw Unavailable)
  end.

(** [transientRetry.execute(() => client.send(r))]. *)
Fixpoint send_retry (retries : nat) (env : list delivery) (d : ddb) (r : ddb_req) :
    list delivery * ddb * result ddb_error (option item) :=
  let '(env', d', res) := deliver env d r in
  match res with
  | Ok x => (env', d', Ok x)
  | Throw e =>
      if isTransientError (Some (error_name e)) then
        match retries with
        | O => (env', d', Throw e)
        | S n => send_retry n env' d' r
        end
      else (env', d', Throw e)
  end.

Fixpoint run_prog {A} (p : prog A) (now : Z) (env : list delivery) (d : ddb) :
    ddb * result kv_error A :=
  match p with
  | Ret a => (d, Ok a)
  | Raise e => (d, Throw e)
  | Now k => run_prog (k now) now env d
  | Send r k =>
      let '(env', d', res) := send_retry transientRetry_maxAttempts env d r in
      run_prog (k res) now env' d'
  end.

(** One transition of a method that runs beside others. *)
Definition thread_step {A} (now : Z) (d : ddb) (p : prog A) : ddb * prog A :=
  match p with
  | Ret _ => (d, p)
  | Raise _ => (d, p)
  | Now k => (d, k now)
  | Send r k => let '(d', res) := ddb_send d r in (d', k res)
  end.

(** [threads] scheduled by index, each step at its own clock reading. *)
Fixpoint run_threads {A} (sched : list (nat * Z)) (d : ddb) (threads : list (prog A)) :
    ddb * list (prog A) :=
  match sched with
  | [] => (d, threads)
  | (i, now) :: rest =>
      match threads !! i with
      | None => run_threads rest d threads
      | Some p =>
          let '(d', p') := thread_step now d p in
          run_threads rest d' (<[i := p']> threads)
      end
  end.

(** ** Lemmas *)

Lemma ddb_send_effect d r m res :
  ddb_effect (ddb_items d) r = (m, res) ->
  exists d', ddb_send d r = (d', res) /\ ddb_items d' = m.
Proof.
  intros E. pose proof (ddb_send_spec d r) as S. rewrite E in S.
  destruct (ddb_send d r) as [d' res']. cbn [fst snd] in S. exists d'. split; congruence.
Qed.

(** Without losses, a request that succeeds or fails its condition is sent
    once. *)
Lemma send_retry_effect n d r m res :
  ddb_effect (ddb_items d) r = (m, res) -> (forall e, res = Throw e -> e = ConditionalCheckFailed) ->
  exists d', send_retry n [] d r = ([], d', res) /\ ddb_items d' = m.
Proof.
  intros E Hres. destruct (ddb_send_effect _ _ _ _ E) as (d' & Hs & Hd). exists d'. split; [|done].
  destruct n; cbn [send_retry deliver]; rewrite Hs;
    (destruct res as [x|e]; [done|]; by rewrite (Hres e eq_refl)).
Qed.

Lemma run_send {A} d r m res (k : _ -> prog A) now :
  ddb_effect (ddb_items d) r = (m, res) -> (forall e, res = Throw e -> e = ConditionalCheckFailed) ->
  exists d', run_prog (Send r k) now [] d = run_prog (k res) now [] d' /\ ddb_items d' = m.
Proof.
  intros E Hres. destruct (send_retry_effect transientRetry_maxAttempts _ _ _ _ E Hres) as (d' & Hs & Hd).
  exists d'. split; [|done]. cbn [run_prog]. by rewrite Hs.
Qed.
(** Only the items of the table matter to what follows. *)
Lemma ddb_send_items d1 d2 r :
  ddb_items d1 = ddb_items d2 ->
  snd (ddb_send d1 r) = snd (ddb_send d2 r) /\
  ddb_items (fst (ddb_send d1 r)) = ddb_items (fst (ddb_send d2 r)).
Proof.
  intros E. pose proof (ddb_send_spec d1 r) as S1. pose proof (ddb_send_spec d2 r) as S2.
  rewrite E in S1. rewrite <- S2 in S1. by injection S1.
Qed.

Lemma send_retry_items n : forall env d1 d2 r,
  ddb_items d1 = ddb_items d2 ->
  let '(env1, d1', res1) := send_retry n env d1 r in
  let '(env2, d2', res2) := send_retry n env d2 r in
  env1 = env2 /\ res1 = res2 /\ ddb_items d1' = ddb_items d2'.
Proof.
  induction n as [|n IH]; intros env d1 d2 r E; destruct (ddb_send_items d1 d2 r E) as [Hr Hd];
    cbn [send_retry]; unfold deliver; destruct env as [|[]];
    destruct (ddb_send d1 r) as [d1' res1], (ddb_send d2 r) as [d2' res2]; cbn [fst snd] in *; subst;
    try (destruct res2 as [x|e]; [done|]; destruct (isTransientError _)); try done; by apply IH.
Qed.

Lemma run_prog_items {A} (p : prog A) now : forall env d1 d2,
  ddb_items d1 = ddb_items d2 ->
  snd (run_prog p now env d1) = snd (run_prog p now env d2) /\
  ddb_items (fst (run_prog p now env d1)) = ddb_items (fst (run_prog p now env d2)).
Proof.
  induction p as [a|e|k IH|r k IH]; intros env d1 d2 E; cbn [run_prog fst snd]; [done|done|by apply IH|].
  pose proof (send_retry_items transientRetry_maxAttempts env d1 d2 r E) as Hs.
  destruct (send_retry _ env d1 r) as [[env1 d1'] res1], (send_retry _ env d2 r) as [[env2 d2'] res2].
  destruct Hs as (-> & -> & Hd). by apply IH.
Qed.
End service.
