(* ===== verification/Retry.v ===== *)
(** The retry policy around any operation: foundation [_internal/retry.ts].

    An operation acts on the state of a service. Each attempt at it is served,
    refused on the way, or served without the caller learning of it; a failure
    by a name that is not terminal is tried again. ([DynamoDb] has the same
    policy around its own commands.) *)

From S2P Require Import Prelude.
From S2P Require Import DynamoDb.

Module Retry.

(** ** Attempts *)

Inductive delivery := Served | NotServed (name : option string) | ServedUnseen (name : option string).

Fixpoint retrying {W X} (retries : nat) (op : W -> W * result (option string) X) (ds : list delivery) (w : W) :
    W * result (option string) X * list delivery :=
  let '(d, rest) := match ds with [] => (Served, []) | d :: r => (d, r) end in
  let '(w1, r) := match d with
                  | Served => op w
                  | NotServed name => (w, Throw name)
                  | ServedUnseen name => (fst (op w), Throw name)
                  end in
  match r with
  | Ok x => (w1, Ok x, rest)
  | Throw name =>
      if isTransientError name
      then match retries with O => (w1, Throw name, rest) | S n => retrying n op rest w1 end
      else (w1, Throw name, rest)
  end.

Definition transientRetry {W X} := @retrying W X transientRetry_maxAttempts.

(** ** Repetition *)

(** An operation that repeated has the effect it has once. *)
Definition idempotent {W X} (op : W -> W * result (option string) X) : Prop := forall w, fst (op (fst (op w))) = fst (op w).

Lemma retrying_spec {W X} (op : W -> W * result (option string) X) : idempotent op ->
  (forall w, snd (op (fst (op w))) = snd (op w)) ->
  forall n ds w, let '(w', r, _) := retrying n op ds w in
    (w' = w \/ w' = fst (op w)) /\ match r with Ok x => w' = fst (op w) /\ snd (op w) = Ok x | Throw _ => True end.
Proof.
  intros Hi Hr n. induction n as [|n IH]; intros ds w; cbn [retrying];
    destruct (match ds with [] => (Served, []) | d :: r => (d, r) end) as [d rest];
    destruct d as [|name|name]; try rewrite (surjective_pairing (op w)); cbn [fst snd].
  1,4: destruct (snd (op w)) as [x|nm] eqn:E; [by split; [right|]|]; destruct (DynamoDb.isTransientError nm); [|by split; [right|]].
  all: try (destruct (DynamoDb.isTransientError name); [|by split; [(left + right)|]]).
  all: try (by split; [(left + right)|]).
  - specialize (IH rest (fst (op w))). destruct (retrying n op rest (fst (op w))) as [[w' r] rs]. rewrite Hi, Hr in IH.
    destruct IH as [IH1 IH2]. split; [right; by destruct IH1|]. destruct r; [|done]. destruct IH2 as [-> He]. split; [done|congruence].
  - specialize (IH rest w). by destruct (retrying n op rest w) as [[w' r] rs].
  - specialize (IH rest (fst (op w))). destruct (retrying n op rest (fst (op w))) as [[w' r] rs]. rewrite Hi, Hr in IH.
    destruct IH as [IH1 IH2]. split; [right; by destruct IH1|]. destruct r; [|done]. destruct IH2 as [-> He]. split; [done|congruence].
Qed.

(** Asking a service that gives its answers in a fixed order. *)
Definition asking {X} (answer : nat -> result (option string) X) (n : nat) : nat * result (option string) X := (S n, answer n).

Definition again {X} (r : result (option string) X) : bool := match r with Ok _ => false | Throw name => isTransientError name end.

(** The first answer that is not to be tried again, or the last allowed. *)
Lemma retrying_first {X} (answer : nat -> result (option string) X) retries : forall n,
  exists k, (k <= retries)%nat /\ (forall j, (j < k)%nat -> again (answer (n + j)%nat) = true) /\
    (k = retries \/ again (answer (n + k)%nat) = false) /\
    retrying retries (asking answer) [] n = (S (n + k), answer (n + k)%nat, []).
Proof.
  induction retries as [|r IH]; intros n; cbn [retrying asking].
  - exists 0%nat. rewrite Nat.add_0_r. split; [lia|]. split; [lia|]. split; [by left|].
    destruct (answer n) as [x|name]; [done|]. by destruct (isTransientError name).
  - destruct (again (answer n)) eqn:E.
    + destruct (IH (S n)) as (k & Hk & Hbefore & Hlast & Hrun). exists (S k). rewrite <- plus_n_Sm in *.
      split; [lia|]. split; [|split; [destruct Hlast; [left; lia|by right]|]].
      * intros [|j] Hj; [by rewrite Nat.add_0_r|]. rewrite <- plus_n_Sm. apply (Hbefore j). lia.
      * destruct (answer n) as [x|name]; [done|]. cbn [again] in E. by rewrite E.
    + exists 0%nat. rewrite Nat.add_0_r. split; [lia|]. split; [lia|]. split; [by right|].
      destruct (answer n) as [x|name]; [done|]. cbn [again] in E. by rewrite E.
Qed.
End Retry.
