(* ===== verification/DynamoKvStore.v ===== *)
(** The DynamoDB record store:
    [packages/foundation/src/kv/dynamo-kv-store.ts].

    A record is one item whose top-level attributes are the fields of the
    value plus the reserved attributes of the layout. Every method is a
    [prog] over the service of [DynamoDb]; at rest, without lost messages, it
    is an adapter of the port ([DynamoKvStore]); [putIfAbsent], the one method
    of several commands whose outcome matters under concurrency, is also run
    interleaved. The version attribute of an item is a number or missing. *)

From S2P Require Import Prelude JsString KvStore DynamoDb.

#[local] Open Scope string_scope.
#[local] Open Scope Z_scope.

(** ** The layout *)

Record DynamoKvIndex := { ix_name : string; ix_pkAttr : string; ix_skAttr : option string }.

Record DynamoKvLayout := {
  tableName : string;
  pkPrefix : string;
  pkSeparator : string;
  allowSeparatorInKey : bool;
  skName : option string;
  skValue : string;
  ttlAttr : string;
  versionAttr : string;
  index : option DynamoKvIndex
}.

Definition PARTITION_ATTR : string := "pk".

Section store.
Context (L : DynamoKvLayout).

Definition index_attrs (ix : option DynamoKvIndex) : list string :=
  match ix with
  | Some ix => ix_pkAttr ix :: option_list (ix_skAttr ix)
  | None => []
  end.

Definition reserved : list string :=
  (PARTITION_ATTR :: option_list (skName L) ++ [versionAttr L; ttlAttr L] ++ index_attrs (index L))%list.

Definition is_reserved (field : string) : bool := existsb (String.eqb field) reserved.

(** ** Pure helpers *)

Definition buildPk (key : string) : result kv_error string :=
  if negb (allowSeparatorInKey L) && includes key (pkSeparator L) then Throw ReservedSeparator
  else Ok (pkPrefix L +:+ pkSeparator L +:+ key).

Definition stripPk (pk : string) : string :=
  let prefix := pkPrefix L +:+ pkSeparator L in
  if startsWith pk prefix then str_drop (String.length prefix) pk else pk.

Definition keyAttr (key : string) : result kv_error (list (string * json)) :=
  (let* pk := buildPk key in
   Ok ((PARTITION_ATTR, JStr pk) :: match skName L with
                                    | Some n => [(n, JStr (skValue L))]
                                    | None => []
                                    end))%js.

(** The attributes that [buildItem] adds to the value's fields. *)
Definition meta_attrs (key : string) (ver : Z) (e : option Z) (idx : option string) :
    list (string * json) :=
  ((versionAttr L, JNum ver) ::
   match e with Some x => [(ttlAttr L, JNum x)] | None => [] end ++
   match idx, index L with
   | Some i, Some ix =>
       (ix_pkAttr ix, JStr i) ::
       match ix_skAttr ix with Some a => [(a, JStr key)] | None => [] end
   | _, _ => []
   end)%list.

Definition buildItem (key : string) (v : KvValue) (ver : Z) (e : option Z) (idx : option string) :
    result kv_error item :=
  if existsb is_reserved (map fst (map_to_list v)) then Throw ReservedAttribute
  else
    (let* attrs := keyAttr key in
     Ok (list_to_map (attrs ++ meta_attrs key ver e idx)%list ∪ v))%js.

Definition extractValue (it : item) : KvValue :=
  filter (fun p => is_reserved p.1 = false) it.

Definition item_version (it : item) : Z :=
  default 0 (numberOf true (default (JNum 0) (it !! versionAttr L))).

Definition item_ttl (it : item) : option Z :=
  match it !! ttlAttr L with Some (JNum z) => Some z | _ => None end.

Definition toRecord (it : item) : KvRecord :=
  {| value := extractValue it; version := item_version it; expiresAt := item_ttl it |}.

Definition isExpiredItem (now : Z) (it : item) : bool :=
  match item_ttl it with Some e => e <? nowSeconds now | None => false end.

(** ** Methods *)

Definition fail {A} (e : ddb_error) : prog A := Raise BackendError.

Definition getRawItem {A} (key : string) (k : option item -> prog A) : prog A :=
  lift (buildPk key) (fun pk =>
    Send (GetItem pk) (fun res =>
      match res with Ok it => k it | Throw e => fail e end)).

Definition get (key : string) (includeExpired : bool) : prog (option KvRecord) :=
  getRawItem key (fun it =>
    match it with
    | None => Ret None
    | Some it => Now (fun now =>
        if negb includeExpired && isExpiredItem now it then Ret None else Ret (Some (toRecord it)))
    end).

Definition put (key : string) (v : KvValue) (o : KvWriteOptions) : prog KvRecord :=
  getRawItem key (fun current =>
    let prevVersion := match current with None => 0 | Some it => item_version it end in
    Now (fun now =>
      lift (buildItem key v (prevVersion + 1) (resolveExpiry now o) (opt_indexedKey o)) (fun it =>
      lift (buildPk key) (fun pk =>
        Send (PutItem pk it CTrue) (fun res =>
          match res with Ok _ => Ret (toRecord it) | Throw e => fail e end))))).

(** The record a rejected conditional write reports. *)
Definition report_current (key : string) : prog KvCasResult :=
  getRawItem key (fun current =>
    match current with
    | None => Ret {| applied := false; record := None |}
    | Some it => Now (fun now =>
        Ret {| applied := false;
               record := if isExpiredItem now it then None else Some (toRecord it) |})
    end).

(** A conditional [PutItem] of [it], then [rejected] if the condition fails. *)
Definition put_if (pk : string) (it : item) (c : ddb_cond) (rejected : prog KvCasResult) :
    prog KvCasResult :=
  Send (PutItem pk it c) (fun res =>
    match res with
    | Ok _ => Ret {| applied := true; record := Some (toRecord it) |}
    | Throw e => if isConditionalCheckFailed e then rejected else fail e
    end).

Definition take_over (pk key : string) (v : KvValue) (e : option Z) (idx : option string)
    (current : item) : prog KvCasResult :=
  let prevVersion := item_version current in
  lift (buildItem key v (prevVersion + 1) e idx) (fun it =>
    put_if pk it (CEq (versionAttr L) prevVersion) (report_current key)).

(** The live-or-expired classification after the creation found a row. *)
Definition classify (pk key : string) (v : KvValue) (e : option Z) (idx : option string)
    (vanished : prog KvCasResult) : prog KvCasResult :=
  getRawItem key (fun current =>
    match current with
    | None => vanished
    | Some it => Now (fun now =>
        if negb (isExpiredItem now it) then Ret {| applied := false; record := Some (toRecord it) |}
        else take_over pk key v e idx it)
    end).

(** [fuel] bounds the recursive retries of a creation that finds a row which
    has vanished when it is read. *)
Fixpoint putIfAbsent (fuel : nat) (key : string) (v : KvValue) (o : KvWriteOptions) :
    prog KvCasResult :=
  match fuel with
  | O => Raise OutOfFuel
  | S fuel' =>
      Now (fun now =>
        let e := resolveExpiry now o in
        let idx := opt_indexedKey o in
        lift (buildItem key v 1 e idx) (fun createItem =>
        lift (buildPk key) (fun pk =>
          put_if pk createItem (CNotExists PARTITION_ATTR)
            (classify pk key v e idx (putIfAbsent fuel' key v o)))))
  end.

Definition compareAndSet (key : string) (expectedVersion : Z) (v : KvValue) (o : KvWriteOptions) :
    prog KvCasResult :=
  Now (fun now =>
    lift (buildItem key v (expectedVersion + 1) (resolveExpiry now o) (opt_indexedKey o)) (fun it =>
    lift (buildPk key) (fun pk =>
      let condition := if expectedVersion =? 0 then CNotExists PARTITION_ATTR
                       else CEq (versionAttr L) expectedVersion in
      put_if pk it condition (report_current key)))).

Definition putIfFresher (key : string) (v : KvValue) (incoming : Z) (idx : option string) :
    prog KvCasResult :=
  lift (buildItem key v 1 (Some incoming) idx) (fun it =>
  lift (buildPk key) (fun pk =>
    put_if pk it (CNotExistsOrLess (ttlAttr L) incoming) (report_current key))).

Definition increment (key field : string) (delta : Z) (o : KvWriteOptions) : prog json :=
  if negb (valid_field field) then Raise InvalidField
  else Now (fun now =>
    let set_once := (fun e => (ttlAttr L, e)) <$> resolveExpiry now o in
    lift (keyAttr key) (fun attrs =>
    lift (buildPk key) (fun pk =>
      Send (UpdateAdd pk (list_to_map attrs) [(field, delta); (versionAttr L, 1)] set_once)
        (fun res =>
          match res with
          | Ok it => Ret (ofNumber (numberOf true (default (JNum delta) (it ≫= lookup field))))
          | Throw e => fail e
          end)))).

Definition delete_key (key : string) (expectedVersion : option Z) : prog bool :=
  lift (buildPk key) (fun pk =>
    let c := match expectedVersion with Some n => CEq (versionAttr L) n | None => CTrue end in
    Send (DeleteItem pk c) (fun res =>
      match res with
      | Ok it => Ret (bool_decide (is_Some it))
      | Throw e => if isConditionalCheckFailed e then Ret false else fail e
      end)).

(** What [queryByIndex] makes of the items the index query returned. *)
Definition queryByIndex (now : Z) (items : list item) : result kv_error (list (string * KvRecord)) :=
  match index L with
  | None => Throw NoIndex
  | Some _ =>
      let nsPrefix := pkPrefix L +:+ pkSeparator L in
      Ok (omap (fun it =>
            if isExpiredItem now it then None
            else match it !! PARTITION_ATTR with
                 | Some (JStr pk) => if startsWith pk nsPrefix
                                     then Some (stripPk pk, toRecord it) else None
                 | _ => None
                 end) items)
  end.

Definition map_prog {A B} (f : A -> B) : prog A -> prog B :=
  fix go p :=
    match p with
    | Ret a => Ret (f a)
    | Raise e => Raise e
    | Now k => Now (fun n => go (k n))
    | Send r k => Send r (fun res => go (k res))
    end.

Definition method (op : kv_op) (key : string) : prog kv_resp :=
  match op with
  | OpGet all => map_prog RRecord (get key all)
  | OpPut v o => map_prog RPut (put key v o)
  | OpPutIfAbsent v o => map_prog RCas (putIfAbsent 1 key v o)
  | OpCompareAndSet n v o => map_prog RCas (compareAndSet key n v o)
  | OpPutIfFresher v inc idx => map_prog RCas (putIfFresher key v inc idx)
  | OpIncrement f d o => map_prog RNumber (increment key f d o)
  | OpDelete g => map_prog RBool (delete_key key g)
  end.
End store.

(** ** Items and rows *)

Section items.
Context (L : DynamoKvLayout).

(** The reserved attribute names are distinct. *)
Definition layout_ok : Prop := NoDup (reserved L).

Definition value_ok (v : KvValue) : Prop := forall f, is_reserved L f = true -> v !! f = None.

Definition index_ok (idx : option string) : Prop := idx = None \/ is_Some (index L).

Definition item_row (it : item) : KvRow :=
  {| row_value := extractValue L it; row_version := item_version L it;
     row_expiresAt := item_ttl L it;
     row_indexedKey := ix ← index L; match it !! ix_pkAttr ix with
                                     | Some (JStr s) => Some s | _ => None end |}.

(** What the adapter writes: a partition key, a positive version, and an
    expiry that is a number if present. *)
Definition item_ok (it : item) : Prop :=
  is_Some (it !! PARTITION_ATTR) /\
  (exists n, 0 < n /\ it !! versionAttr L = Some (JNum n)) /\
  (forall j, it !! ttlAttr L = Some j -> exists z, j = JNum z).

(** What may be stored: an item of the adapter, or a legacy row, from before
    there were versions. *)
Definition item_stored (it : item) : Prop :=
  is_Some (it !! PARTITION_ATTR) /\
  (it !! versionAttr L = None \/ exists n, 0 < n /\ it !! versionAttr L = Some (JNum n)) /\
  (forall j, it !! ttlAttr L = Some j -> exists z, j = JNum z).

Lemma item_ok_stored it : item_ok it -> item_stored it.
Proof. intros (H1 & H2 & H3). split; [done|]. split; [by right|done]. Qed.

Lemma item_ok_version it : item_ok it -> 0 < item_version L it.
Proof. intros (_ & (n & Hn & Hv) & _). unfold item_version. by rewrite Hv. Qed.

Lemma is_reserved_elem f : is_reserved L f = true <-> f ∈ reserved L.
Proof.
  unfold is_reserved. rewrite existsb_exists_In. split.
  - intros (g & Hg & E%String.eqb_eq). by subst.
  - intros Hf. exists f. by rewrite String.eqb_refl.
Qed.

Lemma is_reserved_false f : is_reserved L f = false <-> f ∉ reserved L.
Proof. rewrite <- is_reserved_elem. destruct (is_reserved L f); naive_solver. Qed.

Definition attrs_of (pk key : string) (ver : Z) (e : option Z) (idx : option string) :
    list (string * json) :=
  ((PARTITION_ATTR, JStr pk) ::
   match skName L with Some n => [(n, JStr (skValue L))] | None => [] end ++
   meta_attrs L key ver e idx)%list.

Lemma attrs_sublist pk key ver e idx : map fst (attrs_of pk key ver e idx) `sublist_of` reserved L.
Proof.
  unfold attrs_of, reserved, meta_attrs. cbn [map fst]. apply sublist_skip.
  rewrite map_app. apply sublist_app; [by destruct (skName L)|]. cbn [map fst]. apply sublist_skip.
  rewrite map_app. change (ttlAttr L :: index_attrs (index L)) with ([ttlAttr L] ++ index_attrs (index L))%list.
  apply (sublist_app _ [ttlAttr L]).
  - destruct e; [done|apply sublist_nil_l].
  - destruct idx as [i|], (index L) as [ix|]; simpl; try apply sublist_nil_l.
    by destruct (ix_skAttr ix).
Qed.

Lemma buildItem_eq key v ver e idx pk :
  value_ok v -> buildPk L key = Ok pk ->
  buildItem L key v ver e idx = Ok (list_to_map (attrs_of pk key ver e idx) ∪ v).
Proof.
  intros Hv Hpk. unfold buildItem, keyAttr. rewrite Hpk. simpl.
  destruct (existsb (is_reserved L) (map fst (map_to_list v))) eqn:E; [|done].
  apply existsb_exists_In in E as (f & Hf & Hr).
  apply list_elem_of_fmap in Hf as ([f' j] & -> & Hj%elem_of_map_to_list). simpl in *.
  rewrite (Hv _ Hr) in Hj. done.
Qed.

Section built.
Context (pk key : string) (v : KvValue) (ver : Z) (e : option Z) (idx : option string).
Context (Hlay : layout_ok) (Hv : value_ok v).
#[local] Notation built := (list_to_map (attrs_of pk key ver e idx) ∪ v : item).

Lemma built_lookup a j : (a, j) ∈ attrs_of pk key ver e idx -> built !! a = Some j.
Proof.
  intros Hin. apply lookup_union_Some_l. apply elem_of_list_to_map_1; [|done].
  eapply sublist_NoDup; [exact Hlay|]. apply attrs_sublist.
Qed.

Lemma built_lookup_None a :
  is_reserved L a = true -> a ∉ map fst (attrs_of pk key ver e idx) -> built !! a = None.
Proof.
  intros Hr Hn. apply lookup_union_None. split; [by apply not_elem_of_list_to_map_1|by apply Hv].
Qed.

Lemma built_value : extractValue L built = v.
Proof.
  apply map_eq. intros f. unfold extractValue. destruct (is_reserved L f) eqn:Hr.
  - rewrite (Hv _ Hr). apply map_lookup_filter_None_2. right. intros x _. simpl. congruence.
  - assert ((list_to_map (attrs_of pk key ver e idx) : item) !! f = None) as Hn.
    { apply not_elem_of_list_to_map_1. intros Hin. apply is_reserved_false in Hr. apply Hr.
      eapply elem_of_sublist; [exact Hin|apply attrs_sublist]. }
    destruct (v !! f) as [x|] eqn:Ev.
    + apply map_lookup_filter_Some_2; [|done]. by rewrite lookup_union_r.
    + apply map_lookup_filter_None_2. left. by apply lookup_union_None.
Qed.

Lemma built_version : built !! versionAttr L = Some (JNum ver).
Proof.
  apply built_lookup. unfold attrs_of, meta_attrs. right. apply elem_of_app. right. left.
Qed.

Lemma reserved_ttl : is_reserved L (ttlAttr L) = true.
Proof.
  apply is_reserved_elem. unfold reserved. right. apply elem_of_app. right. right. left.
Qed.

Lemma ttl_not_before : ttlAttr L <> PARTITION_ATTR /\ ttlAttr L <> versionAttr L /\
  skName L <> Some (ttlAttr L) /\ ttlAttr L ∉ index_attrs (index L).
Proof.
  unfold layout_ok, reserved in Hlay. simpl in Hlay.
  apply NoDup_cons in Hlay as [Hp Hlay']. apply NoDup_app in Hlay' as (_ & Hsk & Hrest).
  apply NoDup_cons in Hrest as [Hve Hrest]. apply NoDup_cons in Hrest as [Httl _].
  rewrite elem_of_app in Hp. repeat split.
  - intros E. apply Hp. right. right. rewrite E. left.
  - intros E. apply Hve. rewrite E. left.
  - intros E. apply (Hsk (ttlAttr L)); [rewrite E; left|right; left].
  - done.
Qed.

Lemma attrs_ttl :
  match e with
  | Some x => (ttlAttr L, JNum x) ∈ attrs_of pk key ver e idx
  | None => ttlAttr L ∉ map fst (attrs_of pk key ver e idx)
  end.
Proof.
  destruct ttl_not_before as (H1 & H2 & H3 & H4). unfold attrs_of, meta_attrs. destruct e as [x|].
  - right. apply elem_of_app. right. right. left.
  - cbn [map fst app].
    rewrite map_app. intros [?|[Hin|[?|Hin]%elem_of_cons]%elem_of_app]%elem_of_cons; try done.
    + destruct (skName L); [|by apply elem_of_nil in Hin].
      apply list_elem_of_singleton in Hin. simpl in Hin. congruence.
    + apply H4. destruct idx, (index L) as [ix|]; simpl in *; try by apply elem_of_nil in Hin.
      apply elem_of_cons in Hin as [->|Hin]; [left|].
      destruct (ix_skAttr ix); simpl in *; [right; done|by apply elem_of_nil in Hin].
Qed.

Lemma built_ttl_lookup : built !! ttlAttr L = JNum <$> e.
Proof.
  pose proof attrs_ttl as Hin. pose proof built_lookup as Hl. pose proof built_lookup_None as Hn.
  destruct e as [x|]; [by apply Hl|]. apply Hn; [apply reserved_ttl|done].
Qed.

Lemma built_ttl : item_ttl L built = e.
Proof. unfold item_ttl. rewrite built_ttl_lookup. by destruct e. Qed.

Lemma attrs_index ix :
  index L = Some ix ->
  match idx with
  | Some i => (ix_pkAttr ix, JStr i) ∈ attrs_of pk key ver e idx
  | None => ix_pkAttr ix ∉ map fst (attrs_of pk key ver e idx)
  end.
Proof.
  intros Eix. unfold attrs_of, meta_attrs. destruct idx as [i|].
  - rewrite Eix. right. apply elem_of_app. right. right. apply elem_of_app. right. left.
  - pose proof Hlay as Hnd. unfold layout_ok, reserved in Hnd. rewrite Eix in Hnd.
    change (PARTITION_ATTR :: ?x)%list with ([PARTITION_ATTR] ++ x)%list in Hnd.
    rewrite app_assoc, app_assoc in Hnd. apply NoDup_app in Hnd as (_ & Hd & _).
    intros Hin. apply (Hd (ix_pkAttr ix)); [|left]. revert Hin. cbn [map fst app].
    rewrite map_app. destruct (skName L), e; simpl; set_solver.
Qed.

Lemma built_index ix :
  index L = Some ix -> built !! ix_pkAttr ix = JStr <$> idx.
Proof.
  intros Eix. pose proof (attrs_index ix Eix) as Hin.
  pose proof built_lookup as Hl. pose proof built_lookup_None as Hn.
  destruct idx as [i|]; [by apply Hl|]. apply Hn; [|done].
  apply is_reserved_elem. unfold reserved. rewrite Eix. right. apply elem_of_app. right.
  right. right. left.
Qed.

Lemma built_row :
  index_ok idx ->
  item_row built = {| row_value := v; row_version := ver; row_expiresAt := e; row_indexedKey := idx |}.
Proof.
  intros Hidx. unfold item_row. rewrite built_value, built_ttl.
  unfold item_version. rewrite built_version. cbn [default numberOf from_option id]. f_equal.
  destruct (index L) as [ix|] eqn:Eix; cbn [mbind option_bind].
  { pose proof (built_index ix Eix) as Hb. rewrite Hb. by destruct idx. }
  destruct Hidx as [Hidx|[? Hidx]]; [by rewrite Hidx|congruence].
Qed.

Lemma built_ok : 0 < ver -> item_ok built.
Proof.
  intros Hver. split; [|split].
  - eexists. apply built_lookup. left.
  - exists ver. split; [done|apply built_version].
  - intros j Hj. rewrite built_ttl_lookup in Hj. destruct e; simpl in Hj; [|done].
    injection Hj as <-. by eexists.
Qed.
End built.
End items.

(** ** The increment of an item *)

Section increments.
Context (L : DynamoKvLayout) (Hlay : layout_ok L).

Lemma layout_distinct :
  versionAttr L <> PARTITION_ATTR /\ ttlAttr L <> PARTITION_ATTR /\ ttlAttr L <> versionAttr L /\
  skName L <> Some (versionAttr L) /\ skName L <> Some (ttlAttr L) /\
  (forall ix, index L = Some ix -> ix_pkAttr ix <> versionAttr L /\ ix_pkAttr ix <> ttlAttr L).
Proof.
  pose proof Hlay as Hnd. unfold layout_ok, reserved in Hnd.
  apply NoDup_cons in Hnd as [Hp Hnd]. apply NoDup_app in Hnd as (_ & Hsk & Hrest).
  apply NoDup_cons in Hrest as [Hve Hrest]. apply NoDup_cons in Hrest as [Httl _].
  split; [|split; [|split; [|split; [|split]]]].
  - intros E. apply Hp. rewrite E. apply elem_of_app. right. left.
  - intros E. apply Hp. rewrite E. apply elem_of_app. right. right. left.
  - intros E. apply Hve. rewrite E. left.
  - intros E. apply (Hsk (versionAttr L)); [rewrite E; left|left].
  - intros E. apply (Hsk (ttlAttr L)); [rewrite E; left|right; left].
  - intros ix E. rewrite E in Hve, Httl. split; intros E'.
    + apply Hve. rewrite <- E'. right. left.
    + apply Httl. rewrite <- E'. left.
Qed.

Lemma reserved_version : is_reserved L (versionAttr L) = true.
Proof. apply is_reserved_elem. unfold reserved. right. apply elem_of_app. right. left. Qed.

Lemma reserved_index ix : index L = Some ix -> is_reserved L (ix_pkAttr ix) = true.
Proof.
  intros E. apply is_reserved_elem. unfold reserved. rewrite E. right. apply elem_of_app. right.
  right. right. left.
Qed.

Lemma extract_insert_reserved it a j :
  is_reserved L a = true -> extractValue L (<[a := j]> it) = extractValue L it.
Proof.
  intros Hr. apply map_eq. intros f. unfold extractValue. rewrite !map_lookup_filter.
  destruct (decide (f = a)) as [->|Hne]; [|by rewrite lookup_insert_ne].
  rewrite lookup_insert_eq. simpl. destruct (it !! a); simpl; repeat case_guard; simpl in *; congruence.
Qed.

Lemma extract_insert_field it f j :
  is_reserved L f = false -> extractValue L (<[f := j]> it) = <[f := j]> (extractValue L it).
Proof. intros Hr. unfold extractValue. by rewrite map_filter_insert_True. Qed.

Lemma row_bump it f x ver :
  is_reserved L f = false ->
  item_row L (<[versionAttr L := JNum ver]> (<[f := JNum x]> it))
  = {| row_value := <[f := JNum x]> (extractValue L it); row_version := ver;
       row_expiresAt := item_ttl L it; row_indexedKey := row_indexedKey (item_row L it) |}.
Proof.
  intros Hf. destruct layout_distinct as (_ & _ & Htv & _ & _ & Hix).
  assert (forall a, is_reserved L a = true -> f <> a) as Hne by (intros a Ha ->; congruence).
  unfold item_row. f_equal.
  - by rewrite extract_insert_reserved, extract_insert_field by (done || apply reserved_version).
  - unfold item_version. by rewrite lookup_insert_eq.
  - unfold item_ttl. rewrite !lookup_insert_ne; [done| |done]. apply Hne, reserved_ttl.
  - destruct (index L) as [ix|] eqn:E; [|done]. cbn [mbind option_bind row_indexedKey].
    destruct (Hix ix eq_refl) as [H1 H2].
    rewrite !lookup_insert_ne; [done| |congruence]. by apply Hne, reserved_index.
Qed.

Lemma row_set_ttl it e :
  item_row L (<[ttlAttr L := JNum e]> it)
  = {| row_value := extractValue L it; row_version := item_version L it; row_expiresAt := Some e;
       row_indexedKey := row_indexedKey (item_row L it) |}.
Proof.
  destruct layout_distinct as (_ & _ & Htv & _ & _ & Hix). unfold item_row. f_equal.
  - apply extract_insert_reserved, reserved_ttl.
  - unfold item_version. rewrite lookup_insert_ne; [done|congruence].
  - unfold item_ttl. by rewrite lookup_insert_eq.
  - destruct (index L) as [ix|] eqn:E; [|done]. cbn [mbind option_bind row_indexedKey].
    destruct (Hix ix eq_refl) as [H1 H2]. rewrite lookup_insert_ne; [done|congruence].
Qed.

Definition key_item (pk : string) : item :=
  list_to_map ((PARTITION_ATTR, JStr pk) :: match skName L with
                                            | Some n => [(n, JStr (skValue L))]
                                            | None => []
                                            end).

Lemma key_item_other pk a :
  a <> PARTITION_ATTR -> skName L <> Some a -> key_item pk !! a = None.
Proof.
  intros Hp Hs. unfold key_item. apply not_elem_of_list_to_map_1. cbn [map fst].
  destruct (skName L); simpl; set_solver.
Qed.

Lemma key_item_field pk f : is_reserved L f = false -> key_item pk !! f = None.
Proof.
  intros Hf%is_reserved_false. unfold reserved in Hf.
  apply key_item_other; [set_solver|]. intros E. rewrite E in Hf. simpl in Hf. set_solver.
Qed.

Lemma key_item_row pk :
  item_row L (key_item pk) = {| row_value := ∅; row_version := 0; row_expiresAt := None;
                                row_indexedKey := None |}.
Proof.
  destruct layout_distinct as (Hvp & Htp & _ & Hsv & Hst & Hix).
  unfold item_row. f_equal.
  - apply map_eq. intros f. unfold extractValue. rewrite map_lookup_filter, lookup_empty.
    destruct (is_reserved L f) eqn:Hf.
    + destruct (key_item pk !! f); simpl; [case_guard; [simpl in *; congruence|done]|done].
    + by rewrite key_item_field.
  - unfold item_version. by rewrite key_item_other.
  - unfold item_ttl. by rewrite key_item_other.
  - destruct (index L) as [ix|] eqn:E; [|done]. cbn [mbind option_bind].
    rewrite key_item_other; [done| |].
    + intros E'. unfold layout_ok, reserved in Hlay. apply NoDup_cons in Hlay as [Hp _].
      apply Hp. rewrite E, <- E'. apply elem_of_app. right. right. right. left.
    + intros E'. unfold layout_ok, reserved in Hlay. apply NoDup_cons in Hlay as [_ Hn].
      apply NoDup_app in Hn as (_ & Hd & _). apply (Hd (ix_pkAttr ix)); [rewrite E'; left|].
      rewrite E. right. right. left.
Qed.
Definition ttl_once (e : option Z) : option (string * Z) := (fun e => (ttlAttr L, e)) <$> e.

Lemma increment_paths_ok pk f delta e :
  is_reserved L f = false ->
  paths_ok (key_item pk) [(f, delta); (versionAttr L, 1)] (ttl_once e) = true.
Proof.
  intros Hr. destruct layout_distinct as (Hvp & Htp & Htv & Hsv & Hst & _).
  assert (f <> versionAttr L) as Hfv by (intros ->; rewrite reserved_version in Hr; done).
  assert (f <> ttlAttr L) as Hft by (intros ->; rewrite reserved_ttl in Hr; done).
  assert (forall a, key_item pk !! a = None -> bool_decide (key_item pk !! a = None) = true)
    as Hb by (intros; by apply bool_decide_eq_true_2).
  unfold paths_ok, ttl_once. apply andb_true_iff. split.
  - apply bool_decide_eq_true_2. destruct e; simpl;
      repeat (apply NoDup_cons; split); try apply NoDup_nil_2; set_solver.
  - destruct e; simpl;
      rewrite ?(Hb f) by (by apply key_item_field);
      rewrite ?(Hb (versionAttr L)) by (by apply key_item_other);
      rewrite ?(Hb (ttlAttr L)) by (by apply key_item_other); done.
Qed.

(** A numeric attribute that may still be missing. *)
Definition counts (it : item) (a : string) (n : Z) : Prop :=
  it !! a = None /\ n = 0 \/ it !! a = Some (JNum n).

Lemma increment_adds it f n ver delta :
  f <> versionAttr L -> counts it f n -> counts it (versionAttr L) ver ->
  add_attrs it [(f, delta); (versionAttr L, 1)]
  = Some (<[versionAttr L := JNum (ver + 1)]> (<[f := JNum (n + delta)]> it)).
Proof.
  intros Hfv Hf Hver. cbn [add_attrs]. unfold add_attr.
  destruct Hf as [[-> ->]| ->]; cbn [mbind option_bind]; rewrite (lookup_insert_ne _ f) by done;
    (destruct Hver as [[-> ->]| ->]; done).
Qed.

Lemma increment_row it f x ver e :
  is_reserved L f = false -> (forall j, it !! ttlAttr L = Some j -> exists z, j = JNum z) ->
  let it1 := <[versionAttr L := JNum ver]> (<[f := JNum x]> it) in
  let it2 := match ttl_once e with
             | Some (a, z) => match it1 !! a with None => <[a := JNum z]> it1 | Some _ => it1 end
             | None => it1
             end in
  item_row L it2 =
    {| row_value := <[f := JNum x]> (extractValue L it); row_version := ver;
       row_expiresAt := match item_ttl L it with Some e => Some e | None => e end;
       row_indexedKey := row_indexedKey (item_row L it) |}.
Proof.
  intros Hr Ht it1 it2. destruct layout_distinct as (_ & _ & Htv & _).
  assert (f <> ttlAttr L) as Hft by (intros ->; rewrite reserved_ttl in Hr; done).
  assert (it1 !! ttlAttr L = it !! ttlAttr L) as Ht1 by (unfold it1; by rewrite !lookup_insert_ne).
  pose proof (row_bump it f x ver Hr) as Hb. fold it1 in Hb.
  unfold it2, ttl_once. destruct e as [e|]; cbn [fmap option_fmap option_map].
  - rewrite Ht1. unfold item_ttl in *. destruct (it !! ttlAttr L) as [j|] eqn:E.
    + destruct (Ht j eq_refl) as [z ->]. exact Hb.
    + rewrite row_set_ttl. f_equal; [exact (f_equal row_value Hb)|exact (f_equal row_version Hb)|
        exact (f_equal row_indexedKey Hb)].
  - rewrite Hb. by destruct (item_ttl L it).
Qed.
End increments.

(** ** The adapter, at rest *)

Section adapter.
Context (L : DynamoKvLayout) `{DynamoDB}.

Definition dynamo_step (d : ddb) (now : Z) (key : string) (op : kv_op) :
    result kv_error (ddb * kv_resp) :=
  let '(d', res) := run_prog (method L op key) now [] d in
  result_map (fun r => (d', r)) res.

Definition dynamo_view (d : ddb) (key : string) : option KvRow :=
  match buildPk L key with
  | Ok pk => item_row L <$> ddb_items d !! pk
  | Throw _ => None
  end.

Definition dynamo_inv (d : ddb) : Prop :=
  forall key pk it, buildPk L key = Ok pk -> ddb_items d !! pk = Some it -> item_stored L it.

(** Every row of the adapter's keys has a version. *)
Definition versioned (d : ddb) : Prop :=
  forall key pk it, buildPk L key = Ok pk -> ddb_items d !! pk = Some it -> 0 < item_version L it.

(** The port as this adapter keeps it: entries live through the second of their
    expiry; a compare-and-set looks at the version of a stored row even if it
    has expired, and does not create over one; a freshness write is compared
    with the stored expiry even of an expired row; a legacy row, of version 0, is
    not taken over nor deleted by its version. *)
Definition dynamo_port (now : Z) (op : kv_op) (row : option KvRow) : option KvRow * kv_resp :=
  match op, row with
  | OpPutIfAbsent _ _, Some r =>
      if row_version r =? 0 then rejects lives_through now row else kv_port lives_through now op row
  | OpCompareAndSet n v o, Some r =>
      if negb (n =? 0) && (row_version r =? n) then applies (written now v (n + 1) o)
      else rejects lives_through now row
  | OpPutIfFresher v incoming idx, Some r =>
      if fresher incoming row then applies (cached v 1 incoming idx) else rejects lives_through now row
  | OpDelete (Some 0), Some _ => (row, RBool false)
  | _, _ => kv_port lives_through now op row
  end.

Definition dynamo_valid (key : string) (op : kv_op) (row : option KvRow) : Prop :=
  layout_ok L /\ is_ok (buildPk L key) = true /\
  match op with
  | OpGet _ => True
  | OpPut v o => value_ok L v /\ index_ok L (opt_indexedKey o)
  | OpPutIfAbsent v o => value_ok L v /\ index_ok L (opt_indexedKey o)
  | OpCompareAndSet n v o => 0 <= n /\ value_ok L v /\ index_ok L (opt_indexedKey o)
  | OpPutIfFresher v _ idx => value_ok L v /\ index_ok L idx
  | OpIncrement f _ _ => valid_field f = true /\ is_reserved L f = false /\
                         is_Some (numeric_field row f)
  | OpDelete _ => True
  end.

#[export] Instance DynamoKvStore : KvAdapter := {
  kv_state := ddb;
  kv_view := dynamo_view;
  kv_inv d := dynamo_inv d /\ versioned d;
  kv_valid := dynamo_valid;
  kv_step := dynamo_step
}.

Lemma run_map_prog {A B} (f : A -> B) p now : forall env d,
  run_prog (map_prog f p) now env d
  = let '(d', res) := run_prog p now env d in (d', result_map f res).
Proof.
  induction p as [a|e|k IH|r k IH]; intros env d; cbn [map_prog run_prog]; [done|done|apply IH|].
  destruct (send_retry _ env d r) as [[env' d'] res]. apply IH.
Qed.

Lemma buildPk_inj key key' pk : buildPk L key = Ok pk -> buildPk L key' = Ok pk -> key = key'.
Proof.
  unfold buildPk. destruct (_ && _); [done|]. destruct (_ && _); [done|].
  intros [= <-] [= E]. apply (inj (String.app _)) in E. apply (inj (String.app _)) in E. done.
Qed.

Section one_key.
Context (key pk : string) (Hpk : buildPk L key = Ok pk) (Hlay : layout_ok L).

Lemma view_key d : dynamo_view d key = item_row L <$> ddb_items d !! pk.
Proof. unfold dynamo_view. by rewrite Hpk. Qed.

(** The effect of one finished method: its answer and the items it leaves. *)
Definition outcome {A} (p : prog A) (now : Z) (d : ddb) (a : A) (m : gmap string item) : Prop :=
  exists d', run_prog p now [] d = (d', Ok a) /\ ddb_items d' = m.

Lemma outcome_send {A} r m res (k : _ -> prog A) now d a m' :
  ddb_effect (ddb_items d) r = (m, res) -> (forall e, res = Throw e -> e = ConditionalCheckFailed) ->
  (forall d', ddb_items d' = m -> outcome (k res) now d' a m') ->
  outcome (Send r k) now d a m'.
Proof.
  intros E Hres Hk. destruct (run_send d r m res k now E Hres) as (d' & Hr & Hd).
  unfold outcome. rewrite Hr. by apply Hk.
Qed.

Lemma outcome_raw {A} (k : _ -> prog A) now d a m' :
  (forall d', ddb_items d' = ddb_items d -> outcome (k (ddb_items d !! pk)) now d' a m') ->
  outcome (getRawItem L key k) now d a m'.
Proof.
  intros Hk. unfold getRawItem. rewrite Hpk. cbn [lift].
  by eapply outcome_send; [done| |intros; apply Hk].
Qed.

Lemma outcome_ret {A} (a : A) now d m : ddb_items d = m -> outcome (Ret a) now d a m.
Proof. intros Hd. exists d. done. Qed.

Lemma outcome_now {A} (k : _ -> prog A) now d a m : outcome (k now) now d a m -> outcome (Now k) now d a m.
Proof. done. Qed.

(** The classification of an item by its expiry. *)
Lemma isExpiredItem_lives now it : isExpiredItem L now it = negb (lives_through now (item_row L it)).
Proof.
  unfold isExpiredItem, lives_through, nowSeconds. cbn [item_row row_expiresAt]. destruct (item_ttl L it); [|done].
  by rewrite Z.ltb_antisym.
Qed.

Definition current_report (now : Z) (current : option item) : option KvRecord :=
  it ← current; if isExpiredItem L now it then None else Some (toRecord L it).

Lemma outcome_report now d :
  outcome (report_current L key) now d
    {| applied := false; record := current_report now (ddb_items d !! pk) |} (ddb_items d).
Proof.
  apply outcome_raw. intros d' Hd.
  destruct (ddb_items d !! pk) as [it|]; [apply outcome_now|]; by apply outcome_ret.
Qed.

Lemma current_report_port now it :
  current_report now it = record_of <$> current lives_through now (item_row L <$> it).
Proof.
  destruct it as [it|]; [|done]. unfold current_report, current. cbn. rewrite isExpiredItem_lives.
  by destruct (lives_through now (item_row L it)).
Qed.

Lemma rejects_report now it :
  rejects lives_through now (item_row L <$> it) = (item_row L <$> it, lost (current_report now it)).
Proof. unfold rejects. by rewrite current_report_port. Qed.

Lemma outcome_put_win it c rejected now d :
  eval_cond c (ddb_items d !! pk) = true ->
  outcome (put_if L pk it c rejected) now d {| applied := true; record := Some (toRecord L it) |}
    (<[pk := it]> (ddb_items d)).
Proof.
  intros Hc. unfold put_if. eapply outcome_send; [cbn [ddb_effect]; by rewrite Hc|done|].
  intros d' Hd. by apply outcome_ret.
Qed.

Lemma outcome_put_lose it c rejected now d a m :
  eval_cond c (ddb_items d !! pk) = false ->
  (forall d', ddb_items d' = ddb_items d -> outcome rejected now d' a m) ->
  outcome (put_if L pk it c rejected) now d a m.
Proof.
  intros Hc Hk. unfold put_if. eapply outcome_send; [cbn [ddb_effect]; by rewrite Hc|by intros e [= <-]|].
  intros d' Hd. by apply Hk.
Qed.

Lemma outcome_items {A} (p : prog A) now d1 d2 a m :
  ddb_items d1 = ddb_items d2 -> outcome p now d1 a m -> outcome p now d2 a m.
Proof.
  intros E (d' & Hrun & Hd). destruct (run_prog_items p now [] d1 d2 E) as [Hr Hi].
  rewrite Hrun in Hr, Hi. unfold outcome. destruct (run_prog p now [] d2) as [d2' res].
  cbn [fst snd] in *. exists d2'. split; congruence.
Qed.

(** From an outcome to the adapter's obligations. *)
Definition meets (op : kv_op) (now : Z) (d : ddb) : Prop :=
  exists resp m, outcome (method L op key) now d resp m /\
    (m = ddb_items d \/ m = delete pk (ddb_items d) \/
     exists it, m = <[pk := it]> (ddb_items d) /\ item_ok L it) /\
    (item_row L <$> m !! pk, resp) = dynamo_port now op (item_row L <$> ddb_items d !! pk).

Lemma meets_step op now d :
  dynamo_inv d -> meets op now d ->
  exists d' resp, dynamo_step d now key op = Ok (d', resp) /\ dynamo_inv d' /\ (versioned d -> versioned d') /\
    (dynamo_view d' key, resp) = dynamo_port now op (dynamo_view d key) /\
    (forall key', key' <> key -> dynamo_view d' key' = dynamo_view d key').
Proof.
  intros Hinv (resp & m & (d' & Hrun & Hm) & Hshape & Hspec). exists d', resp.
  unfold dynamo_step. rewrite Hrun. split; [done|]. rewrite !view_key, Hm.
  assert (forall pk', pk' <> pk -> m !! pk' = ddb_items d !! pk') as Hframe.
  { intros pk' Hne. destruct Hshape as [->|[->|(it & -> & _)]]; [done| |].
    - by rewrite lookup_delete_ne.
    - by rewrite lookup_insert_ne. }
  assert (forall P : item -> Prop, (forall it, item_ok L it -> P it) ->
    (forall key' pk' it, buildPk L key' = Ok pk' -> ddb_items d !! pk' = Some it -> P it) ->
    forall key' pk' it, buildPk L key' = Ok pk' -> ddb_items d' !! pk' = Some it -> P it) as Hall.
  { intros P Hok Hd key' pk' it Hk Hit. rewrite Hm in Hit. destruct (decide (pk' = pk)) as [->|Hne].
    - destruct Hshape as [->|[->|(it' & -> & Hnew)]]; [by eapply Hd|by rewrite lookup_delete_eq in Hit|].
      rewrite lookup_insert_eq in Hit. injection Hit as <-. by apply Hok.
    - rewrite Hframe in Hit by done. by eapply Hd. }
  split; [exact (Hall _ (item_ok_stored L) Hinv)|]. split; [exact (Hall _ (item_ok_version L))|]. split; [done|].
  intros key' Hne. unfold dynamo_view. destruct (buildPk L key') as [pk'|] eqn:E; [|done].
  rewrite Hm, Hframe; [done|]. intros ->. apply Hne. by eapply buildPk_inj.
Qed.

Lemma outcome_map {A B} (f : A -> B) p now d a m :
  outcome p now d a m -> outcome (map_prog f p) now d (f a) m.
Proof. intros (d' & Hrun & Hm). exists d'. rewrite run_map_prog, Hrun. done. Qed.

Lemma item_version_read d it :
  dynamo_inv d -> ddb_items d !! pk = Some it ->
  0 <= item_version L it /\
  (it !! versionAttr L = None /\ item_version L it = 0 \/
   0 < item_version L it /\ it !! versionAttr L = Some (JNum (item_version L it))) /\
  is_Some (it !! PARTITION_ATTR).
Proof.
  intros Hinv Hit. destruct (Hinv _ _ _ Hpk Hit) as (Hp & [Hv|(n & Hn & Hv)] & _);
    unfold item_version; rewrite Hv; cbn; split; try lia; (split; [|done]); [by left|by right].
Qed.

(** The version as a condition reads it. *)
Lemma version_condition d it n : dynamo_inv d -> ddb_items d !! pk = Some it ->
  eval_cond (CEq (versionAttr L) n) (Some it) = negb (item_version L it =? 0) && (item_version L it =? n).
Proof.
  intros Hinv Hit. destruct (item_version_read d it Hinv Hit) as (_ & [[Hv H0]|[Hpos Hv]] & _); cbn; rewrite Hv.
  - by rewrite H0.
  - by replace (item_version L it =? 0) with false by lia.
Qed.

(** The two shapes of a conditional write, for its three callers. *)
Lemma meets_write op now d v ver e idx c rejected r :
  (forall a m, outcome (put_if L pk (list_to_map (attrs_of L pk key ver e idx) ∪ v) c rejected) now d a m ->
     outcome (method L op key) now d (RCas a) m) ->
  value_ok L v -> index_ok L idx -> 0 < ver -> eval_cond c (ddb_items d !! pk) = true ->
  r = {| row_value := v; row_version := ver; row_expiresAt := e; row_indexedKey := idx |} ->
  dynamo_port now op (item_row L <$> ddb_items d !! pk) = applies r ->
  meets op now d.
Proof.
  intros Hm Hv Hi Hpos Hc -> Hspec.
  set (it := list_to_map (attrs_of L pk key ver e idx) ∪ v : item).
  pose proof (built_row L pk key v ver e idx Hlay Hv Hi) as Hrow. fold it in Hrow.
  exists (won (item_row L it)), (<[pk := it]> (ddb_items d)). split; [|split].
  - pose proof (outcome_put_win it c rejected now d Hc) as Ho.
    by apply Hm in Ho.
  - right. right. exists it. split; [done|]. by apply built_ok.
  - rewrite lookup_insert_eq, Hspec. cbn [fmap option_fmap option_map]. by rewrite Hrow.
Qed.

Lemma meets_lose op now d :
  (exists rec, outcome (method L op key) now d (lost rec) (ddb_items d) /\
     dynamo_port now op (item_row L <$> ddb_items d !! pk) = (item_row L <$> ddb_items d !! pk, lost rec)) ->
  meets op now d.
Proof. intros (rec & Ho & Hs). exists (lost rec), (ddb_items d). rewrite Hs. auto. Qed.

Lemma meets_reject op now d it c :
  (forall a m, outcome (put_if L pk it c (report_current L key)) now d a m ->
     outcome (method L op key) now d (RCas a) m) ->
  eval_cond c (ddb_items d !! pk) = false ->
  dynamo_port now op (item_row L <$> ddb_items d !! pk) = rejects lives_through now (item_row L <$> ddb_items d !! pk) ->
  meets op now d.
Proof.
  intros Hm Hc Hs. rewrite rejects_report in Hs. apply meets_lose. eexists. split; [|exact Hs]. apply Hm.
  apply outcome_put_lose; [done|]. intros d' Hd. rewrite <- Hd. apply outcome_report.
Qed.

Lemma meets_get now d all : meets (OpGet all) now d.
Proof.
  set (ans := match ddb_items d !! pk with
              | None => None
              | Some it => if negb all && isExpiredItem L now it then None else Some (toRecord L it)
              end).
  exists (RRecord ans), (ddb_items d). split; [|split; [by left|]].
  - cbn [method]. apply outcome_map. unfold get. apply outcome_raw. intros d' Hd.
    unfold ans. destruct (ddb_items d !! pk) as [it|]; [|by apply outcome_ret].
    apply outcome_now. destruct (negb all && _); by apply outcome_ret.
  - unfold ans, dynamo_port, kv_port, current. destruct (ddb_items d !! pk) as [it|]; [|by destruct all].
    cbn. rewrite isExpiredItem_lives. destruct all; cbn; [done|]. by destruct (lives_through now (item_row L it)).
Qed.

Lemma meets_put now d v o :
  dynamo_inv d -> value_ok L v -> index_ok L (opt_indexedKey o) -> meets (OpPut v o) now d.
Proof.
  intros Hinv Hv Hi. set (prev := match ddb_items d !! pk with None => 0 | Some it => item_version L it end).
  assert (0 <= prev /\ prev = version_of (item_row L <$> ddb_items d !! pk)) as [Hp Hprev].
  { unfold prev. destruct (ddb_items d !! pk) as [it|] eqn:E; [|done].
    destruct (item_version_read d it Hinv E). split; [lia|done]. }
  set (it := list_to_map (attrs_of L pk key (prev + 1) (resolveExpiry now o) (opt_indexedKey o)) ∪ v : item).
  exists (RPut (toRecord L it)), (<[pk := it]> (ddb_items d)). split; [|split].
  - cbn [method]. apply outcome_map. unfold put. apply outcome_raw. intros d' Hd. apply outcome_now.
    rewrite (buildItem_eq L key v _ _ _ pk Hv Hpk). cbn [lift]. rewrite Hpk. cbn [lift].
    eapply outcome_send; [done|done|]. intros d'' Hd'. apply outcome_ret. by rewrite Hd', Hd.
  - right. right. exists it. split; [done|]. apply built_ok; [done|done|lia].
  - rewrite lookup_insert_eq. cbn [fmap option_fmap option_map dynamo_port kv_port].
    pose proof (built_row L pk key v (prev + 1) (resolveExpiry now o) (opt_indexedKey o) Hlay Hv Hi) as Hrow.
    fold it in Hrow. change (toRecord L it) with (record_of (item_row L it)). by rewrite Hrow, Hprev.
Qed.

Lemma meets_cas now d n v o :
  dynamo_inv d -> 0 <= n -> value_ok L v -> index_ok L (opt_indexedKey o) ->
  meets (OpCompareAndSet n v o) now d.
Proof.
  intros Hinv Hn Hv Hi.
  set (c := if n =? 0 then CNotExists PARTITION_ATTR else CEq (versionAttr L) n).
  set (it := list_to_map (attrs_of L pk key (n + 1) (resolveExpiry now o) (opt_indexedKey o)) ∪ v : item).
  assert (forall a m, outcome (put_if L pk it c (report_current L key)) now d a m ->
    outcome (method L (OpCompareAndSet n v o) key) now d (RCas a) m) as Hm.
  { intros a m Ho. cbn [method]. apply outcome_map. unfold compareAndSet. apply outcome_now.
    rewrite (buildItem_eq L key v _ _ _ pk Hv Hpk). cbn [lift]. by rewrite Hpk. }
  assert (eval_cond c (ddb_items d !! pk) =
    match ddb_items d !! pk with
    | Some old => negb (n =? 0) && (item_version L old =? n)
    | None => n =? 0
    end) as Hc.
  { unfold c. destruct (ddb_items d !! pk) as [old|] eqn:E; [|by destruct (n =? 0)].
    destruct (Z.eqb_spec n 0) as [->|Hne]; cbn [negb andb].
    - destruct (item_version_read d old Hinv E) as (_ & _ & [x Hx]). cbn. by rewrite Hx.
    - rewrite (version_condition d old n Hinv E). destruct (Z.eqb_spec (item_version L old) n) as [->|]; [|by rewrite andb_false_r].
      by replace (n =? 0) with false by lia. }
  destruct (eval_cond c (ddb_items d !! pk)) eqn:Ec.
  - eapply meets_write; [exact Hm|done|done|lia|done|done|]. unfold dynamo_port.
    destruct (ddb_items d !! pk) as [old|]; cbn [fmap option_fmap option_map item_row row_version]; [by rewrite <- Hc|].
    assert (n = 0) as -> by lia. done.
  - apply (meets_reject _ now d it c); [exact Hm|done|]. unfold dynamo_port.
    destruct (ddb_items d !! pk) as [old|]; cbn [fmap option_fmap option_map item_row row_version]; [by rewrite <- Hc|].
    unfold kv_port. change (version_of (current lives_through now None)) with 0. by rewrite Z.eqb_sym, <- Hc.
Qed.

Lemma meets_fresher now d v inc idx :
  dynamo_inv d -> value_ok L v -> index_ok L idx -> meets (OpPutIfFresher v inc idx) now d.
Proof.
  intros Hinv Hv Hi.
  set (c := CNotExistsOrLess (ttlAttr L) inc).
  set (it := list_to_map (attrs_of L pk key 1 (Some inc) idx) ∪ v : item).
  assert (forall a m, outcome (put_if L pk it c (report_current L key)) now d a m ->
    outcome (method L (OpPutIfFresher v inc idx) key) now d (RCas a) m) as Hm.
  { intros a m Ho. cbn [method]. apply outcome_map. unfold putIfFresher.
    rewrite (buildItem_eq L key v _ _ _ pk Hv Hpk). cbn [lift]. by rewrite Hpk. }
  assert (forall old, ddb_items d !! pk = Some old -> old !! ttlAttr L = JNum <$> item_ttl L old) as Httl.
  { intros old E. destruct (Hinv _ _ _ Hpk E) as (_ & _ & Ht). unfold item_ttl.
    destruct (old !! ttlAttr L) as [j|]; [|done]. by destruct (Ht j eq_refl) as [z ->]. }
  assert (eval_cond c (ddb_items d !! pk) = fresher inc (item_row L <$> ddb_items d !! pk)) as Hc.
  { unfold c, fresher. destruct (ddb_items d !! pk) as [old|] eqn:E; [|done]. cbn. rewrite (Httl old eq_refl).
    by destruct (item_ttl L old). }
  assert (dynamo_port now (OpPutIfFresher v inc idx) (item_row L <$> ddb_items d !! pk) =
    if fresher inc (item_row L <$> ddb_items d !! pk) then applies (cached v 1 inc idx)
    else rejects lives_through now (item_row L <$> ddb_items d !! pk)) as Hport by (by destruct (ddb_items d !! pk)).
  rewrite <- Hc in Hport. destruct (eval_cond c (ddb_items d !! pk)) eqn:Ec.
  - by eapply meets_write; [exact Hm|..].
  - by apply (meets_reject _ now d it c).
Qed.

Lemma meets_absent now d v o :
  dynamo_inv d -> value_ok L v -> index_ok L (opt_indexedKey o) -> meets (OpPutIfAbsent v o) now d.
Proof.
  intros Hinv Hv Hi.
  set (e := resolveExpiry now o). set (idx := opt_indexedKey o).
  set (rej := classify L pk key v e idx (putIfAbsent L 0 key v o)).
  assert (forall a m,
    outcome (put_if L pk (list_to_map (attrs_of L pk key 1 e idx) ∪ v) (CNotExists PARTITION_ATTR) rej) now d a m ->
    outcome (method L (OpPutIfAbsent v o) key) now d (RCas a) m) as Hm.
  { intros a m Ho. cbn [method]. apply outcome_map. cbn [putIfAbsent]. apply outcome_now.
    fold e idx. rewrite (buildItem_eq L key v _ _ _ pk Hv Hpk). cbn [lift]. by rewrite Hpk. }
  destruct (ddb_items d !! pk) as [old|] eqn:E.
  2: { eapply meets_write; [exact Hm|done|done|done|by rewrite E|done|]. by rewrite E. }
  destruct (item_version_read d old Hinv E) as (Hpos & _ & [x Hpart]).
  assert (eval_cond (CNotExists PARTITION_ATTR) (ddb_items d !! pk) = false) as Hc
    by (rewrite E; simpl; by rewrite Hpart).
  destruct (isExpiredItem L now old) eqn:Ed; pose proof Ed as El; rewrite isExpiredItem_lives in El.
  - apply negb_true_iff in El.
    set (takeover := put_if L pk (list_to_map (attrs_of L pk key (item_version L old + 1) e idx) ∪ v)
      (CEq (versionAttr L) (item_version L old)) (report_current L key)).
    assert (forall a m, outcome takeover now d a m -> outcome (method L (OpPutIfAbsent v o) key) now d (RCas a) m) as Htake.
    { intros a m Ho. apply Hm. apply outcome_put_lose; [done|]. intros d' Hd. unfold rej, classify.
      apply outcome_raw. intros d'' Hd'. rewrite Hd, E. apply outcome_now. rewrite Ed. cbn [negb].
      unfold take_over. rewrite (buildItem_eq L key v _ _ _ pk Hv Hpk). cbn [lift].
      eapply outcome_items; [|exact Ho]. congruence. }
    pose proof (version_condition d old (item_version L old) Hinv E) as Hcond. rewrite <- E in Hcond at 1.
    rewrite Z.eqb_refl, andb_true_r in Hcond. destruct (Z.eqb_spec (item_version L old) 0) as [H0|H0]; cbn [negb] in Hcond.
    + eapply meets_reject; [exact Htake|done|]. rewrite E. unfold dynamo_port. cbn [fmap option_fmap option_map item_row row_version].
      by rewrite H0.
    + eapply meets_write; [exact Htake|done|done|lia|done|done|]. rewrite E. unfold dynamo_port, kv_port, current.
      cbn [fmap option_fmap option_map item_row row_version mbind option_bind]. replace (item_version L old =? 0) with false by lia.
      change (lives_through now _) with (lives_through now (item_row L old)). by rewrite El.
  - apply negb_false_iff in El. apply meets_lose. exists (Some (toRecord L old)). split.
    + apply Hm. apply outcome_put_lose; [done|]. intros d' Hd. unfold rej, classify.
      apply outcome_raw. intros d'' Hd'. rewrite Hd, E. apply outcome_now. rewrite Ed. cbn [negb].
      apply outcome_ret. congruence.
    + rewrite E. unfold dynamo_port, kv_port, rejects, current. cbn [fmap option_fmap option_map item_row row_version mbind option_bind].
      change (lives_through now _) with (lives_through now (item_row L old)). rewrite El. by destruct (item_version L old =? 0).
Qed.

Lemma meets_delete now d g : dynamo_inv d -> meets (OpDelete g) now d.
Proof.
  intros Hinv. set (c := match g with Some n => CEq (versionAttr L) n | None => CTrue end).
  set (b := eval_cond c (ddb_items d !! pk) && bool_decide (is_Some (ddb_items d !! pk))).
  exists (RBool b), (if eval_cond c (ddb_items d !! pk) then delete pk (ddb_items d) else ddb_items d).
  split; [|split].
  - cbn [method]. apply outcome_map. unfold delete_key. rewrite Hpk. cbn [lift]. fold c.
    destruct (eval_cond c (ddb_items d !! pk)) eqn:Ec.
    + eapply outcome_send; [cbn [ddb_effect]; rewrite Ec; done|done|].
      intros d' Hd. unfold b. by apply outcome_ret.
    + eapply outcome_send; [cbn [ddb_effect]; rewrite Ec; done|by intros e [= <-]|].
      intros d' Hd. unfold b. by apply outcome_ret.
  - destruct (eval_cond c _); auto.
  - unfold b. destruct (ddb_items d !! pk) as [old|] eqn:E; unfold c.
    + destruct g as [n|]; [|cbn; by rewrite lookup_delete_eq]. rewrite (version_condition d old n Hinv E).
      destruct (item_version_read d old Hinv E) as (Hpos & _).
      unfold dynamo_port, kv_port. cbn [fmap option_fmap option_map item_row row_version].
      destruct (Z.eqb_spec (item_version L old) n) as [<-|Hne]; [rewrite andb_true_r|rewrite andb_false_r].
      * destruct (Z.eqb_spec (item_version L old) 0) as [->|]; cbn [negb]; [by rewrite E|].
        rewrite lookup_delete_eq. destruct (item_version L old) eqn:Ev; [done|cbn; by rewrite ?Z.eqb_refl, ?Pos.eqb_refl|lia].
      * rewrite E. by destruct n.
    + destruct g as [n|]; cbn; rewrite ?lookup_delete_eq, ?E; [by destruct n|done].
Qed.

Lemma increment_base d f n :
  dynamo_inv d -> is_reserved L f = false ->
  numeric_field (item_row L <$> ddb_items d !! pk) f = Some n ->
  let base := default (key_item L pk) (ddb_items d !! pk) in
  let row := item_row L <$> ddb_items d !! pk in
  counts base f n /\ counts base (versionAttr L) (version_of row) /\ 0 <= version_of row.
Proof.
  intros Hinv Hr Hn base row. destruct (layout_distinct L Hlay) as (Hvp & _ & _ & Hsv & _).
  unfold base, row, numeric_field, counts in *. destruct (ddb_items d !! pk) as [it|] eqn:E; simpl in *.
  - destruct (item_version_read d it Hinv E) as (? & Hver & _).
    split; [|split; [destruct Hver as [[??]|[??]]; [by left|by right]|lia]].
    unfold extractValue in Hn. rewrite map_lookup_filter in Hn.
    destruct (it !! f) as [j|]; simpl in *; [|left; split; congruence].
    rewrite option_guard_True in Hn by done. simpl in Hn. destruct j; naive_solver.
  - rewrite lookup_empty in Hn. split; [left; split; [by apply key_item_field|congruence]|].
    split; [left; split; [by apply key_item_other|done]|lia].
Qed.

Lemma increment_item_ok base f x ver e :
  is_reserved L f = false -> 0 < ver -> is_Some (base !! PARTITION_ATTR) ->
  (forall j, base !! ttlAttr L = Some j -> exists z, j = JNum z) ->
  let it1 := <[versionAttr L := JNum ver]> (<[f := JNum x]> base) in
  item_ok L match ttl_once L e with
            | Some (a, z) => match it1 !! a with None => <[a := JNum z]> it1 | Some _ => it1 end
            | None => it1
            end.
Proof.
  intros Hr Hpos Hp Ht it1. destruct (layout_distinct L Hlay) as (Hvp & Htp & Htv & _).
  assert (forall a, is_reserved L a = true -> f <> a) as Hne by (intros a Ha ->; congruence).
  assert (f <> PARTITION_ATTR) as Hfp by (apply Hne, is_reserved_elem; left).
  assert (item_ok L it1) as Hok.
  { unfold it1. split; [by rewrite !lookup_insert_ne by congruence|]. split.
    - exists ver. by rewrite lookup_insert_eq.
    - rewrite !lookup_insert_ne by (congruence || apply Hne, reserved_ttl). exact Ht. }
  destruct e as [e|]; [|done]. simpl. destruct (it1 !! ttlAttr L) eqn:E; [done|].
  destruct Hok as (H1 & (v & Hv & H2) & _). split; [by rewrite lookup_insert_ne by congruence|]. split.
  - exists v. rewrite lookup_insert_ne by congruence. done.
  - rewrite lookup_insert_eq. intros j [= <-]. by exists e.
Qed.

Lemma meets_increment now d f delta o :
  dynamo_inv d -> valid_field f = true -> is_reserved L f = false ->
  is_Some (numeric_field (item_row L <$> ddb_items d !! pk) f) -> meets (OpIncrement f delta o) now d.
Proof.
  intros Hinv Hf Hr [n Hn].
  destruct (layout_distinct L Hlay) as (Hvp & Htp & Htv & Hsv & Hst & _).
  set (base := default (key_item L pk) (ddb_items d !! pk)).
  set (row := item_row L <$> ddb_items d !! pk) in *.
  assert (counts base f n /\ counts base (versionAttr L) (version_of row) /\ 0 <= version_of row)
    as (Hbf & Hbv & Hold) by (by apply increment_base).
  assert (f <> versionAttr L) as Hfv by (intros ->; rewrite reserved_version in Hr; done).
  assert (forall j, base !! ttlAttr L = Some j -> exists z, j = JNum z) as Hbt.
  { unfold base. destruct (ddb_items d !! pk) as [it|] eqn:E; simpl.
    - by destruct (Hinv _ _ _ Hpk E) as (_ & _ & ?).
    - intros j. by rewrite key_item_other. }
  pose proof (increment_row L Hlay base f (n + delta) (version_of row + 1) (resolveExpiry now o) Hr Hbt) as Hrow.
  set (it1 := <[versionAttr L := _]> _) in Hrow. cbv zeta in Hrow.
  set (it2 := match ttl_once L _ with Some _ => _ | None => _ end) in Hrow.
  assert (item_row L it2 = incremented now row f (n + delta) o) as Hinc.
  { rewrite Hrow. unfold incremented, row, base. destruct (ddb_items d !! pk) as [it|]; simpl; [done|].
    pose proof (key_item_row L Hlay pk) as Hk. f_equal; [|by rewrite (f_equal row_expiresAt Hk : item_ttl _ _ = None)|
      exact (f_equal row_indexedKey Hk)].
    by rewrite (f_equal row_value Hk : extractValue _ _ = ∅). }
  exists (RNumber (JNum (n + delta))), (<[pk := it2]> (ddb_items d)). split; [|split].
  - cbn [method]. apply outcome_map. unfold increment. rewrite Hf. cbn [negb]. apply outcome_now.
    unfold keyAttr. rewrite Hpk. cbn [result_bind lift].
    eapply outcome_send; [cbn [ddb_effect]; fold (key_item L pk); fold (ttl_once L (resolveExpiry now o));
      rewrite increment_paths_ok by done; fold base;
      rewrite (increment_adds L base f n (version_of row) delta Hfv Hbf Hbv); fold it1; fold it2; done|done|].
    intros d' Hd. cbn [mbind option_bind].
    assert (it2 !! f = Some (JNum (n + delta))) as ->; [|by apply outcome_ret].
    apply (f_equal row_value) in Hinc. apply (f_equal (lookup f)) in Hinc. simpl in Hinc.
    rewrite lookup_insert_eq in Hinc. unfold extractValue in Hinc. rewrite map_lookup_filter in Hinc.
    destruct (it2 !! f) as [j|]; simpl in Hinc; [|done].
    by rewrite option_guard_True in Hinc by done.
  - right. right. exists it2. split; [done|]. apply increment_item_ok; [done|lia| |done].
    unfold base. destruct (ddb_items d !! pk) as [it|] eqn:E; simpl; [by apply (Hinv _ _ _ Hpk E)|].
    unfold key_item. simpl. rewrite lookup_insert_eq. by eexists.
  - rewrite lookup_insert_eq. cbn [fmap option_fmap option_map]. rewrite Hinc.
    fold row. unfold dynamo_port, kv_port. rewrite Hn. by destruct row.
Qed.
End one_key.

Lemma dynamo_step_port d now key op : dynamo_inv d -> dynamo_valid key op (dynamo_view d key) ->
  exists d' resp, dynamo_step d now key op = Ok (d', resp) /\ dynamo_inv d' /\ (versioned d -> versioned d') /\
    (dynamo_view d' key, resp) = dynamo_port now op (dynamo_view d key) /\
    (forall key', key' <> key -> dynamo_view d' key' = dynamo_view d key').
Proof.
  intros Hinv (Hlay & Hk & Hvalid). destruct (buildPk L key) as [pk|] eqn:Hpk; [|done].
  apply (meets_step key pk Hpk op now d Hinv).
  destruct op as [all|v o|v o|n v o|v inc idx|f dl o|g];
    try match type of Hvalid with _ /\ _ => destruct Hvalid as [H1 H2] end.
  - by apply meets_get.
  - by apply meets_put.
  - by apply meets_absent.
  - destruct H2. by apply meets_cas.
  - by apply meets_fresher.
  - destruct H2 as [H2 H3]. rewrite (view_key key pk Hpk) in H3. by apply meets_increment.
  - by apply meets_delete.
Qed.

(** The departures of versioned rows are among those the common contract allows. *)
Lemma dynamo_port_common now key op row : (forall r, row = Some r -> 0 < row_version r) -> dynamo_valid key op row ->
  kv_spec now op row (fst (dynamo_port now op row)) (snd (dynamo_port now op row)).
Proof.
  intros Hpos (_ & _ & Hvalid).
  assert (kv_spec now op row (fst (kv_port lives_through now op row)) (snd (kv_port lives_through now op row))) as Hport.
  { apply port_common; [apply lives_through_second|done|]. destruct op; try done; naive_solver. }
  destruct row as [r|]; [|by destruct op as [| | | | | |[[]|]]]. pose proof (Hpos r eq_refl) as Hr.
  pose proof (current_reported lives_through lives_through_second now (Some r)) as Hrep.
  destruct op as [| |v o|n v o|v inc idx| |[[| |]|]]; try done; cbn [dynamo_port].
  - by replace (row_version r =? 0) with false by lia.
  - destruct (negb (n =? 0) && (row_version r =? n)) eqn:E; cbn [applies rejects fst snd].
    + bool_hyps. by apply spec_cas_win.
    + apply spec_cas_lose; [left|done]. intros Hn. rewrite Hn, Z.eqb_refl, andb_true_r in E. lia.
  - destruct (fresher inc (Some r)) eqn:Ef; cbn [applies rejects fst snd]; unfold fresher in Ef; cbn in Ef.
    + apply spec_fresher_win; [right|by left]. destruct (row_expiresAt r); [lia|done].
    + destruct (row_expiresAt r) as [e|] eqn:Ee; [|done]. eapply spec_fresher_lose; [done|lia|done].
  - apply spec_delete_miss. cbn. lia.
Qed.

#[export] Instance DynamoKvStore_ok : KvAdapterOk DynamoKvStore.
Proof.
  split. intros d now key op [Hinv Hver] Hvalid. cbn [kv_step kv_view kv_inv DynamoKvStore kv_state kv_valid] in *.
  destruct (dynamo_step_port d now key op Hinv Hvalid) as (d' & resp & Hstep & Hinv' & Hver' & Hport & Hframe).
  exists d', resp. split; [done|]. split; [by split; [|apply Hver']|]. split; [|done].
  assert (dynamo_view d' key = fst (dynamo_port now op (dynamo_view d key))) as -> by (by rewrite <- Hport).
  assert (resp = snd (dynamo_port now op (dynamo_view d key))) as -> by (by rewrite <- Hport).
  apply (dynamo_port_common now key); [|done]. intros r Hr. unfold dynamo_view in Hr.
  destruct (buildPk L key) as [pk|] eqn:Hpk; [|done]. apply fmap_Some in Hr as (it & Hit & ->). by apply (Hver key pk it).
Qed.

(** [queryByIndex], over the items that a query of the index returns: those of
    the table that carry the value. *)
Lemma stripPk_prefix k : stripPk L (pkPrefix L +:+ pkSeparator L +:+ k) = k.
Proof.
  unfold stripPk. rewrite <- str_app_assoc.
  replace (startsWith _ _) with true by (symmetry; apply prefix_spec; by eexists). by rewrite str_drop_app.
Qed.

Lemma dynamo_index_lookup d now ix items idx :
  index L = Some ix ->
  (forall pk it, ddb_items d !! pk = Some it -> it !! PARTITION_ATTR = Some (JStr pk)) ->
  NoDup items ->
  (forall it, it ∈ items <-> exists pk, ddb_items d !! pk = Some it /\ it !! ix_pkAttr ix = Some (JStr idx)) ->
  exists found, queryByIndex L now items = Ok found /\
    index_lookup lives_through now (fun k => item_row L <$> ddb_items d !! (pkPrefix L +:+ pkSeparator L +:+ k)) idx found.
Proof.
  intros Hix Hpk Hnd Hitems. unfold queryByIndex. rewrite Hix. eexists. split; [reflexivity|].
  set (read := fun it => if isExpiredItem L now it then None
    else match it !! PARTITION_ATTR with
         | Some (JStr pk) => if startsWith pk (pkPrefix L +:+ pkSeparator L) then Some (stripPk L pk, toRecord L it) else None
         | _ => None end).
  assert (forall it k rec, it ∈ items -> read it = Some (k, rec) <->
    ddb_items d !! (pkPrefix L +:+ pkSeparator L +:+ k) = Some it /\
    lives_through now (item_row L it) = true /\ rec = toRecord L it) as Hread.
  { intros it k rec Hin. apply Hitems in Hin as (pk & Hit & _). unfold read. rewrite isExpiredItem_lives, (Hpk _ _ Hit).
    destruct (lives_through now (item_row L it)); cbn [negb]; [|naive_solver]. split.
    - destruct (startsWith pk _) eqn:Es; [|done]. apply prefix_spec in Es as [k' ->]. intros [= <- <-].
      rewrite str_app_assoc in *. by rewrite stripPk_prefix.
    - intros (Hit' & _ & ->). assert (pk = pkPrefix L +:+ pkSeparator L +:+ k) as ->
        by (pose proof (Hpk _ _ Hit'); pose proof (Hpk _ _ Hit); congruence).
      replace (startsWith _ _) with true; [by rewrite stripPk_prefix|].
      symmetry. apply prefix_spec. rewrite <- str_app_assoc. by eexists. }
  split.
  - clear Hitems. induction items as [|it items IH]; [constructor|]. apply NoDup_cons in Hnd as [Hni Hnd]. cbn [omap list_omap].
    assert (forall it k rec, it ∈ items -> read it = Some (k, rec) <->
      ddb_items d !! (pkPrefix L +:+ pkSeparator L +:+ k) = Some it /\
      lives_through now (item_row L it) = true /\ rec = toRecord L it) as Hread' by (intros; apply Hread; by right).
    specialize (IH Hnd Hread'). fold (read it). destruct (read it) as [[k rec]|] eqn:Er; [|exact IH].
    cbn [map fst]. apply NoDup_cons. split; [|exact IH]. intros ([k' rec'] & -> & Hin)%list_elem_of_fmap.
    apply list_elem_of_omap in Hin as (it' & Hin' & Er'). apply Hread in Er as [Hk _]; [|left].
    apply Hread' in Er' as [Hk' _]; [|done]. cbn in Hk. apply Hni. congruence.
  - intros k rec. rewrite list_elem_of_omap. split.
    + intros (it & Hin & Er). apply Hread in Er as (Hit & Hl & ->); [|done]. exists (item_row L it). rewrite Hit. split; [done|].
      split; [|done]. apply Hitems in Hin as (_ & _ & Hi). cbn. by rewrite Hix; cbn; rewrite Hi.
    + intros (r & Hr & Hi & Hl & ->). apply fmap_Some in Hr as (it & Hit & ->). exists it.
      assert (it ∈ items) as Hin.
      { apply Hitems. eexists. split; [done|]. cbn in Hi. rewrite Hix in Hi. cbn in Hi.
        destruct (it !! ix_pkAttr ix) as [[]|]; congruence. }
      split; [done|]. by apply Hread.
Qed.
End adapter.

(** ** Properties *)

(** C33 (refinement). At rest, with every message delivered, the DynamoDB store
    does what the port documents, with these departures: a compare-and-set on a
    version looks at the stored row even if it has expired, one that creates
    fails over an expired row; a freshness write is compared with the stored
    expiry even of an expired row; a legacy row (no version) is neither taken
    over nor deleted by its version. On a table of items the adapter wrote and
    legacy rows, entries living through the second of their expiry, every call
    (with fields and index the layout admits; of an increment, on an integer or
    missing field) leaves its key and answers so and leaves other keys alone;
    [queryByIndex] returns the live rows of that index value, each once, if the
    index query returns the items that carry it. *)
Theorem dynamo_refines_port (L : DynamoKvLayout) `{DynamoDB} (d : ddb) now key op :
  dynamo_inv L d -> dynamo_valid L key op (dynamo_view L d key) ->
  (exists d' resp, dynamo_step L d now key op = Ok (d', resp) /\ dynamo_inv L d' /\
    (dynamo_view L d' key, resp) =
      match op, dynamo_view L d key with
      | OpPutIfAbsent _ _, Some r =>
          if row_version r =? 0 then rejects lives_through now (dynamo_view L d key)
          else kv_port lives_through now op (dynamo_view L d key)
      | OpCompareAndSet n v o, Some r =>
          if negb (n =? 0) && (row_version r =? n) then applies (written now v (n + 1) o)
          else rejects lives_through now (dynamo_view L d key)
      | OpPutIfFresher v incoming idx, Some r =>
          if fresher incoming (dynamo_view L d key) then applies (cached v 1 incoming idx)
          else rejects lives_through now (dynamo_view L d key)
      | OpDelete (Some 0), Some _ => (dynamo_view L d key, RBool false)
      | _, _ => kv_port lives_through now op (dynamo_view L d key)
      end /\
    (forall key', key' <> key -> dynamo_view L d' key' = dynamo_view L d key')) /\
  (forall ix items idx, index L = Some ix ->
    (forall pk it, ddb_items d !! pk = Some it -> it !! "pk" = Some (JStr pk)) -> NoDup items ->
    (forall it, it ∈ items <-> exists pk, ddb_items d !! pk = Some it /\ it !! ix_pkAttr ix = Some (JStr idx)) ->
    exists found, queryByIndex L now items = Ok found /\
      index_lookup lives_through now (fun k => item_row L <$> ddb_items d !! (pkPrefix L +:+ pkSeparator L +:+ k)) idx found).
Proof.
  intros Hinv Hvalid. split; [|intros; by eapply dynamo_index_lookup].
  destruct (dynamo_step_port L d now key op Hinv Hvalid) as (d' & resp & Hstep & Hinv' & _ & Hport & Hframe).
  exists d', resp. done.
Qed.

(** The layout of an indexed namespace. *)
Definition session_layout : DynamoKvLayout :=
  {| tableName := "sessions"; pkPrefix := "agent-refresh"; pkSeparator := ":";
     allowSeparatorInKey := false; skName := Some "sk"; skValue := "meta"; ttlAttr := "ttl";
     versionAttr := "_v";
     index := Some {| ix_name := "gsi1"; ix_pkAttr := "gsi1pk"; ix_skAttr := Some "gsi1sk" |} |}.

Lemma session_layout_ok : layout_ok session_layout.
Proof. apply (bool_decide_unpack _). vm_compute. exact I. Qed.

Definition no_options : KvWriteOptions :=
  {| opt_ttlSeconds := None; opt_expiresAt := None; opt_indexedKey := None |}.
Definition ttl (n : Z) : KvWriteOptions :=
  {| opt_ttlSeconds := Some n; opt_expiresAt := None; opt_indexedKey := None |}.

(** A legacy row, of the index value [u]. *)
#[local] Definition legacy_table : gmap string item :=
  {[ "agent-refresh:k" := {[ "pk" := JStr "agent-refresh:k"; "units" := JNum 4; "gsi1pk" := JStr "u" ]} ]}.

#[local] Lemma legacy_lookup pk it : legacy_table !! pk = Some it ->
  "agent-refresh:k" = pk /\ {[ "pk" := JStr "agent-refresh:k"; "units" := JNum 4; "gsi1pk" := JStr "u" ]} = it.
Proof. unfold legacy_table. apply lookup_singleton_Some. Qed.

Lemma dynamo_refines_port_witness :
  let L := session_layout in
  let view d k := @dynamo_view L in_memory_ddb d k in
  let op := OpIncrement "units" 3 (ttl 60) in
  (exists d' resp, @dynamo_step L in_memory_ddb legacy_table 5000 "k" op = Ok (d', resp) /\
    (view d' "k", resp) = kv_port lives_through 5000 op (view legacy_table "k")) /\
  exists found, queryByIndex L 5000 (map snd (map_to_list legacy_table)) = Ok found /\
    index_lookup lives_through 5000 (fun k => item_row L <$> legacy_table !! ("agent-refresh:" +:+ k)) "u" found.
Proof.
  intros L view op.
  destruct (@dynamo_refines_port L in_memory_ddb legacy_table 5000 "k" op) as [(d' & resp & H1 & _ & H2 & _) Hq].
  - intros key pk it _ Hit. apply legacy_lookup in Hit as [<- <-].
    split; [by eexists|]. split; [by left|]. intros j Hj. discriminate Hj.
  - split; [exact session_layout_ok|]. split; [reflexivity|]. split; [reflexivity|].
    split; [reflexivity|]. by exists 4.
  - split; [exists d', resp; split; [exact H1|exact H2]|].
    refine (Hq _ (map snd (map_to_list legacy_table)) "u" eq_refl _ _ _); unfold legacy_table.
    + intros pk it Hit. apply legacy_lookup in Hit as [<- <-]. reflexivity.
    + rewrite map_to_list_singleton. apply NoDup_singleton.
    + intros it. rewrite map_to_list_singleton. cbn [map snd]. rewrite list_elem_of_singleton. split.
      * intros ->. exists "agent-refresh:k". split; [exact (lookup_singleton_eq _ _)|reflexivity].
      * intros (pk & Hit & _). apply legacy_lookup in Hit as [_ <-]. reflexivity.
Defined.

(** Also (roundtrip). What [buildItem] stores reads back: when the layout's
    reserved names are distinct and no field of the value uses one, the record
    rebuilt from the item is the value, version and expiry that were written;
    a colliding field or a key with the separator is rejected. *)
Theorem buildItem_toRecord L key v ver e idx :
  layout_ok L ->
  match buildItem L key v ver e idx with
  | Ok it => toRecord L it = {| value := v; version := ver; expiresAt := e |}
  | Throw _ => (exists f, is_reserved L f = true /\ is_Some (v !! f)) \/ is_ok (buildPk L key) = false
  end.
Proof.
  intros Hlay. destruct (existsb (is_reserved L) (map fst (map_to_list v))) eqn:E.
  - unfold buildItem. rewrite E. left.
    apply existsb_exists_In in E as (f & Hf & Hr). exists f. split; [done|].
    apply list_elem_of_fmap in Hf as ([f' j] & -> & Hj%elem_of_map_to_list). by exists j.
  - assert (value_ok L v) as Hv.
    { intros f Hf. destruct (v !! f) as [j|] eqn:Ej; [|done].
      apply existsb_false_Forall in E. rewrite Forall_forall in E.
      rewrite (E f) in Hf; [done|]. apply list_elem_of_fmap. exists (f, j).
      split; [done|by apply elem_of_map_to_list]. }
    destruct (buildPk L key) as [pk|err] eqn:Hpk.
    + rewrite (buildItem_eq L key v ver e idx pk Hv Hpk). unfold toRecord.
      rewrite built_value, built_ttl by done. f_equal.
      unfold item_version. by rewrite built_version.
    + unfold buildItem, keyAttr. rewrite E, Hpk. simpl. by right.
Qed.

Lemma buildItem_toRecord_witness :
  let v : KvValue := {[ "userId" := JStr "u1" ]} in
  match buildItem session_layout "s1" v 3 (Some 99) (Some "u#u1") with
  | Ok it => toRecord session_layout it = {| value := v; version := 3; expiresAt := Some 99 |}
  | Throw _ => (exists f, is_reserved session_layout f = true /\ is_Some (v !! f)) \/
               is_ok (buildPk session_layout "s1") = false
  end.
Proof. intros v. apply (buildItem_toRecord session_layout "s1" v). exact session_layout_ok. Defined.

(** Finding (safety). A lost reply breaks the single application that the port
    promises: the retry policy sends the command again, so one [increment] by
    5 adds 10 and bumps the version twice, and a [putIfAbsent] whose write
    landed reports that it lost, with its own record as the winner's. *)
Theorem lost_reply_applies_twice :
  let L := session_layout in
  let once := [LostReply] in
  let '(d1, r1) := @run_prog in_memory_ddb _ (increment L "c" "units" 5 no_options) 0 once ∅ in
  let v : KvValue := {[ "owner" := JStr "me" ]} in
  let '(d2, r2) := @run_prog in_memory_ddb _ (putIfAbsent L 1 "lock" v no_options) 0 once ∅ in
  r1 = Ok (JNum 10) /\
  row_version <$> @dynamo_view L in_memory_ddb d1 "c" = Some 2 /\
  r2 = Ok {| applied := false;
             record := Some {| value := v; version := 1; expiresAt := None |} |} /\
  row_value <$> @dynamo_view L in_memory_ddb d2 "lock" = Some v.
Proof. vm_compute. repeat split. Qed.

(** An expired row that has not been swept, of version 3: a compare-and-set on 3
    still wins, and one that requires absence loses, where reads and
    [putIfAbsent] take the row to be absent. *)
Lemma compare_and_set_ignores_expiry :
  let L := session_layout in
  let d : gmap string item := {[ "agent-refresh:k" := {[ "pk" := JStr "agent-refresh:k"; "_v" := JNum 3; "ttl" := JNum 1 ]} ]} in
  let outcome n := applied <$> (match snd (@run_prog in_memory_ddb _ (compareAndSet L "k" n ∅ no_options) 5000 [] d) with
                                | Ok r => Some r | Throw _ => None end) in
  snd (@run_prog in_memory_ddb _ (get L "k" false) 5000 [] d) = Ok None /\
  outcome 3 = Some true /\ outcome 0 = Some false.
Proof. vm_compute. repeat split. Qed.

(** A row written before the version attribute existed reads as version 0,
    but no compare-and-set can move it, and once expired no [putIfAbsent]
    takes it over. *)
Lemma legacy_row_is_stuck :
  let L := session_layout in
  let legacy : item := {[ "pk" := JStr "agent-refresh:k"; "ttl" := JNum 1 ]} in
  let d : gmap string item := {[ "agent-refresh:k" := legacy ]} in
  version <$> (match snd (@run_prog in_memory_ddb _ (get L "k" true) 5000 [] d) with
               | Ok r => r | Throw _ => None end) = Some 0 /\
  (forall r, r = snd (@run_prog in_memory_ddb _ (compareAndSet L "k" 0 ∅ no_options) 5000 [] d) ->
     r = Ok {| applied := false; record := None |}) /\
  snd (@run_prog in_memory_ddb _ (putIfAbsent L 1 "k" ∅ no_options) 5000 [] d)
  = Ok {| applied := false; record := None |}.
Proof. vm_compute. repeat split. by intros r ->. Qed.

(** [increment] does not check its field against the reserved attributes: on
    the field [ttl] it moves the expiry of the record. *)
Lemma increment_moves_expiry :
  let L := session_layout in
  let put1 := @run_prog in_memory_ddb _ (put L "k" ∅ (ttl 100)) 0 [] ∅ in
  let inc := @run_prog in_memory_ddb _ (increment L "k" "ttl" (-99) no_options) 0 [] (fst put1) in
  snd inc = Ok (JNum 1) /\
  row_expiresAt <$> @dynamo_view L in_memory_ddb (fst inc) "k" = Some (Some 1).
Proof. vm_compute. split; reflexivity. Qed.
