(* ===== verification/DynamoRace.v ===== *)
(** Concurrent [putIfAbsent] on DynamoDB
    ([packages/foundation/src/kv/dynamo-kv-store.ts]): any number of calls on
    one key, interleaved command by command with clock readings of their own,
    have at most one winner. *)

From S2P Require Import Prelude JsString KvStore DynamoDb DynamoKvStore.

#[local] Open Scope string_scope.
#[local] Open Scope Z_scope.

Section race.
Context (L : DynamoKvLayout) `{DynamoDB}.
Context (key pk : string) (times : list Z) (row0 : option item).
Context (Hlay : layout_ok L) (Hpk : buildPk L key = Ok pk).
Context (Hrow0 : forall it, row0 = Some it -> item_ok L it).

(** A call's value and options: storable, and not expired at any clock
    reading of the race. *)
Definition call_ok (c : KvValue * KvWriteOptions) : Prop :=
  value_ok L c.1 /\
  forall t t' e, t ∈ times -> t' ∈ times -> resolveExpiry t c.2 = Some e -> t' < e * 1000 + 1000.

Definition item_for (c : KvValue * KvWriteOptions) (now ver : Z) : item :=
  list_to_map (attrs_of L pk key ver (resolveExpiry now c.2) (opt_indexedKey c.2)) ∪ c.1.

Definition classify_at (c : KvValue * KvWriteOptions) (now : Z) (fuel : nat) : prog KvCasResult :=
  classify L pk key c.1 (resolveExpiry now c.2) (opt_indexedKey c.2) (putIfAbsent L fuel key c.1 c.2).

(** The points of one call, given the items [rows] it may have read. *)
Inductive stage (rows : item -> Prop) (c : KvValue * KvWriteOptions) : prog KvCasResult -> Prop :=
| st_start fuel : stage rows c (putIfAbsent L fuel key c.1 c.2)
| st_create now fuel : now ∈ times ->
    stage rows c (put_if L pk (item_for c now 1) (CNotExists PARTITION_ATTR) (classify_at c now fuel))
| st_read now fuel : now ∈ times -> stage rows c (classify_at c now fuel)
| st_classify now it : now ∈ times -> rows it ->
    stage rows c (Now (fun now' =>
      if negb (isExpiredItem L now' it) then Ret {| applied := false; record := Some (toRecord L it) |}
      else take_over L pk key c.1 (resolveExpiry now c.2) (opt_indexedKey c.2) it))
| st_take now it : now ∈ times -> row0 = Some it ->
    stage rows c (put_if L pk (item_for c now (item_version L it + 1))
                    (CEq (versionAttr L) (item_version L it)) (report_current L key))
| st_report : stage rows c (report_current L key)
| st_report_now it : stage rows c (Now (fun now' =>
    Ret {| applied := false; record := if isExpiredItem L now' it then None else Some (toRecord L it) |}))
| st_lost rec : stage rows c (Ret {| applied := false; record := rec |})
| st_raise e : stage rows c (Raise e).

Lemma stage_mono (rows rows' : item -> Prop) c p :
  (forall it, rows it -> rows' it) -> stage rows c p -> stage rows' c p.
Proof. intros Hi Hs. destruct Hs; econstructor; eauto. Qed.

(** One command of a thread, where no write of it succeeds. *)
Definition winner_item (it : item) : Prop :=
  exists c now, call_ok c /\ now ∈ times /\
    it = item_for c now (match row0 with Some r => item_version L r | None => 0 end + 1).

Lemma winner_facts it now :
  winner_item it -> now ∈ times ->
  isExpiredItem L now it = false /\ is_Some (it !! PARTITION_ATTR) /\
  it !! versionAttr L = Some (JNum (match row0 with Some r => item_version L r | None => 0 end + 1)).
Proof.
  intros (c & t & [Hv Hexp] & Ht & ->) Hnow. unfold item_for.
  split; [|split; [eexists; apply built_lookup; [done|left]|by apply built_version]].
  unfold isExpiredItem. rewrite built_ttl by done.
  destruct (resolveExpiry t c.2) as [e|] eqn:Ee; [|done].
  pose proof (Hexp t now e Ht Hnow Ee). unfold nowSeconds. apply Z.ltb_ge.
  pose proof (Z.div_mod now 1000 ltac:(lia)). pose proof (Z.mod_pos_bound now 1000 ltac:(lia)). lia.
Qed.

Lemma send_put d it c :
  exists d', ddb_send d (PutItem pk it c)
    = (d', if eval_cond c (ddb_items d !! pk) then Ok None else Throw ConditionalCheckFailed) /\
    ddb_items d' = if eval_cond c (ddb_items d !! pk) then <[pk := it]> (ddb_items d) else ddb_items d.
Proof.
  destruct (eval_cond c (ddb_items d !! pk)) eqn:E;
    (eapply ddb_send_effect; cbn [ddb_effect]; by rewrite E).
Qed.

Lemma send_get d :
  exists d', ddb_send d (GetItem pk) = (d', Ok (ddb_items d !! pk)) /\ ddb_items d' = ddb_items d.
Proof. by apply ddb_send_effect. Qed.

(** A step of a call, wherever it stands: it reads or is refused and the
    table stays as it is, or it wins and its item is the row. *)
Lemma stage_step rows c p d now :
  call_ok c -> stage rows c p -> now ∈ times ->
  (forall it, ddb_items d !! pk = Some it -> rows it) ->
  (forall it, rows it -> isExpiredItem L now it = true -> row0 = Some it) ->
  let '(d', p') := thread_step now d p in
  (stage rows c p' /\ ddb_items d' = ddb_items d) \/
  (exists it, p' = Ret {| applied := true; record := Some (toRecord L it) |} /\
     ddb_items d' = <[pk := it]> (ddb_items d) /\
     ((ddb_items d !! pk ≫= lookup PARTITION_ATTR = None /\ exists t, t ∈ times /\ it = item_for c t 1) \/
      (exists old t, row0 = Some old /\ t ∈ times /\ it = item_for c t (item_version L old + 1) /\
         exists cur z, ddb_items d !! pk = Some cur /\ cur !! versionAttr L = Some (JNum z) /\
           z = item_version L old))).
Proof.
  intros Hc Hs Hnow Hrows Hexp. pose proof Hc as [Hv _].
  destruct Hs as [fuel|t fuel Ht|t fuel Ht|t it Ht Hit|t it Ht Hr0| |it|rec|e].
  - destruct fuel as [|fuel]; cbn [putIfAbsent thread_step]; left; [split; [constructor|done]|].
    rewrite (buildItem_eq L key c.1 _ _ _ pk Hv Hpk). cbn [lift]. rewrite Hpk. cbn [lift].
    split; [by apply (st_create rows c now fuel)|done].
  - unfold put_if. cbn [thread_step].
    destruct (send_put d (item_for c t 1) (CNotExists PARTITION_ATTR)) as (d' & -> & Hd).
    destruct (eval_cond _ _) eqn:Ec; cbn [isConditionalCheckFailed error_name].
    + right. exists (item_for c t 1). split; [done|]. split; [done|]. left.
      simpl in Ec. split; [by destruct (_ ≫= _)|eauto].
    + left. split; [by constructor|done].
  - unfold classify_at, classify, getRawItem. rewrite Hpk. cbn [lift thread_step].
    destruct (send_get d) as (d' & -> & Hd). left. split; [|done].
    destruct (ddb_items d !! pk) as [it|]; [apply st_classify; auto|constructor].
  - cbn [thread_step]. left. split; [|done].
    destruct (isExpiredItem L now it) eqn:Ee; cbn [negb]; [|constructor].
    unfold take_over. rewrite (buildItem_eq L key c.1 _ _ _ pk Hv Hpk). cbn [lift].
    apply (st_take rows c t it); auto.
  - unfold put_if. cbn [thread_step].
    destruct (send_put d (item_for c t (item_version L it + 1)) (CEq (versionAttr L) (item_version L it)))
      as (d' & -> & Hd).
    destruct (eval_cond _ _) eqn:Ec; cbn [isConditionalCheckFailed error_name].
    + right. eexists. split; [done|]. split; [done|]. right. exists it, t. repeat (split; [done|]).
      simpl in Ec. destruct (ddb_items d !! pk) as [cur|]; [|done]. simpl in Ec.
      destruct (cur !! versionAttr L) as [[]|] eqn:Ez; try done. bool_hyps. eauto.
    + left. split; [constructor|done].
  - unfold report_current, getRawItem. rewrite Hpk. cbn [lift thread_step].
    destruct (send_get d) as (d' & -> & Hd). left. split; [|done].
    destruct (ddb_items d !! pk); constructor.
  - cbn [thread_step]. left. split; [constructor|done].
  - cbn [thread_step]. left. split; [constructor|done].
  - cbn [thread_step]. left. split; [constructor|done].
Qed.

Definition threads_at (rows : item -> Prop) (calls : list (KvValue * KvWriteOptions))
    (except : option nat) (threads : list (prog KvCasResult)) : Prop :=
  forall i p, threads !! i = Some p -> except <> Some i ->
    exists c, calls !! i = Some c /\ stage rows c p.

Definition winner_rows (w it : item) : Prop := row0 = Some it \/ it = w.

(** Before and after the one winning write. *)
Definition race_inv (calls : list (KvValue * KvWriteOptions)) (d : ddb)
    (threads : list (prog KvCasResult)) : Prop :=
  (ddb_items d !! pk = row0 /\ threads_at (fun it => row0 = Some it) calls None threads) \/
  (exists w i, winner_item w /\ ddb_items d !! pk = Some w /\
     threads !! i = Some (Ret {| applied := true; record := Some (toRecord L w) |}) /\
     threads_at (winner_rows w) calls (Some i) threads).

Lemma threads_at_insert rows calls except threads i c p :
  threads_at rows calls except threads -> calls !! i = Some c -> stage rows c p ->
  threads_at rows calls except (<[i := p]> threads).
Proof.
  intros Hth Hc Hs j q [(<- & <- & _)|[Hne Hq]]%list_lookup_insert_Some He; [by exists c|by apply Hth].
Qed.

Lemma first_write_wins c t it d :
  call_ok c -> ddb_items d !! pk = row0 ->
  ((ddb_items d !! pk ≫= lookup PARTITION_ATTR = None /\ exists t, t ∈ times /\ it = item_for c t 1) \/
   (exists old t, row0 = Some old /\ t ∈ times /\ it = item_for c t (item_version L old + 1) /\
      exists cur z, ddb_items d !! pk = Some cur /\ cur !! versionAttr L = Some (JNum z) /\
        z = item_version L old)) -> t ∈ times -> winner_item it.
Proof.
  intros Hc Hrow [[Hnone (t' & Ht & ->)]|(old & t' & Hold & Ht & -> & _)] _; unfold winner_item.
  - assert (row0 = None) as ->.
    { rewrite Hrow in Hnone. destruct row0 as [r|] eqn:E; [|done].
      destruct (Hrow0 r eq_refl) as [[x Hx] _]. simpl in Hnone. congruence. }
    by exists c, t'.
  - rewrite Hold. by exists c, t'.
Qed.

Lemma race_inv_step calls d threads i now p :
  Forall call_ok calls -> race_inv calls d threads -> threads !! i = Some p -> now ∈ times ->
  let '(d', p') := thread_step now d p in race_inv calls d' (<[i := p']> threads).
Proof.
  intros Hcalls Hinv Hp Hnow. pose proof (lookup_lt_Some _ _ _ Hp) as Hlt.
  destruct Hinv as [[Hrow Hth]|(w & i0 & Hw & Hrow & Hwin & Hth)].
  - destruct (Hth i p Hp) as (c & Hc & Hs); [done|].
    pose proof (Forall_lookup_1 _ _ _ _ Hcalls Hc) as Hok.
    pose proof (stage_step _ c p d now Hok Hs Hnow) as Hstep.
    destruct (thread_step now d p) as [d' p'].
    destruct Hstep as [[Hs' Hd]|(it & -> & Hd & Hcase)]; [by rewrite Hrow|done| |].
    + left. split; [congruence|]. by eapply threads_at_insert.
    + right. exists it, i. split; [by eapply first_write_wins|]. split; [by rewrite Hd, lookup_insert_eq|].
      split; [by rewrite list_lookup_insert_eq|].
      intros j q [(<- & _ & _)|[Hne Hq]]%list_lookup_insert_Some He; [done|].
      destruct (Hth j q Hq) as (c' & Hc' & Hs'); [done|]. exists c'. split; [done|].
      eapply stage_mono; [|exact Hs']. intros r Hr. by left.
  - destruct (decide (i = i0)) as [->|Hne].
    + rewrite Hwin in Hp. injection Hp as <-. cbn [thread_step].
      right. exists w, i0. rewrite list_insert_id by done. done.
    + destruct (Hth i p Hp) as (c & Hc & Hs); [congruence|].
      pose proof (Forall_lookup_1 _ _ _ _ Hcalls Hc) as Hok.
      destruct (winner_facts w now Hw Hnow) as (Hlive & [x Hx] & Hver).
      pose proof (stage_step _ c p d now Hok Hs Hnow) as Hstep.
      destruct (thread_step now d p) as [d' p'].
      destruct Hstep as [[Hs' Hd]|(it & -> & Hd & Hcase)].
      * intros r Hr. right. congruence.
      * intros r [Hr| ->] He; [done|congruence].
      * right. exists w, i0. split; [done|]. split; [congruence|].
        split; [by rewrite list_lookup_insert_ne|]. by eapply threads_at_insert.
      * exfalso. rewrite Hrow in Hcase. simpl in Hcase.
        destruct Hcase as [[Hn _]|(old & t & Hold & _ & _ & cur & z & [= <-] & Hz & ->)]; [congruence|].
        rewrite Hold in Hver. rewrite Hver in Hz. injection Hz as Hz. lia.
Qed.

Lemma run_threads_inv calls sched : forall d threads,
  Forall call_ok calls -> (forall i t, (i, t) ∈ sched -> t ∈ times) -> race_inv calls d threads ->
  let '(d', threads') := run_threads sched d threads in race_inv calls d' threads'.
Proof.
  induction sched as [|[i now] sched IH]; intros d threads Hcalls Ht Hinv; [done|]. cbn [run_threads].
  assert (forall j t, (j, t) ∈ sched -> t ∈ times) as Ht' by (intros j t Hj; apply (Ht j); by right).
  destruct (threads !! i) as [p|] eqn:Hp; [|by apply IH].
  assert (now ∈ times) as Hnow by (apply (Ht i); left).
  pose proof (race_inv_step calls d threads i now p Hcalls Hinv Hp Hnow) as Hstep.
  destruct (thread_step now d p) as [d' p']. by apply IH.
Qed.

Lemma race_inv_winner calls d threads i r :
  race_inv calls d threads -> threads !! i = Some (Ret r) -> applied r = true ->
  exists w, ddb_items d !! pk = Some w /\ record r = Some (toRecord L w) /\
    forall j r', threads !! j = Some (Ret r') -> applied r' = true -> j = i.
Proof.
  assert (forall rows c r, stage rows c (Ret r) -> applied r = false) as Hlost.
  { intros rows c r0 Hs. remember (Ret r0) as q eqn:Eq. destruct Hs; try discriminate Eq.
    - destruct fuel; discriminate Eq.
    - revert Eq. unfold classify_at, classify, getRawItem. rewrite Hpk. discriminate.
    - revert Eq. unfold report_current, getRawItem. rewrite Hpk. discriminate.
    - by injection Eq as <-. }
  intros [[_ Hth]|(w & i0 & Hw & Hrow & Hwin & Hth)] Hi Ha.
  - destruct (Hth i _ Hi) as (c & _ & Hs); [done|]. apply Hlost in Hs. congruence.
  - assert (forall j r', threads !! j = Some (Ret r') -> applied r' = true -> j = i0) as Huniq.
    { intros j r' Hj Ha'. destruct (decide (j = i0)) as [|Hne]; [done|].
      destruct (Hth j _ Hj) as (c & _ & Hs); [congruence|]. apply Hlost in Hs. congruence. }
    pose proof (Huniq i r Hi Ha) as ->. exists w. rewrite Hwin in Hi. injection Hi as <-.
    split; [done|]. split; [done|]. done.
Qed.
End race.

(** ** Property *)

(** Also (safety). However the commands of concurrent [putIfAbsent] calls on
    one key interleave, over a row that is absent, live or expired, and
    whatever clock each reads, at most one call reports that it won, provided
    what they write has not expired again at those clock readings; the
    winner's item is then the stored one, and the record it returned. *)
Theorem concurrent_putIfAbsent_single_winner (L : DynamoKvLayout) `{DynamoDB}
    (key pk : string) (fuel : nat) (calls : list (KvValue * KvWriteOptions))
    (sched : list (nat * Z)) (d : ddb) :
  layout_ok L -> buildPk L key = Ok pk ->
  (forall it, ddb_items d !! pk = Some it -> item_ok L it) ->
  Forall (call_ok L (map snd sched)) calls ->
  let threads := map (fun c => putIfAbsent L fuel key c.1 c.2) calls in
  let '(d', threads') := run_threads sched d threads in
  forall i r, threads' !! i = Some (Ret r) -> applied r = true ->
    exists w, ddb_items d' !! pk = Some w /\ record r = Some (toRecord L w) /\
      forall j r', threads' !! j = Some (Ret r') -> applied r' = true -> j = i.
Proof.
  intros Hlay Hpk Hrow Hcalls threads.
  pose proof (run_threads_inv L key pk (map snd sched) (ddb_items d !! pk) Hlay Hpk Hrow calls sched d threads
    Hcalls) as Hrun.
  destruct (run_threads sched d threads) as [d' threads']. intros i r Hi Ha.
  apply (race_inv_winner L key pk (map snd sched) (ddb_items d !! pk) Hpk calls d' threads' i r); [|done|done].
  apply Hrun.
  - intros j t Hj. apply list_elem_of_fmap. by exists (j, t).
  - left. split; [done|]. intros j p Hp _. unfold threads in Hp.
    rewrite list_lookup_fmap in Hp. destruct (calls !! j) as [c|]; [|done].
    injection Hp as <-. exists c. split; [done|]. constructor.
Qed.

(** Two schedulers race for an expired lock; the second loses its take-over. *)
Lemma concurrent_putIfAbsent_single_winner_witness :
  let L := session_layout in
  let old : item := {[ "pk" := JStr "agent-refresh:job"; "_v" := JNum 4; "ttl" := JNum 1 ]} in
  let d : gmap string item := {[ "agent-refresh:job" := old ]} in
  let calls := [({[ "owner" := JStr "a" ]}, ttl 30); ({[ "owner" := JStr "b" ]}, ttl 30)] in
  let sched := flat_map (fun t => [(0%nat, t); (1%nat, t)]) [9000; 9001; 9002; 9003; 9004; 9005] in
  let '(d', threads') := @run_threads in_memory_ddb _ sched d
      (map (fun c => putIfAbsent L 1 "job" c.1 c.2) calls) in
  forall i r, threads' !! i = Some (Ret r) -> applied r = true ->
    exists w, d' !! "agent-refresh:job" = Some w /\ record r = Some (toRecord L w) /\
      forall j r', threads' !! j = Some (Ret r') -> applied r' = true -> j = i.
Proof.
  intros L old d calls sched.
  apply (@concurrent_putIfAbsent_single_winner L in_memory_ddb "job" "agent-refresh:job" 1 calls sched d).
  - exact session_layout_ok.
  - reflexivity.
  - intros it. cbn. intros [= <-]. split; [by eexists|]. split; [by exists 4|].
    intros j [= <-]. by eexists.
  - assert (forall c, c ∈ calls -> opt_expiresAt c.2 = None /\ opt_ttlSeconds c.2 = Some 30 /\
      value_ok L c.1) as Hall.
    { intros c [->|[->|[]%elem_of_nil]%elem_of_cons]%elem_of_cons; (split; [done|split; [done|]]);
        intros f Hf; simpl; apply lookup_singleton_ne; intros <-; discriminate Hf. }
    apply Forall_forall. intros c (He & Ht & Hv)%Hall. split; [done|].
    unfold resolveExpiry. rewrite He, Ht. intros t t' e Hin Hin' [= <-].
    assert (forall x, x ∈ map snd sched -> 9000 <= x <= 9005) as Hb.
    { intros x Hx. unfold sched in Hx. simpl in Hx. set_unfold in Hx. lia. }
    apply Hb in Hin, Hin'. unfold nowSeconds. pose proof (Z.div_mod t 1000 ltac:(lia)).
    pose proof (Z.mod_pos_bound t 1000 ltac:(lia)). lia.
Defined.
