(* ===== verification/SecretCache.v ===== *)
(** The plaintext cache of resolved secrets and its clients:
    [packages/foundation/src/secrets/cache.ts] and [secrets/resolve.ts].

    Buffers are shared by reference between the cache and its callers, and
    the cache overwrites them: a [Heap] maps buffer locations to bytes, and a
    cache entry holds a location. The entries are the [Map] of the source in
    its iteration order, oldest first. The store that secrets come from is the
    answer given to [resolveSecret]; its request is one suspension point, so a
    call is split there into [resolve_lookup] and [resolve_store]. *)

From S2P Require Import Prelude JsString.

#[local] Open Scope string_scope.
#[local] Open Scope Z_scope.

(** ** Buffers *)

Notation loc := nat.
Notation Heap := (gmap nat (list Z)).

(** [buf.fill(0)]. *)
Definition fill0 (l : loc) (h : Heap) : Heap := alter (fun bytes => map (fun _ => 0) bytes) l h.

Definition zeroed (h : Heap) (l : loc) : Prop :=
  forall bytes, h !! l = Some bytes -> Forall (fun b => b = 0) bytes.

(** ** JavaScript's [Map] *)

Record Entry := { value : loc; expiresAt : Z }.
Notation Entries := (list (string * Entry)).

Fixpoint map_get (key : string) (m : Entries) : option Entry :=
  match m with
  | [] => None
  | (k, e) :: rest => if String.eqb k key then Some e else map_get key rest
  end.

Fixpoint map_delete (key : string) (m : Entries) : Entries :=
  match m with
  | [] => []
  | (k, e) :: rest => if String.eqb k key then map_delete key rest else (k, e) :: map_delete key rest
  end.

(** Setting a present key keeps its position. *)
Fixpoint map_set (key : string) (e : Entry) (m : Entries) : Entries :=
  match m with
  | [] => [(key, e)]
  | (k, x) :: rest => if String.eqb k key then (k, e) :: rest else (k, x) :: map_set key e rest
  end.

(** ** The cache *)

Record SecretCache := { maxEntries : Z; ttlMs : Z; entries : Entries }.

Definition new_SecretCache (max ttlSeconds : option Z) : SecretCache :=
  {| maxEntries := default 100 max; ttlMs := default 300 ttlSeconds * 1000; entries := [] |}.

Definition with_entries (c : SecretCache) (m : Entries) : SecretCache :=
  {| maxEntries := maxEntries c; ttlMs := ttlMs c; entries := m |}.

Definition evictKey (h : Heap) (c : SecretCache) (key : string) : Heap * SecretCache * bool :=
  match map_get key (entries c) with
  | None => (h, c, false)
  | Some entry => (fill0 (value entry) h, with_entries c (map_delete key (entries c)), true)
  end.

(** The loop of [evictOverflow]: keys are unique, so evicting the first key
    drops the first entry. *)
Fixpoint evictOverflow (max : Z) (h : Heap) (m : Entries) : Heap * Entries :=
  if max <? Z.of_nat (length m) then
    match m with
    | [] => (h, m)
    | (_, oldest) :: rest => evictOverflow max (fill0 (value oldest) h) rest
    end
  else (h, m).

Definition get (h : Heap) (c : SecretCache) (now : Z) (key : string) :
    Heap * SecretCache * option loc :=
  match map_get key (entries c) with
  | None => (h, c, None)
  | Some entry =>
      if expiresAt entry <=? now then
        let '(h', c', _) := evictKey h c key in (h', c', None)
      else (h, with_entries c (map_set key entry (map_delete key (entries c))), Some (value entry))
  end.

Definition set (h : Heap) (c : SecretCache) (now : Z) (key : string) (v : loc) :
    Heap * SecretCache :=
  let '(h1, m1) :=
    match map_get key (entries c) with
    | Some existing => (fill0 (value existing) h, map_delete key (entries c))
    | None => (h, entries c)
    end in
  let m2 := map_set key {| value := v; expiresAt := now + ttlMs c |} m1 in
  let '(h3, m3) := evictOverflow (maxEntries c) h1 m2 in
  (h3, with_entries c m3).

Definition invalidate := evictKey.

Definition clear (h : Heap) (c : SecretCache) : Heap * SecretCache :=
  (fold_left (fun h e => fill0 (value e.2) h) (entries c) h, with_entries c []).

(** ** Any operation *)

Inductive cache_op :=
| OpGet (key : string)
| OpSet (key : string) (v : loc)
| OpInvalidate (key : string)
| OpClear.

Definition cache_step (h : Heap) (c : SecretCache) (now : Z) (op : cache_op) : Heap * SecretCache :=
  match op with
  | OpGet k => let '(h', c', _) := get h c now k in (h', c')
  | OpSet k v => set h c now k v
  | OpInvalidate k => let '(h', c', _) := invalidate h c k in (h', c')
  | OpClear => clear h c
  end.

(** ** Resolvers *)

Inductive SecretsError :=
| SecretsNotFound
| SecretsAccessDenied
| SecretsTransient
| ParameterNotFound
| ParameterAccessDenied
| SecretsResolve.

Record SecretRef := { arn : string; versionId : option string }.

Definition secretCacheKey (ref : SecretRef) : string :=
  "secret:" +:+ arn ref +:+ ":" +:+ default "AWSCURRENT" (versionId ref).

Definition parameterCacheKey (name : string) (withDecryption : bool) : string :=
  "param:" +:+ name +:+ ":" +:+ (if withDecryption then "decrypted" else "raw").

Definition one_of (name : option string) (names : list string) : bool :=
  match name with Some n => existsb (String.eqb n) names | None => false end.

Definition classifySecretsError (name : option string) : SecretsError :=
  if one_of name ["ResourceNotFoundException"] then SecretsNotFound
  else if one_of name ["AccessDeniedException"; "UnrecognizedClientException"; "DecryptionFailure"]
  then SecretsAccessDenied
  else if one_of name ["ThrottlingException"; "InternalServiceError";
                       "InternalServiceErrorException"; "TimeoutError"]
  then SecretsTransient
  else SecretsResolve.

Definition classifyParameterError (name : option string) : SecretsError :=
  if one_of name ["ParameterNotFound"] then ParameterNotFound
  else if one_of name ["AccessDeniedException"; "UnrecognizedClientException"]
  then ParameterAccessDenied
  else if one_of name ["ThrottlingException"; "InternalServerError"; "TimeoutError"]
  then SecretsTransient
  else SecretsResolve.

(** The store's answer: an error by name, or the two fields of a secret. *)
Definition secret_bytes (response : result (option string) (option (list Z) * option (list Z))) :
    result SecretsError (list Z) :=
  match response with
  | Throw name => Throw (classifySecretsError name)
  | Ok (Some s, _) => Ok s
  | Ok (None, Some b) => Ok b
  | Ok (None, None) => Throw SecretsResolve
  end.

Definition parameter_bytes (response : result (option string) (option (list Z))) :
    result SecretsError (list Z) :=
  match response with
  | Throw name => Throw (classifyParameterError name)
  | Ok (Some v) => Ok v
  | Ok None => Throw ParameterNotFound
  end.

(** Up to the request: the cached buffer, or a miss. *)
Definition resolve_lookup (h : Heap) (c : SecretCache) (now : Z) (key : string) (fresh : bool) :
    Heap * SecretCache * option loc :=
  if fresh then let '(h', c', _) := invalidate h c key in (h', c', None)
  else get h c now key.

(** From the answer on: a new buffer, cached and returned. *)
Definition resolve_store (h : Heap) (c : SecretCache) (now : Z) (key : string)
    (answer : result SecretsError (list Z)) : Heap * SecretCache * result SecretsError loc :=
  match answer with
  | Throw e => (h, c, Throw e)
  | Ok bytes =>
      let l := stdpp.base.fresh (dom h : gset nat) in
      let '(h', c') := set (<[l := bytes]> h) c now key l in (h', c', Ok l)
  end.

(** ** Lemmas *)

Definition locs (c : SecretCache) : list loc := map (fun e => value e.2) (entries c).

Definition fill_all (ls : list loc) (h : Heap) : Heap := fold_left (fun h l => fill0 l h) ls h.

Lemma fill0_other l l' h : l <> l' -> fill0 l h !! l' = h !! l'.
Proof. intros Hne. unfold fill0. by rewrite lookup_alter_ne. Qed.

Lemma fill0_zeroed l h : zeroed (fill0 l h) l.
Proof.
  intros bytes. unfold fill0. rewrite lookup_alter_eq. destruct (h !! l) as [b|]; [|done].
  intros [= <-]. apply Forall_forall. by intros x (y & -> & _)%list_elem_of_fmap.
Qed.

Lemma zeroed_fill0 l l' h : zeroed h l -> zeroed (fill0 l' h) l.
Proof.
  intros Hz. destruct (decide (l' = l)) as [->|Hne]; [apply fill0_zeroed|].
  intros bytes. rewrite fill0_other by done. apply Hz.
Qed.

Lemma fill_all_other ls l h : l ∉ ls -> fill_all ls h !! l = h !! l.
Proof.
  revert h. induction ls as [|x ls IH]; intros h Hn; [done|].
  apply not_elem_of_cons in Hn as [Hx Hn]. simpl. unfold fill_all in IH. rewrite IH by done.
  by apply fill0_other.
Qed.

Lemma zeroed_fill_all ls l h : zeroed h l -> zeroed (fill_all ls h) l.
Proof.
  revert h. induction ls as [|x ls IH]; intros h Hz; [done|]. simpl. by apply IH, zeroed_fill0.
Qed.

Lemma fill_all_zeroed ls l h : l ∈ ls -> zeroed (fill_all ls h) l.
Proof.
  revert h. induction ls as [|x ls IH]; intros h Hin; [by apply elem_of_nil in Hin|].
  change (zeroed (fill_all ls (fill0 x h)) l). apply elem_of_cons in Hin as [->|Hin].
  - apply zeroed_fill_all, fill0_zeroed.
  - by apply IH.
Qed.

Lemma map_get_split key m e :
  map_get key m = Some e -> exists m1 m2, m = (m1 ++ (key, e) :: m2)%list.
Proof.
  induction m as [|[k x] m IH]; simpl; [done|]. destruct (String.eqb k key) eqn:E.
  - intros [= ->]. apply String.eqb_eq in E as ->. by exists [], m.
  - intros (m1 & m2 & ->)%IH. by exists ((k, x) :: m1), m2.
Qed.

Lemma map_delete_absent key m : key ∉ map fst m -> map_delete key m = m.
Proof.
  induction m as [|[k x] m IH]; simpl; [done|]. intros [Hk Hm]%not_elem_of_cons.
  destruct (String.eqb_spec k key); [congruence|]. by rewrite IH.
Qed.

Lemma map_delete_app key m1 m2 : map_delete key (m1 ++ m2)%list = (map_delete key m1 ++ map_delete key m2)%list.
Proof.
  induction m1 as [|[k x] m1 IH]; simpl; [done|]. destruct (String.eqb k key); by rewrite IH.
Qed.

Lemma map_delete_split key e m1 m2 :
  NoDup (map fst (m1 ++ (key, e) :: m2)%list) ->
  map_delete key (m1 ++ (key, e) :: m2)%list = (m1 ++ m2)%list.
Proof.
  intros Hnd. rewrite map_app in Hnd. apply NoDup_app in Hnd as (_ & Hd & H2).
  simpl in H2. apply NoDup_cons in H2 as [H2 _].
  rewrite map_delete_app. simpl. rewrite String.eqb_refl.
  rewrite (map_delete_absent key m1), (map_delete_absent key m2); [done|done|].
  intros Hin. apply (Hd key Hin). simpl. left.
Qed.

Lemma map_delete_not_in key m : key ∉ map fst (map_delete key m).
Proof.
  induction m as [|[k x] m IH]; simpl; [apply not_elem_of_nil|].
  destruct (String.eqb_spec k key); [done|]. simpl. by apply not_elem_of_cons.
Qed.

Lemma map_delete_sublist key m : map_delete key m `sublist_of` m.
Proof.
  induction m as [|[k x] m IH]; simpl; [done|].
  destruct (String.eqb k key); [by apply sublist_cons|by apply sublist_skip].
Qed.

Lemma map_set_absent key e m : key ∉ map fst m -> map_set key e m = (m ++ [(key, e)])%list.
Proof.
  induction m as [|[k x] m IH]; simpl; [done|]. intros [Hk Hm]%not_elem_of_cons.
  destruct (String.eqb_spec k key); [congruence|]. by rewrite IH.
Qed.

Lemma map_get_None key m : map_get key m = None <-> key ∉ map fst m.
Proof.
  induction m as [|[k x] m IH]; simpl; [split; [intros _; apply not_elem_of_nil|done]|].
  destruct (String.eqb_spec k key) as [->|Hne].
  - split; [done|]. intros Hn. destruct Hn. left.
  - rewrite IH, not_elem_of_cons. naive_solver.
Qed.

(** How many entries the overflow loop drops. *)
Definition overflow (max : Z) (m : Entries) : nat := Z.to_nat (Z.of_nat (length m) - max).

Lemma evictOverflow_spec max h m :
  evictOverflow max h m
  = (fill_all (map (fun e => value e.2) (take (overflow max m) m)) h, drop (overflow max m) m).
Proof.
  revert h. induction m as [|[k e] m IH]; intros h.
  - rewrite take_nil, drop_nil. cbn [evictOverflow]. by destruct (max <? _).
  - unfold overflow. cbn [evictOverflow]. destruct (max <? Z.of_nat (length ((k, e) :: m))) eqn:E; bool_hyps.
    + rewrite IH. unfold overflow. cbn [length] in *.
      replace (Z.to_nat (Z.of_nat (S (length m)) - max)) with (S (Z.to_nat (Z.of_nat (length m) - max))) by lia.
      done.
    + replace (Z.to_nat _) with 0%nat by lia. done.
Qed.

(** [set] in one line: the key moves to the end with the new buffer, and the
    oldest entries beyond the bound are dropped and zeroed. *)
Definition set_entries (c : SecretCache) (now : Z) (key : string) (v : loc) : Entries :=
  (map_delete key (entries c) ++ [(key, {| value := v; expiresAt := now + ttlMs c |})])%list.

Lemma set_spec h c now key v :
  let m := set_entries c now key v in
  let n := overflow (maxEntries c) m in
  let h1 := match map_get key (entries c) with Some e => fill0 (value e) h | None => h end in
  set h c now key v = (fill_all (map (fun e => value e.2) (take n m)) h1, with_entries c (drop n m)).
Proof.
  intros m n h1. unfold set, h1.
  assert (forall m1 h0, m1 = map_delete key (entries c) ->
    (let '(h3, m3) := evictOverflow (maxEntries c) h0
        (map_set key {| value := v; expiresAt := now + ttlMs c |} m1) in (h3, with_entries c m3))
    = (fill_all (map (fun e => value e.2) (take n m)) h0, with_entries c (drop n m))) as Hx.
  { intros m1 h0 ->. rewrite map_set_absent by apply map_delete_not_in.
    change (map_delete key (entries c) ++ _)%list with m. by rewrite evictOverflow_spec. }
  destruct (map_get key (entries c)) as [e|] eqn:E.
  - by apply Hx.
  - apply Hx. apply map_get_None in E. by rewrite map_delete_absent.
Qed.

(** ** Invariant *)

Definition cache_ok (c : SecretCache) : Prop :=
  NoDup (map fst (entries c)) /\ Z.of_nat (length (entries c)) <= Z.max 0 (maxEntries c).

Lemma get_spec h c now key :
  cache_ok c ->
  match map_get key (entries c) with
  | None => get h c now key = (h, c, None)
  | Some e => exists m1 m2, entries c = (m1 ++ (key, e) :: m2)%list /\
      get h c now key =
        (if expiresAt e <=? now then (fill0 (value e) h, with_entries c (m1 ++ m2)%list, None)
         else (h, with_entries c (m1 ++ m2 ++ [(key, e)])%list, Some (value e)))
  end.
Proof.
  intros [Hnd _]. unfold get, evictKey. destruct (map_get key (entries c)) as [e|] eqn:E; [|done].
  destruct (map_get_split _ _ _ E) as (m1 & m2 & Hm). exists m1, m2. split; [done|].
  assert (map_delete key (entries c) = (m1 ++ m2)%list) as Hd
    by (rewrite Hm; apply (map_delete_split key e); by rewrite <- Hm).
  rewrite Hd. destruct (expiresAt e <=? now); [done|].
  rewrite map_set_absent; [by rewrite <- app_assoc|]. rewrite <- Hd. apply map_delete_not_in.
Qed.

Lemma invalidate_spec h c key :
  cache_ok c ->
  match map_get key (entries c) with
  | None => invalidate h c key = (h, c, false)
  | Some e => exists m1 m2, entries c = (m1 ++ (key, e) :: m2)%list /\
      invalidate h c key = (fill0 (value e) h, with_entries c (m1 ++ m2)%list, true)
  end.
Proof.
  intros [Hnd _]. unfold invalidate, evictKey. destruct (map_get key (entries c)) as [e|] eqn:E; [|done].
  destruct (map_get_split _ _ _ E) as (m1 & m2 & Hm). exists m1, m2. split; [done|].
  do 3 f_equal. rewrite Hm. apply (map_delete_split key e). by rewrite <- Hm.
Qed.

Lemma sublist_keeps (m m' : Entries) : m' `sublist_of` m -> NoDup (map fst m) -> NoDup (map fst m').
Proof. intros Hs Hnd. eapply sublist_NoDup; [exact Hnd|]. by apply fmap_sublist. Qed.

Lemma drop_is_sublist (n : nat) (m : Entries) : drop n m `sublist_of` m.
Proof. rewrite <- (take_drop n m) at 2. by apply sublist_inserts_l. Qed.

Lemma set_entries_nodup c now key v :
  NoDup (map fst (entries c)) -> NoDup (map fst (set_entries c now key v)).
Proof.
  intros Hnd. unfold set_entries. rewrite map_app. apply NoDup_app. split; [|split].
  - by apply (sublist_keeps (entries c)); [apply map_delete_sublist|].
  - intros k Hk [->|[]%elem_of_nil]%elem_of_cons. by apply map_delete_not_in in Hk.
  - apply NoDup_singleton.
Qed.

Lemma locs_app (m1 m2 : Entries) :
  map (fun e => value e.2) (m1 ++ m2)%list
  = (map (fun e => value e.2) m1 ++ map (fun e => value e.2) m2)%list.
Proof. apply map_app. Qed.

Lemma clear_fill (m : Entries) h :
  fold_left (fun h e => fill0 (value e.2) h) m h = fill_all (map (fun e => value e.2) m) h.
Proof. revert h. induction m as [|x m IH]; intros h; [done|]. simpl. apply IH. Qed.

(** One entry leaves, its buffer zeroed. *)
Lemma removed_entry h e key (m1 m2 : Entries) :
  let ls := map (fun e => value e.2) in
  (forall l, l ∈ (ls m1 ++ ls ((key, e) :: m2))%list -> l ∉ ls (m1 ++ m2)%list ->
     zeroed (fill0 (value e) h) l) /\
  (NoDup (ls m1 ++ ls ((key, e) :: m2))%list -> True ->
   NoDup (ls (m1 ++ m2)%list) /\ forall l, l ∈ ls (m1 ++ m2)%list -> fill0 (value e) h !! l = h !! l).
Proof.
  intros ls. unfold ls. rewrite locs_app. simpl. split.
  - intros l Hin Hn. assert (l = value e) as -> by set_solver. apply fill0_zeroed.
  - intros Hnd _.
    assert (NoDup (value e :: map (fun e => value e.2) m1 ++ map (fun e => value e.2) m2)%list) as Hnd'.
    { eapply NoDup_Permutation_proper; [|exact Hnd]. by rewrite Permutation_middle. }
    apply NoDup_cons in Hnd' as [Hn Hnd']. split; [done|]. intros l Hl. apply fill0_other. set_solver.
Qed.

(** [set]: the replaced and the overflowing entries leave. *)
Lemma set_zeroes h c now key v :
  cache_ok c ->
  let '(h', c') := set h c now key v in
  (forall l, l ∈ locs c -> l ∉ locs c' -> zeroed h' l) /\
  (NoDup (locs c) -> v ∉ locs c -> NoDup (locs c') /\ forall l, l ∈ locs c' -> h' !! l = h !! l).
Proof.
  intros [Hnd _]. rewrite set_spec. unfold locs. cbn [with_entries entries].
  set (m := set_entries c now key v). set (n := overflow (maxEntries c) m).
  set (h1 := match map_get key (entries c) with Some e => fill0 (value e) h | None => h end).
  set (ls := map (fun e : string * Entry => value e.2)).
  assert (ls m = ls (take n m) ++ ls (drop n m))%list as Hsplit
    by (unfold ls; rewrite <- locs_app; by rewrite take_drop).
  assert (ls m = ls (map_delete key (entries c)) ++ [v])%list as Hm by apply locs_app.
  assert (forall l, l ∈ ls (entries c) -> l ∈ ls (map_delete key (entries c)) \/ zeroed h1 l) as Hold.
  { intros l Hl. unfold h1. destruct (map_get key (entries c)) as [e|] eqn:E.
    - destruct (map_get_split _ _ _ E) as (m1 & m2 & Hm'). rewrite Hm' in Hl |- *.
      rewrite (map_delete_split key e) by (by rewrite <- Hm'). unfold ls in *. rewrite locs_app in *.
      simpl in Hl. destruct (decide (l = value e)) as [->|]; [right; apply fill0_zeroed|left; set_solver].
    - left. apply map_get_None in E. by rewrite map_delete_absent. }
  split.
  - intros l Hl Hn. destruct (Hold l Hl) as [Hl'|Hz]; [|by apply zeroed_fill_all].
    apply fill_all_zeroed. assert (l ∈ ls m) as Hlm by (rewrite Hm; set_solver).
    rewrite Hsplit in Hlm. set_solver.
  - intros Hnd' Hv. assert (NoDup (ls m)) as Hndm.
    { rewrite Hm. apply NoDup_app. split; [|split; [|apply NoDup_singleton]].
      - eapply sublist_NoDup; [exact Hnd'|]. apply fmap_sublist, map_delete_sublist.
      - intros l Hl ->%list_elem_of_singleton. apply Hv.
        eapply elem_of_sublist; [exact Hl|]. apply fmap_sublist, map_delete_sublist. }
    rewrite Hsplit in Hndm. apply NoDup_app in Hndm as (_ & Hdis & Hndd). split; [done|].
    intros l Hl. rewrite fill_all_other by (intros Hl'; by apply (Hdis l)).
    unfold h1. destruct (map_get key (entries c)) as [e|] eqn:E; [|done]. apply fill0_other.
    intros <-. assert (value e ∈ ls m) as Hin by (rewrite Hsplit; set_solver). rewrite Hm in Hin.
    destruct (map_get_split _ _ _ E) as (m1 & m2 & Hm').
    rewrite Hm' in Hin, Hnd', Hv. rewrite (map_delete_split key e) in Hin by (by rewrite <- Hm').
    unfold ls in *. rewrite locs_app in *. simpl in *.
    assert (NoDup (value e :: map (fun e => value e.2) m1 ++ map (fun e => value e.2) m2)%list) as Hx.
    { eapply NoDup_Permutation_proper; [|exact Hnd']. by rewrite Permutation_middle. }
    apply NoDup_cons in Hx as [Hx _]. set_solver.
Qed.

(** ** Properties *)

(** Also (invariant). Every cache operation keeps the keys distinct and the
    number of entries within [maxEntries], whatever the clock. *)
Theorem cache_step_ok h c now op :
  cache_ok c -> cache_ok (snd (cache_step h c now op)).
Proof.
  intros Hok. pose proof Hok as [Hnd Hlen]. destruct op as [key|key v|key|]; cbn [cache_step].
  - pose proof (get_spec h c now key Hok) as Hg. destruct (map_get key (entries c)) as [e|] eqn:E.
    + destruct Hg as (m1 & m2 & Hm & ->). destruct (expiresAt e <=? now); cbn [snd]; split;
        cbn [with_entries entries maxEntries]; rewrite Hm in Hnd, Hlen.
      * eapply sublist_keeps; [|exact Hnd]. apply sublist_app; [done|]. by apply sublist_cons.
      * rewrite length_app in *. simpl in Hlen. lia.
      * rewrite app_assoc. eapply NoDup_Permutation_proper; [|exact Hnd]. apply Permutation_map.
        rewrite <- app_assoc. apply Permutation_app_head. by rewrite Permutation_app_comm.
      * rewrite !length_app in *. simpl in *. lia.
    + by rewrite Hg.
  - rewrite set_spec. cbn [snd]. split; cbn [with_entries entries maxEntries].
    + eapply sublist_keeps; [apply drop_is_sublist|]. by apply set_entries_nodup.
    + rewrite length_drop. unfold overflow. lia.
  - pose proof (invalidate_spec h c key Hok) as Hg. destruct (map_get key (entries c)) as [e|] eqn:E.
    + destruct Hg as (m1 & m2 & Hm & ->). cbn [snd]. split; cbn [with_entries entries maxEntries];
        rewrite Hm in Hnd, Hlen.
      * eapply sublist_keeps; [|exact Hnd]. apply sublist_app; [done|]. by apply sublist_cons.
      * rewrite length_app in *. simpl in Hlen. lia.
    + by rewrite Hg.
  - split; simpl; [apply NoDup_nil_2|lia].
Qed.

Lemma cache_step_ok_witness :
  cache_ok (snd (cache_step ∅ (new_SecretCache (Some 1) None) 0 (OpSet "k" 7%nat))).
Proof. apply cache_step_ok. split; [apply NoDup_nil_2|simpl; lia]. Defined.

(** Also (safety). Eviction zeroes, and only eviction: whatever removes a
    buffer from the cache (expiry, replacement, overflow, invalidation,
    clearing) leaves it all zeros, and as long as no two entries share a
    buffer, the buffers that stay cached keep their bytes. *)
Theorem eviction_zeroes h c now op :
  cache_ok c ->
  let '(h', c') := cache_step h c now op in
  (forall l, l ∈ locs c -> l ∉ locs c' -> zeroed h' l) /\
  (NoDup (locs c) -> match op with OpSet _ v => v ∉ locs c | _ => True end ->
   NoDup (locs c') /\ forall l, l ∈ locs c' -> h' !! l = h !! l).
Proof.
  intros Hok. unfold locs. destruct op as [key|key v|key|]; cbn [cache_step].
  - pose proof (get_spec h c now key Hok) as Hg. destruct (map_get key (entries c)) as [e|] eqn:E;
      [|rewrite Hg; split; [done|by split]].
    destruct Hg as (m1 & m2 & Hm & ->). rewrite Hm, locs_app.
    destruct (expiresAt e <=? now); cbn [with_entries entries].
    + by apply removed_entry.
    + rewrite !locs_app. split; [intros l; set_solver|]. intros Hnd _. split; [|done].
      rewrite app_assoc. eapply NoDup_Permutation_proper; [|exact Hnd].
      rewrite <- app_assoc. apply Permutation_app_head. simpl. by rewrite Permutation_app_comm.
  - by apply set_zeroes.
  - pose proof (invalidate_spec h c key Hok) as Hg. destruct (map_get key (entries c)) as [e|] eqn:E;
      [|rewrite Hg; split; [done|by split]].
    destruct Hg as (m1 & m2 & Hm & ->). rewrite Hm, locs_app. by apply removed_entry.
  - split; [|intros _ _; split; [apply NoDup_nil_2|by intros l ?%elem_of_nil]].
    intros l Hl _. rewrite clear_fill. by apply fill_all_zeroed.
Qed.

Definition small_cache : SecretCache :=
  with_entries (new_SecretCache (Some 1) None) [("a", {| value := 0%nat; expiresAt := 99 |})].

Lemma eviction_zeroes_witness :
  let h : Heap := {[ 0%nat := [1; 2; 3]; 1%nat := [4] ]} in
  let '(h', c') := cache_step h small_cache 0 (OpSet "b" 1%nat) in
  (forall l, l ∈ locs small_cache -> l ∉ locs c' -> zeroed h' l) /\
  (NoDup (locs small_cache) -> 1%nat ∉ locs small_cache ->
   NoDup (locs c') /\ forall l, l ∈ locs c' -> h' !! l = h !! l).
Proof.
  intros h. apply (eviction_zeroes h small_cache 0 (OpSet "b" 1%nat)).
  split; [apply NoDup_singleton|simpl; lia].
Defined.

(** Also (functional). Least recently used, with a deadline: [get] answers
    exactly the entries whose deadline is in the future and moves the entry it
    answers to the young end; [set] puts its entry at the young end and keeps
    the youngest [maxEntries]. *)
Theorem lru_and_ttl h c now key v :
  cache_ok c ->
  (match map_get key (entries c) with
   | Some e =>
       exists m1 m2, entries c = (m1 ++ (key, e) :: m2)%list /\
       let '(h', c', r) := get h c now key in
       (now < expiresAt e /\ r = Some (value e) /\ h' = h /\ entries c' = (m1 ++ m2 ++ [(key, e)])%list \/
        expiresAt e <= now /\ r = None /\ entries c' = (m1 ++ m2)%list)
   | None => get h c now key = (h, c, None)
   end) /\
  let young := (map_delete key (entries c) ++
                [(key, {| value := v; expiresAt := now + ttlMs c |})])%list in
  entries (snd (set h c now key v))
  = drop (Z.to_nat (Z.of_nat (length young) - maxEntries c)) young.
Proof.
  intros Hok. split; [|by rewrite set_spec].
  pose proof (get_spec h c now key Hok) as Hg. destruct (map_get key (entries c)) as [e|]; [|done].
  destruct Hg as (m1 & m2 & Hm & ->). exists m1, m2. split; [done|].
  destruct (expiresAt e <=? now) eqn:E; bool_hyps; [by right|]. left. by repeat split.
Qed.

Lemma lru_and_ttl_witness :
  entries (snd (set ∅ small_cache 5 "b" 1%nat))
  = drop (Z.to_nat (2 - 1)) [("a", {| value := 0%nat; expiresAt := 99 |});
                             ("b", {| value := 1%nat; expiresAt := 5 + 300 * 1000 |})].
Proof.
  apply (lru_and_ttl ∅ small_cache 5 "b" 1%nat). split; [apply NoDup_singleton|simpl; lia].
Defined.

Lemma fill_all_is_Some ls l h : is_Some (h !! l) -> is_Some (fill_all ls h !! l).
Proof.
  revert h. induction ls as [|x ls IH]; intros h Hs; [done|].
  change (is_Some (fill_all ls (fill0 x h) !! l)). apply IH. unfold fill0.
  destruct (decide (x = l)) as [->|]; [rewrite lookup_alter_eq; by rewrite fmap_is_Some|].
  by rewrite lookup_alter_ne.
Qed.

Lemma set_keeps_youngest h c now key v :
  1 <= maxEntries c ->
  exists m, entries (snd (set h c now key v)) = (m ++ [(key, {| value := v; expiresAt := now + ttlMs c |})])%list /\
    m `sublist_of` map_delete key (entries c).
Proof.
  intros Hmax. rewrite set_spec. cbn [snd with_entries entries]. unfold set_entries at 2.
  exists (drop (overflow (maxEntries c) (set_entries c now key v)) (map_delete key (entries c))).
  split; [|apply drop_is_sublist]. rewrite drop_app_le; [done|].
  unfold overflow, set_entries. rewrite length_app. simpl. lia.
Qed.

Lemma map_get_last key e m : key ∉ map fst m -> map_get key (m ++ [(key, e)])%list = Some e.
Proof.
  induction m as [|[k x] m IH]; simpl; [by rewrite String.eqb_refl|].
  intros [Hk Hm]%not_elem_of_cons. destruct (String.eqb_spec k key); [congruence|]. by apply IH.
Qed.

(** The buffer that [resolve_store] returns is new, cached and intact. *)
Lemma resolve_store_spec h c now key bytes :
  1 <= maxEntries c -> map_get key (entries c) = None ->
  (forall l, l ∈ locs c -> is_Some (h !! l)) ->
  exists h' c' l, resolve_store h c now key (Ok bytes) = (h', c', Ok l) /\
    h' !! l = Some bytes /\ maxEntries c' = maxEntries c /\
    map_get key (entries c') = Some {| value := l; expiresAt := now + ttlMs c |}.
Proof.
  intros Hmax Hmiss Halloc. unfold resolve_store. set (l := stdpp.base.fresh (dom h)).
  assert (h !! l = None) as Hl by (apply not_elem_of_dom; apply is_fresh).
  destruct (set_keeps_youngest (<[l := bytes]> h) c now key l Hmax) as (m & Hm & Hsub).
  pose proof (set_spec (<[l := bytes]> h) c now key l) as Hset. rewrite Hmiss in Hset. cbv zeta in Hset.
  assert (map_delete key (entries c) = entries c) as Hdel by (apply map_delete_absent; by apply map_get_None).
  eexists _, _, l. split; [rewrite Hset; reflexivity|]. rewrite Hset in Hm. cbn [snd] in Hm.
  split; [|split; [done|]].
  - rewrite fill_all_other; [by rewrite lookup_insert_eq|]. intros Hin.
    apply list_elem_of_fmap in Hin as ([k e] & -> & Hin). unfold set_entries in Hin. rewrite Hdel in Hin.
    rewrite take_app_le in Hin by (unfold overflow, set_entries; rewrite ?Hdel, length_app; simpl; lia).
    destruct (Halloc (value e)) as [x Hx]; [|simpl in Hl; congruence].
    apply list_elem_of_fmap. exists (k, e). split; [done|]. eapply elem_of_sublist; [exact Hin|].
    apply sublist_take.
  - rewrite Hm. apply map_get_last. intros Hin. rewrite Hdel in Hsub.
    apply map_get_None in Hmiss. apply Hmiss. eapply elem_of_sublist; [exact Hin|]. by apply fmap_sublist.
Qed.

(** Finding (safety). Two concurrent resolutions of an uncached secret: both miss,
    the first stores and returns its buffer intact, and the store of the
    second zeroes that buffer while the first caller holds it. *)
Theorem concurrent_miss_zeroes_first_result h c key t1 t2 bytes1 bytes2 :
  cache_ok c -> 1 <= maxEntries c -> map_get key (entries c) = None ->
  (forall l, l ∈ locs c -> is_Some (h !! l)) ->
  resolve_lookup h c t1 key false = (h, c, None) /\
  let '(h1, c1, r1) := resolve_store h c t1 key (Ok bytes1) in
  let '(h2, c2, r2) := resolve_store h1 c1 t2 key (Ok bytes2) in
  exists l1, r1 = Ok l1 /\ h1 !! l1 = Some bytes1 /\ zeroed h2 l1 /\ is_Some (h2 !! l1).
Proof.
  intros Hok Hmax Hmiss Halloc. split.
  { unfold resolve_lookup. pose proof (get_spec h c t1 key Hok) as Hg. by rewrite Hmiss in Hg. }
  destruct (resolve_store_spec h c t1 key bytes1 Hmax Hmiss Halloc) as (h1 & c1 & l1 & -> & Hl1 & _ & Hget).
  unfold resolve_store. set (l2 := stdpp.base.fresh (dom h1)).
  assert (h1 !! l2 = None) as Hl2 by (apply not_elem_of_dom; apply is_fresh).
  rewrite set_spec, Hget. cbn [value]. exists l1. split; [done|]. split; [done|]. split.
  - apply zeroed_fill_all, fill0_zeroed.
  - apply fill_all_is_Some. unfold fill0. rewrite lookup_alter_eq, lookup_insert_ne by congruence.
    rewrite Hl1. by eexists.
Qed.

Lemma concurrent_miss_zeroes_first_result_witness :
  let c := new_SecretCache None None in
  let '(h1, c1, r1) := resolve_store ∅ c 0 "secret:db:AWSCURRENT" (Ok [115; 51]) in
  let '(h2, c2, r2) := resolve_store h1 c1 1 "secret:db:AWSCURRENT" (Ok [115; 51]) in
  exists l1, r1 = Ok l1 /\ h1 !! l1 = Some [115; 51] /\ zeroed h2 l1 /\ is_Some (h2 !! l1).
Proof.
  intros c. apply (concurrent_miss_zeroes_first_result ∅ c "secret:db:AWSCURRENT" 0 1);
    [split; [apply NoDup_nil_2|simpl; lia]|simpl; lia|done|by intros l ?%elem_of_nil].
Defined.
