(* ===== verification/Json.v ===== *)
(** JSON values, [JSON.stringify] and [JSON.parse].

    An object is its list of own properties in [Object.entries] order, with
    distinct keys (keys that look like array indices, which JavaScript puts
    first, keep their place). A number is carried as its text: the one
    [JSON.stringify] prints, or the literal [JSON.parse] read. An escape of a
    code unit above 255 stands for no model character, and [JSON_parse] gives
    [None] for it as for a syntax error. *)

From S2P Require Import Prelude JsString.
From Stdlib Require Import Ascii.

#[local] Open Scope string_scope.
#[local] Open Scope Z_scope.

(** ** Values *)

Inductive JsonValue :=
| VNull
| VBool (b : bool)
| VNumber (text : string)
| VString (s : string)
| VArray (l : list JsonValue)
| VObject (l : list (string * JsonValue)).

Definition JsonObject := list (string * JsonValue).

(** Induction over values, with the hypothesis for every child. *)
Lemma JsonValue_nested_ind (P : JsonValue -> Prop) :
  P VNull -> (forall b, P (VBool b)) -> (forall t, P (VNumber t)) -> (forall s, P (VString s)) ->
  (forall l, Forall P l -> P (VArray l)) ->
  (forall l, Forall (fun kv => P (snd kv)) l -> P (VObject l)) ->
  forall v, P v.
Proof.
  intros Hn Hb Ht Hs Ha Ho. fix IH 1. intros [| | | |l|l].
  - done.
  - apply Hb.
  - apply Ht.
  - apply Hs.
  - apply Ha. induction l; constructor; [apply IH|done].
  - apply Ho. induction l as [|[k v] l IHl]; constructor; [apply IH|done].
Qed.

(** Reading a property. *)
Fixpoint find_key (k : string) (l : JsonObject) : option JsonValue :=
  match l with
  | [] => None
  | (k', v) :: r => if String.eqb k' k then Some v else find_key k r
  end.

(** Setting a property: an existing key keeps its place. *)
Fixpoint set_key (k : string) (v : JsonValue) (o : JsonObject) : JsonObject :=
  match o with
  | [] => [(k, v)]
  | (k', v') :: r => if String.eqb k' k then (k, v) :: r else (k', v') :: set_key k v r
  end.

(** ** JSON.stringify *)

Definition hex_digit (n : Z) : ascii :=
  ascii_of_N (Z.to_N (if n <? 10 then 48 + n else 87 + n)).

Definition dquote : ascii := "034"%char.
Definition backslash : ascii := "092"%char.

(** The characters [JSON.stringify] prints for one character of a string. *)
Definition escape_char (c : ascii) : string :=
  let n := code c in
  let esc d := String.String backslash (String.String d "") in
  if Ascii.eqb c dquote || Ascii.eqb c backslash then esc c
  else if n =? 8 then esc "b"%char
  else if n =? 9 then esc "t"%char
  else if n =? 10 then esc "n"%char
  else if n =? 12 then esc "f"%char
  else if n =? 13 then esc "r"%char
  else if n <? 32 then
    esc "u"%char +:+ "00" +:+ String.String (hex_digit (n / 16)) (String.String (hex_digit (n mod 16)) "")
  else String.String c "".

Fixpoint escape (s : string) : string :=
  match s with
  | EmptyString => ""
  | String.String c r => escape_char c +:+ escape r
  end.

Definition quote (s : string) : string :=
  String.String dquote (escape s +:+ String.String dquote "").

Fixpoint stringify (v : JsonValue) : string :=
  match v with
  | VNull => "null"
  | VBool true => "true"
  | VBool false => "false"
  | VNumber t => t
  | VString s => quote s
  | VArray l => "[" +:+ join "," (map stringify l) +:+ "]"
  | VObject l => "{" +:+ join "," (map (fun kv => quote (fst kv) +:+ ":" +:+ stringify (snd kv)) l) +:+ "}"
  end.

(** ** JSON.parse *)

Definition is_json_space (c : ascii) : bool :=
  let n := code c in (n =? 32) || (n =? 9) || (n =? 10) || (n =? 13).

Fixpoint skip_space (s : string) : string :=
  match s with
  | EmptyString => ""
  | String.String c r => if is_json_space c then skip_space r else s
  end.

(** The character after a backslash, except [u]. *)
Definition unescape (d : ascii) : option ascii :=
  if Ascii.eqb d dquote || Ascii.eqb d backslash || Ascii.eqb d "/" then Some d
  else if Ascii.eqb d "b" then Some "008"%char
  else if Ascii.eqb d "t" then Some "009"%char
  else if Ascii.eqb d "n" then Some "010"%char
  else if Ascii.eqb d "f" then Some "012"%char
  else if Ascii.eqb d "r" then Some "013"%char
  else None.

(** The rest of a string literal, after its opening quote. *)
Fixpoint string_body (s : string) : option (string * string) :=
  match s with
  | EmptyString => None
  | String.String c r =>
      if Ascii.eqb c dquote then Some ("", r)
      else if Ascii.eqb c backslash then
        match r with
        | EmptyString => None
        | String.String d r' =>
            if Ascii.eqb d "u" then
              match r' with
              | String.String h1 (String.String h2 (String.String h3 (String.String h4 r''))) =>
                  if Ascii.eqb h1 "0" && Ascii.eqb h2 "0" && is_hex_digit h3 && is_hex_digit h4 then
                    '(t, rest) ← string_body r'';
                    Some (String.String (ascii_of_N (Z.to_N (16 * hex_value h3 + hex_value h4))) t, rest)
                  else None
              | _ => None
              end
            else
              x ← unescape d;
              '(t, rest) ← string_body r';
              Some (String.String x t, rest)
        end
      else if code c <? 32 then None
      else
        '(t, rest) ← string_body r;
        Some (String.String c t, rest)
  end.

(** A number literal, in its parts; each splits off the text it consumes. *)
Definition opt_char (p : ascii -> bool) (s : string) : string * string :=
  match s with
  | String.String c r => if p c then (String.String c "", r) else ("", s)
  | EmptyString => ("", "")
  end.

Definition digits1 (s : string) : option (string * string) :=
  let '(ds, r) := span_digits s in if non_empty ds then Some (ds, r) else None.

Definition int_part (s : string) : option (string * string) :=
  '(ip, r) ← digits1 s;
  if String.prefix "0" ip && negb (String.eqb ip "0") then None else Some (ip, r).

Definition frac_part (s : string) : option (string * string) :=
  let '(dot, r) := opt_char (Ascii.eqb ".") s in
  if non_empty dot then '(fp, r') ← digits1 r; Some (dot +:+ fp, r') else Some ("", s).

Definition exp_part (s : string) : option (string * string) :=
  let '(e, r) := opt_char (fun c => Ascii.eqb c "e" || Ascii.eqb c "E") s in
  if non_empty e then
    let '(sg, r') := opt_char is_sign r in
    '(ds, r'') ← digits1 r'; Some (e +:+ sg +:+ ds, r'')
  else Some ("", s).

Definition number_literal (s : string) : option (string * string) :=
  let '(sg, r) := opt_char (Ascii.eqb "-") s in
  '(ip, r1) ← int_part r;
  '(fp, r2) ← frac_part r1;
  '(ep, r3) ← exp_part r2;
  Some (sg +:+ ip +:+ fp +:+ ep, r3).

(** The object of a list of members: the last of equal keys wins, in the place
    of the first. *)
Definition object_of (l : list (string * JsonValue)) : JsonObject :=
  fold_left (fun o kv => set_key (fst kv) (snd kv) o) l [].

Definition keyword (s : string) : option (JsonValue * string) :=
  if String.prefix "null" s then Some (VNull, str_drop 4 s)
  else if String.prefix "true" s then Some (VBool true, str_drop 4 s)
  else if String.prefix "false" s then Some (VBool false, str_drop 5 s)
  else None.

Fixpoint parse_value (n : nat) (s : string) : option (JsonValue * string) :=
  match n with
  | O => None
  | S n =>
      match skip_space s with
      | EmptyString => None
      | String.String c r =>
          if Ascii.eqb c dquote then '(t, r') ← string_body r; Some (VString t, r')
          else if Ascii.eqb c "[" then
            let '(close, r') := opt_char (Ascii.eqb "]") (skip_space r) in
            if non_empty close then Some (VArray [], r')
            else '(l, r'') ← parse_elements n r; Some (VArray l, r'')
          else if Ascii.eqb c "{" then
            let '(close, r') := opt_char (Ascii.eqb "}") (skip_space r) in
            if non_empty close then Some (VObject [], r')
            else '(l, r'') ← parse_members n r; Some (VObject (object_of l), r'')
          else if Ascii.eqb c "-" || is_digit c then
            '(t, r') ← number_literal (String.String c r); Some (VNumber t, r')
          else keyword (String.String c r)
      end
  end
with parse_elements (n : nat) (s : string) : option (list JsonValue * string) :=
  match n with
  | O => None
  | S n =>
      '(v, r) ← parse_value n s;
      match skip_space r with
      | String.String c r' =>
          if Ascii.eqb c "," then '(l, r'') ← parse_elements n r'; Some (v :: l, r'')
          else if Ascii.eqb c "]" then Some ([v], r') else None
      | EmptyString => None
      end
  end
with parse_members (n : nat) (s : string) : option (list (string * JsonValue) * string) :=
  match n with
  | O => None
  | S n =>
      match skip_space s with
      | String.String q r =>
          if negb (Ascii.eqb q dquote) then None
          else
            '(k, r1) ← string_body r;
            match skip_space r1 with
            | String.String colon r2 =>
                if negb (Ascii.eqb colon ":") then None
                else
                  '(v, r3) ← parse_value n r2;
                  match skip_space r3 with
                  | String.String c r4 =>
                      if Ascii.eqb c "," then '(l, r5) ← parse_members n r4; Some ((k, v) :: l, r5)
                      else if Ascii.eqb c "}" then Some ([(k, v)], r4) else None
                  | EmptyString => None
                  end
            | EmptyString => None
            end
      | EmptyString => None
      end
  end.

(** Each call consumes a character within two levels of recursion. *)
Definition json_fuel (s : string) : nat := 2 * String.length s + 2.

(** [JSON.parse(s)]; [None] is a [SyntaxError]. *)
Definition JSON_parse (s : string) : option JsonValue :=
  '(v, r) ← parse_value (json_fuel s) s;
  if String.eqb (skip_space r) "" then Some v else None.

Example json_examples :
  let q s := String.String dquote (s +:+ String.String dquote "") in
  JSON_parse (" { " +:+ q "a" +:+ ": [1, -2.5e+3, true], " +:+ q "b\u0041\n" +:+ ":null, " +:+ q "a" +:+ ":" +:+ q "x" +:+ " } ")
    = Some (VObject [("a", VString "x"); (String.append "bA" (String.String "010" ""), VNull)]) /\
  JSON_parse "[1, -2.5e+3, [], {}]" = Some (VArray [VNumber "1"; VNumber "-2.5e+3"; VArray []; VObject []]) /\
  JSON_parse "01" = None /\ JSON_parse "[1,]" = None /\ JSON_parse "" = None /\ JSON_parse "nul" = None /\
  JSON_parse "1 2" = None /\ JSON_parse "1." = None.
Proof. repeat split. Qed.

(** ** Lemmas *)

Lemma skip_space_length s : (String.length (skip_space s) <= String.length s)%nat.
Proof. induction s as [|c r IH]; cbn [skip_space String.length]; [done|]. destruct (is_json_space c); cbn; lia. Qed.

Lemma string_body_length s t r : string_body s = Some (t, r) -> (String.length r < String.length s)%nat.
Proof.
  remember (String.length s) as n eqn:Hn. revert s t r Hn.
  induction n as [n IH] using (well_founded_induction lt_wf). intros s t r -> H.
  destruct s as [|c s]; [done|]. cbn [string_body] in H. cbn [String.length].
  destruct (Ascii.eqb c dquote); [injection H as <- <-; lia|].
  assert (forall s' t' r' k, (String.length s' + S k = String.length (String.String c s))%nat ->
    string_body s' = Some (t', r') -> (String.length r' < S (String.length s))%nat) as Hrec.
  { intros s' t' r' k Hl H'. cbn in Hl. assert (String.length r' < String.length s')%nat; [|lia].
    eapply IH; [|reflexivity|exact H']. cbn. lia. }
  destruct (Ascii.eqb c backslash).
  - destruct s as [|d s]; [done|]. destruct (Ascii.eqb d "u").
    + destruct s as [|h1 [|h2 [|h3 [|h4 s]]]]; try done. destruct (_ && _); [|done].
      destruct (string_body s) as [[t' r']|] eqn:E; [|done]. injection H as <- <-.
      by apply (Hrec s t' r' 5%nat); [cbn; lia|].
    + destruct (unescape d); [|done]. cbn in H. destruct (string_body s) as [[t' r']|] eqn:E; [|done].
      injection H as <- <-. by apply (Hrec s t' r' 1%nat); [cbn; lia|].
  - destruct (code c <? 32); [done|]. destruct (string_body s) as [[t' r']|] eqn:E; [|done].
    injection H as <- <-. by apply (Hrec s t' r' 0%nat); [cbn; lia|].
Qed.

Lemma span_digits_length s : (String.length (snd (span_digits s)) <= String.length s)%nat.
Proof.
  induction s as [|c r IH]; cbn [span_digits]; [done|]. destruct (is_digit c); [|done].
  destruct (span_digits r). cbn in *. lia.
Qed.

Lemma digits1_length s t r : digits1 s = Some (t, r) -> (String.length r < String.length s)%nat.
Proof.
  unfold digits1. destruct s as [|c s]; [done|]. cbn [span_digits]. destruct (is_digit c); [|done].
  pose proof (span_digits_length s). destruct (span_digits s) as [ds r0]. cbn.
  intros [= <- <-]. cbn in *. lia.
Qed.

Lemma opt_char_length p s : (String.length (snd (opt_char p s)) <= String.length s)%nat.
Proof. destruct s as [|c r]; cbn; [done|]. destruct (p c); cbn; lia. Qed.

Lemma number_literal_length s t r : number_literal s = Some (t, r) -> (String.length r < String.length s)%nat.
Proof.
  unfold number_literal, int_part, frac_part, exp_part. intros H.
  pose proof (opt_char_length (Ascii.eqb "-") s) as Hs. destruct (opt_char (Ascii.eqb "-") s) as [sg s1].
  destruct (digits1 s1) as [[ip s2]|] eqn:E1; [|done]. apply digits1_length in E1. cbn in *.
  destruct (_ && _); [done|]. cbn in H.
  pose proof (opt_char_length (Ascii.eqb ".") s2) as Hd. destruct (opt_char (Ascii.eqb ".") s2) as [dot s3].
  assert (exists fp s4, (if non_empty dot then '(fp, r') ← digits1 s3; Some (dot +:+ fp, r') else Some ("", s2))
    = Some (fp, s4) /\ (String.length s4 <= String.length s2)%nat) as (fp & s4 & Ef & Hf).
  { destruct (non_empty dot); [|by do 2 eexists].
    destruct (digits1 s3) as [[fp s4]|] eqn:E2; [|done]. apply digits1_length in E2. cbn in *.
    do 2 eexists. split; [done|]. lia. }
  rewrite Ef in H. cbn in H.
  pose proof (opt_char_length (fun c => Ascii.eqb c "e" || Ascii.eqb c "E") s4) as He.
  destruct (opt_char _ s4) as [e s5]. destruct (non_empty e); [|injection H as _ <-; cbn in *; lia].
  pose proof (opt_char_length is_sign s5) as Hg. destruct (opt_char is_sign s5) as [g s6].
  destruct (digits1 s6) as [[ds s7]|] eqn:E3; [|done]. apply digits1_length in E3. cbn in *.
  injection H as _ <-. lia.
Qed.

Lemma keyword_length s v r : keyword s = Some (v, r) -> (String.length r < String.length s)%nat.
Proof.
  unfold keyword. repeat case_match; try done; intros [= <- <-];
    match goal with H : String.prefix _ s = true |- _ => apply prefix_spec in H as [u ->] end; cbn; lia.
Qed.

(** What a parser of the three leaves is shorter than what it was given. *)
Lemma parse_length n : forall s,
  (forall v r, parse_value n s = Some (v, r) -> (String.length r < String.length s)%nat) /\
  (forall l r, parse_elements n s = Some (l, r) -> (String.length r < String.length s)%nat) /\
  (forall l r, parse_members n s = Some (l, r) -> (String.length r < String.length s)%nat).
Proof.
  induction n as [|n IH]; intros s; [done|].
  pose proof (skip_space_length s) as Hs.
  split; [|split]; intros x r; cbn [parse_value parse_elements parse_members].
  - destruct (skip_space s) as [|c s1]; [done|]. cbn [String.length] in Hs.
    destruct (Ascii.eqb c dquote).
    { destruct (string_body s1) as [[t r1]|] eqn:E; [|done]. intros [= <- <-]. apply string_body_length in E. lia. }
    destruct (Ascii.eqb c "[").
    { pose proof (opt_char_length (Ascii.eqb "]") (skip_space s1)) as Ho. pose proof (skip_space_length s1).
      destruct (opt_char _ _) as [close r1]. cbn in Ho. destruct (non_empty close); [intros [= <- <-]; lia|].
      destruct (parse_elements n s1) as [[l r2]|] eqn:E; [|done]. intros [= <- <-]. apply (IH s1) in E. lia. }
    destruct (Ascii.eqb c "{").
    { pose proof (opt_char_length (Ascii.eqb "}") (skip_space s1)) as Ho. pose proof (skip_space_length s1).
      destruct (opt_char _ _) as [close r1]. cbn in Ho. destruct (non_empty close); [intros [= <- <-]; lia|].
      destruct (parse_members n s1) as [[l r2]|] eqn:E; [|done]. intros [= <- <-]. apply (IH s1) in E. lia. }
    destruct (Ascii.eqb c "-" || is_digit c).
    { destruct (number_literal _) as [[t r1]|] eqn:E; [|done]. intros [= <- <-].
      apply number_literal_length in E. cbn in *. lia. }
    intros H. apply keyword_length in H. cbn in *. lia.
  - destruct (parse_value n s) as [[v r1]|] eqn:E; [|done]. apply (IH s) in E. cbn.
    pose proof (skip_space_length r1) as H1. destruct (skip_space r1) as [|c r2]; [done|]. cbn in H1.
    destruct (Ascii.eqb c ",").
    + destruct (parse_elements n r2) as [[l r3]|] eqn:E2; [|done]. intros [= <- <-]. apply (IH r2) in E2. lia.
    + destruct (Ascii.eqb c "]"); [|done]. intros [= <- <-]. lia.
  - destruct (skip_space s) as [|q s1]; [done|]. cbn in Hs. destruct (negb _); [done|].
    destruct (string_body s1) as [[k r1]|] eqn:E1; [|done]. apply string_body_length in E1. cbn.
    pose proof (skip_space_length r1) as H1. destruct (skip_space r1) as [|co r2]; [done|]. cbn in H1.
    destruct (negb _); [done|].
    destruct (parse_value n r2) as [[v r3]|] eqn:E2; [|done]. apply (IH r2) in E2. cbn.
    pose proof (skip_space_length r3) as H3. destruct (skip_space r3) as [|c r4]; [done|]. cbn in H3.
    destruct (Ascii.eqb c ",").
    + destruct (parse_members n r4) as [[l r5]|] eqn:E3; [|done]. intros [= <- <-]. apply (IH r4) in E3. lia.
    + destruct (Ascii.eqb c "}"); [|done]. intros [= <- <-]. lia.
Qed.

(** More fuel than [json_fuel] changes nothing. *)
Lemma parse_fuel n : forall m s,
  ((2 * String.length s + 1 <= n)%nat -> (n <= m)%nat -> parse_value m s = parse_value n s) /\
  ((2 * String.length s + 2 <= n)%nat -> (n <= m)%nat -> parse_elements m s = parse_elements n s) /\
  ((2 * String.length s + 2 <= n)%nat -> (n <= m)%nat -> parse_members m s = parse_members n s).
Proof.
  induction n as [|n IH]; intros m s; [by repeat split; intros; lia|].
  pose proof (skip_space_length s) as Hs.
  split; [|split]; intros Hn Hm; (destruct m as [|m]; [lia|]); cbn [parse_value parse_elements parse_members].
  - destruct (skip_space s) as [|c s1]; [done|]. cbn [String.length] in Hs.
    destruct (IH m s1) as (_ & He & Hmb). rewrite He, Hmb by lia. done.
  - destruct (IH m s) as (Hv & _ & _). rewrite Hv by lia.
    destruct (parse_value n s) as [[v r1]|] eqn:E; [|done]. apply parse_length in E. cbn.
    pose proof (skip_space_length r1) as H1. destruct (skip_space r1) as [|c r2]; [done|]. cbn in H1.
    destruct (IH m r2) as (_ & He & _). by rewrite He by lia.
  - destruct (skip_space s) as [|q s1]; [done|]. cbn in Hs. destruct (negb _); [done|].
    destruct (string_body s1) as [[k r1]|] eqn:E1; [|done]. apply string_body_length in E1. cbn.
    pose proof (skip_space_length r1) as H1. destruct (skip_space r1) as [|co r2]; [done|]. cbn in H1.
    destruct (negb _); [done|]. destruct (IH m r2) as (Hv & _ & _). rewrite Hv by lia.
    destruct (parse_value n r2) as [[v r3]|] eqn:E2; [|done]. apply parse_length in E2. cbn.
    pose proof (skip_space_length r3) as H3. destruct (skip_space r3) as [|c r4]; [done|]. cbn in H3.
    destruct (IH m r4) as (_ & _ & Hb). by rewrite Hb by lia.
Qed.

Lemma JSON_parse_fuel n s :
  (json_fuel s <= n)%nat ->
  JSON_parse s = ('(v, r) ← parse_value n s; if String.eqb (skip_space r) "" then Some v else None).
Proof. intros Hn. unfold JSON_parse. by rewrite (proj1 (parse_fuel (json_fuel s) n s)) by (unfold json_fuel in *; lia). Qed.

(** ** What [stringify] prints parses back *)

Lemma hex_digit_ok n : 0 <= n < 16 -> is_hex_digit (hex_digit n) = true /\ hex_value (hex_digit n) = n.
Proof.
  intros Hn. apply (forall_below_spec 16 (fun n => is_hex_digit (hex_digit n) && (hex_value (hex_digit n) =? n))) in Hn;
    [|vm_compute; reflexivity]. cbn in Hn. apply andb_true_iff in Hn as [? ?]. bool_hyps. done.
Qed.

(** One printed character is read back, whatever follows. *)
Lemma string_body_char c rest :
  string_body (escape_char c +:+ rest) = ('(t, r) ← string_body rest; Some (String.String c t, r)).
Proof.
  unfold escape_char. cbv zeta.
  destruct (Ascii.eqb_spec c dquote) as [->|Hq]; [done|].
  destruct (Ascii.eqb_spec c backslash) as [->|Hb]; [done|]. cbn [orb].
  assert (forall n d, code c =? n = true -> code d = n -> d = c) as Hc
    by (intros n d Hn Hd; apply code_inj; bool_hyps; lia).
  destruct (code c =? 8) eqn:E8; [by rewrite <- (Hc _ "008"%char E8 eq_refl)|].
  destruct (code c =? 9) eqn:E9; [by rewrite <- (Hc _ "009"%char E9 eq_refl)|].
  destruct (code c =? 10) eqn:E10; [by rewrite <- (Hc _ "010"%char E10 eq_refl)|].
  destruct (code c =? 12) eqn:E12; [by rewrite <- (Hc _ "012"%char E12 eq_refl)|].
  destruct (code c =? 13) eqn:E13; [by rewrite <- (Hc _ "013"%char E13 eq_refl)|].
  destruct (code c <? 32) eqn:E32.
  - pose proof (code_range c) as Hr.
    destruct (hex_digit_ok (code c / 16)) as [H1 V1]; [split; [apply Z.div_pos|apply Z.div_lt_upper_bound]; lia|].
    destruct (hex_digit_ok (code c mod 16)) as [H2 V2]; [by apply Z.mod_pos_bound|].
    set (h1 := hex_digit (code c / 16)) in *. set (h2 := hex_digit (code c mod 16)) in *.
    cbn. rewrite H1, H2, V1, V2. cbn. destruct (string_body rest) as [[t r]|]; [|done]. cbn. do 3 f_equal.
    rewrite <- (Z.div_mod (code c) 16) by lia. apply ascii_of_code.
  - cbn [String.append string_body]. apply Ascii.eqb_neq in Hq, Hb. by rewrite Hq, Hb, E32.
Qed.

Lemma string_body_escape s rest :
  string_body (escape s +:+ String.String dquote rest) = Some (s, rest).
Proof.
  induction s as [|c s IH]; [done|]. cbn [escape]. by rewrite str_app_assoc, string_body_char, IH.
Qed.

(** What may follow a number. *)
Definition stops (rest : string) : Prop :=
  match rest with
  | EmptyString => True
  | String.String c _ => is_digit c = false /\ c <> "."%char /\ c <> "e"%char /\ c <> "E"%char
  end.

Lemma span_digits_app s rest d b :
  stops rest -> span_digits s = (d, b) -> span_digits (s +:+ rest) = (d, b +:+ rest).
Proof.
  intros Hr. revert d b. induction s as [|c s IH]; intros d b; cbn.
  - intros [= <- <-]. destruct rest as [|x rest]; [done|]. cbn. by destruct Hr as [-> _].
  - destruct (is_digit c); [|by intros [= <- <-]]. destruct (span_digits s) as [d0 b0].
    intros [= <- <-]. by rewrite (IH d0 b0 eq_refl).
Qed.

Lemma digits1_app s rest d b :
  stops rest -> digits1 s = Some (d, b) -> digits1 (s +:+ rest) = Some (d, b +:+ rest).
Proof.
  intros Hr. unfold digits1. destruct (span_digits s) as [d0 b0] eqn:E. rewrite (span_digits_app _ _ _ _ Hr E).
  by destruct (non_empty d0); [intros [= <- <-]|].
Qed.

Lemma opt_char_app p s rest :
  (forall c r, rest = String.String c r -> s = "" -> p c = false) ->
  opt_char p (s +:+ rest) = (fst (opt_char p s), snd (opt_char p s) +:+ rest).
Proof.
  intros Hp. destruct s as [|c s]; cbn; [|by destruct (p c)].
  destruct rest as [|c r]; cbn; [done|]. by rewrite (Hp c r).
Qed.

Lemma number_literal_app t rest :
  stops rest -> number_literal t = Some (t, "") -> number_literal (t +:+ rest) = Some (t, rest).
Proof.
  intros Hr. assert (forall c r, rest = String.String c r -> is_digit c = false /\ c <> "."%char /\ c <> "e"%char /\ c <> "E"%char)
    as Hc by (by intros c r ->).
  enough (forall s b, number_literal t = Some (s, b) -> number_literal (t +:+ rest) = Some (s, b +:+ rest)) as H
    by (intros Ht; by rewrite (H _ _ Ht)).
  intros s b. unfold number_literal, int_part, frac_part, exp_part.
  destruct t as [|t0 t]; [done|]. rewrite opt_char_app by done.
  destruct (opt_char _ (String.String t0 t)) as [sg s1]. cbn [fst snd].
  destruct (digits1 s1) as [[ip s2]|] eqn:E1; [|done]. rewrite (digits1_app _ _ _ _ Hr E1). cbn [mbind option_bind].
  destruct (String.prefix "0" ip && negb (String.eqb ip "0")); [done|]. cbn [mbind option_bind].
  rewrite (opt_char_app (Ascii.eqb ".") s2) by (intros c r E _; apply Ascii.eqb_neq; by destruct (Hc _ _ E) as (_ & ? & _)).
  destruct (opt_char (Ascii.eqb ".") s2) as [dot s3] eqn:Ed. cbn [fst snd].
  assert (forall fp s4,
    (if non_empty dot then '(fp, r') ← digits1 s3; Some (dot +:+ fp, r') else Some ("", s2)) = Some (fp, s4) ->
    (if non_empty dot then '(fp, r') ← digits1 (s3 +:+ rest); Some (dot +:+ fp, r') else Some ("", s2 +:+ rest))
      = Some (fp, s4 +:+ rest)) as Hf.
  { intros fp s4. destruct (non_empty dot); [|by intros [= <- <-]].
    destruct (digits1 s3) as [[f s5]|] eqn:E3; [|done]. rewrite (digits1_app _ _ _ _ Hr E3). by intros [= <- <-]. }
  destruct (if non_empty dot then _ else _) as [[fp s4]|] eqn:Ef; [|done].
  rewrite (Hf fp s4) by done. cbn [mbind option_bind].
  rewrite (opt_char_app _ s4) by (intros c r E _; apply orb_false_iff; split; apply Ascii.eqb_neq; by destruct (Hc _ _ E) as (_ & _ & ? & ?)).
  destruct (opt_char _ s4) as [e s5] eqn:Ee. cbn [fst snd].
  destruct (non_empty e); [|by intros [= <- <-]].
  destruct s5 as [|x s5]; [done|]. rewrite opt_char_app by done.
  destruct (opt_char is_sign _) as [g s6]. cbn [fst snd].
  destruct (digits1 s6) as [[ds s7]|] eqn:E4; [|done]. rewrite (digits1_app _ _ _ _ Hr E4). by intros [= <- <-].
Qed.

(** Values a JSON text denotes: numbers are literals, keys are distinct. *)
Fixpoint json_wf (v : JsonValue) : Prop :=
  match v with
  | VNull | VBool _ | VString _ => True
  | VNumber t => number_literal t = Some (t, "")
  | VArray l => Forall id (map json_wf l)
  | VObject l => NoDup (map fst l) /\ Forall id (map (fun kv => json_wf (snd kv)) l)
  end.

Lemma Forall_map_id {A} (P : A -> Prop) l : Forall id (map P l) -> Forall P l.
Proof. induction l as [|x l IH]; cbn; intros H; inversion H; constructor; auto. Qed.

Lemma set_key_new k v o : k ∉ map fst o -> set_key k v o = (o ++ [(k, v)])%list.
Proof.
  induction o as [|[k' v'] o IH]; [done|]. cbn. intros Hk. rewrite not_elem_of_cons in Hk. destruct Hk as [Hne Hk].
  apply not_eq_sym in Hne. apply String.eqb_neq in Hne. by rewrite Hne, IH.
Qed.

Lemma object_of_nodup l : NoDup (map fst l) -> object_of l = l.
Proof.
  unfold object_of. enough (forall o, NoDup (map fst (o ++ l)%list) ->
    fold_left (fun o kv => set_key (fst kv) (snd kv) o) l o = (o ++ l)%list) as H by (intros Hn; by apply (H [])).
  induction l as [|[k v] l IH]; intros o Hn; cbn; [by rewrite app_nil_r|].
  rewrite map_app in Hn. cbn in Hn. rewrite set_key_new.
  - rewrite IH; [by rewrite <- app_assoc|]. rewrite <- app_assoc. by rewrite map_app.
  - intros Hin. apply NoDup_app in Hn as (_ & Hd & _). by apply (Hd k Hin), list_elem_of_here.
Qed.

(** A printed value starts with a character that is neither space nor one that
    closes a collection. *)
Definition opens (s : string) : Prop :=
  match s with
  | EmptyString => False
  | String.String c _ => is_json_space c = false /\ c <> "]"%char /\ c <> "}"%char
  end.

Lemma number_head t : number_literal t = Some (t, "") ->
  exists c r, t = String.String c r /\ (Ascii.eqb c "-" || is_digit c) = true.
Proof.
  destruct t as [|c t]; [done|]. unfold number_literal, int_part, digits1. cbn [opt_char].
  destruct (Ascii.eqb "-" c) eqn:Em.
  - intros _. apply Ascii.eqb_eq in Em. subst c. by do 2 eexists.
  - cbn [span_digits]. destruct (is_digit c) eqn:Ed; [|done]. intros _. do 2 eexists. by rewrite Ed, orb_true_r.
Qed.

Lemma number_char c : (Ascii.eqb c "-" || is_digit c) = true ->
  is_json_space c = false /\ Ascii.eqb c dquote = false /\ Ascii.eqb c "[" = false /\ Ascii.eqb c "{" = false /\
  c <> "]"%char /\ c <> "}"%char.
Proof.
  intros Hc. pose proof (all_chars_spec (fun c => negb (Ascii.eqb c "-" || is_digit c) ||
    (negb (is_json_space c) && negb (Ascii.eqb c dquote) && negb (Ascii.eqb c "[") && negb (Ascii.eqb c "{") &&
     negb (Ascii.eqb c "]") && negb (Ascii.eqb c "}"))) c ltac:(vm_compute; reflexivity)) as H.
  cbv beta in H. rewrite Hc in H. cbn [negb orb] in H. rewrite !andb_true_iff, !negb_true_iff in H.
  destruct H as (((((H1 & H2) & H3) & H4) & H5) & H6). apply Ascii.eqb_neq in H5, H6. done.
Qed.

Lemma stringify_opens v : json_wf v -> opens (stringify v).
Proof.
  destruct v as [|[]|t|s|l|l]; cbn [json_wf stringify]; intros H; try (by vm_compute).
  destruct (number_head t H) as (c & r & -> & Hc). apply number_char in Hc. cbn. tauto.
Qed.

Lemma skip_space_opens s rest : opens s -> skip_space (s +:+ rest) = s +:+ rest.
Proof. destruct s as [|c s]; [done|]. cbn. by intros [-> _]. Qed.

Lemma opt_char_opens c s rest :
  opens s -> c = "]"%char \/ c = "}"%char -> opt_char (Ascii.eqb c) (s +:+ rest) = ("", s +:+ rest).
Proof.
  destruct s as [|x s]; [done|]. cbn. intros (_ & H1 & H2) Hc.
  destruct (Ascii.eqb_spec c x) as [->|]; [|done]. by destruct Hc.
Qed.

(** A value whose text, in front of anything that may follow, parses. *)
Definition reads (v : JsonValue) : Prop :=
  forall rest, stops rest -> exists n0, forall n, (n0 <= n)%nat -> parse_value n (stringify v +:+ rest) = Some (v, rest).

Lemma stops_comma r : stops ("," +:+ r). Proof. by repeat split. Qed.
Lemma stops_bracket r : stops ("]" +:+ r). Proof. by repeat split. Qed.
Lemma stops_brace r : stops ("}" +:+ r). Proof. by repeat split. Qed.

Lemma elements_read l rest :
  l <> [] -> Forall reads l ->
  exists n0, forall n, (n0 <= n)%nat ->
    parse_elements n (join "," (map stringify l) +:+ "]" +:+ rest) = Some (l, rest).
Proof.
  intros Hne Hl. induction Hl as [|v l Hv Hl IH]; [done|]. destruct l as [|w l].
  - destruct (Hv _ (stops_bracket rest)) as [n0 Hn0]. exists (S n0). intros [|n] Hn; [lia|].
    cbn [map join parse_elements]. by rewrite Hn0 by lia.
  - destruct IH as [n1 Hn1]; [done|].
    destruct (Hv _ (stops_comma (join "," (map stringify (w :: l)) +:+ "]" +:+ rest))) as [n0 Hn0].
    exists (S (Nat.max n0 n1)). intros [|n] Hn; [lia|]. cbn [map]. rewrite join_cons, !str_app_assoc.
    cbn [parse_elements]. cbn [map] in Hn0, Hn1. rewrite Hn0 by lia. cbn [mbind option_bind].
    change (skip_space ("," +:+ ?x)) with ("," +:+ x). cbn [String.append].
    rewrite Hn1 by lia. done.
Qed.

Definition print_member (kv : string * JsonValue) : string := quote (fst kv) +:+ ":" +:+ stringify (snd kv).

Lemma members_read l rest :
  l <> [] -> Forall (fun kv => opens (stringify (snd kv)) /\ reads (snd kv)) l ->
  exists n0, forall n, (n0 <= n)%nat ->
    parse_members n (join "," (map print_member l) +:+ "}" +:+ rest) = Some (l, rest).
Proof.
  intros Hne Hl. induction Hl as [|[k v] l [Ho Hv] Hl IH]; [done|].
  assert (forall tail r' out, stops tail -> exists n0, forall n, (n0 <= n)%nat ->
    parse_value n (stringify v +:+ tail) = Some (v, tail) /\
    (match skip_space tail with
     | String.String c r4 =>
         if Ascii.eqb c "," then '(l, r5) ← parse_members n r4; Some ((k, v) :: l, r5)
         else if Ascii.eqb c "}" then Some ([(k, v)], r4) else None
     | EmptyString => None
     end = Some (out, r') ->
     parse_members (S n) (print_member (k, v) +:+ tail) = Some (out, r'))) as Hone.
  { intros tail r' out Ht. destruct (Hv tail Ht) as [n0 Hn0]. exists n0. intros n Hn. split; [by apply Hn0|].
    intros Hk. unfold print_member, quote. cbn [fst snd]. rewrite !str_app_assoc. cbn [String.append].
    cbn [parse_members]. change (skip_space (String.String dquote ?x)) with (String.String dquote x). cbv iota.
    rewrite str_app_assoc. cbn [String.append].
    rewrite Ascii.eqb_refl. cbn [negb]. rewrite string_body_escape. cbn [mbind option_bind].
    change (skip_space (String.String ":" ?x)) with (String.String ":" x). cbv iota.
    cbn [negb]. change (Ascii.eqb ":" ":") with true. cbn [negb]. rewrite Hn0 by done. cbn [mbind option_bind]. exact Hk. }
  destruct l as [|w l].
  - destruct (Hone ("}" +:+ rest) rest [(k, v)] (stops_brace rest)) as [n0 Hn0]. exists (S n0).
    intros [|n] Hn; [lia|]. cbn [map join]. by apply Hn0; [lia|].
  - destruct IH as [n1 Hn1]; [done|].
    destruct (Hone ("," +:+ join "," (map print_member (w :: l)) +:+ "}" +:+ rest) rest ((k, v) :: w :: l) (stops_comma _))
      as [n0 Hn0].
    exists (S (Nat.max n0 n1)). intros [|n] Hn; [lia|]. cbn [map]. rewrite join_cons, !str_app_assoc.
    apply Hn0; [lia|]. change (skip_space ("," +:+ ?x)) with ("," +:+ x). cbn [String.append].
    cbn [map] in Hn1. by rewrite Hn1 by lia.
Qed.

Lemma value_reads v : json_wf v -> reads v.
Proof.
  induction v as [|b|t|s|l IH|l IH] using JsonValue_nested_ind; intros Hwf rest Hr.
  - exists 1%nat. intros [|n] Hn; [lia|]. cbn. by destruct rest.
  - exists 1%nat. intros [|n] Hn; [lia|]. by destruct b, rest.
  - exists 1%nat. intros [|n] Hn; [lia|]. cbn [stringify parse_value].
    destruct (number_head t Hwf) as (c & r & Et & Hc). pose proof (number_char c Hc) as (H1 & H2 & H3 & H4 & _).
    subst t. cbn [String.append skip_space]. rewrite H1, H2, H3, H4, Hc.
    change (String.String c (r +:+ rest)) with (String.String c r +:+ rest). by rewrite (number_literal_app _ rest Hr Hwf).
  - exists 1%nat. intros [|n] Hn; [lia|]. cbn [stringify]. unfold quote. cbn [String.append parse_value].
    change (skip_space (String.String dquote ?x)) with (String.String dquote x). cbv iota.
    rewrite Ascii.eqb_refl, str_app_assoc. cbn [String.append]. by rewrite string_body_escape.
  - destruct l as [|v l]; [exists 1%nat; intros [|n] Hn; [lia|]; done|].
    assert (Forall json_wf (v :: l)) as Hw by (by apply Forall_map_id).
    destruct (elements_read (v :: l) rest) as [n0 Hn0]; [done| |].
    { rewrite !Forall_forall in *. intros x Hx. by apply IH, Hw. }
    exists (S n0). intros [|n] Hn; [lia|]. cbn [stringify]. rewrite !str_app_assoc. cbn [String.append parse_value].
    change (skip_space (String.String "[" ?x)) with (String.String "[" x). cbv iota.
    change (Ascii.eqb "[" dquote) with false. change (Ascii.eqb "[" "[") with true. cbv iota.
    assert (exists u, join "," (map stringify (v :: l)) +:+ "]" +:+ rest = stringify v +:+ u) as [u Hu].
    { destruct l as [|w l]; cbn [map]; [by exists ("]" +:+ rest)|]. rewrite join_cons, !str_app_assoc. by eexists. }
    inversion Hw as [|? ? Hv _]; subst. pose proof (stringify_opens v Hv) as Ho.
    change (join "," (map stringify (v :: l)) +:+ String.String "]" rest)
      with (join "," (map stringify (v :: l)) +:+ "]" +:+ rest).
    rewrite Hu, skip_space_opens, opt_char_opens by (done || by left). cbn [non_empty]. rewrite <- Hu, Hn0 by lia. done.
  - destruct Hwf as [Hnd Hwf]. destruct l as [|[k v] l]; [exists 1%nat; intros [|n] Hn; [lia|]; done|].
    destruct (members_read ((k, v) :: l) rest) as [n0 Hn0]; [done| |].
    { apply (Forall_map_id (fun kv => json_wf (snd kv))) in Hwf. rewrite !Forall_forall in *.
      intros x Hx. split; [by apply stringify_opens, Hwf|by apply IH, Hwf]. }
    exists (S n0). intros [|n] Hn; [lia|]. cbn [stringify].
    change (map (fun kv => quote (fst kv) +:+ ":" +:+ stringify (snd kv)) ((k, v) :: l)) with (map print_member ((k, v) :: l)).
    rewrite !str_app_assoc. cbn [String.append parse_value].
    change (skip_space (String.String "{" ?x)) with (String.String "{" x). cbv iota.
    change (Ascii.eqb "{" dquote) with false. change (Ascii.eqb "{" "[") with false.
    change (Ascii.eqb "{" "{") with true. cbv iota.
    change (join "," (map print_member ((k, v) :: l)) +:+ String.String "}" rest)
      with (join "," (map print_member ((k, v) :: l)) +:+ "}" +:+ rest).
    assert (exists u, join "," (map print_member ((k, v) :: l)) +:+ "}" +:+ rest = quote k +:+ u) as [u Hu].
    { destruct l as [|w l]; cbn [map]; [|rewrite join_cons]; unfold print_member at 1; cbn [fst snd join];
        rewrite !str_app_assoc; by eexists. }
    rewrite Hu, skip_space_opens, opt_char_opens by (done || by right). cbn [non_empty]. rewrite <- Hu, Hn0 by lia.
    cbn [mbind option_bind]. by rewrite object_of_nodup.
Qed.

(** [JSON.parse(JSON.stringify(v))] is [v]. *)
Lemma JSON_parse_stringify v : json_wf v -> JSON_parse (stringify v) = Some v.
Proof.
  intros Hv. destruct (value_reads v Hv "" I) as [n0 Hn0]. rewrite str_app_nil_r in Hn0.
  rewrite (JSON_parse_fuel (Nat.max n0 (json_fuel (stringify v)))) by lia. by rewrite Hn0 by lia.
Qed.
