(* ===== verification/AuditCore.v ===== *)
(** Audit identifiers, retention and durable writes:
    [packages/foundation/src/audit/ulid.ts], [retention.ts] and
    [multi-store.ts]. *)

From S2P Require Import Prelude JsString.
From Stdlib Require Import QArith_base Qround Ascii Lqa.

#[local] Open Scope string_scope.
#[local] Open Scope Z_scope.

(** ** ulid *)

Definition ENCODING : string := "0123456789ABCDEFGHJKMNPQRSTVWXYZ".
Definition ENCODING_LEN : Z := 32.
Definition TIME_LEN : nat := 10.
Definition RANDOM_LEN : nat := 16.

(** [ENCODING.charAt(i)]. *)
Definition charAt (s : string) (i : Z) : string :=
  match String.get (Z.to_nat i) s with Some c => String.String c "" | None => "" end.

Fixpoint encode_time_loop (n : nat) (time : Z) (str : string) : string :=
  match n with
  | O => str
  | S n' =>
      let m := time mod ENCODING_LEN in
      encode_time_loop n' ((time - m) / ENCODING_LEN) (charAt ENCODING m +:+ str)
  end.

Inductive ulid_error := RangeError | InsufficientRandomBytes.

Definition encodeTime (timeMs : Z) : result ulid_error string :=
  if (timeMs <? 0) || (281474976710655 <? timeMs) then Throw RangeError
  else Ok (encode_time_loop TIME_LEN timeMs "").

(** [bytes] is what [randomBytes(len)] returned, still to be read. *)
Fixpoint encodeRandom (len : nat) (bytes : list Z) : result ulid_error string :=
  match len with
  | O => Ok ""
  | S len' =>
      match bytes with
      | [] => Throw InsufficientRandomBytes
      | b :: rest =>
          (let* str := encodeRandom len' rest in Ok (charAt ENCODING (b mod ENCODING_LEN) +:+ str))%js
      end
  end.

Definition ulid (timeMs : Z) (bytes : list Z) : result ulid_error string :=
  (let* time := encodeTime timeMs in
   let* rand := encodeRandom RANDOM_LEN bytes in
   Ok (time +:+ rand))%js.

(** ** Retention *)

Inductive AuditSeverity := info | warning | error.

Definition DEFAULT_RETENTION_DAYS (s : AuditSeverity) : Z :=
  match s with info => 30 | warning => 180 | error => 400 end.

Definition SECONDS_PER_DAY : Z := 86400.

(** An override maps a severity to a finite number of days; unset tiers and
    non-finite numbers are [None]. *)
Definition Override := AuditSeverity -> option Q.

Definition retentionDaysFor (severity : AuditSeverity) (override : Override) : Z :=
  match override severity with
  | Some d => if Qle_bool d 0 then DEFAULT_RETENTION_DAYS severity else Qfloor d
  | None => DEFAULT_RETENTION_DAYS severity
  end.

Definition retentionSecondsFor (severity : AuditSeverity) (override : Override) : Z :=
  retentionDaysFor severity override * SECONDS_PER_DAY.

Definition ttlFor (severity : AuditSeverity) (nowEpochSeconds : Z) (override : Override) : Z :=
  nowEpochSeconds + retentionSecondsFor severity override.

(** ** Several stores *)

Inductive MultiAuditStoreMode := all_or_any | all.

Inductive multi_error :=
| NoStores
| StoresFailed (failed total : nat).

(** A store is what its [put(event, retentionSeconds)] does to its contents:
    the new contents, and whether the promise resolved. *)
Record AuditStore (Ev : Type) := {
  contents : list Ev;
  accept : Ev -> Z -> list Ev -> list Ev * bool
}.
Arguments contents {Ev}.
Arguments accept {Ev}.

Definition new_MultiAuditStore {Ev} (stores : list (AuditStore Ev)) :
    result multi_error (list (AuditStore Ev)) :=
  match stores with [] => Throw NoStores | _ => Ok stores end.

Definition store_put {Ev} (event : Ev) (retentionSeconds : Z) (s : AuditStore Ev) :
    AuditStore Ev * bool :=
  let '(c, ok) := accept s event retentionSeconds (contents s) in
  ({| contents := c; accept := accept s |}, ok).

(** Every store is written to, whatever the others do; the result is the
    stores afterwards, the store indices whose failures are logged, and the
    outcome of the promise. *)
Definition multi_put {Ev} (mode : MultiAuditStoreMode) (stores : list (AuditStore Ev))
    (event : Ev) (retentionSeconds : Z) :
    list (AuditStore Ev) * list nat * result multi_error unit :=
  let settled := map (store_put event retentionSeconds) stores in
  let failures := List.filter (fun i => match settled !! i with
                                        | Some (_, ok) => negb ok | None => false end)
                    (seq 0 (length settled)) in
  let successes := (length settled - length failures)%nat in
  let outcome :=
    match mode with
    | all => if (0 <? length failures)%nat
             then Throw (StoresFailed (length failures) (length settled)) else Ok tt
    | all_or_any => if (successes =? 0)%nat
                    then Throw (StoresFailed (length failures) (length settled)) else Ok tt
    end in
  (map fst settled, failures, outcome).

(** ** Lemmas: base 32 *)

(** The place of a character in [ENCODING], and the number a string reads as. *)
Fixpoint place (c : ascii) (s : string) : Z :=
  match s with
  | EmptyString => 0
  | String.String d rest => if Ascii.eqb d c then 0 else 1 + place c rest
  end.

Definition symbol (c : ascii) : bool := char_in c ENCODING.

Fixpoint value_of (acc : Z) (s : string) : Z :=
  match s with
  | EmptyString => acc
  | String.String c rest => value_of (acc * 32 + place c ENCODING) rest
  end.

(** JavaScript's [<] on strings of the alphabet. *)
Fixpoint str_ltb (a b : string) : bool :=
  match a, b with
  | EmptyString, String.String _ _ => true
  | String.String c a', String.String d b' =>
      (code c <? code d) || ((code c =? code d) && str_ltb a' b')
  | _, EmptyString => false
  end.

Definition digit_ok (m : Z) : bool :=
  match charAt ENCODING m with
  | String.String c EmptyString => symbol c && (place c ENCODING =? m)
  | _ => false
  end.

Lemma digit_ok_all m : 0 <= m < 32 -> digit_ok m = true.
Proof. intros H. by apply (forall_below_spec 32 digit_ok m eq_refl). Qed.

Lemma digit_symbol m :
  0 <= m < 32 -> exists c, charAt ENCODING m = String.String c "" /\ symbol c = true /\ place c ENCODING = m.
Proof.
  intros H%digit_ok_all. unfold digit_ok in H.
  destruct (charAt ENCODING m) as [|c [|]]; try done. bool_hyps. eauto.
Qed.

(** The alphabet is sorted: places order as character codes do. *)
Definition sorted_at (n : Z) : bool :=
  let c := ascii_of_N (Z.to_N n) in
  negb (symbol c) ||
  forall_below 256 (fun k =>
    let d := ascii_of_N (Z.to_N k) in
    negb (symbol d) || (Bool.eqb (code c <? code d) (place c ENCODING <? place d ENCODING)
                        && (0 <=? place d ENCODING) && (place d ENCODING <? 32))).

Lemma sorted_at_all : forall_below 256 sorted_at = true.
Proof. vm_compute. reflexivity. Qed.

Lemma alphabet_table c d :
  symbol c = true -> symbol d = true ->
  (code c <? code d) = (place c ENCODING <? place d ENCODING) /\
  (0 <=? place d ENCODING) = true /\ (place d ENCODING <? 32) = true.
Proof.
  intros Hc Hd. pose proof (forall_below_spec 256 _ _ sorted_at_all (code_range c)) as H.
  unfold sorted_at in H. cbv zeta in H. rewrite ascii_of_code, Hc in H.
  change (negb true) with false in H. rewrite orb_false_l in H.
  apply (fun H => forall_below_spec 256 _ _ H (code_range d)) in H. cbv beta zeta in H.
  rewrite ascii_of_code, Hd in H. change (negb true) with false in H. rewrite orb_false_l in H.
  apply andb_true_iff in H as [[He Hl]%andb_true_iff Hu]. by apply Bool.eqb_prop in He.
Qed.

Lemma alphabet_sorted c d :
  symbol c = true -> symbol d = true ->
  (code c < code d <-> place c ENCODING < place d ENCODING) /\ 0 <= place d ENCODING < 32.
Proof.
  intros Hc Hd. destruct (alphabet_table c d Hc Hd) as (He & Hl & Hu). bool_hyps.
  split; [|lia]. by rewrite <- Z.ltb_lt, He, Z.ltb_lt.
Qed.

Lemma place_range c : symbol c = true -> 0 <= place c ENCODING < 32.
Proof. intros H. by apply (alphabet_sorted c c). Qed.

Lemma value_of_split acc s : value_of acc s = acc * 32 ^ Z.of_nat (String.length s) + value_of 0 s.
Proof.
  revert acc. induction s as [|c s IH]; intros acc; cbn [value_of String.length].
  - rewrite Z.pow_0_r. lia.
  - rewrite IH, (IH (0 * 32 + _)), Nat2Z.inj_succ, Z.pow_succ_r by lia. lia.
Qed.

Lemma value_of_range s :
  str_all symbol s = true -> 0 <= value_of 0 s < 32 ^ Z.of_nat (String.length s).
Proof.
  induction s as [|c s IH]; cbn [value_of String.length str_all]; [lia|].
  intros H. bool_hyps. specialize (IH H0). pose proof (place_range c H).
  rewrite value_of_split, Nat2Z.inj_succ, Z.pow_succ_r by lia. nia.
Qed.

(** On strings of one length, the order of strings is the order of the
    numbers they read as. *)
Lemma str_ltb_value a b :
  String.length a = String.length b -> str_all symbol a = true -> str_all symbol b = true ->
  str_ltb a b = true <-> value_of 0 a < value_of 0 b.
Proof.
  revert b. induction a as [|c a IH]; intros [|d b] Hlen Ha Hb; cbn [str_ltb value_of]; try done.
  cbn [String.length str_all] in *. injection Hlen as Hlen.
  apply andb_true_iff in Ha as [H H0], Hb as [H1 H2].
  specialize (IH b Hlen H0 H2). rewrite (value_of_split (0 * 32 + place c ENCODING)),
    (value_of_split (0 * 32 + place d ENCODING)), Hlen.
  pose proof (value_of_range a H0) as Ra. pose proof (value_of_range b H2) as Rb. rewrite Hlen in Ra.
  destruct (alphabet_sorted c d H H1) as [Hcd _]. destruct (alphabet_sorted d c H1 H) as [Hdc _].
  rewrite orb_true_iff, andb_true_iff, Z.ltb_lt, Z.eqb_eq, IH.
  destruct (Z.lt_trichotomy (place c ENCODING) (place d ENCODING)) as [Hlt|[Heq|Hgt]].
  - split; [intros _; nia|]. intros _. left. by apply Hcd.
  - assert (code c = code d) by lia. rewrite Heq. split; [intros [?|[? ?]]; lia|]. intros ?. right. lia.
  - split; [intros [?|[? ?]]; lia|]. intros ?. exfalso. nia.
Qed.

Lemma value_of_app ds acc c :
  value_of acc ds * 32 + place c ENCODING = value_of acc (ds +:+ String.String c "").
Proof. revert acc. induction ds as [|d ds IH]; intros acc; [done|]. apply IH. Qed.

Lemma encode_loop_spec n time str :
  0 <= time ->
  exists ds, encode_time_loop n time str = ds +:+ str /\ String.length ds = n /\
    str_all symbol ds = true /\ value_of 0 ds = time mod 32 ^ Z.of_nat n.
Proof.
  revert time str. induction n as [|n IH]; intros time str Ht; cbn [encode_time_loop].
  - exists "". split; [done|]. split; [done|]. split; [done|]. simpl. by rewrite Z.mod_1_r.
  - unfold ENCODING_LEN. set (m := time mod 32).
    assert (0 <= m < 32) as Hm by (apply Z.mod_pos_bound; lia).
    destruct (digit_symbol m Hm) as (c & -> & Hc & Hp).
    destruct (IH ((time - m) / 32) (String.String c "" +:+ str)) as (ds & -> & Hlen & Hall & Hv).
    { apply Z.div_pos; [|lia]. unfold m. pose proof (Z.mod_le time 32). lia. }
    exists (ds +:+ String.String c ""). split; [by rewrite str_app_assoc|].
    split; [rewrite str_length_app, Hlen; simpl; lia|].
    split; [rewrite str_all_app, Hall; simpl; by rewrite Hc|].
    rewrite <- (value_of_app ds), Hv, Hp. rewrite Nat2Z.inj_succ, Z.pow_succ_r by lia.
    assert ((time - m) / 32 = time / 32) as ->.
    { unfold m. rewrite (Z.div_mod time 32) at 1 by lia. rewrite Z.add_simpl_r, Z.mul_comm.
      by rewrite Z.div_mul. }
    unfold m. rewrite (Z.rem_mul_r time 32 (32 ^ Z.of_nat n)) by lia. lia.
Qed.

Lemma encode_random_spec len bytes :
  (len <= length bytes)%nat ->
  exists str, encodeRandom len bytes = Ok str /\ String.length str = len /\ str_all symbol str = true.
Proof.
  revert bytes. induction len as [|len IH]; intros [|b bytes] Hl; simpl length in *; try lia; try by exists "".
  destruct (IH bytes) as (str & Hs & Hlen & Hall); [lia|]. cbn [encodeRandom]. rewrite Hs.
  destruct (digit_symbol (b mod 32)) as (c & Hc & Hsym & _); [apply Z.mod_pos_bound; lia|].
  unfold ENCODING_LEN. rewrite Hc. eexists. split; [done|].
  simpl. by rewrite Hlen, Hsym.
Qed.

Lemma str_ltb_app_l a b x y :
  String.length a = String.length b -> str_ltb a b = true -> str_ltb (a +:+ x) (b +:+ y) = true.
Proof.
  revert b. induction a as [|c a IH]; intros [|d b] Hl; simpl; try done. injection Hl as Hl.
  rewrite !orb_true_iff, !andb_true_iff. intros [?|[? ?]]; [by left|]. right. auto.
Qed.

Lemma ulid_shape t bytes :
  0 <= t <= 281474976710655 -> (RANDOM_LEN <= length bytes)%nat ->
  exists ds rs, ulid t bytes = Ok (ds +:+ rs) /\
    String.length ds = TIME_LEN /\ String.length rs = RANDOM_LEN /\
    str_all symbol ds = true /\ str_all symbol rs = true /\ value_of 0 ds = t.
Proof.
  intros Ht Hb. destruct (encode_loop_spec TIME_LEN t "" ltac:(lia)) as (ds & He & Hl & Hall & Hv).
  destruct (encode_random_spec RANDOM_LEN bytes Hb) as (rs & Hr & Hrl & Hrall).
  exists ds, rs. unfold ulid, encodeTime.
  destruct (Z.ltb_spec t 0); [lia|]. destruct (Z.ltb_spec 281474976710655 t); [lia|].
  rewrite He, str_app_nil_r. cbn [orb result_bind]. rewrite Hr. cbn [result_bind].
  split; [done|]. split; [done|]. split; [done|]. split; [done|]. split; [done|].
  rewrite Hv, Z.mod_small; [done|]. unfold TIME_LEN.
  change (32 ^ Z.of_nat 10) with 1125899906842624. split; [apply Ht|].
  eapply Z.le_lt_trans; [apply Ht|]. reflexivity.
Qed.

(** @@ ([ulid]): over 16 random bytes, [ulid(t)] succeeds exactly for a
    48-bit timestamp; the identifier is 26 characters of the Crockford
    alphabet whose first ten read back, in base 32, as the timestamp; and for
    two timestamps with [t1 < t2] the first identifier sorts before the
    second as a string, whatever the random parts. *)
Theorem ulid_sortable (bytes : list Z) (Hb : (RANDOM_LEN <= length bytes)%nat) :
  (forall t, (0 <= t <= 281474976710655 <-> is_ok (ulid t bytes) = true)) /\
  (forall t id, ulid t bytes = Ok id ->
     String.length id = 26%nat /\ str_all symbol id = true /\ value_of 0 (str_take 10 id) = t) /\
  (forall t1 t2 bytes2 id1 id2, t1 < t2 -> (RANDOM_LEN <= length bytes2)%nat ->
     ulid t1 bytes = Ok id1 -> ulid t2 bytes2 = Ok id2 -> str_ltb id1 id2 = true).
Proof.
  assert (forall t bs id, ulid t bs = Ok id -> 0 <= t <= 281474976710655) as Hdom.
  { intros t bs id H. unfold ulid, encodeTime in H.
    destruct (Z.ltb_spec t 0); [done|]. destruct (Z.ltb_spec 281474976710655 t); [done|]. lia. }
  split; [|split].
  - intros t. split.
    + intros Ht. destruct (ulid_shape t bytes Ht Hb) as (ds & rs & -> & _). done.
    + destruct (ulid t bytes) eqn:E; [intros _; by eapply Hdom|done].
  - intros t id H. destruct (ulid_shape t bytes (Hdom _ _ _ H) Hb) as (ds & rs & E & Hl & Hr & Ha & Hra & Hv).
    rewrite E in H. injection H as <-. rewrite str_length_app, Hl, Hr, str_all_app, Ha, Hra.
    split; [done|]. split; [done|]. change 10%nat with TIME_LEN. by rewrite <- Hl, str_take_app.
  - intros t1 t2 bytes2 id1 id2 Hlt Hb2 H1 H2.
    destruct (ulid_shape t1 bytes (Hdom _ _ _ H1) Hb) as (ds & rs & E & Hl & _ & Ha & _ & Hv).
    destruct (ulid_shape t2 bytes2 (Hdom _ _ _ H2) Hb2) as (ds2 & rs2 & E2 & Hl2 & _ & Ha2 & _ & Hv2).
    rewrite E in H1. rewrite E2 in H2. injection H1 as <-. injection H2 as <-.
    apply str_ltb_app_l; [by rewrite Hl, Hl2|]. apply str_ltb_value; [by rewrite Hl, Hl2|done|done|lia].
Qed.

Lemma ulid_sortable_witness :
  (16 <= length (repeat 7 16))%nat /\
  str_ltb "01ARZ3NDEK7777777777777777" "01ARZ3NDEM7777777777777777" = true.
Proof.
  split; [simpl; lia|].
  apply (proj2 (proj2 (ulid_sortable (repeat 7 16) (le_n 16))) 1469922850259 1469922850260 (repeat 7 16));
    [lia|vm_compute; lia|vm_compute; reflexivity|vm_compute; reflexivity].
Defined.

(** Retention: a fraction of a day is floored to zero days, so the row
    expires the moment it is written, while zero and negative overrides fall
    back to the default tier. *)
Lemma fractional_override_expires_at_once :
  ttlFor error 1000 (fun _ => Some (1 # 2)%Q) = 1000 /\
  ttlFor error 1000 (fun _ => Some (0 # 1)%Q) = 1000 + 400 * 86400.
Proof. split; reflexivity. Qed.

(** ** Lemmas: several stores *)

Section multi.
Context {Ev : Type} (mode : MultiAuditStoreMode) (stores : list (AuditStore Ev)) (event : Ev) (r : Z).

(** Whether store [i]'s write resolves. *)
Definition acks (s : AuditStore Ev) : bool := snd (store_put event r s).

Lemma failures_spec i :
  i ∈ snd (fst (multi_put mode stores event r)) <->
  exists s, stores !! i = Some s /\ acks s = false.
Proof.
  unfold multi_put. cbn [fst snd]. rewrite list_elem_of_In, filter_In, in_seq, length_map.
  rewrite list_lookup_fmap. split.
  - intros [Hi Hf]. destruct (stores !! i) as [s|] eqn:E; simpl in Hf; [|done].
    exists s. split; [done|]. unfold acks. destruct (store_put event r s) as [? []]; done.
  - intros (s & E & Ha). rewrite E. simpl. unfold acks in Ha.
    split; [apply lookup_lt_Some in E; lia|]. by destruct (store_put event r s) as [? []].
Qed.

Lemma failures_NoDup : NoDup (snd (fst (multi_put mode stores event r))).
Proof. unfold multi_put. cbn [fst snd]. apply NoDup_ListNoDup, List.NoDup_filter, seq_NoDup. Qed.
End multi.

Lemma filter_full_length {A} (f : A -> bool) l :
  length (List.filter f l) = length l <-> Forall (fun x => f x = true) l.
Proof.
  induction l as [|x l IH]; simpl; [done|]. pose proof (filter_length_le f l).
  rewrite Forall_cons. destruct (f x); simpl; [rewrite <- IH; lia|]. split; [lia|naive_solver].
Qed.

Lemma filter_empty_length {A} (f : A -> bool) l :
  length (List.filter f l) = 0%nat <-> Forall (fun x => f x = false) l.
Proof.
  induction l as [|x l IH]; simpl; [done|].
  rewrite Forall_cons. destruct (f x); simpl; [split; [lia|naive_solver]|]. rewrite IH. naive_solver.
Qed.

(** @@ ([MultiAuditStore.put]): every store receives the event exactly once,
    whatever the other stores do and in either mode; a store whose write
    rejects is reported to the logger, once, and no other is. In ['all'] mode
    the promise resolves iff every store acknowledged; in ['all-or-any'] mode
    iff at least one did. *)
Theorem multi_put_spec {Ev} mode (stores : list (AuditStore Ev)) event r
    (Hne : is_ok (new_MultiAuditStore stores) = true) :
  let '(stores', failures, outcome) := multi_put mode stores event r in
  stores' = map (fun s => fst (store_put event r s)) stores /\
  NoDup failures /\
  (forall i, i ∈ failures <-> exists s, stores !! i = Some s /\ acks event r s = false) /\
  (is_ok outcome = true <->
   match mode with
   | all => Forall (fun s => acks event r s = true) stores
   | all_or_any => Exists (fun s => acks event r s = true) stores
   end).
Proof.
  pose proof (failures_NoDup mode stores event r) as Hnd.
  pose proof (failures_spec mode stores event r) as Hf.
  unfold multi_put in *. cbn [fst snd] in *.
  rewrite length_map in *. set (fl := List.filter _ _) in *.
  split; [by rewrite map_map|]. split; [done|]. split; [done|].
  assert (length fl = length stores <-> Forall (fun s => acks event r s = false) stores) as Hfull.
  { transitivity (length fl = length (seq 0 (length stores))); [by rewrite length_seq|].
    unfold fl. rewrite filter_full_length.
    rewrite Forall_forall, Forall_lookup. split.
    - intros H i s E. assert (i ∈ fl) as (s' & E' & Ha)%Hf; [|congruence].
      apply list_elem_of_In, filter_In. assert (i ∈ seq 0 (length stores)) as Hi.
      { apply elem_of_seq. apply lookup_lt_Some in E. lia. }
      split; [by apply list_elem_of_In|by apply H].
    - intros H i Hi%elem_of_seq. destruct (lookup_lt_is_Some_2 stores i) as [s E]; [lia|].
      assert (i ∈ fl) as Hin by (apply Hf; eauto). by apply list_elem_of_In, filter_In in Hin as [_ ?]. }
  assert (length fl = 0%nat <-> Forall (fun s => acks event r s = true) stores) as Hnone.
  { rewrite Forall_lookup. split.
    - intros H%nil_length_inv i s E. destruct (acks event r s) eqn:Ha; [done|].
      assert (i ∈ fl) as Hin by (apply Hf; eauto). rewrite H in Hin. by apply not_elem_of_nil in Hin.
    - intros H. destruct fl as [|i fl']; [done|].
      destruct (proj1 (Hf i)) as (s & E & Ha); [constructor|]. by rewrite (H i s E) in Ha. }
  assert (length fl <= length stores)%nat as Hle.
  { unfold fl. etrans; [apply filter_length_le|]. by rewrite length_seq. }
  destruct mode.
  - destruct (Nat.eqb_spec (length stores - length fl) 0) as [E|E]; cbn [is_ok].
    + split; [done|]. assert (length fl = length stores) as H%Hfull by lia.
      intros (s & Hs & Ha)%Exists_exists. rewrite Forall_forall in H. by rewrite (H s Hs) in Ha.
    + split; [|done]. intros _.
      destruct (Forall_Exists_dec (fun s => acks event r s = false) (fun s => acks event r s = true)
                  (fun s => match acks event r s as b return {b = false} + {b = true} with
                            | true => right eq_refl | false => left eq_refl end) stores) as [H|H];
        [|done]. apply Hfull in H. lia.
  - destruct (Nat.ltb_spec 0 (length fl)) as [E|E]; cbn [is_ok].
    + split; [done|]. intros H%Hnone. lia.
    + split; [|done]. intros _. apply Hnone. lia.
Qed.

Lemma multi_put_spec_witness :
  let up := {| contents := []; accept := fun (e : nat) _ c => (e :: c, true) |} in
  let down := {| contents := []; accept := fun (e : nat) _ c => (c, false) |} in
  is_ok (new_MultiAuditStore [up; down]) = true /\
  is_ok (snd (multi_put all_or_any [up; down] 7%nat 60)) = true /\
  ~ is_ok (snd (multi_put all [up; down] 7%nat 60)) = true.
Proof.
  intros up down. split; [reflexivity|].
  pose proof (multi_put_spec all_or_any [up; down] 7%nat 60 eq_refl) as (_ & _ & _ & H1).
  pose proof (multi_put_spec all [up; down] 7%nat 60 eq_refl) as (_ & _ & _ & H2).
  split; [apply H1; left; reflexivity|]. rewrite H2. intros H.
  inversion H as [|? ? _ H']. inversion H' as [|? ? Hd]. discriminate Hd.
Defined.
