(* ===== verification/AuditMetadata.v ===== *)
(** The audit writer: [packages/foundation/src/audit/pii-filter.ts] and
    [audit-log.ts].

    Metadata are JSON objects ([Json]); the key [__proto__], which assignment
    would treat as the prototype, is not modelled. The Zod schema of [EmitInput] is third-party machinery over the declared shape: [safeParse]
    is a parameter, and what follows it starts from its output. *)

From stdpp Require Import pretty.
From S2P Require Import Prelude JsString Json JsDate AuditCore.
From Stdlib Require Import Ascii Sorting.Permutation Sorting.Sorted.

#[local] Open Scope string_scope.
#[local] Open Scope Z_scope.

(** ** PiiFilter *)

Definition DEFAULT_PII_KEYS : list string :=
  ["password"; "pwd"; "passwd"; "token"; "access_token"; "refresh_token"; "id_token"; "secret";
   "api_key"; "apikey"; "authorization"; "cookie"; "session"; "session_id"; "set_cookie";
   "email_raw"; "ssn"; "credit_card"; "card_number"].

Definition REDACTED_SENTINEL : string := "[REDACTED]".

Inductive PiiFilterStrategy := redact | drop_key.

Record PiiFilter := { denylist : list string; strategy : PiiFilterStrategy }.

Definition new_PiiFilter (keys additionalKeys : option (list string))
    (strategy : option PiiFilterStrategy) : PiiFilter :=
  let base := match keys with Some ks => ks | None => DEFAULT_PII_KEYS end in
  let extra := match additionalKeys with Some ks => ks | None => [] end in
  {| denylist := map toLowerCase (base ++ extra)%list;
     strategy := match strategy with Some s => s | None => redact end |}.

Definition denied (f : PiiFilter) (key : string) : bool :=
  existsb (String.eqb (toLowerCase key)) (denylist f).

(** The body of the loop of [scrubObject], over [scrubValue]. *)
Definition scrub_entries (f : PiiFilter) (sv : JsonValue -> JsonValue) : JsonObject -> JsonObject :=
  fix go (l : JsonObject) : JsonObject :=
    match l with
    | [] => []
    | (key, value) :: rest =>
        if denied f key then
          match strategy f with
          | redact => (key, VString REDACTED_SENTINEL) :: go rest
          | drop_key => go rest
          end
        else (key, sv value) :: go rest
    end.

Fixpoint scrubValue (f : PiiFilter) (v : JsonValue) : JsonValue :=
  match v with
  | VArray l => VArray (map (scrubValue f) l)
  | VObject l => VObject (scrub_entries f (scrubValue f) l)
  | _ => v
  end.

Definition scrubObject (f : PiiFilter) (o : JsonObject) : JsonObject :=
  scrub_entries f (scrubValue f) o.

Definition apply (f : PiiFilter) (metadata : JsonObject) : JsonObject := scrubObject f metadata.

(** ** enforceMetadataSize *)

Definition DEFAULT_METADATA_MAX_BYTES : Z := 32768.

Inductive OversizePolicy := reject | truncate.

Definition object_size (o : JsonObject) : Z := byteLength (stringify (VObject o)).

Definition entry_size (e : string * JsonValue) : Z := object_size [e].

(** [entries.sort((a, b) => b.size - a.size)], a stable sort. *)
Fixpoint insert_entry (e : string * JsonValue) (l : JsonObject) : JsonObject :=
  match l with
  | [] => [e]
  | x :: r => if entry_size x <=? entry_size e then e :: l else x :: insert_entry e r
  end.

Definition sort_entries (l : JsonObject) : JsonObject := foldr insert_entry [] l.

Definition rebuild (entries : JsonObject) (dropped : list string) : JsonObject :=
  List.filter (fun e => negb (existsb (String.eqb (fst e)) dropped)) entries.

Fixpoint drop_loop (max : Z) (entries todo : JsonObject) (dropped : list string) : list string :=
  match todo with
  | [] => dropped
  | e :: rest =>
      if object_size (rebuild entries dropped) <=? max then dropped
      else drop_loop max entries rest (fst e :: dropped)
  end.

Inductive audit_error (Ev : Type) :=
| AuditEventValidationError (issues : list string)
| UlidError (e : ulid_error)
| InvalidDate
| AuditWriteError (event : Ev).
Arguments AuditEventValidationError {Ev}.
Arguments UlidError {Ev}.
Arguments InvalidDate {Ev}.
Arguments AuditWriteError {Ev}.

(** The issue of the refusal. *)
Definition too_large (max size : Z) : string :=
  "metadata: encoded size " +:+ pretty size +:+ " > " +:+ pretty max.

Definition enforceMetadataSize {Ev} (policy : OversizePolicy) (max : Z) (metadata : JsonObject) :
    result (audit_error Ev) (JsonObject * bool) :=
  let size := object_size metadata in
  if size <=? max then Ok (metadata, false)
  else match policy with
       | reject => Throw (AuditEventValidationError [too_large max size])
       | truncate =>
           let entries := sort_entries metadata in
           Ok (rebuild entries (drop_loop max entries entries []), true)
       end.

(** ** AuditLog *)

Inductive AuditActor :=
| user (userSub : string) (idp : option (string * string))
| service (serviceName : string)
| system (component : string)
| anonymous.

Inductive AuditOutcome := success | failure.

Record EmitInput := {
  in_tenantId : option string;
  in_actor : AuditActor;
  in_action : string;
  in_resource : option (string * string);
  in_outcome : AuditOutcome;
  in_failureReason : option string;
  in_severity : AuditSeverity;
  in_requestId : option string;
  in_traceId : option string;
  in_ipAddress : option string;
  in_userAgent : option string;
  in_metadata : option JsonObject
}.

Record AuditEvent := {
  id : string;
  timestamp : string;
  tenantId : option string;
  actor : AuditActor;
  action : string;
  resource : option (string * string);
  outcome : AuditOutcome;
  failureReason : option string;
  severity : AuditSeverity;
  requestId : option string;
  traceId : option string;
  ipAddress : option string;
  userAgent : option string;
  metadata : option JsonObject
}.

Record AuditLogOptions := {
  piiFilter : PiiFilter;
  metadataMaxBytes : Z;
  oversizePolicy : OversizePolicy;
  retentionDays : Override
}.

Definition new_AuditLog (f : option PiiFilter) (max : option Z) (policy : option OversizePolicy)
    (override : option Override) : AuditLogOptions :=
  {| piiFilter := match f with Some f => f | None => new_PiiFilter None None None end;
     metadataMaxBytes := match max with Some m => m | None => DEFAULT_METADATA_MAX_BYTES end;
     oversizePolicy := match policy with Some p => p | None => reject end;
     retentionDays := match override with Some o => o | None => fun _ => None end |}.

(** [narrowActor] drops an [idp] that is present and [undefined]: with [idp]
    an option, the two forms are the same value. *)
Definition narrowActor (a : AuditActor) : AuditActor :=
  match a with
  | user sub None => user sub None
  | user sub (Some (name, ty)) => user sub (Some (name, ty))
  | a => a
  end.

Definition audit_result := result (audit_error AuditEvent).

(** [RawInput] is what the caller passed; [safeParse] the Zod schema. *)
Section audit_log.
Context {RawInput : Type} (safeParse : RawInput -> result (list string) EmitInput).
Context (opts : AuditLogOptions).

Definition scrub_metadata (m : option JsonObject) : audit_result (option (JsonObject * bool)) :=
  match m with
  | None => Ok None
  | Some m => result_map Some (enforceMetadataSize (oversizePolicy opts) (metadataMaxBytes opts)
                                 (apply (piiFilter opts) m))
  end.

Definition final_metadata (m : option (JsonObject * bool)) : option JsonObject :=
  match m with
  | None => None
  | Some (m, true) => Some (set_key "metadata_truncated" (VBool true) m)
  | Some (m, false) => Some m
  end.

(** [nowMs] is the clock reading, [bytes] the random bytes of the ulid. *)
Definition buildEvent (input : RawInput) (nowMs : Z) (bytes : list Z) : audit_result AuditEvent :=
  match safeParse input with
  | Throw issues => Throw (AuditEventValidationError issues)
  | Ok validated =>
      (let* m := scrub_metadata (in_metadata validated) in
       let* ident := match ulid nowMs bytes with Ok i => Ok i | Throw e => Throw (UlidError e) end in
       let* ts := match toISOString nowMs with Some t => Ok t | None => Throw InvalidDate end in
       Ok {| id := ident; timestamp := ts;
             tenantId := in_tenantId validated;
             actor := narrowActor (in_actor validated);
             action := in_action validated;
             resource := in_resource validated;
             outcome := in_outcome validated;
             failureReason := in_failureReason validated;
             severity := in_severity validated;
             requestId := in_requestId validated;
             traceId := in_traceId validated;
             ipAddress := in_ipAddress validated;
             userAgent := in_userAgent validated;
             metadata := final_metadata m |})%js
  end.

(** [emitAwait]: the store afterwards, and the settled promise. *)
Definition emitAwait (store : AuditStore AuditEvent) (input : RawInput) (nowMs : Z) (bytes : list Z) :
    AuditStore AuditEvent * audit_result AuditEvent :=
  match buildEvent input nowMs bytes with
  | Throw e => (store, Throw e)
  | Ok event =>
      let '(store', ok) :=
        store_put event (retentionSecondsFor (severity event) (retentionDays opts)) store in
      (store', if ok then Ok event else Throw (AuditWriteError event))
  end.

Inductive log_line :=
| validation_failed (e : audit_error AuditEvent)
| store_write_failed (audit_event_id audit_action : string).

(** [emit]: the store once the write it starts has settled, and the lines
    the logger received. *)
Definition emit (store : AuditStore AuditEvent) (input : RawInput) (nowMs : Z) (bytes : list Z) :
    AuditStore AuditEvent * list log_line :=
  match buildEvent input nowMs bytes with
  | Throw e => (store, [validation_failed e])
  | Ok event =>
      let '(store', ok) :=
        store_put event (retentionSecondsFor (severity event) (retentionDays opts)) store in
      (store', if ok then [] else [store_write_failed (id event) (action event)])
  end.
End audit_log.

(** ** Lemmas: scrubbing *)

(** An occurrence of a key with its value, at any depth. *)
Inductive Occurs (k : string) (x : JsonValue) : JsonValue -> Prop :=
| occurs_here l : (k, x) ∈ l -> Occurs k x (VObject l)
| occurs_object l k' v : (k', v) ∈ l -> Occurs k x v -> Occurs k x (VObject l)
| occurs_array l v : v ∈ l -> Occurs k x v -> Occurs k x (VArray l).

(** What one entry of the input becomes. *)
Definition scrub_entry (f : PiiFilter) (kv : string * JsonValue) : list (string * JsonValue) :=
  let '(k, v) := kv in
  if denied f k then
    match strategy f with redact => [(k, VString REDACTED_SENTINEL)] | drop_key => [] end
  else [(k, scrubValue f v)].

Lemma scrub_entries_concat f l :
  scrub_entries f (scrubValue f) l = List.concat (map (scrub_entry f) l).
Proof.
  induction l as [|[k v] l IH]; simpl; [done|]. rewrite IH.
  destruct (denied f k); [|done]. by destruct (strategy f).
Qed.

Lemma elem_of_scrub f l kv :
  kv ∈ scrub_entries f (scrubValue f) l <-> exists e, e ∈ l /\ kv ∈ scrub_entry f e.
Proof.
  rewrite scrub_entries_concat, !list_elem_of_In, in_concat. setoid_rewrite in_map_iff.
  setoid_rewrite list_elem_of_In. naive_solver.
Qed.

Lemma scrub_entry_inv f k x k0 v0 :
  (k, x) ∈ scrub_entry f (k0, v0) ->
  k = k0 /\ (denied f k0 = true /\ strategy f = redact /\ x = VString REDACTED_SENTINEL \/
             denied f k0 = false /\ x = scrubValue f v0).
Proof.
  unfold scrub_entry. destruct (denied f k0); [destruct (strategy f)|];
    rewrite ?list_elem_of_singleton, ?elem_of_nil; naive_solver.
Qed.

(** A denied key that survives carries the sentinel. *)
Lemma scrub_occurs f v k x :
  Occurs k x (scrubValue f v) -> denied f k = true ->
  strategy f = redact /\ x = VString REDACTED_SENTINEL.
Proof.
  intros Ho Hd. revert Ho. induction v as [| | | |l IH|l IH] using JsonValue_nested_ind; intros Ho;
    try by inversion Ho.
  - inversion Ho as [| |l' v Hv Hx]; subst. apply list_elem_of_In, in_map_iff in Hv as (w & <- & Hw).
    rewrite Forall_forall in IH. apply (IH w); [by apply list_elem_of_In|done].
  - cbn [scrubValue] in Ho. rewrite Forall_forall in IH.
    inversion Ho as [l' Hin|l' k' v Hin Hx|]; subst; apply elem_of_scrub in Hin as ([k0 v0] & He & Hin);
      apply scrub_entry_inv in Hin as [-> [(Hd0 & Hs & ->)|[Hd0 ->]]]; [done|congruence|by inversion Hx|].
    by apply (IH (k0, v0) He).
Qed.

(** Access by a path of keys and indices. *)
Inductive step := Key (k : string) | Idx (i : nat).

Fixpoint get_path (p : list step) (v : JsonValue) : option JsonValue :=
  match p with
  | [] => Some v
  | Key k :: r => match v with VObject l => w ← find_key k l; get_path r w | _ => None end
  | Idx i :: r => match v with VArray l => w ← l !! i; get_path r w | _ => None end
  end.

Definition path_ok (f : PiiFilter) (p : list step) : bool :=
  forallb (fun s => match s with Key k => negb (denied f k) | Idx _ => true end) p.

Lemma find_key_scrub f k l :
  denied f k = false ->
  find_key k (scrub_entries f (scrubValue f) l) = scrubValue f <$> find_key k l.
Proof.
  intros Hk. induction l as [|[k' v] l IH]; [done|]. cbn [scrub_entries find_key].
  destruct (String.eqb_spec k' k) as [->|Hne].
  - rewrite Hk. cbn [find_key]. by rewrite String.eqb_refl.
  - destruct (denied f k'); [destruct (strategy f); [|done]|]; cbn [find_key];
      by destruct (String.eqb_spec k' k).
Qed.

Lemma get_path_scrub f p v :
  path_ok f p = true -> get_path p (scrubValue f v) = scrubValue f <$> get_path p v.
Proof.
  revert v. induction p as [|[k|i] p IH]; intros v Hp; [done| |]; cbn [path_ok forallb] in Hp;
    apply andb_true_iff in Hp as [Hk Hp]; cbn [get_path]; destruct v as [| | | |l|l]; try done;
    cbn [scrubValue].
  - apply negb_true_iff in Hk. rewrite find_key_scrub by done.
    destruct (find_key k l); simpl; [by apply IH|done].
  - rewrite list_lookup_fmap. destruct (l !! i); simpl; [by apply IH|done].
Qed.

Lemma scrub_clean f v :
  (forall k x, Occurs k x v -> denied f k = false) -> scrubValue f v = v.
Proof.
  induction v as [| | | |l IH|l IH] using JsonValue_nested_ind; intros Hc; try done; cbn [scrubValue]; f_equal.
  - rewrite Forall_forall in IH. rewrite <- (map_id l) at 2. apply map_ext_in. intros w Hw.
    apply list_elem_of_In in Hw. apply IH; [done|]. intros k x Ho. eapply Hc, occurs_array; eauto.
  - rewrite scrub_entries_concat. induction l as [|[k v] l IHl]; [done|].
    inversion IH as [|? ? Hv Hl]; subst. cbn [map List.concat scrub_entry].
    rewrite (Hc k v) by (apply occurs_here; left). cbn [snd] in Hv. rewrite Hv.
    + simpl. f_equal. apply IHl; [done|]. intros k' x Ho. apply (Hc k' x).
      inversion Ho; subst; [apply occurs_here; by right|]. eapply occurs_object; [right|]; eauto.
    + intros k' x Ho. eapply Hc, occurs_object; [left|]; eauto.
Qed.

Lemma scrub_idempotent f v : scrubValue f (scrubValue f v) = scrubValue f v.
Proof.
  induction v as [| | | |l IH|l IH] using JsonValue_nested_ind; try done; cbn [scrubValue]; f_equal.
  - rewrite map_map. apply map_ext_in. intros w Hw%list_elem_of_In. rewrite Forall_forall in IH. by apply IH.
  - induction l as [|[k v] l IHl]; [done|]. inversion IH as [|? ? Hv Hl]; subst.
    cbn [scrub_entries]. destruct (denied f k) eqn:Hd.
    + destruct (strategy f) eqn:Hs; [|by apply IHl]. cbn [scrub_entries]. rewrite Hd, Hs. f_equal. by apply IHl.
    + cbn [scrub_entries]. rewrite Hd. simpl in Hv. rewrite Hv. f_equal. by apply IHl.
Qed.

(** @@ ([PiiFilter.apply]): a key of the denylist (compared in lower case)
    survives at no depth, except, under the [redact] strategy, with the
    sentinel as its value; a path without such keys reads in the result what
    it read in the input, scrubbed; metadata without such keys is returned
    unchanged; filtering twice changes nothing more. *)
Theorem apply_scrubs (f : PiiFilter) (m : JsonObject) :
  (forall k x, Occurs k x (VObject (apply f m)) -> denied f k = true ->
     strategy f = redact /\ x = VString REDACTED_SENTINEL) /\
  (forall p, path_ok f p = true ->
     get_path p (VObject (apply f m)) = scrubValue f <$> get_path p (VObject m)) /\
  ((forall k x, Occurs k x (VObject m) -> denied f k = false) -> apply f m = m) /\
  apply f (apply f m) = apply f m.
Proof.
  split; [|split; [|split]].
  - intros k x Ho Hd. by apply (scrub_occurs f (VObject m) k x).
  - intros p Hp. apply (get_path_scrub f p (VObject m) Hp).
  - intros Hc. pose proof (scrub_clean f (VObject m) Hc) as H. by injection H.
  - pose proof (scrub_idempotent f (VObject m)) as H. by injection H.
Qed.

(** ** Lemmas: sizes *)

Fixpoint sum_sizes (l : list string) : Z :=
  match l with [] => 0 | x :: r => byteLength x + sum_sizes r end.

Lemma byteLength_join l :
  byteLength (join "," l) = sum_sizes l + Z.max 0 (Z.of_nat (length l) - 1).
Proof.
  induction l as [|x [|y r] IH]; [done|simpl; lia|].
  transitivity (byteLength x + (1 + byteLength (join "," (y :: r)))).
  { change (join "," (x :: y :: r)) with (x +:+ "," +:+ join "," (y :: r)). by rewrite !byteLength_app. }
  rewrite IH. cbn [length sum_sizes]. lia.
Qed.

Definition member (kv : string * JsonValue) : string := quote (fst kv) +:+ ":" +:+ stringify (snd kv).

Lemma object_size_eq l :
  object_size l = 2 + sum_sizes (map member l) + Z.max 0 (Z.of_nat (length l) - 1).
Proof.
  unfold object_size. cbn [stringify]. fold member. rewrite !byteLength_app.
  change (byteLength "{") with 1. change (byteLength "}") with 1.
  change (map (fun kv => quote (fst kv) +:+ ":" +:+ stringify (snd kv)) l) with (map member l).
  rewrite byteLength_join, length_map. lia.
Qed.

Lemma sum_sizes_perm l l' : Permutation l l' -> sum_sizes l = sum_sizes l'.
Proof. induction 1; simpl; lia. Qed.

Lemma object_size_perm l l' : Permutation l l' -> object_size l = object_size l'.
Proof.
  intros H. rewrite !object_size_eq, (sum_sizes_perm _ _ (Permutation_map member H)).
  by rewrite (Permutation_length H).
Qed.

(** ** Lemmas: the sort *)

Definition larger (a b : string * JsonValue) : Prop := entry_size b <= entry_size a.

Lemma insert_entry_perm e l : Permutation (insert_entry e l) (e :: l).
Proof.
  induction l as [|x l IH]; simpl; [done|]. destruct (_ <=? _); [done|].
  rewrite IH. apply perm_swap.
Qed.

Lemma sort_entries_perm l : Permutation (sort_entries l) l.
Proof. induction l as [|x l IH]; simpl; [done|]. by rewrite insert_entry_perm, IH. Qed.

Lemma insert_entry_sorted e l : StronglySorted larger l -> StronglySorted larger (insert_entry e l).
Proof.
  induction 1 as [|x l Hs IH Hx]; simpl; [by repeat constructor|].
  destruct (Z.leb_spec (entry_size x) (entry_size e)).
  - constructor; [by constructor|]. constructor; [done|].
    eapply List.Forall_impl; [|exact Hx]. unfold larger. intros; lia.
  - constructor; [done|]. rewrite insert_entry_perm. constructor; [unfold larger; lia|done].
Qed.

Lemma sort_entries_sorted l : StronglySorted larger (sort_entries l).
Proof. induction l; simpl; [constructor|]. by apply insert_entry_sorted. Qed.

(** ** Lemmas: the dropping loop *)

Definition keys_of (l : JsonObject) : list string := map fst l.

Lemma existsb_eqb_elem k l : existsb (String.eqb k) l = true <-> k ∈ l.
Proof.
  rewrite existsb_exists_In. setoid_rewrite String.eqb_eq. naive_solver.
Qed.

(** Once the keys of a prefix are dropped, the rest is rebuilt. *)
Lemma rebuild_drop (pre todo : JsonObject) dropped :
  NoDup (keys_of (pre ++ todo)%list) -> (forall k, k ∈ dropped <-> k ∈ keys_of pre) ->
  rebuild (pre ++ todo)%list dropped = todo.
Proof.
  intros Hnd Hd. unfold rebuild. rewrite List.filter_app. unfold keys_of in *.
  rewrite map_app in Hnd. apply NoDup_app in Hnd as (_ & Hdis & _).
  transitivity (([] ++ todo)%list); [|done]. f_equal.
  - rewrite <- (List.filter_false pre). apply List.filter_ext_in. intros e He.
    apply negb_false_iff, existsb_eqb_elem, Hd. apply list_elem_of_fmap. exists e. by rewrite list_elem_of_In.
  - transitivity (List.filter (fun _ => true) todo); [|apply List.filter_true].
    apply List.filter_ext_in. intros e He. apply negb_true_iff, not_true_iff_false.
    rewrite existsb_eqb_elem, Hd. intros Hin. apply (Hdis _ Hin), list_elem_of_fmap. exists e.
    by rewrite list_elem_of_In.
Qed.

Lemma drop_loop_spec max pre todo dropped :
  NoDup (keys_of (pre ++ todo)%list) -> (forall k, k ∈ dropped <-> k ∈ keys_of pre) ->
  exists j, (j <= length todo)%nat /\
    rebuild (pre ++ todo)%list (drop_loop max (pre ++ todo)%list todo dropped) = drop j todo /\
    (forall i, (i < j)%nat -> max < object_size (drop i todo)) /\
    (object_size (drop j todo) <= max \/ drop j todo = []).
Proof.
  revert pre dropped. induction todo as [|e todo IH]; intros pre dropped Hnd Hd; cbn [drop_loop].
  - exists 0%nat. rewrite rebuild_drop by done. split; [simpl; lia|]. split; [done|]. split; [lia|]. by right.
  - rewrite (rebuild_drop pre (e :: todo) dropped) by done. destruct (Z.leb_spec (object_size (e :: todo)) max).
    + exists 0%nat. rewrite rebuild_drop by done. split; [lia|]. split; [done|]. split; [lia|]. by left.
    + assert ((pre ++ e :: todo)%list = ((pre ++ [e]) ++ todo)%list) as Ha by by rewrite <- app_assoc.
      rewrite Ha in *. destruct (IH (pre ++ [e])%list (fst e :: dropped)) as (j & Hj & Hr & Hmin & Hend).
      * done.
      * intros k. unfold keys_of. rewrite map_app, elem_of_app, elem_of_cons, Hd. simpl.
        rewrite list_elem_of_singleton. unfold keys_of. naive_solver.
      * exists (S j). split; [simpl; lia|]. split; [done|]. split; [|done].
        intros [|i] Hi; [done|]. apply Hmin. lia.
Qed.

(** @@ ([AuditLog.enforceMetadataSize]): metadata within the cap is returned
    unchanged, and only it is; above the cap, [reject] throws, and [truncate]
    returns what is left of the entries, sorted by decreasing size, after
    dropping the shortest prefix that makes the encoding fit: at least one
    entry is dropped (of a non-empty object), every shorter prefix would leave it too large, and the
    result fits unless nothing is left. *)
Theorem enforceMetadataSize_spec {Ev} policy max (m : JsonObject) (Hnd : NoDup (keys_of m)) :
  match enforceMetadataSize (Ev := Ev) policy max m with
  | Throw e => policy = reject /\ max < object_size m /\ e = AuditEventValidationError [too_large max (object_size m)]
  | Ok (m', false) => m' = m /\ object_size m <= max
  | Ok (m', true) =>
      policy = truncate /\ max < object_size m /\
      exists sorted k, Permutation sorted m /\ StronglySorted larger sorted /\
        m' = drop k sorted /\ (k <= length m)%nat /\ (0 < k \/ m = [])%nat /\
        (forall i, (i < k)%nat -> max < object_size (drop i sorted)) /\
        (object_size m' <= max \/ m' = [])
  end.
Proof.
  unfold enforceMetadataSize. destruct (Z.leb_spec (object_size m) max); [done|].
  destruct policy; [done|]. split; [done|]. split; [done|].
  pose proof (sort_entries_perm m) as Hp. exists (sort_entries m).
  destruct (drop_loop_spec max [] (sort_entries m) []) as (j & Hj & Hr & Hmin & Hend).
  { simpl. unfold keys_of. rewrite (Permutation_map fst Hp). exact Hnd. }
  { intros k. done. }
  simpl in Hr. rewrite Hr. exists j. split; [done|]. split; [apply sort_entries_sorted|].
  split; [done|]. rewrite <- (Permutation_length Hp). split; [done|]. split; [|done].
  destruct j; [right|left; lia]. rewrite drop_0, (object_size_perm _ _ Hp) in Hend.
  destruct Hend as [|Hnil]; [lia|]. rewrite Hnil in Hp. by apply Permutation_nil in Hp.
Qed.

Lemma enforceMetadataSize_spec_witness :
  let m := [("a", VString "xxxxxxxx"); ("b", VNumber "1"); ("c", VBool true)] in
  NoDup (keys_of m) /\
  enforceMetadataSize (Ev := AuditEvent) truncate 20 m = Ok ([("c", VBool true); ("b", VNumber "1")], true) /\
  exists sorted k, [("c", VBool true); ("b", VNumber "1")] = drop k sorted /\ Permutation sorted m.
Proof.
  intros m. assert (NoDup (keys_of m)) as Hnd by (apply (bool_decide_unpack _); vm_compute; exact I).
  split; [exact Hnd|]. split; [reflexivity|].
  pose proof (enforceMetadataSize_spec (Ev := AuditEvent) truncate 20 m Hnd) as H.
  destruct H as (_ & _ & sorted & k & Hp & _ & Hd & _). exists sorted, k. split; [exact Hd|exact Hp].
Defined.

(** The flag is added after the cap was enforced: what is persisted can be
    larger than the cap, and it overwrites a caller's key of that name. *)
Lemma truncated_flag_overflows :
  exists (m : JsonObject) m',
    enforceMetadataSize (Ev := AuditEvent) truncate 20 m = Ok (m', true) /\
    final_metadata (Some (m', true)) = Some (set_key "metadata_truncated" (VBool true) m') /\
    object_size m' <= 20 /\ 20 < object_size (set_key "metadata_truncated" (VBool true) m').
Proof.
  exists [("a", VString "xxxxxxxx"); ("b", VNumber "1"); ("c", VBool true)], [("c", VBool true); ("b", VNumber "1")].
  vm_compute. repeat split; congruence.
Qed.

(** ** Lemmas: the persisted event *)

Lemma Occurs_subset k x l l' :
  (forall e, e ∈ l -> e ∈ l') -> Occurs k x (VObject l) -> Occurs k x (VObject l').
Proof. intros Hs Ho. inversion Ho; subst; [by apply occurs_here, Hs|]. eapply occurs_object; [by apply Hs|done]. Qed.

Lemma enforce_subset {Ev} policy max m m' b e :
  enforceMetadataSize (Ev := Ev) policy max m = Ok (m', b) -> e ∈ m' -> e ∈ m.
Proof.
  unfold enforceMetadataSize. destruct (_ <=? _); [by intros [= <- <-]|].
  destruct policy; [done|]. intros [= <- <-]. unfold rebuild.
  intros [H _]%list_elem_of_In%filter_In. by rewrite <- list_elem_of_In, (sort_entries_perm m) in H.
Qed.

Lemma elem_of_set_key k v o e : e ∈ set_key k v o -> e = (k, v) \/ e ∈ o.
Proof.
  induction o as [|[k' v'] o IH]; cbn [set_key]; [rewrite list_elem_of_singleton; by left|].
  destruct (String.eqb k' k); rewrite !elem_of_cons; [naive_solver|]. intros [->|H]; [tauto|].
  destruct (IH H); tauto.
Qed.

Lemma final_metadata_occurs k x m b md :
  final_metadata (Some (m, b)) = Some md -> Occurs k x (VObject md) ->
  Occurs k x (VObject m) \/ k = "metadata_truncated" /\ x = VBool true.
Proof.
  destruct b; simpl; intros [= <-] Ho; [|by left].
  inversion Ho as [l Hin|l k' v Hin Hx|]; subst; apply elem_of_set_key in Hin as [Heq|Hin].
  - injection Heq as -> ->. by right.
  - left. by apply occurs_here.
  - injection Heq as -> ->. inversion Hx.
  - left. by eapply occurs_object.
Qed.

Section emission.
Context {RawInput : Type} (safeParse : RawInput -> result (list string) EmitInput).
Context (opts : AuditLogOptions).

Lemma scrub_metadata_clean m md k x r :
  scrub_metadata opts m = Ok r -> final_metadata r = Some md ->
  Occurs k x (VObject md) -> denied (piiFilter opts) k = true ->
  strategy (piiFilter opts) = redact /\ x = VString REDACTED_SENTINEL \/
  k = "metadata_truncated" /\ x = VBool true.
Proof.
  unfold scrub_metadata. destruct m as [m|]; [|by intros [= <-]].
  destruct (enforceMetadataSize _ _ _) as [[m' b]|] eqn:E; [|done]. intros [= <-] Hf Ho Hd.
  destruct (final_metadata_occurs _ _ _ _ _ Hf Ho) as [Ho'|]; [left|by right].
  eapply (scrub_occurs (piiFilter opts) (VObject m)); [|done].
  eapply Occurs_subset; [|exact Ho']. intros e He. by eapply (enforce_subset _ _ _ _ _ _ E).
Qed.

(** The encoded size of metadata once filtered, in bytes. *)
Definition filtered_size (m : JsonObject) : Z := byteLength (stringify (VObject (apply (piiFilter opts) m))).

(** Metadata that the options refuse. *)
Definition oversize (m : option JsonObject) : Prop :=
  exists m', m = Some m' /\ metadataMaxBytes opts < filtered_size m' /\ oversizePolicy opts = reject.

(** What is persisted of the caller's metadata: nothing if there were none, the
    filtered metadata if they fit, and otherwise a part of them that fits (or
    nothing), with the flag. *)
Definition persisted (m md : option JsonObject) : Prop :=
  match m with
  | None => md = None
  | Some m =>
      filtered_size m <= metadataMaxBytes opts /\ md = Some (apply (piiFilter opts) m) \/
      metadataMaxBytes opts < filtered_size m /\ oversizePolicy opts = truncate /\
      exists kept, md = Some (set_key "metadata_truncated" (VBool true) kept) /\
        (forall e, e ∈ kept -> e ∈ apply (piiFilter opts) m) /\
        (byteLength (stringify (VObject kept)) <= metadataMaxBytes opts \/ kept = [])
  end.

(** No denied key keeps its value, at any depth. *)
Definition clean (md : option JsonObject) : Prop :=
  forall o k x, md = Some o -> Occurs k x (VObject o) -> denied (piiFilter opts) k = true ->
    strategy (piiFilter opts) = redact /\ x = VString REDACTED_SENTINEL \/
    k = "metadata_truncated" /\ x = VBool true.

(** The event of an input. *)
Definition describes (v : EmitInput) (ident time : string) (ev : AuditEvent) : Prop :=
  id ev = ident /\ timestamp ev = time /\
  tenantId ev = in_tenantId v /\ actor ev = in_actor v /\ action ev = in_action v /\ resource ev = in_resource v /\
  outcome ev = in_outcome v /\ failureReason ev = in_failureReason v /\ severity ev = in_severity v /\
  requestId ev = in_requestId v /\ traceId ev = in_traceId v /\ ipAddress ev = in_ipAddress v /\
  userAgent ev = in_userAgent v /\ persisted (in_metadata v) (metadata ev) /\ clean (metadata ev).

Lemma drop_loop_fits max entries todo : forall dropped,
  (forall k, k ∈ keys_of entries -> k ∈ dropped \/ k ∈ keys_of todo) ->
  let kept := rebuild entries (drop_loop max entries todo dropped) in object_size kept <= max \/ kept = [].
Proof.
  induction todo as [|e todo IH]; intros dropped Hk; cbn [drop_loop].
  - right. unfold rebuild. rewrite <- (List.filter_false entries). apply List.filter_ext_in. intros e He.
    apply negb_false_iff, existsb_eqb_elem. destruct (Hk (fst e)) as [|H]; [|done|by apply elem_of_nil in H].
    apply list_elem_of_fmap. exists e. by rewrite list_elem_of_In.
  - destruct (Z.leb_spec (object_size (rebuild entries dropped)) max); [by left|]. apply IH.
    intros k H1. destruct (Hk k H1) as [|H2]; [left; by right|]. apply elem_of_cons in H2 as [->|]; [left; by left|by right].
Qed.

Lemma scrub_metadata_spec m :
  match scrub_metadata opts m with
  | Ok r => ~ oversize m /\ persisted m (final_metadata r)
  | Throw e => oversize m /\ exists issue, e = AuditEventValidationError [issue]
  end.
Proof.
  unfold scrub_metadata, oversize, persisted. destruct m as [m|]; [|split; [by intros (? & ? & _)|done]].
  unfold enforceMetadataSize. change (object_size (apply (piiFilter opts) m)) with (filtered_size m).
  destruct (Z.leb_spec (filtered_size m) (metadataMaxBytes opts)) as [Hle|Hlt]; cbn [result_map final_metadata].
  - split; [|by left]. intros (m' & [= <-] & ? & _). lia.
  - destruct (oversizePolicy opts) eqn:Hp; cbn [result_map final_metadata]; [split; [by exists m|by eexists]|].
    split; [by intros (? & _ & _ & ?)|]. right. split; [done|]. split; [done|]. eexists. split; [reflexivity|]. split.
    + intros e. unfold rebuild. intros [H _]%list_elem_of_In%filter_In. rewrite <- list_elem_of_In in H.
      by rewrite (sort_entries_perm (apply (piiFilter opts) m)) in H.
    + apply drop_loop_fits. intros k Hk. by right.
Qed.

Lemma scrub_metadata_is_clean m r : scrub_metadata opts m = Ok r -> clean (final_metadata r).
Proof. intros H o k x Ho Hx Hd. by eapply scrub_metadata_clean. Qed.

Lemma buildEvent_describes input nowMs bytes v ident time : safeParse input = Ok v -> ~ oversize (in_metadata v) ->
  ulid nowMs bytes = Ok ident -> toISOString nowMs = Some time ->
  exists ev, buildEvent safeParse opts input nowMs bytes = Ok ev /\ describes v ident time ev.
Proof.
  intros Hv Ho Hi Ht. unfold buildEvent. rewrite Hv. pose proof (scrub_metadata_spec (in_metadata v)) as Hs.
  destruct (scrub_metadata opts (in_metadata v)) as [r|e] eqn:E; [|by destruct Hs]. cbn. rewrite Hi. cbn. rewrite Ht. cbn.
  eexists. split; [reflexivity|]. repeat (split; [done|]). split; [by destruct (in_actor v) as [? [[]|]| | |]|].
  repeat (split; [done|]). split; [apply Hs|]. by apply (scrub_metadata_is_clean (in_metadata v)).
Qed.

Lemma buildEvent_oversize input nowMs bytes v : safeParse input = Ok v -> oversize (in_metadata v) ->
  exists issue, buildEvent safeParse opts input nowMs bytes = Throw (AuditEventValidationError [issue]).
Proof.
  intros Hv Ho. unfold buildEvent. rewrite Hv. pose proof (scrub_metadata_spec (in_metadata v)) as Hs.
  destruct (scrub_metadata opts (in_metadata v)) as [r|e]; [by destruct Hs|]. destruct Hs as (_ & issue & ->). by exists issue.
Qed.

Lemma buildEvent_bad_clock input nowMs bytes v : safeParse input = Ok v ->
  (forall ident time, ulid nowMs bytes = Ok ident -> toISOString nowMs <> Some time) ->
  exists e, buildEvent safeParse opts input nowMs bytes = Throw e.
Proof.
  intros Hv Hc. unfold buildEvent. rewrite Hv. destruct (scrub_metadata opts (in_metadata v)); [|by eexists]. cbn.
  destruct (ulid nowMs bytes) as [i|]; [|by eexists]. cbn. destruct (toISOString nowMs) as [ts|]; [|by eexists].
  destruct (Hc i ts); done.
Qed.

Lemma emission_of_throw store input nowMs bytes e : buildEvent safeParse opts input nowMs bytes = Throw e ->
  emitAwait safeParse opts store input nowMs bytes = (store, Throw e) /\
  emit safeParse opts store input nowMs bytes = (store, [validation_failed e]).
Proof. unfold emitAwait, emit. by intros ->. Qed.

End emission.

