(* ===== verification/TextCodec.v ===== *)
(** UTF-16 strings and the platform's UTF-8 codec, [TextEncoder] and the
    default [TextDecoder], as the encoding standard defines them: a string is a
    list of 16-bit units, a byte an integer below 256. *)

From S2P Require Import Prelude.

#[local] Open Scope Z_scope.

Notation text := (list Z) (only parsing).

Definition is_unit (u : Z) : bool := (0 <=? u) && (u <? 0x10000).
Definition is_lead (u : Z) : bool := (0xD800 <=? u) && (u <=? 0xDBFF).
Definition is_trail (u : Z) : bool := (0xDC00 <=? u) && (u <=? 0xDFFF).

Definition REPLACEMENT : Z := 0xFFFD.
Definition BYTE_ORDER_MARK : Z := 0xFEFF.

(** ** TextEncoder *)

(** The code points of a string; a surrogate without its pair becomes U+FFFD. *)
Fixpoint code_points (s : text) : list Z :=
  match s with
  | [] => []
  | u :: r =>
      if is_lead u then
        match r with
        | v :: r' => if is_trail v then 0x10000 + (u - 0xD800) * 1024 + (v - 0xDC00) :: code_points r'
                     else REPLACEMENT :: code_points r
        | [] => [REPLACEMENT]
        end
      else if is_trail u then REPLACEMENT :: code_points r
      else u :: code_points r
  end.

Definition utf8_bytes (c : Z) : list Z :=
  if c <? 0x80 then [c]
  else if c <? 0x800 then [0xC0 + c / 64; 0x80 + c mod 64]
  else if c <? 0x10000 then [0xE0 + c / 4096; 0x80 + c / 64 mod 64; 0x80 + c mod 64]
  else [0xF0 + c / 262144; 0x80 + c / 4096 mod 64; 0x80 + c / 64 mod 64; 0x80 + c mod 64].

Definition TextEncoder_encode (s : text) : list Z := List.concat (map utf8_bytes (code_points s)).

(** ** TextDecoder *)

(** A sequence under way: the bytes still needed, the bounds of the next one,
    the code point so far. *)
Record partial := { needed : Z; lower : Z; upper : Z; point : Z }.

(** A byte outside a sequence: what it emits, and the sequence it starts. *)
Definition first_byte (b : Z) : list Z * option partial :=
  if b <=? 0x7F then ([b], None)
  else if (0xC2 <=? b) && (b <=? 0xDF) then ([], Some {| needed := 1; lower := 0x80; upper := 0xBF; point := b - 0xC0 |})
  else if (0xE0 <=? b) && (b <=? 0xEF) then
    ([], Some {| needed := 2; lower := if b =? 0xE0 then 0xA0 else 0x80;
                 upper := if b =? 0xED then 0x9F else 0xBF; point := b - 0xE0 |})
  else if (0xF0 <=? b) && (b <=? 0xF4) then
    ([], Some {| needed := 3; lower := if b =? 0xF0 then 0x90 else 0x80;
                 upper := if b =? 0xF4 then 0x8F else 0xBF; point := b - 0xF0 |})
  else ([REPLACEMENT], None).

Fixpoint decode_bytes (st : option partial) (bytes : list Z) : list Z :=
  match bytes with
  | [] => match st with None => [] | Some _ => [REPLACEMENT] end
  | b :: r =>
      let fresh := let '(out, st') := first_byte b in (out ++ decode_bytes st' r)%list in
      match st with
      | None => fresh
      | Some p =>
          if (lower p <=? b) && (b <=? upper p) then
            let c := point p * 64 + (b - 0x80) in
            if needed p =? 1 then c :: decode_bytes None r
            else decode_bytes (Some {| needed := needed p - 1; lower := 0x80; upper := 0xBF; point := c |}) r
          else REPLACEMENT :: fresh
      end
  end.

(** A leading byte order mark is not part of the text. *)
Definition drop_mark (l : list Z) : list Z :=
  match l with c :: r => if c =? BYTE_ORDER_MARK then r else l | [] => [] end.

Definition units (c : Z) : text :=
  if c <? 0x10000 then [c] else [0xD800 + (c - 0x10000) / 1024; 0xDC00 + (c - 0x10000) mod 1024].

Definition TextDecoder_decode (bytes : list Z) : text := List.concat (map units (drop_mark (decode_bytes None bytes))).

Example codec_runs :
  TextEncoder_encode [0x41; 0xE9; 0x20AC; 0xD83D; 0xDE00] = [0x41; 0xC3; 0xA9; 0xE2; 0x82; 0xAC; 0xF0; 0x9F; 0x98; 0x80] /\
  TextDecoder_decode [0x41; 0xC3; 0xA9; 0xE2; 0x82; 0xAC; 0xF0; 0x9F; 0x98; 0x80] = [0x41; 0xE9; 0x20AC; 0xD83D; 0xDE00] /\
  TextEncoder_encode [0xD83D; 0x41] = [0xEF; 0xBF; 0xBD; 0x41] /\
  TextDecoder_decode [0xEF; 0xBB; 0xBF; 0x41] = [0x41] /\
  TextDecoder_decode [0xE2; 0x82; 0x41; 0xC0; 0xED; 0xA0; 0x80] = [0xFFFD; 0x41; 0xFFFD; 0xFFFD; 0xFFFD; 0xFFFD].
Proof. vm_compute. repeat split. Qed.

(** ** Specification of a round trip *)

(** [String.prototype.toWellFormed]. *)
Fixpoint toWellFormed (s : text) : text :=
  match s with
  | [] => []
  | u :: r =>
      if is_lead u then
        match r with
        | v :: r' => if is_trail v then u :: v :: toWellFormed r' else REPLACEMENT :: toWellFormed r
        | [] => [REPLACEMENT]
        end
      else if is_trail u then REPLACEMENT :: toWellFormed r
      else u :: toWellFormed r
  end.

(** [String.prototype.isWellFormed]: every surrogate is in its pair. *)
Fixpoint isWellFormed (s : text) : bool :=
  match s with
  | [] => true
  | u :: r =>
      if is_lead u then match r with v :: r' => is_trail v && isWellFormed r' | [] => false end
      else negb (is_trail u) && isWellFormed r
  end.

(** ** Lemmas *)

Lemma shorter_ind (P : text -> Prop) : (forall s, (forall s', (length s' < length s)%nat -> P s') -> P s) -> forall s, P s.
Proof.
  intros H s. assert (forall n s, (length s < n)%nat -> P s) as Hn; [|apply (Hn (S (length s))); lia].
  intros n. induction n as [|n IH]; intros s' Hl; [lia|]. apply H. intros s0 H0. apply IH. lia.
Qed.

(** A code point that is no surrogate. *)
Definition is_scalar (c : Z) : Prop := 0 <= c < 0xD800 \/ 0xE000 <= c < 0x110000.

Lemma code_points_scalar s : Forall (fun u => is_unit u = true) s -> Forall is_scalar (code_points s).
Proof.
  assert (is_scalar REPLACEMENT) as HR by (unfold is_scalar, REPLACEMENT; lia).
  induction s as [s IH] using shorter_ind. intros Hs. destruct s as [|u r]; [constructor|].
  inversion Hs as [|? ? Hu Hr]; subst. cbn [code_points]. destruct (is_lead u) eqn:El.
  - destruct r as [|v r']; [by constructor|]. inversion Hr as [|? ? Hv Hr']; subst. destruct (is_trail v) eqn:Et.
    + constructor; [unfold is_lead, is_trail, is_scalar in *; bool_hyps; lia|]. apply IH; [cbn; lia|done].
    + constructor; [done|]. apply IH; [cbn; lia|done].
  - destruct (is_trail u) eqn:Et; (constructor; [|apply IH; [cbn; lia|done]]); [done|].
    unfold is_lead, is_trail, is_unit, is_scalar in *. bool_hyps. apply andb_false_iff in El, Et. rewrite !Z.leb_gt in El, Et. lia.
Qed.

Lemma first_byte_1 c : c < 0x80 -> first_byte c = ([c], None).
Proof. intros H. unfold first_byte. by destruct (Z.leb_spec c 0x7F); [|lia]. Qed.

Lemma first_byte_2 k : 2 <= k < 32 -> first_byte (0xC0 + k) = ([], Some {| needed := 1; lower := 0x80; upper := 0xBF; point := k |}).
Proof.
  intros H. unfold first_byte. destruct (Z.leb_spec (0xC0 + k) 0x7F); [lia|].
  replace ((0xC2 <=? 0xC0 + k) && (0xC0 + k <=? 0xDF)) with true by lia. by replace (0xC0 + k - 0xC0) with k by lia.
Qed.

Lemma first_byte_3 k : 0 <= k < 16 -> first_byte (0xE0 + k) =
  ([], Some {| needed := 2; lower := if k =? 0 then 0xA0 else 0x80; upper := if k =? 13 then 0x9F else 0xBF; point := k |}).
Proof.
  intros H. unfold first_byte. destruct (Z.leb_spec (0xE0 + k) 0x7F); [lia|].
  replace ((0xC2 <=? 0xE0 + k) && (0xE0 + k <=? 0xDF)) with false by lia.
  replace ((0xE0 <=? 0xE0 + k) && (0xE0 + k <=? 0xEF)) with true by lia.
  replace (0xE0 + k =? 0xE0) with (k =? 0) by lia. replace (0xE0 + k =? 0xED) with (k =? 13) by lia.
  by replace (0xE0 + k - 0xE0) with k by lia.
Qed.

Lemma first_byte_4 k : 0 <= k < 5 -> first_byte (0xF0 + k) =
  ([], Some {| needed := 3; lower := if k =? 0 then 0x90 else 0x80; upper := if k =? 4 then 0x8F else 0xBF; point := k |}).
Proof.
  intros H. unfold first_byte. destruct (Z.leb_spec (0xF0 + k) 0x7F); [lia|].
  replace ((0xC2 <=? 0xF0 + k) && (0xF0 + k <=? 0xDF)) with false by lia.
  replace ((0xE0 <=? 0xF0 + k) && (0xF0 + k <=? 0xEF)) with false by lia.
  replace ((0xF0 <=? 0xF0 + k) && (0xF0 + k <=? 0xF4)) with true by lia.
  replace (0xF0 + k =? 0xF0) with (k =? 0) by lia. replace (0xF0 + k =? 0xF4) with (k =? 4) by lia.
  by replace (0xF0 + k - 0xF0) with k by lia.
Qed.

Lemma decode_more n lo hi c b r : 1 < n -> lo <= b <= hi ->
  decode_bytes (Some {| needed := n; lower := lo; upper := hi; point := c |}) (b :: r) =
  decode_bytes (Some {| needed := n - 1; lower := 0x80; upper := 0xBF; point := c * 64 + (b - 0x80) |}) r.
Proof.
  intros Hn Hb. cbn [decode_bytes lower upper needed point].
  replace ((lo <=? b) && (b <=? hi)) with true by lia. by replace (n =? 1) with false by lia.
Qed.

Lemma decode_last c b r : 0x80 <= b <= 0xBF ->
  decode_bytes (Some {| needed := 1; lower := 0x80; upper := 0xBF; point := c |}) (b :: r) = c * 64 + (b - 0x80) :: decode_bytes None r.
Proof.
  intros Hb. cbn [decode_bytes lower upper needed point]. by replace ((0x80 <=? b) && (b <=? 0xBF)) with true by lia.
Qed.

Lemma decode_first b r out st : first_byte b = (out, st) -> decode_bytes None (b :: r) = (out ++ decode_bytes st r)%list.
Proof. intros H. cbn [decode_bytes]. by rewrite H. Qed.

Lemma decode_utf8_bytes c r : is_scalar c -> decode_bytes None (utf8_bytes c ++ r)%list = c :: decode_bytes None r.
Proof.
  intros Hc. unfold utf8_bytes. unfold is_scalar in Hc.
  pose proof (Z.div_mod c 64 ltac:(lia)) as D1. pose proof (Z.mod_pos_bound c 64 ltac:(lia)) as M1.
  pose proof (Z.div_mod (c / 64) 64 ltac:(lia)) as D2. pose proof (Z.mod_pos_bound (c / 64) 64 ltac:(lia)) as M2.
  pose proof (Z.div_mod (c / 4096) 64 ltac:(lia)) as D3. pose proof (Z.mod_pos_bound (c / 4096) 64 ltac:(lia)) as M3.
  assert (c / 64 / 64 = c / 4096) as E2 by (rewrite Z.div_div by lia; done).
  assert (c / 4096 / 64 = c / 262144) as E3 by (rewrite Z.div_div by lia; done). rewrite E2 in D2. rewrite E3 in D3.
  destruct (Z.ltb_spec c 0x80) as [|H1]; [cbn [app]; by rewrite (decode_first _ _ _ _ (first_byte_1 c ltac:(lia)))|].
  destruct (Z.ltb_spec c 0x800) as [|H2].
  { cbn [app]. rewrite (decode_first _ _ _ _ (first_byte_2 (c / 64) ltac:(lia))). cbn [app].
    rewrite decode_last by lia. f_equal. lia. }
  destruct (Z.ltb_spec c 0x10000) as [|H3]; cbn [app].
  - rewrite (decode_first _ _ _ _ (first_byte_3 (c / 4096) ltac:(lia))). cbn [app].
    rewrite decode_more; [|lia|destruct (Z.eqb_spec (c / 4096) 0), (Z.eqb_spec (c / 4096) 13); lia].
    rewrite decode_last by lia. f_equal. lia.
  - rewrite (decode_first _ _ _ _ (first_byte_4 (c / 262144) ltac:(lia))). cbn [app].
    rewrite decode_more; [|lia|destruct (Z.eqb_spec (c / 262144) 0), (Z.eqb_spec (c / 262144) 4); lia].
    rewrite decode_more by lia. rewrite decode_last by lia. f_equal. lia.
Qed.

Lemma decode_encode_points l : Forall is_scalar l -> decode_bytes None (List.concat (map utf8_bytes l)) = l.
Proof.
  induction l as [|c l IH]; intros Hl; [done|]. inversion Hl; subst. cbn [map List.concat].
  by rewrite decode_utf8_bytes, IH.
Qed.

Lemma units_code_points s : Forall (fun u => is_unit u = true) s -> List.concat (map units (code_points s)) = toWellFormed s.
Proof.
  induction s as [s IH] using shorter_ind. intros Hs. destruct s as [|u r]; [done|].
  inversion Hs as [|? ? Hu Hr]; subst. cbn [code_points toWellFormed]. destruct (is_lead u) eqn:El.
  - destruct r as [|v r']; [done|]. inversion Hr as [|? ? Hv Hr']; subst. destruct (is_trail v) eqn:Et; cbn [map List.concat].
    + rewrite IH by (cbn; (lia || done)). unfold is_lead, is_trail in *. bool_hyps. unfold units.
      destruct (Z.ltb_spec (0x10000 + (u - 0xD800) * 1024 + (v - 0xDC00)) 0x10000); [lia|].
      replace (0x10000 + (u - 0xD800) * 1024 + (v - 0xDC00) - 0x10000) with ((u - 0xD800) * 1024 + (v - 0xDC00)) by lia.
      rewrite Z.div_add_l, Z.div_small, (Z.add_comm (_ * _)), Z.mod_add, Z.mod_small by lia. cbn [app]. f_equal; [lia|]. f_equal. lia.
    + rewrite IH by (cbn; (lia || done)). done.
  - destruct (is_trail u) eqn:Et; cbn [map List.concat]; rewrite IH by (cbn; (lia || done)); [done|].
    unfold units. unfold is_unit in Hu. by destruct (Z.ltb_spec u 0x10000); [|bool_hyps; lia].
Qed.

Lemma units_cons_mark c : is_scalar c -> exists u r, units c = u :: r /\ (u = BYTE_ORDER_MARK <-> c = BYTE_ORDER_MARK) /\ (c = BYTE_ORDER_MARK -> r = []).
Proof.
  intros Hc. unfold units, BYTE_ORDER_MARK. destruct (Z.ltb_spec c 0x10000); [by exists c, []|].
  do 2 eexists. split; [reflexivity|]. unfold is_scalar in Hc. split; [|lia].
  assert (0 <= (c - 0x10000) / 1024 < 1024) by (split; [apply Z.div_pos; lia|apply Z.div_lt_upper_bound; lia]). lia.
Qed.

Lemma drop_mark_units l : Forall is_scalar l -> List.concat (map units (drop_mark l)) = drop_mark (List.concat (map units l)).
Proof.
  intros Hl. destruct l as [|c l]; [done|]. inversion Hl as [|? ? Hc]; subst. cbn [map List.concat drop_mark].
  destruct (units_cons_mark c Hc) as (u & r & Hu & Hm & Hr). rewrite Hu. cbn [app drop_mark].
  destruct (Z.eqb_spec c BYTE_ORDER_MARK) as [He|Hne], (Z.eqb_spec u BYTE_ORDER_MARK); try tauto.
  - by rewrite Hr.
  - cbn [map List.concat]. by rewrite Hu.
Qed.

(** A text encoded and decoded has its lone surrogates replaced and has lost a
    leading byte order mark. *)
Lemma decode_encode_text s : Forall (fun u => is_unit u = true) s ->
  TextDecoder_decode (TextEncoder_encode s) = drop_mark (toWellFormed s).
Proof.
  intros Hs. unfold TextDecoder_decode, TextEncoder_encode. pose proof (code_points_scalar s Hs) as Hc.
  by rewrite decode_encode_points, drop_mark_units, units_code_points.
Qed.

Lemma toWellFormed_id s : isWellFormed s = true -> toWellFormed s = s.
Proof.
  induction s as [s IH] using shorter_ind. intros Hs. destruct s as [|u r]; [done|]. cbn [isWellFormed toWellFormed] in *.
  destruct (is_lead u); [destruct r as [|v r']; [done|]|]; apply andb_true_iff in Hs as [H1 H2].
  - rewrite H1. do 2 f_equal. apply IH; [cbn; lia|done].
  - apply negb_true_iff in H1. rewrite H1. f_equal. apply IH; [cbn; lia|done].
Qed.
