(* ===== verification/Session.v ===== *)
(** Sealed session cookies: [packages/foundation/src/session/cookie.ts],
    [crypto.ts] and [key-derivation.ts].

    The primitives are WebCrypto's and Node's: [WebCrypto] is the interface
    the code relies on (PBKDF2, AES-256-GCM, base64) with their documented laws.
    A payload is a string of UTF-16 units, encoded and decoded by [TextCodec];
    secrets and tokens are compared and counted only. Bytes are integers; a
    promise that rejects is a [Throw]. The two cached key promises are the
    instance's state. *)

From S2P Require Import Prelude JsString TextCodec.
From Stdlib Require Import Ascii.

#[local] Open Scope string_scope.
#[local] Open Scope Z_scope.

Definition bytes := list Z.

(** Length of the GCM tag, appended to the ciphertext. *)
Definition TAG_LENGTH : nat := 16.

Class WebCrypto := {
  CryptoKey : Type;
  pbkdf2 : string -> string -> Z -> result unit CryptoKey;
  gcm_encrypt : CryptoKey -> bytes -> bytes -> result unit bytes;
  gcm_decrypt : CryptoKey -> bytes -> bytes -> result unit bytes;
  base64 : bytes -> string;
  from_base64 : string -> bytes;
  gcm_round_trip k iv p c : gcm_encrypt k iv p = Ok c -> gcm_decrypt k iv c = Ok p;
  gcm_length k iv p c : gcm_encrypt k iv p = Ok c -> length c = (length p + TAG_LENGTH)%nat;
  base64_round_trip b : from_base64 (base64 b) = b
}.

(** ** crypto.ts *)

Definition IV_LENGTH_BYTES : nat := 12.

(** [iv] is what [getRandomValues] filled in. *)
Definition seal `{WebCrypto} (iv payload : bytes) (key : CryptoKey) : result unit string :=
  (let* ciphertext := gcm_encrypt key iv payload in
   Ok (base64 (iv ++ ciphertext)%list))%js.

Definition unseal `{WebCrypto} (token : string) (key : CryptoKey) : option bytes :=
  let envelope := from_base64 token in
  if (length envelope <=? IV_LENGTH_BYTES)%nat then None
  else
    let iv := take IV_LENGTH_BYTES envelope in
    let ciphertext := drop IV_LENGTH_BYTES envelope in
    match gcm_decrypt key iv ciphertext with
    | Ok plaintext => Some plaintext
    | Throw _ => None
    end.

(** ** key-derivation.ts *)

Definition DEFAULT_PBKDF2_ITERATIONS : Z := 600000.

Definition deriveKey `{WebCrypto} (secret salt : string) (iterations : Z) : result unit CryptoKey :=
  pbkdf2 secret salt iterations.

(** ** cookie.ts *)

Definition MIN_SECRET_LENGTH : nat := 32.
Definition MIN_SALT_LENGTH : nat := 16.

(** [iterations] is a number of the configuration: an integer, or [None]
    inside for a number that is not one. *)
Record SessionCookieConfig := {
  cfg_primarySecret : string;
  cfg_fallbackSecret : option string;
  cfg_salt : string;
  cfg_iterations : option (option Z)
}.

Inductive session_error :=
| SessionCookieConfigError
| SealError
| UnsealNotJson
| UnsealSchema
| KeyDerivation.

Record SessionCookie (Key : Type) := {
  primarySecret : string;
  fallbackSecret : option string;
  salt : string;
  iterations : Z;
  primaryKeyPromise : option (result unit Key);
  fallbackKeyPromise : option (result unit Key)
}.
Arguments primarySecret {Key}.
Arguments fallbackSecret {Key}.
Arguments salt {Key}.
Arguments iterations {Key}.
Arguments primaryKeyPromise {Key}.
Arguments fallbackKeyPromise {Key}.

Section cookie.
Context `{WebCrypto}.

Definition new_SessionCookie (c : SessionCookieConfig) : result session_error (SessionCookie CryptoKey) :=
  if (String.length (cfg_primarySecret c) <? MIN_SECRET_LENGTH)%nat then Throw SessionCookieConfigError
  else if (String.length (cfg_salt c) <? MIN_SALT_LENGTH)%nat then Throw SessionCookieConfigError
  else if match cfg_fallbackSecret c with
          | Some f => (String.length f <? MIN_SECRET_LENGTH)%nat
          | None => false
          end then Throw SessionCookieConfigError
  else if match cfg_iterations c with
          | Some (Some n) => n <? DEFAULT_PBKDF2_ITERATIONS
          | Some None => true
          | None => false
          end then Throw SessionCookieConfigError
  else Ok {| primarySecret := cfg_primarySecret c; fallbackSecret := cfg_fallbackSecret c;
             salt := cfg_salt c;
             iterations := match cfg_iterations c with Some (Some n) => n | _ => DEFAULT_PBKDF2_ITERATIONS end;
             primaryKeyPromise := None; fallbackKeyPromise := None |}.

(** The derived key and the instance with its promise cached. A rejected
    promise is cached like a resolved one. *)
Definition getPrimaryKey (s : SessionCookie CryptoKey) : SessionCookie CryptoKey * result unit CryptoKey :=
  match primaryKeyPromise s with
  | Some k => (s, k)
  | None =>
      let k := deriveKey (primarySecret s) (salt s) (iterations s) in
      ({| primarySecret := primarySecret s; fallbackSecret := fallbackSecret s; salt := salt s;
          iterations := iterations s; primaryKeyPromise := Some k;
          fallbackKeyPromise := fallbackKeyPromise s |}, k)
  end.

Definition getFallbackKey (s : SessionCookie CryptoKey) :
    SessionCookie CryptoKey * option (result unit CryptoKey) :=
  match fallbackSecret s with
  | None => (s, None)
  | Some secret =>
      match fallbackKeyPromise s with
      | Some k => (s, Some k)
      | None =>
          let k := deriveKey secret (salt s) (iterations s) in
          ({| primarySecret := primarySecret s; fallbackSecret := fallbackSecret s; salt := salt s;
              iterations := iterations s; primaryKeyPromise := primaryKeyPromise s;
              fallbackKeyPromise := Some k |}, Some k)
      end
  end.

Definition cookie_seal (s : SessionCookie CryptoKey) (iv : bytes) (payload : text) :
    SessionCookie CryptoKey * result session_error string :=
  let '(s', k) := getPrimaryKey s in
  (s', match k with
       | Ok key => match seal iv (TextEncoder_encode payload) key with Ok t => Ok t | Throw _ => Throw SealError end
       | Throw _ => Throw SealError
       end).

(** The result of awaiting a key, then trying it on the token. *)
Definition try_key (k : result unit CryptoKey) (token : string) : result session_error (option text) :=
  match k with
  | Ok key => Ok (TextDecoder_decode <$> unseal token key)
  | Throw _ => Throw KeyDerivation
  end.

Definition cookie_unseal (s : SessionCookie CryptoKey) (token : string) :
    SessionCookie CryptoKey * result session_error (option text) :=
  let '(s1, k) := getPrimaryKey s in
  match try_key k token with
  | Throw e => (s1, Throw e)
  | Ok (Some p) => (s1, Ok (Some p))
  | Ok None =>
      match fallbackSecret s1 with
      | None => (s1, Ok None)
      | Some _ =>
          let '(s2, fk) := getFallbackKey s1 in
          match fk with
          | None => (s2, Ok None)
          | Some k => (s2, try_key k token)
          end
      end
  end.

(** [stringify] is [JSON.stringify]: a [Throw], or [None] for [undefined]. *)
Definition sealJson {T} (stringify : T -> result unit (option text)) (s : SessionCookie CryptoKey)
    (iv : bytes) (payload : T) : SessionCookie CryptoKey * result session_error string :=
  match stringify payload with
  | Throw _ => (s, Throw SealError)
  | Ok None => (s, Throw SealError)
  | Ok (Some t) => cookie_seal s iv t
  end.

(** [parse] is [JSON.parse]; [safeParse] the caller's schema. *)
Definition unsealJson {Json T} (parse : text -> option Json) (safeParse : Json -> option T)
    (s : SessionCookie CryptoKey) (token : string) :
    SessionCookie CryptoKey * result session_error (option T) :=
  let '(s', r) := cookie_unseal s token in
  (s', match r with
       | Throw e => Throw e
       | Ok None => Ok None
       | Ok (Some plaintext) =>
           match parse plaintext with
           | None => Throw UnsealNotJson
           | Some j => match safeParse j with None => Throw UnsealSchema | Some t => Ok (Some t) end
           end
       end).

(** ** Cookie headers: the npm [cookie] package does the syntax *)

Inductive SameSite := strict | lax | none.

Record CookieAttributes := {
  httpOnly : option bool; secure : option bool; sameSite : option SameSite; path : option string;
  domain : option string; maxAge : option Z; expires : option Z
}.

Record SetCookie := {
  sc_name : string; sc_value : string; sc_httpOnly : bool; sc_secure : bool; sc_sameSite : SameSite;
  sc_path : string; sc_domain : option string; sc_maxAge : option Z; sc_expires : option Z
}.

Definition parseCookieHeader (parseCookie : string -> list (string * option string)) (header : option string) :
    list (string * string) :=
  match header with
  | None => []
  | Some h => if (String.length h =? 0)%nat then []
              else omap (fun nv => match nv.2 with Some v => Some (nv.1, v) | None => None end) (parseCookie h)
  end.

Definition set_cookie (name value : string) (attributes : option CookieAttributes) : SetCookie :=
  let attr {X} (f : CookieAttributes -> option X) : option X := a ← attributes; f a in
  {| sc_name := name; sc_value := value;
     sc_httpOnly := default true (attr httpOnly); sc_secure := default true (attr secure);
     sc_sameSite := default lax (attr sameSite); sc_path := default "/" (attr path);
     sc_domain := attr domain; sc_maxAge := attr maxAge; sc_expires := attr expires |}.

Definition serializeSetCookie (stringifySetCookie : SetCookie -> string) (name value : string)
    (attributes : option CookieAttributes) : string :=
  stringifySetCookie (set_cookie name value attributes).

(** ** Lemmas *)

(** The cached promises are those of the secrets. *)
Definition cache_ok (s : SessionCookie CryptoKey) : Prop :=
  (forall k, primaryKeyPromise s = Some k -> k = deriveKey (primarySecret s) (salt s) (iterations s)) /\
  (forall k f, fallbackKeyPromise s = Some k -> fallbackSecret s = Some f -> k = deriveKey f (salt s) (iterations s)).

(** An instance as its life leaves it: constructed, then used. [sealJson] and
    [unsealJson] touch it through [seal] and [unseal] only. *)
Inductive instance : SessionCookie CryptoKey -> Prop :=
| instance_new c s : new_SessionCookie c = Ok s -> instance s
| instance_seal s iv payload : instance s -> instance (fst (cookie_seal s iv payload))
| instance_unseal s token : instance s -> instance (fst (cookie_unseal s token)).

(** Same secrets, whatever is cached. *)
Definition same_secrets (s s' : SessionCookie CryptoKey) : Prop :=
  primarySecret s' = primarySecret s /\ fallbackSecret s' = fallbackSecret s /\
  salt s' = salt s /\ iterations s' = iterations s.

Lemma new_cache_ok c s : new_SessionCookie c = Ok s -> cache_ok s.
Proof. unfold new_SessionCookie. repeat case_match; intros; simplify_eq; split; done. Qed.

Lemma getPrimaryKey_spec s :
  cache_ok s ->
  let '(s', k) := getPrimaryKey s in
  k = deriveKey (primarySecret s) (salt s) (iterations s) /\ cache_ok s' /\ same_secrets s s'.
Proof.
  intros Hs. pose proof Hs as [Hp Hf]. unfold getPrimaryKey. destruct (primaryKeyPromise s) as [k|] eqn:E.
  - split; [by apply Hp|]. split; [exact Hs|by repeat split].
  - split; [done|]. split; [|done]. split; [intros k [= <-]; done|exact Hf].
Qed.

Lemma getFallbackKey_spec s :
  cache_ok s ->
  let '(s', k) := getFallbackKey s in
  k = (fun f => deriveKey f (salt s) (iterations s)) <$> fallbackSecret s /\ cache_ok s' /\ same_secrets s s'.
Proof.
  intros Hs. pose proof Hs as [Hp Hf]. unfold getFallbackKey.
  destruct (fallbackSecret s) as [f|] eqn:E; [|split; [done|]; split; [exact Hs|by repeat split]].
  destruct (fallbackKeyPromise s) as [k|] eqn:E2.
  - split; [cbn; f_equal; by apply (Hf k f)|]. split; [exact Hs|by repeat split].
  - split; [done|]. split; [|by repeat split]. split; [exact Hp|]. cbn. intros k f0 [= <-] Hs0. congruence.
Qed.

Lemma seal_unseal iv p key t :
  length iv = IV_LENGTH_BYTES -> seal iv p key = Ok t -> unseal t key = Some p.
Proof.
  unfold seal. intros Hiv (c & Hc & [= <-])%result_bind_ok. unfold unseal.
  rewrite base64_round_trip, length_app, (gcm_length _ _ _ _ Hc), Hiv.
  destruct (Nat.leb_spec (IV_LENGTH_BYTES + (length p + TAG_LENGTH)) IV_LENGTH_BYTES) as [Hle|_];
    [unfold TAG_LENGTH in Hle; lia|].
  rewrite <- Hiv, take_app_length, drop_app_length. by rewrite (gcm_round_trip _ _ _ _ Hc).
Qed.

(** What unsealing answers, in terms of the secrets alone. *)
Definition unseal_spec (s : SessionCookie CryptoKey) (token : string) : result session_error (option text) :=
  match try_key (deriveKey (primarySecret s) (salt s) (iterations s)) token, fallbackSecret s with
  | Ok None, Some f => try_key (deriveKey f (salt s) (iterations s)) token
  | r, _ => r
  end.

Lemma cookie_unseal_spec s token :
  cache_ok s ->
  let '(s', r) := cookie_unseal s token in r = unseal_spec s token /\ cache_ok s' /\ same_secrets s s'.
Proof.
  intros Hs. unfold cookie_unseal, unseal_spec. pose proof (getPrimaryKey_spec s Hs) as Hp.
  destruct (getPrimaryKey s) as [s1 k]. destruct Hp as (-> & Hs1 & Hsame).
  destruct (try_key _ token) as [[p|]|e]; [done| |done].
  destruct Hsame as (Hps & Hfs & Hsalt & Hit). rewrite Hfs.
  destruct (fallbackSecret s) as [f|] eqn:Ef; [|split; [done|]; split; [done|]; repeat split; congruence].
  pose proof (getFallbackKey_spec s1 Hs1) as Hf. destruct (getFallbackKey s1) as [s2 fk].
  destruct Hf as (-> & Hs2 & Hps2 & Hfs2 & Hsalt2 & Hit2). rewrite Hfs. cbn.
  rewrite Hsalt, Hit. split; [done|]. split; [done|]. repeat split; congruence.
Qed.

Lemma cookie_seal_cache s iv payload : cache_ok s -> cache_ok (fst (cookie_seal s iv payload)).
Proof. intros Hs. unfold cookie_seal. pose proof (getPrimaryKey_spec s Hs). destruct (getPrimaryKey s). apply H0. Qed.

Lemma instance_cache_ok s : instance s -> cache_ok s.
Proof.
  induction 1 as [c s H0|s iv p _ IH|s token _ IH]; [by eapply new_cache_ok|by apply cookie_seal_cache|].
  pose proof (cookie_unseal_spec s token IH). destruct (cookie_unseal s token). apply H0.
Qed.
End cookie.

Arguments cache_ok {H}.
Arguments instance {H}.

(** What becomes of a payload: a surrogate without its pair is replaced by
    U+FFFD, and a U+FEFF at the very start is lost. *)
Definition arrives (payload : text) : text :=
  match toWellFormed payload with
  | c :: r => if c =? 0xFEFF then r else c :: r
  | [] => []
  end.

Lemma arrives_mark p : arrives p = drop_mark (toWellFormed p).
Proof. unfold arrives. by destruct (toWellFormed p). Qed.

Lemma arrives_intact p : isWellFormed p = true -> head p <> Some 0xFEFF -> arrives p = p.
Proof.
  intros Hw Hh. unfold arrives. rewrite toWellFormed_id by done. destruct p as [|c p]; [done|].
  destruct (Z.eqb_spec c 0xFEFF) as [->|]; [by destruct Hh|done].
Qed.

(** C39 ([SessionCookie.seal], [unseal]): a payload sealed by an instance (as
    constructed, whatever it sealed and unsealed before) unseals to itself if its
    surrogates are paired and it does not start with U+FEFF, and otherwise with
    U+FFFD for each lone surrogate and without that U+FEFF, on every instance of
    the same primary secret, salt and iterations. One that rotated the secret and
    keeps the old one as fallback still unseals it, provided AES-GCM rejects the
    ciphertext under the new key; without the fallback it answers [null]. Of
    failures, only that of a key derivation makes [unseal] reject. *)
Theorem seal_unseal_rotation `{WebCrypto} (s s2 : SessionCookie CryptoKey) (iv : bytes) (payload : text) (token : string) :
  instance s -> instance s2 -> length iv = 12%nat -> Forall (fun u => is_unit u = true) payload ->
  snd (cookie_seal s iv payload) = Ok token ->
  salt s2 = salt s -> iterations s2 = iterations s ->
  (isWellFormed payload = true -> head payload <> Some 0xFEFF -> arrives payload = payload) /\
  (primarySecret s2 = primarySecret s -> snd (cookie_unseal s2 token) = Ok (Some (arrives payload))) /\
  (forall newKey, pbkdf2 (primarySecret s2) (salt s) (iterations s) = Ok newKey ->
     unseal token newKey = None ->
     (fallbackSecret s2 = Some (primarySecret s) -> snd (cookie_unseal s2 token) = Ok (Some (arrives payload))) /\
     (fallbackSecret s2 = None -> snd (cookie_unseal s2 token) = Ok None)) /\
  (forall t e, snd (cookie_unseal s2 t) = Throw e -> e = KeyDerivation).
Proof.
  intros Hs%instance_cache_ok Hs2%instance_cache_ok Hiv Hunits Hseal Hsalt Hit. unfold cookie_seal in Hseal.
  pose proof (getPrimaryKey_spec s Hs) as Hp. destruct (getPrimaryKey s) as [s1 k]. destruct Hp as (Hk & _ & _).
  cbn [snd] in Hseal. destruct k as [key|]; [|done]. destruct (seal _ _ _) as [t|] eqn:Et; [|done].
  injection Hseal as ->. apply seal_unseal in Et; [|done].
  assert (forall t, snd (cookie_unseal s2 t) = unseal_spec s2 t) as Hun.
  { intros t. pose proof (cookie_unseal_spec s2 t Hs2) as Hc. destruct (cookie_unseal s2 t). apply Hc. }
  assert (try_key (Ok key) token = Ok (Some (arrives payload))) as Hgood.
  { unfold try_key. rewrite Et. cbn [fmap option_fmap option_map]. by rewrite decode_encode_text, arrives_mark. }
  rewrite Hun. unfold unseal_spec. rewrite Hsalt, Hit. split; [apply arrives_intact|split; [|split]].
  - intros ->. by rewrite <- Hk, Hgood.
  - intros newKey Hnew Hbad. unfold deriveKey at 1 3. rewrite Hnew. cbn [try_key]. rewrite Hbad. cbn.
    split; intros ->; [by rewrite <- Hk|done].
  - intros t e. rewrite Hun. unfold unseal_spec. unfold try_key. repeat case_match; naive_solver.
Qed.

(** ** An instance of the interface, to evaluate the model on *)

Fixpoint bits_of (p : positive) : string :=
  match p with
  | xI p => String.String "1"%char (bits_of p)
  | xO p => String.String "0"%char (bits_of p)
  | xH => ""
  end.

Fixpoint of_bits (s : string) : positive :=
  match s with
  | String.String c r => if Ascii.eqb c "1"%char then xI (of_bits r) else xO (of_bits r)
  | EmptyString => xH
  end.

Lemma of_bits_of p : of_bits (bits_of p) = p.
Proof. induction p; cbn; congruence. Qed.

Fixpoint codes (s : string) : bytes :=
  match s with String.String c r => code c :: codes r | EmptyString => [] end.

Definition toy_tag (k : string) : bytes := take TAG_LENGTH (codes k ++ replicate TAG_LENGTH 0)%list.

Lemma toy_tag_length k : length (toy_tag k) = TAG_LENGTH.
Proof. unfold toy_tag. rewrite length_take, length_app, length_replicate. lia. Qed.

(** Keys are the secrets, the tag is a prefix of the key. *)
Program Definition toy_crypto : WebCrypto :=
  {| CryptoKey := string;
     pbkdf2 secret _ _ := Ok secret;
     gcm_encrypt k _ p := Ok (p ++ toy_tag k)%list;
     gcm_decrypt k _ c :=
       let n := (length c - TAG_LENGTH)%nat in
       if decide (drop n c = toy_tag k) then Ok (take n c) else Throw tt;
     base64 b := bits_of (encode b);
     from_base64 s := default [] (decode (of_bits s)) |}.
Next Obligation.
  intros k iv p c [= <-]. cbv zeta.
  rewrite length_app, toy_tag_length, Nat.add_sub, drop_app_length.
  destruct (decide _); [|done]. by rewrite take_app_length.
Qed.
Next Obligation. intros k iv p c [= <-]. by rewrite length_app, toy_tag_length. Qed.
Next Obligation. intros b. cbn. by rewrite of_bits_of, decode_encode. Qed.

#[local] Definition config (primary : string) (fallback : option string) : SessionCookieConfig :=
  {| cfg_primarySecret := primary; cfg_fallbackSecret := fallback; cfg_salt := "sixteen-char-salt"; cfg_iterations := None |}.

#[local] Definition old_secret : string := "old-secret-old-secret-old-secret".
#[local] Definition new_secret : string := "new-secret-new-secret-new-secret".

Definition old_cookie : SessionCookie string :=
  {| primarySecret := old_secret; fallbackSecret := None; salt := "sixteen-char-salt";
     iterations := 600000; primaryKeyPromise := None; fallbackKeyPromise := None |}.

Definition rotated_cookie : SessionCookie string :=
  {| primarySecret := new_secret; fallbackSecret := Some old_secret; salt := "sixteen-char-salt";
     iterations := 600000; primaryKeyPromise := None; fallbackKeyPromise := None |}.

(** The payload is an opening brace, an emoji and a closing brace. *)
Lemma seal_unseal_rotation_witness :
  exists token, snd (cookie_seal (H := toy_crypto) old_cookie (replicate 12 7) [0x7B; 0xD83D; 0xDE00; 0x7D]) = Ok token /\
    snd (cookie_unseal (H := toy_crypto) rotated_cookie token) = Ok (Some [0x7B; 0xD83D; 0xDE00; 0x7D]).
Proof.
  eexists. split; [vm_compute; reflexivity|].
  refine (proj1 (proj1 (proj2 (proj2 (seal_unseal_rotation (H := toy_crypto) old_cookie rotated_cookie (replicate 12 7)
    [0x7B; 0xD83D; 0xDE00; 0x7D] _ _ _ _ _ _ _ _))) new_secret _ _) _); try reflexivity.
  - exact (instance_new (H := toy_crypto) (config old_secret None) old_cookie eq_refl).
  - exact (instance_new (H := toy_crypto) (config new_secret (Some old_secret)) rotated_cookie eq_refl).
  - repeat constructor.
Defined.

(** The payload is documented as opaque; one that starts with U+FEFF comes back
    without it. *)
Lemma mark_is_lost :
  exists token, snd (cookie_seal (H := toy_crypto) old_cookie (replicate 12 7) [0xFEFF; 0x7B; 0x7D]) = Ok token /\
    snd (cookie_unseal (H := toy_crypto) old_cookie token) = Ok (Some [0x7B; 0x7D]).
Proof. eexists. split; vm_compute; reflexivity. Qed.
