(* ===== verification/SignIn.v ===== *)
(** What the mailed-link sign-in handlers share:
    [packages/vestibulum/src/lambda/shared/] ([signin.ts], [normalize-email.ts],
    [allow-list.ts], [email-hmac.ts], [runtime-env.ts], [cookie-names.ts]) and
    the services they call.

    The DynamoDB tables, the Cognito pool, Secrets Manager and SES are one
    [World]; an SDK call is a command on it. SHA-256 and HMAC are parameters:
    the model uses of them that a hex digest decodes to 32 bytes. The process
    environment is a function. *)

From stdpp Require Import pretty.
From S2P Require Import Prelude JsString Json Regex JsDate Prog.
From Stdlib Require Import Ascii.

#[local] Open Scope string_scope.
#[local] Open Scope Z_scope.

(** ** runtime-env.ts, cookie-names.ts *)

Definition process_env := string -> option string.

Module RuntimeEnv.
Definition TOKEN_TABLE_NAME := "VESTIBULUM_TOKEN_TABLE".
Definition RATE_LIMIT_TABLE_NAME := "VESTIBULUM_RATE_LIMIT_TABLE".
Definition DENYLIST_TABLE_NAME := "VESTIBULUM_DENYLIST_TABLE".
Definition COGNITO_USER_POOL_ID := "VESTIBULUM_USER_POOL_ID".
Definition COGNITO_CLIENT_ID := "VESTIBULUM_CLIENT_ID".
Definition SES_FROM := "VESTIBULUM_SES_FROM".
Definition DOMAIN := "VESTIBULUM_DOMAIN".
Definition TOKEN_TTL_MINUTES := "VESTIBULUM_TOKEN_TTL_MINUTES".
Definition TOKEN_SENDS_PER_WINDOW := "VESTIBULUM_TOKEN_SENDS_PER_WINDOW".
Definition TOKEN_SENDS_PER_DAY := "VESTIBULUM_TOKEN_SENDS_PER_DAY".
Definition SIGN_UPS_PER_WINDOW := "VESTIBULUM_SIGN_UPS_PER_WINDOW".
Definition LOGIN_IP_PER_WINDOW := "VESTIBULUM_LOGIN_IP_PER_WINDOW".
Definition ALLOWED_EMAIL_DOMAINS := "VESTIBULUM_ALLOWED_EMAIL_DOMAINS".
Definition SIGNUP_MODE := "VESTIBULUM_SIGNUP_MODE".
Definition BOUNCE_HMAC_SECRET := "VESTIBULUM_BOUNCE_HMAC_SECRET".
Definition BINDING_TABLE_NAME := "VESTIBULUM_BINDING_TABLE".
Definition SIGNIN_FLOOR_MS := "VESTIBULUM_SIGNIN_FLOOR_MS".
Definition CREATE_FLOOR_MS := "VESTIBULUM_CREATE_FLOOR_MS".
Definition SES_CONFIGURATION_SET := "VESTIBULUM_SES_CONFIGURATION_SET".
Definition ENROLLMENT := "VESTIBULUM_ENROLLMENT".
Definition REFRESH_TOKEN_VALIDITY_SECONDS := "VESTIBULUM_REFRESH_TOKEN_VALIDITY_SECONDS".
End RuntimeEnv.

(** [process.env[name]], where an empty value counts as missing. *)
Definition env_value (env : process_env) (name : string) : option string :=
  match env name with Some v => if String.eqb v "" then None else Some v | None => None end.

Definition ID_TOKEN_COOKIE_NAME := "id-token".
Definition REFRESH_TOKEN_COOKIE_NAME := "refresh-token".

(** ** signin.ts *)

Definition BINDING_COOKIE_NAME := "__Host-signin".
Definition MIN_TOKEN_TTL_MINUTES : Z := 3.
Definition MAX_TOKEN_TTL_MINUTES : Z := 15.
Definition DEFAULT_TOKEN_TTL_MINUTES : Z := 10.
Definition DEFAULT_SIGNIN_FLOOR_MS : Z := 2500.
Definition DEFAULT_CREATE_FLOOR_MS : Z := 1000.
Definition MAX_ANSWER_LENGTH : nat := 64.

Inductive Enrollment := admin_only | self_signup.

#[export] Instance enrollment_eq_dec : EqDecision Enrollment.
Proof. solve_decision. Defined.

Definition parseEnrollment (raw : option string) : option Enrollment :=
  match raw with
  | None => Some admin_only
  | Some r =>
      if String.eqb r "" then Some admin_only
      else if String.eqb r "admin-only" then Some admin_only
      else if String.eqb r "self-signup" then Some self_signup
      else None
  end.

(** [/^\d+$/]. *)
Definition all_digits (s : string) : bool := non_empty s && str_all is_digit s.

(** [Number.parseInt(s, 10)]; [None] is [NaN]. *)
Definition parseInt10 (s : string) : option Z :=
  let t := trim_start s in
  let '(neg, u) :=
    match t with
    | String.String c r => if Ascii.eqb c "-" then (true, r) else if Ascii.eqb c "+" then (false, r) else (false, t)
    | EmptyString => (false, t)
    end in
  let '(ds, _) := span_digits u in
  if String.eqb ds "" then None else Some (if neg then - dec_val ds else dec_val ds).

Definition DEFAULT_REFRESH_TOKEN_VALIDITY_SECONDS : Z := 30 * 24 * 60 * 60.

Definition parseRefreshTokenValiditySeconds (raw : option string) : option Z :=
  match raw with
  | None => Some DEFAULT_REFRESH_TOKEN_VALIDITY_SECONDS
  | Some r =>
      if String.eqb r "" then Some DEFAULT_REFRESH_TOKEN_VALIDITY_SECONDS
      else if negb (all_digits r) then None
      else if 0 <? dec_val r then Some (dec_val r) else None
  end.

Definition TOKEN_ANSWER : re :=
  rep 43 (RCls (fun c => is_alnum c || Ascii.eqb c "_" || Ascii.eqb c "-")).
Definition CODE_ANSWER : re := rep 8 (RCls is_digit).

Inductive AnswerForm := token_form | code_form.

Definition classifyAnswer (answer : string) : option AnswerForm :=
  if re_match TOKEN_ANSWER answer then Some token_form
  else if re_match CODE_ANSWER answer then Some code_form
  else None.

(** [padStart(8, "0")] of [randomInt(0, 10^8)]. *)
Definition newSigninCode (drawn : Z) : string := pad 8 drawn.

Definition parseTokenTtlMinutes (raw : option string) : option Z :=
  match raw with
  | None => Some DEFAULT_TOKEN_TTL_MINUTES
  | Some r =>
      if String.eqb r "" then Some DEFAULT_TOKEN_TTL_MINUTES
      else if negb (all_digits r) then None
      else let n := dec_val r in
           if (MIN_TOKEN_TTL_MINUTES <=? n) && (n <=? MAX_TOKEN_TTL_MINUTES) then Some n else None
  end.

Definition parseMs (raw : option string) (fallback : Z) : Z :=
  match raw with Some r => if all_digits r then dec_val r else fallback | None => fallback end.

Definition buildBindingCookie (secret : string) (maxAgeSeconds : Z) : string :=
  join "; " [BINDING_COOKIE_NAME +:+ "=" +:+ secret; "Max-Age=" +:+ pretty maxAgeSeconds; "Path=/";
             "SameSite=Strict"; "HttpOnly"; "Secure"].

Definition clearBindingCookie : string := buildBindingCookie "" 0.

(** The first pair with the name decides; an empty value is no cookie. *)
Fixpoint cookie_in (pairs : list string) (name : string) : option string :=
  match pairs with
  | [] => None
  | kv :: rest =>
      match indexOf kv "=" with
      | None => cookie_in rest name
      | Some eq_ =>
          if negb (String.eqb (trim (str_take eq_ kv)) name) then cookie_in rest name
          else let value := trim (str_drop (S eq_) kv) in
               if String.eqb value "" then None else Some value
      end
  end.

Definition readCookie (cookies : list string) (header : option string) (name : string) : option string :=
  cookie_in (cookies ++ match header with
                        | Some h => if String.eqb h "" then [] else split ";" h
                        | None => []
                        end)%list name.

Example signin_examples :
  parseInt10 " 12ab" = Some 12 /\ parseInt10 "-3" = Some (-3) /\ parseInt10 "x" = None /\
  parseTokenTtlMinutes (Some "15") = Some 15 /\ parseTokenTtlMinutes (Some "2") = None /\
  classifyAnswer "01234567" = Some code_form /\ classifyAnswer "0123456" = None /\
  newSigninCode 4711 = "00004711" /\
  readCookie [] (Some "a=b; __Host-signin = x=y ; c=d") BINDING_COOKIE_NAME = Some "x=y" /\
  buildBindingCookie "b" 600 = "__Host-signin=b; Max-Age=600; Path=/; SameSite=Strict; HttpOnly; Secure".
Proof. repeat split. Qed.

(** ** normalize-email.ts *)

Definition MAX_EMAIL_LENGTH : Z := 254.

(** [[\s\p{Cc}]] below 256. *)
Definition forbidden_inside (c : ascii) : bool :=
  is_space c || (code c <=? 31) || ((127 <=? code c) && (code c <=? 159)).

(** Every code unit below 256 is in NFC, and so is every text of them:
    [normalize("NFC")] does nothing on model strings. *)
Definition normalize_NFC (s : string) : string := s.

Definition normalizeEmail (raw : string) : option string :=
  let value := normalize_NFC (toLowerCase (normalize_NFC (trim raw))) in
  if MAX_EMAIL_LENGTH <? byteLength value then None
  else if str_exists forbidden_inside value then None
  else match split "@" value with
       | [local; domain] =>
           if String.eqb local "" || String.eqb domain "" then None else Some value
       | _ => None
       end.

Example normalize_examples :
  normalizeEmail "  Ana.B+x@Example.COM " = Some "ana.b+x@example.com" /\
  normalizeEmail "a@b@c" = None /\ normalizeEmail "@b" = None /\ normalizeEmail "a b@c" = None.
Proof. repeat split. Qed.

(** ** Hex *)

Fixpoint from_hex (s : string) : list Z :=
  match s with
  | String.String a (String.String b r) =>
      if is_hex_digit a && is_hex_digit b then (16 * hex_value a + hex_value b) :: from_hex r else []
  | _ => []
  end.

(** ** The services *)

(** [node:crypto]: SHA-256 and HMAC-SHA-256 in hex. *)
Class Digests := {
  sha256Hex : string -> string;
  hmac_sha256_hex : string -> string -> string;
  sha256_bytes s : length (from_hex (sha256Hex s)) = 32%nat;
  hmac_bytes k m : length (from_hex (hmac_sha256_hex k m)) = 32%nat
}.

(** A user of the pool, as [AdminGetUser] reports it. *)
Record PoolUser := { Enabled : option bool; UserAttributes : list (string * option string) }.

(** Rows of the tables, under their keys. *)
Record TokenRow := {
  row_code_hash : option string;
  row_email_hmac : option string;
  row_created_at : option Z;
  row_expires_at : option Z
}.

Record CounterRow := { count : Z; window_start : option Z; counter_expires_at : Z }.

Record DenyRow := { quarantined_at : string; deny_expires_at : Z }.

Record Mail := {
  Source : string;
  ConfigurationSetName : option string;
  ToAddress : string;
  Subject : string;
  TextBody : string;
  HtmlBody : string
}.

Inductive SuppressionReason :=
| unknown_user | ineligible | allow_list_down | quarantined_user | denylisted | denylist_down
| rate_limited | daily_cap | dependency_error.

Inductive FailReason :=
| f_quarantined | f_prior_failure | f_empty_answer | f_bad_answer | f_hash_mismatch | f_no_such_token
| f_code_mismatch | f_email_mismatch | f_expired | f_already_consumed | f_delete_error | f_ineligible
| f_allow_list_down | f_dependency_error.

(** Closed sets of outcomes the endpoints report. *)
Inductive RequestOutcome := accepted | rate_limited_ip | auth_error | store_error.
Inductive RedeemOutcome := redeemed_ok | no_binding | expired | no_session | rejected | redeem_error.
Inductive RevocationOutcome := revoked | no_id_token | unverified | revocation_error.

(** Metrics, log lines and sleeps. *)
Inductive event :=
| SignInSuppressed (reason : SuppressionReason)
| LogFailClosed (reason : SuppressionReason)
| LogCreateSent
| LogVerifyFailed (reason : FailReason)
| LogVerifySuccess
| Slept (ms : Z)
| SesBounceRate (recipients bounceType : option JsonValue)
| SesComplaintRate (recipients : option JsonValue)
| LogQuarantined
| LogDenylisted
| LogIgnored
| LogRecordError
| PreSignUpRejection (reason : string)
| SignInRequest (outcome : RequestOutcome)
| SignInRedeem (outcome : RedeemOutcome)
| SignOutRevocation (outcome : RevocationOutcome)
| LogConfiguration
| LogRevocationFailed.

(** [denylist] is [None] when the table does not exist. *)
Record World := {
  tokens : gmap string TokenRow;
  counters : gmap string CounterRow;
  denylist : option (gmap string DenyRow);
  users : gmap string PoolUser;
  secrets : gmap string (option string);
  mails : list Mail;
  log : list event
}.

Definition set_tokens (w : World) x :=
  {| tokens := x; counters := counters w; denylist := denylist w; users := users w;
     secrets := secrets w; mails := mails w; log := log w |}.
Definition set_counters (w : World) x :=
  {| tokens := tokens w; counters := x; denylist := denylist w; users := users w;
     secrets := secrets w; mails := mails w; log := log w |}.
Definition set_denylist (w : World) x :=
  {| tokens := tokens w; counters := counters w; denylist := x; users := users w;
     secrets := secrets w; mails := mails w; log := log w |}.
Definition set_users (w : World) x :=
  {| tokens := tokens w; counters := counters w; denylist := denylist w; users := x;
     secrets := secrets w; mails := mails w; log := log w |}.
Definition send_mail (w : World) m :=
  {| tokens := tokens w; counters := counters w; denylist := denylist w; users := users w;
     secrets := secrets w; mails := (mails w ++ [m])%list; log := log w |}.
Definition emit_event (w : World) e :=
  {| tokens := tokens w; counters := counters w; denylist := denylist w; users := users w;
     secrets := secrets w; mails := mails w; log := (log w ++ [e])%list |}.

Inductive cmd_error :=
| ConditionalCheckFailedException
| ResourceNotFoundException
| ValidationException
| UserNotFoundException
| Unavailable.

(** [UpdateCounter bucket limit window ttl]: the one [UpdateItem] all counters
    use. A limit of [None] is [String(NaN)]. With a [window], the row also
    records it and the condition compares it. *)
Inductive cmd : Type -> Type :=
| GetSecretValue (secretId : string) : cmd (option string)
| GetDenylistItem (email_hmac : string) : cmd bool
| PutDenylistItem (email_hmac : string) (row : DenyRow) : cmd unit
| UpdateCounter (bucket : string) (limit : option Z) (window : option Z) (ttl : Z) : cmd unit
| AdminGetUser (pool username : string) : cmd PoolUser
| AdminUpdateUserAttributes (pool username : string) (attrs : list (string * option string)) : cmd unit
| PutToken (token_hash : string) (row : TokenRow) : cmd unit
| GetToken (token_hash : string) : cmd (option TokenRow)
| DeleteToken (token_hash : string) : cmd unit
| SendEmail (m : Mail) : cmd unit.

(** [attribute_not_exists(#c) OR (#c < :limit AND #ws = :ws)]. *)
Definition counter_allows (row : option CounterRow) (limit : Z) (window : option Z) : bool :=
  match row with
  | None => true
  | Some c => (count c <? limit)
              && match window with Some ws => bool_decide (window_start c = Some ws) | None => true end
  end.

Definition counter_count (row : option CounterRow) : Z := match row with Some c => count c | None => 0 end.

(** [SET #c = if_not_exists(#c, :zero) + :one, #ws = :ws, #ttl = :ttl]. *)
Definition counter_next (row : option CounterRow) (window : option Z) (ttl : Z) : CounterRow :=
  {| count := counter_count row + 1;
     window_start := match window with Some ws => Some ws | None => row ≫= window_start end;
     counter_expires_at := ttl |}.

(** [attrs?.find((a) => a.Name === name)?.Value]. *)
Fixpoint attr (attrs : list (string * option string)) (name : string) : option string :=
  match attrs with
  | [] => None
  | (n, v) :: rest => if String.eqb n name then v else attr rest name
  end.

(** [UserAttributes] with the given ones set. *)
Definition set_attributes (attrs : list (string * option string)) (u : PoolUser) : PoolUser :=
  {| Enabled := Enabled u;
     UserAttributes := (attrs ++ List.filter (fun nv => negb (existsb (String.eqb nv.1) (map fst attrs)))
                                              (UserAttributes u))%list |}.

(** The user a name stands for: the pool's username, or an alias, the address. *)
Definition lookup_user (us : gmap string PoolUser) (name : string) : option (string * PoolUser) :=
  match us !! name with
  | Some u => Some (name, u)
  | None => List.find (fun ku => bool_decide (attr (UserAttributes (snd ku)) "email" = Some name)) (map_to_list us)
  end.

Definition effect {X} (w : World) (c : cmd X) : World * result cmd_error X :=
  match c in cmd X return World * result cmd_error X with
  | GetSecretValue i =>
      (w, match secrets w !! i with Some v => Ok v | None => Throw ResourceNotFoundException end)
  | GetDenylistItem h =>
      (w, match denylist w with
          | Some d => Ok (bool_decide (is_Some (d !! h)))
          | None => Throw ResourceNotFoundException
          end)
  | PutDenylistItem h row =>
      match denylist w with
      | Some d => (set_denylist w (Some (<[h := row]> d)), Ok tt)
      | None => (w, Throw ResourceNotFoundException)
      end
  | UpdateCounter b limit window ttl =>
      match limit with
      | None => (w, Throw ValidationException)
      | Some l =>
          if counter_allows (counters w !! b) l window
          then (set_counters w (<[b := counter_next (counters w !! b) window ttl]> (counters w)), Ok tt)
          else (w, Throw ConditionalCheckFailedException)
      end
  | AdminGetUser _ u =>
      (w, match lookup_user (users w) u with Some (_, x) => Ok x | None => Throw UserNotFoundException end)
  | AdminUpdateUserAttributes _ u attrs =>
      match lookup_user (users w) u with
      | Some (k, x) => (set_users w (<[k := set_attributes attrs x]> (users w)), Ok tt)
      | None => (w, Throw UserNotFoundException)
      end
  | PutToken h row =>
      match tokens w !! h with
      | Some _ => (w, Throw ConditionalCheckFailedException)
      | None => (set_tokens w (<[h := row]> (tokens w)), Ok tt)
      end
  | GetToken h => (w, Ok (tokens w !! h))
  | DeleteToken h =>
      match tokens w !! h with
      | Some _ => (set_tokens w (delete h (tokens w)), Ok tt)
      | None => (w, Throw ConditionalCheckFailedException)
      end
  | SendEmail m => (send_mail w m, Ok tt)
  end.

#[export] Instance signin_service : Service World cmd cmd_error event :=
  {| perform X w c := effect w c; lost := Unavailable; record_event := emit_event |}.

(** What a handler throws. *)
Inductive signin_error :=
| AuthenticationFailed
| EmptySecret
| DenylistUnavailableError
| RangeError
| TypeError
| SyntaxError
| MissingConfiguration
| SignupNotAllowed
| InvalidCookie
| AggregateError (errors : list signin_error)
| ServiceError (e : cmd_error).

#[global] Notation prog := (Prog.prog cmd cmd_error signin_error event).

(** [await client.send(c)]. *)
Definition send {X} (c : cmd X) : prog X :=
  Send c (fun r => match r with Ok x => Ret x | Throw e => Raise (ServiceError e) end).

(** ** signin.ts: the response floor *)

Definition withFloor {C CE E A} (floorMs : Z) (fn : Prog.prog C CE E event A) : Prog.prog C CE E event A :=
  Now (fun start =>
  attempt fn (fun r =>
  Now (fun t =>
    let remaining := floorMs - (t - start) in
    let done := match r with Ok a => Ret a | Throw e => Raise e end in
    if 0 <? remaining then Emit (Slept remaining) done else done))).

(** ** email-hmac.ts *)

Definition hmacEmail `{Digests} (email key : string) : string := hmac_sha256_hex key (toLowerCase email).

(** [cachedKey] and [cachedFor], the module's cache. *)
Definition key_cache : Type := option (string * string).

Definition resolveEmailHmacKeyFromEnv (env : process_env) (cache : key_cache) : prog (key_cache * string) :=
  let fetch secretId :=
    await (send (GetSecretValue secretId)) (fun value =>
      match value with
      | Some v => if String.eqb v "" then Raise EmptySecret else Ret (Some (v, secretId), v)
      | None => Raise EmptySecret
      end) in
  match env_value env RuntimeEnv.BOUNCE_HMAC_SECRET with
  | None => Ret (cache, "")
  | Some secretId =>
      match cache with
      | Some (key, for_) => if String.eqb for_ secretId then Ret (cache, key) else fetch secretId
      | None => fetch secretId
      end
  end.

(** ** allow-list.ts *)

Record Eligibility := { subject : string; active : bool }.

Definition eligible (e : option Eligibility) : bool := match e with Some x => active x | None => false end.

Definition is_true (v : option string) : bool :=
  match v with Some s => String.eqb s "true" | None => false end.

(** [createCognitoAllowList(...).get]: [None] is [unavailable]. *)
Definition allow_list_get (userPoolId subject : string) : prog (option (option Eligibility)) :=
  Send (AdminGetUser userPoolId subject) (fun r => Ret
    match r with
    | Ok u => Some (Some {| subject := subject;
                            active := match Enabled u with Some true => true | _ => false end
                                      && is_true (attr (UserAttributes u) "email_verified") |})
    | Throw UserNotFoundException => Some None
    | Throw _ => None
    end).

(** ** An instance to evaluate on *)

Definition hex_char (d : Z) : ascii := if d <? 10 then digit_char d else ascii_of_N (Z.to_N (87 + d)).

Fixpoint hex_bytes (n : nat) (v : Z) : string :=
  match n with
  | O => ""
  | S k => String.String (hex_char (v mod 16)) (String.String (hex_char (v / 16 mod 16)) (hex_bytes k (v / 256)))
  end.

Lemma hex_char_ok d : 0 <= d < 16 -> is_hex_digit (hex_char d) = true.
Proof.
  intros Hd. apply (forall_below_spec 16 (fun d => is_hex_digit (hex_char d))); [vm_compute; reflexivity|done].
Qed.

Lemma from_hex_bytes n v : length (from_hex (hex_bytes n v)) = n.
Proof.
  revert v. induction n as [|n IH]; intros v; cbn [hex_bytes from_hex]; [done|].
  rewrite !hex_char_ok by (apply Z.mod_pos_bound; lia). cbn [andb length]. by rewrite IH.
Qed.

(** The base-257 value of a text, modulo 2^256: a digest of 32 bytes. *)
Fixpoint text_value (acc : Z) (s : string) : Z :=
  match s with
  | EmptyString => acc
  | String.String c r => text_value ((acc * 257 + code c + 1) mod 2 ^ 256) r
  end.

#[export] Program Instance toy_digests : Digests :=
  {| sha256Hex s := hex_bytes 32 (text_value 0 s);
     hmac_sha256_hex k m := hex_bytes 32 (text_value (text_value 7 k) m) |}.
Next Obligation. intros s. apply from_hex_bytes. Qed.
Next Obligation. intros k m. apply from_hex_bytes. Qed.
