(* ===== verification/MagicLink.v ===== *)
(** The Cognito triggers of the mailed-link sign-in:
    [packages/vestibulum/src/lambda/handlers/define-auth-challenge/index.ts],
    [create-auth-challenge/*.ts] and [verify-auth-challenge/index.ts].

    A trigger is a program of commands; what it mutates of the Cognito event is
    the response it returns. Random values are arguments. The module's cached
    HMAC key is passed in and returned. *)

From stdpp Require Import pretty.
From S2P Require Import Prelude JsString Regex JsDate Prog SignIn.
From Stdlib Require Import Ascii.

#[local] Open Scope string_scope.
#[local] Open Scope Z_scope.
#[local] Open Scope prog_scope.

(** ** define-auth-challenge *)

(** A round of the session; [None] is a value that is not an object. *)
Record ChallengeResult := { challengeName : option string; challengeResult : option bool }.

Record DefineResponse := {
  nextChallenge : option string;
  issueTokens : bool;
  failAuthentication : bool
}.

(** [session] is [None] when it is not an array. *)
Definition defineAuthChallenge (session : option (list (option ChallengeResult))) : DefineResponse :=
  match session with
  | Some [] =>
      {| nextChallenge := Some "CUSTOM_CHALLENGE"; issueTokens := false; failAuthentication := false |}
  | _ =>
      let answeredOnceCorrectly :=
        match session with
        | Some [Some only] =>
            bool_decide (challengeName only = Some "CUSTOM_CHALLENGE")
            && bool_decide (challengeResult only = Some true)
        | _ => false
        end in
      if answeredOnceCorrectly
      then {| nextChallenge := None; issueTokens := true; failAuthentication := false |}
      else {| nextChallenge := None; issueTokens := false; failAuthentication := true |}
  end.

(** ** create-auth-challenge *)

Record CreateEvent := {
  c_userPoolId : string;
  c_userName : string;
  userAttributes : list (string * option string)
}.

Record PrivateParameters := {
  p_email : option string;
  p_token_hash : option string;
  p_code_hash : option string;
  p_quarantined : option string
}.

Record CreateResponse := {
  publicChallengeParameters : list (string * string);
  privateChallengeParameters : PrivateParameters;
  challengeMetadata : string
}.

(** [randomBytes(32).toString("base64url")], the 8-digit code, and the random
    value an unanswerable challenge hashes. *)
Record Drawn := { d_token : string; d_code : string; d_decoy : string }.

Definition PUBLIC_CHALLENGE_PARAMETERS : list (string * string) := [("challenge", "MAGIC_LINK")].

Definition buildMagicLinkUrl (domain token : string) : string :=
  "https://" +:+ domain +:+ "/login/callback#token=" +:+ token.

Definition NL : string := String.String "010"%char "".
Definition DQ : string := String.String "034"%char "".

Definition textBody (url code : string) (ttl : Z) : string :=
  join NL
    ["Sign in by opening this link in the same browser you started in."; ""; url; "";
     "Opened it somewhere else? Go back to the browser where you asked for this link and enter this code there instead:";
     ""; code; "";
     "Never share this code with anyone. Nobody from us will ever ask you for it."; "";
     "This link expires in " +:+ pretty ttl +:+ " minutes and can be used only once. The code expires with it.";
     "If you did not request this, you can ignore this message."].

Definition htmlBody (url code : string) (ttl : Z) : string :=
  join NL
    ["<!doctype html>";
     "<html><body style=" +:+ DQ +:+ "font-family: system-ui, sans-serif;" +:+ DQ +:+ ">";
     "<p>Sign in by opening this link in the same browser you started in.</p>";
     "<p><a href=" +:+ DQ +:+ url +:+ DQ +:+ ">" +:+ url +:+ "</a></p>";
     "<p>Opened it somewhere else? Go back to the browser where you asked for this link and enter this code there instead:</p>";
     "<p style=" +:+ DQ +:+ "font-size: 1.5em; letter-spacing: 0.15em;" +:+ DQ +:+ "><strong>" +:+ code +:+ "</strong></p>";
     "<p>Never share this code with anyone. Nobody from us will ever ask you for it.</p>";
     "<p>This link expires in " +:+ pretty ttl +:+ " minutes and can be used only once. The code expires with it.</p>";
     "<p>If you did not request this, you can ignore this message.</p>";
     "</body></html>"].

(** The mail [sendMagicLinkEmail] sends. *)
Definition magic_link_mail (fromAddress toAddress domain token code : string) (ttl : Z)
    (configurationSetName : option string) : Mail :=
  let url := buildMagicLinkUrl domain token in
  {| Source := fromAddress; ConfigurationSetName := configurationSetName; ToAddress := toAddress;
     Subject := "Your sign-in link"; TextBody := textBody url code ttl; HtmlBody := htmlBody url code ttl |}.

Definition RATE_LIMIT_WINDOW_MS : Z := 15 * 60 * 1000.
Definition DEFAULT_SENDS_PER_WINDOW : Z := 3.
Definition DEFAULT_SENDS_PER_DAY : Z := 20.
Definition DAY_MS : Z := 24 * 60 * 60 * 1000.

Section triggers.
Context `{Digests} (env : process_env).

(** *** rate-limit.ts, daily-cap.ts, quarantine-check.ts *)

(** The outcome of a conditional counter write: within the limit, over it, or
    an error. *)
Definition consume_counter (c : cmd unit) : prog bool :=
  Send c (fun r =>
    match r with
    | Ok _ => Ret true
    | Throw ConditionalCheckFailedException => Ret false
    | Throw e => Raise (ServiceError e)
    end).

Definition windowStart (nowMs : Z) : Z := nowMs / RATE_LIMIT_WINDOW_MS * RATE_LIMIT_WINDOW_MS.

Definition window_bucket (email hmacKey : string) (start : Z) : string :=
  hmac_sha256_hex hmacKey ("window:" +:+ toLowerCase email +:+ "#" +:+ pretty start).

Definition tryConsumeRateLimit (email hmacKey : string) (limit : option Z) (nowMs : Z) : prog bool :=
  let start := windowStart nowMs in
  let ttlEpoch := (start + RATE_LIMIT_WINDOW_MS) / 1000 + 60 in
  consume_counter (UpdateCounter (window_bucket email hmacKey start) limit (Some start) ttlEpoch).

(** [new Date(nowMs).toISOString().slice(0, 10)]. *)
Definition utcDate (nowMs : Z) : option string := str_take 10 <$> toISOString nowMs.

Definition day_bucket (address hmacKey date : string) : string :=
  hmac_sha256_hex hmacKey ("daily-cap:" +:+ toLowerCase address +:+ "#" +:+ date).

Definition tryConsumeDailyCap (address hmacKey : string) (limit nowMs : Z) : prog bool :=
  match utcDate nowMs with
  | None => Raise RangeError
  | Some date =>
      let dayStartMs := nowMs / DAY_MS * DAY_MS in
      let expiresAt := (dayStartMs + DAY_MS) / 1000 + 3600 in
      consume_counter (UpdateCounter (day_bucket address hmacKey date) (Some limit) None expiresAt)
  end.

Definition isDenylisted (tableName : option string) (email hmacKey : string) : prog bool :=
  match tableName with
  | None => Raise DenylistUnavailableError
  | Some _ =>
      Send (GetDenylistItem (hmacEmail email hmacKey)) (fun r =>
        match r with
        | Ok b => Ret b
        | Throw ResourceNotFoundException => Raise DenylistUnavailableError
        | Throw e => Raise (ServiceError e)
        end)
  end.

(** *** index.ts *)

(** [settle]: a read that either produced a value or failed. *)
Definition settle {A B} (read : prog A) (k : option A -> prog B) : prog B :=
  attempt read (fun r => k (match r with Ok a => Some a | Throw _ => None end)).

Definition unanswerableChallenge (reason : SuppressionReason) (email generatedCode : string) (d : Drawn) :
    prog CreateResponse :=
  Emit (SignInSuppressed reason) (Emit (LogFailClosed reason)
    (Ret {| publicChallengeParameters := PUBLIC_CHALLENGE_PARAMETERS;
            privateChallengeParameters :=
              {| p_email := Some email; p_token_hash := Some (sha256Hex (d_decoy d));
                 p_code_hash := Some (sha256Hex generatedCode); p_quarantined := Some "true" |};
            challengeMetadata := "MAGIC_LINK" |})).

(** What the deployment configures; [None] is the generic error, thrown before
    anything is read. *)
Record CreateConfig := {
  cfg_from : string;
  cfg_domain : string;
  cfg_denylistTable : option string;
  cfg_ttlMinutes : Z;
  cfg_enrollment : Enrollment;
  cfg_sendsPerWindow : option Z;
  cfg_sendsPerDay : Z;
  cfg_configurationSet : option string
}.

Definition sends_per_day : Z :=
  match env_value env RuntimeEnv.TOKEN_SENDS_PER_DAY with
  | None => DEFAULT_SENDS_PER_DAY
  | Some raw => if all_digits raw then dec_val raw else 0
  end.

Definition create_config : option CreateConfig :=
  _ ← env_value env RuntimeEnv.TOKEN_TABLE_NAME;
  _ ← env_value env RuntimeEnv.RATE_LIMIT_TABLE_NAME;
  fromAddress ← env_value env RuntimeEnv.SES_FROM;
  domain ← env_value env RuntimeEnv.DOMAIN;
  ttlMinutes ← parseTokenTtlMinutes (env RuntimeEnv.TOKEN_TTL_MINUTES);
  enrollment ← parseEnrollment (env RuntimeEnv.ENROLLMENT);
  if sends_per_day <? 1 then None
  else Some {| cfg_from := fromAddress; cfg_domain := domain;
               cfg_denylistTable := env_value env RuntimeEnv.DENYLIST_TABLE_NAME;
               cfg_ttlMinutes := ttlMinutes; cfg_enrollment := enrollment;
               cfg_sendsPerWindow := match env RuntimeEnv.TOKEN_SENDS_PER_WINDOW with
                                     | Some raw => parseInt10 raw
                                     | None => Some DEFAULT_SENDS_PER_WINDOW
                                     end;
               cfg_sendsPerDay := sends_per_day;
               cfg_configurationSet := env_value env RuntimeEnv.SES_CONFIGURATION_SET |}.

Definition recipient (ev : CreateEvent) : option string :=
  match attr (userAttributes ev) "email" with
  | Some raw => if String.eqb raw "" then None else normalizeEmail raw
  | None => None
  end.

(** The decision: every argument that is a read is [None] when it failed;
    [eligibility] is [None] in self-signup mode. *)
Fixpoint first_reason (l : list (option SuppressionReason)) : option SuppressionReason :=
  match l with [] => None | Some r :: _ => Some r | None :: l => first_reason l end.

Definition suppression (isPhantom : bool) (eligibility : option (option (option Eligibility)))
    (email_quarantined : option string) (hmacKey : option string)
    (denylisted_ allowedByCap allowedByDay : option bool) : option SuppressionReason :=
  first_reason
    [if isPhantom then Some unknown_user else None;
     match eligibility with
     | Some None => Some allow_list_down
     | Some (Some None) => Some unknown_user
     | Some (Some e) => if eligible e then None else Some ineligible
     | None => None
     end;
     if is_true email_quarantined then Some quarantined_user else None;
     match hmacKey with None => Some dependency_error | Some _ => None end;
     match denylisted_ with None => Some denylist_down | Some true => Some denylisted | Some false => None end;
     match allowedByCap with None => Some dependency_error | Some false => Some rate_limited | Some true => None end;
     match allowedByDay with None => Some dependency_error | Some false => Some daily_cap | Some true => None end].

(** Storing the hashes and sending the mail. *)
Definition store_and_send (cfg : CreateConfig) (email hmacKey : string) (nowMs : Z) (d : Drawn) : prog unit :=
  let nowSeconds := nowMs / 1000 in
  let! _ := send (PutToken (sha256Hex (d_token d))
               {| row_code_hash := Some (sha256Hex (d_code d));
                  row_email_hmac := Some (hmacEmail email hmacKey);
                  row_created_at := Some nowSeconds;
                  row_expires_at := Some (nowSeconds + cfg_ttlMinutes cfg * 60) |}) in
  send (SendEmail (magic_link_mail (cfg_from cfg) email (cfg_domain cfg) (d_token d) (d_code d)
                     (cfg_ttlMinutes cfg) (cfg_configurationSet cfg))).

Definition issue_mail (cfg : CreateConfig) (email hmacKey : string) (nowMs : Z) (d : Drawn) : prog CreateResponse :=
  attempt (store_and_send cfg email hmacKey nowMs d) (fun r =>
    match r with
    | Throw _ => unanswerableChallenge dependency_error email (d_code d) d
    | Ok _ =>
        Emit LogCreateSent (Ret
          {| publicChallengeParameters := PUBLIC_CHALLENGE_PARAMETERS;
             privateChallengeParameters :=
               {| p_email := Some email; p_token_hash := Some (sha256Hex (d_token d));
                  p_code_hash := Some (sha256Hex (d_code d)); p_quarantined := Some "false" |};
             challengeMetadata := "MAGIC_LINK" |})
    end).

(** The HMAC key, settled: an empty key is a failed read. *)
Definition settled_key (cache : key_cache) : prog (key_cache * option string) :=
  attempt (resolveEmailHmacKeyFromEnv env cache) (fun r =>
    Ret match r with
        | Ok (cache', key) => (cache', if String.eqb key "" then None else Some key)
        | Throw _ => (cache, None)
        end).

Definition settle_with_key {A B} (key : option string) (read : string -> prog A) (k : option A -> prog B) : prog B :=
  match key with Some x => settle (read x) k | None => k None end.

Definition read_eligibility (cfg : CreateConfig) (ev : CreateEvent) {B}
    (k : option (option (option Eligibility)) -> prog B) : prog B :=
  match cfg_enrollment cfg with
  | admin_only =>
      let pool := match env RuntimeEnv.COGNITO_USER_POOL_ID with Some p => p | None => c_userPoolId ev end in
      let! answer := allow_list_get pool (c_userName ev) in k (Some answer)
  | self_signup => k None
  end.

(** Deciding, then storing and sending or not. *)
Definition decide_challenge (cfg : CreateConfig) (ev : CreateEvent) (nowMs : Z) (d : Drawn)
    (hmacKey : option string) (denylisted_ allowedByCap allowedByDay : option bool)
    (eligibility : option (option (option Eligibility))) : prog CreateResponse :=
  let email := recipient ev in
  let reason := suppression (bool_decide (email = None)) eligibility
                  (attr (userAttributes ev) "custom:email_quarantined") hmacKey denylisted_
                  allowedByCap allowedByDay in
  match reason, email, hmacKey with
  | None, Some address, Some key => issue_mail cfg address key nowMs d
  | _, _, _ => unanswerableChallenge (default dependency_error reason) (default (c_userName ev) email) (d_code d) d
  end.

(** The same reads and writes for every caller, then the decision. *)
Definition challenge (cfg : CreateConfig) (ev : CreateEvent) (nowMs : Z) (d : Drawn) (hmacKey : option string) :
    prog CreateResponse :=
  let subjectKey := default (c_userName ev) (recipient ev) in
  settle_with_key hmacKey (isDenylisted (cfg_denylistTable cfg) subjectKey) (fun denylisted_ =>
  settle_with_key hmacKey (fun key => tryConsumeRateLimit subjectKey key (cfg_sendsPerWindow cfg) nowMs)
    (fun allowedByCap =>
  settle_with_key hmacKey (fun key => tryConsumeDailyCap subjectKey key (cfg_sendsPerDay cfg) nowMs)
    (fun allowedByDay =>
  read_eligibility cfg ev (fun eligibility =>
  decide_challenge cfg ev nowMs d hmacKey denylisted_ allowedByCap allowedByDay eligibility)))).

Definition issue (d : Drawn) (cache : key_cache) (ev : CreateEvent) : prog (key_cache * CreateResponse) :=
  match create_config with
  | None => Raise AuthenticationFailed
  | Some cfg =>
      Now (fun nowMs =>
      let! (cache', hmacKey) := settled_key cache in
      let! resp := challenge cfg ev nowMs d hmacKey in
      Ret (cache', resp))
  end.

Definition createAuthChallenge (d : Drawn) (cache : key_cache) (ev : CreateEvent) :
    prog (key_cache * CreateResponse) :=
  withFloor (parseMs (env RuntimeEnv.CREATE_FLOOR_MS) DEFAULT_CREATE_FLOOR_MS) (issue d cache ev).

(** ** verify-auth-challenge *)

Record VerifyEvent := {
  v_userPoolId : string;
  v_userName : string;
  v_private : PrivateParameters;
  challengeAnswer : option string;
  v_session : list (option ChallengeResult)
}.

(** [answerCorrect], with the module's cache. *)
Definition fail (cache : key_cache) (reason : FailReason) : prog (key_cache * bool) :=
  Emit (LogVerifyFailed reason) (Ret (cache, false)).

Definition constantTimeHashEqual (a b : option string) : bool :=
  let aBuf := from_hex (default "" a) in
  let bBuf := from_hex (default "" b) in
  if negb (length aBuf =? 32)%nat || negb (length bBuf =? 32)%nat then false
  else bool_decide (aBuf = bBuf).

Definition failed_round (r : option ChallengeResult) : bool :=
  match r with Some x => bool_decide (challengeResult x = Some false) | None => false end.

(** [timingSafeEqual] throws on buffers of different lengths. *)
Definition email_matches (stored expected : string) : result signin_error bool :=
  if (String.length stored =? 0)%nat || (String.length expected =? 0)%nat
     || negb (String.length stored =? String.length expected)%nat then Ok false
  else
    let a := from_hex stored in
    let b := from_hex expected in
    if negb (length a =? length b)%nat then Throw RangeError else Ok (bool_decide (a = b)).

Definition recheck (enrollment : Enrollment) (cache : key_cache) (ev : VerifyEvent) : prog (key_cache * bool) :=
  let success := Emit LogVerifySuccess (Ret (cache, true)) in
  match enrollment with
  | admin_only =>
      let pool := match env RuntimeEnv.COGNITO_USER_POOL_ID with Some p => p | None => v_userPoolId ev end in
      let! now := allow_list_get pool (v_userName ev) in
      match now with
      | None => fail cache f_allow_list_down
      | Some value => if eligible value then success else fail cache f_ineligible
      end
  | self_signup => success
  end.

Definition consume (enrollment : Enrollment) (cache : key_cache) (ev : VerifyEvent) (rowKey : string) :
    prog (key_cache * bool) :=
  Send (DeleteToken rowKey) (fun r =>
    match r with
    | Ok _ => recheck enrollment cache ev
    | Throw ConditionalCheckFailedException => fail cache f_already_consumed
    | Throw _ => fail cache f_delete_error
    end).

(** The checks of the row that was found. *)
Definition check_row (enrollment : Enrollment) (hmacKey : string) (cache : key_cache) (ev : VerifyEvent)
    (form : AnswerForm) (submittedHash rowKey : string) (row : TokenRow) : prog (key_cache * bool) :=
  if match form with
     | code_form => negb (constantTimeHashEqual (row_code_hash row) (Some submittedHash))
     | token_form => false
     end then fail cache f_code_mismatch
  else
    let expectedEmailHmac :=
      match p_email (v_private ev) with
      | Some email => if String.eqb hmacKey "" || String.eqb email "" then "" else hmacEmail email hmacKey
      | None => ""
      end in
    match email_matches (default "" (row_email_hmac row)) expectedEmailHmac with
    | Throw e => Raise e
    | Ok false => fail cache f_email_mismatch
    | Ok true =>
        Now (fun nowMs =>
          match row_expires_at row with
          | None => fail cache f_expired
          | Some e => if e * 1000 <=? nowMs then fail cache f_expired
                      else consume enrollment cache ev rowKey
          end)
    end.

Definition redeem (enrollment : Enrollment) (hmacKey : string) (cache : key_cache) (ev : VerifyEvent)
    (form : AnswerForm) (submitted : string) : prog (key_cache * bool) :=
  let submittedHash := sha256Hex submitted in
  let params := v_private ev in
  let expectedHash := match form with token_form => p_token_hash params | code_form => p_code_hash params end in
  if negb (constantTimeHashEqual expectedHash (Some submittedHash)) then fail cache f_hash_mismatch
  else
    match p_token_hash params with
    | None => fail cache f_hash_mismatch
    | Some rowKey =>
        match env_value env RuntimeEnv.TOKEN_TABLE_NAME with
        | None => Raise AuthenticationFailed
        | Some _ =>
            Send (GetToken rowKey) (fun r =>
              match r with
              | Throw _ => fail cache f_dependency_error
              | Ok None => fail cache f_no_such_token
              | Ok (Some row) => check_row enrollment hmacKey cache ev form submittedHash rowKey row
              end)
        end
    end.

Definition verifyAuthChallengeResponse (cache : key_cache) (ev : VerifyEvent) : prog (key_cache * bool) :=
  match parseEnrollment (env RuntimeEnv.ENROLLMENT) with
  | None => Raise AuthenticationFailed
  | Some enrollment =>
      attempt (resolveEmailHmacKeyFromEnv env cache) (fun key =>
        match key with
        | Throw _ => fail cache f_dependency_error
        | Ok (cache', hmacKey) =>
            if is_true (p_quarantined (v_private ev)) then fail cache' f_quarantined
            else if existsb failed_round (v_session ev) then fail cache' f_prior_failure
            else
              match challengeAnswer ev with
              | None => fail cache' f_empty_answer
              | Some submitted =>
                  if (String.length submitted =? 0)%nat then fail cache' f_empty_answer
                  else if (MAX_ANSWER_LENGTH <? String.length submitted)%nat then fail cache' f_bad_answer
                  else match classifyAnswer submitted with
                       | None => fail cache' f_bad_answer
                       | Some form => redeem enrollment hmacKey cache' ev form submitted
                       end
              end
        end)
  end.
End triggers.

(** ** Lemmas *)

(** Nothing suppresses a challenge exactly when every read succeeded and
    speaks for it. *)
Lemma suppression_None phantom elig q key deny cap day :
  suppression phantom elig q key deny cap day = None <->
  phantom = false /\ (forall e, elig = Some e -> exists x, e = Some (Some x) /\ active x = true) /\
  is_true q = false /\ is_Some key /\ deny = Some false /\ cap = Some true /\ day = Some true.
Proof.
  unfold suppression, eligible. destruct phantom; [split; [done|by intros [? _]]|].
  destruct elig as [[[[s []]|]|]|]; cbn; try (split; [done|intros (_ & He & _); destruct (He _ eq_refl) as (y & [= <-] & ?); done]).
  all: destruct (is_true q); [split; [done|by intros (_ & _ & ? & _)]|].
  all: destruct key; [|split; [done|by intros (_ & _ & _ & [? ?] & _)]].
  all: destruct deny as [[]|]; try (split; [done|by intros (_ & _ & _ & _ & ? & _)]).
  all: destruct cap as [[]|]; try (split; [done|by intros (_ & _ & _ & _ & _ & ? & _)]).
  all: destruct day as [[]|]; try (split; [done|by intros (_ & _ & _ & _ & _ & _ & ?)]).
  all: split; [intros _|done]; split; [done|]; split; [|by repeat split].
  intros e [= <-]. by eexists.
Qed.

Lemma create_config_facts env cfg :
  create_config env = Some cfg ->
  parseEnrollment (env RuntimeEnv.ENROLLMENT) = Some (cfg_enrollment cfg) /\
  is_Some (env_value env RuntimeEnv.TOKEN_TABLE_NAME) /\ 1 <= cfg_sendsPerDay cfg.
Proof.
  unfold create_config. cbn. intros Hcfg.
  simplify_option_eq.
  destruct (sends_per_day env <? 1) eqn:Es; [done|]. injection Hcfg as <-. cbn. bool_hyps.
  split; [done|]. split; [by eexists|lia].
Qed.

(** Everything but the counters and the log. *)
Definition quiet (w w' : World) : Prop :=
  tokens w' = tokens w /\ denylist w' = denylist w /\ users w' = users w /\
  secrets w' = secrets w /\ mails w' = mails w.

Lemma quiet_refl w : quiet w w.
Proof. by repeat split. Qed.

Lemma quiet_trans w1 w2 w3 : quiet w1 w2 -> quiet w2 w3 -> quiet w1 w3.
Proof. intros (? & ? & ? & ? & ?) (? & ? & ? & ? & ?). repeat split; congruence. Qed.

(** A key the container may end up with. *)
Definition current_key (env : process_env) (cache : key_cache) (w : World) (key : string) : Prop :=
  exists sid, env_value env RuntimeEnv.BOUNCE_HMAC_SECRET = Some sid /\
    (cache = Some (key, sid) \/ secrets w !! sid = Some (Some key)).

Section wp.
Context (T : Z -> Prop) (D : delivery -> Prop).

(** A command that only reads or counts. *)
Definition harmless {X} (c : cmd X) : Prop :=
  match c with
  | GetSecretValue _ | GetDenylistItem _ | UpdateCounter _ _ _ _ | AdminGetUser _ _ | GetToken _ => True
  | _ => False
  end.

Lemma harmless_quiet {X} (c : cmd X) w : harmless c -> quiet w (fst (effect w c)).
Proof. destruct c; try done; intros _; cbn [effect]; repeat case_match; by repeat split. Qed.

(** Its reply is that of the service, or the message was lost. *)
Lemma wp_harmless {E A X} (c : cmd X) (k : result cmd_error X -> Prog.prog cmd cmd_error E event A) Q w :
  harmless c ->
  (forall w' r, quiet w w' -> r = snd (effect w c) \/ r = Throw Unavailable -> wp T D (k r) w' Q) ->
  wp T D (Send c k) w Q.
Proof.
  intros Hc Hk dv _. destruct dv; cbn [deliver perform lost signin_service fst snd].
  - apply Hk; [by apply harmless_quiet|by left].
  - apply Hk; [apply quiet_refl|by right].
  - apply Hk; [by apply harmless_quiet|by right].
Qed.

Lemma wp_withFloor {A} floor (p : prog A) w Q :
  wp T D p w (fun w' r => Q w' r /\ forall ms, Q (emit_event w' (Slept ms)) r) ->
  wp T D (withFloor floor p) w Q.
Proof.
  intros Hp start _. apply wp_attempt. revert Hp. apply wp_weaken. intros w' r [HQ HQe] t _. cbv zeta.
  destruct (0 <? floor - (t - start)); [specialize (HQe (floor - (t - start)))|]; by destruct r.
Qed.

Lemma wp_resolve env cache w Q :
  (forall w' cache' key, quiet w w' ->
     current_key env cache w key \/ env_value env RuntimeEnv.BOUNCE_HMAC_SECRET = None /\ key = "" ->
     Q w' (Ok (cache', key))) ->
  (forall w' e, quiet w w' -> Q w' (Throw e)) ->
  wp T D (resolveEmailHmacKeyFromEnv env cache) w Q.
Proof.
  intros Hok Herr. unfold resolveEmailHmacKeyFromEnv.
  destruct (env_value env _) as [sid|] eqn:Es; [|apply Hok; [apply quiet_refl|by right]].
  assert (wp T D (await (send (GetSecretValue sid)) (fun value =>
       match value with
       | Some v => if String.eqb v "" then Raise EmptySecret else Ret (Some (v, sid), v)
       | None => Raise EmptySecret
       end)) w Q) as Hf.
  { apply wp_await, wp_harmless; [done|]. intros w' r Hq [->| ->]; cbn; [|by apply Herr].
    destruct (secrets w !! sid) as [[v|]|] eqn:Ev; cbn; [|by apply Herr|by apply Herr].
    destruct (String.eqb v ""); [by apply Herr|]. apply Hok; [done|]. left. exists sid. by split; [|right]. }
  destruct cache as [[key for_]|]; [|done]. destruct (String.eqb_spec for_ sid) as [->|]; [|done].
  apply Hok; [apply quiet_refl|]. left. exists sid. by split; [|left].
Qed.

Context `{Digests} (env : process_env).

Lemma wp_settled_key cache w Q :
  (forall w' cache' key, quiet w w' ->
     (forall k, key = Some k -> k <> "" /\ current_key env cache w k) -> Q w' (Ok (cache', key))) ->
  wp T D (settled_key env cache) w Q.
Proof.
  intros Hk. apply wp_attempt, wp_resolve.
  - intros w' cache' key Hq Hc. cbn. apply Hk; [done|]. intros k. destruct (String.eqb_spec key ""); [done|].
    intros [= <-]. split; [done|]. by destruct Hc as [|[_ ->]].
  - intros w' e Hq. cbn. by apply Hk.
Qed.

(** A settled counter write changes counters only. *)
Lemma wp_counter {B} c (k : option bool -> prog B) w Q :
  harmless c ->
  (forall w' v, quiet w w' -> wp T D (k v) w' Q) -> wp T D (settle (consume_counter c) k) w Q.
Proof.
  intros Hc Hk. apply wp_attempt, wp_harmless; [done|]. intros w' [[]|e] Hq _; cbn; [by apply Hk|].
  destruct e; by apply Hk.
Qed.

Lemma wp_daily_cap {B} who key limit nowMs (k : option bool -> prog B) w Q :
  (forall w' v, quiet w w' -> wp T D (k v) w' Q) -> wp T D (settle (tryConsumeDailyCap who key limit nowMs) k) w Q.
Proof.
  intros Hk. unfold tryConsumeDailyCap. destruct (utcDate nowMs); [by apply wp_counter|].
  apply Hk, quiet_refl.
Qed.

(** A denylist read that answers is that of the denylist. *)
Lemma wp_denylist {B} table who key (k : option bool -> prog B) w Q :
  (forall w' v, quiet w w' ->
     (v = Some false -> exists dl, denylist w = Some dl /\ dl !! hmacEmail who key = None) ->
     wp T D (k v) w' Q) ->
  wp T D (settle (isDenylisted table who key) k) w Q.
Proof.
  intros Hk. unfold isDenylisted. destruct table; [|by apply Hk; [apply quiet_refl|]].
  apply wp_attempt, wp_harmless; [done|]. intros w' r Hq [->| ->]; cbn; [|by apply Hk].
  destruct (denylist w) as [dl|] eqn:Ed; cbn; [|by apply Hk]. apply Hk; [done|].
  intros [= Hb%bool_decide_eq_false]. exists dl. split; [done|]. destruct (dl !! _); [|done]. by destruct Hb.
Qed.

(** The user the allow-list calls eligible. *)
Definition eligible_user (w : World) (username : string) : Prop :=
  exists k u, lookup_user (users w) username = Some (k, u) /\ Enabled u = Some true /\
    is_true (attr (UserAttributes u) "email_verified") = true.

Lemma wp_allow_list pool username w (Q : World -> result signin_error (option (option Eligibility)) -> Prop) :
  (forall w' v, quiet w w' -> (forall x, v = Some (Some x) -> active x = true -> eligible_user w username) ->
     Q w' (Ok v)) ->
  wp T D (allow_list_get pool username) w Q.
Proof.
  intros Hk. apply wp_harmless; [done|]. intros w' r Hq [->| ->]; cbn; [|by apply Hk].
  destruct (lookup_user (users w) username) as [[k0 u]|] eqn:Eu; cbn; [|by apply Hk].
  apply Hk; [done|]. intros x [= <-]. cbn. intros [He Hv]%andb_true_iff. exists k0, u. split; [done|].
  split; [|done]. by destruct (Enabled u) as [[]|].
Qed.

Lemma wp_eligibility cfg ev {B} (k : _ -> prog B) w Q :
  (forall w' v, quiet w w' ->
     (cfg_enrollment cfg = admin_only -> v <> None) ->
     (forall x, v = Some (Some (Some x)) -> active x = true -> eligible_user w (c_userName ev)) ->
     wp T D (k v) w' Q) ->
  wp T D (read_eligibility env cfg ev k) w Q.
Proof.
  intros Hk. unfold read_eligibility. destruct (cfg_enrollment cfg); [|by apply Hk; [apply quiet_refl| |]].
  apply wp_await, wp_allow_list. intros w' v Hq Hv. apply Hk; [done|done|]. intros x [= ->]. by apply Hv.
Qed.
End wp.

Section create.
Context `{Digests} (env : process_env) (cache : key_cache) (ev : CreateEvent) (d : Drawn).

(** What must hold, in the world [w] the trigger found, for a mail to leave. *)
Definition may_mail (cfg : CreateConfig) (key email : string) (w : World) : Prop :=
  recipient ev = Some email /\ key <> "" /\ current_key env cache w key /\
  (cfg_enrollment cfg = admin_only -> eligible_user w (c_userName ev)) /\
  is_true (attr (userAttributes ev) "custom:email_quarantined") = false /\
  exists dl, denylist w = Some dl /\ dl !! hmacEmail email key = None.

(** The stored row: digests only. *)
Definition token_row (cfg : CreateConfig) (key email : string) (nowMs : Z) : TokenRow :=
  {| row_code_hash := Some (sha256Hex (d_code d)); row_email_hmac := Some (hmacEmail email key);
     row_created_at := Some (nowMs / 1000); row_expires_at := Some (nowMs / 1000 + cfg_ttlMinutes cfg * 60) |}.

Definition the_mail (cfg : CreateConfig) (email : string) : Mail :=
  magic_link_mail (cfg_from cfg) email (cfg_domain cfg) (d_token d) (d_code d) (cfg_ttlMinutes cfg)
    (cfg_configurationSet cfg).

Definition answerable (resp : CreateResponse) (email : string) : Prop :=
  privateChallengeParameters resp
  = {| p_email := Some email; p_token_hash := Some (sha256Hex (d_token d));
       p_code_hash := Some (sha256Hex (d_code d)); p_quarantined := Some "false" |}.

Definition unanswerable (resp : CreateResponse) : Prop :=
  p_quarantined (privateChallengeParameters resp) = Some "true".

(** What a challenge may have done to the world: nothing; or a row, and then
    perhaps a mail; the challenge is answerable only when both happened. *)
Definition challenged (cfg : CreateConfig) (T : Z -> Prop) (w w' : World) (resp : CreateResponse) : Prop :=
  publicChallengeParameters resp = PUBLIC_CHALLENGE_PARAMETERS /\ challengeMetadata resp = "MAGIC_LINK" /\
  users w' = users w /\ denylist w' = denylist w /\
  (unanswerable resp /\ tokens w' = tokens w /\ mails w' = mails w \/
   exists email key nowMs, T nowMs /\ may_mail cfg key email w /\
     tokens w !! sha256Hex (d_token d) = None /\
     tokens w' = <[sha256Hex (d_token d) := token_row cfg key email nowMs]> (tokens w) /\
     (unanswerable resp /\ (mails w' = mails w \/ mails w' = (mails w ++ [the_mail cfg email])%list) \/
      answerable resp email /\ mails w' = (mails w ++ [the_mail cfg email])%list)).

Lemma wp_issue_mail T D cfg key email nowMs w0 w :
  T nowMs -> may_mail cfg key email w0 -> quiet w0 w ->
  wp T D (issue_mail cfg email key nowMs d) w (fun w' r => exists resp, r = Ok resp /\ challenged cfg T w0 w' resp).
Proof.
  intros Hnow Hmay (Ht & Hd & Hu & Hs & Hm).
  set (h := sha256Hex (d_token d)). set (row := token_row cfg key email nowMs).
  assert (forall w', users w' = users w0 -> denylist w' = denylist w0 ->
    (tokens w' = tokens w0 /\ mails w' = mails w0 \/
     tokens w0 !! h = None /\ tokens w' = <[h := row]> (tokens w0) /\
     (mails w' = mails w0 \/ mails w' = (mails w0 ++ [the_mail cfg email])%list)) ->
    wp T D (unanswerableChallenge dependency_error email (d_code d) d) w'
      (fun w'' r => exists resp, r = Ok resp /\ challenged cfg T w0 w'' resp)) as Hun.
  { intros w' Hu' Hd' Hor. eexists. split; [reflexivity|]. repeat (split; [done|]).
    destruct Hor as [[Ht' Hm']|(Hf & Ht' & Hm')]; [by left|]. right.
    exists email, key, nowMs. repeat (split; [done|]). by left. }
  unfold issue_mail, store_and_send. apply wp_attempt, wp_await. fold h. fold (token_row cfg key email nowMs). fold row.
  intros dv _. destruct dv; cbn [deliver perform signin_service effect lost fst snd].
  - destruct (tokens w !! h) as [row0|] eqn:Ef; [apply Hun; [done|done|by left]|].
    assert (tokens w0 !! h = None) as Hf by congruence.
    intros dv _. destruct dv; cbn [deliver perform signin_service effect lost fst snd].
    + eexists. split; [reflexivity|]. repeat (split; [done|]). right. exists email, key, nowMs.
      repeat (split; [done|]). split; [by rewrite <- Ht|]. right. split; [done|]. cbn. by rewrite Hm.
    + apply Hun; [done|done|]. right. split; [done|]. split; [cbn; by rewrite Ht|]. by left.
    + apply Hun; [done|done|]. right. split; [done|]. split; [cbn; by rewrite Ht|]. right. cbn. by rewrite Hm.
  - apply Hun; [done|done|by left].
  - destruct (tokens w !! h) as [row0|] eqn:Ef; [apply Hun; [done|done|by left]|].
    apply Hun; [done|done|]. right. split; [congruence|]. split; [cbn; by rewrite Ht|by left].
Qed.

Lemma wp_decide T D cfg nowMs key deny cap day elig w0 w :
  T nowMs -> quiet w0 w ->
  (forall k, key = Some k -> k <> "" /\ current_key env cache w0 k) ->
  (deny = Some false -> forall k, key = Some k ->
     exists dl, denylist w0 = Some dl /\ dl !! hmacEmail (default (c_userName ev) (recipient ev)) k = None) ->
  (cfg_enrollment cfg = admin_only -> elig <> None) ->
  (forall x, elig = Some (Some (Some x)) -> active x = true -> eligible_user w0 (c_userName ev)) ->
  wp T D (decide_challenge cfg ev nowMs d key deny cap day elig) w
    (fun w' r => exists resp, r = Ok resp /\ challenged cfg T w0 w' resp).
Proof.
  intros Hnow Hq Hkey Hdeny Hmode Helig.
  assert (forall reason email, wp T D (unanswerableChallenge reason email (d_code d) d) w
    (fun w' r => exists resp, r = Ok resp /\ challenged cfg T w0 w' resp)) as Hun.
  { intros reason email. destruct Hq as (Ht & Hd & Hu & Hs & Hm). eexists. split; [reflexivity|].
    repeat (split; [done|]). by left. }
  unfold decide_challenge. destruct (suppression _ _ _ _ _ _ _) as [reason|] eqn:Es; [apply Hun|].
  destruct (recipient ev) as [email|] eqn:Er; [|apply Hun]. destruct key as [k|]; [|apply Hun].
  apply suppression_None in Es as (_ & He & Hqt & _ & Hd & _ & _).
  destruct (Hkey k eq_refl) as [Hne Hcur]. apply wp_issue_mail; [done| |done].
  split; [done|]. split; [done|]. split; [done|]. split; [|split; [done|by apply Hdeny]].
  intros Hadmin. destruct elig as [e|]; [|by destruct (Hmode Hadmin)].
  destruct (He e eq_refl) as (x & -> & Hx). by apply (Helig x).
Qed.

Lemma wp_create T D w :
  wp T D (createAuthChallenge env d cache ev) w (fun w' r =>
    match r with
    | Throw e => e = AuthenticationFailed /\ create_config env = None /\ tokens w' = tokens w /\ mails w' = mails w
    | Ok (_, resp) => exists cfg, create_config env = Some cfg /\ challenged cfg T w w' resp
    end).
Proof.
  apply wp_withFloor. unfold issue. destruct (create_config env) as [cfg|] eqn:Ecfg; [|by cbn].
  intros nowMs Hnow. apply wp_await, wp_settled_key. intros w1 c key Hq1 Hkey. apply wp_await.
  apply (wp_weaken _ _ _ (fun w' r => exists resp, r = Ok resp /\ challenged cfg T w w' resp)).
  { intros w' r (resp & -> & Hch). cbn. split; [|intros ms]; exists cfg; by split. }
  unfold challenge.
  assert (forall w2 cap day deny, quiet w w2 ->
    (deny = Some false -> forall k, key = Some k ->
      exists dl, denylist w = Some dl /\ dl !! hmacEmail (default (c_userName ev) (recipient ev)) k = None) ->
    wp T D (read_eligibility env cfg ev (decide_challenge cfg ev nowMs d key deny cap day)) w2
      (fun w' r => exists resp, r = Ok resp /\ challenged cfg T w w' resp)) as Helig.
  { intros w2 cap day deny Hq2 Hdeny. apply wp_eligibility. intros w3 v Hq3 Hmode Hv.
    apply wp_decide; [done|by eapply quiet_trans|done|done|done|]. intros x -> Hx.
    destruct (Hv x eq_refl Hx) as (k0 & u & Hu & He & Hver). exists k0, u. destruct Hq2 as (_ & _ & Hu2 & _). by rewrite Hu2 in Hu. }
  destruct key as [k|]; unfold settle_with_key; [|by apply Helig].
  apply wp_denylist. intros w2 deny Hq2 Hdeny. apply wp_counter; [done|]. intros w3 cap Hq3.
  apply wp_daily_cap. intros w4 day Hq4. apply Helig; [by repeat (eapply quiet_trans; [eassumption|])|].
  intros Hd k0 [= <-]. destruct (Hdeny Hd) as (dl & Hdl & Hno). exists dl. split; [|done].
  destruct Hq1 as (_ & Hdl1 & _). congruence.
Qed.
End create.

(** *** Redemption *)

Section redemption.
Context `{Digests} (env : process_env) (ev : VerifyEvent).

Definition session_hash (form : AnswerForm) : option string :=
  match form with token_form => p_token_hash (v_private ev) | code_form => p_code_hash (v_private ev) end.

(** What a redemption needs of its session, its answer and the stored row;
    everything but the user's eligibility now. *)
Definition redeemable (w : World) (key : string) (form : AnswerForm) (rowKey : string) (row : TokenRow)
    (nowMs : Z) : Prop :=
  is_true (p_quarantined (v_private ev)) = false /\ existsb failed_round (v_session ev) = false /\
  (exists submitted, challengeAnswer ev = Some submitted /\ classifyAnswer submitted = Some form /\
     constantTimeHashEqual (session_hash form) (Some (sha256Hex submitted)) = true /\
     (form = code_form -> constantTimeHashEqual (row_code_hash row) (Some (sha256Hex submitted)) = true)) /\
  p_token_hash (v_private ev) = Some rowKey /\ tokens w !! rowKey = Some row /\
  (exists email, p_email (v_private ev) = Some email /\ email <> "" /\ key <> "" /\
     email_matches (default "" (row_email_hmac row)) (hmacEmail email key) = Ok true) /\
  exists e, row_expires_at row = Some e /\ nowMs < e * 1000.

Definition still_eligible (enrollment : Enrollment) (w : World) : Prop :=
  enrollment = admin_only -> eligible_user w (v_userName ev).

Lemma classify_length s form : classifyAnswer s = Some form -> (0 < String.length s <= MAX_ANSWER_LENGTH)%nat.
Proof.
  unfold classifyAnswer, TOKEN_ANSWER, CODE_ANSWER, MAX_ANSWER_LENGTH. rewrite !match_rep_cls.
  destruct ((_ =? 43)%nat && _) eqn:E1; [intros _; bool_hyps; lia|].
  destruct ((_ =? 8)%nat && _) eqn:E2; [intros _; bool_hyps; lia|done].
Qed.

(** The world after a redemption, and its answer. *)
Definition redeemed (enrollment : Enrollment) (cache : key_cache) (T : Z -> Prop) (w w' : World)
    (r : result signin_error (key_cache * bool)) : Prop :=
  mails w' = mails w /\ users w' = users w /\ denylist w' = denylist w /\
  ((forall c, r <> Ok (c, true)) /\ tokens w' = tokens w \/
   exists key form rowKey row nowMs, T nowMs /\ redeemable w key form rowKey row nowMs /\
     current_key env cache w key /\ tokens w' = delete rowKey (tokens w) /\
     forall c, r = Ok (c, true) -> still_eligible enrollment w).

Section wp_verify.
Context (T : Z -> Prop) (D : delivery -> Prop) (enrollment : Enrollment) (cache : key_cache) (w0 : World).
#[local] Notation Q := (redeemed enrollment cache T w0).

Lemma wp_fail c reason w : quiet w0 w -> wp T D (fail c reason) w Q.
Proof. intros (Ht & Hd & Hu & Hs & Hm). repeat (split; [done|]). left. by split. Qed.

Lemma wp_recheck key form rowKey row nowMs c w :
  T nowMs -> redeemable w0 key form rowKey row nowMs -> current_key env cache w0 key ->
  tokens w = delete rowKey (tokens w0) -> users w = users w0 -> denylist w = denylist w0 -> mails w = mails w0 ->
  wp T D (recheck env enrollment c ev) w Q.
Proof.
  intros Hnow Hr Hk Ht Hu Hd Hm.
  assert (forall w' b, quiet w w' -> (b = true -> still_eligible enrollment w0) -> Q w' (Ok (c, b))) as HQ.
  { intros w' b (Ht' & Hd' & Hu' & Hs' & Hm') Hb. unfold redeemed. rewrite Hm', Hu', Hd', Ht'. repeat (split; [done|]). right.
    exists key, form, rowKey, row, nowMs. repeat (split; [done|]). intros c' [= _ ->]. by apply Hb. }
  unfold recheck. destruct enrollment; [|by apply HQ; [repeat split|]].
  apply wp_await, wp_allow_list. intros w' v Hq Hv. destruct v as [v|]; [|by apply HQ; [repeat split; apply Hq|]].
  destruct (eligible v) eqn:Ev; apply HQ; try (by repeat split; apply Hq); [|done].
  intros _ _. destruct v as [x|]; [|done]. destruct (Hv x eq_refl Ev) as (k0 & u & Hu1 & Hu2). exists k0, u. by rewrite <- Hu.
Qed.

Lemma wp_consume key form rowKey row nowMs c w :
  T nowMs -> redeemable w0 key form rowKey row nowMs -> current_key env cache w0 key -> quiet w0 w ->
  wp T D (consume env enrollment c ev rowKey) w Q.
Proof.
  intros Hnow Hr Hk Hq. pose proof Hr as (_ & _ & _ & _ & Hrow & _).
  pose proof Hq as (Ht & Hd & Hu & Hs & Hm).
  assert (forall r, (forall c', r <> Ok (c', true)) ->
    Q (set_tokens w (delete rowKey (tokens w))) r) as Hlost.
  { intros r Hr'. repeat (split; [done|]). right. exists key, form, rowKey, row, nowMs.
    repeat (split; [done|]). split; [cbn; by rewrite Ht|]. intros c' E. by destruct (Hr' c'). }
  intros dv _. destruct dv; cbn [deliver perform signin_service effect lost fst snd]; rewrite ?Ht, ?Hrow.
  - rewrite <- Ht. apply (wp_recheck key form rowKey row nowMs); try done. cbn. by rewrite Ht.
  - by apply wp_fail.
  - rewrite <- Ht. by apply Hlost.
Qed.

Lemma email_expected key (email : option string) stored :
  email_matches stored (match email with
                        | Some e => if String.eqb key "" || String.eqb e "" then "" else hmacEmail e key
                        | None => ""
                        end) = Ok true ->
  exists e, email = Some e /\ e <> "" /\ key <> "" /\ email_matches stored (hmacEmail e key) = Ok true.
Proof.
  assert (forall s, email_matches s "" = Ok false) as Hno by (intros s; unfold email_matches; by destruct (String.length s =? 0)%nat).
  destruct email as [e|]; [|by rewrite Hno].
  destruct (String.eqb_spec key "") as [|Hk]; [by cbn; rewrite Hno|]. destruct (String.eqb_spec e ""); [by cbn; rewrite Hno|].
  cbn. intros Hm. by exists e.
Qed.

Lemma wp_check_row key form rowKey row submitted c w :
  is_true (p_quarantined (v_private ev)) = false -> existsb failed_round (v_session ev) = false ->
  challengeAnswer ev = Some submitted -> classifyAnswer submitted = Some form ->
  constantTimeHashEqual (session_hash form) (Some (sha256Hex submitted)) = true ->
  p_token_hash (v_private ev) = Some rowKey -> tokens w0 !! rowKey = Some row ->
  current_key env cache w0 key \/ key = "" -> quiet w0 w ->
  wp T D (check_row env enrollment key c ev form (sha256Hex submitted) rowKey row) w Q.
Proof.
  intros Hqt Hs Ha Hc Hcmp Hk Hrow Hkey Hq. unfold check_row.
  destruct (match form with token_form => _ | code_form => _ end) eqn:Ecode; [by apply wp_fail|]. cbv zeta.
  destruct (email_matches _ _) as [[]|] eqn:Em; [|by apply wp_fail|].
  2:{ destruct Hq as (Ht & Hd & Hu & _ & Hm). repeat (split; [done|]). left. by split. }
  intros nowMs Hnow. destruct (row_expires_at row) as [e|] eqn:Ee; [|by apply wp_fail].
  destruct (Z.leb_spec (e * 1000) nowMs); [by apply wp_fail|].
  apply email_expected in Em as (email & Hemail & Hne & Hkne & Hm).
  destruct Hkey as [Hkey|]; [|done].
  apply (wp_consume key form rowKey row nowMs); [done| |done|done].
  repeat (split; [done|]). split; [|split; [done|]].
  { exists submitted. repeat (split; [done|]). intros ->. by apply negb_false_iff in Ecode. }
  split; [done|]. split; [by exists email|]. by exists e.
Qed.

Lemma wp_verify :
  parseEnrollment (env RuntimeEnv.ENROLLMENT) = Some enrollment ->
  wp T D (verifyAuthChallengeResponse env cache ev) w0 Q.
Proof.
  intros Hen. unfold verifyAuthChallengeResponse. rewrite Hen.
  apply wp_attempt, wp_resolve; [|intros w e Hq; by apply wp_fail].
  intros w c key Hq Hkey. destruct (is_true _) eqn:Eq; [by apply wp_fail|].
  destruct (existsb _ _) eqn:Es; [by apply wp_fail|].
  destruct (challengeAnswer ev) as [submitted|] eqn:Ea; [|by apply wp_fail].
  destruct (_ =? _)%nat; [by apply wp_fail|]. destruct (_ <? _)%nat; [by apply wp_fail|].
  destruct (classifyAnswer submitted) as [form|] eqn:Ec; [|by apply wp_fail].
  unfold redeem. cbv zeta. fold (session_hash form).
  destruct (constantTimeHashEqual _ _) eqn:Ecmp; [|by apply wp_fail]. cbn [negb].
  destruct (p_token_hash (v_private ev)) as [rowKey|] eqn:Ek; [|by apply wp_fail].
  destruct (env_value env RuntimeEnv.TOKEN_TABLE_NAME); [|destruct Hq as (Ht & Hd & Hu & _ & Hm); repeat (split; [done|]); by left].
  apply wp_harmless; [done|]. intros w' r Hq' [->| ->]; cbn [effect snd];
    assert (quiet w0 w') by (by eapply quiet_trans); [|by apply wp_fail].
  assert (tokens w = tokens w0) as -> by apply Hq.
  destruct (tokens w0 !! rowKey) as [row|] eqn:Erow; [|by apply wp_fail].
  apply wp_check_row; try done. destruct Hkey as [|[_ ?]]; auto.
Qed.
End wp_verify.
(** The key the resolution returns. *)
Definition key_resolves (cache : key_cache) (w : World) (key : string) : Prop :=
  key <> "" /\ exists sid, env_value env RuntimeEnv.BOUNCE_HMAC_SECRET = Some sid /\
    (cache = Some (key, sid) \/ (forall k, cache <> Some (k, sid)) /\ secrets w !! sid = Some (Some key)).

Lemma key_resolves_run cache w key nowMs :
  key_resolves cache w key ->
  exists c, wp (fun t => t = nowMs) (fun dv => dv = Delivered) (resolveEmailHmacKeyFromEnv env cache) w
    (fun w' r => w' = w /\ r = Ok (c, key)).
Proof.
  intros (Hne & sid & Hsid & Hc). unfold resolveEmailHmacKeyFromEnv. rewrite Hsid.
  destruct Hc as [->|[Hno Hsec]].
  - rewrite String.eqb_refl. by eexists.
  - exists (Some (key, sid)).
    assert (wp (fun t => t = nowMs) (fun dv => dv = Delivered) (await (send (GetSecretValue sid)) (fun value =>
       match value with
       | Some v => if String.eqb v "" then Raise EmptySecret else Ret (Some (v, sid), v)
       | None => Raise EmptySecret
       end)) w (fun w' r => w' = w /\ r = Ok (Some (key, sid), key))) as Hf.
    { apply wp_await. intros dv ->. cbn [deliver perform signin_service effect fst snd]. rewrite Hsec. cbn.
      destruct (String.eqb_spec key ""); [done|]. by split. }
    destruct cache as [[k for_]|]; [|done]. destruct (String.eqb_spec for_ sid) as [->|]; [by destruct (Hno k)|done].
Qed.

(** At rest, with every message delivered, a redeemable answer of an eligible
    user is accepted and its row is gone. *)
Lemma wp_accepts enrollment cache key form rowKey row nowMs w :
  parseEnrollment (env RuntimeEnv.ENROLLMENT) = Some enrollment ->
  is_Some (env_value env RuntimeEnv.TOKEN_TABLE_NAME) ->
  key_resolves cache w key -> redeemable w key form rowKey row nowMs -> still_eligible enrollment w ->
  wp (fun t => t = nowMs) (fun dv => dv = Delivered) (verifyAuthChallengeResponse env cache ev) w
    (fun w' r => tokens w' = delete rowKey (tokens w) /\ exists c, r = Ok (c, true)).
Proof.
  intros Hen [tbl Htbl] Hkey (Hqt & Hs & (submitted & Ha & Hc & Hcmp & Hcode) & Hk & Hrow & (email & He & Hene & Hkne & Hm) & e & Hexp & Hlt) Hel.
  destruct (key_resolves_run cache w key nowMs Hkey) as (c & Hres).
  unfold verifyAuthChallengeResponse. rewrite Hen. apply wp_attempt. revert Hres. apply wp_weaken. intros w' r [-> ->].
  rewrite Hqt, Hs, Ha. pose proof (classify_length _ _ Hc) as [Hl1 Hl2].
  destruct (Nat.eqb_spec (String.length submitted) 0); [lia|].
  destruct (Nat.ltb_spec MAX_ANSWER_LENGTH (String.length submitted)); [lia|]. rewrite Hc.
  unfold redeem. cbv zeta. fold (session_hash form). rewrite Hcmp, Hk, Htbl. cbn [negb].
  intros dv ->. cbn [deliver perform signin_service effect fst snd]. rewrite Hrow.
  unfold check_row. rewrite He.
  assert (match form with token_form => false
    | code_form => negb (constantTimeHashEqual (row_code_hash row) (Some (sha256Hex submitted))) end = false) as ->
    by (destruct form; [done|]; by rewrite Hcode).
  destruct (String.eqb_spec key ""); [done|]. destruct (String.eqb_spec email ""); [done|]. cbn [orb]. cbv zeta.
  rewrite Hm, Hexp. intros t ->. destruct (Z.leb_spec (e * 1000) nowMs); [lia|].
  intros dv ->. cbn [deliver perform signin_service effect fst snd]. rewrite Hrow.
  unfold recheck. destruct enrollment; [|cbn; split; [done|by exists c]].
  apply wp_await. intros dv ->. cbn [deliver perform signin_service effect fst snd users set_tokens].
  destruct (Hel eq_refl) as (k0 & u & Hu & Hen' & Hver). rewrite Hu, Hen', Hver. cbn. split; [done|by exists c].
Qed.
End redemption.

(** Also (signin_fails_closed, signin_mail_only_to_eligible): whatever messages
    are lost and whatever the clock, creating a challenge throws only the
    generic deployment error, which depends on the environment and not on the
    caller; otherwise every caller gets the same public parameters, at most one
    mail leaves, and it leaves only when the address normalises, the HMAC key is
    the current one, the user is enabled and verified (admin-only mode), is not
    quarantined, the address is not denylisted, and the token's row, with
    digests and the expiry of the configured lifetime, was stored fresh. The
    challenge is answerable only when the mail was sent. *)
Theorem create_fails_closed `{Digests} (env : process_env) (cache : key_cache) (ev : CreateEvent) (d : Drawn)
    (clock : nat -> Z * delivery) (w : World) :
  let '(w', r) := run (createAuthChallenge env d cache ev) clock 0 w in
  match r with
  | Throw e => e = AuthenticationFailed /\ create_config env = None /\ tokens w' = tokens w /\ mails w' = mails w
  | Ok (_, resp) =>
      exists cfg, create_config env = Some cfg /\
        challenged env cache ev d cfg (fun t => exists i, fst (clock i) = t) w w' resp
  end.
Proof.
  pose proof (wp_run (fun t => exists i, fst (clock i) = t) (fun _ => True) (createAuthChallenge env d cache ev)
    clock _ 0%nat w (fun i => conj (ex_intro _ i eq_refl) I) (wp_create env cache ev d _ _ w)) as Hrun.
  by destruct (run _ clock 0 w) as [w' [[c resp]|e]].
Qed.

Lemma constantTimeHashEqual_refl `{Digests} s :
  constantTimeHashEqual (Some (sha256Hex s)) (Some (sha256Hex s)) = true.
Proof.
  unfold constantTimeHashEqual. change (default "" (Some (sha256Hex s))) with (sha256Hex s).
  rewrite sha256_bytes. cbn. by apply bool_decide_eq_true.
Qed.

Lemma email_matches_refl `{Digests} email key : email_matches (hmacEmail email key) (hmacEmail email key) = Ok true.
Proof.
  unfold email_matches, hmacEmail. pose proof (hmac_bytes key (toLowerCase email)) as Hb.
  rewrite Nat.eqb_refl, orb_false_r, orb_diag. destruct (Nat.eqb_spec (String.length (hmac_sha256_hex key (toLowerCase email))) 0) as [E|].
  { destruct (hmac_sha256_hex _ _); [done|discriminate E]. }
  rewrite Nat.eqb_refl. cbn. by rewrite bool_decide_eq_true_2.
Qed.

(** C2 (VerifyAuthChallengeResponse): whatever messages are lost, an answer is
    accepted only if its session is neither quarantined nor already failed, the
    digest of the answer is the session's own, the row of the session's token
    exists, names the session's address under the current key and has not
    expired, and the user is eligible now; the row is then gone. A row is
    touched by no other answer: one that fails the comparison, belongs to
    another session, or comes late consumes nothing. With every message
    delivered those conditions are also enough. *)
Theorem redeem_spec `{Digests} (env : process_env) (cache : key_cache) (ev : VerifyEvent) (enrollment : Enrollment)
    (clock : nat -> Z * delivery) (w : World) :
  parseEnrollment (env RuntimeEnv.ENROLLMENT) = Some enrollment ->
  let '(w', r) := run (verifyAuthChallengeResponse env cache ev) clock 0 w in
  redeemed env ev enrollment cache (fun t => exists i, fst (clock i) = t) w w' r /\
  (forall key form rowKey row nowMs, (forall i, clock i = (nowMs, Delivered)) ->
     is_Some (env_value env RuntimeEnv.TOKEN_TABLE_NAME) -> key_resolves env cache w key ->
     redeemable ev w key form rowKey row nowMs -> still_eligible ev enrollment w ->
     tokens w' = delete rowKey (tokens w) /\ exists c, r = Ok (c, true)).
Proof.
  intros Hen.
  pose proof (wp_run (fun t => exists i, fst (clock i) = t) (fun _ => True) (verifyAuthChallengeResponse env cache ev)
    clock _ 0%nat w (fun i => conj (ex_intro _ i eq_refl) I) (wp_verify env ev _ _ enrollment cache w Hen)) as Hrun.
  assert (forall key form rowKey row nowMs, (forall i, clock i = (nowMs, Delivered)) ->
     is_Some (env_value env RuntimeEnv.TOKEN_TABLE_NAME) -> key_resolves env cache w key ->
     redeemable ev w key form rowKey row nowMs -> still_eligible ev enrollment w ->
     let '(w', r) := run (verifyAuthChallengeResponse env cache ev) clock 0 w in
     tokens w' = delete rowKey (tokens w) /\ exists c, r = Ok (c, true)) as Hacc.
  { intros key form rowKey row nowMs Hclock Ht Hk Hr He.
    apply (wp_run (fun t => t = nowMs) (fun dv => dv = Delivered)); [intros i; by rewrite Hclock|].
    by eapply wp_accepts. }
  destruct (run _ clock 0 w) as [w' r]. by split.
Qed.

(** C3 (sign-in round trip): a challenge that was mailed is redeemed by the
    mailed link and by the mailed code alike, until its lifetime ends, as long
    as its row is still there and the user still eligible; the session then
    gets its tokens, and neither the link nor the code works again. *)
Theorem sign_in_round_trip `{Digests} (env : process_env) (cache cache2 : key_cache) (ev : CreateEvent) (d : Drawn)
    (clock : nat -> Z * delivery) (w w1 : World) (c1 : key_cache) (resp : CreateResponse) (email K : string)
    (cfg : CreateConfig) (ve : VerifyEvent) (form : AnswerForm) (now2 : Z) (w2 : World) :
  run (createAuthChallenge env d cache ev) clock 0 w = (w1, Ok (c1, resp)) -> answerable d resp email ->
  create_config env = Some cfg ->
  (forall k, current_key env cache w k -> k = K) -> key_resolves env cache2 w2 K ->
  tokens w2 !! sha256Hex (d_token d) = tokens w1 !! sha256Hex (d_token d) ->
  v_private ve = privateChallengeParameters resp -> existsb failed_round (v_session ve) = false ->
  challengeAnswer ve = Some (match form with token_form => d_token d | code_form => d_code d end) ->
  classifyAnswer (match form with token_form => d_token d | code_form => d_code d end) = Some form ->
  still_eligible ve (cfg_enrollment cfg) w2 -> email <> "" ->
  (forall i, now2 < (fst (clock i) / 1000 + cfg_ttlMinutes cfg * 60) * 1000) ->
  exists w3 c3, run (verifyAuthChallengeResponse env cache2 ve) (delivered (fun _ => now2)) 0 w2 = (w3, Ok (c3, true)) /\
    tokens w3 = delete (sha256Hex (d_token d)) (tokens w2) /\
    issueTokens (defineAuthChallenge
      (Some [Some {| challengeName := Some "CUSTOM_CHALLENGE"; challengeResult := Some true |}])) = true /\
    forall ve' cache' clock' c, p_token_hash (v_private ve') = Some (sha256Hex (d_token d)) ->
      snd (run (verifyAuthChallengeResponse env cache' ve') clock' 0 w3) <> Ok (c, true).
Proof.
  intros Hrun Hans Hcfg HK Hkey Hrow Hpriv Hs Ha Hc Hel Hene Hexp.
  destruct (create_config_facts env cfg Hcfg) as (Hen & Htbl & _).
  pose proof (create_fails_closed env cache ev d clock w) as Hcr. rewrite Hrun in Hcr.
  destruct Hcr as (cfg' & Hcfg' & _ & _ & _ & _ & Hor). rewrite Hcfg in Hcfg'. injection Hcfg' as <-.
  unfold answerable in Hans. destruct Hor as [[Hun _]|Hor]; [unfold unanswerable in Hun; by rewrite Hans in Hun|].
  destruct Hor as (email' & key & nowMs & [i Hi] & Hmay & Hfresh & Htok & Hor).
  destruct Hor as [[Hun _]|[Hans' _]]; [unfold unanswerable in Hun; by rewrite Hans in Hun|].
  unfold answerable in Hans'. rewrite Hans in Hans'. injection Hans' as <-.
  assert (key = K) as -> by (apply HK; by destruct Hmay as (_ & _ & ? & _)).
  rewrite Htok, lookup_insert_eq in Hrow. rewrite Hans in Hpriv.
  set (h := sha256Hex (d_token d)) in *. set (row := token_row d cfg K email nowMs) in *.
  assert (redeemable ve w2 K form h row now2) as Hr.
  { unfold redeemable, session_hash. rewrite Hpriv. cbn [p_quarantined p_token_hash p_code_hash p_email].
    split; [done|]. split; [done|]. split.
    { eexists. split; [exact Ha|]. split; [exact Hc|].
      destruct form; (split; [apply constantTimeHashEqual_refl|]); [done|]. intros _. apply constantTimeHashEqual_refl. }
    split; [done|]. split; [done|]. split; [|eexists; split; [reflexivity|by rewrite <- Hi; apply Hexp]].
    exists email. split; [done|]. split; [done|]. split; [apply Hkey|]. apply email_matches_refl. }
  pose proof (redeem_spec env cache2 ve (cfg_enrollment cfg) (delivered (fun _ => now2)) w2 Hen) as Hred.
  destruct (run (verifyAuthChallengeResponse env cache2 ve) _ 0 w2) as [w3 r].
  destruct Hred as [_ Hacc]. destruct (Hacc K form h row now2) as [Hw3 [c3 ->]]; try done.
  exists w3, c3. split; [done|]. split; [done|]. split; [done|].
  intros ve' cache' clock' c Hk E.
  pose proof (redeem_spec env cache' ve' (cfg_enrollment cfg) clock' w3 Hen) as Hred.
  destruct (run _ clock' 0 w3) as [w4 r4]. cbn [snd] in E. subst r4.
  destruct Hred as [(_ & _ & _ & [[Hno _]|(key' & form' & rowKey & row' & now' & _ & Hr' & _)]) _]; [by destruct (Hno c)|].
  destruct Hr' as (_ & _ & _ & Hk' & Hrow' & _). rewrite Hk in Hk'. injection Hk' as <-.
  by rewrite Hw3, lookup_delete_eq in Hrow'.
Qed.

(** ** A deployment to evaluate on *)

Definition example_env : process_env := fun name =>
  let table := [(RuntimeEnv.TOKEN_TABLE_NAME, "tokens"); (RuntimeEnv.RATE_LIMIT_TABLE_NAME, "rate");
                (RuntimeEnv.DENYLIST_TABLE_NAME, "deny"); (RuntimeEnv.SES_FROM, "no-reply@example.com");
                (RuntimeEnv.DOMAIN, "app.example.com"); (RuntimeEnv.BOUNCE_HMAC_SECRET, "arn:secret")] in
  snd <$> find (fun kv => String.eqb (fst kv) name) table.

Definition ana : PoolUser :=
  {| Enabled := Some true; UserAttributes := [("email", Some "ana@example.com"); ("email_verified", Some "true")] |}.

Definition example_world : World :=
  {| tokens := ∅; counters := ∅; denylist := Some ∅; users := {[ "u-1" := ana ]};
     secrets := {[ "arn:secret" := Some "pepper" ]}; mails := []; log := [] |}.

Definition example_drawn : Drawn :=
  {| d_token := "0123456789012345678901234567890123456789abc"; d_code := "00004711"; d_decoy := "decoy" |}.

Definition ana_asks : CreateEvent :=
  {| c_userPoolId := "pool"; c_userName := "u-1"; userAttributes := [("email", Some "Ana@Example.com")] |}.

(** Ana opens her link, or types her code, 9 minutes later. *)
Definition ana_answers (resp : CreateResponse) (answer : string) : VerifyEvent :=
  {| v_userPoolId := "pool"; v_userName := "u-1"; v_private := privateChallengeParameters resp;
     challengeAnswer := Some answer; v_session := [] |}.

Definition example_asked : World * result signin_error (key_cache * CreateResponse) :=
  run (createAuthChallenge example_env example_drawn None ana_asks) (delivered (fun _ => 1000000)) 0 example_world.

Definition example_challenge : CreateResponse :=
  match snd example_asked with
  | Ok (_, resp) => resp
  | Throw _ => {| publicChallengeParameters := []; challengeMetadata := "";
                  privateChallengeParameters := {| p_email := None; p_token_hash := None; p_code_hash := None; p_quarantined := None |} |}
  end.

Example sign_in_example :
  map ToAddress (mails (fst example_asked)) = ["ana@example.com"] /\
  p_quarantined (privateChallengeParameters example_challenge) = Some "false" /\
  snd (run (verifyAuthChallengeResponse example_env None (ana_answers example_challenge "00004712"))
         (delivered (fun _ => 1540000)) 0 (fst example_asked)) = Ok (Some ("pepper", "arn:secret"), false) /\
  (** an unknown caller gets the same public answer, and no mail *)
  let phantom := {| c_userPoolId := "pool"; c_userName := "u-9"; userAttributes := [] |} in
  let asked := run (createAuthChallenge example_env example_drawn None phantom) (delivered (fun _ => 1000000)) 0 example_world in
  mails (fst asked) = [] /\
  result_map (fun x => publicChallengeParameters (snd x)) (snd asked) = Ok (publicChallengeParameters example_challenge).
Proof. vm_compute. repeat split. Qed.

Lemma redeem_spec_witness :
  let ve := ana_answers example_challenge "00004711" in
  let '(w', r) := run (verifyAuthChallengeResponse example_env None ve) (delivered (fun _ => 1540000)) 0 (fst example_asked) in
  redeemed example_env ve admin_only None (fun t => exists i : nat, 1540000 = t) (fst example_asked) w' r /\
  exists c, r = Ok (c, true).
Proof.
  intros ve.
  pose proof (redeem_spec example_env None ve admin_only (delivered (fun _ => 1540000)) (fst example_asked) eq_refl) as Hr.
  destruct (run _ _ 0 _) as [w' r] eqn:E. split; [apply Hr|].
  vm_compute in E. injection E as _ <-. by eexists.
Defined.

Lemma sign_in_round_trip_witness :
  exists w3 c3,
    run (verifyAuthChallengeResponse example_env (Some ("pepper", "arn:secret")) (ana_answers example_challenge "00004711"))
      (delivered (fun _ => 1540000)) 0 (fst example_asked) = (w3, Ok (c3, true)) /\
    tokens w3 = delete (sha256Hex (d_token example_drawn)) (tokens (fst example_asked)).
Proof.
  destruct example_asked as [w1 r1] eqn:Easked. unfold example_challenge.
  assert (exists c resp cfg, r1 = Ok (c, resp) /\ create_config example_env = Some cfg /\
    answerable example_drawn resp "ana@example.com" /\ cfg_enrollment cfg = admin_only /\ cfg_ttlMinutes cfg = 10 /\
    users w1 = users example_world) as (c & resp & cfg & -> & Hcfg & Hans & Hen & Httl & Hu).
  { vm_compute in Easked. injection Easked as <- <-. do 3 eexists.
    split; [reflexivity|]. split; [vm_compute; reflexivity|]. by repeat split. }
  rewrite Easked. cbn [snd].
  destruct (sign_in_round_trip example_env None (Some ("pepper", "arn:secret")) ana_asks example_drawn
    (delivered (fun _ => 1000000)) example_world w1 c resp "ana@example.com" "pepper" cfg
    (ana_answers resp "00004711") code_form 1540000 w1) as (w3 & c3 & Hrun & Htok & _).
  - exact Easked.
  - exact Hans.
  - exact Hcfg.
  - intros k (sid & Hsid & Hk). injection Hsid as <-. destruct Hk as [Hk|Hk]; [done|]. by injection Hk.
  - split; [done|]. exists "arn:secret". by split; [|left].
  - reflexivity.
  - reflexivity.
  - reflexivity.
  - reflexivity.
  - vm_compute. reflexivity.
  - intros _. exists "u-1", ana. rewrite Hu. by repeat split.
  - done.
  - intros i. cbn [fst delivered]. rewrite Httl. vm_compute. reflexivity.
  - exists w3, c3. exact (conj Hrun Htok).
Defined.
