(* ===== verification/MagicLinkRace.v ===== *)
(** Interleaved sign-in triggers: any number of challenge creations and
    redemptions run against the same tables, one message at a time, with
    requests and replies lost at will. *)

From stdpp Require Import pretty.
From S2P Require Import Prelude JsString JsDate Prog SignIn MagicLink.
From Stdlib Require Import Ascii.

#[local] Open Scope string_scope.
#[local] Open Scope Z_scope.

(** An invocation of a trigger, in a container with its own cached key. *)
Inductive trigger :=
| Create (d : Drawn) (cache : key_cache) (ev : CreateEvent)
| Verify (cache : key_cache) (ev : VerifyEvent).

Inductive outcome :=
| Challenged (resp : CreateResponse)
| Answered (token_hash : option string) (answerCorrect : bool).

Definition trigger_prog `{Digests} (env : process_env) (t : trigger) : prog outcome :=
  match t with
  | Create d cache ev => await (createAuthChallenge env d cache ev) (fun x => Ret (Challenged (snd x)))
  | Verify cache ev =>
      await (verifyAuthChallengeResponse env cache ev) (fun x => Ret (Answered (p_token_hash (v_private ev)) (snd x)))
  end.

(** ** Programs that leave a balance alone *)

Section neutral.
Context (T : Z -> Prop) (allowed : forall X, cmd X -> Prop) (replies : forall X, cmd X -> result cmd_error X -> Prop).
Context (gain : forall X, cmd X -> result cmd_error X -> Z).

Definition neutral {X} (c : cmd X) : Prop := allowed X c /\ forall r, gain X c r = 0.

Lemma budget_send {E A X} (c : cmd X) (k : result cmd_error X -> Prog.prog cmd cmd_error E event A) Q b :
  0 <= b -> neutral c ->
  (forall r, replies X c r -> budget T allowed replies gain Q b (k r)) ->
  budget T allowed replies gain Q b (Send c k).
Proof.
  intros Hb [Ha Hg] Hk. split; [done|]. split; [done|]. intros r Hr. rewrite Hg, Z.add_0_r. by apply Hk.
Qed.

Lemma budget_resolve env cache Q b :
  0 <= b -> (forall i, neutral (GetSecretValue i)) ->
  (forall cache' key,
     env_value env RuntimeEnv.BOUNCE_HMAC_SECRET = None /\ key = "" \/
     (exists i, env_value env RuntimeEnv.BOUNCE_HMAC_SECRET = Some i /\
        (cache = Some (key, i) \/ replies _ (GetSecretValue i) (Ok (Some key)))) ->
     Q b (Ok (cache', key))) ->
  (forall e, Q b (Throw e)) ->
  budget T allowed replies gain Q b (resolveEmailHmacKeyFromEnv env cache).
Proof.
  intros Hb Hn Hok Herr. unfold resolveEmailHmacKeyFromEnv.
  destruct (env_value env _) as [i|] eqn:Ei; [|apply Hok; by left].
  assert (budget T allowed replies gain Q b
    (await (send (GetSecretValue i)) (fun value =>
       match value with
       | Some v => if String.eqb v "" then Raise EmptySecret else Ret (Some (v, i), v)
       | None => Raise EmptySecret
       end))) as Hf.
  { apply budget_await, budget_send; [done|done|]. intros [[v|]|e] Hr; cbn; [|done|done].
    destruct (String.eqb v ""); [apply Herr|]. apply Hok. right. exists i. by split; [|right]. }
  destruct cache as [[key for_]|]; [|done].
  destruct (String.eqb_spec for_ i) as [->|]; [|done]. apply Hok. right. exists i. by split; [|left].
Qed.

Lemma budget_withFloor {A} floor (p : prog A) Q b :
  0 <= b -> budget T allowed replies gain (fun b' r => 0 <= b' /\ Q b' r) b p ->
  budget T allowed replies gain Q b (withFloor floor p).
Proof.
  intros Hb Hp. split; [done|]. intros start _. apply budget_attempt. revert Hp. apply budget_weaken.
  intros b' r [Hb' HQ]. split; [done|]. intros t _.
  cbv zeta. destruct (0 <? floor - (t - start)); [split; [done|]|]; destruct r; exact HQ.
Qed.

Lemma budget_settle {A B} (p : prog A) (k : option A -> prog B) Q b :
  budget T allowed replies gain
    (fun b' r => budget T allowed replies gain Q b' (k (match r with Ok a => Some a | Throw _ => None end))) b p ->
  budget T allowed replies gain Q b (settle p k).
Proof. apply budget_attempt. Qed.

Lemma budget_eligibility env cfg ev {B} (k : _ -> prog B) Q b :
  0 <= b -> (forall p u, neutral (AdminGetUser p u)) ->
  (forall e, budget T allowed replies gain Q b (k e)) ->
  budget T allowed replies gain Q b (read_eligibility env cfg ev k).
Proof.
  intros Hb Hn Hk. unfold read_eligibility. destruct (cfg_enrollment cfg); [|done].
  apply budget_await, budget_send; [done|done|]. intros r _. cbn. apply Hk.
Qed.

Lemma budget_unanswerable `{Digests} reason email code d Q b :
  0 <= b -> (forall resp, p_quarantined (privateChallengeParameters resp) = Some "true" -> Q b (Ok resp)) ->
  budget T allowed replies gain Q b (unanswerableChallenge reason email code d).
Proof. intros Hb HQ. split; [done|]. split; [done|]. by apply HQ. Qed.

(** A key the resolution may return. *)
Definition key_from env (cache : key_cache) (key : string) : Prop :=
  key <> "" /\ exists i, env_value env RuntimeEnv.BOUNCE_HMAC_SECRET = Some i /\
    (cache = Some (key, i) \/ replies _ (GetSecretValue i) (Ok (Some key))).

(** Creating a challenge, given what the two caps credit ([g1], [g2]) and what
    sending the mail costs. *)
Section create.
Context `{Digests} (env : process_env) (d : Drawn) (ev : CreateEvent) (b0 g1 g2 : Z).
Context (Hb : 0 <= b0) (Hg1 : 0 <= g1) (Hg2 : 0 <= g2).
Context (Hsec : forall i, neutral (GetSecretValue i)) (Hdeny : forall x, neutral (GetDenylistItem x)).
Context (Hadm : forall p u, neutral (AdminGetUser p u)).
#[local] Notation who := (default (c_userName ev) (recipient ev)).

(** The balance a permission of a cap leaves. *)
Definition credited (b g : Z) {E} (b' : Z) (r : result E bool) : Prop :=
  b <= b' /\ (r = Ok true -> b + g <= b').

Lemma budget_challenge cfg nowMs key (Q : Z -> result signin_error CreateResponse -> Prop) :
  (forall k b, key = Some k -> b0 <= b ->
     budget T allowed replies gain (credited b g1) b (tryConsumeRateLimit who k (cfg_sendsPerWindow cfg) nowMs)) ->
  (forall k b, key = Some k -> b0 <= b ->
     budget T allowed replies gain (credited b g2) b (tryConsumeDailyCap who k (cfg_sendsPerDay cfg) nowMs)) ->
  (forall email k b, key = Some k -> recipient ev = Some email -> b0 + g1 + g2 <= b ->
     budget T allowed replies gain Q b (issue_mail cfg email k nowMs d)) ->
  (forall b resp, 0 <= b -> p_quarantined (privateChallengeParameters resp) = Some "true" -> Q b (Ok resp)) ->
  budget T allowed replies gain Q b0 (challenge env cfg ev nowMs d key).
Proof.
  intros Hcap Hday Hissue Hun. unfold challenge.
  assert (forall b deny cap day elig, b0 <= b ->
    (cap = Some true -> day = Some true -> b0 + g1 + g2 <= b) ->
    budget T allowed replies gain Q b (decide_challenge cfg ev nowMs d key deny cap day elig)) as Hdec.
  { intros b deny cap day elig Hb' Hboth. unfold decide_challenge.
    assert (budget T allowed replies gain Q b (unanswerableChallenge (default dependency_error
      (suppression (bool_decide (recipient ev = None)) elig (attr (userAttributes ev) "custom:email_quarantined")
        key deny cap day)) who (d_code d) d)) as Hno
      by (apply budget_unanswerable; [lia|]; intros resp; apply Hun; lia).
    destruct (suppression _ _ _ _ _ _ _) as [r|] eqn:Es; [done|].
    destruct (recipient ev) as [email|] eqn:Er; [|done]. destruct key as [k|]; [|done].
    apply suppression_None in Es as (_ & _ & _ & _ & _ & Hc & Hd). apply Hissue; [done|done|by apply Hboth]. }
  assert (forall b deny cap day, b0 <= b -> (cap = Some true -> day = Some true -> b0 + g1 + g2 <= b) ->
    budget T allowed replies gain Q b (read_eligibility env cfg ev (decide_challenge cfg ev nowMs d key deny cap day)))
    as Helig by (intros; apply budget_eligibility; [lia|done|intros e; by apply Hdec]).
  destruct key as [k|]; unfold settle_with_key; [|by apply Helig].
  assert (forall b deny, b0 <= b -> budget T allowed replies gain Q b
    (settle (tryConsumeRateLimit who k (cfg_sendsPerWindow cfg) nowMs) (fun cap =>
      settle (tryConsumeDailyCap who k (cfg_sendsPerDay cfg) nowMs) (fun day =>
        read_eligibility env cfg ev (decide_challenge cfg ev nowMs d (Some k) deny cap day))))) as Hrest.
  { intros b deny Hb'. apply budget_settle. eapply budget_weaken; [|by apply Hcap].
    intros b1 r1 [Hb1 Hr1]. apply budget_settle. eapply budget_weaken; [|apply Hday; [done|lia]].
    intros b2 r2 [Hb2 Hr2]. apply Helig; [lia|].
    destruct r1 as [[]|], r2 as [[]|]; try done. intros _ _. specialize (Hr1 eq_refl). specialize (Hr2 eq_refl). lia. }
  apply budget_settle. unfold isDenylisted. destruct (cfg_denylistTable cfg); [|by apply Hrest].
  apply budget_send; [done|done|]. intros [b|e] _; [by apply Hrest|]. destruct e; by apply Hrest.
Qed.

Lemma budget_create cache (Q : Z -> result signin_error (key_cache * CreateResponse) -> Prop) :
  (forall cfg nowMs k b, create_config env = Some cfg -> T nowMs -> key_from env cache k -> b0 <= b ->
     budget T allowed replies gain (credited b g1) b (tryConsumeRateLimit who k (cfg_sendsPerWindow cfg) nowMs)) ->
  (forall cfg nowMs k b, create_config env = Some cfg -> T nowMs -> key_from env cache k -> b0 <= b ->
     budget T allowed replies gain (credited b g2) b (tryConsumeDailyCap who k (cfg_sendsPerDay cfg) nowMs)) ->
  (forall cfg nowMs email k b, create_config env = Some cfg -> T nowMs -> key_from env cache k ->
     recipient ev = Some email -> b0 + g1 + g2 <= b ->
     budget T allowed replies gain
       (fun b' r => 0 <= b' /\ forall c, Q b' (match r with Ok x => Ok (c, x) | Throw e => Throw e end)) b
       (issue_mail cfg email k nowMs d)) ->
  (forall b c resp, 0 <= b -> p_quarantined (privateChallengeParameters resp) = Some "true" -> Q b (Ok (c, resp))) ->
  (forall b, 0 <= b -> Q b (Throw AuthenticationFailed)) ->
  budget T allowed replies gain Q b0 (createAuthChallenge env d cache ev).
Proof.
  intros Hcap Hday Hissue Hun Herr.
  apply budget_withFloor; [done|]. unfold issue. destruct (create_config env) as [cfg|] eqn:Ecfg; [|by split; [|apply Herr]].
  split; [done|]. intros nowMs Hnow.
  assert (forall c key, (forall k, key = Some k -> key_from env cache k) ->
    budget T allowed replies gain (fun b' r => 0 <= b' /\ Q b' r) b0
      (await (challenge env cfg ev nowMs d key) (fun resp => Ret (c, resp)))) as Hch.
  { intros c key Hkey. apply budget_await. eapply budget_weaken; [|apply budget_challenge with
      (Q := fun b' r => 0 <= b' /\ forall c, Q b' (match r with Ok x => Ok (c, x) | Throw e => Throw e end))].
    - intros b' [x|e] [Hb' HQ]; cbn; [|by split; [|apply HQ]]. split; [done|apply HQ].
    - intros k b Hk. apply Hcap; [done|done|by apply Hkey].
    - intros k b Hk. apply Hday; [done|done|by apply Hkey].
    - intros email k b Hk. apply Hissue; [done|done|by apply Hkey].
    - intros b resp Hb' Hq. split; [done|]. intros c'. by apply Hun. }
  apply budget_await, budget_attempt. apply budget_resolve; [done|done| |].
  - intros c key Hk. cbn. apply Hch. destruct (String.eqb_spec key ""); [done|].
    intros k [= <-]. split; [done|]. destruct Hk as [[_ Hk]|Hk]; [by subst|done].
  - intros e. by apply (Hch cache None).
Qed.
End create.
(** A redemption: only its deletion matters. *)
Section verify.
Context `{Digests} (env : process_env) (ev : VerifyEvent) (b0 : Z).
Context (Q : Z -> result signin_error (key_cache * bool) -> Prop).
Context (Hb0 : 0 <= b0) (Hfail : forall b c, 0 <= b -> Q b (Ok (c, false))) (Herr : forall b e, 0 <= b -> Q b (Throw e)).
Context (Hsec : forall i, neutral (GetSecretValue i)) (Hget : forall x, neutral (GetToken x)).
Context (Hadm : forall p u, neutral (AdminGetUser p u)).
Context (Hdel : forall h, p_token_hash (v_private ev) = Some h -> allowed _ (DeleteToken h) /\
  forall r, 0 <= b0 + gain _ (DeleteToken h) r /\ (r = Ok tt -> forall c, Q (b0 + gain _ (DeleteToken h) r) (Ok (c, true)))).

Lemma budget_fail b c reason : 0 <= b -> budget T allowed replies gain Q b (fail c reason).
Proof. intros Hb. split; [done|]. by apply Hfail. Qed.

Lemma budget_consume enrollment cache rowKey :
  p_token_hash (v_private ev) = Some rowKey ->
  budget T allowed replies gain Q b0 (consume env enrollment cache ev rowKey).
Proof.
  intros Hk. destruct (Hdel _ Hk) as [Ha Hr]. split; [done|]. split; [done|].
  intros r _. destruct (Hr r) as [Hb Ht]. destruct r as [[]|e]; [|destruct e; by apply budget_fail].
  specialize (Ht eq_refl). unfold recheck. destruct enrollment; [|split; [done|apply Ht]].
  apply budget_await, budget_send; [done|done|]. intros r _. cbn [budget].
  destruct (match r with Ok u => _ | Throw _ => _ end) as [value|]; [|by apply budget_fail].
  destruct (eligible value); [split; [done|apply Ht]|by apply budget_fail].
Qed.

Lemma budget_check_row enrollment key cache form hash rowKey row :
  p_token_hash (v_private ev) = Some rowKey ->
  budget T allowed replies gain Q b0 (check_row env enrollment key cache ev form hash rowKey row).
Proof.
  intros Hk. unfold check_row.
  destruct (match form with token_form => _ | code_form => _ end); [by apply budget_fail|]. cbv zeta.
  destruct (email_matches _ _) as [[]|]; [|by apply budget_fail|by apply Herr].
  split; [done|]. intros nowMs _. destruct (row_expires_at row) as [e|]; [|by apply budget_fail].
  destruct (_ <=? _); [by apply budget_fail|by apply budget_consume].
Qed.

Lemma budget_verify cache : budget T allowed replies gain Q b0 (verifyAuthChallengeResponse env cache ev).
Proof.
  unfold verifyAuthChallengeResponse. destruct (parseEnrollment _) as [enrollment|]; [|by apply Herr].
  apply budget_attempt, budget_resolve; [done|done| |intros e; by apply budget_fail].
  intros c key _. destruct (is_true _); [by apply budget_fail|]. destruct (existsb _ _); [by apply budget_fail|].
  destruct (challengeAnswer ev) as [s|]; [|by apply budget_fail].
  destruct (_ =? _)%nat; [by apply budget_fail|]. destruct (_ <? _)%nat; [by apply budget_fail|].
  destruct (classifyAnswer s) as [form|]; [|by apply budget_fail].
  unfold redeem. cbv zeta. destruct (negb _); [by apply budget_fail|].
  case_eq (p_token_hash (v_private ev)); [intros rowKey Ek|intros _; by apply budget_fail].
  destruct (env_value _ _); [|by apply Herr].
  apply budget_send; [done|done|].
  intros [[row|]|e] _; [by apply budget_check_row|by apply budget_fail|by apply budget_fail].
Qed.
End verify.
End neutral.

(** ** A token is redeemed at most once *)

Section single_use.
Context `{Digests} (env : process_env) (h : string).

Definition token_gain {X} (c : cmd X) (r : result cmd_error X) : Z :=
  match c with
  | PutToken h' _ => if String.eqb h' h then -1 else 0
  | DeleteToken h' => if String.eqb h' h && is_ok r then 1 else 0
  | _ => 0
  end.

Definition stored (w : World) : Z := match tokens w !! h with Some _ => 1 | None => 0 end.

Definition redemption (o : outcome) : Z :=
  match o with
  | Answered (Some h') true => if String.eqb h' h then 1 else 0
  | _ => 0
  end.

(** The creations that would store a row under [h]. *)
Definition issues (t : trigger) : Z :=
  match t with Create d _ _ => if String.eqb (sha256Hex (d_token d)) h then 1 else 0 | Verify _ _ => 0 end.

#[local] Notation budget_h :=
  (budget (fun _ => True) (fun X (_ : cmd X) => True) (fun X (_ : cmd X) _ => True) (fun X => @token_gain X)).

Lemma token_neutral {X} (c : cmd X) :
  (forall r, token_gain c r = 0) -> neutral (fun X (_ : cmd X) => True) (fun X => @token_gain X) c.
Proof. by split. Qed.

Lemma issue_mail_tokens cfg email key nowMs d b :
  issues (Create d None {| c_userPoolId := ""; c_userName := ""; userAttributes := [] |}) <= b ->
  budget_h (fun b' _ => 0 <= b') b (issue_mail cfg email key nowMs d).
Proof.
  intros Hb. cbn in Hb. unfold issue_mail, store_and_send, send, unanswerableChallenge. cbn.
  destruct (String.eqb _ h); (split; [lia|]); (split; [done|]); intros [[]|e] _; cbn;
    repeat (split; [lia || done|]); try lia.
  all: intros [[]|e] _; cbn; repeat (split; [lia|]); lia.
Qed.

Lemma create_tokens d cache ev :
  budget_h (fun b _ => 0 <= b) (issues (Create d cache ev)) (createAuthChallenge env d cache ev).
Proof.
  assert (0 <= issues (Create d cache ev)) as Hb by (cbn; destruct (String.eqb _ _); lia).
  apply (budget_create _ _ _ _ env d ev _ 0 0); try done; try (intros; by apply token_neutral).
  - intros cfg nowMs k b _ _ _ Hle. apply budget_send; [lia|by apply token_neutral|].
    intros [[]|[]] _; (split; [lia|]); lia.
  - intros cfg nowMs k b _ _ _ Hle. unfold tryConsumeDailyCap.
    destruct (utcDate nowMs); [|split; lia]. apply budget_send; [lia|by apply token_neutral|].
    intros [[]|[]] _; (split; [lia|]); lia.
  - intros cfg nowMs email k b _ _ _ _ Hle. eapply budget_weaken; [|apply issue_mail_tokens; cbn in *; lia].
    intros b' r Hb'. by split.
Qed.

(** A redemption that answers [true] has deleted the row of its own session. *)
Definition redeemed_own (ev : VerifyEvent) (b : Z) (r : result signin_error (key_cache * bool)) : Prop :=
  0 <= b /\
  match r with
  | Ok (_, true) => match p_token_hash (v_private ev) with
                    | Some h' => redemption (Answered (Some h') true) <= b
                    | None => True
                    end
  | _ => True
  end.

Lemma verify_tokens cache ev :
  budget_h (redeemed_own ev) 0 (verifyAuthChallengeResponse env cache ev).
Proof.
  apply budget_verify; try done; try (intros; by apply token_neutral).
  intros h' Hh. split; [done|]. intros r. cbn [token_gain].
  assert (0 <= 0 + (if String.eqb h' h && is_ok r then 1 else 0)) as Hb by (destruct (_ && _); lia).
  split; [done|]. intros -> c. split; [done|]. rewrite Hh. cbn. rewrite andb_true_r. lia.
Qed.

(** A stored row pays for its deletion, a creation for its row. *)
Lemma token_deliver dv w {X} (c : cmd X) :
  stored (fst (deliver dv w c)) + token_gain c (snd (deliver dv w c)) <= stored w.
Proof.
  assert (token_gain c (Throw Unavailable) <= 0) as Hl.
  { destruct c; cbn; rewrite ?andb_false_r; try lia. destruct (String.eqb _ _); lia. }
  assert (stored (fst (effect w c)) + token_gain c (snd (effect w c)) <= stored w /\
          stored (fst (effect w c)) + token_gain c (Throw Unavailable) <= stored w) as [He Hr].
  { assert (forall r, token_gain c r = 0 -> tokens (fst (effect w c)) = tokens w ->
      stored (fst (effect w c)) + token_gain c r <= stored w) as Hsame by (unfold stored; intros r -> ->; lia).
    destruct c; try (split; (apply Hsame; [done|cbn; repeat case_match; done])); unfold stored; cbn [effect token_gain is_ok].
    - destruct (tokens w !! token_hash) as [row0|] eqn:E; cbn [fst snd tokens set_tokens];
        destruct (String.eqb_spec token_hash h) as [->|]; rewrite ?E, ?lookup_insert_eq, ?lookup_insert_ne by done; split; lia.
    - destruct (tokens w !! token_hash) as [row0|] eqn:E; cbn [fst snd tokens set_tokens is_ok]; rewrite ?andb_false_r, ?andb_true_r;
        destruct (String.eqb_spec token_hash h) as [->|]; rewrite ?E, ?lookup_delete_eq, ?lookup_delete_ne by done;
        split; repeat case_match; lia. }
  destruct dv; cbn [deliver perform lost signin_service fst snd].
  - destruct (effect w c). exact He.
  - lia.
  - exact Hr.
Qed.

Lemma trigger_tokens t : budget_h (settles redemption) (issues t) (trigger_prog env t).
Proof.
  destruct t as [d cache ev|cache ev]; apply budget_await.
  - eapply budget_weaken; [|apply create_tokens]. intros b [x|e] Hb; [by split|done].
  - eapply budget_weaken; [|apply verify_tokens]. intros b [[c ok]|e] [Hb Hr]; [|done].
    split; [done|]. cbn [snd]. destruct ok; [|by destruct (p_token_hash _)].
    destruct (p_token_hash _); [done|]. cbn. lia.
Qed.
End single_use.

(** The redemptions of [h] among finished invocations. *)
Definition redemptions (h : string) (ps : list (prog outcome)) : Z := sumZ (map (claimed (redemption h)) ps).

(** C1 (link_single_use): a mailed link and its code redeem at most once.
    Whatever invocations of the two triggers interleave, whichever requests are
    lost before the table has them and whichever replies after it, and whatever
    was stored before: the redemptions that answer [true] for a token hash number
    at most the row stored at the start plus the creations whose token has that
    hash. With fresh random tokens that is one. A message that arrives is applied
    once: deliveries that the network repeats are not modelled. *)
Theorem link_single_use `{Digests} (env : process_env) (h : string) (ts : list trigger)
    (sched : list (nat * (Z * delivery))) (w : World) :
  let '(w', ps) := run_steps sched w (map (trigger_prog env) ts) in
  redemptions h ps + stored h w' <= stored h w + sumZ (map (issues h) ts).
Proof.
  pose proof (run_steps_potential (fun _ => True) (fun _ => True) (stored h)
    (fun X (_ : cmd X) => True) (fun X (_ : cmd X) _ => True) (fun X => @token_gain h X) (redemption h)
    sched w (map (trigger_prog env) ts) (map (issues h) ts)) as Hp.
  destruct (run_steps sched w _) as [w' ps]. enough (sumZ (map (claimed (redemption h)) ps) + stored h w'
    <= sumZ (map (issues h) ts) + stored h w) by (unfold redemptions; lia).
  apply Hp; [| | |by apply Forall_forall|done].
  - intros X u c dv _ _. pose proof (token_deliver h dv u c) as Hd. by destruct (deliver dv u c).
  - intros u e _. split; [done|]. unfold stored. cbn. lia.
  - apply Forall2_fmap_l, Forall2_fmap_r, Forall_Forall2_diag, Forall_forall. intros t _. apply trigger_tokens.
Qed.

(** ** The caps on mails *)

Definition mails_to (e : string) (w : World) : Z :=
  Z.of_nat (length (filter (fun m => ToAddress m = e) (mails w))).

Definition invocation_who (t : trigger) : option string :=
  match t with Create _ _ ev => Some (default (c_userName ev) (recipient ev)) | Verify _ _ => None end.

(** Every container that has cached a key under [sid] has cached [K]. *)
Definition caches_agree (sid K : string) (t : trigger) : Prop :=
  match t with Create _ cache _ | Verify cache _ => forall k, cache = Some (k, sid) -> k = K end.

Section mail_cap.
Context `{Digests} (env : process_env) (cfg : CreateConfig) (sid K e B : string) (L n0 : Z) (T : Z -> Prop).
Context (Hcfg : create_config env = Some cfg) (Hsid : env_value env RuntimeEnv.BOUNCE_HMAC_SECRET = Some sid).

Definition mail_gain {X} (c : cmd X) (r : result cmd_error X) : Z :=
  match c with
  | UpdateCounter b _ _ _ => if String.eqb b B && is_ok r then 1 else 0
  | SendEmail m => if String.eqb (ToAddress m) e then -1 else 0
  | _ => 0
  end.

Definition capped {X} (c : cmd X) : Prop :=
  match c with UpdateCounter b limit _ _ => b = B -> limit = Some L | _ => True end.

Definition key_replies {X} (c : cmd X) (r : result cmd_error X) : Prop :=
  match c in cmd X return result cmd_error X -> Prop with
  | GetSecretValue i => fun r => i = sid -> forall v, r = Ok (Some v) -> v = K
  | _ => fun _ => True
  end r.

Definition cap_inv (w : World) : Prop :=
  secrets w !! sid = Some (Some K) /\ counter_count (counters w !! B) <= Z.max (Z.max L 1) n0.

Definition unpaid (w : World) : Z := mails_to e w - counter_count (counters w !! B).

#[local] Notation budget_m :=
  (budget T (fun X => @capped X) (fun X => @key_replies X) (fun X => @mail_gain X)).

Lemma mail_neutral {X} (c : cmd X) :
  match c with UpdateCounter _ _ _ _ | SendEmail _ => False | _ => True end ->
  neutral (fun X => @capped X) (fun X => @mail_gain X) c.
Proof. by destruct c. Qed.

Lemma mail_gain_lost {X} (c : cmd X) r : mail_gain c (Throw Unavailable) <= mail_gain c r /\ mail_gain c (Throw Unavailable) <= 0.
Proof. destruct c; cbn; rewrite ?andb_false_r; try lia; [destruct (_ && _)|destruct (String.eqb _ _)]; lia. Qed.

Lemma unpaid_counter w b row :
  unpaid (set_counters w (<[b := row]> (counters w)))
  = unpaid w - (if String.eqb b B then count row - counter_count (counters w !! B) else 0).
Proof.
  unfold unpaid, mails_to. cbn [mails counters set_counters].
  destruct (String.eqb_spec b B) as [->|]; rewrite ?lookup_insert_eq, ?lookup_insert_ne by done; cbn; lia.
Qed.

Lemma mail_effect w {X} (c : cmd X) :
  cap_inv w -> capped c ->
  let '(w', r) := effect w c in cap_inv w' /\ key_replies c r /\ unpaid w' + mail_gain c r <= unpaid w.
Proof.
  intros [Hs Hn] Hc. assert (forall w', secrets w' = secrets w -> counters w' = counters w -> mails w' = mails w ->
    cap_inv w' /\ unpaid w' = unpaid w) as Hsame by (unfold cap_inv, unpaid, mails_to; by intros w' -> -> ->).
  destruct c as [i|h0|h0 row|b limit window ttl|p u|p u attrs|h0 row|h0|h0|ml]; cbn [effect].
  - split; [done|]. split; [|cbn; lia]. cbn. intros -> v. rewrite Hs. by intros [= ->].
  - split; [done|]. split; [done|cbn; lia].
  - destruct (denylist w); (edestruct Hsame as [HI HU]; [..|split; [exact HI|split; [done|cbn in *; lia]]]); done.
  - destruct limit as [l|]; [|split; [done|]; split; [done|]; cbn; rewrite andb_false_r; lia].
    destruct (counter_allows _ _ _) eqn:Ea; [|split; [done|]; split; [done|]; cbn; rewrite andb_false_r; lia].
    cbn in Hc. split; [|split; [done|]].
    + split; [done|]. cbn [counters set_counters]. destruct (decide (b = B)) as [->|]; [|by rewrite lookup_insert_ne].
      rewrite lookup_insert_eq. injection (Hc eq_refl) as ->. unfold counter_allows in Ea.
      destruct (counters w !! B) as [c|]; cbn in *; bool_hyps; lia.
    + rewrite unpaid_counter. cbn [mail_gain is_ok]. rewrite andb_true_r.
      destruct (String.eqb_spec b B) as [->|]; cbn; lia.
  - split; [done|]. split; [done|cbn; lia].
  - destruct (lookup_user (users w) u) as [[k x]|]; (edestruct Hsame as [HI HU]; [..|split; [exact HI|split; [done|cbn in *; lia]]]); done.
  - destruct (tokens w !! h0); (edestruct Hsame as [HI HU]; [..|split; [exact HI|split; [done|cbn in *; lia]]]); done.
  - split; [done|]. split; [done|cbn; lia].
  - destruct (tokens w !! h0); (edestruct Hsame as [HI HU]; [..|split; [exact HI|split; [done|cbn in *; lia]]]); done.
  - split; [done|]. split; [done|]. unfold unpaid, mails_to. cbn [mails counters send_mail mail_gain].
    rewrite filter_app, length_app. cbn [filter list_filter].
    destruct (String.eqb_spec (ToAddress ml) e); destruct (decide _); cbn; try congruence; lia.
Qed.

Lemma mail_deliver dv w {X} (c : cmd X) :
  cap_inv w -> capped c ->
  let '(w', r) := deliver dv w c in
  cap_inv w' /\ key_replies c r /\ unpaid w' + mail_gain c r <= unpaid w.
Proof.
  intros Hi Hc. pose proof (mail_effect w c Hi Hc) as He.
  destruct dv; cbn [deliver perform lost signin_service]; [done|..].
  - split; [done|]. split; [by destruct c|]. destruct (mail_gain_lost c (Throw Unavailable)). lia.
  - destruct (effect w c) as [w' r]. destruct He as (Hi' & _ & Hu). split; [done|]. split; [by destruct c|].
    cbn [fst]. destruct (mail_gain_lost c r). lia.
Qed.

Lemma key_is_K cache k :
  (forall x, cache = Some (x, sid) -> x = K) -> key_from (fun X => @key_replies X) env cache k -> k = K.
Proof.
  intros Hc (_ & i & Hi & Hk). rewrite Hsid in Hi. injection Hi as <-.
  destruct Hk as [Hk|Hk]; [by apply Hc|]. by apply Hk.
Qed.

Lemma issue_mail_balance email key nowMs d b g :
  (email = e -> g = 1) -> 0 <= g <= b ->
  budget_m (fun b' _ => 0 <= b') b (issue_mail cfg email key nowMs d).
Proof.
  intros Hg Hb. unfold issue_mail, store_and_send. apply budget_attempt.
  assert (forall b', 0 <= b' -> budget_m (fun b'' _ => 0 <= b'') b'
    (unanswerableChallenge dependency_error email (d_code d) d)) as Hun by (intros; by apply budget_unanswerable).
  apply budget_await, budget_send; [lia|by apply mail_neutral|]. intros [[]|e0] _; [|apply Hun; lia].
  split; [lia|]. split; [done|]. intros r _. cbn [mail_gain magic_link_mail ToAddress].
  assert (0 <= b + (if String.eqb email e then -1 else 0)) as Hpos
    by (destruct (String.eqb_spec email e) as [->|]; [rewrite Hg in Hb by done|]; lia).
  destruct r as [[]|e0]; [|by apply Hun]. split; [done|]. exact Hpos.
Qed.

(** A cap credits its permission when it counts on [B]. *)
Lemma cap_credited b bucket limit window ttl g (r_ok : bucket = B -> limit = Some L) :
  0 <= b -> (g <> 0 -> g = 1 /\ bucket = B) ->
  budget_m (credited b g) b (consume_counter (UpdateCounter bucket limit window ttl)).
Proof.
  intros Hb Hg. split; [done|]. split; [exact r_ok|]. intros [[]|err] _; cbn [mail_gain is_ok].
  - rewrite andb_true_r. assert (b <= b + (if String.eqb bucket B then 1 else 0)) by (destruct (String.eqb _ _); lia).
    split; [done|]. intros _. destruct (decide (g = 0)) as [->|Hne]; [lia|]. destruct (Hg Hne) as [-> ->].
    rewrite String.eqb_refl. lia.
  - rewrite andb_false_r, Z.add_0_r. destruct err; by split.
Qed.

Lemma create_mails d cache ev g1 g2 :
  let who := default (c_userName ev) (recipient ev) in
  (forall x, cache = Some (x, sid) -> x = K) ->
  (forall t, T t -> window_bucket who K (windowStart t) = B -> cfg_sendsPerWindow cfg = Some L) ->
  (forall t date, T t -> utcDate t = Some date -> day_bucket who K date = B -> cfg_sendsPerDay cfg = L) ->
  0 <= g1 -> 0 <= g2 -> (recipient ev = Some e -> g1 + g2 = 1) ->
  (forall t, T t -> g1 <> 0 -> g1 = 1 /\ window_bucket who K (windowStart t) = B) ->
  (forall t date, T t -> utcDate t = Some date -> g2 <> 0 -> g2 = 1 /\ day_bucket who K date = B) ->
  budget_m (fun b _ => 0 <= b) 0 (createAuthChallenge env d cache ev).
Proof.
  intros who Hcache Hw Hd Hg1 Hg2 Hg Hc1 Hc2.
  apply (budget_create _ _ _ _ env d ev 0 g1 g2); try done; try (intros; by apply mail_neutral).
  - intros cfg' nowMs k b Hcfg' Hnow Hk Hb. rewrite Hcfg in Hcfg'. injection Hcfg' as <-.
    rewrite (key_is_K _ _ Hcache Hk). apply cap_credited; [by apply Hw|done|by apply Hc1].
  - intros cfg' nowMs k b Hcfg' Hnow Hk Hb. rewrite Hcfg in Hcfg'. injection Hcfg' as <-.
    rewrite (key_is_K _ _ Hcache Hk). unfold tryConsumeDailyCap. destruct (utcDate nowMs) as [date|] eqn:Ed.
    + apply cap_credited; [|done|by apply (Hc2 nowMs)]. intros Hbk. f_equal. by apply (Hd nowMs date).
    + by split.
  - intros cfg' nowMs email k b Hcfg' Hnow Hk Hrec Hb. rewrite Hcfg in Hcfg'. injection Hcfg' as <-.
    eapply budget_weaken; [|apply (issue_mail_balance _ _ _ _ _ (g1 + g2)); [|lia]].
    + intros b' r Hb'. by split.
    + intros ->. by apply Hg.
Qed.

Lemma verify_mails cache ev : budget_m (fun b _ => 0 <= b) 0 (verifyAuthChallengeResponse env cache ev).
Proof. by apply budget_verify; try done; intros; apply mail_neutral. Qed.

(** Invocations whose caps count, when they credit [e], on [B]. *)
Lemma mails_capped (ts : list trigger) g1 g2 sched w :
  Forall (caches_agree sid K) ts ->
  (forall inv who t, inv ∈ ts -> invocation_who inv = Some who -> T t ->
     window_bucket who K (windowStart t) = B -> cfg_sendsPerWindow cfg = Some L) ->
  (forall inv who t date, inv ∈ ts -> invocation_who inv = Some who -> T t -> utcDate t = Some date ->
     day_bucket who K date = B -> cfg_sendsPerDay cfg = L) ->
  0 <= g1 -> 0 <= g2 -> g1 + g2 = 1 ->
  (forall t, T t -> g1 <> 0 -> window_bucket e K (windowStart t) = B) ->
  (forall t date, T t -> utcDate t = Some date -> g2 <> 0 -> day_bucket e K date = B) ->
  Forall (fun s => T (fst (snd s))) sched -> cap_inv w ->
  let '(w', _) := run_steps sched w (map (trigger_prog env) ts) in
  unpaid w' <= unpaid w /\ cap_inv w'.
Proof.
  intros Hcaches Hw Hd Hg1 Hg2 Hg Hc1 Hc2 Hsched Hinv.
  pose proof (run_steps_potential T cap_inv unpaid (fun X => @capped X) (fun X => @key_replies X)
    (fun X => @mail_gain X) (fun _ : outcome => 0) sched w (map (trigger_prog env) ts) (map (fun _ => 0) ts)) as Hp.
  destruct (run_steps sched w _) as [w' ps]. destruct Hp as [Hinv' Hle].
  - intros X u c dv Hi Ha. by apply mail_deliver.
  - intros u ev Hi. split; [exact Hi|]. unfold unpaid, mails_to. cbn. lia.
  - apply Forall2_fmap_l, Forall2_fmap_r, Forall_Forall2_diag, Forall_forall. intros inv Hin.
    pose proof (proj1 (Forall_forall _ _) Hcaches inv Hin) as Hcache.
    destruct inv as [d cache ev|cache ev]; apply budget_await.
    + eapply budget_weaken; [|apply (create_mails d cache ev)
        with (g1 := if decide (default (c_userName ev) (recipient ev) = e) then g1 else 0)
             (g2 := if decide (default (c_userName ev) (recipient ev) = e) then g2 else 0)]; try done.
      * by intros b [x|err] Hb; [split|].
      * intros t Ht Hb. exact (Hw _ _ t Hin eq_refl Ht Hb).
      * intros t date Ht Hdate Hb. exact (Hd _ _ t date Hin eq_refl Ht Hdate Hb).
      * by case_decide.
      * by case_decide.
      * intros Hr. rewrite Hr. cbn. by rewrite !decide_True.
      * intros t Ht. case_decide as Hwho; [|done]. rewrite Hwho. intros Hne. split; [lia|by apply Hc1].
      * intros t date Ht Hdate. case_decide as Hwho; [|done]. rewrite Hwho. intros Hne. split; [lia|by apply (Hc2 t)].
    + eapply budget_weaken; [|apply verify_mails]. by intros b [x|err] Hb; [split|].
  - done.
  - done.
  - rewrite !sumZ_zero in Hle; [split; [lia|done]|done|]. by intros [].
Qed.
End mail_cap.

(** The clock readings of a schedule. *)
Definition readings (sched : list (nat * (Z * delivery))) : list Z := map (fun s => fst (snd s)) sched.

Lemma readings_forall (P : Z -> Prop) sched :
  Forall P (readings sched) -> Forall (fun s => fst (snd s) ∈ readings sched /\ P (fst (snd s))) sched.
Proof.
  intros HP. apply Forall_forall. intros s Hs. assert (fst (snd s) ∈ readings sched) as Ht by (apply list_elem_of_fmap; by exists s).
  split; [done|]. exact (proj1 (Forall_forall _ _) HP _ Ht).
Qed.

(** C4 (signin_caps_enforced_in_trigger): the cap per window. However
    creations and redemptions interleave, with messages lost, as long as every
    clock reads within one 15-minute window: an address is sent at most the
    configured number of mails less what its counter already stood at (one, if
    the configured number is less than one and the counter absent), provided no
    address's daily counter shares the key of its window counter and the
    containers that cached the HMAC key cached the current one. *)
Theorem window_cap `{Digests} (env : process_env) (cfg : CreateConfig) (sid K e : string) (L start : Z)
    (ts : list trigger) (sched : list (nat * (Z * delivery))) (w : World) :
  create_config env = Some cfg -> cfg_sendsPerWindow cfg = Some L ->
  env_value env RuntimeEnv.BOUNCE_HMAC_SECRET = Some sid -> secrets w !! sid = Some (Some K) ->
  Forall (caches_agree sid K) ts ->
  (forall inv who t date, inv ∈ ts -> invocation_who inv = Some who -> t ∈ readings sched -> utcDate t = Some date ->
     day_bucket who K date <> window_bucket e K start) ->
  Forall (fun t => windowStart t = start) (readings sched) ->
  let '(w', _) := run_steps sched w (map (trigger_prog env) ts) in
  mails_to e w' <= mails_to e w + Z.max 0 (Z.max L 1 - counter_count (counters w !! window_bucket e K start)).
Proof.
  intros Hcfg HL Hsid Hsec Hcaches Hcol Hsched.
  pose proof (mails_capped env cfg sid K e (window_bucket e K start) L
    (counter_count (counters w !! window_bucket e K start)) (fun t => t ∈ readings sched /\ windowStart t = start) Hcfg Hsid
    ts 1 0 sched w Hcaches) as Hm.
  destruct (run_steps sched w _) as [w' ps]. unfold unpaid, cap_inv in Hm.
  destruct Hm as (Hle & _ & Hn); try done; [|by intros t [_ ->]|by apply (readings_forall (fun t => windowStart t = start))|split; [done|]|]; try lia.
  intros inv who t date Hin Hwho [Ht _] Hd Hb. by destruct (Hcol inv who t date Hin Hwho Ht Hd).
Qed.

(** Also (signin_attempts_bounded): the cap per UTC day, likewise, as long as
    every clock reads on one UTC date and no address's window counter shares
    the key of the address's daily counter. *)
Theorem daily_cap_bounds_mails `{Digests} (env : process_env) (cfg : CreateConfig) (sid K e date : string)
    (ts : list trigger) (sched : list (nat * (Z * delivery))) (w : World) :
  create_config env = Some cfg ->
  env_value env RuntimeEnv.BOUNCE_HMAC_SECRET = Some sid -> secrets w !! sid = Some (Some K) ->
  Forall (caches_agree sid K) ts ->
  (forall inv who t, inv ∈ ts -> invocation_who inv = Some who -> t ∈ readings sched ->
     window_bucket who K (windowStart t) <> day_bucket e K date) ->
  Forall (fun t => utcDate t = Some date) (readings sched) ->
  let '(w', _) := run_steps sched w (map (trigger_prog env) ts) in
  mails_to e w' <= mails_to e w + Z.max 0 (cfg_sendsPerDay cfg - counter_count (counters w !! day_bucket e K date)).
Proof.
  intros Hcfg Hsid Hsec Hcaches Hcol Hsched.
  pose proof (mails_capped env cfg sid K e (day_bucket e K date) (cfg_sendsPerDay cfg)
    (counter_count (counters w !! day_bucket e K date)) (fun t => t ∈ readings sched /\ utcDate t = Some date) Hcfg Hsid
    ts 0 1 sched w Hcaches) as Hm.
  destruct (run_steps sched w _) as [w' ps]. unfold unpaid, cap_inv in Hm.
  destruct (create_config_facts env cfg Hcfg) as (_ & _ & Hpos).
  destruct Hm as (Hle & _ & Hn); try done; [|by intros t d [_ ->] [= <-]|by apply (readings_forall (fun t => utcDate t = Some date))|split; [done|]|]; try lia.
  intros inv who t Hin Hwho [Ht _] Hb. by destruct (Hcol inv who t Hin Hwho Ht).
Qed.

(** ** Witnesses *)

(** Five requests for one address, all at once, in one window: three mails. *)
Definition five_requests : list trigger :=
  map (fun i => Create {| d_token := "token" +:+ pretty i; d_code := "00000001"; d_decoy := "x" |} None ana_asks)
    [1; 2; 3; 4; 5].

Definition in_turns (steps : nat) (now : Z) : list (nat * (Z * delivery)) :=
  flat_map (fun _ => map (fun i => (i, (now, Delivered))) [0; 1; 2; 3; 4]%nat) (seq 0 steps).

Definition example_config : CreateConfig :=
  {| cfg_from := "no-reply@example.com"; cfg_domain := "app.example.com"; cfg_denylistTable := Some "deny";
     cfg_ttlMinutes := 10; cfg_enrollment := admin_only; cfg_sendsPerWindow := Some 3; cfg_sendsPerDay := 20;
     cfg_configurationSet := None |}.

Lemma in_turns_readings steps now t : t ∈ readings (in_turns steps now) -> t = now.
Proof.
  unfold readings, in_turns. intros (s & -> & Hs)%list_elem_of_fmap.
  apply list_elem_of_In, in_flat_map in Hs as (x & _ & Hs). by apply in_map_iff in Hs as (i & <- & _).
Qed.

Lemma in_turns_forall (P : Z -> Prop) steps now : P now -> Forall P (readings (in_turns steps now)).
Proof. intros HP. apply Forall_forall. by intros t ->%in_turns_readings. Qed.

Lemma five_requests_caches : Forall (caches_agree "arn:secret" "pepper") five_requests.
Proof. by repeat constructor. Qed.

Lemma five_requests_who inv who : inv ∈ five_requests -> invocation_who inv = Some who -> who = "ana@example.com".
Proof.
  intros Hin. unfold five_requests in Hin. apply list_elem_of_fmap in Hin as (i & -> & _).
  cbn. vm_compute. by intros [= <-].
Qed.

Lemma link_single_use_example :
  let ve := ana_answers example_challenge "00004711" in
  let '(w', ps) := run_steps (in_turns 9 1540000) (fst example_asked)
                     (map (trigger_prog example_env) [Verify None ve; Verify None ve; Verify None ve]) in
  redemptions (sha256Hex (d_token example_drawn)) ps = 1.
Proof. vm_compute. reflexivity. Qed.

Lemma window_cap_witness :
  let '(w', _) := run_steps (in_turns 40 1000000) example_world (map (trigger_prog example_env) five_requests) in
  mails_to "ana@example.com" w' <= 3.
Proof.
  pose proof (window_cap example_env example_config "arn:secret" "pepper" "ana@example.com" 3 900000
    five_requests (in_turns 40 1000000) example_world eq_refl eq_refl eq_refl eq_refl five_requests_caches) as Hc.
  destruct (run_steps _ _ _) as [w' ps]. apply Hc.
  - intros inv who t date Hin Hwho Ht. rewrite (five_requests_who _ _ Hin Hwho), (in_turns_readings _ _ _ Ht).
    change (utcDate 1000000) with (Some "1970-01-01"). intros [= <-]. vm_compute. discriminate.
  - by apply in_turns_forall.
Defined.

Lemma daily_cap_bounds_mails_witness :
  let '(w', _) := run_steps (in_turns 40 1000000) example_world (map (trigger_prog example_env) five_requests) in
  mails_to "ana@example.com" w' <= 20.
Proof.
  pose proof (daily_cap_bounds_mails example_env example_config "arn:secret" "pepper" "ana@example.com" "1970-01-01"
    five_requests (in_turns 40 1000000) example_world eq_refl eq_refl eq_refl five_requests_caches) as Hc.
  destruct (run_steps _ _ _) as [w' ps]. apply Hc.
  - intros inv who t Hin Hwho Ht. rewrite (five_requests_who _ _ Hin Hwho), (in_turns_readings _ _ _ Ht).
    vm_compute. discriminate.
  - by apply in_turns_forall.
Defined.
