(* ===== verification/BounceHandler.v ===== *)
(** The SES bounce and complaint handler:
    [packages/vestibulum/src/lambda/handlers/bounce-handler/index.ts].

    A notification is whatever JSON the message holds: the source casts it
    without checking, so a property of [undefined] or [null], and a value that
    cannot be iterated, is a [TypeError]. Properties every object inherits are
    not among the names read. *)

From stdpp Require Import pretty.
From S2P Require Import Prelude JsString Json JsDate Prog SignIn MagicLink.
From Stdlib Require Import Ascii QArith_base.

#[local] Open Scope string_scope.
#[local] Open Scope Z_scope.
#[local] Open Scope prog_scope.

(** ** Reading unchecked JSON; [None] is [undefined] *)

Definition prop (v : option JsonValue) (k : string) : result signin_error (option JsonValue) :=
  let sized (n : nat) := Ok (if String.eqb k "length" then Some (VNumber (pretty n)) else None) in
  match v with
  | None | Some VNull => Throw TypeError
  | Some (VObject o) => Ok (find_key k o)
  | Some (VArray l) => sized (length l)
  | Some (VString s) => sized (String.length s)
  | Some (VBool _) | Some (VNumber _) => Ok None
  end.

Definition truthy (v : option JsonValue) : bool :=
  match v with
  | None | Some VNull => false
  | Some (VBool b) => b
  | Some (VNumber t) => match Number t with Some q => negb (Qnum q =? 0) | None => false end
  | Some (VString s) => negb (String.eqb s "")
  | Some (VArray _) | Some (VObject _) => true
  end.

(** [a ?? b]. *)
Definition nullish_or (a b : option JsonValue) : option JsonValue :=
  match a with None | Some VNull => b | Some _ => a end.

Fixpoint characters (s : string) : list (option JsonValue) :=
  match s with
  | EmptyString => []
  | String.String c r => Some (VString (String.String c "")) :: characters r
  end.

(** [for (const x of v)]. *)
Definition iterate (v : option JsonValue) : result signin_error (list (option JsonValue)) :=
  match v with
  | Some (VArray l) => Ok (map Some l)
  | Some (VString s) => Ok (characters s)
  | _ => Throw TypeError
  end.

Definition is_text (v : option JsonValue) (s : string) : bool :=
  match v with Some (VString t) => String.eqb t s | _ => false end.

(** A computation that may throw, in a handler. *)
Definition lift {A B} (r : result signin_error A) (k : A -> prog B) : prog B :=
  match r with Ok a => k a | Throw e => Raise e end.

Notation "'try!' x ':=' r 'in' k" := (lift r (fun x => k))
  (at level 10, x pattern, r at level 100, k at level 200) : prog_scope.

(** ** The handler *)

Section bounce.
Context `{Digests} (userPoolId hmacSecret : string).

Definition quarantineEmail (email emailHash : string) : prog unit :=
  Send (AdminUpdateUserAttributes userPoolId email [("custom:email_quarantined", Some "true")]) (fun r =>
    match r with
    | Ok _ => Emit LogQuarantined (Ret tt)
    | Throw UserNotFoundException =>
        Now (fun t =>
        let ttlSecs := t / 1000 + 365 * 24 * 3600 in
        Now (fun t' =>
        match toISOString t' with
        | None => Raise RangeError
        | Some at_ =>
            let! _ := send (PutDenylistItem emailHash {| quarantined_at := at_; deny_expires_at := ttlSecs |}) in
            Emit LogDenylisted (Ret tt)
        end))
    | Throw e => Raise (ServiceError e)
    end).

(** [hmacEmail(email, hmacSecret)] of an unchecked value, then the write. *)
Definition quarantine_recipient (recipient : option JsonValue) : prog unit :=
  try! email := prop recipient "emailAddress" in
  match email with
  | Some (VString e) => quarantineEmail e (hmacEmail e hmacSecret)
  | _ => Raise TypeError
  end.

Fixpoint quarantine_all (recipients : list (option JsonValue)) : prog unit :=
  match recipients with
  | [] => Ret tt
  | r :: rest => let! _ := quarantine_recipient r in quarantine_all rest
  end.

Definition processBounce (notification : option JsonValue) : prog unit :=
  try! bounce := prop notification "bounce" in
  if negb (truthy bounce) then Ret tt
  else
    try! recipients := prop bounce "bouncedRecipients" in
    try! number := prop recipients "length" in
    try! bounceType := prop bounce "bounceType" in
    Emit (SesBounceRate number bounceType)
      (if negb (is_text bounceType "Permanent") then Emit LogIgnored (Ret tt)
       else try! l := iterate recipients in quarantine_all l).

Definition processComplaint (notification : option JsonValue) : prog unit :=
  try! complaint := prop notification "complaint" in
  if negb (truthy complaint) then Ret tt
  else
    try! recipients := prop complaint "complainedRecipients" in
    try! number := prop recipients "length" in
    Emit (SesComplaintRate number) (try! l := iterate recipients in quarantine_all l).

(** One record: the text of its SNS message. *)
Definition process_record (message : string) : prog unit :=
  match JSON_parse message with
  | None => Raise SyntaxError
  | Some v =>
      let notification := Some v in
      try! notificationType := prop notification "notificationType" in
      try! eventType := prop notification "eventType" in
      let kind := nullish_or notificationType eventType in
      if is_text kind "Bounce" then processBounce notification
      else if is_text kind "Complaint" then processComplaint notification
      else Emit LogIgnored (Ret tt)
  end.

(** A failed record is logged and counted; the rest are still processed. *)
Fixpoint process_records (messages : list string) (errors : list signin_error) : prog (list signin_error) :=
  match messages with
  | [] => Ret errors
  | m :: rest =>
      attempt (process_record m) (fun r =>
        match r with
        | Ok _ => process_records rest errors
        | Throw e => Emit LogRecordError (process_records rest (errors ++ [e])%list)
        end)
  end.
End bounce.

(** The handler, with the module's cached HMAC key. *)
Definition bounceHandler `{Digests} (env : process_env) (cache : key_cache) (messages : list string) : prog key_cache :=
  let! (cache', hmacSecret) := resolveEmailHmacKeyFromEnv env cache in
  match env_value env RuntimeEnv.COGNITO_USER_POOL_ID, env_value env RuntimeEnv.DENYLIST_TABLE_NAME with
  | Some userPoolId, Some _ =>
      if String.eqb hmacSecret "" then Raise MissingConfiguration
      else
        let! errors := process_records userPoolId hmacSecret messages [] in
        if (0 <? length errors)%nat then Raise (AggregateError errors) else Ret cache'
  | _, _ => Raise MissingConfiguration
  end.

(** ** What a message reports *)

Definition text_at (k : string) (o : JsonObject) (s : string) : Prop := find_key k o = Some (VString s).

Definition lists_address (l : list JsonValue) (e : string) : Prop :=
  exists r, VObject r ∈ l /\ text_at "emailAddress" r e.

Definition bounces (o : JsonObject) (e : string) : Prop :=
  exists b l, find_key "bounce" o = Some (VObject b) /\ text_at "bounceType" b "Permanent" /\
    find_key "bouncedRecipients" b = Some (VArray l) /\ lists_address l e.

Definition complains (o : JsonObject) (e : string) : Prop :=
  exists c l, find_key "complaint" o = Some (VObject c) /\
    find_key "complainedRecipients" c = Some (VArray l) /\ lists_address l e.

(** [m] reports [e]: a permanent bounce or a complaint of either JSON shape. *)
Definition reports (m e : string) : Prop :=
  exists o kind, JSON_parse m = Some (VObject o) /\
    (text_at "notificationType" o kind \/ find_key "notificationType" o = None /\ text_at "eventType" o kind) /\
    (kind = "Bounce" /\ bounces o e \/ kind = "Complaint" /\ complains o e).

(** [u], stored under [k], is who [name] stands for. *)
Definition named (name k : string) (u : PoolUser) : Prop :=
  k = name \/ attr (UserAttributes u) "email" = Some name.

(** What the handler leaves of a reported address. *)
Definition marked `{Digests} (secret : string) (w : World) (e : string) : Prop :=
  (exists k u, users w !! k = Some u /\ named e k u /\
     attr (UserAttributes u) "custom:email_quarantined" = Some "true") \/
  exists dl, denylist w = Some dl /\ is_Some (dl !! hmacEmail e secret).

(** ** Lemmas *)

Section marks.
Context `{Digests} (secret : string).

Lemma attr_set_other attrs u name :
  name ∉ map fst attrs -> attr (UserAttributes (set_attributes attrs u)) name = attr (UserAttributes u) name.
Proof.
  intros Hn. unfold set_attributes. cbn [UserAttributes].
  assert (forall l, attr (attrs ++ l)%list name = attr l name) as ->.
  { intros l. clear -Hn. induction attrs as [|[n v] attrs IH]; [done|]. cbn in *. rewrite not_elem_of_cons in Hn.
    destruct Hn as [Hne Hn]. destruct (String.eqb_spec n name) as [->|]; [done|]. by apply IH. }
  assert (existsb (String.eqb name) (map fst attrs) = false) as Hex.
  { apply not_true_is_false. intros (x & Hin & ->%String.eqb_eq)%existsb_exists. by apply Hn, list_elem_of_In. }
  induction (UserAttributes u) as [|[n v] l IH]; [done|]. cbn [List.filter fst].
  destruct (existsb (String.eqb n) (map fst attrs)) eqn:En; cbn; destruct (String.eqb_spec n name) as [->|]; congruence.
Qed.

#[local] Notation quarantine_attrs := [("custom:email_quarantined", Some "true")].

Lemma attr_quarantined u : attr (UserAttributes (set_attributes quarantine_attrs u)) "custom:email_quarantined" = Some "true".
Proof. done. Qed.

Lemma named_quarantined name k u : named name k (set_attributes quarantine_attrs u) <-> named name k u.
Proof.
  unfold named. rewrite attr_set_other; [done|]. cbn. intros Hin. apply list_elem_of_In in Hin. by destruct Hin.
Qed.

Lemma lookup_user_named us name k u : lookup_user us name = Some (k, u) -> us !! k = Some u /\ named name k u.
Proof.
  unfold lookup_user, named. destruct (us !! name) as [x|] eqn:E; [intros [= <- <-]; auto|].
  intros (Hin & Hb)%find_some. apply bool_decide_eq_true in Hb. apply list_elem_of_In, elem_of_map_to_list in Hin. auto.
Qed.

(** Quarantining anybody keeps every mark. *)
Lemma marked_update w p name e : marked secret w e ->
  marked secret (fst (effect w (AdminUpdateUserAttributes p name quarantine_attrs))) e.
Proof.
  intros Hm. cbn [effect]. destruct (lookup_user (users w) name) as [[k u]|] eqn:El; [|done]. cbn [fst].
  apply lookup_user_named in El as [Hk _]. destruct Hm as [(k' & u' & Hu & Hn & Hq)|Hm]; [left|by right].
  cbn [users set_users]. destruct (decide (k' = k)) as [->|].
  - rewrite Hk in Hu. injection Hu as ->. exists k, (set_attributes quarantine_attrs u').
    rewrite lookup_insert_eq. split; [done|]. split; [by apply named_quarantined|done].
  - exists k', u'. by rewrite lookup_insert_ne.
Qed.

Lemma marked_put w h row e : marked secret w e -> marked secret (fst (effect w (PutDenylistItem h row))) e.
Proof.
  intros [Hm|(dl & Hd & Hm)]; [left|right]; cbn [effect].
  - by destruct (denylist w).
  - rewrite Hd. exists (<[h := row]> dl). split; [done|]. destruct (decide (hmacEmail e secret = h)) as [->|];
      [rewrite lookup_insert_eq|rewrite lookup_insert_ne by done]; [by eexists|done].
Qed.
End marks.

Section bounce_wp.
Context (T : Z -> Prop) (D : delivery -> Prop) `{Digests} (pool secret : string).

(** Nothing but marks is ever added. *)
Definition keeps_marks (w w' : World) : Prop :=
  (forall e, marked secret w e -> marked secret w' e) /\
  tokens w' = tokens w /\ mails w' = mails w /\ secrets w' = secrets w.

Lemma keeps_refl w : keeps_marks w w.
Proof. by repeat split. Qed.

Lemma keeps_trans w1 w2 w3 : keeps_marks w1 w2 -> keeps_marks w2 w3 -> keeps_marks w1 w3.
Proof. intros (Hm1 & ? & ? & ?) (Hm2 & ? & ? & ?). repeat split; [auto|congruence..]. Qed.

Lemma keeps_emit w e : keeps_marks w (emit_event w e).
Proof. by repeat split. Qed.

Lemma keeps_update w name dv :
  keeps_marks w (fst (deliver dv w (AdminUpdateUserAttributes pool name [("custom:email_quarantined", Some "true")]))).
Proof.
  assert (keeps_marks w (fst (effect w (AdminUpdateUserAttributes pool name [("custom:email_quarantined", Some "true")])))) as He.
  { split; [intros e; apply marked_update|]. cbn [effect]. destruct (lookup_user _ _) as [[k u]|]; by repeat split. }
  destruct dv; cbn [deliver perform signin_service fst]; [exact He|apply keeps_refl|exact He].
Qed.

Lemma keeps_put w h row dv : keeps_marks w (fst (deliver dv w (PutDenylistItem h row))).
Proof.
  assert (keeps_marks w (fst (effect w (PutDenylistItem h row)))) as He.
  { split; [intros e; apply marked_put|]. cbn [effect]. destruct (denylist w); by repeat split. }
  destruct dv; cbn [deliver perform signin_service fst]; [exact He|apply keeps_refl|exact He].
Qed.

(** A finished quarantine has marked its address. *)
Lemma wp_quarantineEmail e w :
  wp T D (quarantineEmail pool e (hmacEmail e secret)) w
    (fun w' r => keeps_marks w w' /\ (r = Ok tt -> marked secret w' e)).
Proof.
  intros dv _. pose proof (keeps_update w e dv) as Hk.
  set (c := AdminUpdateUserAttributes pool e [("custom:email_quarantined", Some "true")]) in *.
  assert (snd (deliver dv w c) = Ok tt -> marked secret (fst (deliver dv w c)) e) as Hm.
  { destruct dv; cbn [deliver perform signin_service effect c]; [|done|done]. subst c. cbn [effect].
    destruct (lookup_user (users w) e) as [[k u]|] eqn:El; [|done]. intros _. apply lookup_user_named in El as [_ Hn].
    left. exists k, (set_attributes [("custom:email_quarantined", Some "true")] u). cbn. rewrite lookup_insert_eq.
    split; [done|]. split; [by apply named_quarantined|done]. }
  destruct (deliver dv w c) as [w1 r1]. cbn [fst snd] in *.
  destruct r1 as [[]|err]; [cbn; split; [by eapply keeps_trans; [|apply keeps_emit]|]; intros _; by apply Hm|].
  destruct err; try (by split).
  intros t _ t' _. destruct (toISOString t') as [at_|]; [|by split].
  apply wp_await. intros dv2 _. set (row := {| quarantined_at := at_; deny_expires_at := t / 1000 + 365 * 24 * 3600 |}).
  pose proof (keeps_put w1 (hmacEmail e secret) row dv2) as Hp.
  assert (snd (deliver dv2 w1 (PutDenylistItem (hmacEmail e secret) row)) = Ok tt ->
    marked secret (fst (deliver dv2 w1 (PutDenylistItem (hmacEmail e secret) row))) e) as Hm2.
  { destruct dv2; cbn [deliver perform signin_service effect]; [|done|done].
    destruct (denylist w1) as [dl|] eqn:Ed; [|done]. intros _. right. exists (<[hmacEmail e secret := row]> dl).
    split; [done|]. rewrite lookup_insert_eq. by eexists. }
  destruct (deliver dv2 w1 _) as [w2 r2]. cbn [fst snd] in *.
  destruct r2 as [[]|err]; cbn; (split; [by repeat (eapply keeps_trans; [eassumption|])|]).
  - intros _. by apply Hm2.
  - done.
Qed.

Lemma wp_quarantine_all l w :
  wp T D (quarantine_all pool secret l) w
    (fun w' r => keeps_marks w w' /\
       (r = Ok tt -> forall o e, Some (VObject o) ∈ l -> text_at "emailAddress" o e -> marked secret w' e)).
Proof.
  revert w. induction l as [|rec l IH]; intros w; cbn [quarantine_all].
  { split; [apply keeps_refl|]. intros _ o e Hin. by apply not_elem_of_nil in Hin. }
  apply wp_await. unfold quarantine_recipient, lift.
  assert (forall e, wp T D (quarantineEmail pool e (hmacEmail e secret)) w
    (fun w' r => match r with
       | Ok _ => wp T D (quarantine_all pool secret l) w' (fun w'' r => keeps_marks w w'' /\
           (r = Ok tt -> marked secret w'' e /\
              forall o e, Some (VObject o) ∈ l -> text_at "emailAddress" o e -> marked secret w'' e))
       | Throw _ => keeps_marks w w' end)) as Hone.
  { intros e. eapply wp_weaken; [|apply wp_quarantineEmail]. intros w1 [[]|err] [Hk Hm]; [|done].
    eapply wp_weaken; [|apply IH]. intros w2 r2 [Hk2 Hm2]. split; [by eapply keeps_trans|]. intros Hr.
    split; [by apply Hk2, Hm|by apply Hm2]. }
  destruct (prop rec "emailAddress") as [v|err] eqn:Ep; [|by split; [apply keeps_refl|]].
  assert (forall o e, Some (VObject o) = rec -> text_at "emailAddress" o e -> v = Some (VString e)) as Hv.
  { intros o e <- Ht. cbn [prop] in Ep. by injection Ep as <-. }
  destruct v as [[| | |e| |]|]; try (by split; [apply keeps_refl|]).
  eapply wp_weaken; [|apply Hone]. intros w1 [[]|err]; [|by split].
  apply wp_weaken. intros w2 r2 [Hk Hm]. split; [done|]. intros Hr o e' Hin Ht.
  destruct (Hm Hr) as [Hme Hml]. apply elem_of_cons in Hin as [Heq|Hin]; [|by eapply Hml].
  by injection (Hv o e' Heq Ht) as ->.
Qed.

Lemma wp_iterate v w :
  wp T D (lift (iterate v) (quarantine_all pool secret)) w
    (fun w' r => keeps_marks w w' /\
       (r = Ok tt -> forall l o e, v = Some (VArray l) -> VObject o ∈ l -> text_at "emailAddress" o e -> marked secret w' e)).
Proof.
  unfold lift. destruct (iterate v) as [l|e] eqn:Ei; [|by split; [apply keeps_refl|]].
  eapply wp_weaken; [|apply wp_quarantine_all]. intros w' r [Hk Hm]. split; [done|]. intros Hr l' o e -> Hin Ht.
  cbn in Ei. injection Ei as <-. apply (Hm Hr o e); [|done]. apply list_elem_of_fmap. by exists (VObject o).
Qed.

Lemma text_is k o s t : text_at k o s -> is_text (find_key k o) t = String.eqb s t.
Proof. by intros ->. Qed.

Lemma wp_processBounce v w :
  wp T D (processBounce pool secret (Some v)) w
    (fun w' r => keeps_marks w w' /\ (r = Ok tt -> forall o e, v = VObject o -> bounces o e -> marked secret w' e)).
Proof.
  unfold processBounce, lift at 1. destruct (prop (Some v) "bounce") as [b|err] eqn:Epb; [|by split; [apply keeps_refl|]].
  assert (forall o e, v = VObject o -> bounces o e -> exists b' l, b = Some (VObject b') /\ text_at "bounceType" b' "Permanent" /\
    find_key "bouncedRecipients" b' = Some (VArray l) /\ lists_address l e) as Hb.
  { intros o e -> (b' & l & Hf & Hr). cbn [prop] in Epb. injection Epb as <-. by exists b', l. }
  destruct (truthy b) eqn:Et; cbn [negb].
  2:{ split; [apply keeps_refl|]. intros _ o e Hv He. by destruct (Hb o e Hv He) as (? & ? & -> & _). }
  unfold lift at 1 2 3. destruct (prop b "bouncedRecipients") as [rs|err] eqn:Er; [|by split; [apply keeps_refl|]].
  destruct (prop rs "length") as [n|err]; [|by split; [apply keeps_refl|]].
  destruct (prop b "bounceType") as [ty|err] eqn:Ety; [|by split; [apply keeps_refl|]]. cbn [wp].
  destruct (is_text ty "Permanent") eqn:Ep; cbn [negb].
  - eapply wp_weaken; [|apply wp_iterate]. intros w' r [Hk Hm]. split; [exact Hk|]. intros Hr o e Hv He.
    destruct (Hb o e Hv He) as (b' & l & -> & _ & Hl & x & Hin & Ht). cbn [prop] in Er. injection Er as <-. by apply (Hm Hr l x e).
  - cbn [wp]. split; [by repeat split|]. intros _ o e Hv He. destruct (Hb o e Hv He) as (b' & l & -> & Ht & _).
    cbn [prop] in Ety. injection Ety as <-. by rewrite (text_is _ _ _ _ Ht) in Ep.
Qed.

Lemma wp_processComplaint v w :
  wp T D (processComplaint pool secret (Some v)) w
    (fun w' r => keeps_marks w w' /\ (r = Ok tt -> forall o e, v = VObject o -> complains o e -> marked secret w' e)).
Proof.
  unfold processComplaint, lift at 1. destruct (prop (Some v) "complaint") as [c|err] eqn:Epb; [|by split; [apply keeps_refl|]].
  assert (forall o e, v = VObject o -> complains o e -> exists c' l, c = Some (VObject c') /\
    find_key "complainedRecipients" c' = Some (VArray l) /\ lists_address l e) as Hb.
  { intros o e -> (c' & l & Hf & Hr). cbn [prop] in Epb. injection Epb as <-. by exists c', l. }
  destruct (truthy c) eqn:Et; cbn [negb].
  2:{ split; [apply keeps_refl|]. intros _ o e Hv He. by destruct (Hb o e Hv He) as (? & ? & -> & _). }
  unfold lift at 1 2. destruct (prop c "complainedRecipients") as [rs|err] eqn:Er; [|by split; [apply keeps_refl|]].
  destruct (prop rs "length") as [n|err]; [|by split; [apply keeps_refl|]]. cbn [wp].
  eapply wp_weaken; [|apply wp_iterate]. intros w' r [Hk Hm]. split; [exact Hk|]. intros Hr o e Hv He.
  destruct (Hb o e Hv He) as (b' & l & -> & Hl & x & Hin & Ht). cbn [prop] in Er. injection Er as <-. by apply (Hm Hr l x e).
Qed.

(** A record that does not throw has marked every address it reports. *)
Lemma wp_process_record m w :
  wp T D (process_record pool secret m) w
    (fun w' r => keeps_marks w w' /\ (r = Ok tt -> forall e, reports m e -> marked secret w' e)).
Proof.
  unfold process_record. destruct (JSON_parse m) as [v|] eqn:Ej; [|by split; [apply keeps_refl|]].
  unfold lift at 1 2. destruct (prop (Some v) "notificationType") as [nt|err] eqn:En; [|by split; [apply keeps_refl|]].
  destruct (prop (Some v) "eventType") as [et|err] eqn:Ee; [|by split; [apply keeps_refl|]].
  assert (forall e, reports m e -> exists o kind, v = VObject o /\ (forall t, is_text (nullish_or nt et) t = String.eqb kind t) /\
    (kind = "Bounce" /\ bounces o e \/ kind = "Complaint" /\ complains o e)) as Hrep.
  { intros e (o & kind & Hj & Hk & Hb). rewrite Hj in Ej. injection Ej as <-. exists o, kind. split; [done|].
    split; [|done]. cbn [prop] in En, Ee. injection En as <-. injection Ee as <-.
    destruct Hk as [Hk|[Hn Hk]]; [by rewrite Hk|by rewrite Hn, Hk]. }
  destruct (is_text (nullish_or nt et) "Bounce") eqn:Eb; [|destruct (is_text (nullish_or nt et) "Complaint") eqn:Ec].
  - eapply wp_weaken; [|apply wp_processBounce]. intros w' r [Hk Hm]. split; [done|]. intros Hr e He.
    destruct (Hrep e He) as (o & kind & Hv & Hkind & [[_ Hb]|[-> _]]); [by apply (Hm Hr o)|by rewrite Hkind in Eb].
  - eapply wp_weaken; [|apply wp_processComplaint]. intros w' r [Hk Hm]. split; [done|]. intros Hr e He.
    destruct (Hrep e He) as (o & kind & Hv & Hkind & [[-> _]|[_ Hb]]); [by rewrite Hkind in Eb|by apply (Hm Hr o)].
  - cbn [wp]. split; [by repeat split|]. intros _ e He.
    destruct (Hrep e He) as (o & kind & Hv & Hkind & [[-> _]|[-> _]]); by rewrite Hkind in *.
Qed.

(** Records are processed independently: each is either counted as an error or
    has marked what it reports. *)
Lemma wp_process_records ms errs w :
  wp T D (process_records pool secret ms errs) w
    (fun w' r => keeps_marks w w' /\ exists oks : list bool, length oks = length ms /\
       (exists new, r = Ok (errs ++ new)%list /\ length new = count_occ bool_dec oks false) /\
       forall i m e, ms !! i = Some m -> oks !! i = Some true -> reports m e -> marked secret w' e).
Proof.
  revert errs w. induction ms as [|m ms IH]; intros errs w; cbn [process_records].
  { split; [apply keeps_refl|]. exists []. split; [done|]. split; [exists []; by rewrite app_nil_r|]. intros [|i] m e Hm; done. }
  apply wp_attempt. eapply wp_weaken; [|apply wp_process_record]. intros w1 r1 [Hk1 Hm1].
  destruct r1 as [[]|err].
  - eapply wp_weaken; [|apply IH]. intros w2 r2 (Hk2 & oks & Hlen & (new & Hr & Hnew) & Hm2).
    split; [by eapply keeps_trans|]. exists (true :: oks). split; [by cbn; f_equal|]. split; [by exists new|].
    intros [|i] m' e; [|by apply Hm2]. intros [= <-] _ He. by apply Hk2, Hm1.
  - cbn [wp]. eapply wp_weaken; [|apply IH]. intros w2 r2 (Hk2 & oks & Hlen & (new & Hr & Hnew) & Hm2).
    split; [by eapply keeps_trans; [exact Hk1|eapply keeps_trans; [apply keeps_emit|exact Hk2]]|].
    exists (false :: oks). split; [by cbn; f_equal|]. split.
    + exists (err :: new). split; [by rewrite Hr, <- app_assoc|]. cbn. by rewrite Hnew.
    + intros [|i] m' e; [done|by apply Hm2].
Qed.
End bounce_wp.

(** What a run of the handler leaves: nothing was done, or every record was
    processed and the ones that failed are the errors thrown. *)
Definition handled `{Digests} (K : string) (ms : list string) (w w' : World) (r : result signin_error key_cache) : Prop :=
  keeps_marks K w w' /\ exists oks : list bool, length oks = length ms /\
    (forall i m e, ms !! i = Some m -> oks !! i = Some true -> reports m e -> marked K w' e) /\
    match r with
    | Ok _ => count_occ bool_dec oks false = 0%nat
    | Throw err =>
        oks = map (fun _ => false) ms /\ quiet w w' \/
        exists errs, err = AggregateError errs /\ errs <> [] /\ length errs = count_occ bool_dec oks false
    end.

Lemma wp_bounceHandler T D `{Digests} env cache ms w K :
  (forall k, current_key env cache w k -> k = K) ->
  wp T D (bounceHandler env cache ms) w (handled K ms w).
Proof.
  intros HK. unfold bounceHandler. apply wp_await.
  assert (forall w' e, quiet w w' -> marked K w e -> marked K w' e) as Hmk.
  { intros w' e (_ & Hd & Hu & _) Hm. unfold marked in *. by rewrite Hd, Hu. }
  assert (forall w', quiet w w' -> keeps_marks K w w') as Hkeep.
  { intros w' Hq. pose proof Hq as (Ht & Hd & Hu & Hs & Hm). by split; [intros e; apply Hmk|]. }
  assert (forall w' e, quiet w w' -> handled K ms w w' (Throw e)) as Hno.
  { intros w' e Hq. split; [by apply Hkeep|]. exists (map (fun _ => false) ms). split; [by rewrite length_map|].
    split; [|by left]. intros i m e' Hi Ho.
    pose proof (list_lookup_fmap (fun _ : string => false) ms i) as Hl. rewrite Hi in Hl.
    assert (Some false = Some true) as [=] by exact (eq_trans (eq_sym Hl) Ho). }
  apply wp_resolve; [|done]. intros w1 c key Hq Hkey.
  destruct (env_value env RuntimeEnv.COGNITO_USER_POOL_ID) as [pool|]; [|by apply Hno].
  destruct (env_value env RuntimeEnv.DENYLIST_TABLE_NAME); [|by apply Hno].
  destruct (String.eqb_spec key "") as [->|Hne]; [by apply Hno|].
  destruct Hkey as [Hkey|[_ ?]]; [|done]. rewrite (HK _ Hkey). apply wp_await.
  eapply wp_weaken; [|apply wp_process_records]. intros w2 r (Hk2 & oks & Hlen & (new & -> & Hnew) & Hm2).
  cbn [app]. assert (keeps_marks K w w2) as Hk by (eapply keeps_trans; [by apply Hkeep|done]).
  destruct (0 <? length new)%nat eqn:El; cbn [wp]; (split; [done|]; exists oks; split; [done|]; split; [done|]).
  - right. exists new. split; [done|]. split; [by intros ->|done].
  - apply Nat.ltb_ge in El. lia.
Qed.

(** Also (bounce_handler_spec): the bounce handler on any batch, with messages
    lost at will: no token, secret or mail is touched, no mark is removed; each
    record either failed or has marked every address it reports, in Cognito or
    on the denylist; the handler returns exactly when none failed, and throws
    the errors of all that did. *)
Theorem bounce_handler_spec `{Digests} (env : process_env) (cache : key_cache) (ms : list string)
    (dv : nat -> Z * delivery) (w : World) (K : string) :
  (forall k, current_key env cache w k -> k = K) ->
  let '(w', r) := run (bounceHandler env cache ms) dv 0 w in handled K ms w w' r.
Proof.
  intros HK. apply (wp_run any_time any_delivery); [by split|by apply wp_bounceHandler].
Qed.

(** C8 (no_mail_after_bounce): an address the handler was told about, without
    failing, gets no mail from a challenge: the challenge is unanswerable and
    nothing is sent, whatever messages are lost, provided the containers agree
    on the HMAC key and Cognito passes the attributes of the user the address
    names. *)
Theorem no_mail_after_bounce `{Digests} (env : process_env) (cache cache' : key_cache) (ms : list string)
    (m a K : string) (ev : CreateEvent) (d : Drawn) (dv dv' : nat -> Z * delivery) (w w1 : World) (c : key_cache) :
  (forall k, current_key env cache w k -> k = K) ->
  m ∈ ms -> reports m a ->
  run (bounceHandler env cache ms) dv 0 w = (w1, Ok c) ->
  (forall k, current_key env cache' w1 k -> k = K) ->
  recipient ev = Some a ->
  (forall k u, users w1 !! k = Some u -> named a k u -> userAttributes ev = UserAttributes u) ->
  let '(w2, r) := run (createAuthChallenge env d cache' ev) dv' 0 w1 in
  mails w2 = mails w1 /\ forall c' resp, r = Ok (c', resp) -> unanswerable resp.
Proof.
  intros HK Hin Hrep Hrun HK' Hrec Hattrs.
  pose proof (wp_run any_time any_delivery (bounceHandler env cache ms) dv _ 0 w ltac:(by split)
    (wp_bounceHandler any_time any_delivery env cache ms w K HK)) as Hb.
  rewrite Hrun in Hb. destruct Hb as (_ & oks & Hlen & Hmarks & Hcount).
  assert (marked K w1 a) as Hm.
  { apply list_elem_of_lookup in Hin as [i Hi]. apply (Hmarks i m); [done| |done].
    destruct (oks !! i) as [[]|] eqn:Eo; [done| |].
    - apply list_elem_of_lookup_2, list_elem_of_In, (count_occ_In bool_dec) in Eo. lia.
    - apply lookup_ge_None in Eo. apply lookup_lt_Some in Hi. lia. }
  pose proof (wp_run any_time any_delivery (createAuthChallenge env d cache' ev) dv' _ 0 w1 ltac:(by split)
    (wp_create env cache' ev d any_time any_delivery w1)) as Hc.
  destruct (run (createAuthChallenge env d cache' ev) dv' 0 w1) as [w2 r].
  destruct r as [[c' resp]|e]; [|destruct Hc as (_ & _ & _ & Hc); by split].
  destruct Hc as (cfg & _ & _ & _ & _ & _ & [(Hun & _ & Hmails)|(email & key & now & _ & Hmay & _)]);
    [split; [done|]; by intros ? ? [= _ <-]|].
  exfalso. destruct Hmay as (Hr & _ & Hkey & _ & Hq & dl & Hd & Hdl). rewrite Hrec in Hr. injection Hr as <-.
  rewrite (HK' _ Hkey) in Hdl. destruct Hm as [(k & u & Hu & Hn & Hqt)|(dl' & Hd' & Hs)].
  - rewrite (Hattrs k u Hu Hn), Hqt in Hq. done.
  - rewrite Hd in Hd'. injection Hd' as <-. rewrite Hdl in Hs. by destruct Hs.
Qed.

(** ** Witnesses *)

Definition example_bounce_env : process_env := fun name =>
  if String.eqb name RuntimeEnv.COGNITO_USER_POOL_ID then Some "pool" else example_env name.

(** An event-destination bounce for Ana and for an address that is no user,
    a complaint with a recipient that has no address, and text that is not JSON. *)
Definition bounce_message : string :=
  stringify (VObject [("eventType", VString "Bounce");
    ("bounce", VObject [("bounceType", VString "Permanent");
       ("bouncedRecipients", VArray [VObject [("emailAddress", VString "ana@example.com")];
                                     VObject [("emailAddress", VString "Bob@example.com")]])])]).

Definition broken_complaint : string :=
  stringify (VObject [("notificationType", VString "Complaint");
    ("complaint", VObject [("complainedRecipients", VArray [VObject []])])]).

Definition example_batch : list string := [broken_complaint; bounce_message; "oops"].

Example bounce_example :
  let '(w, r) := run (bounceHandler example_bounce_env None example_batch) (delivered (fun _ => 1000000)) 0 example_world in
  r = Throw (AggregateError [TypeError; SyntaxError]) /\
  (fun u => attr (UserAttributes u) "custom:email_quarantined") <$> users w !! "u-1" = Some (Some "true") /\
  (fun d => bool_decide (is_Some (d !! hmacEmail "bob@example.com" "pepper"))) <$> denylist w = Some true.
Proof. vm_compute. repeat split. Qed.

Lemma bounce_message_reports : reports bounce_message "ana@example.com".
Proof.
  eexists _, "Bounce". split; [apply (JSON_parse_stringify _); cbn; repeat constructor; cbn; try set_solver|].
  split; [by right|]. left. split; [done|]. eexists _, _. split; [reflexivity|]. split; [done|]. split; [reflexivity|].
  exists [("emailAddress", VString "ana@example.com")]. split; [left|done].
Qed.

Lemma example_key_is k cache :
  cache = None \/ cache = Some ("pepper", "arn:secret") ->
  current_key example_bounce_env cache example_world k -> k = "pepper".
Proof.
  intros Hc (sid & Hsid & Hk). injection Hsid as <-. destruct Hk as [Hk|Hk]; [|by injection Hk].
  destruct Hc as [->| ->]; [done|]. by injection Hk.
Qed.

Lemma bounce_handler_spec_witness :
  let '(w', r) := run (bounceHandler example_bounce_env None example_batch) (delivered (fun _ => 1000000)) 0 example_world in
  handled "pepper" example_batch example_world w' r.
Proof.
  apply (bounce_handler_spec example_bounce_env None example_batch (delivered (fun _ => 1000000)) example_world "pepper").
  intros k. by apply example_key_is; left.
Defined.

Lemma no_mail_after_bounce_witness :
  let w1 := fst (run (bounceHandler example_bounce_env None [bounce_message]) (delivered (fun _ => 1000000)) 0 example_world) in
  let ev := {| c_userPoolId := "pool"; c_userName := "u-1";
               userAttributes := default [] (UserAttributes <$> users w1 !! "u-1") |} in
  let '(w2, r) := run (createAuthChallenge example_bounce_env example_drawn None ev) (delivered (fun _ => 2000000)) 0 w1 in
  mails w2 = mails w1 /\ forall c resp, r = Ok (c, resp) -> unanswerable resp.
Proof.
  intros w1 ev.
  assert (users w1 = {[ "u-1" := set_attributes [("custom:email_quarantined", Some "true")] ana ]} /\
    secrets w1 = secrets example_world) as [Hu Hs] by (by vm_compute).
  apply (no_mail_after_bounce example_bounce_env None None [bounce_message] bounce_message "ana@example.com" "pepper"
    ev example_drawn (delivered (fun _ => 1000000)) (delivered (fun _ => 2000000)) example_world w1 (Some ("pepper", "arn:secret"))).
  - intros k. by apply example_key_is; left.
  - left.
  - apply bounce_message_reports.
  - vm_compute. reflexivity.
  - intros k (sid & Hsid & Hk). injection Hsid as <-. destruct Hk as [Hk|Hk]; [done|]. rewrite Hs in Hk. by injection Hk.
  - vm_compute. reflexivity.
  - intros k u Hk _. unfold ev. cbn [userAttributes]. rewrite Hu in Hk |- *.
    apply lookup_singleton_Some in Hk as [<- <-]. reflexivity.
Defined.
