(* ===== verification/PreSignup.v ===== *)
(** The PreSignUp trigger:
    [packages/vestibulum/src/lambda/handlers/pre-signup/index.ts].

    The counters are the table of the other limiters; the key of a sign-up's
    counter is the address as typed. *)

From stdpp Require Import pretty.
From S2P Require Import Prelude JsString Json Prog SignIn MagicLink BounceHandler.
From Stdlib Require Import Ascii.

#[local] Open Scope string_scope.
#[local] Open Scope Z_scope.
#[local] Open Scope prog_scope.

Record PreSignUpEvent := { triggerSource : string; p_userEmail : option string }.

(** What the trigger sets of [event.response]. *)
Record PreSignUpResponse := { autoConfirmUser : bool; autoVerifyEmail : bool }.

Definition WINDOW_MS : Z := 15 * 60 * 1000.

(** [s.lastIndexOf(c)]. *)
Fixpoint lastIndexOf (c : ascii) (s : string) : option nat :=
  match s with
  | EmptyString => None
  | String.String d r =>
      match lastIndexOf c r with
      | Some n => Some (S n)
      | None => if Ascii.eqb d c then Some 0%nat else None
      end
  end.

Definition signup_bucket (email : string) (now : Z) : string :=
  email +:+ "#" +:+ pretty (now / WINDOW_MS * WINDOW_MS).

Definition checkAndIncrementRateLimit (email : string) (limit : Z) : prog bool :=
  Now (fun now =>
    let start := now / WINDOW_MS * WINDOW_MS in
    let ttlSecs := (start + WINDOW_MS * 2) / 1000 in
    consume_counter (UpdateCounter (signup_bucket email now) (Some limit) None ttlSecs)).

Definition email_domain (email : string) : string :=
  match lastIndexOf "@" email with Some n => toLowerCase (str_drop (S n) email) | None => "" end.

(** [allowedDomains.map((d) => d.toLowerCase())] of unchecked JSON. *)
Fixpoint lower_texts (l : list JsonValue) : result signin_error (list string) :=
  match l with
  | [] => Ok []
  | VString d :: rest => match lower_texts rest with Ok ds => Ok (toLowerCase d :: ds) | Throw e => Throw e end
  | _ :: _ => Throw TypeError
  end.

Definition allowed_domains (env : process_env) : result signin_error (list string) :=
  match JSON_parse (default "[]" (env RuntimeEnv.ALLOWED_EMAIL_DOMAINS)) with
  | None => Ok []
  | Some (VArray l) => lower_texts l
  | Some _ => Throw TypeError
  end.

Definition signup_limit (env : process_env) : Z :=
  default 3 (parseInt10 (default "3" (env RuntimeEnv.SIGN_UPS_PER_WINDOW))).

Definition reject {A} (reason : string) : prog A := Emit (PreSignUpRejection reason) (Raise SignupNotAllowed).

Definition preSignup (env : process_env) (ev : PreSignUpEvent) : prog PreSignUpResponse :=
  let email := default "" (p_userEmail ev) in
  let domain := email_domain email in
  let confirmed := {| autoConfirmUser := true; autoVerifyEmail := true |} in
  if bool_decide (env RuntimeEnv.SIGNUP_MODE = Some "admin-invite-only")
     && String.eqb (triggerSource ev) "PreSignUp_SignUp" then reject "InviteOnlyMode"
  else
    try! allowedDomains := allowed_domains env in
    if negb (existsb (String.eqb domain) allowedDomains) then reject "DomainNotAllowed"
    else
      match env_value env RuntimeEnv.RATE_LIMIT_TABLE_NAME with
      | None => Ret confirmed
      | Some _ =>
          let! allowed := checkAndIncrementRateLimit email (signup_limit env) in
          if allowed then Ret confirmed else reject "RateLimitHit"
      end.

(** ** The decision *)

(** What is decided without the counter. *)
Definition refused (env : process_env) (ev : PreSignUpEvent) : Prop :=
  env RuntimeEnv.SIGNUP_MODE = Some "admin-invite-only" /\ triggerSource ev = "PreSignUp_SignUp" \/
  exists ds, allowed_domains env = Ok ds /\ email_domain (default "" (p_userEmail ev)) ∉ ds.

Definition admits (env : process_env) (ev : PreSignUpEvent) (w : World) (now : Z) : bool :=
  match env_value env RuntimeEnv.RATE_LIMIT_TABLE_NAME with
  | None => true
  | Some _ => counter_allows (counters w !! signup_bucket (default "" (p_userEmail ev)) now) (signup_limit env) None
  end.

(** Also (pre_signup_spec): a delivered sign-up is refused with the one message
    for a closed mode, a domain that is not listed or a full counter, and
    nothing is counted in the first two; it is confirmed and verified exactly
    when it passes all three, and then the counter of its address goes up by
    one. *)
Theorem pre_signup_spec (env : process_env) (ev : PreSignUpEvent) (now : Z) (w : World) :
  let '(w', r) := run (preSignup env ev) (delivered (fun _ => now)) 0 w in
  quiet w w' /\
  ((refused env ev /\ r = Throw SignupNotAllowed /\ counters w' = counters w) \/
   (~ refused env ev /\ allowed_domains env = Throw TypeError /\ r = Throw TypeError /\ w' = w) \/
   (~ refused env ev /\ is_ok (allowed_domains env) = true /\
    if admits env ev w now
    then r = Ok {| autoConfirmUser := true; autoVerifyEmail := true |} /\
      match env_value env RuntimeEnv.RATE_LIMIT_TABLE_NAME with
      | None => counters w' = counters w
      | Some _ => exists row, counters w' = <[signup_bucket (default "" (p_userEmail ev)) now := row]> (counters w) /\
          count row = counter_count (counters w !! signup_bucket (default "" (p_userEmail ev)) now) + 1
      end
    else r = Throw SignupNotAllowed /\ counters w' = counters w)).
Proof.
  unfold preSignup, reject. set (email := default "" (p_userEmail ev)).
  destruct (bool_decide (env RuntimeEnv.SIGNUP_MODE = Some "admin-invite-only")) eqn:Em; cbn [andb];
    [apply bool_decide_eq_true in Em|apply bool_decide_eq_false in Em].
  1: destruct (String.eqb_spec (triggerSource ev) "PreSignUp_SignUp") as [Et|Et];
       [cbn; split; [by repeat split|]; left; split; [by left|done]|].
  all: assert (refused env ev <-> exists ds, allowed_domains env = Ok ds /\ email_domain email ∉ ds) as Href
    by (unfold refused; tauto).
  all: destruct (allowed_domains env) as [ds|e] eqn:Ed; cbn [lift].
  2,4: assert (e = TypeError) as -> by (unfold allowed_domains in Ed; destruct (JSON_parse _) as [[| | | |l|]|]; try congruence;
         clear -Ed; revert e Ed; induction l as [|[] l IH]; intros e; cbn; try congruence;
         destruct (lower_texts l); [done|]; intros [= <-]; by apply IH).
  2,3: cbn; split; [by repeat split|]; right; left; split; [rewrite Href; by intros (? & ? & _)|done].
  all: destruct (existsb (String.eqb (email_domain email)) ds) eqn:Ex; cbn [negb].
  2,4: cbn; split; [by repeat split|]; left; split; [rewrite Href; exists ds; split; [done|]; intros Hin|done];
         apply list_elem_of_In in Hin; assert (existsb (String.eqb (email_domain email)) ds = true) by
           (apply existsb_exists; exists (email_domain email); by rewrite String.eqb_refl); congruence.
  all: assert (~ refused env ev) as Hnr by
    (rewrite Href; intros (ds' & [= <-] & Hn); apply Hn, list_elem_of_In;
     apply existsb_exists in Ex as (x & Hin & ->%String.eqb_eq); done).
  all: unfold admits; fold email; destruct (env_value env RuntimeEnv.RATE_LIMIT_TABLE_NAME) as [tbl|];
    [|cbn; split; [by repeat split|]; right; right; by repeat split].
  all: unfold checkAndIncrementRateLimit, consume_counter; cbn;
    destruct (counter_allows _ _ _) eqn:Ec; cbn; (split; [by repeat split|]); right; right;
    (split; [done|]); (split; [done|]); (split; [done|]); [by eexists|done].
Qed.

(** ** Concurrent sign-ups *)


(** A sign-up that names the address it was for when it is confirmed. *)
Definition signup_prog (env : process_env) (ev : PreSignUpEvent) : prog string :=
  await (preSignup env ev) (fun _ => Ret (default "" (p_userEmail ev))).

Definition confirmed_for (e : string) (ps : list (prog string)) : Z :=
  sumZ (map (claimed (fun e' => if String.eqb e' e then 1 else 0)) ps).

Section signup_cap.
Context (env : process_env) (e : string) (start n0 : Z).
Context (Htable : is_Some (env_value env RuntimeEnv.RATE_LIMIT_TABLE_NAME)).
#[local] Notation B := (e +:+ "#" +:+ pretty start).
#[local] Notation L := (signup_limit env).
#[local] Notation T := (fun t => t / WINDOW_MS * WINDOW_MS = start).

Definition signup_gain {X} (c : cmd X) (r : result cmd_error X) : Z :=
  match c with UpdateCounter b _ _ _ => if String.eqb b B && is_ok r then 1 else 0 | _ => 0 end.

Definition signup_allowed {X} (c : cmd X) : Prop :=
  match c with UpdateCounter _ limit window _ => limit = Some L /\ window = None | _ => False end.

Definition signup_inv (w : World) : Prop := counter_count (counters w !! B) <= Z.max (Z.max L 1) n0.

Lemma signup_deliver dv w {X} (c : cmd X) :
  signup_inv w -> signup_allowed c ->
  let '(w', r) := deliver dv w c in
  signup_inv w' /\ True /\ - counter_count (counters w' !! B) + signup_gain c r <= - counter_count (counters w !! B).
Proof.
  intros Hi Hc. assert (signup_gain c (Throw Unavailable) = 0) as Hl
    by (destruct c; cbn; rewrite ?andb_false_r; done).
  assert (let '(w', r) := effect w c in signup_inv w' /\
    - counter_count (counters w' !! B) + signup_gain c r <= - counter_count (counters w !! B) /\ 0 <= signup_gain c r) as He.
  { destruct c; try done. destruct Hc as [-> ->]. cbn [effect]. unfold signup_inv in *.
    destruct (counter_allows _ _ _) eqn:Ea; [|cbn [signup_gain is_ok]; rewrite andb_false_r; lia].
    cbn [counters set_counters signup_gain is_ok]. rewrite andb_true_r.
    destruct (String.eqb_spec bucket B) as [->|]; [rewrite lookup_insert_eq|rewrite lookup_insert_ne by done; lia].
    unfold counter_allows in Ea. destruct (counters w !! B); cbn [counter_count counter_next count] in *; bool_hyps; lia. }
  destruct dv; cbn [deliver perform lost signin_service].
  - destruct (effect w c). destruct He as (? & ? & ?). auto.
  - rewrite Hl. split; [done|]. split; [done|lia].
  - destruct (effect w c). destruct He as (? & ? & ?). cbn [fst]. rewrite Hl. split; [done|]. split; [done|lia].
Qed.

Lemma signup_budget ev :
  budget T (fun X => @signup_allowed X) (fun X (_ : cmd X) _ => True) (fun X => @signup_gain X)
    (settles (fun e' => if String.eqb e' e then 1 else 0)) 0 (signup_prog env ev).
Proof.
  apply budget_await. unfold preSignup, reject. destruct (_ && _); [done|].
  destruct (allowed_domains env) as [ds|err]; cbn [lift]; [|done]. destruct (negb _); [done|].
  destruct Htable as [tbl ->]. apply budget_await. unfold checkAndIncrementRateLimit, consume_counter.
  split; [done|]. intros t Ht. split; [done|]. split; [done|]. intros r _. cbn [signup_gain]. unfold signup_bucket. rewrite Ht.
  set (email := default "" (p_userEmail ev)).
  assert (String.eqb (email +:+ "#" +:+ pretty start) B = String.eqb email e) as Heq.
  { apply eq_true_iff_eq. rewrite !String.eqb_eq. split; [apply str_app_inj_r|by intros ->]. }
  rewrite Heq. destruct r as [[]|err]; cbn [is_ok].
  - rewrite andb_true_r. cbn. fold email. destruct (String.eqb email e); cbn; lia.
  - rewrite andb_false_r. by destruct err.
Qed.
End signup_cap.

(** Also (signups_capped): however sign-ups interleave within one 15-minute
    window, with messages lost, an address is confirmed at most the configured
    number of times, less what its counter stood at (once, if that number is
    less than one and the counter absent). *)
Theorem signups_capped (env : process_env) (e : string) (start : Z) (evs : list PreSignUpEvent)
    (sched : list (nat * (Z * delivery))) (w : World) :
  is_Some (env_value env RuntimeEnv.RATE_LIMIT_TABLE_NAME) ->
  Forall (fun s => fst (snd s) / WINDOW_MS * WINDOW_MS = start) sched ->
  let '(_, ps) := run_steps sched w (map (signup_prog env) evs) in
  confirmed_for e ps
  <= Z.max 0 (Z.max (signup_limit env) 1 - counter_count (counters w !! (e +:+ "#" +:+ pretty start))).
Proof.
  intros Htable Hsched. set (n0 := counter_count (counters w !! (e +:+ "#" +:+ pretty start))).
  pose proof (run_steps_potential (fun t => t / WINDOW_MS * WINDOW_MS = start) (signup_inv env e start n0)
    (fun w => - counter_count (counters w !! (e +:+ "#" +:+ pretty start)))
    (fun X => @signup_allowed env X) (fun X (_ : cmd X) _ => True) (fun X => @signup_gain e start X)
    (fun e' => if String.eqb e' e then 1 else 0) sched w (map (signup_prog env) evs) (map (fun _ => 0) evs)) as Hp.
  destruct (run_steps sched w _) as [w' ps]. destruct Hp as [Hinv Hle].
  - intros X u c dv. apply signup_deliver.
  - intros u ev Hi. split; [exact Hi|cbn; lia].
  - apply Forall2_fmap_l, Forall2_fmap_r, Forall_Forall2_diag, Forall_forall. intros ev _. by apply signup_budget.
  - done.
  - unfold signup_inv. lia.
  - rewrite (sumZ_zero (fun _ : PreSignUpEvent => 0)) in Hle by done. unfold signup_inv in Hinv. unfold confirmed_for. lia.
Qed.

(** ** Witnesses *)

Definition signup_env : process_env := fun name =>
  if String.eqb name RuntimeEnv.ALLOWED_EMAIL_DOMAINS
  then Some (stringify (VArray [VString "Example.com"])) else example_env name.

Definition ana_signs_up : PreSignUpEvent :=
  {| triggerSource := "PreSignUp_SignUp"; p_userEmail := Some "ana@EXAMPLE.com" |}.

(** Five sign-ups at once: three are confirmed. *)
Definition five_signups : list (nat * (Z * delivery)) :=
  flat_map (fun _ => map (fun i => (i, (1000000, Delivered))) [0; 1; 2; 3; 4]%nat) (seq 0 4).

Example pre_signup_examples :
  confirmed_for "ana@EXAMPLE.com"
    (snd (run_steps five_signups example_world (map (signup_prog signup_env) [ana_signs_up; ana_signs_up; ana_signs_up; ana_signs_up; ana_signs_up]))) = 3 /\
  snd (run (preSignup example_env ana_signs_up) (delivered (fun _ => 1000000)) 0 example_world) = Throw SignupNotAllowed.
Proof. vm_compute. split; reflexivity. Qed.

Lemma signups_capped_witness :
  let '(_, ps) := run_steps five_signups example_world
    (map (signup_prog signup_env) [ana_signs_up; ana_signs_up; ana_signs_up; ana_signs_up; ana_signs_up]) in
  confirmed_for "ana@EXAMPLE.com" ps <= 3.
Proof.
  pose proof (signups_capped signup_env "ana@EXAMPLE.com" 900000
    [ana_signs_up; ana_signs_up; ana_signs_up; ana_signs_up; ana_signs_up] five_signups example_world) as Hc.
  destruct (run_steps _ _ _) as [w' ps]. apply Hc.
  - by eexists.
  - apply Forall_forall. intros s Hs. apply list_elem_of_In, in_flat_map in Hs as (x & _ & Hs).
    by apply in_map_iff in Hs as (i & <- & _).
Defined.
