(* ===== verification/AuthEndpoints.v ===== *)
(** The HTTP endpoints of the mailed-link sign-in:
    [packages/vestibulum/src/lambda/handlers/auth-login/*.ts],
    [auth-verify/*.ts] and [auth-signout/index.ts], and the allow-list look-up
    of [shared/allow-list.ts].

    They run on the world of the triggers ([SignIn.World]) with the table of
    pending sign-ins beside it. What the Cognito pool does with a sign-in is an
    interface, [CognitoAuth], as is the verification of an ID token, which is
    [aws-jwt-verify]'s. Random values are arguments. *)

From stdpp Require Import pretty.
From S2P Require Import Prelude JsString Json Prog SignIn MagicLink BounceHandler.
From Stdlib Require Import Ascii.

#[local] Open Scope string_scope.
#[local] Open Scope Z_scope.
#[local] Open Scope prog_scope.

(** ** Requests and responses *)

Record HttpEvent := {
  headers : list (string * option string);
  event_cookies : list string;
  body : option string;
  method : option string
}.

Record HttpResult := {
  statusCode : Z;
  r_headers : list (string * string);
  r_cookies : list string;
  r_body : option string
}.

(** [event.headers?.[name]]. *)
Definition header (ev : HttpEvent) (name : string) : option string := attr (headers ev) name.

Definition status (code : Z) : HttpResult := {| statusCode := code; r_headers := []; r_cookies := []; r_body := None |}.

Definition forbidden : HttpResult := status 403.

Definition error_body (text : string) : option string := Some (stringify (VObject [("error", VString text)])).

(** [event.cookies] and the [cookie] header. *)
Definition request_cookie (ev : HttpEvent) (name : string) : option string :=
  readCookie (event_cookies ev) (header ev "cookie") name.

(** ** auth-verify/cookie.ts *)

Fixpoint parse_cookie_pairs (pairs : list string) (result : gmap string string) : gmap string string :=
  match pairs with
  | [] => result
  | kv :: rest =>
      match indexOf kv "=" with
      | None => parse_cookie_pairs rest result
      | Some eqIdx =>
          let name := trim (str_take eqIdx kv) in
          let value := trim (str_drop (S eqIdx) kv) in
          parse_cookie_pairs rest (if non_empty name then <[name := value]> result else result)
      end
  end.

Definition parseCookies (header : option string) : gmap string string :=
  match header with
  | None => ∅
  | Some h => if String.eqb h "" then ∅ else parse_cookie_pairs (split ";" h) ∅
  end.

Record CookieOptions := { c_sameSite : string; c_path : string; c_domain : string; c_maxAge : Z }.

Definition buildSetCookie (name value : string) (opts : CookieOptions) : result signin_error string :=
  if String.eqb (c_path opts) "" || String.eqb (c_domain opts) "" then Throw InvalidCookie
  else Ok (join "; " [name +:+ "=" +:+ value; "Max-Age=" +:+ pretty (c_maxAge opts); "Path=" +:+ c_path opts;
                      "Domain=" +:+ c_domain opts; "SameSite=" +:+ c_sameSite opts; "HttpOnly"; "Secure"]).

(** ** The pool, the pending sign-ins *)

Record InitiateOutput := { Session : option string; echoed_USERNAME : option string }.
Record AuthOutput := { IdToken : option string; RefreshToken : option string }.

Inductive auth_cmd : Type -> Type :=
| SignUp (clientId username password : string) (attributes : list (string * string)) : auth_cmd unit
| InitiateAuth (clientId username : string) : auth_cmd InitiateOutput
| RespondToAuthChallenge (clientId session username answer : string) : auth_cmd AuthOutput
| AdminUserGlobalSignOut (pool username : string) : auth_cmd unit.

(** The pool's sign-in operations: state [C] of its own, and the world its
    triggers run in. *)
Class CognitoAuth (C : Type) := {
  auth_step : forall {X : Type}, C -> World -> auth_cmd X -> C * World * result cmd_error X
}.

(** A row of the binding table, under the hash of the browser's secret. *)
Record BindingRow := { b_expires_at : option Z; b_session : option string; b_username : option string }.

Record Site (C : Type) := { pool : C; base : World; bindings : gmap string BindingRow }.
Arguments pool {C} s.
Arguments base {C} s.
Arguments bindings {C} s.

Inductive ecmd : Type -> Type :=
| Base {X} (c : cmd X) : ecmd X
| ListUsers (userPoolId filter : string) (limit : nat) : ecmd (list (option string * PoolUser))
| PutBinding (binding_hash : string) (row : BindingRow) : ecmd unit
| TakeBinding (binding_hash : string) : ecmd (option BindingRow)
| Auth {X} (c : auth_cmd X) : ecmd X.

#[global] Notation eprog := (Prog.prog ecmd cmd_error signin_error event).

(** A program of the triggers' world in the endpoints'. *)
Fixpoint embed {A} (p : prog A) : eprog A :=
  match p with
  | Ret a => Ret a
  | Raise e => Raise e
  | Now k => Now (fun t => embed (k t))
  | Emit e p => Emit e (embed p)
  | Send c k => Send (Base c) (fun r => embed (k r))
  end.

Definition esend {X} (c : ecmd X) : eprog X :=
  Send c (fun r => match r with Ok x => Ret x | Throw e => Raise (ServiceError e) end).

(** ** shared/allow-list.ts: the look-up *)

Fixpoint replace_char (c : ascii) (by_ : string) (s : string) : string :=
  match s with
  | EmptyString => ""
  | String.String d r => (if Ascii.eqb d c then by_ else String.String d "") +:+ replace_char c by_ r
  end.

Definition escapeFilterValue (value : string) : string :=
  let bs := String.String backslash "" in
  replace_char dquote (bs +:+ String.String dquote "") (replace_char backslash (bs +:+ bs) value).

Definition email_filter (address : string) : string :=
  "email = " +:+ String.String dquote (escapeFilterValue address +:+ String.String dquote "").

(** The users of the pool a filter on the address selects. *)
Definition list_users (us : gmap string PoolUser) (filter : string) (limit : nat) : list (option string * PoolUser) :=
  take limit (map (fun ku => (Some (fst ku), snd ku))
    (List.filter (fun ku => match attr (UserAttributes (snd ku)) "email" with
                            | Some a => String.eqb filter (email_filter a)
                            | None => false
                            end) (map_to_list us))).

(** [lookup]: [None] is [unavailable]. *)
Definition allow_list_lookup (userPoolId normalizedEmail : string) : eprog (option (option Eligibility)) :=
  match normalizeEmail normalizedEmail with
  | None => Ret (Some None)
  | Some address =>
      Send (ListUsers userPoolId (email_filter address) 2) (fun r => Ret
        match r with
        | Throw _ => None
        | Ok [(Some username, u)] =>
            if String.eqb username "" || negb (is_true (attr (UserAttributes u) "email_verified")) then Some None
            else Some (Some {| subject := username; active := match Enabled u with Some true => true | _ => false end |})
        | Ok _ => Some None
        end)
  end.

Section service.
Context {C : Type} `{CognitoAuth C}.

Definition set_base (s : Site C) (w : World) : Site C := {| pool := pool s; base := w; bindings := bindings s |}.
Definition set_bindings (s : Site C) b : Site C := {| pool := pool s; base := base s; bindings := b |}.

Definition site_effect {X} (s : Site C) (c : ecmd X) : Site C * result cmd_error X :=
  match c in ecmd X return Site C * result cmd_error X with
  | Base c => let '(w', r) := effect (base s) c in (set_base s w', r)
  | ListUsers _ filter limit => (s, Ok (list_users (users (base s)) filter limit))
  | PutBinding h row =>
      match bindings s !! h with
      | Some _ => (s, Throw ConditionalCheckFailedException)
      | None => (set_bindings s (<[h := row]> (bindings s)), Ok tt)
      end
  | TakeBinding h =>
      match bindings s !! h with
      | Some row => (set_bindings s (delete h (bindings s)), Ok (Some row))
      | None => (s, Throw ConditionalCheckFailedException)
      end
  | Auth c =>
      let '(c', w', r) := auth_step (pool s) (base s) c in
      ({| pool := c'; base := w'; bindings := bindings s |}, r)
  end.

#[export] Instance site_service : Service (Site C) ecmd cmd_error event :=
  {| perform X s c := site_effect s c; lost := Unavailable; record_event s e := set_base s (emit_event (base s) e) |}.
End service.

(** ** auth-login *)

(** [randomBytes(32)], the phantom username and the throw-away password. *)
Record LoginDrawn := { l_secret : string; l_phantom : string; l_password : string }.

Definition IP_RATE_LIMIT_WINDOW_MS : Z := 15 * 60 * 1000.
Definition DEFAULT_LOGINS_PER_WINDOW : Z := 10.

(** A response before anything is awaited; [true] when a configuration error
    is logged. *)
Inductive early := Early (configuration : bool) (r : HttpResult).

Definition respond_early {A} (e : early) (k : HttpResult -> A) : Prog.prog ecmd cmd_error signin_error event A :=
  let '(Early logged r) := e in
  if logged then Emit LogConfiguration (Ret (k r)) else Ret (k r).

Section endpoints.
Context `{Digests} (env : process_env).

Definition hashBindingSecret (secret : string) : string := sha256Hex secret.

Definition ip_bucket (ip : string) (start : Z) : string := sha256Hex ("login-ip:" +:+ ip +:+ "#" +:+ pretty start).

Definition tryConsumeIpRateLimit (ip : string) (limit : option Z) (nowMs : Z) : eprog bool :=
  let windowStart := nowMs / IP_RATE_LIMIT_WINDOW_MS * IP_RATE_LIMIT_WINDOW_MS in
  let ttlEpoch := (windowStart + IP_RATE_LIMIT_WINDOW_MS) / 1000 + 60 in
  embed (consume_counter (UpdateCounter (ip_bucket ip windowStart) limit (Some windowStart) ttlEpoch)).

Definition signUpQuietly (clientId email password : string) : eprog unit :=
  attempt (esend (Auth (SignUp clientId email password [("email", email)]))) (fun _ => Ret tt).

(** The same 401 and 400 for every caller. *)
Definition login_authFailed : HttpResult :=
  {| statusCode := 401; r_headers := [("Content-Type", "application/json")]; r_cookies := [];
     r_body := error_body "Authentication failed" |}.

Definition badRequest : HttpResult :=
  {| statusCode := 400; r_headers := [("Content-Type", "application/json")]; r_cookies := [];
     r_body := error_body "Bad request" |}.

(** The address in the body; [None] is a 400. *)
Definition login_email (b : option string) : option string :=
  text ← b;
  if String.eqb text "" then None
  else
    parsed ← JSON_parse text;
    match prop (Some parsed) "email" with
    | Ok (Some (VString raw)) => if String.eqb raw "" then None else normalizeEmail raw
    | _ => None
    end.

(** The last hop of [x-forwarded-for]; [None] is a 403. *)
Definition login_ip (ev : HttpEvent) : option string :=
  xff ← header ev "x-forwarded-for";
  if String.eqb (trim xff) "" then None
  else
    let clientIp := trim (List.last (split "," xff) "") in
    if String.eqb clientIp "" then None else Some clientIp.

Definition origin_ok (ev : HttpEvent) (domain : string) : bool :=
  match header ev "origin" with
  | Some o => if String.eqb o "" then false else String.eqb o ("https://" +:+ domain)
  | None => false
  end.

Record LoginRequest := {
  lr_email : string;
  lr_ip : string;
  lr_clientId : string;
  lr_userPoolId : string;
  lr_enrollment : Enrollment;
  lr_ttlMinutes : Z;
  lr_limit : option Z;
  lr_floorMs : Z
}.

(** The deployment's configuration; [None] is a 401. *)
Definition login_config (email ip : string) : option LoginRequest :=
  enrollment ← parseEnrollment (env RuntimeEnv.ENROLLMENT);
  let userPoolId := default "" (env RuntimeEnv.COGNITO_USER_POOL_ID) in
  if bool_decide (enrollment = admin_only) && String.eqb userPoolId "" then None
  else
    _ ← env_value env RuntimeEnv.RATE_LIMIT_TABLE_NAME;
    _ ← env_value env RuntimeEnv.BINDING_TABLE_NAME;
    clientId ← env_value env RuntimeEnv.COGNITO_CLIENT_ID;
    ttlMinutes ← parseTokenTtlMinutes (env RuntimeEnv.TOKEN_TTL_MINUTES);
    Some {| lr_email := email; lr_ip := ip; lr_clientId := clientId; lr_userPoolId := userPoolId;
            lr_enrollment := enrollment; lr_ttlMinutes := ttlMinutes;
            lr_limit := match env RuntimeEnv.LOGIN_IP_PER_WINDOW with
                        | Some raw => parseInt10 raw
                        | None => Some DEFAULT_LOGINS_PER_WINDOW
                        end;
            lr_floorMs := parseMs (env RuntimeEnv.SIGNIN_FLOOR_MS) DEFAULT_SIGNIN_FLOOR_MS |}.

(** Steps 1 to 3, and the configuration. *)
Definition login_request (ev : HttpEvent) : result early LoginRequest :=
  match env_value env RuntimeEnv.DOMAIN with
  | None => Throw (Early true login_authFailed)
  | Some domain =>
      if negb (origin_ok ev domain) then Throw (Early false forbidden)
      else match login_email (body ev) with
           | None => Throw (Early false badRequest)
           | Some email =>
               match login_ip ev with
               | None => Throw (Early false forbidden)
               | Some ip =>
                   match login_config email ip with
                   | None => Throw (Early true login_authFailed)
                   | Some req => Ok req
                   end
               end
           end
  end.

(** The username to start with. *)
Definition login_username (req : LoginRequest) (d : LoginDrawn) : eprog string :=
  match lr_enrollment req with
  | self_signup => let! _ := signUpQuietly (lr_clientId req) (lr_email req) (l_password d) in Ret (lr_email req)
  | admin_only =>
      let! found := allow_list_lookup (lr_userPoolId req) (lr_email req) in
      Ret match found with Some (Some x) => subject x | _ => l_phantom d end
  end.

(** [{ session, username }], or [null]. *)
Definition startAuth (req : LoginRequest) (d : LoginDrawn) : eprog (option (string * string)) :=
  let! username := login_username req d in
  let! out := esend (Auth (InitiateAuth (lr_clientId req) username)) in
  Ret match Session out with
      | None => None
      | Some session =>
          if String.eqb session "" then None
          else Some (session, match echoed_USERNAME out with
                              | Some echoed => if String.eqb echoed "" then username else echoed
                              | None => username
                              end)
      end.

Definition login_accepted (secret : string) (ttlMinutes : Z) : HttpResult :=
  {| statusCode := 202; r_headers := [("Content-Type", "application/json"); ("Cache-Control", "no-store")];
     r_cookies := [buildBindingCookie secret (ttlMinutes * 60)]; r_body := Some "{}" |}.

(** The limiter and the pool: what was started, and the outcome so far. *)
Definition login_start (req : LoginRequest) (d : LoginDrawn) : eprog (option (string * string) * RequestOutcome) :=
  Now (fun nowMs =>
    let! allowed := tryConsumeIpRateLimit (lr_ip req) (lr_limit req) nowMs in
    if allowed then
      let! started := startAuth req d in
      Ret (started, match started with None => auth_error | Some _ => accepted end)
    else Ret (None, rate_limited_ip)).

(** The row is written even with no session. *)
Definition login_store (req : LoginRequest) (d : LoginDrawn) (started : option (string * string))
    (outcome : RequestOutcome) : eprog HttpResult :=
  Now (fun nowMs =>
  Send (PutBinding (hashBindingSecret (l_secret d))
          {| b_expires_at := Some (nowMs / 1000 + lr_ttlMinutes req * 60);
             b_session := fst <$> started; b_username := snd <$> started |}) (fun r =>
    Emit (SignInRequest (match r with Ok _ => outcome | Throw _ => store_error end))
      (Ret (login_accepted (l_secret d) (lr_ttlMinutes req))))).

Definition login_body (req : LoginRequest) (d : LoginDrawn) : eprog HttpResult :=
  attempt (login_start req d) (fun r =>
    let '(started, outcome) := match r with Ok x => x | Throw _ => (None, auth_error) end in
    login_store req d started outcome).

Definition authLogin (d : LoginDrawn) (ev : HttpEvent) : eprog HttpResult :=
  match login_request ev with
  | Throw e => respond_early e id
  | Ok req => withFloor (lr_floorMs req) (login_body req d)
  end.

(** ** auth-verify *)

Definition REFRESH_TOKEN_MAX_AGE : Z := 24 * 60 * 60.

(** The generic 401, which clears the binding cookie. *)
Definition verify_authFailed : HttpResult :=
  {| statusCode := 401; r_headers := [("Content-Type", "application/json"); ("Cache-Control", "no-store")];
     r_cookies := [clearBindingCookie]; r_body := error_body "Authentication failed" |}.

Definition redeem_fail (outcome : RedeemOutcome) : eprog HttpResult := Emit (SignInRedeem outcome) (Ret verify_authFailed).

(** The method, [Origin] and content type. *)
Definition verify_gate (ev : HttpEvent) (domain : string) : option HttpResult :=
  if negb (bool_decide (method ev = Some "POST")) then
    Some {| statusCode := 405; r_headers := [("Allow", "POST")]; r_cookies := []; r_body := None |}
  else if negb (origin_ok ev domain) then Some forbidden
  else if negb (startsWith (toLowerCase (default "" (header ev "content-type"))) "application/json") then Some (status 415)
  else None.

(** The answer in the body. *)
Definition verify_answer (b : option string) : option string :=
  text ← b;
  if String.eqb text "" then None
  else
    parsed ← JSON_parse text;
    match prop (Some parsed) "answer" with
    | Ok (Some (VString a)) => if (String.length a =? 0)%nat || (MAX_ANSWER_LENGTH <? String.length a)%nat then None else Some a
    | _ => None
    end.

(** The cookies of a completed sign-in. *)
Definition signed_in (domain idToken : string) (refreshToken : option string) (idTokenMaxAge : Z) :
    result signin_error HttpResult :=
  match buildSetCookie ID_TOKEN_COOKIE_NAME idToken
          {| c_sameSite := "Lax"; c_path := "/"; c_domain := domain; c_maxAge := idTokenMaxAge |} with
  | Throw e => Throw e
  | Ok idTokenCookie =>
      let respond cookies :=
        {| statusCode := 200; r_headers := [("Content-Type", "application/json"); ("Cache-Control", "no-store")];
           r_cookies := cookies; r_body := Some (stringify (VObject [("ok", VBool true)])) |} in
      let setCookieHeaders := [idTokenCookie; clearBindingCookie] in
      match refreshToken with
      | None => Ok (respond setCookieHeaders)
      | Some t =>
          if String.eqb t "" then Ok (respond setCookieHeaders)
          else match buildSetCookie REFRESH_TOKEN_COOKIE_NAME t
                       {| c_sameSite := "Strict"; c_path := "/auth-verify"; c_domain := domain;
                          c_maxAge := REFRESH_TOKEN_MAX_AGE |} with
               | Throw e => Throw e
               | Ok c => Ok (respond (setCookieHeaders ++ [c])%list)
               end
      end
  end.

(** The row's session and username. *)
Definition pending (row : BindingRow) : option (string * string) :=
  match b_session row, b_username row with
  | Some session, Some username =>
      if String.eqb session "" || String.eqb username "" then None else Some (session, username)
  | _, _ => None
  end.

(** Steps 4 to 6, with the row that was taken. *)
Definition verify_row (domain clientId answer : string) (idTokenMaxAge : Z) (row : BindingRow) : eprog HttpResult :=
  Now (fun nowMs =>
    if match b_expires_at row with None => true | Some e => e * 1000 <=? nowMs end then redeem_fail expired
    else
      match pending row with
      | None => redeem_fail no_session
      | Some (session, username) =>
          Send (Auth (RespondToAuthChallenge clientId session username answer)) (fun r =>
            match r with
            | Throw _ => redeem_fail rejected
            | Ok out =>
                match IdToken out with
                | None => redeem_fail rejected
                | Some idToken =>
                    if String.eqb idToken "" then redeem_fail rejected
                    else match signed_in domain idToken (RefreshToken out) idTokenMaxAge with
                         | Throw e => Raise e
                         | Ok resp => Emit (SignInRedeem redeemed_ok) (Ret resp)
                         end
                end
            end)
      end).

(** Step 3. *)
Definition verify_take (domain clientId answer secret : string) (idTokenMaxAge : Z) : eprog HttpResult :=
  Send (TakeBinding (hashBindingSecret secret)) (fun r =>
    match r with
    | Ok None => redeem_fail no_binding
    | Ok (Some row) => verify_row domain clientId answer idTokenMaxAge row
    | Throw ConditionalCheckFailedException => redeem_fail no_binding
    | Throw _ => redeem_fail redeem_error
    end).

Definition authVerify (ev : HttpEvent) : eprog HttpResult :=
  match env_value env RuntimeEnv.DOMAIN with
  | None => Emit LogConfiguration (Ret verify_authFailed)
  | Some domain =>
      match verify_gate ev domain with
      | Some resp => Ret resp
      | None =>
          match verify_answer (body ev) with
          | None => redeem_fail rejected
          | Some answer =>
              match env_value env RuntimeEnv.COGNITO_CLIENT_ID, env_value env RuntimeEnv.BINDING_TABLE_NAME,
                    parseRefreshTokenValiditySeconds (env RuntimeEnv.REFRESH_TOKEN_VALIDITY_SECONDS) with
              | Some clientId, Some _, Some idTokenMaxAge =>
                  match request_cookie ev BINDING_COOKIE_NAME with
                  | None => redeem_fail no_binding
                  | Some secret => verify_take domain clientId answer secret idTokenMaxAge
                  end
              | _, _, _ => Emit LogConfiguration (Ret verify_authFailed)
              end
          end
      end
  end.

(** ** auth-signout *)

(** The claims of a verified ID token; [cognito_username] when it is a string. *)
Record IdClaims := { cognito_username : option string; sub : string }.

(** [aws-jwt-verify] for a pool and client, with the seconds an expiry may lie
    in the past, on a token at a time; [None] is a refusal. *)
Context (verifyJwt : string -> string -> Z -> string -> Z -> option IdClaims).

Definition buildClearCookieHeaders (domain : string) : result signin_error (list string) :=
  match buildSetCookie ID_TOKEN_COOKIE_NAME ""
          {| c_sameSite := "Lax"; c_path := "/"; c_domain := domain; c_maxAge := 0 |},
        buildSetCookie REFRESH_TOKEN_COOKIE_NAME ""
          {| c_sameSite := "Strict"; c_path := "/auth-verify"; c_domain := domain; c_maxAge := 0 |} with
  | Ok a, Ok b => Ok [a; b]
  | Throw e, _ | _, Throw e => Throw e
  end.

Definition claimed_username (c : IdClaims) : string :=
  match cognito_username c with Some u => if String.eqb u "" then sub c else u | None => sub c end.

Definition revoke (ev : HttpEvent) (userPoolId clientId : string) : eprog RevocationOutcome :=
  match request_cookie ev ID_TOKEN_COOKIE_NAME with
  | None => Ret no_id_token
  | Some idTokenRaw =>
      match parseRefreshTokenValiditySeconds (env RuntimeEnv.REFRESH_TOKEN_VALIDITY_SECONDS) with
      | None => Ret revocation_error
      | Some graceSeconds =>
          Now (fun nowMs =>
            match verifyJwt userPoolId clientId graceSeconds idTokenRaw nowMs with
            | None => Ret unverified
            | Some claims =>
                Send (Auth (AdminUserGlobalSignOut userPoolId (claimed_username claims))) (fun r =>
                  match r with Ok _ => Ret revoked | Throw _ => Ret revocation_error end)
            end)
      end
  end.

Definition signout_outcome (ev : HttpEvent) : eprog RevocationOutcome :=
  match env_value env RuntimeEnv.COGNITO_USER_POOL_ID, env_value env RuntimeEnv.COGNITO_CLIENT_ID with
  | Some userPoolId, Some clientId => revoke ev userPoolId clientId
  | _, _ => Emit LogConfiguration (Ret revocation_error)
  end.

Definition authSignout (ev : HttpEvent) : eprog HttpResult :=
  match env_value env RuntimeEnv.DOMAIN with
  | None => Emit LogConfiguration (Ret (status 500))
  | Some domain =>
      match verify_gate ev domain with
      | Some resp => Ret resp
      | None =>
          let! outcome := signout_outcome ev in
          let finish :=
            match buildClearCookieHeaders domain with
            | Ok cookies => Ret {| statusCode := 200; r_headers := []; r_cookies := cookies; r_body := None |}
            | Throw e => Raise e
            end in
          Emit (SignOutRevocation outcome)
            (match outcome with
             | revocation_error | unverified => Emit LogRevocationFailed finish
             | revoked | no_id_token => finish
             end)
      end
  end.
End endpoints.

(** ** Lemmas *)

(** Commands that leave the binding table alone. *)
Definition spares_bindings X (c : ecmd X) : Prop :=
  match c with PutBinding _ _ | TakeBinding _ => False | _ => True end.

Lemma sends_embed (P : forall X, ecmd X -> Prop) {A} (p : prog A) :
  (forall X (c : cmd X), P X (Base c)) -> sends P (embed p).
Proof. intros HP. induction p as [a|e|k IH|e p IH|X c k IH]; cbn; auto. Qed.

Section proofs.
Context `{Digests} {C : Type} `{CognitoAuth C} (env : process_env).

Lemma deliver_spares dv (s : Site C) {X} (c : ecmd X) :
  spares_bindings X c -> bindings (fst (deliver dv s c)) = bindings s.
Proof.
  intros Hc. assert (bindings (fst (site_effect s c)) = bindings s) as He.
  { destruct c as [Y c|p f l|h row|h|Y c]; try done; cbn [site_effect].
    - by destruct (effect (base s) c).
    - by destruct (auth_step (pool s) (base s) c) as [[c' w'] r]. }
  by destruct dv.
Qed.

Lemma startAuth_spares req d : sends spares_bindings (startAuth req d).
Proof.
  apply sends_await.
  - unfold login_username. destruct (lr_enrollment req); apply sends_await; try done.
    + unfold allow_list_lookup. by destruct (normalizeEmail _).
    + by apply sends_attempt; [split; [|intros []]|].
  - intros username. apply sends_await; [by split; [|intros []]|]. done.
Qed.

Lemma login_start_spares req d : sends spares_bindings (login_start req d).
Proof.
  intros nowMs. apply sends_await; [by apply sends_embed|]. intros []; [|done].
  apply sends_await; [apply startAuth_spares|done].
Qed.

Lemma login_request_facts ev req :
  login_request env ev = Ok req ->
  parseTokenTtlMinutes (env RuntimeEnv.TOKEN_TTL_MINUTES) = Some (lr_ttlMinutes req) /\
  lr_floorMs req = parseMs (env RuntimeEnv.SIGNIN_FLOOR_MS) DEFAULT_SIGNIN_FLOOR_MS /\
  login_ip ev = Some (lr_ip req) /\ login_email (body ev) = Some (lr_email req).
Proof.
  unfold login_request. destruct (env_value _ _); [|done]. destruct (negb _); [done|].
  destruct (login_email _); [|done]. destruct (login_ip _); [|done].
  destruct (login_config _ _ _) as [cfg|] eqn:Ec; [|done]. intros [= ->].
  unfold login_config in Ec. destruct (parseEnrollment _); [|done]. cbn [mbind option_bind] in Ec.
  destruct (_ && _); [done|]. simplify_option_eq. done.
Qed.

(** What a login does to the binding table: it adds its own row, or nothing. *)
Definition login_bindings (d : LoginDrawn) (s s' : Site C) : Prop :=
  bindings s' = bindings s \/
  bindings s !! hashBindingSecret (l_secret d) = None /\
  exists row, bindings s' = <[hashBindingSecret (l_secret d) := row]> (bindings s).

Lemma wp_login_body T D req d s :
  wp T D (login_body req d) s (fun s' r =>
    r = Ok (login_accepted (l_secret d) (lr_ttlMinutes req)) /\ login_bindings d s s' /\
    exists l o, log (base s') = (l ++ [SignInRequest o])%list).
Proof.
  apply wp_attempt.
  apply (wp_weaken _ _ _ (fun s' _ => bindings s' = bindings s)).
  2:{ apply (wp_sends spares_bindings); [|done|apply login_start_spares|done].
      intros X c dv s1 _ Hc <-. by apply deliver_spares. }
  intros s1 r Hb. destruct (match r with Ok x => x | Throw _ => _ end) as [started outcome].
  intros now _ dv _. cbn [wp]. split; [done|].
  split; [|by eexists _, _]. set (row := {| b_expires_at := _; b_session := _; b_username := _ |}).
  assert (login_bindings d s s1 /\ login_bindings d s (fst (site_effect s1 (PutBinding (hashBindingSecret (l_secret d)) row)))) as [H1 H2].
  { split; [by left|]. unfold login_bindings. cbn [site_effect]. rewrite Hb.
    destruct (bindings s !! hashBindingSecret (l_secret d)) eqn:El; [by left|]. right. split; [done|]. exists row.
    done. }
  by destruct dv.
Qed.
End proofs.

(** C6 (login_indistinguishable): once a login request is well-formed, its
    response is the same 202 with a fresh binding cookie, whatever the address,
    the tables, the pool or the network do; it only ever adds the row of its own
    binding, never replaces one; and it returns no sooner than the floor after
    its first clock reading. *)
Theorem login_indistinguishable `{Digests} {C} `{CognitoAuth C} (env : process_env) (d : LoginDrawn) (ev : HttpEvent)
    (req : LoginRequest) (dv : nat -> Z * delivery) (s : Site C) :
  login_request env ev = Ok req ->
  let '(s', r) := run (authLogin env d ev) dv 0 s in
  (exists ttl, parseTokenTtlMinutes (env RuntimeEnv.TOKEN_TTL_MINUTES) = Some ttl /\ r = Ok (login_accepted (l_secret d) ttl)) /\
  login_bindings d s s' /\
  exists l o t, (exists i, t = fst (dv i)) /\
    let remaining := parseMs (env RuntimeEnv.SIGNIN_FLOOR_MS) DEFAULT_SIGNIN_FLOOR_MS - (t - fst (dv 0%nat)) in
    log (base s') = (l ++ SignInRequest o :: if 0 <? remaining then [Slept remaining] else [])%list.
Proof.
  intros Hreq.
  assert (parseTokenTtlMinutes (env RuntimeEnv.TOKEN_TTL_MINUTES) = Some (lr_ttlMinutes req) /\
    lr_floorMs req = parseMs (env RuntimeEnv.SIGNIN_FLOOR_MS) DEFAULT_SIGNIN_FLOOR_MS) as [Httl Hfloor].
  { by apply login_request_facts in Hreq as (? & ? & _). }
  unfold authLogin. rewrite Hreq. unfold withFloor. cbn [run].
  pose proof (wp_run (fun t => exists i, t = fst (dv i)) any_delivery
    (attempt (login_body req d) (fun r => Now (fun t =>
       let remaining := lr_floorMs req - (t - fst (dv 0%nat)) in
       let done := match r with Ok a => Ret a | Throw e => Raise e end in
       if 0 <? remaining then Emit (Slept remaining) done else done))) dv
    (fun s' r => (exists ttl, parseTokenTtlMinutes (env RuntimeEnv.TOKEN_TTL_MINUTES) = Some ttl /\ r = Ok (login_accepted (l_secret d) ttl)) /\
      login_bindings d s s' /\
      exists l o t, (exists i, t = fst (dv i)) /\
        let remaining := lr_floorMs req - (t - fst (dv 0%nat)) in
        log (base s') = (l ++ SignInRequest o :: if 0 <? remaining then [Slept remaining] else [])%list) 1 s) as Hrun.
  destruct (run _ dv 1 s) as [s' r] eqn:E. rewrite <- Hfloor. apply Hrun.
  - intros i. split; [by exists i|done].
  - apply wp_attempt. eapply wp_weaken; [|apply wp_login_body]. intros s1 r1 (-> & Hb & l & o & Hl) t Ht. cbv zeta.
    destruct (0 <? lr_floorMs req - (t - fst (dv 0%nat))) eqn:Er; cbn [wp];
      (split; [by exists (lr_ttlMinutes req)|]); (split; [exact Hb|]); exists l, o, t; (split; [done|]); rewrite Er; [|done].
    cbn. by rewrite Hl, <- app_assoc.
Qed.

(** ** Redemption *)

Section verify.
Context `{Digests} {C : Type} `{CognitoAuth C} (env : process_env) (ev : HttpEvent).

(** A request that gets as far as the binding table. *)
Definition verify_request (domain clientId answer : string) (idTokenMaxAge : Z) (secret : string) : Prop :=
  env_value env RuntimeEnv.DOMAIN = Some domain /\
  method ev = Some "POST" /\ header ev "origin" = Some ("https://" +:+ domain) /\
  (exists parameters, toLowerCase (default "" (header ev "content-type")) = "application/json" +:+ parameters) /\
  (exists text parsed, body ev = Some text /\ JSON_parse text = Some parsed /\
     prop (Some parsed) "answer" = Ok (Some (VString answer))) /\
  (0 < String.length answer <= MAX_ANSWER_LENGTH)%nat /\
  env_value env RuntimeEnv.COGNITO_CLIENT_ID = Some clientId /\
  (exists table, env_value env RuntimeEnv.BINDING_TABLE_NAME = Some table) /\
  parseRefreshTokenValiditySeconds (env RuntimeEnv.REFRESH_TOKEN_VALIDITY_SECONDS) = Some idTokenMaxAge /\
  request_cookie ev BINDING_COOKIE_NAME = Some secret.

(** A row with a sign-in to complete at a time. *)
Definition redeemable (row : BindingRow) (now : Z) (session username : string) : Prop :=
  (exists e, b_expires_at row = Some e /\ now < e * 1000) /\
  b_session row = Some session /\ session <> "" /\ b_username row = Some username /\ username <> "".

(** What an ID token makes of the request. *)
Definition id_token_response (domain idToken : string) (refreshToken : option string) (maxAge : Z) : HttpResult :=
  let idCookie := ID_TOKEN_COOKIE_NAME +:+ "=" +:+ idToken +:+ "; Max-Age=" +:+ pretty maxAge +:+ "; Path=/; Domain=" +:+ domain
                    +:+ "; SameSite=Lax; HttpOnly; Secure" in
  let refreshCookie t := REFRESH_TOKEN_COOKIE_NAME +:+ "=" +:+ t +:+ "; Max-Age=86400; Path=/auth-verify; Domain=" +:+ domain
                    +:+ "; SameSite=Strict; HttpOnly; Secure" in
  {| statusCode := 200; r_headers := [("Content-Type", "application/json"); ("Cache-Control", "no-store")];
     r_cookies := [idCookie; clearBindingCookie] ++ match refreshToken with
                                                    | Some t => if String.eqb t "" then [] else [refreshCookie t]
                                                    | None => []
                                                    end;
     r_body := Some (stringify (VObject [("ok", VBool true)])) |}.

(** The pool's answer to the session, as it reaches the browser: anything but
    a delivered ID token is the generic 401. *)
Definition pool_response (domain : string) (maxAge : Z) (d : delivery) (reply : result cmd_error AuthOutput) (resp : HttpResult) : Prop :=
  (exists out idToken, d = Delivered /\ reply = Ok out /\ IdToken out = Some idToken /\ idToken <> "" /\
     resp = id_token_response domain idToken (RefreshToken out) maxAge) \/
  resp = verify_authFailed /\
  ~ exists out idToken, d = Delivered /\ reply = Ok out /\ IdToken out = Some idToken /\ idToken <> "".

(** Nothing touched. *)
Definition refusal (s s' : Site C) (resp : HttpResult) : Prop :=
  statusCode resp <> 200 /\ pool s' = pool s /\ bindings s' = bindings s.

(** The row taken by the first message; a clock reading; the question to the
    pool by the next message. *)
Definition redemption (dv : nat -> Z * delivery) (s : Site C) (domain clientId answer : string) (maxAge : Z)
    (secret : string) (row : BindingRow) (s' : Site C) (resp : HttpResult) : Prop :=
  bindings s' = delete (sha256Hex secret) (bindings s) /\
  let asked session username := snd (dv 0%nat) = Delivered /\ redeemable row (fst (dv 1%nat)) session username in
  (forall session username, asked session username ->
     let '(c', _, reply) := auth_step (pool s) (base s) (RespondToAuthChallenge clientId session username answer) in
     pool s' = match snd (dv 2%nat) with LostRequest => pool s | _ => c' end /\
     pool_response domain maxAge (snd (dv 2%nat)) reply resp) /\
  ((~ exists session username, asked session username) -> pool s' = pool s /\ resp = verify_authFailed).

Lemma verify_gate_passes domain :
  verify_gate ev domain = None <->
  method ev = Some "POST" /\ header ev "origin" = Some ("https://" +:+ domain) /\
  (exists parameters, toLowerCase (default "" (header ev "content-type")) = "application/json" +:+ parameters).
Proof.
  unfold verify_gate, origin_ok. case_bool_decide as Hm; cbn [negb]; [|naive_solver].
  destruct (header ev "origin") as [o|]; cbn [negb]; [|naive_solver].
  assert ((if String.eqb o "" then false else String.eqb o ("https://" +:+ domain)) = String.eqb o ("https://" +:+ domain)) as ->
    by by destruct (String.eqb_spec o "") as [->|].
  destruct (String.eqb_spec o ("https://" +:+ domain)) as [->|]; cbn [negb]; [|naive_solver].
  destruct (startsWith _ _) eqn:Es; cbn [negb].
  - apply prefix_spec in Es. naive_solver.
  - split; [done|]. intros (_ & _ & r & Hr). unfold startsWith in Es. by rewrite Hr, prefix_app in Es.
Qed.

Lemma verify_answer_Some answer :
  verify_answer (body ev) = Some answer <->
  (exists text parsed, body ev = Some text /\ JSON_parse text = Some parsed /\
     prop (Some parsed) "answer" = Ok (Some (VString answer))) /\
  (0 < String.length answer <= MAX_ANSWER_LENGTH)%nat.
Proof.
  unfold verify_answer. destruct (body ev) as [text|]; cbn [mbind option_bind]; [|naive_solver].
  destruct (String.eqb_spec text "") as [->|_].
  { split; [done|]. intros [(t & v & [= <-] & Hp & _) _]. by vm_compute in Hp. }
  destruct (JSON_parse text) as [v|] eqn:Ep; cbn [mbind option_bind]; [|naive_solver].
  split.
  - destruct (prop (Some v) "answer") as [[[| | |a| |]|]|] eqn:Ev; try done.
    destruct (_ || _) eqn:El; [done|]. intros [= <-]. apply orb_false_iff in El as [?%Nat.eqb_neq ?%Nat.ltb_ge].
    split; [by exists text, v|]. lia.
  - intros [(t & v' & [= <-] & Hp & Hv) Hl]. rewrite Ep in Hp. injection Hp as <-. rewrite Hv.
    destruct (Nat.eqb_spec (String.length answer) 0), (Nat.ltb_spec MAX_ANSWER_LENGTH (String.length answer)); cbn [orb]; lia || done.
Qed.

Lemma pending_redeemable row now session username :
  redeemable row now session username <->
  (exists e, b_expires_at row = Some e /\ now < e * 1000) /\ pending row = Some (session, username).
Proof.
  unfold redeemable, pending. destruct (b_session row) as [x|], (b_username row) as [y|]; try naive_solver.
  destruct (String.eqb_spec x ""), (String.eqb_spec y ""); cbn [orb]; naive_solver.
Qed.

Lemma signed_in_response domain idToken refresh maxAge :
  domain <> "" -> signed_in domain idToken refresh maxAge = Ok (id_token_response domain idToken refresh maxAge).
Proof.
  intros Hd. unfold signed_in, buildSetCookie, id_token_response. cbn [c_path c_domain c_sameSite c_maxAge].
  change (String.eqb "/" "") with false. change (String.eqb "/auth-verify" "") with false. cbn [orb].
  apply String.eqb_neq in Hd. rewrite Hd. cbn [join]. rewrite ?str_app_assoc.
  destruct refresh as [t|]; [destruct (String.eqb t "")|]; reflexivity.
Qed.

Lemma env_value_nonempty name v : env_value env name = Some v -> v <> "".
Proof. unfold env_value. destruct (env name) as [x|]; [|done]. destruct (String.eqb_spec x ""); [done|]. by intros [= <-]. Qed.

(** With the row in hand. *)
Lemma run_verify_row domain clientId answer maxAge row dv n (s : Site C) :
  domain <> "" ->
  let '(s', r) := run (verify_row domain clientId answer maxAge row) dv n s in
  exists resp, r = Ok resp /\ bindings s' = bindings s /\
    (forall session username, redeemable row (fst (dv n)) session username ->
       let '(c', _, reply) := auth_step (pool s) (base s) (RespondToAuthChallenge clientId session username answer) in
       pool s' = match snd (dv (S n)) with LostRequest => pool s | _ => c' end /\
       pool_response domain maxAge (snd (dv (S n))) reply resp) /\
    ((~ exists session username, redeemable row (fst (dv n)) session username) -> pool s' = pool s /\ resp = verify_authFailed).
Proof.
  intros Hd. unfold verify_row. cbn [run].
  assert (forall o, (~ exists session username, redeemable row (fst (dv n)) session username) ->
    let '(s', r) := run (redeem_fail o) dv (S n) s in exists resp, r = Ok resp /\ bindings s' = bindings s /\
      (forall session username, redeemable row (fst (dv n)) session username ->
         let '(c', _, reply) := auth_step (pool s) (base s) (RespondToAuthChallenge clientId session username answer) in
         pool s' = match snd (dv (S n)) with LostRequest => pool s | _ => c' end /\
         pool_response domain maxAge (snd (dv (S n))) reply resp) /\
      ((~ exists session username, redeemable row (fst (dv n)) session username) -> pool s' = pool s /\ resp = verify_authFailed)) as Hno.
  { intros o Hn. eexists. split; [reflexivity|]. split; [done|]. split; [|done].
    intros session username Hr. destruct Hn. by exists session, username. }
  destruct (b_expires_at row) as [e|] eqn:Ee; [|apply Hno; intros (x & y & (e & He & _) & _); congruence].
  destruct (Z.leb_spec (e * 1000) (fst (dv n))) as [Hle|Hlt].
  { apply Hno. intros (x & y & (e' & He & ?) & _). simplify_eq. lia. }
  destruct (pending row) as [[session username]|] eqn:Ep.
  2:{ apply Hno. intros (x & y & (_ & Hxy)%pending_redeemable). congruence. }
  assert (forall x y, redeemable row (fst (dv n)) x y <-> x = session /\ y = username) as Hred.
  { intros x y. rewrite pending_redeemable, Ep. split; [by intros [_ [= <- <-]]|]. intros [-> ->]. split; [by exists e|done]. }
  clear Hno. destruct (auth_step (pool s) (base s) (RespondToAuthChallenge clientId session username answer)) as [[c' w'] reply] eqn:Ea.
  assert (forall s' resp, bindings s' = bindings s ->
    pool s' = match snd (dv (S n)) with LostRequest => pool s | _ => c' end ->
    pool_response domain maxAge (snd (dv (S n))) reply resp ->
    exists resp', @Ok signin_error _ resp = Ok resp' /\ bindings s' = bindings s /\
      (forall x y, redeemable row (fst (dv n)) x y ->
         let '(c', _, reply) := auth_step (pool s) (base s) (RespondToAuthChallenge clientId x y answer) in
         pool s' = match snd (dv (S n)) with LostRequest => pool s | _ => c' end /\
         pool_response domain maxAge (snd (dv (S n))) reply resp') /\
      ((~ exists x y, redeemable row (fst (dv n)) x y) -> pool s' = pool s /\ resp' = verify_authFailed)) as Hyes.
  { intros s' resp Hb Hp Hr. exists resp. split; [done|]. split; [done|]. split; [by intros x y [-> ->]%Hred; rewrite Ea|].
    intros Hn. destruct Hn. exists session, username. by apply Hred. }
  cbn [run]. destruct (snd (dv (S n))) eqn:Edv; cbn [deliver perform site_service site_effect]; rewrite ?Ea; cbn [fst snd];
    [|unfold redeem_fail; cbn [run]; apply Hyes; [done|done|]; right; split; [done|]; naive_solver..].
  destruct reply as [out|err]; [|unfold redeem_fail; cbn [run]; apply Hyes; [done|done|]; right; split; [done|]; naive_solver].
  destruct (IdToken out) as [idt|] eqn:Ei; [|unfold redeem_fail; cbn [run]; apply Hyes; [done|done|]; right; split; [done|]; naive_solver].
  destruct (String.eqb_spec idt "") as [->|Hne]; [unfold redeem_fail; cbn [run]; apply Hyes; [done|done|]; right; split; [done|]; naive_solver|].
  rewrite signed_in_response by done. cbn [run]. apply Hyes; [done|done|]. left. by exists out, idt.
Qed.
Lemma run_verify_take domain clientId answer maxAge secret dv (s : Site C) :
  domain <> "" ->
  let '(s', r) := run (verify_take domain clientId answer secret maxAge) dv 0 s in
  exists resp, r = Ok resp /\
    ((forall row, bindings s !! sha256Hex secret = Some row -> snd (dv 0%nat) = LostRequest) -> refusal s s' resp) /\
    (forall row, bindings s !! sha256Hex secret = Some row -> snd (dv 0%nat) <> LostRequest ->
       redemption dv s domain clientId answer maxAge secret row s' resp).
Proof.
  intros Hd. unfold verify_take. cbn [run]. unfold hashBindingSecret.
  assert (forall o, snd (dv 0%nat) = LostRequest \/ bindings s !! sha256Hex secret = None ->
    let '(s', r) := run (redeem_fail o) dv 1 s in exists resp, r = Ok resp /\
      ((forall row, bindings s !! sha256Hex secret = Some row -> snd (dv 0%nat) = LostRequest) -> refusal s s' resp) /\
      (forall row, bindings s !! sha256Hex secret = Some row -> snd (dv 0%nat) <> LostRequest ->
         redemption dv s domain clientId answer maxAge secret row s' resp)) as Hun.
  { intros o Hor. eexists. split; [reflexivity|]. split; [done|]. intros row Hrow Hl. destruct Hor; congruence. }
  destruct (snd (dv 0%nat)) eqn:Edv; cbn [deliver perform site_service site_effect];
    [|by apply Hun; left|]; (destruct (bindings s !! sha256Hex secret) as [row|] eqn:Eb; cbn [fst snd]; [|by apply Hun; right]).
  - pose proof (run_verify_row domain clientId answer maxAge row dv 1 (set_bindings s (delete (sha256Hex secret) (bindings s))) Hd) as Hrow.
    destruct (run _ dv 1 _) as [s' r]. destruct Hrow as (resp & -> & Hb & Hyes & Hno). exists resp. split; [done|].
    split; [intros Hn; by specialize (Hn row eq_refl)|]. intros row' [= <-] _. split; [done|]. split.
    + intros session username [_ Hr]. exact (Hyes session username Hr).
    + intros Hn. apply Hno. intros (x & y & Hr). apply Hn. by exists x, y.
  - eexists. split; [reflexivity|]. split; [intros Hn; by specialize (Hn row eq_refl)|]. intros row' [= <-] _.
    split; [done|]. split; [|done]. intros x y [[=] _]; congruence.
Qed.

(** The request is well-formed, or refused before anything is sent. *)
Lemma authVerify_cases :
  (exists domain clientId answer maxAge secret, verify_request domain clientId answer maxAge secret /\
     authVerify env ev = verify_take domain clientId answer secret maxAge) \/
  (~ exists domain clientId answer maxAge secret, verify_request domain clientId answer maxAge secret) /\
  exists resp, statusCode resp <> 200 /\ (authVerify env ev = Ret resp \/ exists e, authVerify env ev = Emit e (Ret resp)).
Proof.
  assert (forall resp, statusCode resp <> 200 -> authVerify env ev = Ret resp \/ (exists e, authVerify env ev = Emit e (Ret resp)) ->
    (forall domain clientId answer maxAge secret, ~ verify_request domain clientId answer maxAge secret) ->
    (~ exists domain clientId answer maxAge secret, verify_request domain clientId answer maxAge secret) /\
    exists resp, statusCode resp <> 200 /\ (authVerify env ev = Ret resp \/ exists e, authVerify env ev = Emit e (Ret resp)))
    as Hno by naive_solver.
  unfold authVerify in *.
  destruct (env_value env RuntimeEnv.DOMAIN) as [domain|] eqn:Edom.
  2:{ right. eapply Hno; [|right; by eexists|]; [done|]. intros ????? Hq. destruct Hq; congruence. }
  destruct (verify_gate ev domain) as [resp|] eqn:Eg.
  { right. eapply Hno; [|by left|].
    - unfold verify_gate in Eg. by repeat case_match; simplify_eq.
    - intros d ???? (Hd & H1 & H2 & H3 & _). assert (d = domain) as -> by congruence.
      by rewrite (proj2 (verify_gate_passes domain)) in Eg. }
  destruct (verify_answer (body ev)) as [answer|] eqn:Ea.
  2:{ right. eapply Hno; [|right; by eexists|]; [done|]. intros ?? a ?? (_ & _ & _ & _ & H1 & H2 & _).
      by rewrite (proj2 (verify_answer_Some a)) in Ea. }
  apply verify_gate_passes in Eg as (Hm & Ho & Hc). apply verify_answer_Some in Ea as [Hans Hlen].
  destruct (env_value env RuntimeEnv.COGNITO_CLIENT_ID) as [clientId|] eqn:Ec;
    [|right; eapply Hno; [|right; by eexists|]; [done|]; intros ?????; unfold verify_request; naive_solver congruence].
  destruct (env_value env RuntimeEnv.BINDING_TABLE_NAME) as [table|] eqn:Et;
    [|right; eapply Hno; [|right; by eexists|]; [done|]; intros ?????; unfold verify_request; naive_solver congruence].
  destruct (parseRefreshTokenValiditySeconds _) as [maxAge|] eqn:Em;
    [|right; eapply Hno; [|right; by eexists|]; [done|]; intros ?????; unfold verify_request; naive_solver congruence].
  destruct (request_cookie ev BINDING_COOKIE_NAME) as [secret|] eqn:Es;
    [|right; eapply Hno; [|right; by eexists|]; [done|]; intros ?????; unfold verify_request; naive_solver congruence].
  left. exists domain, clientId, answer, maxAge, secret. split; [|done]. by repeat split; eauto; lia.
Qed.

Lemma verify_request_unique d c a m x d' c' a' m' x' :
  verify_request d c a m x -> verify_request d' c' a' m' x' -> d' = d /\ c' = c /\ a' = a /\ m' = m /\ x' = x.
Proof.
  intros (? & _ & _ & _ & (t & v & Ht & Hp & Ha) & _ & ? & _ & ? & ?) (? & _ & _ & _ & (t' & v' & Ht' & Hp' & Ha') & _ & ? & _ & ? & ?).
  split; [congruence|]. split; [congruence|]. split; [|split; congruence].
  assert (t' = t) as -> by congruence. assert (v' = v) as -> by congruence. congruence.
Qed.
End verify.

(** C7 (verify_spec): a redemption request is refused, with neither the binding
    table nor the pool touched, unless it is a POST from the site's origin, in
    JSON, with an answer of at most the length limit and the binding cookie of a
    stored row, the endpoint is configured, and the request for the row arrives.
    When all this holds, the row is gone afterwards, whatever the outcome. If its
    reply arrives too, the row's expiry is ahead and it names a session and a
    user, the pool is asked once, with them; otherwise the pool is not asked and
    the answer is the 401. The answer is a 200, with exactly its cookies, if the
    pool's reply arrives with an ID token, and the 401 if not. *)
Theorem verify_spec `{Digests} {C} `{CognitoAuth C} (env : process_env) (ev : HttpEvent) (dv : nat -> Z * delivery)
    (s : Site C) :
  let '(s', r) := run (authVerify env ev) dv 0 s in
  exists resp, r = Ok resp /\
    ((~ exists domain clientId answer maxAge secret row, verify_request env ev domain clientId answer maxAge secret /\
        bindings s !! sha256Hex secret = Some row /\ snd (dv 0%nat) <> LostRequest) -> refusal s s' resp) /\
    (forall domain clientId answer maxAge secret row,
       verify_request env ev domain clientId answer maxAge secret ->
       bindings s !! sha256Hex secret = Some row -> snd (dv 0%nat) <> LostRequest ->
       redemption dv s domain clientId answer maxAge secret row s' resp).
Proof.
  destruct (authVerify_cases env ev) as [(domain & clientId & answer & maxAge & secret & Hreq & ->)|[Hno (resp & Hst & Hr)]].
  - pose proof (run_verify_take domain clientId answer maxAge secret dv s) as Htake.
    destruct (run _ dv 0 s) as [s' r]. destruct Htake as (resp & -> & Hun & Htaken); [by eapply env_value_nonempty, Hreq|].
    exists resp. split; [done|]. split.
    + intros Hn. apply Hun. intros row Hrow. destruct (snd (dv 0%nat)) eqn:Edv; [|done|]; destruct Hn; by exists domain, clientId, answer, maxAge, secret, row.
    + intros ?????? Hreq' Hrow Hl. destruct (verify_request_unique env ev _ _ _ _ _ _ _ _ _ _ Hreq Hreq') as (-> & -> & -> & -> & ->).
      by apply Htaken.
  - assert (exists s', run (authVerify env ev) dv 0 s = (s', Ok resp) /\ pool s' = pool s /\ bindings s' = bindings s)
      as (s' & -> & Hp & Hb) by (destruct Hr as [->|[e ->]]; by eexists).
    exists resp. split; [done|]. split; [done|]. intros ?????? Hreq. destruct Hno. by do 5 eexists.
Qed.

(** ** Sign-out *)

(** The user a verified token of the request names. *)
Definition verified_user (env : process_env) (verifyJwt : string -> string -> Z -> string -> Z -> option IdClaims)
    (ev : HttpEvent) (T : Z -> Prop) (userPoolId username : string) : Prop :=
  exists clientId graceSeconds token claims now,
    env_value env RuntimeEnv.COGNITO_USER_POOL_ID = Some userPoolId /\
    env_value env RuntimeEnv.COGNITO_CLIENT_ID = Some clientId /\
    parseRefreshTokenValiditySeconds (env RuntimeEnv.REFRESH_TOKEN_VALIDITY_SECONDS) = Some graceSeconds /\
    request_cookie ev ID_TOKEN_COOKIE_NAME = Some token /\ T now /\
    verifyJwt userPoolId clientId graceSeconds token now = Some claims /\ username = claimed_username claims.

Lemma wp_signout_outcome {C} `{CognitoAuth C} T D env verifyJwt ev (s : Site C) :
  wp T D (signout_outcome env verifyJwt ev) s (fun s' r => is_ok r = true /\ bindings s' = bindings s /\
    (pool s' = pool s \/ exists userPoolId username, verified_user env verifyJwt ev T userPoolId username /\
       pool s' = fst (fst (auth_step (pool s) (base s) (AdminUserGlobalSignOut userPoolId username))))).
Proof.
  unfold signout_outcome. destruct (env_value env RuntimeEnv.COGNITO_USER_POOL_ID) as [p|] eqn:Ep;
    [|cbn; split; [done|]; split; [done|]; by left].
  destruct (env_value env RuntimeEnv.COGNITO_CLIENT_ID) as [c|] eqn:Ec; [|cbn; split; [done|]; split; [done|]; by left].
  unfold revoke. destruct (request_cookie _ _) as [token|] eqn:Et; [|cbn; split; [done|]; split; [done|]; by left].
  destruct (parseRefreshTokenValiditySeconds _) as [g|] eqn:Eg; [|cbn; split; [done|]; split; [done|]; by left].
  intros now Hnow. destruct (verifyJwt p c g token now) as [claims|] eqn:Ev; [|cbn; split; [done|]; split; [done|]; by left].
  assert (verified_user env verifyJwt ev T p (claimed_username claims)) as Hv by (by exists c, g, token, claims, now).
  set (c0 := AdminUserGlobalSignOut p (claimed_username claims)).
  set (Q := fun (s' : Site C) (r : result signin_error RevocationOutcome) => is_ok r = true /\ bindings s' = bindings s /\
    (pool s' = pool s \/ exists userPoolId username, verified_user env verifyJwt ev T userPoolId username /\
       pool s' = fst (fst (auth_step (pool s) (base s) (AdminUserGlobalSignOut userPoolId username))))).
  assert (forall s' o, bindings s' = bindings s -> pool s' = fst (fst (auth_step (pool s) (base s) c0)) -> Q s' (Ok o)) as Hstep
    by (intros s' o Hb Hp; split; [done|]; split; [done|]; right; by exists p, (claimed_username claims)).
  intros dv _. destruct dv; [|split; [done|]; split; [done|]; by left|]; cbn [deliver perform site_service site_effect];
    destruct (auth_step (pool s) (base s) c0) as [[c' w'] reply] eqn:Ea; cbn [fst snd].
  - destruct reply; by apply Hstep.
  - by apply Hstep.
Qed.

(** Also (signout_spec): a sign-out request that passes the method, origin and
    content-type checks always gets a 200 that clears both cookies, whatever
    happens to the revocation; the pool is touched at most by one global
    sign-out, of the user that a verified ID token of the request names. *)
Theorem signout_spec {C} `{CognitoAuth C} (env : process_env)
    (verifyJwt : string -> string -> Z -> string -> Z -> option IdClaims) (ev : HttpEvent) (domain : string)
    (dv : nat -> Z * delivery) (s : Site C) :
  env_value env RuntimeEnv.DOMAIN = Some domain -> verify_gate ev domain = None ->
  let '(s', r) := run (authSignout env verifyJwt ev) dv 0 s in
  (exists cookies, buildClearCookieHeaders domain = Ok cookies /\ length cookies = 2%nat /\
     r = Ok {| statusCode := 200; r_headers := []; r_cookies := cookies; r_body := None |}) /\
  bindings s' = bindings s /\
  (pool s' = pool s \/ exists userPoolId username,
     verified_user env verifyJwt ev (fun t => exists i, t = fst (dv i)) userPoolId username /\
     pool s' = fst (fst (auth_step (pool s) (base s) (AdminUserGlobalSignOut userPoolId username)))).
Proof.
  intros Hdom Hgate. apply (wp_run (fun t => exists i, t = fst (dv i)) any_delivery); [by intros i; split; [exists i|]|].
  unfold authSignout. rewrite Hdom, Hgate. apply wp_await.
  assert (exists cookies, buildClearCookieHeaders domain = Ok cookies /\ length cookies = 2%nat) as (cookies & Hck & Hlen).
  { unfold buildClearCookieHeaders, buildSetCookie. cbn [c_path c_domain].
    change (String.eqb "/" "") with false. change (String.eqb "/auth-verify" "") with false. cbn [orb].
    apply env_value_nonempty, String.eqb_neq in Hdom. rewrite Hdom. by eexists. }
  eapply wp_weaken; [|apply wp_signout_outcome]. intros s1 [o|e] (Hok & Hb & Hp); [|done].
  rewrite Hck. destruct o; cbn [wp]; (split; [by exists cookies|]); by split.
Qed.
