(* ===== verification/AuthEndpointsRace.v ===== *)
(** Interleaved requests to the sign-in endpoints, one message at a time, with
    requests and replies lost at will: a binding is redeemed once; the per-IP
    limit holds. *)

From stdpp Require Import pretty.
From S2P Require Import Prelude JsString Json Prog SignIn MagicLink BounceHandler AuthEndpoints.
From Stdlib Require Import Ascii.

#[local] Open Scope string_scope.
#[local] Open Scope Z_scope.

Inductive request :=
| Login (d : LoginDrawn) (ev : HttpEvent)
| Redeem (ev : HttpEvent).

(** A response, with the binding hash a redemption carried. *)
Inductive response :=
| Started (resp : HttpResult)
| Redeemed (binding : option string) (resp : HttpResult).

Definition request_prog `{Digests} (env : process_env) (q : request) : eprog response :=
  match q with
  | Login d ev => await (authLogin env d ev) (fun resp => Ret (Started resp))
  | Redeem ev =>
      await (authVerify env ev) (fun resp => Ret (Redeemed (hashBindingSecret <$> request_cookie ev BINDING_COOKIE_NAME) resp))
  end.

(** ** A binding is redeemed at most once *)

Section single_use.
Context `{Digests} {C : Type} `{CognitoAuth C} (env : process_env) (h : string).

Definition binding_gain {X} (c : ecmd X) (r : result cmd_error X) : Z :=
  match c in ecmd X return result cmd_error X -> Z with
  | PutBinding h' _ => fun _ => if String.eqb h' h then -1 else 0
  | TakeBinding h' => fun r => match r with Ok (Some _) => if String.eqb h' h then 1 else 0 | _ => 0 end
  | _ => fun _ => 0
  end r.

Definition bound (s : Site C) : Z := match bindings s !! h with Some _ => 1 | None => 0 end.

Definition redeemed_200 (r : response) : Z :=
  match r with
  | Redeemed (Some h') resp => if String.eqb h' h && (statusCode resp =? 200) then 1 else 0
  | _ => 0
  end.

(** The logins that would write a row under [h]. *)
Definition binds (q : request) : Z :=
  match q with Login d _ => if String.eqb (hashBindingSecret (l_secret d)) h then 1 else 0 | Redeem _ => 0 end.

#[local] Notation budget_b :=
  (budget (fun _ => True) (fun X (_ : ecmd X) => True) (fun X (_ : ecmd X) _ => True) (fun X => @binding_gain X)).

(** Sending only what spares the table keeps a balance. *)
Lemma budget_spares {E A} (p : Prog.prog ecmd cmd_error E event A) b :
  0 <= b -> sends spares_bindings p -> budget_b (fun b' _ => b' = b) b p.
Proof.
  intros Hb. induction p as [a|e|k IH|e p IH|X c k IH]; cbn; try naive_solver.
  intros [Hc Hk]. split; [done|]. split; [done|]. intros r _.
  replace (binding_gain c r) with 0 by (by destruct c). rewrite Z.add_0_r. by apply IH.
Qed.

Lemma login_budget d ev :
  budget_b (settles redeemed_200) (binds (Login d ev)) (request_prog env (Login d ev)).
Proof.
  assert (0 <= binds (Login d ev)) as Hb by (cbn; destruct (String.eqb _ _); lia).
  apply budget_await. unfold authLogin. destruct (login_request env ev) as [req|[logged resp]].
  2:{ unfold respond_early. destruct logged; cbn; split; done || (split; done || lia). }
  split; [done|]. intros start _. apply budget_attempt, budget_attempt.
  eapply budget_weaken; [|apply budget_spares; [done|apply login_start_spares]].
  intros b r ->. destruct (match r with Ok x => x | Throw _ => _ end) as [started outcome].
  split; [done|]. intros now _. split; [done|]. split; [done|]. intros r2 _. cbn [binding_gain].
  assert (0 <= binds (Login d ev) + (if String.eqb (hashBindingSecret (l_secret d)) h then -1 else 0)) as Hb2
    by (cbn; destruct (String.eqb _ _); lia).
  split; [done|]. split; [done|]. intros t _. cbv zeta. destruct (0 <? _); [split; [exact Hb2|]|]; split; exact Hb2.
Qed.

Lemma verify_budget ev : budget_b (settles redeemed_200) 0 (request_prog env (Redeem ev)).
Proof.
  apply budget_await.
  assert (forall b resp, 0 <= b -> statusCode resp <> 200 ->
    budget_b (settles redeemed_200) b (Ret (Redeemed (hashBindingSecret <$> request_cookie ev BINDING_COOKIE_NAME) resp) : eprog response)) as Hno.
  { intros b resp Hb Hs. apply Z.eqb_neq in Hs. cbn. split; [done|].
    destruct (hashBindingSecret <$> _); [|done]. by rewrite Hs, andb_false_r. }
  assert (forall b o, 0 <= b -> budget_b (fun b' r => match r with
    | Ok resp => budget_b (settles redeemed_200) b'
        (Ret (Redeemed (hashBindingSecret <$> request_cookie ev BINDING_COOKIE_NAME) resp) : eprog response)
    | Throw e => settles redeemed_200 b' (Throw e) end) b (redeem_fail o)) as Hfail
    by (intros b o Hb; split; [done|]; by apply Hno).
  unfold authVerify. destruct (env_value _ _) as [domain|]; [|split; [done|]; by apply Hno].
  destruct (verify_gate ev domain) as [resp|] eqn:Eg.
  { apply Hno; [done|]. unfold verify_gate in Eg. by repeat case_match; simplify_eq. }
  destruct (verify_answer _) as [answer|]; [|by apply Hfail].
  destruct (env_value _ _) as [clientId|]; [|split; [done|]; by apply Hno].
  destruct (env_value _ _); [|split; [done|]; by apply Hno].
  destruct (parseRefreshTokenValiditySeconds _) as [maxAge|]; [|split; [done|]; by apply Hno].
  destruct (request_cookie ev BINDING_COOKIE_NAME) as [secret|] eqn:Es; [|by apply Hfail].
  cbn [fmap option_fmap option_map] in *.
  split; [done|]. split; [done|]. intros r _. cbn [binding_gain]. rewrite Z.add_0_l.
  destruct r as [[row|]|e]; [|by apply Hfail|by destruct e; apply Hfail].
  set (b := if String.eqb (hashBindingSecret secret) h then 1 else 0).
  assert (0 <= b) as Hb by (unfold b; destruct (String.eqb _ _); lia).
  split; [done|]. intros now _. destruct (match b_expires_at row with None => true | Some e => _ end); [by apply Hfail|].
  destruct (pending row) as [[session username]|]; [|by apply Hfail].
  split; [done|]. split; [done|]. intros r _. cbn [binding_gain]. rewrite Z.add_0_r.
  destruct r as [out|e]; [|by apply Hfail]. destruct (IdToken out) as [idt|]; [|by apply Hfail].
  destruct (String.eqb idt ""); [by apply Hfail|]. destruct (signed_in _ _ _ _) as [resp|e]; [|done].
  split; [done|]. cbn. split; [done|]. unfold b. destruct (String.eqb _ h), (statusCode resp =? 200); cbn; lia.
Qed.

Lemma binding_deliver dv (s : Site C) {X} (c : ecmd X) :
  bound (fst (deliver dv s c)) + binding_gain c (snd (deliver dv s c)) <= bound s.
Proof.
  assert (binding_gain c (Throw Unavailable) <= 0) as Hl by (destruct c; cbn; try lia; destruct (String.eqb _ _); lia).
  assert (bound (fst (site_effect s c)) + binding_gain c (snd (site_effect s c)) <= bound s /\
          bound (fst (site_effect s c)) + binding_gain c (Throw Unavailable) <= bound s) as [He Hr].
  { destruct c as [Y c|p f l|h' row|h'|Y c]; cbn [site_effect binding_gain]; unfold bound.
    - destruct (effect (base s) c). cbn. lia.
    - cbn. lia.
    - destruct (bindings s !! h') as [row0|] eqn:E; cbn [fst snd bindings set_bindings];
        destruct (String.eqb_spec h' h) as [->|]; rewrite ?E, ?lookup_insert_eq, ?lookup_insert_ne by done; split; repeat case_match; lia.
    - destruct (bindings s !! h') as [row0|] eqn:E; cbn [fst snd bindings set_bindings];
        destruct (String.eqb_spec h' h) as [->|]; rewrite ?E, ?lookup_delete_eq, ?lookup_delete_ne by done; split; repeat case_match; lia.
    - destruct (auth_step (pool s) (base s) c) as [[c' w'] r]. cbn. lia. }
  destruct dv; cbn [deliver perform lost site_service fst snd]; [|lia|exact Hr].
  by destruct (site_effect s c).
Qed.
End single_use.

Definition redeemed_count `{Digests} (h : string) (ps : list (eprog response)) : Z :=
  sumZ (map (claimed (redeemed_200 h)) ps).

(** C5 (binding_single_use): of all logins and redemptions, however they
    interleave and lose messages, the redemptions answered 200 for one browser
    secret number at most its row at the start plus the logins that drew it.
    With fresh secrets that is one: N concurrent redemptions of a link in one
    browser sign in once. *)
Theorem binding_single_use `{Digests} {C} `{CognitoAuth C} (env : process_env) (h : string) (qs : list request)
    (sched : list (nat * (Z * delivery))) (s : Site C) :
  let '(s', ps) := run_steps sched s (map (request_prog env) qs) in
  redeemed_count h ps + bound h s' <= bound h s + sumZ (map (binds h) qs).
Proof.
  pose proof (run_steps_potential (fun _ => True) (fun _ => True) (bound h)
    (fun X (_ : ecmd X) => True) (fun X (_ : ecmd X) _ => True) (fun X => @binding_gain h X) (redeemed_200 h)
    sched s (map (request_prog env) qs) (map (binds h) qs)) as Hp.
  destruct (run_steps sched s _) as [s' ps]. enough (sumZ (map (claimed (redeemed_200 h)) ps) + bound h s'
    <= sumZ (map (binds h) qs) + bound h s) by (unfold redeemed_count; lia).
  apply Hp; [| | |by apply Forall_forall|done].
  - intros X u c dv _ _. pose proof (binding_deliver h dv u c) as Hd. by destruct (deliver dv u c).
  - intros u e _. split; [done|]. unfold bound. cbn. lia.
  - apply Forall2_fmap_l, Forall2_fmap_r, Forall_Forall2_diag, Forall_forall.
    intros [d ev|ev] _; [apply login_budget|apply verify_budget].
Qed.

(** ** The per-IP limit *)

(** A pool that counts the sign-ins it was asked to start. *)
Section counting.
Context {C : Type} `{CognitoAuth C}.

Definition is_start {X} (c : auth_cmd X) : Z := match c with InitiateAuth _ _ => 1 | _ => 0 end.

#[local] Instance counting_pool : CognitoAuth (C * Z) :=
  {| auth_step X c w cmd :=
       let '(c', w', r) := auth_step (fst c) w cmd in ((c', snd c + is_start cmd), w', r) |}.

Definition starts (s : Site (C * Z)) : Z := snd (pool s).

Context `{Digests} (env : process_env) (ip : string) (L n0 start : Z).
#[local] Notation B := (ip_bucket ip start).
#[local] Notation T := (fun t => t / IP_RATE_LIMIT_WINDOW_MS * IP_RATE_LIMIT_WINDOW_MS = start).
Context (Hpool : forall X (c : C) w (cmd : auth_cmd X),
  counters (snd (fst (auth_step c w cmd))) !! B = counters w !! B).

Definition ip_gain {X} (c : ecmd X) (r : result cmd_error X) : Z :=
  match c with
  | Base (UpdateCounter b _ _ _) => if String.eqb b B && is_ok r then 1 else 0
  | Auth (InitiateAuth _ _) => -1
  | _ => 0
  end.

Definition ip_allowed X (c : ecmd X) : Prop :=
  match c with
  | Base (UpdateCounter b limit _ _) => b = B /\ limit = Some L
  | Base _ => False
  | _ => True
  end.

Definition ip_count (s : Site (C * Z)) : Z := counter_count (counters (base s) !! B).
Definition ip_inv (s : Site (C * Z)) : Prop := ip_count s <= Z.max (Z.max L 1) n0.
Definition uncounted (s : Site (C * Z)) : Z := starts s - ip_count s.

Lemma ip_effect (s : Site (C * Z)) {X} (c : ecmd X) :
  ip_inv s -> ip_allowed X c ->
  ip_inv (fst (site_effect s c)) /\ uncounted (fst (site_effect s c)) + ip_gain c (snd (site_effect s c)) <= uncounted s /\
  uncounted (fst (site_effect s c)) + ip_gain c (Throw Unavailable) <= uncounted s.
Proof.
  intros Hi Hc. destruct c as [Y c|p f l|h row|h|Y c]; cbn [site_effect].
  - destruct c; try done. destruct Hc as [-> ->]. cbn [effect]. unfold ip_inv, uncounted, ip_count, starts in *.
    destruct (counter_allows _ _ _) eqn:Ea; cbn [fst snd ip_gain is_ok base pool set_base].
    + rewrite String.eqb_refl. cbn [andb counters set_counters]. rewrite lookup_insert_eq.
      unfold counter_allows in Ea. destruct (counters (base s) !! B); cbn [counter_count counter_next count] in *; bool_hyps; lia.
    + rewrite andb_false_r. lia.
  - cbn [fst snd ip_gain]. split; [done|lia].
  - assert (forall b, ip_inv (set_bindings s b) /\ uncounted (set_bindings s b) = uncounted s) as Hsame by done.
    destruct (bindings s !! h); cbn [fst snd ip_gain]; [|edestruct Hsame as [? ->]]; (split; [done|lia]).
  - assert (forall b, ip_inv (set_bindings s b) /\ uncounted (set_bindings s b) = uncounted s) as Hsame by done.
    destruct (bindings s !! h); cbn [fst snd ip_gain]; [edestruct Hsame as [? ->]|]; (split; [done|lia]).
  - unfold ip_inv, uncounted, ip_count, starts in *. cbn [auth_step counting_pool].
    pose proof (Hpool Y (fst (pool s)) (base s) c) as Hp. destruct (auth_step (fst (pool s)) (base s) c) as [[c' w'] r].
    cbn [fst snd base pool] in *. rewrite Hp. split; [done|]. destruct c; cbn [ip_gain is_start]; lia.
Qed.

Lemma ip_deliver dv (s : Site (C * Z)) {X} (c : ecmd X) :
  ip_inv s -> ip_allowed X c ->
  let '(s', r) := deliver dv s c in ip_inv s' /\ True /\ uncounted s' + ip_gain c r <= uncounted s.
Proof.
  intros Hi Hc. destruct (ip_effect s c Hi Hc) as (H1 & H2 & H3).
  assert (ip_gain c (Throw Unavailable) <= 0) as Hl
    by (destruct c as [Y []| | | |Y []]; cbn; rewrite ?andb_false_r; lia).
  destruct dv; cbn [deliver perform lost site_service].
  - destruct (site_effect s c). done.
  - split; [done|]. split; [done|lia].
  - by split.
Qed.

#[local] Notation budget_i :=
  (budget T (fun X => @ip_allowed X) (fun X (_ : ecmd X) _ => True) (fun X => @ip_gain X)).

Lemma startAuth_budget req d b : 1 <= b -> budget_i (fun b' _ => 0 <= b') b (startAuth req d).
Proof.
  intros Hb. apply budget_await.
  assert (forall username, budget_i (fun b' _ => 0 <= b') b
    (await (esend (Auth (InitiateAuth (lr_clientId req) username))) (fun out => Ret
      match Session out with
      | None => None
      | Some session => if String.eqb session "" then None
          else Some (session, match echoed_USERNAME out with
                              | Some echoed => if String.eqb echoed "" then username else echoed
                              | None => username
                              end)
      end) : eprog (option (string * string)))) as Hinit.
  { intros username. apply budget_await. split; [lia|]. split; [done|]. intros [out|e] _; cbn; lia. }
  unfold login_username. destruct (lr_enrollment req).
  - apply budget_await. unfold allow_list_lookup. destruct (normalizeEmail _); [|apply Hinit].
    split; [lia|]. split; [done|]. intros r _. cbn [ip_gain]. rewrite Z.add_0_r. cbn [budget]. apply Hinit.
  - apply budget_await, budget_attempt. split; [lia|]. split; [done|]. intros r _. cbn [ip_gain]. rewrite Z.add_0_r.
    destruct r; apply Hinit.
Qed.

Lemma login_ip_budget d ev :
  (forall req, login_request env ev = Ok req -> lr_ip req = ip /\ lr_limit req = Some L) ->
  budget_i (settles (fun _ => 0)) 0 (authLogin env d ev).
Proof.
  intros Hreq. unfold authLogin. destruct (login_request env ev) as [req|[logged resp]].
  2:{ unfold respond_early. destruct logged; by repeat split. }
  destruct (Hreq req eq_refl) as [Hip HL].
  split; [done|]. intros start0 _. apply budget_attempt, budget_attempt.
  assert (forall b started outcome, 0 <= b -> budget_i (fun b' r => budget_i (settles (fun _ => 0)) b'
    (Now (fun t => let remaining := lr_floorMs req - (t - start0) in
       let done := match r with Ok a => Ret a | Throw e => Raise e end in
       if 0 <? remaining then Emit (Slept remaining) done else done) : eprog HttpResult)) b
    (login_store req d started outcome)) as Hstore.
  { intros b started outcome Hb. split; [done|]. intros now _. split; [done|]. split; [done|]. intros r _.
    cbn [ip_gain]. rewrite Z.add_0_r. split; [done|]. split; [done|]. intros t _. cbv zeta.
    destruct (0 <? _); [split; [done|]|]; by split. }
  split; [done|]. intros now Hnow. unfold tryConsumeIpRateLimit. rewrite Hip, HL, Hnow. apply budget_await.
  split; [done|]. split; [done|]. intros r _. cbn [ip_gain]. rewrite String.eqb_refl. cbn [andb]. rewrite Z.add_0_l.
  destruct r as [[]|e]; cbn [is_ok]; [|destruct e; cbn [embed budget]; by apply Hstore].
  cbn [embed budget]. apply budget_await.
  eapply budget_weaken; [|apply startAuth_budget; lia]. intros b [st|e] Hb; cbn [budget]; by apply Hstore.
Qed.

(** Interleaved logins from one address. *)
Lemma ip_starts (qs : list (LoginDrawn * HttpEvent)) sched s :
  Forall (fun q => forall req, login_request env (snd q) = Ok req -> lr_ip req = ip /\ lr_limit req = Some L) qs ->
  Forall (fun st => T (fst (snd st))) sched -> ip_inv s ->
  let '(s', _) := run_steps sched s (map (fun q => authLogin env (fst q) (snd q)) qs) in
  ip_inv s' /\ uncounted s' <= uncounted s.
Proof.
  intros Hqs Hsched Hi.
  pose proof (run_steps_potential T ip_inv uncounted (fun X => @ip_allowed X) (fun X (_ : ecmd X) _ => True)
    (fun X => @ip_gain X) (fun _ : HttpResult => 0) sched s (map (fun q => authLogin env (fst q) (snd q)) qs)
    (map (fun _ => 0) qs)) as Hp.
  destruct (run_steps sched s _) as [s' ps]. destruct Hp as [Hi' Hle]; [| | |done|done|].
  - intros X u c dv. apply ip_deliver.
  - intros u e Hu. split; [exact Hu|]. unfold uncounted, starts, ip_count. cbn. lia.
  - apply Forall2_fmap_l, Forall2_fmap_r, Forall_Forall2_diag. eapply Forall_impl; [exact Hqs|].
    intros q Hq. by apply login_ip_budget.
  - split; [done|]. rewrite (sumZ_zero (fun _ : LoginDrawn * HttpEvent => 0)) in Hle by done.
    rewrite (sumZ_zero (claimed (fun _ : HttpResult => 0))) in Hle by (by intros []). lia.
Qed.
End counting.

(** Also (ip_limit_bounds_starts): however logins from one client address
    interleave within one 15-minute window, with messages lost, the pool is asked
    to start at most the configured number of sign-ins, less what the address's
    counter stood at (one, if that number is less than one and the counter
    absent), provided the pool's triggers never write that counter. *)
Theorem ip_limit_bounds_starts `{Digests} {C} `{CognitoAuth C} (env : process_env) (ip : string) (L start : Z)
    (qs : list (LoginDrawn * HttpEvent)) (sched : list (nat * (Z * delivery))) (s : Site (C * Z)) :
  (forall X (c : C) w (cmd : auth_cmd X),
     counters (snd (fst (auth_step c w cmd))) !! ip_bucket ip start = counters w !! ip_bucket ip start) ->
  Forall (fun q => forall req, login_request env (snd q) = Ok req -> lr_ip req = ip /\ lr_limit req = Some L) qs ->
  Forall (fun st => fst (snd st) / IP_RATE_LIMIT_WINDOW_MS * IP_RATE_LIMIT_WINDOW_MS = start) sched ->
  let '(s', _) := run_steps (H := @site_service _ counting_pool) sched s (map (fun q => authLogin env (fst q) (snd q)) qs) in
  starts s' <= starts s + Z.max 0 (Z.max L 1 - counter_count (counters (base s) !! ip_bucket ip start)).
Proof.
  intros Hpool Hqs Hsched.
  pose proof (ip_starts env ip L (counter_count (counters (base s) !! ip_bucket ip start)) start Hpool qs sched s Hqs Hsched) as Hp.
  destruct (run_steps sched s _) as [s' ps]. unfold ip_inv, uncounted, ip_count in Hp. lia.
Qed.

(** ** A site to evaluate on *)

Definition site_env : process_env := fun name =>
  let table := [(RuntimeEnv.COGNITO_USER_POOL_ID, "pool"); (RuntimeEnv.COGNITO_CLIENT_ID, "client");
                (RuntimeEnv.BINDING_TABLE_NAME, "bindings"); (RuntimeEnv.LOGIN_IP_PER_WINDOW, "2")] in
  match find (fun kv => String.eqb (fst kv) name) table with Some kv => Some (snd kv) | None => example_env name end.

(** A pool that runs the triggers for a custom-challenge sign-in. *)
Record TriggerPool := { tp_clock : Z; tp_sessions : gmap string (string * PrivateParameters) }.

Definition trigger_step {X} (c : TriggerPool) (w : World) (cmd : auth_cmd X) : TriggerPool * World * result cmd_error X :=
  match cmd in auth_cmd X return TriggerPool * World * result cmd_error X with
  | SignUp _ _ _ _ => (c, w, Ok tt)
  | AdminUserGlobalSignOut _ _ => (c, w, Ok tt)
  | InitiateAuth _ username =>
      let attrs := match lookup_user (users w) username with Some (_, u) => UserAttributes u | None => [] end in
      let ev := {| c_userPoolId := "pool"; c_userName := username; userAttributes := attrs |} in
      match nextChallenge (defineAuthChallenge (Some [])),
            run (createAuthChallenge site_env example_drawn None ev) (delivered (fun _ => tp_clock c)) 0 w with
      | Some _, (w', Ok (_, resp)) =>
          let session := "session-" +:+ pretty (Z.of_nat (size (tp_sessions c))) in
          ({| tp_clock := tp_clock c; tp_sessions := <[session := (username, privateChallengeParameters resp)]> (tp_sessions c) |},
           w', Ok {| Session := Some session; echoed_USERNAME := Some username |})
      | _, (w', _) => (c, w', Throw Unavailable)
      end
  | RespondToAuthChallenge _ session username answer =>
      match tp_sessions c !! session with
      | None => (c, w, Throw Unavailable)
      | Some (u, private) =>
          let ev := {| v_userPoolId := "pool"; v_userName := u; v_private := private;
                       challengeAnswer := Some answer; v_session := [] |} in
          let '(w', r) := run (verifyAuthChallengeResponse site_env None ev) (delivered (fun _ => tp_clock c)) 0 w in
          let correct := match r with Ok (_, b) => b | Throw _ => false end in
          let round := {| challengeName := Some "CUSTOM_CHALLENGE"; challengeResult := Some correct |} in
          (c, w', if issueTokens (defineAuthChallenge (Some [Some round]))
                  then Ok {| IdToken := Some ("id." +:+ u); RefreshToken := Some ("refresh." +:+ u) |}
                  else Throw Unavailable)
      end
  end.

#[local] Instance trigger_pool : CognitoAuth TriggerPool := {| auth_step X := trigger_step |}.

Definition example_site : Site TriggerPool :=
  {| pool := {| tp_clock := 1000000; tp_sessions := ∅ |}; base := example_world; bindings := ∅ |}.

Definition login_event (email : string) : HttpEvent :=
  {| headers := [("origin", Some "https://app.example.com"); ("x-forwarded-for", Some "6.6.6.6, 192.0.2.1")];
     event_cookies := []; body := Some (stringify (VObject [("email", VString email)])); method := Some "POST" |}.

Definition example_login : LoginDrawn := {| l_secret := "browser"; l_phantom := "u-phantom"; l_password := "pw" |}.

Definition redeem_event (answer : string) : HttpEvent :=
  {| headers := [("origin", Some "https://app.example.com"); ("content-type", Some "application/json; charset=utf-8")];
     event_cookies := ["theme=dark"; "__Host-signin=browser"];
     body := Some (stringify (VObject [("answer", VString answer)])); method := Some "POST" |}.

(** Ana asks for a link from her browser and types the code that was mailed:
    she is signed in once; a stranger gets the same response and no mail. *)
Example login_and_redeem_example :
  let '(s1, r1) := run (authLogin site_env example_login (login_event " Ana@Example.com ")) (delivered (fun _ => 1000000)) 0 example_site in
  let '(s2, r2) := run (authLogin site_env example_login (login_event "bob@example.com")) (delivered (fun _ => 1000000)) 0 example_site in
  let '(s3, r3) := run (authVerify site_env (redeem_event (d_code example_drawn))) (delivered (fun _ => 1100000)) 0 s1 in
  let '(s4, r4) := run (authVerify site_env (redeem_event (d_code example_drawn))) (delivered (fun _ => 1100000)) 0 s3 in
  map ToAddress (mails (base s1)) = ["ana@example.com"] /\ mails (base s2) = [] /\ r1 = r2 /\
  result_map statusCode r3 = Ok 200 /\
  result_map r_cookies r3 = Ok ["id-token=id.u-1; Max-Age=2592000; Path=/; Domain=app.example.com; SameSite=Lax; HttpOnly; Secure";
    clearBindingCookie;
    "refresh-token=refresh.u-1; Max-Age=86400; Path=/auth-verify; Domain=app.example.com; SameSite=Strict; HttpOnly; Secure"] /\
  r4 = Ok verify_authFailed.
Proof. vm_compute. repeat split. Qed.

Lemma login_indistinguishable_witness :
  let '(s', r) := run (authLogin site_env example_login (login_event "ana@example.com")) (delivered (fun _ => 1000000)) 0 example_site in
  r = Ok (login_accepted "browser" 10) /\ login_bindings example_login example_site s'.
Proof.
  pose proof (login_indistinguishable site_env example_login (login_event "ana@example.com")
    {| lr_email := "ana@example.com"; lr_ip := "192.0.2.1"; lr_clientId := "client"; lr_userPoolId := "pool";
       lr_enrollment := admin_only; lr_ttlMinutes := 10; lr_limit := Some 2; lr_floorMs := 2500 |}
    (delivered (fun _ => 1000000)) example_site) as Hl.
  destruct (run _ _ 0 example_site) as [s' r]. destruct Hl as ((ttl & Httl & ->) & Hb & _); [vm_compute; reflexivity|].
  vm_compute in Httl. injection Httl as <-. split; [reflexivity|exact Hb].
Defined.

Definition signout_event : HttpEvent :=
  {| headers := [("origin", Some "https://app.example.com"); ("content-type", Some "application/json")];
     event_cookies := ["id-token=id.u-1"]; body := None; method := Some "POST" |}.

Lemma signout_spec_witness :
  let verifyJwt _ _ _ token _ := if String.eqb token "id.u-1" then Some {| cognito_username := Some "u-1"; sub := "u-1" |} else None in
  let '(s', r) := run (authSignout site_env verifyJwt signout_event) (delivered (fun _ => 1000000)) 0 example_site in
  (exists cookies, buildClearCookieHeaders "app.example.com" = Ok cookies /\ length cookies = 2%nat /\
     r = Ok {| statusCode := 200; r_headers := []; r_cookies := cookies; r_body := None |}) /\ bindings s' = bindings example_site.
Proof.
  intros verifyJwt.
  pose proof (signout_spec site_env verifyJwt signout_event "app.example.com" (delivered (fun _ => 1000000)) example_site
    eq_refl eq_refl) as Hs.
  destruct (run _ _ 0 example_site) as [s' r]. destruct Hs as (Hr & Hb & _). exact (conj Hr Hb).
Defined.

(** A pool whose triggers write nothing. *)
#[local] Instance silent_pool : CognitoAuth unit := {| auth_step X c w cmd := (c, w, Throw Unavailable) |}.

Definition silent_site : Site (unit * Z) := {| pool := (tt, 0); base := example_world; bindings := ∅ |}.

Definition five_logins : list (LoginDrawn * HttpEvent) :=
  map (fun n => ({| l_secret := "browser" +:+ pretty n; l_phantom := "p"; l_password := "pw" |}, login_event "ana@example.com"))
    [1; 2; 3; 4; 5].

Definition login_turns : list (nat * (Z * delivery)) :=
  flat_map (fun _ => map (fun i => (i, (1000000, Delivered))) [0; 1; 2; 3; 4]%nat) (seq 0 12).

Lemma ip_limit_bounds_starts_witness :
  let '(s', _) := run_steps (H := @site_service _ counting_pool) login_turns silent_site
    (map (fun q => authLogin site_env (fst q) (snd q)) five_logins) in
  starts s' <= 2.
Proof.
  pose proof (ip_limit_bounds_starts site_env "192.0.2.1" 2 900000 five_logins login_turns silent_site) as Hi.
  destruct (run_steps _ _ _) as [s' ps]. apply Hi.
  - reflexivity.
  - apply Forall_forall. intros q Hq. unfold five_logins in Hq. apply list_elem_of_fmap in Hq as (n & -> & _). cbn [snd].
    intros req Hreq. vm_compute in Hreq. injection Hreq as <-. by split.
  - apply Forall_forall. intros st Hs. apply list_elem_of_In, in_flat_map in Hs as (x & _ & Hs).
    by apply in_map_iff in Hs as (i & <- & _).
Defined.
