(* ===== verification/Verify.v ===== *)
(** Token verification:
    [packages/vestibulum/src/verify/permitted-algs.ts],
    [multi-pool-verifier.ts], [issuer-verifier.ts] and
    [pools/pool-config.ts], [pools/pool-registry.ts].

    [aws-jwt-verify] is an interface: the classes of its errors, and its two
    verifiers, which hold a cache of keys and may fetch, so that a call takes
    the outside world and gives the world and the verifier it leaves. The laws
    are what its documentation says an accepted token satisfies. *)

From S2P Require Import Prelude JsString Json Regex.
From Stdlib Require Import Ascii.

#[local] Open Scope string_scope.
#[local] Open Scope Z_scope.

(** ** permitted-algs.ts *)

Definition PERMITTED_ALGS : list string := ["RS256"; "RS384"; "RS512"; "ES256"; "ES384"; "ES512"].

(** ** pools/pool-config.ts *)

Inductive PoolKind := B2C | B2B.
#[export] Instance pool_kind_eq_dec : EqDecision PoolKind.
Proof. solve_decision. Defined.

(** [string | ReadonlyArray<string>]. *)
Inductive OneOrMany := One (s : string) | Many (l : list string).

Definition as_list (v : OneOrMany) : list string := match v with One s => [s] | Many l => l end.

Record PoolConfig := {
  poolKey : string;
  userPoolId : string;
  clientId : OneOrMany;
  region : string;
  tokenUse : option string;
  kind : option PoolKind
}.

(** ** pools/pool-registry.ts *)

Record PoolRegistry := { byKey : gmap string PoolConfig; frozen : list PoolConfig }.

Inductive setup_error := NoPools | DuplicateKey (key : string).

Fixpoint index_pools (m : gmap string PoolConfig) (pools : list PoolConfig) :
    result setup_error (gmap string PoolConfig) :=
  match pools with
  | [] => Ok m
  | pool :: rest =>
      match m !! poolKey pool with
      | Some _ => Throw (DuplicateKey (poolKey pool))
      | None => index_pools (<[poolKey pool := pool]> m) rest
      end
  end.

Definition createPoolRegistry (pools : list PoolConfig) : result setup_error PoolRegistry :=
  match pools with
  | [] => Throw NoPools
  | _ => (let* m := index_pools ∅ pools in Ok {| byKey := m; frozen := pools |})%js
  end.

Definition registry_get (r : PoolRegistry) (key : string) : option PoolConfig := byKey r !! key.
Definition registry_list (r : PoolRegistry) : list PoolConfig := frozen r.
Definition registry_byKind (r : PoolRegistry) (k : PoolKind) : list PoolConfig :=
  List.filter (fun p => bool_decide (kind p = Some k)) (frozen r).

(** ** The library *)

(** The error classes the code asks for with [instanceof]. *)
Inductive ErrorClass :=
| JwtExpiredError | JwtNotBeforeError | JwtInvalidIssuerError | JwtInvalidAudienceError | JwtInvalidClaimError
| CognitoJwtInvalidClientIdError | CognitoJwtInvalidTokenUseError
| JwtInvalidSignatureError | JwtInvalidSignatureAlgorithmError | JwtParseError
| KidNotFoundInJwksError | JwtWithoutValidKidError | JwksNotAvailableInCacheError | FetchError.

Class JwtErrors := { LibError : Type; instance_of : LibError -> ErrorClass -> bool }.

(** Properties of a Cognito verifier. *)
Record CognitoProps := { cp_userPoolId : string; cp_clientId : OneOrMany; cp_tokenUse : option string }.

(** The client a Cognito token was issued to. *)
Definition token_client (payload : JsonObject) : option JsonValue :=
  match find_key "token_use" payload with
  | Some (VString u) => if String.eqb u "access" then find_key "client_id" payload else find_key "aud" payload
  | _ => None
  end.

(** A payload of a pool's token, as the documentation of
    [CognitoJwtVerifier] says. *)
Definition cognito_payload (issuer : string) (props : CognitoProps) (payload : JsonObject) : Prop :=
  find_key "iss" payload = Some (VString issuer) /\
  (forall u, cp_tokenUse props = Some u -> find_key "token_use" payload = Some (VString u)) /\
  exists c, token_client payload = Some (VString c) /\ In c (as_list (cp_clientId props)).

Class CognitoJwtVerifier `{JwtErrors} (W : Type) := {
  CVerifier : Type;
  cognito_issuer : string -> string;
  cognito_props : CVerifier -> CognitoProps;
  cognito_create : CognitoProps -> result LibError CVerifier;
  cognito_verify : W -> CVerifier -> string -> W * CVerifier * result LibError JsonObject;
  cognito_create_props p v : cognito_create p = Ok v -> cognito_props v = p;
  cognito_verify_props w v t : cognito_props (snd (fst (cognito_verify w v t))) = cognito_props v;
  cognito_accepts w v t payload : snd (cognito_verify w v t) = Ok payload ->
    cognito_payload (cognito_issuer (cp_userPoolId (cognito_props v))) (cognito_props v) payload
}.

(** ** multi-pool-verifier.ts *)

Inductive MultiPoolReason :=
| unknown_issuer | expired | invalid_signature | wrong_client_id | wrong_token_use | malformed_token | wrong_pool.

Record VerifiedToken := { vt_poolKey : string; claims : JsonObject; rawToken : string }.

Definition canonicalIssuer (region userPoolId : string) : string :=
  "https://cognito-idp." +:+ region +:+ ".amazonaws.com/" +:+ userPoolId.

Definition pool_issuer (p : PoolConfig) : string := canonicalIssuer (region p) (userPoolId p).

Section multi_pool.
Context {W : Type} `{Errs : JwtErrors} `{!CognitoJwtVerifier W}.

(** [Buffer.from(s, 'base64').toString('utf8')] after the two [replace]. *)
Context (base64url_utf8 : string -> string).

Record PoolEntry := { e_poolKey : string; e_issuer : string; e_verifier : CVerifier }.

#[local] Notation Entries := (gmap string PoolEntry).

Definition decodeIssUnchecked (token : string) : option string :=
  match split "." token with
  | [_; payload; _] =>
      if String.eqb payload "" then None
      else
        match JSON_parse (base64url_utf8 payload) with
        | Some (VObject obj) => match find_key "iss" obj with Some (VString iss) => Some iss | _ => None end
        | _ => None
        end
  | _ => None
  end.

Inductive create_error := NoPoolConfig | DuplicateIssuer (issuer : string) | Library (e : LibError).

Definition pool_props (pool : PoolConfig) : CognitoProps :=
  {| cp_userPoolId := userPoolId pool; cp_clientId := clientId pool; cp_tokenUse := tokenUse pool |}.

Fixpoint add_pools (entries : Entries) (pools : list PoolConfig) : result create_error Entries :=
  match pools with
  | [] => Ok entries
  | pool :: rest =>
      let issuer := pool_issuer pool in
      match entries !! issuer with
      | Some _ => Throw (DuplicateIssuer issuer)
      | None =>
          match cognito_create (pool_props pool) with
          | Throw e => Throw (Library e)
          | Ok v => add_pools (<[issuer := {| e_poolKey := poolKey pool; e_issuer := issuer; e_verifier := v |}]> entries) rest
          end
      end
  end.

Definition createMultiPoolVerifier (pools : list PoolConfig) : result create_error Entries :=
  match pools with [] => Throw NoPoolConfig | _ => add_pools ∅ pools end.

Definition mapError (e : LibError) : MultiPoolReason :=
  if instance_of e JwtExpiredError then expired
  else if instance_of e CognitoJwtInvalidClientIdError then wrong_client_id
  else if instance_of e CognitoJwtInvalidTokenUseError then wrong_token_use
  else if instance_of e JwtInvalidSignatureError || instance_of e JwtInvalidSignatureAlgorithmError then invalid_signature
  else if instance_of e JwtParseError then malformed_token
  else if instance_of e JwtInvalidClaimError then malformed_token
  else malformed_token.

Definition verify (w : W) (entries : Entries) (token : string) : W * Entries * result MultiPoolReason VerifiedToken :=
  if String.eqb token "" then (w, entries, Throw malformed_token)
  else
    match decodeIssUnchecked token with
    | None => (w, entries, Throw malformed_token)
    | Some unverifiedIss =>
        match entries !! unverifiedIss with
        | None => (w, entries, Throw unknown_issuer)
        | Some entry =>
            let '(w', v', r) := cognito_verify w (e_verifier entry) token in
            (w', <[unverifiedIss := {| e_poolKey := e_poolKey entry; e_issuer := e_issuer entry; e_verifier := v' |}]> entries,
             match r with
             | Ok payload => Ok {| vt_poolKey := e_poolKey entry; claims := payload; rawToken := token |}
             | Throw e => Throw (mapError e)
             end)
        end
    end.

(** Calls one after the other. *)
Fixpoint verify_all (w : W) (entries : Entries) (tokens : list string) : list (result MultiPoolReason VerifiedToken) :=
  match tokens with
  | [] => []
  | t :: rest => let '(w', entries', r) := verify w entries t in r :: verify_all w' entries' rest
  end.

(** [None] is success. *)
Definition requirePool (token : VerifiedToken) (expected : OneOrMany) : result MultiPoolReason unit :=
  if existsb (String.eqb (vt_poolKey token)) (as_list expected) then Ok tt else Throw wrong_pool.
End multi_pool.

(** ** Pools are told apart *)

Section multi_pool_laws.
Context {W : Type} `{Errs : JwtErrors} `{!CognitoJwtVerifier W}.
Context (base64url_utf8 : string -> string).

#[local] Notation Entries := (gmap string PoolEntry).
#[local] Notation verify := (verify base64url_utf8).
#[local] Notation verify_all := (verify_all base64url_utf8).

(** Every entry is a configured pool's, under its canonical issuer. *)
Definition entry_of (issuer : string) (e : PoolEntry) (pool : PoolConfig) : Prop :=
  issuer = pool_issuer pool /\ e_poolKey e = poolKey pool /\ cognito_props (e_verifier e) = pool_props pool.

Definition entries_ok (pools : list PoolConfig) (entries : Entries) : Prop :=
  (forall issuer e, entries !! issuer = Some e -> exists pool, In pool pools /\ entry_of issuer e pool) /\
  (forall pool, In pool pools -> is_Some (entries !! pool_issuer pool)).

Lemma add_pools_ok pools : forall seen entries entries',
  entries_ok seen entries -> NoDup (map pool_issuer seen) ->
  add_pools entries pools = Ok entries' ->
  entries_ok (seen ++ pools)%list entries' /\ NoDup (map pool_issuer (seen ++ pools)).
Proof.
  induction pools as [|pool rest IH]; intros seen entries entries' Hok Hnd; cbn [add_pools].
  - intros [= <-]. by rewrite app_nil_r.
  - destruct (entries !! pool_issuer pool) as [e|] eqn:Hx; [done|].
    destruct (cognito_create (pool_props pool)) as [v|] eqn:Hc; [|done]. intros Hr.
    change (pool :: rest) with ([pool] ++ rest)%list. rewrite app_assoc.
    apply (IH (seen ++ [pool])%list) in Hr; [done| |].
    + destruct Hok as [He Hp]. split.
      * intros issuer e. rewrite lookup_insert. case_decide as Hi; [intros [= <-]|intros Hl].
        -- exists pool. split; [apply in_or_app; right; by left|]. split; [done|]. split; [done|]. by apply cognito_create_props.
        -- destruct (He _ _ Hl) as (p & Hin & Hp'). exists p. split; [apply in_or_app; by left|done].
      * intros p [Hin|[->|[]]]%in_app_or; rewrite lookup_insert; case_decide; eauto. done.
    + rewrite map_app. apply NoDup_app. split; [done|]. split; [|by apply NoDup_singleton].
      intros issuer Hin Heq%list_elem_of_singleton. subst. apply list_elem_of_In, in_map_iff in Hin as (p & Hp & Hin).
      destruct Hok as [_ Hp']. destruct (Hp' _ Hin) as [e He]. rewrite Hp in He. congruence.
Qed.

Lemma create_ok pools entries :
  createMultiPoolVerifier pools = Ok entries -> entries_ok pools entries /\ NoDup (map pool_issuer pools).
Proof.
  unfold createMultiPoolVerifier. destruct pools as [|p pools]; [done|]. intros H.
  apply (add_pools_ok (p :: pools) [] ∅ entries); [|constructor|done].
  split; [|done]. intros issuer e. by rewrite lookup_empty.
Qed.

Lemma verify_ok pools w entries t :
  entries_ok pools entries -> entries_ok pools (snd (fst (verify w entries t))).
Proof.
  intros Hok. unfold Verify.verify. destruct (String.eqb t ""); [done|].
  destruct (decodeIssUnchecked _ t) as [iss|]; [|done].
  destruct (entries !! iss) as [entry|] eqn:He; [|done].
  pose proof (cognito_verify_props w (e_verifier entry) t) as Hprops.
  destruct (cognito_verify w (e_verifier entry) t) as [[w' v'] r]. cbn in Hprops |- *.
  destruct Hok as [Hent Hp]. split.
  - intros issuer e. rewrite lookup_insert. case_decide as Hi; [|apply Hent]. intros [= <-]. subst.
    destruct (Hent _ _ He) as (pool & Hin & Hi & Hk & Hq). exists pool. split; [done|]. split; [done|]. split; [done|].
    cbn. congruence.
  - intros pool Hin. rewrite lookup_insert. case_decide; eauto.
Qed.

(** What one call may answer. *)
Definition answer_ok (pools : list PoolConfig) (token : string) (r : result MultiPoolReason VerifiedToken) : Prop :=
  match r with
  | Ok vt =>
      rawToken vt = token /\
      exists pool, In pool pools /\ vt_poolKey vt = poolKey pool /\
        decodeIssUnchecked base64url_utf8 token = Some (pool_issuer pool) /\
        cognito_payload (cognito_issuer (userPoolId pool)) (pool_props pool) (claims vt)
  | Throw e =>
      e <> wrong_pool /\
      (e = unknown_issuer <-> exists iss, decodeIssUnchecked base64url_utf8 token = Some iss /\
                                          ~ In iss (map pool_issuer pools))
  end.

Lemma mapError_reason e : mapError e <> wrong_pool /\ mapError e <> unknown_issuer.
Proof. unfold mapError. by repeat (case_match; try done). Qed.

Lemma verify_answer pools w entries t :
  entries_ok pools entries -> answer_ok pools t (snd (verify w entries t)).
Proof.
  intros [Hent Hp]. unfold Verify.verify. destruct (String.eqb_spec t "") as [->|_].
  { split; [done|]. split; [done|]. by intros (iss & Hd & _). }
  destruct (decodeIssUnchecked _ t) as [iss|] eqn:Hd.
  2: { cbn. rewrite Hd. split; [done|]. split; [done|]. by intros (i & Hi & _). }
  destruct (entries !! iss) as [entry|] eqn:He.
  - pose proof (cognito_accepts w (e_verifier entry) t) as Hacc.
    destruct (cognito_verify w (e_verifier entry) t) as [[w' v'] r]. cbn in Hacc |- *.
    destruct (Hent _ _ He) as (pool & Hin & Hi & Hk & Hq). destruct r as [payload|e].
    + split; [done|]. exists pool. subst iss. rewrite <- Hk. split; [done|]. split; [done|]. split; [done|].
      specialize (Hacc payload eq_refl). by rewrite Hq in Hacc.
    + destruct (mapError_reason e) as [Hw Hu]. split; [done|]. split; [done|].
      intros (i & Hi' & Hno). rewrite Hd in Hi'. injection Hi' as <-. destruct Hno. subst iss. by apply in_map.
  - cbn. rewrite Hd. split; [done|]. split; [intros _|done]. exists iss. split; [done|].
    intros (pool & <- & Hin)%in_map_iff. destruct (Hp _ Hin) as [e Hx]. congruence.
Qed.

(** C18 (Tokens are tied to their pool): once a verifier could be built, its
    pools have distinct issuers; and at any point of any sequence of calls an
    accepted token is reported under the key of a configured pool, and its
    verified claims have that pool's own issuer, the configured use and one of
    the configured clients, whatever the unverified text claimed; a token is
    refused as of an unknown issuer exactly when the issuer it claims is no
    configured pool's. *)
Theorem pool_isolation pools entries w tokens i t r :
  createMultiPoolVerifier pools = Ok entries ->
  tokens !! i = Some t -> verify_all w entries tokens !! i = Some r ->
  NoDup (map pool_issuer pools) /\ answer_ok pools t r.
Proof.
  intros [Hok Hnd]%create_ok Ht Hr. split; [done|]. clear Hnd. revert w entries i Hok Ht Hr.
  induction tokens as [|t' rest IH]; intros w entries [|i] Hok; cbn; try done; intros Ht.
  - injection Ht as ->. pose proof (verify_answer pools w entries t Hok) as Ha.
    destruct (verify w entries t) as [[w' entries'] r']. cbn in Ha |- *. by intros [= <-].
  - pose proof (verify_ok pools w entries t' Hok) as Hok'.
    destruct (verify w entries t') as [[w' entries'] r']. cbn in Hok' |- *. intros Hi. by apply (IH w' entries' i).
Qed.

#[local] Arguments pool_issuer : simpl never.

(** The issuer determines the pool. *)
Lemma pool_unique pools p q :
  NoDup (map pool_issuer pools) -> In p pools -> In q pools -> pool_issuer p = pool_issuer q -> p = q.
Proof.
  induction pools as [|x pools IH]; [done|]. cbn. intros Hnd [->|Hp] [->|Hq] Heq; [done|..].
  - inversion_clear Hnd as [|? ? Hx _]. destruct Hx. rewrite Heq. by apply list_elem_of_In, in_map.
  - inversion_clear Hnd as [|? ? Hx _]. destruct Hx. rewrite <- Heq. by apply list_elem_of_In, in_map.
  - inversion_clear Hnd. by apply IH.
Qed.

(** [requirePool] lets a verified token through for a pool key among those
    expected only. *)
Lemma requirePool_spec vt expected :
  requirePool vt expected = Ok tt <-> In (vt_poolKey vt) (as_list expected).
Proof.
  unfold requirePool. destruct (existsb _ _) eqn:E.
  - split; [intros _|done]. apply existsb_exists in E as (k & Hk & ->%String.eqb_eq). done.
  - split; [done|]. intros Hin. assert (existsb (String.eqb (vt_poolKey vt)) (as_list expected) = true); [|congruence].
    apply existsb_exists. exists (vt_poolKey vt). split; [done|]. apply String.eqb_refl.
Qed.
End multi_pool_laws.

(** ** A run

    Tokens without signatures whose parts have dots written as [~]. *)

#[export] Instance error_class_eq_dec : EqDecision ErrorClass.
Proof. solve_decision. Defined.

#[export] Instance toy_errors : JwtErrors :=
  {| LibError := ErrorClass; instance_of e c := bool_decide (e = c) |}.

Definition undot (s : string) : string := str_map (fun c => if Ascii.eqb c "~" then "."%char else c) s.
Definition dotless (s : string) : string := str_map (fun c => if Ascii.eqb c "." then "~"%char else c) s.

Definition toy_issuer (userPoolId : string) : string :=
  canonicalIssuer (match split "_" userPoolId with r :: _ => r | [] => "" end) userPoolId.

Definition is_claim (name value : string) (payload : JsonObject) : bool :=
  match find_key name payload with Some (VString s) => String.eqb s value | _ => false end.

Definition toy_cognito_verify (v : CognitoProps) (token : string) : result ErrorClass JsonObject :=
  match split "." token with
  | [_; p; _] =>
      match JSON_parse (undot p) with
      | Some (VObject payload) =>
          if negb (is_claim "iss" (toy_issuer (cp_userPoolId v)) payload) then Throw JwtInvalidIssuerError
          else if negb (match cp_tokenUse v with Some u => is_claim "token_use" u payload | None => true end)
          then Throw CognitoJwtInvalidTokenUseError
          else match token_client payload with
               | Some (VString c) =>
                   if existsb (String.eqb c) (as_list (cp_clientId v)) then Ok payload
                   else Throw CognitoJwtInvalidClientIdError
               | _ => Throw CognitoJwtInvalidClientIdError
               end
      | _ => Throw JwtParseError
      end
  | _ => Throw JwtParseError
  end.

Lemma is_claim_true name value payload : is_claim name value payload = true <-> find_key name payload = Some (VString value).
Proof.
  unfold is_claim. destruct (find_key name payload) as [[| | |t| |]|]; try (split; done).
  rewrite String.eqb_eq. split; [by intros ->|by intros [= ->]].
Qed.

#[export] Program Instance toy_cognito : CognitoJwtVerifier unit :=
  {| CVerifier := CognitoProps; cognito_issuer := toy_issuer; cognito_props v := v; cognito_create p := Ok p;
     cognito_verify w v t := (w, v, toy_cognito_verify v t) |}.
Next Obligation. intros p v [= ->]. done. Qed.
Next Obligation. done. Qed.
Next Obligation.
  intros w v t payload. cbn. unfold toy_cognito_verify. destruct (split "." t) as [|? [|p [|? [|]]]]; try done.
  destruct (JSON_parse (undot p)) as [[]|]; try done.
  destruct (is_claim "iss" _ _) eqn:Hi; [|done]. apply is_claim_true in Hi.
  destruct (match cp_tokenUse v with Some u => _ | None => _ end) eqn:Hu; [|done]. cbn [negb].
  destruct (token_client _) as [[| | |c| |]|] eqn:Hc; try done.
  destruct (existsb _ _) eqn:He; [|done]. intros [= <-]. split; [done|]. split.
  - intros u Heq. rewrite Heq in Hu. by apply is_claim_true.
  - exists c. split; [done|]. by apply existsb_exists in He as (x & Hx & ->%String.eqb_eq).
Qed.

Definition b2c : PoolConfig :=
  {| poolKey := "b2c"; userPoolId := "eu-central-1_AbC"; clientId := One "web"; region := "eu-central-1";
     tokenUse := Some "id"; kind := Some B2C |}.
Definition b2b : PoolConfig :=
  {| poolKey := "b2b"; userPoolId := "eu-west-1_XyZ"; clientId := Many ["api"; "cli"]; region := "eu-west-1";
     tokenUse := Some "access"; kind := Some B2B |}.

Definition pool_token (issuer use client : string) : string :=
  "h." +:+ dotless (stringify (VObject [("iss", VString issuer); ("token_use", VString use); ("aud", VString client);
                                        ("client_id", VString client)])) +:+ ".s".

Example pools_run :
  match createMultiPoolVerifier [b2c; b2b] with
  | Ok entries =>
      map (fun r => match r with Ok vt => Ok (vt_poolKey vt) | Throw e => Throw e end)
        (verify_all undot tt entries
           [pool_token (pool_issuer b2b) "access" "cli"; pool_token (pool_issuer b2c) "id" "web";
            pool_token (pool_issuer b2c) "access" "web"; pool_token (pool_issuer b2b) "access" "web";
            pool_token "https://evil.example" "id" "web"; "nonsense"]) =
      [Ok "b2b"; Ok "b2c"; Throw wrong_token_use; Throw wrong_client_id; Throw unknown_issuer; Throw malformed_token]
  | Throw _ => False
  end.
Proof. vm_compute. reflexivity. Qed.

Lemma pool_isolation_witness :
  exists entries r, createMultiPoolVerifier [b2c; b2b] = Ok entries /\
    NoDup (map pool_issuer [b2c; b2b]) /\
    answer_ok (W := unit) undot [b2c; b2b] (pool_token (pool_issuer b2b) "access" "cli") r.
Proof.
  eexists _, _. split; [reflexivity|].
  eapply (pool_isolation undot [b2c; b2b] _ tt [pool_token (pool_issuer b2b) "access" "cli"] 0); reflexivity.
Defined.
