(* ===== verification/IssuerVerifier.v ===== *)
(** The single-issuer verifier:
    [packages/vestibulum/src/verify/issuer-verifier.ts].

    [aws-jwt-verify]'s generic [JwtVerifier] is an interface like the Cognito
    one of [Verify]: a verifier holds keys, is created from properties and an
    optional source of keys, and a call may fetch. The library calls the
    [customJwtCheck] it was given on the header and payload it has validated. *)

From S2P Require Import Prelude JsString Json Regex Verify.
From Stdlib Require Import Ascii QArith Qabs Lqa.

#[local] Open Scope string_scope.
#[local] Open Scope Z_scope.

Module IssuerVerifier.

Inductive IssuerKind := cognito | generic.

Inductive IssuerReason :=
| unknown_issuer | expired | not_yet_valid | invalid_signature | wrong_audience | wrong_token_use | missing_exp
| disallowed_alg | malformed_token | invalid_claim.

(** [F] is the configuration of the stale-key fallback. *)
Record IssuerVerifierConfig (F : Type) := {
  issuer : string;
  audience : OneOrMany;
  jwksUri : option string;
  graceSeconds : option Z;
  issuerKind : option IssuerKind;
  tokenUse : option string;
  expectedAzp : option string;
  expectedTyp : option string;
  algAllowlist : option (list string);
  jwksFallback : option F
}.
Arguments issuer {F}.
Arguments audience {F}.
Arguments jwksUri {F}.
Arguments graceSeconds {F}.
Arguments issuerKind {F}.
Arguments tokenUse {F}.
Arguments expectedAzp {F}.
Arguments expectedTyp {F}.
Arguments algAllowlist {F}.
Arguments jwksFallback {F}.

(** A check of header and payload: the reason of the error it throws. *)
Definition jwt_check := JsonObject -> JsonObject -> option IssuerReason.

Record JwtVerifierProps := {
  jp_issuer : string;
  jp_audience : OneOrMany;
  jp_jwksUri : option string;
  jp_graceSeconds : Z;
  jp_check : jwt_check
}.

(** An error of a verification: the library's, or the one the check threw,
    passed on as it is. *)
Inductive failure `{JwtErrors} := Lib (e : LibError) | Custom (reason : IssuerReason).

Definition aud_values (payload : JsonObject) : list string :=
  match find_key "aud" payload with
  | Some (VString a) => [a]
  | Some (VArray l) => omap (fun v => match v with VString a => Some a | _ => None end) l
  | _ => []
  end.

(** The [exp] of a payload that has one has not passed at [now] ms. *)
Definition unexpired (now grace : Z) (payload : JsonObject) : Prop :=
  forall t q, find_key "exp" payload = Some (VNumber t) -> Number t = Some q ->
    (inject_Z now / 1000 <= q + inject_Z grace)%Q.

(** [K] are the sources of keys a verifier can be created with. *)
Class JwtVerifier `{JwtErrors} (W K : Type) := {
  JVerifier : Type;
  jwt_props : JVerifier -> JwtVerifierProps;
  world_now : W -> Z;
  decomposed : string -> option (JsonObject * JsonObject);
  jwt_create : JwtVerifierProps -> option K -> result LibError JVerifier;
  jwt_verify : W -> JVerifier -> string -> W * JVerifier * result failure JsonObject;
  jwt_create_props p k v : jwt_create p k = Ok v -> jwt_props v = p;
  jwt_verify_props w v t : jwt_props (snd (fst (jwt_verify w v t))) = jwt_props v;
  jwt_verify_clock w v t : world_now w <= world_now (fst (fst (jwt_verify w v t)));
  jwt_accepts w v t payload : snd (jwt_verify w v t) = Ok payload ->
    exists header, decomposed t = Some (header, payload) /\ jp_check (jwt_props v) header payload = None /\
      find_key "iss" payload = Some (VString (jp_issuer (jwt_props v))) /\
      (exists a, In a (aud_values payload) /\ In a (as_list (jp_audience (jwt_props v)))) /\
      unexpired (world_now w) (jp_graceSeconds (jwt_props v)) payload
}.

(** [/^https:\/\/cognito-idp\.[a-z0-9-]+\.amazonaws\.com\/[^/]+$/]. *)
Definition region_char (c : ascii) : bool := in_range "a" "z" c || is_digit c || Ascii.eqb c "-".

Definition COGNITO_ISSUER_RE : re :=
  (lits "https://cognito-idp." ⋅ plus (RCls region_char) ⋅ lits ".amazonaws.com/" ⋅
   plus (RCls (fun c => negb (Ascii.eqb c "/"))))%re.

(** [Number.isFinite] of the double a number text stands for: from half a
    step above the largest double on it is an infinity. *)
Definition is_finite (q : Q) : bool :=
  let bound := inject_Z (2 ^ 1024 - 2 ^ 970) in
  match Qcompare (Qabs q) bound with Lt => true | _ => false end.

(** [typeof v === 'number' && Number.isFinite(v)]. *)
Definition finite_number (v : option JsonValue) : bool :=
  match v with
  | Some (VNumber t) => match Number t with Some q => is_finite q | None => false end
  | _ => false
  end.

Definition is_string (v : option JsonValue) (s : string) : bool :=
  match v with Some (VString t) => String.eqb t s | _ => false end.

Section verifier.
Context {W F K : Type} `{Errs : JwtErrors} `{!JwtVerifier W K}.

(** [createStaleFallbackJwksCache({ ...fallback, issuer })]. *)
Context (fallback_cache : F -> string -> K).

#[local] Notation IssuerVerifierConfig := (IssuerVerifierConfig F).

Definition resolveIssuerKind (config : IssuerVerifierConfig) : IssuerKind :=
  match issuerKind config with
  | Some k => k
  | None => if re_match COGNITO_ISSUER_RE (issuer config) then cognito else generic
  end.

Definition buildCustomJwtCheck (config : IssuerVerifierConfig) (kind : IssuerKind) : jwt_check :=
  fun header payload =>
    let allowlist := default PERMITTED_ALGS (algAllowlist config) in
    let tokenUse := default "id" (tokenUse config) in
    if negb (finite_number (find_key "exp" payload)) then Some missing_exp
    else if negb (match find_key "alg" header with
                  | Some (VString alg) => existsb (String.eqb alg) allowlist
                  | _ => false
                  end) then Some disallowed_alg
    else
      match kind with
      | cognito => if negb (is_string (find_key "token_use" payload) tokenUse) then Some wrong_token_use else None
      | generic =>
          if is_string (find_key "token_use" payload) "access" then Some wrong_token_use
          else if match expectedTyp config with
                  | Some typ => negb (is_string (find_key "typ" header) typ)
                  | None => false
                  end then Some invalid_claim
          else if match expectedAzp config with
                  | Some azp => negb (is_string (find_key "azp" payload) azp)
                  | None => false
                  end then Some invalid_claim
          else None
      end.

(** The errors a new fetch of the keys may cure. *)
Definition key_failure (e : LibError) : bool :=
  existsb (instance_of e)
    [JwtInvalidSignatureError; JwtInvalidSignatureAlgorithmError; KidNotFoundInJwksError; JwtWithoutValidKidError;
     JwksNotAvailableInCacheError; FetchError].

Definition toIssuerError (err : failure) : IssuerReason :=
  match err with
  | Custom r => r
  | Lib e =>
      if instance_of e JwtExpiredError then expired
      else if instance_of e JwtNotBeforeError then not_yet_valid
      else if instance_of e JwtInvalidIssuerError then unknown_issuer
      else if instance_of e JwtInvalidAudienceError then wrong_audience
      else if key_failure e then invalid_signature
      else if instance_of e JwtParseError then malformed_token
      else malformed_token
  end.

Inductive create_error := IssuerRequired | JwksUriRequired | Library (e : LibError).

Definition grace (config : IssuerVerifierConfig) : Z := default 0 (graceSeconds config).

Definition verifier_props (config : IssuerVerifierConfig) : JwtVerifierProps :=
  {| jp_issuer := issuer config; jp_audience := audience config; jp_jwksUri := jwksUri config;
     jp_graceSeconds := grace config;
     jp_check := buildCustomJwtCheck config (resolveIssuerKind config) |}.

Definition build (config : IssuerVerifierConfig) : result LibError JVerifier :=
  jwt_create (verifier_props config) ((fun f => fallback_cache f (issuer config)) <$> jwksFallback config).

(** The verifier, which [verify] replaces. *)
Definition createIssuerVerifier (config : IssuerVerifierConfig) : result create_error JVerifier :=
  if String.eqb (issuer config) "" then Throw IssuerRequired
  else
    match resolveIssuerKind config, jwksUri config with
    | generic, None => Throw JwksUriRequired
    | _, _ => match build config with Ok v => Ok v | Throw e => Throw (Library e) end
    end.

Record IssuerVerifiedToken := { vt_issuer : string; claims : JsonObject; rawToken : string }.

Definition runOnce (config : IssuerVerifierConfig) (w : W) (v : JVerifier) (token : string) :
    W * JVerifier * result failure IssuerVerifiedToken :=
  let '(w', v', r) := jwt_verify w v token in
  (w', v', match r with
           | Ok payload => Ok {| vt_issuer := issuer config; claims := payload; rawToken := token |}
           | Throw e => Throw e
           end).

Definition token_reason {A} (r : result failure A) : result IssuerReason A :=
  match r with Ok a => Ok a | Throw e => Throw (toIssuerError e) end.

(** The outer [None] is an error of the library's constructor, thrown as it
    is by the rebuild. *)
Definition verify (config : IssuerVerifierConfig) (w : W) (v : JVerifier) (token : string) :
    W * JVerifier * option (result IssuerReason IssuerVerifiedToken) :=
  if String.eqb token "" then (w, v, Some (Throw malformed_token))
  else
    let '(w1, v1, r1) := runOnce config w v token in
    match r1 with
    | Ok t => (w1, v1, Some (Ok t))
    | Throw err =>
        match toIssuerError err with
        | invalid_signature =>
            match build config with
            | Throw _ => (w1, v1, None)
            | Ok fresh => let '(w2, v2, r2) := runOnce config w1 fresh token in (w2, v2, Some (token_reason r2))
            end
        | reason => (w1, v1, Some (Throw reason))
        end
    end.

(** Calls one after the other: before each, the world as it then is. *)
Fixpoint verify_all (config : IssuerVerifierConfig) (v : JVerifier) (calls : list (W * string)) :
    list (option (result IssuerReason IssuerVerifiedToken)) :=
  match calls with
  | [] => []
  | (w, t) :: rest => let '(_, v', r) := verify config w v t in r :: verify_all config v' rest
  end.
End verifier.

(** ** What is accepted *)

Section laws.
Context {W F K : Type} `{Errs : JwtErrors} `{!JwtVerifier W K}.
Context (fallback_cache : F -> string -> K).

#[local] Notation IssuerVerifierConfig := (IssuerVerifierConfig F).
#[local] Notation verify := (verify fallback_cache).
#[local] Notation verify_all := (verify_all fallback_cache).
#[local] Notation build := (build fallback_cache).
#[local] Notation createIssuerVerifier := (createIssuerVerifier fallback_cache).

(** The shape of a token of the issuer's kind. *)
Definition shape_ok (config : IssuerVerifierConfig) (header payload : JsonObject) : Prop :=
  match resolveIssuerKind config with
  | cognito => find_key "token_use" payload = Some (VString (default "id" (tokenUse config)))
  | generic =>
      find_key "token_use" payload <> Some (VString "access") /\
      (forall typ, expectedTyp config = Some typ -> find_key "typ" header = Some (VString typ)) /\
      (forall azp, expectedAzp config = Some azp -> find_key "azp" payload = Some (VString azp))
  end.

Definition accepted (config : IssuerVerifierConfig) (w : W) (token : string) (vt : IssuerVerifiedToken) : Prop :=
  vt_issuer vt = issuer config /\ rawToken vt = token /\
  exists header, decomposed token = Some (header, claims vt) /\
    find_key "iss" (claims vt) = Some (VString (issuer config)) /\
    (exists a, In a (aud_values (claims vt)) /\ In a (as_list (audience config))) /\
    (exists t q, find_key "exp" (claims vt) = Some (VNumber t) /\ Number t = Some q /\ is_finite q = true /\
                 (inject_Z (world_now w) / 1000 <= q + inject_Z (grace config))%Q) /\
    (exists alg, find_key "alg" header = Some (VString alg) /\ In alg (default PERMITTED_ALGS (algAllowlist config))) /\
    shape_ok config header (claims vt).

Lemma is_string_true v s : is_string v s = true <-> v = Some (VString s).
Proof.
  destruct v as [[| | |t| |]|]; cbn; try (split; done). rewrite String.eqb_eq. split; [by intros ->|by intros [= ->]].
Qed.

Lemma finite_number_true v : finite_number v = true ->
  exists t q, v = Some (VNumber t) /\ Number t = Some q /\ is_finite q = true.
Proof.
  destruct v as [[| |t| | |]|]; cbn; try done. destruct (Number t) as [q|] eqn:Hq; [|done]. by exists t, q.
Qed.

Lemma check_passes config header payload :
  buildCustomJwtCheck config (resolveIssuerKind config) header payload = None ->
  finite_number (find_key "exp" payload) = true /\
  (exists alg, find_key "alg" header = Some (VString alg) /\ In alg (default PERMITTED_ALGS (algAllowlist config))) /\
  shape_ok config header payload.
Proof.
  unfold buildCustomJwtCheck, shape_ok. destruct (finite_number _); [|done]. cbn [negb].
  destruct (find_key "alg" header) as [[| | |alg| |]|]; try done.
  destruct (existsb _ _) eqn:Ha; [|done]. cbn [negb].
  apply existsb_exists in Ha as (a & Hin & ->%String.eqb_eq). intros Hk. split; [done|]. split; [by exists a|].
  destruct (resolveIssuerKind config).
  - destruct (is_string _ _) eqn:E; [|done]. by apply is_string_true in E.
  - destruct (is_string (find_key "token_use" payload) "access") eqn:E; [done|].
    split; [intros Hx; rewrite Hx in E; done|].
    destruct (expectedTyp config) as [typ|]; [destruct (is_string (find_key "typ" header) typ) eqn:Et; [|done]|];
      (destruct (expectedAzp config) as [azp|]; [destruct (is_string (find_key "azp" payload) azp) eqn:Ez; [|done]|]);
      split; intros ? [= <-]; by apply is_string_true.
Qed.

Lemma runOnce_accepts config w0 w v token vt :
  jwt_props v = verifier_props config -> world_now w0 <= world_now w ->
  snd (runOnce config w v token) = Ok vt -> accepted config w0 token vt.
Proof.
  unfold runOnce. intros Hp Hle. pose proof (jwt_accepts w v token) as Ha.
  destruct (jwt_verify w v token) as [[w' v'] r]. destruct r as [payload|]; [|done]. cbn in Ha |- *.
  intros [= <-]. destruct (Ha payload eq_refl) as (header & Hd & Hc & Hiss & Haud & Hexp). rewrite Hp in Hc, Hiss, Haud, Hexp.
  cbn in Hc, Hiss, Haud, Hexp. apply check_passes in Hc as (Hf & Halg & Hs).
  split; [done|]. split; [done|]. exists header. do 3 (split; [done|]). split; [|done].
  apply finite_number_true in Hf as (t & q & Ht & Hq & Hfin). exists t, q. do 3 (split; [done|]).
  eapply Qle_trans; [|by eapply Hexp]. unfold Qdiv. apply Qmult_le_compat_r; [by rewrite <- Zle_Qle|done].
Qed.

Lemma runOnce_props (config : IssuerVerifierConfig) w v token :
  jwt_props (snd (fst (runOnce config w v token))) = jwt_props v /\
  world_now w <= world_now (fst (fst (runOnce config w v token))).
Proof.
  unfold runOnce. pose proof (jwt_verify_props w v token) as Hp. pose proof (jwt_verify_clock w v token) as Hc.
  by destruct (jwt_verify w v token) as [[w' v'] r].
Qed.

(** A verifier that can stand in the place of [config]'s. *)
Definition verifier_of (config : IssuerVerifierConfig) (v : JVerifier) : Prop :=
  jwt_props v = verifier_props config /\ exists fresh, build config = Ok fresh.

Lemma create_verifier_of config v :
  createIssuerVerifier config = Ok v ->
  verifier_of config v /\ issuer config <> "" /\
  (resolveIssuerKind config = generic -> is_Some (jwksUri config)).
Proof.
  unfold IssuerVerifier.createIssuerVerifier. destruct (String.eqb_spec (issuer config) "") as [|Hne]; [done|].
  destruct (build config) as [v'|] eqn:Hb.
  2: by destruct (resolveIssuerKind config), (jwksUri config).
  pose proof (jwt_create_props _ _ _ Hb) as Hp.
  intros H. assert (v = v' /\ (resolveIssuerKind config = generic -> is_Some (jwksUri config))) as [-> Hj].
  { destruct (resolveIssuerKind config), (jwksUri config); try done; injection H as <-; by eauto. }
  split; [by split; [|exists v']|]. done.
Qed.

(** Each call answers, leaves such a verifier, and accepts sound tokens. *)
Lemma verify_step config w v token :
  verifier_of config v ->
  let '(_, v', r) := verify config w v token in
  verifier_of config v' /\
  match r with
  | None => False
  | Some (Ok vt) => accepted config w token vt
  | Some (Throw _) => True
  end.
Proof.
  intros [Hp [fresh Hb]]. unfold IssuerVerifier.verify. destruct (String.eqb token ""); [by split; [split; eauto|]|].
  destruct (runOnce_props config w v token) as [Hp1 Hc1].
  pose proof (runOnce_accepts config w w v token) as Ha1.
  destruct (runOnce config w v token) as [[w1 v1] r1]. cbn in Hp1, Hc1, Ha1.
  assert (verifier_of config v1) as Hv1 by (split; [congruence|eauto]).
  destruct r1 as [vt|err]; [split; [done|]; by apply Ha1|].
  destruct (toIssuerError err); try (by split). rewrite Hb.
  pose proof (jwt_create_props _ _ _ Hb) as Hpf.
  destruct (runOnce_props config w1 fresh token) as [Hp2 Hc2].
  pose proof (runOnce_accepts config w w1 fresh token) as Ha2.
  destruct (runOnce config w1 fresh token) as [[w2 v2] r2]. cbn in Hp2, Hc2, Ha2.
  split; [split; [congruence|eauto]|]. destruct r2 as [vt|]; [|done]. by apply Ha2.
Qed.

(** C19 (The pinned issuer's tokens only): a verifier can be built only for a
    named issuer, with an explicit key address unless it is a Cognito one; and
    at any point of any sequence of calls, [verify] answers or throws one of
    its reasons, never an error of the library, and a token it accepts is of
    that issuer and audience, carries a finite expiry that has not passed, is
    signed with an algorithm of the allowlist, and has the shape of the
    issuer's kind: in particular no token without an expiry is accepted. *)
Theorem issuer_tokens_only config v calls i w token r :
  createIssuerVerifier config = Ok v ->
  calls !! i = Some (w, token) -> verify_all config v calls !! i = Some r ->
  issuer config <> "" /\ (resolveIssuerKind config = generic -> is_Some (jwksUri config)) /\
  match r with
  | None => False
  | Some (Ok vt) => accepted config w token vt
  | Some (Throw _) => True
  end.
Proof.
  intros (Hv & Hne & Hj)%create_verifier_of Hc Hr. split; [done|]. split; [done|]. clear Hne Hj.
  revert v i Hv Hc Hr. induction calls as [|[w0 t0] rest IH]; intros v [|i] Hv; cbn; try done; intros Hc.
  - injection Hc as -> ->. pose proof (verify_step config w v token Hv) as Hs.
    destruct (verify config w v token) as [[w' v'] r']. destruct Hs as [_ Hs]. cbn. by intros [= <-].
  - pose proof (verify_step config w0 v t0 Hv) as Hs. destruct (verify config w0 v t0) as [[w' v'] r'].
    destruct Hs as [Hv' _]. cbn. intros Hi. by apply (IH v' i).
Qed.

(** ** The retry *)

(** The six classes an attempt must fail with to be made again; the
    time and claim classes are asked for first. *)
Definition retryable (err : failure) : Prop :=
  match err with
  | Custom r => r = invalid_signature
  | Lib e =>
      (forall c, In c [JwtExpiredError; JwtNotBeforeError; JwtInvalidIssuerError; JwtInvalidAudienceError] ->
                 instance_of e c = false) /\
      key_failure e = true
  end.

Lemma retryable_spec err : toIssuerError err = invalid_signature <-> retryable err.
Proof.
  destruct err as [e|r]; [|done]. cbn.
  split.
  - intros Hr. repeat (case_match; try done). split; [|done]. by intros c [<-|[<-|[<-|[<-|[]]]]].
  - intros [Hc Hk]. rewrite !Hc by (cbn; auto). by rewrite Hk.
Qed.

(** C20 (One retry, on fresh keys, for key failures only): the verifier and its
    keys are dropped exactly when the first attempt failed with one of the six
    key and signature classes; the outcome is then that of a second attempt
    made by a new verifier, so that a rotated key is picked up, and there is
    no third; every other failure is answered at once and leaves the cached
    keys in place. *)
Theorem retry_on_key_failure config v w token :
  verifier_of config v -> token <> "" ->
  let '(w1, v1, r1) := runOnce config w v token in
  match r1 with
  | Ok vt => verify config w v token = (w1, v1, Some (Ok vt))
  | Throw err =>
      (retryable err -> exists fresh, build config = Ok fresh /\
         let '(w2, v2, r2) := runOnce config w1 fresh token in
         verify config w v token = (w2, v2, Some (token_reason r2))) /\
      (~ retryable err -> verify config w v token = (w1, v1, Some (Throw (toIssuerError err))))
  end.
Proof.
  intros [Hp [fresh Hb]] Ht%String.eqb_neq. unfold IssuerVerifier.verify. rewrite Ht.
  destruct (runOnce config w v token) as [[w1 v1] r1]. destruct r1 as [vt|err]; [done|]. split.
  - intros ->%retryable_spec. rewrite Hb. exists fresh. split; [done|].
    by destruct (runOnce config w1 fresh token) as [[w2 v2] r2].
  - intros Hn. destruct (toIssuerError err) eqn:He; try done. by destruct Hn; apply retryable_spec.
Qed.
End laws.

(** ** A run

    A world is the clock and the identifier of the issuer's current key; a
    verifier caches the identifier it saw first. *)

Definition toy_decomposed (token : string) : option (JsonObject * JsonObject) :=
  match JSON_parse token with
  | Some (VArray [VObject header; VObject payload]) => Some (header, payload)
  | _ => None
  end.

Definition toy_expired (now grace : Z) (payload : JsonObject) : bool :=
  match find_key "exp" payload with
  | Some (VNumber t) => match Number t with
                        | Some q => negb (Qle_bool (inject_Z now / 1000) (q + inject_Z grace))
                        | None => false
                        end
  | _ => false
  end.

Definition toy_jwt_verify (now : Z) (key : string) (p : JwtVerifierProps) (token : string) : result failure JsonObject :=
  match toy_decomposed token with
  | None => Throw (Lib JwtParseError)
  | Some (header, payload) =>
      if negb (is_string (find_key "kid" header) key) then Throw (Lib KidNotFoundInJwksError)
      else if negb (is_string (find_key "iss" payload) (jp_issuer p)) then Throw (Lib JwtInvalidIssuerError)
      else if negb (existsb (fun a => existsb (String.eqb a) (as_list (jp_audience p))) (aud_values payload))
      then Throw (Lib JwtInvalidAudienceError)
      else if toy_expired now (jp_graceSeconds p) payload then Throw (Lib JwtExpiredError)
      else match jp_check p header payload with Some r => Throw (Custom r) | None => Ok payload end
  end.

#[local] Obligation Tactic := idtac.

#[export] Program Instance toy_jwt : JwtVerifier (Z * string) unit :=
  {| JVerifier := JwtVerifierProps * option string; jwt_props := fst; world_now := fst; decomposed := toy_decomposed;
     jwt_create p k := Ok (p, None);
     jwt_verify w v t := let key := default (snd w) (snd v) in
                         (w, (fst v, Some key), toy_jwt_verify (fst w) key (fst v) t) |}.
Next Obligation. by intros p k v [= <-]. Qed.
Next Obligation. done. Qed.
Next Obligation. intros w v t. cbn. lia. Qed.
Next Obligation.
  intros [now kid] [p c] t payload. cbn. unfold toy_jwt_verify. destruct (toy_decomposed t) as [[h pl]|]; [|done].
  destruct (is_string (find_key "kid" h) _); [|done].
  destruct (is_string (find_key "iss" pl) _) eqn:Hi; [|done]. apply is_string_true in Hi.
  destruct (existsb _ (aud_values pl)) eqn:Ha; [|done]. cbn [negb].
  apply existsb_exists in Ha as (a & Ha & (a' & Ha' & <-%String.eqb_eq)%existsb_exists).
  destruct (toy_expired _ _ pl) eqn:He; [done|]. destruct (jp_check p h pl) eqn:Hc; [done|]. intros [= <-].
  exists h. split; [done|]. split; [done|]. split; [done|]. split; [by exists a|].
  intros x q Hx Hq. unfold toy_expired in He. rewrite Hx, Hq in He. apply negb_false_iff in He. by apply Qle_bool_iff.
Qed.

Definition keycloak : IssuerVerifierConfig unit :=
  {| issuer := "https://id.example.com/realms/main"; audience := Many ["trellis"; "web"];
     jwksUri := Some "https://id.example.com/realms/main/protocol/openid-connect/certs"; graceSeconds := Some 5;
     issuerKind := None; tokenUse := None; expectedAzp := Some "web"; expectedTyp := None; algAllowlist := None;
     jwksFallback := None |}.

Definition keycloak_token (kid alg : string) (exp : list (string * JsonValue)) : string :=
  stringify (VArray [VObject [("kid", VString kid); ("alg", VString alg)];
                     VObject ([("iss", VString "https://id.example.com/realms/main"); ("azp", VString "web");
                               ("aud", VArray [VString "web"])] ++ exp)%list]).

Definition no_fallback (f : unit) (issuer : string) : unit := tt.

Definition outcome {A} (r : option (result IssuerReason A)) : option (result IssuerReason unit) :=
  match r with Some (Ok _) => Some (Ok tt) | Some (Throw e) => Some (Throw e) | None => None end.

(** The key is rotated between the third and the fourth call. *)
Example keycloak_run :
  match createIssuerVerifier no_fallback keycloak with
  | Ok v =>
      let tok := keycloak_token in
      map outcome (verify_all no_fallback keycloak v
        [((5000, "k1"), tok "k1" "RS256" [("exp", VNumber "10")]); ((15001, "k1"), tok "k1" "RS256" [("exp", VNumber "10")]);
         ((5000, "k1"), tok "k1" "EdDSA" [("exp", VNumber "10")]); ((6000, "k2"), tok "k2" "ES256" [("exp", VNumber "1e1")]);
         ((6000, "k2"), tok "k1" "ES256" [("exp", VNumber "10")]); ((6000, "k2"), tok "k2" "RS256" []);
         ((6000, "k2"), tok "k2" "RS256" [("exp", VNumber "1e400")])]) =
      [Some (Ok tt); Some (Throw expired); Some (Throw disallowed_alg); Some (Ok tt); Some (Throw invalid_signature);
       Some (Throw missing_exp); Some (Throw missing_exp)]
  | Throw _ => False
  end.
Proof. vm_compute. reflexivity. Qed.

Lemma issuer_tokens_only_witness :
  exists v vt, createIssuerVerifier no_fallback keycloak = Ok v /\
    accepted keycloak (5000, "k1") (keycloak_token "k1" "RS256" [("exp", VNumber "10")]) vt.
Proof.
  eexists _, _. split; [reflexivity|].
  eapply (issuer_tokens_only no_fallback keycloak _
    [((5000, "k1"), keycloak_token "k1" "RS256" [("exp", VNumber "10")])] 0
    (5000, "k1") (keycloak_token "k1" "RS256" [("exp", VNumber "10")]) (Some (Ok _))); reflexivity.
Defined.

Definition stale : JVerifier (W := Z * string) (K := unit) := (verifier_props keycloak, Some "k1").

Lemma retry_on_key_failure_witness :
  let token := keycloak_token "k2" "ES256" [("exp", VNumber "10")] in
  retryable (Lib KidNotFoundInJwksError) /\
  exists vt, snd (verify no_fallback keycloak (6000, "k2") stale token) = Some (Ok vt).
Proof.
  intros token. assert (Hv : verifier_of no_fallback keycloak stale) by (split; [reflexivity|by eexists]).
  assert (Hk : retryable (Lib KidNotFoundInJwksError)).
  { split; [by intros c [<-|[<-|[<-|[<-|[]]]]]|reflexivity]. }
  split; [exact Hk|].
  pose proof (retry_on_key_failure no_fallback keycloak stale (6000, "k2") token Hv ltac:(discriminate)) as Hr.
  assert (H1 : fst (fst (runOnce keycloak (6000, "k2") stale token)) = (6000, "k2") /\
               snd (runOnce keycloak (6000, "k2") stale token) = Throw (Lib KidNotFoundInJwksError)).
  { vm_compute. split; reflexivity. }
  destruct (runOnce keycloak (6000, "k2") stale token) as [[w1 v1] r1]. destruct H1 as [H1 H2]. cbn in H1, H2. subst w1 r1.
  destruct Hr as [Hr _]. destruct (Hr Hk) as (fresh & Hb & Hv2). clear Hr.
  assert (Hf : match build no_fallback keycloak with
               | Ok v => match snd (runOnce keycloak (6000, "k2") v token) with Ok _ => true | Throw _ => false end
               | Throw _ => false
               end = true) by (vm_compute; reflexivity).
  rewrite Hb in Hf. destruct (runOnce keycloak (6000, "k2") fresh token) as [[w2 v2] r2]. cbn in Hf.
  destruct r2 as [vt|]; [|discriminate]. exists vt. by rewrite Hv2.
Defined.
End IssuerVerifier.
