(* ===== verification/JwksFallback.v ===== *)
(** The bounded stale-key fallback:
    [packages/vestibulum/src/verify/jwks-fallback.ts].

    The fetcher is a program: it asks the network for the key set, reads and
    writes the caller's store, reads the clock and warns. What the store
    answers is any text. The parser and the shape test of [aws-jwt-verify] and
    the text codec are an interface. *)

From stdpp Require Import pretty.
From S2P Require Import Prelude JsString Json Prog.
From S2P Require IssuerVerifier.
From Stdlib Require Import Ascii QArith Qabs Qround Qminmax Lqa.

#[local] Open Scope string_scope.
#[local] Open Scope Z_scope.
#[local] Open Scope prog_scope.

Module JwksFallback.

Definition JWKS_FALLBACK_DEFAULT_MAX_STALENESS_SECONDS : Z := 7 * 24 * 60 * 60.
Definition CLOCK_SKEW_TOLERANCE_MS : Z := 60000.
Definition ENVELOPE_VERSION : Z := 1.

Inductive JwksCacheRejectReason :=
| absent | unparseable | malformed_envelope | unsupported_version | issuer_mismatch | jwks_uri_mismatch
| invalid_timestamp | too_stale | invalid_jwks | no_usable_signing_key.

(** What a parsed text cannot hold: the parser drops these keys. *)
Fixpoint clean (v : JsonValue) : bool :=
  match v with
  | VArray l => forallb clean l
  | VObject l => forallb (fun kv => negb (String.eqb (fst kv) "__proto__") && negb (String.eqb (fst kv) "constructor") &&
                                    clean (snd kv)) l
  | _ => true
  end.

Class JwksLib := {
  Bytes : Type;
  safeJsonParse : string -> option JsonValue;
  isJwks : JsonValue -> bool;
  utf8_decode : Bytes -> option string;
  utf8_encode : string -> Bytes;
  utf8_round_trip s : utf8_decode (utf8_encode s) = Some s;
  safe_parse_print v : json_wf v -> clean v = true -> safeJsonParse (stringify v) = Some v;
  safe_parse_clean s v : safeJsonParse s = Some v -> json_wf v /\ clean v = true;
  isJwks_keys v : isJwks v = true -> exists o keys, v = VObject o /\ find_key "keys" o = Some (VArray keys) /\
                                                  Forall (fun k => exists ko, k = VObject ko) keys
}.

Record JwksFallbackOptions := { maxStaleness : option Z }.

Definition isNonEmptyString (v : option JsonValue) : bool :=
  match v with Some (VString s) => negb (String.eqb s "") | _ => false end.

Definition isUsableSigningJwk (jwk : JsonValue) : bool :=
  match jwk with
  | VObject k =>
      if negb (isNonEmptyString (find_key "kid" k)) then false
      else if negb (match find_key "use" k with None => true | v => IssuerVerifier.IssuerVerifier.is_string v "sig" end) then false
      else match find_key "kty" k with
           | Some (VString kty) =>
               if String.eqb kty "RSA" then isNonEmptyString (find_key "n" k) && isNonEmptyString (find_key "e" k)
               else if String.eqb kty "EC" then
                 isNonEmptyString (find_key "crv" k) && isNonEmptyString (find_key "x" k) && isNonEmptyString (find_key "y" k)
               else if String.eqb kty "OKP" then isNonEmptyString (find_key "crv" k) && isNonEmptyString (find_key "x" k)
               else false
           | _ => false
           end
  | _ => false
  end.

(** [jwks.keys]. *)
Definition keys_of (jwks : JsonValue) : list JsonValue :=
  match jwks with
  | VObject o => match find_key "keys" o with Some (VArray keys) => keys | _ => [] end
  | _ => []
  end.

Definition number_of (v : option JsonValue) : option Q := match v with Some (VNumber t) => Number t | _ => None end.

Record Expected := { x_issuer : string; x_jwksUri : string; x_nowMs : Z; x_maxStalenessSeconds : Z }.

Section fallback.
Context `{JwksLib}.

(** The key set and its age in seconds. *)
Definition readCachedJwks (raw : option string) (expected : Expected) : result JwksCacheRejectReason (JsonValue * Z) :=
  match raw with
  | None => Throw absent
  | Some raw =>
      if String.eqb raw "" then Throw absent
      else if x_maxStalenessSeconds expected <=? 0 then Throw too_stale
      else
        match safeJsonParse raw with
        | None => Throw unparseable
        | Some (VObject envelope) =>
            if negb (match number_of (find_key "v" envelope) with
                     | Some q => Qeq_bool q (inject_Z ENVELOPE_VERSION)
                     | None => false
                     end) then Throw unsupported_version
            else if negb (IssuerVerifier.IssuerVerifier.is_string (find_key "issuer" envelope) (x_issuer expected))
            then Throw issuer_mismatch
            else if negb (IssuerVerifier.IssuerVerifier.is_string (find_key "jwksUri" envelope) (x_jwksUri expected))
            then Throw jwks_uri_mismatch
            else
              match number_of (find_key "fetchedAt" envelope) with
              | None => Throw invalid_timestamp
              | Some fetchedAt =>
                  if negb (IssuerVerifier.IssuerVerifier.is_finite fetchedAt) || Qle_bool fetchedAt 0 then Throw invalid_timestamp
                  else if negb (Qle_bool fetchedAt (inject_Z (x_nowMs expected + CLOCK_SKEW_TOLERANCE_MS)))
                  then Throw invalid_timestamp
                  else
                    let ageMs := Qmax 0 (inject_Z (x_nowMs expected) - fetchedAt) in
                    if negb (Qle_bool ageMs (inject_Z (x_maxStalenessSeconds expected * 1000))) then Throw too_stale
                    else
                      let jwks := default VNull (find_key "jwks" envelope) in
                      if negb (isJwks jwks) then Throw invalid_jwks
                      else if negb (existsb isUsableSigningJwk (keys_of jwks)) then Throw no_usable_signing_key
                      else Ok (jwks, Qfloor (ageMs / 1000))
              end
        | Some _ => Throw malformed_envelope
        end
  end.

Definition envelope (issuer jwksUri : string) (fetchedAtMs : Z) (jwks : JsonValue) : JsonValue :=
  VObject [("v", VNumber (pretty ENVELOPE_VERSION)); ("issuer", VString issuer); ("jwksUri", VString jwksUri);
           ("fetchedAt", VNumber (pretty fetchedAtMs)); ("jwks", jwks)].

Definition buildJwksEnvelope (issuer jwksUri : string) (fetchedAtMs : Z) (jwks : JsonValue) : string :=
  stringify (envelope issuer jwksUri fetchedAtMs jwks).

Definition decodeJwks (bin : Bytes) : option JsonValue :=
  match utf8_decode bin ≫= safeJsonParse with
  | Some parsed => if isJwks parsed then Some parsed else None
  | None => None
  end.

Definition encodeJwks (jwks : JsonValue) : Bytes := utf8_encode (stringify jwks).

(** ** The fetcher *)

(** The network, and the caller's store; an error is its description. *)
Inductive fetch_cmd : Type -> Type :=
| FetchJwks (uri : string) : fetch_cmd Bytes
| StoreGet (issuer : string) : fetch_cmd (option string)
| StoreSet (issuer value : string) (ttlSeconds : Z) : fetch_cmd unit.

Inductive warning :=
| jwks_cache_write_failed (error : string)
| fallback_store_error (fetchError storeError : string)
| fallback_unavailable (fetchError : string) (reason : JwksCacheRejectReason)
| jwks_fallback_used (fetchError : string) (ageSeconds : Z) (keyCount : nat).

#[local] Notation fetch_prog := (prog fetch_cmd string string warning).

Context (issuer : string) (maxStalenessSeconds : Z).

Definition persist (jwksUri : string) (jwks : JsonValue) : fetch_prog unit :=
  Now (fun now =>
    Send (StoreSet issuer (buildJwksEnvelope issuer jwksUri now jwks) maxStalenessSeconds) (fun r =>
      match r with
      | Ok _ => Ret tt
      | Throw err => Emit (jwks_cache_write_failed err) (Ret tt)
      end)).

Definition tryCached (jwksUri cause : string) : fetch_prog (option Bytes) :=
  Send (StoreGet issuer) (fun r =>
    match r with
    | Throw err => Emit (fallback_store_error cause err) (Ret None)
    | Ok raw => Now (fun now =>
        match readCachedJwks raw {| x_issuer := issuer; x_jwksUri := jwksUri; x_nowMs := now;
                                    x_maxStalenessSeconds := maxStalenessSeconds |} with
        | Throw reason => Emit (fallback_unavailable cause reason) (Ret None)
        | Ok (jwks, ageSeconds) =>
            Emit (jwks_fallback_used cause ageSeconds (length (keys_of jwks))) (Ret (Some (encodeJwks jwks)))
        end)
    end).

Definition malformed_body : string := "Error: JWKS endpoint responded but the body is not a well-formed JWKS".

Definition fetch (uri : string) : fetch_prog Bytes :=
  Send (FetchJwks uri) (fun r =>
    match r with
    | Throw err =>
        let! cached := tryCached uri err in
        match cached with Some bytes => Ret bytes | None => Raise err end
    | Ok bytes =>
        match decodeJwks bytes with
        | None =>
            let! cached := tryCached uri malformed_body in
            Ret (default bytes cached)
        | Some fresh => let! _ := persist uri fresh in Ret bytes
        end
    end).
End fallback.

Definition options_max (o : JwksFallbackOptions) : Z :=
  default JWKS_FALLBACK_DEFAULT_MAX_STALENESS_SECONDS (maxStaleness o).

(** [createStaleFallbackJwksCache]: [None] is the error it throws. *)
Definition createStaleFallbackJwksCache (issuer : string) (o : JwksFallbackOptions) : option (string * Z) :=
  if String.eqb issuer "" then None else Some (issuer, options_max o).

(** ** Printed integers *)

Lemma pretty_N_char_digit x : (x < 10)%N -> is_digit (pretty_N_char x) = true /\ digit_value (pretty_N_char x) = Z.of_N x.
Proof.
  intros Hx. assert (x = 0 \/ x = 1 \/ x = 2 \/ x = 3 \/ x = 4 \/ x = 5 \/ x = 6 \/ x = 7 \/ x = 8 \/ x = 9)%N by lia.
  naive_solver.
Qed.

Lemma pretty_N_go_digits x : forall s, str_all is_digit s = true ->
  str_all is_digit (pretty_N_go x s) = true /\
  dec_val (pretty_N_go x s) = Z.of_N x * 10 ^ Z.of_nat (String.length s) + dec_val s.
Proof.
  induction (N.lt_wf_0 x) as [x _ IH]. intros s Hs.
  assert (x = 0 \/ 0 < x)%N as [->|Hx] by lia; [rewrite pretty_N_go_0; by split; [|lia]|].
  rewrite pretty_N_go_step by done.
  destruct (pretty_N_char_digit (x mod 10)) as [Hd Hv]; [by apply N.mod_lt|].
  destruct (IH (x / 10)%N) with (s := String.String (pretty_N_char (x mod 10)) s) as [Ha He].
  - by apply N.div_lt.
  - cbn. by rewrite Hd.
  - split; [done|]. rewrite He. cbn [String.length]. rewrite Nat2Z.inj_succ, Z.pow_succ_r by lia.
    unfold dec_val. cbn [dec_acc]. rewrite Z.mul_0_r, Z.add_0_l, Hv.
    assert (forall acc t, str_all is_digit t = true -> dec_acc acc t = acc * 10 ^ Z.of_nat (String.length t) + dec_acc 0 t) as Hacc.
    { intros acc t. revert acc. induction t as [|c t IHt]; intros acc Ht; cbn [dec_acc String.length]; [lia|].
      cbn [str_all] in Ht. apply andb_true_iff in Ht as [_ Ht].
      rewrite (IHt (10 * acc + digit_value c)), (IHt (10 * 0 + digit_value c)) by done.
      rewrite Nat2Z.inj_succ, Z.pow_succ_r by lia. lia. }
    rewrite (Hacc (Z.of_N (x mod 10))) by done. rewrite N2Z.inj_div, N2Z.inj_mod.
    pose proof (Z.div_mod (Z.of_N x) 10). nia.
Qed.

Lemma pretty_nonneg z : 0 <= z ->
  pretty z <> "" /\ str_all is_digit (pretty z) = true /\ dec_val (pretty z) = z.
Proof.
  intros Hz. destruct z as [|p|p]; [done| |lia].
  change (pretty (Z.pos p)) with (pretty (N.pos p)). unfold pretty, pretty_N. rewrite decide_False by done.
  destruct (pretty_N_go_digits (N.pos p) "") as [Hd Hv]; [done|]. split; [|split; [done|]].
  - intros He. rewrite He in Hv. cbn in Hv. lia.
  - rewrite Hv. cbn. lia.
Qed.

Lemma Number_pretty z : 0 <= z -> Number (pretty z) = Some (inject_Z z).
Proof. intros (Hne & Hd & Hv)%pretty_nonneg. rewrite Number_digits_value by done. by rewrite Hv. Qed.

Lemma dec_val_zero_prefix r : str_all is_digit r = true ->
  dec_val (String.String "0" r) = dec_val r.
Proof. done. Qed.

Lemma pretty_no_leading_zero z : 0 < z -> String.prefix "0" (pretty z) = false.
Proof.
  intros Hz. destruct z as [|p|p]; [lia| |lia].
  change (pretty (Z.pos p)) with (pretty (N.pos p)). unfold pretty, pretty_N. rewrite decide_False by done.
  assert (forall x s, (0 < x)%N -> String.prefix "0" (pretty_N_go x s) = false) as Hgo; [|by apply Hgo].
  induction x as [x IH] using (well_founded_induction N.lt_wf_0). intros s Hx.
  rewrite pretty_N_go_step by done. assert (x < 10 \/ 10 <= x)%N as [Hs|Hl] by lia.
  - rewrite N.div_small, pretty_N_go_0, N.mod_small by done.
    assert (x = 1 \/ x = 2 \/ x = 3 \/ x = 4 \/ x = 5 \/ x = 6 \/ x = 7 \/ x = 8 \/ x = 9)%N as Hc by lia.
    repeat (destruct Hc as [->|Hc]; [by destruct s|]). subst. by destruct s.
  - apply IH; [by apply N.div_lt|]. apply N.div_str_pos. lia.
Qed.

Lemma number_literal_pretty z : 0 <= z -> number_literal (pretty z) = Some (pretty z, "").
Proof.
  intros Hz. destruct (pretty_nonneg z Hz) as (Hne & Hd & Hv).
  unfold number_literal. destruct (pretty z) as [|c r] eqn:Hp; [done|]. cbn [opt_char].
  assert (is_digit c = true) as Hc by (cbn in Hd; by apply andb_true_iff in Hd as [? _]).
  assert (Ascii.eqb "-" c = false) as -> by by destruct c as [[] [] [] [] [] [] [] []].
  unfold int_part, digits1. rewrite span_digits_all by done. cbn [non_empty].
  assert (String.prefix "0" (String.String c r) && negb (String.eqb (String.String c r) "0") = false) as Hz'.
  { assert (z = 0 \/ 0 < z) as [->|Hpos] by lia; [by injection Hp as <- <-|].
    rewrite <- Hp, pretty_no_leading_zero by done. done. }
  cbn -[String.prefix String.eqb non_empty]. change (non_empty (String.String c r)) with true.
  cbn -[String.prefix String.eqb]. rewrite Hz'. cbn. by rewrite str_app_nil_r.
Qed.

(** ** What a stored text is worth *)

Section reading.
Context `{JwksLib}.

(** What [readCachedJwks] vouches for. *)
Definition vouched (expected : Expected) (raw : string) (jwks : JsonValue) (age : Z) : Prop :=
  exists o fetchedAt,
    safeJsonParse raw = Some (VObject o) /\
    find_key "issuer" o = Some (VString (x_issuer expected)) /\
    find_key "jwksUri" o = Some (VString (x_jwksUri expected)) /\
    number_of (find_key "fetchedAt" o) = Some fetchedAt /\
    (0 < fetchedAt)%Q /\
    (fetchedAt <= inject_Z (x_nowMs expected + CLOCK_SKEW_TOLERANCE_MS))%Q /\
    (inject_Z (x_nowMs expected) - fetchedAt <= inject_Z (x_maxStalenessSeconds expected * 1000))%Q /\
    find_key "jwks" o = Some jwks /\ isJwks jwks = true /\
    (exists k, In k (keys_of jwks) /\ isUsableSigningJwk k = true) /\
    0 <= age <= x_maxStalenessSeconds expected.

Lemma isJwks_not_null : isJwks VNull = false.
Proof. destruct (isJwks VNull) eqn:E; [|done]. apply isJwks_keys in E as (o & keys & He & _). done. Qed.

Lemma Qle_bool_lt x y : Qle_bool x y = false -> (y < x)%Q.
Proof. intros Hb. apply Qnot_le_lt. intros Hle%Qle_bool_iff. congruence. Qed.

Lemma age_bounds q max :
  (Qmax 0 q <= inject_Z (max * 1000))%Q -> 0 <= Qfloor (Qmax 0 q / 1000) <= max.
Proof.
  intros Hq. split.
  - change 0%Z with (Qfloor 0). apply Qfloor_resp_le. apply Qle_shift_div_l; [done|]. rewrite Qmult_0_l. apply Q.le_max_l.
  - rewrite <- (Qfloor_Z max). apply Qfloor_resp_le. apply Qle_shift_div_r; [done|].
    eapply Qle_trans; [exact Hq|]. rewrite inject_Z_mult. apply Qle_refl.
Qed.

(** Also (A stored key set is trusted within its pins and its time only):
    whatever text the store gives, it is accepted only if it names the
    verifier's own issuer and key address, was fetched no longer ago than the
    bound and not in the future, beyond the tolerated skew, and holds a
    well-formed key set with a key usable for signatures; the age reported is
    within the bound. *)
Theorem readCachedJwks_sound raw expected jwks age :
  readCachedJwks raw expected = Ok (jwks, age) ->
  exists text, raw = Some text /\ text <> "" /\ vouched expected text jwks age.
Proof.
  unfold readCachedJwks. destruct raw as [text|]; [|done]. destruct (String.eqb_spec text "") as [|Hne]; [done|].
  destruct (x_maxStalenessSeconds expected <=? 0); [done|].
  destruct (safeJsonParse text) as [[| | | | |o]|] eqn:Hp; try done.
  destruct (match number_of (find_key "v" o) with Some q => _ | None => _ end); [|done]. cbn [negb].
  destruct (IssuerVerifier.IssuerVerifier.is_string (find_key "issuer" o) _) eqn:Hi; [|done].
  destruct (IssuerVerifier.IssuerVerifier.is_string (find_key "jwksUri" o) _) eqn:Hu; [|done]. cbn [negb].
  apply IssuerVerifier.IssuerVerifier.is_string_true in Hi, Hu.
  destruct (number_of (find_key "fetchedAt" o)) as [q|] eqn:Hq; [|done].
  destruct (IssuerVerifier.IssuerVerifier.is_finite q); [|done]. cbn [negb orb].
  destruct (Qle_bool q 0) eqn:H0; [done|]. apply Qle_bool_lt in H0.
  destruct (Qle_bool q _) eqn:Hs; [|done]. apply Qle_bool_iff in Hs. cbn [negb].
  destruct (Qle_bool (Qmax _ _) _) eqn:Ha; [|done]. apply Qle_bool_iff in Ha. cbn [negb].
  destruct (isJwks _) eqn:Hj; [|done]. destruct (existsb _ _) eqn:He; [|done]. cbn [negb]. intros [= <- <-].
  exists text. split; [done|]. split; [done|]. exists o, q. do 6 (split; [done|]).
  split; [eapply Qle_trans; [apply Q.le_max_r|exact Ha]|].
  split. { destruct (find_key "jwks" o); [done|]. cbn in Hj. by rewrite isJwks_not_null in Hj. }
  split; [done|]. split; [by apply existsb_exists in He|]. by apply age_bounds.
Qed.

(** The envelope's own bounds. *)
Definition storable (issuer : string) (t0 : Z) (jwks : JsonValue) : Prop :=
  0 < t0 < 2 ^ 53 /\ json_wf jwks /\ clean jwks = true /\ isJwks jwks = true /\
  exists k, In k (keys_of jwks) /\ isUsableSigningJwk k = true.

Lemma envelope_wf issuer uri t0 jwks : 0 <= t0 -> json_wf jwks -> clean jwks = true ->
  json_wf (envelope issuer uri t0 jwks) /\ clean (envelope issuer uri t0 jwks) = true.
Proof.
  intros Ht Hw Hc. split; [|cbn; by rewrite Hc]. split; [apply (bool_decide_unpack (NoDup _)); reflexivity|].
  pose proof (number_literal_pretty t0 Ht) as Hn. by repeat constructor.
Qed.

Lemma is_finite_small z : 0 <= z < 2 ^ 53 -> IssuerVerifier.IssuerVerifier.is_finite (inject_Z z) = true.
Proof.
  intros Hz. unfold IssuerVerifier.IssuerVerifier.is_finite. cbv zeta.
  assert (Qabs (inject_Z z) < inject_Z (2 ^ 1024 - 2 ^ 970))%Q as Hlt.
  { rewrite Qabs_pos by (change 0%Q with (inject_Z 0); rewrite <- Zle_Qle; lia). rewrite <- Zlt_Qlt.
    eapply Z.lt_trans; [exact (proj2 Hz)|]. apply Z.ltb_lt. vm_compute. reflexivity. }
  by rewrite (proj1 (Qlt_alt _ _) Hlt).
Qed.

(** Also (A stored key set serves as long as it may, and no longer): the text
    written after a fetch at [t0] is read back, by a verifier with the same
    pins, to exactly the keys that were fetched, until the bound has passed;
    after that, or when the clock stands a minute or more before the fetch, it
    is refused. *)
Theorem envelope_roundtrip issuer uri t0 jwks now max :
  storable issuer t0 jwks -> 0 < max ->
  readCachedJwks (Some (buildJwksEnvelope issuer uri t0 jwks))
    {| x_issuer := issuer; x_jwksUri := uri; x_nowMs := now; x_maxStalenessSeconds := max |} =
    if now + CLOCK_SKEW_TOLERANCE_MS <? t0 then Throw invalid_timestamp
    else if max * 1000 <? now - t0 then Throw too_stale
    else Ok (jwks, Z.max 0 (now - t0) / 1000).
Proof.
  intros (Ht & Hw & Hc & Hj & Hk) Hmax. destruct (envelope_wf issuer uri t0 jwks) as [Hew Hec]; [lia|done..|].
  unfold readCachedJwks. cbn [x_issuer x_jwksUri x_nowMs x_maxStalenessSeconds].
  assert (String.eqb (buildJwksEnvelope issuer uri t0 jwks) "" = false) as -> by done.
  assert ((max <=? 0) = false) as -> by lia. unfold buildJwksEnvelope.
  rewrite (safe_parse_print _ Hew Hec). unfold envelope.
  assert (number_of (find_key "v" [("v", VNumber (pretty ENVELOPE_VERSION)); ("issuer", VString issuer);
    ("jwksUri", VString uri); ("fetchedAt", VNumber (pretty t0)); ("jwks", jwks)]) = Some (inject_Z 1)) as -> by reflexivity.
  change (inject_Z ENVELOPE_VERSION) with (inject_Z 1). rewrite Qeq_bool_refl. cbn [negb].
  cbn [find_key String.eqb Ascii.eqb Bool.eqb number_of]. cbn [IssuerVerifier.IssuerVerifier.is_string].
  rewrite !String.eqb_refl. cbn [negb]. rewrite Number_pretty by lia. rewrite is_finite_small by lia. cbn [negb orb].
  assert (Qle_bool (inject_Z t0) 0 = false) as ->.
  { apply not_true_iff_false. rewrite Qle_bool_iff. change 0%Q with (inject_Z 0). rewrite <- Zle_Qle. lia. }
  assert (Qle_bool (inject_Z t0) (inject_Z (now + CLOCK_SKEW_TOLERANCE_MS)) = negb (now + CLOCK_SKEW_TOLERANCE_MS <? t0)) as ->.
  { apply eq_true_iff_eq. rewrite Qle_bool_iff, <- Zle_Qle, negb_true_iff, Z.ltb_ge. done. }
  destruct (now + CLOCK_SKEW_TOLERANCE_MS <? t0); [done|]. cbn [negb].
  assert (Hage : (Qmax 0 (inject_Z now - inject_Z t0) == inject_Z (Z.max 0 (now - t0)))%Q).
  { unfold Qminus. rewrite <- inject_Z_opp, <- inject_Z_plus. change (now + - t0) with (now - t0).
    destruct (Z.max_spec 0 (now - t0)) as [[Hlt ->]|[Hle ->]]; [apply Q.max_r|apply Q.max_l];
      change 0%Q with (inject_Z 0); rewrite <- Zle_Qle; lia. }
  rewrite (Qleb_comp _ _ Hage _ _ (Qeq_refl _)).
  assert (Qle_bool (inject_Z (Z.max 0 (now - t0))) (inject_Z (max * 1000)) = negb (max * 1000 <? now - t0)) as ->.
  { apply eq_true_iff_eq. rewrite Qle_bool_iff, <- Zle_Qle, negb_true_iff, Z.ltb_ge. lia. }
  destruct (max * 1000 <? now - t0); [done|]. cbn [negb default from_option id].
  rewrite Hj. apply existsb_exists in Hk. rewrite Hk. cbn [negb]. do 2 f_equal.
  rewrite Hage. change 1000%Q with (inject_Z 1000). symmetry. apply Zdiv_Qdiv.
Qed.
End reading.

(** ** The fetcher in its world *)

Section world.
Context `{JwksLib}.

Record FallbackWorld := {
  network : string -> result string Bytes;
  store : gmap string string;
  warnings : list warning
}.

#[export] Instance fallback_service : Service FallbackWorld fetch_cmd string warning :=
  {| perform X w c :=
       match c in fetch_cmd X return FallbackWorld * result string X with
       | FetchJwks uri => (w, network w uri)
       | StoreGet issuer => (w, Ok (store w !! issuer))
       | StoreSet issuer value _ =>
           ({| network := network w; store := <[issuer := value]> (store w); warnings := warnings w |}, Ok tt)
       end;
     lost := "TimeoutError";
     record_event w e := {| network := network w; store := store w; warnings := e :: warnings w |} |}.

Context (issuer : string) (max : Z).

#[local] Notation fetch := (fetch issuer max).
#[local] Notation expected uri t :=
  {| x_issuer := issuer; x_jwksUri := uri; x_nowMs := t; x_maxStalenessSeconds := max |}.

(** A warning that no fallback was possible. *)
Definition unavailable (cause : string) (x : warning) : Prop :=
  (exists e, x = fallback_store_error cause e) \/ (exists r, x = fallback_unavailable cause r).

(** A copy served from the store, with its warning. *)
Definition served (T : Z -> Prop) (w w' : FallbackWorld) (uri cause : string) (bytes : Bytes) : Prop :=
  exists t raw jwks age, T t /\ store w !! issuer = Some raw /\ vouched (expected uri t) raw jwks age /\
    bytes = encodeJwks jwks /\ warnings w' = jwks_fallback_used cause age (length (keys_of jwks)) :: warnings w.

Lemma wp_tryCached T D uri cause w :
  wp T D (tryCached issuer max uri cause) w (fun w' r =>
    network w' = network w /\ store w' = store w /\
    exists out, r = Ok out /\
    match out with
    | Some bytes => served T w w' uri cause bytes
    | None => exists x, unavailable cause x /\ warnings w' = x :: warnings w
    end).
Proof.
  unfold tryCached. cbn [wp]. intros dv Hdv. destruct dv; cbn [deliver perform fallback_service fst snd].
  - cbn [wp]. intros t Ht.
    pose proof (readCachedJwks_sound (store w !! issuer) (expected uri t)) as Hs.
    destruct (readCachedJwks (store w !! issuer) (expected uri t)) as [[jwks age]|reason].
    + cbn. split; [done|]. split; [done|]. eexists. split; [done|].
      destruct (Hs jwks age eq_refl) as (text & Hraw & _ & Hv). by exists t, text, jwks, age.
    + cbn. split; [done|]. split; [done|]. eexists. split; [done|]. eexists. split; [right; by exists reason|done].
  - cbn. split; [done|]. split; [done|]. eexists. split; [done|]. eexists. split; [left; by eexists|done].
  - cbn. split; [done|]. split; [done|]. eexists. split; [done|]. eexists. split; [left; by eexists|done].
Qed.

Lemma wp_persist T D uri jwks w :
  wp T D (persist issuer max uri jwks) w (fun w' r =>
    r = Ok tt /\ network w' = network w /\
    (warnings w' = warnings w /\ (exists t, T t /\ store w' = <[issuer := buildJwksEnvelope issuer uri t jwks]> (store w)) \/
     (exists e, warnings w' = jwks_cache_write_failed e :: warnings w))).
Proof.
  unfold persist. cbn [wp]. intros t Ht dv _. destruct dv; cbn; split; [done| |done| |done|]; (split; [done|]); eauto 6.
Qed.

(** Also (The network wins, the fallback is bounded and never silent): for any
    network, store, clock and message loss, [fetch] answers with the issuer's
    own bytes, unchanged, whenever these arrived and are a key set, whether or
    not they could be stored; otherwise with a copy the store holds that is
    vouched for, or, without one, with what came before the fallback existed:
    the bytes as they are, or the fetch's own error; and every time the
    fallback was used, or could not be, there is one warning that says so. *)
Theorem fetch_spec T D uri w :
  wp T D (fetch uri) w (fun w' r => exists dv, D dv /\
    match snd (deliver dv w (FetchJwks uri)) with
    | Ok bytes =>
        match decodeJwks bytes with
        | Some jwks => r = Ok bytes /\
            (warnings w' = warnings w /\
             (exists t, T t /\ store w' = <[issuer := buildJwksEnvelope issuer uri t jwks]> (store w)) \/
             (exists e, warnings w' = jwks_cache_write_failed e :: warnings w))
        | None =>
            (exists copy, r = Ok copy /\ served T w w' uri malformed_body copy) \/
            (r = Ok bytes /\ exists x, unavailable malformed_body x /\ warnings w' = x :: warnings w)
        end
    | Throw err =>
        (exists copy, r = Ok copy /\ served T w w' uri err copy) \/
        (r = Throw err /\ exists x, unavailable err x /\ warnings w' = x :: warnings w)
    end).
Proof.
  unfold JwksFallback.fetch. cbn [wp]. intros dv Hdv.
  assert (fst (deliver dv w (FetchJwks uri)) = w) as -> by by destruct dv.
  destruct (snd (deliver dv w (FetchJwks uri))) as [bytes|err] eqn:Hr; cbv beta iota.
  - destruct (decodeJwks bytes) as [fresh|] eqn:Hd; cbv beta iota; apply wp_await.
    + eapply wp_weaken; [|apply wp_persist]. intros w' r (-> & _ & Hw). cbn. exists dv. rewrite Hr, Hd. done.
    + eapply wp_weaken; [|apply wp_tryCached]. intros w' r (_ & _ & out & -> & Ho). cbn. exists dv. rewrite Hr, Hd.
      split; [done|]. destruct out as [copy|]; [left; by exists copy|by right].
  - apply wp_await. eapply wp_weaken; [|apply wp_tryCached]. intros w' r (_ & _ & out & -> & Ho).
    destruct out as [copy|]; cbn; exists dv; rewrite Hr; (split; [done|]); [left; by exists copy|by right].
Qed.

(** C21 (An outage within the bound is survived): after one successful fetch
    whose key set was stored, a fetch that fails, at any time within the
    bound, gives bytes that decode to exactly the keys fetched before, as long
    as nothing else wrote the store; so a process that starts anew while the
    issuer is down verifies the same tokens. *)
Theorem outage_survived uri w bytes jwks t0 now w2 err :
  network w uri = Ok bytes -> decodeJwks bytes = Some jwks ->
  existsb isUsableSigningJwk (keys_of jwks) = true ->
  0 < t0 < 2 ^ 53 -> t0 - CLOCK_SKEW_TOLERANCE_MS <= now -> now - t0 <= max * 1000 -> 0 < max ->
  store w2 !! issuer = store (fst (run (fetch uri) (delivered (fun _ => t0)) 0 w)) !! issuer ->
  network w2 uri = Throw err ->
  exists copy, snd (run (fetch uri) (delivered (fun _ => now)) 0 w2) = Ok copy /\ decodeJwks copy = Some jwks.
Proof.
  intros Hn Hd Hk Ht Hskew Hage Hmax Hstore Hdown.
  assert (json_wf jwks /\ clean jwks = true /\ isJwks jwks = true) as (Hw & Hc & Hj).
  { unfold decodeJwks in Hd. destruct (utf8_decode bytes) as [s|]; [|done]. cbn in Hd.
    destruct (safeJsonParse s) as [v|] eqn:Hp; [|done]. destruct (isJwks v) eqn:Hj; [|done]. injection Hd as <-.
    by apply safe_parse_clean in Hp as [? ?]. }
  assert (store w2 !! issuer = Some (buildJwksEnvelope issuer uri t0 jwks)) as Hst.
  { rewrite Hstore. unfold JwksFallback.fetch. cbn [run deliver perform fallback_service delivered fst snd].
    rewrite Hn, Hd. cbn. by rewrite lookup_insert_eq. }
  exists (encodeJwks jwks). split.
  - unfold JwksFallback.fetch. cbn [run deliver perform fallback_service delivered fst snd]. rewrite Hdown.
    unfold tryCached. cbn [await attempt run deliver perform fallback_service delivered fst snd]. rewrite Hst.
    cbn [await attempt run delivered fst snd].
    rewrite envelope_roundtrip; [|apply existsb_exists in Hk; by repeat split; try lia|done].
    assert ((now + CLOCK_SKEW_TOLERANCE_MS <? t0) = false) as -> by lia.
    assert ((max * 1000 <? now - t0) = false) as -> by lia. done.
  - unfold decodeJwks, encodeJwks. rewrite utf8_round_trip. cbn. rewrite safe_parse_print by done. by rewrite Hj.
Qed.
End world.

(** ** A run *)

Fixpoint json_wfb (v : JsonValue) : bool :=
  match v with
  | VNull | VBool _ | VString _ => true
  | VNumber t => match number_literal t with Some (u, r) => String.eqb u t && String.eqb r "" | None => false end
  | VArray l => forallb json_wfb l
  | VObject l => bool_decide (NoDup (map fst l)) && forallb (fun kv => json_wfb (snd kv)) l
  end.

Lemma Forall_forallb {A} (P : A -> Prop) (f : A -> bool) l :
  Forall (fun x => f x = true <-> P x) l -> forallb f l = true <-> Forall id (map P l).
Proof.
  induction 1 as [|x l Hx Hl IH]; [by split|]. cbn. rewrite andb_true_iff, Hx, IH.
  split; [intros [? ?]; by constructor|intros Hf; by inversion_clear Hf].
Qed.

Lemma json_wfb_spec v : json_wfb v = true <-> json_wf v.
Proof.
  induction v as [|b|t|s|l IH|l IH] using JsonValue_nested_ind; [done|done| | | |].
  - cbn. destruct (number_literal t) as [[u r]|]; [|done]. rewrite andb_true_iff, !String.eqb_eq.
    split; [by intros [-> ->]|by intros [= -> ->]].
  - done.
  - by apply Forall_forallb.
  - cbn. rewrite andb_true_iff, bool_decide_eq_true. by rewrite (Forall_forallb (fun kv => json_wf (snd kv))).
Qed.

Definition toy_parse (s : string) : option JsonValue :=
  v ← JSON_parse s; if json_wfb v && clean v then Some v else None.

Definition toy_isJwks (v : JsonValue) : bool :=
  match v with
  | VObject o => match find_key "keys" o with
                 | Some (VArray keys) => forallb (fun k => match k with VObject _ => true | _ => false end) keys
                 | _ => false
                 end
  | _ => false
  end.

#[local] Obligation Tactic := idtac.

#[export] Program Instance toy_lib : JwksLib :=
  {| Bytes := string; safeJsonParse := toy_parse; isJwks := toy_isJwks; utf8_decode b := Some b; utf8_encode s := s |}.
Next Obligation. done. Qed.
Next Obligation.
  intros v Hw Hc. unfold toy_parse. rewrite JSON_parse_stringify by done. cbn.
  apply json_wfb_spec in Hw. by rewrite Hw, Hc.
Qed.
Next Obligation.
  intros s v. unfold toy_parse. destruct (JSON_parse s) as [u|]; [|done]. cbn.
  destruct (json_wfb u) eqn:Hw; [|done]. destruct (clean u) eqn:Hc; [|done]. intros [= <-].
  by apply json_wfb_spec in Hw.
Qed.
Next Obligation.
  intros [| | | | |o]; try done. cbn. destruct (find_key "keys" o) as [[| | | |keys|]|] eqn:Hk; try done.
  intros Hf. exists o, keys. split; [done|]. split; [done|]. apply List.Forall_forall. intros k Hin.
  pose proof (proj1 (forallb_forall _ _) Hf k Hin) as Hx. destruct k; try done. by eexists.
Qed.

Definition rsa_keys : JsonValue :=
  VObject [("keys", VArray [VObject [("kty", VString "RSA"); ("kid", VString "k1"); ("use", VString "sig");
                                     ("n", VString "AQAB"); ("e", VString "AQAB")]])].

Definition certs_uri : string := "https://id.example.com/certs".

Definition up : FallbackWorld :=
  {| network := fun _ => Ok (stringify rsa_keys); store := ∅; warnings := [] |}.
Definition down (w : FallbackWorld) : FallbackWorld :=
  {| network := fun _ => Throw "FetchError: ECONNREFUSED"; store := store w; warnings := [] |}.

(** Fetched, then served for a week, then refused. *)
Example outage_run :
  let fetch_at t w := run (fetch "https://id.example.com" 604800 certs_uri) (delivered (fun _ => t)) 0 w in
  let w1 := fst (fetch_at 1000000 up) in
  warnings w1 = [] /\
  snd (fetch_at 605800000 (down w1)) = Ok (stringify rsa_keys) /\
  warnings (fst (fetch_at 605800000 (down w1))) = [jwks_fallback_used "FetchError: ECONNREFUSED" 604800 1] /\
  snd (fetch_at 605800001 (down w1)) = Throw "FetchError: ECONNREFUSED" /\
  warnings (fst (fetch_at 605800001 (down w1))) = [fallback_unavailable "FetchError: ECONNREFUSED" too_stale] /\
  warnings (fst (fetch_at 900000 (down w1))) = [fallback_unavailable "FetchError: ECONNREFUSED" invalid_timestamp] /\
  warnings (fst (fetch_at 1000000 (down up))) = [fallback_unavailable "FetchError: ECONNREFUSED" absent].
Proof. vm_compute. repeat split. Qed.

Lemma outage_survived_witness :
  exists copy,
    snd (run (fetch "https://id.example.com" 604800 certs_uri) (delivered (fun _ => 5000000)) 0
           (down (fst (run (fetch "https://id.example.com" 604800 certs_uri) (delivered (fun _ => 1000000)) 0 up)))) = Ok copy /\
    decodeJwks copy = Some rsa_keys.
Proof.
  apply (outage_survived "https://id.example.com" 604800 certs_uri up (stringify rsa_keys) rsa_keys 1000000 5000000 _
    "FetchError: ECONNREFUSED"); try reflexivity; try (split; reflexivity); discriminate.
Defined.

Lemma readCachedJwks_sound_witness :
  exists text, Some (buildJwksEnvelope "https://id.example.com" certs_uri 1000000 rsa_keys) = Some text /\ text <> "" /\
    vouched {| x_issuer := "https://id.example.com"; x_jwksUri := certs_uri; x_nowMs := 5000000;
               x_maxStalenessSeconds := 604800 |} text rsa_keys 4000.
Proof. apply readCachedJwks_sound. vm_compute. reflexivity. Defined.

Lemma envelope_roundtrip_witness :
  readCachedJwks (Some (buildJwksEnvelope "https://id.example.com" certs_uri 1000000 rsa_keys))
    {| x_issuer := "https://id.example.com"; x_jwksUri := certs_uri; x_nowMs := 5000000; x_maxStalenessSeconds := 604800 |}
  = Ok (rsa_keys, 4000).
Proof.
  rewrite (envelope_roundtrip "https://id.example.com" certs_uri 1000000 rsa_keys 5000000 604800); [reflexivity| |reflexivity].
  split; [split; reflexivity|]. split; [apply json_wfb_spec; vm_compute; reflexivity|]. split; [reflexivity|].
  split; [reflexivity|]. eexists. split; [left; reflexivity|reflexivity].
Defined.
End JwksFallback.
