(* ===== verification/GuardedFetch.v ===== *)
(** What the two fetchers of documents at addresses an administrator typed
    share ([packages/vestibulum/src/discovery/oidc-probe.ts],
    [saml-metadata.ts]): the commands they send, the outside world these act
    on, and the loop that reads a body under a cap.

    The URL parser, [isIP] and the UTF-8 decoder belong to the platform and
    are an interface. A request is made to a URL through a dispatcher that is
    pinned to one address, or through none; the body is read chunk by chunk,
    bytes as characters. *)

From S2P Require Import Prelude JsString PrivateIp Prog.
From Stdlib Require Import Ascii.

#[local] Open Scope string_scope.
#[local] Open Scope Z_scope.
#[local] Open Scope prog_scope.

Record URL := { protocol : string; username : string; password : string; hostname : string; href : string }.

Class Platform := {
  new_URL : string -> option URL;
  with_hostname : URL -> string -> URL;
  isIP : string -> Z;
  utf8_text : string -> string
}.

(** [hostname.replace(/^\[|\]$/g, '')]. *)
Definition strip_open (s : string) : string :=
  match s with String.String c r => if Ascii.eqb c "[" then r else s | EmptyString => "" end.

Fixpoint strip_close (s : string) : string :=
  match s with
  | EmptyString => ""
  | String.String c EmptyString => if Ascii.eqb c "]" then "" else s
  | String.String c r => String.String c (strip_close r)
  end.

Definition strip_brackets (s : string) : string := strip_close (strip_open s).

Definition with_slash (s : string) : string := if endsWith s "/" then s else s +:+ "/".

Record Response := { status : Z; has_body : bool }.

Definition response_ok (r : Response) : bool := (200 <=? status r) && (status r <=? 299).

(** What [reader.read()] gives: the end, no value, or bytes. *)
Inductive Chunk := ChunkEnd | ChunkNone | ChunkBytes (s : string).

Inductive net_error := AbortError | NetError (message : string).

(** [pin] is the address and family of the dispatcher. *)
Inductive net_cmd : Type -> Type :=
| Resolve (host : string) : net_cmd (list string)
| Connect (url : string) (pin : option (string * Z)) : net_cmd Response
| ReadChunk : net_cmd Chunk.

Inductive net_event := Opened (pin : string * Z) | Closed (pin : string * Z) | Cancelled.

#[global] Notation net_prog := (prog net_cmd net_error).

(** The names, the sites, and the stream of the response being read. *)
Record NetWorld := {
  dns : string -> result net_error (list string);
  site : string -> option (string * Z) -> result net_error Response;
  stream : nat -> Chunk;
  position : nat;
  connects : list (string * option (string * Z));
  net_log : list net_event
}.

#[export] Instance net_service : Service NetWorld net_cmd net_error net_event :=
  {| perform X w c :=
       match c in net_cmd X return NetWorld * result net_error X with
       | Resolve host => (w, dns w host)
       | Connect url pin =>
           ({| dns := dns w; site := site w; stream := stream w; position := 0;
               connects := (url, pin) :: connects w; net_log := net_log w |}, site w url pin)
       | ReadChunk =>
           ({| dns := dns w; site := site w; stream := stream w; position := S (position w);
               connects := connects w; net_log := net_log w |}, Ok (stream w (position w)))
       end;
     lost := NetError "socket hang up";
     record_event w e := {| dns := dns w; site := site w; stream := stream w; position := position w;
                            connects := connects w; net_log := e :: net_log w |} |}.

(** ** Reading a body

    [fail] is how a failed read ends, [too_large] how a body above the cap
    does; out of fuel is an outcome the code does not have. *)
Section reading.
Context {E : Type} (cap : Z) (too_large unfinished : E) (fail : net_error -> E).

Fixpoint read_body (fuel : nat) (total : Z) (acc : string) : net_prog E net_event string :=
  match fuel with
  | O => Raise unfinished
  | S fuel =>
      Send ReadChunk (fun r =>
        match r with
        | Throw e => Raise (fail e)
        | Ok ChunkEnd => Ret acc
        | Ok ChunkNone => read_body fuel total acc
        | Ok (ChunkBytes value) =>
            let total' := total + Z.of_nat (String.length value) in
            if cap <? total' then Emit Cancelled (Raise too_large)
            else read_body fuel total' (acc +:+ value)
        end)
  end.

(** The bytes of a stream from a position on, up to its end. *)
Fixpoint bytes_until (st : nat -> Chunk) (pos n : nat) : string :=
  match n with
  | O => ""
  | S n => match st pos with
           | ChunkBytes s => s +:+ bytes_until st (S pos) n
           | _ => bytes_until st (S pos) n
           end
  end.

Definition nothing_sent (w w' : NetWorld) : Prop :=
  dns w' = dns w /\ site w' = site w /\ stream w' = stream w /\ connects w' = connects w.

(** A body that is read whole is what the stream gave up to its end, and
    within the cap. *)
Lemma wp_read_body T D fuel : forall total acc w,
  total = Z.of_nat (String.length acc) -> total <= cap ->
  wp T D (read_body fuel total acc) w (fun w' r =>
    nothing_sent w w' /\
    (net_log w' = net_log w \/ net_log w' = Cancelled :: net_log w) /\
    match r with
    | Ok body => Z.of_nat (String.length body) <= cap /\ net_log w' = net_log w /\
        exists n, stream w (position w + n) = ChunkEnd /\ body = acc +:+ bytes_until (stream w) (position w) n
    | Throw e => e = too_large \/ e = unfinished \/ exists x, e = fail x
    end).
Proof.
  induction fuel as [|fuel IH]; intros total acc w Ht Hc; cbn [read_body wp].
  - split; [done|]. split; [by left|]. auto.
  - intros dv _. destruct dv; cbn [deliver perform net_service fst snd lost].
    + destruct (stream w (position w)) as [| |value] eqn:Hs.
      * cbn. split; [done|]. split; [by left|]. split; [lia|]. split; [done|]. exists 0%nat.
        rewrite Nat.add_0_r. split; [done|]. by rewrite str_app_nil_r.
      * eapply wp_weaken; [|by apply IH]. intros w' r (Hn & Hl & Hr). cbn in Hn, Hl. split; [done|]. split; [done|].
        destruct r as [body|e]; [|done]. destruct Hr as (Hb & Hlog & n & He & ->). cbn in He, Hb |- *.
        split; [done|]. split; [done|]. exists (S n). rewrite Nat.add_succ_r. split; [done|]. cbn. by rewrite Hs.
      * destruct (Z.ltb_spec cap (total + Z.of_nat (String.length value))) as [Hlt|Hge].
        -- cbn. split; [done|]. split; [by right|]. auto.
        -- eapply wp_weaken; [|apply IH; [rewrite str_length_app; lia|done]].
           intros w' r (Hn & Hl & Hr). cbn in Hn, Hl. split; [done|]. split; [done|].
           destruct r as [body|e]; [|done]. destruct Hr as (Hb & Hlog & n & He & ->). cbn in He, Hb |- *.
           split; [done|]. split; [done|]. exists (S n). rewrite Nat.add_succ_r. split; [done|].
           cbn. rewrite Hs. by rewrite str_app_assoc.
    + cbn. split; [done|]. split; [by left|]. eauto.
    + cbn. split; [done|]. split; [by left|]. eauto.
Qed.

(** Every chunk brings something. *)
Definition flowing (st : nat -> Chunk) : Prop := forall n, st n <> ChunkNone /\ st n <> ChunkBytes "".

(** With as much fuel as the cap has bytes, and one, the loop ends. *)
Lemma read_body_ends T D fuel : forall total acc w,
  unfinished <> too_large -> (forall e, unfinished <> fail e) ->
  flowing (stream w) -> 0 <= total <= cap -> cap - total < Z.of_nat fuel ->
  wp T D (read_body fuel total acc) w (fun _ r => r <> Throw unfinished).
Proof.
  induction fuel as [|fuel IH]; intros total acc w Hl Hf Hflow Ht Hfuel; [lia|]. cbn [read_body wp]. intros dv _.
  destruct dv; cbn [deliver perform net_service fst snd lost]; [|cbn; intros [= Hx]; by eapply Hf..].
  destruct (Hflow (position w)) as [Hn Hb]. destruct (stream w (position w)) as [| |value] eqn:Hs; [done|done|].
  destruct (Z.ltb_spec cap (total + Z.of_nat (String.length value))) as [Hlt|Hge].
  - cbn. by intros [= Hx].
  - apply IH; [done..| |]; destruct value; [done|cbn [String.length] in *; lia|done|cbn [String.length] in *; lia].
Qed.

Lemma read_body_sends (allowed : forall X, net_cmd X -> Prop) fuel : allowed _ ReadChunk -> forall total acc,
  sends allowed (read_body fuel total acc).
Proof.
  intros Ha. induction fuel as [|fuel IH]; intros total acc; cbn; [done|]. split; [done|].
  intros [[| |value]|e]; try done. by destruct (cap <? _).
Qed.
End reading.

(** ** A platform

    URLs of the form [scheme://host/path], with or without credentials. *)
Definition toy_url (s : string) : option URL :=
  match indexOf s "://" with
  | None => None
  | Some i =>
      let rest := str_drop (i + 3) s in
      let authority := match split "/" rest with a :: _ => a | [] => "" end in
      match split "@" authority with
      | [host] => if String.eqb host "" then None
                  else Some {| protocol := str_take (i + 1) s; username := ""; password := ""; hostname := host; href := s |}
      | [user; host] => Some {| protocol := str_take (i + 1) s; username := user; password := ""; hostname := host; href := s |}
      | _ => None
      end
  end.

#[export] Instance toy_platform : Platform :=
  {| new_URL := toy_url; with_hostname u _ := u;
     isIP s := if includes s ":" then 6 else if bool_decide (length (split "." s) = 4%nat) then 4 else 0;
     utf8_text s := s |}.
