(* ===== verification/OidcProbe.v ===== *)
(** The issuer probe: [packages/vestibulum/src/discovery/oidc-probe.ts].

    The probe is a program on [GuardedFetch]'s world. Its timeout is the
    platform's: a connection that takes too long answers [AbortError]. The
    reading loop runs on fuel; [probe_finishes] says how much is enough. *)

From S2P Require Import Prelude JsString Json PrivateIp Prog Verify GuardedFetch.
From Stdlib Require Import Ascii.

#[local] Open Scope string_scope.
#[local] Open Scope Z_scope.
#[local] Open Scope prog_scope.

Module OidcProbe.

Inductive OidcProbeReason :=
| unreachable | timeout | invalid_json | issuer_mismatch | unsupported_alg | too_large | not_https
| ssrf_blocked_destination | unsupported_auth_method | redirect_blocked | url_too_long | url_has_credentials.

(** The errors of the code, and running out of the model's fuel. *)
Inductive probe_error := Reason (r : OidcProbeReason) | OutOfFuel.

Definition MAX_BODY_BYTES : Z := 1024 * 1024.
Definition MAX_ISSUER_URL_LENGTH : Z := 2048.
Definition WELL_KNOWN_PATH : string := ".well-known/openid-configuration".
Definition REQUIRED_AUTH_METHOD : string := "client_secret_post".

Record OidcIssuerMetadata := {
  issuer : string;
  authorizationEndpoint : string;
  tokenEndpoint : string;
  jwksUri : string;
  userinfoEndpoint : option string;
  scopesSupported : option (list string);
  responseTypesSupported : list string;
  idTokenSigningAlgValuesSupported : list string;
  tokenEndpointAuthMethodsSupported : list string
}.

Section probe.
Context `{Platform}.

Definition normaliseIssuer (h : string) : string :=
  match new_URL h with
  | None => toLowerCase h
  | Some u => with_slash (href (with_hostname u (toLowerCase (hostname u))))
  end.

Definition readStringArray (v : option JsonValue) : list string :=
  match v with
  | Some (VArray l) => omap (fun x => match x with VString s => Some s | _ => None end) l
  | _ => []
  end.

Definition splitWhitespace (s : string) : list string := split_runs is_space (trim s).

Definition string_or (v : option JsonValue) (d : string) : string := match v with Some (VString s) => s | _ => d end.

(** The checks of the parsed document. *)
Definition validate (baseHref : string) (conf : JsonObject) : result OidcProbeReason OidcIssuerMetadata :=
  let issuer := string_or (find_key "issuer" conf) "" in
  let authorizationEndpoint := string_or (find_key "authorization_endpoint" conf) "" in
  let tokenEndpoint := string_or (find_key "token_endpoint" conf) "" in
  let jwksUri := string_or (find_key "jwks_uri" conf) "" in
  if String.eqb issuer "" || String.eqb authorizationEndpoint "" || String.eqb tokenEndpoint "" || String.eqb jwksUri ""
  then Throw invalid_json
  else if negb (String.eqb (normaliseIssuer issuer) (normaliseIssuer baseHref)) then Throw issuer_mismatch
  else
    let responseTypes := readStringArray (find_key "response_types_supported" conf) in
    if negb (existsb (fun rt => existsb (String.eqb "code") (splitWhitespace rt)) responseTypes)
    then Throw unsupported_alg
    else
      let algs := readStringArray (find_key "id_token_signing_alg_values_supported" conf) in
      match algs with
      | [] => Throw unsupported_alg
      | _ =>
          if existsb (fun alg => negb (existsb (String.eqb alg) PERMITTED_ALGS)) algs then Throw unsupported_alg
          else
            let authMethods := readStringArray (find_key "token_endpoint_auth_methods_supported" conf) in
            if negb (existsb (String.eqb REQUIRED_AUTH_METHOD) authMethods) then Throw unsupported_auth_method
            else
              Ok {| OidcProbe.issuer := issuer; OidcProbe.authorizationEndpoint := authorizationEndpoint;
                    OidcProbe.tokenEndpoint := tokenEndpoint; OidcProbe.jwksUri := jwksUri;
                    userinfoEndpoint := match find_key "userinfo_endpoint" conf with
                                        | Some (VString s) => if String.eqb s "" then None else Some s
                                        | _ => None
                                        end;
                    scopesSupported := match find_key "scopes_supported" conf with
                                       | Some (VArray l) => Some (readStringArray (Some (VArray l)))
                                       | _ => None
                                       end;
                    responseTypesSupported := responseTypes;
                    idTokenSigningAlgValuesSupported := algs;
                    tokenEndpointAuthMethodsSupported := authMethods |}
      end.

Definition parse_document (baseHref body : string) : result OidcProbeReason OidcIssuerMetadata :=
  match JSON_parse (utf8_text body) with
  | Some (VObject conf) => validate baseHref conf
  | _ => Throw invalid_json
  end.

#[local] Notation probe_prog := (net_prog probe_error net_event).

(** [runProbe]. *)
Definition runProbe (fuel : nat) (baseHref probeUrl : string) (pin : string * Z) : probe_prog OidcIssuerMetadata :=
  Send (Connect probeUrl (Some pin)) (fun r =>
    match r with
    | Throw AbortError => Raise (Reason timeout)
    | Throw (NetError _) => Raise (Reason unreachable)
    | Ok response =>
        if (300 <=? status response) && (status response <? 400) then Raise (Reason redirect_blocked)
        else if negb (response_ok response) then Raise (Reason unreachable)
        else if negb (has_body response) then Raise (Reason unreachable)
        else
          let! body := read_body MAX_BODY_BYTES (Reason too_large) OutOfFuel (fun _ => Reason unreachable) fuel 0 "" in
          match parse_document baseHref body with
          | Ok md => Ret md
          | Throw e => Raise (Reason e)
          end
    end).

Definition any_private (addresses : list string) : bool := existsb isPrivateAddress addresses.
#[local] Arguments any_private : simpl never.

(** [buildPinnedLookup]: whatever name it is asked for. *)
Definition buildPinnedLookup (pin : string * Z) (hostname : string) : string * Z := pin.

Definition probeOidcIssuer (fuel : nat) (issuerUrl : string) : probe_prog OidcIssuerMetadata :=
  if MAX_ISSUER_URL_LENGTH <? Z.of_nat (String.length issuerUrl) then Raise (Reason url_too_long)
  else
    match new_URL issuerUrl with
    | None => Raise (Reason unreachable)
    | Some url =>
        if negb (String.eqb (protocol url) "https:") then Raise (Reason not_https)
        else if negb (String.eqb (username url) "") || negb (String.eqb (password url) "")
        then Raise (Reason url_has_credentials)
        else
          Send (Resolve (strip_brackets (hostname url))) (fun r =>
            match r with
            | Throw _ | Ok [] => Raise (Reason unreachable)
            | Ok ((validatedIp :: _) as addresses) =>
                if any_private addresses then Raise (Reason ssrf_blocked_destination)
                else if String.eqb validatedIp "" then Raise (Reason unreachable)
                else
                  let family := isIP validatedIp in
                  if negb ((family =? 4) || (family =? 6)) then Raise (Reason unreachable)
                  else
                    let pin := (validatedIp, family) in
                    let baseHref := with_slash (href url) in
                    Emit (Opened pin)
                      (attempt (runProbe fuel baseHref (baseHref +:+ WELL_KNOWN_PATH) pin) (fun out =>
                        Emit (Closed pin) (match out with Ok md => Ret md | Throw e => Raise e end)))
            end)
    end.

(** ** Where it connects *)

(** A URL the probe lets through. *)
Definition admissible (issuerUrl : string) (url : URL) : Prop :=
  Z.of_nat (String.length issuerUrl) <= MAX_ISSUER_URL_LENGTH /\ new_URL issuerUrl = Some url /\
  protocol url = "https:" /\ username url = "" /\ password url = "".

Definition public_only (issuerUrl : string) (X : Type) (c : net_cmd X) : Prop :=
  exists url, admissible issuerUrl url /\
  match c with
  | Resolve host => host = strip_brackets (hostname url)
  | Connect u pin => u = with_slash (href url) +:+ WELL_KNOWN_PATH /\
      exists ip, pin = Some (ip, isIP ip) /\ isPrivateAddress ip = false /\ (isIP ip = 4 \/ isIP ip = 6)
  | ReadChunk => True
  end.

(** The two ways through the guards. *)
Lemma probe_guards (P : probe_prog OidcIssuerMetadata -> Prop) fuel issuerUrl :
  (forall e, P (Raise (Reason e))) ->
  (forall url, admissible issuerUrl url -> forall k, k = (fun r => match r with
            | Throw _ | Ok [] => Raise (Reason unreachable)
            | Ok ((validatedIp :: _) as addresses) =>
                if any_private addresses then Raise (Reason ssrf_blocked_destination)
                else if String.eqb validatedIp "" then Raise (Reason unreachable)
                else
                  let family := isIP validatedIp in
                  if negb ((family =? 4) || (family =? 6)) then Raise (Reason unreachable)
                  else
                    let pin := (validatedIp, family) in
                    let baseHref := with_slash (href url) in
                    Emit (Opened pin)
                      (attempt (runProbe fuel baseHref (baseHref +:+ WELL_KNOWN_PATH) pin) (fun out =>
                        Emit (Closed pin) (match out with Ok md => Ret md | Throw e => Raise e end)))
            end) -> P (Send (Resolve (strip_brackets (hostname url))) k)) ->
  P (probeOidcIssuer fuel issuerUrl).
Proof.
  intros Hr Hs. unfold probeOidcIssuer.
  destruct (Z.ltb_spec MAX_ISSUER_URL_LENGTH (Z.of_nat (String.length issuerUrl))) as [|Hl]; [apply Hr|].
  destruct (new_URL issuerUrl) as [url|] eqn:Hu; [|apply Hr].
  destruct (String.eqb_spec (protocol url) "https:") as [Hp|]; [|apply Hr]. cbn [negb].
  destruct (String.eqb_spec (username url) "") as [Hn|]; [|apply Hr].
  destruct (String.eqb_spec (password url) "") as [Hw|]; [|apply Hr]. cbn [negb orb].
  by apply (Hs url).
Qed.

Lemma runProbe_sends (allowed : forall X, net_cmd X -> Prop) fuel baseHref probeUrl pin :
  allowed _ (Connect probeUrl (Some pin)) -> allowed _ ReadChunk -> sends allowed (runProbe fuel baseHref probeUrl pin).
Proof.
  intros Hc Hr. unfold runProbe. cbn [sends]. split; [done|]. intros [response|[]]; try done.
  case_match; [done|]. case_match; [done|]. case_match; [done|].
  apply sends_await; [by apply read_body_sends|]. intros body. by destruct (parse_document baseHref body).
Qed.

(** C22 (The probe never dials a private address): whatever the URL, the name
    service and the sites answer, every connection the probe makes is to the
    discovery document under the URL it was given, which uses https and holds
    no credentials, and is pinned to one address that was resolved before and
    that is not private: no second name lookup can move it. *)
Theorem probe_dials_public_only fuel issuerUrl :
  sends (public_only issuerUrl) (probeOidcIssuer fuel issuerUrl).
Proof.
  apply probe_guards; [done|]. intros url Hu k ->. cbn [sends]. split; [by exists url|].
  intros [[|ip rest]|e]; try done. destruct (any_private (ip :: rest)) eqn:Hp; [done|].
  unfold any_private in Hp. cbn [existsb] in Hp. apply orb_false_iff in Hp as [Hp _]. destruct (String.eqb ip ""); [done|].
  destruct ((isIP ip =? 4) || (isIP ip =? 6)) eqn:Hf; [|done]. cbn [negb sends].
  apply sends_attempt; [|by intros [md|e]].
  apply runProbe_sends; exists url; (split; [done|]); [|done]. split; [done|]. exists ip. split; [done|]. split; [done|].
  apply orb_true_iff in Hf as [Hf|Hf]; apply Z.eqb_eq in Hf; auto.
Qed.

(** ** What it accepts *)

Definition good_metadata (baseHref : string) (conf : JsonObject) (md : OidcIssuerMetadata) : Prop :=
  find_key "issuer" conf = Some (VString (issuer md)) /\ issuer md <> "" /\
  normaliseIssuer (issuer md) = normaliseIssuer baseHref /\
  find_key "authorization_endpoint" conf = Some (VString (authorizationEndpoint md)) /\ authorizationEndpoint md <> "" /\
  find_key "token_endpoint" conf = Some (VString (tokenEndpoint md)) /\ tokenEndpoint md <> "" /\
  find_key "jwks_uri" conf = Some (VString (jwksUri md)) /\ jwksUri md <> "" /\
  (exists rt, In rt (responseTypesSupported md) /\ In "code" (splitWhitespace rt)) /\
  idTokenSigningAlgValuesSupported md <> [] /\
  (forall alg, In alg (idTokenSigningAlgValuesSupported md) -> In alg PERMITTED_ALGS) /\
  In REQUIRED_AUTH_METHOD (tokenEndpointAuthMethodsSupported md).

Lemma string_or_empty v : string_or v "" <> "" -> v = Some (VString (string_or v "")).
Proof. by destruct v as [[]|]. Qed.

Lemma existsb_eqb s l : existsb (String.eqb s) l = true <-> In s l.
Proof.
  rewrite existsb_exists. split; [by intros (x & Hx & ->%String.eqb_eq)|].
  intros Hin. exists s. split; [done|]. apply String.eqb_refl.
Qed.

Lemma validate_good baseHref conf md : validate baseHref conf = Ok md -> good_metadata baseHref conf md.
Proof.
  unfold validate. cbv zeta.
  destruct (String.eqb_spec (string_or (find_key "issuer" conf) "") "") as [|Hi]; [done|].
  destruct (String.eqb_spec (string_or (find_key "authorization_endpoint" conf) "") "") as [|Ha]; [done|].
  destruct (String.eqb_spec (string_or (find_key "token_endpoint" conf) "") "") as [|Ht]; [done|].
  destruct (String.eqb_spec (string_or (find_key "jwks_uri" conf) "") "") as [|Hj]; [done|]. cbn [orb].
  destruct (String.eqb_spec (normaliseIssuer (string_or (find_key "issuer" conf) "")) (normaliseIssuer baseHref)) as [Hn|];
    [|done]. cbn [negb].
  destruct (existsb _ (readStringArray (find_key "response_types_supported" conf))) eqn:Hrt; [|done]. cbn [negb].
  destruct (readStringArray (find_key "id_token_signing_alg_values_supported" conf)) as [|a algs] eqn:Halg; [done|].
  destruct (existsb _ (a :: algs)) eqn:Hperm; [done|].
  destruct (existsb (String.eqb REQUIRED_AUTH_METHOD) _) eqn:Hauth; [|done]. cbn [negb]. intros [= <-].
  unfold good_metadata. cbn [issuer authorizationEndpoint tokenEndpoint jwksUri responseTypesSupported
    idTokenSigningAlgValuesSupported tokenEndpointAuthMethodsSupported].
  do 9 (split; [by first [done|apply string_or_empty]|]).
  split; [|split; [done|split]].
  - apply existsb_exists in Hrt as (rt & Hin & Hc). exists rt. split; [done|]. by apply existsb_eqb.
  - intros alg Hin. apply existsb_eqb. destruct (existsb (String.eqb alg) PERMITTED_ALGS) eqn:He; [done|].
    assert (existsb (fun alg => negb (existsb (String.eqb alg) PERMITTED_ALGS)) (a :: algs) = true); [|congruence].
    apply existsb_exists. exists alg. by rewrite He.
  - by apply existsb_eqb.
Qed.

(** The log of a probe: nothing, or its dispatcher opened and closed. *)
Definition balanced (w w' : NetWorld) : Prop :=
  net_log w' = net_log w \/
  exists pin, net_log w' = Closed pin :: Opened pin :: net_log w \/
              net_log w' = Closed pin :: Cancelled :: Opened pin :: net_log w.

Definition refused_early (e : OidcProbeReason) : Prop :=
  In e [not_https; ssrf_blocked_destination; url_too_long; url_has_credentials].

Lemma wp_runProbe T D fuel baseHref probeUrl pin w :
  wp T D (runProbe fuel baseHref probeUrl pin) w (fun w' r =>
    (net_log w' = net_log w \/ net_log w' = Cancelled :: net_log w) /\
    match r with
    | Ok md => exists response body conf, site w probeUrl (Some pin) = Ok response /\ response_ok response = true /\
        Z.of_nat (String.length body) <= MAX_BODY_BYTES /\ JSON_parse (utf8_text body) = Some (VObject conf) /\
        good_metadata baseHref conf md /\ exists n, body = bytes_until (stream w) 0 n
    | Throw (Reason e) => ~ refused_early e
    | Throw OutOfFuel => True
    end).
Proof.
  assert (forall e, ~ In e [not_https; ssrf_blocked_destination; url_too_long; url_has_credentials] -> ~ refused_early e)
    as Hno by auto.
  unfold runProbe. cbn [wp]. intros dv _.
  destruct dv; cbn [deliver perform net_service fst snd lost];
    [|cbn; split; [by left|]; apply Hno; cbn; naive_solver..].
  destruct (site w probeUrl (Some pin)) as [response|[]]; cycle 1.
  { cbn. split; [by left|]. apply Hno. cbn. naive_solver. }
  { cbn. split; [by left|]. apply Hno. cbn. naive_solver. }
  case_match; [cbn; split; [by left|]; apply Hno; cbn; naive_solver|].
  destruct (response_ok response) eqn:Hok; cbn [negb]; [|cbn; split; [by left|]; apply Hno; cbn; naive_solver].
  destruct (has_body response); cbn [negb]; [|cbn; split; [by left|]; apply Hno; cbn; naive_solver].
  apply wp_await. eapply wp_weaken; [|apply wp_read_body; [done|vm_compute; done]].
  intros w' r (_ & Hl & Hr). cbn in Hl. destruct r as [body|e].
  - destruct Hr as (Hb & _ & n & _ & Hbody). unfold parse_document.
    destruct (JSON_parse (utf8_text body)) as [v|] eqn:Hj; [|cbn; split; [done|]; apply Hno; cbn; naive_solver].
    destruct v as [| | | | |conf]; try (cbn; split; [done|]; apply Hno; cbn; naive_solver).
    destruct (validate baseHref conf) as [md|e] eqn:Hv.
    + cbn. split; [done|]. exists response, body, conf. do 4 (split; [done|]). split; [by apply validate_good|].
      by exists n.
    + cbn. split; [done|]. apply Hno. unfold validate in Hv. cbv zeta in Hv.
      repeat (case_match; try done); injection Hv as <-; cbn; naive_solver.
  - cbn. split; [done|]. destruct Hr as [->|[->|[x ->]]]; [|done|]; apply Hno; cbn; naive_solver.
Qed.

(** C23 (What a probe that succeeds has seen, and what one that fails has
    touched): metadata is returned only for an admissible URL, all of whose
    addresses are public, from a 2xx answer within the size cap to the one
    pinned connection, and it is metadata of that issuer: endpoints present,
    the code flow, permitted algorithms only, and the one authentication
    method Cognito supports; a URL that is too long, not https, with
    credentials or with any private address is refused before anything is
    connected; and a dispatcher that was opened is closed, once, on every
    path. *)
Theorem probe_spec T D fuel issuerUrl w :
  wp T D (probeOidcIssuer fuel issuerUrl) w (fun w' r =>
    balanced w w' /\
    match r with
    | Ok md => exists url ip rest response body conf,
        admissible issuerUrl url /\ dns w (strip_brackets (hostname url)) = Ok (ip :: rest) /\
        Forall (fun a => isPrivateAddress a = false) (ip :: rest) /\
        site w (with_slash (href url) +:+ WELL_KNOWN_PATH) (Some (ip, isIP ip)) = Ok response /\
        response_ok response = true /\ Z.of_nat (String.length body) <= MAX_BODY_BYTES /\
        JSON_parse (utf8_text body) = Some (VObject conf) /\ good_metadata (with_slash (href url)) conf md
    | Throw (Reason e) => refused_early e -> connects w' = connects w /\ net_log w' = net_log w
    | Throw OutOfFuel => True
    end).
Proof.
  apply probe_guards.
  { intros e. cbn. split; [by left|done]. }
  intros url Hu k ->. cbn [wp]. intros dv _.
  destruct dv; cbn [deliver perform net_service fst snd lost]; [|by (cbn; split; [left|])..].
  destruct (dns w _) as [[|ip rest]|e] eqn:Hdns; [cbn; split; [by left|done]| |cbn; split; [by left|done]].
  destruct (any_private (ip :: rest)) eqn:Hp; [cbn; split; [by left|done]|].
  destruct (String.eqb ip ""); [cbn; split; [by left|done]|]. cbv zeta.
  destruct ((isIP ip =? 4) || (isIP ip =? 6)); [|cbn; split; [by left|done]]. cbn [negb wp].
  apply wp_attempt. eapply wp_weaken; [|apply wp_runProbe].
  intros w' r (Hl & Hr). cbn in Hl.
  assert (balanced w (record_event w' (Closed (ip, isIP ip)))) as Hb.
  { right. exists (ip, isIP ip). cbn. destruct Hl as [-> | ->]; auto. }
  destruct r as [md|[e|]]; cbn [wp]; (split; [done|]); [|by intros He|done].
  destruct Hr as (response & body & conf & Hs & Hok & Hlen & Hj & Hg & _).
  exists url, ip, rest, response, body, conf. do 2 (split; [done|]). split; [by apply existsb_false_Forall|]. done.
Qed.

(** C24 (The probe ends): as long as every chunk the site sends holds at least
    one byte, the reading loop ends within the cap: with fuel for two reads
    more than the cap has bytes, the probe gives its answer, on every path. *)
Theorem probe_finishes T D issuerUrl w :
  flowing (stream w) ->
  wp T D (probeOidcIssuer (Z.to_nat (MAX_BODY_BYTES + 2)) issuerUrl) w (fun _ r => r <> Throw OutOfFuel).
Proof.
  intros Hf. remember (Z.to_nat (MAX_BODY_BYTES + 2)) as fuel eqn:Hfuel.
  apply probe_guards; [done|]. intros url Hu k ->. cbn [wp]. intros dv _.
  destruct dv; cbn [deliver perform net_service fst snd lost]; [|done..].
  destruct (dns w _) as [[|ip rest]|e]; [done| |done].
  repeat (case_match; [done|]). cbn [wp]. apply wp_attempt.
  eapply (wp_weaken _ _ _ (fun _ r => r <> Throw OutOfFuel)).
  { intros w' [md|e] Hr; cbn; [done|]. intros [= ->]. done. }
  unfold runProbe. cbn [wp]. intros dv _. destruct dv; cbn [deliver perform net_service fst snd lost]; [|done..].
  match goal with |- context [site ?w0 ?u ?p] => destruct (site w0 u p) as [response|[]] end; [|done..].
  repeat (case_match; [done|]). apply wp_await.
  eapply wp_weaken; [|apply read_body_ends; [done|done|exact Hf|split; [done|vm_compute; done]|]].
  - intros w' [body|e] Hr; [cbn; by destruct (parse_document _ body)|]. cbn. intros [= ->]. by apply Hr.
  - rewrite Hfuel, Z2Nat.id; [lia|vm_compute; done].
Qed.
End probe.

(** ** Runs *)

Definition discovery (issuer alg : string) : string :=
  stringify (VObject [("issuer", VString issuer); ("authorization_endpoint", VString "https://id.example.com/auth");
    ("token_endpoint", VString "https://id.example.com/token"); ("jwks_uri", VString "https://id.example.com/certs");
    ("response_types_supported", VArray [VString " code id_token"]);
    ("id_token_signing_alg_values_supported", VArray [VString alg]);
    ("token_endpoint_auth_methods_supported", VArray [VString "client_secret_basic"; VString "client_secret_post"])]).

(** A site that sends its document in two chunks. *)
Definition site_of (addresses : list string) (document : string) : NetWorld :=
  {| dns := fun _ => Ok addresses; site := fun _ _ => Ok {| status := 200; has_body := true |};
     stream := fun n => match n with
                        | 0%nat => ChunkBytes (str_take 20 document)
                        | 1%nat => ChunkBytes (str_drop 20 document)
                        | _ => ChunkEnd
                        end;
     position := 0; connects := []; net_log := [] |}.

Example probe_runs :
  let probe url w := run (probeOidcIssuer 10 url) (delivered (fun _ => 0)) 0 w in
  let good := discovery "https://id.example.com/realm/" "RS256" in
  (match snd (probe "https://id.example.com/realm" (site_of ["93.184.216.34"] good)) with
   | Ok md => tokenEndpoint md = "https://id.example.com/token"
   | Throw _ => False
   end) /\
  connects (fst (probe "https://id.example.com/realm" (site_of ["93.184.216.34"] good))) =
    [("https://id.example.com/realm/.well-known/openid-configuration", Some ("93.184.216.34", 4))] /\
  net_log (fst (probe "https://id.example.com/realm" (site_of ["93.184.216.34"] good))) =
    [Closed ("93.184.216.34", 4); Opened ("93.184.216.34", 4)] /\
  snd (probe "https://id.example.com/realm" (site_of ["93.184.216.34"; "10.0.0.1"] good)) =
    Throw (Reason ssrf_blocked_destination) /\
  snd (probe "https://id.example.com/other" (site_of ["93.184.216.34"] good)) = Throw (Reason issuer_mismatch) /\
  snd (probe "https://me@id.example.com/realm" (site_of ["93.184.216.34"] good)) = Throw (Reason url_has_credentials) /\
  snd (probe "https://id.example.com/realm"
         (site_of ["93.184.216.34"] (discovery "https://id.example.com/realm" "HS256"))) = Throw (Reason unsupported_alg).
Proof. vm_compute. repeat split. Qed.

(** A site that never stops sending. *)
Definition endless : NetWorld :=
  {| dns := fun _ => Ok ["93.184.216.34"]; site := fun _ _ => Ok {| status := 200; has_body := true |};
     stream := fun _ => ChunkBytes "x"; position := 0; connects := []; net_log := [] |}.

Lemma probe_finishes_witness :
  wp any_time any_delivery (probeOidcIssuer (Z.to_nat (MAX_BODY_BYTES + 2)) "https://id.example.com/") endless
    (fun _ r => r <> Throw OutOfFuel).
Proof. apply (probe_finishes any_time any_delivery "https://id.example.com/" endless). intros n. split; discriminate. Defined.
End OidcProbe.
