(* ===== verification/SamlMetadata.v ===== *)
(** SAML metadata: [packages/vestibulum/src/discovery/saml-metadata.ts].

    A parsed document is a tree of elements, and an element is identified by
    the path from the root, so that being the same node and being a direct
    child are what they are in the DOM. The XML parser, the signature library,
    [X509Certificate], [Date] parsing and hashing are an interface. The fetch
    of a metadata URL is a program on [GuardedFetch]'s world. *)

From S2P Require Import Prelude JsString PrivateIp Prog GuardedFetch.
From Stdlib Require Import Ascii QArith Qround.

#[local] Open Scope string_scope.
#[local] Open Scope Z_scope.
#[local] Open Scope prog_scope.

Module Saml.

Inductive SamlMetadataReason :=
| invalid_xml | unsigned | expired | unsupported_binding | no_signing_cert | too_large | ssrf_blocked_destination
| redirect_blocked | unreachable.

(** ** Documents *)

(** An element has its namespace, its local name and its attributes. *)
Inductive xml_node :=
| Elem (ns local : string) (attrs : list (string * string)) (children : list xml_node)
| TextNode (s : string)
| OtherNode.

Definition path := list nat.

Definition childNodes (n : xml_node) : list xml_node := match n with Elem _ _ _ cs => cs | _ => [] end.

Definition named (ns local : string) (n : xml_node) : bool :=
  match n with Elem ns' local' _ _ => String.eqb ns' ns && String.eqb local' local | _ => false end.

Fixpoint attr (name : string) (l : list (string * string)) : option string :=
  match l with [] => None | (k, v) :: r => if String.eqb k name then Some v else attr name r end.

Definition getAttribute (n : xml_node) (name : string) : option string :=
  match n with Elem _ _ attrs _ => attr name attrs | _ => None end.

Fixpoint textContent (n : xml_node) : string :=
  match n with
  | Elem _ _ _ cs => String.concat "" (map textContent cs)
  | TextNode s => s
  | OtherNode => ""
  end.

(** The node at a path from the root. *)
Fixpoint node_at (n : xml_node) (p : path) : option xml_node :=
  match p with
  | [] => Some n
  | i :: r => childNodes n !! i ≫= fun c => node_at c r
  end.

(** [getElementsByTagNameNS]: in document order. *)
Fixpoint collectByNS (ns local : string) (here : path) (n : xml_node) : list path :=
  ((if named ns local n then [here] else []) ++
   match n with
   | Elem _ _ _ cs =>
       (fix go (i : nat) (l : list xml_node) : list path :=
          match l with
          | [] => []
          | c :: r => collectByNS ns local (here ++ [i]) c ++ go (S i) r
          end) 0%nat cs
   | _ => []
   end)%list.

Definition collectChildrenByNS (parent : xml_node) (ns local : string) : list xml_node :=
  List.filter (named ns local) (childNodes parent).

(** [findChildNS] and [firstChildNS]. *)
Definition findChildNS (parent : xml_node) (ns local : string) : option xml_node :=
  List.find (named ns local) (childNodes parent).

Definition childTextsNS (parent : xml_node) (ns local : string) : list string :=
  filter_non_empty (map (fun el => trim (textContent el)) (collectChildrenByNS parent ns local)).

(** ** Constants and results *)

Definition DEFAULT_MAX_BYTES : Z := 256 * 1024.
Definition MAX_URL_LENGTH : Z := 2048.
Definition NS_MD : string := "urn:oasis:names:tc:SAML:2.0:metadata".
Definition NS_DS : string := "http://www.w3.org/2000/09/xmldsig#".
Definition BINDING_REDIRECT : string := "urn:oasis:names:tc:SAML:2.0:bindings:HTTP-Redirect".
Definition BINDING_POST : string := "urn:oasis:names:tc:SAML:2.0:bindings:HTTP-POST".

(** A date is its time value, [None] when invalid. *)
Record SamlCertificate := {
  pem : string;
  notBefore : option Z;
  notAfter : option Z;
  subjectCommonName : option string;
  fingerprintSha256 : string
}.

Record SamlAttributeDescriptor := { name : string; nameFormat : option string; friendlyName : option string }.

Inductive SamlSignatureStatus :=
| signed | missing_signature | invalid_signature | cert_expired (expiredAt : Z) | untrusted_issuer (detail : string)
| wrapping_attack_blocked | malformed_signature (detail : string).

Inductive SsoBinding := HTTP_Redirect | HTTP_POST.

Record SamlMetadata := {
  entityId : string;
  sso_binding : SsoBinding;
  sso_location : string;
  signingCertificates : list SamlCertificate;
  encryptionCertificates : list SamlCertificate;
  nameIdFormats : list string;
  validUntil : option Z;
  cacheDurationMs : option Z;
  supportedAttributes : list SamlAttributeDescriptor;
  isSigned : bool;
  signatureStatus : SamlSignatureStatus
}.

(** What [X509Certificate] says of DER bytes. *)
Record X509 := { validFrom : string; validTo : string; subject : string }.

(** [parse_xml]: the warnings and the root element, or the message of the
    error. [check_signature] is [loadSignature] of the element followed by
    [checkSignature] of the text: its answer and the URIs of the references,
    or the message of the error. *)
Class SamlLib := {
  parse_xml : string -> result string (list string * option xml_node);
  check_signature : xml_node -> string -> result string (bool * list (option string));
  x509 : string -> option X509;
  sha256_der : string -> string;
  Date_parse : string -> option Z
}.

(** ** Lexical parts *)

Definition is_word (c : ascii) : bool := is_alnum c || Ascii.eqb c "_".

(** [/<!DOCTYPE\b/i]. *)
Fixpoint containsDoctype (xml : string) : bool :=
  (String.prefix "<!doctype" (toLowerCase (str_take 9 xml)) &&
   match str_drop 9 xml with EmptyString => true | String.String c _ => negb (is_word c) end) ||
  match xml with EmptyString => false | String.String _ r => containsDoctype r end.

(** An optional [(\d+)c]. *)
Definition component (c : ascii) (s : string) : option Z * string :=
  let '(ds, r) := span_digits s in
  match r with
  | String.String d r' => if non_empty ds && Ascii.eqb d c then (Some (dec_val ds), r') else (None, s)
  | EmptyString => (None, s)
  end.

(** An optional [(\d+(?:\.\d+)?)S]. *)
Definition seconds_component (s : string) : option Q * string :=
  let '(ds, r) := span_digits s in
  let '(fs, r') := match r with
                   | String.String d r1 => if Ascii.eqb d "." then span_digits r1 else ("", r)
                   | EmptyString => ("", r)
                   end in
  let dotted := match r with String.String d _ => Ascii.eqb d "." | EmptyString => false end in
  match r' with
  | String.String d rest =>
      if non_empty ds && Ascii.eqb d "S" && (negb dotted || non_empty fs)
      then (Some (scale10 (dec_val (ds +:+ fs)) (- Z.of_nat (String.length fs))), rest)
      else (None, s)
  | EmptyString => (None, s)
  end.

(** [Math.round]. *)
Definition math_round (q : Q) : Z := Qfloor (q + (1 # 2)).

Definition parseXsDuration (value : string) : result SamlMetadataReason Z :=
  let total (d h m : option Z) (s : option Q) :=
    let days := default 0 d in let hours := default 0 h in let minutes := default 0 m in
    let seconds := default 0%Q s in
    if (days =? 0) && (hours =? 0) && (minutes =? 0) && Qeq_bool seconds 0 then Throw invalid_xml
    else Ok (days * 86400000 + hours * 3600000 + minutes * 60000 + math_round (seconds * 1000)) in
  match value with
  | String.String p r =>
      if negb (Ascii.eqb p "P") then Throw invalid_xml
      else
        let '(d, r1) := component "D" r in
        match r1 with
        | EmptyString => total d None None None
        | String.String t r2 =>
            if negb (Ascii.eqb t "T") then Throw invalid_xml
            else
              let '(h, r3) := component "H" r2 in
              let '(m, r4) := component "M" r3 in
              let '(s, r5) := seconds_component r4 in
              match r5 with EmptyString => total d h m s | _ => Throw invalid_xml end
        end
  | EmptyString => Throw invalid_xml
  end.

Example durations :
  map parseXsDuration ["PT6H"; "P1D"; "P1DT1H1M1S"; "PT0.5S"; "PT1.2345S"; "PT90M"; "P"; "PT"; "PT0S"; "P1M"; "PT.5S"; "PT5"; "P1DT"] =
  [Ok 21600000; Ok 86400000; Ok 90061000; Ok 500; Ok 1235; Ok 5400000; Throw invalid_xml; Throw invalid_xml;
   Throw invalid_xml; Throw invalid_xml; Throw invalid_xml; Throw invalid_xml; Ok 86400000].
Proof. vm_compute. reflexivity. Qed.

(** [s.replace(/\s+/g, '')]. *)
Fixpoint drop_spaces (s : string) : string :=
  match s with
  | EmptyString => ""
  | String.String c r => if is_space c then drop_spaces r else String.String c (drop_spaces r)
  end.

(** Pieces of 64 characters; [n] bounds their number. *)
Fixpoint chunks64 (n : nat) (s : string) : list string :=
  match n with
  | O => []
  | S n => if String.eqb s "" then [] else str_take 64 s :: chunks64 n (str_drop 64 s)
  end.

Definition newline : string := String.String "010"%char "".

Definition pemFromBase64 (b64 : string) : string :=
  "-----BEGIN CERTIFICATE-----" +:+ newline +:+ join newline (chunks64 (String.length b64) b64) +:+ newline +:+
  "-----END CERTIFICATE-----" +:+ newline.

(** The longest prefix of characters that are none of [,], [/] and [+]. *)
Fixpoint cn_chars (s : string) : string :=
  match s with
  | EmptyString => ""
  | String.String c r =>
      if Ascii.eqb c "," || Ascii.eqb c "/" || Ascii.eqb c "+" then "" else String.String c (cn_chars r)
  end.

(** [/CN=([^,/+]+)/]. *)
Fixpoint cn_match (s : string) : option string :=
  match s with
  | EmptyString => None
  | String.String _ r =>
      let v := cn_chars (str_drop 3 s) in
      if String.prefix "CN=" s && non_empty v then Some v else cn_match r
  end.

(** ** The extraction *)

Section saml.
Context `{SamlLib}.

Definition buildCertificate (b64 : string) : option SamlCertificate :=
  x ← x509 b64;
  Some {| pem := pemFromBase64 b64; notBefore := Date_parse (validFrom x); notAfter := Date_parse (validTo x);
          subjectCommonName := trim <$> cn_match (subject x); fingerprintSha256 := sha256_der b64 |}.

(** The certificates under a [KeyDescriptor]. *)
Definition descriptor_certificates (kd : xml_node) : list SamlCertificate :=
  match findChildNS kd NS_DS "KeyInfo" with
  | None => []
  | Some keyInfo =>
      flat_map (fun data =>
        flat_map (fun certNode =>
          let b64 := drop_spaces (textContent certNode) in
          if String.eqb b64 "" then []
          else match buildCertificate b64 with Some c => [c] | None => [] end)
          (collectChildrenByNS data NS_DS "X509Certificate"))
        (collectChildrenByNS keyInfo NS_DS "X509Data")
  end.

Definition is_encryption (kd : xml_node) : bool :=
  match getAttribute kd "use" with Some u => String.eqb u "encryption" | None => false end.
Definition is_both (kd : xml_node) : bool :=
  match getAttribute kd "use" with Some u => String.eqb u "" | None => true end.

(** Signing certificates, and encryption certificates. *)
Definition extractKeyDescriptors (idpSso : xml_node) : list SamlCertificate * list SamlCertificate :=
  let descriptors := collectChildrenByNS idpSso NS_MD "KeyDescriptor" in
  (flat_map (fun kd => if is_encryption kd then [] else descriptor_certificates kd) descriptors,
   flat_map (fun kd => if is_encryption kd || is_both kd then descriptor_certificates kd else []) descriptors).

Definition requireAttr (el : xml_node) (a : string) : result SamlMetadataReason string :=
  match getAttribute el a with
  | Some v => if String.eqb v "" then Throw invalid_xml else Ok v
  | None => Throw invalid_xml
  end.

Definition has_binding (b : string) (s : xml_node) : bool :=
  match getAttribute s "Binding" with Some v => String.eqb v b | None => false end.

Definition pickSsoEndpoint (idpSso : xml_node) : result SamlMetadataReason (SsoBinding * string) :=
  let services := collectChildrenByNS idpSso NS_MD "SingleSignOnService" in
  match List.find (has_binding BINDING_REDIRECT) services, List.find (has_binding BINDING_POST) services with
  | Some s, _ => (let* location := requireAttr s "Location" in Ok (HTTP_Redirect, location))%js
  | None, Some s => (let* location := requireAttr s "Location" in Ok (HTTP_POST, location))%js
  | None, None => Throw unsupported_binding
  end.

Definition non_blank (v : option string) : option string :=
  match v with Some s => if String.eqb s "" then None else Some s | None => None end.

Definition extractSupportedAttributes (entityDescriptor : xml_node) : list SamlAttributeDescriptor :=
  flat_map (fun aa =>
    omap (fun node =>
      match node with
      | Elem _ local _ _ =>
          if negb (String.eqb local "Attribute") then None
          else n ← non_blank (getAttribute node "Name");
               Some {| name := n; nameFormat := non_blank (getAttribute node "NameFormat");
                       friendlyName := non_blank (getAttribute node "FriendlyName") |}
      | _ => None
      end) (childNodes aa))
    (collectChildrenByNS entityDescriptor NS_MD "AttributeAuthorityDescriptor").

(** [findEntityDescriptor]: its path. *)
Definition findEntityDescriptor (root : xml_node) : option path :=
  if named NS_MD "EntityDescriptor" root then Some []
  else head (collectByNS NS_MD "EntityDescriptor" [] root).

(** [node.parentNode === parent]. *)
Definition isDirectChildOf (node parent : path) : bool :=
  match rev node with
  | [] => false
  | _ :: r => bool_decide (rev r = parent)
  end.

Definition strip_hash (s : string) : string :=
  match s with String.String c r => if Ascii.eqb c "#" then r else s | EmptyString => "" end.

Definition verifyDocumentSignature (root : xml_node) (xml : string) (at_ : path) (entityDescriptor : xml_node) :
    SamlSignatureStatus :=
  match collectByNS NS_DS "Signature" [] root with
  | [] => missing_signature
  | signatureNodes =>
      match List.find (fun sig => isDirectChildOf sig at_) signatureNodes ≫= node_at root with
      | None => wrapping_attack_blocked
      | Some directSignature =>
          match check_signature directSignature xml with
          | Throw m => malformed_signature m
          | Ok (false, _) => invalid_signature
          | Ok (true, [uri]) =>
              let refUri := strip_hash (default "" uri) in
              if String.eqb refUri "" then malformed_signature "reference has no URI"
              else
                match getAttribute entityDescriptor "ID" with
                | Some id =>
                    if String.eqb id "" then wrapping_attack_blocked
                    else if negb (String.eqb refUri id) then wrapping_attack_blocked else signed
                | None => wrapping_attack_blocked
                end
          | Ok (true, _) => malformed_signature "expected exactly 1 reference"
          end
      end
  end.

Definition is_signed (s : SamlSignatureStatus) : bool := match s with signed => true | _ => false end.

(** Past at [now]; an invalid date compares false. *)
Definition past (now : Z) (c : SamlCertificate) : bool :=
  match notAfter c with Some t => t <? now | None => false end.

Definition parse_optional {A} (v : option string) (f : string -> result SamlMetadataReason A) :
    result SamlMetadataReason (option A) :=
  match v with None => Ok None | Some s => (let* a := f s in Ok (Some a))%js end.

Definition parseDateOrThrow (value : string) : result SamlMetadataReason Z :=
  match Date_parse value with Some t => Ok t | None => Throw invalid_xml end.

(** From the element on; [now] is when the certificates are looked at. *)
Definition extract (root : xml_node) (xml : string) (at_ : path) (entityDescriptor : xml_node) (now : Z) :
    result SamlMetadataReason SamlMetadata :=
  let status := verifyDocumentSignature root xml at_ entityDescriptor in
  (let* entity := requireAttr entityDescriptor "entityID" in
   match findChildNS entityDescriptor NS_MD "IDPSSODescriptor" with
   | None => Throw invalid_xml
   | Some idpSso =>
       let* endpoint := pickSsoEndpoint idpSso in
       let '(signing, encryption) := extractKeyDescriptors idpSso in
       match signing with
       | [] => Throw no_signing_cert
       | _ =>
           if forallb (past now) signing then Throw expired
           else
             let* until := parse_optional (getAttribute entityDescriptor "validUntil") parseDateOrThrow in
             let* cache := parse_optional (getAttribute entityDescriptor "cacheDuration") parseXsDuration in
             Ok {| entityId := entity; sso_binding := fst endpoint; sso_location := snd endpoint;
                   signingCertificates := signing; encryptionCertificates := encryption;
                   nameIdFormats := childTextsNS idpSso NS_MD "NameIDFormat"; validUntil := until;
                   cacheDurationMs := cache; supportedAttributes := extractSupportedAttributes entityDescriptor;
                   isSigned := is_signed status; signatureStatus := status |}
       end
   end)%js.

Definition parseSamlMetadataXml (xml : string) (now : Z) : result SamlMetadataReason SamlMetadata :=
  if containsDoctype xml then Throw invalid_xml
  else
    match parse_xml xml with
    | Throw _ => Throw invalid_xml
    | Ok (_ :: _, _) => Throw invalid_xml
    | Ok ([], None) => Throw invalid_xml
    | Ok ([], Some root) =>
        match findEntityDescriptor root with
        | None => Throw invalid_xml
        | Some at_ =>
            match node_at root at_ with
            | Some entityDescriptor => extract root xml at_ entityDescriptor now
            | None => Throw invalid_xml
            end
        end
    end.

(** ** The fetch *)

Inductive SamlMetadataSource := FromUrl (url : string) | FromXml (xml : string).

(** A typed error, an error of a read that is not caught, or out of fuel. *)
Inductive saml_error := Reason (r : SamlMetadataReason) | ReadError (e : net_error) | OutOfFuel.

Context `{Platform}.

#[local] Notation saml_prog := (net_prog saml_error net_event).

Definition any_refused (addresses : list string) : bool :=
  existsb (fun addr => if includes addr ":" then isPrivateIPv6 addr else isPrivateIPv4 addr) addresses.

Definition readBodyWithCap (fuel : nat) (response : Response) (maxBytes : Z) : saml_prog string :=
  if negb (has_body response) then Raise (Reason invalid_xml)
  else let! bytes := read_body maxBytes (Reason too_large) OutOfFuel ReadError fuel 0 "" in Ret (utf8_text bytes).

Definition request (fuel : nat) (url : string) (maxBytes : Z) (pin : option (string * Z)) : saml_prog string :=
  Send (Connect url pin) (fun r =>
    match r with
    | Throw _ => Raise (Reason ssrf_blocked_destination)
    | Ok response =>
        if (300 <=? status response) && (status response <? 400) then Raise (Reason redirect_blocked)
        else if negb (response_ok response) then Raise (Reason invalid_xml)
        else readBodyWithCap fuel response maxBytes
    end).

(** [makePinnedLookup]. *)
Definition makePinnedLookup (pin : string * Z) (hostname : string) : string * Z := pin.

(** No dispatcher for a text that is no address. *)
Definition dispatcher (validatedIp : string) : option (string * Z) :=
  let family := isIP validatedIp in
  if (family =? 4) || (family =? 6) then Some (validatedIp, family) else None.

Definition with_dispatcher {A} (pin : option (string * Z)) (p : saml_prog A) : saml_prog A :=
  match pin with
  | None => p
  | Some d => Emit (Opened d) (attempt p (fun out => Emit (Closed d) (match out with Ok a => Ret a | Throw e => Raise e end)))
  end.

(** What follows the name service's answer. *)
Definition fetch_resolved (fuel : nat) (parsed : URL) (maxBytes : Z) (r : result net_error (list string)) : saml_prog string :=
  match r with
  | Throw _ | Ok [] => Raise (Reason ssrf_blocked_destination)
  | Ok ((validatedIp :: _) as addresses) =>
      if any_refused addresses then Raise (Reason ssrf_blocked_destination)
      else if String.eqb validatedIp "" then Raise (Reason unreachable)
      else
        let pin := dispatcher validatedIp in
        with_dispatcher pin (request fuel (href parsed) maxBytes pin)
  end.

Definition fetchMetadataXml (fuel : nat) (url : string) (maxBytes : Z) : saml_prog string :=
  if MAX_URL_LENGTH <? Z.of_nat (String.length url) then Raise (Reason ssrf_blocked_destination)
  else
    match new_URL url with
    | None => Raise (Reason ssrf_blocked_destination)
    | Some parsed =>
        if negb (String.eqb (protocol parsed) "https:") then Raise (Reason ssrf_blocked_destination)
        else if negb (String.eqb (username parsed) "") || negb (String.eqb (password parsed) "")
        then Raise (Reason ssrf_blocked_destination)
        else Send (Resolve (strip_brackets (hostname parsed))) (fetch_resolved fuel parsed maxBytes)
    end.

Definition parse_at (xml : string) : saml_prog SamlMetadata :=
  Now (fun now => match parseSamlMetadataXml xml now with Ok md => Ret md | Throw e => Raise (Reason e) end).

Definition parseSamlMetadata (fuel : nat) (source : SamlMetadataSource) (maxBytes : option Z) : saml_prog SamlMetadata :=
  let maxBytes := default DEFAULT_MAX_BYTES maxBytes in
  match source with
  | FromUrl url => let! xml := fetchMetadataXml fuel url maxBytes in parse_at xml
  | FromXml xml =>
      if maxBytes <? byteLength xml then Raise (Reason too_large) else parse_at xml
  end.
End saml.

(** ** Nodes and paths *)

Lemma xml_nested_ind (P : xml_node -> Prop) :
  (forall ns l attrs cs, Forall P cs -> P (Elem ns l attrs cs)) -> (forall s, P (TextNode s)) -> P OtherNode ->
  forall n, P n.
Proof.
  intros He Ht Ho. fix IH 1. intros [ns l attrs cs|s|]; [|apply Ht|apply Ho]. apply He.
  induction cs; constructor; [apply IH|done].
Qed.

Lemma node_at_app n p q : node_at n (p ++ q)%list = node_at n p ≫= fun m => node_at m q.
Proof.
  revert n. induction p as [|i p IH]; intros n; [done|]. cbn. destruct (childNodes n !! i) as [c|]; [|done]. cbn. apply IH.
Qed.

(** Collected paths lead to nodes of that name. *)
Lemma collectByNS_sound ns local n : forall here p, p ∈ collectByNS ns local here n ->
  exists q m, p = (here ++ q)%list /\ node_at n q = Some m /\ named ns local m = true.
Proof.
  induction n as [ns' l' attrs cs IH|s|] using xml_nested_ind; intros here p; cbn [collectByNS].
  2,3: cbn; intros Hp; by apply elem_of_nil in Hp.
  intros [Hp|Hp]%elem_of_app.
  - destruct (named ns local (Elem ns' l' attrs cs)) eqn:Hn; [|by apply elem_of_nil in Hp].
    apply list_elem_of_singleton in Hp as ->. exists [], (Elem ns' l' attrs cs). by rewrite app_nil_r.
  - assert (forall pre l, cs = (pre ++ l)%list ->
      p ∈ (fix go (i : nat) (l : list xml_node) : list path :=
             match l with [] => [] | c :: r => (collectByNS ns local (here ++ [i]) c ++ go (S i) r)%list end) (length pre) l ->
      exists q m, p = (here ++ q)%list /\ node_at (Elem ns' l' attrs cs) q = Some m /\ named ns local m = true) as Hgo.
    { intros pre l. revert pre. induction l as [|c r IHr]; intros pre Hcs Hin; [by apply elem_of_nil in Hin|].
      apply elem_of_app in Hin as [Hin|Hin].
      - rewrite List.Forall_forall in IH. destruct (IH c) with (here := (here ++ [length pre])%list) (p := p) as (q & m & -> & Hq & Hm).
        + subst cs. apply in_or_app. right. by left.
        + done.
        + exists (length pre :: q), m. rewrite <- app_assoc. split; [done|]. split; [|done]. cbn. subst cs.
          rewrite lookup_app_r, Nat.sub_diag by done. done.
      - apply (IHr (pre ++ [c])%list); [by rewrite <- app_assoc|]. rewrite length_app, Nat.add_1_r. done. }
    by apply (Hgo [] cs).
Qed.

Lemma isDirectChildOf_spec p parent : isDirectChildOf p parent = true -> exists i, p = (parent ++ [i])%list.
Proof.
  unfold isDirectChildOf. destruct (rev p) as [|i r] eqn:Hr; [done|]. intros <-%bool_decide_eq_true. exists i.
  rewrite <- (rev_involutive p), Hr. done.
Qed.

(** ** The document's promises *)

Section promises.
Context `{SamlLib}.

Lemma findEntityDescriptor_sound root p :
  findEntityDescriptor root = Some p -> exists ent, node_at root p = Some ent /\ named NS_MD "EntityDescriptor" ent = true.
Proof.
  unfold findEntityDescriptor. destruct (named NS_MD "EntityDescriptor" root) eqn:Hn.
  - intros [= <-]. by exists root.
  - destruct (collectByNS NS_MD "EntityDescriptor" [] root) as [|q l] eqn:Hc; [done|]. intros [= <-].
    destruct (collectByNS_sound NS_MD "EntityDescriptor" root [] q) as (q' & m & -> & Hq & Hm); [rewrite Hc; by left|].
    by exists m.
Qed.

Lemma verify_signed root xml at_ ent :
  verifyDocumentSignature root xml at_ ent = signed ->
  exists i sig uri id, node_at root (at_ ++ [i])%list = Some sig /\ named NS_DS "Signature" sig = true /\
    check_signature sig xml = Ok (true, [uri]) /\ strip_hash (default "" uri) = id /\ id <> "" /\
    getAttribute ent "ID" = Some id.
Proof.
  unfold verifyDocumentSignature. destruct (collectByNS NS_DS "Signature" [] root) as [|p0 l0] eqn:Hc; [done|].
  destruct (List.find _ _) as [p|] eqn:Hf; [|done]. cbn [mbind option_bind].
  apply find_some in Hf as [Hin Hd]. apply isDirectChildOf_spec in Hd as [i ->].
  destruct (collectByNS_sound NS_DS "Signature" root [] (at_ ++ [i])) as (q & m & Hq & Hm & Hn).
  { rewrite Hc. by apply list_elem_of_In. }
  cbn in Hq. subst q. rewrite Hm. destruct (check_signature m xml) as [[[] [|uri [|]]]|e] eqn:Hs; try done.
  destruct (String.eqb_spec (strip_hash (default "" uri)) "") as [|Hne]; [done|].
  destruct (getAttribute ent "ID") as [id|] eqn:Hid; [|done]. destruct (String.eqb_spec id "") as [|_]; [done|].
  destruct (String.eqb_spec (strip_hash (default "" uri)) id) as [He|]; [|done]. intros _.
  exists i, m, uri, id. do 4 (split; [done|]). subst id. done.
Qed.

(** What was read from the element. *)
Definition read_from (ent : xml_node) (now : Z) (md : SamlMetadata) : Prop :=
  getAttribute ent "entityID" = Some (entityId md) /\ entityId md <> "" /\
  exists idpSso, findChildNS ent NS_MD "IDPSSODescriptor" = Some idpSso /\
    pickSsoEndpoint idpSso = Ok (sso_binding md, sso_location md) /\ sso_location md <> "" /\
    extractKeyDescriptors idpSso = (signingCertificates md, encryptionCertificates md) /\
    exists c, In c (signingCertificates md) /\ past now c = false.

Lemma requireAttr_Ok el a v : requireAttr el a = Ok v -> getAttribute el a = Some v /\ v <> "".
Proof.
  unfold requireAttr. destruct (getAttribute el a) as [x|]; [|done]. destruct (String.eqb_spec x ""); [done|].
  by intros [= ->].
Qed.

Lemma pick_location idpSso b l : pickSsoEndpoint idpSso = Ok (b, l) -> l <> "".
Proof.
  unfold pickSsoEndpoint. destruct (List.find (has_binding BINDING_REDIRECT) _) as [s|].
  - destruct (requireAttr s "Location") as [v|] eqn:Hr; [|done]. intros [= <- <-]. by apply requireAttr_Ok in Hr as [_ ?].
  - destruct (List.find (has_binding BINDING_POST) _) as [s|]; [|done].
    destruct (requireAttr s "Location") as [v|] eqn:Hr; [|done]. intros [= <- <-]. by apply requireAttr_Ok in Hr as [_ ?].
Qed.

Lemma extract_spec root xml at_ ent now md :
  extract root xml at_ ent now = Ok md ->
  read_from ent now md /\ signatureStatus md = verifyDocumentSignature root xml at_ ent /\
  isSigned md = is_signed (signatureStatus md).
Proof.
  unfold extract. destruct (requireAttr ent "entityID") as [entity|] eqn:He; [|done]. cbn [result_bind].
  apply requireAttr_Ok in He as [He Hne]. destruct (findChildNS ent NS_MD "IDPSSODescriptor") as [idp|] eqn:Hi; [|done].
  destruct (pickSsoEndpoint idp) as [[b l]|] eqn:Hp; [|done]. cbn [result_bind].
  destruct (extractKeyDescriptors idp) as [signing encryption] eqn:Hk. destruct signing as [|c0 cs] eqn:Hs; [done|].
  destruct (forallb (past now) (c0 :: cs)) eqn:Hx; [done|].
  destruct (parse_optional (getAttribute ent "validUntil") parseDateOrThrow) as [until|]; [|done]. cbn [result_bind].
  destruct (parse_optional (getAttribute ent "cacheDuration") parseXsDuration) as [cache|]; [|done]. cbn [result_bind].
  intros [= <-]. split; [|done]. split; [done|]. split; [done|]. exists idp. split; [done|]. split; [done|].
  split; [by eapply pick_location|]. split; [done|]. cbn [signingCertificates].
  clear -Hx. revert Hx. generalize (c0 :: cs). intros l. induction l as [|c r IH]; [done|]. cbn.
  intros [Hc|Hr]%andb_false_iff; [exists c; by split; [left|]|]. destruct (IH Hr) as (c' & Hin & Hp). exists c'. auto.
Qed.

(** C25 (A signature is over the element that was read): whatever the parser
    and the signature library do, metadata is reported as signed only if the
    library validated, over the whole text, a signature that is a direct child
    of the one [EntityDescriptor] everything was read from, with one reference,
    to that element's own non-empty identifier; a signature elsewhere in the
    document vouches for nothing. Metadata that is returned at all has an
    entity id, an endpoint with a location and a supported binding, and a
    signing certificate that has not expired; its status is never one of the
    two the type has but the code does not give. *)
Theorem signature_covers_what_is_read xml now md :
  parseSamlMetadataXml xml now = Ok md ->
  exists root at_ ent, parse_xml xml = Ok ([], Some root) /\ node_at root at_ = Some ent /\
    named NS_MD "EntityDescriptor" ent = true /\ read_from ent now md /\
    (isSigned md = true <-> signatureStatus md = signed) /\
    (forall t, signatureStatus md <> cert_expired t) /\ (forall d, signatureStatus md <> untrusted_issuer d) /\
    (isSigned md = true -> exists i sig uri id,
       node_at root (at_ ++ [i])%list = Some sig /\ named NS_DS "Signature" sig = true /\
       check_signature sig xml = Ok (true, [uri]) /\ strip_hash (default "" uri) = id /\ id <> "" /\
       getAttribute ent "ID" = Some id).
Proof.
  unfold parseSamlMetadataXml. destruct (containsDoctype xml); [done|].
  destruct (parse_xml xml) as [[[|? ?] [root|]]|] eqn:Hp; try done.
  destruct (findEntityDescriptor root) as [at_|] eqn:Hf; [|done].
  apply findEntityDescriptor_sound in Hf as (ent & Hn & Hname). rewrite Hn. intros Hx.
  apply extract_spec in Hx as (Hr & Hst & Hs). exists root, at_, ent. do 4 (split; [done|]).
  assert (Hiff : isSigned md = true <-> signatureStatus md = signed).
  { rewrite Hs. destruct (signatureStatus md); by split. }
  split; [done|]. split; [|split].
  - rewrite Hst. unfold verifyDocumentSignature. intros t. by repeat (case_match; try done).
  - rewrite Hst. unfold verifyDocumentSignature. intros d. by repeat (case_match; try done).
  - rewrite Hiff, Hst. apply verify_signed.
Qed.

Lemma containsDoctype_here d post :
  toLowerCase d = "<!doctype" -> match post with EmptyString => True | String.String c _ => is_word c = false end ->
  containsDoctype (d +:+ post) = true.
Proof.
  intros Hd Hp. assert (String.length d = 9%nat) as Hl.
  { rewrite <- (str_map_length lower_char d). change (str_map lower_char d) with (toLowerCase d). by rewrite Hd. }
  assert (str_take 9 (d +:+ post) = d) as Ht by (rewrite <- Hl; apply str_take_app).
  assert (str_drop 9 (d +:+ post) = post) as Hr by (rewrite <- Hl; apply str_drop_app).
  destruct (d +:+ post) as [|c s] eqn:He; [by destruct d|]. cbn [containsDoctype]. rewrite Ht, Hr, Hd.
  destruct post as [|e post]; [done|]. by rewrite Hp.
Qed.

Lemma containsDoctype_later pre s : containsDoctype s = true -> containsDoctype (pre +:+ s) = true.
Proof. intros Hs. induction pre as [|c pre IH]; [done|]. cbn [String.append containsDoctype]. by rewrite IH, orb_true_r. Qed.

(** Also (No document with a DTD reaches the parser): a text with a document
    type declaration anywhere, in any case, is refused before anything parses
    it, so that no entity of it is ever expanded. *)
Theorem doctype_refused pre d post now :
  toLowerCase d = "<!doctype" -> match post with EmptyString => True | String.String c _ => is_word c = false end ->
  parseSamlMetadataXml (pre +:+ d +:+ post) now = Throw invalid_xml.
Proof.
  intros Hd Hp. unfold parseSamlMetadataXml. by rewrite (containsDoctype_later pre _ (containsDoctype_here d post Hd Hp)).
Qed.
End promises.

(** ** Where the metadata comes from *)

Section fetching.
Context `{SamlLib} `{Platform}.

(** A URL that is let through. *)
Definition admissible (url : string) (parsed : URL) : Prop :=
  Z.of_nat (String.length url) <= MAX_URL_LENGTH /\ new_URL url = Some parsed /\
  protocol parsed = "https:" /\ username parsed = "" /\ password parsed = "".

Definition public_only (url : string) (X : Type) (c : net_cmd X) : Prop :=
  exists parsed, admissible url parsed /\
  match c with
  | Resolve host => host = strip_brackets (hostname parsed)
  | Connect u pin => u = href parsed /\ exists ip, isPrivateAddress ip = false /\ pin = dispatcher ip
  | ReadChunk => True
  end.

Lemma fetch_guards (P : net_prog saml_error net_event string -> Prop) fuel url maxBytes :
  (forall e, P (Raise (Reason e))) ->
  (forall parsed, admissible url parsed ->
     P (Send (Resolve (strip_brackets (hostname parsed))) (fetch_resolved fuel parsed maxBytes))) ->
  P (fetchMetadataXml fuel url maxBytes).
Proof.
  intros Hr Hs. unfold fetchMetadataXml.
  destruct (Z.ltb_spec MAX_URL_LENGTH (Z.of_nat (String.length url))) as [|Hl]; [apply Hr|].
  destruct (new_URL url) as [parsed|] eqn:Hu; [|apply Hr].
  destruct (String.eqb_spec (protocol parsed) "https:") as [Hp|]; [|apply Hr]. cbn [negb].
  destruct (String.eqb_spec (username parsed) "") as [Hn|]; [|apply Hr].
  destruct (String.eqb_spec (password parsed) "") as [Hw|]; [|apply Hr]. cbn [negb orb]. by apply Hs.
Qed.

(** The two classifiers of the addresses are one. *)
Lemma any_refused_private addresses : any_refused addresses = existsb isPrivateAddress addresses.
Proof. induction addresses as [|a l IH]; [done|]. cbn. by rewrite <- IH. Qed.

#[local] Arguments any_refused : simpl never.

Lemma with_dispatcher_sends {A} (allowed : forall X, net_cmd X -> Prop) pin (p : net_prog saml_error net_event A) :
  sends allowed p -> sends allowed (with_dispatcher pin p).
Proof. intros Hp. destruct pin as [d|]; [|done]. cbn. apply sends_attempt; [done|]. by intros [a|e]. Qed.

(** Also (Metadata is fetched from public addresses only): whatever the URL and
    whatever the name service and the sites answer, [fetchMetadataXml] asks
    for nothing but the URL it was given, which uses https and holds no
    credentials, and only after an address was resolved that is not private;
    the connection is pinned to that address whenever the platform recognises
    it as one. *)
Theorem saml_dials_public_only fuel url maxBytes : sends (public_only url) (fetchMetadataXml fuel url maxBytes).
Proof.
  apply fetch_guards; [done|]. intros parsed Hu. cbn [sends]. split; [by exists parsed|].
  intros [[|ip rest]|e]; try done. unfold fetch_resolved.
  destruct (any_refused (ip :: rest)) eqn:Hp; [done|]. rewrite any_refused_private in Hp.
  cbn [existsb] in Hp. apply orb_false_iff in Hp as [Hp _].
  destruct (String.eqb ip ""); [done|]. apply with_dispatcher_sends. unfold request. cbn [sends].
  split; [exists parsed; split; [done|]; split; [done|]; by exists ip|].
  intros [response|e]; [|done]. case_match; [done|]. case_match; [done|]. unfold readBodyWithCap. case_match; [done|].
  apply sends_await; [|done]. apply read_body_sends. by exists parsed.
Qed.

(** The dispatcher, when there is one, is closed. *)
Definition balanced (w w' : NetWorld) : Prop :=
  net_log w' = net_log w \/ net_log w' = Cancelled :: net_log w \/
  exists pin, net_log w' = Closed pin :: Opened pin :: net_log w \/
              net_log w' = Closed pin :: Cancelled :: Opened pin :: net_log w.

Definition fetched (w : NetWorld) (url : string) (maxBytes : Z) (xml : string) : Prop :=
  exists parsed ip rest response body, admissible url parsed /\
    dns w (strip_brackets (hostname parsed)) = Ok (ip :: rest) /\
    Forall (fun a => isPrivateAddress a = false) (ip :: rest) /\
    site w (href parsed) (dispatcher ip) = Ok response /\ response_ok response = true /\
    Z.of_nat (String.length body) <= maxBytes /\ xml = utf8_text body.

Lemma wp_request T D fuel url maxBytes pin w :
  0 <= maxBytes ->
  wp T D (request fuel url maxBytes pin) w (fun w' r =>
    (net_log w' = net_log w \/ net_log w' = Cancelled :: net_log w) /\
    match r with
    | Ok xml => exists response body, site w url pin = Ok response /\ response_ok response = true /\
        Z.of_nat (String.length body) <= maxBytes /\ xml = utf8_text body
    | Throw _ => True
    end).
Proof.
  intros Hm. unfold request. cbn [wp]. intros dv _.
  destruct dv; cbn [deliver perform net_service fst snd lost]; [|cbn; by split; [left|]..].
  destruct (site w url pin) as [response|e]; [|cbn; by split; [left|]].
  case_match; [cbn; by split; [left|]|].
  destruct (response_ok response) eqn:Hok; [|cbn; by split; [left|]]. cbn [negb].
  unfold readBodyWithCap. destruct (has_body response); [|cbn; by split; [left|]]. cbn [negb].
  apply wp_await. eapply wp_weaken; [|by apply wp_read_body]. intros w' r (_ & Hl & Hr). cbn in Hl.
  destruct r as [body|e]; cbn; (split; [done|]); [|done]. destruct Hr as (Hb & _). by exists response, body.
Qed.

Lemma wp_with_dispatcher {A} T D pin (p : net_prog saml_error net_event A) w (Q : result saml_error A -> Prop) :
  (forall w0, dns w0 = dns w -> site w0 = site w -> wp T D p w0 (fun w' r =>
    (net_log w' = net_log w0 \/ net_log w' = Cancelled :: net_log w0) /\ Q r)) ->
  wp T D (with_dispatcher pin p) w (fun w' r => balanced w w' /\ Q r).
Proof.
  intros Hp. destruct pin as [d|]; cbn [with_dispatcher wp].
  - apply wp_attempt. eapply wp_weaken; [|by apply Hp]. cbn. intros w' r (Hl & HQ).
    destruct r as [a|e]; cbn [wp record_event net_service]; (split; [|done]); right; right; exists d; cbn;
      destruct Hl as [-> | ->]; auto.
  - eapply wp_weaken; [|by apply Hp]. intros w' r (Hl & HQ). split; [|done]. destruct Hl as [Hl|Hl]; [by left|right; by left].
Qed.

(** Also (What fetched metadata has come through): [parseSamlMetadata] of a URL
    returns metadata only from a 2xx answer of that URL, within the size cap,
    reached when all resolved addresses are public; of a text, only within the
    cap; and then what [parseSamlMetadataXml] makes of it at that time. A
    dispatcher that was opened is closed on every path. *)
Theorem parse_source_spec T D fuel source maxBytes w :
  0 <= default DEFAULT_MAX_BYTES maxBytes ->
  wp T D (parseSamlMetadata fuel source maxBytes) w (fun w' r =>
    balanced w w' /\
    match r with
    | Ok md => exists xml now, T now /\ parseSamlMetadataXml xml now = Ok md /\
        match source with
        | FromUrl url => fetched w url (default DEFAULT_MAX_BYTES maxBytes) xml
        | FromXml text => xml = text /\ byteLength xml <= default DEFAULT_MAX_BYTES maxBytes
        end
    | Throw _ => True
    end).
Proof.
  intros Hm. assert (forall xml w' (P : string -> Prop), P xml -> balanced w w' ->
    wp T D (parse_at xml) w' (fun w' r => balanced w w' /\
      match r with Ok md => exists xml now, T now /\ parseSamlMetadataXml xml now = Ok md /\ P xml | Throw _ => True end)) as Hparse.
  { intros xml w' P HP Hb. unfold parse_at. cbn [wp]. intros now Hnow.
    destruct (parseSamlMetadataXml xml now) as [md|e] eqn:Hx; cbn; split; try done. by exists xml, now. }
  unfold parseSamlMetadata. destruct source as [url|text].
  - apply wp_await. apply fetch_guards.
    { intros e. cbn. by split; [left|]. }
    intros parsed Hu. cbn [wp]. intros dv _.
    destruct dv; cbn [deliver perform net_service fst snd lost]; [|cbn; by split; [left|]..].
    destruct (dns w (strip_brackets (hostname parsed))) as [[|ip rest]|e] eqn:Hdns;
      [cbn; by split; [left|]| |cbn; by split; [left|]].
    unfold fetch_resolved. destruct (any_refused (ip :: rest)) eqn:Hp; [cbn; by split; [left|]|].
    destruct (String.eqb ip ""); [cbn; by split; [left|]|]. rewrite any_refused_private in Hp. cbv zeta.
    eapply wp_weaken; [|apply (wp_with_dispatcher T D (dispatcher ip) _ w (fun r =>
      match r with Ok xml => fetched w url (default DEFAULT_MAX_BYTES maxBytes) xml | Throw _ => True end))].
    + intros w' r (Hb & Hr). destruct r as [xml|e]; [|by cbn]. by apply (Hparse xml w' (fetched w url _)).
    + intros w0 _ Hsite. eapply wp_weaken; [|by apply wp_request]. intros w' r (Hl & Hr). split; [done|].
      destruct r as [xml|e]; [|done]. destruct Hr as (response & body & Hs & Hok & Hlen & ->). rewrite Hsite in Hs.
      exists parsed, ip, rest, response, body. do 2 (split; [done|]). split; [by apply existsb_false_Forall|]. done.
  - destruct (Z.ltb_spec (default DEFAULT_MAX_BYTES maxBytes) (byteLength text)) as [|Hle]; [cbn; by split; [left|]|].
    apply (Hparse text w (fun xml => xml = text /\ byteLength xml <= _)); [done|by left].
Qed.
End fetching.

(** ** A concrete document *)

#[local] Definition the_certificate : xml_node :=
  Elem NS_MD "KeyDescriptor" [("use", "signing")]
    [Elem NS_DS "KeyInfo" [] [Elem NS_DS "X509Data" [] [Elem NS_DS "X509Certificate" [] [TextNode "MIIB AAAA"]]]].

#[local] Definition idp_descriptor : xml_node :=
  Elem NS_MD "IDPSSODescriptor" []
    [the_certificate;
     Elem NS_MD "SingleSignOnService" [("Binding", BINDING_POST); ("Location", "https://idp.example/post")] [];
     Elem NS_MD "SingleSignOnService" [("Binding", BINDING_REDIRECT); ("Location", "https://idp.example/go")] []].

#[local] Definition signature_node (uri : string) : xml_node :=
  Elem NS_DS "Signature" [] [Elem NS_DS "Reference" [("URI", uri)] []].

#[local] Definition entity (id : string) (inside : list xml_node) : xml_node :=
  Elem NS_MD "EntityDescriptor" [("ID", id); ("entityID", "https://idp.example")] (inside ++ [idp_descriptor])%list.

(** Five texts and their trees: unsigned, signed, with the signature over
    another element, wrapped next to a signed one, and no metadata. *)
#[local] Definition toy_tree (xml : string) : option xml_node :=
  if String.eqb xml "plain" then Some (entity "a" [])
  else if String.eqb xml "signed" then Some (entity "a" [signature_node "#a"])
  else if String.eqb xml "other" then Some (entity "a" [signature_node "#b"])
  else if String.eqb xml "wrapped" then
    Some (Elem NS_MD "EntitiesDescriptor" [] [entity "evil" []; entity "a" [signature_node "#a"]])
  else if String.eqb xml "none" then Some (Elem "" "html" [] [TextNode "hello"])
  else None.

(** A library for which every signature is valid. *)
#[local] Instance toy_saml : SamlLib :=
  {| parse_xml xml := match toy_tree xml with Some t => Ok ([], Some t) | None => Throw "not well formed" end;
     check_signature sig _ := Ok (true, map (fun r => getAttribute r "URI") (childNodes sig));
     x509 b64 := Some {| validFrom := "1000"; validTo := "2000"; subject := "C=DE, CN=idp.example , O=x" |};
     sha256_der b64 := b64;
     Date_parse s := Some (dec_val s) |}.

Example documents_run :
  let status xml now := match parseSamlMetadataXml xml now with
                        | Ok md => Ok (sso_location md, signatureStatus md)
                        | Throw e => Throw e
                        end in
  status "plain" 1500 = Ok ("https://idp.example/go", missing_signature) /\
  status "signed" 1500 = Ok ("https://idp.example/go", signed) /\
  status "other" 1500 = Ok ("https://idp.example/go", wrapping_attack_blocked) /\
  status "wrapped" 1500 = Ok ("https://idp.example/go", wrapping_attack_blocked) /\
  status "none" 1500 = Throw invalid_xml /\
  status "signed" 2001 = Throw expired /\
  match parseSamlMetadataXml "signed" 1500 with
  | Ok md => map subjectCommonName (signingCertificates md) = [Some "idp.example"] /\
             map fingerprintSha256 (signingCertificates md) = ["MIIBAAAA"] /\ encryptionCertificates md = []
  | Throw _ => False
  end.
Proof. vm_compute. repeat split. Qed.

Lemma signature_covers_what_is_read_witness :
  match parseSamlMetadataXml "signed" 1500 with
  | Ok md => exists id, id <> "" /\ entityId md <> "" /\ isSigned md = true
  | Throw _ => False
  end.
Proof.
  destruct (parseSamlMetadataXml "signed" 1500) as [md|] eqn:Hmd; [|vm_compute in Hmd; discriminate].
  destruct (signature_covers_what_is_read "signed" 1500 md Hmd) as (root & at_ & ent & _ & _ & _ & Hr & _ & _ & _ & Hs).
  assert (isSigned md = true) as Hsig by (vm_compute in Hmd; injection Hmd as <-; reflexivity).
  destruct (Hs Hsig) as (i & sig & uri & id & _ & _ & _ & _ & Hid & _).
  exists id. split; [exact Hid|]. split; [apply Hr|exact Hsig].
Defined.

Lemma doctype_refused_witness :
  parseSamlMetadataXml ("<?xml version='1.0'?>" +:+ "<!DocType" +:+ " md [<!ENTITY a 'b'>]><md/>") 0 = Throw invalid_xml.
Proof. apply (doctype_refused "<?xml version='1.0'?>" "<!DocType" " md [<!ENTITY a 'b'>]><md/>" 0); reflexivity. Defined.

(** A site that answers any pin alike. *)
#[local] Definition metadata_site (addresses : list string) (body : string) : NetWorld :=
  {| dns := fun _ => Ok addresses; site := fun _ _ => Ok {| GuardedFetch.status := 200; has_body := true |};
     stream := fun n => match n with O => ChunkBytes body | _ => ChunkEnd end; position := 0; connects := [];
     net_log := [] |}.

Lemma parse_source_spec_witness :
  wp any_time any_delivery (parseSamlMetadata 10 (FromUrl "https://idp.example/metadata") None)
    (metadata_site ["93.184.216.34"] "signed") (fun w' _ => balanced (metadata_site ["93.184.216.34"] "signed") w').
Proof.
  eapply wp_weaken; [|apply (parse_source_spec any_time any_delivery 10 (FromUrl "https://idp.example/metadata") None
    (metadata_site ["93.184.216.34"] "signed")); vm_compute; discriminate].
  intros w' r H. exact (proj1 H).
Defined.

(** The address that was checked is the one dialled. *)
Example fetches_run :
  let parse url w := run (parseSamlMetadata 10 (FromUrl url) None) (delivered (fun _ => 1500)) 0 w in
  let good := metadata_site ["93.184.216.34"] "signed" in
  (match snd (parse "https://idp.example/metadata" good) with Ok md => isSigned md = true | Throw _ => False end) /\
  connects (fst (parse "https://idp.example/metadata" good)) =
    [("https://idp.example/metadata", Some ("93.184.216.34", 4))] /\
  snd (parse "https://idp.example/metadata" (metadata_site ["93.184.216.34"; "10.0.0.1"] "signed")) =
    Throw (Reason ssrf_blocked_destination).
Proof. vm_compute. repeat split. Qed.
End Saml.
