(* ===== verification/IdpName.v ===== *)
(** Names of identity providers: [packages/vestibulum/src/idp/idp-name.ts].

    A tenant identifier becomes a lower-case slug of at most 25 characters
    behind [tenant-]. Texts are sequences of character codes, as elsewhere. *)

From S2P Require Import Prelude JsString JsInt.
From Stdlib Require Import Ascii.

#[local] Open Scope string_scope.
#[local] Open Scope Z_scope.

Module IdpName.

(** The reasons of [IdpManagerError]. *)
Inductive IdpManagerReason :=
| name_too_long | name_collision | cognito_quota | concurrent_modification | not_found | idp_identifier_invalid.

Definition PREFIX : string := "tenant-".
Definition MAX_SLUG : nat := 25.
Definition MAX_TOTAL : nat := 32.

(** ** Replacements *)

(** [[a-z0-9-]]. *)
Definition slug_char (c : ascii) : bool := in_range "a" "z" c || is_digit c || Ascii.eqb c "-".
Definition is_dash (c : ascii) : bool := Ascii.eqb c "-".

(** [s.replace(/[p]+/g, '-')]; [in_run] says that the character before was one
    of [p]. *)
Fixpoint dash_runs (p : ascii -> bool) (in_run : bool) (s : string) : string :=
  match s with
  | EmptyString => ""
  | String.String c r =>
      if p c then (if in_run then dash_runs p true r else String.String "-" (dash_runs p true r))
      else String.String c (dash_runs p false r)
  end.

(** [replace(/^-+/, '')] and [replace(/-+$/, '')]. *)
Fixpoint strip_start (s : string) : string :=
  match s with String.String c r => if is_dash c then strip_start r else s | EmptyString => "" end.

Fixpoint strip_end (s : string) : string :=
  match s with
  | EmptyString => ""
  | String.String c r =>
      match strip_end r with
      | EmptyString => if is_dash c then "" else String.String c ""
      | r' => String.String c r'
      end
  end.

(** ** The hash *)

Definition js_xor (a b : Z) : Z := to_int32 (Z.lxor (to_int32 a) (to_int32 b)).
(** [Math.imul]. *)
Definition imul (a b : Z) : Z := to_int32 (to_int32 a * to_int32 b).

Fixpoint fnv1a (hash : Z) (input : string) : Z :=
  match input with
  | EmptyString => hash
  | String.String c r => fnv1a (imul (js_xor hash (code c)) 0x01000193) r
  end.

Definition hex_char (d : Z) : ascii := ascii_of_N (Z.to_N (if d <? 10 then 48 + d else 87 + d)).

(** [n.toString(16)]; [fuel] bounds the digits. *)
Fixpoint to_hex (fuel : nat) (n : Z) (acc : string) : string :=
  match fuel with
  | O => acc
  | S fuel =>
      let acc := String.String (hex_char (n mod 16)) acc in
      if n / 16 =? 0 then acc else to_hex fuel (n / 16) acc
  end.

(** Eight digits are enough for 32 bits. *)
Definition hashSlug (input : string) : string := to_hex 8 (js_ushr0 (fnv1a 0x811c9dc5 input)) "".

(** ** The name *)

Definition fallback (tenantId : string) : string := str_take MAX_SLUG ("x" +:+ hashSlug tenantId).

Definition clean (tenantId : string) : string :=
  strip_end (strip_start (dash_runs is_dash false (dash_runs (fun c => negb (slug_char c)) false (toLowerCase tenantId)))).

Definition slug (tenantId : string) : string :=
  let s := clean tenantId in
  let s := if String.eqb s "" then fallback tenantId else s in
  let s := strip_end (str_take MAX_SLUG s) in
  if String.eqb s "" then fallback tenantId else s.

(** The map in insertion order. *)
Definition normaliseIdpName (tenantId : string) (existingNames : list (string * string)) :
    result IdpManagerReason string :=
  let candidate := PREFIX +:+ slug tenantId in
  if (MAX_TOTAL <? String.length candidate)%nat then Throw name_too_long
  else if existsb (fun e => negb (String.eqb (fst e) tenantId) && String.eqb (snd e) candidate) existingNames
  then Throw name_collision
  else Ok candidate.

Example names :
  map (fun t => normaliseIdpName t []) ["Acme Corp"; "--a__b--"; ""; "***"; "a123456789012345678901234567890";
    "a12345678901234567890123-5"] =
  [Ok "tenant-acme-corp"; Ok "tenant-a-b"; Ok "tenant-x811c9dc5"; Ok "tenant-xe22c13cd";
   Ok "tenant-a123456789012345678901234"; Ok "tenant-a12345678901234567890123"].
Proof. vm_compute. reflexivity. Qed.
(** ** Normal forms *)

(** No two dashes in a row; [b] says that a dash came before. *)
Fixpoint single (b : bool) (s : string) : bool :=
  match s with
  | EmptyString => true
  | String.String c r => if is_dash c then negb b && single true r else single false r
  end.

Lemma starts_dash c r : startsWith (String.String c r) "-" = is_dash c.
Proof.
  unfold startsWith, is_dash. cbn [String.prefix]. destruct (Ascii.eqb_spec c "-") as [->|Hc]; [by destruct r|].
  destruct (ascii_dec "-" c) as [<-|_]; done.
Qed.

Lemma includes_dashes c r :
  includes (String.String c r) "--" = (is_dash c && startsWith r "-") || includes r "--".
Proof.
  unfold includes. cbn [indexOf]. destruct (String.prefix "--" (String.String c r)) eqn:E.
  - apply prefix_spec in E as [u Hu]. cbn [String.append] in Hu. injection Hu as -> ->. unfold startsWith.
    by rewrite (proj2 (prefix_spec "-" (String.String "-" u)) (ex_intro _ u eq_refl)).
  - assert (is_dash c && startsWith r "-" = false) as ->.
    { apply not_true_iff_false. intros [Hc Hr]%andb_true_iff. unfold is_dash in Hc. apply Ascii.eqb_eq in Hc as ->.
      apply prefix_spec in Hr as [u ->]. apply not_true_iff_false in E. apply E, prefix_spec. by exists u. }
    by destruct (indexOf r "--").
Qed.

Lemma single_includes s : forall b, single b s = negb (b && startsWith s "-") && negb (includes s "--").
Proof.
  induction s as [|c r IH]; intros b; [by destruct b|]. cbn [single]. rewrite starts_dash, includes_dashes, !IH.
  by destruct (is_dash c), b, (startsWith r "-"), (includes r "--").
Qed.

Lemma dash_runs_all p q s : (forall c, p c = false -> q c = true) -> q "-"%char = true -> forall b, str_all q (dash_runs p b s) = true.
Proof.
  intros Hp Hq. induction s as [|c r IH]; intros b; [done|]. cbn [dash_runs]. destruct (p c) eqn:E.
  - destruct b; [apply IH|]. cbn. by rewrite Hq, IH.
  - cbn. by rewrite Hp, IH.
Qed.

Lemma dash_runs_keeps (q : ascii -> bool) s : q "-"%char = true -> str_all q s = true -> forall b, str_all q (dash_runs is_dash b s) = true.
Proof.
  intros Hd. induction s as [|c r IH]; intros Hs b; [done|]. apply str_all_cons in Hs as [Hc Hr]. cbn [dash_runs].
  destruct (is_dash c); [destruct b; [by apply IH|]|]; cbn; rewrite ?Hd, ?Hc; by apply IH.
Qed.

Lemma dash_runs_single s : forall b, single b (dash_runs is_dash b s) = true.
Proof.
  induction s as [|c r IH]; intros b; [done|]. cbn [dash_runs]. destruct (is_dash c) eqn:E.
  - destruct b; [apply IH|]. cbn. apply IH.
  - cbn [single]. rewrite E. apply IH.
Qed.

Lemma dash_runs_none p s : str_all (fun c => negb (p c)) s = true -> forall b, dash_runs p b s = s.
Proof.
  induction s as [|c r IH]; intros Hs b; [done|]. apply str_all_cons in Hs as [Hc Hr]. cbn [dash_runs].
  apply negb_true_iff in Hc. by rewrite Hc, IH.
Qed.

Lemma dash_runs_id s : forall b, single b s = true -> dash_runs is_dash b s = s.
Proof.
  induction s as [|c r IH]; intros b Hs; [done|]. cbn [dash_runs single] in *. destruct (is_dash c) eqn:E.
  - apply andb_true_iff in Hs as [Hb Hr]. destruct b; [done|]. rewrite IH by done. unfold is_dash in E.
    by apply Ascii.eqb_eq in E as ->.
  - by rewrite IH.
Qed.

(** Parts of a normal text are normal. *)
Lemma single_app s t : forall b, single b (s +:+ t) = true -> single b s = true.
Proof.
  induction s as [|c r IH]; intros b; [done|]. cbn [String.append single]. destruct (is_dash c); [|apply IH].
  intros [-> Hr]%andb_true_iff. by apply IH.
Qed.

Lemma single_start s : single false s = true -> single false (strip_start s) = true.
Proof.
  induction s as [|c r IH]; [done|]. cbn [single strip_start]. destruct (is_dash c) eqn:E.
  - cbn. intros Hr. apply IH. rewrite single_includes in Hr |- *. by apply andb_true_iff in Hr as [_ ->].
  - intros Hr. cbn [single]. by rewrite E.
Qed.

Lemma all_start q s : str_all q s = true -> str_all q (strip_start s) = true.
Proof.
  induction s as [|c r IH]; [done|]. cbn [strip_start]. intros Hs. destruct (is_dash c); [|done].
  apply str_all_cons in Hs as [_ Hr]. by apply IH.
Qed.

Lemma start_no_dash s : startsWith (strip_start s) "-" = false.
Proof.
  induction s as [|c r IH]; [done|]. cbn [strip_start]. destruct (is_dash c) eqn:E; [done|]. by rewrite starts_dash.
Qed.

Lemma strip_end_prefix s : exists t, s = strip_end s +:+ t.
Proof.
  induction s as [|c r [t IH]]; [by exists ""|]. cbn [strip_end]. destruct (strip_end r) as [|d r'] eqn:E.
  - destruct (is_dash c); [by exists (String.String c r)|]. exists r. done.
  - exists t. by rewrite IH.
Qed.

Lemma strip_end_idem s : strip_end (strip_end s) = strip_end s.
Proof.
  induction s as [|c r IH]; [done|]. cbn [strip_end]. destruct (strip_end r) as [|d r'] eqn:E.
  - destruct (is_dash c) eqn:Ec; [done|]. cbn. by rewrite Ec.
  - cbn [strip_end] in IH |- *. by rewrite IH.
Qed.

Lemma endsWith_tail c r suf : endsWith (String.String c r) suf = false -> endsWith r suf = false.
Proof.
  rewrite <- !not_true_iff_false. intros Hc [p ->]%endsWith_spec. apply Hc, endsWith_spec. by exists (String.String c p).
Qed.

Lemma strip_end_fixed s : strip_end s = s <-> endsWith s "-" = false.
Proof.
  split.
  - intros Hs. apply not_true_iff_false. intros [p ->]%endsWith_spec.
    induction p as [|c p IH]; [done|]. cbn [String.append strip_end] in Hs.
    destruct (strip_end (p +:+ "-")) as [|d r] eqn:E.
    + destruct (is_dash c); [done|]. injection Hs as Hs. by destruct p.
    + injection Hs as Hs. by apply IH.
  - induction s as [|c r IH]; [done|]. intros He. specialize (IH (endsWith_tail _ _ _ He)).
    cbn [strip_end]. rewrite IH. destruct r as [|d r]; [|done]. destruct (is_dash c) eqn:Ec; [|done].
    unfold is_dash in Ec. by apply Ascii.eqb_eq in Ec as ->.
Qed.

(** ** The derived name *)

(** What a slug looks like. *)
Definition canonical (s : string) : Prop :=
  s <> "" /\ (String.length s <= MAX_SLUG)%nat /\ str_all slug_char s = true /\
  startsWith s "-" = false /\ endsWith s "-" = false /\ includes s "--" = false.

Lemma clean_spec t :
  str_all slug_char (clean t) = true /\ single false (clean t) = true /\ startsWith (clean t) "-" = false.
Proof.
  unfold clean. set (d := dash_runs is_dash false _).
  assert (str_all slug_char d = true) as Hall.
  { apply dash_runs_keeps; [done|]. apply dash_runs_all; [|done]. intros c. by apply negb_false_iff. }
  assert (single false d = true) as Hone by apply dash_runs_single.
  destruct (strip_end_prefix (strip_start d)) as [u Hu].
  pose proof (all_start slug_char d Hall) as Ha. pose proof (single_start d Hone) as Hs. pose proof (start_no_dash d) as Hn.
  rewrite Hu in Ha, Hs, Hn. rewrite str_all_app in Ha. apply andb_true_iff in Ha as [Ha _].
  split; [done|]. split; [by eapply single_app|]. destruct (strip_end (strip_start d)) as [|c r]; [done|].
  cbn [String.append] in Hn. by rewrite starts_dash in Hn |- *.
Qed.

(** Cutting a clean text keeps what it promises. *)
Lemma cut_spec s : s <> "" -> str_all slug_char s = true -> single false s = true -> startsWith s "-" = false ->
  canonical (strip_end (str_take MAX_SLUG s)).
Proof.
  intros Hne Ha Hs Hn. destruct (strip_end_prefix (str_take MAX_SLUG s)) as [u Hu]. set (e := strip_end (str_take MAX_SLUG s)) in *.
  assert (s = e +:+ (u +:+ str_drop MAX_SLUG s)) as Hse.
  { rewrite <- str_app_assoc, <- Hu. symmetry. apply str_take_drop. }
  assert (String.length (str_take MAX_SLUG s) <= MAX_SLUG)%nat as Hlen by apply str_take_length.
  rewrite Hu, str_length_app in Hlen.
  split; [|split; [lia|]].
  - intros He. destruct s as [|c r]; [done|]. rewrite starts_dash in Hn. subst e.
    change (str_take MAX_SLUG (String.String c r)) with (String.String c (str_take 24 r)) in He. revert He.
    generalize (str_take 24 r). intros r' He. cbn [strip_end] in He. rewrite Hn in He. by destruct (strip_end r').
  - assert (single false e = true) as Hone by (rewrite Hse in Hs; by eapply single_app).
    split; [|split; [|split]].
    + rewrite Hse, str_all_app in Ha. by apply andb_true_iff in Ha as [? _].
    + destruct e as [|c r]; [done|]. rewrite Hse in Hn. cbn [String.append] in Hn. by rewrite starts_dash in Hn |- *.
    + apply strip_end_fixed, strip_end_idem.
    + rewrite single_includes in Hone. by apply negb_true_iff.
Qed.

Lemma hex_char_slug d : 0 <= d < 16 -> slug_char (hex_char d) = true /\ is_dash (hex_char d) = false.
Proof. intros Hd. assert (d ∈ seqZ 0 16) as Hin by (apply elem_of_seqZ; lia). revert d Hin Hd. by apply (proj1 (Forall_forall (fun d => 0 <= d < 16 -> _) _)); repeat constructor. Qed.

Lemma to_hex_slug fuel : forall n acc, 0 <= n -> str_all (fun c => slug_char c && negb (is_dash c)) acc = true ->
  str_all (fun c => slug_char c && negb (is_dash c)) (to_hex fuel n acc) = true /\
  (String.length (to_hex fuel n acc) <= fuel + String.length acc)%nat.
Proof.
  induction fuel as [|fuel IH]; intros n acc Hn Ha; [done|]. cbn [to_hex].
  destruct (hex_char_slug (n mod 16)) as [Hc Hd]; [apply Z.mod_pos_bound; lia|].
  assert (str_all (fun c => slug_char c && negb (is_dash c)) (String.String (hex_char (n mod 16)) acc) = true) as Hacc.
  { apply str_all_cons. by rewrite Hc, Hd. }
  destruct (n / 16 =? 0); [split; [done|cbn; lia]|].
  destruct (IH (n / 16) (String.String (hex_char (n mod 16)) acc)) as [H1 H2]; [apply Z.div_pos; lia|done|].
  split; [done|]. cbn [String.length] in H2. lia.
Qed.

Lemma no_dash_single s : str_all (fun c => slug_char c && negb (is_dash c)) s = true -> forall b, single b s = true.
Proof.
  induction s as [|c r IH]; intros Hs b; [done|]. apply str_all_cons in Hs as [[_ Hc%negb_true_iff]%andb_true_iff Hr].
  cbn [single]. rewrite Hc. by apply IH.
Qed.

Lemma fallback_clean t :
  fallback t <> "" /\ str_all slug_char (fallback t) = true /\ single false (fallback t) = true /\
  startsWith (fallback t) "-" = false.
Proof.
  destruct (to_hex_slug 8 (js_ushr0 (fnv1a 0x811c9dc5 t)) "") as [Hh Hl]; [|done|].
  { apply to_uint32_range. }
  change (to_hex 8 _ "") with (hashSlug t) in *. unfold fallback.
  assert (str_take MAX_SLUG ("x" +:+ hashSlug t) = "x" +:+ hashSlug t) as ->.
  { apply str_take_all. cbn [String.append String.length] in *. unfold MAX_SLUG. lia. }
  split; [done|]. split; [|split].
  - cbn [String.append]. apply str_all_cons. split; [done|]. eapply str_all_impl; [|exact Hh]. by intros c [? _]%andb_true_iff.
  - cbn [String.append single]. by apply no_dash_single.
  - cbn [String.append]. by rewrite starts_dash.
Qed.

Lemma slug_canonical t : canonical (slug t).
Proof.
  unfold slug. set (s := if String.eqb (clean t) "" then fallback t else clean t).
  assert (canonical (strip_end (str_take MAX_SLUG s))) as Hc.
  { subst s. destruct (String.eqb_spec (clean t) "") as [_|Hne].
    - destruct (fallback_clean t) as (? & ? & ? & ?). by apply cut_spec.
    - destruct (clean_spec t) as (? & ? & ?). by apply cut_spec. }
  destruct (String.eqb_spec (strip_end (str_take MAX_SLUG s)) "") as [He|_]; [|done]. by destruct Hc.
Qed.

Lemma slug_fixed s : canonical s -> slug s = s.
Proof.
  intros (Hne & Hlen & Ha & Hs & He & Hi).
  assert (toLowerCase s = s) as Hlow.
  { apply (str_map_id lower_char slug_char); [|done]. intros c Hc. apply Ascii.eqb_eq.
    assert (implb (slug_char c) (Ascii.eqb (lower_char c) c) = true) as H; [|by rewrite Hc in H].
    apply (all_chars_spec (fun c => implb (slug_char c) (Ascii.eqb (lower_char c) c))). vm_compute. reflexivity. }
  assert (clean s = s) as Hc.
  { unfold clean. rewrite Hlow, (dash_runs_none _ s), (dash_runs_id s).
    - destruct s as [|c r]; [done|]. rewrite starts_dash in Hs. cbn [strip_start]. rewrite Hs. by apply strip_end_fixed.
    - rewrite single_includes. by rewrite Hi.
    - eapply str_all_impl; [|exact Ha]. intros c Hc. by rewrite Hc. }
  unfold slug. rewrite Hc. destruct (String.eqb_spec s "") as [|_]; [done|]. rewrite (str_take_all MAX_SLUG s Hlen).
  rewrite (proj2 (strip_end_fixed s) He). by destruct (String.eqb_spec s "").
Qed.

Lemma candidate_fits t : (MAX_TOTAL <? String.length (PREFIX +:+ slug t))%nat = false.
Proof.
  apply Nat.ltb_ge. rewrite str_length_app. destruct (slug_canonical t) as (_ & Hl & _). unfold MAX_SLUG, MAX_TOTAL in *.
  cbn [PREFIX String.length]. lia.
Qed.

(** Another tenant holds the name. *)
Definition taken (t : string) (m : list (string * string)) : Prop := exists u, u <> t /\ In (u, PREFIX +:+ slug t) m.

Lemma normalise_spec t m :
  match normaliseIdpName t m with
  | Ok n => n = PREFIX +:+ slug t /\ ~ taken t m
  | Throw e => e = name_collision /\ taken t m
  end.
Proof.
  unfold normaliseIdpName. rewrite candidate_fits. destruct (existsb _ m) eqn:E.
  - split; [done|]. apply existsb_exists in E as ([u n] & Hin & [Hu Hn]%andb_true_iff). cbn in *.
    apply String.eqb_eq in Hn as ->. exists u. split; [|done]. intros ->. by rewrite String.eqb_refl in Hu.
  - split; [done|]. intros (u & Hu & Hin). apply not_true_iff_false in E. apply E, existsb_exists.
    exists (u, PREFIX +:+ slug t). split; [done|]. cbn. rewrite String.eqb_refl, andb_true_r.
    apply negb_true_iff. by apply String.eqb_neq.
Qed.

(** C29 (A name Cognito accepts): every tenant identifier, whatever characters
    it holds, gives [tenant-] and a slug of one to 25 lower-case letters,
    digits and single inner dashes, so at most 32 characters; an identifier that
    is such a slug already is kept as it is, so no two of those share a name.
    The only error is the collision, when another tenant holds the name. *)
Theorem name_wellformed t m :
  match normaliseIdpName t m with
  | Ok n => exists s, n = PREFIX +:+ s /\ canonical s /\ (String.length n <= MAX_TOTAL)%nat /\ (canonical t -> s = t)
  | Throw e => e = name_collision /\ taken t m
  end.
Proof.
  pose proof (normalise_spec t m) as Hn. destruct (normaliseIdpName t m) as [n|e]; [|done]. destruct Hn as [-> _].
  exists (slug t). split; [done|]. split; [apply slug_canonical|]. split; [|apply slug_fixed].
  apply Nat.ltb_ge, candidate_fits.
Qed.

(** ** The consumer's mapping *)

Definition set_name (m : list (string * string)) (t n : string) : list (string * string) :=
  (t, n) :: List.filter (fun e => negb (String.eqb (fst e) t)) m.

(** A mapping that was filled by registrations, each checked against it. *)
Inductive registry : list (string * string) -> Prop :=
| registry_nil : registry []
| registry_add m t n : registry m -> normaliseIdpName t m = Ok n -> registry (set_name m t n)
| registry_drop m t : registry m -> registry (List.filter (fun e => negb (String.eqb (fst e) t)) m).

Lemma registry_names m : registry m -> forall t n, In (t, n) m -> n = PREFIX +:+ slug t.
Proof.
  induction 1 as [|m t n Hm IH Hn|m t Hm IH]; intros u k; [done| |].
  - intros [[= <- <-]|[Hin _]%filter_In]; [|by apply IH]. pose proof (normalise_spec t m) as Hs. rewrite Hn in Hs. by destruct Hs.
  - intros [Hin _]%filter_In. by apply IH.
Qed.

Lemma registry_apart m : registry m -> forall t u n, In (t, n) m -> In (u, n) m -> t = u.
Proof.
  induction 1 as [|m t n Hm IH Hn|m t Hm IH]; intros u v k; [done| |].
  - assert (forall w, In (w, n) m -> w = t) as Hown.
    { intros w Hw. pose proof (normalise_spec t m) as Hs. rewrite Hn in Hs. destruct Hs as [-> Hfree].
      destruct (String.eqb_spec w t) as [|Hne]; [done|]. destruct Hfree. by exists w. }
    intros [Hu|[Hu _]%filter_In] [Hv|[Hv _]%filter_In].
    + congruence.
    + injection Hu as <- <-. by rewrite (Hown v).
    + injection Hv as <- <-. by apply Hown.
    + by apply (IH u v k).
  - intros [Hu _]%filter_In [Hv _]%filter_In. by apply (IH u v k).
Qed.

(** Also (Tenants that register against the mapping never share a provider): in
    a mapping filled by checked registrations and deletions, two tenants have
    two names, a tenant that registers again gets the name it has, and a tenant
    is refused only while another one holds its name. *)
Theorem names_unique m :
  registry m ->
  (forall t u n, In (t, n) m -> In (u, n) m -> t = u) /\
  (forall t n, In (t, n) m -> normaliseIdpName t m = Ok n) /\
  (forall t e, normaliseIdpName t m = Throw e -> e = name_collision /\ taken t m).
Proof.
  intros Hm. split; [by apply registry_apart|]. split.
  - intros t n Hin. pose proof (registry_names m Hm t n Hin) as ->. pose proof (normalise_spec t m) as Hs.
    destruct (normaliseIdpName t m) as [k|e]; [by destruct Hs as [-> _]|]. destruct Hs as [_ (u & Hu & Hin')].
    destruct Hu. by apply (registry_apart m Hm u t (PREFIX +:+ slug t)).
  - intros t e He. pose proof (normalise_spec t m) as Hs. by rewrite He in Hs.
Qed.

#[local] Definition two_tenants : list (string * string) := [("beta", "tenant-beta"); ("Acme Corp", "tenant-acme-corp")].

Lemma names_unique_witness :
  normaliseIdpName "Acme Corp" two_tenants = Ok "tenant-acme-corp" /\
  normaliseIdpName "acme_corp" two_tenants = Throw name_collision.
Proof.
  assert (registry two_tenants) as Hm.
  { apply (registry_add [("Acme Corp", "tenant-acme-corp")] "beta"); [|reflexivity].
    apply (registry_add [] "Acme Corp"); [constructor|reflexivity]. }
  split; [|reflexivity]. apply (proj1 (proj2 (names_unique two_tenants Hm))). right. left. reflexivity.
Defined.

(** Without the mapping, two tenants get one name. *)
Lemma unchecked_names_collide : normaliseIdpName "Acme Corp" [] = normaliseIdpName "acme_corp" [].
Proof. vm_compute. reflexivity. Qed.
End IdpName.
