(* ===== verification/IdpWorld.v ===== *)
(** What the identity-provider code talks to: a Cognito user pool, Secrets
    Manager and the metadata parser.

    The services are not part of the repository. Their documented behaviour is
    a [Service] instance on one world: providers and app clients under their
    names, secrets as lists of versions with the newest first, and whatever a
    metadata source is parsed to. *)

From S2P Require Import Prelude JsString Prog SamlMetadata.

#[local] Open Scope string_scope.
#[local] Open Scope Z_scope.

Inductive aws_error :=
| ResourceExistsException | ResourceNotFoundException | InvalidRequestException | DuplicateProviderException | OtherError.

(** An answer of Secrets Manager; any field may be missing. *)
Record SecretReply := { ARN : option string; VersionId : option string; SecretString : option string }.

(** Versions newest first, as pairs of identifier and value; [deleting] says
    that a deletion is scheduled. *)
Record Secret := { versions : list (string * string); deleting : bool }.

Record Provider := {
  ProviderType : string;
  ProviderDetails : gmap string string;
  AttributeMapping : gmap string string;
  IdpIdentifiers : list string;
  LastModifiedDate : option Z
}.

(** The settings of an app client the managers restate, each possibly unset. *)
Record ClientSettings := {
  AllowedOAuthFlows : option (list string);
  AllowedOAuthFlowsUserPoolClient : option bool;
  AllowedOAuthScopes : option (list string);
  CallbackURLs : option (list string);
  LogoutURLs : option (list string);
  ExplicitAuthFlows : option (list string)
}.

(** [other_settings]: token lifetimes, revocation, readable attributes, ... *)
Record AppClient := {
  SupportedIdentityProviders : option (list string);
  settings : ClientSettings;
  other_settings : gmap string string
}.

Inductive idp_cmd : Type -> Type :=
| CreateSecret (name value description : string) : idp_cmd SecretReply
| PutSecretValue (name value : string) : idp_cmd SecretReply
| GetSecretValue (name : string) : idp_cmd SecretReply
| DeleteSecret (name : string) (recoveryDays : Z) : idp_cmd unit
| ParseMetadata (source : Saml.SamlMetadataSource) : idp_cmd (result Saml.saml_error Saml.SamlMetadata)
| DescribeProvider (name : string) : idp_cmd (option Provider)
| CreateProvider (name type : string) (details mapping : gmap string string) (identifiers : option (list string)) :
    idp_cmd unit
| UpdateProvider (name : string) (details mapping : gmap string string) (identifiers : option (list string)) :
    idp_cmd unit
| DeleteProvider (name : string) : idp_cmd unit
| DescribeClient (clientId : string) : idp_cmd (option AppClient)
| UpdateClient (clientId : string) (supported : list string) (restated : ClientSettings) : idp_cmd unit.

Record IdpWorld := {
  secrets : gmap string Secret;
  next_version : nat;
  providers : gmap string Provider;
  clients : gmap string AppClient;
  metadata : Saml.SamlMetadataSource -> result Saml.saml_error Saml.SamlMetadata;
  service_time : Z
}.

Definition with_secrets (w : IdpWorld) (m : gmap string Secret) (n : nat) : IdpWorld :=
  {| secrets := m; next_version := n; providers := providers w; clients := clients w; metadata := metadata w;
     service_time := service_time w |}.
Definition with_providers (w : IdpWorld) (m : gmap string Provider) : IdpWorld :=
  {| secrets := secrets w; next_version := next_version w; providers := m; clients := clients w;
     metadata := metadata w; service_time := service_time w |}.
Definition with_clients (w : IdpWorld) (m : gmap string AppClient) : IdpWorld :=
  {| secrets := secrets w; next_version := next_version w; providers := providers w; clients := m;
     metadata := metadata w; service_time := service_time w |}.

(** How Secrets Manager names what it stores. *)
Class SecretNaming := { arn_of : string -> string; version_id : nat -> string }.

Section world.
Context `{SecretNaming}.

Definition stored (name : string) (n : nat) (value : option string) : SecretReply :=
  {| ARN := Some (arn_of name); VersionId := Some (version_id n); SecretString := value |}.

(** A name whose deletion is scheduled can neither be created nor read nor
    written; an update of a client sets what it does not name to its default. *)
Definition idp_perform {X} (w : IdpWorld) (c : idp_cmd X) : IdpWorld * result aws_error X :=
  match c in idp_cmd X return IdpWorld * result aws_error X with
  | CreateSecret name value _ =>
      match secrets w !! name with
      | Some s => (w, Throw (if deleting s then InvalidRequestException else ResourceExistsException))
      | None =>
          let n := next_version w in
          (with_secrets w (<[name := {| versions := [(version_id n, value)]; deleting := false |}]> (secrets w)) (S n),
           Ok (stored name n None))
      end
  | PutSecretValue name value =>
      match secrets w !! name with
      | None => (w, Throw ResourceNotFoundException)
      | Some s =>
          if deleting s then (w, Throw InvalidRequestException)
          else
            let n := next_version w in
            (with_secrets w
               (<[name := {| versions := (version_id n, value) :: versions s; deleting := false |}]> (secrets w)) (S n),
             Ok (stored name n None))
      end
  | GetSecretValue name =>
      match secrets w !! name with
      | None => (w, Throw ResourceNotFoundException)
      | Some s =>
          if deleting s then (w, Throw InvalidRequestException)
          else
            match versions s with
            | (v, value) :: _ =>
                (w, Ok {| ARN := Some (arn_of name); VersionId := Some v; SecretString := Some value |})
            | [] => (w, Throw ResourceNotFoundException)
            end
      end
  | DeleteSecret name _ =>
      match secrets w !! name with
      | None => (w, Throw ResourceNotFoundException)
      | Some s =>
          (with_secrets w (<[name := {| versions := versions s; deleting := true |}]> (secrets w)) (next_version w), Ok tt)
      end
  | ParseMetadata source => (w, Ok (metadata w source))
  | DescribeProvider name =>
      match providers w !! name with
      | Some p => (w, Ok (Some p))
      | None => (w, Throw ResourceNotFoundException)
      end
  | CreateProvider name type details mapping ids =>
      match providers w !! name with
      | Some _ => (w, Throw DuplicateProviderException)
      | None =>
          (with_providers w
             (<[name := {| ProviderType := type; ProviderDetails := details; AttributeMapping := mapping;
                           IdpIdentifiers := default [] ids; LastModifiedDate := Some (service_time w) |}]> (providers w)),
           Ok tt)
      end
  | UpdateProvider name details mapping ids =>
      match providers w !! name with
      | None => (w, Throw ResourceNotFoundException)
      | Some p =>
          (with_providers w
             (<[name := {| ProviderType := ProviderType p; ProviderDetails := details; AttributeMapping := mapping;
                           IdpIdentifiers := default (IdpIdentifiers p) ids;
                           LastModifiedDate := Some (service_time w) |}]> (providers w)), Ok tt)
      end
  | DeleteProvider name =>
      match providers w !! name with
      | None => (w, Throw ResourceNotFoundException)
      | Some _ => (with_providers w (delete name (providers w)), Ok tt)
      end
  | DescribeClient id =>
      match clients w !! id with
      | Some c => (w, Ok (Some c))
      | None => (w, Throw ResourceNotFoundException)
      end
  | UpdateClient id supported restated =>
      match clients w !! id with
      | None => (w, Throw ResourceNotFoundException)
      | Some _ =>
          (with_clients w
             (<[id := {| SupportedIdentityProviders := Some supported; settings := restated; other_settings := ∅ |}]>
                (clients w)), Ok tt)
      end
  end.

#[export] Instance idp_service : Service IdpWorld idp_cmd aws_error Empty_set :=
  {| perform X w c := idp_perform w c; lost := OtherError; record_event w _ := w |}.
End world.

#[global] Notation idp_prog E := (prog idp_cmd aws_error E Empty_set).

(** Names for tests. *)
#[export] Instance toy_naming : SecretNaming :=
  {| arn_of name := "arn:aws:secretsmanager:eu-central-1:123456789012:secret:" +:+ name +:+ "-AbCdEf";
     version_id n := String.concat "" (repeat "v" (S n)) |}.
