(* ===== verification/SecretRef.v ===== *)
(** References to secrets: [packages/foundation/src/types/frozen/secrets.ts]. *)

From S2P Require Import Prelude JsString Regex Json.
From Stdlib Require Import Ascii.

#[local] Open Scope string_scope.

Module SecretRef.

Definition region_char (c : ascii) : bool := in_range "a" "z" c || is_digit c || Ascii.eqb c "-".
Definition name_char (c : ascii) : bool := is_alnum c || char_in c "/_+=.@-".

Definition ARN_PATTERN : re :=
  (lits "arn:aws:secretsmanager:" ⋅ plus (RCls region_char) ⋅ lit ":" ⋅ rep 12 (RCls is_digit) ⋅ lits ":secret:" ⋅
   plus (RCls name_char) ⋅ lit "-" ⋅ rep 6 (RCls is_alnum))%re.

Record SecretRef := { arn : string; versionId : option string }.

(** The messages of [SecretRefValidationError], as reasons. *)
Inductive reason := ArnEmpty | ArnMalformed | VersionEmpty | VersionSpaces.

Definition validateArn (arn : string) : option reason :=
  if String.eqb arn "" then Some ArnEmpty
  else if negb (re_match ARN_PATTERN arn) then Some ArnMalformed
  else None.

Definition validateVersionId (versionId : string) : option reason :=
  if String.eqb versionId "" then Some VersionEmpty
  else if str_exists is_space versionId then Some VersionSpaces
  else None.

Definition secretRef (arn_ : string) (version : option string) : result reason SecretRef :=
  match validateArn arn_ with
  | Some r => Throw r
  | None =>
      match version with
      | None => Ok {| arn := arn_; versionId := None |}
      | Some v => match validateVersionId v with Some r => Throw r | None => Ok {| arn := arn_; versionId := Some v |} end
      end
  end.

(** Of any value; a missing property is [undefined]. *)
Definition isSecretRef (value : JsonValue) : bool :=
  match value with
  | VObject candidate =>
      match find_key "arn" candidate with
      | Some (VString a) =>
          match validateArn a with
          | Some _ => false
          | None =>
              match find_key "versionId" candidate with
              | None => true
              | Some (VString v) => match validateVersionId v with Some _ => false | None => true end
              | Some _ => false
              end
          end
      | _ => false
      end
  | _ => false
  end.

(** The object a reference is. *)
Definition object_of (r : SecretRef) : JsonValue :=
  VObject (("arn", VString (arn r)) :: match versionId r with Some v => [("versionId", VString v)] | None => [] end).

(** Also (The factory and the predicate agree): the object of a reference passes
    the predicate exactly when the factory gives that reference for its parts. *)
Theorem secretRef_iff r : isSecretRef (object_of r) = true <-> secretRef (arn r) (versionId r) = Ok r.
Proof.
  destruct r as [a [v|]]; unfold secretRef, object_of; cbn [arn versionId isSecretRef find_key String.eqb Ascii.eqb Bool.eqb].
  - destruct (validateArn a); [done|]. destruct (validateVersionId v); done.
  - by destruct (validateArn a).
Qed.

Example refs_run :
  secretRef "arn:aws:secretsmanager:eu-central-1:123456789012:secret:/idp/app/k/acme-AbCdEf" (Some "v1") =
    Ok {| arn := "arn:aws:secretsmanager:eu-central-1:123456789012:secret:/idp/app/k/acme-AbCdEf"; versionId := Some "v1" |} /\
  secretRef "arn:aws:secretsmanager:eu-central-1:123456789012:secret:/idp/app/k/acme" None = Throw ArnMalformed /\
  secretRef "arn:aws:secretsmanager:eu-central-1:123456789012:secret:/idp/app/k/acme-AbCdEf" (Some "v 1") = Throw VersionSpaces /\
  isSecretRef (VObject [("arn", VNull)]) = false.
Proof. vm_compute. repeat split. Qed.
End SecretRef.
