(* ===== verification/IdpSecrets.v ===== *)
(** The secrets of identity providers:
    [packages/vestibulum/src/secrets/secrets-client.ts] and
    [secrets/read-internal.ts].

    The pattern of unsafe characters is one global regular expression with the
    [g] flag, so [test] starts where the last match ended: its [lastIndex] is a
    state of the module, passed along here. *)

From S2P Require Import Prelude JsString Prog SamlMetadata IdpWorld.
From Stdlib Require Import Ascii.

#[local] Open Scope string_scope.
#[local] Open Scope Z_scope.
#[local] Open Scope prog_scope.

Module IdpSecrets.

Inductive secrets_reason :=
| invalid_prefix | invalid_tenant_id | invalid_kind | missing_account_id | invalid_value | unexpected_response
| empty_value | not_found.

Definition DEFAULT_KIND : string := "oidc-client-secret".
Definition RECOVERY_DAYS : Z := 7.

(** ** The regular expression with its state *)

(** [[^A-Za-z0-9/_+=.@-]]. *)
Definition UNSAFE_CHARS (c : ascii) : bool :=
  negb (is_alnum c || char_in c "/_+=.@-").

Fixpoint find_index (p : ascii -> bool) (s : string) : option nat :=
  match s with
  | EmptyString => None
  | String.String c r => if p c then Some 0%nat else S <$> find_index p r
  end.

(** [UNSAFE_CHARS.test(s)]: the new [lastIndex] and the answer. *)
Definition unsafe_test (lastIndex : nat) (s : string) : nat * bool :=
  if (String.length s <? lastIndex)%nat then (0%nat, false)
  else
    match find_index UNSAFE_CHARS (str_drop lastIndex s) with
    | Some i => ((lastIndex + i + 1)%nat, true)
    | None => (0%nat, false)
    end.

(** [s.replace(UNSAFE_CHARS, '_')], which leaves [lastIndex] at 0. *)
Definition unsafe_replace (s : string) : string := str_map (fun c => if UNSAFE_CHARS c then "_"%char else c) s.

(** ** Names *)

Record IdpSecretsClient := { secretPrefix : string; region : string; accountId : option string }.

Definition validatePrefix (lastIndex : nat) (prefix : string) : nat * result secrets_reason unit :=
  if String.eqb prefix "" then (lastIndex, Throw invalid_prefix)
  else if negb (startsWith prefix "/") then (lastIndex, Throw invalid_prefix)
  else if negb (endsWith prefix "/") then (lastIndex, Throw invalid_prefix)
  else let '(lastIndex, unsafe) := unsafe_test lastIndex prefix in
       (lastIndex, if unsafe then Throw invalid_prefix else Ok tt).

(** The constructor; [awsRegion] is the environment's. *)
Definition createClient (lastIndex : nat) (prefix : string) (reg account awsRegion : option string) :
    nat * result secrets_reason IdpSecretsClient :=
  let '(lastIndex, r) := validatePrefix lastIndex prefix in
  (lastIndex,
   match r with
   | Throw e => Throw e
   | Ok _ =>
       Ok {| secretPrefix := prefix;
             region := match reg with Some x => x | None => default "us-east-1" awsRegion end;
             accountId := account |}
   end).

Definition sanitiseTenantId (lastIndex : nat) (tenantId : string) : nat * result secrets_reason string :=
  if String.eqb tenantId "" then (lastIndex, Throw invalid_tenant_id) else (0%nat, Ok (unsafe_replace tenantId)).

Definition validateKind (lastIndex : nat) (kind : string) : nat * result secrets_reason string :=
  if String.eqb kind "" then (lastIndex, Throw invalid_kind)
  else let '(lastIndex, unsafe) := unsafe_test lastIndex kind in
       (lastIndex, if unsafe then Throw invalid_kind else Ok kind).

Definition secretName (lastIndex : nat) (c : IdpSecretsClient) (tenantId : string) (kind : option string) :
    nat * result secrets_reason string :=
  let '(lastIndex, k) := validateKind lastIndex (default DEFAULT_KIND kind) in
  match k with
  | Throw e => (lastIndex, Throw e)
  | Ok k =>
      let '(lastIndex, safe) := sanitiseTenantId lastIndex tenantId in
      (lastIndex, match safe with Throw e => Throw e | Ok safe => Ok (secretPrefix c +:+ k +:+ "/" +:+ safe) end)
  end.

Definition arnFor (lastIndex : nat) (c : IdpSecretsClient) (tenantId : string) (kind : option string) :
    nat * result secrets_reason string :=
  match accountId c with
  | None => (lastIndex, Throw missing_account_id)
  | Some account =>
      if String.eqb account "" then (lastIndex, Throw missing_account_id)
      else
        let '(lastIndex, r) := secretName lastIndex c tenantId kind in
        (lastIndex, match r with
                    | Throw e => Throw e
                    | Ok n => Ok ("arn:aws:secretsmanager:" +:+ region c +:+ ":" +:+ account +:+ ":secret:" +:+ n)
                    end)
  end.

(** ** Calls *)

Inductive secrets_error := Typed (r : secrets_reason) | Sdk (e : aws_error).

#[local] Notation sm_prog := (idp_prog secrets_error).

Record StoredSecret := { arn : string; versionId : string }.

Definition text (v : option string) : option string :=
  match v with Some s => if String.eqb s "" then None else Some s | None => None end.

(** The ARN and the version of an answer, or [unexpected_response]. *)
Definition stored_of (reply : SecretReply) : sm_prog StoredSecret :=
  match text (ARN reply), text (VersionId reply) with
  | Some a, Some v => Ret {| arn := a; versionId := v |}
  | _, _ => Raise (Typed unexpected_response)
  end.

Definition named {A} (r : nat * result secrets_reason string) (k : string -> sm_prog A) : nat * sm_prog A :=
  (fst r, match snd r with Ok name => k name | Throw e => Raise (Typed e) end).

Definition describe (kind tenantId : string) : string := "Vestibulum-managed " +:+ kind +:+ " for tenant " +:+ tenantId.

(** What runs before the first call, and the calls. *)
Definition store (lastIndex : nat) (c : IdpSecretsClient) (tenantId secretValue : string) (kind : option string) :
    nat * sm_prog StoredSecret :=
  if String.eqb secretValue "" then (lastIndex, Raise (Typed invalid_value))
  else
    named (secretName lastIndex c tenantId kind) (fun name =>
      Send (CreateSecret name secretValue (describe (default DEFAULT_KIND kind) tenantId)) (fun r =>
        match r with
        | Ok created => stored_of created
        | Throw ResourceExistsException =>
            Send (PutSecretValue name secretValue) (fun r =>
              match r with Ok put => stored_of put | Throw e => Raise (Sdk e) end)
        | Throw e => Raise (Sdk e)
        end)).

Definition delete_ (lastIndex : nat) (c : IdpSecretsClient) (tenantId : string) (kind : option string) : nat * sm_prog unit :=
  named (secretName lastIndex c tenantId kind) (fun name =>
    Send (DeleteSecret name RECOVERY_DAYS) (fun r =>
      match r with
      | Ok _ | Throw ResourceNotFoundException => Ret tt
      | Throw e => Raise (Sdk e)
      end)).

Record SecretReadResult := { plaintext : string; r_versionId : string; r_arn : string }.

Definition getSecretValue (lastIndex : nat) (c : IdpSecretsClient) (tenantId : string) (kind : option string) :
    nat * sm_prog SecretReadResult :=
  named (secretName lastIndex c tenantId kind) (fun name =>
    Send (GetSecretValue name) (fun r =>
      match r with
      | Ok out =>
          match text (SecretString out), text (VersionId out), text (ARN out) with
          | Some p, Some v, Some a => Ret {| plaintext := p; r_versionId := v; r_arn := a |}
          | _, _, _ => Raise (Typed empty_value)
          end
      | Throw ResourceNotFoundException => Raise (Typed not_found)
      | Throw e => Raise (Sdk e)
      end)).

(** ** Names are safe, and apart where identifiers are *)

Definition safe (s : string) : bool := str_all (fun c => negb (UNSAFE_CHARS c)) s.

Lemma find_index_None p s : find_index p s = None <-> str_all (fun c => negb (p c)) s = true.
Proof.
  induction s as [|c r IH]; [done|]. cbn. destruct (p c); [done|]. cbn. rewrite <- IH. by destruct (find_index p r).
Qed.

Lemma unsafe_test_spec li s : (li <= String.length s)%nat -> snd (unsafe_test li s) = negb (safe (str_drop li s)).
Proof.
  intros Hli. unfold unsafe_test. destruct (Nat.ltb_spec (String.length s) li); [lia|].
  destruct (find_index UNSAFE_CHARS (str_drop li s)) as [i|] eqn:E; cbn.
  - symmetry. apply negb_true_iff. apply not_true_iff_false. intros Hs. apply find_index_None in Hs. congruence.
  - apply find_index_None in E. unfold safe. by rewrite E.
Qed.

Lemma unsafe_test_false li s : snd (unsafe_test li s) = false -> fst (unsafe_test li s) = 0%nat.
Proof. unfold unsafe_test. destruct (_ <? _)%nat; [done|]. by destruct (find_index _ _). Qed.

Lemma unsafe_test_split li a c b : (li <= String.length a)%nat -> safe (str_drop li a) = true -> UNSAFE_CHARS c = true ->
  unsafe_test li (a +:+ String.String c b) = (S (String.length a), true).
Proof.
  intros Hli Ha Hc. unfold unsafe_test. rewrite str_length_app. destruct (Nat.ltb_spec (String.length a + String.length (String.String c b)) li); [lia|].
  assert (forall n a, (n <= String.length a)%nat -> safe (str_drop n a) = true ->
    find_index UNSAFE_CHARS (str_drop n (a +:+ String.String c b)) = Some (String.length a - n)%nat) as Hf.
  { clear -Hc. intros n a. revert n. induction a as [|d a IH]; intros [|n] Hn Hs; cbn in Hn; try lia.
    - cbn. by rewrite Hc.
    - cbn [str_drop] in Hs. apply str_all_cons in Hs as [Hd Hs]. apply negb_true_iff in Hd. cbn [String.append str_drop find_index].
      rewrite Hd. specialize (IH 0%nat ltac:(lia)). destruct a; cbn [str_drop] in IH; rewrite IH by done; cbn; f_equal; lia.
    - cbn [String.append str_drop String.length]. apply IH; [lia|done]. }
  rewrite Hf by done. f_equal. lia.
Qed.

Lemma unsafe_replace_safe s : safe (unsafe_replace s) = true.
Proof.
  unfold safe, unsafe_replace. induction s as [|c r IH]; [done|]. cbn. rewrite IH, andb_true_r.
  destruct (UNSAFE_CHARS c) eqn:E; [done|]. by rewrite E.
Qed.

Lemma unsafe_replace_id s : safe s = true -> unsafe_replace s = s.
Proof. apply str_map_id. intros c Hc. apply negb_true_iff in Hc. by rewrite Hc. Qed.

Lemma safe_app s t : safe (s +:+ t) = safe s && safe t.
Proof. apply str_all_app. Qed.

Lemma validateKind_fresh k :
  validateKind 0 k = if negb (String.eqb k "") && safe k then (0%nat, Ok k) else (fst (validateKind 0 k), Throw invalid_kind).
Proof.
  unfold validateKind. destruct (String.eqb k ""); [done|]. cbn [negb andb].
  pose proof (unsafe_test_spec 0 k ltac:(lia)) as Ht. pose proof (unsafe_test_false 0 k) as H0.
  assert (str_drop 0 k = k) as Hk by by destruct k. rewrite Hk in Ht. destruct (unsafe_test 0 k) as [li b].
  cbn [fst snd] in *. subst b. destruct (safe k); [|done]. cbn in *. by rewrite H0.
Qed.

Lemma secretName_fresh c t k :
  t <> "" -> default DEFAULT_KIND k <> "" -> safe (default DEFAULT_KIND k) = true ->
  secretName 0 c t k = (0%nat, Ok (secretPrefix c +:+ default DEFAULT_KIND k +:+ "/" +:+ unsafe_replace t)).
Proof.
  intros Ht Hk Hs. unfold secretName. rewrite validateKind_fresh, Hs. destruct (String.eqb_spec (default DEFAULT_KIND k) ""); [done|].
  cbn [negb andb]. unfold sanitiseTenantId. by destruct (String.eqb_spec t "").
Qed.

Lemma secretName_fresh_Ok c t k li n : secretName 0 c t k = (li, Ok n) ->
  t <> "" /\ safe (default DEFAULT_KIND k) = true /\ li = 0%nat /\
  n = secretPrefix c +:+ default DEFAULT_KIND k +:+ "/" +:+ unsafe_replace t.
Proof.
  unfold secretName. rewrite validateKind_fresh. destruct (negb _ && safe _) eqn:E; [|done].
  apply andb_true_iff in E as [_ E]. unfold sanitiseTenantId. destruct (String.eqb_spec t ""); [done|]. by intros [= <- <-].
Qed.

(** Also (Secret names): from a fresh pattern, a name that is given is the
    client's prefix, the kind and the identifier with every unsafe character
    replaced, and all its characters are ones Secrets Manager allows when those
    of the prefix are; two identifiers of allowed characters have the same name
    only if they are the same. *)
Theorem secret_name_spec c t k li n :
  secretName 0 c t k = (li, Ok n) ->
  li = 0%nat /\ n = secretPrefix c +:+ default DEFAULT_KIND k +:+ "/" +:+ unsafe_replace t /\
  (safe (secretPrefix c) = true -> safe n = true) /\
  (forall u, safe t = true -> safe u = true -> snd (secretName 0 c u k) = Ok n -> u = t).
Proof.
  intros Hn. pose proof (secretName_fresh_Ok c t k li n Hn) as (_ & Hk & -> & ->). split; [done|]. split; [done|]. split.
  - intros Hp. rewrite !safe_app, Hp, Hk, unsafe_replace_safe. done.
  - intros u Ht Hu. destruct (secretName 0 c u k) as [li' r] eqn:Eu. cbn [snd]. intros ->.
    apply secretName_fresh_Ok in Eu as (_ & _ & _ & He). rewrite (unsafe_replace_id t Ht), (unsafe_replace_id u Hu) in He.
    apply str_app_inj_l, str_app_inj_l, str_app_inj_l in He. done.
Qed.

(** A prefix with one unsafe character is refused at the first try and
    accepted at the second: the refusal leaves the pattern behind the
    character. *)
Lemma refused_prefix_passes_next_time a c b :
  a <> "" -> startsWith a "/" = true -> endsWith (a +:+ String.String c b) "/" = true ->
  safe a = true -> UNSAFE_CHARS c = true -> safe b = true ->
  let p := a +:+ String.String c b in
  snd (validatePrefix 0 p) = Throw invalid_prefix /\ snd (validatePrefix (fst (validatePrefix 0 p)) p) = Ok tt.
Proof.
  intros Ha Hs He Hsa Hc Hsb. cbn zeta. unfold validatePrefix.
  assert (String.eqb (a +:+ String.String c b) "" = false) as -> by by destruct a.
  assert (startsWith (a +:+ String.String c b) "/" = true) as ->.
  { apply prefix_spec in Hs as [u ->]. apply prefix_spec. exists (u +:+ String.String c b). by rewrite str_app_assoc. }
  rewrite He. cbn [negb]. assert (str_drop 0 a = a) as H0 by by destruct a.
  rewrite (unsafe_test_split 0 a c b) by (rewrite ?H0; done || lia). split; [done|]. cbn [fst].
  pose proof (unsafe_test_spec (S (String.length a)) (a +:+ String.String c b)) as Ht.
  rewrite str_length_app in Ht. cbn [String.length] in Ht. specialize (Ht ltac:(lia)).
  assert (str_drop (S (String.length a)) (a +:+ String.String c b) = b) as Hd.
  { clear. induction a as [|d a IH]; [by destruct b|]. exact IH. }
  rewrite Hd, Hsb in Ht. destruct (unsafe_test (S (String.length a)) (a +:+ String.String c b)) as [li r].
  cbn [fst snd] in *. by subst r.
Qed.

Example prefix_examples :
  validatePrefix 0 "/idp/my app/" = (8%nat, Throw invalid_prefix) /\
  validatePrefix 8 "/idp/my app/" = (0%nat, Ok tt) /\
  validatePrefix 0 "/idp/app/" = (0%nat, Ok tt) /\
  validatePrefix 0 "idp/" = (0%nat, Throw invalid_prefix).
Proof. vm_compute. repeat split. Qed.

#[local] Definition app_client : IdpSecretsClient :=
  {| secretPrefix := "/idp/app/"; region := "eu-central-1"; accountId := Some "123456789012" |}.

Lemma secret_name_spec_witness :
  snd (secretName 0 app_client "acme" None) = Ok "/idp/app/oidc-client-secret/acme" /\
  safe "/idp/app/oidc-client-secret/acme" = true.
Proof.
  split; [reflexivity|].
  apply (secret_name_spec app_client "acme" None 0 "/idp/app/oidc-client-secret/acme"); reflexivity.
Defined.

(** Identifiers that differ in unsafe characters only share a secret, and so do
    identifiers with a slash and a longer kind. *)
Lemma tenants_share_secret :
  secretName 0 app_client "a b" None = secretName 0 app_client "a_b" None /\
  secretName 0 app_client "x/y" (Some "k") = secretName 0 app_client "y" (Some "k/x").
Proof. vm_compute. split; reflexivity. Qed.

(** ** What storing and reading do *)

Section calls.
Context `{SecretNaming}.

(** Only the secret of that name may differ. *)
Definition only_secret (name : string) (w w' : IdpWorld) : Prop :=
  (forall n, n <> name -> secrets w' !! n = secrets w !! n) /\ providers w' = providers w /\ clients w' = clients w.

(** The value became the newest version; the older ones are kept. *)
Definition appended (name value : string) (w w' : IdpWorld) (v : string) : Prop :=
  exists old, secrets w' !! name = Some {| versions := (v, value) :: old; deleting := false |} /\
    old = match secrets w !! name with Some s => versions s | None => [] end.

Lemma text_Some v s : text v = Some s -> v = Some s.
Proof. unfold text. destruct v as [x|]; [|done]. by destruct (String.eqb x ""). Qed.

Lemma only_insert name s n w : only_secret name w (with_secrets w (<[name := s]> (secrets w)) n).
Proof. split; [|done]. intros k Hk. cbn. by rewrite lookup_insert_ne. Qed.

Definition store_post (name value : string) (w w' : IdpWorld) (r : result secrets_error StoredSecret) : Prop :=
  only_secret name w w' /\
  match r with
  | Ok st => appended name value w w' (versionId st) /\ arn st = arn_of name
  | Throw _ => secrets w' = secrets w \/ exists v, appended name value w w' v
  end.

(** How a command that writes a version may end. *)
Definition wrote (name value : string) (w w' : IdpWorld) (r : result aws_error SecretReply) : Prop :=
  (w' = w /\ exists e, r = Throw e) \/
  exists n, only_secret name w w' /\ appended name value w w' (version_id n) /\
    (r = Ok (stored name n None) \/ r = Throw OtherError).

Definition writer (name value : string) (c : idp_cmd SecretReply) : Prop :=
  (exists d, c = CreateSecret name value d) \/ c = PutSecretValue name value.

Lemma deliver_wrote name value c dv w :
  writer name value c -> wrote name value w (fst (deliver dv w c)) (snd (deliver dv w c)).
Proof.
  intros Hc. assert (wrote name value w (fst (idp_perform w c)) (snd (idp_perform w c)) /\
    (snd (idp_perform w c) <> Throw OtherError)) as [Hw Hne].
  { destruct Hc as [[d ->] | ->]; cbn [idp_perform]; destruct (secrets w !! name) as [s|] eqn:Hs.
    - split; [left; eauto|]. by destruct (deleting s).
    - split; [|done]. right. exists (next_version w). split; [apply only_insert|]. split; [|by left].
      exists []. rewrite Hs. split; [|done]. cbn. apply lookup_insert_eq.
    - destruct (deleting s) eqn:Hd; [split; [left; eauto|done]|]. split; [|done]. right. exists (next_version w).
      split; [apply only_insert|]. split; [|by left]. exists (versions s). rewrite Hs. split; [|done]. cbn. apply lookup_insert_eq.
    - split; [left; eauto|done]. }
  destruct dv; cbn [deliver perform idp_service fst snd lost]; [done|left; eauto|].
  destruct Hw as [[Hw _]|(n & Ho & Ha & _)]; [left; eauto|]. right. exists n. auto.
Qed.

Lemma wp_stored_of T D name value n w w' :
  only_secret name w w' -> appended name value w w' (version_id n) ->
  wp T D (stored_of (stored name n None)) w' (store_post name value w).
Proof.
  intros Ho Ha. unfold stored_of. cbn [ARN VersionId stored].
  destruct (text (Some (arn_of name))) as [a|] eqn:Ea; [|split; eauto].
  destruct (text (Some (version_id n))) as [v|] eqn:Ev; [|split; eauto].
  apply text_Some in Ea, Ev. injection Ea as <-. injection Ev as <-. by split.
Qed.

(** Also (Storing creates or rotates): whatever messages are lost, [store]
    touches no other secret; one that returns made the value the newest
    version, under the version and ARN it returns, and kept the older versions;
    one that throws either changed nothing or had appended the value. *)
Theorem store_spec T D li c t value k w name :
  snd (secretName li c t k) = Ok name ->
  wp T D (snd (store li c t value k)) w (store_post name value w).
Proof.
  intros Hn. unfold store. destruct (String.eqb value ""); [by split; [|left]|]. unfold named. rewrite Hn.
  cbn [snd wp]. intros dv _. set (c1 := CreateSecret _ _ _).
  destruct (deliver_wrote name value c1 dv w) as [[-> [e ->]]|(n & Ho & Ha & Hr)]; [left; by eexists| |].
  - destruct e; try (cbn; by split; [|left]). cbn [wp]. intros dv2 _.
    destruct (deliver_wrote name value (PutSecretValue name value) dv2 w) as [[-> [e ->]]|(n & Ho & Ha & Hr)]; [by right| |].
    + cbn. by split; [|left].
    + destruct Hr as [-> | ->]; [by apply wp_stored_of|]. cbn. split; eauto.
  - destruct Hr as [-> | ->]; [by apply wp_stored_of|]. cbn. split; eauto.
Qed.

(** Also (What was stored is read): with a name service that gives texts, a
    secret that can be stored is read back, with the version and the ARN that
    storing returned, until something writes it again. *)
Theorem stored_secret_is_read T c t value k w :
  (forall n, version_id n <> "") -> (forall n, arn_of n <> "") ->
  value <> "" -> t <> "" -> default DEFAULT_KIND k <> "" -> safe (default DEFAULT_KIND k) = true ->
  (forall s, secrets w !! (secretPrefix c +:+ default DEFAULT_KIND k +:+ "/" +:+ unsafe_replace t) = Some s -> deleting s = false) ->
  wp T (eq Delivered)
    (let! st := snd (store 0 c t value k) in let! rd := snd (getSecretValue 0 c t k) in Ret (st, rd)) w
    (fun w' r => exists st rd, r = Ok (st, rd) /\ plaintext rd = value /\ r_versionId rd = versionId st /\ r_arn rd = arn st).
Proof.
  intros Hver Harn Hv Ht Hk Hs Hdel. unfold store, getSecretValue. destruct (String.eqb_spec value "") as [|_]; [done|].
  rewrite secretName_fresh by done. set (name := secretPrefix c +:+ _) in *. unfold named. cbn [fst snd].
  assert (forall n w', secrets w' !! name = Some {| versions := (version_id n, value) ::
        match secrets w !! name with Some s => versions s | None => [] end; deleting := false |} ->
    wp T (eq Delivered) (let! st := stored_of (stored name n None) in let! rd := Send (GetSecretValue name) (fun r =>
      match r with
      | Ok out =>
          match text (SecretString out), text (VersionId out), text (ARN out) with
          | Some p, Some v, Some a => Ret {| plaintext := p; r_versionId := v; r_arn := a |}
          | _, _, _ => Raise (Typed empty_value)
          end
      | Throw ResourceNotFoundException => Raise (Typed not_found)
      | Throw e => Raise (Sdk e)
      end) in Ret (st, rd)) w' (fun w' r => exists st rd, r = Ok (st, rd) /\ plaintext rd = value /\
        r_versionId rd = versionId st /\ r_arn rd = arn st)) as Hread.
  { intros n w' Hw'. assert (forall s, s <> "" -> text (Some s) = Some s) as Htext.
    { intros s Hne. cbn. by destruct (String.eqb_spec s ""). }
    unfold stored_of. cbn [ARN VersionId stored]. rewrite !Htext by done. apply wp_await. cbn [wp]. apply wp_await.
    cbn [wp]. intros dv <-. cbn [deliver perform idp_service idp_perform]. rewrite Hw'. cbn [deleting versions fst snd].
    cbn [SecretString VersionId ARN]. rewrite !Htext by done. cbn. by eexists _, _. }
  cbn [wp await attempt]. intros dv <-. cbn [deliver perform idp_service idp_perform].
  destruct (secrets w !! name) as [s|] eqn:Hsec.
  - rewrite (Hdel s eq_refl). cbn [fst snd wp attempt]. intros dv <-. cbn [deliver perform idp_service idp_perform].
    rewrite Hsec, (Hdel s eq_refl). cbn [fst snd]. apply Hread. cbn. apply lookup_insert_eq.
  - cbn [fst snd]. apply Hread. cbn. apply lookup_insert_eq.
Qed.
End calls.

#[local] Definition empty_idp_world : IdpWorld :=
  {| secrets := ∅; next_version := 0; providers := ∅; clients := ∅; metadata := fun _ => Throw Saml.OutOfFuel;
     service_time := 0 |}.

Lemma store_spec_witness :
  wp any_time any_delivery (snd (store 0 app_client "acme" "s3cret" None)) empty_idp_world
    (store_post "/idp/app/oidc-client-secret/acme" "s3cret" empty_idp_world).
Proof. apply (store_spec any_time any_delivery 0 app_client "acme" "s3cret" None). reflexivity. Defined.

Lemma stored_secret_is_read_witness :
  wp any_time (eq Delivered)
    (let! st := snd (store 0 app_client "acme" "s3cret" None) in
     let! rd := snd (getSecretValue 0 app_client "acme" None) in Ret (st, rd)) empty_idp_world
    (fun w' r => exists st rd, r = Ok (st, rd) /\ plaintext rd = "s3cret" /\ r_versionId rd = versionId st /\ r_arn rd = arn st).
Proof. apply stored_secret_is_read; try discriminate; try reflexivity. intros [|n]; discriminate. Defined.

(** A tenant that was deleted cannot store a secret again while the deletion
    is pending. *)
Example pending_deletion_blocks :
  let p := let! _ := snd (store 0 app_client "acme" "one" None) in
           let! _ := snd (delete_ 0 app_client "acme" None) in
           snd (store 0 app_client "acme" "two" None) in
  snd (run p (delivered (fun _ => 0)) 0 empty_idp_world) = Throw (Sdk InvalidRequestException).
Proof. vm_compute. reflexivity. Qed.
End IdpSecrets.
