(* ===== verification/IdpManager.v ===== *)
(** The identity-provider managers: [packages/vestibulum/src/idp/saml-manager.ts]
    and [idp/oidc-manager.ts].

    What the two classes repeat line for line (the checks of the identifiers,
    the reading of a provider, its attachment to app clients, its deletion) is
    here once. *)

From S2P Require Import Prelude JsString Regex Prog SamlMetadata IdpName IdpWorld SecretRef IdpSecrets.
From Stdlib Require Import Ascii.

#[local] Open Scope string_scope.
#[local] Open Scope Z_scope.
#[local] Open Scope prog_scope.

Module IdpManager.

Inductive manager_error :=
| IdpManagerError (r : IdpName.IdpManagerReason)
| SamlMetadataError (e : Saml.saml_error)
| SecretsError (e : IdpSecrets.secrets_error)
| SecretRefError (r : SecretRef.reason)
| AwsError (e : aws_error).

#[local] Notation mgr_prog := (idp_prog manager_error).

(** ** What both managers share *)

Definition IDP_IDENTIFIER_MAX_COUNT : nat := 50.
Definition IDP_IDENTIFIER_MAX_LENGTH : nat := 40.

(** [/^[\w\s+=.@-]+$/]. *)
Definition IDP_IDENTIFIER_REGEX : re :=
  plus (RCls (fun c => is_alnum c || Ascii.eqb c "_" || is_space c || char_in c "+=.@-")).

Definition identifier_ok (id : string) : bool :=
  negb (String.eqb id "") && (String.length id <=? IDP_IDENTIFIER_MAX_LENGTH)%nat && re_match IDP_IDENTIFIER_REGEX id.

Definition validateIdpIdentifiers (identifiers : option (list string)) : result IdpName.IdpManagerReason unit :=
  match identifiers with
  | None => Ok tt
  | Some l =>
      if (IDP_IDENTIFIER_MAX_COUNT <? length l)%nat then Throw IdpName.idp_identifier_invalid
      else if forallb identifier_ok l then Ok tt else Throw IdpName.idp_identifier_invalid
  end.

Definition call {X} (c : idp_cmd X) : mgr_prog X :=
  Send c (fun r => match r with Ok x => Ret x | Throw e => Raise (AwsError e) end).

Definition describeExisting (providerName : string) : mgr_prog (option Provider) :=
  Send (DescribeProvider providerName) (fun r =>
    match r with
    | Ok p => Ret p
    | Throw ResourceNotFoundException => Ret None
    | Throw e => Raise (AwsError e)
    end).

(** [normaliseIdpName(tenantId, new Map())]. *)
Definition provider_name (tenantId : string) : mgr_prog string :=
  match IdpName.normaliseIdpName tenantId [] with Ok n => Ret n | Throw r => Raise (IdpManagerError r) end.

Definition current (c : AppClient) : list string := default [] (SupportedIdentityProviders c).

Definition attachToAppClient (providerName clientId : string) : mgr_prog unit :=
  let! desc := call (DescribeClient clientId) in
  match desc with
  | None => Raise (IdpManagerError IdpName.not_found)
  | Some c =>
      if existsb (String.eqb providerName) (current c) then Ret tt
      else call (UpdateClient clientId (current c ++ [providerName])%list (settings c))
  end.

Definition detachFromAppClient (providerName clientId : string) : mgr_prog unit :=
  Send (DescribeClient clientId) (fun desc =>
    match desc with
    | Throw ResourceNotFoundException => Ret tt
    | Throw e => Raise (AwsError e)
    | Ok None => Ret tt
    | Ok (Some c) =>
        if negb (existsb (String.eqb providerName) (current c)) then Ret tt
        else
          let next := List.filter (fun n => negb (String.eqb n providerName)) (current c) in
          call (UpdateClient clientId next (settings c))
    end).

Fixpoint each (f : string -> mgr_prog unit) (ids : list string) : mgr_prog unit :=
  match ids with [] => Ret tt | id :: rest => let! _ := f id in each f rest end.

Definition attachToAppClients (tenantId : string) (appClientIds : list string) : mgr_prog unit :=
  let! providerName := provider_name tenantId in each (attachToAppClient providerName) appClientIds.

Definition delete_provider (providerName : string) : mgr_prog unit :=
  Send (DeleteProvider providerName) (fun r =>
    match r with
    | Ok _ | Throw ResourceNotFoundException => Ret tt
    | Throw e => Raise (AwsError e)
    end).

Definition delete_ (tenantId : string) (appClientIds : list string) : mgr_prog unit :=
  let! providerName := provider_name tenantId in
  let! _ := each (detachFromAppClient providerName) appClientIds in
  delete_provider providerName.

Definition save (exists_ : option Provider) (name type : string) (details mapping : gmap string string)
    (ids : option (list string)) : mgr_prog unit :=
  match exists_ with
  | Some _ => call (UpdateProvider name details mapping ids)
  | None => call (CreateProvider name type details mapping ids)
  end.

(** [lastSyncedAt] of [get]. *)
Definition synced (existing : Provider) : mgr_prog Z :=
  match LastModifiedDate existing with Some t => Ret t | None => Now (fun now => Ret now) end.

(** ** saml-manager.ts *)

Record SamlIdpInput := {
  s_tenantId : string;
  s_metadata : Saml.SamlMetadataSource;
  s_attributeMapping : option (gmap string string);
  s_idpIdentifiers : option (list string);
  s_signRequest : option bool;
  s_encryptAssertions : option bool;
  s_acceptUnsignedMetadata : option bool
}.

Inductive IdpStatus := ACTIVE | PENDING | ERROR.

(** A date is its time value, [None] when invalid. *)
Record SamlIdpRecord := {
  sr_tenantId : string;
  sr_cognitoIdpName : string;
  sr_status : IdpStatus;
  metadataExpiresAt : option Z;
  signingCertNotAfter : option (option Z);
  sr_attachedAppClientIds : list string;
  sr_lastSyncedAt : Z
}.

Definition SAML_ATTRIBUTE_MAPPING : gmap string string := list_to_map
  [("email", "http://schemas.xmlsoap.org/ws/2005/05/identity/claims/emailaddress");
   ("given_name", "http://schemas.xmlsoap.org/ws/2005/05/identity/claims/givenname");
   ("family_name", "http://schemas.xmlsoap.org/ws/2005/05/identity/claims/surname");
   ("name", "http://schemas.xmlsoap.org/ws/2005/05/identity/claims/name")].

(** [{ ...defaults, ...(given ?? {}) }]. *)
Definition merge_mapping (given : option (gmap string string)) (defaults : gmap string string) : gmap string string :=
  default ∅ given ∪ defaults.

Definition bool_text (b : bool) : string := if b then "true" else "false".

Definition deriveEncryptedResponses (parsed : Saml.SamlMetadata) (explicit : option bool) : string :=
  match explicit with
  | Some b => bool_text b
  | None => bool_text (match Saml.encryptionCertificates parsed with [] => false | _ => true end)
  end.

(** [a < b] of dates. *)
Definition date_lt (a b : option Z) : bool := match a, b with Some x, Some y => x <? y | _, _ => false end.

Definition earliestCertExpiry (parsed : Saml.SamlMetadata) : option (option Z) :=
  fold_left (fun earliest cert =>
      match earliest with
      | None => Some (Saml.notAfter cert)
      | Some e => if date_lt (Saml.notAfter cert) e then Some (Saml.notAfter cert) else Some e
      end)
    (Saml.signingCertificates parsed ++ Saml.encryptionCertificates parsed)%list None.

Definition saml_details (input : SamlIdpInput) (parsed : Saml.SamlMetadata) : gmap string string :=
  list_to_map
    [("IDPSignout", "false"); ("RequestSigningAlgorithm", "rsa-sha256");
     ("EncryptedResponses", deriveEncryptedResponses parsed (s_encryptAssertions input));
     match s_metadata input with
     | Saml.FromUrl url => ("MetadataURL", url)
     | Saml.FromXml xml => ("MetadataFile", xml)
     end].

Definition accepts_unsigned (input : SamlIdpInput) : bool :=
  match s_acceptUnsignedMetadata input with Some true => true | _ => false end.

(** What follows the parsing. *)
Definition saml_register (input : SamlIdpInput) (parsed : Saml.SamlMetadata) : mgr_prog SamlIdpRecord :=
  if negb (Saml.isSigned parsed) && negb (accepts_unsigned input)
  then Raise (SamlMetadataError (Saml.Reason Saml.unsigned))
  else
    match Saml.signingCertificates parsed with
    | [] => Raise (SamlMetadataError (Saml.Reason Saml.no_signing_cert))
    | _ =>
        let! providerName := provider_name (s_tenantId input) in
        let! exists_ := describeExisting providerName in
        let! _ := save exists_ providerName "SAML" (saml_details input parsed)
                       (merge_mapping (s_attributeMapping input) SAML_ATTRIBUTE_MAPPING) (s_idpIdentifiers input) in
        Now (fun now =>
          Ret {| sr_tenantId := s_tenantId input; sr_cognitoIdpName := providerName; sr_status := ACTIVE;
                 metadataExpiresAt := Saml.validUntil parsed; signingCertNotAfter := earliestCertExpiry parsed;
                 sr_attachedAppClientIds := []; sr_lastSyncedAt := now |})
    end.

Definition saml_upsert (input : SamlIdpInput) : mgr_prog SamlIdpRecord :=
  match validateIdpIdentifiers (s_idpIdentifiers input) with
  | Throw r => Raise (IdpManagerError r)
  | Ok _ =>
      let! answer := call (ParseMetadata (s_metadata input)) in
      match answer with Throw e => Raise (SamlMetadataError e) | Ok parsed => saml_register input parsed end
  end.

Definition saml_get (tenantId : string) : mgr_prog (option SamlIdpRecord) :=
  let! providerName := provider_name tenantId in
  let! existing := describeExisting providerName in
  match existing with
  | None => Ret None
  | Some p =>
      let! at_ := synced p in
      Ret (Some {| sr_tenantId := tenantId; sr_cognitoIdpName := providerName; sr_status := ACTIVE;
                   metadataExpiresAt := None; signingCertNotAfter := None; sr_attachedAppClientIds := [];
                   sr_lastSyncedAt := at_ |})
  end.

(** ** oidc-manager.ts *)

Record OidcIdpInput := {
  o_tenantId : string;
  o_issuer : string;
  o_clientId : string;
  o_clientSecretArn : string;
  o_scopes : option (list string);
  o_attributeMapping : option (gmap string string);
  o_idpIdentifiers : option (list string)
}.

Record OidcIdpRecord := {
  or_tenantId : string;
  or_cognitoIdpName : string;
  or_status : IdpStatus;
  or_attachedAppClientIds : list string;
  or_lastSyncedAt : Z;
  clientSecret : option SecretRef.SecretRef
}.

Definition DEFAULT_SCOPES : list string := ["openid"; "email"; "profile"].

Definition OIDC_ATTRIBUTE_MAPPING : gmap string string := list_to_map
  [("email", "email"); ("email_verified", "email_verified"); ("given_name", "given_name");
   ("family_name", "family_name"); ("name", "name")].

Definition oidc_details (input : OidcIdpInput) (plaintext : string) : gmap string string :=
  list_to_map
    [("client_id", o_clientId input); ("client_secret", plaintext); ("attributes_request_method", "GET");
     ("oidc_issuer", o_issuer input); ("authorize_scopes", join " " (default DEFAULT_SCOPES (o_scopes input)))].

(** What follows the reading of the secret. *)
Definition oidc_register (input : OidcIdpInput) (providerName : string) (read : IdpSecrets.SecretReadResult) :
    mgr_prog OidcIdpRecord :=
  let! exists_ := describeExisting providerName in
  let! _ := save exists_ providerName "OIDC" (oidc_details input (IdpSecrets.plaintext read))
                 (merge_mapping (o_attributeMapping input) OIDC_ATTRIBUTE_MAPPING) (o_idpIdentifiers input) in
  match SecretRef.secretRef (IdpSecrets.r_arn read) (Some (IdpSecrets.r_versionId read)) with
  | Throw r => Raise (SecretRefError r)
  | Ok pinnedClientSecret =>
      Now (fun now =>
        Ret {| or_tenantId := o_tenantId input; or_cognitoIdpName := providerName; or_status := ACTIVE;
               or_attachedAppClientIds := []; or_lastSyncedAt := now; clientSecret := Some pinnedClientSecret |})
  end.

(** With the state of the pattern of the secret names. *)
Definition oidc_upsert (lastIndex : nat) (secretsClient : IdpSecrets.IdpSecretsClient) (input : OidcIdpInput) :
    nat * mgr_prog OidcIdpRecord :=
  match validateIdpIdentifiers (o_idpIdentifiers input) with
  | Throw r => (lastIndex, Raise (IdpManagerError r))
  | Ok _ =>
      match IdpName.normaliseIdpName (o_tenantId input) [] with
      | Throw r => (lastIndex, Raise (IdpManagerError r))
      | Ok providerName =>
          let '(lastIndex, reading) := IdpSecrets.getSecretValue lastIndex secretsClient (o_tenantId input) None in
          (lastIndex, attempt reading (fun r =>
             match r with
             | Throw e => Raise (SecretsError e)
             | Ok read => oidc_register input providerName read
             end))
      end
  end.

Definition oidc_get (tenantId : string) : mgr_prog (option OidcIdpRecord) :=
  let! providerName := provider_name tenantId in
  let! existing := describeExisting providerName in
  match existing with
  | None => Ret None
  | Some p =>
      let! at_ := synced p in
      Ret (Some {| or_tenantId := tenantId; or_cognitoIdpName := providerName; or_status := ACTIVE;
                   or_attachedAppClientIds := []; or_lastSyncedAt := at_; clientSecret := None |})
  end.

(** ** What the managers promise *)

Section promises.
Context `{SecretNaming}.

Definition name_of (tenantId : string) : string := IdpName.PREFIX +:+ IdpName.slug tenantId.

Lemma normalise_alone t : IdpName.normaliseIdpName t [] = Ok (name_of t).
Proof.
  pose proof (IdpName.normalise_spec t []) as Hn. destruct (IdpName.normaliseIdpName t []) as [n|e].
  - by destruct Hn as [-> _].
  - by destruct Hn as [_ (u & _ & Hin)].
Qed.

Lemma provider_name_spec t : provider_name t = Ret (name_of t).
Proof. unfold provider_name. by rewrite normalise_alone. Qed.

Lemma wp_describeExisting T D n w :
  wp T D (describeExisting n) w (fun w' r => w' = w /\ match r with Ok p => p = providers w !! n | Throw _ => True end).
Proof.
  unfold describeExisting. cbn [wp]. intros dv _. destruct dv; cbn [deliver perform idp_service idp_perform lost fst snd].
  - destruct (providers w !! n) as [p|] eqn:E; cbn; by rewrite ?E.
  - by cbn.
  - destruct (providers w !! n); by cbn.
Qed.

(** The provider a save leaves. *)
Definition saved (old : option Provider) (type : string) (details mapping : gmap string string)
    (ids : option (list string)) (time : Z) : Provider :=
  {| ProviderType := match old with Some p => ProviderType p | None => type end;
     ProviderDetails := details; AttributeMapping := mapping;
     IdpIdentifiers := default (match old with Some p => IdpIdentifiers p | None => [] end) ids;
     LastModifiedDate := Some time |}.

Definition after_save (w : IdpWorld) (name type : string) (details mapping : gmap string string)
    (ids : option (list string)) : IdpWorld :=
  with_providers w (<[name := saved (providers w !! name) type details mapping ids (service_time w)]> (providers w)).

Lemma wp_save T D name type d m ids w :
  wp T D (save (providers w !! name) name type d m ids) w (fun w' r =>
    (w' = w \/ w' = after_save w name type d m ids) /\ (r = Ok tt -> w' = after_save w name type d m ids)).
Proof.
  unfold save, after_save. destruct (providers w !! name) as [p|] eqn:E; cbn [wp call]; intros dv _;
    destruct dv; cbn [deliver perform idp_service idp_perform lost fst snd]; rewrite ?E; cbn;
    (split; [by auto|done]).
Qed.

(** *** SAML *)

(** Metadata that may be registered. *)
Definition admitted (input : SamlIdpInput) (w : IdpWorld) (md : Saml.SamlMetadata) : Prop :=
  metadata w (s_metadata input) = Ok md /\ Saml.signingCertificates md <> [] /\
  (Saml.isSigned md = true \/ s_acceptUnsignedMetadata input = Some true).

Definition saml_saved (input : SamlIdpInput) (md : Saml.SamlMetadata) (w : IdpWorld) : IdpWorld :=
  after_save w (name_of (s_tenantId input)) "SAML" (saml_details input md)
    (merge_mapping (s_attributeMapping input) SAML_ATTRIBUTE_MAPPING) (s_idpIdentifiers input).

Lemma admitted_cases input w md :
  metadata w (s_metadata input) = Ok md ->
  (admitted input w md /\ negb (Saml.isSigned md) && negb (accepts_unsigned input) = false /\ Saml.signingCertificates md <> []) \/
  (exists e, saml_register input md = Raise e).
Proof.
  intros Hm. unfold saml_register. destruct (negb (Saml.isSigned md) && negb (accepts_unsigned input)) eqn:E; [right; by eexists|].
  destruct (Saml.signingCertificates md) as [|c l] eqn:Hc; [right; by eexists|]. left. split; [|done].
  split; [done|]. split; [by rewrite Hc|]. apply andb_false_iff in E as [E|E]; apply negb_false_iff in E; [by left|right].
  unfold accepts_unsigned in E. by destruct (s_acceptUnsignedMetadata input) as [[]|].
Qed.

(** The pool with the tenant's provider written: its settings and source, the
    caller's attribute mapping over the defaults, and nothing else changed. *)
Definition saml_written (input : SamlIdpInput) (md : Saml.SamlMetadata) (w w' : IdpWorld) : Prop :=
  let name := name_of (s_tenantId input) in
  let old := providers w !! name in
  exists p, w' = with_providers w (<[name := p]> (providers w)) /\
    ProviderType p = match old with Some o => ProviderType o | None => "SAML" end /\
    ProviderDetails p !! "IDPSignout" = Some "false" /\
    ProviderDetails p !! "RequestSigningAlgorithm" = Some "rsa-sha256" /\
    ProviderDetails p !! "EncryptedResponses" =
      Some (if match s_encryptAssertions input with
               | Some b => b
               | None => negb (bool_decide (Saml.encryptionCertificates md = []))
               end then "true" else "false") /\
    match s_metadata input with
    | Saml.FromUrl url => ProviderDetails p !! "MetadataURL" = Some url /\ ProviderDetails p !! "MetadataFile" = None
    | Saml.FromXml xml => ProviderDetails p !! "MetadataFile" = Some xml /\ ProviderDetails p !! "MetadataURL" = None
    end /\
    (forall k, AttributeMapping p !! k =
       match s_attributeMapping input ≫= fun m => m !! k with Some v => Some v | None => SAML_ATTRIBUTE_MAPPING !! k end) /\
    IdpIdentifiers p = default (match old with Some o => IdpIdentifiers o | None => [] end) (s_idpIdentifiers input) /\
    LastModifiedDate p = Some (service_time w).

Lemma saml_saved_written input md w : saml_written input md w (saml_saved input md w).
Proof.
  unfold saml_written, saml_saved, after_save. eexists. split; [reflexivity|]. unfold saved, saml_details, merge_mapping, deriveEncryptedResponses.
  cbn [ProviderType ProviderDetails AttributeMapping IdpIdentifiers LastModifiedDate].
  split; [done|]. split; [by simplify_map_eq|]. split; [by simplify_map_eq|]. split.
  { cbn. simplify_map_eq. unfold bool_text. by destruct (s_encryptAssertions input) as [[]|], (Saml.encryptionCertificates md). }
  split; [destruct (s_metadata input); cbn; by simplify_map_eq|]. split; [|done].
  intros k. rewrite lookup_union. destruct (s_attributeMapping input) as [m|]; cbn [default from_option mbind option_bind].
  - change (id m) with m. destruct (m !! k); [by rewrite union_Some_l|by rewrite (left_id_L None union)].
  - change (id (∅ : gmap string string)) with (∅ : gmap string string). by rewrite lookup_empty, (left_id_L None union).
Qed.

(** The earliest of the certificates' expiries; as dates compare, a first one
    that cannot be read stays. *)
Definition earliest (dates : list (option Z)) (e : option (option Z)) : Prop :=
  match dates with
  | [] => e = None
  | None :: _ => e = Some None
  | Some _ :: _ => exists t, e = Some (Some t) /\ In (Some t) dates /\ forall t', In (Some t') dates -> t <= t'
  end.

Lemma earliest_expiry md :
  earliest (map Saml.notAfter (Saml.signingCertificates md ++ Saml.encryptionCertificates md)) (earliestCertExpiry md).
Proof.
  unfold earliestCertExpiry. set (step := fun (e : option (option Z)) (c : Saml.SamlCertificate) => _).
  assert (forall l, fold_left step l (Some None) = Some None) as Hnone.
  { induction l as [|c l IH]; [done|]. cbn [fold_left]. subst step. cbn beta iota. by destruct (Saml.notAfter c). }
  assert (forall l t, exists t', fold_left step l (Some (Some t)) = Some (Some t') /\
    (t' = t \/ In (Some t') (map Saml.notAfter l)) /\ t' <= t /\ forall u, In (Some u) (map Saml.notAfter l) -> t' <= u) as Hsome.
  { induction l as [|c l IH]; intros t; cbn [fold_left map]; [exists t; repeat split; [by left|lia|done]|].
    subst step. cbn beta iota. destruct (Saml.notAfter c) as [u|] eqn:Hc; cbn [date_lt].
    - destruct (Z.ltb_spec u t); [destruct (IH u) as (t' & -> & Hin & Hle & Hall)|destruct (IH t) as (t' & -> & Hin & Hle & Hall)];
        exists t'; (split; [done|]); (split; [destruct Hin as [->|]; [first [by left|by right; left]|by right; right]|]);
        (split; [lia|]); intros v [[= <-]|Hv]; [lia|by apply Hall|lia|by apply Hall].
    - destruct (IH t) as (t' & -> & Hin & Hle & Hall). exists t'. split; [done|]. split; [destruct Hin; [by left|by right; right]|].
      split; [done|]. intros v [[=]|Hv]. by apply Hall. }
  destruct (Saml.signingCertificates md ++ Saml.encryptionCertificates md)%list as [|c l]; cbn [fold_left map earliest]; [done|].
  change (step None c) with (Some (Saml.notAfter c)). destruct (Saml.notAfter c) as [t|]; [|apply Hnone].
  destruct (Hsome l t) as (t' & Ht & Hin & Hle & Hall). exists t'. split; [done|].
  split; [destruct Hin as [->|]; [by left|by right]|]. intros u [[= <-]|Hu]; [done|by apply Hall].
Qed.

(** C27 (Only admitted metadata reaches the pool): whatever messages are lost,
    an upsert changes nothing but the provider of the tenant's name, and writes
    that only from metadata that was parsed, has a signing certificate and is
    signed unless the caller accepts unsigned metadata; an upsert that returns
    did write it, with the source and the mapping it was given, and reports the
    name, the time and the earliest expiry of all certificates: those for
    encryption count too, although the field is described as that of the signing
    certificates. A first certificate whose date cannot be read makes the
    expiry unreadable. *)
Theorem saml_upsert_spec T D input w :
  wp T D (saml_upsert input) w (fun w' r =>
    (w' = w \/ exists md, admitted input w md /\ saml_written input md w w') /\
    match r with
    | Ok rec => sr_cognitoIdpName rec = name_of (s_tenantId input) /\ T (sr_lastSyncedAt rec) /\
        exists md, admitted input w md /\ saml_written input md w w' /\ metadataExpiresAt rec = Saml.validUntil md /\
          earliest (map Saml.notAfter (Saml.signingCertificates md ++ Saml.encryptionCertificates md)) (signingCertNotAfter rec)
    | Throw _ => True
    end).
Proof.
  unfold saml_upsert. destruct (validateIdpIdentifiers _); [|by split; [left|]]. apply wp_await. cbn [wp call]. intros dv _.
  destruct dv; cbn [deliver perform idp_service idp_perform lost fst snd]; [|by split; [left|]..].
  destruct (metadata w (s_metadata input)) as [md|e] eqn:Hm; [|by split; [left|]]. cbn [wp].
  destruct (admitted_cases input w md Hm) as [(Ha & Hs & Hc)|[e ->]]; [|by split; [left|]].
  unfold saml_register. rewrite Hs. destruct (Saml.signingCertificates md) as [|c l] eqn:Hcerts; [done|].
  rewrite provider_name_spec. cbn [await attempt]. apply wp_await. eapply wp_weaken; [|apply wp_describeExisting].
  intros w' r [-> Hp]. destruct r as [p|e]; [|by split; [left|]]. subst p. apply wp_await.
  eapply wp_weaken; [|apply wp_save]. intros w' r [Hw Hok]. pose proof (saml_saved_written input md w) as Hwritten.
  assert (w' = w \/ exists md, admitted input w md /\ saml_written input md w w') as Hworld.
  { destruct Hw as [-> | ->]; [by left|right]. by exists md. }
  destruct r as [[]|e]; [|by split]. cbn [wp]. intros now Hnow. split; [done|]. split; [done|]. split; [done|].
  exists md. split; [done|]. split; [by rewrite (Hok eq_refl)|]. split; [done|]. apply earliest_expiry.
Qed.

(** *** OIDC *)

Definition secret_of (c : IdpSecrets.IdpSecretsClient) (tenantId : string) : nat * result IdpSecrets.secrets_reason string :=
  IdpSecrets.secretName 0 c tenantId None.

(** The newest version of the tenant's secret. *)
Definition newest (c : IdpSecrets.IdpSecretsClient) (tenantId : string) (w : IdpWorld) (name v value : string) : Prop :=
  snd (secret_of c tenantId) = Ok name /\
  exists older, secrets w !! name = Some {| versions := (v, value) :: older; deleting := false |}.

Definition oidc_saved (input : OidcIdpInput) (value : string) (w : IdpWorld) : IdpWorld :=
  after_save w (name_of (o_tenantId input)) "OIDC" (oidc_details input value)
    (merge_mapping (o_attributeMapping input) OIDC_ATTRIBUTE_MAPPING) (o_idpIdentifiers input).

Lemma wp_getSecretValue T D c t w :
  wp T D (snd (IdpSecrets.getSecretValue 0 c t None)) w (fun w' r => w' = w /\
    match r with
    | Ok rd => exists name, newest c t w name (IdpSecrets.r_versionId rd) (IdpSecrets.plaintext rd) /\
                            IdpSecrets.r_arn rd = arn_of name
    | Throw _ => True
    end).
Proof.
  unfold IdpSecrets.getSecretValue, IdpSecrets.named, newest, secret_of. destruct (snd (IdpSecrets.secretName 0 c t None)) as [name|e]; [|done].
  cbn [snd wp]. intros dv _. destruct dv; cbn [deliver perform idp_service idp_perform lost fst snd].
  - destruct (secrets w !! name) as [s|] eqn:Hs; [|by cbn]. destruct (deleting s) eqn:Hd; [by cbn|].
    destruct (versions s) as [|[v value] older] eqn:Hv; [by cbn|]. cbn [fst snd SecretString VersionId ARN].
    destruct (IdpSecrets.text (Some value)) as [p|] eqn:Ep; [|by cbn].
    destruct (IdpSecrets.text (Some v)) as [v'|] eqn:Ev; [|by cbn].
    destruct (IdpSecrets.text (Some (arn_of name))) as [a|] eqn:Ea; [|by cbn].
    apply IdpSecrets.text_Some in Ep, Ev, Ea. injection Ep as <-. injection Ev as <-. injection Ea as <-. cbn.
    split; [done|]. exists name. split; [|done]. split; [done|]. exists older. rewrite Hs. f_equal. destruct s as [vs d]. cbn in *. by subst.
  - by cbn.
  - destruct (secrets w !! name) as [s|]; [|by cbn]. destruct (deleting s); [by cbn|]. destruct (versions s) as [|[v value] older]; by cbn.
Qed.

(** Also (The pinned version is the one the pool holds): whatever messages are
    lost, an OIDC upsert changes nothing but the provider of the tenant's name,
    and writes into it the newest version of the tenant's own secret; an upsert
    that returns wrote it and pins exactly that version and that secret's ARN. *)
Theorem oidc_upsert_spec T D c input w :
  wp T D (snd (oidc_upsert 0 c input)) w (fun w' r =>
    (w' = w \/ exists name v value, newest c (o_tenantId input) w name v value /\ w' = oidc_saved input value w) /\
    match r with
    | Ok rec => or_cognitoIdpName rec = name_of (o_tenantId input) /\ T (or_lastSyncedAt rec) /\
        exists name v value, newest c (o_tenantId input) w name v value /\ w' = oidc_saved input value w /\
          clientSecret rec = Some {| SecretRef.arn := arn_of name; SecretRef.versionId := Some v |}
    | Throw _ => True
    end).
Proof.
  unfold oidc_upsert. destruct (validateIdpIdentifiers _); [|by split; [left|]]. rewrite normalise_alone.
  pose proof (wp_getSecretValue T D c (o_tenantId input) w) as Hread.
  destruct (IdpSecrets.getSecretValue 0 c (o_tenantId input) None) as [li reading]. cbn [snd] in *.
  apply wp_attempt. eapply wp_weaken; [|exact Hread]. intros w' r [-> Hr]. destruct r as [rd|e]; [|by split; [left|]].
  destruct Hr as (name & Hnew & Harn). unfold oidc_register. apply wp_await. eapply wp_weaken; [|apply wp_describeExisting].
  intros w' r [-> Hp]. destruct r as [p|e]; [|by split; [left|]]. subst p. apply wp_await.
  eapply wp_weaken; [|apply wp_save]. intros w' r [Hw Hok].
  assert (w' = w \/ exists name v value, newest c (o_tenantId input) w name v value /\ w' = oidc_saved input value w) as Hworld.
  { destruct Hw as [-> | ->]; [by left|right]. by exists name, (IdpSecrets.r_versionId rd), (IdpSecrets.plaintext rd). }
  destruct r as [[]|e]; [|by split].
  destruct (SecretRef.secretRef _ _) as [ref|e] eqn:Href; [|by split]. cbn [wp]. intros now Hnow.
  split; [done|]. split; [done|]. split; [done|]. exists name, (IdpSecrets.r_versionId rd), (IdpSecrets.plaintext rd).
  split; [done|]. split; [by apply Hok|]. f_equal. rewrite <- Harn. revert Href. unfold SecretRef.secretRef. cbn [clientSecret].
  destruct (SecretRef.validateArn _); [done|]. destruct (SecretRef.validateVersionId _); [done|]. by intros [= <-].
Qed.

(** *** App clients *)

Definition lists (n id : string) (w : IdpWorld) : Prop :=
  match clients w !! id with Some c => In n (current c) | None => False end.

Definition others (n : string) (c : AppClient) : list string := List.filter (fun m => negb (String.eqb m n)) (current c).

(** But for [n] in their lists, and for what is not restated, the clients are
    the same. *)
Definition same_clients (n : string) (w w' : IdpWorld) : Prop :=
  secrets w' = secrets w /\
  forall id, match clients w !! id, clients w' !! id with
             | Some c, Some c' => others n c' = others n c /\ settings c' = settings c
             | None, None => True
             | _, _ => False
             end.

Lemma same_clients_refl n w : same_clients n w w.
Proof. split; [done|]. intros id. by destruct (clients w !! id). Qed.

Lemma same_clients_trans n w1 w2 w3 : same_clients n w1 w2 -> same_clients n w2 w3 -> same_clients n w1 w3.
Proof.
  intros [S1 H1] [S2 H2]. split; [congruence|]. intros id. specialize (H1 id). specialize (H2 id).
  destruct (clients w1 !! id), (clients w2 !! id), (clients w3 !! id); try done. intuition congruence.
Qed.

Lemma existsb_In n l : existsb (String.eqb n) l = true <-> In n l.
Proof.
  rewrite existsb_exists. split; [intros (m & Hm & ->%String.eqb_eq); done|]. intros Hn. exists n. by rewrite String.eqb_refl.
Qed.

(** The client as an update of its list leaves it. *)
Definition relisted (w : IdpWorld) (id : string) (c : AppClient) (l : list string) : IdpWorld :=
  with_clients w (<[id := {| SupportedIdentityProviders := Some l; settings := settings c; other_settings := ∅ |}]>
                    (clients w)).

Lemma same_update n w id c l :
  clients w !! id = Some c ->
  List.filter (fun m => negb (String.eqb m n)) l = others n c ->
  same_clients n w (relisted w id c l).
Proof.
  intros Hc Hl. split; [done|]. intros k. cbn. destruct (decide (k = id)) as [->|Hne].
  - by rewrite lookup_insert_eq, Hc.
  - rewrite lookup_insert_ne by done. by destruct (clients w !! k).
Qed.

Definition grows (n : string) (w w' : IdpWorld) : Prop :=
  providers w' = providers w /\ same_clients n w w' /\ forall id, lists n id w -> lists n id w'.
Definition shrinks (n : string) (w w' : IdpWorld) : Prop :=
  providers w' = providers w /\ same_clients n w w' /\ forall id, lists n id w' -> lists n id w.

Lemma wp_attach T D n id w :
  wp T D (attachToAppClient n id) w (fun w' r => grows n w w' /\ (r = Ok tt -> lists n id w')).
Proof.
  assert (grows n w w) as Hrefl by (split; [done|]; split; [apply same_clients_refl|done]).
  unfold attachToAppClient. apply wp_await. cbn [wp call]. intros dv _.
  destruct dv; cbn [deliver perform idp_service idp_perform lost fst snd]; [|by split|].
  - destruct (clients w !! id) as [c|] eqn:Hc; [|by split]. cbn [wp fst snd].
    destruct (existsb (String.eqb n) (current c)) eqn:Hin.
    { split; [done|]. intros _. unfold lists. rewrite Hc. by apply existsb_In. }
    set (w2 := relisted w id c (current c ++ [n])%list). assert (grows n w w2 /\ lists n id w2) as [Hg Hl].
    { assert (lists n id w2) as Hl.
      { unfold lists, w2. cbn. rewrite lookup_insert_eq. cbn. apply in_or_app. right. by left. }
      split; [|done]. split; [done|]. split.
      - apply same_update; [done|]. rewrite List.filter_app. cbn. rewrite String.eqb_refl. cbn. by rewrite app_nil_r.
      - intros k Hk. destruct (decide (k = id)) as [->|Hne]; [done|]. unfold lists, w2 in *. cbn. by rewrite lookup_insert_ne. }
    unfold call. cbn [wp]. intros dv _. destruct dv; cbn [deliver perform idp_service idp_perform lost fst snd]; rewrite ?Hc; cbn [fst snd wp];
      by split.
  - destruct (clients w !! id); by split.
Qed.

Lemma wp_detach T D n id w :
  wp T D (detachFromAppClient n id) w (fun w' r => shrinks n w w' /\ (r = Ok tt -> ~ lists n id w')).
Proof.
  assert (shrinks n w w) as Hrefl by (split; [done|]; split; [apply same_clients_refl|done]).
  unfold detachFromAppClient. cbn [wp]. intros dv _.
  destruct dv; cbn [deliver perform idp_service idp_perform lost fst snd]; [|by split|].
  - destruct (clients w !! id) as [c|] eqn:Hc; cbn [fst snd].
    2: { split; [done|]. intros _. unfold lists. rewrite Hc. by intros []. }
    destruct (existsb (String.eqb n) (current c)) eqn:Hin; cbn [negb].
    2: { split; [done|]. intros _. unfold lists. rewrite Hc. intros Hn%existsb_In. congruence. }
    set (w2 := relisted w id c (others n c)). assert (shrinks n w w2 /\ ~ lists n id w2) as [Hg Hl].
    { assert (~ lists n id w2) as Hl.
      { unfold lists, w2. cbn. rewrite lookup_insert_eq. cbn. intros [_ He]%filter_In. by rewrite String.eqb_refl in He. }
      split; [|done]. split; [done|]. split.
      - apply same_update; [done|]. unfold others. generalize (current c). clear. intros l. induction l as [|m l IH]; [done|]. cbn.
        destruct (String.eqb m n) eqn:E; cbn; [exact IH|]. cbn. by rewrite E, IH.
      - intros k Hk. destruct (decide (k = id)) as [->|Hne]; [done|]. unfold lists, w2 in *. cbn in Hk. by rewrite lookup_insert_ne in Hk. }
    unfold call. cbn [wp]. intros dv _. destruct dv; cbn [deliver perform idp_service idp_perform lost fst snd]; rewrite ?Hc; cbn [fst snd wp];
      by split.
  - destruct (clients w !! id); by split.
Qed.

Lemma wp_each T D (R : IdpWorld -> IdpWorld -> Prop) (P : string -> IdpWorld -> Prop) f :
  (forall w, R w w) -> (forall w1 w2 w3, R w1 w2 -> R w2 w3 -> R w1 w3) -> (forall id w w', R w w' -> P id w -> P id w') ->
  (forall id w, wp T D (f id) w (fun w' r => R w w' /\ (r = Ok tt -> P id w'))) ->
  forall ids w, wp T D (each f ids) w (fun w' r => R w w' /\ (r = Ok tt -> forall id, In id ids -> P id w')).
Proof.
  intros Hrefl Htrans Hkeep Hf ids. induction ids as [|id ids IH]; intros w; [by split|]. cbn [each]. apply wp_await.
  eapply wp_weaken; [|apply Hf]. intros w1 r [HR Hok]. destruct r as [[]|e]; [|by split].
  eapply wp_weaken; [|apply IH]. intros w2 r [HR2 Hok2]. split; [by eapply Htrans|]. intros ->.
  intros k [<-|Hk]; [|by apply Hok2]. eapply Hkeep; [exact HR2|]. by apply Hok.
Qed.

(** Also (Attachment): whatever messages are lost, attaching a tenant's provider
    to app clients takes no client off it, keeps every client's other providers
    in their order and the restated settings, and touches no provider and no
    secret; when it returns, every client it was given lists the provider. *)
Theorem attach_spec T D t ids w :
  wp T D (attachToAppClients t ids) w (fun w' r =>
    grows (name_of t) w w' /\ (r = Ok tt -> forall id, In id ids -> lists (name_of t) id w')).
Proof.
  unfold attachToAppClients. rewrite provider_name_spec. cbn [await attempt].
  apply (wp_each T D (grows (name_of t)) (lists (name_of t))).
  - intros w0. split; [done|]. split; [apply same_clients_refl|done].
  - intros w1 w2 w3 (P1 & S1 & L1) (P2 & S2 & L2). split; [congruence|]. split; [by eapply same_clients_trans|auto].
  - intros id w0 w1 (_ & _ & Hl). apply Hl.
  - intros id w0. apply wp_attach.
Qed.

(** Also (Deletion leaves no trace in the pool): whatever messages are lost,
    deleting a tenant's provider touches no other provider and no secret, adds
    it to no client, and keeps every client's other providers and restated
    settings; when it returns, the provider is gone and none of the clients it
    was given lists it. *)
Theorem provider_deletion_spec T D t ids w :
  wp T D (delete_ t ids) w (fun w' r =>
    same_clients (name_of t) w w' /\ (forall id, lists (name_of t) id w' -> lists (name_of t) id w) /\
    (forall n, n <> name_of t -> providers w' !! n = providers w !! n) /\
    (r = Ok tt -> providers w' !! name_of t = None /\ forall id, In id ids -> ~ lists (name_of t) id w')).
Proof.
  unfold delete_. rewrite provider_name_spec. cbn [await attempt]. apply wp_await.
  eapply wp_weaken; [|apply (wp_each T D (shrinks (name_of t)) (fun id w => ~ lists (name_of t) id w))].
  - intros w1 r [(Hp & Hs & Hl) Hok]. destruct r as [[]|e]; [|by repeat split; try apply Hs; try rewrite Hp].
    unfold delete_provider. cbn [wp]. intros dv _. specialize (Hok eq_refl).
    assert (forall w2, clients w2 = clients w1 -> secrets w2 = secrets w1 ->
      same_clients (name_of t) w w2 /\ (forall id, lists (name_of t) id w2 -> lists (name_of t) id w) /\
      forall id, In id ids -> ~ lists (name_of t) id w2) as Hsame.
    { intros w2 Hc Hsec. split; [|unfold lists in *; rewrite Hc; auto]. destruct Hs as [Hs1 Hs2]. split; [congruence|]. by rewrite Hc. }
    destruct dv; cbn [deliver perform idp_service idp_perform lost fst snd];
      destruct (providers w1 !! name_of t) as [p|] eqn:E; cbn [fst snd wp].
    1,5: destruct (Hsame (with_providers w1 (delete (name_of t) (providers w1)))) as (H1 & H2 & H3); [done..|];
         do 2 (split; [done|]); split; [intros n Hn; cbn; by rewrite lookup_delete_ne, Hp|];
         try (intros _; split; [cbn; apply lookup_delete_eq|done]); done.
    all: destruct (Hsame w1) as (H1 & H2 & H3); [done..|]; do 2 (split; [done|]); split; [intros n Hn; by rewrite Hp|];
         intros [=]; by split.
  - intros w0. split; [done|]. split; [apply same_clients_refl|done].
  - intros w1 w2 w3 (P1 & S1 & L1) (P2 & S2 & L2). split; [congruence|]. split; [by eapply same_clients_trans|auto].
  - intros id w0 w1 (_ & _ & Hl) Hn Hin. by apply Hn, Hl.
  - intros id w0. apply wp_detach.
Qed.
End promises.

(** ** A pool *)

#[local] Definition cert (until : Z) : Saml.SamlCertificate :=
  {| Saml.pem := ""; Saml.notBefore := Some 0; Saml.notAfter := Some until; Saml.subjectCommonName := None;
     Saml.fingerprintSha256 := "" |}.

#[local] Definition parsed (signed_ : bool) : Saml.SamlMetadata :=
  {| Saml.entityId := "https://idp.example"; Saml.sso_binding := Saml.HTTP_Redirect;
     Saml.sso_location := "https://idp.example/go"; Saml.signingCertificates := [cert 2000];
     Saml.encryptionCertificates := [cert 1000]; Saml.nameIdFormats := []; Saml.validUntil := None;
     Saml.cacheDurationMs := None; Saml.supportedAttributes := []; Saml.isSigned := signed_;
     Saml.signatureStatus := if signed_ then Saml.signed else Saml.missing_signature |}.

#[local] Definition web : AppClient :=
  {| SupportedIdentityProviders := Some ["COGNITO"];
     settings := {| AllowedOAuthFlows := Some ["code"]; AllowedOAuthFlowsUserPoolClient := Some true;
                    AllowedOAuthScopes := None; CallbackURLs := None; LogoutURLs := None; ExplicitAuthFlows := None |};
     other_settings := {[ "EnableTokenRevocation" := "true" ]} |}.

#[local] Definition pool : IdpWorld :=
  {| secrets := ∅; next_version := 0; providers := ∅; clients := {[ "web" := web ]};
     metadata := fun source => Ok (parsed (match source with
                                          | Saml.FromUrl url => String.eqb url "https://signed.example"
                                          | Saml.FromXml _ => false
                                          end));
     service_time := 7 |}.

#[local] Definition saml_input (tenantId url : string) (accept : option bool) : SamlIdpInput :=
  {| s_tenantId := tenantId; s_metadata := Saml.FromUrl url; s_attributeMapping := None; s_idpIdentifiers := None;
     s_signRequest := Some false; s_encryptAssertions := None; s_acceptUnsignedMetadata := accept |}.

#[local] Definition metadata_url (w : IdpWorld) (name : string) : option string :=
  p ← providers w !! name; ProviderDetails p !! "MetadataURL".

#[local] Definition exec {A} (p : idp_prog manager_error A) (w : IdpWorld) : IdpWorld * result manager_error A :=
  run p (delivered (fun _ => 42)) 0 w.

Example managers_run :
  snd (exec (saml_upsert (saml_input "acme" "https://unsigned.example" None)) pool) =
    Throw (SamlMetadataError (Saml.Reason Saml.unsigned)) /\
  metadata_url (fst (exec (saml_upsert (saml_input "acme" "https://unsigned.example" (Some true))) pool)) "tenant-acme" =
    Some "https://unsigned.example" /\
  match snd (exec (saml_upsert (saml_input "acme" "https://signed.example" None)) pool) with
  | Ok rec => sr_cognitoIdpName rec = "tenant-acme" /\ signingCertNotAfter rec = Some (Some 1000) /\ sr_lastSyncedAt rec = 42
  | Throw _ => False
  end.
Proof. vm_compute. repeat split. Qed.

(** The reported expiry of the signing certificates is the one of an encryption
    certificate when that is earlier. *)
Lemma expiry_of_encryption_cert :
  earliestCertExpiry (parsed true) = Some (Some 1000) /\
  map Saml.notAfter (Saml.signingCertificates (parsed true)) = [Some 2000].
Proof. vm_compute. split; reflexivity. Qed.

(** The managers never pass the consumer's mapping, so a tenant whose identifier
    gives the name of another one takes over that tenant's provider. *)
Lemma tenants_share_provider :
  let p := let! _ := saml_upsert (saml_input "Acme Corp" "https://signed.example" None) in
           saml_upsert (saml_input "acme_corp" "https://other.example" (Some true)) in
  metadata_url (fst (exec p pool)) "tenant-acme-corp" = Some "https://other.example".
Proof. vm_compute. reflexivity. Qed.

(** Attaching restates six settings; the pool takes every other one for its
    default. *)
Lemma attach_resets_other_settings :
  (other_settings <$> clients pool !! "web") = Some {[ "EnableTokenRevocation" := "true" ]} /\
  (other_settings <$> clients (fst (exec (attachToAppClients "acme" ["web"]) pool)) !! "web") = Some ∅.
Proof. vm_compute. split; reflexivity. Qed.
End IdpManager.
