(* ===== verification/Profiles.v ===== *)
(** Provider profiles: [packages/vestibulum/src/profiles/oidc.ts] and
    [profiles/saml.ts], and what the managers make of them. *)

From S2P Require Import Prelude JsString IdpManager.

#[local] Open Scope string_scope.

Module Profiles.

Record OidcProfile := {
  scopes : list string;
  attributeMapping : gmap string string;
  issuerNormalisation : option string
}.

(** The five attributes that all OIDC profiles map alike. *)
Definition oidc_mapping (rest : list (string * string)) : gmap string string := list_to_map
  ([("email", "email"); ("email_verified", "email_verified"); ("given_name", "given_name");
    ("family_name", "family_name"); ("name", "name")] ++ rest).

Definition oidcProfileGeneric : OidcProfile :=
  {| scopes := ["openid"; "email"; "profile"]; attributeMapping := oidc_mapping [("custom:idpGroups", "groups")];
     issuerNormalisation := None |}.

Definition oidcProfileEntra : OidcProfile :=
  {| scopes := ["openid"; "email"; "profile"]; attributeMapping := oidc_mapping [("custom:idpGroups", "roles")];
     issuerNormalisation := Some "entra-tenant-id" |}.

Definition oidcProfileOkta : OidcProfile :=
  {| scopes := ["openid"; "email"; "profile"; "groups"]; attributeMapping := oidc_mapping [("custom:idpGroups", "groups")];
     issuerNormalisation := None |}.

Definition oidcProfileAuth0 : OidcProfile :=
  {| scopes := ["openid"; "email"; "profile"];
     attributeMapping := oidc_mapping [("custom:idpGroups", "https://your-namespace/groups")];
     issuerNormalisation := None |}.

Definition oidcProfileGoogleWorkspace : OidcProfile :=
  {| scopes := ["openid"; "email"; "profile"]; attributeMapping := oidc_mapping [("custom:hostedDomain", "hd")];
     issuerNormalisation := None |}.

Definition OIDC_PROFILES : list (string * OidcProfile) :=
  [("generic", oidcProfileGeneric); ("entra", oidcProfileEntra); ("okta", oidcProfileOkta); ("auth0", oidcProfileAuth0);
   ("google", oidcProfileGoogleWorkspace)].

(** A SAML profile is its mapping: email, given name, family name, name and
    groups. *)
Definition saml_mapping (email given family name groups : string) : gmap string string := list_to_map
  [("email", email); ("given_name", given); ("family_name", family); ("name", name); ("custom:idpGroups", groups)].

Definition samlProfileGeneric : gmap string string :=
  saml_mapping "http://schemas.xmlsoap.org/ws/2005/05/identity/claims/emailaddress"
    "http://schemas.xmlsoap.org/ws/2005/05/identity/claims/givenname"
    "http://schemas.xmlsoap.org/ws/2005/05/identity/claims/surname"
    "http://schemas.xmlsoap.org/ws/2005/05/identity/claims/name"
    "http://schemas.microsoft.com/ws/2008/06/identity/claims/role".

Definition samlProfileEntra : gmap string string :=
  saml_mapping "http://schemas.xmlsoap.org/ws/2005/05/identity/claims/emailaddress"
    "http://schemas.xmlsoap.org/ws/2005/05/identity/claims/givenname"
    "http://schemas.xmlsoap.org/ws/2005/05/identity/claims/surname"
    "http://schemas.xmlsoap.org/ws/2005/05/identity/claims/name"
    "http://schemas.microsoft.com/ws/2008/06/identity/claims/role".

Definition samlProfileAdfs : gmap string string :=
  saml_mapping "http://schemas.xmlsoap.org/ws/2005/05/identity/claims/emailaddress"
    "http://schemas.xmlsoap.org/ws/2005/05/identity/claims/givenname"
    "http://schemas.xmlsoap.org/ws/2005/05/identity/claims/surname"
    "http://schemas.xmlsoap.org/ws/2005/05/identity/claims/name"
    "http://schemas.xmlsoap.org/claims/Group".

Definition samlProfileOktaSaml : gmap string string :=
  saml_mapping "user.email" "user.firstName" "user.lastName" "user.displayName" "user.groups".

Definition samlProfileShibboleth : gmap string string :=
  saml_mapping "urn:oid:0.9.2342.19200300.100.1.3" "urn:oid:2.5.4.42" "urn:oid:2.5.4.4"
    "urn:oid:2.16.840.1.113730.3.1.241" "urn:oid:1.3.6.1.4.1.5923.1.5.1.1".

Definition SAML_PROFILES : list (string * gmap string string) :=
  [("generic", samlProfileGeneric); ("entra", samlProfileEntra); ("adfs", samlProfileAdfs);
   ("oktaSaml", samlProfileOktaSaml); ("shibboleth", samlProfileShibboleth)].

(** Also (A profile says all there is to say): registering with the mapping of
    a profile stores that mapping, since no default of the managers is missing
    from it; every OIDC profile asks for an identity token. *)
Theorem profiles_complete :
  Forall (fun e => IdpManager.merge_mapping (Some (attributeMapping (snd e))) IdpManager.OIDC_ATTRIBUTE_MAPPING =
                   attributeMapping (snd e) /\ In "openid" (scopes (snd e))) OIDC_PROFILES /\
  Forall (fun e => IdpManager.merge_mapping (Some (snd e)) IdpManager.SAML_ATTRIBUTE_MAPPING = snd e) SAML_PROFILES.
Proof. split; repeat constructor; vm_compute; auto. Qed.
End Profiles.
