(* ===== verification/SpMetadata.v ===== *)
(** Service-provider metadata: [packages/vestibulum/src/saml/sp-metadata.ts].

    The document is printed from a template; [X509Certificate] and [Date] are
    a parameter that says when a certificate ends. *)

From S2P Require Import Prelude JsString Prog SamlMetadata.
From Stdlib Require Import Ascii.

#[local] Open Scope string_scope.
#[local] Open Scope Z_scope.
#[local] Open Scope prog_scope.

Module SpMetadata.

Definition BEGIN_CERT : string := "-----BEGIN CERTIFICATE-----".
Definition END_CERT : string := "-----END CERTIFICATE-----".
Definition dquote : string := String.String "034"%char "".

(** ** Replacing *)

(** [s.replace(/pat/g, rep)] for a literal, non-empty pattern; [skip] counts
    the characters of a match still to be passed over. *)
Fixpoint replace_all (pat rep : string) (skip : nat) (s : string) : string :=
  match s with
  | EmptyString => ""
  | String.String c r =>
      match skip with
      | S k => replace_all pat rep k r
      | O =>
          if String.prefix pat s then rep +:+ replace_all pat rep (String.length pat - 1) r
          else String.String c (replace_all pat rep 0 r)
      end
  end.

Definition escapeXml (value : string) : string :=
  let v := replace_all "&" "&amp;" 0 value in
  let v := replace_all "<" "&lt;" 0 v in
  let v := replace_all ">" "&gt;" 0 v in
  let v := replace_all dquote "&quot;" 0 v in
  replace_all "'" "&apos;" 0 v.

(** ** Certificates *)

Definition wrapPem (value : string) : string :=
  let trimmed := trim value in
  if startsWith trimmed "-----BEGIN" then trimmed
  else
    let base64 := Saml.drop_spaces trimmed in
    join Saml.newline (BEGIN_CERT :: Saml.chunks64 (String.length base64) base64 ++ [END_CERT])%list.

Definition extractBase64 (pem : string) : string :=
  Saml.drop_spaces (replace_all END_CERT "" 0 (replace_all BEGIN_CERT "" 0 pem)).

(** ** The document *)

Definition attribute (name value : string) : string := name +:+ "=" +:+ dquote +:+ value +:+ dquote.

Definition renderSpMetadataXml (entityId acsUrl certBase64 : string) : string :=
  join Saml.newline
    ["<?xml " +:+ attribute "version" "1.0" +:+ " " +:+ attribute "encoding" "UTF-8" +:+ "?>";
     "<md:EntityDescriptor " +:+ attribute "xmlns:md" "urn:oasis:names:tc:SAML:2.0:metadata";
     "                     " +:+ attribute "entityID" (escapeXml entityId) +:+ ">";
     "  <md:SPSSODescriptor " +:+ attribute "AuthnRequestsSigned" "true";
     "                      " +:+ attribute "WantAssertionsSigned" "true";
     "                      " +:+ attribute "protocolSupportEnumeration" "urn:oasis:names:tc:SAML:2.0:protocol" +:+ ">";
     "    <md:KeyDescriptor " +:+ attribute "use" "signing" +:+ ">";
     "      <ds:KeyInfo " +:+ attribute "xmlns:ds" "http://www.w3.org/2000/09/xmldsig#" +:+ ">";
     "        <ds:X509Data>";
     "          <ds:X509Certificate>" +:+ certBase64 +:+ "</ds:X509Certificate>";
     "        </ds:X509Data>";
     "      </ds:KeyInfo>";
     "    </md:KeyDescriptor>";
     "    <md:NameIDFormat>urn:oasis:names:tc:SAML:1.1:nameid-format:emailAddress</md:NameIDFormat>";
     "    <md:AssertionConsumerService " +:+ attribute "Binding" "urn:oasis:names:tc:SAML:2.0:bindings:HTTP-POST";
     "                                 " +:+ attribute "Location" (escapeXml acsUrl);
     "                                 " +:+ attribute "index" "0";
     "                                 " +:+ attribute "isDefault" "true" +:+ "/>";
     "  </md:SPSSODescriptor>";
     "</md:EntityDescriptor>"].

Record SpMetadata := {
  entityId : string;
  acsUrl : string;
  metadataXml : string;
  signingCert_pem : string;
  signingCert_notAfter : option Z
}.

Inductive sp_cmd : Type -> Type := GetSigningCertificate (userPoolId : string) : sp_cmd (option string).

(** No certificate, one that does not parse, or an error of the service. *)
Inductive sp_error := NoCertificate | BadCertificate | ServiceError (message : string).

(** [valid_to pem]: the time value of [new Date(cert.validTo)] for a
    certificate that parses. *)
Definition buildSpMetadata (valid_to : string -> option (option Z)) (userPoolId hostedUiDomain : string) :
    prog sp_cmd string sp_error Empty_set SpMetadata :=
  Send (GetSigningCertificate userPoolId) (fun r =>
    match r with
    | Throw m => Raise (ServiceError m)
    | Ok None => Raise NoCertificate
    | Ok (Some rawCert) =>
        if String.eqb rawCert "" then Raise NoCertificate
        else
          let pem := wrapPem rawCert in
          match valid_to pem with
          | None => Raise BadCertificate
          | Some notAfter =>
              let entity := "urn:amazon:cognito:sp:" +:+ userPoolId in
              let acs := "https://" +:+ hostedUiDomain +:+ "/saml2/idpresponse" in
              Ret {| entityId := entity; acsUrl := acs; metadataXml := renderSpMetadataXml entity acs (extractBase64 pem);
                     signingCert_pem := pem; signingCert_notAfter := notAfter |}
          end
    end).

Example sp_examples :
  escapeXml ("a<b>&'" +:+ dquote) = "a&lt;b&gt;&amp;&apos;&quot;" /\
  wrapPem " MIIB  AA " = BEGIN_CERT +:+ Saml.newline +:+ "MIIBAA" +:+ Saml.newline +:+ END_CERT /\
  extractBase64 (wrapPem " MIIB  AA ") = "MIIBAA" /\
  wrapPem (wrapPem "MIIBAA") = wrapPem "MIIBAA".
Proof. vm_compute. repeat split. Qed.

(** ** Escaping *)

Fixpoint concat_map (f : ascii -> string) (s : string) : string :=
  match s with EmptyString => "" | String.String c r => f c +:+ concat_map f r end.

Lemma concat_map_app f s t : concat_map f (s +:+ t) = concat_map f s +:+ concat_map f t.
Proof. induction s as [|c r IH]; [done|]. cbn. by rewrite IH, str_app_assoc. Qed.

Lemma concat_map_comp f g s : concat_map g (concat_map f s) = concat_map (fun c => concat_map g (f c)) s.
Proof. induction s as [|c r IH]; [done|]. cbn. by rewrite concat_map_app, IH. Qed.

Lemma concat_map_ext f g s : (forall c, f c = g c) -> concat_map f s = concat_map g s.
Proof. intros H. induction s as [|c r IH]; [done|]. cbn. by rewrite H, IH. Qed.

Definition subst (p : ascii) (rep : string) (c : ascii) : string := if Ascii.eqb c p then rep else String.String c "".

Lemma replace_one p rep s : replace_all (String.String p "") rep 0 s = concat_map (subst p rep) s.
Proof.
  induction s as [|c r IH]; [done|]. cbn [replace_all concat_map String.length Nat.sub]. unfold subst at 1.
  cbn [String.prefix]. destruct (Ascii.eqb_spec c p) as [->|Hne].
  - destruct (ascii_dec p p) as [_|]; [|done]. destruct r; by rewrite <- IH.
  - destruct (ascii_dec p c) as [->|_]; [done|]. cbn. by rewrite IH.
Qed.

(** What becomes of one character. *)
Definition entity (c : ascii) : string :=
  if Ascii.eqb c "&" then "&amp;"
  else if Ascii.eqb c "<" then "&lt;"
  else if Ascii.eqb c ">" then "&gt;"
  else if Ascii.eqb c "034" then "&quot;"
  else if Ascii.eqb c "'" then "&apos;"
  else String.String c "".

Lemma by_chars (f g : ascii -> string) : all_chars (fun c => String.eqb (f c) (g c)) = true -> forall c, f c = g c.
Proof. intros H c. apply String.eqb_eq. by apply (all_chars_spec (fun c => String.eqb (f c) (g c))). Qed.

Lemma escapeXml_map s : escapeXml s = concat_map entity s.
Proof.
  unfold escapeXml, dquote. rewrite !replace_one, !concat_map_comp. apply concat_map_ext, by_chars. vm_compute. reflexivity.
Qed.

(** Reading the five entities back. *)
Fixpoint unescape (skip : nat) (s : string) : string :=
  match s with
  | EmptyString => ""
  | String.String c r =>
      match skip with
      | S k => unescape k r
      | O =>
          if String.prefix "&amp;" s then String.String "&" (unescape 4 r)
          else if String.prefix "&lt;" s then String.String "<" (unescape 3 r)
          else if String.prefix "&gt;" s then String.String ">" (unescape 3 r)
          else if String.prefix "&quot;" s then String.String "034" (unescape 5 r)
          else if String.prefix "&apos;" s then String.String "'" (unescape 5 r)
          else String.String c (unescape 0 r)
      end
  end.

Lemma unescape_entity c t : unescape 0 (entity c +:+ t) = String.String c (unescape 0 t).
Proof.
  unfold entity. repeat (match goal with |- context [Ascii.eqb c ?d] => destruct (Ascii.eqb_spec c d) as [->|] end; [by destruct t|]).
  cbn [String.append unescape]. assert (forall u v, String.prefix (String.String "&" u) (String.String c v) = false) as Hp.
  { intros u v. cbn [String.prefix]. by destruct (ascii_dec "&" c) as [<-|_]. }
  by rewrite !Hp.
Qed.

(** Also (Escaping loses nothing and lets nothing through): the five replacements
    in their order turn each character into its entity once, so that no quote
    and no angle bracket is left, and reading the entities gives the text back;
    two texts are escaped alike only if they are the same. *)
Theorem escape_roundtrip s :
  unescape 0 (escapeXml s) = s /\
  str_all (fun c => negb (char_in c ("<>'" +:+ dquote))) (escapeXml s) = true /\
  (forall t, escapeXml t = escapeXml s -> t = s).
Proof.
  assert (forall s, unescape 0 (escapeXml s) = s) as Hr.
  { intros u. rewrite escapeXml_map. induction u as [|c r IH]; [done|]. cbn [concat_map]. by rewrite unescape_entity, IH. }
  split; [apply Hr|]. split.
  - rewrite escapeXml_map. induction s as [|c r IH]; [done|]. cbn [concat_map]. rewrite str_all_app, IH, andb_true_r.
    apply (all_chars_spec (fun c => str_all (fun c => negb (char_in c ("<>'" +:+ dquote))) (entity c))).
    vm_compute. reflexivity.
  - intros t Ht. by rewrite <- (Hr t), <- (Hr s), Ht.
Qed.

(** ** The certificate goes through unchanged *)

Lemma replace_skips p pat rep s t : char_in p s = false ->
  replace_all (String.String p pat) rep 0 (s +:+ t) = s +:+ replace_all (String.String p pat) rep 0 t.
Proof.
  induction s as [|c r IH]; [done|]. unfold char_in. cbn [str_exists]. intros [Hc Hr]%orb_false_iff.
  cbn [String.append replace_all String.prefix]. destruct (ascii_dec p c) as [->|_]; [by rewrite Ascii.eqb_refl in Hc|].
  by rewrite IH.
Qed.

Lemma drop_spaces_app s t : Saml.drop_spaces (s +:+ t) = Saml.drop_spaces s +:+ Saml.drop_spaces t.
Proof. induction s as [|c r IH]; [done|]. cbn. destruct (is_space c); cbn; by rewrite IH. Qed.

Lemma drop_spaces_trim s : Saml.drop_spaces (trim s) = Saml.drop_spaces s.
Proof.
  unfold trim. transitivity (Saml.drop_spaces (trim_start s)).
  - generalize (trim_start s). clear. intros s. induction s as [|c r IH]; [done|]. cbn [trim_end].
    cbn [Saml.drop_spaces]. rewrite <- IH. destruct (trim_end r) as [|d r'].
    + destruct (is_space c) eqn:Hc; [done|]. cbn. by rewrite Hc.
    + done.
  - induction s as [|c r IH]; [done|]. cbn [trim_start]. destruct (is_space c) eqn:E; [|done]. cbn. by rewrite E.
Qed.

Lemma chunks64_concat n s : (String.length s <= n)%nat -> Saml.drop_spaces s = s ->
  Saml.drop_spaces (join Saml.newline (Saml.chunks64 n s)) = s.
Proof.
  revert s. induction n as [|n IH]; intros s Hn Hs.
  - destruct s; [done|cbn in Hn; lia].
  - cbn [Saml.chunks64]. destruct (String.eqb_spec s "") as [->|Hne]; [done|].
    assert (Saml.drop_spaces (str_take 64 s) = str_take 64 s /\ Saml.drop_spaces (str_drop 64 s) = str_drop 64 s) as [Ht Hd].
    { generalize 64%nat. clear -Hs. induction s as [|c r IH]; intros [|k]; try done. cbn [str_take str_drop Saml.drop_spaces] in *.
      destruct (is_space c) eqn:E.
      - exfalso. assert (forall s, (String.length (Saml.drop_spaces s) <= String.length s)%nat) as Hl.
        { clear. induction s as [|c r IH]; [done|]. cbn. destruct (is_space c); cbn; lia. }
        specialize (Hl r). rewrite Hs in Hl. cbn in Hl. lia.
      - injection Hs as Hs. destruct (IH Hs k) as [H1 H2]. by rewrite H1, H2. }
    assert (String.length (str_drop 64 s) <= n)%nat as Hl.
    { destruct s as [|c r]; [done|]. change (str_drop 64 (String.String c r)) with (str_drop 63 r).
      pose proof (f_equal String.length (str_take_drop 63 r)) as He. rewrite str_length_app in He. cbn [String.length] in Hn. lia. }
    specialize (IH (str_drop 64 s) Hl Hd). pose proof (str_take_drop 64 s) as He.
    revert Ht IH He. generalize (str_take 64 s) (str_drop 64 s). intros a b Ht IH He.
    destruct (Saml.chunks64 n b) as [|x l]; cbn [join] in *.
    + cbn [Saml.drop_spaces] in IH. by rewrite Ht, <- He, <- IH, str_app_nil_r.
    + by rewrite !drop_spaces_app, Ht, IH.
Qed.

Lemma str_all_drop_spaces p s : str_all p s = true -> str_all p (Saml.drop_spaces s) = true.
Proof.
  induction s as [|c r IH]; [done|]. intros [Hc Hr]%str_all_cons. cbn. destruct (is_space c); [by apply IH|].
  apply str_all_cons. split; [done|by apply IH].
Qed.

Lemma drop_spaces_idem s : Saml.drop_spaces (Saml.drop_spaces s) = Saml.drop_spaces s.
Proof. induction s as [|c r IH]; [done|]. cbn. destruct (is_space c) eqn:E; [done|]. cbn. by rewrite E, IH. Qed.

Lemma chunks64_all p n s : str_all p s = true -> p "010"%char = true -> str_all p (join Saml.newline (Saml.chunks64 n s)) = true.
Proof.
  intros Hs Hp. revert s Hs. induction n as [|n IH]; intros s Hs; [done|]. cbn [Saml.chunks64].
  destruct (String.eqb s ""); [done|]. rewrite <- (str_take_drop 64 s), str_all_app in Hs. apply andb_true_iff in Hs as [Ht Hd].
  specialize (IH (str_drop 64 s) Hd). destruct (Saml.chunks64 n (str_drop 64 s)) as [|x l]; [done|].
  rewrite join_cons, !str_all_app, Ht, IH. unfold Saml.newline. cbn. by rewrite Hp.
Qed.

Lemma join_frame sep a l b : l <> [] -> join sep (a :: l ++ [b])%list = a +:+ sep +:+ join sep l +:+ sep +:+ b.
Proof.
  intros Hl. assert (join sep (l ++ [b])%list = join sep l +:+ sep +:+ b) as Hj.
  { induction l as [|x [|y l] IH]; [done|done|]. cbn [app join] in IH |- *. rewrite IH by done. by rewrite !str_app_assoc. }
  destruct l as [|x l]; [done|]. cbn [app join] in Hj |- *. by rewrite Hj.
Qed.

Lemma no_dash_all s : char_in "-" s = false <-> str_all (fun c => negb (Ascii.eqb "-" c)) s = true.
Proof.
  unfold char_in. induction s as [|c r IH]; [done|]. cbn [str_exists str_all]. rewrite orb_false_iff, andb_true_iff, IH.
  by rewrite negb_true_iff.
Qed.

(** Also (The certificate of the pool is the one in the document): a certificate
    that comes as base 64 without a frame, however it is broken into lines and
    spaced, is framed and then embedded as that base 64 without spaces. *)
Theorem certificate_roundtrip raw :
  char_in "-" raw = false -> Saml.drop_spaces raw <> "" ->
  extractBase64 (wrapPem raw) = Saml.drop_spaces raw.
Proof.
  intros Hd Hne. unfold wrapPem.
  assert (startsWith (trim raw) "-----BEGIN" = false) as ->.
  { apply not_true_iff_false. intros [u Hu]%prefix_spec. apply no_dash_all, str_all_trim in Hd. rewrite Hu in Hd. done. }
  rewrite drop_spaces_trim. set (b := Saml.drop_spaces raw) in *. set (l := Saml.chunks64 (String.length b) b).
  assert (l <> []) as Hl.
  { subst l. destruct b as [|c r]; [done|]. done. }
  rewrite (join_frame Saml.newline BEGIN_CERT l END_CERT Hl). set (body := join Saml.newline l).
  assert (char_in "-" body = false) as Hbody.
  { apply no_dash_all, chunks64_all; [|done]. by apply str_all_drop_spaces, no_dash_all. }
  unfold extractBase64. set (pre := Saml.newline +:+ body +:+ Saml.newline).
  assert (BEGIN_CERT +:+ Saml.newline +:+ body +:+ Saml.newline +:+ END_CERT = BEGIN_CERT +:+ pre +:+ END_CERT) as ->.
  { unfold pre. by rewrite !str_app_assoc. }
  assert (char_in "-" pre = false) as Hpre.
  { unfold pre. apply no_dash_all. rewrite !str_all_app. apply no_dash_all in Hbody. by rewrite Hbody. }
  assert (forall t, replace_all BEGIN_CERT "" 0 (BEGIN_CERT +:+ t) = replace_all BEGIN_CERT "" 0 t) as ->.
  { intros t. unfold BEGIN_CERT at 1 2. cbn. by destruct t. }
  unfold BEGIN_CERT. rewrite replace_skips by done. change (replace_all _ _ 0 END_CERT) with END_CERT.
  unfold END_CERT. rewrite replace_skips by done. change (replace_all _ _ 0 _) with "". rewrite str_app_nil_r.
  unfold pre. rewrite !drop_spaces_app. unfold body, l. rewrite chunks64_concat; [|done|apply drop_spaces_idem].
  change (Saml.drop_spaces Saml.newline) with "". apply str_app_nil_r.
Qed.

Lemma certificate_roundtrip_witness : extractBase64 (wrapPem " MIIB  AA ") = "MIIBAA".
Proof. exact (certificate_roundtrip " MIIB  AA " eq_refl ltac:(discriminate)). Defined.
End SpMetadata.
