(* ===== verification/TtlCache.v ===== *)
(** The promise cache of the shared-distribution triggers:
    [packages/vestibulum/src/lambda/shared-distribution/shared/ttl-cache.ts].

    A promise is its place in the list of promises the cache ever made, with
    the key its loader was started for and its state. [getOrLoad] runs
    synchronously; a loader settles in a step of its own, between any two
    calls. For callers that await each load before the next call the cache is
    a map of values with expiry times ([remember], [recall]). *)

From S2P Require Import Prelude.
From stdpp Require Import strings gmap.

#[local] Open Scope string_scope.
#[local] Open Scope Z_scope.

Section cache.
Context {T E : Type}.

(** ** The cache *)

Inductive promise_state := pending | settled (r : result E T).

(** [started] is the clock reading of the call that made the promise. *)
Record Promise := { p_key : string; started : Z; p_state : promise_state }.

Record Entry := { promise : nat; expiresAt : Z }.

Record TtlCache := { ttlMs : Z; entries : gmap string Entry; promises : list Promise }.

Definition new_TtlCache (ttl : Z) : TtlCache := {| ttlMs := ttl; entries := ∅; promises := [] |}.

(** The promise for the key, and the cache that keeps it. *)
Definition getOrLoad (c : TtlCache) (key : string) (now : Z) : TtlCache * nat :=
  let load :=
    let p := length (promises c) in
    ({| ttlMs := ttlMs c;
        entries := <[key := {| promise := p; expiresAt := now + ttlMs c |}]> (entries c);
        promises := promises c ++ [{| p_key := key; started := now; p_state := pending |}] |}, p) in
  match entries c !! key with
  | Some entry => if now <? expiresAt entry then (c, promise entry) else load
  | None => load
  end.

(** [loader()] settles; the [catch] handler evicts its own entry only. A
    promise settles once. *)
Definition settle (c : TtlCache) (p : nat) (r : result E T) : TtlCache :=
  match promises c !! p with
  | Some {| p_key := key; started := t; p_state := pending |} =>
      {| ttlMs := ttlMs c;
         entries := match r, entries c !! key with
                    | Throw _, Some entry => if decide (promise entry = p) then delete key (entries c) else entries c
                    | _, _ => entries c
                    end;
         promises := <[p := {| p_key := key; started := t; p_state := settled r |}]> (promises c) |}
  | _ => c
  end.

Inductive cache_op := Get (key : string) (now : Z) | Settle (p : nat) (r : result E T).

Definition cache_step (c : TtlCache) (o : cache_op) : TtlCache :=
  match o with Get key now => fst (getOrLoad c key now) | Settle p r => settle c p r end.

Definition cache_run (c : TtlCache) (os : list cache_op) : TtlCache := fold_left cache_step os c.

(** ** What the entries say *)

Definition failed (pr : Promise) : Prop := exists e, p_state pr = settled (Throw e).

Definition entry_ok (c : TtlCache) (key : string) (e : Entry) : Prop :=
  exists pr, promises c !! promise e = Some pr /\ p_key pr = key /\ ~ failed pr /\
             expiresAt e = started pr + ttlMs c.

Definition cache_ok (c : TtlCache) : Prop :=
  forall key e, entries c !! key = Some e -> entry_ok c key e.

Lemma new_ok ttl : cache_ok (new_TtlCache ttl).
Proof. intros key e He. by destruct (lookup_empty_Some _ _ He). Qed.

Lemma getOrLoad_cases c key now :
  (exists e, entries c !! key = Some e /\ now < expiresAt e /\ getOrLoad c key now = (c, promise e)) \/
  ((forall e, entries c !! key = Some e -> expiresAt e <= now) /\
   getOrLoad c key now =
     ({| ttlMs := ttlMs c;
         entries := <[key := {| promise := length (promises c); expiresAt := now + ttlMs c |}]> (entries c);
         promises := promises c ++ [{| p_key := key; started := now; p_state := pending |}] |},
      length (promises c))).
Proof.
  unfold getOrLoad. destruct (entries c !! key) as [e|]; [|right; naive_solver].
  destruct (Z.ltb_spec now (expiresAt e)); [left; eauto|right; naive_solver].
Qed.

Lemma entry_ok_grow c key e pr n :
  entry_ok c key e ->
  entry_ok {| ttlMs := ttlMs c; entries := n; promises := promises c ++ [pr] |} key e.
Proof.
  intros (q & Hq & H). exists q. split; [|done]. cbn. rewrite lookup_app_l; [done|].
  by apply lookup_lt_Some in Hq.
Qed.

Lemma getOrLoad_ok c key now : cache_ok c -> cache_ok (fst (getOrLoad c key now)).
Proof.
  intros Hc. destruct (getOrLoad_cases c key now) as [(e & _ & _ & ->)|[_ ->]]; [done|].
  intros k e. cbn. destruct (decide (k = key)) as [->|Hk].
  - rewrite lookup_insert_eq. intros [= <-]. eexists. cbn. rewrite lookup_app_r, Nat.sub_diag by lia.
    split; [reflexivity|]. repeat split. by intros [e' ?].
  - rewrite lookup_insert_ne by done. intros He. by apply entry_ok_grow, Hc.
Qed.

Lemma settle_ok c p r : cache_ok c -> cache_ok (settle c p r).
Proof.
  intros Hc. unfold settle. destruct (promises c !! p) as [[key t [|]]|] eqn:Hp; [|done|done].
  intros k e He. cbn in He.
  assert (entries c !! k = Some e /\ (promise e = p -> exists v, r = Ok v)) as [He' Hpe].
  { destruct r as [v|err]; [naive_solver|].
    destruct (entries c !! key) as [e0|] eqn:E0; [destruct (decide (promise e0 = p)) as [Hd|Hd]|].
    - apply lookup_delete_Some in He as [Hne He]. split; [done|]. intros Hpe. exfalso.
      destruct (Hc _ _ He) as (pr & Hpr & Hk & _). rewrite Hpe, Hp in Hpr. naive_solver.
    - split; [done|]. intros Hpe. exfalso. apply Hd.
      destruct (Hc _ _ He) as (pr & Hpr & Hk & _). rewrite Hpe, Hp in Hpr. simplify_eq. cbn in E0. naive_solver.
    - split; [done|]. intros Hpe. exfalso.
      destruct (Hc _ _ He) as (pr & Hpr & Hk & _). rewrite Hpe, Hp in Hpr. simplify_eq. cbn in E0. naive_solver. }
  destruct (Hc _ _ He') as (pr & Hpr & Hk & Hf & Hx). destruct (decide (promise e = p)) as [Heq|Hne].
  - destruct (Hpe Heq) as [v ->]. rewrite Heq, Hp in Hpr. injection Hpr as <-.
    eexists. cbn. rewrite Heq, list_lookup_insert_eq by (by apply lookup_lt_Some in Hp).
    repeat split; [done| |done]. by intros [err ?].
  - exists pr. cbn. by rewrite list_lookup_insert_ne.
Qed.

#[local] Hint Resolve new_ok getOrLoad_ok settle_ok : core.

Lemma cache_run_ok os c : cache_ok c -> cache_ok (cache_run c os).
Proof. revert c. induction os as [|o os IH]; intros c Hc; [done|]. apply IH. destruct o; cbn; auto. Qed.

Lemma getOrLoad_ttl c key now : ttlMs (fst (getOrLoad c key now)) = ttlMs c.
Proof. by destruct (getOrLoad_cases c key now) as [(e & _ & _ & ->)|[_ ->]]. Qed.

Lemma settle_ttl c p r : ttlMs (settle c p r) = ttlMs c.
Proof. unfold settle. by destruct (promises c !! p) as [[? ? [|]]|]. Qed.

Lemma cache_run_ttl os c : ttlMs (cache_run c os) = ttlMs c.
Proof.
  revert c. induction os as [|o os IH]; intros c; [done|]. etrans; [apply IH|].
  destruct o; [apply getOrLoad_ttl|apply settle_ttl].
Qed.

(** Also (a call gets a live promise): whatever calls and settlements came
    before, [getOrLoad] returns a promise of a loader of that very key, which
    has not failed and was started less than the lifetime ago; either the
    cache is unchanged and the caller shares an earlier load, or the promise
    is new, pending, and the next caller's. *)
Theorem getOrLoad_live ttl os key now :
  0 < ttl ->
  let c := cache_run (new_TtlCache ttl) os in
  let '(c', p) := getOrLoad c key now in
  exists pr, promises c' !! p = Some pr /\ p_key pr = key /\ ~ failed pr /\ now < started pr + ttl /\
    (c' = c \/ (p = length (promises c) /\ started pr = now /\ p_state pr = pending /\
                fst (getOrLoad c' key now) = c' /\ snd (getOrLoad c' key now) = p)).
Proof.
  intros Httl c. assert (Hc : cache_ok c) by apply cache_run_ok, new_ok.
  assert (Ht : ttlMs c = ttl) by apply cache_run_ttl.
  destruct (getOrLoad_cases c key now) as [(e & He & Hlt & ->)|[_ ->]].
  - destruct (Hc _ _ He) as (pr & Hpr & Hk & Hf & Hx). exists pr. rewrite Hx, Ht in Hlt. eauto 6.
  - eexists. cbn [promises]. rewrite lookup_app_r, Nat.sub_diag by lia.
    split; [reflexivity|]. repeat split; [by intros [e ?]|cbn; lia|]. right. split; [done|]. do 2 (split; [done|]).
    unfold getOrLoad. cbn [entries]. rewrite lookup_insert_eq. cbn.
    assert (Hb : (now <? now + ttlMs c) = true) by (apply Z.ltb_lt; lia). by rewrite Hb.
Qed.

(** ** Loads are spaced *)

Fixpoint monotone (last : Z) (os : list cache_op) : Prop :=
  match os with
  | [] => True
  | Get _ now :: rest => last <= now /\ monotone now rest
  | Settle _ _ :: rest => monotone last rest
  end.

(** A load that did not fail is either in its entry or past its lifetime. *)
Record spaced (c : TtlCache) (last : Z) : Prop := {
  sp_ok : cache_ok c;
  sp_past p pr : promises c !! p = Some pr -> started pr <= last;
  sp_kept p pr : promises c !! p = Some pr -> ~ failed pr ->
    (exists e, entries c !! p_key pr = Some e /\ promise e = p) \/ started pr + ttlMs c <= last;
  sp_apart p q pr qr : (p < q)%nat -> promises c !! p = Some pr -> promises c !! q = Some qr ->
    p_key pr = p_key qr -> ~ failed pr -> started pr + ttlMs c <= started qr
}.

Lemma spaced_later c last now : last <= now -> spaced c last -> spaced c now.
Proof.
  intros Hle []. split; [done| | |done].
  - intros p pr Hp. specialize (sp_past0 p pr Hp). lia.
  - intros p pr Hp Hf. destruct (sp_kept0 p pr Hp Hf) as [?|?]; [by left|right; lia].
Qed.

(** What is over for a key once its entry has expired. *)
Lemma spaced_expired c now p pr :
  spaced c now -> (forall e, entries c !! p_key pr = Some e -> expiresAt e <= now) ->
  promises c !! p = Some pr -> ~ failed pr -> started pr + ttlMs c <= now.
Proof.
  intros [] Hx Hp Hf. destruct (sp_kept0 p pr Hp Hf) as [(e & He & <-)|]; [|done].
  destruct (sp_ok0 _ _ He) as (pr' & Hpr' & _ & _ & He'). rewrite Hp in Hpr'. injection Hpr' as <-.
  specialize (Hx _ He). lia.
Qed.

Lemma getOrLoad_spaced c key now : spaced c now -> spaced (fst (getOrLoad c key now)) now.
Proof.
  intros Hs. assert (Hok := getOrLoad_ok c key now (sp_ok _ _ Hs)). revert Hok.
  destruct (getOrLoad_cases c key now) as [(e & _ & _ & ->)|[Hx ->]]; [done|]. cbn [fst]. intros Hok.
  split; [done| | |]; cbn [promises entries ttlMs].
  - intros p pr [Hp|[_ Hp]]%lookup_app_Some; [by eapply (sp_past _ _ Hs)|].
    apply list_lookup_singleton_Some in Hp as [_ <-]. cbn. lia.
  - intros p pr [Hp|[Hlen Hp]]%lookup_app_Some Hf.
    + destruct (decide (p_key pr = key)) as [<-|Hk].
      * right. by eapply spaced_expired.
      * rewrite lookup_insert_ne by done. by apply (sp_kept _ _ Hs).
    + apply list_lookup_singleton_Some in Hp as [Hp <-]. cbn. left. rewrite lookup_insert_eq.
      eexists. split; [done|]. cbn. lia.
  - intros p q pr qr Hpq [Hp|[Hlen Hp]]%lookup_app_Some [Hq|[Hlen' Hq]]%lookup_app_Some Hk Hf.
    + by apply (sp_apart _ _ Hs p q).
    + apply list_lookup_singleton_Some in Hq as [_ <-]. cbn in *. subst key. by eapply spaced_expired.
    + apply lookup_lt_Some in Hq. lia.
    + apply list_lookup_singleton_Some in Hp as [? _], Hq as [? _]. lia.
Qed.

(** A settlement changes the state of one promise only. *)
Lemma settle_promises c p r q qr :
  promises (settle c p r) !! q = Some qr ->
  exists qr', promises c !! q = Some qr' /\ p_key qr' = p_key qr /\ started qr' = started qr /\
              (qr' = qr \/ (q = p /\ ~ failed qr' /\ p_state qr = settled r)).
Proof.
  unfold settle. destruct (promises c !! p) as [[key t [|]]|] eqn:Hp; [|by eauto 7..].
  cbn [promises]. destruct (decide (q = p)) as [->|Hne].
  - rewrite list_lookup_insert_eq by (by apply lookup_lt_Some in Hp). intros [= <-].
    rewrite Hp. eexists. split; [done|]. repeat split. right. repeat split. by intros [e ?].
  - rewrite list_lookup_insert_ne by done. eauto 7.
Qed.

(** An entry goes only when its own promise failed. *)
Lemma settle_entries c p r key e :
  cache_ok c -> entries c !! key = Some e ->
  entries (settle c p r) !! key = Some e \/
  exists pr, promises (settle c p r) !! promise e = Some pr /\ failed pr.
Proof.
  intros Hc He. unfold settle. destruct (promises c !! p) as [[k t [|]]|] eqn:Hp; [|by left..].
  cbn [entries promises]. destruct r as [v|err]; [by left|].
  destruct (entries c !! k) as [e0|] eqn:E0; [|by left].
  destruct (decide (promise e0 = p)) as [Hd|]; [|by left].
  destruct (decide (k = key)) as [->|Hk]; [|left; by rewrite lookup_delete_ne].
  right. assert (e0 = e) as -> by congruence. rewrite Hd, list_lookup_insert_eq by (by apply lookup_lt_Some in Hp).
  eexists. split; [done|]. by exists err.
Qed.

Lemma settle_spaced c p r last : spaced c last -> spaced (settle c p r) last.
Proof.
  intros Hs. split; rewrite ?settle_ttl.
  - by apply settle_ok, Hs.
  - intros q qr (qr' & Hq & _ & <- & _)%settle_promises. by eapply (sp_past _ _ Hs).
  - intros q qr Hq0 Hf. pose proof Hq0 as (qr' & Hq & Hkq & Hsq & Hst)%settle_promises.
    assert (~ failed qr') as Hf' by naive_solver. rewrite <- Hkq, <- Hsq.
    destruct (sp_kept _ _ Hs q qr' Hq Hf') as [(e & He & Hpe)|?]; [|by right].
    destruct (settle_entries c p r _ e (sp_ok _ _ Hs) He) as [He'|(pr & Hpr & Hfp)]; [left; eauto|].
    exfalso. apply Hf. rewrite Hpe in Hpr. congruence.
  - intros q1 q2 r1 r2 Hlt H1 H2 Hk Hf.
    apply settle_promises in H1 as (r1' & H1 & Hk1 & <- & Hs1), H2 as (r2' & H2 & Hk2 & <- & _).
    apply (sp_apart _ _ Hs q1 q2); [done..|congruence|naive_solver].
Qed.

Lemma cache_run_spaced os c last :
  spaced c last -> monotone last os -> exists now, spaced (cache_run c os) now.
Proof.
  revert c last. induction os as [|o os IH]; intros c last Hs Hm; [by exists last|].
  destruct o as [key now|p r]; cbn in Hm.
  - destruct Hm as [Hle Hm]. apply (IH _ now); [|done].
    by apply getOrLoad_spaced, (spaced_later _ last).
  - apply (IH _ last); [|done]. by apply settle_spaced.
Qed.

(** Also (A key is loaded once per lifetime): as long as the clock does not go
    back, two loads of one key, the first of which has not failed, start at
    least a lifetime apart, however calls and settlements interleave. *)
Theorem loads_a_lifetime_apart ttl t0 os p q pr qr :
  monotone t0 os ->
  let c := cache_run (new_TtlCache ttl) os in
  promises c !! p = Some pr -> promises c !! q = Some qr -> (p < q)%nat ->
  p_key pr = p_key qr -> ~ failed pr -> started pr + ttl <= started qr.
Proof.
  intros Hm c Hp Hq Hlt Hk Hf. destruct (cache_run_spaced os (new_TtlCache ttl) t0) as [now Hs]; [|done|].
  - split; [apply new_ok|by intros ? ? ?..].
  - rewrite <- (cache_run_ttl os (new_TtlCache ttl)) at 1. by apply (sp_apart _ _ Hs p q).
Qed.

(** ** One call at a time

    The cache of a container that handles one event at a time and awaits the
    load: values with the time they expire at. *)
#[local] Notation Memo := (gmap string (T * Z)).

Definition recall (m : Memo) (key : string) (now : Z) : option T :=
  match m !! key with Some (v, until) => if now <? until then Some v else None | None => None end.

Definition remember (ttl : Z) (m : Memo) (key : string) (now : Z) (r : result E T) : Memo :=
  match r with Ok v => <[key := (v, now + ttl)]> m | Throw _ => delete key m end.

(** [await cache.getOrLoad(key, loader)] when the loader would settle with
    [r], with no other call before it settles. *)
Definition awaited (c : TtlCache) (key : string) (now : Z) (r : result E T) : TtlCache * option (result E T) :=
  let '(c1, p) := getOrLoad c key now in
  let c2 := settle c1 p r in
  (c2, match promises c2 !! p with Some {| p_state := settled r' |} => Some r' | _ => None end).

Definition memoised (m : Memo) (ttl : Z) (key : string) (now : Z) (r : result E T) : Memo * result E T :=
  match recall m key now with
  | Some v => (m, Ok v)
  | None => (remember ttl m key now r, r)
  end.

(** Between awaited calls every entry's promise has its value. *)
Definition agrees (c : TtlCache) (m : Memo) : Prop :=
  cache_ok c /\
  forall key, match entries c !! key, m !! key with
              | Some e, Some (v, until) =>
                  until = expiresAt e /\ exists pr, promises c !! promise e = Some pr /\ p_state pr = settled (Ok v)
              | None, None => True
              | _, _ => False
              end.

Lemma getOrLoad_miss c key now :
  (forall e, entries c !! key = Some e -> expiresAt e <= now) ->
  getOrLoad c key now =
    ({| ttlMs := ttlMs c;
        entries := <[key := {| promise := length (promises c); expiresAt := now + ttlMs c |}]> (entries c);
        promises := promises c ++ [{| p_key := key; started := now; p_state := pending |}] |},
     length (promises c)).
Proof.
  intros Hx. destruct (getOrLoad_cases c key now) as [(e & He & Hlt & _)|[_ ->]]; [|done].
  specialize (Hx e He). lia.
Qed.

(** A load settled at once. *)
Lemma settle_new ttl es (ps : list Promise) key now until r :
  settle {| ttlMs := ttl; entries := <[key := {| promise := length ps; expiresAt := until |}]> es;
            promises := ps ++ [{| p_key := key; started := now; p_state := pending |}] |} (length ps) r =
  {| ttlMs := ttl;
     entries := let es' := <[key := {| promise := length ps; expiresAt := until |}]> es in
                match r with Ok _ => es' | Throw _ => delete key es' end;
     promises := ps ++ [{| p_key := key; started := now; p_state := settled r |}] |}.
Proof.
  unfold settle. cbn [promises entries ttlMs]. rewrite lookup_app_r, Nat.sub_diag by lia. cbn [lookup list_lookup].
  rewrite insert_app_r_alt, Nat.sub_diag by lia. f_equal. destruct r; [done|].
  rewrite lookup_insert_eq. cbn. by rewrite decide_True.
Qed.

(** Also (Awaited calls see a map with expiry): for a caller that awaits each
    call, the promise cache is the memo table: same value or error, and the
    two keep agreeing, so a value is reused until its lifetime ends and an
    error is never reused. *)
Theorem awaited_refines c m key now r :
  agrees c m ->
  let '(c', out) := awaited c key now r in
  let '(m', v) := memoised m (ttlMs c) key now r in
  out = Some v /\ agrees c' m'.
Proof.
  intros [Hc Hm]. unfold awaited, memoised, recall.
  destruct (getOrLoad_cases c key now) as [(e & He & Hlt & ->)|[Hx ->]].
  - pose proof (Hm key) as Hk. rewrite He in Hk. destruct (m !! key) as [[v until]|]; [|done].
    destruct Hk as (-> & [k t st] & Hpr & Hst). cbn in Hst. subst st.
    rewrite (proj2 (Z.ltb_lt _ _) Hlt). unfold settle. by rewrite Hpr, Hpr.
  - assert (match m !! key with
            | Some (v, until) => if now <? until then Some v else None
            | None => None
            end = None) as ->.
    { pose proof (Hm key) as Hk. destruct (entries c !! key) as [e|], (m !! key) as [[v until]|]; [|done..].
      destruct Hk as [-> _]. by rewrite (proj2 (Z.ltb_ge _ _) (Hx e eq_refl)). }
    pose proof (getOrLoad_ok c key now Hc) as Hc1. rewrite (getOrLoad_miss c key now Hx) in Hc1. cbn [fst] in Hc1.
    pose proof (settle_ok _ (length (promises c)) r Hc1) as Hc2.
    rewrite settle_new in Hc2 |- *. cbn [promises].
    rewrite lookup_app_r, Nat.sub_diag by lia. cbn. split; [done|]. split; [done|].
    intros k. cbn [entries promises]. pose proof (Hm k) as Hk. destruct (decide (k = key)) as [->|Hne].
    + destruct r as [v|err]; cbv beta iota zeta delta [remember]; [|by rewrite lookup_delete_eq, lookup_delete_eq].
      rewrite lookup_insert_eq, lookup_insert_eq. split; [done|]. cbn [promise]. rewrite lookup_app_r, Nat.sub_diag by lia. cbn. eauto.
    + assert (remember (ttlMs c) m key now r !! k = m !! k) as ->.
      { destruct r; cbn; [by rewrite lookup_insert_ne|by rewrite lookup_delete_ne]. }
      assert (forall es : gmap string Entry, match r with Ok _ => es | Throw _ => delete key es end !! k = es !! k) as Hr.
      { intros es. destruct r; [done|by rewrite lookup_delete_ne]. }
      rewrite Hr, lookup_insert_ne by done. destruct (entries c !! k) as [e|], (m !! k) as [[v until]|]; try done.
      destruct Hk as (-> & pr & Hpr & Hst). split; [done|]. exists pr. split; [|done].
      rewrite lookup_app_l; [done|]. by apply lookup_lt_Some in Hpr.
Qed.
End cache.

(** ** A run: two calls share a load, which fails; a third call loads again *)

Definition shared_failure : list (@cache_op string string) :=
  [Get "a" 0; Get "a" 5; Settle 0 (Throw "down"); Get "a" 7; Settle 1 (Ok "row")].

Example shared_failure_promises :
  map (fun pr => (started pr, p_state pr)) (promises (cache_run (new_TtlCache 10) shared_failure)) =
    [(0, settled (Throw "down")); (7, settled (Ok "row"))].
Proof. vm_compute. reflexivity. Qed.

Lemma getOrLoad_live_witness :
  let c := cache_run (new_TtlCache 10) shared_failure in
  0 < 10 /\ let '(c', p) := getOrLoad c "a" 16 in
  exists pr, promises c' !! p = Some pr /\ p_key pr = "a" /\ ~ failed pr /\ 16 < started pr + 10 /\
    (c' = c \/ (p = length (promises c) /\ started pr = 16 /\ p_state pr = pending /\
                fst (getOrLoad c' "a" 16) = c' /\ snd (getOrLoad c' "a" 16) = p)).
Proof. split; [done|]. apply (getOrLoad_live 10 shared_failure "a" 16). done. Defined.

Lemma loads_a_lifetime_apart_witness :
  let os : list (@cache_op string string) := [Get "a" 0; Settle 0 (Ok "row"); Get "a" 9; Get "a" 12] in
  monotone 0 os /\ 0 + 10 <= 12.
Proof.
  split; [cbn; lia|].
  apply (loads_a_lifetime_apart 10 0 [Get "a" 0; Settle 0 (Ok "row"); Get "a" 9; Get "a" 12] 0 1
           {| p_key := "a"; started := 0; p_state := settled (E := string) (Ok "row") |}
           {| p_key := "a"; started := 12; p_state := pending |}).
  - cbn; lia.
  - vm_compute. reflexivity.
  - vm_compute. reflexivity.
  - lia.
  - reflexivity.
  - intros [e He]. discriminate He.
Defined.

Lemma awaited_refines_witness :
  agrees (T := string) (E := string) (new_TtlCache 10) ∅ /\
  let '(c', out) := awaited (new_TtlCache 10) "a" 3 (Ok "row") in
  let '(m', v) := memoised (E := string) ∅ 10 "a" 3 (Ok "row") in
  out = Some v /\ agrees c' m'.
Proof.
  assert (agrees (T := string) (E := string) (new_TtlCache 10) ∅) as Ha.
  { split; [apply new_ok|]. intros key. cbn. by rewrite !lookup_empty. }
  split; [exact Ha|]. exact (awaited_refines (new_TtlCache 10) ∅ "a" 3 (Ok "row") Ha).
Defined.
