(* ===== verification/Tenant.v ===== *)
(** Tenant identity and resolution:
    [packages/foundation/src/types/frozen/tenant.ts],
    [types/frozen/tenant-subdomain.ts] and
    [packages/foundation/src/tenant/strategies/*.ts]. *)

From S2P Require Import Prelude JsString Regex.
From Stdlib Require Import Ascii.

#[local] Open Scope string_scope.
#[local] Open Scope Z_scope.

(** ** TenantId *)

Definition TENANT_ID_MIN : nat := 1.
Definition TENANT_ID_MAX : nat := 256.

(** One character of the pattern: no white space, C0 control or DEL. *)
Definition tenant_id_char (c : ascii) : bool :=
  negb (is_space c || (code c <=? 31) || (code c =? 127)).

Definition TENANT_ID_PATTERN : re := plus (RCls tenant_id_char).

Inductive shape_failure := TooShort | TooLong | PatternMismatch.

Definition validateTenantIdShape (value : string) : option shape_failure :=
  if (String.length value <? TENANT_ID_MIN)%nat then Some TooShort
  else if (TENANT_ID_MAX <? String.length value)%nat then Some TooLong
  else if negb (re_match TENANT_ID_PATTERN value) then Some PatternMismatch
  else None.

Definition isTenantId (value : string) : bool :=
  match validateTenantIdShape value with None => true | Some _ => false end.

Definition tenantId (value : string) : result shape_failure string :=
  match validateTenantIdShape value with Some e => Throw e | None => Ok value end.

(** ** TenantSubdomain *)

Definition SUBDOMAIN_MIN : nat := 3.
Definition SUBDOMAIN_MAX : nat := 63.

Definition lower_alpha (c : ascii) : bool := in_range "a" "z" c.
Definition lower_alnum (c : ascii) : bool := lower_alpha c || is_digit c.
Definition label_char (c : ascii) : bool := lower_alnum c || Ascii.eqb c "-".

Definition TENANT_SUBDOMAIN_PATTERN : re :=
  (RCls lower_alpha ⋅ rep_between 1 61 (RCls label_char) ⋅ RCls lower_alnum)%re.

Definition validateTenantSubdomainShape (value : string) : option shape_failure :=
  if (String.length value <? SUBDOMAIN_MIN)%nat then Some TooShort
  else if (SUBDOMAIN_MAX <? String.length value)%nat then Some TooLong
  else if negb (re_match TENANT_SUBDOMAIN_PATTERN value) then Some PatternMismatch
  else None.

Definition isTenantSubdomain (value : string) : bool :=
  match validateTenantSubdomainShape value with None => true | Some _ => false end.

Definition tenantSubdomain (value : string) : result shape_failure string :=
  match validateTenantSubdomainShape value with Some e => Throw e | None => Ok value end.

(** ** Host names *)

(** [host.replace(/\.$/, "")]. *)
Definition strip_trailing_dot (s : string) : string :=
  if endsWith s "." then str_take (String.length s - 1) s else s.

(** [host.replace(/:\d+$/, "")]: only the last colon can start a match. *)
Fixpoint strip_port (s : string) : string :=
  match s with
  | EmptyString => ""
  | String.String c r =>
      if Ascii.eqb c ":" && non_empty r && str_all is_digit r then ""
      else String.String c (strip_port r)
  end.

Definition normalize_host (hostname : string) : string :=
  strip_port (strip_trailing_dot (toLowerCase hostname)).

(** ** Resolvers *)

Inductive resolver_error := TenantResolverError (hostname : string).

Inductive TenantResolverTrustClass := server_trust_anchored | untrusted.

#[export] Instance trust_class_eq_dec : EqDecision TenantResolverTrustClass.
Proof. solve_decision. Defined.

(** A resolver: its declared trust class, if any, and what [resolve] settles
    with, for a given host name. [Ok None] is [null]. *)
Record TenantResolver := {
  trustClass : option TenantResolverTrustClass;
  resolve : string -> result resolver_error (option string)
}.

Record SubdomainOptions := { baseDomain : string; reservedLabels : list string }.

Definition DEFAULT_RESERVED_LABELS : list string := ["www"].

Inductive config_error := EmptyBaseDomain | NoResolvers | MixedTrust.

Definition new_SubdomainTenantResolver (base : string) (reserved : option (list string)) :
    result config_error SubdomainOptions :=
  if (String.length base =? 0)%nat then Throw EmptyBaseDomain
  else Ok {| baseDomain := toLowerCase base;
             reservedLabels := map toLowerCase
               (match reserved with Some l => l | None => DEFAULT_RESERVED_LABELS end) |}.

Definition leftmost_label (candidate : string) : string :=
  match split "." candidate with l :: _ => l | [] => "" end.

Definition resolveSync (o : SubdomainOptions) (hostname : string) : option string :=
  let normalized := normalize_host hostname in
  if String.eqb normalized (baseDomain o) then None
  else
    let suffix := "." +:+ baseDomain o in
    if negb (endsWith normalized suffix) then None
    else
      let candidate := str_take (String.length normalized - String.length suffix) normalized in
      if (String.length candidate =? 0)%nat then None
      else if existsb (String.eqb (leftmost_label candidate)) (reservedLabels o) then None
      else match tenantId candidate with Ok t => Some t | Throw _ => None end.

Definition SubdomainTenantResolver (o : SubdomainOptions) : TenantResolver :=
  {| trustClass := Some server_trust_anchored; resolve h := Ok (resolveSync o h) |}.

(** [lookup] is the consumer's table: [Ok None] for [null], [Throw] for a
    rejected promise. *)
Definition custom_resolve (lookup : string -> result unit (option string)) (hostname : string) :
    result resolver_error (option string) :=
  let host := normalize_host hostname in
  if (String.length host =? 0)%nat then Ok None
  else match lookup host with
       | Throw _ => Throw (TenantResolverError host)
       | Ok None => Ok None
       | Ok (Some r) =>
           if isTenantId r then Ok (Some r)
           else match tenantId r with Ok t => Ok (Some t) | Throw _ => Ok None end
       end.

Definition CustomDomainTenantResolver (lookup : string -> result unit (option string)) : TenantResolver :=
  {| trustClass := Some server_trust_anchored; resolve := custom_resolve lookup |}.

Definition new_CompositeTenantResolver (resolvers : list TenantResolver) :
    result config_error (list TenantResolver) :=
  if (length resolvers =? 0)%nat then Throw NoResolvers
  else
    let has c := existsb (fun r => bool_decide (trustClass r = Some c)) resolvers in
    if has server_trust_anchored && has untrusted then Throw MixedTrust else Ok resolvers.

Fixpoint composite_resolve (resolvers : list TenantResolver) (hostname : string) :
    result resolver_error (option string) :=
  match resolvers with
  | [] => Ok None
  | r :: rest =>
      match resolve r hostname with
      | Throw e => Throw e
      | Ok (Some t) => Ok (Some t)
      | Ok None => composite_resolve rest hostname
      end
  end.

Definition resolveTenant (r : TenantResolver) (hostname : string) : result resolver_error (option string) :=
  resolve r hostname.

Example resolve_examples :
  let o := {| baseDomain := "myapp.com"; reservedLabels := ["www"] |} in
  map (resolveSync o) ["Acme.myapp.com:443"; "www.myapp.com"; "myapp.com."; "evil.com"; "a.b.myapp.com"; "evilmyapp.com"]
  = [Some "acme"; None; None; None; Some "a.b"; None].
Proof. vm_compute. reflexivity. Qed.

(** ** Lemmas *)

Lemma str_length_0 s : String.length s = 0%nat <-> s = "".
Proof. by destruct s. Qed.

Lemma isTenantId_spec s :
  isTenantId s = true <-> (1 <= String.length s <= 256)%nat /\ str_all tenant_id_char s = true.
Proof.
  unfold isTenantId, validateTenantIdShape, TENANT_ID_MIN, TENANT_ID_MAX, TENANT_ID_PATTERN.
  destruct (Nat.ltb_spec (String.length s) 1); [split; [done|lia]|].
  destruct (Nat.ltb_spec 256 (String.length s)); [split; [done|lia]|].
  rewrite match_plus_cls. assert (non_empty s = true) as -> by (destruct s; [simpl in *; lia|done]).
  cbn [andb]. destruct (str_all tenant_id_char s); cbn [negb]; [split; [|done]; intros _; split; [lia|done]|].
  split; [done|]. by intros [_ ?].
Qed.

Lemma tenantId_ok s t : tenantId s = Ok t <-> s = t /\ isTenantId s = true.
Proof. unfold tenantId, isTenantId. destruct (validateTenantIdShape s); naive_solver. Qed.

Lemma isTenantSubdomain_spec s :
  isTenantSubdomain s = true <->
  exists c body d, s = String.String c (body +:+ String.String d "") /\
    lower_alpha c = true /\ str_all label_char body = true /\ lower_alnum d = true /\
    (1 <= String.length body <= 61)%nat.
Proof.
  assert (re_match TENANT_SUBDOMAIN_PATTERN s = true <->
    exists c body d, s = String.String c (body +:+ String.String d "") /\
      lower_alpha c = true /\ str_all label_char body = true /\ lower_alnum d = true /\
      (1 <= String.length body <= 61)%nat) as Hre.
  { rewrite re_match_spec. unfold TENANT_SUBDOMAIN_PATTERN, rep_between. rewrite lang_cat.
    setoid_rewrite lang_cat. setoid_rewrite lang_cls. setoid_rewrite lang_cat. simpl rep. split.
    - intros (s1 & s2 & -> & (s3 & s4 & -> & (c & -> & Hc) & s5 & s6 & -> & H5 & H6) & d & -> & Hd).
      apply lang_cat in H5 as (s7 & s8 & -> & (e & -> & He)%lang_cls & ->%lang_eps).
      apply re_match_spec in H6. change (61 - 1)%nat with 60%nat in H6.
      rewrite match_rep_upto_cls in H6. apply andb_true_iff in H6 as [Hl%Nat.leb_le H6].
      exists c, (String.String e s6), d. split; [done|]. split; [done|].
      split; [simpl; by rewrite He|]. split; [done|]. simpl. lia.
    - intros (c & body & d & -> & Hc & Hb & Hd & Hl). destruct body as [|e body]; [simpl in Hl; lia|].
      cbn [str_all] in Hb. apply andb_true_iff in Hb as [He Hb].
      exists (String.String c (String.String e body)), (String.String d ""). split; [done|]. split; [|eauto].
      exists (String.String c ""), (String.String e body). split; [done|]. split; [eauto|].
      exists (String.String e ""), body. split; [done|]. split.
      + apply lang_cat. exists (String.String e ""), "". split; [done|]. split; [by constructor|constructor].
      + apply re_match_spec. change (61 - 1)%nat with 60%nat. rewrite match_rep_upto_cls.
        apply andb_true_iff. split; [apply Nat.leb_le; simpl in Hl; lia|done]. }
  unfold isTenantSubdomain, validateTenantSubdomainShape, SUBDOMAIN_MIN, SUBDOMAIN_MAX.
  destruct (Nat.ltb_spec (String.length s) 3).
  { split; [done|]. intros (c & body & d & -> & _ & _ & _ & Hl). simpl in H. rewrite str_length_app in H. simpl in H. lia. }
  destruct (Nat.ltb_spec 63 (String.length s)).
  { split; [done|]. intros (c & body & d & -> & _ & _ & _ & Hl). simpl in H0. rewrite str_length_app in H0. simpl in H0. lia. }
  rewrite <- Hre. by destruct (re_match _ s).
Qed.

Lemma resolveSync_iff o h t :
  resolveSync o h = Some t <->
  normalize_host h = t +:+ "." +:+ baseDomain o /\ isTenantId t = true /\
  leftmost_label t ∉ reservedLabels o.
Proof.
  unfold resolveSync. generalize (normalize_host h) as n. intros n.
  assert (forall u, existsb (String.eqb u) (reservedLabels o) = true <-> u ∈ reservedLabels o) as Hres.
  { intros u. rewrite existsb_exists_In. setoid_rewrite String.eqb_eq. naive_solver. }
  set (suf := "." +:+ baseDomain o).
  destruct (String.eqb_spec n (baseDomain o)) as [->|Hne].
  { split; [done|]. intros (E & Ht & _). exfalso.
    apply isTenantId_spec in Ht as [Hl _]. apply (f_equal String.length) in E.
    unfold suf in E. rewrite !str_length_app in E. simpl in E. lia. }
  destruct (endsWith n suf) eqn:He; simpl negb; cbn [negb].
  2:{ split; [done|]. intros (-> & _). assert (endsWith (t +:+ suf) suf = true) as H by (apply endsWith_spec; eauto).
      congruence. }
  apply endsWith_spec in He as [p ->].
  assert (str_take (String.length (p +:+ suf) - String.length suf) (p +:+ suf) = p) as ->.
  { rewrite str_length_app, Nat.add_sub. apply str_take_app. }
  assert (p +:+ suf = t +:+ suf <-> p = t) as Heq.
  { split; [|by intros ->]. intros E. assert (String.length p = String.length t) as El.
    { apply (f_equal String.length) in E. rewrite !str_length_app in E. lia. }
    rewrite <- (str_take_app p suf), E, El. apply str_take_app. }
  rewrite Heq. destruct (Nat.eqb_spec (String.length p) 0) as [H0|H0].
  { split; [done|]. intros (-> & [Hl _]%isTenantId_spec & _). lia. }
  destruct (existsb _ _) eqn:Hx.
  { split; [done|]. intros (-> & _ & Hn). by apply Hres in Hx. }
  assert (leftmost_label p ∉ reservedLabels o) as Hn by (rewrite <- Hres; congruence).
  unfold tenantId. unfold isTenantId. destruct (validateTenantIdShape p) eqn:Hv.
  - split; [done|]. intros (-> & Hv' & _). by rewrite Hv in Hv'.
  - split; [intros [= <-]; by rewrite Hv|]. by intros (-> & _).
Qed.

Lemma strip_port_app s t : char_in ":" s = false -> strip_port (s +:+ t) = s +:+ strip_port t.
Proof.
  unfold char_in. induction s as [|c s IH]; cbn [str_exists String.append strip_port]; [done|].
  intros [Hc Hs]%orb_false_iff. rewrite Ascii.eqb_sym in Hc. rewrite Hc. cbn [andb]. by rewrite IH.
Qed.

(** What a label character is not. *)
Lemma label_char_facts c :
  label_char c = true ->
  lower_char c = c /\ tenant_id_char c = true /\ Ascii.eqb ":" c = false /\ Ascii.eqb "." c = false.
Proof.
  intros H. pose (p c := negb (label_char c) || (Ascii.eqb (lower_char c) c && tenant_id_char c
    && negb (Ascii.eqb ":" c) && negb (Ascii.eqb "." c))).
  assert (p c = true) as Hp by (apply all_chars_spec; vm_compute; reflexivity).
  unfold p in Hp. rewrite H in Hp. cbn [negb orb] in Hp.
  apply andb_true_iff in Hp as [[[H1%Ascii.eqb_eq H2]%andb_true_iff H3%negb_true_iff]%andb_true_iff H4%negb_true_iff].
  done.
Qed.

Lemma subdomain_chars s :
  isTenantSubdomain s = true -> str_all label_char s = true /\ (3 <= String.length s <= 63)%nat.
Proof.
  intros (c & body & d & -> & Hc & Hb & Hd & Hl)%isTenantSubdomain_spec.
  cbn [str_all String.length]. rewrite str_all_app, str_length_app, Hb. cbn [str_all String.length].
  unfold label_char, lower_alnum in *. rewrite Hc. split; [|lia]. simpl. by rewrite Hd.
Qed.

Lemma no_char_in q s p : (forall c, p c = true -> Ascii.eqb q c = false) -> str_all p s = true -> char_in q s = false.
Proof. intros H Hs. unfold char_in. by apply (str_all_not_exists p). Qed.

Lemma endsWith_dot_app s t : t <> "" -> endsWith (s +:+ t) "." = endsWith t ".".
Proof.
  intros Ht. apply bool_eq_iff. rewrite !endsWith_spec. split.
  - intros [p E]. destruct (String.length t) as [|n] eqn:Hl; [by destruct t|].
    exists (str_take n t).
    assert (String.length s <= String.length p)%nat as Hsp.
    { apply (f_equal String.length) in E. rewrite !str_length_app in E. simpl in E. lia. }
    apply (f_equal (str_drop (String.length s))) in E. rewrite str_drop_app in E.
    rewrite <- (str_take_drop n t) at 1. f_equal.
    assert (str_drop (String.length s) (p +:+ ".") = str_drop (String.length s) p +:+ ".") as Hd.
    { clear -Hsp. revert p Hsp. induction s as [|c s IH]; intros p Hp; [by destruct p|].
      destruct p as [|d p]; simpl in *; [lia|]. apply IH. lia. }
    rewrite Hd in E. rewrite E. rewrite E, str_length_app in Hl. simpl in Hl.
    replace n with (String.length (str_drop (String.length s) p)) by lia. apply str_drop_app.
  - intros [p ->]. exists (s +:+ p). by rewrite str_app_assoc.
Qed.

(** A base domain in normal form: lower case, no trailing dot, no port. *)
Definition base_ok (base : string) : bool :=
  String.eqb (normalize_host base) base && non_empty base && negb (endsWith base ".").

Lemma label_tenant_id s : isTenantSubdomain s = true -> isTenantId s = true.
Proof.
  intros [Hc Hl]%subdomain_chars. apply isTenantId_spec. split; [lia|].
  eapply str_all_impl; [|exact Hc]. intros c. by apply label_char_facts.
Qed.

Lemma toLowerCase_length s : String.length (toLowerCase s) = String.length s.
Proof. unfold toLowerCase. induction s as [|c s IH]; simpl; [done|]. by rewrite IH. Qed.

Lemma strip_port_length s : (String.length (strip_port s) <= String.length s)%nat.
Proof. induction s as [|c s IH]; simpl; [done|]. destruct (_ && _); simpl; lia. Qed.

Lemma base_ok_spec base :
  base_ok base = true ->
  toLowerCase base = base /\ strip_port base = base /\ endsWith base "." = false /\ base <> "".
Proof.
  unfold base_ok. intros [[Hn%String.eqb_eq Hne]%andb_true_iff Hd%negb_true_iff]%andb_true_iff.
  assert (base <> "") as Hb by by destruct base.
  unfold normalize_host, strip_trailing_dot in Hn.
  pose proof (toLowerCase_length base) as Hl. pose proof (strip_port_length (toLowerCase base)) as Hs.
  destruct (endsWith (toLowerCase base) ".") eqn:He.
  - exfalso. apply endsWith_spec in He as [p Hp]. rewrite Hp in *.
    pose proof (strip_port_length (str_take (String.length (p +:+ ".") - 1) (p +:+ "."))) as Ht.
    rewrite Hn in Ht. rewrite str_length_app in *. simpl in *.
    replace (String.length p + 1 - 1)%nat with (String.length p) in Ht by lia. rewrite str_take_app in Ht. lia.
  - (* stripping a port only shortens, and the lengths agree *)
    assert (forall s, String.length (strip_port s) = String.length s -> strip_port s = s) as Heq.
    { clear. induction s as [|c s IH]; cbn [strip_port]; [done|]. destruct (_ && _); [done|].
      cbn [String.length]. intros [= E]. by rewrite IH. }
    assert (strip_port (toLowerCase base) = toLowerCase base) as E by (apply Heq; by rewrite Hn).
    rewrite E in Hn. rewrite Hn in E. done.
Qed.

Lemma normalize_site s base :
  isTenantSubdomain s = true -> base_ok base = true ->
  normalize_host (s +:+ "." +:+ base) = s +:+ "." +:+ base.
Proof.
  intros [Hc _]%subdomain_chars (Hlow & Hport & Hdot & Hne)%base_ok_spec.
  unfold normalize_host.
  assert (toLowerCase (s +:+ "." +:+ base) = s +:+ "." +:+ base) as ->.
  { unfold toLowerCase in *. rewrite str_map_app, (str_map_id lower_char label_char s); [|apply label_char_facts|done].
    f_equal. change (String.String "." (str_map lower_char base) = String.String "." base). by rewrite Hlow. }
  unfold strip_trailing_dot. rewrite endsWith_dot_app by done. rewrite (endsWith_dot_app "." base) by done.
  rewrite Hdot, strip_port_app; [|eapply no_char_in; [|exact Hc]; apply label_char_facts].
  f_equal. rewrite (strip_port_app "." base eq_refl). by rewrite Hport.
Qed.

(** @@ ([SubdomainTenantResolver]): a host resolves to [t] exactly when its
    normal form (lower case, without trailing dot and port) is [t] followed
    by a dot and the base domain, [t] is a valid tenant id, and the leftmost
    label of [t] is not reserved; so no host outside the base domain, and not
    the apex, ever resolves. The site host the admin Lambda gives a tenant
    resolves back to its subdomain. *)
Theorem subdomain_resolver_spec (o : SubdomainOptions) :
  (forall h t, resolve (SubdomainTenantResolver o) h = Ok (Some t) <->
     normalize_host h = t +:+ "." +:+ baseDomain o /\ isTenantId t = true /\
     leftmost_label t ∉ reservedLabels o) /\
  (base_ok (baseDomain o) = true -> forall s, isTenantSubdomain s = true -> s ∉ reservedLabels o ->
     resolve (SubdomainTenantResolver o) (s +:+ "." +:+ baseDomain o) = Ok (Some s)).
Proof.
  cbn [resolve SubdomainTenantResolver]. split.
  - intros h t. rewrite <- resolveSync_iff. split; congruence.
  - intros Hb s Hs Hr. f_equal. apply resolveSync_iff. split; [by apply normalize_site|].
    split; [by apply label_tenant_id|]. apply subdomain_chars in Hs as [Hc _].
    unfold leftmost_label. rewrite split_none; [done|].
    eapply no_char_in; [|exact Hc]. apply label_char_facts.
Qed.

Lemma composite_resolve_some rs h x :
  x <> Ok None ->
  composite_resolve rs h = x <->
  exists i r, rs !! i = Some r /\ resolve r h = x /\
    forall j r', (j < i)%nat -> rs !! j = Some r' -> resolve r' h = Ok None.
Proof.
  intros Hx. induction rs as [|r rs IH]; cbn [composite_resolve].
  - split; [congruence|]. intros (i & r & Hi & _). done.
  - destruct (resolve r h) as [[t|]|e] eqn:E.
    + split.
      * intros <-. exists 0%nat, r. split; [done|]. split; [done|]. intros j r' Hj. lia.
      * intros ([|i] & r' & Hi & Hr & Hj); simpl in Hi; [congruence|].
        rewrite (Hj 0%nat r) in E by (done || lia). done.
    + rewrite IH. split.
      * intros (i & r' & Hi & Hr & Hj). exists (S i), r'. split; [done|]. split; [done|].
        intros [|j] r'' Hl Hl'; simpl in Hl'; [congruence|]. apply (Hj j); [lia|done].
      * intros ([|i] & r' & Hi & Hr & Hj); simpl in Hi; [congruence|]. exists i, r'.
        split; [done|]. split; [done|]. intros j r'' Hl Hl'. apply (Hj (S j)); [lia|done].
    + split.
      * intros <-. exists 0%nat, r. split; [done|]. split; [done|]. intros j r' Hj. lia.
      * intros ([|i] & r' & Hi & Hr & Hj); simpl in Hi; [congruence|].
        rewrite (Hj 0%nat r) in E by (done || lia). done.
Qed.

(** @@ ([CompositeTenantResolver]): a composite is accepted exactly when it
    has a resolver and does not declare both trust classes, so a composite
    with a server-trust-anchored resolver has no untrusted one; resolution
    settles with the first answer that is not [null], and an error of one
    resolver ends it before any later, possibly less trusted, resolver is
    asked. *)
Theorem composite_resolver_spec (rs : list TenantResolver) :
  (new_CompositeTenantResolver rs = Ok rs <->
     rs <> [] /\ ~ ((exists r, r ∈ rs /\ trustClass r = Some server_trust_anchored) /\
                    (exists r, r ∈ rs /\ trustClass r = Some untrusted))) /\
  (forall h t, composite_resolve rs h = Ok (Some t) <->
     exists i r, rs !! i = Some r /\ resolve r h = Ok (Some t) /\
       forall j r', (j < i)%nat -> rs !! j = Some r' -> resolve r' h = Ok None) /\
  (forall h e, composite_resolve rs h = Throw e <->
     exists i r, rs !! i = Some r /\ resolve r h = Throw e /\
       forall j r', (j < i)%nat -> rs !! j = Some r' -> resolve r' h = Ok None).
Proof.
  split; [|split; intros; by apply composite_resolve_some].
  unfold new_CompositeTenantResolver. destruct rs as [|r rs]; [naive_solver|]. cbn [length Nat.eqb].
  assert (forall c, existsb (fun r => bool_decide (trustClass r = Some c)) (r :: rs) = true <->
                    exists x, x ∈ r :: rs /\ trustClass x = Some c) as Hc.
  { intros c. rewrite existsb_exists_In. by setoid_rewrite bool_decide_eq_true. }
  destruct (_ && _) eqn:E.
  - apply andb_true_iff in E as [H1%Hc H2%Hc]. split; [done|]. intros [_ Hn]. by destruct Hn.
  - split; [|done]. intros _. split; [done|]. intros [H1%Hc H2%Hc]. by rewrite H1, H2 in E.
Qed.

(** Whatever a bundled resolver answers is a valid tenant id. *)
Lemma custom_resolve_valid lookup h t :
  custom_resolve lookup h = Ok (Some t) -> isTenantId t = true.
Proof.
  unfold custom_resolve. destruct (_ =? 0)%nat; [done|]. destruct (lookup _) as [[r|]|]; try done.
  destruct (isTenantId r) eqn:E; [by intros [= <-]|]. destruct (tenantId r) eqn:E2; [|done].
  intros [= <-]. apply tenantId_ok in E2 as [-> ?]. congruence.
Qed.
