(* ===== verification/Region.v ===== *)
(** Regions: foundation [region/types.ts], [region/registry.ts],
    [region/detect.ts], [region/residency.ts], [region/config.ts].

    The registry is a record; a request is its header lookup; a residency
    policy is the caller's. *)

From S2P Require Import Prelude JsString Regex Tenant.
From Stdlib Require Import Ascii.

#[local] Open Scope string_scope.
#[local] Open Scope Z_scope.

Module Region.

(** ** Formats *)

(** [RegionFormatSchema]. *)
Definition region_char (c : ascii) : bool := is_alnum c || Ascii.eqb c "-".
Definition REGION_RE : re := plus (RCls region_char).
Definition RegionFormat (value : string) : bool :=
  (2 <=? String.length value)%nat && (String.length value <=? 32)%nat && re_match REGION_RE value.

Inductive region_error := AllowedEmpty | BadFormat (value : string) | BadDefault (value : string) | NotAllowed (value : string).

Definition region (value : string) : result region_error string :=
  if RegionFormat value then Ok value else Throw (BadFormat value).
Definition regionOrNull (value : string) : option string := if RegionFormat value then Some value else None.

(** ** registry.ts *)

Record RegionRegistry := { allowed : list string; getDefault : string; countryMap : list (string * string) }.

Fixpoint first_bad (l : list string) : option string :=
  match l with [] => None | r :: rest => if RegionFormat r then first_bad rest else Some r end.

Definition createRegistry (allowed_ : list string) (default_ : string) (countryMapping : option (list (string * string))) :
    result region_error RegionRegistry :=
  match allowed_ with
  | [] => Throw AllowedEmpty
  | _ =>
      match first_bad allowed_ with
      | Some r => Throw (BadFormat r)
      | None =>
          if negb (RegionFormat default_) then Throw (BadDefault default_)
          else if negb (existsb (String.eqb default_) allowed_) then Throw (NotAllowed default_)
          else Ok {| allowed := allowed_; getDefault := default_; countryMap := default [] countryMapping |}
      end
  end.

Definition parse (r : RegionRegistry) (value : string) : result region_error string :=
  if negb (RegionFormat value) then Throw (BadFormat value)
  else if negb (existsb (String.eqb value) (allowed r)) then Throw (NotAllowed value)
  else Ok value.

Definition parseOrNull (r : RegionRegistry) (value : string) : option string :=
  match regionOrNull value with
  | None => None
  | Some _ => if existsb (String.eqb value) (allowed r) then Some value else None
  end.

(** [toUpperCase]; the capitals of code 181 and code 255 are beyond 255, and
    these two are kept. *)
Fixpoint toUpperCase (s : string) : string :=
  match s with
  | EmptyString => ""
  | String.String c r =>
      if in_range "a" "z" c || ((224 <=? code c) && (code c <=? 254) && negb (code c =? 247))
      then String.String (ascii_of_N (Z.to_N (code c - 32))) (toUpperCase r)
      else if code c =? 223 then "SS" +:+ toUpperCase r
      else String.String c (toUpperCase r)
  end.

Fixpoint lookup_key (key : string) (l : list (string * string)) : option string :=
  match l with [] => None | (k, v) :: r => if String.eqb k key then Some v else lookup_key key r end.

Definition countryToRegion (r : RegionRegistry) (country : string) : option string :=
  match lookup_key (toUpperCase country) (countryMap r) with
  | None => None
  | Some mapped => parseOrNull r mapped
  end.

(** ** detect.ts *)

Inductive RegionSource := cdn_geo_header | accept_language | default_source.

Definition CDN_GEO_HEADERS : list string := ["CloudFront-Viewer-Country"; "CF-IPCountry"].
Definition UNKNOWN_COUNTRY_CODES : list string := ["XX"; "T1"; "ZZ"; ""].

Definition langToCountry : list (string * string) :=
  [("de", "DE"); ("fr", "FR"); ("es", "ES"); ("it", "IT"); ("pt", "PT"); ("nl", "NL"); ("ja", "JP"); ("ko", "KR")].

(** [part.split(";")[0]?.trim().toLowerCase() ?? ""]. *)
Definition language (part : string) : string :=
  match split ";" part with x :: _ => toLowerCase (trim x) | [] => "" end.

Definition languages (acceptLanguage : string) : list string := filter_non_empty (map language (split "," acceptLanguage)).

Fixpoint first_some {A B} (f : A -> option B) (l : list A) : option B :=
  match l with [] => None | x :: r => match f x with Some y => Some y | None => first_some f r end end.

(** One turn of the loop. *)
Definition region_of_language (registry : RegionRegistry) (lang : string) : option string :=
  let chinese :=
    if startsWith lang "zh-cn" || startsWith lang "zh-hans" || startsWith lang "zh"
    then countryToRegion registry "CN" else None in
  match chinese with
  | Some r => Some r
  | None =>
      match lookup_key (str_take 2 lang) langToCountry with
      | Some country => countryToRegion registry country
      | None => None
      end
  end.

Definition regionFromAcceptLanguage (acceptLanguage : string) (registry : RegionRegistry) : option string :=
  first_some (region_of_language registry) (languages acceptLanguage).

Section detector.
(** [request.headers.get]. *)
Context (headers : string -> option string).

Definition region_of_header (registry : RegionRegistry) (header : string) : option string :=
  match headers header with
  | None => None
  | Some value => if existsb (String.eqb value) UNKNOWN_COUNTRY_CODES then None else countryToRegion registry value
  end.

Definition trySource (registry : RegionRegistry) (source : RegionSource) : option string :=
  match source with
  | cdn_geo_header => first_some (region_of_header registry) CDN_GEO_HEADERS
  | accept_language =>
      match headers "Accept-Language" with
      | None => None
      | Some al => if String.eqb al "" then None else regionFromAcceptLanguage al registry
      end
  | default_source => Some (getDefault registry)
  end.

Definition fallback_order (o : option (list RegionSource)) : list RegionSource :=
  default [cdn_geo_header; accept_language; default_source] o.

Definition detectSync (registry : RegionRegistry) (fallbackOrder : option (list RegionSource)) : string :=
  match first_some (trySource registry) (fallback_order fallbackOrder) with
  | Some r => r
  | None => getDefault registry
  end.

(** [policy] is a residency policy, which may reject. *)
Definition detect {E} (registry : RegionRegistry) (fallbackOrder : option (list RegionSource))
    (policy : option (string -> result E (option string))) (tenantId : option string) : result E string :=
  let syncRegion := detectSync registry fallbackOrder in
  match tenantId, policy with
  | Some t, Some p => (let* residency := p t in Ok (default syncRegion residency))%js
  | _, _ => Ok syncRegion
  end.

Definition detectRegion (registry : RegionRegistry) : string := detectSync registry None.
End detector.

(** ** residency.ts *)

(** What a property lookup on an object literal gives: an own value, a member
    of [Object.prototype], or nothing. *)
Inductive property := Own (s : string) | Inherited.

Definition prototype_members : list string :=
  ["constructor"; "toString"; "valueOf"; "toLocaleString"; "hasOwnProperty"; "isPrototypeOf"; "propertyIsEnumerable";
   "__proto__"; "__defineGetter__"; "__defineSetter__"; "__lookupGetter__"; "__lookupSetter__"].

Definition object_get (l : list (string * string)) (key : string) : option property :=
  match lookup_key key l with
  | Some v => Some (Own v)
  | None => if existsb (String.eqb key) prototype_members then Some Inherited else None
  end.

(** [mapping[tenantId] ?? null]. *)
Definition getResidencyRegionForTenant (tenantId : string) (mapping : list (string * string)) : option property :=
  object_get mapping tenantId.

(** The cache of [CachedResidencyPolicy]: the region and when it expires. *)
#[global] Notation ResidencyCache := (gmap string (option string * Z)).

(** [getResidencyRegion] up to its call of the inner policy, and after it. *)
Definition cached_hit (c : ResidencyCache) (t : string) (now : Z) : option (option string) :=
  match c !! t with Some (r, expires) => if now <? expires then Some r else None | None => None end.

Definition cached_store (ttlMs : Z) (c : ResidencyCache) (t : string) (r : option string) (now : Z) : ResidencyCache :=
  <[t := (r, now + ttlMs)]> c.

(** ** config.ts *)

(** [new Map(entries)]: a later configuration of a region replaces an earlier
    one. *)
Fixpoint configs {A} (l : list (string * A)) : gmap string A :=
  match l with [] => ∅ | (r, c) :: rest => match configs rest !! r with Some _ => configs rest | None => <[r := c]> (configs rest) end end.

Definition config_get {A} (m : gmap string A) (r : string) : option A := m !! r.

(** ** The region is always one of the deployment's *)

Definition in_registry (r : RegionRegistry) (v : string) : Prop := In v (allowed r) /\ RegionFormat v = true.

Lemma existsb_allowed v l : existsb (String.eqb v) l = true <-> In v l.
Proof.
  rewrite existsb_exists. split; [intros (m & Hm & ->%String.eqb_eq); done|]. intros Hn. exists v. by rewrite String.eqb_refl.
Qed.

(** Also (The two parsers agree): on every text, [parse] gives a region exactly
    when [parseOrNull] gives it, and that is when the text is well formed and in
    the list; otherwise [parse] says which of the two fails. *)
Theorem parse_iff r v :
  match parse r v with
  | Ok x => x = v /\ parseOrNull r v = Some v /\ in_registry r v
  | Throw (BadFormat x) => x = v /\ parseOrNull r v = None /\ RegionFormat v = false
  | Throw (NotAllowed x) => x = v /\ parseOrNull r v = None /\ RegionFormat v = true /\ ~ In v (allowed r)
  | Throw _ => False
  end.
Proof.
  unfold parse, parseOrNull, regionOrNull, in_registry. destruct (RegionFormat v) eqn:Hf; [|done]. cbn [negb].
  destruct (existsb (String.eqb v) (allowed r)) eqn:He; cbn [negb].
  - apply existsb_allowed in He. done.
  - split; [done|]. split; [done|]. split; [done|]. intros Hin%existsb_allowed. congruence.
Qed.

Lemma parseOrNull_in r v x : parseOrNull r v = Some x -> in_registry r x.
Proof.
  pose proof (parse_iff r v) as Hp. destruct (parse r v) as [y|e].
  - destruct Hp as (-> & -> & Hin). by intros [= <-].
  - destruct e as [|w|w|w]; [done| |done|]; by destruct Hp as (_ & -> & _).
Qed.

Lemma countryToRegion_in r c x : countryToRegion r c = Some x -> in_registry r x.
Proof. unfold countryToRegion. destruct (lookup_key _ _); [apply parseOrNull_in|done]. Qed.

Lemma first_some_P {A B} (P : B -> Prop) (f : A -> option B) l y :
  (forall x y, f x = Some y -> P y) -> first_some f l = Some y -> P y.
Proof.
  intros Hf. induction l as [|x l IH]; [done|]. cbn. destruct (f x) as [z|] eqn:E; [|done]. intros [= <-]. by eapply Hf.
Qed.

Lemma createRegistry_default a d m r : createRegistry a d m = Ok r ->
  in_registry r (getDefault r) /\ Forall (fun v => RegionFormat v = true) (allowed r).
Proof.
  unfold createRegistry. destruct a as [|x l] eqn:Ha; [done|]. rewrite <- Ha. destruct (first_bad a) eqn:Hb; [done|].
  destruct (RegionFormat d) eqn:Hd; [|done]. destruct (existsb (String.eqb d) a) eqn:He; [|done]. intros [= <-].
  split; [split; [by apply existsb_allowed|done]|]. cbn. clear -Hb. induction a as [|y l IH]; [done|]. cbn in Hb.
  destruct (RegionFormat y) eqn:E; [|done]. constructor; [done|by apply IH].
Qed.

Lemma trySource_in headers r s x : in_registry r (getDefault r) -> trySource headers r s = Some x -> in_registry r x.
Proof.
  intros Hd. destruct s; cbn [trySource].
  - apply first_some_P. intros h y. unfold region_of_header. destruct (headers h); [|done]. destruct (existsb _ _); [done|].
    apply countryToRegion_in.
  - destruct (headers "Accept-Language") as [al|]; [|done]. destruct (String.eqb al ""); [done|].
    apply first_some_P. intros l y. unfold region_of_language.
    destruct (if _ || _ || _ then _ else _) as [z|] eqn:E.
    + intros [= <-]. destruct (_ || _ || _) in E; [|done]. by eapply countryToRegion_in.
    + destruct (lookup_key _ langToCountry); [apply countryToRegion_in|done].
  - by intros [= <-].
Qed.

(** Also (Detection stays in the list): whatever the headers, the country map and
    the order of the sources, a registry that could be built detects a
    well-formed region of its list; with a tenant and a residency policy the
    policy's region, if it has one, replaces it, and an error of the policy is
    the only one. *)
Theorem detect_allowed {E} headers a d m r order (policy : option (string -> result E (option string))) tenant :
  createRegistry a d m = Ok r ->
  in_registry r (detectSync headers r order) /\
  match detect headers r order policy tenant with
  | Ok x => x = detectSync headers r order \/ exists p t, policy = Some p /\ tenant = Some t /\ p t = Ok (Some x)
  | Throw e => exists p t, policy = Some p /\ tenant = Some t /\ p t = Throw e
  end.
Proof.
  intros Hr. apply createRegistry_default in Hr as [Hd _]. split.
  - unfold detectSync. destruct (first_some _ _) as [x|] eqn:Hx; [|done].
    eapply (first_some_P (in_registry r) (trySource headers r)); [|exact Hx]. intros s y. by apply trySource_in.
  - unfold detect. destruct tenant as [t|]; [|by left]. destruct policy as [p|]; [|by left].
    destruct (p t) as [[x|]|e] eqn:Hp; cbn; [right; by exists p, t|by left|by exists p, t].
Qed.

(** ** The cache answers what the policy said, no longer than its time *)

(** Calls that hit, and answers of the policy, in the order in which they
    happen. *)
Inductive residency_event := Hit (t : string) (r : option string) (now : Z) | Settled (t : string) (r : option string) (now : Z).

Inductive residency_run (ttl : Z) : ResidencyCache -> list residency_event -> Prop :=
| run_start : residency_run ttl ∅ []
| run_hit c log t r now : residency_run ttl c log -> cached_hit c t now = Some r -> residency_run ttl c (Hit t r now :: log)
| run_settle c log t r now : residency_run ttl c log ->
    residency_run ttl (cached_store ttl c t r now) (Settled t r now :: log).

(** Also (A residency answer is the policy's, and fresh): however calls and the
    policy's answers interleave, an answer from the cache was given by the
    policy for that tenant less than a lifetime before, and no later answer had
    come by then. *)
Theorem residency_fresh ttl c log t r now :
  residency_run ttl c log -> cached_hit c t now = Some r ->
  exists at_ newer older, log = (newer ++ Settled t r at_ :: older)%list /\ now < at_ + ttl /\
    Forall (fun e => match e with Settled u _ _ => u <> t | Hit _ _ _ => True end) newer.
Proof.
  intros Hrun Hhit. unfold cached_hit in Hhit. destruct (c !! t) as [[r0 expires]|] eqn:Hc; [|done].
  destruct (Z.ltb_spec now expires) as [Hlt|]; [|done]. injection Hhit as ->.
  assert (exists at_ newer older, log = (newer ++ Settled t r at_ :: older)%list /\ expires = at_ + ttl /\
    Forall (fun e => match e with Settled u _ _ => u <> t | Hit _ _ _ => True end) newer) as (at_ & newer & older & -> & -> & Hn).
  { clear Hlt. revert Hc. induction Hrun as [|c log u s n Hrun IH Hh|c log u s n Hrun IH]; intros Hc.
    - done.
    - destruct (IH Hc) as (at_ & newer & older & -> & He & Hn). exists at_, (Hit u s n :: newer), older. split; [done|].
      split; [done|]. by constructor.
    - unfold cached_store in Hc. destruct (decide (u = t)) as [->|Hne].
      + rewrite lookup_insert_eq in Hc. injection Hc as -> <-. by exists n, [], log.
      + rewrite lookup_insert_ne in Hc by done. destruct (IH Hc) as (at_ & newer & older & -> & He & Hn).
        exists at_, (Settled u s n :: newer), older. split; [done|]. split; [done|]. by constructor. }
  by exists at_, newer, older.
Qed.

(** ** Runs *)

#[local] Definition regions : RegionRegistry :=
  {| allowed := ["EU"; "US"; "CN"]; getDefault := "US"; countryMap := [("DE", "EU"); ("CN", "CN"); ("FR", "XX9")] |}.

#[local] Definition request (l : list (string * string)) (h : string) : option string := lookup_key h l.

Example detections :
  createRegistry ["EU"; "US"; "CN"] "US" (Some [("DE", "EU"); ("CN", "CN"); ("FR", "XX9")]) = Ok regions /\
  detectRegion (request [("CF-IPCountry", "de")]) regions = "EU" /\
  detectRegion (request [("CF-IPCountry", "T1"); ("Accept-Language", "fr, de;q=0.5")]) regions = "EU" /\
  detectRegion (request []) regions = "US" /\
  detectSync (request [("CF-IPCountry", "de")]) regions (Some [accept_language]) = "US".
Proof. vm_compute. repeat split. Qed.

Lemma detect_allowed_witness : In (detectRegion (request [("CF-IPCountry", "de")]) regions) (allowed regions).
Proof.
  exact (proj1 (proj1 (detect_allowed (E := unit) (request [("CF-IPCountry", "de")]) ["EU"; "US"; "CN"] "US"
    (Some [("DE", "EU"); ("CN", "CN"); ("FR", "XX9")]) regions None None None eq_refl))).
Defined.

Lemma residency_fresh_witness :
  exists at_ newer older, [Settled "acme" (Some "EU") 5] = (newer ++ Settled "acme" (Some "EU") at_ :: older)%list /\ 64 < at_ + 60.
Proof.
  destruct (residency_fresh 60 (cached_store 60 ∅ "acme" (Some "EU") 5) [Settled "acme" (Some "EU") 5] "acme" (Some "EU") 64)
    as (at_ & newer & older & He & Hlt & _); [apply run_settle, run_start|reflexivity|].
  exists at_, newer, older. split; [exact He|exact Hlt].
Defined.

(** Every Chinese tag is taken for mainland China, not only the two the comment
    names. *)
Lemma traditional_chinese_goes_to_cn :
  detectRegion (request [("Accept-Language", "zh-TW")]) regions = "CN" /\
  detectRegion (request [("Accept-Language", "zh-Hant-HK")]) regions = "CN".
Proof. vm_compute. split; reflexivity. Qed.

(** A tenant called [constructor] is a valid tenant, and its residency in any
    mapping that does not name it is a function of [Object.prototype]. *)
Lemma constructor_has_a_residency :
  isTenantId "constructor" = true /\ getResidencyRegionForTenant "constructor" [("acme", "EU")] = Some Inherited.
Proof. vm_compute. split; reflexivity. Qed.
End Region.
