(* ===== verification/FeatureToggles.v ===== *)
(** Feature toggles: foundation [feature-toggles/store.ts],
    [feature-toggles/memory-store.ts] and [feature-toggles/prisma.ts].

    The Prisma store is its cache and what it does with the answers of the
    client; between a call and its answer anything may happen. *)

From stdpp Require Import sorting.
From S2P Require Import Prelude JsString.

#[local] Open Scope string_scope.
#[local] Open Scope Z_scope.

Module FeatureToggles.

(** ** store.ts *)

Record FeatureToggle := {
  key : string;
  enabled : bool;
  changedAt : option Z;
  changedBy : option string;
  description : option string
}.

Record SetToggleInput := { i_key : string; i_enabled : bool; i_changedBy : string; i_description : option string }.

Record FeatureToggleStoreOptions := { o_cacheTtlMs : option Z; o_cacheDisabled : option bool }.

(** ** memory-store.ts *)

#[global] Notation Toggles := (gmap string FeatureToggle).

(** The seed, in the order of its entries. *)
Definition seed (initial : list (string * bool)) : Toggles :=
  fold_left (fun m e => <[fst e := {| key := fst e; enabled := snd e; changedAt := Some 0; changedBy := Some "seed";
                                      description := None |}]> m) initial ∅.

Definition memory_isEnabled (m : Toggles) (k : string) : bool := match m !! k with Some t => enabled t | None => false end.
Definition memory_get (m : Toggles) (k : string) : option FeatureToggle := m !! k.

Section sorting.
(** [String.prototype.localeCompare], as of the runtime's locale. *)
Context (localeCompare : string -> string -> Z).

Definition key_le (a b : FeatureToggle) : Prop := localeCompare (key a) (key b) <= 0.

#[export] Instance key_le_dec : RelDecision key_le.
Proof. intros a b. apply Z_le_dec. Defined.

(** Keys that compare as equal come in the order of their insertion, which a
    [gmap] does not keep. *)
Definition memory_list (m : Toggles) : list FeatureToggle := merge_sort key_le (map snd (map_to_list m)).
End sorting.

Definition memory_set (m : Toggles) (input : SetToggleInput) (now : Z) : Toggles * (option FeatureToggle * FeatureToggle) :=
  let previous := m !! i_key input in
  let current := {| key := i_key input; enabled := i_enabled input; changedAt := Some now;
                    changedBy := Some (i_changedBy input);
                    description := match i_description input with Some d => Some d | None => previous ≫= description end |} in
  (<[i_key input := current]> m, (previous, current)).

Definition memory_delete (m : Toggles) (k : string) : Toggles := delete k m.

(** ** prisma.ts *)

Definition DEFAULT_CACHE_TTL_MS : Z := 60000.

Record Row := {
  r_key : string;
  r_enabled : bool;
  r_changedAt : Z;
  r_changedBy : option string;
  r_description : option string
}.

(** What is thrown: whether it is an [Error], its code and its message. *)
Record prisma_error := { is_error : bool; error_code : option string; message : string }.

Definition isTableMissingError (e : prisma_error) : bool :=
  is_error e &&
  (match error_code e with Some c => String.eqb c "P2021" | None => false end || includes (message e) "does not exist").

Definition toFeatureToggle (row : Row) : FeatureToggle :=
  {| key := r_key row; enabled := r_enabled row; changedAt := Some (r_changedAt row); changedBy := r_changedBy row;
     description := r_description row |}.

Inductive log_line := TableMissing | ReadFailed.

(** The cache: value and expiry. *)
Record PrismaStore := { cacheTtlMs : Z; cacheDisabled : bool; cache : gmap string (bool * Z) }.

Definition createPrismaStore (o : FeatureToggleStoreOptions) : PrismaStore :=
  {| cacheTtlMs := default DEFAULT_CACHE_TTL_MS (o_cacheTtlMs o); cacheDisabled := default false (o_cacheDisabled o); cache := ∅ |}.

Definition with_cache (s : PrismaStore) (c : gmap string (bool * Z)) : PrismaStore :=
  {| cacheTtlMs := cacheTtlMs s; cacheDisabled := cacheDisabled s; cache := c |}.

Definition log_of (e : prisma_error) : log_line := if isTableMissingError e then TableMissing else ReadFailed.

(** [isEnabled] up to [findUnique], and from its answer on. *)
Definition isEnabled_cached (s : PrismaStore) (k : string) (now : Z) : option bool :=
  if cacheDisabled s then None
  else match cache s !! k with Some (v, expires) => if now <? expires then Some v else None | None => None end.

Definition isEnabled_answer (s : PrismaStore) (k : string) (r : result prisma_error (option Row)) (now : Z) :
    PrismaStore * bool * list log_line :=
  match r with
  | Ok row =>
      let value := match row with Some row => r_enabled row | None => false end in
      (if cacheDisabled s then s else with_cache s (<[k := (value, now + cacheTtlMs s)]> (cache s)), value, [])
  | Throw e => (s, false, [log_of e])
  end.

Definition get_answer (r : result prisma_error (option Row)) : option FeatureToggle * list log_line :=
  match r with Ok row => (toFeatureToggle <$> row, []) | Throw e => (None, [log_of e]) end.

Definition list_answer (r : result prisma_error (list Row)) : list FeatureToggle * list log_line :=
  match r with Ok rows => (map toFeatureToggle rows, []) | Throw e => ([], [log_of e]) end.

(** [set] from the answers of [findUnique] and [upsert] on. *)
Definition set_answer (s : PrismaStore) (input : SetToggleInput) (found : result prisma_error (option Row))
    (upserted : result prisma_error Row) : PrismaStore * result prisma_error (option FeatureToggle * FeatureToggle) :=
  let previous := fst (get_answer found) in
  match upserted with
  | Throw e => (s, Throw e)
  | Ok row => (with_cache s (delete (i_key input) (cache s)), Ok (previous, toFeatureToggle row))
  end.

Definition delete_answer (s : PrismaStore) (k : string) (r : result prisma_error unit) : PrismaStore * result prisma_error unit :=
  (with_cache s (delete k (cache s)),
   match r with
   | Ok _ => Ok tt
   | Throw e => match error_code e with Some c => if String.eqb c "P2025" then Ok tt else Throw e | None => Throw e end
   end).

(** What [set] asks of [upsert]: its update and its create are the same. *)
Record UpsertArgs := { u_key : string; u_enabled : bool; u_changedBy : string; u_description : option string }.

Definition upsert_args (input : SetToggleInput) : UpsertArgs :=
  {| u_key := i_key input; u_enabled := i_enabled input; u_changedBy := i_changedBy input; u_description := i_description input |}.

(** ** A table that answers

    Rows by their key, as the client documents its calls. The time of a change
    is the database's own. *)

#[global] Notation Table := (gmap string Row).

(** An omitted description is kept. *)
Definition upsert (t : Table) (args : UpsertArgs) (at_ : Z) : Row :=
  {| r_key := u_key args; r_enabled := u_enabled args; r_changedAt := at_; r_changedBy := Some (u_changedBy args);
     r_description := match u_description args with
                      | Some d => Some d
                      | None => t !! u_key args ≫= r_description
                      end |}.

Definition not_found : prisma_error := {| is_error := true; error_code := Some "P2025"; message := "" |}.

(** The operations on a table that answers: [isEnabled] with its two clock
    readings, [set] with the time the database gives to the row. *)
Definition prisma_isEnabled (s : PrismaStore) (t : Table) (k : string) (asked answered : Z) : PrismaStore * bool :=
  match isEnabled_cached s k asked with
  | Some v => (s, v)
  | None => fst (isEnabled_answer s k (Ok (t !! k)) answered)
  end.

Definition prisma_set (s : PrismaStore) (t : Table) (input : SetToggleInput) (at_ : Z) :
    PrismaStore * Table * result prisma_error (option FeatureToggle * FeatureToggle) :=
  let row := upsert t (upsert_args input) at_ in
  let '(s', r) := set_answer s input (Ok (t !! i_key input)) (Ok row) in
  (s', <[u_key (upsert_args input) := row]> t, r).

Definition prisma_delete (s : PrismaStore) (t : Table) (k : string) : PrismaStore * Table * result prisma_error unit :=
  let '(s', r) := delete_answer s k (match t !! k with Some _ => Ok tt | None => Throw not_found end) in
  (s', delete k t, r).

(** ** Alone on its table, the store is the in-memory one *)

(** A toggle but for the time of its change. *)
Definition untimed (f : FeatureToggle) : FeatureToggle :=
  {| key := key f; enabled := enabled f; changedAt := None; changedBy := changedBy f; description := description f |}.

(** The rows are the toggles, and what is cached is what the rows say. *)
Definition agree (s : PrismaStore) (t : Table) (m : Toggles) : Prop :=
  (forall k, untimed <$> m !! k = untimed <$> (toFeatureToggle <$> t !! k)) /\
  (forall k v e, cache s !! k = Some (v, e) -> v = memory_isEnabled m k).

Lemma agree_enabled s t m k : agree s t m -> match t !! k with Some row => r_enabled row | None => false end = memory_isEnabled m k.
Proof. intros [Hm _]. specialize (Hm k). unfold memory_isEnabled. unfold untimed in Hm.
  destruct (t !! k), (m !! k); by simplify_eq/=. Qed.

Lemma agree_description s t m k : agree s t m -> (m !! k ≫= description) = (t !! k ≫= r_description).
Proof. intros [Hm _]. specialize (Hm k). unfold untimed in Hm.
  destruct (t !! k), (m !! k); by simplify_eq/=. Qed.

Lemma map_values {A B} (f : A -> B) (m : gmap string A) : Permutation (map f (map snd (map_to_list m))) (map snd (map_to_list (f <$> m))).
Proof.
  rewrite map_to_list_fmap. generalize (map_to_list m). intros l. induction l as [|[k a] l IH]; [done|]. csimpl. by rewrite IH.
Qed.

Lemma agree_values s t m (rows : list Row) : agree s t m -> Permutation rows (map snd (map_to_list t)) ->
  Permutation (map untimed (map toFeatureToggle rows)) (map untimed (map snd (map_to_list m))).
Proof.
  intros [Hm _] ->. assert (untimed <$> m = untimed <$> (toFeatureToggle <$> t)) as He by (apply map_eq; intros k; by rewrite !lookup_fmap).
  rewrite (map_values untimed m), He, <- (map_values untimed). apply Permutation_map, map_values.
Qed.

Lemma agree_insert s t m input at_ now : agree s t m ->
  agree (with_cache s (delete (i_key input) (cache s)))
    (<[i_key input := upsert t (upsert_args input) at_]> t) (fst (memory_set m input now)).
Proof.
  intros Ha. pose proof (agree_description s t m (i_key input) Ha) as Hd. destruct Ha as [Hm Hc]. split.
  - intros k. cbn [memory_set fst]. destruct (decide (k = i_key input)) as [->|Hne]; [|by rewrite !lookup_insert_ne].
    rewrite !lookup_insert_eq. cbn. unfold untimed. cbn. by rewrite Hd.
  - intros k v e. cbn. destruct (decide (k = i_key input)) as [->|Hne]; [by rewrite lookup_delete_eq|].
    rewrite lookup_delete_ne by done. intros Hk%Hc. unfold memory_isEnabled in *. by rewrite lookup_insert_ne.
Qed.

Lemma agree_delete s t m k : agree s t m -> agree (with_cache s (delete k (cache s))) (delete k t) (memory_delete m k).
Proof.
  intros [Hm Hc]. unfold memory_delete. split.
  - intros k'. destruct (decide (k' = k)) as [->|Hne]; [by rewrite !lookup_delete_eq|]. by rewrite !lookup_delete_ne.
  - intros k' v e. cbn. destruct (decide (k' = k)) as [->|Hne]; [by rewrite lookup_delete_eq|].
    rewrite lookup_delete_ne by done. intros Hk%Hc. unfold memory_isEnabled in *. by rewrite lookup_delete_ne.
Qed.

(** C28 (One contract, two stores): a Prisma store that is alone on a table that
    answers stays in step with the in-memory store, its cache included, and
    gives its answers: [isEnabled] the same, [get] and [set] the same toggles
    but for the time of a change, which is the database's, [list] the same
    toggles in whatever order the database sorts them, [delete] the same
    silence for a missing key. *)
Theorem prisma_refines_memory localeCompare s t m :
  agree s t m ->
  (forall k asked answered, let '(s', v) := prisma_isEnabled s t k asked answered in v = memory_isEnabled m k /\ agree s' t m) /\
  (forall k, untimed <$> fst (get_answer (Ok (t !! k))) = untimed <$> memory_get m k) /\
  (forall rows, Permutation rows (map snd (map_to_list t)) ->
     Permutation (map untimed (fst (list_answer (Ok rows)))) (map untimed (memory_list localeCompare m))) /\
  (forall input at_ now, let '(s', t', r) := prisma_set s t input at_ in
     exists previous current, r = Ok (previous, current) /\
       untimed <$> previous = untimed <$> m !! i_key input /\ changedAt current = Some at_ /\
       untimed current = untimed (snd (snd (memory_set m input now))) /\ agree s' t' (fst (memory_set m input now))) /\
  (forall k, let '(s', t', r) := prisma_delete s t k in r = Ok tt /\ agree s' t' (memory_delete m k)).
Proof.
  intros Ha. pose proof Ha as [Hm Hc]. split_and!.
  - intros k asked answered. pose proof (agree_enabled s t m k Ha) as Hv. unfold prisma_isEnabled, isEnabled_cached.
    assert (let '(s', v) := fst (isEnabled_answer s k (Ok (t !! k)) answered) in v = memory_isEnabled m k /\ agree s' t m) as Hread.
    { unfold isEnabled_answer. cbn [fst]. rewrite Hv. split; [done|]. destruct (cacheDisabled s); [done|].
      split; [done|]. intros k' v e. cbn. destruct (decide (k' = k)) as [->|Hne].
      - rewrite lookup_insert_eq. by intros [= <- _].
      - rewrite lookup_insert_ne by done. apply Hc. }
    destruct (cacheDisabled s); [exact Hread|]. destruct (cache s !! k) as [[v e]|] eqn:Hk; [|exact Hread].
    destruct (asked <? e); [|exact Hread]. split; [by eapply Hc|done].
  - intros k. unfold memory_get. by rewrite Hm.
  - intros rows Hrows. cbn [list_answer fst]. rewrite (agree_values s t m rows Ha Hrows). apply Permutation_map. unfold memory_list.
    by rewrite merge_sort_Permutation.
  - intros input at_ now. cbn [prisma_set set_answer fst get_answer]. eexists _, _. split; [reflexivity|].
    split; [by rewrite Hm|]. split; [done|]. split; [|by apply agree_insert].
    cbn. unfold untimed. cbn. by rewrite (agree_description s t m (i_key input) Ha).
  - intros k. unfold prisma_delete, delete_answer. split; [by destruct (t !! k)|]. by apply agree_delete.
Qed.

(** ** Beside other calls and other processes *)

Inductive toggle_event :=
| Answered (k : string) (v : bool) (now : Z)
| Reading (k : string) (v : bool)
| Stored (k : string) (v : bool) (now : Z)
| Invalidated (k : string).

(** Reads that are under way, with what they were answered. *)
Record system := { store_ : PrismaStore; table : Table; reads : list (string * bool) }.

Definition value_of (t : Table) (k : string) : bool := match t !! k with Some row => r_enabled row | None => false end.

(** [step_table]: any change of the table, by a [set] or [delete] of this store
    or by another process; the invalidation of this store's own calls comes
    later. *)
Inductive toggle_run (ttl : Z) : system -> list toggle_event -> Prop :=
| run_start t : toggle_run ttl {| store_ := {| cacheTtlMs := ttl; cacheDisabled := false; cache := ∅ |}; table := t; reads := [] |} []
| run_table y log t : toggle_run ttl y log -> toggle_run ttl {| store_ := store_ y; table := t; reads := reads y |} log
| run_hit y log k v now : toggle_run ttl y log -> isEnabled_cached (store_ y) k now = Some v ->
    toggle_run ttl y (Answered k v now :: log)
| run_read y log k : toggle_run ttl y log ->
    toggle_run ttl {| store_ := store_ y; table := table y; reads := (k, value_of (table y) k) :: reads y |}
      (Reading k (value_of (table y) k) :: log)
| run_answer y log k v now rest : toggle_run ttl y log -> Permutation (reads y) ((k, v) :: rest) ->
    toggle_run ttl {| store_ := fst (fst (isEnabled_answer (store_ y) k
                                  (Ok (Some {| r_key := k; r_enabled := v; r_changedAt := 0; r_changedBy := None; r_description := None |})) now));
                      table := table y; reads := rest |} (Stored k v now :: log)
| run_invalidate y log k : toggle_run ttl y log ->
    toggle_run ttl {| store_ := with_cache (store_ y) (delete k (cache (store_ y))); table := table y; reads := reads y |}
      (Invalidated k :: log).

Lemma toggle_run_store ttl y log : toggle_run ttl y log -> cacheTtlMs (store_ y) = ttl /\ cacheDisabled (store_ y) = false.
Proof.
  induction 1 as [| | | |y log k v now rest H IH Hp|y log k H IH]; try done. destruct IH as [IH1 IH2]. cbn. by rewrite IH2.
Qed.

Lemma reads_read ttl y log : toggle_run ttl y log -> forall k v, In (k, v) (reads y) -> In (Reading k v) log.
Proof.
  induction 1 as [t|y log t H IH|y log k v now H IH Hh|y log k H IH|y log k v now rest H IH Hp|y log k H IH];
    intros k' v' Hin; cbn in Hin; [done|by apply IH|right; by apply IH| | |right; by apply IH].
  - destruct Hin as [[= <- <-]|Hin]; [by left|right; by apply IH].
  - right. apply IH. eapply Permutation_in; [symmetry; exact Hp|]. by right.
Qed.

Lemma toggle_run_cached ttl y log : toggle_run ttl y log -> forall k v e, cache (store_ y) !! k = Some (v, e) ->
  exists at_ newer older, log = (newer ++ Stored k v at_ :: older)%list /\ e = at_ + ttl /\ In (Reading k v) older /\ ~ In (Invalidated k) newer.
Proof.
  induction 1 as [t|y log t H IH|y log k v now H IH Hh|y log k H IH|y log k v now rest H IH Hp|y log k H IH]; intros k' v' e Hc.
  - done.
  - by apply IH.
  - destruct (IH _ _ _ Hc) as (at_ & newer & older & -> & He & Hin & Hn). exists at_, (Answered k v now :: newer), older.
    do 3 (split; [done|]). by intros [?|?].
  - destruct (IH _ _ _ Hc) as (at_ & newer & older & -> & He & Hin & Hn). exists at_, (Reading k (value_of (table y) k) :: newer), older.
    do 3 (split; [done|]). by intros [?|?].
  - destruct (toggle_run_store _ _ _ H) as [Httl Hdis]. cbn in Hc. rewrite Hdis in Hc. cbn in Hc.
    destruct (decide (k' = k)) as [->|Hne].
    + rewrite lookup_insert_eq in Hc. injection Hc as <- <-. exists now, [], log. split; [done|]. split; [by rewrite Httl|].
      split; [|by intros []]. apply (reads_read _ _ _ H). eapply Permutation_in; [symmetry; exact Hp|]. by left.
    + rewrite lookup_insert_ne in Hc by done. destruct (IH _ _ _ Hc) as (at_ & newer & older & -> & He & Hin & Hn).
      exists at_, (Stored k v now :: newer), older. do 3 (split; [done|]). by intros [?|?].
  - cbn in Hc. destruct (decide (k' = k)) as [->|Hne]; [by rewrite lookup_delete_eq in Hc|].
    rewrite lookup_delete_ne in Hc by done. destruct (IH _ _ _ Hc) as (at_ & newer & older & -> & He & Hin & Hn).
    exists at_, (Invalidated k :: newer), older. do 3 (split; [done|]). intros [[= ->]|?]; done.
Qed.

(** Also (A toggle's age is bounded): however calls, invalidations and other
    processes interleave, a value answered from the cache is one the table gave
    to a read of that key, stored less than a lifetime ago and not invalidated
    since it was stored. *)
Theorem toggle_age_bounded ttl y log k v now :
  toggle_run ttl y log -> isEnabled_cached (store_ y) k now = Some v ->
  exists at_ newer older, log = (newer ++ Stored k v at_ :: older)%list /\ now < at_ + ttl /\
    In (Reading k v) older /\ ~ In (Invalidated k) newer.
Proof.
  intros Hrun Hhit. unfold isEnabled_cached in Hhit. destruct (cacheDisabled (store_ y)); [done|].
  destruct (cache (store_ y) !! k) as [[v0 e]|] eqn:Hc; [|done]. destruct (Z.ltb_spec now e) as [Hlt|]; [|done]. injection Hhit as ->.
  destruct (toggle_run_cached _ _ _ Hrun _ _ _ Hc) as (at_ & newer & older & -> & -> & Hin & Hn). by exists at_, newer, older.
Qed.

(** An invalidation that comes between a read and its answer is lost: the
    switched-off toggle is answered as on after [set] has returned. *)
Lemma set_does_not_reach_cache :
  let row b := {| r_key := "beta"; r_enabled := b; r_changedAt := 0; r_changedBy := None; r_description := None |} in
  exists y log, toggle_run 60000 y log /\ table y = {[ "beta" := row false ]} /\
    log = [Stored "beta" true 2; Invalidated "beta"; Reading "beta" true] /\
    isEnabled_cached (store_ y) "beta" 60001 = Some true.
Proof.
  cbn zeta. eexists _, _. split.
  - eapply (run_answer _ _ _ "beta" true 2 []).
    + eapply (run_invalidate _ _ _ "beta"). eapply (run_table _ _ _ {[ "beta" := {| r_key := "beta"; r_enabled := false; r_changedAt := 0;
        r_changedBy := None; r_description := None |} ]}).
      eapply (run_read _ _ _ "beta"). eapply (run_start _ {[ "beta" := {| r_key := "beta"; r_enabled := true; r_changedAt := 0;
        r_changedBy := None; r_description := None |} ]}).
    + change (Permutation [("beta", true)] [("beta", true)]). reflexivity.
  - split; [reflexivity|]. split; reflexivity.
Qed.

#[local] Definition fresh : PrismaStore := createPrismaStore {| o_cacheTtlMs := None; o_cacheDisabled := None |}.

Lemma prisma_refines_memory_witness : snd (prisma_isEnabled fresh ∅ "beta" 0 1) = memory_isEnabled ∅ "beta".
Proof.
  assert (agree fresh ∅ ∅) as Ha by (split; [intros k; rewrite !lookup_empty; reflexivity|intros k v e H; discriminate]).
  pose proof (proj1 (prisma_refines_memory (fun _ _ => 0) fresh ∅ ∅ Ha) "beta" 0 1) as H.
  destruct (prisma_isEnabled fresh ∅ "beta" 0 1) as [s' v]. exact (proj1 H).
Defined.

Lemma toggle_age_bounded_witness :
  exists y log, toggle_run 60000 y log /\ exists at_ newer older, log = (newer ++ Stored "beta" false at_ :: older)%list /\ 10 < at_ + 60000.
Proof.
  pose proof (run_answer 60000 _ _ "beta" false 2 [] (run_read 60000 _ _ "beta" (run_start 60000 ∅))
    (Permutation_refl [("beta", false)])) as Hrun.
  eexists _, _. split; [exact Hrun|]. destruct (toggle_age_bounded 60000 _ _ "beta" false 10 Hrun eq_refl) as (at_ & newer & older & He & Hlt & _).
  exists at_, newer, older. split; [exact He|exact Hlt].
Defined.
End FeatureToggles.
