(* ===== verification/AuditStores.v ===== *)
(** The two audit stores: foundation [audit/dynamo-store.ts] and
    [audit/prisma.ts].

    A store meets its database through the answers to its writes. A write may
    take effect although the store sees an error; the error's name is all that
    the retry policy ([DynamoDb]) looks at. *)

From S2P Require Import Prelude JsString Json JsDate Tenant AuditCore AuditMetadata.
From S2P Require DynamoDb.
From Stdlib Require Import Ascii QArith_base Qround.

#[local] Open Scope string_scope.
#[local] Open Scope Z_scope.

Module AuditStores.

(** ** The event as JSON *)

(** An object literal whose undefined members are left out. *)
Definition present (l : list (string * option JsonValue)) : JsonObject :=
  omap (fun kv => pair (fst kv) <$> snd kv) l.

Definition severity_text (s : AuditSeverity) : string :=
  match s with info => "info" | warning => "warning" | error => "error" end.
Definition outcome_text (o : AuditOutcome) : string := match o with success => "success" | failure => "failure" end.

Definition actor_json (a : AuditActor) : JsonValue :=
  VObject match a with
          | user sub idp =>
              present [("kind", Some (VString "user")); ("userSub", Some (VString sub));
                       ("idp", (fun p => VObject [("providerName", VString (fst p)); ("providerType", VString (snd p))]) <$> idp)]
          | service name => [("kind", VString "service"); ("serviceName", VString name)]
          | system component => [("kind", VString "system"); ("component", VString component)]
          | anonymous => [("kind", VString "anonymous")]
          end.

Definition members (e : AuditEvent) : list (string * option JsonValue) :=
  [("id", Some (VString (id e)));
   ("timestamp", Some (VString (timestamp e)));
   ("tenantId", VString <$> tenantId e);
   ("actor", Some (actor_json (actor e)));
   ("action", Some (VString (action e)));
   ("resource", (fun r => VObject [("kind", VString (fst r)); ("id", VString (snd r))]) <$> resource e);
   ("outcome", Some (VString (outcome_text (outcome e))));
   ("failureReason", VString <$> failureReason e);
   ("severity", Some (VString (severity_text (severity e))));
   ("requestId", VString <$> requestId e);
   ("traceId", VString <$> traceId e);
   ("ipAddress", VString <$> ipAddress e);
   ("userAgent", VString <$> userAgent e);
   ("metadata", VObject <$> metadata e)].

Definition event_json (e : AuditEvent) : JsonObject := present (members e).

(** ** dynamo-store.ts *)

Definition actor_kind (a : AuditActor) : string :=
  match a with user _ _ => "user" | service _ => "service" | system _ => "system" | anonymous => "anonymous" end.

Definition actorIdFor (a : AuditActor) : string :=
  match a with user sub _ => sub | service name => name | system component => component | anonymous => "_anonymous" end.

Record Item := {
  PK : string; SK : string;
  PK1 : string; SK1 : string;
  PK2 : string; SK2 : string;
  event : string;
  ttl : Z
}.

Definition tenantPart (e : AuditEvent) : string := default "_global" (tenantId e).

Definition buildItem (e : AuditEvent) (ttlEpochSeconds : Z) : Item :=
  {| PK := "AUDIT#" +:+ tenantPart e;
     SK := timestamp e +:+ "#" +:+ id e;
     PK1 := "ACTOR#" +:+ actor_kind (actor e) +:+ "#" +:+ actorIdFor (actor e);
     SK1 := timestamp e;
     PK2 := "ACTION#" +:+ tenantPart e +:+ "#" +:+ action e;
     SK2 := timestamp e;
     event := stringify (VObject (event_json e));
     ttl := ttlEpochSeconds |}.

(** What a write meets: it takes effect and is confirmed; it takes effect and
    the store sees an error of that name; it is refused with one. *)
Inductive reply := Confirmed | Unconfirmed (name : option string) | Refused (name : option string).

#[global] Notation Table := (gmap (string * string) Item).

(** [PutItem] replaces the item of its key. *)
Definition put_item (item : Item) (t : Table) : Table := <[(PK item, SK item) := item]> t.

(** [transientRetry.execute(() => client.send(new PutItemCommand(...)))]. *)
Fixpoint execute (retries : nat) (item : Item) (replies : list reply) (t : Table) : Table * result (option string) unit :=
  let failed t' name rest :=
    if DynamoDb.isTransientError name
    then match retries with O => (t', Throw name) | S n => execute n item rest t' end
    else (t', Throw name) in
  match replies with
  | [] | Confirmed :: _ => (put_item item t, Ok tt)
  | Unconfirmed name :: rest => failed (put_item item t) name rest
  | Refused name :: rest => failed t name rest
  end.

Inductive store_error := EmptyTableName | AuditStoreError (event_id : string) (cause : option string).

Definition new_DynamoAuditStore (tableName : string) : result store_error string :=
  if (String.length tableName =? 0)%nat then Throw EmptyTableName else Ok tableName.

(** [clock] is in milliseconds. *)
Definition dynamo_put (clock : Z) (e : AuditEvent) (retentionSeconds : Q) (replies : list reply) (t : Table) :
    Table * result store_error unit :=
  let item := buildItem e (clock / 1000 + Qfloor retentionSeconds) in
  match execute DynamoDb.transientRetry_maxAttempts item replies t with
  | (t', Ok _) => (t', Ok tt)
  | (t', Throw name) => (t', Throw (AuditStoreError (id e) name))
  end.

(** ** prisma.ts *)

Record Row := {
  r_id : string; r_timestamp : option Z; r_tenantId : option string;
  r_actorKind : string; r_actorId : string; r_action : string;
  r_resourceKind : option string; r_resourceId : option string;
  r_outcome : string; r_failureReason : option string; r_severity : string;
  r_requestId : option string; r_traceId : option string; r_ipAddress : option string; r_userAgent : option string;
  r_metadata : option JsonObject;
  r_retentionUntil : option Z
}.

Definition actorColumns (a : AuditActor) : string * string := (actor_kind a, actorIdFor a).

(** [new Date(ms)]; [None] is the invalid date. *)
Definition Date_of (ms : Z) : option Z := if Z.abs ms <=? 8640000000000000 then Some ms else None.

Definition create_data (clock : Z) (e : AuditEvent) (retentionSeconds : Q) : Row :=
  let retentionMs := Qfloor retentionSeconds * 1000 in
  {| r_id := id e; r_timestamp := parseISO (timestamp e); r_tenantId := tenantId e;
     r_actorKind := fst (actorColumns (actor e)); r_actorId := snd (actorColumns (actor e)); r_action := action e;
     r_resourceKind := fst <$> resource e; r_resourceId := snd <$> resource e;
     r_outcome := outcome_text (outcome e); r_failureReason := failureReason e; r_severity := severity_text (severity e);
     r_requestId := requestId e; r_traceId := traceId e; r_ipAddress := ipAddress e; r_userAgent := userAgent e;
     r_metadata := metadata e;
     r_retentionUntil := Date_of (clock + retentionMs) |}.

Definition postgres_put (clock : Z) (e : AuditEvent) (retentionSeconds : Q) (answer : reply) (rows : list Row) :
    list Row * result store_error unit :=
  let data := create_data clock e retentionSeconds in
  match answer with
  | Confirmed => ((rows ++ [data])%list, Ok tt)
  | Unconfirmed name => ((rows ++ [data])%list, Throw (AuditStoreError (id e) name))
  | Refused name => (rows, Throw (AuditStoreError (id e) name))
  end.

(** ** Lemmas: JSON *)

Lemma present_keys l k : k ∈ map fst (present l) -> k ∈ map fst l.
Proof.
  induction l as [|[k' [v|]] l IH]; cbn; [done| |intros H; right; by apply IH].
  rewrite !elem_of_cons. intros [->|H]; [by left|right; by apply IH].
Qed.

Lemma present_nodup l : NoDup (map fst l) -> NoDup (map fst (present l)).
Proof.
  induction l as [|[k [v|]] l IH]; cbn; [done| |]; rewrite NoDup_cons; intros [Hk Hl]; [|by apply IH].
  apply NoDup_cons. split; [intros H%present_keys; done|by apply IH].
Qed.

Lemma present_find l k o : NoDup (map fst l) -> In (k, o) l -> find_key k (present l) = o.
Proof.
  assert (forall l, k ∉ map fst l -> find_key k (present l) = None) as Habs.
  { induction l0 as [|[k' [v|]] l0 IH]; cbn; [done| |]; rewrite not_elem_of_cons; intros [Hne Hn]; [|by apply IH].
    apply not_eq_sym, String.eqb_neq in Hne. cbn in Hne. rewrite Hne. by apply IH. }
  induction l as [|[k' o'] l IH]; [done|]. cbn [map fst]. rewrite NoDup_cons. intros [Hk Hl] [[= -> ->]|Hin].
  - destruct o as [v|]; cbn; [by rewrite String.eqb_refl|by apply Habs].
  - destruct o' as [v|]; cbn; [|by apply IH]. destruct (String.eqb_spec k' k) as [->|]; [|by apply IH].
    destruct Hk. apply list_elem_of_In, (in_map fst _ (k, o)), Hin.
Qed.

Lemma members_nodup e : NoDup (map fst (members e)).
Proof. cbn [members map fst]. apply (bool_decide_unpack _). vm_compute. exact I. Qed.

(** A member of the event is what its text says. *)
Lemma member_of e k o : In (k, o) (members e) -> find_key k (event_json e) = o.
Proof. apply present_find, members_nodup. Qed.

Definition storable (e : AuditEvent) : Prop := match metadata e with Some m => json_wf (VObject m) | None => True end.

Lemma present_wf l : NoDup (map fst l) -> (forall k v, In (k, Some v) l -> json_wf v) -> json_wf (VObject (present l)).
Proof.
  intros Hn Hv. split; [by apply present_nodup|]. clear Hn. induction l as [|[k [v|]] l IH]; cbn; [constructor| |].
  - constructor; [apply (Hv k); by left|]. apply IH. intros k' v' H. apply (Hv k'). by right.
  - apply IH. intros k' v' H. apply (Hv k'). by right.
Qed.

Lemma nodup_dec {l : list string} : bool_decide (NoDup l) = true -> NoDup l.
Proof. apply bool_decide_eq_true_1. Qed.

Lemma actor_json_wf a : json_wf (actor_json a).
Proof.
  assert (forall l, bool_decide (NoDup (map fst l)) = true -> Forall (fun kv => json_wf (snd kv)) l -> json_wf (VObject l)) as H.
  { intros l Hn Hl. split; [by apply nodup_dec|]. clear Hn. induction Hl; cbn; constructor; done. }
  unfold actor_json. destruct a as [sub [[n t]|]|n|c|]; apply H; try reflexivity; cbn; repeat (apply Forall_cons; split); try done.
  by apply H; repeat constructor.
Qed.

Lemma event_json_wf e : storable e -> json_wf (VObject (event_json e)).
Proof.
  intros Hs. apply present_wf; [apply members_nodup|]. intros k v Hin. unfold storable in Hs. cbn [members In] in Hin.
  repeat destruct Hin as [Hin|Hin]; try done; injection Hin as Hk Hv; try (by subst v); try (subst v; apply actor_json_wf).
  all: try (match type of Hv with fmap _ ?o = _ => destruct o; [|done] end; injection Hv as <-); try done.
  cbn. split; [by apply nodup_dec|]. repeat constructor.
Qed.

Lemma fmap_VString_inj (a b : option string) : VString <$> a = VString <$> b -> a = b.
Proof. destruct a, b; by intros [=]; subst. Qed.

Lemma actor_json_inj a b : actor_json a = actor_json b -> a = b.
Proof.
  destruct a as [s [[n t]|]|s|s|], b as [s' [[n' t']|]|s'|s'|]; cbn; intros [=]; by subst.
Qed.

Lemma event_members_read e : map snd (members e) = map (fun k => find_key k (event_json e)) (map fst (members e)).
Proof. rewrite map_map. apply map_ext_in. intros [k o] Hin. symmetry. by apply member_of. Qed.

(** The text of an event determines it. *)
Lemma event_json_inj e1 e2 : event_json e1 = event_json e2 -> e1 = e2.
Proof.
  intros H. assert (map snd (members e1) = map snd (members e2)) as Hm by (rewrite !event_members_read, H; reflexivity).
  destruct e1 as [i1 ts1 t1 a1 c1 r1 o1 f1 s1 q1 tr1 ip1 ua1 m1], e2 as [i2 ts2 t2 a2 c2 r2 o2 f2 s2 q2 tr2 ip2 ua2 m2].
  cbn [members map snd id timestamp tenantId actor action resource outcome failureReason severity requestId traceId
    ipAddress userAgent metadata] in Hm. clear H.
  injection Hm as -> -> Ht Ha -> Hr Ho Hf Hs Hq Htr Hip Hua Hmd.
  apply fmap_VString_inj in Ht, Hf, Hq, Htr, Hip, Hua. assert (actor_json a1 = actor_json a2) as Ha' by exact (f_equal VObject Ha).
  apply actor_json_inj in Ha'. assert (r1 = r2) as -> by (destruct r1 as [[]|], r2 as [[]|]; by simplify_eq/=).
  assert (o1 = o2) as -> by (destruct o1, o2; done). assert (s1 = s2) as -> by (destruct s1, s2; done).
  assert (m1 = m2) as -> by (destruct m1, m2; by simplify_eq/=). by subst.
Qed.

(** ** Lemmas: keys and writes *)

Definition key_of (e : AuditEvent) : string * string := (PK (buildItem e 0), SK (buildItem e 0)).

(** The event has been stamped by the clock. *)
Definition stamped (e : AuditEvent) : Prop := exists ms, toISOString ms = Some (timestamp e).

Definition iso_char (c : ascii) : bool := is_digit c || char_in c "+-:.TZ".

Lemma pad_chars w v : str_all iso_char (pad w v) = true.
Proof.
  revert v. induction w as [|w IH]; intros v; cbn [pad]; [done|]. rewrite str_all_app, IH. cbn [str_all].
  unfold iso_char. by rewrite (proj1 (digit_char_read _ (Z.mod_pos_bound v 10 eq_refl))).
Qed.

Lemma stamped_no_hash e : stamped e -> char_in "#" (timestamp e) = false.
Proof.
  intros [ms Hms]. apply (no_char_in _ _ iso_char).
  { intros c Hc. destruct (Ascii.eqb_spec "#" c) as [<-|]; [by vm_compute in Hc|done]. }
  unfold toISOString in Hms. destruct (_ <? _); [done|]. destruct (civil_of_days _) as [[y m] d]. apply (inj Some) in Hms.
  rewrite <- Hms. rewrite !str_all_app, !pad_chars. unfold show_year. destruct ((0 <=? y) && (y <=? 9999)); [by rewrite pad_chars|].
  rewrite str_all_app, pad_chars. by destruct (y <? 0).
Qed.

Lemma hash_split a b c d : char_in "#" a = false -> char_in "#" b = false -> a +:+ "#" +:+ c = b +:+ "#" +:+ d -> a = b /\ c = d.
Proof.
  revert b. induction a as [|x a IH]; intros [|y b]; unfold char_in; cbn [str_exists]; intros Ha Hb H.
  - by injection H as ->.
  - injection H as <- _. done.
  - injection H as -> _. done.
  - apply orb_false_iff in Ha as [_ Ha], Hb as [_ Hb]. injection H as -> H. destruct (IH b Ha Hb H) as [-> ->]. done.
Qed.

Lemma key_of_spec e1 e2 : stamped e1 -> stamped e2 ->
  key_of e1 = key_of e2 <-> tenantPart e1 = tenantPart e2 /\ timestamp e1 = timestamp e2 /\ id e1 = id e2.
Proof.
  intros H1%stamped_no_hash H2%stamped_no_hash. unfold key_of. cbn [buildItem PK SK]. split.
  - intros [= Hp Hs]. destruct (hash_split _ _ _ _ H1 H2 Hs) as [-> ->]. done.
  - by intros (-> & -> & ->).
Qed.

Lemma execute_spec item replies : forall n t,
  let '(t', r) := execute n item replies t in (t' = t \/ t' = put_item item t) /\ (r = Ok tt -> t' = put_item item t).
Proof.
  assert (forall t, put_item item (put_item item t) = put_item item t) as Hpp by (intros t; apply insert_insert_eq).
  induction replies as [|[|name|name] replies IH]; intros n t; destruct n; cbn [execute];
    try (split; [by right|done]); destruct (DynamoDb.isTransientError name); try (split; [by (left + right)|done]).
  - specialize (IH n (put_item item t)). destruct (execute n item replies (put_item item t)) as [t' r].
    rewrite Hpp in IH. destruct IH as [IH1 IH2]. split; [right; by destruct IH1|done].
  - specialize (IH n t). by destruct (execute n item replies t) as [t' r].
Qed.

(** Refusals that the retry policy tries again. *)
Definition passing (r : reply) : Prop :=
  match r with Confirmed => False | Unconfirmed name | Refused name => DynamoDb.isTransientError name = true end.

Lemma execute_confirms item rest pre : forall n t, Forall passing pre -> (length pre <= n)%nat ->
  snd (execute n item (pre ++ Confirmed :: rest)%list t) = Ok tt.
Proof.
  induction pre as [|r pre IH]; intros n t Hp Hn; [by destruct n|]. inversion Hp as [|? ? Hr Hpre]. subst.
  cbn [length] in Hn. destruct n as [|n]; [lia|]. destruct r as [|name|name]; [done| |]; cbn [app execute]; cbn in Hr;
    rewrite Hr; apply IH; (done || lia).
Qed.

(** ** The trail *)

(** Writes of one store, each with its clock, its retention and the answers it
    meets. *)
Record write := { w_clock : Z; w_event : AuditEvent; w_retention : Q; w_replies : list reply }.

Definition write_step (t : Table) (w : write) : Table := fst (dynamo_put (w_clock w) (w_event w) (w_retention w) (w_replies w) t).
Definition trail (t : Table) (ws : list write) : Table := fold_left write_step ws t.

(** The promise of a write, which the table does not influence. *)
Definition resolved (w : write) : bool :=
  match snd (dynamo_put (w_clock w) (w_event w) (w_retention w) (w_replies w) ∅) with Ok _ => true | Throw _ => false end.

Definition item_of (w : write) : Item := buildItem (w_event w) (w_clock w / 1000 + Qfloor (w_retention w)).

Lemma execute_answer item replies : forall n t1 t2, snd (execute n item replies t1) = snd (execute n item replies t2).
Proof.
  induction replies as [|[|name|name] replies IH]; intros n t1 t2; destruct n; cbn [execute]; try done;
    destruct (DynamoDb.isTransientError name); try done; apply IH.
Qed.

(** Also (What one write does): whatever the answers, [put] leaves the table as it
    was or with the item of this event, and only the latter if it resolves; it
    resolves if no more than three answers that may be retried come before a
    confirmation. *)
Theorem dynamo_put_spec clock e q replies t :
  let item := buildItem e (clock / 1000 + Qfloor q) in
  let '(t', r) := dynamo_put clock e q replies t in
  (t' = t \/ t' = put_item item t) /\ (r = Ok tt -> t' = put_item item t) /\
  (forall pre rest, replies = (pre ++ Confirmed :: rest)%list -> Forall passing pre -> (length pre <= 3)%nat -> r = Ok tt) /\
  (forall err, r = Throw err -> exists name, err = AuditStoreError (id e) name).
Proof.
  intros item. unfold dynamo_put. fold item. pose proof (execute_spec item replies DynamoDb.transientRetry_maxAttempts t) as Hs.
  pose proof (fun pre rest => execute_confirms item rest pre DynamoDb.transientRetry_maxAttempts t) as Hc.
  destruct (execute _ item replies t) as [t' [[]|name]] eqn:He.
  - destruct Hs as [Hs1 Hs2]. split; [done|]. by split; [intros _; apply Hs2|].
  - destruct Hs as [Hs1 _]. split; [done|]. split; [done|]. split; [|intros err [= <-]; by exists name].
    intros pre rest -> Hp Hl. specialize (Hc pre rest Hp Hl). rewrite He in Hc. done.
Qed.

Lemma write_step_spec t w : write_step t w = t \/ write_step t w = put_item (item_of w) t.
Proof.
  unfold write_step, dynamo_put. pose proof (execute_spec (item_of w) (w_replies w) DynamoDb.transientRetry_maxAttempts t) as Hs.
  unfold item_of in *. destruct (execute _ _ _ t) as [t' [[]|name]]; apply Hs.
Qed.

Lemma write_step_resolved t w : resolved w = true -> write_step t w = put_item (item_of w) t.
Proof.
  unfold resolved, write_step, dynamo_put, item_of. intros H.
  pose proof (execute_spec (item_of w) (w_replies w) DynamoDb.transientRetry_maxAttempts t) as Hs. unfold item_of in Hs.
  pose proof (execute_answer (item_of w) (w_replies w) DynamoDb.transientRetry_maxAttempts t ∅) as Ha. unfold item_of in Ha.
  destruct (execute _ _ _ t) as [t' [[]|name]], (execute _ _ _ ∅) as [t0 [[]|name0]]; try done. by apply Hs.
Qed.

Lemma item_key w : (PK (item_of w), SK (item_of w)) = key_of (w_event w).
Proof. done. Qed.

Lemma trail_other ws : forall t k, k ∉ map (fun w => key_of (w_event w)) ws -> trail t ws !! k = t !! k.
Proof.
  induction ws as [|w ws IH]; intros t k Hk; [done|]. cbn [map] in Hk. rewrite not_elem_of_cons in Hk. destruct Hk as [Hne Hk].
  cbn [trail fold_left]. unfold trail in IH. rewrite IH by done. destruct (write_step_spec t w) as [-> | ->]; [done|].
  unfold put_item. rewrite item_key. by rewrite lookup_insert_ne.
Qed.

(** The key that the schema documents, from the event's tenant, time and
    identifier. *)
Definition audit_key (tenant : option string) (time ident : string) : string * string :=
  (match tenant with Some t => "AUDIT#" +:+ t | None => "AUDIT#_global" end, time +:+ "#" +:+ ident).

Lemma audit_key_of e : key_of e = audit_key (tenantId e) (timestamp e) (id e).
Proof. unfold key_of, audit_key. cbn [buildItem PK SK]. unfold tenantPart. by destruct (tenantId e). Qed.

(** The members that tell who acted. *)
Definition actor_members (a : AuditActor) : list (string * JsonValue) :=
  match a with
  | user sub None => [("kind", VString "user"); ("userSub", VString sub)]
  | user sub (Some (name, type)) =>
      [("kind", VString "user"); ("userSub", VString sub);
       ("idp", VObject [("providerName", VString name); ("providerType", VString type)])]
  | service name => [("kind", VString "service"); ("serviceName", VString name)]
  | system component => [("kind", VString "system"); ("component", VString component)]
  | anonymous => [("kind", VString "anonymous")]
  end.

Definition recorded_text (o : JsonObject) (k : string) (v : option string) : Prop := find_key k o = VString <$> v.

(** The object tells the event, member by member. *)
Definition recorded (e : AuditEvent) (o : JsonObject) : Prop :=
  recorded_text o "id" (Some (id e)) /\ recorded_text o "timestamp" (Some (timestamp e)) /\
  recorded_text o "tenantId" (tenantId e) /\ recorded_text o "action" (Some (action e)) /\
  find_key "actor" o = Some (VObject (actor_members (actor e))) /\
  match resource e with
  | Some (kind, ident) => find_key "resource" o = Some (VObject [("kind", VString kind); ("id", VString ident)])
  | None => find_key "resource" o = None
  end /\
  recorded_text o "outcome" (Some (match outcome e with success => "success" | failure => "failure" end)) /\
  recorded_text o "failureReason" (failureReason e) /\
  recorded_text o "severity" (Some (match severity e with info => "info" | warning => "warning" | error => "error" end)) /\
  recorded_text o "requestId" (requestId e) /\ recorded_text o "traceId" (traceId e) /\
  recorded_text o "ipAddress" (ipAddress e) /\ recorded_text o "userAgent" (userAgent e) /\
  find_key "metadata" o = VObject <$> metadata e.

Lemma event_recorded e : recorded e (event_json e).
Proof.
  unfold recorded, recorded_text. repeat split; try (apply member_of; cbn; tauto).
  - rewrite (member_of e "actor" (Some (actor_json (actor e)))) by (cbn; tauto). by destruct (actor e) as [sub [[]|]| | |].
  - pose proof (member_of e "resource" _ ltac:(cbn; tauto)) as H. by destruct (resource e) as [[]|].
Qed.

Lemma actor_members_inj a b : actor_members a = actor_members b -> a = b.
Proof. destruct a as [? [[]|]| | |], b as [? [[]|]| | |]; by intros [=]; subst. Qed.

(** An object tells one event only. *)
Lemma recorded_once e1 e2 o : recorded e1 o -> recorded e2 o -> e1 = e2.
Proof.
  unfold recorded, recorded_text.
  intros (I1 & T1 & N1 & A1 & P1 & R1 & O1 & F1 & S1 & Q1 & C1 & L1 & U1 & M1) (I2 & T2 & N2 & A2 & P2 & R2 & O2 & F2 & S2 & Q2 & C2 & L2 & U2 & M2).
  assert (forall k a b, find_key k o = VString <$> a -> find_key k o = VString <$> b -> a = b) as Hinj
    by (intros k a b -> H; by apply fmap_VString_inj).
  assert (actor e1 = actor e2) as Ha by (apply actor_members_inj; congruence).
  assert (resource e1 = resource e2) as Hr by (destruct (resource e1) as [[]|], (resource e2) as [[]|]; congruence).
  assert (metadata e1 = metadata e2) as Hm by (destruct (metadata e1), (metadata e2); cbn in *; congruence).
  assert (outcome e1 = outcome e2) as Ho by (pose proof (Hinj _ _ _ O1 O2); by destruct (outcome e1), (outcome e2)).
  assert (severity e1 = severity e2) as Hs by (pose proof (Hinj _ _ _ S1 S2); by destruct (severity e1), (severity e2)).
  pose proof (Hinj _ _ _ I1 I2). pose proof (Hinj _ _ _ T1 T2). pose proof (Hinj _ _ _ N1 N2). pose proof (Hinj _ _ _ A1 A2).
  pose proof (Hinj _ _ _ F1 F2). pose proof (Hinj _ _ _ Q1 Q2). pose proof (Hinj _ _ _ C1 C2). pose proof (Hinj _ _ _ L1 L2).
  pose proof (Hinj _ _ _ U1 U2). destruct e1, e2. cbn in *. simplify_eq. done.
Qed.

(** Who is written under one key. *)
Lemma same_key e1 e2 : stamped e1 -> stamped e2 -> tenantId e1 <> Some "_global" -> tenantId e2 <> Some "_global" ->
  key_of e1 = key_of e2 -> (tenantId e1, timestamp e1, id e1) = (tenantId e2, timestamp e2, id e2).
Proof.
  intros S1 S2 G1 G2 (Ht & -> & ->)%key_of_spec; [|done..]. unfold tenantPart in Ht.
  destruct (tenantId e1), (tenantId e2); cbn in Ht; congruence.
Qed.

Lemma trail_keeps ws w : forall t, (forall v, v ∈ ws -> stamped (w_event v) /\ tenantId (w_event v) <> Some "_global") ->
  NoDup (map (fun v => (tenantId (w_event v), timestamp (w_event v), id (w_event v))) ws) ->
  w ∈ ws -> resolved w = true -> trail t ws !! key_of (w_event w) = Some (item_of w).
Proof.
  induction ws as [|v ws IH]; intros t Hok Hnd Hw Hr; [by apply elem_of_nil in Hw|].
  cbn [map] in Hnd. apply NoDup_cons in Hnd as [Hv Hnd]. cbn [trail fold_left]. apply elem_of_cons in Hw as [<-|Hw].
  - fold (trail (write_step t w) ws). rewrite trail_other; [rewrite write_step_resolved by done|].
    + unfold put_item. rewrite item_key. apply lookup_insert_eq.
    + intros Hin. apply Hv. apply list_elem_of_fmap in Hin as (u & Hk & Hu). apply list_elem_of_fmap. exists u. split; [|done].
      destruct (Hok w (list_elem_of_here _ _)), (Hok u (list_elem_of_further _ _ _ Hu)). by apply same_key.
  - apply IH; [intros u Hu; apply Hok; by right|done..].
Qed.

Lemma resolves t w pre rest : w_replies w = (pre ++ Confirmed :: rest)%list -> Forall passing pre -> (length pre <= 3)%nat ->
  snd (dynamo_put (w_clock w) (w_event w) (w_retention w) (w_replies w) t) = Ok tt.
Proof.
  intros -> Hp Hl. unfold dynamo_put.
  pose proof (execute_confirms (item_of w) rest pre DynamoDb.transientRetry_maxAttempts t Hp Hl) as H. unfold item_of in H.
  destruct (execute _ _ _ t) as [t' [[]|name]]; [done|]. cbn in H. done.
Qed.

(** C40 (The trail is complete): take writes whose events were stamped by the
    clock, belong to no tenant called [_global], and differ in tenant, time or
    identifier. When all are done, each that resolved is in the table under
    ["AUDIT#<tenant>"] ([_global] if none) and ["<time>#<id>"], with a text that
    JSON reads back as that event, member by member, and as no other event. A
    write resolves when at most three retried failures come before the
    confirmation. Items under other keys have not changed. *)
Theorem trail_is_complete t ws :
  (forall w, w ∈ ws -> stamped (w_event w) /\ storable (w_event w) /\ tenantId (w_event w) <> Some "_global") ->
  NoDup (map (fun w => (tenantId (w_event w), timestamp (w_event w), id (w_event w))) ws) ->
  (forall w, w ∈ ws -> resolved w = true ->
     exists item o, trail t ws !! audit_key (tenantId (w_event w)) (timestamp (w_event w)) (id (w_event w)) = Some item /\
       ttl item = w_clock w / 1000 + Qfloor (w_retention w) /\
       JSON_parse (event item) = Some (VObject o) /\
       recorded (w_event w) o /\ (forall e, recorded e o -> e = w_event w)) /\
  (forall w pre rest, w ∈ ws -> w_replies w = (pre ++ Confirmed :: rest)%list -> Forall passing pre -> (length pre <= 3)%nat ->
     resolved w = true) /\
  (forall k, (forall w, w ∈ ws -> k <> audit_key (tenantId (w_event w)) (timestamp (w_event w)) (id (w_event w))) ->
     trail t ws !! k = t !! k).
Proof.
  intros Hok Hnd. split; [|split].
  - intros w Hw Hr. exists (item_of w), (event_json (w_event w)). rewrite <- audit_key_of.
    split; [apply trail_keeps; try done; intros v Hv; by destruct (Hok v Hv) as (? & ? & ?)|]. split; [done|].
    split; [apply JSON_parse_stringify, event_json_wf, (Hok w Hw)|]. split; [apply event_recorded|].
    intros e He. exact (recorded_once _ _ _ He (event_recorded _)).
  - intros w pre rest _ Hw Hp Hl. unfold resolved. by rewrite (resolves ∅ w pre rest).
  - intros k Hk. apply trail_other. intros (w & -> & Hw)%list_elem_of_fmap. apply (Hk w Hw), audit_key_of.
Qed.

(** ** Both stores *)

(** Also (One retention): for one event, clock and retention, the second at which
    DynamoDB may delete the item and the instant at which the sweeper may delete
    the row are the same second. *)
Theorem retention_agrees clock e q r :
  r_retentionUntil (create_data clock e q) = Some r ->
  ttl (buildItem e (clock / 1000 + Qfloor q)) = r / 1000 /\ clock + Qfloor q * 1000 = r.
Proof.
  cbn. unfold Date_of. destruct (_ <=? _); [|done]. intros [= <-]. split; [|done].
  rewrite Z.div_add by lia. done.
Qed.

(** Also (A row is its event, but for the identity provider): events stamped by
    the clock that give the same columns are the same event, up to the provider
    of a federated login. *)
Theorem row_is_its_event c1 c2 e1 e2 q1 q2 : stamped e1 -> stamped e2 -> create_data c1 e1 q1 = create_data c2 e2 q2 ->
  id e1 = id e2 /\ timestamp e1 = timestamp e2 /\ tenantId e1 = tenantId e2 /\ action e1 = action e2 /\
  resource e1 = resource e2 /\ outcome e1 = outcome e2 /\ failureReason e1 = failureReason e2 /\ severity e1 = severity e2 /\
  requestId e1 = requestId e2 /\ traceId e1 = traceId e2 /\ ipAddress e1 = ipAddress e2 /\ userAgent e1 = userAgent e2 /\
  metadata e1 = metadata e2 /\
  match actor e1, actor e2 with user s1 _, user s2 _ => s1 = s2 | a1, a2 => a1 = a2 end.
Proof.
  intros [m1 H1] [m2 H2]. pose proof (parse_toISOString _ _ H1) as P1. pose proof (parse_toISOString _ _ H2) as P2.
  unfold create_data. rewrite P1, P2. intros [= ? Hm ? Hk Hi ? Hrk Hri Ho ? Hs ? ? ? ? ? _].
  subst m2. assert (timestamp e1 = timestamp e2) by congruence. do 4 (split; [done|]).
  split. { destruct (resource e1) as [[]|], (resource e2) as [[]|]; cbn in Hrk, Hri; congruence. }
  split. { by destruct (outcome e1), (outcome e2). } split; [done|].
  split. { by destruct (severity e1), (severity e2). } do 5 (split; [done|]).
  destruct (actor e1), (actor e2); cbn in Hk, Hi; congruence.
Qed.

(** ** Runs *)

#[local] Definition login (ident : string) (tenant : option string) (act : string) : AuditEvent :=
  {| id := ident; timestamp := "1970-01-01T00:00:01.500Z"; tenantId := tenant; actor := user "u1" (Some ("Okta", "SAML"));
     action := act; resource := None; outcome := success; failureReason := None; severity := info; requestId := Some "r1";
     traceId := None; ipAddress := None; userAgent := None; metadata := Some [("n", VNumber "3")] |}.

Example item_of_login :
  buildItem (login "01A" (Some "acme") "auth.login") 2592001 =
  {| PK := "AUDIT#acme"; SK := "1970-01-01T00:00:01.500Z#01A"; PK1 := "ACTOR#user#u1"; SK1 := "1970-01-01T00:00:01.500Z";
     PK2 := "ACTION#acme#auth.login"; SK2 := "1970-01-01T00:00:01.500Z";
     event := stringify (VObject (event_json (login "01A" (Some "acme") "auth.login"))); ttl := 2592001 |} /\
  create_data 1500 (login "01A" (Some "acme") "auth.login") (inject_Z 2592000) =
  {| r_id := "01A"; r_timestamp := Some 1500; r_tenantId := Some "acme"; r_actorKind := "user"; r_actorId := "u1";
     r_action := "auth.login"; r_resourceKind := None; r_resourceId := None; r_outcome := "success"; r_failureReason := None;
     r_severity := "info"; r_requestId := Some "r1"; r_traceId := None; r_ipAddress := None; r_userAgent := None;
     r_metadata := Some [("n", VNumber "3")]; r_retentionUntil := Some 2592001500 |}.
Proof. vm_compute. split; reflexivity. Qed.

#[local] Definition writes : list write :=
  [{| w_clock := 1500; w_event := login "01A" (Some "acme") "auth.login"; w_retention := inject_Z 60;
      w_replies := [Unconfirmed (Some "TimeoutError"); Refused None; Confirmed] |};
   {| w_clock := 1600; w_event := login "01B" None "auth.login"; w_retention := inject_Z 60;
      w_replies := [Refused (Some "AccessDeniedException")] |}].

Lemma trail_is_complete_witness :
  (exists item o, trail ∅ writes !! ("AUDIT#acme", "1970-01-01T00:00:01.500Z#01A") = Some item /\
     JSON_parse (event item) = Some (VObject o) /\ recorded (login "01A" (Some "acme") "auth.login") o) /\
  map resolved writes = [true; false].
Proof.
  split; [|vm_compute; reflexivity].
  destruct (trail_is_complete ∅ writes) as [H _].
  - intros w Hw. repeat (apply elem_of_cons in Hw as [->|Hw]); [| |by apply elem_of_nil in Hw];
      (split; [exists 1500; vm_compute; reflexivity|]; split; [split; [by apply nodup_dec|repeat constructor]|by cbn]).
  - apply (bool_decide_unpack _). vm_compute. exact I.
  - destruct (H {| w_clock := 1500; w_event := login "01A" (Some "acme") "auth.login"; w_retention := inject_Z 60;
      w_replies := [Unconfirmed (Some "TimeoutError"); Refused None; Confirmed] |}) as (item & o & H1 & _ & H2 & H3 & _);
      [apply list_elem_of_here|vm_compute; reflexivity|]. exists item, o. split; [exact H1|split; [exact H2|exact H3]].
Defined.

Lemma retention_agrees_witness : ttl (buildItem (login "01A" None "auth.login") (1500 / 1000 + Qfloor (5 # 2))) = 3500 / 1000.
Proof. exact (proj1 (retention_agrees 1500 (login "01A" None "auth.login") (5 # 2) 3500 eq_refl)). Defined.

Lemma row_is_its_event_witness : id (login "01A" None "auth.login") = "01A".
Proof.
  assert (stamped (login "01A" None "auth.login")) as H by (exists 1500; vm_compute; reflexivity).
  exact (proj1 (row_is_its_event 1500 1500 _ _ (inject_Z 60) (inject_Z 60) H H eq_refl)).
Defined.

(** ** What the schema lets happen *)

(** The put is unconditional: with nothing but [dynamodb:PutItem] a second event
    of the same time and identifier replaces the first. *)
Lemma put_rewrites_history :
  let forged := login "01A" (Some "acme") "data.read" in
  trail ∅ [{| w_clock := 1500; w_event := login "01A" (Some "acme") "auth.login"; w_retention := inject_Z 60; w_replies := [] |};
           {| w_clock := 9000; w_event := forged; w_retention := inject_Z 60; w_replies := [] |}] =
  {[ key_of forged := buildItem forged 69 ]}.
Proof. vm_compute. reflexivity. Qed.

(** A tenant called [_global] writes into the partition of the events that
    belong to no tenant. *)
Lemma global_is_a_tenant :
  isTenantId "_global" = true /\ PK (buildItem (login "01A" (Some "_global") "auth.login") 0) = PK (buildItem (login "01B" None "auth.login") 0).
Proof. vm_compute. split; reflexivity. Qed.

(** Tenant names may hold the separator, so two tenants can share a partition of
    the index by action. *)
Lemma action_index_shared :
  isTenantId "acme#data.read" = true /\
  PK2 (buildItem (login "01A" (Some "acme#data.read") "auth.login") 0) = PK2 (buildItem (login "01B" (Some "acme") "data.read#auth.login") 0).
Proof. vm_compute. split; reflexivity. Qed.

(** The provider of a federated login reaches the DynamoDB item only. *)
Lemma provider_not_in_row ident idp : let e i := {| id := ident; timestamp := ""; tenantId := None; actor := user "u1" i; action := "auth.login";
    resource := None; outcome := success; failureReason := None; severity := info; requestId := None; traceId := None;
    ipAddress := None; userAgent := None; metadata := None |} in
  create_data 0 (e (Some idp)) 0 = create_data 0 (e None) 0 /\ event_json (e (Some idp)) <> event_json (e None).
Proof. intros e. split; [done|]. intros H%event_json_inj. done. Qed.
End AuditStores.
