(* ===== verification/Keycloak.v ===== *)
(** The Keycloak adapter: foundation [identity/keycloak-identity-provider.ts],
    with [identity/errors.ts] and [identity/port-types.ts].

    A method is a program of HTTP calls that threads the cached service token.
    Callers branch on the reason of an error, never on its message: an error is
    its reason and status. Answers are read in the shape Keycloak documents; a
    field the code checks may be missing. *)

From S2P Require Import Prelude JsString Json Prog.
From Stdlib Require Import Ascii QArith_base Qround.

#[local] Open Scope string_scope.
#[local] Open Scope Z_scope.
#[local] Open Scope prog_scope.

Module Keycloak.

(** ** errors.ts, port-types.ts *)

Inductive IdentityProviderErrorReason := config_missing | unauthorized | unknown_user | conflict | provider_error.

(** [RawError]: what [fetch] or [Response.json] rejects with. *)
Inductive kc_error := IdentityProviderError (reason : IdentityProviderErrorReason) (status : option Z) | RawError.

Record MagicLinkOptions := {
  expirationSeconds : Z;
  redirectUri : string;
  state : option string;
  nonce : option string;
  codeChallenge : option string;
  forceCreate : option bool
}.

Record MagicLinkInitiation := { userId : string; link : string; emailSent : bool }.

#[global] Notation Attributes := (list (string * list string)).

Record RegisterUserInput := { i_email : string; i_attributes : option Attributes; i_emailVerified : option bool }.
Record IdentityUser := { u_id : string; u_email : string; u_attributes : option Attributes }.

(** ** Configuration *)

(** As it is passed in: [None] is a value that is no string. *)
Record RawConfig := {
  raw_baseUrl : option string; raw_realm : option string; raw_serviceClientId : option string;
  raw_serviceClientSecret : option string; raw_appClientId : option string
}.

Record Config := { base : string; realm : string; serviceClientId : string; serviceClientSecret : string; appClientId : string }.

Definition required (value : option string) : result kc_error string :=
  match value with
  | Some s => if (String.length s =? 0)%nat then Throw (IdentityProviderError config_missing None) else Ok s
  | None => Throw (IdentityProviderError config_missing None)
  end.

(** [while (base.endsWith("/")) base = base.slice(0, -1)]. *)
Fixpoint strip_slashes (s : string) : string :=
  match s with
  | EmptyString => ""
  | String.String c r =>
      match strip_slashes r with
      | EmptyString => if Ascii.eqb c "/" then "" else String.String c ""
      | t => String.String c t
      end
  end.

Definition new_KeycloakIdentityProvider (raw : RawConfig) : result kc_error Config :=
  (let* b := required (raw_baseUrl raw) in
   let* r := required (raw_realm raw) in
   let* i := required (raw_serviceClientId raw) in
   let* s := required (raw_serviceClientSecret raw) in
   let* a := required (raw_appClientId raw) in
   Ok {| base := strip_slashes b; realm := r; serviceClientId := i; serviceClientSecret := s; appClientId := a |})%js.

Definition issuerUrl (cfg : Config) : string := base cfg +:+ "/realms/" +:+ realm cfg.

(** ** Calls *)

(** [body]: [None] when [json] rejects. *)
Record Response (A : Type) := { status : Z; body : option A }.
Arguments status {A} r.
Arguments body {A} r.

Definition ok {A} (r : Response A) : bool := (200 <=? status r) && (status r <=? 299).

(** Fields that are missing, or no strings, are [None]. *)
Record TokenResponse := { access_token : option string; expires_in : option Q }.
Record MagicLinkResponse := { user_id : string; r_link : option string }.
Record UserProfileAttribute := { a_name : option string; a_edit : option (list string) }.
Record UserResponse := { b_id : string; b_email : option string; b_attributes : option Attributes }.

Record MagicLinkBody := {
  m_email : string; m_client_id : string; m_redirect_uri : string; m_expiration_seconds : Z;
  m_force_create : bool; m_send_email : bool; m_reusable : bool; m_scope : string;
  m_state : option string; m_nonce : option string; m_code_challenge : option (string * string)
}.

Record NewUser := {
  n_id : option string; n_username : string; n_email : string; n_emailVerified : bool; n_enabled : bool;
  n_attributes : option Attributes
}.

(** All but the first carry the service token. *)
Inductive kc_cmd : Type -> Type :=
| Token (client_id client_secret : string) : kc_cmd (Response TokenResponse)
| MagicLink (token : string) (b : MagicLinkBody) : kc_cmd (Response MagicLinkResponse)
| FindUsers (token email : string) : kc_cmd (Response (list string))
| DeleteUser (token id : string) : kc_cmd (Response unit)
| GetProfile (token : string) : kc_cmd (Response (option (list UserProfileAttribute)))
| GetUser (token id : string) : kc_cmd (Response UserResponse)
| PartialImport (token ifResourceExists : string) (users : list NewUser) : kc_cmd (Response (option Z))
| PostUser (token : string) (u : NewUser) : kc_cmd (Response unit).

(** [encodeURIComponent]; a character from 128 on is two bytes of UTF-8. *)
Definition unreserved (c : ascii) : bool := is_alnum c || char_in c "-_.!~*'()".

Definition percent (byte : Z) : string :=
  let upper n := ascii_of_N (Z.to_N (if n <? 10 then 48 + n else 55 + n)) in
  String.String "%" (String.String (upper (byte / 16)) (String.String (upper (byte mod 16)) "")).

Fixpoint encodeURIComponent (s : string) : string :=
  match s with
  | EmptyString => ""
  | String.String c r =>
      (if unreserved c then String.String c ""
       else if code c <? 128 then percent (code c)
       else percent (192 + code c / 64) +:+ percent (128 + code c mod 64)) +:+ encodeURIComponent r
  end.

(** Method and URL of a call. *)
Definition request_line (cfg : Config) {X} (c : kc_cmd X) : string * string :=
  let admin path := base cfg +:+ "/admin/realms/" +:+ realm cfg +:+ path in
  match c with
  | Token _ _ => ("POST", issuerUrl cfg +:+ "/protocol/openid-connect/token")
  | MagicLink _ _ => ("POST", base cfg +:+ "/realms/" +:+ realm cfg +:+ "/magic-link")
  | FindUsers _ email => ("GET", admin ("/users?email=" +:+ encodeURIComponent email +:+ "&exact=true"))
  | DeleteUser _ id => ("DELETE", admin ("/users/" +:+ encodeURIComponent id))
  | GetProfile _ => ("GET", admin "/users/profile")
  | GetUser _ id => ("GET", admin ("/users/" +:+ encodeURIComponent id))
  | PartialImport _ _ _ => ("POST", admin "/partialImport")
  | PostUser _ _ => ("POST", admin "/users")
  end.

(** [Authorization], but for the token call. *)
Definition bearer {X} (c : kc_cmd X) : option string :=
  match c with
  | Token _ _ => None
  | MagicLink t _ | FindUsers t _ | DeleteUser t _ | GetProfile t | GetUser t _ | PartialImport t _ _ | PostUser t _ => Some t
  end.

(** ** Methods *)

Record Cache := { cachedToken : option string; cachedTokenExpiresAt : Q }.
Definition new_cache : Cache := {| cachedToken := None; cachedTokenExpiresAt := 0 |}.

Definition kc_prog (A : Type) : Type := prog kc_cmd unit (Cache * kc_error) unit (Cache * A).
Definition method (A : Type) : Type := Cache -> kc_prog A.

Definition ret {A} (a : A) : method A := fun c => Ret (c, a).
Definition throw {A} (e : kc_error) : method A := fun c => Raise (c, e).
Definition bind {A B} (m : method A) (k : A -> method B) : method B := fun c => await (m c) (fun p => k (snd p) (fst p)).
Definition fetchFn {A} (x : kc_cmd (Response A)) : method (Response A) :=
  fun c => Send x (fun r => match r with Ok res => Ret (c, res) | Throw _ => Raise (c, RawError) end).
Definition json {A} (r : Response A) : method A := match body r with Some b => ret b | None => throw RawError end.
Definition fail {A} (reason : IdentityProviderErrorReason) (st : option Z) : method A := throw (IdentityProviderError reason st).

Notation "'do' x '<-' m ';' k" := (bind m (fun x => k)) (at level 200, x pattern, m at level 100, k at level 200) : prog_scope.

Definition TOKEN_EXPIRY_SLACK_MS : Z := 30000.
Definition PRIVILEGE_BEARING_ATTRIBUTES : list string := ["custom:globalRole"; "custom:tenantRole"; "custom:activeTenantId"].

(** [res.status === 401 || res.status === 403 ? "unauthorized" : "provider_error"]. *)
Definition reason_of (st : Z) : IdentityProviderErrorReason :=
  if (st =? 401) || (st =? 403) then unauthorized else provider_error.

Definition non_negative (q : Q) : Q := if Qle_bool 0 q then q else 0.

Section adapter.
Context (cfg : Config).

Definition token_request : method string := fun c =>
  Send (Token (serviceClientId cfg) (serviceClientSecret cfg)) (fun r =>
    match r with
    | Throw _ => Raise (c, IdentityProviderError provider_error None)
    | Ok res =>
        if negb (ok res) then Raise (c, IdentityProviderError (reason_of (status res)) (Some (status res)))
        else match body res with
             | None => Raise (c, RawError)
             | Some b =>
                 match access_token b with
                 | None => Raise (c, IdentityProviderError provider_error None)
                 | Some t =>
                     if (String.length t =? 0)%nat then Raise (c, IdentityProviderError provider_error None)
                     else Now (fun now =>
                       let lifetimeMs := (default (inject_Z 60) (expires_in b) * inject_Z 1000)%Q in
                       Ret ({| cachedToken := Some t;
                               cachedTokenExpiresAt := inject_Z now + non_negative (lifetimeMs - inject_Z TOKEN_EXPIRY_SLACK_MS) |}, t))
                 end
             end
    end).

Definition serviceToken : method string := fun c =>
  match cachedToken c with
  | None => token_request c
  | Some t => Now (fun now => if Qle_bool (cachedTokenExpiresAt c) (inject_Z now) then token_request c else Ret (c, t))
  end.

Definition authed {A} (call : string -> kc_cmd (Response A)) : method (Response A) :=
  do token <- serviceToken; fetchFn (call token).

Definition magic_link_body (email : string) (opts : MagicLinkOptions) : MagicLinkBody :=
  {| m_email := email; m_client_id := appClientId cfg; m_redirect_uri := redirectUri opts;
     m_expiration_seconds := expirationSeconds opts; m_force_create := default false (forceCreate opts);
     m_send_email := false; m_reusable := false; m_scope := "openid";
     m_state := state opts; m_nonce := nonce opts;
     m_code_challenge := (fun c => (c, "S256")) <$> codeChallenge opts |}.

Definition initiateMagicLink (email : string) (opts : MagicLinkOptions) : method MagicLinkInitiation :=
  if (String.length email =? 0)%nat then fail config_missing None
  else
    do res <- authed (fun t => MagicLink t (magic_link_body email opts));
    if status res =? 404 then fail unknown_user (Some 404)
    else if (status res =? 401) || (status res =? 403) then fail unauthorized (Some (status res))
    else if negb (ok res) then fail provider_error (Some (status res))
    else
      do b <- json res;
      match r_link b with
      | None => fail provider_error None
      | Some l =>
          if (String.length l =? 0)%nat then fail provider_error None
          else ret {| userId := user_id b; link := l; emailSent := false |}
      end.

Definition findUsersByEmail (email : string) : method (list string) :=
  if (String.length email =? 0)%nat then fail config_missing None
  else
    do res <- authed (fun t => FindUsers t email);
    if negb (ok res) then fail (reason_of (status res)) (Some (status res)) else json res.

Fixpoint delete_all (found : list string) : method unit :=
  match found with
  | [] => ret tt
  | id :: rest =>
      do res <- authed (fun t => DeleteUser t id);
      if negb (ok res) && negb (status res =? 404) then fail (reason_of (status res)) (Some (status res)) else delete_all rest
  end.

Definition deleteUser (email : string) : method unit := do found <- findUsersByEmail email; delete_all found.

(** [permissions?.edit]: what is no array counts as absent. *)
Definition admin_only (a : UserProfileAttribute) : bool :=
  match a_edit a with Some edit => negb (length edit =? 0)%nat && forallb (String.eqb "admin") edit | None => false end.

Definition user_editable (attributes : list UserProfileAttribute) (name : string) : bool :=
  match List.find (fun a => match a_name a with Some n => String.eqb n name | None => false end) attributes with
  | None => false
  | Some attr => negb (admin_only attr)
  end.

Definition verifyProfileLockdown : method unit :=
  do res <- authed GetProfile;
  if negb (ok res) then fail (reason_of (status res)) (Some (status res))
  else
    do b <- json res;
    match List.filter (user_editable (default [] b)) PRIVILEGE_BEARING_ATTRIBUTES with
    | [] => ret tt
    | _ => fail config_missing None
    end.

Definition getUser (id : string) : method (option IdentityUser) :=
  do res <- authed (fun t => GetUser t id);
  if status res =? 404 then ret None
  else if negb (ok res) then fail (reason_of (status res)) (Some (status res))
  else
    do b <- json res;
    ret (Some {| u_id := b_id b; u_email := default "" (b_email b); u_attributes := b_attributes b |}).

Inductive creation := created | conflicting.
Inductive registration := registered | exists_already.

Definition createUser (u : IdentityUser) (emailVerified : option bool) : method creation :=
  do byId <- getUser (u_id u);
  match byId with
  | Some _ => ret conflicting
  | None =>
      do byEmail <- findUsersByEmail (u_email u);
      match byEmail with
      | _ :: _ => ret conflicting
      | [] =>
          do res <- authed (fun t => PartialImport t "SKIP"
            [{| n_id := Some (u_id u); n_username := u_email u; n_email := u_email u;
                n_emailVerified := default true emailVerified; n_enabled := true; n_attributes := u_attributes u |}]);
          if negb (ok res) then fail (reason_of (status res)) (Some (status res))
          else
            do added <- json res;
            ret (match added with Some 1 => created | _ => conflicting end)
      end
  end.

Definition registerUser (input : RegisterUserInput) : method registration :=
  do existing <- findUsersByEmail (i_email input);
  match existing with
  | _ :: _ => ret exists_already
  | [] =>
      do res <- authed (fun t => PostUser t
        {| n_id := None; n_username := i_email input; n_email := i_email input;
           n_emailVerified := default false (i_emailVerified input); n_enabled := true; n_attributes := i_attributes input |});
      if status res =? 409 then ret exists_already
      else if negb (ok res) then fail (reason_of (status res)) (Some (status res))
      else ret registered
  end.
End adapter.

(** ** What is sent, whatever is answered *)

Inductive exchange := Exchange X (call : kc_cmd X) (reply : result unit X).
Arguments Exchange {X} call reply.

(** Whatever is answered, every call of [p] is one that [rule] allows after the
    exchanges before it, and [p] ends with exchanges and an outcome in [Q]. *)
Fixpoint follows (rule : list exchange -> forall X, kc_cmd X -> Prop) {E A} (Q : list exchange -> result E A -> Prop)
    (past : list exchange) (p : prog kc_cmd unit E unit A) : Prop :=
  match p with
  | Ret a => Q past (Ok a)
  | Raise e => Q past (Throw e)
  | Now k => forall t, follows rule Q past (k t)
  | Emit _ p => follows rule Q past p
  | @Send _ _ _ _ _ X c k => rule past X c /\ forall r, follows rule Q (Exchange c r :: past) (k r)
  end.

(** The answer that nobody has an identifier; that nobody has an address; the
    users found under an address. *)
Definition id_free (id : string) (x : exchange) : Prop :=
  exists t res, x = Exchange (GetUser t id) (Ok res) /\ status res = 404.
Definition found (email : string) (ids : list string) (x : exchange) : Prop :=
  exists t res, x = Exchange (FindUsers t email) (Ok res) /\ ok res = true /\ body res = Some ids.

(** The calls that change users, and what must have been answered before. *)
Definition careful (email : string) (delete force : bool) (past : list exchange) X (c : kc_cmd X) : Prop :=
  match c with
  | PartialImport _ mode us =>
      mode = "SKIP" /\ exists u id, us = [u] /\ n_id u = Some id /\ n_username u = email /\ n_email u = email /\
      Exists (id_free id) past /\ Exists (found email []) past
  | PostUser _ u => n_id u = None /\ n_username u = email /\ n_email u = email /\ Exists (found email []) past
  | DeleteUser _ id => delete = true /\ exists ids, In id ids /\ Exists (found email ids) past
  | MagicLink _ b => m_email b = email /\ m_force_create b = force /\ m_send_email b = false /\ m_reusable b = false
  | Token _ _ | FindUsers _ _ | GetProfile _ | GetUser _ _ => True
  end.

(** The caller's user is new: the import added one user, the creation was
    answered with success. *)
Definition imported (u : IdentityUser) (x : exchange) : Prop :=
  exists t n res, x = Exchange (PartialImport t "SKIP" [n]) (Ok res) /\ ok res = true /\ body res = Some (Some 1) /\
    n_id n = Some (u_id u) /\ n_email n = u_email u /\ n_attributes n = u_attributes u.
Definition posted (input : RegisterUserInput) (x : exchange) : Prop :=
  exists t n res, x = Exchange (PostUser t n) (Ok res) /\ ok res = true /\ n_email n = i_email input /\
    n_emailVerified n = default false (i_emailVerified input) /\ n_attributes n = i_attributes input.

Section follows.
Context (rule : list exchange -> forall X, kc_cmd X -> Prop) (cfg : Config).
Context (Htoken : forall past i s, rule past _ (Token i s)).

Lemma follows_attempt {E F A B} (p : prog kc_cmd unit E unit A) (k : result E A -> prog kc_cmd unit F unit B) Q : forall past,
  follows rule (fun past r => follows rule Q past (k r)) past p -> follows rule Q past (attempt p k).
Proof. induction p as [a|e|f IH|e p IH|X c f IH]; intros past; cbn; naive_solver. Qed.

Lemma follows_weaken {E A} (p : prog kc_cmd unit E unit A) (P Q : list exchange -> result E A -> Prop) : forall past,
  (forall past r, P past r -> Q past r) -> follows rule P past p -> follows rule Q past p.
Proof. induction p as [a|e|f IH|e p IH|X c f IH]; intros past HPQ; cbn; naive_solver. Qed.

(** A later exchange only adds: [P] holds of every outcome but a success, which
    goes on. *)
Lemma follows_bind {A B} (m : method A) (k : A -> method B) c past Q :
  follows rule (fun past r => match r with Ok (c', a) => follows rule Q past (k a c') | Throw e => Q past (Throw e) end) past (m c) ->
  follows rule Q past (bind m k c).
Proof. intros Hm. apply follows_attempt. revert Hm. apply follows_weaken. by intros past' [[c' a]|e]. Qed.

Lemma follows_token past c Q :
  (forall past' c' t, past `suffix_of` past' -> Q past' (Ok (c', t))) -> (forall past' e, past `suffix_of` past' -> Q past' (Throw e)) ->
  follows rule Q past (serviceToken cfg c).
Proof.
  intros Hok Herr. assert (follows rule Q past (token_request cfg c)) as Hr.
  { split; [apply Htoken|]. intros r. assert (past `suffix_of` Exchange (Token (serviceClientId cfg) (serviceClientSecret cfg)) r :: past)
      as Hs by by apply suffix_cons_r. destruct r as [res|e]; [|by apply Herr]. destruct (ok res); [|by apply Herr]. cbn [negb].
    destruct (body res) as [b|]; [|by apply Herr]. destruct (access_token b) as [t|]; [|by apply Herr].
    destruct (String.length t =? 0)%nat; [by apply Herr|]. intros now. by apply Hok. }
  unfold serviceToken. destruct (cachedToken c); [|exact Hr]. intros t. destruct (Qle_bool _ _); [exact Hr|by apply Hok].
Qed.

Lemma follows_authed {A} (call : string -> kc_cmd (Response A)) c past Q :
  (forall past' t, past `suffix_of` past' -> rule past' _ (call t)) ->
  (forall past' e, past `suffix_of` past' -> Q past' (Throw e)) ->
  (forall past' c' t res, past `suffix_of` past' -> Q (Exchange (call t) (Ok res) :: past') (Ok (c', res))) ->
  follows rule Q past (authed cfg call c).
Proof.
  intros Hc He Hok. apply follows_bind, follows_token; [|done]. intros past' c' t Hs. split; [by apply Hc|].
  intros [res|e]; [by apply Hok|]. apply He. by apply suffix_cons_r.
Qed.

Lemma follows_json {A} (r : Response A) c past Q :
  (forall c', Q past (Throw (c', RawError))) -> (forall b, body r = Some b -> Q past (Ok (c, b))) -> follows rule Q past (json r c).
Proof. unfold json. intros H1 H2. destruct (body r) as [b|] eqn:E; [by apply H2|apply H1]. Qed.

Lemma follows_find email c past Q : (forall past t e, rule past _ (FindUsers t e)) ->
  (forall past' e, past `suffix_of` past' -> Q past' (Throw e)) ->
  (forall past' c' ids, past `suffix_of` past' -> Exists (found email ids) past' -> Q past' (Ok (c', ids))) ->
  follows rule Q past (findUsersByEmail cfg email c).
Proof.
  intros Hr He Hok. unfold findUsersByEmail. destruct (_ =? _)%nat; [by apply He|]. apply follows_bind, follows_authed; [done|done|].
  intros past' c' t res Hs. assert (past `suffix_of` Exchange (FindUsers t email) (Ok res) :: past') as Hs' by by apply suffix_cons_r.
  destruct (ok res) eqn:Eok; cbn [negb]; [|by apply He]. apply follows_json; [intros; by apply He|].
  intros ids Hb. apply Hok; [done|]. left. by exists t, res.
Qed.
End follows.

Lemma exists_suffix {X} (P : X -> Prop) l l' : l `suffix_of` l' -> Exists P l -> Exists P l'.
Proof. intros [k ->] Hl. apply Exists_app. by right. Qed.

#[local] Notation about email p Q := (follows (careful email false false) Q [] p).

Lemma careful_create cfg u v c : about (u_email u) (createUser cfg u v c)
  (fun past r => match r with Ok (_, created) => Exists (imported u) past | _ => True end).
Proof.
  apply follows_bind. unfold getUser. apply follows_bind, follows_authed; [done..|]. intros p1 c1 t1 res1 _.
  destruct (Z.eqb_spec (status res1) 404) as [H4|]; cbn [ret follows].
  2:{ destruct (negb (ok res1)); [done|]. apply follows_bind, follows_json; done. }
  assert (Exists (id_free (u_id u)) (Exchange (GetUser t1 (u_id u)) (Ok res1) :: p1)) as Hid by (left; by exists t1, res1).
  apply follows_bind, follows_find; [done..|]. intros p2 c2 ids Hs Hf. destruct ids as [|x ids]; [|done].
  eapply exists_suffix in Hid; [|exact Hs].
  apply follows_bind, follows_authed; [done| |done|].
  - intros p3 t3 Hs3. split; [done|]. eexists _, (u_id u). split; [done|]. repeat (split; [done|]).
    split; by eapply exists_suffix.
  - intros p3 c3 t3 res3 Hs3. destruct (ok res3) eqn:Eok; [|done]. cbn [negb]. apply follows_bind, follows_json; [done|].
    intros [z|] Hb; [|done]. destruct (decide (z = 1)) as [->|Hne]; [|by destruct z as [|[]|]].
    cbn. left. eexists t3, _, res3. by repeat split.
Qed.

Lemma careful_register cfg i c : about (i_email i) (registerUser cfg i c)
  (fun past r => match r with Ok (_, registered) => Exists (posted i) past | _ => True end).
Proof.
  apply follows_bind, follows_find; [done..|]. intros p2 c2 ids _ Hf. destruct ids as [|x ids]; [|done].
  apply follows_bind, follows_authed; [done| |done|].
  - intros p3 t3 Hs3. repeat (split; [done|]). by eapply exists_suffix.
  - intros p3 c3 t3 res3 Hs3. destruct (_ =? _); [done|]. destruct (ok res3) eqn:Eok; [|done]. cbn. left.
    eexists t3, _, res3. by repeat split.
Qed.

Lemma careful_delete_all cfg email ids l : forall c past, (forall i, In i l -> In i ids) -> Exists (found email ids) past ->
  follows (careful email true false) (fun _ _ => True) past (delete_all cfg l c).
Proof.
  induction l as [|x l IH]; intros c past Hin Hf; [done|]. cbn [delete_all]. apply follows_bind, follows_authed; [done| |done|].
  - intros p3 t3 Hs3. split; [done|]. exists ids. split; [apply Hin; by left|by eapply exists_suffix].
  - intros p3 c3 t3 res3 Hs3. destruct (_ && _); [done|]. apply IH; [intros i Hi; apply Hin; by right|].
    eapply exists_suffix; [|exact Hf]. by apply suffix_cons_r.
Qed.

Lemma careful_delete cfg email c : follows (careful email true false) (fun _ _ => True) [] (deleteUser cfg email c).
Proof. apply follows_bind, follows_find; [done..|]. intros p2 c2 ids _ Hf. by apply (careful_delete_all _ _ ids). Qed.

Lemma careful_initiate cfg email o c :
  follows (careful email false (default false (forceCreate o))) (fun _ _ => True) [] (initiateMagicLink cfg email o c).
Proof.
  unfold initiateMagicLink. destruct (_ =? _)%nat; [done|]. apply follows_bind, follows_authed; [done|done|done|].
  intros p1 c1 t1 res _. destruct (_ =? _); [done|]. destruct (_ || _); [done|]. destruct (ok res); [|done]. cbn [negb].
  apply follows_bind, follows_json; [done|]. intros b _. destruct (r_link b) as [l|]; [|done]. by destruct (_ =? _)%nat.
Qed.

Lemma careful_reads cfg id c1 c2 :
  follows (fun _ X (c : kc_cmd X) => match c with Token _ _ | GetUser _ _ | GetProfile _ => True | _ => False end) (fun _ _ => True) []
    (getUser cfg id c1) /\
  follows (fun _ X (c : kc_cmd X) => match c with Token _ _ | GetUser _ _ | GetProfile _ => True | _ => False end) (fun _ _ => True) []
    (verifyProfileLockdown cfg c2).
Proof.
  split; (apply follows_bind, follows_authed; [done..|]); intros p1 c t res _.
  - destruct (_ =? _); [done|]. destruct (ok res); [|done]. by apply follows_bind, follows_json.
  - destruct (ok res); [|done]. cbn [negb]. apply follows_bind, follows_json; [done|]. intros b _. by destruct (List.filter _ _).
Qed.

(** C26 (Users are created only after a look): whatever Keycloak answers, and
    so however calls interleave or get lost: the adapter imports one user at a
    time, only in the mode that skips existing ones, and only after it was
    answered that nobody has the identifier and that nobody has the address;
    it creates a user only after the second answer, with that address; it
    deletes only identifiers it was given for the address; it lets a link create
    a user only if the caller asks; and to read a user or check the profile it
    changes nothing. It reports a creation only after Keycloak confirmed it. *)
Theorem creations_follow_lookups cfg :
  (forall u verified c, follows (careful (u_email u) false false)
     (fun past r => match r with Ok (_, created) => Exists (imported u) past | _ => True end) [] (createUser cfg u verified c)) /\
  (forall input c, follows (careful (i_email input) false false)
     (fun past r => match r with Ok (_, registered) => Exists (posted input) past | _ => True end) [] (registerUser cfg input c)) /\
  (forall email c, follows (careful email true false) (fun _ _ => True) [] (deleteUser cfg email c)) /\
  (forall email opts c, follows (careful email false (default false (forceCreate opts))) (fun _ _ => True) []
     (initiateMagicLink cfg email opts c)) /\
  (forall id c1 c2,
     let reads _ X (c : kc_cmd X) := match c with Token _ _ | GetUser _ _ | GetProfile _ => True | _ => False end in
     follows reads (fun _ _ => True) [] (getUser cfg id c1) /\ follows reads (fun _ _ => True) [] (verifyProfileLockdown cfg c2)).
Proof.
  split; [apply careful_create|]. split; [apply careful_register|]. split; [apply careful_delete|].
  split; [apply careful_initiate|]. intros id c1 c2. apply careful_reads.
Qed.

(** ** A realm

    The documented behaviour of the endpoints on the users of one realm. An
    address is kept in lower case and belongs to one user; [accepts] is the
    realm's judgement of a bearer token, and [new_id] the identifier it gives. *)

Record KUser := { k_email : string; k_verified : bool; k_enabled : bool; k_attributes : Attributes }.

Record Realm := {
  users : gmap string KUser;
  profile : list UserProfileAttribute;
  requests : list (option string)
}.

(** The identifiers under which an address is found. *)
Definition ids_of (m : gmap string KUser) (email : string) : list string :=
  map fst (List.filter (fun p => String.eqb (k_email (snd p)) (toLowerCase email)) (map_to_list m)).

Definition kuser_of (u : NewUser) : KUser :=
  {| k_email := toLowerCase (n_email u); k_verified := n_emailVerified u; k_enabled := n_enabled u;
     k_attributes := default [] (n_attributes u) |}.

(** Addresses are in lower case and no two users share one. *)
Definition realm_ok (m : gmap string KUser) : Prop :=
  (forall i u, m !! i = Some u -> toLowerCase (k_email u) = k_email u) /\
  (forall i j u v, m !! i = Some u -> m !! j = Some v -> k_email u = k_email v -> i = j).

(** [import_users mode m l]: the users after a partial import and the number
    added, or a refusal. Of the modes only [SKIP] is known: it changes no user
    there is, and adds a user whose address and identifier are free. *)
Class RealmRules := {
  grant : string -> string -> Response TokenResponse;
  accepts : string -> bool;
  new_id : gmap string KUser -> string;
  new_link : string -> MagicLinkBody -> string;
  import_users : string -> gmap string KUser -> list NewUser -> option (gmap string KUser * Z);
  new_id_fresh m : m !! new_id m = None;
  import_skips m l m' n : realm_ok m -> import_users "SKIP" m l = Some (m', n) -> m ⊆ m' /\ realm_ok m';
  import_adds m u id : n_id u = Some id -> m !! id = None -> ids_of m (n_email u) = [] ->
    import_users "SKIP" m [u] = Some (<[id := kuser_of u]> m, 1)
}.

Section realm.
Context `{RealmRules}.

Definition with_users (w : Realm) (m : gmap string KUser) : Realm :=
  {| users := m; profile := profile w; requests := requests w |}.

Definition answer {A} (st : Z) (b : A) : Response A := {| status := st; body := Some b |}.
Definition refuse {A} (st : Z) : Response A := {| status := st; body := None |}.

Definition serve {X} (w : Realm) (c : kc_cmd X) : Realm * result unit X :=
  match c in kc_cmd X return Realm * result unit X with
  | Token i s => (w, Ok (grant i s))
  | MagicLink t b =>
      if negb (accepts t) then (w, Ok (refuse 401))
      else match ids_of (users w) (m_email b) with
           | id :: _ => (w, Ok (answer 200 {| user_id := id; r_link := Some (new_link id b) |}))
           | [] =>
               if m_force_create b then
                 let id := new_id (users w) in
                 (with_users w (<[id := {| k_email := toLowerCase (m_email b); k_verified := false; k_enabled := true;
                                           k_attributes := [] |}]> (users w)),
                  Ok (answer 200 {| user_id := id; r_link := Some (new_link id b) |}))
               else (w, Ok (refuse 404))
           end
  | FindUsers t email => if negb (accepts t) then (w, Ok (refuse 401)) else (w, Ok (answer 200 (ids_of (users w) email)))
  | DeleteUser t id =>
      if negb (accepts t) then (w, Ok (refuse 401))
      else match users w !! id with
           | Some _ => (with_users w (delete id (users w)), Ok (answer 204 tt))
           | None => (w, Ok (refuse 404))
           end
  | GetProfile t => if negb (accepts t) then (w, Ok (refuse 401)) else (w, Ok (answer 200 (Some (profile w))))
  | GetUser t id =>
      if negb (accepts t) then (w, Ok (refuse 401))
      else match users w !! id with
           | Some u => (w, Ok (answer 200 {| b_id := id; b_email := Some (k_email u); b_attributes := Some (k_attributes u) |}))
           | None => (w, Ok (refuse 404))
           end
  | PartialImport t sk l =>
      if negb (accepts t) then (w, Ok (refuse 401))
      else match import_users sk (users w) l with
           | Some (m, n) => (with_users w m, Ok (answer 200 (Some n)))
           | None => (w, Ok (refuse 409))
           end
  | PostUser t u =>
      if negb (accepts t) then (w, Ok (refuse 401))
      else match ids_of (users w) (n_email u) with
           | _ :: _ => (w, Ok (refuse 409))
           | [] => (with_users w (<[new_id (users w) := kuser_of u]> (users w)), Ok (answer 201 tt))
           end
  end.

(** Beside the users, the realm keeps the bearer of every call it served. *)
Definition perform_kc {X} (w : Realm) (c : kc_cmd X) : Realm * result unit X :=
  serve {| users := users w; profile := profile w; requests := bearer c :: requests w |} c.

#[export] Instance realm_service : Service Realm kc_cmd unit unit := {
  perform := @perform_kc;
  lost := tt;
  record_event w _ := w
}.

(** ** Lemmas: the realm *)

Lemma toLowerCase_idem s : toLowerCase (toLowerCase s) = toLowerCase s.
Proof.
  assert (forall c, lower_char (lower_char c) = lower_char c) as Hc.
  { intros c. apply Ascii.eqb_eq. apply (all_chars_spec (fun c => Ascii.eqb (lower_char (lower_char c)) (lower_char c))). vm_compute. reflexivity. }
  unfold toLowerCase. induction s as [|c s IH]; cbn [str_map]; [done|]. by rewrite Hc, IH.
Qed.

Lemma ids_of_spec m e i : In i (ids_of m e) <-> exists u, m !! i = Some u /\ k_email u = toLowerCase e.
Proof.
  unfold ids_of. rewrite in_map_iff. split.
  - intros ([j u] & <- & Hin). apply filter_In in Hin as [Hin He%String.eqb_eq]. exists u. split; [|done].
    by apply list_elem_of_In, elem_of_map_to_list in Hin.
  - intros (u & Hu & He). exists (i, u). split; [done|]. apply filter_In. split; [|by apply String.eqb_eq].
    by apply list_elem_of_In, elem_of_map_to_list.
Qed.

Lemma ids_of_nil m e : ids_of m e = [] -> forall i u, m !! i = Some u -> k_email u <> toLowerCase e.
Proof. intros Hn i u Hu He. assert (In i (ids_of m e)) as Hin by (apply ids_of_spec; by exists u). by rewrite Hn in Hin. Qed.

Lemma ids_of_lower m e : ids_of m (toLowerCase e) = ids_of m e.
Proof. unfold ids_of. by rewrite toLowerCase_idem. Qed.

Lemma insert_ok m e id u : realm_ok m -> ids_of m e = [] -> m !! id = None -> k_email u = toLowerCase e ->
  m ⊆ <[id := u]> m /\ realm_ok (<[id := u]> m).
Proof.
  intros [Hl Hu] He Hid Heq. split; [by apply insert_subseteq|]. split.
  - intros i v. rewrite lookup_insert. case_decide; [intros [= <-]; rewrite Heq; apply toLowerCase_idem|apply Hl].
  - intros i j v1 v2. rewrite !lookup_insert. repeat case_decide; subst.
    + done.
    + intros [= <-] Hj Hvv. rewrite Heq in Hvv. by destruct (ids_of_nil _ _ He _ _ Hj).
    + intros Hi [= <-] Hvv. rewrite Heq in Hvv. by destruct (ids_of_nil _ _ He _ _ Hi).
    + apply Hu.
Qed.

(** Every call but a deletion and an import that is told anything but to skip. *)
Definition keeps {X} (c : kc_cmd X) : Prop :=
  match c with DeleteUser _ _ => False | PartialImport _ sk _ => sk = "SKIP" | _ => True end.

Lemma serve_grows {X} w (c : kc_cmd X) : keeps c -> realm_ok (users w) ->
  users w ⊆ users (fst (serve w c)) /\ realm_ok (users (fst (serve w c))).
Proof.
  intros Hk Hm. destruct c as [i s|t b|t e|t i|t|t i|t sk l|t u]; cbn [serve]; try destruct (accepts t); cbn [negb fst]; try done.
  - destruct (ids_of (users w) (m_email b)) eqn:He; [|done]. destruct (m_force_create b); [|done].
    by apply (insert_ok _ (m_email b)); [| |apply new_id_fresh|].
  - by destruct (users w !! i).
  - cbn [keeps] in Hk. rewrite Hk. destruct (import_users "SKIP" (users w) l) as [[m n]|] eqn:Hi; [|done]. by eapply import_skips.
  - destruct (ids_of (users w) (n_email u)) eqn:He; [|done]. by apply (insert_ok _ (n_email u)); [| |apply new_id_fresh|].
Qed.

Lemma deliver_grows {X} dv w (c : kc_cmd X) : keeps c -> realm_ok (users w) ->
  users w ⊆ users (fst (deliver dv w c)) /\ realm_ok (users (fst (deliver dv w c))).
Proof.
  intros Hk Hm. destruct dv; cbn [deliver perform realm_service]; [| |rewrite (surjective_pairing (perform_kc w c))];
    try (split; done); unfold perform_kc; apply (serve_grows {| users := users w |} c Hk Hm).
Qed.

(** ** Lemmas: methods *)

Lemma sends_bind {A B} (m : method A) (k : A -> method B) c :
  sends (@keeps) (m c) -> (forall a c, sends (@keeps) (k a c)) -> sends (@keeps) (bind m k c).
Proof. intros Hm Hk. apply sends_await; [done|]. intros [c' a]. apply Hk. Qed.

Lemma sends_token cfg c : sends (@keeps) (serviceToken cfg c).
Proof.
  assert (sends (@keeps) (token_request cfg c)) as Hr.
  { split; [done|]. intros [res|e]; [|done]. cbn. destruct (ok res); [|done]. cbn. destruct (body res) as [b|]; [|done].
    destruct (access_token b) as [t|]; [|done]. by destruct (String.length t =? 0)%nat. }
  unfold serviceToken. destruct (cachedToken c); [|done]. intros t. by destruct (Qle_bool _ _).
Qed.

Lemma sends_authed {A} cfg (call : string -> kc_cmd (Response A)) c : (forall t, keeps (call t)) -> sends (@keeps) (authed cfg call c).
Proof. intros Hk. apply sends_bind; [apply sends_token|]. intros t c'. split; [apply Hk|]. by intros [?|?]. Qed.

Lemma sends_json {A} (r : Response A) c : sends (@keeps) (json r c).
Proof. unfold json. by destruct (body r). Qed.

Lemma sends_find cfg e c : sends (@keeps) (findUsersByEmail cfg e c).
Proof.
  unfold findUsersByEmail. destruct (_ =? _)%nat; [done|]. apply sends_bind; [by apply sends_authed|].
  intros r c'. destruct (ok r); [apply sends_json|done].
Qed.

Lemma sends_get cfg i c : sends (@keeps) (getUser cfg i c).
Proof.
  apply sends_bind; [by apply sends_authed|]. intros r c'. destruct (_ =? _); [done|]. destruct (ok r); [|done].
  apply sends_bind; [apply sends_json|done].
Qed.

Lemma sends_initiate cfg e o c : sends (@keeps) (initiateMagicLink cfg e o c).
Proof.
  unfold initiateMagicLink. destruct (_ =? _)%nat; [done|]. apply sends_bind; [by apply sends_authed|]. intros r c'.
  destruct (_ =? _); [done|]. destruct (_ || _); [done|]. destruct (ok r); [|done].
  apply sends_bind; [apply sends_json|]. intros b c2. destruct (r_link b) as [l|]; [|done]. by destruct (_ =? _)%nat.
Qed.

Lemma sends_verify cfg c : sends (@keeps) (verifyProfileLockdown cfg c).
Proof.
  apply sends_bind; [by apply sends_authed|]. intros r c'. destruct (ok r); [|done]. cbn [negb].
  apply sends_bind; [apply sends_json|]. intros b c2. by destruct (List.filter _ _).
Qed.

Lemma sends_create cfg u v c : sends (@keeps) (createUser cfg u v c).
Proof.
  apply sends_bind; [apply sends_get|]. intros [?|] c1; [done|]. apply sends_bind; [apply sends_find|]. intros [|? ?] c2; [|done].
  apply sends_bind; [by apply sends_authed|]. intros r c3. destruct (ok r); [|done]. apply sends_bind; [apply sends_json|done].
Qed.

Lemma sends_register cfg i c : sends (@keeps) (registerUser cfg i c).
Proof.
  apply sends_bind; [apply sends_find|]. intros [|? ?] c2; [|done]. apply sends_bind; [by apply sends_authed|]. intros r c3.
  destruct (_ =? _); [done|]. by destruct (ok r).
Qed.

#[local] Notation runs p w Q := (wp (W := Realm) any_time any_delivery p w Q).

Lemma wp_bind {A B} (m : method A) (k : A -> method B) c w Q :
  runs (m c) w (fun w' r => match r with Ok (c', a) => runs (k a c') w' Q | Throw e => Q w' (Throw e) end) ->
  runs (bind m k c) w Q.
Proof. intros Hm. apply wp_await. revert Hm. apply wp_weaken. by intros w' [[c' a]|e]. Qed.

(** Errors that come from a call, not from what the caller passed. *)
Definition from_call (e : kc_error) : Prop := match e with IdentityProviderError (config_missing | unknown_user) _ => False | _ => True end.

Lemma wp_token cfg c w :
  runs (serviceToken cfg c) w (fun w' r => users w' = users w /\ profile w' = profile w /\
                                          match r with Throw (_, e) => from_call e | Ok _ => True end).
Proof.
  set (Q := fun (w' : Realm) r => _). assert (runs (token_request cfg c) w Q) as Hr.
  { intros dv _. destruct dv; cbn [deliver perform realm_service fst snd perform_kc serve lost]; [|done|done].
    destruct (ok _); cbn [negb].
    - destruct (body _) as [b|]; [|done]. destruct (access_token b) as [t|]; [|done]. by destruct (String.length t =? 0)%nat.
    - split; [done|]. split; [done|]. unfold from_call, reason_of. by destruct (_ || _). }
  unfold serviceToken. destruct (cachedToken c); [|exact Hr]. intros t _. destruct (Qle_bool _ _); [exact Hr|done].
Qed.

(** What a call with the token does to the users: before it nothing changes;
    its reply may be lost. *)
Lemma wp_authed {A} cfg (call : string -> kc_cmd (Response A)) c w Q :
  (forall w1 c1 e, users w1 = users w -> from_call e -> Q w1 (Throw (c1, e))) ->
  (forall w1 c1 t, users w1 = users w -> profile w1 = profile w ->
     Q (fst (serve w1 (call t))) (Throw (c1, RawError)) /\
     match snd (serve w1 (call t)) with Ok res => Q (fst (serve w1 (call t))) (Ok (c1, res)) | Throw _ => True end) ->
  runs (authed cfg call c) w Q.
Proof.
  intros He Hs. apply wp_bind. eapply wp_weaken; [|apply wp_token]. intros w1 [[c1 t]|[c1 e]] (Hu & Hp & Hc); [|by apply He].
  intros dv _.
  destruct (Hs {| users := users w1; profile := profile w1; requests := bearer (call t) :: requests w1 |} c1 t Hu Hp) as [H1 H2].
  destruct dv; cbn [deliver perform realm_service fst snd lost wp]; [|by apply He|exact H1].
  unfold perform_kc. destruct (serve _ (call t)) as [w2 [res|e]]; [exact H2|exact H1].
Qed.

Lemma wp_json {A} (r : Response A) c w Q :
  (forall c1, Q w (Throw (c1, RawError))) -> (forall b, body r = Some b -> Q w (Ok (c, b))) -> runs (json r c) w Q.
Proof. unfold json. intros H1 H2. destruct (body r) as [b|] eqn:E; [by apply H2|apply H1]. Qed.

Lemma wp_find cfg email c w Q :
  (forall w1 c1 e, users w1 = users w -> Q w1 (Throw (c1, e))) ->
  (forall w1 c1, users w1 = users w -> Q w1 (Ok (c1, ids_of (users w) email))) ->
  runs (findUsersByEmail cfg email c) w Q.
Proof.
  intros He Hs. unfold findUsersByEmail. destruct (_ =? _)%nat; [by apply He|]. apply wp_bind. apply wp_authed; [by intros; apply He|].
  intros w1 c1 t Hu Hp. cbn [serve]. destruct (accepts t); cbn [negb fst snd]; (split; [by apply He|]); [|by apply He].
  apply wp_json; [by intros; apply He|]. intros b [= <-]. rewrite Hu. by apply Hs.
Qed.

Lemma wp_get cfg i c w Q :
  (forall w1 c1 e, users w1 = users w -> Q w1 (Throw (c1, e))) ->
  (forall w1 c1, users w1 = users w -> Q w1 (Ok (c1, (fun u => {| u_id := i; u_email := k_email u; u_attributes := Some (k_attributes u) |})
                                                       <$> (users w !! i)))) ->
  runs (getUser cfg i c) w Q.
Proof.
  intros He Hs. unfold getUser. apply wp_bind. apply wp_authed; [by intros; apply He|].
  intros w1 c1 t Hu Hp. cbn [serve]. destruct (accepts t); cbn [negb fst snd]; [|split; by apply He].
  specialize (Hs w1 c1 Hu). rewrite Hu. destruct (users w !! i); (split; [by apply He|]); [|exact Hs].
  apply wp_bind, wp_json; [by intros; apply He|]. intros b [= <-]. exact Hs.
Qed.

(** ** Users are created once and never rewritten *)

(** The user a registration adds. *)
Definition new_user (email : string) (verified : bool) (attributes : option Attributes) : KUser :=
  {| k_email := toLowerCase email; k_verified := verified; k_enabled := true; k_attributes := default [] attributes |}.

(** Also (What a registration does): whatever messages are lost, [registerUser]
    answers that the user exists only if it does, and then changes nothing; it
    answers that it registered only if nobody had the address, and then one new
    user has it, unverified unless the caller says otherwise, with the caller's
    attributes; and an error leaves the users as they were or with that one
    user. *)
Theorem registerUser_spec cfg input c w :
  let email := i_email input in
  let added w' := ids_of (users w) email = [] /\ exists id, users w !! id = None /\
    users w' = <[id := new_user email (default false (i_emailVerified input)) (i_attributes input)]> (users w) in
  wp any_time any_delivery (registerUser cfg input c) w (fun w' r =>
    match r with
    | Ok (_, registered) => added w'
    | Ok (_, exists_already) => users w' = users w /\ ids_of (users w) email <> []
    | Throw _ => users w' = users w \/ added w'
    end).
Proof.
  intros email added. apply wp_bind, wp_find; [by left|]. intros w1 c1 Hu. fold email.
  destruct (ids_of (users w) email) as [|x l] eqn:He; [|by split].
  apply wp_bind, wp_authed; [intros w2 c2 e Hu2; left; congruence|]. intros w2 c2 t Hu2 Hp. cbn [serve n_email].
  destruct (accepts t); cbn [negb fst snd]; [|split; left; congruence]. rewrite Hu2, Hu. fold email. rewrite He.
  assert (added (with_users w2 (<[new_id (users w) := new_user email (default false (i_emailVerified input)) (i_attributes input)]>
    (users w)))) as Hadd by (split; [done|]; exists (new_id (users w)); split; [apply new_id_fresh|done]).
  split; [by right|exact Hadd].
Qed.

(** Also (What an import does): [createUser] answers that it created the user only
    if neither its identifier nor its address was taken, and then exactly that
    user is new, under the caller's identifier; any other answer, and any error
    but that of a lost reply, leaves the users as they were. *)
Theorem createUser_spec cfg u verified c w :
  let added w' := users w !! u_id u = None /\ ids_of (users w) (u_email u) = [] /\
    users w' = <[u_id u := new_user (u_email u) (default true verified) (u_attributes u)]> (users w) in
  wp any_time any_delivery (createUser cfg u verified c) w (fun w' r =>
    match r with
    | Ok (_, created) => added w'
    | Ok (_, conflicting) => users w' = users w /\ (users w !! u_id u <> None \/ ids_of (users w) (u_email u) <> [])
    | Throw (_, e) => users w' = users w \/ e = RawError /\ added w'
    end).
Proof.
  intros added. apply wp_bind, wp_get; [by left|]. intros w1 c1 Hu. destruct (users w !! u_id u) as [k|] eqn:Hid.
  { cbn. split; [done|]. by left. }
  cbn [fmap option_fmap option_map]. apply wp_bind, wp_find; [intros w2 c2 e H2; left; congruence|]. intros w2 c2 Hu2. rewrite Hu.
  destruct (ids_of (users w) (u_email u)) as [|x l] eqn:He; [|split; [congruence|by right]].
  apply wp_bind, wp_authed; [intros w3 c3 e Hu3; left; congruence|]. intros w3 c3 t Hu3 Hp. cbn [serve].
  destruct (accepts t); cbn [negb fst snd]; [|split; left; congruence]. rewrite Hu3, Hu2, Hu, (import_adds _ _ (u_id u)) by done. cbn [fst snd].
  split; [right; by split|]. apply wp_bind, wp_json; [by intros; right|]. intros b [= <-]. by cbn.
Qed.

Lemma wp_delete_all cfg found : forall c w,
  wp any_time any_delivery (delete_all cfg found c) w (fun w' r =>
    users w' ⊆ users w /\ (forall i, ~ In i found -> users w' !! i = users w !! i) /\
    match r with Ok _ => forall i, In i found -> users w' !! i = None | Throw _ => True end).
Proof.
  induction found as [|x found IH]; intros c w; [by cbn|]. cbn [delete_all].
  apply wp_bind, wp_authed; [intros w1 c1 e ->; by split|]. intros w1 c1 t Hu Hp. cbn [serve].
  destruct (accepts t); cbn [negb fst snd]; [|split; cbn; rewrite Hu; by split].
  assert (forall w2 c2, users w2 = delete x (users w) -> wp any_time any_delivery (delete_all cfg found c2) w2 (fun w' r =>
    users w' ⊆ users w /\ (forall i, ~ In i (x :: found) -> users w' !! i = users w !! i) /\
    match r with Ok _ => forall i, In i (x :: found) -> users w' !! i = None | Throw _ => True end)) as Hrest.
  { intros w2 c2 Hw2. eapply wp_weaken; [|apply IH]. intros w' r (Hs & Ho & Hr). rewrite Hw2 in Hs, Ho. split; [|split].
    - etrans; [exact Hs|apply delete_subseteq].
    - intros i Hi. rewrite Ho by (intros Hin; apply Hi; by right). apply lookup_delete_ne. intros ->. apply Hi. by left.
    - destruct r as [a|e]; [|done]. intros i [<-|Hi]; [|by apply Hr]. destruct (users w' !! x) as [v|] eqn:E; [|done].
      assert (delete x (users w) !! x = Some v) as Hd by (eapply lookup_weaken; done). by rewrite lookup_delete_eq in Hd. }
  rewrite Hu. destruct (users w !! x) as [u|] eqn:Hx; cbn [fst snd].
  - split; [|by apply Hrest]. cbn. split; [apply delete_subseteq|]. split; [|done]. intros i Hi. apply lookup_delete_ne.
    intros ->. apply Hi. by left.
  - split; [by rewrite Hu|]. apply Hrest. rewrite Hu. symmetry. by apply delete_id.
Qed.

(** Also (Deletion by address): whatever messages are lost, [deleteUser] removes
    users of that address only and changes no other; when it resolves nobody
    has the address, whether or not somebody had it before. *)
Theorem deleteUser_spec cfg email c w :
  wp any_time any_delivery (deleteUser cfg email c) w (fun w' r =>
    users w' ⊆ users w /\
    (forall i u, users w !! i = Some u -> k_email u <> toLowerCase email -> users w' !! i = Some u) /\
    match r with Ok _ => ids_of (users w') email = [] | Throw _ => True end).
Proof.
  apply wp_bind, wp_find; [intros w1 c1 e ->; by split|]. intros w1 c1 Hu.
  eapply wp_weaken; [|apply wp_delete_all]. intros w' r (Hs & Ho & Hr). rewrite Hu in Hs, Ho. split; [done|]. split.
  - intros i u Hi Hne. rewrite Ho; [done|]. intros (v & Hv & He)%ids_of_spec. congruence.
  - destruct r as [a|e]; [|done]. destruct (ids_of (users w') email) as [|i l] eqn:E; [done|].
    assert (In i (ids_of (users w') email)) as (u & Hiu & He)%ids_of_spec by (rewrite E; by left).
    assert (users w' !! i = None) as Hn; [|congruence]. apply Hr, ids_of_spec. exists u. split; [|done]. by eapply lookup_weaken.
Qed.

(** What the callers of the adapter may have under way. *)
Inductive activity :=
| Initiate (email : string) (opts : MagicLinkOptions)
| Register (input : RegisterUserInput)
| Create (u : IdentityUser) (emailVerified : option bool)
| Get (id : string)
| Verify.

Definition start (cfg : Config) (a : activity) (c : Cache) : kc_prog unit :=
  match a with
  | Initiate e o => bind (initiateMagicLink cfg e o) (fun _ => ret tt) c
  | Register i => bind (registerUser cfg i) (fun _ => ret tt) c
  | Create u v => bind (createUser cfg u v) (fun _ => ret tt) c
  | Get i => bind (getUser cfg i) (fun _ => ret tt) c
  | Verify => bind (verifyProfileLockdown cfg) (fun _ => ret tt) c
  end.

Lemma sends_start cfg a c : sends (@keeps) (start cfg a c).
Proof.
  destruct a; apply sends_bind; try done;
    [apply sends_initiate|apply sends_register|apply sends_create|apply sends_get|apply sends_verify].
Qed.

(** Also (Nobody is overwritten): however initiations, registrations, imports and
    reads interleave, on any number of adapters and with any messages lost,
    every user there was is still there, unchanged, and no two users share an
    address. *)
Theorem users_never_overwritten cfg calls sched w :
  realm_ok (users w) ->
  let '(w', _) := run_steps (W := Realm) sched w (map (fun ac => start cfg (fst ac) (snd ac)) calls) in
  users w ⊆ users w' /\ realm_ok (users w').
Proof.
  intros Hw. pose proof (run_steps_ind (W := Realm)
    (fun w' ps => (users w ⊆ users w' /\ realm_ok (users w')) /\ Forall (fun p => sends (@keeps) p) ps) (fun _ => True) sched w
    (map (fun ac => start cfg (fst ac) (snd ac)) calls)) as Hrun.
  destruct (run_steps sched w _) as [w' ps']. apply Hrun.
  - intros w1 ps i now dv p [[Hs Hok] Hps] _ Hi. assert (sends (@keeps) p) as Hp by (by eapply Forall_lookup_1).
    destruct p as [a|e|k|e p|X x k]; cbn [step fst snd]; try (split; [done|]; apply Forall_insert; [done|]; try apply Hp; done).
    destruct Hp as [Hx Hk]. destruct (deliver_grows dv w1 x Hx Hok) as [Hs' Hok']. destruct (deliver dv w1 x) as [w2 r].
    cbn [fst] in *. split; [split; [by etrans|done]|]. apply Forall_insert; [done|apply Hk].
  - split; [done|]. apply Forall_forall. intros p (ac & -> & _)%list_elem_of_fmap. apply sends_start.
  - by apply Forall_forall.
Qed.

(** ** The service token *)

(** Also (A service token is granted and fresh): with clock readings in [T], the
    token that is used is the cached one, before its recorded end, or one that
    the realm has just granted to these credentials, kept until
    [TOKEN_EXPIRY_SLACK_MS] before the end of its lifetime; on an error the
    cache is as before, and the error says nothing of the request: only an
    answer that is no JSON is passed on as it is. *)
Theorem serviceToken_spec T cfg c w :
  let granted := grant (serviceClientId cfg) (serviceClientSecret cfg) in
  wp T any_delivery (serviceToken cfg c) w (fun w' r =>
    users w' = users w /\
    match r with
    | Ok (c', t) =>
        cachedToken c' = Some t /\
        ((c' = c /\ exists now, T now /\ (inject_Z now < cachedTokenExpiresAt c)%Q) \/
         (exists b now, ok granted = true /\ body granted = Some b /\ access_token b = Some t /\ t <> "" /\ T now /\
            cachedTokenExpiresAt c' =
              (inject_Z now + non_negative (default (inject_Z 60) (expires_in b) * inject_Z 1000 - inject_Z TOKEN_EXPIRY_SLACK_MS))%Q))
    | Throw (c', e) =>
        c' = c /\
        match e with
        | RawError => ok granted = true /\ body granted = None
        | IdentityProviderError unauthorized (Some st) => st = status granted /\ (st = 401 \/ st = 403)
        | IdentityProviderError provider_error _ => True
        | _ => False
        end
    end).
Proof.
  intros granted. set (Q := fun (w' : Realm) r => users w' = users w /\ _).
  assert (wp T any_delivery (token_request cfg c) w Q) as Hr.
  { intros dv _. destruct dv; cbn [deliver perform realm_service fst snd perform_kc serve lost]; [|done|done]. fold granted.
    destruct (ok granted) eqn:Hok; cbn [negb].
    - destruct (body granted) as [b|] eqn:Hb; [|by subst Q]. destruct (access_token b) as [t|] eqn:Ht; [|by subst Q].
      destruct (String.length t =? 0)%nat eqn:Hl; [by subst Q|]. intros now Hn. split; [done|]. split; [done|]. right. exists b, now.
      repeat (split; [done|]). split; [|done]. intros ->. done.
    - split; [done|]. split; [done|]. unfold reason_of. destruct (_ || _) eqn:Hs; [|done]. split; [done|].
      apply orb_true_iff in Hs as [Hs|Hs]; apply Z.eqb_eq in Hs; auto. }
  unfold serviceToken. destruct (cachedToken c) as [t|] eqn:Hc; [|exact Hr]. intros now Hn.
  destruct (Qle_bool (cachedTokenExpiresAt c) (inject_Z now)) eqn:He; [exact Hr|]. split; [done|]. split; [done|]. left. split; [done|].
  exists now. split; [done|]. apply Qnot_le_lt. intros Hle%Qle_bool_iff. congruence.
Qed.

(** ** The lockdown check *)

(** The entry of an attribute that the check looks at: the first of its name. *)
Definition entry_of (l : list UserProfileAttribute) (name : string) : option UserProfileAttribute :=
  List.find (fun a => match a_name a with Some n => String.eqb n name | None => false end) l.

Lemma admin_only_spec a : admin_only a = true <-> exists edit, a_edit a = Some edit /\ edit <> [] /\ forall r, In r edit -> r = "admin".
Proof.
  unfold admin_only. destruct (a_edit a) as [edit|]; [|split; [done|by intros (? & ? & _)]]. rewrite andb_true_iff, forallb_forall. split.
  - intros [H1 H2]. exists edit. split; [done|]. split; [by destruct edit|]. intros r Hr%H2. by apply String.eqb_eq in Hr.
  - intros (e & [= <-] & Hne & Hall). split; [by destruct edit|]. intros r ->%Hall. done.
Qed.

(** Also (The lockdown check): it resolves only if every privilege-bearing
    attribute that the profile declares can be edited by the administrator and
    by nobody else, and it reports a violation only if there is one. *)
Theorem verifyProfileLockdown_spec cfg c w :
  let locked name := match entry_of (profile w) name with
                     | Some a => exists edit, a_edit a = Some edit /\ edit <> [] /\ forall r, In r edit -> r = "admin"
                     | None => True
                     end in
  wp any_time any_delivery (verifyProfileLockdown cfg c) w (fun w' r =>
    users w' = users w /\
    match r with
    | Ok _ => forall name, In name PRIVILEGE_BEARING_ATTRIBUTES -> locked name
    | Throw (_, IdentityProviderError config_missing _) => exists name, In name PRIVILEGE_BEARING_ATTRIBUTES /\ ~ locked name
    | Throw _ => True
    end).
Proof.
  intros locked.
  assert (forall name, user_editable (profile w) name = false <-> locked name) as Hu.
  { intros name. unfold user_editable, locked, entry_of. destruct (List.find _ _) as [a|]; [|done].
    rewrite negb_false_iff. apply admin_only_spec. }
  apply wp_bind, wp_authed.
  { intros w1 c1 e H1 H2. split; [done|]. by destruct e as [[]|]. }
  intros w1 c1 t H1 Hp. cbn [serve]. destruct (accepts t); cbn [negb fst snd]; [|by split].
  split; [done|]. apply wp_bind, wp_json; [done|]. intros b [= <-]. change (default [] (Some (profile w1))) with (profile w1). rewrite Hp.
  destruct (List.filter (user_editable (profile w)) PRIVILEGE_BEARING_ATTRIBUTES) as [|n l] eqn:Hf.
  - cbn [ret wp]. split; [done|]. intros name Hin. apply Hu. destruct (user_editable (profile w) name) eqn:E; [|done].
    exfalso. change (@In string name []). rewrite <- Hf. by apply filter_In.
  - split; [done|]. exists n. assert (In n (n :: l)) as Hin by (by left). rewrite <- Hf in Hin. apply filter_In in Hin as [Hin E].
    split; [done|]. intros Hl%Hu. congruence.
Qed.

(** Also (What a link initiation does): whatever messages are lost, a link is
    given only for a user the address belongs to afterwards, and the mail is
    left to the caller; the user was there before, or the caller asked for its
    creation; [unknown_user] is answered only for an address nobody has, and
    changes nothing. *)
Theorem initiateMagicLink_spec cfg email opts c w :
  let added w' := ids_of (users w) email = [] /\ forceCreate opts = Some true /\ exists id, users w !! id = None /\
    users w' = <[id := {| k_email := toLowerCase email; k_verified := false; k_enabled := true; k_attributes := [] |}]> (users w) in
  wp any_time any_delivery (initiateMagicLink cfg email opts c) w (fun w' r =>
    (users w' = users w \/ added w') /\
    match r with
    | Ok (_, i) => emailSent i = false /\ link i <> "" /\ In (userId i) (ids_of (users w') email)
    | Throw (_, IdentityProviderError unknown_user _) => users w' = users w /\ ids_of (users w) email = []
    | Throw _ => True
    end).
Proof.
  intros added. unfold initiateMagicLink. destruct (String.length email =? 0)%nat; [by split; [left|]|].
  apply wp_bind, wp_authed.
  { intros w1 c1 e Hu He. split; [by left|]. by destruct e as [[]|]. }
  intros w1 c1 t Hu Hp. cbn [serve magic_link_body m_email m_force_create]. destruct (accepts t); cbn [negb fst snd]; [|by split; (split; [left|])].
  rewrite Hu. destruct (ids_of (users w) email) as [|i l] eqn:He.
  - destruct (forceCreate opts) as [[]|] eqn:Hf; cbn [default from_option]; unfold Datatypes.id; cbn [fst snd];
      [|by split; (split; [by left|])..].
    set (m := <[_ := _]> (users w)). assert (added (with_users w1 m)) as Hadd.
    { split; [done|]. split; [done|]. exists (new_id (users w)). split; [apply new_id_fresh|done]. }
    split; [split; [by right|done]|]. apply wp_bind, wp_json; [intros c2; split; [by right|done]|]. intros b [= <-]. cbn [r_link user_id].
    destruct (String.length _ =? 0)%nat eqn:Hl; [split; [by right|done]|]. split; [by right|]. cbn [emailSent link userId].
    split; [done|]. split; [intros H0; by rewrite H0 in Hl|]. apply ids_of_spec. eexists. split; [apply lookup_insert_eq|done].
  - split; [split; [by left|done]|]. apply wp_bind, wp_json; [intros c2; split; [by left|done]|]. intros b [= <-]. cbn [r_link user_id fst].
    destruct (String.length _ =? 0)%nat eqn:Hl; [split; [by left|done]|]. split; [by left|]. cbn [emailSent link userId].
    split; [done|]. split; [intros H0; by rewrite H0 in Hl|]. rewrite Hu, He. by left.
Qed.
End realm.

(** ** URLs *)

Definition component_char (c : ascii) : bool := unreserved c || Ascii.eqb c "%".

(** Also (An argument stays inside its component): an encoded identifier or
    address holds no character that could end the path segment or the query
    parameter it stands in. *)
Theorem encoded_stays_inside s : str_all component_char (encodeURIComponent s) = true /\
  Forall (fun c => char_in c (encodeURIComponent s) = false) ["/"; "?"; "#"; "&"; "="; " "]%char.
Proof.
  assert (forall c, str_all component_char (if unreserved c then String.String c ""
       else if code c <? 128 then percent (code c) else percent (192 + code c / 64) +:+ percent (128 + code c mod 64)) = true) as Hc.
  { intros c. apply (all_chars_spec (fun c => str_all component_char (if unreserved c then String.String c ""
       else if code c <? 128 then percent (code c) else percent (192 + code c / 64) +:+ percent (128 + code c mod 64)))). vm_compute. reflexivity. }
  assert (str_all component_char (encodeURIComponent s) = true) as Hs.
  { induction s as [|c s IH]; [done|]. cbn [encodeURIComponent]. by rewrite str_all_app, Hc, IH. }
  split; [done|]. apply Forall_forall. intros d Hd. eapply (str_all_not_exists component_char); [|exact Hs].
  intros c Hc1. apply Bool.not_true_iff_false. intros ->%Ascii.eqb_eq. revert Hc1.
  repeat (apply elem_of_cons in Hd as [->|Hd]; [by vm_compute|]). by apply elem_of_nil in Hd.
Qed.

(** ** Runs *)

#[local] Definition next_id (m : gmap string KUser) : string := fresh (dom m : gset string).

#[local] Lemma next_id_fresh m : m !! next_id m = None.
Proof. unfold next_id. pose proof (is_fresh (dom m : gset string)) as Hf. by apply not_elem_of_dom in Hf. Qed.

(** With [SKIP] a user that exists is passed over, with any other mode replaced. *)
#[local] Fixpoint import (overwrite : bool) (m : gmap string KUser) (l : list NewUser) (added : Z) : option (gmap string KUser * Z) :=
  match l with
  | [] => Some (m, added)
  | u :: rest =>
      match ids_of m (n_email u), n_id u with
      | i :: _, _ => import overwrite (if overwrite then <[i := kuser_of u]> m else m) rest added
      | [], Some id => match m !! id with Some _ => None | None => import overwrite (<[id := kuser_of u]> m) rest (added + 1) end
      | [], None => import overwrite (<[next_id m := kuser_of u]> m) rest (added + 1)
      end
  end.

#[local] Lemma import_grows l : forall m n m' n', realm_ok m -> import false m l n = Some (m', n') -> m ⊆ m' /\ realm_ok m'.
Proof.
  induction l as [|u l IH]; intros m n m' n' Hm; cbn [import]; [by intros [= <- _]|].
  destruct (ids_of m (n_email u)) as [|? ?] eqn:He; [|by apply IH].
  destruct (n_id u) as [i|].
  - destruct (m !! i) eqn:Hi; [done|]. destruct (insert_ok m (n_email u) i (kuser_of u) Hm He Hi eq_refl) as [Hs Hok].
    intros H0. destruct (IH _ _ _ _ Hok H0) as [Hs' Hok']. split; [by etrans|done].
  - destruct (insert_ok m (n_email u) _ (kuser_of u) Hm He (next_id_fresh m) eq_refl) as [Hs Hok].
    intros H0. destruct (IH _ _ _ _ Hok H0) as [Hs' Hok']. split; [by etrans|done].
Qed.

#[local] Lemma import_one m u id : n_id u = Some id -> m !! id = None -> ids_of m (n_email u) = [] ->
  import false m [u] 0 = Some (<[id := kuser_of u]> m, 1).
Proof. intros Hn Hi He. cbn [import]. by rewrite He, Hn, Hi. Qed.

#[local] Instance demo : RealmRules := {
  grant i s := if String.eqb i "api" && String.eqb s "s3cret"
               then {| status := 200; body := Some {| access_token := Some "tok"; expires_in := Some (inject_Z 300) |} |}
               else {| status := 401; body := None |};
  accepts t := String.eqb t "tok";
  new_id := next_id;
  new_link id b := m_redirect_uri b +:+ "?user=" +:+ id;
  import_users mode m l := import (negb (String.eqb mode "SKIP")) m l 0;
  new_id_fresh := next_id_fresh;
  import_skips m l m' n Hm := import_grows l m 0 m' n Hm;
  import_adds m u id Hn Hi He := import_one m u id Hn Hi He
}.

#[local] Definition conf : Config :=
  {| base := "https://id.example.com"; realm := "dev"; serviceClientId := "api"; serviceClientSecret := "s3cret"; appClientId := "app" |}.

#[local] Definition dev : Realm :=
  {| users := {[ "u1" := {| k_email := "ann@example.com"; k_verified := true; k_enabled := true; k_attributes := [] |} ]};
     profile := [{| a_name := Some "custom:globalRole"; a_edit := Some ["admin"] |};
                 {| a_name := Some "custom:tenantRole"; a_edit := Some ["admin"; "user"] |}];
     requests := [] |}.

#[local] Definition outcome {A} (p : kc_prog A) : result kc_error A :=
  match snd (run p (delivered (fun n => 1000 * Z.of_nat n)) 0 dev) with Ok (_, a) => Ok a | Throw (_, e) => Throw e end.

Example keycloak_runs :
  new_KeycloakIdentityProvider {| raw_baseUrl := Some "https://id.example.com//"; raw_realm := Some "dev"; raw_serviceClientId := Some "api";
    raw_serviceClientSecret := Some "s3cret"; raw_appClientId := Some "app" |} = Ok conf /\
  request_line conf (DeleteUser "tok" "a/b c") = ("DELETE", "https://id.example.com/admin/realms/dev/users/a%2Fb%20c") /\
  outcome (registerUser conf {| i_email := "Ann@Example.com"; i_attributes := None; i_emailVerified := None |} new_cache) = Ok exists_already /\
  outcome (registerUser conf {| i_email := "bob@example.com"; i_attributes := None; i_emailVerified := None |} new_cache) = Ok registered /\
  outcome (createUser conf {| u_id := "u1"; u_email := "bob@example.com"; u_attributes := None |} None new_cache) = Ok conflicting /\
  outcome (createUser conf {| u_id := "u2"; u_email := "bob@example.com"; u_attributes := None |} None new_cache) = Ok created /\
  outcome (deleteUser conf "nobody@example.com" new_cache) = Ok tt /\
  outcome (verifyProfileLockdown conf new_cache) = Throw (IdentityProviderError config_missing None) /\
  outcome (initiateMagicLink conf "bob@example.com" {| expirationSeconds := 300; redirectUri := "https://app/cb"; state := None; nonce := None;
    codeChallenge := None; forceCreate := None |} new_cache) = Throw (IdentityProviderError unknown_user (Some 404)) /\
  outcome (initiateMagicLink conf "ann@example.com" {| expirationSeconds := 300; redirectUri := "https://app/cb"; state := None; nonce := None;
    codeChallenge := None; forceCreate := None |} new_cache) =
    Ok {| userId := "u1"; link := "https://app/cb?user=u1"; emailSent := false |}.
Proof. repeat split; vm_compute; reflexivity. Qed.

(** Two registrations of one address at once: the realm's own check decides. *)
Example registrations_race :
  let p := start conf (Register {| i_email := "bob@example.com"; i_attributes := None; i_emailVerified := None |}) new_cache in
  let '(w, _) := run_steps (concat (repeat [(0%nat, (0, Delivered)); (1%nat, (0, Delivered))] 5)) dev [p; p] in
  length (ids_of (users w) "bob@example.com") = 1%nat.
Proof. vm_compute. reflexivity. Qed.

Lemma users_never_overwritten_witness :
  let '(w', _) := run_steps [(0%nat, (0, Delivered)); (0%nat, (0, Delivered)); (0%nat, (0, Delivered)); (0%nat, (0, Delivered)); (0%nat, (0, LostReply))] dev
    (map (fun ac => start conf (fst ac) (snd ac)) [(Register {| i_email := "bob@example.com"; i_attributes := None; i_emailVerified := None |}, new_cache)]) in
  users dev ⊆ users w'.
Proof.
  pose proof (users_never_overwritten conf [(Register {| i_email := "bob@example.com"; i_attributes := None; i_emailVerified := None |}, new_cache)]
    [(0%nat, (0, Delivered)); (0%nat, (0, Delivered)); (0%nat, (0, Delivered)); (0%nat, (0, Delivered)); (0%nat, (0, LostReply))] dev) as H.
  destruct (run_steps _ dev _) as [w' ps]. refine (proj1 (H _)). split.
  - intros i u Hi. unfold dev in Hi. cbn [users] in Hi. apply lookup_singleton_Some in Hi. destruct Hi as [_ <-]. reflexivity.
  - intros i j u v Hi Hj _. unfold dev in Hi, Hj. cbn [users] in Hi, Hj. apply lookup_singleton_Some in Hi, Hj. destruct Hi as [<- _], Hj as [<- _]. reflexivity.
Defined.
End Keycloak.
