(* ===== verification/TenantHost.v ===== *)
(** The tenant a request's [Host] names:
    [packages/vestibulum/src/lambda/shared-distribution/shared/extract-tenant-subdomain.ts]
    and [normalizeHost], [extractTenantSubdomain] of
    [shared-distribution/edge/check-auth.ts]. *)

From S2P Require Import Prelude JsString Regex.
From S2P Require Tenant.
From Stdlib Require Import Ascii.

#[local] Open Scope string_scope.
#[local] Open Scope Z_scope.

(** [s.replace(/\.$/, '')]. *)
Definition strip_trailing_dot (s : string) : string :=
  if endsWith s "." then str_take (String.length s - 1) s else s.

(** [host.split(':')[0]]. *)
Definition without_port (host : string) : string := default "" (head (split ":" host)).

(** [/^[a-z][a-z0-9-]{1,61}[a-z0-9]$/], the pattern of a tenant subdomain. *)
Definition DEFAULT_TENANT_PATTERN : re := Tenant.TENANT_SUBDOMAIN_PATTERN.

(** The shared helper. *)
Definition extractTenantSubdomain (host : option string) (parent : string) (pattern : re) : option string :=
  match host with
  | None => None
  | Some host =>
      if String.eqb host "" then None
      else
        let hostNorm := strip_trailing_dot (toLowerCase (without_port host)) in
        let suffix := "." +:+ strip_trailing_dot parent in
        if negb (endsWith hostNorm suffix) then None
        else
          let candidate := str_take (String.length hostNorm - String.length suffix) hostNorm in
          if String.eqb candidate "" then None
          else if includes candidate "." then None
          else if negb (re_match pattern candidate) then None
          else Some candidate
  end.

(** The edge's own layer. *)
Definition normalizeHost (host : string) : string :=
  let lower := toLowerCase (without_port host) in
  if endsWith lower "." then str_take (String.length lower - 1) lower else lower.

Definition edge_extractTenantSubdomain (host : option string) (parent : string) (pattern : re) : option string :=
  match host with
  | None => None
  | Some h =>
      match extractTenantSubdomain (Some (normalizeHost h)) parent DEFAULT_TENANT_PATTERN with
      | None => None
      | Some label => if re_match pattern label then Some label else None
      end
  end.

(** The table in the source's doc comment. *)
Example documented_hosts :
  let parent := "tenants.example.com" in
  let label h := extractTenantSubdomain (Some h) parent DEFAULT_TENANT_PATTERN in
  label "acme.tenants.example.com" = Some "acme" /\ label "ACME.TENANTS.EXAMPLE.COM" = Some "acme" /\
  label "acme.tenants.example.com:443" = Some "acme" /\ label "acme.tenants.example.com." = Some "acme" /\
  label "acme.tenants.example.com.:443" = Some "acme" /\ label "acme.bob.tenants.example.com" = None /\
  label "tenants.example.com" = None /\ label ".tenants.example.com" = None /\
  label "1acme.tenants.example.com" = None /\ label "acme.evil.com" = None.
Proof. vm_compute. repeat split. Qed.

(** ** What a label says about the host *)

Lemma strip_trailing_dot_cases s :
  (exists t, s = t +:+ "." /\ strip_trailing_dot s = t) \/ (endsWith s "." = false /\ strip_trailing_dot s = s).
Proof.
  unfold strip_trailing_dot. destruct (endsWith s ".") eqn:E; [left|by right].
  apply endsWith_spec in E as [t ->]. exists t. split; [done|].
  rewrite str_length_app, Nat.add_sub. apply str_take_app.
Qed.


(** A host written as a name under a parent: with a port, in any case, with a
    trailing dot. *)
Definition written_as (host name : string) : Prop :=
  let h := toLowerCase (without_port host) in h = name \/ h = name +:+ ".".

Lemma strip_trailing_dot_written h name :
  strip_trailing_dot h = name -> h = name \/ h = name +:+ ".".
Proof. destruct (strip_trailing_dot_cases h) as [(t & -> & ->)|[_ ->]]; naive_solver. Qed.

(** Also (the label is the host's): the helper answers a label exactly when the
    host, up to case, port and one trailing dot, is that label under the
    parent, the label is one DNS label and it has the tenant shape. *)
Theorem extractTenantSubdomain_spec host parent pattern label :
  extractTenantSubdomain host parent pattern = Some label <->
  exists h, host = Some h /\ h <> "" /\ label <> "" /\ includes label "." = false /\
    re_match pattern label = true /\
    strip_trailing_dot (toLowerCase (without_port h)) = label +:+ "." +:+ strip_trailing_dot parent.
Proof.
  destruct host as [h|]; cbn [extractTenantSubdomain]; [|naive_solver].
  set (n := strip_trailing_dot (toLowerCase (without_port h))).
  set (suffix := "." +:+ strip_trailing_dot parent).
  destruct (String.eqb_spec h "") as [->|Hh]; [naive_solver|].
  destruct (endsWith n suffix) eqn:Hs; cbn [negb].
  2:{ split; [done|]. intros (h' & [= <-] & _ & _ & _ & _ & Hn). fold n in Hn.
      enough (endsWith n suffix = true) by congruence. apply endsWith_spec. by exists label. }
  apply endsWith_spec in Hs as [c Hc].
  assert (str_take (String.length n - String.length suffix) n = c) as ->.
  { rewrite Hc, str_length_app, Nat.add_sub. apply str_take_app. }
  transitivity (label = c /\ c <> "" /\ includes c "." = false /\ re_match pattern c = true).
  - destruct (String.eqb_spec c ""); [naive_solver|]. destruct (includes c "."); [naive_solver|].
    destruct (re_match pattern c); cbn; naive_solver.
  - split; [intros (-> & ? & ? & ?); exists h; naive_solver|].
    intros (h' & [= <-] & _ & ? & ? & ? & Hn). fold n in Hn. assert (label = c) as ->; [|naive_solver].
    rewrite Hc in Hn. symmetry. by eapply str_app_inj_r.
Qed.

(** The edge accepts what the helper accepts, and a second trailing dot. *)
Lemma edge_extract_spec host parent pattern label :
  edge_extractTenantSubdomain host parent pattern = Some label <->
  exists h, host = Some h /\ extractTenantSubdomain (Some (normalizeHost h)) parent DEFAULT_TENANT_PATTERN = Some label /\
            re_match pattern label = true.
Proof.
  destruct host as [h|]; cbn [edge_extractTenantSubdomain]; [|split; [done|by intros (? & ? & _)]].
  destruct (extractTenantSubdomain (Some (normalizeHost h)) parent DEFAULT_TENANT_PATTERN) as [l|] eqn:E1.
  - destruct (re_match pattern l) eqn:E; (split; [intros [= <-]; by eauto|]);
      intros (h' & [= <-] & Hx & Hm); rewrite E1 in Hx; injection Hx as ->; congruence.
  - split; [done|]. intros (h' & [= <-] & Hx & _). rewrite E1 in Hx. congruence.
Qed.
