(* ===== verification/EdgeCheck.v ===== *)
(** The edge check of the shared distribution:
    [packages/vestibulum/src/lambda/shared-distribution/edge/]
    ([check-auth.ts], [verify-jwt.ts], [jwks-cache.ts], [responses.ts]).

    The handler runs before every viewer request, one at a time per container;
    its memory is the JWKS cache, which a run takes and returns. A [fetch] is
    a command on the network; [aws-jwt-verify] is an interface, with what its
    documentation says of an accepted token. Times are milliseconds. *)

From stdpp Require Import pretty.
From S2P Require Import Prelude JsString Json Regex Prog TenantHost.
From Stdlib Require Import Ascii.

#[local] Open Scope string_scope.
#[local] Open Scope Z_scope.
#[local] Open Scope prog_scope.

(** ** cloudfront-types.ts *)

Record CloudFrontHeaderEntry := { h_key : option string; h_value : string }.

(** Header names are lower case. *)
Definition CloudFrontHeaders := list (string * list CloudFrontHeaderEntry).

Record CloudFrontRequest := {
  headers : option CloudFrontHeaders;
  uri : option string;
  cf_method : option string;
  querystring : option string
}.

Record CloudFrontResultResponse := {
  status : string;
  statusDescription : string;
  r_headers : CloudFrontHeaders;
  r_body : option string
}.

(** What the handler returns: the request, to be forwarded, or a response. *)
Inductive CloudFrontRequestResult :=
| Forward (req : CloudFrontRequest)
| Respond (resp : CloudFrontResultResponse).

Fixpoint find_header (name : string) (hs : CloudFrontHeaders) : option (list CloudFrontHeaderEntry) :=
  match hs with
  | [] => None
  | (n, es) :: rest => if String.eqb n name then Some es else find_header name rest
  end.

Definition header_entries (req : CloudFrontRequest) (name : string) : option (list CloudFrontHeaderEntry) :=
  match headers req with Some hs => find_header name hs | None => None end.

(** ** responses.ts *)

Definition ID_TOKEN_COOKIE := "vestibulum_id_token".

Inductive RefuseReason :=
| no_host | host_not_tenant_shape | tenant_mismatch | no_tenant_claim | wrong_iss | wrong_token_use
| bad_signature | token_expired | no_aud.

(** The log lines. *)
Inductive edge_event := EdgeCheckRefused (reason : RefuseReason) | EdgeLoginRedirect (subdomain : string).

(** An HTTP response of a JWKS endpoint; [None] when its body cannot be read. *)
Record FetchResponse := { ok : bool; http_status : Z; text : option string }.

Inductive fetch_error := NetworkError.

Inductive edge_cmd : Type -> Type := Fetch (url : string) : edge_cmd FetchResponse.

#[global] Notation edge_prog := (Prog.prog edge_cmd fetch_error Empty_set edge_event).

Definition entry (key value : string) : CloudFrontHeaderEntry := {| h_key := Some key; h_value := value |}.

Definition no_store := ("cache-control", [entry "Cache-Control" "no-store, max-age=0"]).
Definition plain_text := ("content-type", [entry "Content-Type" "text/plain; charset=utf-8"]).

Definition forbidden_response : CloudFrontResultResponse :=
  {| status := "403"; statusDescription := "Forbidden"; r_headers := [no_store; plain_text];
     r_body := Some "Forbidden" |}.

Definition refuse {A} (reason : RefuseReason) (k : CloudFrontRequestResult -> A) : Prog.prog edge_cmd fetch_error Empty_set edge_event A :=
  Emit (EdgeCheckRefused reason) (Ret (k (Respond forbidden_response))).

Definition login_response (req : CloudFrontRequest) (subdomain : string) : CloudFrontResultResponse :=
  let host := match header_entries req "host" with
              | Some (e :: _) => h_value e
              | _ => subdomain +:+ ".unknown"
              end in
  {| status := "302"; statusDescription := "Found";
     r_headers := [("location", [entry "Location" ("https://" +:+ host +:+ "/login")]); no_store];
     r_body := None |}.

Definition loginRedirect {A} (req : CloudFrontRequest) (subdomain : string) (k : CloudFrontRequestResult -> A) :
    Prog.prog edge_cmd fetch_error Empty_set edge_event A :=
  Emit (EdgeLoginRedirect subdomain) (Ret (k (Respond (login_response req subdomain)))).

(** A value between double quotes loses them. *)
Definition unquoted (v : string) : string :=
  if (2 <=? String.length v)%nat && startsWith v (String.String dquote "") && endsWith v (String.String dquote "")
  then str_take (String.length v - 2) (str_drop 1 v) else v.

Fixpoint token_in (segments : list string) (name : string) : option string :=
  match segments with
  | [] => None
  | raw :: rest =>
      let segment := trim raw in
      match indexOf segment "=" with
      | None | Some O => token_in rest name
      | Some eq_ =>
          if String.eqb (trim (str_take eq_ segment)) name then Some (unquoted (trim (str_drop (S eq_) segment)))
          else token_in rest name
      end
  end.

Fixpoint token_in_entries (es : list CloudFrontHeaderEntry) (name : string) : option string :=
  match es with
  | [] => None
  | e :: rest =>
      match token_in (split ";" (h_value e)) name with
      | Some v => Some v
      | None => token_in_entries rest name
      end
  end.

Definition extractTokenFromCookies (cookieHeader : option (list CloudFrontHeaderEntry)) : option string :=
  match cookieHeader with None => None | Some es => token_in_entries es ID_TOKEN_COOKIE end.

(** ** jwks-cache.ts *)

Record JwksCache := { cachedKeys : option (list JsonValue); cachedAt : Z }.

Definition empty_cache : JwksCache := {| cachedKeys := None; cachedAt := 0 |}.

Inductive jwks_error := FetchFailed | HttpStatus (code : Z) | ParseFailed | MissingKeys.

Definition is_object (v : JsonValue) : bool :=
  match v with VArray _ | VObject _ => true | _ => false end.

(** From the response to the keys: its checks, and the filter. *)
Definition keys_of_response (r : result fetch_error FetchResponse) : result jwks_error (list JsonValue) :=
  match r with
  | Throw _ => Throw FetchFailed
  | Ok response =>
      if negb (ok response) then Throw (HttpStatus (http_status response))
      else
        match text response with
        | None => Throw ParseFailed
        | Some body =>
            match JSON_parse body with
            | None => Throw ParseFailed
            | Some (VObject o) =>
                match find_key "keys" o with
                | Some (VArray keys) => Ok (List.filter is_object keys)
                | _ => Throw MissingKeys
                end
            | Some _ => Throw MissingKeys
            end
        end
  end.

Section edge.
(** The configuration baked into the bundle. *)
Record EdgeConfig := {
  TENANT_PARENT : string;
  TENANT_PATTERN : re;
  POOL_ISSUER : string;
  JWKS_URL : string;
  JWKS_TTL_MS : Z
}.
Context (cfg : EdgeConfig).

(** What one call has cached, or has to fetch at [now]. *)
Definition fresh_keys (c : JwksCache) (now : Z) : option (list JsonValue) :=
  match cachedKeys c with
  | Some keys => if now - cachedAt c <? JWKS_TTL_MS cfg then Some keys else None
  | None => None
  end.

Definition refreshed (now : Z) (r : result jwks_error (list JsonValue)) : JwksCache :=
  match r with Ok keys => {| cachedKeys := Some keys; cachedAt := now |} | Throw _ => empty_cache end.

Definition getJwks (c : JwksCache) : edge_prog (JwksCache * result jwks_error (list JsonValue)) :=
  Now (fun now =>
    match fresh_keys c now with
    | Some keys => Ret (c, Ok keys)
    | None => Send (Fetch (JWKS_URL cfg)) (fun r =>
        let keys := keys_of_response r in Ret (refreshed now keys, keys))
    end).

(** ** verify-jwt.ts *)

(** [aws-jwt-verify]. [verifyJwtSync now token jwk issuer grace check] is the
    payload, or the message of the error thrown; [check] is called with the
    key and the header. *)
Class AwsJwtVerify := {
  decomposeUnverifiedJwt : string -> result string (JsonObject * JsonObject);
  verifyJwtSync : Z -> string -> JsonValue -> string -> Z -> (JsonValue -> JsonObject -> option string) ->
    result string JsonObject;
  verified_payload now token jwk issuer grace check payload :
    verifyJwtSync now token jwk issuer grace check = Ok payload ->
    exists header, decomposeUnverifiedJwt token = Ok (header, payload) /\ check jwk header = None /\
                   find_key "iss" payload = Some (VString issuer)
}.
Context `{AwsJwtVerify}.

(** [String(v)] of a JSON value or [undefined]. *)
Fixpoint js_String (v : JsonValue) : string :=
  match v with
  | VNull => "null"
  | VBool true => "true"
  | VBool false => "false"
  | VNumber t => t
  | VString s => s
  | VArray l => join "," (map (fun x => match x with VNull => "" | _ => js_String x end) l)
  | VObject _ => "[object Object]"
  end.

Definition js_String_opt (v : option JsonValue) : string :=
  match v with Some v => js_String v | None => "undefined" end.

Definition DQ : string := String.String dquote "".

Definition kid_of (k : JsonValue) : option JsonValue :=
  match k with VObject o => find_key "kid" o | _ => None end.

Definition has_kid (kid : string) (k : JsonValue) : bool :=
  match kid_of k with Some (VString s) => String.eqb s kid | _ => false end.

(** The belt-and-braces check handed to the library. *)
Definition customJwtCheck (kid : string) (jwk : JsonValue) (h : JsonObject) : option string :=
  match find_key "alg" h with
  | Some (VString alg) =>
      if negb (String.eqb alg "RS256") then Some "alg-drift"
      else if negb (has_kid kid jwk) then Some "kid-drift" else None
  | _ => Some "alg-drift"
  end.

(** The claims, or the message. *)
Definition verifyJwt (nowMs : Z) (token : string) (jwks : list JsonValue) : result string JsonObject :=
  if String.eqb token "" then Throw "verifyJwt: token must be a non-empty string"
  else
    match decomposeUnverifiedJwt token with
    | Throw m => Throw m
    | Ok (header, _) =>
        let alg := find_key "alg" header in
        if negb (match alg with Some (VString a) => String.eqb a "RS256" | _ => false end)
        then Throw ("verifyJwt: unsupported alg " +:+ DQ +:+ js_String_opt alg +:+ DQ)
        else
          match find_key "kid" header with
          | Some (VString kid) =>
              if String.eqb kid "" then Throw "verifyJwt: header.kid missing"
              else
                match List.find (has_kid kid) jwks with
                | None => Throw ("verifyJwt: kid " +:+ DQ +:+ kid +:+ DQ +:+ " not in JWKS")
                | Some jwk =>
                    match verifyJwtSync nowMs token jwk (POOL_ISSUER cfg) 60 (customJwtCheck kid) with
                    | Throw m => Throw ("verifyJwt: " +:+ m)
                    | Ok payload =>
                        match find_key "exp" payload with
                        | Some (VNumber _) => Ok payload
                        | _ => Throw "verifyJwt: exp missing"
                        end
                    end
                end
          | _ => Throw "verifyJwt: header.kid missing"
          end
    end.

(** ** check-auth.ts *)

Definition mapVerifyErrorToResponse {A} (req : CloudFrontRequest) (tenantSubdomain msg : string)
    (k : CloudFrontRequestResult -> A) : edge_prog A :=
  if includes msg "Issuer not allowed" || includes msg "iss" then refuse wrong_iss k
  else if includes msg "expired" || includes msg "Token expired" || includes msg "exp" then refuse token_expired k
  else if includes msg "Invalid signature" || includes msg "signature" || includes msg "kid" || includes msg "alg"
  then refuse bad_signature k
  else loginRedirect req tenantSubdomain k.

(** Steps 5 to 8. *)
Definition check_claims {A} (req : CloudFrontRequest) (tenantSubdomain : string) (claims : JsonObject)
    (k : CloudFrontRequestResult -> A) : edge_prog A :=
  if negb (match find_key "token_use" claims with Some (VString u) => String.eqb u "id" | _ => false end)
  then refuse wrong_token_use k
  else
    match find_key "custom:tenant_id" claims with
    | Some (VString claimTenantId) =>
        if negb (String.eqb claimTenantId tenantSubdomain) then refuse tenant_mismatch k
        else
          match find_key "aud" claims with
          | Some (VString aud) => if String.eqb aud "" then refuse no_aud k else Ret (k (Forward req))
          | _ => refuse no_aud k
          end
    | _ => refuse no_tenant_claim k
    end.

Definition synthesize400 : CloudFrontResultResponse :=
  {| status := "400"; statusDescription := "Bad Request"; r_headers := [plain_text]; r_body := Some "Bad Request" |}.

(** Step 4 on. *)
Definition check_token (cache : JwksCache) (req : CloudFrontRequest) (tenantSubdomain token : string) :
    edge_prog (JwksCache * CloudFrontRequestResult) :=
  let! fetched := getJwks cache in
  let cache' := fst fetched in
  match snd fetched with
  | Throw _ => loginRedirect req tenantSubdomain (pair cache')
  | Ok jwks =>
      Now (fun nowMs =>
        match verifyJwt nowMs token jwks with
        | Throw msg => mapVerifyErrorToResponse req tenantSubdomain msg (pair cache')
        | Ok claims => check_claims req tenantSubdomain claims (pair cache')
        end)
  end.

Definition request_host (req : CloudFrontRequest) : option string :=
  match header_entries req "host" with Some (e :: _) => Some (h_value e) | _ => None end.

Definition handler (cache : JwksCache) (event : list CloudFrontRequest) :
    edge_prog (JwksCache * CloudFrontRequestResult) :=
  match event with
  | [] => Ret (cache, Respond synthesize400)
  | req :: _ =>
      let host := default "" (request_host req) in
      if String.eqb host "" then refuse no_host (pair cache)
      else
        match edge_extractTenantSubdomain (Some host) (TENANT_PARENT cfg) (TENANT_PATTERN cfg) with
        | None => refuse host_not_tenant_shape (pair cache)
        | Some tenantSubdomain =>
            let token := default "" (extractTokenFromCookies (header_entries req "cookie")) in
            if String.eqb token "" then loginRedirect req tenantSubdomain (pair cache)
            else check_token cache req tenantSubdomain token
        end
  end.


(** ** The world, and one decision *)

Record EdgeWorld := { site : string -> result fetch_error FetchResponse; edge_log : list edge_event }.

#[export] Instance edge_service : Service EdgeWorld edge_cmd fetch_error edge_event :=
  {| perform X w c := match c in edge_cmd X return EdgeWorld * result fetch_error X with
                      | Fetch url => (w, site w url)
                      end;
     lost := NetworkError;
     record_event w e := {| site := site w; edge_log := (edge_log w ++ [e])%list |} |}.

(** The claims bind the token to the tenant. *)
Definition bound_to (tenantSubdomain : string) (claims : JsonObject) : Prop :=
  find_key "token_use" claims = Some (VString "id") /\
  find_key "custom:tenant_id" claims = Some (VString tenantSubdomain) /\
  exists aud, find_key "aud" claims = Some (VString aud) /\ aud <> "".

(** What a forwarded request shows at [now], given the keys. *)
Definition admissible (now : Z) (req : CloudFrontRequest) (keys : list JsonValue) : Prop :=
  exists host tenant token claims,
    request_host req = Some host /\
    edge_extractTenantSubdomain (Some host) (TENANT_PARENT cfg) (TENANT_PATTERN cfg) = Some tenant /\
    extractTokenFromCookies (header_entries req "cookie") = Some token /\
    verifyJwt now token keys = Ok claims /\ bound_to tenant claims.

(** A refusal is never cached. *)
Definition denied (resp : CloudFrontResultResponse) : Prop :=
  (status resp = "403" \/ status resp = "302") /\ In no_store (r_headers resp).

(** The outcome is [k res], where [res] forwards [req] just when [P]. *)
Definition decided {B} (req : CloudFrontRequest) (k : CloudFrontRequestResult -> B) (P : Prop)
    (out : result Empty_set B) : Prop :=
  exists res, out = Ok (k res) /\ (res = Forward req <-> P) /\
    (res = Forward req \/ exists resp, res = Respond resp /\ denied resp).

Lemma decided_denied {B} req (k : CloudFrontRequestResult -> B) (P : Prop) resp :
  denied resp -> ~ P -> decided req k P (Ok (k (Respond resp))).
Proof. intros Hd HP. exists (Respond resp). split; [done|]. split; [naive_solver|eauto]. Qed.

Lemma decided_iff {B} req (k : CloudFrontRequestResult -> B) (P Q : Prop) out :
  (P <-> Q) -> decided req k P out -> decided req k Q out.
Proof. intros HPQ (res & -> & Hr & Hd). exists res. split; [done|]. split; [tauto|done]. Qed.

Lemma forbidden_denied : denied forbidden_response.
Proof. split; [by left|by left]. Qed.

Lemma login_denied req sd : denied (login_response req sd).
Proof. split; [by right|right; by left]. Qed.

#[local] Hint Resolve forbidden_denied login_denied : core.

Section runs.
Context (T : Z -> Prop) (D : delivery -> Prop).

Lemma wp_check_claims {B} req sd claims (k : CloudFrontRequestResult -> B) w :
  wp T D (check_claims req sd claims k) w (fun _ out => decided req k (bound_to sd claims) out).
Proof.
  unfold check_claims, bound_to.
  destruct (find_key "token_use" claims) as [[]|]; cbn; try (apply decided_denied; naive_solver).
  destruct (String.eqb_spec s "id") as [->|]; cbn; [|apply decided_denied; naive_solver].
  destruct (find_key "custom:tenant_id" claims) as [[]|]; cbn; try (apply decided_denied; naive_solver).
  destruct (String.eqb_spec s sd) as [->|]; cbn; [|apply decided_denied; naive_solver].
  destruct (find_key "aud" claims) as [[]|]; cbn; try (apply decided_denied; naive_solver).
  destruct (String.eqb_spec s ""); cbn; [apply decided_denied; naive_solver|].
  exists (Forward req). naive_solver.
Qed.

Lemma wp_mapVerifyError {B} req sd msg (k : CloudFrontRequestResult -> B) w (P : Prop) :
  ~ P -> wp T D (mapVerifyErrorToResponse req sd msg k) w (fun _ out => decided req k P out).
Proof.
  intros HP. unfold mapVerifyErrorToResponse. repeat case_match; cbn; by apply decided_denied.
Qed.

(** The cache after a call at [now]. *)
Definition cache_after (w : EdgeWorld) (cache : JwksCache) (now : Z) (cache' : JwksCache) : Prop :=
  cache' = cache \/
  (fresh_keys cache now = None /\
   (cache' = empty_cache \/ cache' = refreshed now (keys_of_response (site w (JWKS_URL cfg))))).

Lemma wp_getJwks cache w :
  0 < JWKS_TTL_MS cfg ->
  wp T D (getJwks cache) w (fun w' out => exists now cache' r,
    T now /\ out = Ok (cache', r) /\ w' = w /\ cache_after w cache now cache' /\
    match r with Ok keys => fresh_keys cache' now = Some keys | Throw _ => fresh_keys cache' now = None end).
Proof.
  intros Httl. cbn. intros now Hnow. destruct (fresh_keys cache now) as [keys|] eqn:Hf.
  - exists now, cache, (Ok keys). repeat split; [done|by left|done].
  - assert (forall r : result jwks_error (list JsonValue),
      match r with Ok keys => fresh_keys (refreshed now r) now = Some keys
              | Throw _ => fresh_keys (refreshed now r) now = None end) as Hr.
    { intros [keys|e]; [|done]. cbn. rewrite Z.sub_diag. by rewrite (proj2 (Z.ltb_lt _ _) Httl). }
    intros dv _. set (r := keys_of_response (snd (deliver dv w (Fetch (JWKS_URL cfg))))).
    exists now, (refreshed now r), r. split; [done|]. split; [done|]. split; [by destruct dv|]. split; [|apply Hr].
    right. split; [done|]. subst r. destruct dv; cbn; auto.
Qed.

Lemma wp_check_token cache req sd token w :
  0 < JWKS_TTL_MS cfg ->
  wp T D (check_token cache req sd token) w (fun _ out => exists t1 t2 cache',
    T t1 /\ T t2 /\ cache_after w cache t1 cache' /\
    decided req (pair cache') (exists keys claims, fresh_keys cache' t1 = Some keys /\
      verifyJwt t2 token keys = Ok claims /\ bound_to sd claims) out).
Proof.
  intros Httl. unfold check_token. apply wp_await. eapply wp_weaken; [|by apply wp_getJwks].
  intros w' out (t1 & cache' & r & Ht1 & -> & -> & Hc & Hr). cbn [fst snd].
  destruct r as [keys|e].
  - intros t2 Ht2. cbn beta.
    destruct (verifyJwt t2 token keys) as [claims|msg] eqn:Hv.
    + eapply wp_weaken; [|apply wp_check_claims]. intros w2 out2 Hd. exists t1, t2, cache'. do 3 (split; [done|]).
      revert Hd. apply decided_iff. split; [intros Hb; by exists keys, claims|].
      intros (keys' & claims' & Hk & Hv' & Hb). rewrite Hr in Hk. injection Hk as <-.
      rewrite Hv in Hv'. by injection Hv' as <-.
    + eapply wp_weaken; [|apply (wp_mapVerifyError req sd msg (pair cache') w False); tauto].
      intros w2 out2 Hd. exists t1, t2, cache'. do 3 (split; [done|]). revert Hd. apply decided_iff. split; [done|].
      intros (keys' & claims' & Hk & Hv' & _). rewrite Hr in Hk. injection Hk as <-. congruence.
  - cbn. exists t1, t1, cache'. do 3 (split; [done|]). apply decided_denied; [done|].
    intros (keys' & claims' & Hk & _). rewrite Hr in Hk. congruence.
Qed.

Lemma wp_handler cache req rest w t0 :
  0 < JWKS_TTL_MS cfg -> T t0 ->
  wp T D (handler cache (req :: rest)) w (fun _ out => exists t1 t2 cache',
    T t1 /\ T t2 /\ cache_after w cache t1 cache' /\
    decided req (pair cache') (exists keys, fresh_keys cache' t1 = Some keys /\ admissible t2 req keys) out).
Proof.
  intros Httl Ht0. unfold handler, admissible.
  assert (forall resp, denied resp -> ~ (exists keys, fresh_keys cache t0 = Some keys /\ admissible t0 req keys) ->
    exists t1 t2 cache', T t1 /\ T t2 /\ cache_after w cache t1 cache' /\
      decided req (pair cache') (exists keys, fresh_keys cache' t1 = Some keys /\ admissible t2 req keys)
        (Ok (cache, Respond resp))) as Hden.
  { intros resp Hd HP. exists t0, t0, cache. do 2 (split; [done|]). split; [by left|]. by apply decided_denied. }
  unfold admissible in Hden.
  destruct (request_host req) as [host|]; cbn [default from_option id]; [|apply Hden; [done|]; by intros (keys & _ & ? & ? & ? & ? & [=] & _)].
  destruct (String.eqb_spec host "") as [->|Hh].
  { apply Hden; [done|]. intros (keys & _ & host & sd & token & claims & [= <-] & Hsd & _). done. }
  destruct (edge_extractTenantSubdomain (Some host) (TENANT_PARENT cfg) (TENANT_PATTERN cfg)) as [sd|] eqn:Hsd;
    [|apply Hden; [done|]].
  2:{ intros (keys & _ & host' & sd & token & claims & [= <-] & Hsd' & _). congruence. }
  destruct (extractTokenFromCookies (header_entries req "cookie")) as [token|] eqn:Htok; cbn [default from_option id].
  2:{ apply Hden; [done|]. by intros (keys & _ & ? & ? & ? & ? & _ & _ & [=] & _). }
  destruct (String.eqb_spec token "") as [->|Hne].
  { apply Hden; [done|]. intros (keys & _ & ? & ? & ? & ? & _ & _ & [= <-] & Hv & _). done. }
  eapply wp_weaken; [|by apply wp_check_token]. intros w' out (t1 & t2 & cache' & Ht1 & Ht2 & Hc & Hd).
  exists t1, t2, cache'. do 3 (split; [done|]). revert Hd. apply decided_iff. split.
  - intros (keys & claims & Hk & Hv & Hb). exists keys. split; [done|]. exists host, sd, token, claims. done.
  - intros (keys & Hk & host' & sd' & token' & claims & [= <-] & Hsd' & [= <-] & Hv & Hb).
    exists keys, claims. split; [done|]. split; [done|]. congruence.
Qed.

(** C12 (The edge forwards bound tokens only): for any cache, fetch outcome and
    clock, the handler returns, leaves a cache that is unchanged, empty or the
    keys just fetched, and forwards the request, unchanged, exactly when its
    cookie holds a token that verifies with the cached keys, is an ID token
    with an audience, and names the tenant of the request's host; every other
    request gets an uncacheable 403 or 302. *)
Theorem edge_decision cache req rest w t0 :
  0 < JWKS_TTL_MS cfg -> T t0 ->
  wp T D (handler cache (req :: rest)) w (fun _ out => exists t1 t2 cache',
    T t1 /\ T t2 /\ cache_after w cache t1 cache' /\
    decided req (pair cache') (exists keys, fresh_keys cache' t1 = Some keys /\ admissible t2 req keys) out).
Proof. apply wp_handler. Qed.
End runs.

(** ** One token, one tenant *)

Lemma verifyJwt_payload now token keys claims :
  verifyJwt now token keys = Ok claims ->
  exists header jwk, decomposeUnverifiedJwt token = Ok (header, claims) /\ In jwk keys /\
    find_key "alg" header = Some (VString "RS256") /\
    (exists kid, kid <> "" /\ find_key "kid" header = Some (VString kid) /\ has_kid kid jwk = true) /\
    find_key "iss" claims = Some (VString (POOL_ISSUER cfg)) /\ exists t, find_key "exp" claims = Some (VNumber t).
Proof.
  unfold verifyJwt. destruct (String.eqb token ""); [done|].
  destruct (decomposeUnverifiedJwt token) as [[header payload]|] eqn:Hd; [|done].
  destruct (find_key "alg" header) as [[]|] eqn:Halg; try done.
  destruct (String.eqb_spec s "RS256") as [->|]; [|done]. cbn [negb].
  destruct (find_key "kid" header) as [[]|] eqn:Hkid; try done.
  destruct (String.eqb_spec s "") as [|Hne]; [done|].
  destruct (List.find (has_kid s) keys) as [jwk|] eqn:Hfind; [|done].
  destruct (verifyJwtSync now token jwk (POOL_ISSUER cfg) 60 (customJwtCheck s)) as [p|] eqn:Hv; [|done].
  destruct (find_key "exp" p) as [[]|] eqn:Hexp; try done. intros [= <-].
  apply List.find_some in Hfind as [Hin Hk].
  destruct (verified_payload _ _ _ _ _ _ _ Hv) as (h & Hd' & _ & Hiss). rewrite Hd in Hd'. injection Hd' as <- ->.
  exists header, jwk. repeat split; eauto 6.
Qed.

(** What a forwarded request's token says. *)
Lemma one_token_one_tenant_claims c w env n r rest c' token tenant :
  0 < JWKS_TTL_MS cfg ->
  (exists host, request_host r = Some host /\
    edge_extractTenantSubdomain (Some host) (TENANT_PARENT cfg) (TENANT_PATTERN cfg) = Some tenant) ->
  extractTokenFromCookies (header_entries r "cookie") = Some token ->
  snd (run (handler c (r :: rest)) env n w) = Ok (c', Forward r) ->
  exists header claims, decomposeUnverifiedJwt token = Ok (header, claims) /\
    find_key "custom:tenant_id" claims = Some (VString tenant) /\
    find_key "alg" header = Some (VString "RS256") /\
    find_key "iss" claims = Some (VString (POOL_ISSUER cfg)).
Proof.
  intros Httl (host & Hh & Hsd) Htok Hrun.
  pose proof (wp_run any_time any_delivery _ env _ n w (fun _ => conj I I)
                (wp_handler any_time any_delivery c r rest w 0 Httl I)) as Hwp.
  destruct (run (handler c (r :: rest)) env n w) as [w' out]. cbn in Hrun. subst out.
  destruct Hwp as (t1 & t2 & c2' & _ & _ & _ & res & Hout & Hres & _). injection Hout as -> <-.
  destruct (proj1 Hres eq_refl) as (keys & _ & host' & sd & token' & claims & Hh' & Hsd' & Htok' & Hv & _ & Htid & _).
  apply verifyJwt_payload in Hv as (header & jwk & Hd & _ & Halg & _ & Hiss & _).
  exists header, claims. by simplify_eq.
Qed.

(** Also (a token opens one tenant only): whatever the caches, keys, clocks and
    fetch outcomes, if a token was forwarded at one host and at another, both
    hosts name the same tenant, the one in the token's own claims; and such a
    token has the pool as issuer, an expiry, the RS256 algorithm and the
    identifier of a cached key. *)
Theorem one_token_one_tenant c1 c2 w1 w2 env1 env2 n1 n2 r1 r2 rest1 rest2 token tenant1 tenant2 :
  0 < JWKS_TTL_MS cfg ->
  let tenant_of r t := exists host, request_host r = Some host /\
    edge_extractTenantSubdomain (Some host) (TENANT_PARENT cfg) (TENANT_PATTERN cfg) = Some t in
  let forwarded c w env n r rest :=
    exists c', snd (run (handler c (r :: rest)) env n w) = Ok (c', Forward r) in
  tenant_of r1 tenant1 -> tenant_of r2 tenant2 ->
  extractTokenFromCookies (header_entries r1 "cookie") = Some token ->
  extractTokenFromCookies (header_entries r2 "cookie") = Some token ->
  forwarded c1 w1 env1 n1 r1 rest1 -> forwarded c2 w2 env2 n2 r2 rest2 ->
  tenant1 = tenant2 /\
  exists header claims, decomposeUnverifiedJwt token = Ok (header, claims) /\
    find_key "alg" header = Some (VString "RS256") /\
    find_key "custom:tenant_id" claims = Some (VString tenant1) /\
    find_key "iss" claims = Some (VString (POOL_ISSUER cfg)).
Proof.
  intros Httl tenant_of forwarded Ht1 Ht2 Htok1 Htok2 H1 H2.
  destruct H1 as [c1' H1], H2 as [c2' H2].
  destruct (one_token_one_tenant_claims _ _ _ _ _ _ _ _ _ Httl Ht1 Htok1 H1) as (header & claims & Hd & Htid & Halg & Hiss).
  destruct (one_token_one_tenant_claims _ _ _ _ _ _ _ _ _ Httl Ht2 Htok2 H2) as (header' & claims' & Hd' & Htid' & _).
  rewrite Hd in Hd'. injection Hd' as <- <-. split; [congruence|]. by exists header, claims.
Qed.

(** ** A container over many requests

    Requests one after another, each with the web as it finds it, its clock
    readings and deliveries; the cache of one is the next one's. *)
Record EdgeCall := { event : list CloudFrontRequest; web : EdgeWorld; course : nat -> Z * delivery }.

Fixpoint container (cache : JwksCache) (calls : list EdgeCall) : list CloudFrontRequestResult :=
  match calls with
  | [] => []
  | call :: rest =>
      match snd (run (handler cache (event call)) (course call) 0 (web call)) with
      | Ok (cache', res) => res :: container cache' rest
      | Throw e => match e with end
      end
  end.

(** The keys of a response: of the array under [keys], the objects. *)
Definition key_set (r : result fetch_error FetchResponse) (keys : list JsonValue) : Prop :=
  exists response body o l, r = Ok response /\ ok response = true /\ text response = Some body /\
    JSON_parse body = Some (VObject o) /\ find_key "keys" o = Some (VArray l) /\ keys = List.filter is_object l.

Lemma keys_of_response_Ok r keys : keys_of_response r = Ok keys -> key_set r keys.
Proof.
  unfold keys_of_response, key_set. destruct r as [response|]; [|done]. destruct (ok response) eqn:Eo; [|done]. cbn [negb].
  destruct (text response) as [body|] eqn:Et; [|done]. destruct (JSON_parse body) as [[| | | | |o]|] eqn:Ej; try done.
  destruct (find_key "keys" o) as [[| | | |l|]|] eqn:Ek; try done. intros [= <-]. by exists response, body, o, l.
Qed.

(** A call's fetch brought these keys. *)
Definition fetched (call : EdgeCall) (keys : list JsonValue) : Prop :=
  snd (course call 1%nat) = Delivered /\ key_set (site (web call) (JWKS_URL cfg)) keys.

Lemma fetch_keys call keys :
  keys_of_response (snd (deliver (snd (course call 1%nat)) (web call) (Fetch (JWKS_URL cfg)))) = Ok keys -> fetched call keys.
Proof. unfold fetched. destruct (snd (course call 1%nat)); try done. intros Hk. split; [done|by apply keys_of_response_Ok]. Qed.

(** What a handler that reads its first clock at [now] does with the cache and
    its own fetch: the keys it is left with, and those it judged by. *)
Definition honest (cache : JwksCache) (call : EdgeCall) (cache' : JwksCache) (res : CloudFrontRequestResult) : Prop :=
  let now := fst (course call 0%nat) in
  (cache' = cache \/ forall keys, cachedKeys cache' = Some keys -> cachedAt cache' = now /\ fetched call keys) /\
  forall req, res = Forward req -> exists rest keys t, event call = req :: rest /\
    (exists k, t = fst (course call k)) /\ admissible t req keys /\ (fresh_keys cache now = Some keys \/ fetched call keys).

(** The judgement by keys that are the cache's own or just fetched. *)
Lemma judged cache call req rest host sd token keys n cache' :
  event call = req :: rest -> request_host req = Some host ->
  edge_extractTenantSubdomain (Some host) (TENANT_PARENT cfg) (TENANT_PATTERN cfg) = Some sd ->
  extractTokenFromCookies (header_entries req "cookie") = Some token ->
  fresh_keys cache (fst (course call 0%nat)) = Some keys \/ fetched call keys ->
  (cache' = cache \/ forall keys, cachedKeys cache' = Some keys -> cachedAt cache' = fst (course call 0%nat) /\ fetched call keys) ->
  exists res, snd (run (match verifyJwt (fst (course call n)) token keys with
                        | Throw msg => mapVerifyErrorToResponse req sd msg (pair cache')
                        | Ok claims => check_claims req sd claims (pair cache')
                        end) (course call) (S n) (web call)) = Ok (cache', res) /\ honest cache call cache' res.
Proof.
  intros Hev Hh Hsd Htok Hkeys Hc. set (p := match verifyJwt _ _ _ with Ok _ => _ | Throw _ => _ end).
  assert (wp any_time any_delivery p (web call) (fun _ out => decided req (pair cache')
    (exists claims, verifyJwt (fst (course call n)) token keys = Ok claims /\ bound_to sd claims) out)) as Hp.
  { subst p. destruct (verifyJwt _ _ _) as [claims|msg] eqn:Hv.
    - eapply wp_weaken; [|apply wp_check_claims]. intros w' out. apply decided_iff. naive_solver.
    - apply wp_mapVerifyError. naive_solver. }
  apply (wp_run any_time any_delivery p (course call) _ (S n)) in Hp; [|done]. clearbody p.
  destruct (run p _ _ _) as [w' out]. destruct Hp as (res & -> & Hfwd & Hor). exists res. split; [done|]. split; [done|].
  intros req' ->. assert (req' = req) as -> by (destruct Hor as [[= ->]|(? & [=] & _)]; done).
  destruct (proj1 Hfwd eq_refl) as (claims & Hv & Hb). exists rest, keys, (fst (course call n)).
  split; [done|]. split; [by exists n|]. split; [|done]. by exists host, sd, token, claims.
Qed.

Lemma handler_honest cache call : exists cache' res,
  snd (run (handler cache (event call)) (course call) 0 (web call)) = Ok (cache', res) /\ honest cache call cache' res.
Proof.
  destruct (event call) as [|req rest] eqn:Hev; [eexists _, _; split; [reflexivity|]; split; [by left|done]|].
  unfold handler. destruct (request_host req) as [host|] eqn:Hh; cbn [default from_option id];
    [|eexists _, _; split; [reflexivity|]; split; [by left|done]].
  destruct (String.eqb_spec host ""); [eexists _, _; split; [reflexivity|]; split; [by left|done]|].
  destruct (edge_extractTenantSubdomain _ _ _) as [sd|] eqn:Hsd; [|eexists _, _; split; [reflexivity|]; split; [by left|done]].
  destruct (extractTokenFromCookies _) as [token|] eqn:Ht; cbn [default from_option id];
    [|eexists _, _; split; [reflexivity|]; split; [by left|done]].
  destruct (String.eqb_spec token ""); [eexists _, _; split; [reflexivity|]; split; [by left|done]|].
  unfold check_token, getJwks, await. cbn [attempt run].
  destruct (fresh_keys cache (fst (course call 0%nat))) as [keys|] eqn:Hf; cbn [attempt run fst snd].
  - destruct (judged cache call req rest host sd token keys 1 cache) as (res & Hres & Hh'); [done..|by left|by left|].
    by exists cache, res.
  - destruct (deliver (snd (course call 1%nat)) (web call) (Fetch (JWKS_URL cfg))) as [w' r] eqn:Hd.
    assert (w' = web call) as -> by (by destruct (snd (course call 1%nat)); injection Hd).
    cbn [attempt run fst snd]. pose proof (fetch_keys call) as Hk. rewrite Hd in Hk. cbn [snd] in Hk.
    destruct (keys_of_response r) as [keys|e]; cbn [refreshed].
    + destruct (judged cache call req rest host sd token keys 2 {| cachedKeys := Some keys; cachedAt := fst (course call 0%nat) |})
        as (res & Hres & Hh'); [done..|right; by apply Hk|right; intros ks [= <-]; split; [done|by apply Hk]|]. by eexists _, res.
    + eexists _, _. split; [reflexivity|]. split; [by right|done].
Qed.

(** Every key set judged by is the cache's at the start, while it is fresh, or
    comes from a fetch. *)
Lemma container_origin calls : forall cache i req, container cache calls !! i = Some (Forward req) ->
  exists call rest keys t, calls !! i = Some call /\ event call = req :: rest /\ (exists k, t = fst (course call k)) /\
    admissible t req keys /\
    (fresh_keys cache (fst (course call 0%nat)) = Some keys \/
     exists j source, (j <= i)%nat /\ calls !! j = Some source /\ fetched source keys /\
       (j = i \/ fst (course call 0%nat) - fst (course source 0%nat) < JWKS_TTL_MS cfg)).
Proof.
  induction calls as [|call calls IH]; intros cache i req; [done|]. cbn [container].
  destruct (handler_honest cache call) as (cache' & res & -> & Hcache & Hres). destruct i as [|i]; cbn [lookup list_lookup].
  - intros [= ->]. destruct (Hres req eq_refl) as (rest & keys & t & He & Ht & Ha & Hor). exists call, rest, keys, t.
    do 4 (split; [done|]). destruct Hor as [Hor|Hor]; [by left|right]. exists 0%nat, call. auto.
  - intros Hi. destruct (IH cache' i req Hi) as (c & rest & keys & t & Hc & He & Ht & Ha & Hor). exists c, rest, keys, t.
    do 4 (split; [done|]). destruct Hor as [Hf|(j & source & Hj & Hs & Hf & Hl)].
    + destruct Hcache as [->|Hnew]; [by left|right]. exists 0%nat, call. unfold fresh_keys in Hf.
      destruct (cachedKeys cache') as [ks|] eqn:Hks; [|done]. destruct (Z.ltb_spec (fst (course c 0%nat) - cachedAt cache') (JWKS_TTL_MS cfg)); [|done].
      injection Hf as ->. destruct (Hnew keys eq_refl) as [Hat Hfe]. rewrite Hat in *. split; [lia|]. split; [done|]. split; [done|by right].
    + right. exists (S j), source. split; [lia|]. split; [done|]. split; [done|]. destruct Hl; [left; lia|by right].
Qed.

(** C13 (No stale keys): of all the requests a container is handed, one is
    forwarded only if its token passes, with its claims bound to its tenant,
    under the whole key set of one successful fetch, which the container made
    for that request or for an earlier one, less than the lifetime before by the
    first clock reading of each. So a failed fetch without fresh keys, an older
    key set, or a mixture of two forwards nothing. *)
Theorem jwks_never_stale calls i req :
  container empty_cache calls !! i = Some (Forward req) ->
  exists call rest t, calls !! i = Some call /\ event call = req :: rest /\ (exists k, t = fst (course call k)) /\
  exists j source keys, (j <= i)%nat /\ calls !! j = Some source /\ fetched source keys /\ admissible t req keys /\
    (j = i \/ fst (course call 0%nat) - fst (course source 0%nat) < JWKS_TTL_MS cfg).
Proof.
  intros Hi. destruct (container_origin calls empty_cache i req Hi) as (call & rest & keys & t & Hc & He & Hk & Ha & Hor).
  exists call, rest, t. do 3 (split; [done|]). destruct Hor as [Hor|(j & source & Hj & Hs & Hf & Ht)]; [done|].
  by exists j, source, keys.
Qed.

(** The reason logged for a token whose header has no key identifier, or
    whose payload has no expiry: the message contains [missing], which
    contains [iss]. *)
Lemma missing_kid_logged_as_wrong_iss {B} req sd (k : CloudFrontRequestResult -> B) :
  mapVerifyErrorToResponse req sd "verifyJwt: header.kid missing" k = refuse wrong_iss k /\
  mapVerifyErrorToResponse req sd "verifyJwt: exp missing" k = refuse wrong_iss k.
Proof. done. Qed.
End edge.

(** ** A run

    Tokens whose text is the JSON of their header and payload. *)
Definition toy_decompose (token : string) : result string (JsonObject * JsonObject) :=
  match JSON_parse token with
  | Some (VArray [VObject header; VObject payload]) => Ok (header, payload)
  | _ => Throw "Invalid JWT"
  end.

Definition toy_verify (now : Z) (token : string) (jwk : JsonValue) (issuer : string) (grace : Z)
    (check : JsonValue -> JsonObject -> option string) : result string JsonObject :=
  match toy_decompose token with
  | Throw m => Throw m
  | Ok (header, payload) =>
      match check jwk header with
      | Some m => Throw m
      | None =>
          match find_key "iss" payload with
          | Some (VString i) => if String.eqb i issuer then Ok payload else Throw "Issuer not allowed"
          | _ => Throw "Issuer not allowed"
          end
      end
  end.

#[export] Program Instance toy_jwt : AwsJwtVerify :=
  {| decomposeUnverifiedJwt := toy_decompose; verifyJwtSync := toy_verify |}.
Next Obligation.
  intros now token jwk issuer grace check payload. unfold toy_verify.
  destruct (toy_decompose token) as [[h p]|]; [|done]. destruct (check jwk h) eqn:Hc; [done|].
  destruct (find_key "iss" p) as [[]|] eqn:Hi; try done.
  destruct (String.eqb_spec s issuer) as [->|]; [|done]. intros [= <-]. by exists h.
Qed.

Definition example_config : EdgeConfig :=
  {| TENANT_PARENT := "tenants.example.com"; TENANT_PATTERN := DEFAULT_TENANT_PATTERN; POOL_ISSUER := "pool";
     JWKS_URL := "pool/jwks.json"; JWKS_TTL_MS := 900000 |}.

Definition example_token : string :=
  stringify (VArray [VObject [("alg", VString "RS256"); ("kid", VString "k1")];
                     VObject [("iss", VString "pool"); ("token_use", VString "id"); ("aud", VString "client");
                              ("custom:tenant_id", VString "acme"); ("exp", VNumber "99")]]).

Definition example_request (host : string) : CloudFrontRequest :=
  {| headers := Some [("host", [{| h_key := None; h_value := host |}]);
                      ("cookie", [{| h_key := None; h_value := "a=b; vestibulum_id_token=" +:+ example_token |}])];
     uri := Some "/"; cf_method := Some "GET"; querystring := None |}.

Definition example_edge : EdgeWorld :=
  {| site := fun _ => Ok {| ok := true; http_status := 200;
                            text := Some (stringify (VObject [("keys", VArray [VNull; VObject [("kid", VString "k1")]])])) |};
     edge_log := [] |}.

(** Forwarded at its own host, refused at another's; the keys are fetched and
    kept. *)
Example edge_runs :
  let outcome host := run (handler example_config empty_cache [example_request host]) (delivered (fun _ => 5000)) 0 example_edge in
  snd (outcome "ACME.tenants.example.com.:443") =
    Ok ({| cachedKeys := Some [VObject [("kid", VString "k1")]]; cachedAt := 5000 |},
        Forward (example_request "ACME.tenants.example.com.:443")) /\
  outcome "bob.tenants.example.com" =
    ({| site := site example_edge; edge_log := [EdgeCheckRefused tenant_mismatch] |},
     Ok ({| cachedKeys := Some [VObject [("kid", VString "k1")]]; cachedAt := 5000 |}, Respond forbidden_response)).
Proof. vm_compute. split; reflexivity. Qed.

Lemma edge_decision_witness :
  0 < JWKS_TTL_MS example_config /\
  wp (fun t => t = 5000) (fun d => d = Delivered)
    (handler example_config empty_cache [example_request "acme.tenants.example.com"]) example_edge
    (fun _ out => exists t1 t2 cache',
      t1 = 5000 /\ t2 = 5000 /\ cache_after example_config example_edge empty_cache t1 cache' /\
      decided (example_request "acme.tenants.example.com") (pair cache')
        (exists keys, fresh_keys example_config cache' t1 = Some keys /\
                      admissible example_config t2 (example_request "acme.tenants.example.com") keys) out).
Proof. split; [done|]. apply (edge_decision example_config _ _ empty_cache _ [] example_edge 5000); done. Defined.

(** The fetch fails, then succeeds, is not needed, then fails again when the
    keys are too old. *)
#[local] Definition example_calls : list EdgeCall :=
  let call t d := {| event := [example_request "acme.tenants.example.com"]; web := example_edge; course := fun _ => (t, d) |} in
  [call 0 LostReply; call 10 Delivered; call 900009 LostRequest; call 900010 LostReply].

Lemma jwks_never_stale_witness :
  container example_config empty_cache example_calls =
    [Respond (login_response (example_request "acme.tenants.example.com") "acme"); Forward (example_request "acme.tenants.example.com");
     Forward (example_request "acme.tenants.example.com"); Respond (login_response (example_request "acme.tenants.example.com") "acme")] /\
  exists j source keys, (j <= 2)%nat /\ example_calls !! j = Some source /\ fetched example_config source keys.
Proof.
  split; [vm_compute; reflexivity|].
  destruct (jwks_never_stale example_config example_calls 2%nat (example_request "acme.tenants.example.com")) as
    (call & rest & t & _ & _ & _ & j & source & keys & Hj & Hs & Hf & _); [vm_compute; reflexivity|]. by exists j, source, keys.
Defined.

Lemma one_token_one_tenant_witness :
  exists tenant, tenant = "acme" /\ exists header claims,
    toy_decompose example_token = Ok (header, claims) /\ find_key "alg" header = Some (VString "RS256") /\
    find_key "custom:tenant_id" claims = Some (VString tenant) /\ find_key "iss" claims = Some (VString "pool").
Proof.
  exists "acme".
  refine (one_token_one_tenant example_config empty_cache empty_cache example_edge example_edge
            (delivered (fun _ => 5000)) (delivered (fun _ => 7000)) 0 0
            (example_request "acme.tenants.example.com") (example_request "acme.tenants.example.com:80") [] []
            example_token "acme" "acme" _ _ _ _ _ _ _).
  - done.
  - exists "acme.tenants.example.com". split; vm_compute; reflexivity.
  - exists "acme.tenants.example.com:80". split; vm_compute; reflexivity.
  - vm_compute; reflexivity.
  - vm_compute; reflexivity.
  - eexists. vm_compute. reflexivity.
  - eexists. vm_compute. reflexivity.
Defined.
