(* ===== verification/SiteEdge.v ===== *)
(** The edge check of the single-tenant site:
    [packages/vestibulum/src/lambda/edge/check-auth/] ([index.ts],
    [cookie.ts], [jwks-cache.ts], [jwks-region-resolver.ts]).

    The handler's memory between requests is the wrapped JWKS cache, the
    resolved endpoint and the verifier; a run takes and returns it.
    [aws-jwt-verify]'s cache and verifier are an interface; a verification,
    which may fetch, is a command. *)

From S2P Require Import EdgeCheck.
From S2P Require Import Prelude JsString Json Regex Prog SignIn.
From Stdlib Require Import Ascii.

#[local] Open Scope string_scope.
#[local] Open Scope Z_scope.

(** ** jwks-region-resolver.ts *)

Record ResolvedCognitoEndpoint := { region : string; issuer : string; jwksUri : string }.

Definition lower_letter : re := rng "a" "z".

(** [/^([a-z]{2,}-[a-z]+(?:-[a-z]+)?-\d)_([A-Za-z0-9]+)$/]. *)
Definition POOL_ID_RE : re :=
  (lower_letter ⋅ plus lower_letter ⋅ lit "-" ⋅ plus lower_letter ⋅ opt (lit "-" ⋅ plus lower_letter) ⋅ lit "-" ⋅
   RCls is_digit ⋅ lit "_" ⋅ plus (RCls is_alnum))%re.

(** The first group ends at the underscore, which nothing else matches. *)
Definition resolveCognitoEndpoint (userPoolId : string) : option ResolvedCognitoEndpoint :=
  if negb (re_match POOL_ID_RE userPoolId) then None
  else
    match split "_" userPoolId with
    | [region; _] =>
        let issuer := "https://cognito-idp." +:+ region +:+ ".amazonaws.com/" +:+ userPoolId in
        Some {| region := region; issuer := issuer; jwksUri := issuer +:+ "/.well-known/jwks.json" |}
    | _ => None
    end.

Example endpoint_examples :
  region <$> resolveCognitoEndpoint "eu-central-1_aBcDeFgHi" = Some "eu-central-1" /\
  issuer <$> resolveCognitoEndpoint "us-gov-west-1_X9" = Some "https://cognito-idp.us-gov-west-1.amazonaws.com/us-gov-west-1_X9" /\
  resolveCognitoEndpoint "PLACEHOLDER_USER_POOL_ID" = None /\ resolveCognitoEndpoint "eu-central-1_" = None /\
  resolveCognitoEndpoint "eu-1_x" = None.
Proof. vm_compute. repeat split. Qed.

(** ** cookie.ts *)

Definition parseCookieSegment (raw name : string) : option string := EdgeCheck.token_in (split ";" raw) name.

Fixpoint first_cookie (es : list CloudFrontHeaderEntry) (name : string) : option string :=
  match es with
  | [] => None
  | e :: rest => match parseCookieSegment (h_value e) name with Some v => Some v | None => first_cookie rest name end
  end.

Definition getCookieValue (hs : option CloudFrontHeaders) (name : string) : option string :=
  match hs with
  | None => None
  | Some hs =>
      if String.eqb name "" then None
      else match find_header "cookie" hs with None => None | Some es => first_cookie es name end
  end.

(** ** index.ts *)

Record VestibulumEdgeConfig := {
  userPoolId : string;
  clientId : string;
  homeRegion : string;
  idTokenCookieName : string;
  loginPath : string
}.

(** What the bundle holds before the deployment writes the real values. *)
Definition placeholder_config : VestibulumEdgeConfig :=
  {| userPoolId := "PLACEHOLDER_USER_POOL_ID"; clientId := "PLACEHOLDER_CLIENT_ID";
     homeRegion := "PLACEHOLDER_REGION"; idTokenCookieName := ID_TOKEN_COOKIE_NAME; loginPath := "/login" |}.

(** The properties a verifier is created with. *)
Record VerifierProps := {
  vp_userPoolId : string;
  vp_tokenUse : string;
  vp_clientId : string;
  vp_graceSeconds : Z;
  vp_check : JsonObject -> option string;
  vp_issuer : string
}.

(** [SimpleJwksCache] and [CognitoJwtVerifier] of [aws-jwt-verify], in a world
    [W]: a verification is the inner cache it leaves and the payload or the
    error. *)
Class CognitoVerifier (W I : Type) := {
  SimpleJwksCache : I;
  decompose : string -> result string (JsonObject * JsonObject);
  verify_step : W -> VerifierProps -> I -> string -> I * result string JsonObject;
  verify_accepts w props i token i' payload :
    verify_step w props i token = (i', Ok payload) ->
    exists header, decompose token = Ok (header, payload) /\ vp_check props header = None /\
      find_key "iss" payload = Some (VString (vp_issuer props)) /\
      find_key "aud" payload = Some (VString (vp_clientId props)) /\
      find_key "token_use" payload = Some (VString (vp_tokenUse props))
}.

Section site.
Context {W I : Type} `{CognitoVerifier W I}.

Inductive site_cmd : Type -> Type :=
| Verify (props : VerifierProps) (inner : I) (token : string) : site_cmd (I * result string JsonObject).

#[local] Notation site_prog := (Prog.prog site_cmd fetch_error Empty_set Empty_set).

#[export] Instance site_edge_service : Service W site_cmd fetch_error Empty_set :=
  {| perform X w c := match c in site_cmd X return W * result fetch_error X with
                      | Verify props i token => (w, Ok (verify_step w props i token))
                      end;
     lost := NetworkError;
     record_event w e := w |}.

(** *** jwks-cache.ts *)

Definition JWKS_CACHE_TTL_MS : Z := 15 * 60 * 1000.

Record TtlBoundedJwksCache := { inner : I; innerCreatedAt : Z }.

(** The inner cache to use, recreated when its time is up. *)
Definition getActiveInner {A} (c : TtlBoundedJwksCache) (k : TtlBoundedJwksCache -> site_prog A) : site_prog A :=
  Now (fun now =>
    if JWKS_CACHE_TTL_MS <=? now - innerCreatedAt c
    then Now (fun created => k {| inner := SimpleJwksCache; innerCreatedAt := created |})
    else k c).

(** *** The handler *)

Record EdgeState := {
  jwksCache : TtlBoundedJwksCache;
  resolvedEndpoint : option ResolvedCognitoEndpoint;
  verifier : option ResolvedCognitoEndpoint
}.

Context (cfg : VestibulumEdgeConfig).

Definition rs256_only (header : JsonObject) : option string :=
  match find_key "alg" header with
  | Some (VString a) => if String.eqb a "RS256" then None else Some "unexpected_alg"
  | _ => Some "unexpected_alg"
  end.

Definition createInternalVerifier (endpoint : ResolvedCognitoEndpoint) : VerifierProps :=
  {| vp_userPoolId := userPoolId cfg; vp_tokenUse := "id"; vp_clientId := clientId cfg; vp_graceSeconds := 60;
     vp_check := rs256_only; vp_issuer := issuer endpoint |}.

Definition getVerifier (st : EdgeState) : EdgeState * option ResolvedCognitoEndpoint :=
  match verifier st with
  | Some v => (st, Some v)
  | None =>
      let ep := match resolvedEndpoint st with
                | Some e => Some e
                | None => resolveCognitoEndpoint (userPoolId cfg)
                end in
      ({| jwksCache := jwksCache st; resolvedEndpoint := ep; verifier := ep |}, ep)
  end.

Definition redirectToLogin : CloudFrontResultResponse :=
  {| status := "302"; statusDescription := "Found";
     r_headers := [("location", [entry "Location" (loginPath cfg)]); no_store]; r_body := None |}.

Definition with_cache (st : EdgeState) (c : TtlBoundedJwksCache) : EdgeState :=
  {| jwksCache := c; resolvedEndpoint := resolvedEndpoint st; verifier := verifier st |}.

Definition verify_token (st : EdgeState) (req : CloudFrontRequest) (endpoint : ResolvedCognitoEndpoint)
    (token : string) : site_prog (EdgeState * CloudFrontRequestResult) :=
  getActiveInner (jwksCache st) (fun c =>
    Send (Verify (createInternalVerifier endpoint) (inner c) token) (fun r =>
      match r with
      | Throw _ => Ret (with_cache st c, Respond redirectToLogin)
      | Ok (inner', verified) =>
          let st' := with_cache st {| inner := inner'; innerCreatedAt := innerCreatedAt c |} in
          Ret (st', match verified with Ok _ => Forward req | Throw _ => Respond redirectToLogin end)
      end)).

(** [request] is [None] when the event lacks it. *)
Definition handler (st : EdgeState) (request : option CloudFrontRequest) :
    site_prog (EdgeState * CloudFrontRequestResult) :=
  match request with
  | None => Ret (st, Respond redirectToLogin)
  | Some req =>
      match getCookieValue (headers req) (idTokenCookieName cfg) with
      | None => Ret (st, Respond redirectToLogin)
      | Some token =>
          if String.eqb token "" then Ret (st, Respond redirectToLogin)
          else
            let '(st', v) := getVerifier st in
            match v with
            | None => Ret (st', Respond redirectToLogin)
            | Some endpoint => verify_token st' req endpoint token
            end
      end
  end.

(** ** Decisions *)

(** What the module's memory holds is what the configuration gives. *)
Definition state_ok (st : EdgeState) : Prop :=
  (forall e, resolvedEndpoint st = Some e -> resolveCognitoEndpoint (userPoolId cfg) = Some e) /\
  (forall e, verifier st = Some e -> resolveCognitoEndpoint (userPoolId cfg) = Some e).

Lemma getVerifier_spec st :
  state_ok st -> let '(st', v) := getVerifier st in
  state_ok st' /\ jwksCache st' = jwksCache st /\ v = resolveCognitoEndpoint (userPoolId cfg).
Proof.
  intros [Hr Hv]. unfold getVerifier. destruct (verifier st) as [v|] eqn:Ev.
  - split; [split; [done|by rewrite Ev]|]. split; [done|]. symmetry. by apply Hv.
  - destruct (resolvedEndpoint st) as [e|] eqn:Er.
    + assert (resolveCognitoEndpoint (userPoolId cfg) = Some e) as He by by apply Hr.
      split; [split; cbn; congruence|]. split; [done|]. by symmetry.
    + split; [split; cbn; congruence|done].
Qed.

(** A token this site accepts, as its text says. *)
Definition site_token (endpoint : ResolvedCognitoEndpoint) (token : string) : Prop :=
  exists header payload, decompose token = Ok (header, payload) /\
    find_key "alg" header = Some (VString "RS256") /\
    find_key "iss" payload = Some (VString (issuer endpoint)) /\
    find_key "aud" payload = Some (VString (clientId cfg)) /\
    find_key "token_use" payload = Some (VString "id").

Lemma rs256_only_None h : rs256_only h = None -> find_key "alg" h = Some (VString "RS256").
Proof.
  unfold rs256_only. destruct (find_key "alg" h) as [[]|]; try done. by destruct (String.eqb_spec s "RS256") as [->|].
Qed.

(** The cache a verification used at [now]: at most a lifetime old. *)
Definition young (T : Z -> Prop) (st st' : EdgeState) : Prop :=
  (innerCreatedAt (jwksCache st') = innerCreatedAt (jwksCache st) /\
   exists now, T now /\ now - innerCreatedAt (jwksCache st) < JWKS_CACHE_TTL_MS) \/
  T (innerCreatedAt (jwksCache st')).

(** Also (the site's edge fails closed): whatever the cache, network and clock,
    the handler returns and either forwards the request unchanged or sends
    the viewer to log in; it forwards only a request whose cookie holds a
    token the verifier accepted for the pool the configuration names, signed
    with RS256, an ID token of the site's own client, with keys cached for
    less than the fifteen minutes; and with the configuration a bundle is
    built with it forwards nothing. *)
Theorem site_edge_decision (T : Z -> Prop) (D : delivery -> Prop) st request w :
  state_ok st ->
  wp T D (handler st request) w (fun w' out => w' = w /\ exists st' res, out = Ok (st', res) /\ state_ok st' /\
    (res = Respond redirectToLogin \/ exists req token endpoint, request = Some req /\ res = Forward req /\
       getCookieValue (headers req) (idTokenCookieName cfg) = Some token /\
       resolveCognitoEndpoint (userPoolId cfg) = Some endpoint /\ site_token endpoint token /\ young T st st' /\
       userPoolId cfg <> userPoolId placeholder_config)).
Proof.
  intros Hst. unfold handler.
  assert (forall st', state_ok st' -> w = w /\ exists st2 res,
    Ok (E := Empty_set) (st', Respond redirectToLogin) = Ok (st2, res) /\ state_ok st2 /\
    (res = Respond redirectToLogin \/ exists req token endpoint, request = Some req /\ res = Forward req /\
       getCookieValue (headers req) (idTokenCookieName cfg) = Some token /\
       resolveCognitoEndpoint (userPoolId cfg) = Some endpoint /\ site_token endpoint token /\ young T st st2 /\
       userPoolId cfg <> userPoolId placeholder_config)) as Hdeny by eauto 8.
  destruct request as [req|]; [|by apply Hdeny].
  destruct (getCookieValue (headers req) (idTokenCookieName cfg)) as [token|] eqn:Hck; [|by apply Hdeny].
  destruct (String.eqb token ""); [by apply Hdeny|].
  pose proof (getVerifier_spec st Hst) as Hv. destruct (getVerifier st) as [st1 v].
  destruct Hv as (Hst1 & Hcache & ->). destruct (resolveCognitoEndpoint (userPoolId cfg)) as [ep|] eqn:Hep; [|by apply Hdeny].
  assert (forall c, young T st (with_cache st1 c) -> forall dv, D dv ->
    let r := snd (deliver dv w (Verify (createInternalVerifier ep) (inner c) token)) in
    wp T D (match r with
      | Throw _ => Ret (C := site_cmd) (CE := fetch_error) (Ev := Empty_set) (E := Empty_set) (with_cache st1 c, Respond redirectToLogin)
      | Ok (inner', verified) =>
          Ret (with_cache st1 {| inner := inner'; innerCreatedAt := innerCreatedAt c |},
               match verified with Ok _ => Forward req | Throw _ => Respond redirectToLogin end)
      end) w (fun w' out => w' = w /\ exists st' res, out = Ok (st', res) /\ state_ok st' /\
      (res = Respond redirectToLogin \/ exists req' token' endpoint, Some req = Some req' /\ res = Forward req' /\
       getCookieValue (headers req') (idTokenCookieName cfg) = Some token' /\
       Some ep = Some endpoint /\ site_token endpoint token' /\ young T st st' /\
       userPoolId cfg <> userPoolId placeholder_config))) as Hsend.
  { intros c Hy dv _. destruct dv; cbn; [|by apply Hdeny..].
    destruct (verify_step w (createInternalVerifier ep) (inner c) token) as [i' [payload|m]] eqn:Hvs; cbn.
    - split; [done|]. eexists _, _. split; [done|]. split; [done|]. right. exists req, token, ep.
      apply verify_accepts in Hvs as (header & Hd & Hc & Hi & Ha & Hu). do 4 (split; [done|]).
      split; [exists header, payload; by repeat split; [|apply rs256_only_None|..]|]. split; [done|].
      intros Hp. rewrite Hp in Hep. vm_compute in Hep. done.
    - by apply Hdeny. }
  unfold verify_token, getActiveInner. intros now Hnow. cbn beta. rewrite Hcache.
  destruct (Z.leb_spec JWKS_CACHE_TTL_MS (now - innerCreatedAt (jwksCache st))) as [Hle|Hlt].
  - intros created Hcreated dv Hdv. assert (young T st (with_cache st1 {| inner := SimpleJwksCache; innerCreatedAt := created |})) by by right.
    destruct dv; refine (Hsend {| inner := SimpleJwksCache; innerCreatedAt := created |} _ _ Hdv); done.
  - intros dv Hdv. assert (young T st (with_cache st1 (jwksCache st))) by (left; eauto).
    destruct dv; refine (Hsend (jwksCache st) _ _ Hdv); done.
Qed.
End site.

(** ** A run, with tokens whose text is their JSON *)

Definition has_text (k v : string) (o : JsonObject) : bool :=
  match find_key k o with Some (VString s) => String.eqb s v | _ => false end.

Definition toy_site_verify (w : unit) (props : VerifierProps) (i : unit) (token : string) : unit * result string JsonObject :=
  (i, match toy_decompose token with
      | Throw m => Throw m
      | Ok (header, payload) =>
          match vp_check props header with
          | Some m => Throw m
          | None =>
              if has_text "iss" (vp_issuer props) payload && has_text "aud" (vp_clientId props) payload
                 && has_text "token_use" (vp_tokenUse props) payload
              then Ok payload else Throw "claims"
          end
      end).

Lemma has_text_spec k v o : has_text k v o = true -> find_key k o = Some (VString v).
Proof. unfold has_text. destruct (find_key k o) as [[]|]; try done. by intros ->%String.eqb_eq. Qed.

#[export] Program Instance toy_site : CognitoVerifier unit unit :=
  {| SimpleJwksCache := tt; decompose := toy_decompose; verify_step := toy_site_verify |}.
Next Obligation.
  intros w props i token i' payload. unfold toy_site_verify.
  destruct (toy_decompose token) as [[h p]|]; [|done]. destruct (vp_check props h) eqn:Hc; [done|].
  destruct (has_text "iss" _ p) eqn:H1, (has_text "aud" _ p) eqn:H2, (has_text "token_use" _ p) eqn:H3; try done.
  apply has_text_spec in H1, H2, H3. intros Heq. injection Heq as _ <-. by exists h.
Qed.

Definition example_site : VestibulumEdgeConfig :=
  {| userPoolId := "eu-central-1_aB"; clientId := "client"; homeRegion := "eu-central-1";
     idTokenCookieName := ID_TOKEN_COOKIE_NAME; loginPath := "/login" |}.

Definition site_example_token : string :=
  stringify (VArray [VObject [("alg", VString "RS256")];
                     VObject [("iss", VString "https://cognito-idp.eu-central-1.amazonaws.com/eu-central-1_aB");
                              ("token_use", VString "id"); ("aud", VString "client")]]).

Definition site_request : CloudFrontRequest :=
  {| headers := Some [("cookie", [{| h_key := None; h_value := "x=1" |};
                                  {| h_key := None; h_value := "id-token=" +:+ site_example_token |}])];
     uri := Some "/"; cf_method := Some "GET"; querystring := None |}.

Definition start_state : EdgeState (I := unit) :=
  {| jwksCache := {| inner := tt; innerCreatedAt := 0 |}; resolvedEndpoint := None; verifier := None |}.

Example site_runs :
  let outcome cfg := snd (run (handler cfg start_state (Some site_request)) (delivered (fun _ => 900000)) 0 tt) in
  match outcome example_site with Ok (st, res) => res = Forward site_request /\ innerCreatedAt (jwksCache st) = 900000
                                | Throw _ => False end /\
  match outcome placeholder_config with Ok (_, res) => res = Respond (redirectToLogin placeholder_config)
                                      | Throw _ => False end.
Proof. vm_compute. repeat split; reflexivity. Qed.

Lemma site_edge_decision_witness :
  state_ok example_site start_state /\
  wp (fun t => t = 5) (fun _ => True) (handler example_site start_state (Some site_request)) tt
    (fun w' out => w' = tt /\ exists st' res, out = Ok (st', res) /\ state_ok example_site st' /\
      (res = Respond (redirectToLogin example_site) \/ exists req token endpoint, Some site_request = Some req /\ res = Forward req /\
         getCookieValue (headers req) (idTokenCookieName example_site) = Some token /\
         resolveCognitoEndpoint (userPoolId example_site) = Some endpoint /\ site_token example_site endpoint token /\
         young (fun t => t = 5) start_state st' /\ userPoolId example_site <> userPoolId placeholder_config)).
Proof.
  assert (state_ok example_site start_state) as Hs by by split.
  split; [exact Hs|]. exact (site_edge_decision example_site (fun t => t = 5) (fun _ => True) start_state (Some site_request) tt Hs).
Defined.
