(* ===== verification/EdgeConfig.v ===== *)
(** How the edge functions come by their configuration: vestibulum-cdk
    [shared-distribution-identity/edge-function.ts], which writes it into the
    bundle when the stack is synthesised, and
    [scripts/lambda-entries/check-auth-config-baker.ts], which writes it into
    the deployed function of a single site. *)

From stdpp Require Import pretty.
From S2P Require Import Prelude JsString Regex Json Prog TenantHost EdgeCheck.
From S2P Require SiteEdge.
From Stdlib Require Import Ascii.

#[local] Open Scope string_scope.
#[local] Open Scope Z_scope.

Module EdgeConfig.

(** ** edge-function.ts *)

(** A string of the CDK at synthesis: known, or a token that CloudFormation
    replaces in templates, which stands in strings as a text with a dollar
    sign. *)
Inductive synth_string := Concrete (s : string) | Unresolved (n : nat).

Class CdkTokens := { token_text : nat -> string; token_dollar n : char_in "$" (token_text n) = true }.

Record EdgeFunctionProps := {
  tenantSubdomainParent : string;
  tenantSubdomainPattern : string * string;
  pool_userPoolId : synth_string;
  jwksTtl_ms : option Z
}.

(** The pattern is its source and its flags. *)
Record ResolvedEdgeConfig := {
  c_TENANT_PARENT : string; c_TENANT_PATTERN : string * string; c_POOL_ISSUER : string; c_JWKS_URL : string; c_JWKS_TTL_MS : Z
}.

Definition DEFAULT_JWKS_TTL_ms : Z := 15 * 60 * 1000.

(** [replace(/\.$/, "")]. *)
Definition strip_dot (s : string) : string := if endsWith s "." then str_take (String.length s - 1) s else s.

Definition issuer_of (region poolId : string) : string := "https://cognito-idp." +:+ region +:+ ".amazonaws.com/" +:+ poolId.

Section synth.
Context `{CdkTokens}.

Definition text_of (s : synth_string) : string := match s with Concrete t => t | Unresolved n => token_text n end.

Definition resolveEdgeConfig (props : EdgeFunctionProps) (region : string) : ResolvedEdgeConfig :=
  let poolIssuer := issuer_of region (text_of (pool_userPoolId props)) in
  {| c_TENANT_PARENT := strip_dot (tenantSubdomainParent props); c_TENANT_PATTERN := tenantSubdomainPattern props;
     c_POOL_ISSUER := poolIssuer; c_JWKS_URL := poolIssuer +:+ "/.well-known/jwks.json";
     c_JWKS_TTL_MS := default DEFAULT_JWKS_TTL_ms (jwksTtl_ms props) |}.
End synth.

Definition nl : string := String.String "010" "".

Definition renderEdgeConfigModule (cfg : ResolvedEdgeConfig) : string :=
  let '(patternSrc, patternFlags) := c_TENANT_PATTERN cfg in
  join nl [
    "// AUTO-GENERATED at synth time by @de-otio/vestibulum-cdk's EdgeFunction.";
    "// DO NOT EDIT BY HAND — regenerated on every `cdk synth`.";
    "// Lambda@Edge does not support env vars; config is baked here (review B4).";
    "";
    "export const TENANT_PARENT = " +:+ quote (c_TENANT_PARENT cfg) +:+ ";";
    "export const TENANT_PATTERN = new RegExp(" +:+ quote patternSrc +:+ ", " +:+ quote patternFlags +:+ ");";
    "export const POOL_ISSUER = " +:+ quote (c_POOL_ISSUER cfg) +:+ ";";
    "export const JWKS_URL = " +:+ quote (c_JWKS_URL cfg) +:+ ";";
    "export const JWKS_TTL_MS = " +:+ pretty (c_JWKS_TTL_MS cfg) +:+ ";";
    ""
  ].

(** What the handler of [EdgeCheck] imports, [compile] being [new RegExp]. *)
Definition imported (compile : string * string -> re) (cfg : ResolvedEdgeConfig) : EdgeConfig :=
  {| TENANT_PARENT := c_TENANT_PARENT cfg; TENANT_PATTERN := compile (c_TENANT_PATTERN cfg); POOL_ISSUER := c_POOL_ISSUER cfg;
     JWKS_URL := c_JWKS_URL cfg; JWKS_TTL_MS := c_JWKS_TTL_MS cfg |}.

(** *** What is written is what is read *)

Lemma quote_inj s1 s2 r1 r2 : quote s1 +:+ r1 = quote s2 +:+ r2 -> s1 = s2 /\ r1 = r2.
Proof.
  unfold quote. cbn [String.append]. rewrite !str_app_assoc. cbn [String.append]. intros E. injection E as E.
  apply (f_equal string_body) in E. rewrite !string_body_escape in E. by injection E.
Qed.

(** Also (The bundle determines the configuration): two configurations are never
    rendered alike, so that a change of any value changes the module and with
    it the hash of the bundle. *)
Theorem render_injective c1 c2 : renderEdgeConfigModule c1 = renderEdgeConfigModule c2 -> c1 = c2.
Proof.
  destruct c1 as [p1 [s1 f1] i1 j1 t1], c2 as [p2 [s2 f2] i2 j2 t2]. unfold renderEdgeConfigModule. cbn [c_TENANT_PATTERN c_TENANT_PARENT
    c_POOL_ISSUER c_JWKS_URL c_JWKS_TTL_MS join]. rewrite !str_app_assoc. intros E.
  do 8 apply str_app_inj_l in E. apply str_app_inj_l in E. apply quote_inj in E as [-> E].
  do 3 apply str_app_inj_l in E. apply quote_inj in E as [-> E]. apply str_app_inj_l in E. apply quote_inj in E as [-> E].
  do 3 apply str_app_inj_l in E. apply quote_inj in E as [-> E]. do 3 apply str_app_inj_l in E. apply quote_inj in E as [-> E].
  do 3 apply str_app_inj_l in E. apply str_app_inj_r in E. apply (inj pretty) in E as ->. done.
Qed.

Section edge_function.
Context `{CdkTokens} `{AwsJwtVerify} (compile : string * string -> re).

(** Also (A pool of the same stack locks everyone out): the construct makes the
    pool itself, so that its identifier is a token at synthesis, which nothing
    replaces in the bundle: whatever identifier the pool gets, a request that
    carries a token of its issuer is never forwarded. *)
Theorem own_pool_locks_out props n region poolId c w env i r rest token header claims :
  pool_userPoolId props = Unresolved n -> char_in "$" poolId = false -> default DEFAULT_JWKS_TTL_ms (jwksTtl_ms props) > 0 ->
  extractTokenFromCookies (header_entries r "cookie") = Some token ->
  decomposeUnverifiedJwt token = Ok (header, claims) ->
  find_key "iss" claims = Some (VString (issuer_of region poolId)) ->
  forall c', snd (run (handler (imported compile (resolveEdgeConfig props region)) c (r :: rest)) env i w) <> Ok (c', Forward r).
Proof.
  intros Hp Hd Httl Htok Hdec Hiss c' Hrun. set (cfg := imported compile (resolveEdgeConfig props region)) in *.
  assert (0 < JWKS_TTL_MS cfg) as Hpos by (cbn; lia).
  destruct (request_host r) as [host|] eqn:Hh.
  2:{ clear -Hrun Hh. unfold handler in Hrun. rewrite Hh in Hrun. done. }
  destruct (edge_extractTenantSubdomain (Some host) (TENANT_PARENT cfg) (TENANT_PATTERN cfg)) as [tenant|] eqn:Ht.
  2:{ clear -Hrun Hh Ht. unfold handler in Hrun. rewrite Hh in Hrun. cbn [default from_option] in Hrun. unfold Datatypes.id in Hrun.
      destruct (String.eqb host ""); [done|]. by rewrite Ht in Hrun. }
  destruct (one_token_one_tenant_claims cfg c w env i r rest c' token tenant Hpos) as (h & cl & Hdec' & _ & _ & Hiss');
    [by exists host|done|done|].
  rewrite Hdec in Hdec'. injection Hdec' as <- <-. rewrite Hiss in Hiss'. apply (inj Some) in Hiss'.
  assert (issuer_of region poolId = POOL_ISSUER cfg) as E by congruence. unfold cfg in E.
  cbn [imported resolveEdgeConfig POOL_ISSUER c_POOL_ISSUER] in E. unfold issuer_of in E.
  do 3 apply str_app_inj_l in E. rewrite Hp in E. cbn [text_of] in E. rewrite E, token_dollar in Hd. done.
Qed.

(** Also (A known pool is the one that is checked): for a pool known at
    synthesis the issuer and the keys are its own, and a parent domain may be
    given with a dot at its end. *)
Theorem known_pool_checked parent pattern poolId ttl region : endsWith parent "." = false ->
  let cfg dot := imported compile (resolveEdgeConfig {| tenantSubdomainParent := parent +:+ dot; tenantSubdomainPattern := pattern;
                                                      pool_userPoolId := Concrete poolId; jwksTtl_ms := ttl |} region) in
  cfg "." = cfg "" /\ TENANT_PARENT (cfg "") = parent /\ POOL_ISSUER (cfg "") = issuer_of region poolId /\
  JWKS_URL (cfg "") = POOL_ISSUER (cfg "") +:+ "/.well-known/jwks.json".
Proof.
  intros Hd cfg. assert (strip_dot (parent +:+ ".") = strip_dot (parent +:+ "")) as E.
  { rewrite str_app_nil_r. unfold strip_dot. rewrite Hd. rewrite (proj2 (endsWith_spec _ ".")) by (by exists parent).
    rewrite str_length_app. replace (String.length parent + String.length "." - 1)%nat with (String.length parent) by (cbn; lia).
    apply str_take_app. }
  split; [|split_and!; [|done|done]].
  - unfold cfg, imported, resolveEdgeConfig. cbn. by rewrite E.
  - cbn. rewrite str_app_nil_r. unfold strip_dot. by rewrite Hd.
Qed.
End edge_function.

(** ** check-auth-config-baker.ts *)

(** [s.split(pat).join(v)]: [skip] characters are left of an occurrence. *)
Fixpoint replace_from (skip : nat) (pat v s : string) : string :=
  match s with
  | EmptyString => ""
  | String.String c r =>
      match skip with
      | S n => replace_from n pat v r
      | O => if String.prefix pat s then v +:+ replace_from (String.length pat - 1) pat v r
             else String.String c (replace_from 0 pat v r)
      end
  end.

Definition replaceAll : string -> string -> string -> string := replace_from 0.

Inductive RequestType := Create | Update | Delete.

Record ResourceProperties := { FunctionName : string; UserPoolId : string; ClientId : string; HomeRegion : string }.

Record CrEvent := { type : RequestType; ev_PhysicalResourceId : option string; properties : ResourceProperties }.

Definition SEAMS : list string := ["PLACEHOLDER_USER_POOL_ID"; "PLACEHOLDER_CLIENT_ID"; "PLACEHOLDER_REGION"].

Definition inject (props : ResourceProperties) (code : string) : string :=
  replaceAll "PLACEHOLDER_REGION" (HomeRegion props)
    (replaceAll "PLACEHOLDER_CLIENT_ID" (ClientId props) (replaceAll "PLACEHOLDER_USER_POOL_ID" (UserPoolId props) code)).

(** A published version, by its function and number. *)
#[global] Notation version_arn := (string * nat)%type.

Record CrResult := { PhysicalResourceId : string; FunctionVersionArn : option version_arn }.

Inductive lambda_error := ResourceNotFound | ConnectionLost.

Inductive lambda_cmd : Type -> Type :=
| UpdateFunctionCode (fn code : string) : lambda_cmd unit
| WaitUntilUpdated (fn : string) : lambda_cmd unit
| PublishVersion (fn : string) : lambda_cmd (option version_arn).

Inductive bake_error := SeamSurvived (seam : string) | LambdaError (e : lambda_error) | NoFunctionArn.

#[local] Notation bake_prog := (Prog.prog lambda_cmd lambda_error bake_error Empty_set).

(** [base]: the pristine bundle. *)
Definition bake (base : string) (event : CrEvent) : bake_prog CrResult :=
  let props := properties event in
  let physicalId := default ("check-auth-bake-" +:+ FunctionName props) (ev_PhysicalResourceId event) in
  match type event with
  | Delete => Ret {| PhysicalResourceId := physicalId; FunctionVersionArn := None |}
  | _ =>
      let code := inject props base in
      match List.find (includes code) SEAMS with
      | Some seam => Raise (SeamSurvived seam)
      | None =>
          Send (UpdateFunctionCode (FunctionName props) code) (fun r1 =>
            match r1 with
            | Throw e => Raise (LambdaError e)
            | Ok _ =>
                Send (WaitUntilUpdated (FunctionName props)) (fun r2 =>
                  match r2 with
                  | Throw e => Raise (LambdaError e)
                  | Ok _ =>
                      Send (PublishVersion (FunctionName props)) (fun r3 =>
                        match r3 with
                        | Throw e => Raise (LambdaError e)
                        | Ok None => Raise NoFunctionArn
                        | Ok (Some arn) => Ret {| PhysicalResourceId := physicalId; FunctionVersionArn := Some arn |}
                        end)
                  end)
            end)
      end
  end.

(** Lambda: the code of a function and its published versions, oldest first. A
    version of unchanged code is the last one again. *)
Record Function_ := { latest : string; versions : list string }.

#[global] Notation Functions := (gmap string Function_).

Definition lambda_perform {X} (w : Functions) (c : lambda_cmd X) : Functions * result lambda_error X :=
  match c in lambda_cmd X return Functions * result lambda_error X with
  | UpdateFunctionCode fn code =>
      match w !! fn with
      | None => (w, Throw ResourceNotFound)
      | Some f => (<[fn := {| latest := code; versions := versions f |}]> w, Ok tt)
      end
  | WaitUntilUpdated fn => (w, match w !! fn with None => Throw ResourceNotFound | Some _ => Ok tt end)
  | PublishVersion fn =>
      match w !! fn with
      | None => (w, Throw ResourceNotFound)
      | Some f =>
          if bool_decide (last (versions f) = Some (latest f)) then (w, Ok (Some (fn, length (versions f))))
          else (<[fn := {| latest := latest f; versions := (versions f ++ [latest f])%list |}]> w, Ok (Some (fn, S (length (versions f)))))
      end
  end.

#[local] Instance lambda_service : Service Functions lambda_cmd lambda_error Empty_set :=
  {| perform X w c := lambda_perform w c; lost := ConnectionLost; record_event w e := w |}.

(** The code of a published version. *)
Definition version_code (w : Functions) (arn : version_arn) : option string :=
  f ← w !! arn.1; if (arn.2 =? 0)%nat then None else versions f !! (arn.2 - 1)%nat.

(** Nothing but the one function changes, and of that no published version. *)
Definition only_extends (fn : string) (w w' : Functions) : Prop :=
  (forall g, g <> fn -> w' !! g = w !! g) /\
  match w !! fn with
  | None => w' !! fn = None
  | Some f => exists f' more, w' !! fn = Some f' /\ versions f' = (versions f ++ more)%list
  end.

Lemma only_extends_refl fn w : only_extends fn w w.
Proof. split; [done|]. destruct (w !! fn) as [f|] eqn:E; [|done]. exists f, []. by rewrite app_nil_r. Qed.

Lemma only_extends_trans fn w1 w2 w3 : only_extends fn w1 w2 -> only_extends fn w2 w3 -> only_extends fn w1 w3.
Proof.
  intros [Hg1 Hf1] [Hg2 Hf2]. split; [intros g Hg; by rewrite Hg2, Hg1|]. destruct (w1 !! fn) as [f|]; [|by rewrite Hf1 in Hf2].
  destruct Hf1 as (f' & more & E & Hv). rewrite E in Hf2. destruct Hf2 as (f2 & more2 & E2 & Hv2). exists f2, (more ++ more2)%list.
  split; [done|]. by rewrite Hv2, Hv, app_assoc.
Qed.

Definition target {X} (c : lambda_cmd X) : string :=
  match c with UpdateFunctionCode fn _ | WaitUntilUpdated fn | PublishVersion fn => fn end.

Lemma perform_extends {X} (c : lambda_cmd X) w : only_extends (target c) w (fst (lambda_perform w c)).
Proof.
  destruct c as [fn code|fn|fn]; cbn [lambda_perform target]; [|apply only_extends_refl|]; destruct (w !! fn) as [f|] eqn:E;
    try apply only_extends_refl.
  - cbn [fst]. split; [intros g Hg; by apply lookup_insert_ne|]. rewrite E. eexists _, []. rewrite lookup_insert_eq, app_nil_r. done.
  - destruct (bool_decide _); [apply only_extends_refl|]. cbn [fst]. split; [intros g Hg; by apply lookup_insert_ne|].
    rewrite E. eexists _, _. by rewrite lookup_insert_eq.
Qed.

Lemma deliver_extends {X} dv (c : lambda_cmd X) w : only_extends (target c) w (fst (deliver dv w c)).
Proof. destruct dv; cbn [deliver fst]; [apply perform_extends|apply only_extends_refl|apply perform_extends]. Qed.

Lemma deliver_Ok {X} dv (c : lambda_cmd X) w w' x : deliver dv w c = (w', Ok x) -> lambda_perform w c = (w', Ok x).
Proof. destruct dv; cbn [deliver]; [done|by intros [=]|by destruct (perform w c); intros [=]]. Qed.

(** What a publication answers is the number of the code that is current. *)
Lemma publish_current w fn w' arn : lambda_perform w (PublishVersion fn) = (w', Ok (Some arn)) ->
  exists f, w !! fn = Some f /\ arn.1 = fn /\ version_code w' arn = Some (latest f).
Proof.
  cbn [lambda_perform]. destruct (w !! fn) as [f|] eqn:E; [|done]. case_bool_decide as Hl; intros He; injection He as <- <-; exists f.
  - split; [done|]. split; [done|]. unfold version_code. cbn [fst snd]. rewrite E. cbn [mbind option_bind].
    rewrite last_lookup in Hl. destruct (length (versions f)) as [|n] eqn:En; [by apply nil_length_inv in En; rewrite En in Hl|].
    cbn [Nat.eqb]. by replace (S n - 1)%nat with (pred (S n)) by lia.
  - split; [done|]. split; [done|]. unfold version_code. cbn [fst snd]. rewrite lookup_insert_eq. cbn [mbind option_bind versions Nat.eqb].
    replace (S (length (versions f)) - 1)%nat with (length (versions f)) by lia. by apply list_lookup_middle.
Qed.

(** Also (What is returned is the baked bundle): whatever messages are lost, a
    bake changes its own function only and no version that was published; when
    it returns a version, that version is the pristine bundle with the values
    in place of all three placeholders, none of which is left; when one would
    be left, nothing is changed. *)
Theorem bake_spec base event env n w :
  let '(w', r) := run (bake base event) env n w in
  let fn := FunctionName (properties event) in
  only_extends fn w w' /\
  match r with
  | Ok res =>
      match FunctionVersionArn res with
      | None => type event = Delete /\ w' = w
      | Some arn => arn.1 = fn /\ version_code w' arn = Some (inject (properties event) base) /\
          Forall (fun seam => includes (inject (properties event) base) seam = false) SEAMS
      end
  | Throw (SeamSurvived seam) => w' = w /\ In seam SEAMS /\ includes (inject (properties event) base) seam = true
  | Throw _ => True
  end.
Proof.
  unfold bake. set (fn := FunctionName (properties event)). set (code := inject (properties event) base).
  assert (type event = Delete \/ type event <> Delete) as [Ht|Ht] by (destruct (type event); by (left + right)).
  { rewrite Ht. cbn [run]. split; [apply only_extends_refl|done]. }
  assert (forall {A} (x y : A), match type event with Delete => x | _ => y end = y) as Hm by (intros A x y; by destruct (type event)).
  rewrite Hm. clear Hm Ht. destruct (List.find (includes code) SEAMS) as [seam|] eqn:Hf.
  { cbn [run]. apply List.find_some in Hf as [Hin Hi]. split; [apply only_extends_refl|done]. }
  assert (Forall (fun seam => includes code seam = false) SEAMS) as Hclean.
  { apply Forall_forall. intros seam Hin. by apply (List.find_none _ _ Hf), list_elem_of_In. }
  cbn [run]. pose proof (deliver_extends (snd (env n)) (UpdateFunctionCode fn code) w) as H1.
  destruct (deliver (snd (env n)) w (UpdateFunctionCode fn code)) as [w1 [[]|e]] eqn:E1; cbn [run fst target] in *; [|done].
  pose proof (deliver_extends (snd (env (S n))) (WaitUntilUpdated fn) w1) as H2.
  destruct (deliver (snd (env (S n))) w1 (WaitUntilUpdated fn)) as [w2 [[]|e]] eqn:E2; cbn [run fst target] in *;
    [|split; [by eapply only_extends_trans|done]].
  pose proof (deliver_extends (snd (env (S (S n)))) (PublishVersion fn) w2) as H3.
  assert (only_extends fn w w2) as H12 by (by eapply only_extends_trans).
  destruct (deliver (snd (env (S (S n)))) w2 (PublishVersion fn)) as [w3 [[arn|]|e]] eqn:E3; cbn [run fst target] in *;
    (split; [by eapply only_extends_trans|]); [|done|done].
  cbn [FunctionVersionArn]. apply deliver_Ok in E1, E2, E3. apply publish_current in E3 as (f & Hf2 & Harn & Hv).
  split; [done|]. split; [|done]. rewrite Hv. cbn [lambda_perform] in E1, E2. destruct (w !! fn) as [f0|]; [|done].
  injection E1 as <-. rewrite lookup_insert_eq in E2. injection E2 as <-. rewrite lookup_insert_eq in Hf2. by injection Hf2 as <-.
Qed.

(** *** The configuration after baking *)

Lemma replaceAll_absent pat v s : includes s pat = false -> replaceAll pat v s = s.
Proof.
  unfold replaceAll, includes. induction s as [|c s IH]; [done|]. cbn [indexOf replace_from].
  destruct (String.prefix pat (String.String c s)); [done|]. intros H. f_equal. apply IH. by destruct (indexOf s pat).
Qed.

(** The string literals of the bundle's configuration, injected. *)
Definition baked (props : ResourceProperties) (c : SiteEdge.VestibulumEdgeConfig) : SiteEdge.VestibulumEdgeConfig :=
  {| SiteEdge.userPoolId := inject props (SiteEdge.userPoolId c); SiteEdge.clientId := inject props (SiteEdge.clientId c);
     SiteEdge.homeRegion := inject props (SiteEdge.homeRegion c); SiteEdge.idTokenCookieName := inject props (SiteEdge.idTokenCookieName c);
     SiteEdge.loginPath := inject props (SiteEdge.loginPath c) |}.

Definition seam_free (s : string) : Prop := Forall (fun seam => includes s seam = false) SEAMS.

Lemma inject_free props s : seam_free s -> inject props s = s.
Proof.
  intros H. apply Forall_cons in H as [H1 H]. apply Forall_cons in H as [H2 H]. apply Forall_cons in H as [H3 _].
  unfold inject. rewrite (replaceAll_absent "PLACEHOLDER_USER_POOL_ID") by done.
  rewrite (replaceAll_absent "PLACEHOLDER_CLIENT_ID") by done. by rewrite replaceAll_absent.
Qed.

(** Also (The baked function checks the deployed pool): what the edge function of
    the site is deployed with is a configuration under which no pool resolves;
    baking turns its placeholders into the values of the resource, unless these
    hold a placeholder, and leaves the cookie and the login path alone. *)
Theorem baked_config props : seam_free (UserPoolId props) -> seam_free (ClientId props) -> seam_free (HomeRegion props) ->
  SiteEdge.resolveCognitoEndpoint (SiteEdge.userPoolId SiteEdge.placeholder_config) = None /\
  baked props SiteEdge.placeholder_config =
    {| SiteEdge.userPoolId := UserPoolId props; SiteEdge.clientId := ClientId props; SiteEdge.homeRegion := HomeRegion props;
       SiteEdge.idTokenCookieName := SiteEdge.idTokenCookieName SiteEdge.placeholder_config;
       SiteEdge.loginPath := SiteEdge.loginPath SiteEdge.placeholder_config |}.
Proof.
  intros H1 H2 H3. split; [by vm_compute|]. unfold baked. f_equal.
  - change (inject props (SiteEdge.userPoolId SiteEdge.placeholder_config)) with
      (replaceAll "PLACEHOLDER_REGION" (HomeRegion props) (replaceAll "PLACEHOLDER_CLIENT_ID" (ClientId props) (UserPoolId props +:+ ""))).
    rewrite str_app_nil_r. apply Forall_cons in H1 as [_ H1]. apply Forall_cons in H1 as [H1 H1']. apply Forall_cons in H1' as [H1' _].
    by rewrite !replaceAll_absent by (by rewrite ?replaceAll_absent).
  - change (inject props (SiteEdge.clientId SiteEdge.placeholder_config)) with (replaceAll "PLACEHOLDER_REGION" (HomeRegion props) (ClientId props +:+ "")).
    rewrite str_app_nil_r. apply Forall_cons in H2 as [_ H2]. apply Forall_cons in H2 as [_ H2]. apply Forall_cons in H2 as [H2 _].
    by rewrite replaceAll_absent.
  - change (inject props (SiteEdge.homeRegion SiteEdge.placeholder_config)) with (HomeRegion props +:+ ""). apply str_app_nil_r.
Qed.

(** ** Runs *)

#[local] Definition site_props : ResourceProperties :=
  {| FunctionName := "check-auth"; UserPoolId := "eu-central-1_aBc"; ClientId := "c1"; HomeRegion := "eu-central-1" |}.
#[local] Definition site_event : CrEvent := {| type := Create; ev_PhysicalResourceId := None; properties := site_props |}.
#[local] Definition site_base : string := "p='PLACEHOLDER_USER_POOL_ID';c='PLACEHOLDER_CLIENT_ID';r='PLACEHOLDER_REGION'".
#[local] Definition lambdas : Functions := {[ "check-auth" := {| latest := "old"; versions := ["old"] |} ]}.
#[local] Definition prompt : nat -> Z * delivery := delivered (fun n => Z.of_nat n).

(** A bake publishes; the same again publishes nothing new; a value that holds
    a placeholder is refused. *)
Example bake_runs :
  let '(w1, r1) := run (bake site_base site_event) prompt 0 lambdas in
  r1 = Ok {| PhysicalResourceId := "check-auth-bake-check-auth"; FunctionVersionArn := Some ("check-auth", 2%nat) |} /\
  version_code w1 ("check-auth", 2%nat) = Some "p='eu-central-1_aBc';c='c1';r='eu-central-1'" /\
  version_code w1 ("check-auth", 1%nat) = Some "old" /\
  run (bake site_base site_event) prompt 0 w1 = (w1, r1) /\
  snd (run (bake site_base {| type := Update; ev_PhysicalResourceId := None;
                             properties := {| FunctionName := "check-auth"; UserPoolId := "x"; ClientId := "c"; HomeRegion := "PLACEHOLDER_CLIENT_ID" |} |})
        prompt 0 lambdas) = Throw (SeamSurvived "PLACEHOLDER_CLIENT_ID").
Proof. by vm_compute. Qed.

(** Two bakes of one function at once: the first returns a version with the
    values of the second. *)
Lemma crossing_bakes :
  let other := {| type := Update; ev_PhysicalResourceId := None;
                  properties := {| FunctionName := "check-auth"; UserPoolId := "eu-central-1_xYz"; ClientId := "c2"; HomeRegion := "eu-central-1" |} |} in
  let '(w, ps) := run_steps (map (fun i => (i, (0, Delivered))) [0; 0; 1; 0; 1; 1]%nat) lambdas [bake site_base site_event; bake site_base other] in
  (ps !! 0%nat) = Some (Ret {| PhysicalResourceId := "check-auth-bake-check-auth"; FunctionVersionArn := Some ("check-auth", 2%nat) |}) /\
  version_code w ("check-auth", 2%nat) = Some "p='eu-central-1_xYz';c='c2';r='eu-central-1'".
Proof. by vm_compute. Qed.

Lemma baked_config_witness :
  SiteEdge.issuer <$> SiteEdge.resolveCognitoEndpoint (SiteEdge.userPoolId (baked site_props SiteEdge.placeholder_config)) =
    Some "https://cognito-idp.eu-central-1.amazonaws.com/eu-central-1_aBc".
Proof.
  destruct (baked_config site_props) as [_ ->]; [by repeat constructor..|]. by vm_compute.
Defined.

#[local] Definition toy_token_text (n : nat) : string := "${Token[TOKEN." +:+ pretty n +:+ "]}".

#[local] Lemma toy_dollar n : char_in "$" (toy_token_text n) = true.
Proof. done. Qed.

#[local] Instance toy_tokens : CdkTokens := {| token_text := toy_token_text; token_dollar := toy_dollar |}.

#[local] Definition shared_props : EdgeFunctionProps :=
  {| tenantSubdomainParent := "tenants.example.com."; tenantSubdomainPattern := ("^[a-z]+$", ""); pool_userPoolId := Unresolved 7;
     jwksTtl_ms := None |}.

Example synth_runs :
  c_POOL_ISSUER (resolveEdgeConfig shared_props "eu-central-1") = "https://cognito-idp.eu-central-1.amazonaws.com/${Token[TOKEN.7]}" /\
  c_TENANT_PARENT (resolveEdgeConfig shared_props "eu-central-1") = "tenants.example.com" /\
  c_JWKS_TTL_MS (resolveEdgeConfig shared_props "eu-central-1") = 900000.
Proof. by vm_compute. Qed.

#[local] Definition pool_token : string :=
  stringify (VArray [VObject [("alg", VString "RS256"); ("kid", VString "k1")];
                     VObject [("iss", VString (issuer_of "eu-central-1" "eu-central-1_aBc"))]]).
#[local] Definition pool_request : CloudFrontRequest :=
  {| headers := Some [("host", [{| h_key := None; h_value := "acme.tenants.example.com" |}]);
                      ("cookie", [{| h_key := None; h_value := "vestibulum_id_token=" +:+ pool_token |}])];
     uri := Some "/"; cf_method := Some "GET"; querystring := None |}.

Lemma own_pool_locks_out_witness : forall c',
  snd (run (EdgeCheck.handler (imported (fun _ => DEFAULT_TENANT_PATTERN) (resolveEdgeConfig shared_props "eu-central-1")) empty_cache [pool_request])
        prompt 0 example_edge) <> Ok (c', Forward pool_request).
Proof.
  apply (own_pool_locks_out (fun _ => DEFAULT_TENANT_PATTERN) shared_props 7 "eu-central-1" "eu-central-1_aBc" empty_cache example_edge prompt 0
    pool_request [] pool_token [("alg", VString "RS256"); ("kid", VString "k1")] [("iss", VString (issuer_of "eu-central-1" "eu-central-1_aBc"))]);
    by vm_compute.
Defined.

Lemma known_pool_checked_witness :
  TENANT_PARENT (imported (fun _ => DEFAULT_TENANT_PATTERN)
    (resolveEdgeConfig {| tenantSubdomainParent := "t.example"; tenantSubdomainPattern := ("x", ""); pool_userPoolId := Concrete "p"; jwksTtl_ms := None |} "r")) =
  "t.example".
Proof. by apply (known_pool_checked (fun _ => DEFAULT_TENANT_PATTERN) "t.example" ("x", "") "p" None "r"). Defined.

Lemma render_injective_witness :
  let cfg := resolveEdgeConfig shared_props "eu-central-1" in renderEdgeConfigModule cfg = renderEdgeConfigModule cfg /\ cfg = cfg.
Proof. split; [done|]. by apply render_injective. Defined.
End EdgeConfig.
