(* ===== verification/PreToken.v ===== *)
(** The Cognito trigger templates a consumer fills in:
    [packages/vestibulum/src/lambda/pre-token-generation.ts],
    [post-confirmation.ts], [cognito-events.ts] and
    [types/frozen/callbacks.ts] (the reserved claims).

    The consumer's callback is a function that may throw, its error hook one
    whose outcome the source ignores; a run gives the calls made of the hook
    beside the event or the error. *)

From S2P Require Import Prelude JsString Json.
From Stdlib Require Import Ascii.

#[local] Open Scope string_scope.
#[local] Open Scope Z_scope.

(** ** types/frozen/callbacks.ts *)

Definition RESERVED_CLAIMS : list string :=
  ["acr"; "amr"; "aud"; "auth_time"; "azp"; "exp"; "iat"; "iss"; "jti"; "nbf"; "nonce"; "sub"; "token_use";
   "cognito:username"; "cognito:groups"; "cognito:roles"; "cognito:preferred_role"; "username"; "client_id";
   "origin_jti"; "event_id"; "scope"].

Definition isReservedClaim (claimName : string) : bool := existsb (String.eqb claimName) RESERVED_CLAIMS.

(** ** types/identity.ts, cognito-events.ts *)

Inductive ProviderType := OIDC | SAML.

Inductive Identity := cognito | federated (providerName : string) (providerType : ProviderType).

(** [userAttributes[name]]. *)
Fixpoint attribute (attrs : list (string * string)) (name : string) : option string :=
  match attrs with
  | [] => None
  | (n, v) :: rest => if String.eqb n name then Some v else attribute rest name
  end.

Definition parseIdentityFromUserAttributes (userAttributes : list (string * string)) : Identity :=
  match attribute userAttributes "identities" with
  | None => cognito
  | Some raw =>
      if String.eqb raw "" then cognito
      else
        match JSON_parse raw with
        | Some (VArray (VObject first :: _)) =>
            match find_key "providerName" first with
            | Some (VString providerName) =>
                if String.eqb providerName "" then cognito
                else federated providerName
                       match find_key "providerType" first with
                       | Some (VString t) => if String.eqb t "SAML" then SAML else OIDC
                       | _ => OIDC
                       end
            | _ => cognito
            end
        | _ => cognito
        end
  end.

Definition is_group_separator (c : ascii) : bool := Ascii.eqb c "," || Ascii.eqb c ";".

Definition parseFederatedGroups (userAttributes : list (string * string)) : list string :=
  match attribute userAttributes "custom:idpGroups" with
  | None => []
  | Some raw => if String.eqb raw "" then [] else filter_non_empty (map trim (split_runs is_group_separator raw))
  end.

(** ** pre-token-generation.ts *)

Inductive ClaimValue := ClaimString (s : string) | ClaimNumber (text : string) | ClaimBool (b : bool) | ClaimList (l : list string).

Record ClaimResolverOutput := {
  claimsToAddOrOverride : option (list (string * ClaimValue));
  claimsToSuppress : option (list string);
  groupsToOverride : option (list string);
  iamRolesToOverride : option (list string);
  preferredRole : option string;
  scopesToAdd : option (list string);
  scopesToSuppress : option (list string)
}.

Definition empty_output : ClaimResolverOutput :=
  {| claimsToAddOrOverride := None; claimsToSuppress := None; groupsToOverride := None; iamRolesToOverride := None;
     preferredRole := None; scopesToAdd := None; scopesToSuppress := None |}.

Record ClaimResolverInput := {
  in_userSub : string;
  in_userAttributes : list (string * string);
  in_clientId : string;
  in_triggerSource : string;
  in_identity : Identity;
  in_federatedGroups : list string;
  in_isRefresh : bool;
  in_untrustedClientMetadata : list (string * string)
}.

Record GroupOverrideDetails := {
  g_groupsToOverride : option (list string);
  g_iamRolesToOverride : option (list string);
  g_preferredRole : option string
}.

Record IdTokenGeneration := {
  t_claimsToAddOrOverride : option (list (string * string));
  t_claimsToSuppress : option (list string)
}.

Record AccessTokenGeneration := {
  a_token : IdTokenGeneration;
  a_scopesToAdd : option (list string);
  a_scopesToSuppress : option (list string)
}.

(** [event.response]: what it arrives as, and the two shapes it is given. *)
Inductive TokenResponse :=
| Arrived (has_claimsAndScopeOverrideDetails : bool)
| V1Response (claims : IdTokenGeneration) (groups : option GroupOverrideDetails)
| V2Response (idToken : option IdTokenGeneration) (accessToken : option AccessTokenGeneration)
             (groups : option GroupOverrideDetails).

Record TokenEvent := {
  userName : string;
  event_clientId : string;
  triggerSource : string;
  event_userAttributes : list (string * string);
  has_scopes : bool;
  clientMetadata : option (list (string * string));
  response : TokenResponse
}.

Inductive PreTokenEventVersion := v1 | v2.

Definition detectPreTokenEventVersion (ev : TokenEvent) : PreTokenEventVersion :=
  match response ev with
  | Arrived true | V2Response _ _ _ => v2
  | _ => if has_scopes ev then v2 else v1
  end.

Definition claim_text (v : ClaimValue) : string :=
  match v with
  | ClaimList l => stringify (VArray (map VString l))
  | ClaimBool true => "true"
  | ClaimBool false => "false"
  | ClaimNumber t => t
  | ClaimString s => s
  end.

(** [out[key] = text] on an object literal: an assignment of a string to
    [__proto__] does nothing. *)
Definition stringifyClaimValues (claims : list (string * ClaimValue)) : list (string * string) :=
  List.filter (fun kv => negb (String.eqb (fst kv) "__proto__"))
    (map (fun kv => (fst kv, claim_text (snd kv))) claims).

Definition with_response (ev : TokenEvent) (r : TokenResponse) : TokenEvent :=
  {| userName := userName ev; event_clientId := event_clientId ev; triggerSource := triggerSource ev;
     event_userAttributes := event_userAttributes ev; has_scopes := has_scopes ev;
     clientMetadata := clientMetadata ev; response := r |}.

Definition group_details (output : ClaimResolverOutput) : option GroupOverrideDetails :=
  match groupsToOverride output, iamRolesToOverride output, preferredRole output with
  | None, None, None => None
  | g, r, p => Some {| g_groupsToOverride := g; g_iamRolesToOverride := r; g_preferredRole := p |}
  end.

Definition token_generation (output : ClaimResolverOutput) : IdTokenGeneration :=
  {| t_claimsToAddOrOverride := stringifyClaimValues <$> claimsToAddOrOverride output;
     t_claimsToSuppress := claimsToSuppress output |}.

Definition applyV1Response (ev : TokenEvent) (output : ClaimResolverOutput) : TokenEvent :=
  with_response ev (V1Response (token_generation output) (group_details output)).

Definition applyV2Response (ev : TokenEvent) (output : ClaimResolverOutput) : TokenEvent :=
  let idTokenGeneration :=
    match claimsToAddOrOverride output, claimsToSuppress output with
    | None, None => None
    | _, _ => Some (token_generation output)
    end in
  let accessTokenGeneration :=
    match claimsToAddOrOverride output, claimsToSuppress output, scopesToAdd output, scopesToSuppress output with
    | None, None, None, None => None
    | _, _, _, _ => Some {| a_token := token_generation output; a_scopesToAdd := scopesToAdd output;
                            a_scopesToSuppress := scopesToSuppress output |}
    end in
  with_response ev (V2Response idTokenGeneration accessTokenGeneration (group_details output)).

(** Errors: the callback's own, or a reserved claim. *)
Inductive handler_error := CallbackError (message : string) | ReservedClaimError (claimName : string).

Definition first_reserved (claims : list (string * ClaimValue)) : option string :=
  List.find isReservedClaim (map fst claims).

Definition resolver_input (ev : TokenEvent) : ClaimResolverInput :=
  {| in_userSub := userName ev; in_userAttributes := event_userAttributes ev; in_clientId := event_clientId ev;
     in_triggerSource := triggerSource ev;
     in_identity := parseIdentityFromUserAttributes (event_userAttributes ev);
     in_federatedGroups := parseFederatedGroups (event_userAttributes ev);
     in_isRefresh := String.eqb (triggerSource ev) "TokenGeneration_RefreshTokens";
     in_untrustedClientMetadata := default [] (clientMetadata ev) |}.

Section templates.
(** The hook gets the error and the event; [None] when there is none. It may
    throw. *)
Context (onError : option (handler_error -> result string unit)).

(** [try { onError(err, event) } catch {}; throw err]: the calls, and the
    error. *)
Definition rethrow {A} (err : handler_error) : list handler_error * result handler_error A :=
  match onError with
  | None => ([], Throw err)
  | Some hook => match hook err with Ok _ => ([err], Throw err) | Throw _ => ([err], Throw err) end
  end.

Definition createPreTokenGenerationHandler (resolveClaims : ClaimResolverInput -> result string ClaimResolverOutput)
    (ev : TokenEvent) : list handler_error * result handler_error TokenEvent :=
  let version := detectPreTokenEventVersion ev in
  match resolveClaims (resolver_input ev) with
  | Throw m => rethrow (CallbackError m)
  | Ok output =>
      match first_reserved (default [] (claimsToAddOrOverride output)) with
      | Some claimName => rethrow (ReservedClaimError claimName)
      | None => ([], Ok (match version with v2 => applyV2Response ev output | v1 => applyV1Response ev output end))
      end
  end.

(** ** post-confirmation.ts *)

Record ProvisionerInput := {
  p_userSub : string;
  p_userAttributes : list (string * string);
  p_clientId : string;
  p_triggerSource : string;
  p_identity : Identity;
  p_untrustedClientMetadata : list (string * string)
}.

Definition createPostConfirmationHandler (provision : ProvisionerInput -> result string unit) (ev : TokenEvent) :
    list handler_error * result handler_error TokenEvent :=
  match provision {| p_userSub := userName ev; p_userAttributes := event_userAttributes ev;
                     p_clientId := event_clientId ev; p_triggerSource := triggerSource ev;
                     p_identity := parseIdentityFromUserAttributes (event_userAttributes ev);
                     p_untrustedClientMetadata := default [] (clientMetadata ev) |} with
  | Throw m => rethrow (CallbackError m)
  | Ok _ => ([], Ok ev)
  end.
End templates.

(** ** What Cognito reads off the response *)

(** The claims set and suppressed on the ID token, on the access token, and
    the group overrides. *)
Definition no_claims : IdTokenGeneration := {| t_claimsToAddOrOverride := None; t_claimsToSuppress := None |}.

Definition id_token_claims (r : TokenResponse) : IdTokenGeneration :=
  match r with
  | Arrived _ => no_claims
  | V1Response claims _ => claims
  | V2Response idToken _ _ => default no_claims idToken
  end.

Definition access_token_claims (r : TokenResponse) : option IdTokenGeneration :=
  match r with
  | V2Response _ accessToken _ => Some (default no_claims (a_token <$> accessToken))
  | _ => None
  end.

Definition group_overrides (r : TokenResponse) : option GroupOverrideDetails :=
  match r with
  | Arrived _ => None
  | V1Response _ g | V2Response _ _ g => g
  end.

(** The scopes added to the access token, and those suppressed. *)
Definition access_scopes (r : TokenResponse) : option (list string) * option (list string) :=
  match r with
  | V2Response _ (Some a) _ => (a_scopesToAdd a, a_scopesToSuppress a)
  | _ => (None, None)
  end.

(** The names of the claims a token is given. *)
Definition claim_names (t : IdTokenGeneration) : list string := map fst (default [] (t_claimsToAddOrOverride t)).

(** ** What a token is to be given *)

(** The text of a claim: of a list, JSON that reads back as the list. *)
Definition claim_as_text (v : ClaimValue) (text : string) : Prop :=
  match v with
  | ClaimString s | ClaimNumber s => text = s
  | ClaimBool b => text = (if b then "true" else "false")
  | ClaimList l => JSON_parse text = Some (VArray (map VString l))
  end.

(** The resolver's claims, each under its name and as text, but for one called
    [__proto__]; and its suppressions. *)
Definition gives (output : ClaimResolverOutput) (t : IdTokenGeneration) : Prop :=
  (t_claimsToAddOrOverride t = None <-> claimsToAddOrOverride output = None) /\
  Forall2 (fun c g => fst g = fst c /\ claim_as_text (snd c) (snd g))
    (List.filter (fun c => negb (String.eqb (fst c) "__proto__")) (default [] (claimsToAddOrOverride output)))
    (default [] (t_claimsToAddOrOverride t)) /\
  t_claimsToSuppress t = claimsToSuppress output.

(** ** Lemmas *)

Lemma claim_text_spec v : claim_as_text v (claim_text v).
Proof.
  destruct v as [| |[]|l]; try done. cbn [claim_as_text claim_text]. apply JSON_parse_stringify. cbn [json_wf].
  induction l as [|x l IH]; [done|]. cbn. by constructor.
Qed.

Lemma token_generation_gives output : gives output (token_generation output).
Proof.
  unfold gives, token_generation. cbn. destruct (claimsToAddOrOverride output) as [claims|]; cbn; [|done].
  split; [done|]. split; [|done]. unfold stringifyClaimValues. induction claims as [|[n v] claims IH]; [by constructor|]. cbn.
  destruct (String.eqb n "__proto__"); [done|]. constructor; [|done]. split; [done|apply claim_text_spec].
Qed.

Lemma v2_id output ev : id_token_claims (response (applyV2Response ev output)) = token_generation output.
Proof.
  destruct output as [[c|] [s|] g r p a d]; cbn; reflexivity.
Qed.

Lemma v2_access output ev : access_token_claims (response (applyV2Response ev output)) = Some (token_generation output).
Proof.
  destruct output as [[c|] [s|] g r p [a|] [d|]]; cbn; reflexivity.
Qed.

Lemma rethrow_calls {A} onError err :
  rethrow (A := A) onError err = (match onError with None => [] | Some _ => [err] end, Throw err).
Proof. destruct onError as [hook|]; [|done]. cbn. by destruct (hook err). Qed.

(** A group name [parseFederatedGroups] can give. *)
Definition group_name (g : string) : Prop :=
  g <> "" /\ trim g = g /\ str_all (fun c => negb (is_group_separator c)) g = true.

Lemma groups_of_join l : Forall group_name l -> l <> [] ->
  split_runs is_group_separator (join "," l) = l.
Proof.
  induction l as [|x l IH]; [done|]. intros Hl _. inversion_clear Hl as [|? ? (Hx & _ & Hsep) Hr].
  destruct l as [|y l]; [by apply split_runs_none|]. inversion_clear Hr as [|? ? (Hy & Hty & Hys) Hl].
  rewrite join_cons. assert (exists d r, join "," (y :: l) = String.String d r /\ is_group_separator d = false)
    as (d & r & Hj & Hd).
  { destruct y as [|d y]; [done|]. cbn [str_all] in Hys. apply andb_true_iff in Hys as [Hd _].
    apply negb_true_iff in Hd. destruct l; [by exists d, y|]. rewrite join_cons. by eexists d, _. }
  change ("," +:+ join "," (y :: l)) with (String.String ","%char (join "," (y :: l))). rewrite Hj.
  rewrite split_runs_cons, <- Hj by done. f_equal. apply IH; [|done]. by constructor.
Qed.

(** ** Properties *)

(** C17 (No token carries a claim Cognito reserves, and a failure is never
    hidden): when the handler answers, the consumer's resolver returned claims
    none of which is reserved; the ID token, and on a V2 event the access token
    too, is given exactly those claims as text, but for one called [__proto__],
    and the same suppressions; the group overrides and, on a V2 event, the
    scopes are the resolver's; the rest of the event is untouched. When it
    throws, the error is the resolver's own or names a reserved claim the
    resolver gave, and the hook, when there is one, has been called once with
    that error, whatever the hook itself does. *)
Theorem pre_token_spec onError resolveClaims ev :
  match createPreTokenGenerationHandler onError resolveClaims ev with
  | (calls, Ok ev') =>
      calls = [] /\
      exists output, resolveClaims (resolver_input ev) = Ok output /\
        (forall n, In n (map fst (default [] (claimsToAddOrOverride output))) -> ~ In n RESERVED_CLAIMS) /\
        gives output (id_token_claims (response ev')) /\
        match detectPreTokenEventVersion ev with
        | v1 => access_token_claims (response ev') = None
        | v2 => (exists t, access_token_claims (response ev') = Some t /\ gives output t) /\
                access_scopes (response ev') = (scopesToAdd output, scopesToSuppress output)
        end /\
        group_overrides (response ev') ≫= g_groupsToOverride = groupsToOverride output /\
        group_overrides (response ev') ≫= g_iamRolesToOverride = iamRolesToOverride output /\
        group_overrides (response ev') ≫= g_preferredRole = preferredRole output /\
        with_response ev' (response ev) = ev
  | (calls, Throw err) =>
      calls = match onError with None => [] | Some _ => [err] end /\
      match err with
      | CallbackError m => resolveClaims (resolver_input ev) = Throw m
      | ReservedClaimError n =>
          exists output, resolveClaims (resolver_input ev) = Ok output /\
            In n (map fst (default [] (claimsToAddOrOverride output))) /\ In n RESERVED_CLAIMS
      end
  end.
Proof.
  assert (forall n, isReservedClaim n = true <-> In n RESERVED_CLAIMS) as Hres.
  { intros n. unfold isReservedClaim. rewrite existsb_exists. setoid_rewrite String.eqb_eq.
    split; [by intros (x & Hx & ->)|by exists n]. }
  unfold createPreTokenGenerationHandler. destruct (resolveClaims (resolver_input ev)) as [output|m].
  2: by rewrite rethrow_calls.
  destruct (first_reserved _) as [n|] eqn:Hf.
  { rewrite rethrow_calls. split; [done|]. exists output. split; [done|]. apply List.find_some in Hf. by rewrite <- Hres. }
  pose proof (List.find_none _ _ Hf) as Hno. split; [done|]. exists output. split; [done|].
  split; [intros n Hn Hin; apply Hres in Hin; by rewrite (Hno n Hn) in Hin|].
  pose proof (token_generation_gives output) as Hgives.
  assert (group_details output ≫= g_groupsToOverride = groupsToOverride output /\
    group_details output ≫= g_iamRolesToOverride = iamRolesToOverride output /\
    group_details output ≫= g_preferredRole = preferredRole output) as Hgroups by (by destruct output as [c s [] [] [] a d]).
  destruct (detectPreTokenEventVersion ev).
  - split; [done|]. split; [done|]. destruct Hgroups as (? & ? & ?). do 3 (split; [done|]). by destruct ev.
  - rewrite v2_id, v2_access. split; [done|]. split; [split; [by exists (token_generation output)|by destruct output as [[] [] g r p [] []]]|].
    destruct Hgroups as (? & ? & ?). do 3 (split; [done|]). by destruct ev.
Qed.

(** Also (The two event versions agree): a V1 and a V2 event whose resolver
    output is the same give the same ID-token claims, suppressions and group
    overrides, and on a V2 event the access token's claims are the ID
    token's: a consumer need not know the event version. *)
Theorem versions_agree output ev1 ev2 :
  id_token_claims (response (applyV1Response ev1 output)) = id_token_claims (response (applyV2Response ev2 output)) /\
  group_overrides (response (applyV1Response ev1 output)) = group_overrides (response (applyV2Response ev2 output)) /\
  access_token_claims (response (applyV2Response ev2 output)) =
    Some (id_token_claims (response (applyV2Response ev2 output))) /\
  detectPreTokenEventVersion (applyV2Response ev2 output) = v2.
Proof. by rewrite v2_access, v2_id. Qed.

(** Also (The federated groups): whatever the identity provider sends, every
    group the resolver sees is non-empty, trimmed and free of separators; and
    a list of such groups joined by commas is read back as it was. *)
Theorem federated_groups_roundtrip attrs :
  Forall group_name (parseFederatedGroups attrs) /\
  forall l, attribute attrs "custom:idpGroups" = Some (join "," l) -> Forall group_name l ->
    parseFederatedGroups attrs = l.
Proof.
  unfold parseFederatedGroups. split.
  - destruct (attribute attrs _) as [raw|]; [|done]. destruct (String.eqb raw ""); [done|].
    apply List.Forall_forall. intros g Hg. apply filter_In in Hg as [Hg Hne].
    apply in_map_iff in Hg as (x & <- & Hx).
    pose proof (split_runs_parts is_group_separator raw) as Hp. rewrite List.Forall_forall in Hp.
    split; [by destruct (trim x)|]. split; [apply trim_idem|]. by apply str_all_trim, Hp.
  - intros l -> Hl. destruct l as [|x l]; [done|].
    assert (join "," (x :: l) <> "") as Hne.
    { inversion_clear Hl as [|? ? (Hx & _) _]. destruct x; [done|]. by destruct l. }
    apply String.eqb_neq in Hne. rewrite Hne, groups_of_join by done.
    clear Hne. induction Hl as [|y r (Hy & Ht & _) _ IH]; [done|]. cbn [map]. rewrite Ht.
    unfold filter_non_empty in *. cbn [List.filter]. rewrite IH. by destruct y.
Qed.

Lemma federated_groups_roundtrip_witness :
  parseFederatedGroups [("email", "a@b.c"); ("custom:idpGroups", "admins,on call,staff")] = ["admins"; "on call"; "staff"].
Proof.
  apply (proj2 (federated_groups_roundtrip [("email", "a@b.c"); ("custom:idpGroups", "admins,on call,staff")]));
    [reflexivity|]. repeat constructor; discriminate.
Defined.

(** Also (A federated identity is read back): an [identities] attribute that is
    the JSON text of a list whose first object names a provider gives the
    federated identity of that provider, SAML when it says so and OIDC
    otherwise. *)
Theorem identity_roundtrip attrs first rest providerName :
  json_wf (VArray (VObject first :: rest)) ->
  attribute attrs "identities" = Some (stringify (VArray (VObject first :: rest))) ->
  find_key "providerName" first = Some (VString providerName) -> providerName <> "" ->
  parseIdentityFromUserAttributes attrs =
    federated providerName
      match find_key "providerType" first with Some (VString "SAML") => SAML | _ => OIDC end.
Proof.
  intros Hwf Ha Hn Hne. unfold parseIdentityFromUserAttributes. rewrite Ha.
  rewrite (JSON_parse_stringify _ Hwf), Hn. apply String.eqb_neq in Hne. rewrite Hne.
  assert (String.eqb (stringify (VArray (VObject first :: rest))) "" = false) as -> by done.
  destruct (find_key "providerType" first) as [[| | |t| |]|]; try done.
  destruct (String.eqb_spec t "SAML") as [->|Ht]; [done|].
  destruct t as [|[[] [] [] [] [] [] [] []] t]; try done.
  destruct t as [|[[] [] [] [] [] [] [] []] t]; try done.
  destruct t as [|[[] [] [] [] [] [] [] []] t]; try done.
  destruct t as [|[[] [] [] [] [] [] [] []] t]; try done.
  by destruct t.
Qed.

Lemma identity_roundtrip_witness :
  let o := [("userId", VString "u-1"); ("providerName", VString "tenant-acme"); ("providerType", VString "SAML")] in
  parseIdentityFromUserAttributes [("identities", stringify (VArray [VObject o]))] = federated "tenant-acme" SAML.
Proof.
  intros o. apply (identity_roundtrip _ o [] "tenant-acme"); [|reflexivity|reflexivity|discriminate].
  cbn [json_wf map]. constructor; [|constructor]. split; [|by repeat constructor].
  apply (bool_decide_unpack (NoDup (map fst o))). reflexivity.
Defined.

(** Also (A confirmation is all or nothing): the post-confirmation handler
    answers with the event as it came exactly when the provisioner succeeded,
    and otherwise rethrows the provisioner's error, so that Cognito undoes the
    confirmation, after one call of the hook. *)
Theorem post_confirmation_spec onError provision ev :
  exists input,
    p_userSub input = userName ev /\ p_userAttributes input = event_userAttributes ev /\
    p_identity input = parseIdentityFromUserAttributes (event_userAttributes ev) /\
    createPostConfirmationHandler onError provision ev =
      match provision input with
      | Ok _ => ([], Ok ev)
      | Throw m => (match onError with None => [] | Some _ => [CallbackError m] end, Throw (CallbackError m))
      end.
Proof.
  unfold createPostConfirmationHandler. eexists (Build_ProvisionerInput _ _ _ _ _ _).
  split; [reflexivity|]. split; [reflexivity|]. split; [reflexivity|].
  destruct (provision (Build_ProvisionerInput (userName ev) (event_userAttributes ev) (event_clientId ev)
    (triggerSource ev) (parseIdentityFromUserAttributes (event_userAttributes ev)) (default [] (clientMetadata ev))))
    as [u|m] eqn:E; rewrite E; [done|]. by rewrite rethrow_calls.
Qed.
