(* ===== verification/TenantAdmin.v ===== *)
(** The tenant administration Lambda of the shared distribution:
    [packages/vestibulum/src/lambda/shared-distribution/admin/actions/*.ts],
    [admin/index.ts] and [admin/reconciler.ts].

    The DynamoDB tables and the Cognito user pool are one [World]; every SDK
    call is a command on it. An action is a program of commands and clock
    readings, run alone, with a delivery outcome for each command, or
    interleaved with others. Strings of a JSON round trip ([response]) are
    stored as the value; a row is written whole, so its attributes are
    present; audit lines and metrics are the [Emit] events. *)

From S2P Require Import Prelude JsString JsDate Prog Tenant.
From stdpp Require Import infinite.

#[local] Open Scope string_scope.
#[local] Open Scope Z_scope.

(** ** Requests and responses (schemas.ts) *)

Record CreateTenantRequest := {
  subdomain : string;
  tenantId : string;
  allowedEmailDomains : list string;
  idempotencyKey : string
}.

Record CreateTenantResponse := {
  res_tenantId : string;
  res_subdomain : string;
  res_siteBaseUrl : string;
  res_clientId : string;
  res_createdAt : string
}.

Record UpdateTenantRequest := { upd_tenantId : string; upd_allowedEmailDomains : list string }.

Record DeleteTenantRequest := { del_tenantId : string; revokeActiveSessions : bool }.

(** ** Stored data *)

(** A row of the ClientConfig table, under its client id. *)
Record ConfigRow := {
  row_subdomain : string;
  row_tenantId : string;
  row_siteBaseUrl : string;
  row_domains : list string;
  row_createdAt : string;
  row_updatedAt : option string
}.

Record AppClient := { ClientName : string; CallbackURLs : list string; LogoutURLs : list string }.

Record IdemItem := { response : option CreateTenantResponse; idem_expires_at : option Z }.

Inductive event :=
| CompensationTriggered (subdomain : string)
| TenantCreated (tenantId subdomain clientId : string)
| TenantUpdated (tenantId subdomain : string) (before after : list string)
| TenantDeleted (tenantId subdomain : string) (revoked : bool)
| Metric (name : string) (value : nat)
| OrphanedAppClients (clientIds : list string)
| OrphanedConfigRows (rows : list (string * (string * string))).


Record World := {
  idempotency : gmap string IdemItem;
  reservations : gmap string Z;
  pool : gmap string AppClient;
  config : gmap string ConfigRow;
  users : list string;
  signedOut : list string;
  log : list event
}.

Definition set_idempotency (w : World) m :=
  {| idempotency := m; reservations := reservations w; pool := pool w; config := config w;
     users := users w; signedOut := signedOut w; log := log w |}.
Definition set_reservations (w : World) m :=
  {| idempotency := idempotency w; reservations := m; pool := pool w; config := config w;
     users := users w; signedOut := signedOut w; log := log w |}.
Definition set_pool (w : World) m :=
  {| idempotency := idempotency w; reservations := reservations w; pool := m; config := config w;
     users := users w; signedOut := signedOut w; log := log w |}.
Definition set_config (w : World) m :=
  {| idempotency := idempotency w; reservations := reservations w; pool := pool w; config := m;
     users := users w; signedOut := signedOut w; log := log w |}.
Definition sign_out (w : World) u :=
  {| idempotency := idempotency w; reservations := reservations w; pool := pool w; config := config w;
     users := users w; signedOut := u :: signedOut w; log := log w |}.
Definition emit_event (w : World) e :=
  {| idempotency := idempotency w; reservations := reservations w; pool := pool w; config := config w;
     users := users w; signedOut := signedOut w; log := (log w ++ [e])%list |}.

(** ** Commands *)

Inductive cmd_error :=
| TransactionCanceledException
| ConditionalCheckFailedException
| ResourceNotFoundException
| Unavailable.

Inductive cmd : Type -> Type :=
| GetIdem (key : string) : cmd (option IdemItem)
| PutIdem (key : string) (it : IdemItem) : cmd unit
| Reserve (key1 key2 : string) (now ttl : Z) : cmd unit
| DeleteReservation (key : string) : cmd unit
| CreateUserPoolClient (c : AppClient) : cmd (option string)
| DeleteUserPoolClient (clientId : string) : cmd unit
| PutConfig (clientId : string) (row : ConfigRow) : cmd unit
| UpdateConfig (clientId : string) (domains : list string) (updatedAt : string) : cmd unit
| DeleteConfig (clientId : string) : cmd unit
| QueryTenant (tenantId : string) : cmd (option (string * ConfigRow))
| ListUsers (page : nat) : cmd (list string * option nat)
| GlobalSignOut (username : string) : cmd unit
| ListClients (token : option string) : cmd (list string * option string)
| Scan (start : option string) (limit : option nat) : cmd (list (string * ConfigRow) * option string).

(** What the services choose: Cognito picks the id of a new app client, fresh
    and not empty; both cut listings into pages of at most [page_size]. *)
Class Cognito := {
  newClientId : gmap string AppClient -> AppClient -> string;
  newClientId_fresh m c : m !! newClientId m c = None;
  newClientId_nonempty m c : newClientId m c <> "";
  page_size : nat;
  page_size_pos : (0 < page_size)%nat
}.

#[export] Program Instance fresh_ids : Cognito :=
  {| newClientId m _ := fresh (dom m ∪ {[ "" ]}); page_size := 60%nat |}.
Next Obligation.
  intros m c. pose proof (is_fresh (dom m ∪ {[ "" ]} : gset string)) as H.
  apply not_elem_of_dom. set_solver.
Qed.
Next Obligation.
  intros m c E. pose proof (is_fresh (dom m ∪ {[ "" ]} : gset string)) as H.
  apply H. rewrite E. set_solver.
Qed.

Next Obligation. lia. Qed.

Definition PAGE_SIZE : nat := 60.

(** One page of a listing in the service's order: what follows [start], and
    the key to continue from when the page is full. *)
Fixpoint after {A} (key : A -> string) (start : string) (l : list A) : list A :=
  match l with
  | [] => []
  | x :: r => if String.eqb (key x) start then r else after key start r
  end.

Definition page {A} (key : A -> string) (l : list A) (start : option string) (n : nat) :
    list A * option string :=
  let rest := match start with None => l | Some s => after key s l end in
  let p := take n rest in
  (p, if (n <=? length rest)%nat then key <$> last p else None).

(** [attribute_not_exists(key) OR expires_at < :now]. *)
Definition reservable (w : World) (key : string) (now : Z) : bool :=
  match reservations w !! key with None => true | Some exp => exp <? now end.

(** The documented effect of each call on the service. *)
Definition effect `{Cognito} {X} (w : World) (c : cmd X) : World * result cmd_error X :=
  match c in cmd X return World * result cmd_error X with
  | GetIdem k => (w, Ok (idempotency w !! k))
  | PutIdem k it => (set_idempotency w (<[k := it]> (idempotency w)), Ok tt)
  | Reserve k1 k2 now ttl =>
      if reservable w k1 now && reservable w k2 now
      then (set_reservations w (<[k2 := ttl]> (<[k1 := ttl]> (reservations w))), Ok tt)
      else (w, Throw TransactionCanceledException)
  | DeleteReservation k => (set_reservations w (delete k (reservations w)), Ok tt)
  | CreateUserPoolClient cl =>
      let i := newClientId (pool w) cl in (set_pool w (<[i := cl]> (pool w)), Ok (Some i))
  | DeleteUserPoolClient i =>
      match pool w !! i with
      | Some _ => (set_pool w (delete i (pool w)), Ok tt)
      | None => (w, Throw ResourceNotFoundException)
      end
  | PutConfig i row =>
      match config w !! i with
      | None => (set_config w (<[i := row]> (config w)), Ok tt)
      | Some _ => (w, Throw ConditionalCheckFailedException)
      end
  | UpdateConfig i ds at_ =>
      match config w !! i with
      | Some row =>
          (set_config w (<[i := {| row_subdomain := row_subdomain row; row_tenantId := row_tenantId row;
                                   row_siteBaseUrl := row_siteBaseUrl row; row_domains := ds;
                                   row_createdAt := row_createdAt row; row_updatedAt := Some at_ |}]> (config w)), Ok tt)
      | None => (w, Throw ConditionalCheckFailedException)
      end
  | DeleteConfig i => (set_config w (delete i (config w)), Ok tt)
  | QueryTenant tid =>
      (w, Ok (head (filter (fun kv => row_tenantId kv.2 = tid) (map_to_list (config w)))))
  | ListUsers page =>
      let rest := drop (page * PAGE_SIZE) (users w) in
      (w, Ok (take PAGE_SIZE rest,
              if (PAGE_SIZE <? length rest)%nat then Some (S page) else None))
  | GlobalSignOut u => (sign_out w u, Ok tt)
  | ListClients token =>
      (w, Ok (page (fun k => k) (map fst (map_to_list (pool w))) token (Nat.min PAGE_SIZE page_size)))
  | Scan start limit =>
      (w, Ok (page fst (map_to_list (config w)) start
                (match limit with Some n => Nat.min n page_size | None => page_size end)))
  end.

(** ** Programs *)

Inductive admin_error :=
| ConflictError (subdomain tenantId : string)
| IdempotencyConflictError
| TenantNotFoundError (tenantId : string)
| EmptyClientId
| InvalidDate
| InvalidRow (e : shape_failure)
| StillListing
| ServiceError (e : cmd_error).

#[export] Instance admin_service `{Cognito} : Service World cmd cmd_error event :=
  {| perform X w c := effect w c; lost := Unavailable; record_event := emit_event |}.

Notation prog := (Prog.prog cmd cmd_error admin_error event).

(** [await send(c)], an error of it being rethrown. *)
Definition call {A X} (c : cmd X) (k : X -> prog A) : prog A :=
  Send c (fun r => match r with Ok x => k x | Throw e => Raise (ServiceError e) end).

Definition iso_now {A} (k : string -> prog A) : prog A :=
  Now (fun ms => match toISOString ms with Some t => k t | None => Raise InvalidDate end).

(** ** createTenant *)

Definition RESERVATION_SECONDS : Z := 60.
Definition IDEMPOTENCY_SECONDS : Z := 86400.

Definition subdomain_key (req : CreateTenantRequest) : string := "subdomain#" +:+ subdomain req.
Definition tenant_key (req : CreateTenantRequest) : string := "tenantId#" +:+ tenantId req.
Definition compositeIdempotencyKey (req : CreateTenantRequest) : string :=
  idempotencyKey req +:+ "#" +:+ subdomain req.
Definition siteBaseUrl (tenantParent : string) (req : CreateTenantRequest) : string :=
  "https://" +:+ subdomain req +:+ "." +:+ tenantParent.

(** DynamoDB has no empty string set. *)
Definition EMPTY_SENTINEL : string := "__EMPTY__".
Definition encode_domains (ds : list string) : list string :=
  match ds with [] => [EMPTY_SENTINEL] | _ => ds end.
Definition decode_domains (ss : list string) : list string :=
  match ss with
  | [d] => if String.eqb d EMPTY_SENTINEL then [] else ss
  | _ => ss
  end.

Definition app_client (tenantParent : string) (req : CreateTenantRequest) : AppClient :=
  {| ClientName := "tenant-" +:+ subdomain req;
     CallbackURLs := [siteBaseUrl tenantParent req +:+ "/login/callback"];
     LogoutURLs := [siteBaseUrl tenantParent req +:+ "/logout"] |}.

Definition config_row (tenantParent : string) (req : CreateTenantRequest) (createdAt : string) : ConfigRow :=
  {| row_subdomain := subdomain req; row_tenantId := tenantId req;
     row_siteBaseUrl := siteBaseUrl tenantParent req;
     row_domains := encode_domains (allowedEmailDomains req);
     row_createdAt := createdAt; row_updatedAt := None |}.

Definition make_response (tenantParent : string) (req : CreateTenantRequest) (clientId createdAt : string) :
    CreateTenantResponse :=
  {| res_tenantId := tenantId req; res_subdomain := subdomain req;
     res_siteBaseUrl := siteBaseUrl tenantParent req; res_clientId := clientId;
     res_createdAt := createdAt |}.

(** Both deletes are sent, and failures of either are swallowed by every
    caller. *)
Definition releaseReservations {A} (req : CreateTenantRequest) (k : prog A) : prog A :=
  Send (DeleteReservation (subdomain_key req)) (fun _ =>
  Send (DeleteReservation (tenant_key req)) (fun _ => k)).

Definition finish_create (tenantParent : string) (req : CreateTenantRequest) (clientId createdAt : string) :
    prog CreateTenantResponse :=
  let res := make_response tenantParent req clientId createdAt in
  Now (fun ms =>
  Send (PutIdem (compositeIdempotencyKey req)
          {| response := Some res; idem_expires_at := Some (ms / 1000 + IDEMPOTENCY_SECONDS) |}) (fun _ =>
  releaseReservations req
    (Emit (TenantCreated (tenantId req) (subdomain req) clientId) (Ret res)))).

Definition write_row (tenantParent : string) (req : CreateTenantRequest) (clientId : string) :
    prog CreateTenantResponse :=
  iso_now (fun createdAt =>
  Send (PutConfig clientId (config_row tenantParent req createdAt)) (fun r =>
    match r with
    | Ok _ => finish_create tenantParent req clientId createdAt
    | Throw e =>
        Emit (CompensationTriggered (subdomain req))
          (Send (DeleteUserPoolClient clientId) (fun _ =>
             releaseReservations req (Raise (ServiceError e))))
    end)).

Definition create_client (tenantParent : string) (req : CreateTenantRequest) : prog CreateTenantResponse :=
  Send (CreateUserPoolClient (app_client tenantParent req)) (fun r =>
    match r with
    | Ok id =>
        let clientId := match id with Some i => i | None => "" end in
        if String.eqb clientId "" then releaseReservations req (Raise EmptyClientId)
        else write_row tenantParent req clientId
    | Throw e => releaseReservations req (Raise (ServiceError e))
    end).

Definition reserve_names (tenantParent : string) (req : CreateTenantRequest) : prog CreateTenantResponse :=
  Now (fun ms =>
  let now := ms / 1000 in
  Send (Reserve (subdomain_key req) (tenant_key req) now (now + RESERVATION_SECONDS)) (fun r =>
    match r with
    | Ok _ => create_client tenantParent req
    | Throw TransactionCanceledException => Raise (ConflictError (subdomain req) (tenantId req))
    | Throw e => Raise (ServiceError e)
    end)).

Definition idem_live (ms : Z) (it : IdemItem) : bool :=
  match idem_expires_at it with Some e => ms / 1000 <? e | None => false end.

Definition replay (req : CreateTenantRequest) (it : IdemItem) : prog CreateTenantResponse :=
  match response it with
  | Some stored =>
      if negb (String.eqb (res_subdomain stored) (subdomain req)) || negb (String.eqb (res_tenantId stored) (tenantId req))
      then Raise IdempotencyConflictError else Ret stored
  | None => Raise IdempotencyConflictError
  end.

Definition createTenant (tenantParent : string) (req : CreateTenantRequest) : prog CreateTenantResponse :=
  call (GetIdem (compositeIdempotencyKey req)) (fun existing =>
    match existing with
    | None => reserve_names tenantParent req
    | Some it => Now (fun ms => if idem_live ms it then replay req it else reserve_names tenantParent req)
    end).

(** ** updateTenant *)

Definition updateTenant (req : UpdateTenantRequest) : prog (string * string) :=
  call (QueryTenant (upd_tenantId req)) (fun found =>
    match found with
    | None => Raise (TenantNotFoundError (upd_tenantId req))
    | Some (clientId, row) =>
        iso_now (fun updatedAt =>
        call (UpdateConfig clientId (encode_domains (upd_allowedEmailDomains req)) updatedAt) (fun _ =>
        Emit (TenantUpdated (upd_tenantId req) (row_subdomain row) (row_domains row) (upd_allowedEmailDomains req))
          (Ret (upd_tenantId req, updatedAt))))
    end).

(** ** deleteTenant *)

(** The calls of one page run in parallel and each swallows its failure. *)
Fixpoint sign_out_all {A} (names : list string) (k : prog A) : prog A :=
  match names with
  | [] => k
  | u :: rest => if String.eqb u "" then sign_out_all rest k
                 else Send (GlobalSignOut u) (fun _ => sign_out_all rest k)
  end.

(** [fuel] bounds the pages of the [do] loop. *)
Fixpoint revokeAllSessions {A} (fuel pageNo : nat) (k : prog A) : prog A :=
  match fuel with
  | O => Raise StillListing
  | S fuel' =>
      call (ListUsers pageNo) (fun p =>
      sign_out_all (fst p)
        (match snd p with Some next => revokeAllSessions fuel' next k | None => k end))
  end.

Definition deleteTenant (fuel : nat) (req : DeleteTenantRequest) : prog unit :=
  call (QueryTenant (del_tenantId req)) (fun found =>
    match found with
    | None => Raise (TenantNotFoundError (del_tenantId req))
    | Some (clientId, row) =>
        let rest :=
          call (DeleteUserPoolClient clientId) (fun _ =>
          call (DeleteConfig clientId) (fun _ =>
          Emit (TenantDeleted (del_tenantId req) (row_subdomain row) (revokeActiveSessions req)) (Ret tt))) in
        if revokeActiveSessions req then revokeAllSessions fuel 0 rest else rest
    end).

(** ** getTenant and listTenants *)

Record ClientConfigRow := {
  clientId : string;
  cfg_subdomain : string;
  cfg_tenantId : string;
  cfg_siteBaseUrl : string;
  cfg_allowedEmailDomains : list string;
  cfg_createdAt : string;
  cfg_updatedAt : option string
}.

Definition shape_error {A} (r : result shape_failure A) : result admin_error A :=
  match r with Ok a => Ok a | Throw e => Throw (InvalidRow e) end.

Definition to_row (kv : string * ConfigRow) : result admin_error ClientConfigRow :=
  (let* sub := shape_error (tenantSubdomain (row_subdomain kv.2)) in
   let* tid := shape_error (Tenant.tenantId (row_tenantId kv.2)) in
   Ok {| clientId := kv.1; cfg_subdomain := sub; cfg_tenantId := tid;
         cfg_siteBaseUrl := row_siteBaseUrl kv.2;
         cfg_allowedEmailDomains := decode_domains (row_domains kv.2);
         cfg_createdAt := row_createdAt kv.2; cfg_updatedAt := row_updatedAt kv.2 |})%js.

Definition of_result {A} (r : result admin_error A) : prog A :=
  match r with Ok a => Ret a | Throw e => Raise e end.

Definition getTenant (tid : string) : prog ClientConfigRow :=
  call (QueryTenant tid) (fun found =>
    match found with
    | None => Raise (TenantNotFoundError tid)
    | Some kv => of_result (to_row kv)
    end).

Fixpoint to_rows (l : list (string * ConfigRow)) : result admin_error (list ClientConfigRow) :=
  match l with
  | [] => Ok []
  | kv :: rest => (let* r := to_row kv in let* rs := to_rows rest in Ok (r :: rs))%js
  end.

Definition DEFAULT_LIMIT : nat := 20.

(** A cursor is the base64 of the JSON of the last key: [decode] and [encode]
    are that codec; an undecodable cursor starts from the beginning. *)
Definition listTenants (encode : string -> string) (decode : string -> option string)
    (cursor : option string) (limit : option nat) : prog (list ClientConfigRow * option string) :=
  let limit := match limit with Some n => n | None => DEFAULT_LIMIT end in
  let start := match cursor with
               | Some c => if String.eqb c "" then None else decode c
               | None => None
               end in
  call (Scan start (Some limit)) (fun p =>
  match to_rows (fst p) with
  | Ok rows => Ret (rows, encode <$> snd p)
  | Throw e => Raise e
  end).

(** ** The reconciler *)

(** [Set.add], in insertion order. *)
Definition set_add (s : list string) (x : string) : list string :=
  if existsb (String.eqb x) s then s else (s ++ [x])%list.

Definition add_ids (s ids : list string) : list string :=
  fold_left (fun s x => if String.eqb x "" then s else set_add s x) ids s.

Fixpoint list_clients {A} (fuel : nat) (token : option string) (acc : list string)
    (k : list string -> prog A) : prog A :=
  match fuel with
  | O => Raise StillListing
  | S fuel' =>
      call (ListClients token) (fun p =>
      let acc := add_ids acc (fst p) in
      match snd p with
      | Some next => if String.eqb next "" then k acc else list_clients fuel' (Some next) acc k
      | None => k acc
      end)
  end.

(** The scan collects the ids and, per id, the details that are logged. *)
Definition add_row (acc : list string * gmap string (string * string)) (kv : string * ConfigRow) :=
  if String.eqb kv.1 "" then acc
  else (set_add acc.1 kv.1, <[kv.1 := (row_subdomain kv.2, row_createdAt kv.2)]> acc.2).

Fixpoint scan_config {A} (fuel : nat) (start : option string)
    (acc : list string * gmap string (string * string))
    (k : list string * gmap string (string * string) -> prog A) : prog A :=
  match fuel with
  | O => Raise StillListing
  | S fuel' =>
      call (Scan start None) (fun p =>
      let acc := fold_left add_row (fst p) acc in
      match snd p with
      | Some next => scan_config fuel' (Some next) acc k
      | None => k acc
      end)
  end.

Definition missing (l other : list string) : list string :=
  List.filter (fun x => negb (existsb (String.eqb x) other)) l.

Definition emit_unless_nil {A B} (l : list B) (e : event) (p : prog A) : prog A :=
  match l with [] => p | _ => Emit e p end.

(** Steps 3 to 5: the differences, the metrics and the log lines. *)
Definition report_orphans (cognitoClientIds configClientIds : list string)
    (details : gmap string (string * string)) : prog (list string * list string) :=
  let orphanedAppClients := missing cognitoClientIds configClientIds in
  let orphanedConfigRows := missing configClientIds cognitoClientIds in
  Emit (Metric "OrphanedAppClients" (length orphanedAppClients))
  (Emit (Metric "OrphanedConfigRows" (length orphanedConfigRows))
  (emit_unless_nil orphanedAppClients (OrphanedAppClients orphanedAppClients)
  (emit_unless_nil orphanedConfigRows
     (OrphanedConfigRows (map (fun c => (c, default ("", "") (details !! c))) orphanedConfigRows))
  (Ret (orphanedAppClients, orphanedConfigRows))))).

Definition runReconciler (fuel : nat) : prog (list string * list string) :=
  list_clients fuel None [] (fun cognitoClientIds =>
  scan_config fuel None ([], ∅) (fun acc => report_orphans cognitoClientIds acc.1 acc.2)).

(** ** The Lambda handler *)

Inductive AdminRequest :=
| CreateTenant (r : CreateTenantRequest)
| UpdateTenant (r : UpdateTenantRequest)
| DeleteTenant (r : DeleteTenantRequest)
| GetTenant (tenantId : string)
| ListTenants (cursor : option string) (limit : option nat).

Inductive body :=
| INVALID_JSON
| INVALID_REQUEST
| INTERNAL_ERROR
| ErrorMessage (e : admin_error)
| Created (r : CreateTenantResponse)
| Updated (tenantId updatedAt : string)
| OkTrue
| Row (r : ClientConfigRow)
| Rows (items : list ClientConfigRow) (nextCursor : option string).

Definition statusCode_of (e : admin_error) : option Z :=
  match e with
  | ConflictError _ _ | IdempotencyConflictError => Some 409
  | TenantNotFoundError _ => Some 404
  | _ => None
  end.

Definition error_response (e : admin_error) : Z * body :=
  match statusCode_of e with
  | Some s => (s, ErrorMessage e)
  | None => (500, INTERNAL_ERROR)
  end.

(** The event carries its body already decoded; [parseJson] is [JSON.parse]
    and [safeParse] the Zod schema. *)
Section handler.
Context {Json : Type} (parseJson : string -> option Json) (safeParse : Json -> option AdminRequest).
Context (tenantParent : string) (fuel : nat).
Context (encode : string -> string) (decode : string -> option string).

Definition dispatch (req : AdminRequest) : prog (Z * body) :=
  match req with
  | CreateTenant r => try_catch (createTenant tenantParent r) (fun x => (200, Created x)) error_response
  | UpdateTenant r => try_catch (updateTenant r) (fun x => (200, Updated (fst x) (snd x))) error_response
  | DeleteTenant r => try_catch (deleteTenant fuel r) (fun _ => (200, OkTrue)) error_response
  | GetTenant t => try_catch (getTenant t) (fun x => (200, Row x)) error_response
  | ListTenants c l =>
      try_catch (listTenants encode decode c l) (fun x => (200, Rows (fst x) (snd x))) error_response
  end.

Definition handler (raw : option string) : prog (Z * body) :=
  match parseJson (match raw with Some r => r | None => "{}" end) with
  | None => Ret (400, INVALID_JSON)
  | Some j =>
      match safeParse j with
      | None => Ret (400, INVALID_REQUEST)
      | Some req => dispatch req
      end
  end.
End handler.

(** ** Interleaved *)

(** Beside others: a thread is a program and the reservation keys its own
    [Reserve] obtained and it has not yet asked to delete. *)
Record thread (A : Type) := { held : list string; code_ : prog A }.
Arguments held {A}.
Arguments code_ {A}.

Definition held_after {X} (c : cmd X) (r : result cmd_error X) (h : list string) : list string :=
  match c with
  | Reserve k1 k2 _ _ => if is_ok r then k1 :: k2 :: h else h
  | DeleteReservation k => List.filter (fun x => negb (String.eqb x k)) h
  | _ => h
  end.

Definition thread_step `{Cognito} {A} (now : Z) (dv : delivery) (w : World) (t : thread A) :
    World * thread A :=
  match code_ t with
  | Ret _ | Raise _ => (w, t)
  | Now k => (w, {| held := held t; code_ := k now |})
  | Emit e p => (record_event w e, {| held := held t; code_ := p |})
  | Send c k =>
      let '(w', r) := deliver dv w c in
      (w', {| held := held_after c r (held t); code_ := k r |})
  end.

Fixpoint run_threads `{Cognito} {A} (sched : list (nat * (Z * delivery))) (w : World)
    (ts : list (thread A)) : World * list (thread A) :=
  match sched with
  | [] => (w, ts)
  | (i, (now, dv)) :: rest =>
      match ts !! i with
      | None => run_threads rest w ts
      | Some t =>
          let '(w', t') := thread_step now dv w t in
          run_threads rest w' (<[i := t']> ts)
      end
  end.

Definition start_thread {A} (p : prog A) : thread A := {| held := []; code_ := p |}.

(** ** Lemmas: createTenant, alone *)

Section create.
Context `{Cognito} (parent : string) (req : CreateTenantRequest).

(** The reservations a failed or finished creation leaves, whatever became of
    its two deletes, do not touch anything else. *)
Definition same_data (w w' : World) : Prop :=
  pool w' = pool w /\ config w' = config w /\ users w' = users w /\ signedOut w' = signedOut w.

Lemma run_release {A} (k : prog A) env n w :
  exists w', run (releaseReservations req k) env n w = run k env (S (S n)) w' /\
    same_data w w' /\ idempotency w' = idempotency w /\ log w' = log w /\
    (forall key, reservations w !! key = None -> reservations w' !! key = None) /\
    (snd (env n) = Delivered -> snd (env (S n)) = Delivered ->
     reservations w' !! subdomain_key req = None /\ reservations w' !! tenant_key req = None).
Proof.
  unfold releaseReservations. cbn [run].
  destruct (snd (env n)); cbn [deliver perform admin_service lost effect fst]; destruct (snd (env (S n))); cbn [deliver perform admin_service lost effect fst];
    eexists; (split; [reflexivity|]); cbn; (split; [done|]); (split; [done|]); (split; [done|]);
    (split; [intros key Hk; rewrite ?lookup_delete_None; auto|]); try done;
    intros _ _; rewrite !lookup_delete_None; auto.
Qed.

(** What became of the row and the client: both there, neither, or one of
    them because a delivery failed. *)
Definition created (id createdAt : string) (w w' : World) : Prop :=
  pool w !! id = None /\ id <> "" /\
  pool w' = <[id := app_client parent req]> (pool w) /\
  config w' = <[id := config_row parent req createdAt]> (config w).

Definition lossy (env : nat -> Z * delivery) : Prop := exists i, snd (env i) <> Delivered.

Definition leftover (env : nat -> Z * delivery) (w w' : World) : Prop :=
  lossy env /\ exists id, pool w !! id = None /\ config w !! id = None /\
    (pool w' = pool w \/ pool w' = <[id := app_client parent req]> (pool w)) /\
    (config w' = config w \/ exists t, config w' = <[id := config_row parent req t]> (config w)).

(** One request lost, everything else delivered. *)
Definition single_loss (env : nat -> Z * delivery) : Prop :=
  exists i, forall j, snd (env j) = if (j =? i)%nat then LostRequest else Delivered.

(** The table has no row for an id the pool does not know. *)
Definition rows_known (w : World) : Prop := forall id, pool w !! id = None -> config w !! id = None.

Definition outcome (env : nat -> Z * delivery) (w w' : World) (r : result admin_error CreateTenantResponse) : Prop :=
  match r with
  | Ok res => exists id t, created id t w w' /\ res = make_response parent req id t
  | Throw e =>
      (pool w' = pool w /\ config w' = config w \/ leftover env w w') /\
      (single_loss env -> pool w' = pool w /\ config w' = config w)
  end.

Lemma finish_create_spec env n w id t :
  exists w', run (finish_create parent req id t) env n w = (w', Ok (make_response parent req id t)) /\
    pool w' = pool w /\ config w' = config w /\
    (snd (env (S n)) = Delivered ->
     idempotency w' = <[compositeIdempotencyKey req :=
       {| response := Some (make_response parent req id t);
          idem_expires_at := Some (fst (env n) / 1000 + IDEMPOTENCY_SECONDS) |}]> (idempotency w)) /\
    (snd (env (S (S n))) = Delivered -> snd (env (S (S (S n)))) = Delivered ->
     reservations w' !! subdomain_key req = None /\ reservations w' !! tenant_key req = None).
Proof.
  unfold finish_create. cbn [run]. destruct (deliver _ w _) as [w1 r1] eqn:E.
  destruct (run_release (Emit (TenantCreated (tenantId req) (subdomain req) id)
              (Ret (make_response parent req id t))) env (S (S n)) w1)
    as (w2 & -> & (Hp & Hc & _) & Hi & _ & _ & Hr).
  cbn [run]. eexists. split; [reflexivity|]. cbn.
  assert (pool w1 = pool w /\ config w1 = config w) as [Hp1 Hc1].
  { destruct (snd (env (S n))); cbn in E; by injection E as <- _. }
  rewrite Hp, Hc, Hi. split; [done|]. split; [done|]. split; [|done].
  intros Hd. rewrite Hd in E. cbn in E. by injection E as <- _.
Qed.

Lemma write_row_spec env n w0 w id :
  pool w0 !! id = None -> config w0 !! id = None -> id <> "" ->
  pool w = <[id := app_client parent req]> (pool w0) -> config w = config w0 ->
  (forall i, is_Some (toISOString (fst (env i)))) ->
  let '(w', r) := run (write_row parent req id) env n w in outcome env w0 w' r.
Proof.
  intros Hpf Hcf Hne Hp Hc Hiso. unfold write_row, iso_now. cbn [run].
  destruct (Hiso n) as [t ->]. cbn [run].
  destruct (deliver _ w _) as [w1 r1] eqn:E. destruct r1 as [[]|e].
  - destruct (finish_create_spec env (S (S n)) w1 id t) as (w2 & -> & Hp2 & Hc2 & _).
    exists id, t. split; [|done]. split; [done|]. split; [done|]. rewrite Hp2, Hc2.
    destruct (snd (env (S n))); cbn in E; try discriminate. rewrite Hc, Hcf in E. injection E as <-.
    cbn. by rewrite Hp.
  - cbn [run]. destruct (deliver _ (record_event w1 _) _) as [w2 r2] eqn:E2.
    destruct (run_release (Raise (A := CreateTenantResponse) (ServiceError e)) env (S (S (S (S n)))) w2)
      as (w3 & -> & (Hp3 & Hc3 & _) & _). cbn [run outcome].
    assert (pool w1 = pool w) as Hp1.
    { destruct (snd (env (S n))); cbn in E; rewrite ?Hc, ?Hcf in E; by injection E as <- _. }
    assert (config w2 = config w1) as Hc2.
    { destruct (snd (env (S (S (S n))))); cbn in E2; destruct (pool w1 !! id); by injection E2 as <- _. }
    assert (snd (env (S n)) <> Delivered) as Hl1.
    { intros Hd. rewrite Hd in E. cbn in E. by rewrite Hc, Hcf in E. }
    rewrite Hp3, Hc3, Hc2. split.
    2:{ intros [i Hi]. pose proof (Hi (S n)) as H1. pose proof (Hi (S (S (S n)))) as H2.
        destruct (Nat.eqb_spec (S n) i) as [<-|]; [|by rewrite H1 in Hl1].
        destruct (Nat.eqb_spec (S (S (S n))) (S n)); [lia|].
        rewrite H1 in E. rewrite H2 in E2. cbn in E, E2. injection E as <- _.
        cbn in E2. rewrite Hp, lookup_insert_eq in E2. injection E2 as <- _. cbn.
        split; [by apply delete_insert_id|done]. }
    right. split; [by exists (S n)|]. exists id. split; [done|]. split; [done|]. rewrite ?Hp3, ?Hc3, ?Hc2. split.
    + destruct (snd (env (S (S (S n))))); cbn in E2; rewrite ?Hp1, ?Hp, ?lookup_insert_eq in E2;
        injection E2 as <- _; cbn; [left; by apply delete_insert_id|right|left; by apply delete_insert_id].
      by rewrite Hp1, Hp.
    + destruct (snd (env (S n))); cbn in E; [done| |]; injection E as <- _; [left; done|right].
      exists t. by rewrite Hc, Hcf.
Qed.
End create.

Section create_spec.
Context `{Cognito} (parent : string) (req : CreateTenantRequest).

Lemma create_client_spec env n w0 w :
  pool w = pool w0 -> config w = config w0 -> rows_known w0 ->
  (forall i, is_Some (toISOString (fst (env i)))) ->
  let '(w', r) := run (create_client parent req) env n w in outcome parent req env w0 w' r.
Proof.
  intros Hp Hc Hk Hiso. unfold create_client. cbn [run].
  set (cl := app_client parent req). set (i := newClientId (pool w) cl).
  assert (pool w0 !! i = None) as Hf by (rewrite <- Hp; apply newClientId_fresh).
  destruct (snd (env n)) eqn:Hd; cbn [deliver perform admin_service lost effect fst].
  - fold i. destruct (String.eqb_spec i "") as [E|E]; [by apply newClientId_nonempty in E|].
    apply write_row_spec; try done; [by apply Hk|]. cbn. by rewrite Hp.
  - destruct (run_release req (Raise (A := CreateTenantResponse) (ServiceError Unavailable)) env (S n) w)
      as (w1 & -> & (Hp1 & Hc1 & _) & _). cbn [run outcome]. rewrite Hp1, Hc1. split; [by left|done].
  - fold i. destruct (run_release req (Raise (A := CreateTenantResponse) (ServiceError Unavailable)) env (S n)
                        (set_pool w (<[i:=cl]> (pool w)))) as (w1 & -> & (Hp1 & Hc1 & _) & _).
    cbn [run outcome]. split.
    2:{ intros [j Hj]. specialize (Hj n). rewrite Hd in Hj. by destruct (n =? j)%nat. }
    right. split; [exists n; by rewrite Hd|]. exists i. split; [done|]. split; [by apply Hk|].
    rewrite Hp1, Hc1. cbn. rewrite Hp. split; [by right|by left].
Qed.

Lemma reserve_names_spec env n w :
  rows_known w -> (forall i, is_Some (toISOString (fst (env i)))) ->
  let '(w', r) := run (reserve_names parent req) env n w in outcome parent req env w w' r.
Proof.
  intros Hk Hiso. unfold reserve_names. cbn [run].
  destruct (deliver _ w _) as [w1 r1] eqn:E.
  assert (pool w1 = pool w /\ config w1 = config w) as [Hp Hc].
  { apply (f_equal fst) in E. cbn [fst] in E. subst w1.
    destruct (snd (env (S n))); cbn [deliver perform admin_service lost effect fst]; try case_match; done. }
  destruct r1 as [[]|e]; [by apply create_client_spec|].
  destruct e; cbn [run outcome]; (split; [by left|done]).
Qed.

(** A live idempotency record of this very request. *)
Definition replayable (w : World) (ms : Z) (res : CreateTenantResponse) : Prop :=
  exists it, idempotency w !! compositeIdempotencyKey req = Some it /\ idem_live ms it = true /\
    response it = Some res /\ res_subdomain res = subdomain req /\ res_tenantId res = tenantId req.

Lemma replay_run env n w it :
  let '(w', r) := run (replay req it) env n w in
  w' = w /\ match r with
            | Ok res => response it = Some res /\ res_subdomain res = subdomain req /\ res_tenantId res = tenantId req
            | Throw _ => True
            end.
Proof.
  unfold replay. destruct (response it) as [res|]; [|done].
  destruct (String.eqb_spec (res_subdomain res) (subdomain req)); [|done].
  destruct (String.eqb_spec (res_tenantId res) (tenantId req)); done.
Qed.
End create_spec.

(** C30 ([createTenant]): whatever requests and replies are lost on the way, a
    creation that resolves either replayed the stored response of a live
    idempotency record, touching nothing, or has added to the user pool and
    to the ClientConfig table exactly one entry under one fresh client id,
    with the request's names; one that rejects left both as they were, unless
    a message was lost, and then at most that one client and that one row
    remain. Without losses, and when a single request is lost, a rejection
    changes neither: the compensation has removed the client. *)
Theorem createTenant_all_or_nothing `{Cognito} (parent : string) (req : CreateTenantRequest)
    (env : nat -> Z * delivery) (w : World) :
  rows_known w -> (forall i, is_Some (toISOString (fst (env i)))) ->
  let '(w', r) := run (createTenant parent req) env 0 w in
  match r with
  | Ok res =>
      w' = w /\ replayable req w (fst (env 1%nat)) res \/
      exists id t, created parent req id t w w' /\ res = make_response parent req id t
  | Throw e =>
      (pool w' = pool w /\ config w' = config w \/ leftover parent req env w w') /\
      (single_loss env -> pool w' = pool w /\ config w' = config w)
  end.
Proof.
  intros Hk Hiso. unfold createTenant, call. cbn [run].
  assert (forall n, let '(w', r) := run (reserve_names parent req) env n w in
    match r with
    | Ok res => w' = w /\ replayable req w (fst (env 1%nat)) res \/
        exists id t, created parent req id t w w' /\ res = make_response parent req id t
    | Throw e => (pool w' = pool w /\ config w' = config w \/ leftover parent req env w w') /\
        (single_loss env -> pool w' = pool w /\ config w' = config w)
    end) as Hrest.
  { intros n. pose proof (reserve_names_spec parent req env n w Hk Hiso) as Ho.
    destruct (run _ env n w) as [w' [res|e]]; [by right|done]. }
  destruct (snd (env 0%nat)); cbn [deliver perform admin_service lost effect fst run]; [|split; [by left|done]|split; [by left|done]].
  destruct (idempotency w !! compositeIdempotencyKey req) as [it|] eqn:Hit; [|apply Hrest].
  cbn [run]. destruct (idem_live (fst (env 1%nat)) it) eqn:Hl; [|apply Hrest].
  pose proof (replay_run req env 2 w it) as Hr. destruct (run _ env 2 w) as [w' [res|e]].
  - destruct Hr as [-> Hr]. left. split; [done|]. by exists it.
  - destruct Hr as [-> _]. split; [by left|done].
Qed.

Definition empty_world : World :=
  {| idempotency := ∅; reservations := ∅; pool := ∅; config := ∅; users := []; signedOut := []; log := [] |}.

Definition acme : CreateTenantRequest :=
  {| subdomain := "acme"; tenantId := "t1"; allowedEmailDomains := []; idempotencyKey := "key-0001" |}.

Lemma createTenant_all_or_nothing_witness :
  let env (_ : nat) := (1709210096789, Delivered) in
  let w' := fst (run (createTenant "example.com" acme) env 0 empty_world) in
  exists id, pool w' !! id = Some (app_client "example.com" acme) /\
             row_tenantId <$> config w' !! id = Some "t1".
Proof.
  intros env w'.
  pose proof (createTenant_all_or_nothing (H := fresh_ids) "example.com" acme env empty_world) as Ht.
  destruct (run (createTenant "example.com" acme) env 0 empty_world) as [w1 r] eqn:E.
  assert (is_ok r = true) as Hr by (apply (f_equal (fun x => is_ok (snd x))) in E; cbn [snd] in E; rewrite <- E; vm_compute; reflexivity).
  destruct r as [res|e]; [|discriminate Hr].
  destruct Ht as [[_ (it & Hit & _)]|(id & t & (_ & _ & Hp & Hc) & _)].
  - intros i _. reflexivity.
  - intros i. vm_compute. by eexists.
  - discriminate Hit.
  - exists id. unfold w'. rewrite ?E. cbn [fst]. rewrite Hp, Hc, !lookup_insert_eq. split; reflexivity.
Defined.

(** ** Lemmas: reservations exclude *)

Section exclusion.
Context `{Cognito} (T0 : Z).

(** All clock readings of the race lie within 60 seconds. *)
Definition in_window (ms : Z) : Prop := T0 <= ms / 1000 <= T0 + RESERVATION_SECONDS.

(** A program asks to delete only reservations it holds, and reserves only
    with clock readings of the race, for the full lifetime. *)
Definition cmd_ok {X} (h : list string) (c : cmd X) : Prop :=
  match c with
  | Reserve k1 k2 now ttl =>
      h = [] /\ T0 <= now <= T0 + RESERVATION_SECONDS /\ ttl = now + RESERVATION_SECONDS
  | DeleteReservation k => k ∈ h
  | _ => True
  end.

Fixpoint disciplined {A} (h : list string) (p : prog A) : Prop :=
  match p with
  | Ret _ | Raise _ => True
  | Now k => forall ms, in_window ms -> disciplined h (k ms)
  | Emit _ p => disciplined h p
  | Send c k => cmd_ok h c /\ forall r, disciplined (held_after c r h) (k r)
  end.

Lemma release_disciplined {A} req (k : prog A) h :
  (forall h', disciplined h' k) -> subdomain_key req ∈ h -> tenant_key req ∈ h ->
  disciplined h (releaseReservations req k).
Proof.
  intros Hk Hs Ht. unfold releaseReservations. cbn [disciplined cmd_ok held_after]. split; [done|].
  intros _. split; [|intros _; apply Hk]. apply list_elem_of_In, filter_In. split; [by apply list_elem_of_In|].
  reflexivity.
Qed.

Lemma create_disciplined parent req : disciplined [] (createTenant parent req).
Proof.
  assert (forall {A} (e : admin_error) h, disciplined (A := A) h (Raise e)) as Hraise by done.
  set (h := [subdomain_key req; tenant_key req]).
  assert (subdomain_key req ∈ h) as Hs by (unfold h; set_solver).
  assert (tenant_key req ∈ h) as Ht by (unfold h; set_solver).
  assert (disciplined h (create_client parent req)) as Hc.
  { unfold create_client. cbn [disciplined cmd_ok held_after]. split; [done|].
    intros [id|e]; [|by apply release_disciplined].
    destruct (String.eqb _ ""); [by apply release_disciplined|].
    unfold write_row, iso_now. intros ms _. destruct (toISOString ms); [|done].
    cbn [disciplined cmd_ok held_after]. split; [done|].
    intros [[]|e]; [|cbn [disciplined cmd_ok held_after]; split; [done|]; intros _; by apply release_disciplined].
    unfold finish_create. intros ms' _. cbn [disciplined cmd_ok held_after]. split; [done|].
    intros _. by apply release_disciplined. }
  assert (disciplined [] (reserve_names parent req)) as Hr.
  { unfold reserve_names. intros ms Hms. cbn [disciplined cmd_ok]. split; [done|].
    intros [[]|[]]; try done; apply Hc. }
  unfold createTenant, call. cbn [disciplined cmd_ok held_after]. split; [done|]. intros [[it|]|e]; [|apply Hr|done].
  intros ms _. destruct (idem_live ms it); [|apply Hr]. unfold replay.
  destruct (response it); [|done]. by destruct (_ || _).
Qed.

Definition sched_ok (sched : list (nat * (Z * delivery))) : Prop :=
  Forall (fun ev => in_window (ev.2).1) sched.

(** Every held key is reserved in the table beyond the window, and no key is
    held twice. *)
Definition sys_inv {A} (w : World) (ts : list (thread A)) : Prop :=
  (forall i t, ts !! i = Some t -> disciplined (held t) (code_ t) /\
     forall k, k ∈ held t -> exists e, reservations w !! k = Some e /\ T0 + RESERVATION_SECONDS <= e) /\
  (forall i j ti tj k, ts !! i = Some ti -> ts !! j = Some tj -> k ∈ held ti -> k ∈ held tj -> i = j).

(** A step of another thread keeps the keys of this one. *)
Lemma step_keeps {A} w (t : thread A) now dv k :
  in_window now -> disciplined (held t) (code_ t) ->
  k ∉ held t -> (exists e, reservations w !! k = Some e /\ T0 + RESERVATION_SECONDS <= e) ->
  let '(w', t') := thread_step now dv w t in
  (exists e, reservations w' !! k = Some e /\ T0 + RESERVATION_SECONDS <= e) /\ k ∉ held t'.
Proof.
  intros Hw Hd Hk (e & He & Hle). unfold thread_step. destruct t as [h p]; cbn [held code_] in *.
  destruct p as [a|e'|f|ev p|X c f]; cbn [held]; try (split; [by exists e|done]).
  destruct Hd as [Hok _].
  destruct (deliver dv w c) as [w' r] eqn:E. cbn [held].
  assert (forall w'' r'', effect w c = (w'', r'') ->
    (exists e, reservations w'' !! k = Some e /\ T0 + RESERVATION_SECONDS <= e) /\ k ∉ held_after c r'' h) as Heff.
  { intros w'' r'' Ee. destruct c; cbn [effect held_after cmd_ok] in *;
      try (injection Ee as <- <-; cbn; split; [by exists e|done]);
      try (assert (reservations w'' = reservations w) as ->
             by (apply (f_equal fst) in Ee; cbn [fst] in Ee; rewrite <- Ee; try case_match; done);
           split; [by exists e|done]).
    - destruct Hok as (-> & Hnow & ->).
      destruct (reservable w key1 now0 && reservable w key2 now0) eqn:Hr; injection Ee as <- <-; cbn;
        [|split; [by exists e|done]].
      apply andb_true_iff in Hr as [H1 H2]. unfold reservable in H1, H2.
      assert (k <> key1) by (intros ->; rewrite He in H1; bool_hyps; lia).
      assert (k <> key2) by (intros ->; rewrite He in H2; bool_hyps; lia).
      rewrite !lookup_insert_ne by done. split; [by exists e|]. set_solver.
    - injection Ee as <- <-. cbn. assert (k <> key) by (intros ->; done).
      rewrite lookup_delete_ne by done. split; [by exists e|].
      intros Hin%list_elem_of_In%filter_In. destruct Hin as [Hin _]. by apply list_elem_of_In in Hin. }
  destruct dv; cbn [deliver perform lost admin_service] in E.
  - by apply Heff.
  - injection E as <- <-. split; [by exists e|]. destruct c; cbn [held_after is_ok]; try done.
    intros Hin%list_elem_of_In%filter_In. destruct Hin as [Hin _]. by apply list_elem_of_In in Hin.
  - destruct (effect w c) as [w'' r''] eqn:Ee. injection E as <- <-. destruct (Heff _ _ eq_refl) as [He' _].
    split; [done|]. destruct c; cbn [held_after is_ok]; try done.
    intros Hin%list_elem_of_In%filter_In. destruct Hin as [Hin _]. by apply list_elem_of_In in Hin.
Qed.

(** The stepping thread keeps its discipline, its keys stay reserved, and a
    key it gains was free. *)
Lemma step_own {A} w (t : thread A) now dv :
  in_window now -> disciplined (held t) (code_ t) ->
  (forall k, k ∈ held t -> exists e, reservations w !! k = Some e /\ T0 + RESERVATION_SECONDS <= e) ->
  let '(w', t') := thread_step now dv w t in
  disciplined (held t') (code_ t') /\
  (forall k, k ∈ held t' -> exists e, reservations w' !! k = Some e /\ T0 + RESERVATION_SECONDS <= e) /\
  (forall k, k ∈ held t' -> k ∉ held t ->
     forall e, reservations w !! k = Some e -> e < T0 + RESERVATION_SECONDS).
Proof.
  intros Hw Hd Hk. unfold thread_step. destruct t as [h p]; cbn [held code_] in *.
  destruct p as [a|e'|f|ev p|X c f]; cbn [held code_ disciplined] in *.
  1,2: by split.
  { split; [by apply Hd|]. by split. }
  { split; [done|]. split; [done|]. done. }
  destruct Hd as [Hok Hd].
  destruct (deliver dv w c) as [w' r] eqn:E. cbn [held code_].
  split; [apply Hd|]. 
  assert (forall w'' r'', effect w c = (w'', r'') ->
    (forall k, k ∈ held_after c r'' h -> exists e, reservations w'' !! k = Some e /\ T0 + RESERVATION_SECONDS <= e) /\
    (forall k, k ∈ h -> k ∈ held_after c (Throw (A := X) Unavailable) h ->
       exists e, reservations w'' !! k = Some e /\ T0 + RESERVATION_SECONDS <= e) /\
    (forall k, k ∈ held_after c r'' h -> k ∉ h -> forall e, reservations w !! k = Some e -> e < T0 + RESERVATION_SECONDS))
    as Heff.
  { intros w'' r'' Ee. destruct c; cbn [effect held_after cmd_ok] in *;
      try (assert (reservations w'' = reservations w) as ->
             by (apply (f_equal fst) in Ee; cbn [fst] in Ee; rewrite <- Ee; try case_match; done);
           split; [exact Hk|]; split; [intros; by apply Hk|done]).
    - destruct Hok as (-> & Hnow & ->).
      destruct (reservable w key1 now0 && reservable w key2 now0) eqn:Hr; injection Ee as <- <-; cbn [is_ok reservations set_reservations].
      + apply andb_true_iff in Hr as [H1 H2]. unfold reservable in H1, H2.
        split; [|split].
        * intros k Hkk. exists (now0 + RESERVATION_SECONDS). split; [|lia].
          destruct (decide (key2 = k)) as [->|Hne]; [by rewrite lookup_insert_eq|].
          rewrite !elem_of_cons in Hkk.
          destruct Hkk as [->|[Hkk|Hf]]; [by rewrite lookup_insert_ne, lookup_insert_eq|congruence|by apply not_elem_of_nil in Hf].
        * intros k Hin. by apply not_elem_of_nil in Hin.
        * intros k Hin _ e He. rewrite !elem_of_cons in Hin.
          destruct Hin as [->|[->|Hf]]; [rewrite He in H1; bool_hyps; lia|rewrite He in H2; bool_hyps; lia|by apply not_elem_of_nil in Hf].
      + split; [|split]; intros k Hin; by apply not_elem_of_nil in Hin.
    - assert (forall k, k ∈ List.filter (fun x => negb (String.eqb x key)) h -> k ∈ h /\ k <> key) as Hf.
      { intros k [Hin Hne]%list_elem_of_In%filter_In. split; [by apply list_elem_of_In|].
        intros ->. by rewrite String.eqb_refl in Hne. }
      injection Ee as <- <-. cbn [reservations set_reservations].
      assert (forall k, k ∈ List.filter (fun x => negb (String.eqb x key)) h ->
                exists e, delete key (reservations w) !! k = Some e /\ T0 + RESERVATION_SECONDS <= e) as Hdel.
      { intros k [Hin Hne]%Hf. rewrite lookup_delete_ne by done. by apply Hk. }
      split; [exact Hdel|]. split; [intros k _; apply Hdel|]. intros k [Hin _]%Hf Hn. by destruct Hn. }
  assert (forall k, k ∈ held_after c (Throw (A := X) Unavailable) h -> k ∈ h) as Hsub.
  { intros k. destruct c; cbn [held_after is_ok]; try done.
    intros [Hin _]%list_elem_of_In%filter_In. by apply list_elem_of_In. }
  destruct dv; cbn [deliver perform lost admin_service] in E.
  - destruct (Heff _ _ E) as (H1 & _ & H3). done.
  - injection E as <- <-. split; intros k Hin; [by apply Hk, Hsub|]. intros Hn. by destruct (Hn (Hsub k Hin)).
  - destruct (effect w c) as [w'' r''] eqn:Ee. injection E as <- <-. destruct (Heff _ _ eq_refl) as (_ & H2 & _).
    split; intros k Hin; [apply H2; [by apply Hsub|done]|]. intros Hn. by destruct (Hn (Hsub k Hin)).
Qed.

Lemma run_threads_exclusion {A} sched w (ts : list (thread A)) :
  sched_ok sched -> sys_inv w ts -> let '(w', ts') := run_threads sched w ts in sys_inv w' ts'.
Proof.
  revert w ts. induction sched as [|[i [now dv]] sched IH]; intros w ts Hs Hinv; [done|].
  inversion Hs as [|? ? Hnow Hs']; subst. cbn [run_threads].
  destruct (ts !! i) as [t|] eqn:Hi; [|by apply IH].
  destruct Hinv as [Hall Hdis]. destruct (Hall i t Hi) as [Hd Hk].
  pose proof (step_own w t now dv Hnow Hd Hk) as Hown.
  pose proof (fun k => step_keeps w t now dv k Hnow Hd) as Hkeep.
  destruct (thread_step now dv w t) as [w' t'] eqn:E. destruct Hown as (Hd' & Hk' & Hnew).
  assert (forall j tj, j <> i -> ts !! j = Some tj -> forall k, k ∈ held tj ->
    (exists e, reservations w' !! k = Some e /\ T0 + RESERVATION_SECONDS <= e) /\ k ∉ held t') as Hother.
  { intros j tj Hne Hj k Hin. apply Hkeep.
    - intros Hin'. apply Hne. by apply (Hdis j i tj t k).
    - by apply (proj2 (Hall j tj Hj)). }
  apply IH; [done|]. split.
  - intros j tj Hj. destruct (decide (j = i)) as [->|Hne].
    + rewrite list_lookup_insert_eq in Hj by (by apply lookup_lt_Some in Hi). injection Hj as <-. done.
    + rewrite list_lookup_insert_ne in Hj by done. split; [by apply (Hall j tj Hj)|].
      intros k Hin. by apply (Hother j tj Hne Hj k).
  - intros j l tj tl k Hj Hl Hkj Hkl.
    destruct (decide (j = i)) as [->|Hnj], (decide (l = i)) as [->|Hnl]; [done| | |].
    + rewrite list_lookup_insert_eq in Hj by (by apply lookup_lt_Some in Hi). injection Hj as <-.
      rewrite list_lookup_insert_ne in Hl by done. by destruct (Hother l tl Hnl Hl k Hkl) as [_ []].
    + rewrite list_lookup_insert_eq in Hl by (by apply lookup_lt_Some in Hi). injection Hl as <-.
      rewrite list_lookup_insert_ne in Hj by done. by destruct (Hother j tj Hnj Hj k Hkj) as [_ []].
    + rewrite list_lookup_insert_ne in Hj, Hl by done. by apply (Hdis j l tj tl k).
Qed.
End exclusion.

(** C32 ([createTenant]): the reservations exclude. However any number of
    creations interleave, with requests and replies lost at will, as long as
    all clock readings lie within 60 seconds: no two of them are between a
    successful reservation and its release with the same subdomain or the
    same tenant id, whatever the table held before. *)
Theorem reservations_exclude `{Cognito} (parent : string) (reqs : list CreateTenantRequest)
    (T0 : Z) (sched : list (nat * (Z * delivery))) (w : World) :
  sched_ok T0 sched ->
  let '(w', ts) := run_threads sched w (map (fun r => start_thread (createTenant parent r)) reqs) in
  forall i j ti tj k, ts !! i = Some ti -> ts !! j = Some tj ->
    k ∈ held ti -> k ∈ held tj -> i = j.
Proof.
  intros Hs. pose proof (run_threads_exclusion T0 sched w (map (fun r => start_thread (createTenant parent r)) reqs) Hs) as Hinv.
  destruct (run_threads _ _ _) as [w' ts]. apply Hinv. split.
  - intros i t Hi. rewrite list_lookup_fmap in Hi. destruct (reqs !! i); [|done]. injection Hi as <-.
    split; [apply create_disciplined|]. intros k Hk. by apply not_elem_of_nil in Hk.
  - intros i j ti tj k Hi _ Hk. rewrite list_lookup_fmap in Hi. destruct (reqs !! i); [|done]. injection Hi as <-.
    by apply not_elem_of_nil in Hk.
Qed.

(** Two creations of one subdomain: the second is refused while the first is
    at work. *)
Lemma reservations_exclude_witness :
  let sched := map (fun i => (i, (1000, Delivered))) [0; 0; 0; 1; 1; 1]%nat in
  let r := run_threads sched empty_world
             (map (fun r => start_thread (createTenant "example.com" r)) [acme; acme]) in
  sched_ok 1 sched /\ option_map held (r.2 !! 0%nat) = Some ["subdomain#acme"; "tenantId#t1"] /\
  "subdomain#acme" ∉ default [] (option_map held (r.2 !! 1%nat)).
Proof.
  intros sched r.
  assert (sched_ok 1 sched) as Hs by (repeat constructor; vm_compute; congruence).
  assert (option_map held (r.2 !! 0%nat) = Some ["subdomain#acme"; "tenantId#t1"]) as H0 by (vm_compute; reflexivity).
  split; [exact Hs|]. split; [exact H0|]. intros Hin.
  pose proof (reservations_exclude (H := fresh_ids) "example.com" [acme; acme] 1 sched empty_world Hs) as Ht.
  change (run_threads sched empty_world _) with r in Ht. destruct r as [w' ts].
  cbn [snd] in *. destruct (ts !! 0%nat) as [t0|] eqn:E0; [|discriminate H0].
  destruct (ts !! 1%nat) as [t1|] eqn:E1; cbn [option_map default] in Hin; [|by apply not_elem_of_nil in Hin].
  assert (0%nat = 1%nat) as Hx; [|discriminate Hx].
  apply (Ht 0%nat 1%nat t0 t1 "subdomain#acme" E0 E1); [|exact Hin].
  injection H0 as H0. rewrite H0. left.
Defined.

(** ** Lemmas: creation, delivered *)

Lemma create_delivered `{Cognito} parent req ms w res w1 :
  (forall i, is_Some (toISOString (ms i))) ->
  idempotency w !! compositeIdempotencyKey req = None ->
  run (createTenant parent req) (delivered ms) 0 w = (w1, Ok res) ->
  idempotency w1 !! compositeIdempotencyKey req
    = Some {| response := Some res; idem_expires_at := Some (ms 6%nat / 1000 + IDEMPOTENCY_SECONDS) |} /\
  reservations w1 !! subdomain_key req = None /\ reservations w1 !! tenant_key req = None /\
  res_subdomain res = subdomain req /\ res_tenantId res = tenantId req.
Proof.
  intros Hiso Hn. unfold createTenant, call, reserve_names, create_client. cbn [run delivered deliver perform admin_service lost effect fst snd].
  rewrite Hn. cbn [run delivered deliver perform admin_service lost effect fst snd].
  destruct (_ && _); [|done]. cbn [run delivered deliver perform admin_service lost effect fst snd].
  match goal with |- context [String.eqb ?x ""] => destruct (String.eqb_spec x "") as [Hx|_]; [|generalize x] end.
  { by apply newClientId_nonempty in Hx. }
  intros id.
  match goal with |- context [set_pool ?a ?b] => generalize (set_pool a b) end. intros w2.
  unfold write_row, iso_now. cbn [run delivered fst snd].
  destruct (Hiso 4%nat) as [t ->]. cbn [run delivered deliver perform admin_service lost effect fst snd].
  destruct (config w2 !! id).
  { cbn [run]. destruct (deliver _ _ _) as [w3 r3].
    by destruct (run_release req (Raise (A := CreateTenantResponse) (ServiceError ConditionalCheckFailedException))
                (delivered ms) 8 w3) as (w4 & -> & _). }
  match goal with |- run (finish_create parent req id t) ?env ?n ?w2 = _ -> _ =>
    destruct (finish_create_spec parent req env n w2 id t) as (w3 & -> & _ & _ & Hi & Hr) end.
  intros [= <- <-]. rewrite Hi by done. cbn [delivered fst]. rewrite lookup_insert_eq.
  destruct (Hr eq_refl eq_refl). by repeat split.
Qed.

(** @@ ([createTenant]): a retry within 24 hours is idempotent. Once a
    creation has resolved (messages delivered), the same idempotency key and
    subdomain give the same response and change nothing at all, or a conflict
    if the tenant id differs; from 24 hours on the record counts as absent
    even while the table still holds it. *)
Theorem createTenant_idempotent `{Cognito} (parent : string) (req req2 : CreateTenantRequest)
    (ms ms2 : nat -> Z) (w w1 : World) (res : CreateTenantResponse) :
  (forall i, is_Some (toISOString (ms i))) ->
  idempotency w !! compositeIdempotencyKey req = None ->
  run (createTenant parent req) (delivered ms) 0 w = (w1, Ok res) ->
  compositeIdempotencyKey req2 = compositeIdempotencyKey req -> subdomain req2 = subdomain req ->
  (ms2 1%nat / 1000 < ms 6%nat / 1000 + IDEMPOTENCY_SECONDS ->
   run (createTenant parent req2) (delivered ms2) 0 w1
   = (w1, if String.eqb (tenantId req2) (tenantId req) then Ok res else Throw IdempotencyConflictError)) /\
  (ms 6%nat / 1000 + IDEMPOTENCY_SECONDS <= ms2 1%nat / 1000 ->
   run (createTenant parent req2) (delivered ms2) 0 w1
   = run (reserve_names parent req2) (delivered ms2) 2 w1).
Proof.
  intros Hiso Hn Hrun Hkey Hsub.
  destruct (create_delivered parent req ms w res w1 Hiso Hn Hrun) as (Hi & _ & _ & Hs & Ht).
  unfold createTenant, call. cbn [run delivered deliver perform admin_service lost effect fst snd]. rewrite Hkey, Hi.
  cbn [run delivered fst]. unfold idem_live. cbn [idem_expires_at]. split; intros Hlt.
  - destruct (Z.ltb_spec (ms2 1%nat / 1000) (ms 6%nat / 1000 + IDEMPOTENCY_SECONDS)); [|lia].
    unfold replay. cbn [response]. rewrite Hs, Ht, Hsub, String.eqb_refl, String.eqb_sym. cbn [negb orb].
    destruct (String.eqb (tenantId req2) (tenantId req)); done.
  - destruct (Z.ltb_spec (ms2 1%nat / 1000) (ms 6%nat / 1000 + IDEMPOTENCY_SECONDS)); [lia|done].
Qed.

Lemma createTenant_idempotent_witness :
  exists w1 res,
    run (createTenant "example.com" acme) (delivered (fun _ => 1000)) 0 empty_world = (w1, Ok res) /\
    run (createTenant "example.com" acme) (delivered (fun _ => 2000)) 0 w1 = (w1, Ok res).
Proof.
  destruct (run (createTenant "example.com" acme) (delivered (fun _ => 1000)) 0 empty_world)
    as [w1 r] eqn:E.
  assert (is_ok r = true) as Hr by (apply (f_equal (fun x => is_ok (snd x))) in E; cbn [snd] in E; rewrite <- E; vm_compute; reflexivity).
  destruct r as [res|]; [|discriminate Hr]. exists w1, res. split; [reflexivity|].
  apply (createTenant_idempotent (H := fresh_ids) "example.com" acme acme (fun _ => 1000) (fun _ => 2000)
           empty_world w1 res); [intros i; vm_compute; by eexists|reflexivity|exact E|reflexivity|reflexivity|].
  vm_compute. reflexivity.
Defined.

(** Reservations last for the creation only, and nothing else looks for the
    name: under another idempotency key the same subdomain and tenant id are
    given out again. *)
Lemma subdomain_not_unique :
  let again := {| subdomain := "acme"; tenantId := "t1"; allowedEmailDomains := []; idempotencyKey := "key-0002" |} in
  let w1 := fst (run (createTenant "example.com" acme) (delivered (fun _ => 1000)) 0 empty_world) in
  let r := run (createTenant "example.com" again) (delivered (fun _ => 2000)) 0 w1 in
  is_ok (snd r) = true /\
  map (fun kv => row_subdomain kv.2) (map_to_list (config (fst r))) = ["acme"; "acme"].
Proof. vm_compute. split; reflexivity. Qed.

(** ** Lemmas: deletion *)

Section delete_lemmas.
Context `{Cognito}.

Definition same_tables (w w' : World) : Prop := pool w' = pool w /\ config w' = config w.

Lemma sign_out_all_run {A} names (k : prog A) env n w :
  exists w' n', run (sign_out_all names k) env n w = run k env n' w' /\ same_tables w w'.
Proof.
  revert n w. induction names as [|u names IH]; intros n w; cbn [sign_out_all]; [by exists w, n|].
  destruct (String.eqb u ""); [apply IH|]. cbn [run]. destruct (deliver _ w _) as [w1 r1] eqn:E.
  destruct (IH (S n) w1) as (w2 & n2 & -> & Hp & Hc). exists w2, n2. split; [done|].
  assert (same_tables w w1) as [Hp1 Hc1].
  { apply (f_equal fst) in E. cbn [fst] in E. subst w1. by destruct (snd (env n)). }
  split; congruence.
Qed.

Lemma revoke_run {A} fuel page0 (k : prog A) env n w :
  exists w' n', same_tables w w' /\
    (run (revokeAllSessions fuel page0 k) env n w = run k env n' w' \/
     exists e, run (revokeAllSessions fuel page0 k) env n w = (w', Throw e) /\
       forall t, e <> TenantNotFoundError t).
Proof.
  revert page0 n w. induction fuel as [|fuel IH]; intros page0 n w; cbn [revokeAllSessions].
  { exists w, n. split; [done|]. right. eexists. split; [reflexivity|done]. }
  unfold call. cbn [run]. destruct (deliver _ w _) as [w1 r1] eqn:E.
  assert (same_tables w w1) as Hs.
  { apply (f_equal fst) in E. cbn [fst] in E. subst w1. by destruct (snd (env n)). }
  destruct r1 as [[names next]|e]; [|exists w1, n; split; [done|right; eexists; split; [reflexivity|done]]].
  cbn [fst snd].
  destruct (sign_out_all_run names (match next with Some next => revokeAllSessions fuel next k | None => k end)
              env (S n) w1) as (w2 & n2 & -> & Hs2).
  assert (same_tables w w2) as Hs3 by (destruct Hs, Hs2; split; congruence).
  destruct next as [next|]; [|exists w2, n2; by split; [|left]].
  destruct (IH next n2 w2) as (w3 & n3 & Hs4 & Hr). exists w3, n3. split; [|done].
  destruct Hs3, Hs4; split; congruence.
Qed.
End delete_lemmas.

Lemma query_head (m : gmap string ConfigRow) tid :
  match head (filter (fun kv => row_tenantId kv.2 = tid) (map_to_list m)) with
  | Some (i, row) => m !! i = Some row /\ row_tenantId row = tid
  | None => forall i row, m !! i = Some row -> row_tenantId row <> tid
  end.
Proof.
  destruct (filter _ _) as [|[i row] l] eqn:E; cbn [head].
  - intros i row Hi Ht. assert ((i, row) ∈ filter (fun kv : string * ConfigRow => row_tenantId kv.2 = tid) (map_to_list m)) as Hin.
    { apply list_elem_of_filter. split; [done|]. by apply elem_of_map_to_list. }
    rewrite E in Hin. by apply not_elem_of_nil in Hin.
  - assert ((i, row) ∈ filter (fun kv : string * ConfigRow => row_tenantId kv.2 = tid) (map_to_list m)) as Hin
      by (rewrite E; left).
    apply list_elem_of_filter in Hin as [Ht Hin]. split; [by apply elem_of_map_to_list|done].
Qed.

(** @@ ([deleteTenant]): a row disappears only after its app client is gone,
    whatever messages are lost; so a deletion never leaves a live client
    without a row. A deletion that resolves has removed exactly one client
    and its row, a row of that tenant; it reports [TenantNotFoundError]
    exactly when the table has no row of the tenant, having changed nothing;
    any other failure has removed at most that client and that row. *)
Theorem deleteTenant_order `{Cognito} (fuel : nat) (req : DeleteTenantRequest)
    (env : nat -> Z * delivery) (w : World) :
  let '(w', r) := run (deleteTenant fuel req) env 0 w in
  (forall id, is_Some (config w !! id) -> config w' !! id = None -> pool w' !! id = None) /\
  match r with
  | Ok _ => exists id row, config w !! id = Some row /\ row_tenantId row = del_tenantId req /\
              is_Some (pool w !! id) /\ pool w' = delete id (pool w) /\ config w' = delete id (config w)
  | Throw (TenantNotFoundError _) =>
      w' = w /\ forall id row, config w !! id = Some row -> row_tenantId row <> del_tenantId req
  | Throw _ => same_tables w w' \/
      exists id row, config w !! id = Some row /\ row_tenantId row = del_tenantId req /\
        pool w' = delete id (pool w) /\ (config w' = config w \/ config w' = delete id (config w))
  end.
Proof.
  assert (forall w w' : World, config w' = config w ->
    forall id, is_Some (config w !! id) -> config w' !! id = None -> pool w' !! id = None) as Hsame.
  { intros w1 w2 E id [x Hx] Hn. rewrite E in Hn. congruence. }
  unfold deleteTenant. unfold call at 1. cbn [run].
  destruct (snd (env 0%nat)); cbn [deliver perform admin_service lost effect fst]; [|by split; [apply Hsame|left]..].
  pose proof (query_head (config w) (del_tenantId req)) as Hq.
  destruct (head _) as [[id row]|]; [|split; [by apply Hsame|done]]. destruct Hq as [Hrow Htid].
  set (rest := call (DeleteUserPoolClient id) _).
  assert (forall n w0, same_tables w w0 -> let '(w', r) := run rest env n w0 in
    (forall id, is_Some (config w !! id) -> config w' !! id = None -> pool w' !! id = None) /\
    match r with
    | Ok _ => exists id row, config w !! id = Some row /\ row_tenantId row = del_tenantId req /\
                is_Some (pool w !! id) /\ pool w' = delete id (pool w) /\ config w' = delete id (config w)
    | Throw (TenantNotFoundError _) =>
        w' = w /\ forall id row, config w !! id = Some row -> row_tenantId row <> del_tenantId req
    | Throw _ => same_tables w w' \/
        exists id row, config w !! id = Some row /\ row_tenantId row = del_tenantId req /\
          pool w' = delete id (pool w) /\ (config w' = config w \/ config w' = delete id (config w))
    end) as Hrest.
  { intros n w0 [Hp Hc]. unfold rest, call. cbn [run].
    assert (forall x, is_Some (config w !! x) -> delete id (config w) !! x = None -> delete id (pool w) !! x = None) as Hdel.
    { intros x [y Hy] Hn. apply lookup_delete_None in Hn as [<-|Hn]; [|congruence].
      apply lookup_delete_None. by left. }
    destruct (snd (env n)); cbn [deliver perform admin_service lost effect fst].
    - destruct (pool w0 !! id) as [cl|] eqn:Hcl; cbn [run];
        [|split; [by apply Hsame|left; by split]].
      assert (is_Some (pool w !! id)) as Hsome by (rewrite <- Hp; by exists cl).
      destruct (snd (env (S n))); cbn [deliver perform admin_service lost effect fst run].
      + split; [|exists id, row; cbn; by rewrite Hp, Hc].
        cbn. rewrite Hc, Hp. exact Hdel.
      + split; [by apply Hsame|]. right. exists id, row. cbn. rewrite Hp, Hc. auto.
      + split; [|right; exists id, row; cbn; rewrite Hp, Hc; auto].
        cbn. rewrite Hc, Hp. exact Hdel.
    - split; [by apply Hsame|]. left. by split.
    - split; [apply Hsame; by destruct (pool w0 !! id)|].
      destruct (pool w0 !! id); cbn [fst]; [right|left; by split].
      exists id, row. cbn. rewrite Hp, Hc. auto. }
  destruct (revokeActiveSessions req); [|by apply Hrest].
  destruct (revoke_run fuel 0 rest env 1 w) as (w1 & n1 & Hs & [->|(e & -> & He)]); [by apply Hrest|].
  split; [by apply Hsame; destruct Hs|]. destruct e; try (by left). by destruct (He tenantId0).
Qed.

(** ** Lemmas: listing page by page *)

Section paging.
Context {A : Type} (key : A -> string).

(** What a listing from [start] still has to return. *)
Definition remaining (l : list A) (start : option string) : list A :=
  match start with None => l | Some s => after key s l end.

Lemma after_app (pre suf : list A) x :
  NoDup (map key (pre ++ x :: suf)%list) -> after key (key x) (pre ++ x :: suf)%list = suf.
Proof.
  induction pre as [|y pre IH]; intros Hnd; cbn [app after map] in *.
  - by rewrite String.eqb_refl.
  - apply NoDup_cons in Hnd as [Hy Hnd]. destruct (String.eqb_spec (key y) (key x)) as [E|_]; [|by apply IH].
    exfalso. apply Hy. rewrite E. apply list_elem_of_fmap. exists x. split; [done|]. set_solver.
Qed.

Lemma last_take n (l : list A) :
  (0 < n <= length l)%nat -> exists p x, take n l = (p ++ [x])%list /\ last (take n l) = Some x.
Proof.
  intros Hn. destruct (take n l) as [|y t] eqn:E using rev_ind.
  - apply (f_equal length) in E. rewrite length_take in E. simpl in E. lia.
  - exists t, y. split; [done|]. by rewrite last_snoc.
Qed.

(** One page is the next [n] elements; its token continues after them, and
    there is none exactly when fewer than [n] were left. *)
Lemma page_spec (l : list A) (pre : list A) start n :
  NoDup (map key l) -> l = (pre ++ remaining l start)%list -> (0 < n)%nat ->
  let rest := remaining l start in
  fst (page key l start n) = take n rest /\
  match snd (page key l start n) with
  | None => (length rest < n)%nat
  | Some next => (n <= length rest)%nat /\ remaining l (Some next) = drop n rest /\
                 l = ((pre ++ take n rest) ++ remaining l (Some next))%list /\
                 exists x, x ∈ l /\ key x = next
  end.
Proof.
  intros Hnd Hl Hn rest. unfold page. fold (remaining l start). fold rest. cbn [fst snd]. split; [done|].
  destruct (Nat.leb_spec n (length rest)) as [Hle|Hgt]; [|done].
  destruct (last_take n rest) as (p & x & Ht & ->); [lia|]. cbn [fmap option_fmap option_map].
  assert (l = ((pre ++ p) ++ x :: drop n rest)%list) as Hsplit.
  { rewrite Hl. fold rest. rewrite <- (take_drop n rest) at 1. rewrite Ht. by rewrite <- !app_assoc. }
  assert (remaining l (Some (key x)) = drop n rest) as Hr.
  { cbn [remaining]. rewrite Hsplit at 1. apply after_app. by rewrite <- Hsplit. }
  split; [done|]. split; [done|]. split.
  - rewrite Hr. rewrite <- app_assoc, take_drop. exact Hl.
  - exists x. split; [|done]. rewrite Hsplit. set_solver.
Qed.
End paging.

Lemma add_ids_app acc l1 l2 : add_ids acc (l1 ++ l2)%list = add_ids (add_ids acc l1) l2.
Proof. apply fold_left_app. Qed.

Lemma elem_of_set_add s x y : y ∈ set_add s x <-> y = x \/ y ∈ s.
Proof.
  unfold set_add. destruct (existsb (String.eqb x) s) eqn:E.
  - apply existsb_exists_In in E as (z & Hz & ->%String.eqb_eq). naive_solver.
  - rewrite elem_of_app, list_elem_of_singleton. tauto.
Qed.

Lemma set_add_NoDup s x : NoDup s -> NoDup (set_add s x).
Proof.
  intros Hs. unfold set_add. destruct (existsb (String.eqb x) s) eqn:E; [done|].
  apply NoDup_app. split; [done|]. split; [|by apply NoDup_singleton].
  intros y Hy Hx%list_elem_of_singleton. subst.
  apply not_true_iff_false in E. apply E, existsb_exists_In. exists x. by rewrite String.eqb_refl.
Qed.

Lemma add_ids_spec ids acc :
  NoDup acc -> NoDup (add_ids acc ids) /\ forall x, x ∈ add_ids acc ids <-> x ∈ acc \/ x ∈ ids /\ x <> "".
Proof.
  revert acc. induction ids as [|i ids IH]; intros acc Hacc; [cbn; set_solver|].
  unfold add_ids. cbn [fold_left]. fold (add_ids (if String.eqb i "" then acc else set_add acc i) ids).
  destruct (String.eqb_spec i "") as [->|Hi].
  - destruct (IH acc Hacc) as [H1 H2]. split; [done|]. intros x. rewrite H2. set_solver.
  - destruct (IH (set_add acc i) (set_add_NoDup _ _ Hacc)) as [H1 H2]. split; [done|].
    intros x. rewrite H2, elem_of_set_add. set_solver.
Qed.

Lemma add_row_ids rows acc : (fold_left add_row rows acc).1 = add_ids acc.1 (map fst rows).
Proof.
  revert acc. induction rows as [|[i row] rows IH]; intros [s m]; [done|]. cbn [fold_left map]. rewrite IH.
  unfold add_row, add_ids. cbn [fst snd fold_left]. by destruct (String.eqb i "").
Qed.

Lemma elem_of_missing l other x : x ∈ missing l other <-> x ∈ l /\ x ∉ other.
Proof.
  unfold missing. rewrite list_elem_of_In, filter_In, negb_true_iff, <- list_elem_of_In.
  rewrite <- not_true_iff_false, existsb_exists_In. setoid_rewrite String.eqb_eq. naive_solver.
Qed.
Section reconcile.
Context `{Cognito} (ms : nat -> Z) (w : World).
Context (Hne : pool w !! "" = None).

Definition pool_ids : list string := map fst (map_to_list (pool w)).
Definition config_rows : list (string * ConfigRow) := map_to_list (config w).

Lemma pool_ids_NoDup : NoDup pool_ids.
Proof. apply NoDup_fst_map_to_list. Qed.

Lemma pool_ids_nonempty x : x ∈ pool_ids -> x <> "".
Proof.
  unfold pool_ids. rewrite list_elem_of_fmap. intros ([i c] & -> & Hin) E. cbn in E. subst.
  apply elem_of_map_to_list in Hin. congruence.
Qed.

Lemma list_clients_run {A} fuel pre token acc (k : list string -> prog A) n :
  pool_ids = (pre ++ remaining (fun k => k) pool_ids token)%list ->
  (length (remaining (fun k => k) pool_ids token) < fuel)%nat ->
  exists n', run (list_clients fuel token acc k) (delivered ms) n w
             = run (k (add_ids acc (remaining (fun k => k) pool_ids token))) (delivered ms) n' w.
Proof.
  revert pre token acc n. induction fuel as [|fuel IH]; intros pre token acc n Hpre Hf; [lia|].
  cbn [list_clients]. unfold call. cbn [run delivered deliver perform admin_service lost effect fst snd].
  pose proof page_size_pos as Hps. set (sz := Nat.min PAGE_SIZE page_size).
  assert (0 < sz)%nat as Hsz by (unfold sz, PAGE_SIZE; lia).
  assert (NoDup (map (fun k => k) pool_ids)) as Hnd by (rewrite map_id; apply pool_ids_NoDup).
  destruct (page_spec (fun k => k) pool_ids pre token sz Hnd Hpre Hsz) as [Hfst Hsnd].
  fold pool_ids. destruct (page _ pool_ids token sz) as [p next]. cbn [fst snd] in *. subst p.
  destruct next as [next|].
  - destruct Hsnd as (Hle & Hr & Hl & x & Hx & <-).
    destruct (String.eqb_spec x "") as [E|_]; [by apply pool_ids_nonempty in Hx|].
    destruct (IH _ (Some x) (add_ids acc (take sz (remaining (fun k => k) pool_ids token))) (S n) Hl) as (n' & ->).
    { rewrite Hr, length_drop. lia. }
    exists n'. by rewrite Hr, <- add_ids_app, take_drop.
  - exists (S n). by rewrite take_ge by lia.
Qed.

Lemma scan_config_run {A} fuel pre start acc (k : list string * gmap string (string * string) -> prog A) n :
  config_rows = (pre ++ remaining fst config_rows start)%list ->
  (length (remaining fst config_rows start) < fuel)%nat ->
  exists n', run (scan_config fuel start acc k) (delivered ms) n w
             = run (k (fold_left add_row (remaining fst config_rows start) acc)) (delivered ms) n' w.
Proof.
  revert pre start acc n. induction fuel as [|fuel IH]; intros pre start acc n Hpre Hf; [lia|].
  cbn [scan_config]. unfold call. cbn [run delivered deliver perform admin_service lost effect fst snd].
  assert (NoDup (map fst config_rows)) as Hnd by apply NoDup_fst_map_to_list.
  destruct (page_spec fst config_rows pre start page_size Hnd Hpre page_size_pos) as [Hfst Hsnd].
  fold config_rows. destruct (page fst config_rows start page_size) as [p next]. cbn [fst snd] in *. subst p.
  destruct next as [next|].
  - destruct Hsnd as (Hle & Hr & Hl & _). pose proof page_size_pos.
    destruct (IH _ (Some next) (fold_left add_row (take page_size (remaining fst config_rows start)) acc) (S n) Hl)
      as (n' & ->).
    { rewrite Hr, length_drop. lia. }
    exists n'. by rewrite Hr, <- fold_left_app, take_drop.
  - exists (S n). by rewrite take_ge by lia.
Qed.

End reconcile.

Lemma elem_of_map_keys {V} (m : gmap string V) x : x ∈ map fst (map_to_list m) <-> is_Some (m !! x).
Proof.
  rewrite list_elem_of_fmap. split.
  - intros ([i v] & -> & Hin%elem_of_map_to_list). by exists v.
  - intros [v Hv]. exists (x, v). split; [done|]. by apply elem_of_map_to_list.
Qed.

Lemma report_run `{Cognito} ids rows details env n w :
  exists w', run (report_orphans ids rows details) env n w = (w', Ok (missing ids rows, missing rows ids)) /\
    same_tables w w'.
Proof.
  unfold report_orphans. cbn [run].
  destruct (missing ids rows) as [|i1 l1], (missing rows ids) as [|i2 l2]; cbn [emit_unless_nil run];
    eexists; (split; [reflexivity|done]).
Qed.

(** @@ ([runReconciler]): with enough steps for the number of entries, the
    reconciler ends and reports, each once, exactly the app clients without a
    configuration row and the rows without an app client, whatever the page
    sizes of the services; it changes neither. *)
Theorem runReconciler_exact `{Cognito} (ms : nat -> Z) (w : World) (fuel : nat) :
  pool w !! "" = None ->
  (length (map_to_list (pool w)) < fuel)%nat -> (length (map_to_list (config w)) < fuel)%nat ->
  exists w' clients rows, run (runReconciler fuel) (delivered ms) 0 w = (w', Ok (clients, rows)) /\
    same_tables w w' /\ NoDup clients /\ NoDup rows /\
    (forall id, id <> "" -> (id ∈ clients <-> is_Some (pool w !! id) /\ config w !! id = None)) /\
    (forall id, id <> "" -> (id ∈ rows <-> is_Some (config w !! id) /\ pool w !! id = None)).
Proof.
  intros Hne Hf1 Hf2. unfold runReconciler.
  destruct (list_clients_run ms w Hne fuel [] None [] (fun ids =>
    scan_config fuel None ([], ∅) (fun acc => report_orphans ids acc.1 acc.2)) 0) as (n1 & ->); [done| |].
  { cbn [remaining]. unfold pool_ids. by rewrite length_map. }
  cbn [remaining]. set (ids := add_ids [] (pool_ids w)).
  destruct (scan_config_run ms w fuel [] None ([], ∅) (fun acc => report_orphans ids acc.1 acc.2) n1)
    as (n2 & ->); [done|done|].
  cbn [remaining]. set (acc := fold_left add_row (config_rows w) ([], ∅)).
  destruct (report_run ids acc.1 acc.2 (delivered ms) n2 w) as (w' & -> & Hs).
  exists w', (missing ids acc.1), (missing acc.1 ids). split; [done|]. split; [done|].
  assert (acc.1 = add_ids [] (map fst (config_rows w))) as Hacc by (unfold acc; by rewrite add_row_ids).
  destruct (add_ids_spec (pool_ids w) []) as [Hn1 He1]; [constructor|].
  destruct (add_ids_spec (map fst (config_rows w)) []) as [Hn2 He2]; [constructor|].
  fold ids in Hn1, He1. rewrite <- Hacc in Hn2, He2.
  unfold missing. split; [by apply NoDup_ListNoDup, List.NoDup_filter, NoDup_ListNoDup|].
  split; [by apply NoDup_ListNoDup, List.NoDup_filter, NoDup_ListNoDup|].
  fold (missing ids acc.1) (missing acc.1 ids).
  unfold pool_ids, config_rows in *.
  split; intros id Hid; rewrite elem_of_missing, He1, He2, !elem_of_map_keys, eq_None_not_Some; set_solver.
Qed.

Lemma runReconciler_exact_witness :
  let row t := {| row_subdomain := "acme"; row_tenantId := t; row_siteBaseUrl := ""; row_domains := ["__EMPTY__"];
                  row_createdAt := ""; row_updatedAt := None |} in
  let w := set_config (set_pool empty_world {[ "a" := app_client "x" acme; "b" := app_client "x" acme ]})
             {[ "b" := row "t1"; "c" := row "t2" ]} in
  exists w' rows, run (runReconciler 5) (delivered (fun _ => 0)) 0 w = (w', Ok (["a"], rows)) /\
    "c" ∈ rows.
Proof.
  intros row w.
  destruct (runReconciler_exact (H := fresh_ids) (fun _ => 0) w 5) as (w' & clients & rows & E & _ & _ & _ & _ & Hr);
    [reflexivity|vm_compute; lia|vm_compute; lia|].
  assert (clients = ["a"]) as ->.
  { apply (f_equal snd) in E. cbn [snd] in E. vm_compute in E. congruence. }
  exists w', rows. split; [exact E|]. apply Hr; [discriminate|]. split; [vm_compute; by eexists|reflexivity].
Defined.

(** ** Lemmas: update, then get *)

Lemma query_unique (m : gmap string ConfigRow) tid i row :
  m !! i = Some row -> row_tenantId row = tid ->
  (forall j r, m !! j = Some r -> row_tenantId r = tid -> j = i) ->
  head (filter (fun kv => row_tenantId kv.2 = tid) (map_to_list m)) = Some (i, row).
Proof.
  intros Hi Ht Hu. pose proof (query_head m tid) as Hq. destruct (head _) as [[j r]|].
  - destruct Hq as [Hj Hr]. assert (j = i) as -> by by eapply Hu. congruence.
  - by destruct (Hq i row).
Qed.

(** @@ ([updateTenant], [getTenant]): an update followed by a read of the
    tenant returns the new list of domains (the empty one included, through
    the sentinel), the time of the update, and every other field as it was;
    no other row, no client and no reservation changes. *)
Theorem update_then_get `{Cognito} (req : UpdateTenantRequest) (ms : nat -> Z) (w : World) (id : string)
    (row : ConfigRow) (t : string) :
  config w !! id = Some row -> row_tenantId row = upd_tenantId req ->
  (forall j r, config w !! j = Some r -> row_tenantId r = upd_tenantId req -> j = id) ->
  isTenantSubdomain (row_subdomain row) = true -> isTenantId (row_tenantId row) = true ->
  upd_allowedEmailDomains req <> [EMPTY_SENTINEL] -> toISOString (ms 1%nat) = Some t ->
  exists w', run (updateTenant req) (delivered ms) 0 w = (w', Ok (upd_tenantId req, t)) /\
    pool w' = pool w /\ reservations w' = reservations w /\
    (forall j, j <> id -> config w' !! j = config w !! j) /\
    snd (run (getTenant (upd_tenantId req)) (delivered ms) 0 w')
    = Ok {| clientId := id; cfg_subdomain := row_subdomain row; cfg_tenantId := row_tenantId row;
            cfg_siteBaseUrl := row_siteBaseUrl row; cfg_allowedEmailDomains := upd_allowedEmailDomains req;
            cfg_createdAt := row_createdAt row; cfg_updatedAt := Some t |}.
Proof.
  intros Hi Ht Hu Hsub Htid Hds Hiso. unfold updateTenant, call, iso_now.
  cbn [run delivered deliver perform admin_service lost effect fst snd]. rewrite (query_unique _ _ _ _ Hi Ht Hu).
  cbn [run delivered fst snd]. rewrite Hiso. cbn [run delivered deliver perform admin_service lost effect fst snd]. rewrite Hi.
  cbn [run]. eexists. split; [reflexivity|]. split; [done|]. split; [done|].
  split; [intros j Hj; cbn; by rewrite lookup_insert_ne|].
  unfold getTenant, call. cbn [run delivered deliver perform admin_service lost effect fst snd config record_event emit_event set_config].
  set (row' := {| row_subdomain := row_subdomain row |}).
  rewrite (query_unique _ _ id row'); [|by rewrite lookup_insert_eq|done|].
  - unfold to_row, Tenant.tenantSubdomain, Tenant.tenantId. cbn [fst snd row' row_subdomain row_tenantId].
    unfold isTenantSubdomain in Hsub. unfold isTenantId in Htid.
    destruct (validateTenantSubdomainShape _); [done|]. destruct (validateTenantIdShape _); [done|].
    cbn. do 2 f_equal. unfold encode_domains, decode_domains.
    destruct (upd_allowedEmailDomains req) as [|d [|]]; [done| |done].
    destruct (String.eqb_spec d EMPTY_SENTINEL) as [->|]; done.
  - intros j r Hj Hr. destruct (decide (j = id)) as [|Hne]; [done|].
    rewrite lookup_insert_ne in Hj by done. by eapply Hu.
Qed.

Lemma update_then_get_witness :
  let row := {| row_subdomain := "acme"; row_tenantId := "t1"; row_siteBaseUrl := "https://acme.example.com";
                row_domains := ["acme.com"]; row_createdAt := "x"; row_updatedAt := None |} in
  let w := set_config empty_world {[ "b" := row ]} in
  let req := {| upd_tenantId := "t1"; upd_allowedEmailDomains := [] |} in
  exists w', fst (run (updateTenant req) (delivered (fun _ => 0)) 0 w) = w' /\
    result_map cfg_allowedEmailDomains (snd (run (getTenant "t1") (delivered (fun _ => 0)) 0 w')) = Ok [].
Proof.
  intros row w req.
  destruct (update_then_get (H := fresh_ids) req (fun _ => 0) w "b" row "1970-01-01T00:00:00.000Z")
    as (w' & E & _ & _ & _ & Hg); try reflexivity; try discriminate.
  - intros j r Hj _. unfold w in Hj. cbn [config set_config] in Hj.
    apply lookup_singleton_Some in Hj as [<- _]. reflexivity.
  - exists w'. rewrite E. split; [reflexivity|]. unfold req in Hg. cbn [upd_tenantId] in Hg. rewrite Hg. reflexivity.
Defined.
