(* ===== verification/TenantTriggers.v ===== *)
(** The triggers and endpoints of the shared distribution:
    [packages/vestibulum/src/lambda/shared-distribution/shared/client-config-loader.ts],
    [shared/wrap-pre-token-handler.ts] and
    [shared-distribution/triggers/*.ts].

    They run on the world of the mailed-link triggers ([SignIn.World]) with
    the table of client configurations beside it. A container handles one
    event at a time; its memory, the two promise caches of the loader (as the
    maps [TtlCache.awaited_refines] shows them to be) and the HMAC key, is
    passed in and returned, also when the handler throws. Cognito's answers
    are an interface; random values are arguments. *)

From stdpp Require Import pretty.
From S2P Require Import Prelude JsString Json Prog SignIn MagicLink PreSignup AuthEndpoints Tenant TtlCache TenantHost.
From S2P Require TenantAdmin.
From Stdlib Require Import Ascii.

#[local] Open Scope string_scope.
#[local] Open Scope Z_scope.
#[local] Open Scope prog_scope.

(** ** The commands *)

(** An item of the ClientConfig table, beside its key [clientId]. *)
Record ConfigItem := {
  i_subdomain : option string;
  i_tenantId : option string;
  i_siteBaseUrl : option string;
  i_allowedEmailDomains : option (list string);
  i_createdAt : option string;
  i_updatedAt : option string
}.

Inductive token_cmd :=
| RespondToChallenge (clientId session username answer : string)
| GetTokensFromRefreshToken (clientId refreshToken : string).

(** [GetItem], [Query] on [SubdomainIndex] with [Limit: 1], and Cognito. *)
Inductive tcmd : Type -> Type :=
| Inner {X} (c : cmd X) : tcmd X
| GetConfig (clientId : string) : tcmd (option ConfigItem)
| QuerySubdomain (subdomain : string) : tcmd (option (string * ConfigItem))
| Tokens (c : token_cmd) : tcmd AuthOutput.

Inductive trigger_error :=
| SigninError (e : signin_error)
| InvalidRow (e : shape_failure)
| AuthChallengeFailed
| TenantConfigurationMissing
| OverwritesTenantId
| SuppressesTenantId
| InnerHandler (message : string).

Inductive trigger_event :=
| Traced (e : event)
| LogTenantParentNotSet
| LogLoadError
| LogTokenError.

#[global] Notation tprog := (Prog.prog tcmd cmd_error trigger_error trigger_event).

Class TenantAuth (C : Type) := {
  token_step : C -> World -> token_cmd -> C * World * result cmd_error AuthOutput
}.

Record TenantSite (C : Type) := {
  t_pool : C;
  t_base : World;
  t_config : gmap string ConfigItem;
  t_log : list trigger_event
}.
Arguments t_pool {C} t.
Arguments t_base {C} t.
Arguments t_config {C} t.
Arguments t_log {C} t.

Section service.
Context {C : Type} `{TenantAuth C}.

Definition with_base (s : TenantSite C) (w : World) : TenantSite C :=
  {| t_pool := t_pool s; t_base := w; t_config := t_config s; t_log := t_log s |}.

(** The items of the index, in some order. *)
Definition indexed (table : gmap string ConfigItem) (subdomain : string) : list (string * ConfigItem) :=
  List.filter (fun kv => bool_decide (i_subdomain kv.2 = Some subdomain)) (map_to_list table).

Definition tenant_effect {X} (s : TenantSite C) (c : tcmd X) : TenantSite C * result cmd_error X :=
  match c in tcmd X return TenantSite C * result cmd_error X with
  | Inner c => let '(w', r) := effect (t_base s) c in (with_base s w', r)
  | GetConfig clientId => (s, Ok (t_config s !! clientId))
  | QuerySubdomain subdomain => (s, Ok (head (indexed (t_config s) subdomain)))
  | Tokens c =>
      let '(p', w', r) := token_step (t_pool s) (t_base s) c in
      ({| t_pool := p'; t_base := w'; t_config := t_config s; t_log := t_log s |}, r)
  end.

#[export] Instance tenant_service : Service (TenantSite C) tcmd cmd_error trigger_event :=
  {| perform X s c := tenant_effect s c; lost := Unavailable;
     record_event s e :=
       match e with
       | Traced e => with_base s (emit_event (t_base s) e)
       | _ => {| t_pool := t_pool s; t_base := t_base s; t_config := t_config s; t_log := (t_log s ++ [e])%list |}
       end |}.
End service.

(** A program of the mailed-link world in this one. *)
Fixpoint inner {A} (p : prog A) : tprog A :=
  match p with
  | Ret a => Ret a
  | Raise e => Raise (SigninError e)
  | Now k => Now (fun t => inner (k t))
  | Emit e p => Emit (Traced e) (inner p)
  | Send c k => Send (Inner c) (fun r => inner (k r))
  end.

Definition tsend {X} (c : tcmd X) : tprog X :=
  Send c (fun r => match r with Ok x => Ret x | Throw e => Raise (SigninError (ServiceError e)) end).

(** ** client-config-loader.ts *)

Record ClientConfigRow := {
  clientId : string;
  subdomain : string;
  tenantId : string;
  siteBaseUrl : string;
  allowedEmailDomains : list string;
  createdAt : string;
  updatedAt : option string
}.

Definition parseRow (id : string) (item : ConfigItem) : result trigger_error ClientConfigRow :=
  match tenantSubdomain (default "" (i_subdomain item)) with
  | Throw e => Throw (InvalidRow e)
  | Ok sub =>
      match Tenant.tenantId (default "" (i_tenantId item)) with
      | Throw e => Throw (InvalidRow e)
      | Ok tid =>
          Ok {| clientId := id; subdomain := sub; tenantId := tid;
                siteBaseUrl := default "" (i_siteBaseUrl item);
                allowedEmailDomains := default [] (i_allowedEmailDomains item);
                createdAt := default "" (i_createdAt item); updatedAt := i_updatedAt item |}
      end
  end.

Definition CACHE_TTL_MS : Z := 5 * 60 * 1000.

#[global] Notation row_memo := (gmap string (option ClientConfigRow * Z)).

(** The container's memory. *)
Record Container := { byClientId : row_memo; bySubdomain : row_memo; hmac_key : key_cache }.

Definition cold : Container := {| byClientId := ∅; bySubdomain := ∅; hmac_key := None |}.

(** [await cache.getOrLoad(key, loader)], then the rest with the cache. *)
Definition getOrLoad {B} (m : row_memo) (key : string) (loader : tprog (option ClientConfigRow))
    (k : row_memo -> result trigger_error (option ClientConfigRow) -> tprog B) : tprog B :=
  Now (fun now =>
    match recall m key now with
    | Some v => k m (Ok v)
    | None => attempt loader (fun r => k (remember CACHE_TTL_MS m key now r) r)
    end).

Definition parsed (id : string) (item : ConfigItem) : tprog (option ClientConfigRow) :=
  match parseRow id item with Ok row => Ret (Some row) | Throw e => Raise e end.

Definition load_by_client_id (id : string) : tprog (option ClientConfigRow) :=
  let! item := tsend (GetConfig id) in
  match item with None => Ret None | Some i => parsed id i end.

Definition load_by_subdomain (sub : string) : tprog (option ClientConfigRow) :=
  let! found := tsend (QuerySubdomain sub) in
  match found with None => Ret None | Some (id, i) => parsed id i end.

(** What an invocation leaves behind and answers. *)
Definition invocation (A : Type) : Type := tprog (Container * result trigger_error A).

Definition finish {A} (c : Container) (p : tprog A) : invocation A := attempt p (fun r => Ret (c, r)).

Definition loadClientConfigByClientId {A} (c : Container) (id : string)
    (k : Container -> result trigger_error (option ClientConfigRow) -> invocation A) : invocation A :=
  getOrLoad (byClientId c) id (load_by_client_id id) (fun m r =>
    k {| byClientId := m; bySubdomain := bySubdomain c; hmac_key := hmac_key c |} r).

Definition loadClientConfigBySubdomain {A} (c : Container) (sub : string)
    (k : Container -> result trigger_error (option ClientConfigRow) -> invocation A) : invocation A :=
  getOrLoad (bySubdomain c) sub (load_by_subdomain sub) (fun m r =>
    k {| byClientId := byClientId c; bySubdomain := m; hmac_key := hmac_key c |} r).

(** ** triggers/pre-signup.ts *)

Record SharedPreSignUpEvent := { su_clientId : string; su_email : option string }.

(** The body after the row was loaded. *)
Definition admit_signup (cfg : option ClientConfigRow) (rawEmail : option string) : result trigger_error unit :=
  match cfg with
  | None => Throw (SigninError SignupNotAllowed)
  | Some cfg =>
      let email := match rawEmail with Some r => trim (toLowerCase r) | None => "" end in
      if String.eqb email "" then Throw (SigninError SignupNotAllowed)
      else
        let domain := match lastIndexOf "@" email with Some at_ => str_drop (S at_) email | None => "" end in
        if String.eqb domain "" || negb (existsb (String.eqb domain) (allowedEmailDomains cfg))
        then Throw (SigninError SignupNotAllowed) else Ok tt
  end.

Definition sharedPreSignUp (c : Container) (ev : SharedPreSignUpEvent) : invocation unit :=
  loadClientConfigByClientId c (su_clientId ev) (fun c' r =>
    Ret (c', match r with Throw e => Throw e | Ok cfg => admit_signup cfg (su_email ev) end)).

(** ** wrap-pre-token-handler.ts *)

Record ClaimsOverrideDetails := {
  claimsToAddOrOverride : option (gmap string string);
  claimsToSuppress : option (list string)
}.

(** [response] is [None] when absent or null; so are its details. *)
Record PreTokenEvent := { pt_clientId : string; pt_response : option (option ClaimsOverrideDetails) }.

Definition TENANT_CLAIM := "custom:tenant_id".

Definition inject_tenant (ev : PreTokenEvent) (tid : string) : PreTokenEvent :=
  let details := default {| claimsToAddOrOverride := None; claimsToSuppress := None |}
                   (default None (pt_response ev)) in
  {| pt_clientId := pt_clientId ev;
     pt_response := Some (Some {| claimsToAddOrOverride := Some (<[TENANT_CLAIM := tid]> (default ∅ (claimsToAddOrOverride details)));
                                  claimsToSuppress := claimsToSuppress details |}) |}.

Definition final_details (ev : PreTokenEvent) : option ClaimsOverrideDetails := default None (pt_response ev).

(** Steps 4 and 5. *)
Definition check_result (tid : string) (result_ : PreTokenEvent) : result trigger_error PreTokenEvent :=
  let finalTenantId := (final_details result_ ≫= claimsToAddOrOverride) ≫= (fun m : gmap string string => m !! TENANT_CLAIM) in
  if negb (bool_decide (finalTenantId = Some tid)) then Throw OverwritesTenantId
  else
    match final_details result_ ≫= claimsToSuppress with
    | Some suppressed => if existsb (String.eqb TENANT_CLAIM) suppressed then Throw SuppressesTenantId else Ok result_
    | None => Ok result_
    end.

(** The consumer's handler: an event, or the message of what it throws. *)
Definition inner_handler := PreTokenEvent -> ClientConfigRow -> result string PreTokenEvent.

Definition wrapPreTokenHandler (inner : inner_handler) (c : Container) (ev : PreTokenEvent) : invocation PreTokenEvent :=
  loadClientConfigByClientId c (pt_clientId ev) (fun c' r =>
    Ret (c',
      match r with
      | Throw e => Throw e
      | Ok None => Throw TenantConfigurationMissing
      | Ok (Some cfg) =>
          match inner (inject_tenant ev (tenantId cfg)) cfg with
          | Throw m => Throw (InnerHandler m)
          | Ok result_ => check_result (tenantId cfg) result_
          end
      end)).

(** ** triggers/pre-token-generation.ts *)

Definition preTokenGeneration : Container -> PreTokenEvent -> invocation PreTokenEvent :=
  wrapPreTokenHandler (fun ev _ => Ok ev).

(** ** triggers/create-auth-challenge.ts *)

Record SharedCreateEvent := { sc_clientId : string; sc_userAttributes : list (string * option string) }.

(** [publicChallengeParameters.email] and [privateChallengeParameters]. *)
Record SharedCreateResponse := { sr_email : string; sr_token_hash : string; sr_quarantined : string }.

Definition shared_textBody (link : string) (ttl : Z) : string :=
  join NL
    ["Sign in by opening this link in the same browser you started in."; ""; link; "";
     "This link expires in " +:+ pretty ttl +:+ " minutes and can be used only once.";
     "If you did not request this, you can ignore this message."].

Definition shared_htmlBody (link : string) (ttl : Z) : string :=
  join NL
    ["<!doctype html>";
     "<html><body style=" +:+ DQ +:+ "font-family: system-ui, sans-serif;" +:+ DQ +:+ ">";
     "<p>Sign in by opening this link in the same browser you started in.</p>";
     "<p><a href=" +:+ DQ +:+ link +:+ DQ +:+ ">" +:+ link +:+ "</a></p>";
     "<p>This link expires in " +:+ pretty ttl +:+ " minutes and can be used only once.</p>";
     "<p>If you did not request this, you can ignore this message.</p>";
     "</body></html>"].

Definition buildMagicLinkEmailCommand (fromAddress toAddress link : string) (ttlMinutes : Z) : Mail :=
  {| Source := fromAddress; ConfigurationSetName := None; ToAddress := toAddress; Subject := "Your sign-in link";
     TextBody := shared_textBody link ttlMinutes; HtmlBody := shared_htmlBody link ttlMinutes |}.

Definition tenant_link (cfg : ClientConfigRow) (token : string) : string :=
  siteBaseUrl cfg +:+ "/login/callback#token=" +:+ token.

Definition failClosedChallenge (email : string) : SharedCreateResponse :=
  {| sr_email := email; sr_token_hash := "denied"; sr_quarantined := "true" |}.

Section triggers.
Context `{Digests} (env : process_env).

Definition requiredEnv (name : string) : result trigger_error string :=
  match env name with
  | Some v => if String.eqb v "" then Throw (SigninError AuthenticationFailed) else Ok v
  | None => Throw (SigninError AuthenticationFailed)
  end.

(** [Number.parseInt(process.env[name] ?? fallback, 10)]; [None] is [NaN]. *)
Definition env_integer (name : string) (fallback : Z) : option Z :=
  match env name with Some raw => parseInt10 raw | None => Some fallback end.

(** Storing the hash and mailing the link; [NaN] is no number for DynamoDB. *)
Definition issue_tenant_link (cfg : ClientConfigRow) (fromAddress email hmacKey token : string) (nowMs : Z)
    (ttlMinutes : option Z) : tprog SharedCreateResponse :=
  match ttlMinutes with
  | None => Raise (SigninError (ServiceError ValidationException))
  | Some ttl =>
      let hash := sha256Hex token in
      let! _ := tsend (Inner (PutToken hash
                  {| row_code_hash := None;
                     row_email_hmac := Some (if String.eqb hmacKey "" then "" else hmacEmail email hmacKey);
                     row_created_at := Some (nowMs / 1000);
                     row_expires_at := Some (nowMs / 1000 + ttl * 60) |})) in
      let! _ := tsend (Inner (SendEmail (buildMagicLinkEmailCommand fromAddress email (tenant_link cfg token) ttl))) in
      Ret {| sr_email := email; sr_token_hash := hash; sr_quarantined := "false" |}
  end.

(** The denylist's answer, with an unavailable denylist as [None]. *)
Definition denylist_answer (email hmacKey : string) : tprog (option bool) :=
  attempt (inner (isDenylisted (env_value env RuntimeEnv.DENYLIST_TABLE_NAME) email hmacKey)) (fun r =>
    match r with
    | Ok b => Ret (Some b)
    | Throw (SigninError DenylistUnavailableError) => Ret None
    | Throw e => Raise e
    end).

Definition tenant_challenge (cfg : ClientConfigRow) (fromAddress email hmacKey token : string) (nowMs : Z)
    (ttlMinutes sendsPerWindow : option Z) : tprog SharedCreateResponse :=
  let! denied := denylist_answer email hmacKey in
  match denied with
  | None | Some true => Ret (failClosedChallenge email)
  | Some false =>
      let! allowed := inner (tryConsumeRateLimit email hmacKey sendsPerWindow nowMs) in
      if negb allowed then Ret (failClosedChallenge email)
      else issue_tenant_link cfg fromAddress email hmacKey token nowMs ttlMinutes
  end.

(** The required variables, in the order they are read. *)
Definition challenge_config : result trigger_error string :=
  (let* _ := requiredEnv RuntimeEnv.TOKEN_TABLE_NAME in
   let* _ := requiredEnv RuntimeEnv.RATE_LIMIT_TABLE_NAME in
   requiredEnv RuntimeEnv.SES_FROM)%js.

Definition with_key (c : Container) (cache : key_cache) : Container :=
  {| byClientId := byClientId c; bySubdomain := bySubdomain c; hmac_key := cache |}.

Definition sharedCreateAuthChallenge (token : string) (c : Container) (ev : SharedCreateEvent) :
    invocation SharedCreateResponse :=
  loadClientConfigByClientId c (sc_clientId ev) (fun c' r =>
    match r with
    | Throw e => Ret (c', Throw e)
    | Ok None => Ret (c', Throw AuthChallengeFailed)
    | Ok (Some cfg) =>
        let email := default "" (attr (sc_userAttributes ev) "email") in
        if String.eqb email "" then Ret (c', Throw (SigninError AuthenticationFailed))
        else
          match challenge_config with
          | Throw e => Ret (c', Throw e)
          | Ok fromAddress =>
              Now (fun nowMs =>
                attempt (inner (resolveEmailHmacKeyFromEnv env (hmac_key c'))) (fun r =>
                  match r with
                  | Throw e => Ret (c', Throw e)
                  | Ok (cache', hmacKey) =>
                      finish (with_key c' cache')
                        (tenant_challenge cfg fromAddress email hmacKey token nowMs
                           (env_integer RuntimeEnv.TOKEN_TTL_MINUTES 15)
                           (env_integer RuntimeEnv.TOKEN_SENDS_PER_WINDOW DEFAULT_SENDS_PER_WINDOW))
                  end))
          end
    end).
End triggers.

(** ** triggers/auth-verify.ts *)

Definition ID_TOKEN_MAX_AGE : Z := 15 * 60.
Definition REFRESH_TOKEN_MAX_AGE : Z := 30 * 24 * 60 * 60.

Definition json_response (code : Z) (cookies : list string) (v : JsonObject) : HttpResult :=
  {| statusCode := code; r_headers := [("Content-Type", "application/json")]; r_cookies := cookies;
     r_body := Some (stringify (VObject v)) |}.

Definition errorResponse (code : Z) (message : string) : HttpResult :=
  json_response code [] [("error", VString message)].

Definition authFailed : HttpResult := errorResponse 401 "Authentication failed".

(** The cookies for the tenant's host. *)
Definition tenant_cookies (domain idToken : string) (refreshToken : option string) : result trigger_error (list string) :=
  let lift r := match r with Ok x => Ok x | Throw e => Throw (SigninError e) end in
  (let* idCookie := lift (buildSetCookie "id-token" idToken
       {| c_sameSite := "Lax"; c_path := "/"; c_domain := domain; c_maxAge := ID_TOKEN_MAX_AGE |}) in
   match refreshToken with
   | None => Ok [idCookie]
   | Some t =>
       if String.eqb t "" then Ok [idCookie]
       else let* refreshCookie := lift (buildSetCookie "refresh-token" t
                {| c_sameSite := "Strict"; c_path := "/auth-verify"; c_domain := domain;
                   c_maxAge := REFRESH_TOKEN_MAX_AGE |}) in
            Ok [idCookie; refreshCookie]
   end)%js.

(** From Cognito's answer to the response. *)
Definition session_response (domain : string) (out : AuthOutput) : tprog HttpResult :=
  match IdToken out with
  | None => Ret authFailed
  | Some idToken =>
      if String.eqb idToken "" then Ret authFailed
      else match tenant_cookies domain idToken (RefreshToken out) with
           | Throw e => Raise e
           | Ok cookies => Ret (json_response 200 cookies [("ok", VBool true)])
           end
  end.

Definition exchange (domain : string) (c : token_cmd) : tprog HttpResult :=
  Send (Tokens c) (fun r =>
    match r with
    | Throw _ => Emit LogTokenError (Ret authFailed)
    | Ok out => session_response domain out
    end).

(** [JSON.parse(event.body)]: [None] is a syntax error, [Some None] no body. *)
Definition parsed_body (body : option string) : option (option JsonValue) :=
  match body with
  | None => Some None
  | Some b => if String.eqb b "" then Some None
              else match JSON_parse b with None => None | Some v => Some (Some v) end
  end.

Definition body_field (v : JsonValue) (name : string) : option JsonValue :=
  match v with VObject o => find_key name o | _ => None end.

Definition redeem_or_refresh (domain : string) (cfg : ClientConfigRow) (ev : HttpEvent) : tprog HttpResult :=
  let cookies := parseCookies (header ev "cookie") in
  match parsed_body (body ev) with
  | None => Ret authFailed
  | Some None | Some (Some VNull) => Ret authFailed
  | Some (Some v) =>
      match body_field v "refresh" with
      | Some (VBool true) =>
          match cookies !! "refresh-token" with
          | None => Ret authFailed
          | Some t => if String.eqb t "" then Ret authFailed
                      else exchange domain (GetTokensFromRefreshToken (clientId cfg) t)
          end
      | _ =>
          match body_field v "session", body_field v "challengeAnswer", body_field v "email" with
          | Some (VString session), Some (VString challengeAnswer), Some (VString email) =>
              exchange domain (RespondToChallenge (clientId cfg) session email challengeAnswer)
          | _, _, _ => Ret authFailed
          end
      end
  end.

(** The tenant of the request, then the rest with its row. *)
Definition with_tenant (tenantParent : option string) (unconfigured invalid notFound : HttpResult)
    (c : Container) (ev : HttpEvent) (k : string -> ClientConfigRow -> tprog HttpResult) : invocation HttpResult :=
  let parent := default "" tenantParent in
  if String.eqb parent "" then Emit LogTenantParentNotSet (Ret (c, Ok unconfigured))
  else
    match extractTenantSubdomain (header ev "host") parent DEFAULT_TENANT_PATTERN with
    | None => Ret (c, Ok invalid)
    | Some sub =>
        loadClientConfigBySubdomain c sub (fun c' r =>
          match r with
          | Throw e => Emit LogLoadError (Ret (c', Throw e))
          | Ok None => Ret (c', Ok notFound)
          | Ok (Some cfg) => finish c' (k (sub +:+ "." +:+ parent) cfg)
          end)
    end.

Definition sharedAuthVerify (tenantParent : option string) (c : Container) (ev : HttpEvent) : invocation HttpResult :=
  with_tenant tenantParent (errorResponse 500 "Internal configuration error") (errorResponse 400 "invalid host")
    (errorResponse 404 "tenant not found") c ev (fun domain cfg => redeem_or_refresh domain cfg ev).

(** ** triggers/auth-signout.ts *)

(** Without the content type. *)
Definition bare (code : Z) (error : option string) : HttpResult :=
  {| statusCode := code; r_headers := []; r_cookies := [];
     r_body := match error with Some m => Some (stringify (VObject [("error", VString m)])) | None => None end |}.

Definition clear_cookies (exactDomain : string) : result trigger_error (list string) :=
  match buildClearCookieHeaders exactDomain with Ok cs => Ok cs | Throw e => Throw (SigninError e) end.

Definition sharedAuthSignout (tenantParent : option string) (c : Container) (ev : HttpEvent) : invocation HttpResult :=
  with_tenant tenantParent (bare 500 None) (bare 400 (Some "invalid host")) (bare 404 (Some "tenant not found")) c ev
    (fun exactDomain cfg =>
      match clear_cookies exactDomain with
      | Throw e => Raise e
      | Ok cookies => Ret {| statusCode := 303; r_headers := [("location", siteBaseUrl cfg +:+ "/")];
                             r_cookies := cookies; r_body := None |}
      end).

(** ** Loading *)

(** What the table gives for a client, or for a subdomain. *)
Definition row_of (table : gmap string ConfigItem) (id : string) : result trigger_error (option ClientConfigRow) :=
  match table !! id with
  | None => Ok None
  | Some item => match parseRow id item with Ok row => Ok (Some row) | Throw e => Throw e end
  end.

Definition row_at (table : gmap string ConfigItem) (sub : string) : result trigger_error (option ClientConfigRow) :=
  match head (indexed table sub) with
  | None => Ok None
  | Some (id, item) => match parseRow id item with Ok row => Ok (Some row) | Throw e => Throw e end
  end.

(** What a cached load at [now] can give: the cached value, or what the table
    gives, or the service's error. *)
Definition loaded (m : row_memo) (table_row : result trigger_error (option ClientConfigRow)) (key : string) (now : Z)
    (m' : row_memo) (r : result trigger_error (option ClientConfigRow)) : Prop :=
  match recall m key now with
  | Some v => m' = m /\ r = Ok v
  | None => m' = remember CACHE_TTL_MS m key now r /\
            (r = table_row \/ r = Throw (SigninError (ServiceError Unavailable)))
  end.

Section runs.
Context {C : Type} `{TenantAuth C} (T : Z -> Prop) (D : delivery -> Prop).

Lemma wp_parsed id item (s : TenantSite C) Q :
  Q s (match parseRow id item with Ok row => Ok (Some row) | Throw e => Throw e end) ->
  wp T D (parsed id item) s Q.
Proof. unfold parsed. by destruct (parseRow id item). Qed.

Lemma wp_load_by_client_id id (s : TenantSite C) :
  wp T D (load_by_client_id id) s (fun s' r => s' = s /\
    (r = row_of (t_config s) id \/ r = Throw (SigninError (ServiceError Unavailable)))).
Proof.
  unfold load_by_client_id, row_of. apply wp_await. cbn.
  intros [] _; cbn; [|by auto..]. destruct (t_config s !! id); [|by split; auto]. apply wp_parsed. auto.
Qed.

Lemma wp_load_by_subdomain sub (s : TenantSite C) :
  wp T D (load_by_subdomain sub) s (fun s' r => s' = s /\
    (r = row_at (t_config s) sub \/ r = Throw (SigninError (ServiceError Unavailable)))).
Proof.
  unfold load_by_subdomain, row_at. apply wp_await. cbn.
  intros [] _; cbn; [|by auto..]. destruct (indexed (t_config s) sub) as [|[id i] l]; [by split; auto|].
  apply wp_parsed. auto.
Qed.

Lemma wp_getOrLoad {B} (m : row_memo) key loader table_row
    (k : row_memo -> result trigger_error (option ClientConfigRow) -> tprog B) (s : TenantSite C) Q :
  wp T D loader s (fun s' r => s' = s /\ (r = table_row \/ r = Throw (SigninError (ServiceError Unavailable)))) ->
  (forall now m' r, T now -> loaded m table_row key now m' r -> wp T D (k m' r) s Q) ->
  wp T D (getOrLoad m key loader k) s Q.
Proof.
  intros Hl Hk. unfold getOrLoad. intros now Hnow. cbn beta. unfold loaded in Hk.
  specialize (Hk now). destruct (recall m key now) as [v|]; [by apply Hk|].
  apply wp_attempt. revert Hl. apply wp_weaken. intros s' r [-> Hr]. by apply Hk.
Qed.

Lemma wp_by_client_id {A} (c : Container) id (k : Container -> _ -> invocation A) (s : TenantSite C) Q :
  (forall now m' r, T now -> loaded (byClientId c) (row_of (t_config s) id) id now m' r ->
     wp T D (k {| byClientId := m'; bySubdomain := bySubdomain c; hmac_key := hmac_key c |} r) s Q) ->
  wp T D (loadClientConfigByClientId c id k) s Q.
Proof. intros Hk. eapply wp_getOrLoad; [apply wp_load_by_client_id|done]. Qed.

Lemma wp_by_subdomain {A} (c : Container) sub (k : Container -> _ -> invocation A) (s : TenantSite C) Q :
  (forall now m' r, T now -> loaded (bySubdomain c) (row_at (t_config s) sub) sub now m' r ->
     wp T D (k {| byClientId := byClientId c; bySubdomain := m'; hmac_key := hmac_key c |} r) s Q) ->
  wp T D (loadClientConfigBySubdomain c sub k) s Q.
Proof. intros Hk. eapply wp_getOrLoad; [apply wp_load_by_subdomain|done]. Qed.
End runs.

(** A client that had no row is cached as absent, like a row. *)
Lemma absent_row_cached m id now m' t :
  recall m id now = None -> loaded m (Ok None) id now m' (Ok None) ->
  now <= t < now + CACHE_TTL_MS -> recall m' id t = Some None.
Proof.
  intros Hr Hl Ht. unfold loaded in Hl. rewrite Hr in Hl. destruct Hl as [-> _].
  unfold recall, remember. rewrite lookup_insert_eq. by rewrite (proj2 (Z.ltb_lt _ _) (proj2 Ht)).
Qed.

(** ** Tokens carry the tenant of their app client *)

(** A row the loader may answer: cached, or in the table. *)
Definition known (T : Z -> Prop) (m : row_memo) (table_row : result trigger_error (option ClientConfigRow))
    (key : string) (cfg : ClientConfigRow) : Prop :=
  (exists now, T now /\ recall m key now = Some (Some cfg)) \/ table_row = Ok (Some cfg).

Lemma loaded_known (T : Z -> Prop) m table_row key now m' cfg :
  T now -> loaded m table_row key now m' (Ok (Some cfg)) -> known T m table_row key cfg.
Proof.
  unfold loaded, known. intros HT. destruct (recall m key now) as [v|] eqn:Hr.
  - intros [-> [= <-]]. left. eauto.
  - intros [_ [Hr'|]]; [by right|done].
Qed.

Lemma row_error table id e : row_of table id = Throw e -> exists f, e = InvalidRow f.
Proof.
  unfold row_of, parseRow. destruct (table !! id) as [item|]; [|done].
  destruct (tenantSubdomain _); [destruct (Tenant.tenantId _)|]; naive_solver.
Qed.

Lemma loaded_error m table id key now m' e :
  loaded m (row_of table id) key now m' (Throw e) ->
  (exists f, e = InvalidRow f) \/ e = SigninError (ServiceError Unavailable).
Proof.
  unfold loaded. destruct (recall m key now); [by intros [_ ?]|]. intros [_ [He|He]].
  - left. by eapply row_error.
  - right. congruence.
Qed.

(** The claims Cognito mints: the trigger's overrides on its own, then the
    suppressions. *)
Definition minted (own : gmap string string) (ev : PreTokenEvent) : gmap string string :=
  let overrides := default ∅ (final_details ev ≫= claimsToAddOrOverride) in
  let suppressed := default [] (final_details ev ≫= claimsToSuppress) in
  foldr delete (overrides ∪ own) suppressed.

Lemma foldr_delete_lookup (ks : list string) (m : gmap string string) k :
  foldr delete m ks !! k = if existsb (String.eqb k) ks then None else m !! k.
Proof.
  induction ks as [|x ks IH]; cbn; [done|]. destruct (String.eqb_spec k x) as [->|Hne]; cbn.
  - apply lookup_delete_eq.
  - by rewrite lookup_delete_ne.
Qed.

#[local] Arguments String.eqb : simpl never.

(** The wrapper's two assertions are that the minted token has the claim. *)
Lemma check_result_spec tid ev :
  check_result tid ev = Ok ev <-> minted ∅ ev !! TENANT_CLAIM = Some tid.
Proof.
  unfold check_result, minted. rewrite foldr_delete_lookup, (right_id_L ∅ (∪)).
  destruct (final_details ev) as [[over supp]|]; simpl; [|done].
  destruct over as [m|]; simpl; [|by destruct (existsb _ _)].
  case_bool_decide as Hm; simpl.
  - rewrite Hm. destruct supp as [l|]; simpl; [|done]. by destruct (existsb (String.eqb TENANT_CLAIM) l).
  - by destruct (existsb _ _).
Qed.

Lemma minted_own own ev tid :
  minted ∅ ev !! TENANT_CLAIM = Some tid -> minted own ev !! TENANT_CLAIM = Some tid.
Proof.
  unfold minted. rewrite !foldr_delete_lookup. destruct (existsb _ _); [done|].
  rewrite (right_id_L ∅ (∪)). intros Hm. by apply lookup_union_Some_l.
Qed.

Lemma check_result_Ok tid ev ev' : check_result tid ev = Ok ev' -> ev' = ev.
Proof. unfold check_result. repeat case_match; naive_solver. Qed.

Lemma wp_wrapPreTokenHandler {C} `{TenantAuth C} (T : Z -> Prop) (D : delivery -> Prop)
    (inner_ : inner_handler) (c : Container) (ev : PreTokenEvent) (s : TenantSite C) :
  wp T D (wrapPreTokenHandler inner_ c ev) s (fun s' out => s' = s /\ exists c' r, out = Ok (c', r) /\
    match r with
    | Ok ev' => exists cfg, known T (byClientId c) (row_of (t_config s) (pt_clientId ev)) (pt_clientId ev) cfg /\
        inner_ (inject_tenant ev (tenantId cfg)) cfg = Ok ev' /\
        forall own, minted own ev' !! TENANT_CLAIM = Some (tenantId cfg)
    | Throw OverwritesTenantId | Throw SuppressesTenantId =>
        exists cfg ev', known T (byClientId c) (row_of (t_config s) (pt_clientId ev)) (pt_clientId ev) cfg /\
        inner_ (inject_tenant ev (tenantId cfg)) cfg = Ok ev' /\
        minted ∅ ev' !! TENANT_CLAIM <> Some (tenantId cfg)
    | Throw _ => True
    end).
Proof.
  apply wp_by_client_id. intros now m' r Hnow Hr. cbn. split; [done|]. eexists _, _. split; [done|].
  destruct r as [[cfg|]|e]; [| |by destruct (loaded_error _ _ _ _ _ _ _ Hr) as [[f ->]| ->]].
  2:{ done. }
  apply (loaded_known T) in Hr; [|done].
  destruct (inner_ _ cfg) as [ev'|m] eqn:Hi; [|done].
  pose proof (check_result_spec (tenantId cfg) ev') as Hs.
  destruct (check_result (tenantId cfg) ev') as [ev''|e] eqn:Hc.
  - apply check_result_Ok in Hc as ->. exists cfg. split; [done|]. split; [done|].
    intros own. by apply minted_own, Hs.
  - assert (minted ∅ ev' !! TENANT_CLAIM <> Some (tenantId cfg)) by (intros Hm; apply Hs in Hm; done).
    destruct e; by eauto.
Qed.

(** Also (Every token names its client's tenant): whatever the consumer's
    handler does, the wrapped trigger returns an event only if it is the
    handler's, the app client has a row, and the token minted from it, with
    any claims of Cognito's own, names that row's tenant; it throws when the
    client is unknown, when the handler throws, and when the token would not
    name the tenant. *)
Theorem wrap_binds_tenant {C} `{TenantAuth C} (T : Z -> Prop) (D : delivery -> Prop)
    (inner_ : inner_handler) (c : Container) (ev : PreTokenEvent) (s : TenantSite C) :
  wp T D (wrapPreTokenHandler inner_ c ev) s (fun s' out => s' = s /\ exists c' r, out = Ok (c', r) /\
    match r with
    | Ok ev' => exists cfg, known T (byClientId c) (row_of (t_config s) (pt_clientId ev)) (pt_clientId ev) cfg /\
        inner_ (inject_tenant ev (tenantId cfg)) cfg = Ok ev' /\
        forall own, minted own ev' !! TENANT_CLAIM = Some (tenantId cfg)
    | Throw OverwritesTenantId | Throw SuppressesTenantId =>
        exists cfg ev', known T (byClientId c) (row_of (t_config s) (pt_clientId ev)) (pt_clientId ev) cfg /\
        inner_ (inject_tenant ev (tenantId cfg)) cfg = Ok ev' /\
        minted ∅ ev' !! TENANT_CLAIM <> Some (tenantId cfg)
    | Throw _ => True
    end).
Proof. apply wp_wrapPreTokenHandler. Qed.

(** ** Who may sign up *)

Definition not_upper (c : ascii) : bool := negb (in_range "A" "Z" c).

Lemma lower_not_upper s : str_all not_upper (toLowerCase s) = true.
Proof.
  unfold toLowerCase. induction s as [|c s IH]; cbn; [done|]. rewrite IH, andb_true_r.
  assert (all_chars (fun c => not_upper (lower_char c)) = true) as Hall by (vm_compute; reflexivity).
  exact (all_chars_spec _ c Hall).
Qed.

(** The item the administration writes for a row. *)
Definition item_of (row : TenantAdmin.ConfigRow) : ConfigItem :=
  {| i_subdomain := Some (TenantAdmin.row_subdomain row); i_tenantId := Some (TenantAdmin.row_tenantId row);
     i_siteBaseUrl := Some (TenantAdmin.row_siteBaseUrl row);
     i_allowedEmailDomains := Some (TenantAdmin.row_domains row);
     i_createdAt := Some (TenantAdmin.row_createdAt row); i_updatedAt := TenantAdmin.row_updatedAt row |}.

Definition email_of (rawEmail : option string) : string :=
  match rawEmail with Some r => trim (toLowerCase r) | None => "" end.

Definition domain_of (email : string) : string :=
  match lastIndexOf "@" email with Some at_ => str_drop (S at_) email | None => "" end.

Lemma admit_signup_spec cfg raw :
  admit_signup (Some cfg) raw = Ok tt <->
  domain_of (email_of raw) <> "" /\ In (domain_of (email_of raw)) (allowedEmailDomains cfg).
Proof.
  unfold admit_signup. fold (email_of raw). fold (domain_of (email_of raw)).
  destruct (String.eqb_spec (email_of raw) "") as [->|He]; [by split; [|intros []]|].
  destruct (String.eqb_spec (domain_of (email_of raw)) ""); [by split; [|intros []]|]. cbn [orb].
  destruct (existsb _ _) eqn:Hx; cbn [negb].
  - apply existsb_exists in Hx as (x & Hin & Hx%String.eqb_eq). subst x. split; [intros _; by split|done].
  - split; [done|]. intros [_ Hin]. enough (existsb (String.eqb (domain_of (email_of raw))) (allowedEmailDomains cfg) = true) by congruence.
    apply existsb_exists. exists (domain_of (email_of raw)). split; [done|]. by apply String.eqb_eq.
Qed.

Lemma domain_of_lower raw : str_all not_upper (domain_of (email_of raw)) = true.
Proof.
  assert (str_all not_upper (email_of raw) = true) as He.
  { destruct raw as [r|]; [|done]. apply str_all_trim, lower_not_upper. }
  unfold domain_of. destruct (lastIndexOf "@" _); [by apply str_all_drop|done].
Qed.

(** Also (sign-up follows the tenant's list): the trigger admits a sign-up just
    when the app client's row was loaded and the part after the last at sign
    of the lower-cased, trimmed address is not empty and on the row's list,
    and otherwise throws the one generic error or the load's. A row written
    for a tenant without domains admits nobody: the stand-in the
    administration stores for an empty list is no lower-case text. *)
Theorem shared_signup_spec {C} `{TenantAuth C} (T : Z -> Prop) (D : delivery -> Prop)
    (c : Container) (ev : SharedPreSignUpEvent) (s : TenantSite C) :
  wp T D (sharedPreSignUp c ev) s (fun s' out => s' = s /\ exists now c' load r, out = Ok (c', r) /\
    loaded (byClientId c) (row_of (t_config s) (su_clientId ev)) (su_clientId ev) now (byClientId c') load /\
    (r = Ok tt <-> exists cfg, load = Ok (Some cfg) /\
       domain_of (email_of (su_email ev)) <> "" /\ In (domain_of (email_of (su_email ev))) (allowedEmailDomains cfg)) /\
    (r = Ok tt \/ r = Throw (SigninError SignupNotAllowed) \/ exists e, load = Throw e /\ r = Throw e)) /\
  forall row cfg, TenantAdmin.row_domains row = TenantAdmin.encode_domains [] ->
    parseRow (su_clientId ev) (item_of row) = Ok cfg -> admit_signup (Some cfg) (su_email ev) <> Ok tt.
Proof.
  split.
  - apply wp_by_client_id. intros now m' load Hnow Hl. cbn. split; [done|]. eexists now, _, load, _. split; [done|].
    split; [done|]. destruct load as [[cfg|]|e].
    + split; [rewrite admit_signup_spec; naive_solver|].
      unfold admit_signup. cbv zeta. repeat case_match; auto.
    + cbn. split; [naive_solver|by auto].
    + split; [naive_solver|]. eauto.
  - intros row cfg Hd Hp. rewrite admit_signup_spec. intros [_ Hin].
    assert (allowedEmailDomains cfg = TenantAdmin.encode_domains []) as Hc.
    { unfold parseRow, item_of in Hp. cbn [i_subdomain i_tenantId i_allowedEmailDomains] in Hp.
      destruct (tenantSubdomain _); [|done]. destruct (Tenant.tenantId _); [|done]. injection Hp as <-.
      cbn. by rewrite Hd. }
    rewrite Hc in Hin. destruct Hin as [Hin|[]].
    pose proof (domain_of_lower (su_email ev)) as Hlow. by rewrite <- Hin in Hlow.
Qed.

(** ** The mailed link *)

Section create.
Context {C : Type} `{TenantAuth C} `{Digests} (env : process_env).
Context (T : Z -> Prop) (D : delivery -> Prop).

(** What a program does in the mailed-link world, it does here. *)
Lemma wp_inner {A} (p : prog A) (s : TenantSite C) Q :
  wp T D p (t_base s) (fun w' r => Q (with_base s w') (match r with Ok a => Ok a | Throw e => Throw (SigninError e) end)) ->
  wp T D (inner p) s Q.
Proof.
  revert s. induction p as [a|e|k IH|e p IH|X c k IH]; intros s; cbn [wp inner].
  - by destruct s.
  - by destruct s.
  - intros Hk t Ht. by apply IH, Hk.
  - intros Hp. by apply IH.
  - intros Hk dv Hdv. specialize (Hk dv Hdv).
    destruct dv; cbn [deliver perform lost tenant_service tenant_effect signin_service fst snd] in *.
    + destruct (effect (t_base s) c) as [w' r]. cbn [fst snd] in *. by apply IH.
    + by apply IH.
    + destruct (effect (t_base s) c) as [w' r]. cbn [fst snd] in *. by apply IH.
Qed.

(** Commands that neither store tokens nor send mail. *)
Definition quiet X (c : cmd X) : Prop :=
  match c with PutToken _ _ | DeleteToken _ | SendEmail _ => False | _ => True end.

Lemma wp_quiet {A} (p : prog A) (s : TenantSite C) :
  sends quiet p -> wp T D (inner p) s (fun s' _ => t_config s' = t_config s /\
    mails (t_base s') = mails (t_base s) /\ tokens (t_base s') = tokens (t_base s)).
Proof.
  intros Hp. apply wp_inner.
  pose proof (wp_sends quiet T D
    (fun w' : World => mails w' = mails (t_base s) /\ tokens w' = tokens (t_base s)) p (t_base s)) as Hw.
  eapply wp_weaken; [|apply Hw; try done].
  - intros w' r [Hm Ht]. by repeat split.
  - intros X c dv w _ Hq Hi. destruct dv, c; cbn in *; repeat case_match; done.
Qed.

Lemma denylist_answer_quiet t email key : sends quiet (isDenylisted t email key).
Proof. unfold isDenylisted. destruct t; [|done]. split; [done|]. by intros [[]|[]]. Qed.

Lemma rate_limit_quiet email key limit now : sends quiet (tryConsumeRateLimit email key limit now).
Proof. split; [done|]. by intros [[]|[]]. Qed.

Lemma resolve_key_quiet cache : sends quiet (resolveEmailHmacKeyFromEnv env cache).
Proof.
  unfold resolveEmailHmacKeyFromEnv. destruct (env_value env _) as [i|]; [|done].
  assert (sends quiet (await (send (GetSecretValue i)) (fun value =>
    match value with
    | Some v => if String.eqb v "" then Raise EmptySecret else Ret (Some (v, i), v)
    | None => Raise EmptySecret
    end))) as Hf.
  { apply sends_await; [split; [done|by intros []]|]. intros [v|]; [|done]. by destruct (String.eqb v ""). }
  destruct cache as [[k i']|]; [|done]. by destruct (String.eqb i' i).
Qed.

(** Nothing, a stored token, or a stored token and the mail. *)
Definition issued (cfg : ClientConfigRow) (email token : string) (s s' : TenantSite C) : Prop :=
  t_config s' = t_config s /\
  (mails (t_base s') = mails (t_base s) \/
   exists fromAddress ttl,
     mails (t_base s') = (mails (t_base s) ++ [buildMagicLinkEmailCommand fromAddress email (tenant_link cfg token) ttl])%list /\
     tokens (t_base s) !! sha256Hex token = None /\ is_Some (tokens (t_base s') !! sha256Hex token)).

Definition answers (email token : string) (s s' : TenantSite C) (r : result trigger_error SharedCreateResponse) : Prop :=
  match r with
  | Ok resp => resp = failClosedChallenge email /\ mails (t_base s') = mails (t_base s) \/
               sr_email resp = email /\ sr_quarantined resp = "false" /\ sr_token_hash resp = sha256Hex token /\
               mails (t_base s') <> mails (t_base s)
  | Throw _ => True
  end.

Lemma wp_issue_tenant_link cfg fromAddress email key token nowMs ttl (s : TenantSite C) :
  wp T D (issue_tenant_link cfg fromAddress email key token nowMs ttl) s
    (fun s' r => issued cfg email token s s' /\ answers email token s s' r).
Proof.
  unfold issue_tenant_link. destruct ttl as [ttl|]; [|split; [split; [done|by left]|done]].
  apply wp_await. cbn [wp tsend]. intros dv _.
  set (row := {| row_code_hash := None |}).
  destruct dv; cbn [deliver perform lost tenant_service tenant_effect effect fst snd];
    destruct (tokens (t_base s) !! sha256Hex token) as [old|] eqn:Hold; cbn [fst snd wp];
    try (split; [split; [done|by left]|done]).
  set (s1 := with_base s (set_tokens (t_base s) (<[sha256Hex token := row]> (tokens (t_base s))))).
  set (mail := buildMagicLinkEmailCommand fromAddress email (tenant_link cfg token) ttl).
  assert (issued cfg email token s (with_base s1 (send_mail (t_base s1) mail))) as Hsent.
  { split; [done|]. right. exists fromAddress, ttl. split; [done|]. split; [done|].
    change (is_Some (<[sha256Hex token := row]> (tokens (t_base s)) !! sha256Hex token)).
    rewrite lookup_insert_eq. eauto. }
  apply wp_await. cbn [wp tsend]. intros dv _.
  destruct dv; cbn [deliver perform lost tenant_service tenant_effect effect fst snd wp];
    [split; [exact Hsent|]|by split; [split; [done|by left]|]|by split; [exact Hsent|]].
  right. do 3 (split; [done|]). intros Hm. apply (f_equal length) in Hm.
  change (length (mails (t_base s) ++ [mail]) = length (mails (t_base s))) in Hm.
  rewrite length_app in Hm. cbn in Hm. lia.
Qed.

Lemma wp_tenant_challenge cfg fromAddress email key token nowMs ttl limit (s : TenantSite C) :
  wp T D (tenant_challenge env cfg fromAddress email key token nowMs ttl limit) s
    (fun s' r => issued cfg email token s s' /\ answers email token s s' r).
Proof.
  assert (forall s1 : TenantSite C, t_config s1 = t_config s -> mails (t_base s1) = mails (t_base s) ->
    tokens (t_base s1) = tokens (t_base s) -> forall s' r,
    issued cfg email token s1 s' /\ answers email token s1 s' r -> issued cfg email token s s' /\ answers email token s s' r) as Hch.
  { intros s1 H1 H2 H3 s' r. unfold issued, answers. by rewrite H1, H2, H3. }
  unfold tenant_challenge. apply wp_await. unfold denylist_answer. apply wp_attempt.
  eapply wp_weaken; [|apply wp_quiet, denylist_answer_quiet]. intros s1 r (H1 & H2 & H3).
  assert (Hfail : forall s1 : TenantSite C, t_config s1 = t_config s -> mails (t_base s1) = mails (t_base s) ->
    issued cfg email token s s1 /\ answers email token s s1 (Ok (failClosedChallenge email)) /\
    forall e, answers email token s s1 (Throw e)).
  { intros s2 Hc Hm. split; [split; [done|by left]|]. by split; [left|]. }
  destruct (Hfail s1 H1 H2) as (Hi & Ha & Ht).
  destruct r as [[|]|[[] | | | | | |]]; cbn [wp]; try (by split).
  apply wp_await. eapply wp_weaken; [|apply wp_quiet, rate_limit_quiet]. intros s2 r (H4 & H5 & H6).
  rewrite H1 in H4. rewrite H2 in H5. rewrite H3 in H6.
  destruct (Hfail s2 H4 H5) as (Hi2 & Ha2 & Ht2).
  destruct r as [[|]|e]; cbn [wp negb]; [|by split..].
  eapply wp_weaken; [|apply wp_issue_tenant_link]. intros s' r. by apply Hch.
Qed.

(** Also (The link is the tenant's own): a challenge leaves the configuration
    alone and sends at most one mail, to the user's address, whose link is
    under the site of the row loaded for the requesting app client and whose
    token's hash was free and is stored; with no row, no mail is sent and the
    trigger throws; and a challenge answered as open had its mail sent, while
    a closed one sent none. *)
Theorem shared_create_spec token (c : Container) (ev : SharedCreateEvent) (s : TenantSite C) :
  wp T D (sharedCreateAuthChallenge env token c ev) s (fun s' out => exists c' r, out = Ok (c', r) /\
    (s' = s /\ (exists e, r = Throw e) \/
     exists cfg email, known T (byClientId c) (row_of (t_config s) (sc_clientId ev)) (sc_clientId ev) cfg /\
       attr (sc_userAttributes ev) "email" = Some email /\ email <> "" /\
       issued cfg email token s s' /\ answers email token s s' r)).
Proof.
  apply wp_by_client_id. intros now m' r Hnow Hr.
  assert (forall (c' : Container) (e : trigger_error), exists c2 r, Ok (E := trigger_error) (c', Throw (A := SharedCreateResponse) e) = Ok (c2, r) /\
    (s = s /\ (exists e, r = Throw e) \/
     exists cfg email, known T (byClientId c) (row_of (t_config s) (sc_clientId ev)) (sc_clientId ev) cfg /\
       attr (sc_userAttributes ev) "email" = Some email /\ email <> "" /\
       issued cfg email token s s /\ answers email token s s r)) as Hthrow by eauto 8.
  destruct r as [[cfg|]|e]; [|apply Hthrow..].
  apply (loaded_known T) in Hr; [|done].
  destruct (attr (sc_userAttributes ev) "email") as [email|] eqn:He; cbn [default from_option id]; [|apply Hthrow].
  destruct (String.eqb_spec email "") as [|Hne]; [apply Hthrow|].
  destruct (challenge_config env) as [fromAddress|e]; [|apply Hthrow].
  intros nowMs _. apply wp_attempt. eapply wp_weaken; [|apply wp_quiet, resolve_key_quiet].
  intros s1 r (H1 & H2 & H3).
  assert (forall s' r', issued cfg email token s1 s' /\ answers email token s1 s' r' ->
    issued cfg email token s s' /\ answers email token s s' r') as Hch.
  { intros s' r'. unfold issued, answers. by rewrite H1, H2, H3. }
  destruct r as [[cache' key]|e]; cbn beta iota.
  - unfold finish. apply wp_attempt. eapply wp_weaken; [|apply wp_tenant_challenge].
    intros s' r Hs. cbn [wp]. eexists _, r. split; [done|]. right. exists cfg, email. by auto.
  - cbn [wp]. eexists _, _. split; [done|]. right. exists cfg, email. do 3 (split; [done|]).
    split; [split; [done|by left]|done].
Qed.
End create.

(** ** The tenant of the host *)

Section endpoints.
Context {C : Type} `{TenantAuth C} (T : Z -> Prop) (D : delivery -> Prop).

Definition client_of (c : token_cmd) : string :=
  match c with RespondToChallenge id _ _ _ | GetTokensFromRefreshToken id _ => id end.

(** A response that signs the viewer in: Cognito gave the tokens for the
    tenant's app client, and the cookies are for the tenant's host. *)
Definition signs_in (domain client : string) (s : TenantSite C) (resp : HttpResult) : Prop :=
  exists cmd out idToken, client_of cmd = client /\
    snd (token_step (t_pool s) (t_base s) cmd) = Ok out /\
    IdToken out = Some idToken /\ idToken <> "" /\ statusCode resp = 200 /\
    tenant_cookies domain idToken (RefreshToken out) = Ok (r_cookies resp).

Lemma wp_exchange domain cmd (s : TenantSite C) :
  wp T D (exchange domain cmd) s (fun s' r => t_config s' = t_config s /\
    match r with
    | Ok resp => resp = authFailed \/ signs_in domain (client_of cmd) s resp
    | Throw _ => True
    end).
Proof.
  unfold exchange. intros dv _.
  assert (t_config (fst (deliver dv s (Tokens cmd))) = t_config s) as Hc.
  { destruct dv; cbn; [|done|]; by destruct (token_step (t_pool s) (t_base s) cmd) as [[p' w'] r]. }
  destruct (deliver dv s (Tokens cmd)) as [s1 r] eqn:Hd. cbn [fst snd] in *.
  destruct r as [out|e]; [|cbn; by auto].
  assert (snd (token_step (t_pool s) (t_base s) cmd) = Ok out) as Hout.
  { destruct dv; cbn in Hd; try done; destruct (token_step (t_pool s) (t_base s) cmd) as [[p' w'] r]; cbn in *; congruence. }
  unfold session_response. destruct (IdToken out) as [idToken|] eqn:Hid; [|cbn; by auto].
  destruct (String.eqb_spec idToken ""); [cbn; by auto|].
  destruct (tenant_cookies domain idToken (RefreshToken out)) as [cookies|e] eqn:Hck; [|done].
  split; [done|]. right. by exists cmd, out, idToken.
Qed.

(** A response given at once. *)
#[local] Ltac answer := cbn [wp]; split; [done|]; eexists _, _; split; [done|]; cbn; auto.

Lemma wp_with_tenant parent unconfigured invalid notFound (c : Container) ev k (s : TenantSite C)
    (Q : string -> ClientConfigRow -> HttpResult -> Prop) :
  (forall p sub cfg, parent = Some p -> extractTenantSubdomain (header ev "host") p DEFAULT_TENANT_PATTERN = Some sub ->
     wp T D (k (sub +:+ "." +:+ p) cfg) s (fun s' r => t_config s' = t_config s /\
       match r with Ok resp => Q (sub +:+ "." +:+ p) cfg resp | Throw _ => True end)) ->
  wp T D (with_tenant parent unconfigured invalid notFound c ev k) s (fun s' out =>
    t_config s' = t_config s /\ exists c' r, out = Ok (c', r) /\
    match r with
    | Throw _ => True
    | Ok resp => resp = unconfigured \/ resp = invalid \/ resp = notFound \/
        exists p sub cfg, parent = Some p /\
          extractTenantSubdomain (header ev "host") p DEFAULT_TENANT_PATTERN = Some sub /\
          known T (bySubdomain c) (row_at (t_config s) sub) sub cfg /\ Q (sub +:+ "." +:+ p) cfg resp
    end).
Proof.
  intros Hk. unfold with_tenant. destruct parent as [p|]; cbn [default from_option id]; [|answer].
  destruct (String.eqb p ""); [answer|].
  destruct (extractTenantSubdomain (header ev "host") p DEFAULT_TENANT_PATTERN) as [sub|] eqn:Hsub; [|answer].
  apply wp_by_subdomain. intros now m' r Hnow Hr. destruct r as [[cfg|]|e]; [|answer..].
  apply (loaded_known T) in Hr; [|done]. unfold finish. apply wp_attempt.
  eapply wp_weaken; [|by apply Hk]. intros s' r [Hc HQ]. cbn. split; [done|]. eexists _, r. split; [done|].
  destruct r as [resp|e]; [|done]. do 3 right. by exists p, sub, cfg.
Qed.

(** Also (A session is for the tenant of the host): the endpoint leaves the
    configuration alone and sets cookies only when the request's host names a
    tenant under the parent whose row was loaded, for tokens Cognito gave for
    that tenant's own app client, with cookies for that tenant's host; every
    other response sets none. *)
Theorem shared_verify_spec parent (c : Container) (ev : HttpEvent) (s : TenantSite C) :
  wp T D (sharedAuthVerify parent c ev) s (fun s' out => t_config s' = t_config s /\
    exists c' r, out = Ok (c', r) /\
    match r with
    | Throw _ => True
    | Ok resp => (r_cookies resp = [] /\ statusCode resp <> 200) \/
        exists p sub cfg, parent = Some p /\
          extractTenantSubdomain (header ev "host") p DEFAULT_TENANT_PATTERN = Some sub /\
          known T (bySubdomain c) (row_at (t_config s) sub) sub cfg /\
          signs_in (sub +:+ "." +:+ p) (clientId cfg) s resp
    end).
Proof.
  unfold sharedAuthVerify. eapply wp_weaken; [|apply (wp_with_tenant _ _ _ _ c ev _ s
    (fun domain cfg resp => resp = authFailed \/ signs_in domain (clientId cfg) s resp))].
  - intros s' out (Hc & c' & r & -> & Hr). split; [done|]. exists c', r. split; [done|].
    destruct r as [resp|e]; [|done].
    destruct Hr as [-> |[-> |[-> |(p & sub & cfg & -> & Hsub & Hk & [-> |Hs])]]]; [by left..|].
    right. by exists p, sub, cfg.
  - intros p sub cfg _ _. unfold redeem_or_refresh.
    assert (forall s : TenantSite C, wp T D (Ret (C := tcmd) (CE := cmd_error) (E := trigger_error) (Ev := trigger_event) authFailed) s
      (fun s' r => t_config s' = t_config s /\
       match r with Ok resp => resp = authFailed \/ signs_in (sub +:+ "." +:+ p) (clientId cfg) s resp | Throw _ => True end)) as Hfail.
    { intros s2. cbn. by auto. }
    repeat (case_match; try apply Hfail); first [apply (wp_exchange _ (GetTokensFromRefreshToken _ _))
                                               |apply (wp_exchange _ (RespondToChallenge _ _ _ _))].
Qed.

(** Also (sign-out clears the tenant's cookies): the endpoint answers a redirect
    only when the host names a tenant whose row was loaded, to that tenant's
    site, with both cookies emptied for that tenant's host; every other
    response sets no cookie. *)
Theorem shared_signout_spec parent (c : Container) (ev : HttpEvent) (s : TenantSite C) :
  wp T D (sharedAuthSignout parent c ev) s (fun s' out => t_config s' = t_config s /\
    exists c' r, out = Ok (c', r) /\
    match r with
    | Throw _ => True
    | Ok resp => (r_cookies resp = [] /\ statusCode resp <> 303) \/
        exists p sub cfg, parent = Some p /\
          extractTenantSubdomain (header ev "host") p DEFAULT_TENANT_PATTERN = Some sub /\
          known T (bySubdomain c) (row_at (t_config s) sub) sub cfg /\
          statusCode resp = 303 /\ r_headers resp = [("location", siteBaseUrl cfg +:+ "/")] /\
          clear_cookies (sub +:+ "." +:+ p) = Ok (r_cookies resp)
    end).
Proof.
  unfold sharedAuthSignout. eapply wp_weaken; [|apply (wp_with_tenant _ _ _ _ c ev _ s
    (fun domain cfg resp => statusCode resp = 303 /\ r_headers resp = [("location", siteBaseUrl cfg +:+ "/")] /\
       clear_cookies domain = Ok (r_cookies resp)))].
  - intros s' out (Hc & c' & r & -> & Hr). split; [done|]. exists c', r. split; [done|].
    destruct r as [resp|e]; [|done].
    destruct Hr as [-> |[-> |[-> |(p & sub & cfg & -> & Hsub & Hk & Hs)]]]; [by left..|].
    right. by exists p, sub, cfg.
  - intros p sub cfg _ _. by destruct (clear_cookies (sub +:+ "." +:+ p)) as [cs|e].
Qed.
End endpoints.
