(* ===== verification/TenantEdge.v ===== *)
(** The shared distribution from sign-in to the edge: the endpoints of
    [shared-distribution/triggers/] and the check of
    [shared-distribution/edge/] together. What one part writes, cookies and
    claims, the other reads. *)

From stdpp Require Import pretty.
From S2P Require Import EdgeCheck.
From S2P Require Import Prelude JsString Json Prog SignIn AuthEndpoints TenantHost TenantTriggers.
From Stdlib Require Import Ascii.

#[local] Open Scope string_scope.
#[local] Open Scope Z_scope.

(** ** The claim *)

(** A token for an event of the pre-token trigger: its payload has the claims
    minted from it. *)
Definition token_for `{EdgeCheck.AwsJwtVerify} (ev : PreTokenEvent) (own : gmap string string) (token : string) : Prop :=
  exists header payload, EdgeCheck.decomposeUnverifiedJwt token = Ok (header, payload) /\
    find_key TENANT_CLAIM payload = VString <$> (minted own ev !! TENANT_CLAIM).

Definition forwarded `{EdgeCheck.AwsJwtVerify} (cfg : EdgeCheck.EdgeConfig) (req : EdgeCheck.CloudFrontRequest) : Prop :=
  exists cache w env n rest cache',
    snd (run (EdgeCheck.handler cfg cache (req :: rest)) env n w) = Ok (cache', EdgeCheck.Forward req).

Lemma tenant_isolated {C} `{TenantAuth C} `{EdgeCheck.AwsJwtVerify} cfg inner_ c c' ev ev' env n own token
    (s : TenantSite C) req host label :
  0 < EdgeCheck.JWKS_TTL_MS cfg ->
  snd (run (wrapPreTokenHandler inner_ c ev) env n s) = Ok (c', Ok ev') ->
  token_for ev' own token ->
  EdgeCheck.extractTokenFromCookies (EdgeCheck.header_entries req "cookie") = Some token ->
  EdgeCheck.request_host req = Some host ->
  edge_extractTenantSubdomain (Some host) (EdgeCheck.TENANT_PARENT cfg) (EdgeCheck.TENANT_PATTERN cfg) = Some label ->
  forwarded cfg req ->
  exists row, known (fun _ => True) (byClientId c) (row_of (t_config s) (pt_clientId ev)) (pt_clientId ev) row /\
              tenantId row = label.
Proof.
  intros Httl Hrun (header & payload & Hd & Hclaim) Htok Hhost Hlabel (cache & w & env2 & n2 & rest & cache' & Hfwd).
  pose proof (wp_run (fun _ => True) (fun _ => True) _ env _ n s (fun _ => conj I I)
                (wp_wrapPreTokenHandler (fun _ => True) (fun _ => True) inner_ c ev s)) as Hwp.
  destruct (run (wrapPreTokenHandler inner_ c ev) env n s) as [s' out]. cbn in Hrun. subst out.
  destruct Hwp as (_ & c2 & r & Hout & Hr). injection Hout as -> <-.
  destruct Hr as (row & Hrow & _ & Hm). exists row. split; [done|].
  rewrite Hm in Hclaim. cbn in Hclaim.
  pose proof (EdgeCheck.one_token_one_tenant_claims cfg cache w env2 n2 req rest cache' token label Httl) as Hedge.
  destruct Hedge as (header' & claims & Hd' & Hclaim' & _); eauto.
  rewrite Hd in Hd'. injection Hd' as <- <-. unfold TENANT_CLAIM in Hclaim. congruence.
Qed.

(** C9 (A tenant's tokens open its own host only): a token minted after the
    wrapped pre-token trigger ran for an app client, with any consumer
    handler, is forwarded by the edge at no host but the one whose label is
    the tenant id of a row the trigger loaded for that client. *)
Theorem tenant_isolation {C} `{TenantAuth C} `{EdgeCheck.AwsJwtVerify} cfg inner_ c c' ev ev' env n own token
    (s : TenantSite C) req host label :
  0 < EdgeCheck.JWKS_TTL_MS cfg ->
  snd (run (wrapPreTokenHandler inner_ c ev) env n s) = Ok (c', Ok ev') ->
  token_for ev' own token ->
  EdgeCheck.extractTokenFromCookies (EdgeCheck.header_entries req "cookie") = Some token ->
  EdgeCheck.request_host req = Some host ->
  edge_extractTenantSubdomain (Some host) (EdgeCheck.TENANT_PARENT cfg) (EdgeCheck.TENANT_PATTERN cfg) = Some label ->
  forwarded cfg req ->
  exists row, known (fun _ => True) (byClientId c) (row_of (t_config s) (pt_clientId ev)) (pt_clientId ev) row /\
              tenantId row = label.
Proof. apply tenant_isolated. Qed.

(** Creation takes any tenant id: with one that is not the subdomain, no token
    of the tenant's app client is ever forwarded at the tenant's own host. *)
Theorem foreign_tenant_id_locks_out {C} `{TenantAuth C} `{EdgeCheck.AwsJwtVerify} cfg inner_ c' ev ev' env n own token
    (s : TenantSite C) parent createReq createdAt req host :
  0 < EdgeCheck.JWKS_TTL_MS cfg ->
  t_config s !! pt_clientId ev = Some (item_of (TenantAdmin.config_row parent createReq createdAt)) ->
  TenantAdmin.tenantId createReq <> TenantAdmin.subdomain createReq ->
  snd (run (wrapPreTokenHandler inner_ cold ev) env n s) = Ok (c', Ok ev') ->
  token_for ev' own token ->
  EdgeCheck.extractTokenFromCookies (EdgeCheck.header_entries req "cookie") = Some token ->
  EdgeCheck.request_host req = Some host ->
  edge_extractTenantSubdomain (Some host) (EdgeCheck.TENANT_PARENT cfg) (EdgeCheck.TENANT_PATTERN cfg) =
    Some (TenantAdmin.subdomain createReq) ->
  ~ forwarded cfg req.
Proof.
  intros Httl Hrow Hne Hrun Htok Hck Hhost Hlabel Hfwd.
  destruct (tenant_isolated cfg inner_ cold c' ev ev' env n own token s req host _ Httl Hrun Htok Hck Hhost Hlabel Hfwd)
    as (row & [(now & _ & Hmem)|Hrow'] & Htid).
  - unfold TtlCache.recall in Hmem. cbn [byClientId cold] in Hmem. by rewrite lookup_empty in Hmem.
  - unfold row_of, parseRow in Hrow'. rewrite Hrow in Hrow'. cbn [item_of i_subdomain i_tenantId default from_option id] in Hrow'.
    destruct (Tenant.tenantSubdomain _); [|done]. destruct (Tenant.tenantId _) as [tid|] eqn:Ht; [|done].
    injection Hrow' as <-. cbn in Htid. unfold Tenant.tenantId in Ht. destruct (Tenant.validateTenantIdShape _); [done|].
    injection Ht as <-. cbn in Htid. congruence.
Qed.

(** ** The cookie *)

(** What a browser sends back of a [Set-Cookie] value: its name and value. *)
Definition name_value (set_cookie : string) : string := default "" (head (split ";" set_cookie)).

(** The [Cookie] header of a browser that holds these cookies. *)
Definition browser_cookie (set_cookies : list string) : string := join "; " (map name_value set_cookies).

Lemma split_head_no_char c s : char_in c (default "" (head (split c s))) = false.
Proof. pose proof (split_parts c s) as Hp. destruct (split c s); [done|]. by inversion Hp. Qed.

(** A segment named otherwise is passed over. *)
Lemma token_in_other seg rest name n v :
  trim seg = n +:+ "=" +:+ v -> char_in "=" n = false -> n <> "" -> trim n <> name ->
  EdgeCheck.token_in (seg :: rest) name = EdgeCheck.token_in rest name.
Proof.
  intros Hs Hn Hne Hname. cbn [EdgeCheck.token_in]. rewrite Hs.
  assert (forall m, char_in "=" m = false -> indexOf (m +:+ String.String "=" v) "=" = Some (String.length m)) as Hi.
  { intros m. induction m as [|d m IH]; [intros _; by destruct v|]. cbn [char_in str_exists]. intros [Hd Hm]%orb_false_iff.
    cbn [String.append String.length indexOf String.prefix].
    destruct (ascii_dec "=" d) as [<-|]; [by rewrite Ascii.eqb_refl in Hd|]. by rewrite (IH Hm). }
  change ("=" +:+ v) with (String.String "=" v). rewrite (Hi n Hn). destruct n as [|d n']; [done|]. cbn [String.length].
  rewrite <- (str_take_app (String.String d n') (String.String "=" v)) in Hname. cbn [String.length] in Hname.
  by rewrite (proj2 (String.eqb_neq _ _) Hname).
Qed.

Lemma split_app_head c a s :
  char_in c a = false -> default "" (head (split c (a +:+ s))) = a +:+ default "" (head (split c s)).
Proof.
  induction a as [|d a IH]; [done|]. cbn [char_in str_exists]. intros [Hd Ha]%orb_false_iff.
  cbn [String.append split]. rewrite Ascii.eqb_sym in Hd. rewrite Hd. specialize (IH Ha).
  destruct (split c (a +:+ s)) as [|x l] eqn:E; [by destruct (split_nonempty c (a +:+ s))|]. cbn in *. congruence.
Qed.

Lemma trim_end_app a s :
  str_all (fun c => negb (is_space c)) a = true -> trim_end (a +:+ s) = a +:+ trim_end s.
Proof.
  induction a as [|d a IH]; [done|]. intros [Hd Ha]%str_all_cons. cbn [String.append trim_end]. rewrite (IH Ha).
  destruct (a +:+ trim_end s) eqn:E; [|done]. apply negb_true_iff in Hd. by rewrite Hd.
Qed.

(** The pair the browser keeps of a cookie of the endpoint. *)
Lemma name_value_built name value opts c :
  buildSetCookie name value opts = Ok c -> char_in ";" name = false ->
  exists v, name_value c = name +:+ "=" +:+ v /\ char_in ";" v = false.
Proof.
  unfold buildSetCookie. destruct (_ || _); [done|]. intros [= <-] Hn. unfold name_value. cbn [join].
  rewrite !str_app_assoc. rewrite (split_app_head ";" name) by done.
  match goal with |- context [String.String "=" value +:+ ?r] =>
    change (String.String "=" value +:+ r) with ("=" +:+ (value +:+ r)) end.
  rewrite (split_app_head ";" "=") by done.
  eexists. split; [reflexivity|apply split_head_no_char].
Qed.

Lemma pair_passed_over seg rest n v :
  str_all (fun c => negb (is_space c)) (n +:+ "=") = true -> char_in "=" n = false ->
  n <> "" -> trim n <> EdgeCheck.ID_TOKEN_COOKIE -> seg = n +:+ "=" +:+ v \/ seg = " " +:+ n +:+ "=" +:+ v ->
  EdgeCheck.token_in (seg :: rest) EdgeCheck.ID_TOKEN_COOKIE = EdgeCheck.token_in rest EdgeCheck.ID_TOKEN_COOKIE.
Proof.
  intros Hsp Heq Hne Hname Hseg. apply (token_in_other _ _ _ n (trim_end v)); [|done..].
  assert (trim seg = trim_end (n +:+ "=" +:+ v)) as ->.
  { unfold trim. destruct n as [|d n]; [done|]. cbn [String.append] in Hsp. apply str_all_cons in Hsp as [Hd _].
    apply negb_true_iff in Hd.
    destruct Hseg as [-> | ->]; cbn [String.append trim_start]; [by rewrite Hd|]. by rewrite Hd. }
  rewrite <- str_app_assoc, trim_end_app by done. by rewrite str_app_assoc.
Qed.

(** The cookies the endpoint sets are not the one the edge reads. *)
Lemma cookies_unread domain idToken refreshToken cookies :
  tenant_cookies domain idToken refreshToken = Ok cookies ->
  EdgeCheck.extractTokenFromCookies (Some [EdgeCheck.entry "Cookie" (browser_cookie cookies)]) = None.
Proof.
  unfold tenant_cookies. intros Hc. cbn [EdgeCheck.extractTokenFromCookies EdgeCheck.token_in_entries EdgeCheck.h_value EdgeCheck.entry].
  enough (EdgeCheck.token_in (split ";" (browser_cookie cookies)) EdgeCheck.ID_TOKEN_COOKIE = None) as -> by done.
  destruct (buildSetCookie "id-token" idToken _) as [c1|] eqn:H1; [|done]. cbn in Hc.
  apply name_value_built in H1 as (v1 & Hv1 & Hs1); [|done].
  assert (Hone : EdgeCheck.token_in (split ";" (browser_cookie [c1])) EdgeCheck.ID_TOKEN_COOKIE = None).
  { unfold browser_cookie. cbn [map join]. rewrite Hv1, split_none by done.
    by rewrite (pair_passed_over _ _ "id-token" v1) by auto. }
  destruct refreshToken as [t|]; [|injection Hc as <-; done].
  destruct (String.eqb t ""); [injection Hc as <-; done|].
  destruct (buildSetCookie "refresh-token" t _) as [c2|] eqn:H2; [|done]. injection Hc as <-.
  apply name_value_built in H2 as (v2 & Hv2 & Hs2); [|done].
  unfold browser_cookie. cbn [map join]. rewrite Hv1, Hv2.
  change ("; " +:+ "refresh-token" +:+ "=" +:+ v2) with (String.String ";" (" " +:+ "refresh-token" +:+ "=" +:+ v2)).
  rewrite split_cons, split_none by done.
  rewrite (pair_passed_over _ _ "id-token" v1) by auto. by rewrite (pair_passed_over _ _ "refresh-token" v2) by auto.
Qed.

(** Also (a signed-in viewer is sent to log in): whatever cookies the endpoint
    set for a completed sign-in, a browser that sends them back to a tenant's
    host is redirected to the login page: the edge reads a cookie of another
    name. *)
Theorem signed_in_viewer_sent_to_login {C} `{TenantAuth C} `{EdgeCheck.AwsJwtVerify} T D cfg cache w
    domain client (s : TenantSite C) resp req rest host label :
  signs_in domain client s resp ->
  EdgeCheck.header_entries req "cookie" = Some [EdgeCheck.entry "Cookie" (browser_cookie (r_cookies resp))] ->
  EdgeCheck.request_host req = Some host ->
  edge_extractTenantSubdomain (Some host) (EdgeCheck.TENANT_PARENT cfg) (EdgeCheck.TENANT_PATTERN cfg) = Some label ->
  wp T D (EdgeCheck.handler cfg cache (req :: rest)) w
    (fun _ out => out = Ok (cache, EdgeCheck.Respond (EdgeCheck.login_response req label))).
Proof.
  intros (cmd & out & idToken & _ & _ & _ & _ & _ & Hck) Hcookie Hhost Hlabel.
  apply cookies_unread in Hck. unfold EdgeCheck.handler. rewrite Hhost, Hcookie, Hck. cbn [default from_option id].
  destruct (String.eqb_spec host "") as [->|_]; [done|]. rewrite Hlabel. done.
Qed.

(** ** A run *)

#[export] Instance toy_auth : TenantAuth unit :=
  {| token_step p w c := (p, w, Ok {| IdToken := Some "id.token"; RefreshToken := Some "refresh" |}) |}.

Definition acme_request : TenantAdmin.CreateTenantRequest :=
  {| TenantAdmin.subdomain := "acme"; TenantAdmin.tenantId := "acme"; TenantAdmin.allowedEmailDomains := ["example.com"];
     TenantAdmin.idempotencyKey := "k" |}.

Definition empty_world : World :=
  {| tokens := ∅; counters := ∅; denylist := None; users := ∅; secrets := ∅; mails := []; log := [] |}.

Definition acme_site : TenantSite unit :=
  {| t_pool := tt; t_base := empty_world;
     t_config := {[ "client" := item_of (TenantAdmin.config_row "tenants.example.com" acme_request "now") ]}; t_log := [] |}.

Definition acme_event : PreTokenEvent := {| pt_clientId := "client"; pt_response := None |}.

Lemma tenant_isolation_witness :
  exists row, known (fun _ => True) ∅ (row_of (t_config acme_site) "client") "client" row /\ tenantId row = "acme".
Proof.
  refine (tenant_isolation EdgeCheck.example_config (fun ev _ => Ok ev) cold _ acme_event
            (inject_tenant acme_event "acme") (delivered (fun _ => 0)) 0 ∅ EdgeCheck.example_token acme_site
            (EdgeCheck.example_request "acme.tenants.example.com") "acme.tenants.example.com" "acme" _ _ _ _ _ _ _).
  - done.
  - vm_compute. reflexivity.
  - eexists _, _. split; vm_compute; reflexivity.
  - vm_compute. reflexivity.
  - reflexivity.
  - vm_compute. reflexivity.
  - exists EdgeCheck.empty_cache, EdgeCheck.example_edge, (delivered (fun _ => 5000)), 0%nat, []. eexists. vm_compute. reflexivity.
Defined.

(** The two endpoints, the sign-up and the edge on the acme tenant. *)
Definition acme_visit (body : string) : HttpEvent :=
  {| AuthEndpoints.headers := [("host", Some "ACME.tenants.example.com:443"); ("cookie", Some "refresh-token=old")];
     event_cookies := []; AuthEndpoints.body := Some body; method := Some "POST" |}.

Example acme_runs :
  let answer {A} (p : invocation A) := snd (run p (delivered (fun _ => 0)) 0 acme_site) in
  let status_of r := match r with Ok (_, Ok resp) => Some (statusCode resp, length (r_cookies resp)) | _ => None end in
  let parent := Some "tenants.example.com" in
  let refresh := stringify (VObject [("refresh", VBool true)]) in
  status_of (answer (sharedAuthVerify parent cold (acme_visit refresh))) = Some (200, 2%nat) /\
  status_of (answer (sharedAuthVerify parent cold (acme_visit "{"))) = Some (401, 0%nat) /\
  status_of (answer (sharedAuthVerify None cold (acme_visit refresh))) = Some (500, 0%nat) /\
  status_of (answer (sharedAuthSignout parent cold (acme_visit ""))) = Some (303, 2%nat) /\
  match answer (sharedPreSignUp cold {| su_clientId := "client"; su_email := Some " Ana@Example.com" |}) with
  | Ok (_, r) => r = Ok tt | Throw _ => False end /\
  match answer (sharedPreSignUp cold {| su_clientId := "client"; su_email := Some "ana@evil.com" |}) with
  | Ok (_, r) => r = Throw (SigninError SignupNotAllowed) | Throw _ => False end.
Proof. vm_compute. repeat split; reflexivity. Qed.
