(* ===== verification/LegacyKv.v ===== *)
(** The Cloudflare-shaped key-value shims: foundation [kv/dynamo-kv.ts],
    [kv/memory.ts], [kv/schemas.ts].

    Values are texts; times are seconds. The DynamoDB shim is what it does with
    an item; the page a [Query] answers is an argument. *)

From stdpp Require Import pretty.
From S2P Require Import Prelude JsString Json SignIn PreSignup.
From S2P Require JwksFallback.
From Stdlib Require Import Ascii.

#[local] Open Scope string_scope.
#[local] Open Scope Z_scope.

Module LegacyKv.

Record KvPutOptions := { expiration : option Z; expirationTtl : option Z; metadata : option JsonObject }.
Record KvListOptions := { prefix : option string; limit : option Z; cursor : option string }.
Record KvKey := { name : string; k_expiration : option Z }.
Record KvListResult := { keys : list KvKey; list_complete : bool; next : option string }.

(** ** dynamo-kv.ts: keys and cursors *)

Definition buildPk (namespace key : string) : string := namespace +:+ ":" +:+ key.

Definition stripPrefix (namespace pk : string) : string :=
  let p := namespace +:+ ":" in if startsWith pk p then str_drop (String.length p) pk else pk.

(** Node's base64, as far as the shim relies on it. *)
Class CursorCodec `{Digests} := {
  to_base64 : string -> string;
  from_base64 : string -> string;
  base64_round_trip s : from_base64 (to_base64 s) = s;
  hmac_length k m : String.length (hmac_sha256_hex k m) = 64%nat
}.

Section cursors.
Context `{CursorCodec}.

Definition signCursor (payload secret : string) : string := payload +:+ "." +:+ hmac_sha256_hex secret payload.

Definition verifyCursorSignature (cursor secret : string) : option string :=
  match lastIndexOf "." cursor with
  | None => None
  | Some dotIdx =>
      let payload := str_take dotIdx cursor in
      let sig := str_drop (S dotIdx) cursor in
      if negb (String.length sig =? 64)%nat then None
      else
        let expected := from_hex (hmac_sha256_hex secret payload) in
        let sigBuf := from_hex sig in
        if negb (length sigBuf =? length expected)%nat then None
        else if negb (bool_decide (sigBuf = expected)) then None
        else Some payload
  end.

(** [CursorKeySchema]. *)
Definition attribute_ok (v : JsonValue) : bool :=
  match v with
  | VString _ | VNumber _ => true
  | VObject [(k, VString _)] => String.eqb k "S" || String.eqb k "N"
  | _ => false
  end.

Definition CursorKey (v : JsonValue) : option JsonObject :=
  match v with
  | VObject l =>
      if forallb (fun kv => (String.eqb (fst kv) "pk" || String.eqb (fst kv) "sk") && attribute_ok (snd kv)) l &&
         negb (length l =? 0)%nat
      then Some l else None
  | _ => None
  end.

Definition parseCursor (raw : string) (cursorSecret : option string) : option JsonObject :=
  payload ← match cursorSecret with Some secret => verifyCursorSignature raw secret | None => Some raw end;
  parsed ← JSON_parse (from_base64 payload);
  CursorKey parsed.

Definition printCursor (key : JsonObject) (cursorSecret : option string) : string :=
  let encoded := to_base64 (stringify (VObject key)) in
  match cursorSecret with Some secret => signCursor encoded secret | None => encoded end.
End cursors.

(** ** dynamo-kv.ts: items *)

Record Item := { value : option string; ttl : option Z; i_metadata : option string }.

#[global] Notation Table := (gmap string Item).

Definition expiry (o : option KvPutOptions) (now : Z) : option Z :=
  match o with
  | None => None
  | Some o => match expiration o with Some e => Some e | None => (fun t => now + t) <$> expirationTtl o end
  end.

Definition metadata_text (o : option KvPutOptions) : option string := o ≫= fun o => (fun m => stringify (VObject m)) <$> metadata o.

Definition dynamo_live (now : Z) (item : Item) : bool := match ttl item with Some t => negb (t <? now) | None => true end.

Definition dynamo_get (ns : string) (t : Table) (key : string) (now : Z) : option string :=
  match t !! buildPk ns key with
  | None => None
  | Some item => if dynamo_live now item then value item else None
  end.

(** [get(key, "json")]. *)
Definition dynamo_get_json (ns : string) (t : Table) (key : string) (now : Z) : option JsonValue :=
  dynamo_get ns t key now ≫= JSON_parse.

(** [None] inside [Throw]: the metadata is no JSON. *)
Definition metadata_of (text : option string) : result unit (option JsonValue) :=
  match text with
  | None => Ok None
  | Some raw => match JSON_parse raw with Some v => Ok (Some v) | None => Throw tt end
  end.

Definition dynamo_getWithMetadata (ns : string) (t : Table) (key : string) (now : Z) :
    result unit (option string * option JsonValue) :=
  match t !! buildPk ns key with
  | None => Ok (None, None)
  | Some item =>
      if dynamo_live now item
      then match metadata_of (i_metadata item) with Ok m => Ok (value item, m) | Throw e => Throw e end
      else Ok (None, None)
  end.

Definition dynamo_put (ns : string) (t : Table) (key v : string) (o : option KvPutOptions) (now : Z) : Table :=
  <[buildPk ns key := {| value := Some v; ttl := expiry o now; i_metadata := metadata_text o |}]> t.

Definition dynamo_delete (ns : string) (t : Table) (key : string) : Table := delete (buildPk ns key) t.

(** What [list] asks for. *)
Definition query_prefix (ns : string) (o : option KvListOptions) : string :=
  match o ≫= prefix with Some p => ns +:+ ":" +:+ p | None => ns +:+ ":" end.
Definition query_limit (o : option KvListOptions) : Z := default 1000 (o ≫= limit).
Definition query_start `{CursorCodec} (o : option KvListOptions) (cursorSecret : option string) : option JsonObject :=
  (o ≫= cursor) ≫= fun c => parseCursor c cursorSecret.

(** What it makes of the answer: items with their keys, and
    [LastEvaluatedKey]. *)
Definition dynamo_list `{CursorCodec} (ns : string) (cursorSecret : option string) (answer : list (string * Item) * option JsonObject)
    (now : Z) : KvListResult :=
  {| keys := map (fun p => {| name := stripPrefix ns (fst p); k_expiration := ttl (snd p) |})
               (List.filter (fun p => match ttl (snd p) with Some t => now <? t | None => true end) (fst answer));
     list_complete := match snd answer with None => true | Some _ => false end;
     next := (fun key => printCursor key cursorSecret) <$> snd answer |}.

(** ** memory.ts *)

Record MemoryEntry := { m_value : string; m_metadata : option string; m_expiration : option Z }.

(** A [Map]: entries in the order of their insertion. *)
#[global] Notation Entries := (list (string * MemoryEntry)).

Fixpoint map_get (key : string) (s : Entries) : option MemoryEntry :=
  match s with [] => None | (k, e) :: r => if String.eqb k key then Some e else map_get key r end.
Fixpoint map_set (key : string) (e : MemoryEntry) (s : Entries) : Entries :=
  match s with [] => [(key, e)] | (k, x) :: r => if String.eqb k key then (k, e) :: r else (k, x) :: map_set key e r end.
Fixpoint map_delete (key : string) (s : Entries) : Entries :=
  match s with [] => [] | (k, x) :: r => if String.eqb k key then r else (k, x) :: map_delete key r end.

Definition isExpired (now : Z) (e : MemoryEntry) : bool := match m_expiration e with Some t => t <? now | None => false end.

Definition memory_get (s : Entries) (key : string) (now : Z) : option string :=
  match map_get key s with
  | None => None
  | Some e => if isExpired now e then None else Some (m_value e)
  end.

Definition memory_get_json (s : Entries) (key : string) (now : Z) : option JsonValue := memory_get s key now ≫= JSON_parse.

Definition memory_getWithMetadata (s : Entries) (key : string) (now : Z) : result unit (option string * option JsonValue) :=
  match map_get key s with
  | None => Ok (None, None)
  | Some e =>
      if isExpired now e then Ok (None, None)
      else match metadata_of (m_metadata e) with Ok m => Ok (Some (m_value e), m) | Throw x => Throw x end
  end.

Definition memory_put (s : Entries) (key v : string) (o : option KvPutOptions) (now : Z) : Entries :=
  map_set key {| m_value := v; m_metadata := metadata_text o; m_expiration := expiry o now |} s.

Definition memory_delete (s : Entries) (key : string) : Entries := map_delete key s.

(** [Array.prototype.slice]. *)
Definition js_slice {A} (l : list A) (from to : Z) : list A :=
  let len := Z.of_nat (length l) in
  let rel i := if i <? 0 then Z.max (len + i) 0 else Z.min i len in
  let a := rel from in
  take (Z.to_nat (rel to - a)) (drop (Z.to_nat a) l).

Definition live_keys (s : Entries) (p : string) (now : Z) : list KvKey :=
  map (fun ke => {| name := fst ke; k_expiration := m_expiration (snd ke) |})
    (List.filter (fun ke => startsWith (fst ke) p && negb (isExpired now (snd ke))) s).

Definition memory_list (s : Entries) (o : option KvListOptions) (now : Z) : KvListResult :=
  let p := default "" (o ≫= prefix) in
  let lim := default 1000 (o ≫= limit) in
  let all := live_keys s p now in
  let startIdx := default 0 ((o ≫= cursor) ≫= parseInt10) in
  let page := js_slice all startIdx (startIdx + lim) in
  let nextStart := startIdx + Z.of_nat (length page) in
  let complete := Z.of_nat (length all) <=? nextStart in
  {| keys := page; list_complete := complete; next := if complete then None else Some (pretty nextStart) |}.

(** ** Namespaces *)

Lemma char_split c a b x y : char_in c a = false -> char_in c b = false ->
  a +:+ String.String c x = b +:+ String.String c y -> a = b /\ x = y.
Proof.
  revert b. induction a as [|d a IH]; intros [|e b]; unfold char_in; cbn [str_exists String.append]; intros Ha Hb H.
  - by injection H as ->.
  - injection H as <- _. by rewrite Ascii.eqb_refl in Hb.
  - injection H as -> _. by rewrite Ascii.eqb_refl in Ha.
  - apply orb_false_iff in Ha as [_ Ha], Hb as [_ Hb]. injection H as -> H. destruct (IH b Ha Hb H) as [-> ->]. done.
Qed.

Lemma legacy_pk_inj ns k1 k2 : buildPk ns k1 = buildPk ns k2 -> k1 = k2.
Proof. unfold buildPk. intros H%str_app_inj_l. by injection H. Qed.

(** Also (Namespaces are apart): namespaces without a colon never share a
    partition key, whatever the keys, and a listed key is the one that was
    put. *)
Theorem namespaces_apart ns1 ns2 k1 k2 : char_in ":" ns1 = false -> char_in ":" ns2 = false ->
  (buildPk ns1 k1 = buildPk ns2 k2 -> ns1 = ns2 /\ k1 = k2) /\ stripPrefix ns1 (buildPk ns1 k1) = k1.
Proof.
  intros H1 H2. split; [apply (char_split ":" ns1 ns2 k1 k2 H1 H2)|]. unfold stripPrefix, buildPk.
  change (ns1 +:+ ":" +:+ k1) with (ns1 +:+ (":" +:+ k1)). rewrite <- str_app_assoc.
  assert (startsWith ((ns1 +:+ ":") +:+ k1) (ns1 +:+ ":") = true) as -> by apply prefix_app.
  apply str_drop_app.
Qed.

(** ** Cursors *)

Section cursor_lemmas.
Context `{CursorCodec}.

Lemma from_hex_full n : forall s, String.length s = (2 * n)%nat -> length (from_hex s) = n -> str_all is_hex_digit s = true.
Proof.
  induction n as [|n IH]; intros s Hl Hh; [by destruct s|]. destruct s as [|a [|b s]]; [done|cbn in Hl; lia|].
  cbn [from_hex] in Hh. cbn [str_all]. destruct (is_hex_digit a && is_hex_digit b) eqn:E; [|done].
  apply andb_true_iff in E as [-> ->]. cbn [andb]. apply IH; [cbn in Hl; lia|]. by injection Hh.
Qed.

Lemma lastIndexOf_app c p s : char_in c s = false -> lastIndexOf c (p +:+ String.String c s) = Some (String.length p).
Proof.
  intros Hs. assert (lastIndexOf c s = None) as Hn.
  { unfold char_in in Hs. induction s as [|d s IH]; [done|]. cbn [str_exists] in Hs. apply orb_false_iff in Hs as [Hd Hs].
    cbn [lastIndexOf]. rewrite (IH Hs). rewrite Ascii.eqb_sym. by rewrite Hd. }
  induction p as [|d p IH]; cbn [String.append lastIndexOf]; [by rewrite Hn, Ascii.eqb_refl|]. by rewrite IH.
Qed.

Lemma lastIndexOf_spec c s n : lastIndexOf c s = Some n -> s = str_take n s +:+ String.String c (str_drop (S n) s).
Proof.
  revert n. induction s as [|d s IH]; intros n; [done|]. cbn [lastIndexOf]. destruct (lastIndexOf c s) as [m|] eqn:E.
  - intros [= <-]. cbn [str_take str_drop String.append]. f_equal. by apply IH.
  - destruct (Ascii.eqb_spec d c) as [->|]; [|done]. intros [= <-]. cbn. by destruct s.
Qed.

Lemma sign_verify payload secret : verifyCursorSignature (signCursor payload secret) secret = Some payload.
Proof.
  unfold verifyCursorSignature, signCursor. set (sig := hmac_sha256_hex secret payload).
  assert (char_in "." sig = false) as Hd.
  { apply (str_all_not_exists is_hex_digit); [|apply (from_hex_full 32); [apply hmac_length|apply hmac_bytes]].
    intros c Hc. apply Bool.not_true_iff_false. intros <-%Ascii.eqb_eq. by vm_compute in Hc. }
  change (payload +:+ "." +:+ sig) with (payload +:+ String.String "." sig). rewrite lastIndexOf_app by done.
  rewrite str_take_app. assert (str_drop (S (String.length payload)) (payload +:+ String.String "." sig) = sig) as ->.
  { clearbody sig. clear. induction payload as [|c p IH]; [done|]. exact IH. }
  subst sig. rewrite hmac_length. rewrite Nat.eqb_refl. cbn [negb]. rewrite Nat.eqb_refl. cbn [negb]. by rewrite bool_decide_true.
Qed.

(** Also (Cursors read back): a cursor the shim prints for a key of the table,
    signed or not, is read as that key. *)
Theorem cursor_round_trip key secret : json_wf (VObject key) -> CursorKey (VObject key) = Some key ->
  parseCursor (printCursor key secret) secret = Some key.
Proof.
  intros Hw Hk. unfold parseCursor, printCursor. destruct secret as [s|]; [rewrite sign_verify|];
    cbn [mbind option_bind]; by rewrite base64_round_trip, JSON_parse_stringify.
Qed.

(** Also (Only signed cursors pass): with a secret, a text is taken as a cursor
    only if it ends in 64 characters whose bytes are the HMAC of all that is
    before the last dot; whatever the text, the answer is a key of the
    schema or a restart. *)
Theorem cursor_signed raw secret key : parseCursor raw (Some secret) = Some key ->
  exists payload sig, raw = payload +:+ "." +:+ sig /\ String.length sig = 64%nat /\
    from_hex sig = from_hex (hmac_sha256_hex secret payload) /\
    JSON_parse (from_base64 payload) = Some (VObject key) /\ CursorKey (VObject key) = Some key.
Proof.
  unfold parseCursor, verifyCursorSignature. destruct (lastIndexOf "." raw) as [n|] eqn:E; [|done].
  destruct (Nat.eqb_spec (String.length (str_drop (S n) raw)) 64) as [Hl|]; [|done]. cbn [negb].
  destruct (_ =? _)%nat; [|done]. cbn [negb]. destruct (bool_decide_reflect (from_hex (str_drop (S n) raw) =
    from_hex (hmac_sha256_hex secret (str_take n raw)))) as [Hs|]; [|done]. cbn [negb mbind option_bind].
  destruct (JSON_parse (from_base64 (str_take n raw))) as [v|] eqn:Hj; [|done]. cbn. intros Hk.
  assert (v = VObject key) as ->.
  { destruct v; try done. unfold CursorKey in Hk. destruct (_ && _); [|done]. by injection Hk as ->. }
  exists (str_take n raw), (str_drop (S n) raw). split; [by apply lastIndexOf_spec|]. done.
Qed.
End cursor_lemmas.

(** ** The two shims give the same answers *)

Lemma map_get_set k k' e s : map_get k (map_set k' e s) = if String.eqb k' k then Some e else map_get k s.
Proof.
  induction s as [|[j x] s IH]; cbn [map_set map_get]; [done|]. destruct (String.eqb_spec j k') as [->|Hj]; cbn [map_get].
  - by destruct (String.eqb k' k).
  - rewrite IH. destruct (String.eqb_spec j k) as [->|]; [|done]. destruct (String.eqb_spec k' k) as [->|]; done.
Qed.

Lemma map_get_absent k s : k ∉ map fst s -> map_get k s = None.
Proof.
  induction s as [|[j x] s IH]; cbn; [done|]. rewrite not_elem_of_cons. intros [Hne Hs].
  destruct (String.eqb_spec j k) as [->|]; [done|by apply IH].
Qed.

Lemma map_get_delete k k' s : NoDup (map fst s) -> map_get k (map_delete k' s) = if String.eqb k' k then None else map_get k s.
Proof.
  induction s as [|[j x] s IH]; cbn [map_delete map_get map fst]; [by destruct (_ =? _)%string|]. rewrite NoDup_cons. intros [Hj Hs].
  destruct (String.eqb_spec j k') as [->|Hne]; cbn [map_get].
  - destruct (String.eqb_spec k' k) as [->|]; [by apply map_get_absent|done].
  - rewrite IH by done. destruct (String.eqb_spec j k) as [->|]; [|done]. by destruct (String.eqb_spec k' k) as [->|].
Qed.

Lemma map_set_keys k e s j : j ∈ map fst (map_set k e s) <-> j = k \/ j ∈ map fst s.
Proof.
  induction s as [|[i x] s IH]; cbn [map_set map fst]; [set_solver|].
  destruct (String.eqb_spec i k) as [->|]; cbn [map fst]; set_solver.
Qed.

Lemma map_set_nodup k e s : NoDup (map fst s) -> NoDup (map fst (map_set k e s)).
Proof.
  induction s as [|[i x] s IH]; cbn [map_set map fst]; [intros _; apply NoDup_singleton|]. rewrite NoDup_cons. intros [Hi Hs].
  destruct (String.eqb_spec i k) as [->|Hne]; cbn [map fst]; apply NoDup_cons; [done|]. split; [|by apply IH].
  rewrite map_set_keys. by intros [->|?].
Qed.

Lemma map_delete_nodup k s : NoDup (map fst s) -> NoDup (map fst (map_delete k s)).
Proof.
  assert (forall s j, j ∈ map fst (map_delete k s) -> j ∈ map fst s) as Hsub.
  { induction s0 as [|[i x] s0 IH]; intros j; cbn [map_delete map fst]; [done|].
    destruct (String.eqb i k); cbn [map fst]; [set_solver|]. rewrite !elem_of_cons. intros [->|?%IH]; auto. }
  induction s as [|[i x] s IH]; cbn [map_delete map fst]; [done|]. rewrite NoDup_cons. intros [Hi Hs].
  destruct (String.eqb_spec i k) as [->|Hne]; cbn [map fst]; [done|]. apply NoDup_cons. split; [|by apply IH].
  intros Hj%Hsub. done.
Qed.

Definition item_of (e : MemoryEntry) : Item := {| value := Some (m_value e); ttl := m_expiration e; i_metadata := m_metadata e |}.

(** The namespace of the table holds what the map holds. *)
Definition same (ns : string) (t : Table) (s : Entries) : Prop :=
  NoDup (map fst s) /\ forall k, t !! buildPk ns k = item_of <$> map_get k s.

(** Also (Interchangeable shims): as long as the namespace holds what the map
    holds, both shims answer every read alike at every time, lists apart, and
    every write leaves them alike. *)
Theorem shims_agree ns t s : same ns t s ->
  (forall k now, dynamo_get ns t k now = memory_get s k now /\
                 dynamo_get_json ns t k now = memory_get_json s k now /\
                 dynamo_getWithMetadata ns t k now = memory_getWithMetadata s k now) /\
  (forall k v o now, same ns (dynamo_put ns t k v o now) (memory_put s k v o now)) /\
  (forall k, same ns (dynamo_delete ns t k) (memory_delete s k)).
Proof.
  intros [Hn Hs]. assert (forall k now, dynamo_get ns t k now = memory_get s k now) as Hget.
  { intros k now. unfold dynamo_get, memory_get. rewrite Hs. destruct (map_get k s) as [e|]; [|done]. cbn.
    unfold dynamo_live, isExpired. cbn. destruct (m_expiration e) as [x|]; [|done]. by destruct (x <? now). }
  split; [|split].
  - intros k now. split; [done|]. split; [unfold dynamo_get_json, memory_get_json; by rewrite Hget|].
    unfold dynamo_getWithMetadata, memory_getWithMetadata. rewrite Hs. destruct (map_get k s) as [e|]; [|done]. cbn.
    unfold dynamo_live, isExpired. cbn. destruct (m_expiration e) as [x|]; [|done]. by destruct (x <? now).
  - intros k v o now. split; [by apply map_set_nodup|]. intros j. unfold dynamo_put, memory_put. rewrite map_get_set.
    destruct (String.eqb_spec k j) as [->|Hne]; [by rewrite lookup_insert_eq|].
    rewrite lookup_insert_ne; [apply Hs|]. intros Hb%legacy_pk_inj. done.
  - intros k. split; [by apply map_delete_nodup|]. intros j. unfold dynamo_delete, memory_delete. rewrite map_get_delete by done.
    destruct (String.eqb_spec k j) as [->|Hne]; [by rewrite lookup_delete_eq|].
    rewrite lookup_delete_ne; [apply Hs|]. intros Hb%legacy_pk_inj. done.
Qed.

(** ** Paging *)

(** A caller that asks for page after page until the list is complete. *)
Fixpoint collect (fuel : nat) (s : Entries) (p : option string) (lim : option Z) (cur : option string) (now : Z) : list KvKey * bool :=
  match fuel with
  | O => ([], false)
  | S n =>
      let r := memory_list s (Some {| prefix := p; limit := lim; cursor := cur |}) now in
      match next r with
      | None => (keys r, true)
      | Some c => let '(rest, finished) := collect n s p lim (Some c) now in ((keys r ++ rest)%list, finished)
      end
  end.

Lemma digits_span_all ds : str_all is_digit ds = true -> span_digits ds = (ds, "").
Proof.
  induction ds as [|c r IH]; [done|]. cbn [str_all span_digits]. intros [Hc Hr]%andb_true_iff. rewrite Hc, IH by done. done.
Qed.

Lemma parseInt10_pretty z : 0 <= z -> parseInt10 (pretty z) = Some z.
Proof.
  intros (Hne & Hd & Hv)%JwksFallback.JwksFallback.pretty_nonneg. unfold parseInt10.
  destruct (pretty z) as [|c r] eqn:E; [done|]. assert (is_digit c = true) as Hc by (cbn in Hd; by destruct (is_digit c)).
  assert (negb (is_space c) && negb (Ascii.eqb c "-") && negb (Ascii.eqb c "+") = true) as Hf.
  { apply (Bool.implb_true_iff (is_digit c)); [|done].
    apply (all_chars_spec (fun c => implb (is_digit c) (negb (is_space c) && negb (Ascii.eqb c "-") && negb (Ascii.eqb c "+")))). by vm_compute. }
  apply andb_true_iff in Hf as [[Hsp Hm]%andb_true_iff Hp]. apply negb_true_iff in Hsp, Hm, Hp.
  assert (trim_start (String.String c r) = String.String c r) as -> by (cbn [trim_start]; by rewrite Hsp).
  rewrite Hm, Hp. rewrite digits_span_all by done. cbn [String.eqb]. by rewrite Hv.
Qed.

Lemma parseInt10_print z : parseInt10 (pretty z) = Some z.
Proof.
  destruct (Z.le_gt_cases 0 z) as [Hz|Hz]; [by apply parseInt10_pretty|]. destruct z as [|x|x]; [lia|lia|].
  change (pretty (Z.neg x)) with (String.String "-" (pretty (Z.pos x))).
  destruct (JwksFallback.JwksFallback.pretty_nonneg (Z.pos x)) as (Hne & Hd & Hv); [lia|].
  unfold parseInt10. cbn [trim_start]. change (is_space "-") with false. cbn match. change (Ascii.eqb "-" "-") with true. cbn match.
  rewrite digits_span_all by done. apply String.eqb_neq in Hne. rewrite Hne. by rewrite Hv.
Qed.

Lemma js_slice_at {A} (l : list A) (i : nat) lim : 0 <= lim ->
  js_slice l (Z.of_nat i) (Z.of_nat i + lim) = take (Z.to_nat lim) (drop i l).
Proof.
  intros Hl. unfold js_slice. rewrite !(proj2 (Z.ltb_ge _ 0)) by lia.
  destruct (Z.le_gt_cases (Z.of_nat (length l)) (Z.of_nat i)) as [Hi|Hi].
  - rewrite !Z.min_r by lia. rewrite Nat2Z.id, Z.sub_diag. rewrite (drop_ge l i) by lia. by rewrite take_nil.
  - rewrite (Z.min_l (Z.of_nat i)) by lia. rewrite Nat2Z.id. destruct (Z.le_gt_cases (Z.of_nat i + lim) (Z.of_nat (length l))).
    + rewrite Z.min_l by lia. f_equal. lia.
    + rewrite Z.min_r by lia. rewrite !take_ge by (rewrite length_drop; lia). done.
Qed.

(** Also (Pages add up): with a limit of at least one, following the cursors from
    the first page ends, within one call more than there are keys, and gives
    every live key of the prefix once, in order. *)
Theorem pages_add_up s p lim now fuel :
  1 <= lim -> (length (live_keys s (default "" p) now) < fuel)%nat ->
  collect fuel s p (Some lim) None now = (live_keys s (default "" p) now, true).
Proof.
  intros Hlim. set (all := live_keys s (default "" p) now).
  assert (forall fuel i cur, (i <= length all)%nat -> (length all - i < fuel)%nat ->
    default 0 (cur ≫= parseInt10) = Z.of_nat i -> collect fuel s p (Some lim) cur now = (drop i all, true)) as Hgo.
  { clear fuel. induction fuel as [|fuel IH]; intros i cur Hi Hf Hc; [lia|]. cbn [collect].
    assert (memory_list s (Some {| prefix := p; limit := Some lim; cursor := cur |}) now =
      let page := take (Z.to_nat lim) (drop i all) in
      let nextStart := Z.of_nat i + Z.of_nat (length page) in
      let complete := Z.of_nat (length all) <=? nextStart in
      {| keys := page; list_complete := complete; next := if complete then None else Some (pretty nextStart) |}) as ->.
    { unfold memory_list. cbn [mbind option_bind prefix limit cursor]. rewrite Hc. fold all.
      change (default 1000 (Some lim)) with lim. rewrite js_slice_at by lia. done. }
    cbn zeta. cbn [keys next]. set (page := take (Z.to_nat lim) (drop i all)).
    assert (length page = Nat.min (Z.to_nat lim) (length all - i)) as Hlen by (unfold page; by rewrite length_take, length_drop).
    destruct (Z.leb_spec (Z.of_nat (length all)) (Z.of_nat i + Z.of_nat (length page))) as [Hd|Hd].
    - f_equal. unfold page. apply take_ge. rewrite length_drop. lia.
    - rewrite (IH (i + length page)%nat); [|lia|lia|].
      + f_equal. rewrite <- drop_drop. rewrite Hlen. rewrite Nat.min_l by lia. apply take_drop.
      + cbn [mbind option_bind]. rewrite parseInt10_pretty by lia. cbn. lia. }
  intros Hf. rewrite (Hgo fuel 0%nat None); [done|lia|lia|done].
Qed.

(** ** Runs *)

Lemma hex_bytes_length n v : String.length (hex_bytes n v) = (2 * n)%nat.
Proof. revert v. induction n as [|n IH]; intros v; cbn [hex_bytes String.length]; [done|]. rewrite IH. lia. Qed.

(** A codec that leaves the text as it is. *)
#[local] Program Instance plain_codec : @CursorCodec toy_digests := {| to_base64 s := s; from_base64 s := s |}.
Next Obligation. done. Qed.
Next Obligation. intros k m. apply (hex_bytes_length 32). Qed.

#[local] Definition row (k : string) (e : option Z) : string * MemoryEntry :=
  (k, {| m_value := "v" +:+ k; m_metadata := None; m_expiration := e |}).
#[local] Definition entries : Entries := [row "a:1" None; row "b" (Some 10); row "a:2" (Some 9); row "a:3" (Some 11)].

Example legacy_runs :
  stripPrefix "ns" (buildPk "ns" "k") = "k" /\
  parseCursor (printCursor [("pk", VObject [("S", VString "ns:k")]); ("sk", VObject [("S", VString "v")])] (Some "s")) (Some "s") =
    Some [("pk", VObject [("S", VString "ns:k")]); ("sk", VObject [("S", VString "v")])] /\
  parseCursor "tampered" (Some "s") = None /\
  memory_list entries (Some {| prefix := Some "a:"; limit := Some 1; cursor := None |}) 10 =
    {| keys := [{| name := "a:1"; k_expiration := None |}]; list_complete := false; next := Some "1" |} /\
  memory_list entries (Some {| prefix := Some "a:"; limit := Some 1; cursor := Some "1" |}) 10 =
    {| keys := [{| name := "a:3"; k_expiration := Some 11 |}]; list_complete := true; next := None |}.
Proof. vm_compute. repeat split. Qed.

Lemma namespaces_apart_witness : stripPrefix "sessions" (buildPk "sessions" "a:b") = "a:b".
Proof. exact (proj2 (namespaces_apart "sessions" "limits" "a:b" "c" eq_refl eq_refl)). Defined.

Lemma cursor_round_trip_witness :
  parseCursor (printCursor [("pk", VString "ns:k")] (Some "s")) (Some "s") = Some [("pk", VString "ns:k")].
Proof. apply (cursor_round_trip [("pk", VString "ns:k")] (Some "s")); [split; [apply NoDup_singleton|repeat constructor]|reflexivity]. Defined.

Lemma cursor_signed_witness : exists payload sig,
  printCursor [("pk", VString "ns:k")] (Some "s") = payload +:+ "." +:+ sig /\ from_hex sig = from_hex (hmac_sha256_hex "s" payload).
Proof.
  destruct (cursor_signed (printCursor [("pk", VString "ns:k")] (Some "s")) "s" [("pk", VString "ns:k")]) as (p & g & H1 & _ & H2 & _);
    [vm_compute; reflexivity|]. exists p, g. split; [exact H1|exact H2].
Defined.

Lemma shims_agree_witness : dynamo_get "ns" ∅ "k" 0 = memory_get [] "k" 0.
Proof.
  assert (same "ns" ∅ []) as H by (split; [apply NoDup_nil_2|intros k; apply lookup_empty]).
  exact (proj1 (proj1 (shims_agree "ns" ∅ [] H) "k" 0)).
Defined.

Lemma pages_add_up_witness : collect 5 entries (Some "a:") (Some 1) None 10 = (live_keys entries "a:" 10, true).
Proof. apply (pages_add_up entries (Some "a:") 1 10 5); [lia|vm_compute; lia]. Defined.

(** ** What goes wrong *)

(** A namespace with a colon reads and lists keys of another one. *)
Lemma namespaces_overlap v o now :
  dynamo_get "a:b" (dynamo_put "a" ∅ "b:c" v o now) "c" now = dynamo_get "a" (dynamo_put "a" ∅ "b:c" v o now) "b:c" now /\
  startsWith (buildPk "a:b" "c") (query_prefix "a" None) = true.
Proof. by split. Qed.

(** In the second of its expiry a key is read by both shims, listed by the one in
    memory, and missing from the list of the other. *)
Lemma listed_differently_when_expiring :
  let o := Some {| expiration := Some 10; expirationTtl := None; metadata := None |} in
  let t := dynamo_put "ns" ∅ "k" "v" o 0 in
  dynamo_get "ns" t "k" 10 = Some "v" /\
  keys (dynamo_list "ns" None ([(buildPk "ns" "k", {| value := Some "v"; ttl := Some 10; i_metadata := None |})], None) 10) = [] /\
  keys (memory_list (memory_put [] "k" "v" o 0) None 10) = [{| name := "k"; k_expiration := Some 10 |}].
Proof. vm_compute. repeat split. Qed.

(** With a limit of nothing the cursor never moves. *)
Lemma limit_zero_never_ends fuel : snd (collect fuel entries None (Some 0) None 10) = false.
Proof.
  assert (forall cur, cur = None \/ cur = Some "0" -> snd (collect fuel entries None (Some 0) cur 10) = false) as H; [|apply H; by left].
  induction fuel as [|fuel IH]; intros cur Hc; [done|]. cbn [collect].
  assert (next (memory_list entries (Some {| prefix := None; limit := Some 0; cursor := cur |}) 10) = Some "0") as ->
    by (destruct Hc as [-> | ->]; vm_compute; reflexivity).
  specialize (IH (Some "0") ltac:(by right)). by destruct (collect fuel _ _ _ _ _).
Qed.
End LegacyKv.
