(* ===== verification/CdkProps.v ===== *)
(** Checks of construct properties at synthesis: vestibulum-cdk
    [magic-link-identity/prop-validation.ts], [custom-attributes/index.ts],
    [aspects/federation-custom-attributes-aspect.ts],
    [magic-link-auth-site/ses-validation.ts]; and the handler that
    [_internal/cost-dos-guard.ts] deploys.

    The constructs themselves describe infrastructure; these checks decide
    whether there is any. An error is its kind and the name it is about. *)

From stdpp Require Import pretty.
From S2P Require Import Prelude JsString Regex Prog SignIn.
From S2P Require LegacyKv.
From Stdlib Require Import Ascii.

#[local] Open Scope string_scope.
#[local] Open Scope Z_scope.

Module CdkProps.

(** ** prop-validation.ts: custom attributes *)

Inductive DataType := String_ | Number_ | Boolean_ | DateTime_.

Record CustomAttributeDeclaration := {
  name : string;
  dataType : DataType;
  mutable : option bool;
  required : option bool;
  minLength : option Z;
  maxLength : option Z
}.

Definition MAX_CUSTOM_ATTRIBUTES_PER_POOL : nat := 50.
Definition MAX_CUSTOM_ATTRIBUTE_NAME_LENGTH : nat := 20.
Definition MIN_CUSTOM_ATTRIBUTE_NAME_LENGTH : nat := 1.
Definition name_char (c : ascii) : bool := is_alnum c || Ascii.eqb c "_".
Definition CUSTOM_ATTRIBUTE_NAME_REGEX : re := plus (RCls name_char).
Definition BASE_CLAIMS_OVERHEAD_BYTES : Z := 2560.
Definition TOKEN_SIZE_WARNING_THRESHOLD_BYTES : Z := 5 * 1024.
Definition TOKEN_SIZE_ERROR_THRESHOLD_BYTES : Z := 6 * 1024.
Definition TOO_MANY_ATTRIBUTES_WARNING_THRESHOLD : nat := 10.
Definition DEFAULT_ATTRIBUTE_SIZE_BYTES : Z := 256.

Inductive props_error :=
| TooManyAttributes (count : nat)
| BadName (name : string)
| BadNameLength (name : string)
| DuplicateName (name : string)
| RequiredImmutable (name : string)
| LengthOnNonString (name : string)
| LengthsCrossed (name : string)
| TokenTooLarge (bytes : Z)
| SenderShape (sender : string)
| SenderParts (sender : string)
| SenderDomainMismatch (domain zone : string)
| SignupModeMissing
| BadEnrollment (value : string)
| NoPatterns (prop : string)
| BadPattern (prop pattern : string)
| ImmutableOnFederation (name : string).

Definition check_declaration (seenNames : list string) (decl : CustomAttributeDeclaration) : result props_error (list string) :=
  let len := String.length (name decl) in
  if negb (re_match CUSTOM_ATTRIBUTE_NAME_REGEX (name decl)) then Throw (BadName (name decl))
  else if (len <? MIN_CUSTOM_ATTRIBUTE_NAME_LENGTH)%nat || (MAX_CUSTOM_ATTRIBUTE_NAME_LENGTH <? len)%nat
  then Throw (BadNameLength (name decl))
  else if existsb (String.eqb (name decl)) seenNames then Throw (DuplicateName (name decl))
  else
    let seenNames := name decl :: seenNames in
    match required decl, mutable decl with
    | Some true, Some false => Throw (RequiredImmutable (name decl))
    | _, _ =>
        match dataType decl, minLength decl, maxLength decl with
        | String_, Some lo, Some hi => if hi <? lo then Throw (LengthsCrossed (name decl)) else Ok seenNames
        | String_, _, _ | _, None, None => Ok seenNames
        | _, _, _ => Throw (LengthOnNonString (name decl))
        end
    end.

Fixpoint check_declarations (seenNames : list string) (l : list CustomAttributeDeclaration) : result props_error unit :=
  match l with
  | [] => Ok tt
  | decl :: rest => match check_declaration seenNames decl with Ok seen => check_declarations seen rest | Throw e => Throw e end
  end.

Definition validateCustomAttributeDeclarations (l : list CustomAttributeDeclaration) : result props_error unit :=
  if (MAX_CUSTOM_ATTRIBUTES_PER_POOL <? length l)%nat then Throw (TooManyAttributes (length l)) else check_declarations [] l.

(** The length of [custom:name] in quotes, with its colon, two quotes and a
    comma. *)
Definition keyOverhead (nm : string) : Z := Z.of_nat (String.length nm) + 13.

Definition estimateTokenSizeBytes (l : list CustomAttributeDeclaration) : Z :=
  fold_left (fun total decl => total + (default DEFAULT_ATTRIBUTE_SIZE_BYTES (maxLength decl) + keyOverhead (name decl))) l
    BASE_CLAIMS_OVERHEAD_BYTES.

(** The estimate, and whether it comes with a warning. *)
Definition validateTokenSize (l : list CustomAttributeDeclaration) : result props_error (Z * bool) :=
  let bytes := estimateTokenSizeBytes l in
  if TOKEN_SIZE_ERROR_THRESHOLD_BYTES <? bytes then Throw (TokenTooLarge bytes)
  else Ok (bytes, TOKEN_SIZE_WARNING_THRESHOLD_BYTES <? bytes).

(** ** prop-validation.ts: sender, sign-up, recipients *)

Fixpoint indexOf (c : ascii) (s : string) : option nat :=
  match s with
  | EmptyString => None
  | String.String d r => if Ascii.eqb d c then Some 0%nat else S <$> indexOf c r
  end.

Definition validateSesIdentitySender (email : string) : result props_error string :=
  match indexOf "@" email with
  | None => Throw (SenderShape email)
  | Some at_ =>
      let local := str_take at_ email in
      let domain := str_drop (S at_) email in
      if (String.length local =? 0)%nat || (String.length domain =? 0)%nat then Throw (SenderParts email) else Ok domain
  end.

Definition validateSenderMatchesHostedZone (senderDomain zoneName : string) : result props_error unit :=
  if String.eqb senderDomain zoneName || endsWith senderDomain ("." +:+ zoneName) then Ok tt
  else Throw (SenderDomainMismatch senderDomain zoneName).

Inductive SignupMode := open | admin_invite_only.

Definition validateSignupModeForFederation (federationEnabled : bool) (signupMode : option SignupMode) : result props_error unit :=
  match federationEnabled, signupMode with true, None => Throw SignupModeMissing | _, _ => Ok tt end.

(** The value as it prints. *)
Definition validateEnrollment (value : string) : result props_error Enrollment :=
  if String.eqb value "admin-only" then Ok admin_only
  else if String.eqb value "self-signup" then Ok self_signup
  else Throw (BadEnrollment value).

Fixpoint check_patterns (propName : string) (needsAt : bool) (l : list string) : result props_error unit :=
  match l with
  | [] => Ok tt
  | p :: rest =>
      if String.eqb p "" || (needsAt && negb (includes p "@")) then Throw (BadPattern propName p)
      else check_patterns propName needsAt rest
  end.

Definition validateRecipientPatterns (propName : string) (patterns : list string) : result props_error (list string) :=
  match patterns with
  | [] => Throw (NoPatterns propName)
  | _ =>
      match check_patterns propName (String.eqb propName "allowedRecipientPatterns") patterns with
      | Ok _ => Ok patterns
      | Throw e => Throw e
      end
  end.

(** ** custom-attributes/index.ts *)

Inductive CognitoAttribute :=
| StringAttribute (mutable : bool) (minLen maxLen : option Z)
| NumberAttribute (mutable : bool)
| BooleanAttribute (mutable : bool)
| DateTimeAttribute (mutable : bool).

Definition buildCognitoAttribute (decl : CustomAttributeDeclaration) : CognitoAttribute :=
  let m := default true (mutable decl) in
  match dataType decl with
  | String_ => StringAttribute m (minLength decl) (maxLength decl)
  | Number_ => NumberAttribute m
  | Boolean_ => BooleanAttribute m
  | DateTime_ => DateTimeAttribute m
  end.

(** Assignment to a member of an object: to [__proto__] it adds no member. *)
Definition set_member {A} (k : string) (v : A) (m : gmap string A) : gmap string A :=
  if String.eqb k "__proto__" then m else <[k := v]> m.

(** The file repeats the checks of [prop-validation.ts], condition by condition,
    with messages of its own. *)
Definition validateDeclarations : list CustomAttributeDeclaration -> result props_error unit := validateCustomAttributeDeclarations.

Definition toCognitoCustomAttributes (l : list CustomAttributeDeclaration) : result props_error (gmap string CognitoAttribute) :=
  match validateDeclarations l with
  | Throw e => Throw e
  | Ok _ => Ok (fold_left (fun m decl => set_member (name decl) (buildCognitoAttribute decl) m) l ∅)
  end.

(** ** aspects/federation-custom-attributes-aspect.ts *)

Record SchemaAttribute := { s_name : option string; s_mutable : option bool; s_maxLength : option string }.

Definition COGNITO_STANDARD_ATTRIBUTE_NAMES : list string :=
  ["address"; "birthdate"; "email"; "email_verified"; "family_name"; "gender"; "given_name"; "locale"; "middle_name"; "name";
   "nickname"; "phone_number"; "phone_number_verified"; "picture"; "preferred_username"; "profile"; "updated_at"; "website";
   "zoneinfo"; "sub"].

Definition isCustomAttribute (attr : SchemaAttribute) : bool :=
  match s_name attr with None => false | Some n => negb (existsb (String.eqb n) COGNITO_STANDARD_ATTRIBUTE_NAMES) end.

Definition schema_estimate (attrs : list SchemaAttribute) : Z :=
  fold_left (fun total attr => total + (default 256 (s_maxLength attr ≫= parseInt10) + keyOverhead (default "" (s_name attr)))) attrs
    BASE_CLAIMS_OVERHEAD_BYTES.

Inductive severity := sev_error | sev_warning.
Inductive warning := NoCustomAttributes | TooMany (count : nat) | Immutable (name : string) | TokenLarge (bytes : Z).

Fixpoint check_immutable (sev : severity) (attrs : list SchemaAttribute) : result props_error (list warning) :=
  match attrs with
  | [] => Ok []
  | attr :: rest =>
      let nm := default "(unnamed)" (s_name attr) in
      match s_mutable attr, sev with
      | Some false, sev_error => Throw (ImmutableOnFederation nm)
      | Some false, sev_warning => match check_immutable sev rest with Ok w => Ok (Immutable nm :: w) | Throw e => Throw e end
      | _, _ => check_immutable sev rest
      end
  end.

(** [visit] on a user pool inside the subtree: its warnings, or the error that
    stops the synthesis. *)
Definition visit (federationEnabled : bool) (sev : option severity) (schema : list SchemaAttribute) : result props_error (list warning) :=
  let customAttrs := List.filter isCustomAttribute schema in
  let w1 := if federationEnabled && (length customAttrs =? 0)%nat then [NoCustomAttributes] else [] in
  let w2 := if (TOO_MANY_ATTRIBUTES_WARNING_THRESHOLD <? length customAttrs)%nat then [TooMany (length customAttrs)] else [] in
  match (if federationEnabled then check_immutable (default sev_error sev) customAttrs else Ok []) with
  | Throw e => Throw e
  | Ok w3 =>
      let estimatedBytes := schema_estimate customAttrs in
      if TOKEN_SIZE_ERROR_THRESHOLD_BYTES <? estimatedBytes then Throw (TokenTooLarge estimatedBytes)
      else Ok (w1 ++ w2 ++ w3 ++ (if TOKEN_SIZE_WARNING_THRESHOLD_BYTES <? estimatedBytes then [TokenLarge estimatedBytes] else []))%list
  end.

(** ** ses-validation.ts *)

Definition extractSenderDomain (sender : string) : result props_error string :=
  match indexOf "@" sender with
  | None => Throw (SenderShape sender)
  | Some at_ =>
      if (at_ <? 1)%nat || (at_ =? String.length sender - 1)%nat then Throw (SenderShape sender)
      else
        let local := str_take at_ sender in
        let domain := str_drop (S at_) sender in
        if (String.length local =? 0)%nat || (String.length domain =? 0)%nat || includes domain "@" then Throw (SenderShape sender)
        else Ok (toLowerCase domain)
  end.

Definition stripTrailingDot (value : string) : string :=
  if endsWith value "." then str_take (String.length value - 1) value else value.

Definition TOKEN_RE : re :=
  (lit "$" ⋅ lit "{" ⋅ plus (RCls (fun c => is_alnum c || char_in c "_.-")) ⋅ lit "}")%re.

Definition looksLikeToken (value : string) : bool := includes value "${Token[" || re_match TOKEN_RE value.

Definition validateSenderAgainstZone (sender zoneName : string) : result props_error unit :=
  if looksLikeToken sender || looksLikeToken zoneName then Ok tt
  else
    match extractSenderDomain sender with
    | Throw e => Throw e
    | Ok senderDomain =>
        let zone := stripTrailingDot (toLowerCase zoneName) in
        if String.eqb senderDomain zone then Ok tt
        else if endsWith senderDomain ("." +:+ zone) then Ok tt
        else Throw (SenderDomainMismatch senderDomain zone)
    end.

(** ** cost-dos-guard.ts *)

Inductive guard_error := GuardNotEnabled | BadCap.

(** [cap]: [None] is what is not finite. *)
Definition installCostDosGuard (enabled : bool) (cap : option Z) : result guard_error Z :=
  if negb enabled then Throw GuardNotEnabled
  else match cap with Some n => if n <=? 0 then Throw BadCap else Ok n | None => Throw BadCap end.

(** A pool: who may create users, and its other settings under their names. *)
Record UserPool := { adminOnly : option bool; otherAdminConfig : gmap string string; settings : gmap string string }.

Inductive pool_cmd : Type -> Type :=
| DescribeUserPool : pool_cmd UserPool
| UpdateUserPool (admin : bool) (adminConfig : gmap string string) (restated : gmap string string) : pool_cmd unit.

(** [UpdateUserPool] replaces: what it does not name is reset. *)
Definition pool_perform {X} (w : UserPool) (c : pool_cmd X) : UserPool * result unit X :=
  match c in pool_cmd X return UserPool * result unit X with
  | DescribeUserPool => (w, Ok w)
  | UpdateUserPool a other l => ({| adminOnly := Some a; otherAdminConfig := other; settings := l |}, Ok tt)
  end.

#[export] Instance pool_service : Service UserPool pool_cmd unit unit := {
  perform := @pool_perform;
  lost := tt;
  record_event w _ := w
}.

(** The settings the handler carries over. *)
Definition CARRIED : list string :=
  ["Policies"; "AutoVerifiedAttributes"; "UserAttributeUpdateSettings"; "MfaConfiguration"; "DeviceConfiguration";
   "EmailConfiguration"; "SmsConfiguration"; "UserPoolTags"; "AccountRecoverySetting"].

Definition carried (m : gmap string string) : gmap string string :=
  fold_right (fun k acc => match m !! k with Some v => if String.eqb v "" then acc else <[k := v]> acc | None => acc end) ∅ CARRIED.

Inductive defence := NoRecords | AlreadyDisabled | AlarmFired (recordCount : nat).
Inductive defence_error := PoolIdMissing | CallFailed.

Definition selfDefenceHandler (poolId : string) (records : nat) : Prog.prog pool_cmd unit defence_error unit defence :=
  if String.eqb poolId "" then Raise PoolIdMissing
  else if (records =? 0)%nat then Ret NoRecords
  else Send DescribeUserPool (fun r =>
    match r with
    | Throw _ => Raise CallFailed
    | Ok pool =>
        match adminOnly pool with
        | Some true => Ret AlreadyDisabled
        | _ => Send (UpdateUserPool true (otherAdminConfig pool) (carried (settings pool))) (fun r =>
                 match r with Ok _ => Ret (AlarmFired records) | Throw _ => Raise CallFailed end)
        end
    end).

(** ** Custom attributes *)

(** What Cognito accepts. *)
Definition good (decl : CustomAttributeDeclaration) : Prop :=
  (1 <= String.length (name decl) <= 20)%nat /\ str_all name_char (name decl) = true /\
  ~ (required decl = Some true /\ mutable decl = Some false) /\
  (dataType decl <> String_ -> minLength decl = None /\ maxLength decl = None) /\
  (forall lo hi, minLength decl = Some lo -> maxLength decl = Some hi -> lo <= hi).

Lemma existsb_string n l : existsb (String.eqb n) l = true <-> In n l.
Proof.
  rewrite existsb_exists. split; [by intros (m & Hm & ->%String.eqb_eq)|]. intros Hn. exists n. by rewrite String.eqb_refl.
Qed.

Lemma check_declaration_spec seen decl :
  match check_declaration seen decl with
  | Ok seen' => seen' = name decl :: seen /\ ~ In (name decl) seen /\ good decl
  | Throw _ => In (name decl) seen \/ ~ good decl
  end.
Proof.
  unfold check_declaration, good, CUSTOM_ATTRIBUTE_NAME_REGEX, MIN_CUSTOM_ATTRIBUTE_NAME_LENGTH, MAX_CUSTOM_ATTRIBUTE_NAME_LENGTH.
  rewrite match_plus_cls. destruct (str_all name_char (name decl)) eqn:Hc; [|destruct (non_empty _); right; intros (_ & H & _); done].
  destruct (non_empty (name decl)) eqn:Hne; cbn [andb negb]; [|right; intros (H & _); destruct (name decl); cbn in *; [lia|done]].
  destruct (Nat.ltb_spec (String.length (name decl)) 1); cbn [orb]; [right; intros (H1 & _); lia|].
  destruct (Nat.ltb_spec 20 (String.length (name decl))); cbn [orb]; [right; intros (H1 & _); lia|].
  destruct (existsb _ seen) eqn:Hin; [left; by apply existsb_string|].
  assert (~ In (name decl) seen) as Hn by (intros Hi%existsb_string; congruence).
  destruct (required decl) as [[]|], (mutable decl) as [[]|]; try (right; intros (_ & _ & Hr & _); by destruct Hr);
    destruct (dataType decl), (minLength decl) as [lo|], (maxLength decl) as [hi|];
    try (right; intros (_ & _ & _ & Hd & _); by destruct Hd);
    try (destruct (Z.ltb_spec hi lo); [right; intros (_ & _ & _ & _ & Hx); specialize (Hx _ _ eq_refl eq_refl); lia|]);
    (split; [done|]; split; [done|]; split; [lia|]; split; [done|]; split; [intros [? ?]; done|]; split; [done|]; intros ? ? [=] [=]; lia).
Qed.

Lemma check_declarations_spec l : forall seen,
  check_declarations seen l = Ok tt <-> NoDup (map name l) /\ (forall d, In d l -> ~ In (name d) seen /\ good d).
Proof.
  induction l as [|d l IH]; intros seen; cbn [check_declarations map]; [split; [split; [apply NoDup_nil_2|done]|done]|].
  pose proof (check_declaration_spec seen d) as Hd. destruct (check_declaration seen d) as [seen'|e].
  - destruct Hd as (-> & Hn & Hg). rewrite IH, NoDup_cons, list_elem_of_In. split.
    + intros [Hnd Hall]. split.
      * split; [|done]. intros (x & Hx & Hin)%in_map_iff. destruct (Hall x Hin) as [Hs _]. apply Hs. by left.
      * intros x [<-|Hx]; [done|]. destruct (Hall x Hx) as [Hs Hgx]. split; [|done]. intros Hi. apply Hs. by right.
    + intros [[Hnot Hnd] Hall]. split; [done|]. intros x Hx. destruct (Hall x (or_intror Hx)) as [Hs Hgx]. split; [|done].
      intros [He|Hi]; [|done]. apply Hnot. rewrite He. by apply in_map.
  - split; [done|]. intros [_ Hall]. destruct (Hall d (or_introl eq_refl)) as [Hs Hg]. by destruct Hd.
Qed.

(** Also (Which attribute lists pass): exactly the lists of at most 50
    declarations with distinct names, each one that Cognito accepts. *)
Theorem declarations_spec l :
  validateCustomAttributeDeclarations l = Ok tt <-> (length l <= 50)%nat /\ NoDup (map name l) /\ Forall good l.
Proof.
  unfold validateCustomAttributeDeclarations, MAX_CUSTOM_ATTRIBUTES_PER_POOL. destruct (Nat.ltb_spec 50 (length l)).
  - split; [done|]. intros [? _]. lia.
  - rewrite check_declarations_spec, Forall_forall. split.
    + intros [Hn Hall]. split; [done|]. split; [done|]. intros d Hd%list_elem_of_In. by apply Hall.
    + intros (_ & Hn & Hall). split; [done|]. intros d Hd. split; [by intros []|]. by apply Hall, list_elem_of_In.
Qed.

Lemma members_fresh l : forall m, "__proto__" ∉ map name l -> NoDup (map name l) -> (forall d, In d l -> m !! name d = None) ->
  let m' := fold_left (fun m decl => set_member (name decl) (buildCognitoAttribute decl) m) l m in
  size m' = (size m + length l)%nat /\ (forall d, In d l -> m' !! name d = Some (buildCognitoAttribute d)) /\
  (forall k v, m !! k = Some v -> m' !! k = Some v).
Proof.
  induction l as [|d l IH]; intros m Hp Hn Hm; cbn [fold_left]; [split; [cbn; lia|by split]|].
  cbn [map] in Hp, Hn. rewrite not_elem_of_cons in Hp. destruct Hp as [Hpd Hp]. apply NoDup_cons in Hn as [Hd Hn].
  assert (set_member (name d) (buildCognitoAttribute d) m = <[name d := buildCognitoAttribute d]> m) as ->.
  { unfold set_member. destruct (String.eqb_spec (name d) "__proto__"); [by subst|done]. }
  destruct (IH (<[name d := buildCognitoAttribute d]> m) Hp Hn) as (Hs & Hl & Hk).
  { intros x Hx. rewrite lookup_insert_ne; [apply Hm; by right|]. intros He. apply Hd. rewrite He. by apply list_elem_of_In, in_map. }
  cbn zeta in *. split; [|split].
  - rewrite Hs, map_size_insert_None by (apply Hm; by left). cbn [length]. lia.
  - intros x [<-|Hx]; [|by apply Hl]. apply Hk, lookup_insert_eq.
  - intros k v Hkv. apply Hk. rewrite lookup_insert_ne; [done|]. intros <-. rewrite Hm in Hkv by (by left). done.
Qed.

(** Also (Every declaration becomes an attribute): a list that passes the checks,
    and does not use the name [__proto__], becomes a record with one attribute
    per declaration, of its type, mutability and lengths. *)
Theorem attributes_complete l m : "__proto__" ∉ map name l -> toCognitoCustomAttributes l = Ok m ->
  size m = length l /\ forall d, In d l -> m !! name d = Some (buildCognitoAttribute d).
Proof.
  unfold toCognitoCustomAttributes, validateDeclarations. intros Hp. destruct (validateCustomAttributeDeclarations l) as [[]|e] eqn:E; [|done].
  intros [= <-]. apply declarations_spec in E as (_ & Hn & _).
  destruct (members_fresh l ∅ Hp Hn) as (Hs & Hl & _); [intros; apply lookup_empty|]. split; [|done]. by rewrite Hs, map_size_empty.
Qed.

(** ** Token size *)

Lemma fold_sum {A} (f : A -> Z) l : forall b, fold_left (fun t x => t + f x) l b = b + fold_left (fun t x => t + f x) l 0.
Proof. induction l as [|x l IH]; intros b; cbn [fold_left]; [lia|]. rewrite IH, (IH (0 + f x)). lia. Qed.

(** The schema entry that declares an attribute; the CDK prints the lengths. *)
Definition schema_of (decl : CustomAttributeDeclaration) : SchemaAttribute :=
  {| s_name := Some (name decl); s_mutable := Some (default true (mutable decl)); s_maxLength := pretty <$> maxLength decl |}.

(** Also (Both estimates agree): for declared attributes none of which has the
    name of a standard one, the aspect counts every one, and estimates the size
    of the token as the construct does. *)
Theorem estimates_agree l :
  Forall (fun d => ~ In (name d) COGNITO_STANDARD_ATTRIBUTE_NAMES) l -> Forall (fun d => default 0 (maxLength d) >= 0) l ->
  List.filter isCustomAttribute (map schema_of l) = map schema_of l /\
  schema_estimate (map schema_of l) = estimateTokenSizeBytes l.
Proof.
  intros Hs Hm. split.
  - induction Hs as [|d l Hd Hl IH]; [done|]. inversion Hm. cbn [map List.filter]. unfold isCustomAttribute at 1. cbn [s_name schema_of].
    destruct (existsb _ _) eqn:E; [by apply existsb_string in E|]. cbn [negb]. by rewrite IH.
  - unfold schema_estimate, estimateTokenSizeBytes. generalize BASE_CLAIMS_OVERHEAD_BYTES. clear Hs.
    induction Hm as [|d l Hd Hl IH]; intros b; [done|]. cbn [map fold_left]. rewrite IH. cbn [schema_of s_maxLength s_name].
    destruct (maxLength d) as [n|]; cbn [fmap option_fmap option_map mbind option_bind]; [|done].
    rewrite LegacyKv.LegacyKv.parseInt10_pretty; [done|]. cbn in Hd. lia.
Qed.

(** Also (What the aspect guarantees): when it lets a federated pool pass under
    its default severity, no attribute it counts is immutable and the estimated
    token is at most six kibibytes; it warns of any that exceeds five. *)
Theorem aspect_guards schema w : visit true None schema = Ok w ->
  let customAttrs := List.filter isCustomAttribute schema in
  (forall a, In a customAttrs -> s_mutable a <> Some false) /\
  schema_estimate customAttrs <= 6144 /\
  (5120 < schema_estimate customAttrs -> In (TokenLarge (schema_estimate customAttrs)) w).
Proof.
  intros Hv. cbn zeta. unfold visit in Hv. set (customAttrs := List.filter isCustomAttribute schema) in *. cbn [default from_option] in Hv. unfold Datatypes.id in Hv.
  destruct (check_immutable sev_error customAttrs) as [w3|e] eqn:Hc; [|done].
  change TOKEN_SIZE_ERROR_THRESHOLD_BYTES with 6144 in Hv. change TOKEN_SIZE_WARNING_THRESHOLD_BYTES with 5120 in Hv.
  destruct (Z.ltb_spec 6144 (schema_estimate customAttrs)); [done|]. injection Hv as <-. split; [|split].
  - clear -Hc. revert w3 Hc. induction customAttrs as [|x l IH]; intros w3 Hc a; [by intros []|]. cbn [check_immutable] in Hc.
    destruct (s_mutable x) as [[]|] eqn:Ex; try done; (intros [<-|Ha]; [congruence|]); by eapply IH.
  - done.
  - intros Hl. destruct (Z.ltb_spec 5120 (schema_estimate customAttrs)); [|lia]. rewrite !in_app_iff. right. right. right. by left.
Qed.

(** ** The sender *)

Lemma indexOf_split c s n : indexOf c s = Some n -> s = str_take n s +:+ String.String c (str_drop (S n) s) /\ char_in c (str_take n s) = false /\ String.length (str_take n s) = n.
Proof.
  revert n. induction s as [|d s IH]; intros n; cbn [indexOf]; [done|]. destruct (Ascii.eqb_spec d c) as [->|Hne].
  - intros [= <-]. cbn. split; [by destruct s|done].
  - destruct (indexOf c s) as [m|]; [|done]. intros [= <-]. destruct (IH m eq_refl) as (He & Hc & Hl). split; [|split; [|cbn; by rewrite Hl]].
    + cbn [str_take str_drop String.append]. f_equal. exact He.
    + unfold char_in in *. cbn [str_take str_exists]. rewrite Hc, orb_false_r. apply Ascii.eqb_neq. done.
Qed.

(** Also (The sender's zone): a sender that passes has a domain that is the hosted
    zone or one below it. *)
Theorem sender_in_zone email zone d : validateSesIdentitySender email = Ok d -> validateSenderMatchesHostedZone d zone = Ok tt ->
  exists local, local <> "" /\ email = local +:+ "@" +:+ d /\ char_in "@" local = false /\ (d = zone \/ exists p, d = p +:+ "." +:+ zone).
Proof.
  unfold validateSesIdentitySender, validateSenderMatchesHostedZone. destruct (indexOf "@" email) as [n|] eqn:Hi; [|done].
  apply indexOf_split in Hi as (He & Hc & _). destruct (Nat.eqb_spec (String.length (str_take n email)) 0) as [|Hl]; [done|]. cbn [orb].
  destruct (_ =? 0)%nat; [done|]. intros [= <-]. destruct (_ || _) eqn:E; [|done]. intros _. exists (str_take n email).
  split; [intros H0; by rewrite H0 in Hl|]. split; [done|]. split; [done|]. apply orb_true_iff in E as [E%String.eqb_eq|E]; [by left|].
  right. by apply endsWith_spec in E.
Qed.

(** Also (Two checks of one sender): for a sender and a zone in lower case, with
    one at-sign, no trailing dot and no CDK token, the check of the identity and
    that of the site accept the same. *)
Theorem sender_checks_agree email zone d :
  validateSesIdentitySender email = Ok d -> includes d "@" = false -> toLowerCase d = d -> toLowerCase zone = zone ->
  endsWith zone "." = false -> looksLikeToken email = false -> looksLikeToken zone = false ->
  validateSenderMatchesHostedZone d zone = Ok tt <-> validateSenderAgainstZone email zone = Ok tt.
Proof.
  intros Hv Hd Hld Hlz Hz Ht1 Ht2. unfold validateSenderAgainstZone, stripTrailingDot. rewrite Ht1, Ht2, Hlz, Hz. cbn [orb].
  assert (extractSenderDomain email = Ok d) as ->.
  { unfold validateSesIdentitySender in Hv. unfold extractSenderDomain. destruct (indexOf "@" email) as [n|] eqn:Hi; [|done].
    pose proof (indexOf_split _ _ _ Hi) as (He & _ & Hn). destruct ((_ || _) : bool) eqn:E in Hv; [done|].
    assert (str_drop (S n) email = d) as Hdr by (injection Hv as Hv; exact Hv).
    apply orb_false_iff in E as [E1 E2]. apply Nat.eqb_neq in E1, E2.
    pose proof (f_equal String.length He) as Hlen. rewrite str_length_app in Hlen. cbn [String.length] in Hlen.
    destruct (Nat.ltb_spec n 1); [lia|]. destruct (Nat.eqb_spec n (String.length email - 1)); [lia|]. cbn [orb].
    apply Nat.eqb_neq in E1, E2. rewrite E1, E2. cbn [orb]. by rewrite Hdr, Hd, Hld. }
  unfold validateSenderMatchesHostedZone. destruct (String.eqb d zone); [done|]. cbn [orb]. by destruct (endsWith d _).
Qed.

(** ** Self-defence *)

Lemma carried_lookup m k : carried m !! k = if bool_decide (k ∈ CARRIED) then (v ← m !! k; if String.eqb v "" then None else Some v) else None.
Proof.
  unfold carried. induction CARRIED as [|x l IH]; cbn [fold_right]; [by rewrite lookup_empty|].
  destruct (decide (k = x)) as [->|Hne].
  - rewrite bool_decide_true by (by left). destruct (m !! x) as [v|] eqn:Ex; cbn [mbind option_bind].
    + destruct (String.eqb v "") eqn:Ev; [|by rewrite lookup_insert_eq]. rewrite IH. destruct (bool_decide _); [|done].
      cbn. by rewrite Ev.
    + rewrite IH. by destruct (bool_decide _).
  - assert (bool_decide (k ∈ x :: l) = bool_decide (k ∈ l)) as -> by (apply bool_decide_ext; set_solver).
    destruct (m !! x) as [v|]; [|apply IH]. destruct (String.eqb v ""); [apply IH|]. rewrite lookup_insert_ne by done. apply IH.
Qed.

(** Also (Self-sign-up is switched off): whatever messages are lost, when the
    handler reports that it acted, or that nothing was left to do, only
    administrators create users; the settings it carries over are as they were,
    and it changes nothing unless it acted or its reply was lost. *)
Theorem self_defence_spec poolId records w :
  let acted w' := adminOnly w' = Some true /\ otherAdminConfig w' = otherAdminConfig w /\
    forall k, k ∈ CARRIED -> settings w !! k <> Some "" -> settings w' !! k = settings w !! k in
  wp any_time any_delivery (selfDefenceHandler poolId records) w (fun w' r =>
    match r with
    | Ok (AlarmFired n) => n = records /\ acted w'
    | Ok AlreadyDisabled => w' = w /\ adminOnly w = Some true
    | Ok NoRecords => w' = w /\ records = 0%nat
    | Throw PoolIdMissing => w' = w /\ poolId = ""
    | Throw CallFailed => w' = w \/ acted w'
    end).
Proof.
  intros acted. unfold selfDefenceHandler. destruct (String.eqb_spec poolId "") as [->|Hp]; [done|].
  destruct (Nat.eqb_spec records 0) as [->|Hr]; [done|]. intros dv _. destruct dv; cbn [deliver perform pool_service pool_perform fst snd lost]; [|by left|by left].
  assert (acted {| adminOnly := Some true; otherAdminConfig := otherAdminConfig w; settings := carried (settings w) |}) as Hact.
  { split; [done|]. split; [done|]. intros k Hk Hv. cbn [settings]. rewrite carried_lookup, bool_decide_true by done.
    destruct (settings w !! k) as [v|]; [|done]. cbn. destruct (String.eqb_spec v "") as [->|]; done. }
  destruct (adminOnly w) as [[]|] eqn:Ha; [done| |]; intros dv _; destruct dv; cbn [deliver perform pool_service pool_perform fst snd lost];
    first [by left|by right|done].
Qed.

(** ** Runs *)

#[local] Definition decl (n : string) (t : DataType) (max : option Z) : CustomAttributeDeclaration :=
  {| name := n; dataType := t; mutable := None; required := None; minLength := None; maxLength := max |}.

Example cdk_checks_run :
  validateCustomAttributeDeclarations [decl "tenantId" String_ (Some 64); decl "seats" Number_ None] = Ok tt /\
  validateCustomAttributeDeclarations [decl "tenant-id" String_ None] = Throw (BadName "tenant-id") /\
  validateCustomAttributeDeclarations [decl "a" Number_ (Some 3)] = Throw (LengthOnNonString "a") /\
  validateTokenSize [decl "tenantId" String_ (Some 64)] = Ok (2645, false) /\
  validateTokenSize [decl "blob" String_ (Some 2048); decl "more" String_ (Some 1024)] = Ok (5666, true) /\
  validateSesIdentitySender "noreply@mail.example.com" = Ok "mail.example.com" /\
  validateSenderAgainstZone "noreply@Mail.Example.com" "example.com." = Ok tt /\
  validateRecipientPatterns "allowedRecipientPatterns" ["*"] = Throw (BadPattern "allowedRecipientPatterns" "*").
Proof. vm_compute. repeat split. Qed.

Lemma attributes_complete_witness : exists m, toCognitoCustomAttributes [decl "tenantId" String_ (Some 64)] = Ok m /\
  m !! "tenantId" = Some (StringAttribute true None (Some 64)).
Proof.
  eexists. split; [reflexivity|].
  refine (proj2 (attributes_complete [decl "tenantId" String_ (Some 64)] _ _ eq_refl) (decl "tenantId" String_ (Some 64)) _); [|by left].
  apply (bool_decide_unpack _). vm_compute. exact I.
Defined.

Lemma estimates_agree_witness : schema_estimate (map schema_of [decl "tenantId" String_ (Some 64)]) = 2645.
Proof.
  refine (eq_trans (proj2 (estimates_agree [decl "tenantId" String_ (Some 64)] _ _)) eq_refl);
    (apply Forall_singleton; [|]) || (constructor; [|constructor]); [|cbn; lia].
  intros H%existsb_string. vm_compute in H. discriminate.
Defined.

Lemma aspect_guards_witness : schema_estimate (List.filter isCustomAttribute [schema_of (decl "tenantId" String_ None)]) <= 6144.
Proof. exact (proj1 (proj2 (aspect_guards [schema_of (decl "tenantId" String_ None)] [] eq_refl))). Defined.

Lemma sender_in_zone_witness : exists local, local <> "" /\ "noreply@mail.example.com" = local +:+ "@" +:+ "mail.example.com".
Proof.
  destruct (sender_in_zone "noreply@mail.example.com" "example.com" "mail.example.com" eq_refl eq_refl) as (l & H1 & H2 & _).
  exists l. split; [exact H1|exact H2].
Defined.

Lemma sender_checks_agree_witness : validateSenderAgainstZone "noreply@mail.example.com" "example.com" = Ok tt.
Proof.
  apply (sender_checks_agree "noreply@mail.example.com" "example.com" "mail.example.com"); vm_compute; reflexivity.
Defined.

(** ** What goes wrong *)

(** An attribute called [__proto__] passes every check and is declared to
    Cognito as nothing. *)
Lemma proto_attribute_lost : toCognitoCustomAttributes [decl "__proto__" String_ None] = Ok ∅.
Proof. vm_compute. reflexivity. Qed.

(** A custom attribute with the name of a standard one passes the checks, and
    the aspect overlooks that it is immutable. *)
Lemma standard_name_escapes_aspect :
  let d := {| name := "profile"; dataType := String_; mutable := Some false; required := None; minLength := None; maxLength := None |} in
  validateCustomAttributeDeclarations [d] = Ok tt /\ visit true None [schema_of d] = Ok [NoCustomAttributes].
Proof. vm_compute. split; reflexivity. Qed.

(** Two at-signs pass the check of the identity, not that of the site; capitals
    the other way round. *)
Lemma sender_checks_differ :
  (validateSesIdentitySender "a@b@mail.example.com" = Ok "b@mail.example.com" /\
   validateSenderMatchesHostedZone "b@mail.example.com" "example.com" = Ok tt /\
   validateSenderAgainstZone "a@b@mail.example.com" "example.com" = Throw (SenderShape "a@b@mail.example.com")) /\
  (validateSenderMatchesHostedZone "Example.com" "example.com" = Throw (SenderDomainMismatch "Example.com" "example.com") /\
   validateSenderAgainstZone "a@Example.com" "example.com" = Ok tt).
Proof. vm_compute. repeat split. Qed.

(** The triggers of the pool are not among what is carried over: the update
    that stops the sign-ups takes the sign-in triggers away as well. *)
Lemma self_defence_drops_triggers w n : adminOnly w <> Some true ->
  let '(w', _) := run (selfDefenceHandler "pool" (S n)) (delivered (fun _ => 0)) 0 w in settings w' !! "LambdaConfig" = None.
Proof.
  intros Ha. cbn [selfDefenceHandler String.eqb Nat.eqb run delivered snd deliver perform pool_service pool_perform].
  destruct (adminOnly w) as [[]|] eqn:E; [done| |]; cbn [run delivered snd deliver perform pool_service pool_perform settings];
    rewrite carried_lookup; reflexivity.
Qed.

Lemma self_defence_drops_triggers_witness :
  let '(w', _) := run (selfDefenceHandler "pool" 1) (delivered (fun _ => 0)) 0
    {| adminOnly := None; otherAdminConfig := ∅; settings := {[ "LambdaConfig" := "triggers" ]} |} in settings w' !! "LambdaConfig" = None.
Proof. apply (self_defence_drops_triggers _ 0). discriminate. Defined.
End CdkProps.
