(* ===== verification/QueueStorage.v ===== *)
(** The queue and storage shims: foundation [queue/sqs-queue.ts],
    [storage/s3-storage.ts] and their interfaces.

    A service is an operation on its state, attempted as [Retry] has it. Bodies
    are texts; decoding bytes is the platform's. *)

From stdpp Require Import pretty.
From S2P Require Import Prelude JsString Json Retry.
From S2P Require DynamoDb.
From Stdlib Require Import Ascii.

#[local] Open Scope string_scope.
#[local] Open Scope Z_scope.

Module QueueStorage.

Import Retry.

(** ** sqs-queue.ts *)

Definition SQS_MAX_BATCH_SIZE : nat := 10.

Record Message := { MessageBody : string; DelaySeconds : option Z }.
Record QueueBatchEntry := { body : JsonValue; delaySeconds : option Z }.

(** The messages the queue took, oldest first. *)
#[global] Notation Queue := (list Message).

Inductive queue_error := QueueSendError (cause : option string) | QueueBatchError (failedIds : list string) | SdkError (name : option string).

Definition message_of (m : QueueBatchEntry) : Message := {| MessageBody := stringify (body m); DelaySeconds := delaySeconds m |}.

Definition queue_send (m : QueueBatchEntry) (ds : list delivery) (q : Queue) : Queue * result queue_error unit :=
  match transientRetry (fun q => ((q ++ [message_of m])%list, Ok tt)) ds q with
  | (q', Ok _, _) => (q', Ok tt)
  | (q', Throw name, _) => (q', Throw (QueueSendError name))
  end.

Section batch.
(** Which entries of a call the service fails. *)
Context (fails : Message -> bool).

(** [SendMessageBatch]: takes what it does not fail, and answers with the
    identifiers of the rest. *)
Definition send_message_batch (entries : list (string * Message)) (q : Queue) : Queue * result (option string) (list string) :=
  ((q ++ map snd (List.filter (fun e => negb (fails (snd e))) entries))%list,
   Ok (map fst (List.filter (fun e => fails (snd e)) entries))).

Definition entries_of (offset : nat) (chunk : list QueueBatchEntry) : list (string * Message) :=
  imap (fun i m => (pretty (offset + i)%nat, message_of m)) chunk.

(** The loop over chunks: with fuel for one turn each. *)
Fixpoint send_chunks (fuel offset : nat) (messages : list QueueBatchEntry) (ds : list delivery) (q : Queue) :
    Queue * result queue_error unit :=
  match fuel, messages with
  | O, _ | _, [] => (q, Ok tt)
  | S n, _ =>
      let chunk := take SQS_MAX_BATCH_SIZE messages in
      match transientRetry (send_message_batch (entries_of offset chunk)) ds q with
      | (q', Throw name, _) => (q', Throw (SdkError name))
      | (q', Ok [], rest) => send_chunks n (offset + SQS_MAX_BATCH_SIZE) (drop SQS_MAX_BATCH_SIZE messages) rest q'
      | (q', Ok failedIds, _) => (q', Throw (QueueBatchError failedIds))
      end
  end.

Definition sendBatch (messages : list QueueBatchEntry) (ds : list delivery) (q : Queue) : Queue * result queue_error unit :=
  send_chunks (S (length messages)) 0 messages ds q.
End batch.

(** ** s3-storage.ts *)

Record R2HttpMetadata := {
  contentType : option string; contentLanguage : option string; contentDisposition : option string;
  contentEncoding : option string; cacheControl : option string; cacheExpiry : option Z
}.

Record R2PutOptions := { httpMetadata : option R2HttpMetadata; customMetadata : option (list (string * string)) }.

(** What [put] is given; a stream is known by what it will yield. *)
Inductive PutValue := Text (s : string) | Buffer (s : string) | Stream (s : string) | Null.

Definition content_of (v : PutValue) : string := match v with Text s | Buffer s | Stream s => s | Null => "" end.

(** The number of bytes, as [put] counts them. *)
Definition size_of (v : PutValue) : Z :=
  match v with Text s => byteLength s | Buffer s => Z.of_nat (String.length s) | Stream _ | Null => 0 end.

Record R2Object := {
  key : string; size : Z; etag : string; uploaded : Z;
  r_http : option R2HttpMetadata; r_custom : option (list (string * string))
}.

(** An object in the bucket, as S3 answers for it. *)
Record S3Object := {
  content : string; ContentLength : Z; ETag : string; LastModified : Z;
  http : R2HttpMetadata; Metadata : option (list (string * string))
}.

#[global] Notation Bucket := (gmap string S3Object).

Definition no_metadata : R2HttpMetadata :=
  {| contentType := None; contentLanguage := None; contentDisposition := None; contentEncoding := None; cacheControl := None;
     cacheExpiry := None |}.

Section storage.
(** S3's: the type it gives an object that comes without one, and entity tags;
    [clock] its time. *)
Context (default_type : string) (etag_of : string -> string) (clock : Z).

Definition stored_http (m : R2HttpMetadata) : R2HttpMetadata :=
  {| contentType := Some (default default_type (contentType m)); contentLanguage := contentLanguage m;
     contentDisposition := contentDisposition m; contentEncoding := contentEncoding m; cacheControl := cacheControl m;
     cacheExpiry := cacheExpiry m |}.

(** [PutObject] with the fields the shim passes on. *)
Definition put_object (k : string) (v : PutValue) (o : option R2PutOptions) (b : Bucket) : Bucket * result (option string) string :=
  (<[k := {| content := content_of v;
             ContentLength := match v with Text s => byteLength s | _ => Z.of_nat (String.length (content_of v)) end;
             ETag := etag_of (content_of v); LastModified := clock;
             http := stored_http (default no_metadata (o ≫= httpMetadata)); Metadata := o ≫= customMetadata |}]> b,
   Ok (etag_of (content_of v))).

Definition get_object (missing : string) (k : string) (b : Bucket) : Bucket * result (option string) S3Object :=
  (b, match b !! k with Some o => Ok o | None => Throw (Some missing) end).

Definition delete_object (k : string) (b : Bucket) : Bucket * result (option string) unit := (delete k b, Ok tt).

Definition s3_put (k : string) (v : PutValue) (o : option R2PutOptions) (now : Z) (ds : list delivery) (b : Bucket) :
    Bucket * result (option string) R2Object :=
  match transientRetry (put_object k v o) ds b with
  | (b', Ok tag, _) =>
      (b', Ok {| key := k; size := size_of v; etag := tag; uploaded := now; r_http := o ≫= httpMetadata; r_custom := o ≫= customMetadata |})
  | (b', Throw name, _) => (b', Throw name)
  end.

Definition s3ResultToHttpMetadata (o : S3Object) : R2HttpMetadata :=
  {| contentType := contentType (http o); contentLanguage := contentLanguage (http o); contentDisposition := contentDisposition (http o);
     contentEncoding := contentEncoding (http o); cacheControl := cacheControl (http o); cacheExpiry := cacheExpiry (http o) |}.

Definition object_of (k : string) (o : S3Object) : R2Object :=
  {| key := k; size := ContentLength o; etag := ETag o; uploaded := LastModified o; r_http := Some (s3ResultToHttpMetadata o);
     r_custom := Metadata o |}.

(** A body and its [consumed] flag. *)
Record R2ObjectBody := { object : R2Object; stream : string; consumed : bool }.

Definition isNoSuchKeyError (name : option string) : bool := match name with Some n => String.eqb n "NoSuchKey" | None => false end.
Definition isNotFoundError (name : option string) : bool :=
  match name with Some n => String.eqb n "NotFound" || String.eqb n "NoSuchKey" | None => false end.

Definition s3_get (k : string) (ds : list delivery) (b : Bucket) : result (option string) (option R2ObjectBody) :=
  match transientRetry (get_object "NoSuchKey" k) ds b with
  | (_, Ok o, _) => Ok (Some {| object := object_of k o; stream := content o; consumed := false |})
  | (_, Throw name, _) => if isNoSuchKeyError name then Ok None else Throw name
  end.

Definition s3_head (k : string) (ds : list delivery) (b : Bucket) : result (option string) (option R2Object) :=
  match transientRetry (get_object "NotFound" k) ds b with
  | (_, Ok o, _) => Ok (Some (object_of k o))
  | (_, Throw name, _) => if isNotFoundError name then Ok None else Throw name
  end.

(** [arrayBuffer] and [text]. *)
Definition read_body (r : R2ObjectBody) : R2ObjectBody * option string :=
  if consumed r then (r, None) else ({| object := object r; stream := stream r; consumed := true |}, Some (stream r)).

(** [Promise.all] over the deletions: every one runs; the first to fail gives
    the error. *)
Fixpoint s3_delete (keys : list (string * list delivery)) (b : Bucket) : Bucket * result (option string) unit :=
  match keys with
  | [] => (b, Ok tt)
  | (k, ds) :: rest =>
      let '(b1, r, _) := transientRetry (delete_object k) ds b in
      let '(b2, r') := s3_delete rest b1 in
      (b2, match r with Ok _ => r' | Throw name => Throw name end)
  end.
End storage.

(** [list]: what it asks for and what it makes of the answer. *)
Definition list_request (prefix : option string) (limit : option Z) (cursor : option string) : option string * Z * option string :=
  (prefix, default 1000 limit, cursor).

Record ListAnswer := {
  Contents : list (option string * option Z * option string * option Z);
  IsTruncated : option bool;
  NextContinuationToken : option string
}.

Definition s3_list (a : ListAnswer) (now : Z) : list R2Object * bool * option string :=
  (map (fun '(k, sz, tag, modified) =>
          {| key := default "" k; size := default 0 sz; etag := default "" tag; uploaded := default now modified; r_http := None;
             r_custom := None |}) (Contents a),
   default false (IsTruncated a), NextContinuationToken a).

(** ** Storage *)

Section storage_theorems.
Context (default_type : string) (etag_of : string -> string) (clock : Z).

(** Also (What is put is what is got): whatever messages are lost, a put touches
    its own key only, and leaves it as it was or with the new object; when it
    resolves, both reads of the key that are answered give this object, with its
    tag, its size where the shim could know it, and its metadata, the type being
    S3's own where none was given. A stream can be sent once, so for it no
    message is lost. *)
Theorem put_then_get k v o now ds b : match v with Stream _ => ds = [] | _ => True end ->
  let '(b', r) := s3_put default_type etag_of clock k v o now ds b in
  (forall k', k' <> k -> b' !! k' = b !! k') /\ (b' = b \/ b' = fst (put_object default_type etag_of clock k v o b)) /\
  match r with
  | Throw _ => True
  | Ok obj =>
      exists body, s3_get k [] b' = Ok (Some body) /\ s3_head k [] b' = Ok (Some (object body)) /\
        stream body = content_of v /\ consumed body = false /\ etag (object body) = etag obj /\
        (match v with Text _ | Buffer _ => size (object body) = size obj | Stream _ | Null => True end) /\
        r_custom (object body) = r_custom obj /\
        r_http (object body) = Some (stored_http default_type (default no_metadata (r_http obj)))
  end.
Proof.
  intros _. unfold s3_put. pose proof (retrying_spec (put_object default_type etag_of clock k v o)) as Hs.
  specialize (Hs (fun w => insert_insert_eq _ _ _ _) (fun w => eq_refl) DynamoDb.transientRetry_maxAttempts ds b). unfold transientRetry.
  destruct (retrying _ _ ds b) as [[b' [tag|name]] rest]; destruct Hs as [Hb Hr].
  - split; [intros k' Hk; destruct Hb as [-> | ->]; [done|by apply lookup_insert_ne]|]. split; [done|]. destruct Hr as [-> [= <-]].
    eexists. unfold s3_get, s3_head, transientRetry. cbn [DynamoDb.transientRetry_maxAttempts retrying]. unfold get_object, put_object. cbn [fst].
    rewrite lookup_insert_eq. split; [reflexivity|]. split; [reflexivity|]. do 3 (split; [done|]). split; [by destruct v|]. split; [done|].
    cbn. unfold s3ResultToHttpMetadata. cbn. done.
  - split; [intros k' Hk; destruct Hb as [-> | ->]; [done|by apply lookup_insert_ne]|]. by split.
Qed.

(** Also (A missing object is no error): a key nobody holds is never read as an
    object, and is answered with nothing as soon as S3 is reached. *)
Theorem missing_is_null k ds b : b !! k = None ->
  (forall body, s3_get k ds b <> Ok (Some body)) /\ (forall obj, s3_head k ds b <> Ok (Some obj)) /\
  s3_get k [] b = Ok None /\ s3_head k [] b = Ok None.
Proof.
  intros Hk.
  assert (forall missing, match snd (fst (transientRetry (get_object missing k) ds b)) with Ok _ => False | Throw _ => True end) as H.
  { intros missing. pose proof (retrying_spec (get_object missing k) (fun _ => eq_refl) (fun _ => eq_refl) DynamoDb.transientRetry_maxAttempts ds b) as Hs.
    unfold transientRetry. destruct (retrying _ _ ds b) as [[b' [x|name]] rest]; [|done]. cbn. destruct Hs as [_ [_ He]]. unfold get_object in He.
    cbn [snd] in He. by rewrite Hk in He. }
  split; [|split; [|split]].
  - intros body. unfold s3_get. specialize (H "NoSuchKey"). destruct (transientRetry _ ds b) as [[b' [x|name]] rest]; [done|].
    by destruct (isNoSuchKeyError name).
  - intros obj. unfold s3_head. specialize (H "NotFound"). destruct (transientRetry _ ds b) as [[b' [x|name]] rest]; [done|].
    by destruct (isNotFoundError name).
  - unfold s3_get, transientRetry. cbn [DynamoDb.transientRetry_maxAttempts retrying]. unfold get_object. by rewrite Hk.
  - unfold s3_head, transientRetry. cbn [DynamoDb.transientRetry_maxAttempts retrying]. unfold get_object. by rewrite Hk.
Qed.

(** [n] calls of [arrayBuffer] or [text], in any order. *)
Fixpoint reads (n : nat) (r : R2ObjectBody) : list (option string) :=
  match n with O => [] | S m => let '(r', x) := read_body r in x :: reads m r' end.

(** Also (A body is read once): of the calls of its two helpers, in any order, the
    first gives the content and every other is refused. *)
Theorem body_read_once n r : consumed r = false -> reads (S n) r = Some (stream r) :: repeat None n.
Proof.
  intros Hc. cbn [reads]. unfold read_body. rewrite Hc. f_equal.
  assert (forall m x, consumed x = true -> reads m x = repeat None m) as Hall; [|by apply Hall].
  induction m as [|m IH]; intros x Hx; [done|]. cbn [reads]. unfold read_body. rewrite Hx. cbn [repeat]. by rewrite IH.
Qed.

(** Also (Deletion): whatever messages are lost, only the given keys can go, and
    all of them are gone when the deletion resolves. *)
Theorem s3_delete_spec l : forall b,
  let '(b', r) := s3_delete l b in
  b' ⊆ b /\ (forall k, k ∉ map fst l -> b' !! k = b !! k) /\
  match r with Ok _ => forall k, k ∈ map fst l -> b' !! k = None | Throw _ => True end.
Proof.
  induction l as [|[k ds] l IH]; intros b; cbn [s3_delete map fst]; [split; [done|]; split; [done|]; intros k Hk; by apply elem_of_nil in Hk|].
  pose proof (retrying_spec (delete_object k) (fun b => delete_delete_eq _ _) (fun _ => eq_refl) DynamoDb.transientRetry_maxAttempts ds b) as Hs.
  unfold transientRetry. destruct (retrying _ _ ds b) as [[b1 r1] rest]. destruct Hs as [Hb1 Hr1]. specialize (IH b1).
  destruct (s3_delete l b1) as [b2 r2]. destruct IH as (Hsub & Hother & Hgone).
  assert (b1 ⊆ b /\ forall j, j <> k -> b1 !! j = b !! j) as [Hs1 Ho1].
  { destruct Hb1 as [-> | ->]; [done|]. split; [apply delete_subseteq|]. intros j Hj. by apply lookup_delete_ne. }
  split; [by etrans|]. split.
  - intros j. rewrite not_elem_of_cons. intros [Hj Hl]. by rewrite Hother, Ho1.
  - destruct r1 as [u|name]; [|done]. destruct r2 as [u2|name]; [|done]. intros j. rewrite elem_of_cons.
    destruct (decide (j ∈ map fst l)) as [Hl|Hl]; [intros _; by apply Hgone|]. intros [->|?]; [|done].
    rewrite Hother by done. destruct Hr1 as [-> _]. apply lookup_delete_eq.
Qed.
End storage_theorems.

(** ** Batches *)

Section batch_theorems.
Context (fails : Message -> bool).

Definition accepted (es : list (string * Message)) : list Message := map snd (List.filter (fun e => negb (fails (snd e))) es).

Lemma retry_batch es n : forall ds q, let '(q', r, _) := retrying n (send_message_batch fails es) ds q in
  exists k, q' = (q ++ concat (repeat (accepted es) k))%list /\
    match r with Ok ids => (1 <= k)%nat /\ ids = map fst (List.filter (fun e => fails (snd e)) es) | Throw _ => True end.
Proof.
  assert (forall k q, ((q ++ accepted es) ++ concat (repeat (accepted es) k) = q ++ concat (repeat (accepted es) (S k)))%list) as Hcons
    by (intros k q; cbn [repeat concat]; by rewrite app_assoc).
  induction n as [|n IH]; intros ds q; cbn [retrying];
    destruct (match ds with [] => (Served, []) | d :: r => (d, r) end) as [d rest];
    destruct d as [|name|name]; cbn [send_message_batch fst];
    try (exists 1%nat; cbn [repeat concat]; rewrite app_nil_r; by repeat split);
    destruct (DynamoDb.isTransientError name);
    try (by (exists 0%nat; cbn [repeat concat]; rewrite app_nil_r));
    try (by (exists 1%nat; cbn [repeat concat]; rewrite app_nil_r)).
  - specialize (IH rest q). by destruct (retrying n _ rest q) as [[q' r] rs].
  - specialize (IH rest (q ++ accepted es)%list). fold (accepted es).
    destruct (retrying n _ rest (q ++ accepted es)%list) as [[q' r] rs]. destruct IH as (k & -> & Hr). exists (S k).
    split; [apply Hcons|]. destruct r; [|done]. destruct Hr as [? ->]. split; [lia|done].
Qed.

Lemma entries_messages offset chunk : map snd (entries_of offset chunk) = map message_of chunk.
Proof.
  unfold entries_of. revert offset. induction chunk as [|m chunk IH]; intros offset; [done|]. cbn [imap map]. f_equal.
  rewrite <- (IH (S offset)). f_equal. apply imap_ext. intros i x _. cbn. f_equal. f_equal. lia.
Qed.

Lemma none_fail es : map fst (List.filter (fun e => fails (snd e)) es) = [] -> accepted es = map snd es.
Proof.
  unfold accepted. induction es as [|e es IH]; [done|]. cbn [List.filter]. destruct (fails (snd e)) eqn:E; [done|]. cbn [negb map].
  intros H. by rewrite IH.
Qed.

Lemma chunks_sent fuel : forall offset messages ds q, (length messages < fuel)%nat ->
  let '(q', r) := send_chunks fails fuel offset messages ds q in
  exists added, q' = (q ++ added)%list /\
    match r with Ok _ => sublist (map message_of messages) added | Throw (QueueBatchError ids) => ids <> [] | Throw _ => True end.
Proof.
  induction fuel as [|fuel IH]; intros offset messages ds q Hf; [lia|]. destruct messages as [|m messages].
  { exists []. by rewrite app_nil_r. }
  cbn [send_chunks]. set (ms := m :: messages) in *. set (chunk := take SQS_MAX_BATCH_SIZE ms).
  pose proof (retry_batch (entries_of offset chunk) DynamoDb.transientRetry_maxAttempts ds q) as Hb. unfold transientRetry.
  destruct (retrying _ _ ds q) as [[q' [ids|name]] rest]; destruct Hb as (k & -> & Hr); [|by eexists].
  destruct Hr as [Hk Hids]. destruct ids as [|i ids]; [|by eexists].
  assert (length (drop SQS_MAX_BATCH_SIZE ms) < fuel)%nat as Hd by (subst ms; rewrite length_drop; unfold SQS_MAX_BATCH_SIZE; cbn [length] in *; lia).
  specialize (IH (offset + SQS_MAX_BATCH_SIZE)%nat (drop SQS_MAX_BATCH_SIZE ms) rest
    (q ++ concat (repeat (accepted (entries_of offset chunk)) k))%list Hd).
  destruct (send_chunks _ fuel _ _ rest _) as [q2 r2]. destruct IH as (added & -> & Hr2). rewrite <- app_assoc. eexists. split; [reflexivity|].
  destruct r2 as [u|[]]; try done. rewrite <- (take_drop SQS_MAX_BATCH_SIZE ms), map_app. apply sublist_app; [|done]. fold chunk.
  symmetry in Hids. rewrite (none_fail _ Hids), entries_messages. destruct k as [|k]; [lia|]. cbn [repeat concat]. by apply sublist_inserts_r.
Qed.

(** Also (A batch that resolves has been queued): whatever the service fails and
    whatever messages are lost, nothing is taken from the queue, and when
    [sendBatch] resolves every message is in it, in order; its own error names
    at least one. *)
Theorem sendBatch_spec messages ds q :
  let '(q', r) := sendBatch fails messages ds q in
  exists added, q' = (q ++ added)%list /\
    match r with Ok _ => sublist (map message_of messages) added | Throw (QueueBatchError ids) => ids <> [] | Throw _ => True end.
Proof. apply chunks_sent. lia. Qed.

(** Also (Undisturbed batches): when nothing is lost and nothing fails, each
    message is queued exactly once, in order, however many chunks it takes. *)
Theorem sendBatch_exact messages q : Forall (fun m => fails (message_of m) = false) messages ->
  sendBatch fails messages [] q = ((q ++ map message_of messages)%list, Ok tt).
Proof.
  intros Hf. unfold sendBatch. assert (forall fuel offset ms q, Forall (fun m => fails (message_of m) = false) ms -> (length ms < fuel)%nat ->
    send_chunks fails fuel offset ms [] q = ((q ++ map message_of ms)%list, Ok tt)) as Hgo; [|apply Hgo; [done|lia]]. clear.
  induction fuel as [|fuel IH]; intros offset ms q Hf Hl; [lia|]. destruct ms as [|m ms]; [by rewrite app_nil_r|].
  cbn [send_chunks]. set (l := m :: ms) in *. set (chunk := take SQS_MAX_BATCH_SIZE l).
  assert (List.filter (fun e => fails (snd e)) (entries_of offset chunk) = [] /\ accepted (entries_of offset chunk) = map message_of chunk) as [Hn Ha].
  { assert (Forall (fun e => fails (snd e) = false) (entries_of offset chunk)) as He.
    { apply (Forall_map snd (fun x => fails x = false)). rewrite entries_messages. apply Forall_map. by apply Forall_take. }
    assert (List.filter (fun e => fails (snd e)) (entries_of offset chunk) = []) as Hn.
    { clear -He. induction He as [|e es He Hes IH]; [done|]. cbn [List.filter]. by rewrite He. }
    split; [done|]. rewrite none_fail by (by rewrite Hn). apply entries_messages. }
  unfold transientRetry. cbn [DynamoDb.transientRetry_maxAttempts retrying]. unfold send_message_batch at 1. rewrite Hn. cbn [map].
  fold (accepted (entries_of offset chunk)). rewrite Ha. rewrite IH.
  - rewrite <- app_assoc, <- map_app. unfold chunk. by rewrite take_drop.
  - by apply Forall_drop.
  - subst l. rewrite length_drop. unfold SQS_MAX_BATCH_SIZE. cbn [length] in *. lia.
Qed.
End batch_theorems.

(** ** Runs *)

#[local] Definition numbered (n : nat) : QueueBatchEntry := {| body := VString (pretty n); delaySeconds := None |}.
#[local] Definition first_fails (m : Message) : bool := String.eqb (MessageBody m) (stringify (VString "0")).

(** Eleven messages of which the first fails: the error names it alone, but the
    eleventh, in the second chunk, was never sent. *)
Lemma later_chunks_unreported :
  let '(q, r) := sendBatch first_fails (map numbered (seq 0 11)) [] [] in
  r = Throw (QueueBatchError ["0"]) /\ ~ In (message_of (numbered 10)) q /\ first_fails (message_of (numbered 10)) = false.
Proof. vm_compute. split; [done|]. split; [by intuition congruence|done]. Qed.

(** A transient error that [send] wraps in its own error leaves [sendBatch] as
    the service's. *)
Lemma batch_error_unwrapped :
  let lost := repeat (NotServed (Some "ThrottlingException")) 20 in
  snd (queue_send (numbered 0) lost []) = Throw (QueueSendError (Some "ThrottlingException")) /\
  snd (sendBatch first_fails [numbered 0] lost []) = Throw (SdkError (Some "ThrottlingException")).
Proof. by vm_compute. Qed.

(** A message whose answer is lost is queued again. *)
Example send_twice :
  queue_send (numbered 1) [ServedUnseen (Some "ThrottlingException")] [] =
  ([message_of (numbered 1); message_of (numbered 1)], Ok tt).
Proof. reflexivity. Qed.

#[local] Definition tag (s : string) : string := "tag " +:+ s.

Lemma put_then_get_witness :
  let '(b', r) := s3_put "binary/octet-stream" tag 5 "k" (Text "abc") None 6 [NotServed (Some "SlowDown")] ∅ in
  (forall k', k' <> "k" -> b' !! k' = (∅ : Bucket) !! k') /\
  (b' = ∅ \/ b' = fst (put_object "binary/octet-stream" tag 5 "k" (Text "abc") None ∅)) /\
  match r with
  | Throw _ => True
  | Ok obj =>
      exists body, s3_get "k" [] b' = Ok (Some body) /\ s3_head "k" [] b' = Ok (Some (object body)) /\
        stream body = "abc" /\ consumed body = false /\ etag (object body) = etag obj /\
        size (object body) = size obj /\ r_custom (object body) = r_custom obj /\
        r_http (object body) = Some (stored_http "binary/octet-stream" (default no_metadata (r_http obj)))
  end.
Proof. exact (put_then_get "binary/octet-stream" tag 5 "k" (Text "abc") None 6 [NotServed (Some "SlowDown")] ∅ I). Defined.

Lemma missing_is_null_witness : s3_get "k" [] ∅ = Ok None /\ s3_head "k" [] ∅ = Ok None.
Proof. destruct (missing_is_null "k" [] ∅ (lookup_empty _)) as (_ & _ & H). exact H. Defined.

Lemma sendBatch_exact_witness :
  sendBatch first_fails (map numbered (seq 1 12)) [] [] = (map message_of (map numbered (seq 1 12)), Ok tt).
Proof.
  apply (sendBatch_exact first_fails (map numbered (seq 1 12)) []). cbn [map seq]. by repeat (apply Forall_cons; split).
Defined.
End QueueStorage.
