(* ===== verification/SecretStores.v ===== *)
(** The other two stores behind the secret resolvers: foundation
    [secrets/memory-secret-store.ts], on which [resolveSecret] and
    [resolveParameter] run as against the services, and [secrets/scaleway.ts].

    Both share the cache of [SecretCache] and the retries of [Retry]. A call is
    again cut at its request: what other callers do meanwhile is any sequence of
    such halves. *)

From S2P Require Import Prelude JsString Regex Json SecretCache Retry.
From Stdlib Require Import Ascii.

#[local] Open Scope string_scope.
#[local] Open Scope Z_scope.

Module SecretStores.

Import Retry.

(** [Buffer.from(s, "utf-8")]. *)
Fixpoint utf8 (s : string) : list Z :=
  match s with
  | EmptyString => []
  | String.String c r => if code c <? 128 then code c :: utf8 r else (192 + code c / 64) :: (128 + code c mod 64) :: utf8 r
  end.

(** ** memory-secret-store.ts *)

Record MemorySecretSeed := { seed_value : string; seed_versionId : option string }.

Record MemorySecretStore := {
  secrets : gmap string (gmap string string);
  parameters : gmap string string;
  secretCalls : gmap string Z;
  parameterCalls : gmap string Z
}.

Definition new_MemorySecretStore : MemorySecretStore :=
  {| secrets := ∅; parameters := ∅; secretCalls := ∅; parameterCalls := ∅ |}.

Definition CURRENT : string := "AWSCURRENT".

Definition setSecret (arn : string) (seed : MemorySecretSeed) (st : MemorySecretStore) : MemorySecretStore :=
  let versions := <[CURRENT := seed_value seed]> (default ∅ (secrets st !! arn)) in
  {| secrets := <[arn := match seed_versionId seed with Some v => <[v := seed_value seed]> versions | None => versions end]> (secrets st);
     parameters := parameters st; secretCalls := secretCalls st; parameterCalls := parameterCalls st |}.

Definition setParameter (name value : string) (st : MemorySecretStore) : MemorySecretStore :=
  {| secrets := secrets st; parameters := <[name := value]> (parameters st);
     secretCalls := secretCalls st; parameterCalls := parameterCalls st |}.

Inductive kind := OfSecret | OfParameter.

Definition calls (k : kind) (key : string) (st : MemorySecretStore) : Z :=
  default 0 (match k with OfSecret => secretCalls st | OfParameter => parameterCalls st end !! key).

Definition store_clear (st : MemorySecretStore) : MemorySecretStore := new_MemorySecretStore.

Definition bump (k : kind) (key : string) (st : MemorySecretStore) : MemorySecretStore :=
  let up (m : gmap string Z) := <[key := default 0 (m !! key) + 1]> m in
  match k with
  | OfSecret => {| secrets := secrets st; parameters := parameters st;
                 secretCalls := up (secretCalls st); parameterCalls := parameterCalls st |}
  | OfParameter => {| secrets := secrets st; parameters := parameters st;
                    secretCalls := secretCalls st; parameterCalls := up (parameterCalls st) |}
  end.

(** What the doubles see of a command: no [input], or its two fields as far as
    they are strings. *)
Inductive command := NoInput | Input (id version : option string).

Definition sendSecrets (c : command) (st : MemorySecretStore) : MemorySecretStore * result (option string) string :=
  match c with
  | NoInput | Input None _ => (st, Throw (Some "ValidationException"))
  | Input (Some SecretId) VersionId =>
      (bump OfSecret SecretId st,
       match secrets st !! SecretId with
       | None => Throw (Some "ResourceNotFoundException")
       | Some versions =>
           match versions !! default CURRENT VersionId with
           | None => Throw (Some "ResourceNotFoundException")
           | Some value => Ok value
           end
       end)
  end.

Definition sendSsm (c : command) (st : MemorySecretStore) : MemorySecretStore * result (option string) string :=
  match c with
  | NoInput | Input None _ => (st, Throw (Some "ValidationException"))
  | Input (Some Name) _ =>
      (bump OfParameter Name st,
       match parameters st !! Name with None => Throw (Some "ParameterNotFound") | Some value => Ok value end)
  end.

(** [resolveSecret] and [resolveParameter] with the double as their client:
    [t1] and [t2] are the clock before and after the request, [ds] what happens
    to the attempts. *)
Definition resolveSecret (ref : SecretRef) (fresh : bool) (t1 t2 : Z) (ds : list delivery)
    (h : Heap) (c : SecretCache) (st : MemorySecretStore) : Heap * SecretCache * MemorySecretStore * result SecretsError loc :=
  match resolve_lookup h c t1 (secretCacheKey ref) fresh with
  | (h1, c1, Some l) => (h1, c1, st, Ok l)
  | (h1, c1, None) =>
      let '(st1, response, _) := transientRetry (sendSecrets (Input (Some (arn ref)) (versionId ref))) ds st in
      let '(h2, c2, r) := resolve_store h1 c1 t2 (secretCacheKey ref)
                            (secret_bytes (result_map (fun s => (Some (utf8 s), None)) response)) in
      (h2, c2, st1, r)
  end.

Definition resolveParameter (name : string) (withDecryption fresh : bool) (t1 t2 : Z) (ds : list delivery)
    (h : Heap) (c : SecretCache) (st : MemorySecretStore) : Heap * SecretCache * MemorySecretStore * result SecretsError loc :=
  match resolve_lookup h c t1 (parameterCacheKey name withDecryption) fresh with
  | (h1, c1, Some l) => (h1, c1, st, Ok l)
  | (h1, c1, None) =>
      let '(st1, response, _) := transientRetry (sendSsm (Input (Some name) None)) ds st in
      let '(h2, c2, r) := resolve_store h1 c1 t2 (parameterCacheKey name withDecryption)
                            (parameter_bytes (result_map (fun s => Some (utf8 s)) response)) in
      (h2, c2, st1, r)
  end.

(** ** scaleway.ts *)

Record ScalewaySecretRef := {
  secretId : option string; name : option string; path : option string; projectId : option string;
  region : string; revision : option string
}.

(** [present]: the value, unless absent or empty. *)
Definition present (v : option string) : option string :=
  match v with Some s => if String.eqb s "" then None else Some s | None => None end.

Definition REVISION : re := (lits "latest" ∥ lits "latest_enabled" ∥ plus (RCls is_digit))%re.

(** Whether [scalewaySecretRef] accepts it. *)
Definition scalewaySecretRef (ref : ScalewaySecretRef) : bool :=
  negb (String.eqb (region ref) "") &&
  match present (secretId ref), present (name ref) with None, None => false | _, _ => true end &&
  match revision ref with Some r => re_match REVISION r | None => true end.

Definition cacheKey (ref : ScalewaySecretRef) : string :=
  let ident := match present (secretId ref) with
               | Some id => "id:" +:+ id
               | None => "name:" +:+ default "" (projectId ref) +:+ ":" +:+ default "/" (path ref) +:+ ":" +:+
                         default "undefined" (name ref)
               end in
  "scw-secret:" +:+ region ref +:+ ":" +:+ ident +:+ ":" +:+ default "latest_enabled" (revision ref).

(** [encodeURIComponent] and the serialiser of [URLSearchParams]. *)
Definition hex_upper (n : Z) : ascii := ascii_of_N (Z.to_N (if n <? 10 then 48 + n else 55 + n)).
Definition percent (byte : Z) : string :=
  String.String "%" (String.String (hex_upper (byte / 16)) (String.String (hex_upper (byte mod 16)) "")).

Fixpoint percent_encode (keep : ascii -> option string) (s : string) : string :=
  match s with
  | EmptyString => ""
  | String.String c r =>
      match keep c with
      | Some t => t
      | None => fold_right (fun b t => percent b +:+ t) "" (utf8 (String.String c ""))
      end +:+ percent_encode keep r
  end.

Definition encodeURIComponent : string -> string :=
  percent_encode (fun c => if is_alnum c || char_in c "-_.!~*'()" then Some (String.String c "") else None).
Definition form_encode : string -> string :=
  percent_encode (fun c => if is_alnum c || char_in c "*-._" then Some (String.String c "")
                           else if Ascii.eqb c " " then Some "+" else None).

Definition accessUrl (baseUrl : string) (ref : ScalewaySecretRef) : string :=
  let revision := encodeURIComponent (default "latest_enabled" (revision ref)) in
  let at_region := baseUrl +:+ "/secret-manager/v1beta1/regions/" +:+ encodeURIComponent (region ref) in
  match present (secretId ref) with
  | Some id => at_region +:+ "/secrets/" +:+ encodeURIComponent id +:+ "/versions/" +:+ revision +:+ "/access"
  | None =>
      at_region +:+ "/secrets-by-path/versions/" +:+ revision +:+ "/access?secret_name=" +:+ form_encode (default "" (name ref)) +:+
      "&secret_path=" +:+ form_encode (default "/" (path ref)) +:+
      match present (projectId ref) with Some p => "&project_id=" +:+ form_encode p | None => "" end
  end.

(** Node's base64. *)
Class Base64 := {
  to_base64 : list Z -> string;
  from_base64 : string -> list Z;
  base64_round_trip bytes : Forall (fun b => 0 <= b < 256) bytes -> from_base64 (to_base64 bytes) = bytes
}.

(** A fetch is rejected, or answered; [None] is a body that is no JSON. *)
Inductive fetched := Rejected (name : option string) | Answered (status : Z) (json : option JsonValue).

Inductive scaleway_error := RefValidation | Secrets (e : SecretsError) | PayloadTypeError.

Definition transient_status (status : Z) : bool := (status =? 408) || (status =? 429) || (500 <=? status).

(** One attempt: the marker error for what is to be tried again. *)
Definition attempt (f : fetched) : result (option string) (Z * option JsonValue) :=
  match f with
  | Rejected name => Throw name
  | Answered status json => if transient_status status then Throw (Some "TransientHttpError") else Ok (status, json)
  end.

Section scaleway.
Context `{Base64}.

Definition payload_bytes (json : option JsonValue) : result scaleway_error (list Z) :=
  match json with
  | None => Throw (Secrets SecretsResolve)
  | Some VNull => Throw PayloadTypeError
  | Some (VObject o) =>
      match find_key "data" o with Some (VString data) => Ok (from_base64 data) | _ => Throw (Secrets SecretsResolve) end
  | Some _ => Throw (Secrets SecretsResolve)
  end.

(** From what the retries came to. *)
Definition scaleway_bytes (response : result (option string) (Z * option JsonValue)) : result scaleway_error (list Z) :=
  match response with
  | Throw _ => Throw (Secrets SecretsTransient)
  | Ok (status, json) =>
      if status =? 404 then Throw (Secrets SecretsNotFound)
      else if (status =? 401) || (status =? 403) then Throw (Secrets SecretsAccessDenied)
      else if negb ((200 <=? status) && (status <=? 299)) then Throw (Secrets SecretsResolve)
      else payload_bytes json
  end.

(** Up to the request. *)
Inductive looked_up := Failed (e : scaleway_error) | Hit (l : loc) | Ask.

Definition scaleway_lookup (token : option string) (ref : ScalewaySecretRef) (fresh : bool) (now : Z) (h : Heap) (c : SecretCache) :
    Heap * SecretCache * looked_up :=
  if negb (scalewaySecretRef ref) then (h, c, Failed RefValidation)
  else match resolve_lookup h c now (cacheKey ref) fresh with
       | (h1, c1, Some l) => (h1, c1, Hit l)
       | (h1, c1, None) =>
           (h1, c1, match present token with None => Failed (Secrets SecretsAccessDenied) | Some _ => Ask end)
       end.

(** From the answer on. *)
Definition scaleway_store (ref : ScalewaySecretRef) (now : Z) (answer : result scaleway_error (list Z)) (h : Heap) (c : SecretCache) :
    Heap * SecretCache * result scaleway_error loc :=
  match answer with
  | Throw e => (h, c, Throw e)
  | Ok bytes =>
      match resolve_store h c now (cacheKey ref) (Ok bytes) with
      | (h', c', Ok l) => (h', c', Ok l)
      | (h', c', Throw e) => (h', c', Throw (Secrets e))
      end
  end.

(** A whole call: [answers] are those to its fetches, in order; with the number
    it made. *)
Definition resolveScalewaySecret (token : option string) (ref : ScalewaySecretRef) (fresh : bool) (t1 t2 : Z)
    (answers : nat -> fetched) (h : Heap) (c : SecretCache) : Heap * SecretCache * nat * result scaleway_error loc :=
  match scaleway_lookup token ref fresh t1 h c with
  | (h1, c1, Failed e) => (h1, c1, 0%nat, Throw e)
  | (h1, c1, Hit l) => (h1, c1, 0%nat, Ok l)
  | (h1, c1, Ask) =>
      let '(n, response, _) := transientRetry (asking (fun i => attempt (answers i))) [] 0%nat in
      let '(h2, c2, r) := scaleway_store ref t2 (scaleway_bytes response) h1 c1 in
      (h2, c2, n, r)
  end.
End scaleway.

Inductive SecretsProvider := aws | scaleway.

Definition resolveSecretsProvider (SECRETS_PROVIDER : option string) : SecretsProvider :=
  match SECRETS_PROVIDER with Some p => if String.eqb p "scaleway" then scaleway else aws | None => aws end.

Lemma split_join c l : l <> [] -> Forall (fun p => char_in c p = false) l -> split c (join (String.String c "") l) = l.
Proof.
  intros Hne Hl. induction Hl as [|p l Hp Hl IH]; [done|]. destruct l as [|q l]; [by apply split_none|].
  change (join (String.String c "") (p :: q :: l)) with (p +:+ String.String c (join (String.String c "") (q :: l))).
  rewrite split_cons by done. by rewrite IH.
Qed.

(** ** The cache under both *)

(** Every cached buffer is allocated, its own, and holds what [P] says of its
    key. *)
Definition holds (P : string -> list Z -> Prop) (h : Heap) (c : SecretCache) : Prop :=
  cache_ok c /\ NoDup (locs c) /\ 1 <= maxEntries c /\
  forall k e, (k, e) ∈ entries c -> exists b, h !! value e = Some b /\ P k b.

Lemma holds_new P max ttl : 1 <= default 100 max -> holds P ∅ (new_SecretCache max ttl).
Proof.
  intros Hm. split; [split; [apply NoDup_nil_2|simpl; lia]|]. split; [apply NoDup_nil_2|]. split; [done|].
  intros k e Hin. by apply elem_of_nil in Hin.
Qed.

Lemma map_get_elem k m e : map_get k m = Some e -> (k, e) ∈ m.
Proof. intros (m1 & m2 & ->)%map_get_split. set_solver. Qed.

Lemma locs_elem c k e : (k, e) ∈ entries c -> value e ∈ locs c.
Proof. intros Hin. unfold locs. apply list_elem_of_fmap. by exists (k, e). Qed.

(** A step that leaves a part of the entries in place keeps what holds. *)
Lemma holds_step P h c now op : holds P h c -> match op with OpSet _ _ => False | _ => True end ->
  let '(h', c') := cache_step h c now op in
  (forall k e, (k, e) ∈ entries c' -> (k, e) ∈ entries c) -> maxEntries c' = maxEntries c -> holds P h' c'.
Proof.
  intros (Hok & Hnd & Hmax & Hin) Hop. pose proof (cache_step_ok h c now op Hok) as Hok'. pose proof (eviction_zeroes h c now op Hok) as Hz.
  destruct (cache_step h c now op) as [h' c']. intros Hsub Hmax'. cbn [snd] in Hok'. destruct Hz as [_ Hz].
  destruct Hz as [Hnd' Hsame]; [done|by destruct op|]. split; [done|]. split; [done|]. split; [lia|]. intros k e He.
  rewrite Hsame by (by eapply locs_elem). by apply Hin, Hsub.
Qed.

Lemma lookup_holds P h c now key fr : holds P h c ->
  let '(h', c', r) := resolve_lookup h c now key fr in
  holds P h' c' /\
  match r with Some l => h' = h /\ exists b, h !! l = Some b /\ P key b | None => map_get key (entries c') = None end.
Proof.
  intros Hh. pose proof Hh as ([Hnd Hlen] & Hndl & Hmax & Hin).
  assert (forall m1 e m2, entries c = (m1 ++ (key, e) :: m2)%list -> map_get key (m1 ++ m2)%list = None) as Hgone.
  { intros m1 e m2 Hm. apply map_get_None. rewrite Hm in Hnd. rewrite map_app in Hnd |- *. apply NoDup_app in Hnd as (_ & Hd & Hnd2).
    apply NoDup_cons in Hnd2 as [Hn2 _]. rewrite not_elem_of_app. split; [|done]. intros Hx. apply (Hd _ Hx). left. }
  destruct fr; cbn [resolve_lookup].
  - pose proof (holds_step P h c now (OpInvalidate key) Hh I) as Hs. cbn [cache_step] in Hs.
    pose proof (invalidate_spec h c key (conj Hnd Hlen)) as Hi. destruct (map_get key (entries c)) as [e|] eqn:E.
    + destruct Hi as (m1 & m2 & Hm & Hi). rewrite Hi in Hs |- *. split; [|by apply (Hgone m1 e m2)]. apply Hs; [|done].
      intros k x. cbn [with_entries entries]. rewrite Hm. set_solver.
    + rewrite Hi in Hs |- *. split; [by apply Hs|done].
  - pose proof (holds_step P h c now (OpGet key) Hh I) as Hs. cbn [cache_step] in Hs.
    pose proof (get_spec h c now key (conj Hnd Hlen)) as Hg. destruct (map_get key (entries c)) as [e|] eqn:E.
    + destruct Hg as (m1 & m2 & Hm & Hg). destruct (expiresAt e <=? now); rewrite Hg in Hs |- *.
      * split; [|by apply (Hgone m1 e m2)]. apply Hs; [|done]. intros k x. cbn [with_entries entries]. rewrite Hm. set_solver.
      * split; [|split; [done|]; apply Hin; by apply map_get_elem]. apply Hs; [|done]. intros k x. cbn [with_entries entries]. rewrite Hm. set_solver.
    + rewrite Hg in Hs |- *. split; [by apply Hs|done].
Qed.

Lemma store_holds P h c now key bytes : holds P h c -> P key bytes ->
  let '(h', c', r) := resolve_store h c now key (Ok bytes) in
  holds P h' c' /\ exists l, r = Ok l /\ h' !! l = Some bytes.
Proof.
  intros (Hok & Hnd & Hmax & Hin) Hp. unfold resolve_store. set (l := stdpp.base.fresh (dom h)).
  assert (h !! l = None) as Hl by (apply not_elem_of_dom; apply is_fresh).
  assert (l ∉ locs c) as Hfresh.
  { intros ((k & e) & -> & He)%list_elem_of_fmap. destruct (Hin _ _ He) as (b & Hb & _). cbn in Hl. congruence. }
  pose proof (cache_step_ok (<[l := bytes]> h) c now (OpSet key l) Hok) as Hok'.
  pose proof (eviction_zeroes (<[l := bytes]> h) c now (OpSet key l) Hok) as Hz.
  destruct (set_keeps_youngest (<[l := bytes]> h) c now key l Hmax) as (m & Hm & Hsub).
  pose proof (set_spec (<[l := bytes]> h) c now key l) as Hset. cbn [cache_step] in Hok', Hz. cbv zeta in Hset.
  assert (maxEntries (snd (set (<[l:=bytes]> h) c now key l)) = maxEntries c) as Hmax' by (by rewrite Hset).
  destruct (set (<[l := bytes]> h) c now key l) as [h' c']. cbn [snd] in *. destruct Hz as [_ Hz]. destruct (Hz Hnd Hfresh) as [Hnd' Hsame].
  assert (h' !! l = Some bytes) as Hnew.
  { rewrite Hsame; [apply lookup_insert_eq|]. unfold locs. rewrite Hm, map_app. set_solver. }
  split; [|by eexists]. split; [done|]. split; [done|]. split; [lia|]. intros k e He. pose proof (locs_elem _ _ _ He) as Hle. rewrite Hm in He.
  apply elem_of_app in He as [He|He]; [|apply list_elem_of_singleton in He; simplify_eq; by exists bytes].
  assert ((k, e) ∈ entries c) as Hc.
  { eapply elem_of_sublist; [|apply map_delete_sublist]. by eapply elem_of_sublist. }
  destruct (Hin _ _ Hc) as (b & Hb & Hpb). exists b. split; [|done]. rewrite Hsame by done. rewrite lookup_insert_ne; [done|].
  intros ->. by rewrite Hb in Hl.
Qed.

(** ** The in-memory store *)

(** Seeds, oldest first. *)
Definition seeded (l : list (string * MemorySecretSeed)) : MemorySecretStore :=
  fold_left (fun st '(arn, seed) => setSecret arn seed st) l new_MemorySecretStore.

(** The value of the last seed of [arn] that a request for this version wants:
    any for the current one, else those that pin it. *)
Definition latest (arn : string) (version : option string) (l : list (string * MemorySecretSeed)) : option string :=
  let wanted seed := match version with
                     | None => true
                     | Some v => String.eqb v CURRENT || bool_decide (seed_versionId seed = Some v)
                     end in
  fold_left (fun acc '(a, seed) => if String.eqb a arn && wanted seed then Some (seed_value seed) else acc) l None.

Lemma seeded_lookup arn v l : default ∅ (secrets (seeded l) !! arn) !! default CURRENT v = latest arn v l.
Proof.
  induction l as [|[a seed] l IH] using rev_ind; [done|]. unfold seeded, latest. rewrite !fold_left_app. cbn [fold_left].
  fold (seeded l) (latest arn v l). rewrite <- IH. unfold setSecret. cbn [secrets].
  destruct (String.eqb_spec a arn) as [->|Hne]; [|by rewrite lookup_insert_ne]. rewrite lookup_insert_eq. cbn [andb default from_option].
  destruct v as [v|]; cbn [default from_option]; unfold Datatypes.id.
  - destruct (String.eqb_spec v CURRENT) as [->|Hv]; cbn [orb].
    + destruct (seed_versionId seed) as [w|]; [|by rewrite lookup_insert_eq].
      destruct (decide (w = CURRENT)) as [->|Hw]; [by rewrite lookup_insert_eq|]. by rewrite lookup_insert_ne, lookup_insert_eq by done.
    + destruct (seed_versionId seed) as [w|]; [|by rewrite lookup_insert_ne by done]. case_bool_decide as Hw.
      * apply (inj Some) in Hw as ->. by rewrite lookup_insert_eq.
      * by rewrite !lookup_insert_ne by congruence.
  - destruct (seed_versionId seed) as [w|]; [|by rewrite lookup_insert_eq].
    destruct (decide (w = CURRENT)) as [->|Hw]; [by rewrite lookup_insert_eq|]. by rewrite lookup_insert_ne, lookup_insert_eq by done.
Qed.

Lemma double_answer l ref :
  snd (sendSecrets (Input (Some (arn ref)) (versionId ref)) (seeded l)) =
  match latest (arn ref) (versionId ref) l with Some x => Ok x | None => Throw (Some "ResourceNotFoundException") end.
Proof.
  cbn [sendSecrets snd]. rewrite <- seeded_lookup. destruct (secrets (seeded l) !! arn ref) as [versions|]; cbn [default from_option].
  - done.
  - by rewrite lookup_empty.
Qed.

Lemma bump_calls k key st : calls k key (bump k key st) = calls k key st + 1.
Proof. unfold calls, bump. destruct k; cbn [secretCalls parameterCalls]; by rewrite lookup_insert_eq. Qed.

(** Also (The in-memory store stands in for the service): resolved on a store that
    was seeded, a secret is the buffer of the cache, for which the store is not
    asked, or else is asked for once: the answer is the bytes of the last seed
    that the version wants, or that there is none. *)
Theorem secret_from_double P l ref fresh t1 t2 h c : holds P h c ->
  (forall x, latest (arn ref) (versionId ref) l = Some x -> P (secretCacheKey ref) (utf8 x)) ->
  let '(h', c', st', r) := resolveSecret ref fresh t1 t2 [] h c (seeded l) in
  holds P h' c' /\ secrets st' = secrets (seeded l) /\
  match snd (resolve_lookup h c t1 (secretCacheKey ref) fresh) with
  | Some b => r = Ok b /\ h' = h /\ st' = seeded l
  | None =>
      calls OfSecret (arn ref) st' = calls OfSecret (arn ref) (seeded l) + 1 /\
      match latest (arn ref) (versionId ref) l with
      | Some x => exists b, r = Ok b /\ h' !! b = Some (utf8 x)
      | None => r = Throw SecretsNotFound
      end
  end.
Proof.
  intros Hh Hp. unfold resolveSecret. pose proof (lookup_holds P h c t1 (secretCacheKey ref) fresh Hh) as Hl.
  destruct (resolve_lookup h c t1 _ fresh) as [[h1 c1] [b|]]; destruct Hl as [Hh1 Hl]; cbn [snd].
  { destruct Hl as [-> _]. split; [done|]. by split_and!. }
  unfold transientRetry. cbn [DynamoDb.transientRetry_maxAttempts retrying].
  rewrite (surjective_pairing (sendSecrets _ _)). rewrite double_answer. cbn [fst sendSecrets].
  destruct (latest (arn ref) (versionId ref) l) as [x|].
  - cbn [result_map secret_bytes]. pose proof (store_holds P h1 c1 t2 (secretCacheKey ref) (utf8 x) Hh1 (Hp x eq_refl)) as Hs.
    destruct (resolve_store h1 c1 t2 _ _) as [[h2 c2] r]. destruct Hs as [Hh2 (b & -> & Hb)].
    split; [done|]. split; [done|]. split; [apply bump_calls|]. by exists b.
  - cbn -[bump calls Z.add]. split; [done|]. split; [done|]. split; [apply (bump_calls OfSecret)|done].
Qed.

(** Also (Parameters): the same of a parameter, but one that the store does not
    have is asked for four times. *)
Theorem parameter_from_double P name dec fresh t1 t2 h c st : holds P h c ->
  (forall x, parameters st !! name = Some x -> P (parameterCacheKey name dec) (utf8 x)) ->
  let '(h', c', st', r) := resolveParameter name dec fresh t1 t2 [] h c st in
  holds P h' c' /\ parameters st' = parameters st /\
  match snd (resolve_lookup h c t1 (parameterCacheKey name dec) fresh) with
  | Some b => r = Ok b /\ h' = h /\ st' = st
  | None =>
      match parameters st !! name with
      | Some x => calls OfParameter name st' = calls OfParameter name st + 1 /\ exists b, r = Ok b /\ h' !! b = Some (utf8 x)
      | None => calls OfParameter name st' = calls OfParameter name st + 4 /\ r = Throw ParameterNotFound
      end
  end.
Proof.
  intros Hh Hp. unfold resolveParameter. pose proof (lookup_holds P h c t1 (parameterCacheKey name dec) fresh Hh) as Hl.
  destruct (resolve_lookup h c t1 _ fresh) as [[h1 c1] [b|]]; destruct Hl as [Hh1 Hl]; cbn [snd].
  { destruct Hl as [-> _]. split; [done|]. by split_and!. }
  unfold transientRetry. cbn [DynamoDb.transientRetry_maxAttempts retrying sendSsm bump parameters].
  destruct (parameters st !! name) as [x|] eqn:Hx.
  - cbn [result_map parameter_bytes]. pose proof (store_holds P h1 c1 t2 (parameterCacheKey name dec) (utf8 x) Hh1 (Hp x eq_refl)) as Hs.
    destruct (resolve_store h1 c1 t2 _ _) as [[h2 c2] r]. destruct Hs as [Hh2 (b & -> & Hb)].
    split; [done|]. split; [done|]. split; [apply (bump_calls OfParameter)|]. by exists b.
  - cbn -[insert lookup Z.add default]. split; [done|]. split; [done|]. split; [|done]. unfold calls. cbn [parameterCalls].
    rewrite !lookup_insert_eq. cbn [default from_option]. unfold Datatypes.id. lia.
Qed.

(** ** Scaleway *)

Definition no_colon (v : option string) : bool := match v with Some s => negb (char_in ":" s) | None => true end.

(** Nothing in the reference holds the separator of the cache's keys. *)
Definition plain (ref : ScalewaySecretRef) : bool :=
  no_colon (secretId ref) && no_colon (name ref) && no_colon (path ref) && no_colon (projectId ref) &&
  no_colon (Some (region ref)) && no_colon (revision ref).

Lemma no_colon_default d v : char_in ":" d = false -> no_colon v = true -> char_in ":" (default d v) = false.
Proof. intros Hd. destruct v as [s|]; [|done]. cbn. apply negb_true_iff. Qed.

Lemma no_colon_present v s : no_colon v = true -> present v = Some s -> char_in ":" s = false.
Proof. destruct v as [t|]; [|done]. cbn. destruct (String.eqb t ""); [done|]. intros ?%negb_true_iff ?. by simplify_eq. Qed.

Definition key_parts (ref : ScalewaySecretRef) : list string :=
  "scw-secret" :: region ref ::
  (match present (secretId ref) with
   | Some id => ["id"; id]
   | None => ["name"; default "" (projectId ref); default "/" (path ref); default "undefined" (name ref)]
   end ++ [default "latest_enabled" (revision ref)])%list.

Lemma cacheKey_parts ref : cacheKey ref = join ":" (key_parts ref).
Proof.
  unfold cacheKey, key_parts. destruct (present (secretId ref)) as [id|]; cbn [app join]; rewrite !str_app_assoc; reflexivity.
Qed.

Lemma key_parts_plain ref : plain ref = true -> Forall (fun p => char_in ":" p = false) (key_parts ref).
Proof.
  unfold plain. intros Hp. bool_hyps. unfold key_parts.
  assert (Forall (fun p => char_in ":" p = false) [default "latest_enabled" (revision ref)]) as Hv
    by (apply Forall_singleton; by apply no_colon_default).
  apply Forall_cons; split; [done|]. apply Forall_cons; split; [by apply negb_true_iff|]. apply Forall_app; split; [|done].
  destruct (present (secretId ref)) as [id|] eqn:Hid.
  - apply Forall_cons; split; [done|]. apply Forall_singleton. by apply (no_colon_present (secretId ref)).
  - apply Forall_cons; split; [done|]. apply Forall_cons; split; [by apply no_colon_default|].
    apply Forall_cons; split; [by apply no_colon_default|]. apply Forall_singleton. by apply no_colon_default.
Qed.

Lemma present_default v w : default "" v = default "" w -> present v = present w.
Proof.
  destruct v as [v|], w as [w|]; cbn; unfold Datatypes.id; intros E; try done.
  - by rewrite E.
  - by rewrite E.
  - by rewrite <- E.
Qed.

(** Also (A key is one address): valid references none of whose parts hold a
    colon share an entry of the cache only if they are fetched from one URL. *)
Lemma key_address base r1 r2 : plain r1 = true -> plain r2 = true ->
  scalewaySecretRef r1 = true -> scalewaySecretRef r2 = true ->
  cacheKey r1 = cacheKey r2 -> accessUrl base r1 = accessUrl base r2.
Proof.
  intros H1%key_parts_plain H2%key_parts_plain V1 V2 E. rewrite !cacheKey_parts in E. apply (f_equal (split ":")) in E.
  rewrite !split_join in E by done. unfold key_parts in E. unfold accessUrl.
  destruct (present (secretId r1)) as [i1|] eqn:E1, (present (secretId r2)) as [i2|] eqn:E2; cbn [app] in E; try done; cbv zeta.
  - injection E as -> -> ->. done.
  - injection E as -> Ep -> En ->.
    assert (present (projectId r1) = present (projectId r2)) as -> by by apply present_default.
    assert (default "" (name r1) = default "" (name r2)) as ->.
    { unfold scalewaySecretRef in V1, V2. rewrite E1 in V1. rewrite E2 in V2. destruct (name r1), (name r2); cbn in *; bool_hyps; done. }
    done.
Qed.

(** The separator is not escaped: with colons, two secrets share an entry, and
    the second is answered with the first. *)
Lemma colon_confuses :
  let r1 := {| secretId := None; name := Some "b:c"; path := Some "/a"; projectId := None; region := "fr-par"; revision := None |} in
  let r2 := {| secretId := None; name := Some "c"; path := Some "/a:b"; projectId := None; region := "fr-par"; revision := None |} in
  scalewaySecretRef r1 = true /\ scalewaySecretRef r2 = true /\ cacheKey r1 = cacheKey r2 /\ accessUrl "" r1 <> accessUrl "" r2.
Proof. vm_compute. by split_and!. Qed.

Section scaleway_theorems.
Context `{Base64}.

Lemma scaleway_bytes_Ok response bytes : scaleway_bytes response = Ok bytes ->
  exists status o data, response = Ok (status, Some (VObject o)) /\ 200 <= status <= 299 /\
    find_key "data" o = Some (VString data) /\ bytes = from_base64 data.
Proof.
  destruct response as [[status json]|e]; [|done]. cbn. destruct (status =? 404); [done|]. destruct ((status =? 401) || _); [done|].
  destruct ((200 <=? status) && (status <=? 299)) eqn:E; [|done]. cbn. bool_hyps. unfold payload_bytes.
  destruct json as [[]|]; try done. destruct (find_key "data" l) as [[]|] eqn:Hd; try done. intros [= <-]. by eexists _, _, _.
Qed.

(** Also (What a resolution makes of the answers): one that has to ask makes at
    most four requests and goes by the first answer that is not transient, or
    by the fourth. Only a success with a string of data gives a buffer, which
    holds its bytes; every other answer is an error and leaves the cache as the
    look-up left it. *)
Theorem scaleway_spec P token ref fresh t1 t2 answers h c : holds P h c -> (forall bytes, P (cacheKey ref) bytes) ->
  let '(h', c', requests, r) := resolveScalewaySecret token ref fresh t1 t2 answers h c in
  match scaleway_lookup token ref fresh t1 h c with
  | (h1, c1, Failed e) => (h', c', requests, r) = (h1, c1, 0%nat, Throw e)
  | (h1, c1, Hit l) => (h', c', requests, r) = (h1, c1, 0%nat, Ok l)
  | (h1, c1, Ask) =>
      exists k, requests = S k /\ (k <= 3)%nat /\ (forall j, (j < k)%nat -> again (attempt (answers j)) = true) /\
        (k = 3%nat \/ again (attempt (answers k)) = false) /\
        match r with
        | Ok l => exists status o data, answers k = Answered status (Some (VObject o)) /\ 200 <= status <= 299 /\
            find_key "data" o = Some (VString data) /\ h' !! l = Some (from_base64 data) /\ holds P h' c'
        | Throw e => h' = h1 /\ c' = c1 /\ scaleway_bytes (attempt (answers k)) = Throw e
        end
  end.
Proof.
  intros Hh Hp. unfold resolveScalewaySecret. destruct (scaleway_lookup token ref fresh t1 h c) as [[h1 c1] [e|l|]] eqn:El; [done|done|].
  assert (holds P h1 c1) as Hh1.
  { unfold scaleway_lookup in El. destruct (negb _); [done|]. pose proof (lookup_holds P h c t1 (cacheKey ref) fresh Hh) as Hl.
    destruct (resolve_lookup h c t1 _ fresh) as [[h2 c2] [l|]]; [done|]. destruct Hl as [Hl _].
    assert (h2 = h1 /\ c2 = c1) as [<- <-] by (by injection El). done. }
  destruct (retrying_first (fun i => attempt (answers i)) 3 0) as (k & Hk & Hbefore & Hlast & Hrun).
  unfold transientRetry. change DynamoDb.transientRetry_maxAttempts with 3%nat. rewrite Hrun. cbn [Nat.add].
  destruct (scaleway_bytes (attempt (answers k))) as [bytes|e] eqn:Eb; cbn [scaleway_store].
  - pose proof (store_holds P h1 c1 t2 (cacheKey ref) bytes Hh1 (Hp bytes)) as Hs.
    destruct (resolve_store h1 c1 t2 _ _) as [[h2 c2] r]. destruct Hs as [Hh2 (l & -> & Hl)].
    exists k. split; [done|]. split; [done|]. split; [done|]. split; [done|].
    apply scaleway_bytes_Ok in Eb as (status & o & data & Ha & Hst & Hd & ->). exists status, o, data.
    split; [|do 3 (split; [done|]); done]. unfold attempt in Ha. destruct (answers k) as [|st js]; [done|].
    destruct (transient_status st); [done|]. by injection Ha as -> ->.
  - exists k. by split_and!.
Qed.

(** *** Any number of callers at once *)

Inductive half :=
| Look (token : option string) (ref : ScalewaySecretRef) (fresh : bool) (now : Z)
| Settle (ref : ScalewaySecretRef) (now : Z) (answer : result (option string) (Z * option JsonValue)).

Definition run_half (hc : Heap * SecretCache) (x : half) : Heap * SecretCache :=
  match x with
  | Look token ref fresh now => let '(h, c, _) := scaleway_lookup token ref fresh now hc.1 hc.2 in (h, c)
  | Settle ref now answer => let '(h, c, _) := scaleway_store ref now (scaleway_bytes answer) hc.1 hc.2 in (h, c)
  end.

Context (base : string) (content : string -> list Z).

(** The service gives at each URL the secret that is there. *)
Definition honest (x : half) : Prop :=
  match x with
  | Look _ _ _ _ => True
  | Settle ref _ answer =>
      plain ref = true /\ scalewaySecretRef ref = true /\
      forall bytes, scaleway_bytes answer = Ok bytes -> bytes = content (accessUrl base ref)
  end.

Definition right_bytes (key : string) (bytes : list Z) : Prop :=
  exists ref, plain ref = true /\ scalewaySecretRef ref = true /\ cacheKey ref = key /\ bytes = content (accessUrl base ref).

Lemma scaleway_lookup_holds P token ref fresh now h c : holds P h c ->
  let '(h', c', r) := scaleway_lookup token ref fresh now h c in
  holds P h' c' /\ match r with Hit l => scalewaySecretRef ref = true /\ h' = h /\ exists b, h' !! l = Some b /\ P (cacheKey ref) b | _ => True end.
Proof.
  intros Hh. unfold scaleway_lookup. destruct (scalewaySecretRef ref); cbn [negb]; [|done].
  pose proof (lookup_holds P h c now (cacheKey ref) fresh Hh) as Hl.
  destruct (resolve_lookup h c now _ fresh) as [[h1 c1] [l|]]; destruct Hl as [Hh1 Hl]; [|by destruct (present token)].
  destruct Hl as [-> Hb]. by split_and!.
Qed.

Lemma halves_hold xs h c : Forall honest xs -> holds right_bytes h c ->
  let '(h', c') := fold_left run_half xs (h, c) in holds right_bytes h' c'.
Proof.
  revert h c. induction xs as [|x xs IH]; intros h c Hx Hh; [done|]. apply Forall_cons in Hx as [Hx Hxs]. cbn [fold_left].
  destruct (run_half (h, c) x) as [h1 c1] eqn:E. apply IH; [done|]. destruct x as [token ref fresh now|ref now answer]; cbn [run_half fst snd] in E.
  - pose proof (scaleway_lookup_holds right_bytes token ref fresh now h c Hh) as Hl.
    destruct (scaleway_lookup _ _ _ _ _ _) as [[h2 c2] r]. simplify_eq. by destruct Hl.
  - destruct Hx as (Hp & Hv & Hhon). destruct (scaleway_bytes answer) as [bytes|e]; cbn [scaleway_store] in E; [|by simplify_eq].
    assert (right_bytes (cacheKey ref) bytes) as Hr by (exists ref; by rewrite (Hhon bytes eq_refl)).
    pose proof (store_holds right_bytes h c now (cacheKey ref) bytes Hh Hr) as Hs.
    destruct (resolve_store h c now _ _) as [[h2 c2] [l|e]]; simplify_eq; by destruct Hs.
Qed.

(** Also (No other secret): whatever calls have been made, in whatever order their
    halves ran, a reference that is answered from the cache is answered with the
    secret at its own URL, as long as references hold no colon. *)
Theorem never_another_secret max ttl xs token ref fresh now :
  1 <= default 100 max -> Forall honest xs -> plain ref = true ->
  let '(h, c) := fold_left run_half xs (∅, new_SecretCache max ttl) in
  match scaleway_lookup token ref fresh now h c with
  | (h', _, Hit l) => h' !! l = Some (content (accessUrl base ref))
  | _ => True
  end.
Proof.
  intros Hmax Hx Hp. pose proof (halves_hold xs ∅ (new_SecretCache max ttl) Hx (holds_new _ _ _ Hmax)) as Hh.
  destruct (fold_left run_half xs _) as [h c]. pose proof (scaleway_lookup_holds right_bytes token ref fresh now h c Hh) as Hl.
  destruct (scaleway_lookup token ref fresh now h c) as [[h' c'] [e|l|]]; [done| |done].
  destruct Hl as [_ (Hv & _ & b & Hb & r0 & Hp0 & Hv0 & Hk & ->)]. rewrite Hb. f_equal. f_equal.
  by apply key_address.
Qed.
End scaleway_theorems.

(** ** Runs *)

(** A base64 for the examples: a character per byte. *)
#[local] Definition toy_encode (bytes : list Z) : string :=
  fold_right (fun b s => String.String (ascii_of_N (Z.to_N b)) s) "" bytes.
#[local] Fixpoint toy_decode (s : string) : list Z :=
  match s with EmptyString => [] | String.String c r => code c :: toy_decode r end.

#[local] Lemma toy_round_trip bytes : Forall (fun b => 0 <= b < 256) bytes -> toy_decode (toy_encode bytes) = bytes.
Proof.
  induction 1 as [|b bytes Hb _ IH]; [done|]. cbn [toy_encode fold_right toy_decode].
  fold (toy_encode bytes). rewrite IH. f_equal. unfold code. rewrite N_ascii_embedding; lia.
Qed.

#[local] Instance toy_base64 : Base64 :=
  {| to_base64 := toy_encode; from_base64 := toy_decode; base64_round_trip := toy_round_trip |}.

#[local] Definition db_ref : ScalewaySecretRef :=
  {| secretId := None; name := Some "db"; path := Some "/prod"; projectId := Some "p"; region := "fr-par"; revision := None |}.
#[local] Definition cache0 : SecretCache := new_SecretCache None None.
#[local] Definition given (data : string) : fetched := Answered 200 (Some (VObject [("data", VString data)])).

Example scaleway_runs :
  accessUrl "https://api.scaleway.com" db_ref =
    "https://api.scaleway.com/secret-manager/v1beta1/regions/fr-par/secrets-by-path/versions/latest_enabled/access?secret_name=db&secret_path=%2Fprod&project_id=p" /\
  cacheKey db_ref = "scw-secret:fr-par:name:p:/prod:db:latest_enabled" /\
  scalewaySecretRef {| secretId := Some ""; name := None; path := None; projectId := None; region := "fr-par"; revision := None |} = false /\
  snd (resolveScalewaySecret (Some "t") db_ref false 0 1 (fun i => if (i <? 2)%nat then Answered 503 None else given "xy") ∅ cache0) = Ok 0%nat /\
  (snd (fst (resolveScalewaySecret (Some "t") db_ref false 0 1 (fun _ => Answered 429 None) ∅ cache0)),
   snd (resolveScalewaySecret (Some "t") db_ref false 0 1 (fun _ => Answered 429 None) ∅ cache0)) = (4%nat, Throw (Secrets SecretsTransient)) /\
  snd (resolveScalewaySecret (Some "") db_ref false 0 1 (fun _ => given "xy") ∅ cache0) = Throw (Secrets SecretsAccessDenied) /\
  resolveSecretsProvider (Some "scaleway") = scaleway /\ resolveSecretsProvider (Some "Scaleway") = aws.
Proof. by vm_compute. Qed.

(** A success whose body is [null] is no error of the resolver's. *)
Lemma null_payload_escapes :
  snd (resolveScalewaySecret (Some "t") db_ref false 0 1 (fun _ => Answered 200 (Some VNull)) ∅ cache0) = Throw PayloadTypeError.
Proof. by vm_compute. Qed.

(** What is missing is asked for once if it is a secret, four times if it is a
    parameter: the retry policy knows the name of the one error only. *)
Lemma missing_parameter_retried :
  let '(_, _, s1, r1) := resolveSecret {| arn := "a"; versionId := None |} false 0 1 [] ∅ cache0 new_MemorySecretStore in
  let '(_, _, s2, r2) := resolveParameter "a" true false 0 1 [] ∅ cache0 new_MemorySecretStore in
  (r1, calls OfSecret "a" s1) = (Throw SecretsNotFound, 1) /\ (r2, calls OfParameter "a" s2) = (Throw ParameterNotFound, 4).
Proof. by vm_compute. Qed.

#[local] Definition anything (_ : string) (_ : list Z) : Prop := True.

Lemma secret_from_double_witness :
  let l := [("a", {| seed_value := "one"; seed_versionId := Some "v1" |}); ("a", {| seed_value := "two"; seed_versionId := None |})] in
  let ref := {| arn := "a"; versionId := Some "v1" |} in
  let '(h', c', st', r) := resolveSecret ref false 0 1 [] ∅ cache0 (seeded l) in
  holds anything h' c' /\ secrets st' = secrets (seeded l) /\ calls OfSecret "a" st' = calls OfSecret "a" (seeded l) + 1 /\
  exists b, r = Ok b /\ h' !! b = Some (utf8 "one").
Proof.
  exact (secret_from_double anything [("a", {| seed_value := "one"; seed_versionId := Some "v1" |}); ("a", {| seed_value := "two"; seed_versionId := None |})]
    {| arn := "a"; versionId := Some "v1" |} false 0 1 ∅ cache0 (holds_new anything None None ltac:(by vm_compute)) (fun _ _ => I)).
Defined.

Lemma parameter_from_double_witness :
  let st := setParameter "p" "v" new_MemorySecretStore in
  let '(h', c', st', r) := resolveParameter "p" true false 0 1 [] ∅ cache0 st in
  holds anything h' c' /\ parameters st' = parameters st /\ calls OfParameter "p" st' = calls OfParameter "p" st + 1 /\
  exists b, r = Ok b /\ h' !! b = Some (utf8 "v").
Proof.
  exact (parameter_from_double anything "p" true false 0 1 ∅ cache0 (setParameter "p" "v" new_MemorySecretStore)
    (holds_new anything None None ltac:(by vm_compute)) (fun _ _ => I)).
Defined.

Lemma scaleway_spec_witness :
  let answers i := if (i <? 2)%nat then Answered 503 None else given "xy" in
  let '(h', c', requests, r) := resolveScalewaySecret (Some "t") db_ref false 0 1 answers ∅ cache0 in
  exists k, requests = S k /\ (k <= 3)%nat /\ (forall j, (j < k)%nat -> again (attempt (answers j)) = true) /\
    (k = 3%nat \/ again (attempt (answers k)) = false) /\
    match r with
    | Ok l => exists status o data, answers k = Answered status (Some (VObject o)) /\ 200 <= status <= 299 /\
        find_key "data" o = Some (VString data) /\ h' !! l = Some (from_base64 data) /\ holds anything h' c'
    | Throw e => h' = ∅ /\ c' = cache0 /\ scaleway_bytes (attempt (answers k)) = Throw e
    end.
Proof.
  exact (scaleway_spec anything (Some "t") db_ref false 0 1 (fun i => if (i <? 2)%nat then Answered 503 None else given "xy") ∅ cache0
    (holds_new anything None None ltac:(by vm_compute)) (fun _ => I)).
Defined.

Lemma never_another_secret_witness :
  let xs := [Look (Some "t") db_ref false 0; Settle db_ref 1 (attempt (given "xy"))] in
  let '(h, c) := fold_left run_half xs (∅, cache0) in
  match scaleway_lookup (Some "t") db_ref false 2 h c with
  | (h', _, Hit l) => h' !! l = Some [120; 121]
  | _ => True
  end.
Proof.
  apply (never_another_secret "" (fun _ => [120; 121]) None None
    [Look (Some "t") db_ref false 0; Settle db_ref 1 (attempt (given "xy"))] (Some "t") db_ref false 2).
  - by vm_compute.
  - apply Forall_cons; split; [done|]. apply Forall_singleton. split; [by vm_compute|]. split; [by vm_compute|].
    intros bytes. vm_compute. by intros [= <-].
  - by vm_compute.
Defined.
End SecretStores.
