(* ===== verification/AsyncContext.v ===== *)
(** Node's [AsyncLocalStorage], which foundation [request-context/als.ts] and
    [tenant/als.ts] keep one instance of each.

    Code is a tree of what it does with the store. A synchronous stretch runs to
    its end in one go ([exec]); what follows an [await] is a task with the store
    that was current there; tasks are picked in any order ([run]). *)

From S2P Require Import Prelude.

Module AsyncContext.

Section als.
Context {S : Type}.

(** [getStore], [enterWith], [run], [await], and the call of an [async]
    function, whose first stretch is part of its caller's. *)
Inductive code :=
| Done
| GetStore (k : option S -> code)
| EnterWith (s : S) (k : code)
| Run (s : S) (body k : code)
| Await (k : code)
| Call (body k : code).

(** The store a stretch leaves, the tasks it creates and the stores it saw. *)
Fixpoint exec (c : code) (s : option S) : option S * list (option S * code) * list (option S) :=
  match c with
  | Done => (s, [], [])
  | GetStore k => let '(s', ts, seen) := exec (k s) s in (s', ts, s :: seen)
  | EnterWith x k => exec k (Some x)
  | Run x body k =>
      let '(_, ts1, seen1) := exec body (Some x) in
      let '(s', ts2, seen2) := exec k s in
      (s', (ts1 ++ ts2)%list, (seen1 ++ seen2)%list)
  | Await k => (s, [(s, k)], [])
  | Call body k =>
      let '(s1, ts1, seen1) := exec body s in
      let '(s2, ts2, seen2) := exec k s1 in
      (s2, (ts1 ++ ts2)%list, (seen1 ++ seen2)%list)
  end.

(** A task belongs to what started it. *)
Record task := { owner : nat; store : option S; rest : code }.

Definition of_owner (o : nat) (t : option S * code) : task := {| owner := o; store := t.1; rest := t.2 |}.

(** One turn of the event loop, and any number of them. *)
Definition turn (i : nat) (ts : list task) : list task * list (nat * option S) :=
  match ts !! i with
  | None => (ts, [])
  | Some t =>
      let '(_, new, seen) := exec (rest t) (store t) in
      ((take i ts ++ map (of_owner (owner t)) new ++ drop (Datatypes.S i) ts)%list, map (pair (owner t)) seen)
  end.

Fixpoint run (picks : list nat) (ts : list task) : list task * list (nat * option S) :=
  match picks with
  | [] => (ts, [])
  | i :: picks =>
      let '(ts1, seen1) := turn i ts in
      let '(ts2, seen2) := run picks ts1 in
      (ts2, (seen1 ++ seen2)%list)
  end.

(** ** Who sees what *)

(** Code that, as long as it sees stores that satisfy [Q], installs no others. *)
Fixpoint keeps (Q : option S -> Prop) (c : code) : Prop :=
  match c with
  | Done => True
  | GetStore k => forall s, Q s -> keeps Q (k s)
  | EnterWith x k => Q (Some x) /\ keeps Q k
  | Run x body k => Q (Some x) /\ keeps Q body /\ keeps Q k
  | Await k => keeps Q k
  | Call body k => keeps Q body /\ keeps Q k
  end.

Lemma exec_keeps Q c : forall s, Q s -> keeps Q c ->
  let '(s', ts, seen) := exec c s in Q s' /\ Forall (fun t => Q t.1 /\ keeps Q t.2) ts /\ Forall Q seen.
Proof.
  induction c as [|k IH|x k IH|x body IHb k IHk|k IH|body IHb k IHk]; intros s Hs Hc; cbn [exec keeps] in *.
  - done.
  - specialize (IH s s Hs (Hc s Hs)). destruct (exec (k s) s) as [[s' ts] seen]. destruct IH as (? & ? & ?). split_and!; [done|done|by constructor].
  - destruct Hc as [Hx Hk]. by apply IH.
  - destruct Hc as (Hx & Hb & Hk). specialize (IHb (Some x) Hx Hb). specialize (IHk s Hs Hk).
    destruct (exec body (Some x)) as [[s1 ts1] seen1], (exec k s) as [[s2 ts2] seen2]. destruct IHb as (? & ? & ?), IHk as (? & ? & ?).
    split_and!; [done|by apply Forall_app|by apply Forall_app].
  - split_and!; [done|by apply Forall_singleton|done].
  - destruct Hc as [Hb Hk]. specialize (IHb s Hs Hb). destruct (exec body s) as [[s1 ts1] seen1]. destruct IHb as (Hs1 & ? & ?).
    specialize (IHk s1 Hs1 Hk). destruct (exec k s1) as [[s2 ts2] seen2]. destruct IHk as (? & ? & ?).
    split_and!; [done|by apply Forall_app|by apply Forall_app].
Qed.

(** A task in its owner's stores, or one that is yet to open its scope. *)
Definition started (Q : nat -> option S -> Prop) (t : task) : Prop :=
  (Q (owner t) (store t) /\ keeps (Q (owner t)) (rest t)) \/
  exists x body, rest t = Run x body Done /\ Q (owner t) (Some x) /\ keeps (Q (owner t)) body.

Lemma exec_started Q t : started Q t ->
  let '(_, ts, seen) := exec (rest t) (store t) in
  Forall (fun u => started Q (of_owner (owner t) u)) ts /\ Forall (Q (owner t)) seen.
Proof.
  assert (forall ts, Forall (fun u => Q (owner t) u.1 /\ keeps (Q (owner t)) u.2) ts ->
    Forall (fun u => started Q (of_owner (owner t) u)) ts) as Hw.
  { intros ts Hts. eapply Forall_impl; [exact Hts|]. intros u Hu. by left. }
  intros [[Hs Hc]|(x & body & -> & Hx & Hb)].
  - pose proof (exec_keeps (Q (owner t)) (rest t) (store t) Hs Hc) as He. destruct (exec _ _) as [[s' ts] seen].
    destruct He as (_ & Ht & Hseen). split; [by apply Hw|done].
  - pose proof (exec_keeps (Q (owner t)) body (Some x) Hx Hb) as He. cbn [exec]. destruct (exec body (Some x)) as [[s1 ts] seen].
    destruct He as (_ & Ht & Hseen). rewrite !app_nil_r. split; [by apply Hw|done].
Qed.

(** However the turns fall, code sees its owner's stores only. *)
Lemma run_started Q picks : forall ts, Forall (started Q) ts ->
  let '(ts', seen) := run picks ts in Forall (started Q) ts' /\ Forall (fun x => Q x.1 x.2) seen.
Proof.
  induction picks as [|i picks IH]; intros ts Hts; cbn [run]; [done|].
  assert (let '(ts1, seen1) := turn i ts in Forall (started Q) ts1 /\ Forall (fun x => Q x.1 x.2) seen1) as Hturn.
  { unfold turn. destruct (ts !! i) as [t|] eqn:Hi; [|done]. pose proof (exec_started Q t (Forall_lookup_1 _ _ _ _ Hts Hi)) as He.
    destruct (exec (rest t) (store t)) as [[s' new] seen]. destruct He as [Hnew Hseen]. split.
    - repeat apply Forall_app_2; [by apply Forall_take|by apply Forall_map|by apply Forall_drop].
    - by apply Forall_map. }
  destruct (turn i ts) as [ts1 seen1]. destruct Hturn as [H1 Hs1]. specialize (IH ts1 H1). destruct (run picks ts1) as [ts2 seen2].
  destruct IH as [H2 Hs2]. split; [done|by apply Forall_app].
Qed.

(** ** Tasks come to an end *)

(** The turns that finish the first task and all it starts. *)
Definition finishes (c : code) : Prop :=
  forall o s, exists n, forall ts, fst (run (repeat 0%nat n) ({| owner := o; store := s; rest := c |} :: ts)) = ts.

Lemma run_app p1 : forall p2 ts, fst (run (p1 ++ p2)%list ts) = fst (run p2 (fst (run p1 ts))).
Proof.
  induction p1 as [|i p1 IH]; intros p2 ts; [done|]. cbn [app run]. destruct (turn i ts) as [ts1 seen1]. specialize (IH p2 ts1).
  destruct (run (p1 ++ p2)%list ts1), (run p1 ts1) as [ts2 seen2]. cbn [fst] in *. by destruct (run p2 ts2).
Qed.

Lemma finish_all o (l : list (option S * code)) : Forall (fun t => finishes t.2) l ->
  exists n, forall ts, fst (run (repeat 0%nat n) (map (of_owner o) l ++ ts)%list) = ts.
Proof.
  induction 1 as [|[s c] l Hc _ [n IH]]; [by exists 0%nat|]. destruct (Hc o s) as [m Hm]. exists (m + n)%nat. intros ts.
  rewrite repeat_app, run_app. cbn [map app]. unfold of_owner at 1. cbn [fst snd]. by rewrite Hm.
Qed.

Lemma finishes_step c : (forall s, Forall (fun t => finishes t.2) (snd (fst (exec c s)))) -> finishes c.
Proof.
  intros Hc o s. specialize (Hc s). destruct (finish_all o _ Hc) as [n Hn]. exists (Datatypes.S n). intros ts. cbn [repeat run].
  unfold turn. cbn [lookup list_lookup rest store owner]. destruct (exec c s) as [[s' new] seen]. cbn [take drop app fst snd] in *.
  specialize (Hn ts). by destruct (run (repeat 0%nat n) _).
Qed.

Lemma exec_finishes c : forall s, Forall (fun t => finishes t.2) (snd (fst (exec c s))).
Proof.
  induction c as [|k IH|x k IH|x body IHb k IHk|k IH|body IHb k IHk]; intros s; cbn [exec].
  - done.
  - specialize (IH s s). by destruct (exec (k s) s) as [[s' ts] seen].
  - apply IH.
  - specialize (IHb (Some x)). specialize (IHk s). destruct (exec body (Some x)) as [[s1 ts1] seen1], (exec k s) as [[s2 ts2] seen2].
    by apply Forall_app.
  - apply Forall_singleton. by apply finishes_step.
  - specialize (IHb s). destruct (exec body s) as [[s1 ts1] seen1]. specialize (IHk s1). destruct (exec k s1) as [[s2 ts2] seen2].
    by apply Forall_app.
Qed.

(** Also (The loop can always be emptied): whatever is waiting, some turns
    finish all of it. *)
Theorem loop_empties (ts : list task) : exists n, fst (run (repeat 0%nat n) ts) = [].
Proof.
  induction ts as [|[o s c] ts [n IH]]; [by exists 0%nat|]. destruct (finishes_step c (exec_finishes c) o s) as [m Hm].
  exists (m + n)%nat. by rewrite repeat_app, run_app, Hm.
Qed.
End als.
Arguments code : clear implicits.
Arguments task : clear implicits.
End AsyncContext.
