(* ===== verification/RequestContext.v ===== *)
(** Request and tenant contexts and the loggers they carry: foundation
    [request-context/], [tenant/als.ts], [logger/levels.ts], [logger/redact.ts]
    and [logger/logger.ts].

    A context is a value; what is attached to it out of sight ([LOGGER_KEY],
    [PHASE_FLAG_KEY]) and whether it is frozen are fields of the model. A pino
    logger is its root and its bindings. *)

From S2P Require Import Prelude JsString AsyncContext.
From Stdlib Require Import Ascii.

#[local] Open Scope string_scope.
#[local] Open Scope Z_scope.

Module RequestContext.

Import AsyncContext.

(** ** levels.ts *)

Inductive LogLevel := fatal | error | warn | info | debug | trace.

Definition level_name (l : LogLevel) : string :=
  match l with fatal => "fatal" | error => "error" | warn => "warn" | info => "info" | debug => "debug" | trace => "trace" end.

Definition LOG_LEVELS : list LogLevel := [fatal; error; warn; info; debug; trace].

Definition LOG_LEVEL_SEVERITY (l : LogLevel) : Z :=
  match l with fatal => 60 | error => 50 | warn => 40 | info => 30 | debug => 20 | trace => 10 end.

Definition isLogLevel (candidate : string) : bool := existsb (String.eqb candidate) (map level_name LOG_LEVELS).

Definition compareLogLevelSeverity (a b : LogLevel) : Z := LOG_LEVEL_SEVERITY a - LOG_LEVEL_SEVERITY b.

(** ** redact.ts *)

Record Redact := { paths : list string; censor : string }.

Definition DEFAULT_REDACT_PATHS : list string :=
  ["*.password"; "*.token"; "*.secret"; "*.access_token"; "*.refresh_token"; "*.authorization"; "*.cookie"; "*.session";
   "*.api_key"; "*.apiKey"; "*.client_secret"; "*.clientSecret"; "*.private_key"; "*.privateKey"; "*.ssn"; "*.creditCard";
   "*.credit_card"; "*.cvv"; "req.headers.authorization"; "req.headers.cookie"; "request.headers.authorization";
   "request.headers.cookie"].

Definition DEFAULT_REDACT_CONFIG : Redact := {| paths := DEFAULT_REDACT_PATHS; censor := "[REDACTED]" |}.

(** ** logger.ts *)

Record Env := { LOG_LEVEL : option string; SERVICE_NAME : option string }.

Record LoggerOptions := { o_level : option string; o_service : option string; o_redact : option Redact }.

(** A root logger; [noop] when its destination discards all. *)
Record RootLogger := { level : option string; service : option string; redact : Redact; noop : bool }.

Record Logger := { root : RootLogger; bindings : list (string * string) }.

(** The two variables of the module. *)
Record LoggerModule := { rootLogger : option RootLogger; configured : bool }.

Definition initial_module : LoggerModule := {| rootLogger := None; configured := false |}.

Definition buildDefaultRootLogger (env : Env) : RootLogger :=
  let rawLevel := default "info" (LOG_LEVEL env) in
  {| level := Some (if isLogLevel rawLevel then rawLevel else "info"); service := Some (default "unknown" (SERVICE_NAME env));
     redact := DEFAULT_REDACT_CONFIG; noop := false |}.

Definition getRootLogger (env : Env) (m : LoggerModule) : LoggerModule * RootLogger :=
  match rootLogger m with
  | Some r => (m, r)
  | None => let r := buildDefaultRootLogger env in ({| rootLogger := Some r; configured := configured m |}, r)
  end.

Inductive configuration := Accepted | Ignored | Refused.

(** [pino_accepts]: whether pino takes the options or throws. *)
Definition configureRootLogger (pino_accepts : LoggerOptions -> bool) (env : Env) (options : LoggerOptions) (m : LoggerModule) :
    LoggerModule * configuration :=
  if configured m then (fst (getRootLogger env m), Ignored)
  else if pino_accepts options then
    ({| rootLogger := Some {| level := o_level options; service := o_service options;
                              redact := default DEFAULT_REDACT_CONFIG (o_redact options);
                              noop := bool_decide (o_level options = Some "silent") |};
        configured := true |}, Accepted)
  else ({| rootLogger := rootLogger m; configured := true |}, Refused).

Definition child (r : RootLogger) (bs : list (string * string)) : Logger := {| root := r; bindings := bs |}.

Definition createLogger (env : Env) (bs : list (string * string)) (m : LoggerModule) : LoggerModule * Logger :=
  let '(m', r) := getRootLogger env m in (m', child r bs).

(** Both test hooks: the module with the replacement and what restores it, and
    the module as it starts. *)
Definition _replaceRootLoggerForTesting (replacement : RootLogger) (m : LoggerModule) : LoggerModule * (LoggerModule -> LoggerModule) :=
  ({| rootLogger := Some replacement; configured := true |},
   fun _ => {| rootLogger := rootLogger m; configured := configured m |}).

Definition _resetRootLoggerForTesting (_ : LoggerModule) : LoggerModule := initial_module.

(** ** factory.ts *)

Inductive Principal := User (userSub sessionId : string) | Service (serviceName : string) | Anonymous.

Record RequestContext := {
  requestId : string; startedAt : Z; tenantId : option string; principal : option Principal; traceId : option string;
  region : option string; residencyRegion : option string; clientIp : option string;
  attached : option Logger; phaseEnded : bool; frozen : bool
}.

Record CreateRequestContextInput := {
  i_requestId : string; i_startedAt : option Z; i_tenantId : option string; i_principal : option Principal;
  i_traceId : option string; i_region : option string; i_residencyRegion : option string; i_clientIp : option string
}.

Definition field (k : string) (v : option string) : list (string * string) := match v with Some x => [(k, x)] | None => [] end.

Definition logBindings (i : CreateRequestContextInput) : list (string * string) :=
  (("requestId", i_requestId i) :: field "tenantId" (i_tenantId i) ++ field "traceId" (i_traceId i) ++
   match i_principal i with Some (User sub _) => [("userId", sub)] | _ => [] end)%list.

(** [None]: [RequestContextValidationError] of [requestId]. *)
Definition createRequestContext (i : CreateRequestContextInput) (clock : Z) (env : Env) (m : LoggerModule) :
    LoggerModule * option RequestContext :=
  if String.eqb (i_requestId i) "" then (m, None)
  else
    let '(m', logger) := createLogger env (logBindings i) m in
    (m', Some {| requestId := i_requestId i; startedAt := default clock (i_startedAt i); tenantId := i_tenantId i;
                 principal := i_principal i; traceId := i_traceId i; region := i_region i; residencyRegion := i_residencyRegion i;
                 clientIp := i_clientIp i; attached := Some logger; phaseEnded := false; frozen := true |}).

(** [{ ...ctx, principal }]: what is not enumerable is not copied. *)
Definition spread (ctx : RequestContext) (p : option Principal) : RequestContext :=
  {| requestId := requestId ctx; startedAt := startedAt ctx; tenantId := tenantId ctx;
     principal := match p with Some _ => p | None => principal ctx end; traceId := traceId ctx; region := region ctx;
     residencyRegion := residencyRegion ctx; clientIp := clientIp ctx; attached := None; phaseEnded := false; frozen := false |}.

(** [createTestRequestContext], after its defaults. *)
Definition createTestRequestContext (i : CreateRequestContextInput) (logger : option Logger) (clock : Z) (env : Env) (m : LoggerModule) :
    LoggerModule * option RequestContext :=
  let '(m', r) := createRequestContext i clock env m in
  (m', match r, logger with
       | Some ctx, Some l =>
           let draft := spread ctx None in
           Some {| requestId := requestId draft; startedAt := startedAt draft; tenantId := tenantId draft; principal := principal draft;
                   traceId := traceId draft; region := region draft; residencyRegion := residencyRegion draft;
                   clientIp := clientIp draft; attached := Some l; phaseEnded := phaseEnded draft; frozen := true |}
       | _, _ => r
       end).

(** ** index.ts, set-request-context.ts, tenant/als.ts *)

#[global] Notation request_code := (code RequestContext).

Definition getRequestContext (k : option RequestContext -> request_code) : request_code := GetStore k.
Definition runWithRequestContext (context : RequestContext) (fn k : request_code) : request_code := Run context fn k.

(** [k] is told whether it was done, or [RequestContextPhaseError] thrown. *)
Definition setRequestContext (next : RequestContext) (k : bool -> request_code) : request_code :=
  GetStore (fun current =>
    match current with
    | None => k false
    | Some ctx => if phaseEnded ctx then k false else EnterWith next (k true)
    end).

Definition runWithTenantContext (tenantId : string) (fn k : code string) : code string := Run tenantId fn k.
Definition getCurrentTenantId (k : option string -> code string) : code string := GetStore k.

(** [getLogger], with what the provider finds in the store. *)
Definition getLogger (env : Env) (store : option RequestContext) (m : LoggerModule) : LoggerModule * Logger :=
  match store ≫= attached with
  | Some l => (m, l)
  | None => createLogger env [] m
  end.

(** ** Levels *)

(** Also (Severity is the order of the list): one level compares above another
    exactly when it comes before it. *)
Theorem severity_order i j a b : LOG_LEVELS !! i = Some a -> LOG_LEVELS !! j = Some b ->
  (0 < compareLogLevelSeverity a b <-> (i < j)%nat) /\ (compareLogLevelSeverity a b = 0 <-> i = j).
Proof.
  assert (forall n x, LOG_LEVELS !! n = Some x -> LOG_LEVEL_SEVERITY x = 60 - 10 * Z.of_nat n) as H.
  { intros n x. do 6 (destruct n as [|n]; [by intros [= <-]|]). done. }
  intros Ha%H Hb%H. unfold compareLogLevelSeverity. lia.
Qed.

(** ** One root *)

Inductive logger_op := UseRoot | Configure (o : LoggerOptions).

Definition logger_step (pino_accepts : LoggerOptions -> bool) (env : Env) (m : LoggerModule) (op : logger_op) : LoggerModule :=
  match op with UseRoot => fst (getRootLogger env m) | Configure o => fst (configureRootLogger pino_accepts env o m) end.

Lemma configured_stays accepts env ops : forall m r, configured m = true -> rootLogger m = Some r ->
  fold_left (logger_step accepts env) ops m = m.
Proof.
  induction ops as [|op ops IH]; intros m r Hc Hr; [done|]. cbn [fold_left].
  assert (logger_step accepts env m op = m) as -> by
    (destruct op; cbn [logger_step]; unfold configureRootLogger, getRootLogger; by rewrite ?Hc, ?Hr).
  by apply (IH m r).
Qed.

(** Also (The first configuration stands): whatever uses come before it and
    whatever follows, the root is the one the first configuration made, if pino
    took it, with the default redaction unless it names its own; without one it
    is the default, at the level of the environment if that is one. *)
Theorem first_configuration_stands accepts env uses o ops : accepts o = true -> Forall (eq UseRoot) uses ->
  (exists r, rootLogger (fold_left (logger_step accepts env) (uses ++ Configure o :: ops) initial_module) = Some r /\
    level r = o_level o /\ service r = o_service o /\ redact r = default DEFAULT_REDACT_CONFIG (o_redact o) /\
    noop r = bool_decide (o_level o = Some "silent")) /\
  rootLogger (fold_left (logger_step accepts env) (uses ++ [UseRoot]) initial_module) = Some (buildDefaultRootLogger env).
Proof.
  intros Ha Hu.
  assert (let m := fold_left (logger_step accepts env) uses initial_module in
          configured m = false /\ (rootLogger m = None \/ rootLogger m = Some (buildDefaultRootLogger env))) as [Hc Hr].
  { clear -Hu. induction uses as [|u uses IH] using rev_ind; [by split; [|left]|]. apply Forall_app in Hu as [Hu Hlast].
    apply Forall_singleton in Hlast as <-. destruct (IH Hu) as [Hc Hr]. rewrite fold_left_app. cbn [fold_left logger_step].
    unfold getRootLogger. destruct Hr as [Hr|Hr]; rewrite Hr; cbn [fst configured rootLogger]; (split; [done|by right]). }
  rewrite !fold_left_app. cbn [fold_left logger_step]. set (m := fold_left _ uses initial_module) in *. split.
  - unfold configureRootLogger. rewrite Hc, Ha. cbn [fst]. erewrite configured_stays by done. cbn [rootLogger].
    eexists. by split_and!.
  - unfold getRootLogger. destruct Hr as [Hr|Hr]; by rewrite Hr.
Qed.

(** A configuration that pino refuses counts as the first: the next is ignored. *)
Lemma refusal_sticks accepts env o1 o2 : accepts o1 = false ->
  let '(m1, r1) := configureRootLogger accepts env o1 initial_module in
  let '(m2, r2) := configureRootLogger accepts env o2 m1 in
  r1 = Refused /\ r2 = Ignored /\ rootLogger m2 = Some (buildDefaultRootLogger env).
Proof. intros Ha. unfold configureRootLogger. cbn. by rewrite Ha. Qed.

(** A test that replaces the root sees its own through every use and every
    configuration, which is ignored, and leaves the module as it found it. *)
Lemma replacement_undone accepts env replacement ops m :
  let '(m1, restore) := _replaceRootLoggerForTesting replacement m in
  let m2 := fold_left (logger_step accepts env) ops m1 in
  rootLogger m2 = Some replacement /\ restore m2 = m.
Proof. cbn. erewrite configured_stays by done. split; [done|by destruct m]. Qed.

(** ** Contexts *)

(** A context that [createRequestContext] made. *)
Definition created (ctx : RequestContext) : Prop :=
  exists i clock env m, snd (createRequestContext i clock env m) = Some ctx.

Lemma created_spec ctx : created ctx ->
  requestId ctx <> "" /\ frozen ctx = true /\ phaseEnded ctx = false /\
  exists lg, attached ctx = Some lg /\ In ("requestId", requestId ctx) (bindings lg) /\
    bindings lg = (("requestId", requestId ctx) :: field "tenantId" (tenantId ctx) ++ field "traceId" (traceId ctx) ++
                   match principal ctx with Some (User sub _) => [("userId", sub)] | _ => [] end)%list.
Proof.
  intros (i & clock & env & m & H). unfold createRequestContext in H. destruct (String.eqb_spec (i_requestId i) "") as [|Hne]; [done|].
  destruct (createLogger env (logBindings i) m) as [m' lg] eqn:El. cbn [snd] in H. apply (inj Some) in H as <-. cbn.
  split; [done|]. split; [done|]. split; [done|]. exists lg. unfold createLogger in El. destruct (getRootLogger env m) as [m1 r].
  injection El as _ <-. cbn [child bindings]. split; [done|]. split; [by left|done].
Qed.

(** The stores a request may see: contexts with its identifier, whose logger
    names it. *)
Definition own (id : string) (s : option RequestContext) : Prop :=
  exists ctx lg, s = Some ctx /\ requestId ctx = id /\ attached ctx = Some lg /\ In ("requestId", id) (bindings lg).

Lemma created_own ctx : created ctx -> own (requestId ctx) (Some ctx).
Proof. intros (_ & _ & _ & lg & Hl & Hin & _)%created_spec. by exists ctx, lg. Qed.

(** Code of a request: all it installs is of its own. *)
Lemma keeps_setRequestContext Q next k : Q (Some next) -> keeps Q (k true) -> keeps Q (k false) -> keeps Q (setRequestContext next k).
Proof. intros Hn Ht Hf. cbn. intros [ctx|] _; [|done]. by destruct (phaseEnded ctx). Qed.

(** C14 (Log lines are their request's): any number of requests run at once, each
    in the scope of a context that was made for it and replacing it by such
    contexts only. However their turns interleave, whatever one of them logs
    through [getLogger] carries its own [requestId]. *)
Theorem log_lines_are_their_requests (ids : nat -> string) ts picks :
  Forall (fun t => exists ctx body, rest t = runWithRequestContext ctx body Done /\ created ctx /\ requestId ctx = ids (owner t) /\
    keeps (own (ids (owner t))) body) ts ->
  Forall (fun x => forall env m, In ("requestId", ids x.1) (bindings (snd (getLogger env x.2 m)))) (snd (run picks ts)).
Proof.
  intros Hts. pose proof (run_started (fun o => own (ids o)) picks ts) as H.
  assert (Forall (started (fun o => own (ids o))) ts) as Hst.
  { eapply Forall_impl; [exact Hts|]. intros t (ctx & body & Hr & Hc & Hid & Hk). right. exists ctx, body.
    split; [done|]. split; [|done]. rewrite <- Hid. by apply created_own. }
  specialize (H Hst). destruct (run picks ts) as [ts' seen]. destruct H as [_ H]. cbn [snd]. eapply Forall_impl; [exact H|].
  intros [o s] (ctx & lg & -> & _ & Ha & Hin) env m. unfold getLogger. cbn [mbind option_bind fst snd]. by rewrite Ha.
Qed.

(** Also (A tenant's code sees that tenant): the same of tenant scopes, also when
    scopes for one tenant are nested. *)
Theorem tenant_scopes_apart (tenant : nat -> string) ts picks :
  Forall (fun t => exists body, rest t = runWithTenantContext (tenant (owner t)) body Done /\
    keeps (fun s => s = Some (tenant (owner t))) body) ts ->
  Forall (fun x => x.2 = Some (tenant x.1)) (snd (run picks ts)).
Proof.
  intros Hts. pose proof (run_started (fun o s => s = Some (tenant o)) picks ts) as H.
  destruct (run picks ts) as [ts' seen]. apply H. eapply Forall_impl; [exact Hts|]. intros t (body & Hr & Hk). right. by exists (tenant (owner t)), body.
Qed.

(** Finding: no code sets the flag that ends the early phase. As long as
    contexts are made by this module, or copied, [setRequestContext] is refused
    nowhere in a scope, at whatever point of whatever schedule. *)
Theorem phase_never_ends ts picks :
  let open s := exists ctx, s = Some ctx /\ phaseEnded ctx = false in
  Forall (fun t => exists ctx body, rest t = runWithRequestContext ctx body Done /\ created ctx /\ keeps open body) ts ->
  Forall (fun x => forall next k, exec (setRequestContext next k) x.2 =
    let '(s, new, seen) := exec (k true) (Some next) in (s, new, x.2 :: seen)) (snd (run picks ts)).
Proof.
  intros open Hts. pose proof (run_started (fun _ => open) picks ts) as H.
  assert (Forall (started (fun _ => open)) ts) as Hst.
  { eapply Forall_impl; [exact Hts|]. intros t (ctx & body & Hr & Hc & Hk). right. exists ctx, body.
    split; [done|]. split; [|done]. exists ctx. split; [done|]. by apply created_spec in Hc as (_ & _ & ? & _). }
  specialize (H Hst). destruct (run picks ts) as [ts' seen]. destruct H as [_ H]. eapply Forall_impl; [exact H|].
  intros [o s] (ctx & -> & Hp) next k. unfold setRequestContext. cbn [exec snd]. rewrite Hp. cbn [exec]. by destruct (exec (k true) (Some next)) as [[? ?] ?].
Qed.

(** ** Runs *)

#[local] Definition env0 : Env := {| LOG_LEVEL := Some "loud"; SERVICE_NAME := None |}.
#[local] Definition input (id : string) : CreateRequestContextInput :=
  {| i_requestId := id; i_startedAt := None; i_tenantId := Some "acme"; i_principal := Some (User "u1" "s1"); i_traceId := None;
     i_region := None; i_residencyRegion := None; i_clientIp := None |}.
#[local] Definition context (id : string) : RequestContext :=
  {| requestId := id; startedAt := 7; tenantId := Some "acme"; principal := Some (User "u1" "s1"); traceId := None; region := None;
     residencyRegion := None; clientIp := None;
     attached := Some (child (buildDefaultRootLogger env0) [("requestId", id); ("tenantId", "acme"); ("userId", "u1")]);
     phaseEnded := false; frozen := true |}.

Example context_runs :
  snd (createRequestContext (input "r1") 7 env0 initial_module) = Some (context "r1") /\
  snd (createRequestContext (input "") 7 env0 initial_module) = None /\
  level (buildDefaultRootLogger env0) = Some "info" /\
  snd (getLogger env0 (Some (context "r1")) initial_module) =
    child (buildDefaultRootLogger env0) [("requestId", "r1"); ("tenantId", "acme"); ("userId", "u1")].
Proof. by vm_compute. Qed.

Lemma context_created id : id <> "" -> created (context id).
Proof.
  intros Hne. exists (input id), 7, env0, initial_module. unfold createRequestContext. cbn [i_requestId input].
  by destruct (String.eqb_spec id "").
Qed.

(** What the guides show, [setRequestContext({ ...ctx, principal })], loses the
    logger of the request: what it logs from then on is the root's, without
    [requestId], and the context can be written to. *)
Lemma spread_loses_logger :
  let auth := GetStore (fun s => match s with
                                 | Some ctx => setRequestContext (spread ctx (Some (User "u2" "s2"))) (fun _ => Await (GetStore (fun _ => Done)))
                                 | None => Done
                                 end) in
  let '(_, seen) := run [0; 0]%nat [{| owner := 0; store := None; rest := runWithRequestContext (context "r1") auth Done |}] in
  option_map (fun x => (bindings (snd (getLogger env0 x.2 initial_module)), option_map frozen x.2)) (last seen) = Some ([], Some false).
Proof. by vm_compute. Qed.

(** In a helper of its own, a replacement after an [await] is not seen by the
    code that waits for the helper. *)
Lemma late_replacement_stays_local :
  let helper := Await (setRequestContext (context "r2") (fun _ => GetStore (fun _ => Done))) in
  let body := Call helper (Await (GetStore (fun _ => Done))) in
  let '(_, seen) := run [0; 0; 0]%nat [{| owner := 0; store := None; rest := runWithRequestContext (context "r1") body Done |}] in
  map (fun x => option_map requestId x.2) seen = [Some "r1"; Some "r2"; Some "r1"].
Proof. by vm_compute. Qed.

#[local] Definition handler (id : string) : request_code :=
  Await (setRequestContext (context id) (fun _ => GetStore (fun _ => Done))).

Lemma log_lines_are_their_requests_witness :
  let ids o := if (o =? 0)%nat then "r0" else "r1" in
  let ts := [{| owner := 0; store := None; rest := runWithRequestContext (context "r0") (handler "r0") Done |};
             {| owner := 1; store := None; rest := runWithRequestContext (context "r1") (handler "r1") Done |}] in
  Forall (fun x => forall env m, In ("requestId", ids x.1) (bindings (snd (getLogger env x.2 m)))) (snd (run [0; 1; 0; 1]%nat ts)).
Proof.
  apply log_lines_are_their_requests. apply Forall_cons; split; [|apply Forall_singleton].
  - exists (context "r0"), (handler "r0"). split; [done|]. split; [by apply context_created|]. split; [done|]. cbn [keeps handler].
    apply (keeps_setRequestContext (own "r0")); [|done|done]. apply (created_own (context "r0")). by apply context_created.
  - exists (context "r1"), (handler "r1"). split; [done|]. split; [by apply context_created|]. split; [done|]. cbn [keeps handler].
    apply (keeps_setRequestContext (own "r1")); [|done|done]. apply (created_own (context "r1")). by apply context_created.
Defined.

Lemma tenant_scopes_apart_witness :
  let tenant o := if (o =? 0)%nat then "acme" else "globex" in
  let ts := [{| owner := 0; store := None; rest := runWithTenantContext "acme" (Await (getCurrentTenantId (fun _ => Done))) Done |};
             {| owner := 1; store := None; rest := runWithTenantContext "globex" (getCurrentTenantId (fun _ => Done)) Done |}] in
  Forall (fun x => x.2 = Some (tenant x.1)) (snd (run [0; 1; 0]%nat ts)).
Proof.
  apply tenant_scopes_apart. apply Forall_cons; split; [|apply Forall_singleton].
  - by exists (Await (getCurrentTenantId (fun _ => Done))).
  - by exists (getCurrentTenantId (fun _ => Done)).
Defined.

Lemma phase_never_ends_witness :
  let ts := [{| owner := 0; store := None; rest := runWithRequestContext (context "r1") (Await (GetStore (fun _ => Done))) Done |}] in
  Forall (fun x => forall next k, exec (setRequestContext next k) x.2 =
    let '(s, new, seen) := exec (k true) (Some next) in (s, new, x.2 :: seen)) (snd (run [0; 0]%nat ts)).
Proof.
  apply phase_never_ends. apply Forall_singleton. exists (context "r1"), (Await (GetStore (fun _ => Done))).
  split; [done|]. split; [by apply context_created|done].
Defined.

Lemma first_configuration_stands_witness :
  let o := {| o_level := Some "debug"; o_service := None; o_redact := None |} in
  (exists r, rootLogger (fold_left (logger_step (fun _ => true) env0) ([UseRoot] ++ Configure o :: [UseRoot]) initial_module) = Some r /\
    level r = Some "debug" /\ service r = None /\ redact r = DEFAULT_REDACT_CONFIG /\ noop r = false) /\
  rootLogger (fold_left (logger_step (fun _ => true) env0) ([UseRoot] ++ [UseRoot]) initial_module) = Some (buildDefaultRootLogger env0).
Proof.
  apply (first_configuration_stands (fun _ => true) env0 [UseRoot] {| o_level := Some "debug"; o_service := None; o_redact := None |} [UseRoot]); [done|].
  by apply Forall_singleton.
Defined.
End RequestContext.
