(* ===== verification/CdkAspects.v ===== *)
(** The checks that run over a synthesised construct tree: vestibulum-cdk
    [aspects/] and [cdk-nag-rules/], foundation-cdk [aspects/].

    A construct is seen from where it stands: the metadata of its scopes, from
    the root to itself, and what it declares. A string that CloudFormation
    resolves is [Token]. An aspect's [visit] throws, annotates or passes. *)

From S2P Require Import Prelude JsString Regex.
From Stdlib Require Import Ascii.

#[local] Open Scope string_scope.
#[local] Open Scope Z_scope.

Module CdkAspects.

(** ** Constructs *)

Inductive cfn_string := Text (s : string) | Token.

Inductive HostedUiDomain := CognitoDomain (prefix : string) | CustomDomain (domainName acmCertArn : string).

Record HostedUiMetadata := { federationEnabled : bool; hostedUiDomain : option HostedUiDomain }.

Inductive metadata :=
| SubtreeRoot
| WafOptOut
| HostedUiConfig (m : HostedUiMetadata)
| HouseConstruct
| HouseTaggingApplied.

Record Statement := { Effect : option string; Action : option (list string) }.

(** A cache behaviour is its viewer protocol policy. *)
Record DistributionConfig := {
  webAclId : option cfn_string; defaultCacheBehavior : option string; cacheBehaviors : list (option string)
}.

Inductive resource :=
| CfnLogGroup (logGroupName : option cfn_string) (retentionInDays : option Z)
| CfnFunction (functionName : option cfn_string)
| CfnUserPoolClient (explicitAuthFlows : option (list string)) (generateSecret : bool)
| CfnDistribution (config : option DistributionConfig)
| CfnRole (inline : list (list Statement))
| CfnPolicy (document : list Statement)
| Table
| Queue (hasDlq : bool)
| StackRoot
| OtherConstruct.

(** [scopes]: path and metadata of every scope, the root first, the construct
    itself last. *)
Record construct := { scopes : list (string * list metadata); res : resource }.

Definition path (n : construct) : string := match last (scopes n) with Some s => s.1 | None => "" end.

Definition own_metadata (n : construct) : list metadata := match last (scopes n) with Some s => s.2 | None => [] end.

Definition marked (p : metadata -> bool) (n : construct) : bool := existsb (fun s => existsb p s.2) (scopes n).

Definition isInsideVestibulumSubtree : construct -> bool := marked (fun m => match m with SubtreeRoot => true | _ => false end).

Inductive violation :=
| RetentionMissing | EdgeRetention (r : Z) | RegionalRetention (r : Z) | NoLogGroup
| ForbiddenFlow (flow : string) | ClientSecret | NoHostedUiDomain | CertRegion (region : string) | NoWebAcl.

(** ** log-retention-required.ts *)

Definition REGIONAL_RETENTION_FLOOR_DAYS : Z := 30.
Definition EDGE_RETENTION_MAX_DAYS : Z := 1.

Definition edge_path (n : construct) : bool :=
  let p := toLowerCase (path n) in includes p "edge" || includes p "checkauth".

Definition isEdgeLogGroup (n : construct) (logGroupName : option cfn_string) : bool :=
  edge_path n || match logGroupName with Some (Text s) => includes s "us-east-1." | _ => false end.

Definition checkLogGroup (n : construct) (logGroupName : option cfn_string) (retention : option Z) : option violation :=
  match retention with
  | None => Some RetentionMissing
  | Some r =>
      let isEdge := isEdgeLogGroup n logGroupName in
      if isEdge && negb (r =? EDGE_RETENTION_MAX_DAYS) then Some (EdgeRetention r)
      else if negb isEdge && (r <? REGIONAL_RETENTION_FLOOR_DAYS) then Some (RegionalRetention r)
      else None
  end.

(** Whether a log group may be the one of a function. *)
Definition pairs (functionName logGroupName : option cfn_string) : bool :=
  match logGroupName, functionName with
  | Some (Text lg), Some (Text fn) => includes lg fn
  | Some _, _ => true
  | None, _ => false
  end.

Definition checkFunctionHasLogGroup (stack : list construct) (functionName : option cfn_string) : option violation :=
  if existsb (fun c => match res c with CfnLogGroup name _ => pairs functionName name | _ => false end) stack
  then None else Some NoLogGroup.

(** [stack]: the constructs of the node's stack. *)
Definition log_retention_visit (stack : list construct) (n : construct) : option violation :=
  if negb (isInsideVestibulumSubtree n) then None
  else match res n with
       | CfnLogGroup name retention => checkLogGroup n name retention
       | CfnFunction name => checkFunctionHasLogGroup stack name
       | _ => None
       end.

(** ** disabled-auth-flows.ts *)

Definition ALWAYS_FORBIDDEN_EXPLICIT_AUTH_FLOWS : list string :=
  ["ALLOW_USER_PASSWORD_AUTH"; "ALLOW_ADMIN_USER_PASSWORD_AUTH"; "ALLOW_USER_AUTH"].
Definition SRP_AUTH_FLOW : string := "ALLOW_USER_SRP_AUTH".

Definition forbidden (allowSrpAuth : bool) (flow : string) : bool :=
  existsb (String.eqb flow) ALWAYS_FORBIDDEN_EXPLICIT_AUTH_FLOWS || (String.eqb flow SRP_AUTH_FLOW && negb allowSrpAuth).

(** With the flag of the aspect and whether this visit warns. *)
Definition auth_flows_visit (allowSrpAuth srpWarningEmitted : bool) (n : construct) : bool * bool * option violation :=
  match res n with
  | CfnUserPoolClient flows secret =>
      if negb (isInsideVestibulumSubtree n) then (srpWarningEmitted, false, None)
      else
        let warns := allowSrpAuth && negb srpWarningEmitted in
        (srpWarningEmitted || allowSrpAuth, warns,
         match List.find (forbidden allowSrpAuth) (default [] flows) with
         | Some flow => Some (ForbiddenFlow flow)
         | None => if secret then Some ClientSecret else None
         end)
  | _ => (srpWarningEmitted, false, None)
  end.

(** ** hosted-ui-domain/index.ts and hosted-ui-domain-aspect.ts *)

Definition COGNITO_DOMAIN_PREFIX_REGEX : re :=
  let alnum := RCls (fun c => in_range "a" "z" c || is_digit c) in
  let inner := RCls (fun c => in_range "a" "z" c || is_digit c || Ascii.eqb c "-") in
  (alnum ⋅ opt (RStar inner ⋅ alnum))%re.

Definition extractAcmRegion (arn : string) : option string :=
  if includes arn "${" then None
  else let parts := split ":" arn in
       if (length parts <? 6)%nat || negb (bool_decide (parts !! 2%nat = Some "acm")) then None else parts !! 3%nat.

Definition validateHostedUiDomainProps (d : HostedUiDomain) : bool :=
  match d with
  | CognitoDomain prefix => re_match COGNITO_DOMAIN_PREFIX_REGEX prefix
  | CustomDomain domainName acmCertArn => negb (String.eqb domainName "") && negb (String.eqb acmCertArn "")
  end.

Definition readHostedUiConfig (n : construct) : option HostedUiMetadata :=
  head (omap (fun m => match m with HostedUiConfig c => Some c | _ => None end) (own_metadata n)).

Definition hosted_ui_visit (n : construct) : option violation :=
  if negb (isInsideVestibulumSubtree n) then None
  else match readHostedUiConfig n with
       | None => None
       | Some config =>
           match federationEnabled config, hostedUiDomain config with
           | true, None => Some NoHostedUiDomain
           | _, Some (CustomDomain _ arn) =>
               match extractAcmRegion arn with
               | Some r => if String.eqb r "us-east-1" then None else Some (CertRegion r)
               | None => None
               end
           | _, _ => None
           end
       end.

(** ** waf-required.ts *)

Definition isWafIntentionallyDisabled : construct -> bool := marked (fun m => match m with WafOptOut => true | _ => false end).

Definition waf_required_visit (n : construct) : option violation :=
  match res n with
  | CfnDistribution (Some config) =>
      if negb (isInsideVestibulumSubtree n) || isWafIntentionallyDisabled n then None
      else match webAclId config with
           | None => Some NoWebAcl
           | Some (Text s) => if String.eqb s "" then Some NoWebAcl else None
           | Some Token => None
           end
  | _ => None
  end.

(** ** cdk-nag-rules/ *)

Inductive NagRuleCompliance := NOT_APPLICABLE | COMPLIANT | NON_COMPLIANT.

Definition FORBIDDEN_LOG_ACTIONS : list string := ["logs:*"; "logs:PutLogEvents"; "logs:CreateLogGroup"; "logs:CreateLogStream"].

Definition policyDocumentGrantsLogActions (doc : list Statement) : bool :=
  existsb (fun s => String.eqb (default "Allow" (Effect s)) "Allow" &&
                    existsb (fun a => existsb (String.eqb a) FORBIDDEN_LOG_ACTIONS) (default [] (Action s))) doc.

(** A scope of [c] whose path begins the path of the function. *)
Definition sharesScope (fn c : construct) : bool := existsb (fun s => startsWith (path fn) (s.1 +:+ "/")) (scopes c).

Definition lambdaEdgeNoLogs (stack : list construct) (n : construct) : NagRuleCompliance :=
  match res n with
  | CfnFunction _ =>
      if negb (edge_path n) then NOT_APPLICABLE
      else if existsb (fun c => sharesScope n c && match res c with
                                                   | CfnRole inline => existsb policyDocumentGrantsLogActions inline
                                                   | CfnPolicy doc => policyDocumentGrantsLogActions doc
                                                   | _ => false
                                                   end) stack
      then NON_COMPLIANT else COMPLIANT
  | _ => NOT_APPLICABLE
  end.

Definition ALLOWED_POLICIES : list string := ["redirect-to-https"; "https-only"].

Definition allowed_policy (p : option string) : bool :=
  match p with Some v => existsb (String.eqb v) ALLOWED_POLICIES | None => false end.

Definition cloudfrontViewerProtocolRedirect (n : construct) : NagRuleCompliance :=
  match res n with
  | CfnDistribution None => NON_COMPLIANT
  | CfnDistribution (Some config) =>
      if allowed_policy (defaultCacheBehavior config) && forallb allowed_policy (cacheBehaviors config) then COMPLIANT else NON_COMPLIANT
  | _ => NOT_APPLICABLE
  end.

(** ** house-defaults.ts *)

Inductive RuleSeverity := Warn | Err | Off.

Record HouseDefaults := { rawLambda : RuleSeverity; rawTable : RuleSeverity; rawQueue : RuleSeverity; exempt : list string }.

Definition isExempt (a : HouseDefaults) (n : construct) : bool :=
  existsb (fun prefix => String.eqb (path n) prefix || startsWith (path n) (prefix +:+ "/")) (exempt a).

Definition is_house (m : metadata) : bool := match m with HouseConstruct => true | _ => false end.

Definition hasHouseTagInAncestors : construct -> bool := marked is_house.

(** The annotation added, if any. *)
Definition house_defaults_visit (a : HouseDefaults) (n : construct) : option RuleSeverity :=
  let emit sev quiet := match sev with Off => None | s => if quiet : bool then None else Some s end in
  if isExempt a n then None
  else match res n with
       | CfnFunction _ => emit (rawLambda a) (hasHouseTagInAncestors n)
       | Table => emit (rawTable a) (hasHouseTagInAncestors n)
       | Queue dlq => emit (rawQueue a) dlq
       | _ => None
       end.

(** ** tagging.ts *)

Record HouseTags := { environment : string; service : string; costCenter : string; owner : string }.

Definition findMissingTagKeys (t : HouseTags) : list string :=
  ((if String.eqb (environment t) "" then ["environment"] else []) ++ (if String.eqb (service t) "" then ["service"] else []) ++
   (if String.eqb (costCenter t) "" then ["costCenter"] else []) ++ (if String.eqb (owner t) "" then ["owner"] else []))%list.

Definition tags_of (t : HouseTags) : list (string * string) :=
  [("Environment", environment t); ("Service", service t); ("CostCenter", costCenter t); ("Owner", owner t)].

(** A stack: whether it or a construct below it is a house construct, its marker
    and its tags. *)
Record StackState := { stackContainsHouseConstruct : bool; taggingApplied : bool; tags : list (string * string) }.

(** [Tags.add]: the last value of a key counts. *)
Definition add_tag (l : list (string * string)) (kv : string * string) : list (string * string) :=
  (List.filter (fun x => negb (String.eqb x.1 kv.1)) l ++ [kv])%list.

Definition house_tagging_visit (t : HouseTags) (s : StackState) : StackState * option (list string) :=
  match findMissingTagKeys t with
  | [] => ({| stackContainsHouseConstruct := stackContainsHouseConstruct s; taggingApplied := true;
              tags := fold_left add_tag (tags_of t) (tags s) |}, None)
  | missing => (s, Some missing)
  end.

(** Whether the validator adds its error. *)
Definition tagging_validator_visit (s : StackState) : bool := stackContainsHouseConstruct s && negb (taggingApplied s).

(** Aspects run in the order of their priorities: the validator after the
    tagging aspects of the stack, whichever they are. *)
Definition synthesise_tags (aspects : list HouseTags) (s : StackState) : StackState * bool :=
  let s' := fold_left (fun s t => fst (house_tagging_visit t s)) aspects s in (s', tagging_validator_visit s').

(** ** What a synthesis that passes guarantees *)

(** Also (Logs are bounded): when the retention aspect throws at no construct of a
    stack, every log group in a Vestibulum subtree has a retention, of one day
    if it is an edge function's and of thirty at least otherwise, and every
    function there has a log group that may be its own. *)
Theorem retention_enforced stack :
  Forall (fun n => log_retention_visit stack n = None) stack <->
  Forall (fun n => isInsideVestibulumSubtree n = true ->
    match res n with
    | CfnLogGroup name retention =>
        exists r, retention = Some r /\ (if isEdgeLogGroup n name then r = 1 else 30 <= r)
    | CfnFunction name => exists c lg r, c ∈ stack /\ res c = CfnLogGroup lg r /\ pairs name lg = true
    | _ => True
    end) stack.
Proof.
  apply Forall_iff. intros n. unfold log_retention_visit. destruct (isInsideVestibulumSubtree n); cbn [negb]; [|naive_solver].
  split; [intros H _|intros H; specialize (H eq_refl)]; destruct (res n) as [name retention|name| | | | | | | |]; try done.
  - unfold checkLogGroup in H. destruct retention as [r|]; [|done]. exists r. split; [done|].
    destruct (isEdgeLogGroup n name); cbn [negb andb] in H.
    + destruct (Z.eqb_spec r EDGE_RETENTION_MAX_DAYS); [done|]. done.
    + destruct (r <? REGIONAL_RETENTION_FLOOR_DAYS) eqn:E; [done|]. bool_hyps. done.
  - unfold checkFunctionHasLogGroup in H. destruct (existsb _ stack) eqn:E; [|done]. apply existsb_exists_In in E as (c & Hc & Hp).
    destruct (res c) as [lg r| | | | | | | | |] eqn:Hr; try done. by exists c, lg, r.
  - destruct H as (r & -> & H). unfold checkLogGroup. destruct (isEdgeLogGroup n name); cbn [negb andb].
    + by rewrite H.
    + by replace (r <? REGIONAL_RETENTION_FLOOR_DAYS) with false by (symmetry; apply Z.ltb_ge; exact H).
  - destruct H as (c & lg & r & Hc & Hr & Hp). unfold checkFunctionHasLogGroup.
    replace (existsb _ stack) with true; [done|]. symmetry. apply existsb_exists_In. exists c. by rewrite Hr.
Qed.

(** Visiting constructs in order, as far as the first that throws. *)
Fixpoint auth_flows_run (allowSrpAuth emitted : bool) (ns : list construct) : nat * option violation :=
  match ns with
  | [] => (0%nat, None)
  | n :: ns =>
      let '(emitted', warns, v) := auth_flows_visit allowSrpAuth emitted n in
      match v with
      | Some v => (if warns then 1 else 0, Some v)%nat
      | None => let '(k, r) := auth_flows_run allowSrpAuth emitted' ns in ((if warns then 1 else 0) + k, r)%nat
      end
  end.

(** Also (No password flows): the aspect passes over a stack exactly when no app
    client of a Vestibulum subtree has a secret or a password flow, SRP counting
    unless it is allowed; it warns at most once, and only if it is allowed. *)
Theorem auth_flows_enforced allowSrp ns :
  let '(warnings, r) := auth_flows_run allowSrp false ns in
  (r = None <-> Forall (fun n => match res n with
     | CfnUserPoolClient flows secret => isInsideVestibulumSubtree n = true ->
         secret = false /\ forall f, f ∈ default [] flows ->
           f ∉ ALWAYS_FORBIDDEN_EXPLICIT_AUTH_FLOWS /\ (f = SRP_AUTH_FLOW -> allowSrp = true)
     | _ => True end) ns) /\
  (warnings <= if allowSrp then 1 else 0)%nat.
Proof.
  assert (forall ns emitted, let '(warnings, r) := auth_flows_run allowSrp emitted ns in
    (r = None <-> Forall (fun n => snd (auth_flows_visit allowSrp false n) = None) ns) /\
    (warnings <= if allowSrp && negb emitted then 1 else 0)%nat) as H.
  { clear ns. induction ns as [|n ns IH]; intros emitted; cbn [auth_flows_run]; [split; [by split|lia]|].
    destruct (auth_flows_visit allowSrp emitted n) as [[e' w] v] eqn:Ev.
    assert (snd (auth_flows_visit allowSrp false n) = v /\ (w = true -> allowSrp = true /\ emitted = false /\ e' = true) /\
            (emitted = true -> e' = true)) as (Hv & Hw & He).
    { unfold auth_flows_visit in *. destruct (res n); try (by injection Ev as <- <- <-).
      destruct (negb (isInsideVestibulumSubtree n)); injection Ev as <- <- <-; [done|]. split; [done|].
      destruct allowSrp, emitted; by split. }
    destruct v as [v|].
    - split; [|destruct w; [destruct (Hw eq_refl) as (-> & -> & _); cbn; lia|lia]].
      split; [done|]. intros Hf. apply Forall_cons in Hf as [Hn _]. congruence.
    - specialize (IH e'). destruct (auth_flows_run allowSrp e' ns) as [k r]. destruct IH as [IHr IHk]. split.
      + rewrite IHr, Forall_cons. naive_solver.
      + destruct w; [destruct (Hw eq_refl) as (-> & -> & ->); cbn in *; lia|].
        destruct emitted; [rewrite (He eq_refl) in IHk; lia|]. destruct allowSrp, e'; cbn in *; lia. }
  specialize (H ns false). destruct (auth_flows_run allowSrp false ns) as [k r]. destruct H as [Hr Hk].
  split; [|by rewrite andb_true_r in Hk]. rewrite Hr. apply Forall_iff. intros n. unfold auth_flows_visit.
  destruct (res n) as [| |flows secret| | | | | | |]; try done. destruct (isInsideVestibulumSubtree n); cbn [negb snd]; [|done].
  destruct (List.find (forbidden allowSrp) (default [] flows)) as [f|] eqn:Ef.
  - split; [done|]. intros Hall. destruct (Hall eq_refl) as [_ Hf]. apply List.find_some in Ef as [Hin Hb].
    apply list_elem_of_In in Hin. destruct (Hf f Hin) as [Hn Hs]. unfold forbidden in Hb. apply orb_true_iff in Hb as [Hb|Hb].
    + apply existsb_exists_In in Hb as (x & Hx & ->%String.eqb_eq). done.
    + bool_hyps. apply String.eqb_eq in H. destruct allowSrp; [done|]. by specialize (Hs H).
  - split; [|intros Hall; by destruct (Hall eq_refl) as [-> _]]. intros Hs _. split; [by destruct secret|]. intros f Hin.
    assert (forbidden allowSrp f = false) as Hb by (apply (List.find_none _ _ Ef); by apply list_elem_of_In).
    unfold forbidden in Hb. bool_hyps. split.
    + intros Hx. apply existsb_false_Forall in H. rewrite Forall_forall in H. specialize (H f Hx). by rewrite String.eqb_refl in H.
    + intros ->. rewrite String.eqb_refl in H0. by destruct allowSrp.
Qed.

(** Also (Every site has a WAF): the aspect passes over a distribution exactly
    when it is outside a Vestibulum subtree, opted out, unresolved, or has a web
    ACL. *)
Theorem waf_enforced n config : res n = CfnDistribution (Some config) ->
  waf_required_visit n = None <->
  (isInsideVestibulumSubtree n = true -> isWafIntentionallyDisabled n = false ->
   exists acl, webAclId config = Some acl /\ acl <> Text "").
Proof.
  intros Hr. unfold waf_required_visit. rewrite Hr. destruct (isInsideVestibulumSubtree n), (isWafIntentionallyDisabled n); cbn [negb orb]; try done.
  destruct (webAclId config) as [[s|]|].
  - destruct (String.eqb_spec s "") as [->|Hs]; split; try done; [intros H; by destruct (H eq_refl eq_refl) as (acl & [= <-] & ?)|].
    intros _ _ _. exists (Text s). split; [done|]. by intros [= ?].
  - split; [|done]. intros _ _ _. by exists Token.
  - split; [done|]. intros H. by destruct (H eq_refl eq_refl) as (acl & ? & _).
Qed.

(** Also (The pack's two rules): an edge function complies exactly when no role
    or policy of its stack that shares a scope with it allows one of the four
    log actions by name; a distribution when all its behaviours keep viewers on
    HTTPS. *)
Theorem nag_rules stack n :
  (lambdaEdgeNoLogs stack n = COMPLIANT <->
    (exists name, res n = CfnFunction name) /\ edge_path n = true /\
    forall c doc, c ∈ stack -> sharesScope n c = true ->
      (exists inline, res c = CfnRole inline /\ doc ∈ inline) \/ res c = CfnPolicy doc -> policyDocumentGrantsLogActions doc = false) /\
  (cloudfrontViewerProtocolRedirect n = COMPLIANT <->
    exists config, res n = CfnDistribution (Some config) /\
      Forall (fun p => exists v, p = Some v /\ v ∈ ALLOWED_POLICIES) (defaultCacheBehavior config :: cacheBehaviors config)).
Proof.
  split.
  - unfold lambdaEdgeNoLogs. destruct (res n) eqn:Hr; try (split; [done|]; by intros [[name ?] _]). destruct (edge_path n); cbn [negb]; [|naive_solver].
    destruct (existsb _ stack) eqn:E.
    + split; [done|]. intros (_ & _ & H). apply existsb_exists_In in E as (c & Hc & Hb). apply andb_true_iff in Hb as [Hs Hb].
      destruct (res c) eqn:Hrc; try done.
      * apply existsb_exists_In in Hb as (doc & Hd & Hg). rewrite (H c doc Hc Hs) in Hg; [done|]. left. by eexists.
      * rewrite (H c document Hc Hs) in Hb; [done|]. by right.
    + split; [|done]. intros _. split; [by eexists|]. split; [done|]. intros c doc Hc Hs Hd.
      apply existsb_false_Forall in E. rewrite Forall_forall in E. specialize (E c Hc). rewrite Hs in E. cbn [andb] in E.
      destruct Hd as [(inline & Hrc & Hin)|Hrc]; rewrite Hrc in E; [|done]. apply existsb_false_Forall in E. rewrite Forall_forall in E. by apply E.
  - assert (forall p, allowed_policy p = true <-> exists v, p = Some v /\ v ∈ ALLOWED_POLICIES) as Ha.
    { intros [v|]; cbn [allowed_policy]; [|split; [done|by intros (? & ? & _)]]. rewrite existsb_exists_In. split.
      - intros (x & Hx & ->%String.eqb_eq). by exists x.
      - intros (x & [= <-] & Hx). exists v. by rewrite String.eqb_refl. }
    unfold cloudfrontViewerProtocolRedirect. destruct (res n) as [| | |[config|]| | | | | |] eqn:Hr; try (split; [done|]; by intros (? & ? & _)).
    transitivity (allowed_policy (defaultCacheBehavior config) && forallb allowed_policy (cacheBehaviors config) = true).
    { by destruct (_ && _). }
    rewrite andb_true_iff, forallb_forall, Ha. split.
    + intros [H1 H2]. exists config. split; [done|]. apply Forall_cons. split; [done|]. apply Forall_forall. intros p Hp.
      apply Ha, H2. by apply list_elem_of_In.
    + intros (config' & [= <-] & [H1 H2]%Forall_cons). split; [done|]. intros p Hp. apply Ha. rewrite Forall_forall in H2.
      apply H2. by apply list_elem_of_In.
Qed.

(** Also (The house aspect is silent on house constructs): it annotates a
    construct exactly when its rule is on and neither an exemption covers its
    path nor, for functions and tables, a scope of it is a house construct, or,
    for queues, it has a dead-letter queue. *)
Theorem house_defaults_spec a n sev : house_defaults_visit a n = Some sev <->
  (sev <> Off /\ (forall prefix, prefix ∈ exempt a -> path n <> prefix /\ startsWith (path n) (prefix +:+ "/") = false) /\
   match res n with
   | CfnFunction _ => rawLambda a = sev /\ hasHouseTagInAncestors n = false
   | Table => rawTable a = sev /\ hasHouseTagInAncestors n = false
   | Queue dlq => rawQueue a = sev /\ dlq = false
   | _ => False
   end).
Proof.
  assert (isExempt a n = false <-> forall prefix, prefix ∈ exempt a -> path n <> prefix /\ startsWith (path n) (prefix +:+ "/") = false) as He.
  { unfold isExempt. rewrite existsb_false_Forall, Forall_forall. split; intros H p Hp; specialize (H p Hp).
    - bool_hyps. split; [|done]. by apply String.eqb_neq.
    - destruct H as [H ->]. by apply String.eqb_neq in H as ->. }
  unfold house_defaults_visit. destruct (isExempt a n); [split; [done|]; intros (_ & H%He & _); done|].
  assert (forall s quiet, (match s with Off => None | s => if quiet : bool then None else Some s end) = Some sev <-> sev <> Off /\ s = sev /\ quiet = false) as Hemit.
  { intros [] []; naive_solver. }
  destruct (res n); try (split; [done|]; by intros (_ & _ & [])); rewrite Hemit; rewrite <- He; naive_solver.
Qed.

(** ** Tagging *)

Lemma missing_none t : findMissingTagKeys t = [] <-> environment t <> "" /\ service t <> "" /\ costCenter t <> "" /\ owner t <> "".
Proof.
  unfold findMissingTagKeys. destruct (String.eqb_spec (environment t) ""), (String.eqb_spec (service t) ""),
    (String.eqb_spec (costCenter t) ""), (String.eqb_spec (owner t) ""); naive_solver.
Qed.

Definition complete (t : HouseTags) : Prop := environment t <> "" /\ service t <> "" /\ costCenter t <> "" /\ owner t <> "".

#[local] Instance complete_dec t : Decision (complete t).
Proof. unfold complete. apply _. Defined.

Lemma add_tag_spec l kv x : x ∈ add_tag l kv <-> (x ∈ l /\ x.1 <> kv.1) \/ x = kv.
Proof. unfold add_tag. rewrite elem_of_app, list_elem_of_singleton, !list_elem_of_In, filter_In, negb_true_iff, String.eqb_neq. done. Qed.

Lemma visit_complete t s : complete t ->
  house_tagging_visit t s = ({| stackContainsHouseConstruct := stackContainsHouseConstruct s; taggingApplied := true;
                               tags := fold_left add_tag (tags_of t) (tags s) |}, None).
Proof. intros H. unfold house_tagging_visit. by rewrite (proj2 (missing_none t) H). Qed.

Lemma visit_incomplete t s : ~ complete t -> fst (house_tagging_visit t s) = s.
Proof.
  intros H. unfold house_tagging_visit. destruct (findMissingTagKeys t) eqn:E; [|done]. by apply missing_none in E.
Qed.

Lemma incomplete_run aspects s : Forall (fun t => ~ complete t) aspects ->
  fold_left (fun s t => fst (house_tagging_visit t s)) aspects s = s.
Proof. intros H. revert s. induction H as [|t aspects Ht _ IH]; intros s; [done|]. cbn [fold_left]. by rewrite visit_incomplete. Qed.

Lemma run_keeps aspects : forall s, let s' := fold_left (fun s t => fst (house_tagging_visit t s)) aspects s in
  stackContainsHouseConstruct s' = stackContainsHouseConstruct s /\ (taggingApplied s = true -> taggingApplied s' = true).
Proof.
  induction aspects as [|t aspects IH]; intros s; [done|]. cbn [fold_left]. destruct (IH (fst (house_tagging_visit t s))) as [H1 H2].
  unfold house_tagging_visit in *. destruct (findMissingTagKeys t); cbn [fst stackContainsHouseConstruct taggingApplied] in *; auto.
Qed.

(** Also (Untagged stacks do not synthesise): of a stack that was not tagged
    before, the validator complains exactly when it holds a house construct and
    no aspect on it had all four values; if one had, the four tags are those of
    the last such aspect, and no other value of theirs is left. *)
Theorem tagging_spec aspects s : taggingApplied s = false ->
  let '(s', complaint) := synthesise_tags aspects s in
  (complaint = true <-> stackContainsHouseConstruct s = true /\ Forall (fun t => ~ complete t) aspects) /\
  forall pre t post, aspects = (pre ++ t :: post)%list -> complete t -> Forall (fun t => ~ complete t) post ->
    forall k v, k ∈ ["Environment"; "Service"; "CostCenter"; "Owner"] -> ((k, v) ∈ tags s' <-> (k, v) ∈ tags_of t).
Proof.
  intros Hs. unfold synthesise_tags. set (s' := fold_left _ aspects s). split.
  - unfold tagging_validator_visit. destruct (run_keeps aspects s) as [Hh _]. fold s' in Hh. rewrite Hh, andb_true_iff, negb_true_iff.
    apply and_iff_compat_l. split.
    + intros Hn. destruct (decide (Exists complete aspects)) as [He|He].
      * exfalso. apply Exists_exists in He as (t & Hin & Ht). apply list_elem_of_split in Hin as (pre & post & Ha).
        unfold s' in Hn. rewrite Ha, fold_left_app in Hn. cbn [fold_left] in Hn. rewrite visit_complete in Hn by done. cbn [fst] in Hn.
        rewrite (proj2 (run_keeps post _)) in Hn; done.
      * by apply Forall_Exists_neg.
    + intros Hf. unfold s'. by rewrite incomplete_run.
  - intros pre t post -> Ht Hpost k v Hk. unfold s'. rewrite fold_left_app. cbn [fold_left]. rewrite visit_complete by done. cbn [fst].
    rewrite incomplete_run by done. cbn [tags tags_of fold_left]. rewrite !add_tag_spec. cbn [fst]. set_solver.
Qed.

(** ** Runs *)

#[local] Definition at_path (ps : list string) (r : resource) : construct :=
  {| scopes := ("", []) :: ("Auth", [SubtreeRoot]) :: map (fun p => ("Auth/" +:+ p, [])) ps; res := r |}.

(** The rule knows four actions by name: a role that allows everything
    complies. *)
Lemma star_action_complies :
  let fn := at_path ["CheckAuth"] (CfnFunction None) in
  let all := at_path ["CheckAuth"; "CheckAuth/Role"] (CfnRole [[{| Effect := None; Action := Some ["*"; "logs:Put*"] |}]]) in
  lambdaEdgeNoLogs [fn; all] fn = COMPLIANT.
Proof. by vm_compute. Qed.

(** The stack is a scope of everything in it, so that the policy of a regional
    function is held against the edge function. *)
Lemma whole_stack_is_searched :
  let fn := at_path ["CheckAuth"] (CfnFunction None) in
  let other := at_path ["Api"; "Api/Policy"] (CfnPolicy [{| Effect := Some "Allow"; Action := Some ["logs:PutLogEvents"] |}]) in
  lambdaEdgeNoLogs [fn; other] fn = NON_COMPLIANT.
Proof. by vm_compute. Qed.

(** Any path with these four letters is taken for the edge. *)
Lemma knowledge_is_edge :
  let logs := at_path ["KnowledgeApi"] (CfnLogGroup None (Some 30)) in
  log_retention_visit [logs] logs = Some (EdgeRetention 30).
Proof. by vm_compute. Qed.

(** A function without a name of its own is content with any log group that has
    one. *)
Lemma unnamed_function_unchecked :
  let fn := at_path ["Api"] (CfnFunction None) in
  let logs := at_path ["Other"] (CfnLogGroup (Some (Text "/somewhere/else")) (Some 30)) in
  log_retention_visit [fn; logs] fn = None /\ log_retention_visit [fn] fn = Some NoLogGroup.
Proof. by vm_compute. Qed.

Example aspects_run :
  auth_flows_run true false [at_path ["A"] (CfnUserPoolClient (Some ["ALLOW_CUSTOM_AUTH"; "ALLOW_USER_SRP_AUTH"]) false);
                             at_path ["B"] (CfnUserPoolClient (Some ["ALLOW_USER_AUTH"]) false)] = (1%nat, Some (ForbiddenFlow "ALLOW_USER_AUTH")) /\
  hosted_ui_visit {| scopes := [("Auth", [SubtreeRoot; HostedUiConfig {| federationEnabled := true;
    hostedUiDomain := Some (CustomDomain "auth.example.com" "arn:aws:acm:eu-central-1:1:certificate/x") |}])]; res := OtherConstruct |} =
    Some (CertRegion "eu-central-1") /\
  map validateHostedUiDomainProps [CognitoDomain "my-app"; CognitoDomain "-app"; CognitoDomain "a"; CustomDomain "" "arn"] = [true; false; true; false] /\
  house_defaults_visit {| rawLambda := Warn; rawTable := Err; rawQueue := Off; exempt := ["Auth/Api"] |} (at_path ["Apis"] Table) = Some Err.
Proof. by vm_compute. Qed.

#[local] Definition tags0 : HouseTags := {| environment := "prod"; service := "auth"; costCenter := "c"; owner := "o" |}.

Lemma tagging_spec_witness :
  let s := {| stackContainsHouseConstruct := true; taggingApplied := false; tags := [("Owner", "x"); ("Team", "y")] |} in
  snd (synthesise_tags [] s) = true /\ forall v, ("Owner", v) ∈ tags (fst (synthesise_tags [tags0] s)) <-> ("Owner", v) ∈ tags_of tags0.
Proof.
  set (s := {| stackContainsHouseConstruct := true; taggingApplied := false; tags := [("Owner", "x"); ("Team", "y")] |}). split.
  - apply (proj1 (tagging_spec [] s eq_refl)). done.
  - intros v. apply (proj2 (tagging_spec [tags0] s eq_refl) [] tags0 []); [done|by split_and!|done|set_solver].
Defined.

Lemma waf_enforced_witness :
  waf_required_visit (at_path ["Site"] (CfnDistribution (Some {| webAclId := Some Token; defaultCacheBehavior := None; cacheBehaviors := [] |}))) = None.
Proof.
  apply (waf_enforced (at_path ["Site"] (CfnDistribution (Some {| webAclId := Some Token; defaultCacheBehavior := None; cacheBehaviors := [] |})))
    {| webAclId := Some Token; defaultCacheBehavior := None; cacheBehaviors := [] |} eq_refl).
  intros _ _. by exists Token.
Defined.
End CdkAspects.
