(* ===== verification/CdkRules.v ===== *)
(** What the constructs of vestibulum-cdk make of their properties where they
    decide something: [edge-resources/waf-defaults.ts],
    [shared-distribution-identity/waf.ts] and [wildcard-cert.ts],
    [app-clients/], [trigger-hooks/], [_internal/s3-lifecycle.ts]. *)

From S2P Require Import Prelude JsString.
From Stdlib Require Import Ascii.

#[local] Open Scope string_scope.
#[local] Open Scope Z_scope.

Module CdkRules.

(** ** WAF rules *)

Inductive match_field := UriPath | SingleHeader (name : string).
Inductive constraint := STARTS_WITH | CONTAINS.
Inductive transformation := NONE | LOWERCASE.

Record ByteMatch := { fieldToMatch : match_field; positionalConstraint : constraint; searchString : string; transform : transformation }.

Inductive statement :=
| RateBased (limit evaluationWindowSec : Z) (scopeDown : option ByteMatch)
| ManagedRuleGroup (vendorName name : string).

Inductive rule_action := Block | OverrideNone.

Record Rule := { rule_name : string; priority : Z; action : rule_action; stmt : statement; metricName : string }.

Definition managed (prio : Z) (group : string) : Rule :=
  {| rule_name := "AWS-" +:+ group; priority := prio; action := OverrideNone; stmt := ManagedRuleGroup "AWS" group; metricName := "AWS-" +:+ group |}.

Definition rate_limit (name : string) (prio limit : Z) (scope : option ByteMatch) : Rule :=
  {| rule_name := name; priority := prio; action := Block; stmt := RateBased limit 300 scope; metricName := name |}.

Definition on_path (p : string) : ByteMatch :=
  {| fieldToMatch := UriPath; positionalConstraint := STARTS_WITH; searchString := p; transform := LOWERCASE |}.
Definition on_target (t : string) : ByteMatch :=
  {| fieldToMatch := SingleHeader "x-amz-target"; positionalConstraint := CONTAINS; searchString := t; transform := NONE |}.

Definition DEFAULT_AUTH_VERIFY_RATE_LIMIT : Z := 60.
Definition DEFAULT_LOGIN_RATE_LIMIT : Z := 200.
Definition DEFAULT_CLOUDFRONT_RATE_LIMIT : Z := 1000.
Definition DEFAULT_COGNITO_INITIATE_AUTH_RATE_LIMIT : Z := 100.
Definition DEFAULT_COGNITO_SIGNUP_RATE_LIMIT : Z := 20.

Definition defaultWafRules (resourceNamePrefix : option string) (authVerifyRateLimit loginRateLimit : option Z) : list Rule :=
  let prefix := default "Vestibulum" resourceNamePrefix in
  [managed 10 "AWSManagedRulesCommonRuleSet"; managed 20 "AWSManagedRulesKnownBadInputsRuleSet";
   managed 30 "AWSManagedRulesAmazonIpReputationList";
   rate_limit (prefix +:+ "AuthRateLimit") 50 (default DEFAULT_AUTH_VERIFY_RATE_LIMIT authVerifyRateLimit) (Some (on_path "/auth-verify"));
   rate_limit (prefix +:+ "LoginRateLimit") 60 (default DEFAULT_LOGIN_RATE_LIMIT loginRateLimit) (Some (on_path "/login"))].

Definition defaultCloudFrontWafRules (rateLimit : option Z) : list Rule :=
  [rate_limit "VestibulumSharedCloudFrontRateLimit" 10 (default DEFAULT_CLOUDFRONT_RATE_LIMIT rateLimit) None;
   managed 20 "AWSManagedRulesCommonRuleSet"; managed 30 "AWSManagedRulesKnownBadInputsRuleSet"].

Definition defaultCognitoWafRules (initiateAuthRateLimit signUpRateLimit : option Z) : list Rule :=
  [rate_limit "VestibulumSharedCognitoInitiateAuthRateLimit" 10 (default DEFAULT_COGNITO_INITIATE_AUTH_RATE_LIMIT initiateAuthRateLimit)
     (Some (on_target "InitiateAuth"));
   rate_limit "VestibulumSharedCognitoSignUpRateLimit" 20 (default DEFAULT_COGNITO_SIGNUP_RATE_LIMIT signUpRateLimit) (Some (on_target "SignUp"));
   managed 30 "AWSManagedRulesAmazonIpReputationList"].

(** A request as WAF's byte match sees it, and whether a rate limit counts it. *)
Record Request := { method : string; uri_path : string; req_headers : list (string * string) }.

Definition byte_match (m : ByteMatch) (r : Request) : bool :=
  let field := match fieldToMatch m with
               | UriPath => Some (uri_path r)
               | SingleHeader n => snd <$> List.find (fun h => String.eqb h.1 n) (req_headers r)
               end in
  match field with
  | None => false
  | Some v =>
      let v := match transform m with LOWERCASE => toLowerCase v | NONE => v end in
      match positionalConstraint m with STARTS_WITH => startsWith v (searchString m) | CONTAINS => includes v (searchString m) end
  end.

Definition counted (rule : Rule) (r : Request) : bool :=
  match stmt rule with
  | RateBased _ _ None => true
  | RateBased _ _ (Some m) => byte_match m r
  | ManagedRuleGroup _ _ => false
  end.

(** [new Waf]: the two ACLs, each given or built, and what is associated with
    the pool; [None] where the constructor throws. *)
Record WafProps := {
  userPool : option string; cloudFrontWebAclArn : option string; cognitoPoolWebAclArn : option string;
  cloudFrontRateLimit : option Z; cognitoInitiateAuthRateLimit : option Z; cognitoSignUpRateLimit : option Z
}.

Inductive web_acl := Given (arn : string) | Built (scope : string) (rules : list Rule).

Record Waf := { cloudFront : web_acl; cognitoPool : web_acl; association : option string }.

Definition new_Waf (p : WafProps) : option Waf :=
  let cf := match cloudFrontWebAclArn p with
            | Some arn => Given arn
            | None => Built "CLOUDFRONT" (defaultCloudFrontWafRules (cloudFrontRateLimit p))
            end in
  match cognitoPoolWebAclArn p, userPool p with
  | Some arn, _ => Some {| cloudFront := cf; cognitoPool := Given arn; association := None |}
  | None, None => None
  | None, Some pool =>
      Some {| cloudFront := cf;
              cognitoPool := Built "REGIONAL" (defaultCognitoWafRules (cognitoInitiateAuthRateLimit p) (cognitoSignUpRateLimit p));
              association := Some pool |}
  end.

(** ** wildcard-cert.ts *)

Record WildcardCertProps := {
  tenantSubdomainParent : string; hostedZone : bool; existingWildcardCertificateArn : option string;
  certificateSubjectAlternativeNames : option (list string)
}.

(** The names a certificate covers, or the one that is imported. *)
Inductive wildcard_cert := Imported (arn : string) | Requested (domainName : string) (sans : list string).

Definition given_arn (v : option string) : option string :=
  match v with Some a => if String.eqb a "" then None else Some a | None => None end.

Definition new_WildcardCert (p : WildcardCertProps) : option wildcard_cert :=
  match hostedZone p, given_arn (existingWildcardCertificateArn p) with
  | false, None | true, Some _ => None
  | false, Some arn => Some (Imported arn)
  | true, None =>
      Some (Requested ("*." +:+ tenantSubdomainParent p) (default [tenantSubdomainParent p] (certificateSubjectAlternativeNames p)))
  end.

(** ** app-clients/ *)

Definition callback_ok (url : string) : bool :=
  startsWith url "https://" || startsWith url "http://localhost" || startsWith url "http://127.0.0.1".

(** The URL complained of, if any. *)
Definition validateFederationCallbackUrls (urls : list string) : option string := List.find (fun u => negb (callback_ok u)) urls.

Record OAuth := { authorizationCodeGrant : bool; implicitCodeGrant : bool; clientCredentials : bool; callbackUrls : option (list string) }.

(** Durations in minutes. *)
Record ClientOptions := {
  generateSecret : option bool; oAuth : option OAuth; idTokenValidity : option Z; refreshTokenValidity : option Z;
  authSessionValidity : option Z; password_flows : bool; preventUserExistenceErrors : bool; enableTokenRevocation : bool
}.

Record BuildAppClientOptionsInput := {
  federation : bool; defaultIdTokenValidity : Z; defaultRefreshTokenValidity : Z; tokenTtlMinutes : Z; client_props : ClientOptions
}.

Inductive app_client_error := SecretNotPermitted | CallbackNotHttps (url : string).

Definition default_oauth : OAuth :=
  {| authorizationCodeGrant := true; implicitCodeGrant := false; clientCredentials := false; callbackUrls := Some [] |}.

Definition buildAppClientOptions (i : BuildAppClientOptionsInput) : result app_client_error ClientOptions :=
  let props := client_props i in
  if bool_decide (generateSecret props = Some true) then Throw SecretNotPermitted
  else
    let oauth := if federation i then Some (default default_oauth (oAuth props)) else oAuth props in
    let bad := if federation i then match oauth with Some o => validateFederationCallbackUrls (default [] (callbackUrls o)) | None => None end
               else None in
    match bad with
    | Some url => Throw (CallbackNotHttps url)
    | None =>
        Ok {| generateSecret := Some false; oAuth := oauth;
              idTokenValidity := Some (default (defaultIdTokenValidity i) (idTokenValidity props));
              refreshTokenValidity := Some (default (defaultRefreshTokenValidity i) (refreshTokenValidity props));
              authSessionValidity := Some (tokenTtlMinutes i); password_flows := false; preventUserExistenceErrors := true;
              enableTokenRevocation := true |}
    end.

(** ** trigger-hooks/ *)

Inductive locality_error := OtherRegion (region : string) | OtherAccount (account : string).

Definition validateTriggerLambdaLocality (arn stack_region stack_account : string) : option locality_error :=
  if includes arn "${" then None
  else
    let parts := split ":" arn in
    if (length parts <? 6)%nat then None
    else
      let r := default "" (parts !! 3%nat) in
      let a := default "" (parts !! 4%nat) in
      if negb (String.eqb r "") && negb (String.eqb r stack_region) then Some (OtherRegion r)
      else if negb (String.eqb a "") && negb (String.eqb a stack_account) then Some (OtherAccount a)
      else None.

(** [attachTriggerHooks]: the triggers attached, in order, or the error, with
    what was attached before it. *)
Definition attachTriggerHooks (stack_region stack_account : string) (preTokenGeneration postConfirmation : option string) :
    list (string * string) * option locality_error :=
  let attach op fn done :=
    match fn with
    | None => (done, None)
    | Some arn =>
        match validateTriggerLambdaLocality arn stack_region stack_account with
        | Some e => (done, Some e)
        | None => ((done ++ [(op, arn)])%list, None)
        end
    end in
  match attach "PRE_TOKEN_GENERATION" preTokenGeneration [] with
  | (done, Some e) => (done, Some e)
  | (done, None) => attach "POST_CONFIRMATION" postConfirmation done
  end.

(** ** s3-lifecycle.ts *)

Definition resolveLifecycleRules {R} (override : option (option (list R))) (defaults : list R) : list R :=
  match override with Some (Some rules) => rules | _ => defaults end.

(** ** The rule sets *)

Definition increasing (l : list Z) : Prop := forall i j x y, l !! i = Some x -> l !! j = Some y -> (i < j)%nat -> x < y.

Fixpoint increasing_b (l : list Z) : bool :=
  match l with [] => true | x :: l => forallb (Z.ltb x) l && increasing_b l end.

Lemma increasing_spec l : increasing_b l = true -> increasing l.
Proof.
  induction l as [|z l IH]; intros H i j x y Hi Hj Hij; [done|]. cbn [increasing_b] in H. apply andb_true_iff in H as [Hz Hl].
  destruct j as [|j]; [lia|]. cbn in Hj. destruct i as [|i]; cbn in Hi.
  - simplify_eq. rewrite forallb_forall in Hz. apply list_elem_of_lookup_2, list_elem_of_In in Hj. apply Z.ltb_lt. by apply Hz.
  - apply (IH Hl i j x y); [done|done|lia].
Qed.

Lemma suffix_neq p suf s : endsWith s suf = false -> p +:+ suf <> s.
Proof. intros H E. subst s. rewrite (proj2 (endsWith_spec _ suf)) in H; [done|]. by exists p. Qed.

Definition well_formed (r : Rule) : Prop :=
  priority r mod 10 = 0 /\ metricName r = rule_name r /\
  (action r = Block <-> exists limit scope, stmt r = RateBased limit 300 scope).

Lemma managed_well_formed prio g : prio mod 10 = 0 -> well_formed (managed prio g).
Proof. intros H. split; [done|]. split; [done|]. split; [done|]. by intros (? & ? & ?). Qed.

Lemma rate_limit_well_formed n prio l sc : prio mod 10 = 0 -> well_formed (rate_limit n prio l sc).
Proof. intros H. split; [done|]. split; [done|]. split; [|done]. intros _. by exists l, sc. Qed.

(** Also (Rule sets are well-formed): whatever prefix and limits are asked for,
    the rules of each default set have priorities in their order, which leaves
    room between them, names that differ, a metric by their name each, and block
    exactly where they limit a rate. *)
Theorem waf_rules_ordered prefix a l cf i s :
  Forall (fun rules => increasing (map priority rules) /\ Forall well_formed rules /\ NoDup (map rule_name rules))
    [defaultWafRules prefix a l; defaultCloudFrontWafRules cf; defaultCognitoWafRules i s].
Proof.
  assert (forall rules, increasing_b (map priority rules) = true -> increasing (map priority rules)) as Hi by (intros; by apply increasing_spec).
  apply Forall_cons; split; [|apply Forall_cons; split; [|apply Forall_singleton]]; (split; [by apply Hi|split]).
  - repeat (apply Forall_cons; split; [by (apply managed_well_formed || apply rate_limit_well_formed)|]). done.
  - cbn [map defaultWafRules rule_name managed rate_limit]. set (p := default "Vestibulum" prefix).
    assert (forall x, x ∈ ["AWS-AWSManagedRulesCommonRuleSet"; "AWS-AWSManagedRulesKnownBadInputsRuleSet"; "AWS-AWSManagedRulesAmazonIpReputationList"] ->
      x <> p +:+ "AuthRateLimit" /\ x <> p +:+ "LoginRateLimit") as Hx.
    { intros x Hx. assert (endsWith x "AuthRateLimit" = false /\ endsWith x "LoginRateLimit" = false) as [H1 H2]
        by (repeat (apply elem_of_cons in Hx as [->|Hx]; [by vm_compute|]); by apply elem_of_nil in Hx).
      by split; intros E; symmetry in E; revert E; apply suffix_neq. }
    assert (p +:+ "AuthRateLimit" <> p +:+ "LoginRateLimit") as Hp by (intros E%str_app_inj_l; done).
    change ("AWS-" +:+ "AWSManagedRulesCommonRuleSet") with "AWS-AWSManagedRulesCommonRuleSet".
    change ("AWS-" +:+ "AWSManagedRulesKnownBadInputsRuleSet") with "AWS-AWSManagedRulesKnownBadInputsRuleSet".
    change ("AWS-" +:+ "AWSManagedRulesAmazonIpReputationList") with "AWS-AWSManagedRulesAmazonIpReputationList".
    rewrite !NoDup_cons, !not_elem_of_cons.
    split_and!; try done; try apply not_elem_of_nil; try apply NoDup_nil_2; apply Hx; set_solver.
  - repeat (apply Forall_cons; split; [by (apply managed_well_formed || apply rate_limit_well_formed)|]). done.
  - apply (bool_decide_unpack _). by vm_compute.
  - repeat (apply Forall_cons; split; [by (apply managed_well_formed || apply rate_limit_well_formed)|]). done.
  - apply (bool_decide_unpack _). by vm_compute.
Qed.

(** Also (Both layers are there): unless the constructor refuses, which it does
    only without an ACL and without a pool for the regional layer, each layer has
    the ACL that was given or a built one of the right scope, and the pool is
    associated exactly with the built regional one. *)
Theorem waf_layers p :
  (new_Waf p = None <-> cognitoPoolWebAclArn p = None /\ userPool p = None) /\
  forall w, new_Waf p = Some w ->
    (match cloudFrontWebAclArn p with Some arn => cloudFront w = Given arn | None => exists rs, cloudFront w = Built "CLOUDFRONT" rs end) /\
    (match cognitoPoolWebAclArn p with
     | Some arn => cognitoPool w = Given arn /\ association w = None
     | None => (exists rs, cognitoPool w = Built "REGIONAL" rs) /\ association w = userPool p
     end).
Proof.
  unfold new_Waf. destruct p as [[pool|] [cf|] [arn|] r1 r2 r3]; cbn; (split; [naive_solver|]); intros w Hw; simplify_eq; naive_solver.
Qed.

(** Also (App clients are public and passwordless): whatever is asked for, an app
    client that is built has no secret, no password flow and a session as long
    as the link lives; under federation it has OAuth, by the code flow unless the
    caller chose, and only callbacks that [callback_ok] takes; it is refused
    only for a secret or for such a callback. *)
Theorem app_client_options_spec i :
  match buildAppClientOptions i with
  | Ok o =>
      generateSecret (client_props i) <> Some true /\ generateSecret o = Some false /\ password_flows o = false /\
      authSessionValidity o = Some (tokenTtlMinutes i) /\ preventUserExistenceErrors o = true /\ enableTokenRevocation o = true /\
      (federation i = true -> exists a, oAuth o = Some a /\ (oAuth (client_props i) = None -> a = default_oauth) /\
         Forall (fun u => callback_ok u = true) (default [] (callbackUrls a)))
  | Throw SecretNotPermitted => generateSecret (client_props i) = Some true
  | Throw (CallbackNotHttps u) => federation i = true /\ callback_ok u = false /\
      exists a, oAuth (client_props i) = Some a /\ u ∈ default [] (callbackUrls a)
  end.
Proof.
  unfold buildAppClientOptions. case_bool_decide as Hs; [done|]. destruct (federation i) eqn:Hf; [|by split_and!].
  set (a := default default_oauth (oAuth (client_props i))).
  unfold validateFederationCallbackUrls. destruct (List.find _ (default [] (callbackUrls a))) as [u|] eqn:E.
  - apply List.find_some in E as [Hin Hu]. bool_hyps. split; [done|]. split; [done|]. unfold a in *.
    destruct (oAuth (client_props i)) as [x|]; [|done]. exists x. split; [done|]. by apply list_elem_of_In.
  - cbn. split_and!; try done. intros _. exists a. split; [done|]. split; [by unfold a; intros ->|]. apply Forall_forall. intros u Hu.
    pose proof (List.find_none _ _ E u (proj1 (list_elem_of_In _ _) Hu)) as Hn. by apply negb_false_iff in Hn.
Qed.

(** A prefix is all that is compared: this host is no one's own machine. *)
Lemma localhost_is_a_prefix : callback_ok "http://localhost.attacker.example/cb" = true.
Proof. by vm_compute. Qed.

(** Also (Triggers are local): an ARN with the six parts of one, none of them
    unresolved, is attached only if its region and its account, as far as it has
    them, are the pool's. *)
Theorem trigger_locality p s r a res sr sa : let arn := join ":" ["arn"; p; s; r; a; res] in
  Forall (fun x => char_in ":" x = false) [p; s; r; a; res] -> includes arn "${" = false ->
  validateTriggerLambdaLocality arn sr sa = None <-> (r = "" \/ r = sr) /\ (a = "" \/ a = sa).
Proof.
  intros arn Hp Ht. unfold validateTriggerLambdaLocality. rewrite Ht.
  assert (split ":" arn = ["arn"; p; s; r; a; res]) as ->.
  { unfold arn. rewrite !Forall_cons in Hp. destruct Hp as (H1 & H2 & H3 & H4 & H5 & _). unfold join, String.concat.
    change ("arn" +:+ ":" +:+ p +:+ ":" +:+ s +:+ ":" +:+ r +:+ ":" +:+ a +:+ ":" +:+ res) with
      ("arn" +:+ String.String ":" (p +:+ String.String ":" (s +:+ String.String ":" (r +:+ String.String ":" (a +:+ String.String ":" res))))).
    rewrite !split_cons by done. by rewrite (split_none ":" res H5). }
  cbn [length Nat.ltb Nat.leb lookup list_lookup default from_option]. unfold Datatypes.id.
  destruct (String.eqb_spec r ""), (String.eqb_spec r sr), (String.eqb_spec a ""), (String.eqb_spec a sa); cbn [negb andb]; naive_solver.
Qed.

(** ** Runs *)

#[local] Definition get (p : string) : Request := {| method := "GET"; uri_path := p; req_headers := [] |}.
#[local] Definition cognito (t : string) : Request :=
  {| method := "POST"; uri_path := "/"; req_headers := [("x-amz-target", "AWSCognitoIdentityProviderService." +:+ t)] |}.

Example rules_run :
  map (fun r => map (fun rule => counted rule r) (defaultWafRules None None None)) [get "/Auth-Verify?t=1"; get "/login"; get "/x"] =
    [[false; false; false; true; false]; [false; false; false; false; true]; [false; false; false; false; false]] /\
  map (fun r => map (fun rule => counted rule r) (defaultCognitoWafRules None None)) [cognito "InitiateAuth"; cognito "RespondToAuthChallenge"] =
    [[true; false; false]; [false; false; false]] /\
  new_WildcardCert {| tenantSubdomainParent := "t.example"; hostedZone := true; existingWildcardCertificateArn := Some "";
                      certificateSubjectAlternativeNames := None |} = Some (Requested "*.t.example" ["t.example"]) /\
  new_WildcardCert {| tenantSubdomainParent := "t.example"; hostedZone := true; existingWildcardCertificateArn := Some "arn";
                      certificateSubjectAlternativeNames := None |} = None /\
  attachTriggerHooks "eu-central-1" "1" (Some "arn:aws:lambda:eu-central-1:1:function:f") (Some "arn:aws:lambda:us-east-1:1:function:g") =
    ([("PRE_TOKEN_GENERATION", "arn:aws:lambda:eu-central-1:1:function:f")], Some (OtherRegion "us-east-1")) /\
  resolveLifecycleRules (Some (Some [])) [1] = [] /\ resolveLifecycleRules (Some None) [1] = [1].
Proof. by vm_compute. Qed.

(** The limit of [GET /login] counts every method, and every path that begins
    so. *)
Lemma login_limit_counts_any_method :
  let rule := rate_limit "VestibulumLoginRateLimit" 60 200 (Some (on_path "/login")) in
  rule ∈ defaultWafRules None None None /\
  counted rule {| method := "POST"; uri_path := "/login-callback"; req_headers := [] |} = true.
Proof. split; [by vm_compute; repeat constructor|by vm_compute]. Qed.

Lemma trigger_locality_witness :
  validateTriggerLambdaLocality "arn:aws:lambda:eu-central-1:1:f" "eu-central-1" "1" = None.
Proof.
  apply (trigger_locality "aws" "lambda" "eu-central-1" "1" "f" "eu-central-1" "1"); [by repeat constructor|by vm_compute|].
  split; by right.
Defined.
End CdkRules.
