(* ===== verification/Deployment.v ===== *)
(** The deployment of the mailed-link sign-in: vestibulum-cdk
    [magic-link-identity/magic-link-identity.ts] and
    [magic-link-auth-site/magic-link-auth-site.ts].

    The two constructs check their properties, and give each of the handlers
    modelled in [MagicLink], [PreSignup], [BounceHandler] and [AuthEndpoints] an
    environment and a role. Here the handlers are run under what they are given:
    they read back the properties, and their roles allow what they send. The
    matching of IAM patterns and the action lists of the CDK's grants are
    [AwsIam]. *)

From stdpp Require Import pretty.
From S2P Require Import Prelude JsString JsDate Regex Json Prog SignIn MagicLink BounceHandler PreSignup AuthEndpoints.
From S2P Require CdkProps CdkAspects CdkRules JwksFallback LegacyKv.
From Stdlib Require Import Ascii.

#[local] Open Scope js_scope.
#[local] Open Scope string_scope.
#[local] Open Scope Z_scope.

Module Deployment.

(** ** magic-link-identity.ts: properties *)

(** A number of the properties: an integer below 10^21, where [String] prints
    it in full, or any other number, by the text that [String] makes of it. *)
Inductive number := Int (n : Z) | Other (text : string).

Definition number_text (v : number) : string := match v with Int n => pretty n | Other text => text end.

Definition integer_in (lo : Z) (hi : option Z) (v : number) : option Z :=
  match v with
  | Int n => if (lo <=? n) && match hi with Some h => n <=? h | None => true end then Some n else None
  | Other _ => None
  end.

Definition DEFAULT_TEST_RECIPIENT_DENY_PATTERNS : list string := ["*+e2e-*@*"; "*@maildummy.*"].

Definition MIN_SIGNIN_FLOOR_MS : Z := 500.
Definition MAX_SIGNIN_FLOOR_MS : Z := 6000.
Definition MIN_CREATE_FLOOR_MS : Z := 100.
Definition MAX_CREATE_FLOOR_MS : Z := 5000.
Definition CREATE_TIMEOUT_SECONDS : Z := 5.

Definition host_name_re : re :=
  let end_ := RCls (fun c => in_range "a" "z" c || is_digit c) in
  let inner := RCls (fun c => in_range "a" "z" c || is_digit c || Ascii.eqb c "-") in
  (plus (end_ ⋅ opt (rep_upto 61 inner ⋅ end_) ⋅ lit ".") ⋅ rep_between 2 63 (rng "a" "z"))%re.

Definition host_name (s : string) : bool :=
  (1 <=? Z.of_nat (String.length s)) && (Z.of_nat (String.length s) <=? 253) && re_match host_name_re s.

(** [linkDomain] is concrete; what only chooses a warning, the advanced security
    mode and the tier are left out. Validities are in minutes. *)
Record IdentityProps := {
  sesIdentitySender : string; zoneName : string; p_linkDomain : option string;
  customAttributes : list CdkProps.CdkProps.CustomAttributeDeclaration;
  allowedEmailDomains : list string;
  federationEnabled : bool; p_signupMode : option CdkProps.CdkProps.SignupMode; p_enrollment : option string;
  hostedUiDomain : option CdkAspects.CdkAspects.HostedUiDomain;
  allowedRecipientPatterns : option (list string); deniedRecipientPatterns : option (list string); allowTestRecipients : bool;
  p_tokenTtlMinutes : option number; p_createFloorMs : option number; p_tokenSendsPerDay : option number;
  tokenSendsPerWindow : option number; signUpsPerWindow : option number; refreshTokenValidity : option Z;
  preTokenGeneration : option string; postConfirmation : option string; stackRegion : string; stackAccount : string
}.

Record MagicLinkIdentity := {
  sender : string; senderDomain : string; linkDomain : string; domains : list string;
  signupMode : CdkProps.CdkProps.SignupMode; enrollment : Enrollment;
  allowedPatterns : option (list string); denyPatterns : list string;
  federated : bool; tokenTtlMinutes : Z; createFloorMs : Z; sendsPerDay : Z; sendsPerWindow : number; signUps : number;
  defaultRefreshTokenValidity : Z
}.

Inductive identity_error :=
| Props (e : CdkProps.CdkProps.props_error)
| BadLinkDomain (s : string) | NoHostedUiDomain | CertRegion (region : string)
| BadTokenTtl | BadCreateFloor | BadSendsPerDay
| OtherRegion (region : string) | OtherAccount (account : string).

(** [[...new Set(l)]]. *)
Definition distinct (l : list string) : list string :=
  fold_left (fun acc x => if existsb (String.eqb x) acc then acc else (acc ++ [x])%list) l [].

Definition lift_props {A} (r : result CdkProps.CdkProps.props_error A) : result identity_error A :=
  match r with Ok a => Ok a | Throw e => Throw (Props e) end.

Definition or_throw {E A} (o : option A) (e : E) : result E A := match o with Some a => Ok a | None => Throw e end.

Definition optional_patterns (propName : string) (l : option (list string)) : result identity_error (option (list string)) :=
  match l with
  | None => Ok None
  | Some ps => let* ps := lift_props (CdkProps.CdkProps.validateRecipientPatterns propName ps) in Ok (Some ps)
  end.

Definition check_hosted_ui (p : IdentityProps) : result identity_error unit :=
  if federationEnabled p && bool_decide (hostedUiDomain p = None) then Throw NoHostedUiDomain
  else match hostedUiDomain p with
       | Some (CdkAspects.CdkAspects.CustomDomain _ arn) =>
           match CdkAspects.CdkAspects.extractAcmRegion arn with
           | Some r => if String.eqb r "us-east-1" then Ok tt else Throw (CertRegion r)
           | None => Ok tt
           end
       | _ => Ok tt
       end.

Definition validateSameAccountRegion (region account arn : string) : result identity_error unit :=
  if includes arn "${" then Ok tt
  else
    let parts := split ":" arn in
    let foreign part own := negb (String.eqb part "") && negb (startsWith part "${") && negb (String.eqb part own) && negb (startsWith own "${") in
    let r := default "" (parts !! 3%nat) in
    let a := default "" (parts !! 4%nat) in
    if foreign r region then Throw (OtherRegion r) else if foreign a account then Throw (OtherAccount a) else Ok tt.

Definition check_trigger (p : IdentityProps) (arn : option string) : result identity_error unit :=
  match arn with Some a => validateSameAccountRegion (stackRegion p) (stackAccount p) a | None => Ok tt end.

Definition new_MagicLinkIdentity (p : IdentityProps) : result identity_error MagicLinkIdentity :=
  let* domain := lift_props (CdkProps.CdkProps.validateSesIdentitySender (sesIdentitySender p)) in
  let* _ := if startsWith (zoneName p) "${" then Ok tt
            else lift_props (CdkProps.CdkProps.validateSenderMatchesHostedZone domain (zoneName p)) in
  let* _ := lift_props (CdkProps.CdkProps.validateCustomAttributeDeclarations (customAttributes p)) in
  let* _ := lift_props (CdkProps.CdkProps.validateTokenSize (customAttributes p)) in
  let* _ := lift_props (CdkProps.CdkProps.validateSignupModeForFederation (federationEnabled p) (p_signupMode p)) in
  let* enroll := lift_props (CdkProps.CdkProps.validateEnrollment (default "admin-only" (p_enrollment p))) in
  let link := default domain (p_linkDomain p) in
  let* _ := if host_name link then Ok tt else Throw (BadLinkDomain link) in
  let* allowed := optional_patterns "allowedRecipientPatterns" (allowedRecipientPatterns p) in
  let* denied := optional_patterns "deniedRecipientPatterns" (deniedRecipientPatterns p) in
  let* _ := check_hosted_ui p in
  let* ttl := or_throw (integer_in MIN_TOKEN_TTL_MINUTES (Some MAX_TOKEN_TTL_MINUTES)
                          (default (Int DEFAULT_TOKEN_TTL_MINUTES) (p_tokenTtlMinutes p))) BadTokenTtl in
  let* floor := or_throw (integer_in MIN_CREATE_FLOOR_MS (Some MAX_CREATE_FLOOR_MS)
                            (default (Int DEFAULT_CREATE_FLOOR_MS) (p_createFloorMs p))) BadCreateFloor in
  let* perDay := or_throw (integer_in 1 None (default (Int 20) (p_tokenSendsPerDay p))) BadSendsPerDay in
  let* _ := check_trigger p (preTokenGeneration p) in
  let* _ := check_trigger p (postConfirmation p) in
  Ok {| sender := sesIdentitySender p; senderDomain := domain; linkDomain := link; domains := allowedEmailDomains p;
        signupMode := default CdkProps.CdkProps.open (p_signupMode p); enrollment := enroll;
        allowedPatterns := allowed;
        denyPatterns := distinct ((if bool_decide (enroll = admin_only) && negb (allowTestRecipients p)
                                   then DEFAULT_TEST_RECIPIENT_DENY_PATTERNS else []) ++ default [] denied);
        federated := federationEnabled p; tokenTtlMinutes := ttl; createFloorMs := floor; sendsPerDay := perDay;
        sendsPerWindow := default (Int 3) (tokenSendsPerWindow p); signUps := default (Int 3) (signUpsPerWindow p);
        defaultRefreshTokenValidity := default (24 * 60) (refreshTokenValidity p) |}.

(** ** magic-link-auth-site.ts: properties *)

Record SiteProps := { p_domain : string; p_signInFloorMs : option number; s_idTokenValidity : option Z; s_refreshTokenValidity : option Z }.

Record MagicLinkAuthSite := { domain : string; websiteClient : CdkRules.CdkRules.ClientOptions; signInFloorMs : Z; refreshValiditySeconds : Z }.

Inductive site_error := LinkDomainMismatch | AppClient (e : CdkRules.CdkRules.app_client_error) | BadSignInFloor.

(** [identity.addAppClient("WebsiteClient", ...)]. *)
Definition addWebsiteClient (i : MagicLinkIdentity) (p : SiteProps) :
    result CdkRules.CdkRules.app_client_error CdkRules.CdkRules.ClientOptions :=
  CdkRules.CdkRules.buildAppClientOptions
    {| CdkRules.CdkRules.federation := federated i; CdkRules.CdkRules.defaultIdTokenValidity := 15;
       CdkRules.CdkRules.defaultRefreshTokenValidity := defaultRefreshTokenValidity i;
       CdkRules.CdkRules.tokenTtlMinutes := tokenTtlMinutes i;
       CdkRules.CdkRules.client_props :=
         {| CdkRules.CdkRules.generateSecret := Some false;
            CdkRules.CdkRules.oAuth := Some {| CdkRules.CdkRules.authorizationCodeGrant := true; CdkRules.CdkRules.implicitCodeGrant := false;
                                               CdkRules.CdkRules.clientCredentials := false;
                                               CdkRules.CdkRules.callbackUrls := Some ["https://" +:+ p_domain p +:+ "/login/callback"] |};
            CdkRules.CdkRules.idTokenValidity := s_idTokenValidity p;
            CdkRules.CdkRules.refreshTokenValidity := s_refreshTokenValidity p;
            CdkRules.CdkRules.authSessionValidity := None; CdkRules.CdkRules.password_flows := false;
            CdkRules.CdkRules.preventUserExistenceErrors := false; CdkRules.CdkRules.enableTokenRevocation := false |} |}.

Definition new_MagicLinkAuthSite (i : MagicLinkIdentity) (p : SiteProps) : result site_error MagicLinkAuthSite :=
  if negb (String.eqb (linkDomain i) (p_domain p)) then Throw LinkDomainMismatch
  else
    let* client := match addWebsiteClient i p with Ok c => Ok c | Throw e => Throw (AppClient e) end in
    let* floor := or_throw (integer_in MIN_SIGNIN_FLOOR_MS (Some MAX_SIGNIN_FLOOR_MS)
                              (default (Int DEFAULT_SIGNIN_FLOOR_MS) (p_signInFloorMs p))) BadSignInFloor in
    Ok {| domain := p_domain p; websiteClient := client; signInFloorMs := floor;
          refreshValiditySeconds := 60 * default (defaultRefreshTokenValidity i) (s_refreshTokenValidity p) |}.

(** ** Environments *)

(** The names CloudFormation gives. *)
Record Deployed := {
  tokenTableName : string; rateLimitTableName : string; denylistTableName : string; bindingTableName : string;
  hmacSecretArn : string; configurationSetName : string; stack_region : string; userPoolId : string; clientId : string;
  metricsNamespace : string
}.

Inductive function := PreSignUpFn | DefineAuthFn | CreateAuthFn | VerifyAuthFn | BounceHandlerFn | AuthLoginFn | AuthVerifyFn | AuthSignoutFn.

#[export] Instance function_eq_dec : EqDecision function.
Proof. solve_decision. Defined.

Definition SES_REGION : string := "VESTIBULUM_SES_REGION".
Definition METRICS_NAMESPACE : string := "VESTIBULUM_METRICS_NAMESPACE".

Definition enrollment_text (e : Enrollment) : string := match e with admin_only => "admin-only" | self_signup => "self-signup" end.
Definition mode_text (m : CdkProps.CdkProps.SignupMode) : string :=
  match m with CdkProps.CdkProps.open => "open" | CdkProps.CdkProps.admin_invite_only => "admin-invite-only" end.

Section deployment.
Context (d : Deployed) (i : MagicLinkIdentity) (s : MagicLinkAuthSite).

Definition commonEnv : list (string * string) :=
  [(RuntimeEnv.TOKEN_TABLE_NAME, tokenTableName d); (RuntimeEnv.RATE_LIMIT_TABLE_NAME, rateLimitTableName d);
   (RuntimeEnv.DENYLIST_TABLE_NAME, denylistTableName d); (RuntimeEnv.SES_FROM, sender i); (SES_REGION, stack_region d);
   (RuntimeEnv.DOMAIN, linkDomain i); (RuntimeEnv.TOKEN_TTL_MINUTES, pretty (tokenTtlMinutes i));
   (RuntimeEnv.TOKEN_SENDS_PER_WINDOW, number_text (sendsPerWindow i)); (RuntimeEnv.TOKEN_SENDS_PER_DAY, pretty (sendsPerDay i));
   (RuntimeEnv.SIGN_UPS_PER_WINDOW, number_text (signUps i));
   (RuntimeEnv.ALLOWED_EMAIL_DOMAINS, stringify (VArray (map VString (domains i))));
   (RuntimeEnv.BOUNCE_HMAC_SECRET, hmacSecretArn d); (RuntimeEnv.SES_CONFIGURATION_SET, configurationSetName d)].

Definition triggerEnv : list (string * string) := (commonEnv ++ [(RuntimeEnv.ENROLLMENT, enrollment_text (enrollment i))])%list.

Definition authLoginEnv : list (string * string) :=
  [(RuntimeEnv.COGNITO_CLIENT_ID, clientId d); (RuntimeEnv.COGNITO_USER_POOL_ID, userPoolId d);
   (RuntimeEnv.ENROLLMENT, enrollment_text (enrollment i)); (RuntimeEnv.DOMAIN, domain s);
   (RuntimeEnv.RATE_LIMIT_TABLE_NAME, rateLimitTableName d); (RuntimeEnv.BINDING_TABLE_NAME, bindingTableName d);
   (RuntimeEnv.SIGNIN_FLOOR_MS, pretty (signInFloorMs s)); (RuntimeEnv.TOKEN_TTL_MINUTES, pretty (tokenTtlMinutes i));
   (RuntimeEnv.LOGIN_IP_PER_WINDOW, "10"); (METRICS_NAMESPACE, metricsNamespace d)].

Definition authVerifyEnv : list (string * string) :=
  [(RuntimeEnv.COGNITO_USER_POOL_ID, userPoolId d); (RuntimeEnv.COGNITO_CLIENT_ID, clientId d); (RuntimeEnv.DOMAIN, domain s);
   (RuntimeEnv.BINDING_TABLE_NAME, bindingTableName d); (METRICS_NAMESPACE, metricsNamespace d);
   (RuntimeEnv.REFRESH_TOKEN_VALIDITY_SECONDS, pretty (refreshValiditySeconds s))].

Definition authSignoutEnv : list (string * string) :=
  [(RuntimeEnv.COGNITO_USER_POOL_ID, userPoolId d); (RuntimeEnv.COGNITO_CLIENT_ID, clientId d); (RuntimeEnv.DOMAIN, domain s);
   (METRICS_NAMESPACE, metricsNamespace d); (RuntimeEnv.REFRESH_TOKEN_VALIDITY_SECONDS, pretty (refreshValiditySeconds s))].

Definition environment (f : function) : list (string * string) :=
  match f with
  | PreSignUpFn => (commonEnv ++ [(RuntimeEnv.SIGNUP_MODE, mode_text (signupMode i))])%list
  | DefineAuthFn => commonEnv
  | CreateAuthFn => (triggerEnv ++ [(RuntimeEnv.CREATE_FLOOR_MS, pretty (createFloorMs i))])%list
  | VerifyAuthFn => triggerEnv
  | BounceHandlerFn => (commonEnv ++ [(RuntimeEnv.COGNITO_USER_POOL_ID, userPoolId d)])%list
  | AuthLoginFn => authLoginEnv
  | AuthVerifyFn => authVerifyEnv
  | AuthSignoutFn => authSignoutEnv
  end.

(** [process.env] of a function. *)
Definition env_of (f : function) : process_env := fun name => snd <$> List.find (fun kv => String.eqb kv.1 name) (environment f).
End deployment.

(** ** Roles *)

Inductive resource :=
| TokenTable | RateLimitTable | DenylistTable | BindingTable | Secret (arn : string) | Pool (id : string)
| SesIdentity (domain : string) | ConfigurationSet (name : string)
(* of the shared distribution *)
| ClientConfigTable | IdempotencyTable | ReservationsTable.

(** What a call asks of IAM, which authorises it on each of its resources; a
    mail with its sender and recipients. *)
Record Request := { on : list resource; action : string; mail : option (string * list string) }.

(** What IAM and the CDK promise: the matching of patterns, and that the grants
    on tables and secrets hold the actions they are named after. *)
Class AwsIam := {
  like : string -> string -> bool;
  READ_DATA_ACTIONS : list string; WRITE_DATA_ACTIONS : list string; SECRET_READ_ACTIONS : list string;
  read_data : Forall (fun a => a ∈ READ_DATA_ACTIONS) ["dynamodb:GetItem"; "dynamodb:Query"; "dynamodb:Scan"];
  write_data : Forall (fun a => a ∈ WRITE_DATA_ACTIONS) ["dynamodb:PutItem"; "dynamodb:UpdateItem"; "dynamodb:DeleteItem"];
  secret_read : "secretsmanager:GetSecretValue" ∈ SECRET_READ_ACTIONS
}.

(** [resources]: [None] is every resource. *)
Record Statement := { deny : bool; actions : list string; resources : option (list resource); condition : Request -> bool }.

#[export] Instance resource_eq_dec : EqDecision resource.
Proof. solve_decision. Defined.

Definition matches (st : Statement) (x : resource) (r : Request) : bool :=
  existsb (String.eqb (action r)) (actions st) &&
  match resources st with Some l => bool_decide (x ∈ l) | None => true end && condition st r.

(** An explicit deny wins. *)
Definition permits_on (role : list Statement) (x : resource) (r : Request) : bool :=
  existsb (fun st => negb (deny st) && matches st x r) role && negb (existsb (fun st => deny st && matches st x r) role).

Definition permits (role : list Statement) (r : Request) : bool := forallb (fun x => permits_on role x r) (on r).

Definition allow (acts : list string) (x : resource) : Statement :=
  {| deny := false; actions := acts; resources := Some [x]; condition := fun _ => true |}.

Section roles.
Context `{AwsIam} (d : Deployed) (i : MagicLinkIdentity).

Definition grantReadData (x : resource) : Statement := allow READ_DATA_ACTIONS x.
Definition grantWriteData (x : resource) : Statement := allow WRITE_DATA_ACTIONS x.
Definition grantReadWriteData (x : resource) : Statement := allow (READ_DATA_ACTIONS ++ WRITE_DATA_ACTIONS) x.
Definition grantRead : Statement := allow SECRET_READ_ACTIONS (Secret (hmacSecretArn d)).

(** [ForAllValues:StringLike] with [Null: false], and [ForAnyValue:StringLike]. *)
Definition all_like (patterns : list string) (to : list string) : bool :=
  negb (bool_decide (to = [])) && forallb (fun a => existsb (fun p => like p a) patterns) to.
Definition any_like (patterns : list string) (to : list string) : bool := existsb (fun a => existsb (fun p => like p a) patterns) to.

Definition send_statement : Statement :=
  {| deny := false; actions := ["ses:SendEmail"];
     resources := Some [SesIdentity (senderDomain i); ConfigurationSet (configurationSetName d)];
     condition := fun r => match mail r with
                           | Some (from, to) => String.eqb from (sender i) &&
                               match allowedPatterns i with Some ps => all_like ps to | None => true end
                           | None => false
                           end |}.

Definition deny_statement : list Statement :=
  match denyPatterns i with
  | [] => []
  | ps => [{| deny := true; actions := ["ses:SendEmail"; "ses:SendRawEmail"]; resources := None;
              condition := fun r => match mail r with Some (_, to) => any_like ps to | None => false end |}]
  end.

Definition allow_list_policy : list Statement :=
  match enrollment i with
  | admin_only => [allow ["cognito-idp:AdminGetUser"] (Pool (userPoolId d))]
  | self_signup => []
  end.

Definition role (f : function) : list Statement :=
  match f with
  | PreSignUpFn => [grantWriteData RateLimitTable]
  | DefineAuthFn => []
  | CreateAuthFn =>
      ([grantWriteData TokenTable; grantReadData DenylistTable; grantReadWriteData RateLimitTable; grantRead; send_statement]
       ++ deny_statement ++ allow_list_policy)%list
  | VerifyAuthFn => (grantReadWriteData TokenTable :: grantRead :: allow_list_policy)%list
  | BounceHandlerFn =>
      [grantWriteData DenylistTable; grantRead;
       allow ["cognito-idp:AdminUpdateUserAttributes"; "cognito-idp:AdminDisableUser"] (Pool (userPoolId d))]
  | AuthLoginFn =>
      [allow (match enrollment i with
              | self_signup => ["cognito-idp:SignUp"; "cognito-idp:InitiateAuth"]
              | admin_only => ["cognito-idp:ListUsers"; "cognito-idp:InitiateAuth"]
              end) (Pool (userPoolId d));
       grantReadWriteData RateLimitTable; allow ["dynamodb:PutItem"] BindingTable]
  | AuthVerifyFn => [allow ["cognito-idp:RespondToAuthChallenge"] (Pool (userPoolId d)); allow ["dynamodb:DeleteItem"] BindingTable]
  | AuthSignoutFn => [allow ["cognito-idp:AdminUserGlobalSignOut"] (Pool (userPoolId d))]
  end.

(** ** What the handlers ask for *)

Definition call (x : resource) (a : string) : Request := {| on := [x]; action := a; mail := None |}.

(** SES authorises a mail on the identity of its sender, here the domain behind
    the at-sign, and on the configuration set it names. *)
Definition identity_domain (from : string) : string :=
  match CdkProps.CdkProps.indexOf "@" from with Some n => str_drop (S n) from | None => from end.

Definition send_request (from : string) (set : option string) (to : list string) : Request :=
  {| on := SesIdentity (identity_domain from) :: match set with Some name => [ConfigurationSet name] | None => [] end;
     action := "ses:SendEmail"; mail := Some (from, to) |}.

Definition needs {X} (c : cmd X) : Request :=
  match c with
  | GetSecretValue secretId => call (Secret secretId) "secretsmanager:GetSecretValue"
  | GetDenylistItem _ => call DenylistTable "dynamodb:GetItem"
  | PutDenylistItem _ _ => call DenylistTable "dynamodb:PutItem"
  | UpdateCounter _ _ _ _ => call RateLimitTable "dynamodb:UpdateItem"
  | AdminGetUser pool _ => call (Pool pool) "cognito-idp:AdminGetUser"
  | AdminUpdateUserAttributes pool _ _ => call (Pool pool) "cognito-idp:AdminUpdateUserAttributes"
  | PutToken _ _ => call TokenTable "dynamodb:PutItem"
  | GetToken _ => call TokenTable "dynamodb:GetItem"
  | DeleteToken _ => call TokenTable "dynamodb:DeleteItem"
  | SendEmail m => send_request (Source m) (ConfigurationSetName m) [ToAddress m]
  end.

(** The sign-in operations name a client; the pool is the client's. *)
Definition endpoint_needs {X} (c : ecmd X) : Request :=
  match c with
  | Base c => needs c
  | ListUsers pool _ _ => call (Pool pool) "cognito-idp:ListUsers"
  | PutBinding _ _ => call BindingTable "dynamodb:PutItem"
  | TakeBinding _ => call BindingTable "dynamodb:DeleteItem"
  | Auth (SignUp _ _ _ _) => call (Pool (userPoolId d)) "cognito-idp:SignUp"
  | Auth (InitiateAuth _ _) => call (Pool (userPoolId d)) "cognito-idp:InitiateAuth"
  | Auth (RespondToAuthChallenge _ _ _ _) => call (Pool (userPoolId d)) "cognito-idp:RespondToAuthChallenge"
  | Auth (AdminUserGlobalSignOut pool _) => call (Pool pool) "cognito-idp:AdminUserGlobalSignOut"
  end.

(** Recipients each of which matches an allowed pattern, if there are any, and
    none of which matches a denied one. *)
Definition inside_fence (to : list string) : Prop :=
  (forall ps, allowedPatterns i = Some ps -> to <> [] /\ Forall (fun a => exists p, p ∈ ps /\ like p a = true) to) /\
  (forall a p, a ∈ to -> p ∈ denyPatterns i -> like p a = false).

(** A call the role lets through; a mail of the create trigger, as the one
    sender and under the one configuration set, which the role lets through to
    the recipients inside the fence, and to no others. *)
Definition granted (f : function) (r : Request) : Prop :=
  match mail r with
  | None => permits (role f) r = true
  | Some (from, to) =>
      f = CreateAuthFn /\ from = sender i /\ ConfigurationSet (configurationSetName d) ∈ on r /\
      (permits (role f) r = true <-> inside_fence to)
  end.
End roles.

(** ** The constructors *)

Ltac binds H := repeat match type of H with
  | result_bind ?m _ = Ok _ => let E := fresh "E" in destruct m eqn:E; cbn [result_bind] in H; [|discriminate H]
  end.

Lemma integer_in_spec lo hi v n : integer_in lo hi v = Some n -> v = Int n /\ lo <= n /\ (forall h, hi = Some h -> n <= h).
Proof.
  unfold integer_in. destruct v as [m|]; [|done]. destruct (_ && _) eqn:E; [|done]. intros [= ->]. bool_hyps.
  split; [done|]. split; [lia|]. intros h ->. lia.
Qed.

Lemma sender_parts email domain : CdkProps.CdkProps.validateSesIdentitySender email = Ok domain -> email <> "" /\ domain <> "".
Proof.
  unfold CdkProps.CdkProps.validateSesIdentitySender. destruct email as [|c email]; [done|]. destruct (CdkProps.CdkProps.indexOf _ _); [|done].
  destruct (_ || _) eqn:E; [done|]. intros [= <-]. split; [done|]. apply orb_false_iff in E as [_ E]. intros Hd. cbn [str_drop] in E. by rewrite Hd in E.
Qed.

Lemma identity_made p i : new_MagicLinkIdentity p = Ok i ->
  sender i = sesIdentitySender p /\ sender i <> "" /\ host_name (linkDomain i) = true /\ domains i = allowedEmailDomains p /\
  signupMode i = default CdkProps.CdkProps.open (p_signupMode p) /\
  enrollment_text (enrollment i) = default "admin-only" (p_enrollment p) /\
  default (Int 10) (p_tokenTtlMinutes p) = Int (tokenTtlMinutes i) /\ 3 <= tokenTtlMinutes i <= 15 /\
  default (Int 1000) (p_createFloorMs p) = Int (createFloorMs i) /\ 100 <= createFloorMs i <= 5000 /\
  default (Int 20) (p_tokenSendsPerDay p) = Int (sendsPerDay i) /\ 1 <= sendsPerDay i /\
  sendsPerWindow i = default (Int 3) (tokenSendsPerWindow p) /\ signUps i = default (Int 3) (signUpsPerWindow p) /\
  defaultRefreshTokenValidity i = default 1440 (refreshTokenValidity p) /\ identity_domain (sender i) = senderDomain i.
Proof.
  unfold new_MagicLinkIdentity. intros H. binds H. injection H as <-. cbn.
  destruct (CdkProps.CdkProps.validateSesIdentitySender _) eqn:Es in E; [|done].
  assert (identity_domain (sesIdentitySender p) = a) as Hdom.
  { simplify_eq/=. unfold identity_domain. unfold CdkProps.CdkProps.validateSesIdentitySender in Es.
    destruct (CdkProps.CdkProps.indexOf _ _); [|done]. destruct (_ || _); [done|]. congruence. }
  apply sender_parts in Es as [Hs _].
  destruct (host_name _) eqn:Hh in E5; [|done].
  destruct (integer_in _ _ _) eqn:I1 in E9; [|done]. destruct (integer_in _ _ _) eqn:I2 in E10; [|done].
  destruct (integer_in _ _ _) eqn:I3 in E11; [|done]. simplify_eq/=.
  apply integer_in_spec in I1 as (? & ? & I1). apply integer_in_spec in I2 as (? & ? & I2). apply integer_in_spec in I3 as (? & ? & _).
  specialize (I1 _ eq_refl). specialize (I2 _ eq_refl).
  unfold CdkProps.CdkProps.validateEnrollment in E4. do 5 (split; [done|]). split; [|done].
  destruct (String.eqb_spec (default "admin-only" (p_enrollment p)) "admin-only") as [->|]; [by simplify_eq/=|].
  by destruct (String.eqb_spec (default "admin-only" (p_enrollment p)) "self-signup") as [->|]; simplify_eq/=.
Qed.

Lemma host_name_nonempty h : host_name h = true -> h <> "".
Proof. by intros Hh ->. Qed.

Lemma site_made i sp s : new_MagicLinkAuthSite i sp = Ok s ->
  domain s = p_domain sp /\ p_domain sp = linkDomain i /\
  default (Int 2500) (p_signInFloorMs sp) = Int (signInFloorMs s) /\ 500 <= signInFloorMs s <= 6000 /\
  refreshValiditySeconds s = 60 * default (defaultRefreshTokenValidity i) (s_refreshTokenValidity sp) /\
  addWebsiteClient i sp = Ok (websiteClient s).
Proof.
  unfold new_MagicLinkAuthSite. destruct (String.eqb_spec (linkDomain i) (p_domain sp)) as [Hd|]; [|done]. cbn [negb]. intros H. binds H.
  injection H as <-. cbn. destruct (addWebsiteClient i sp) eqn:Ec; [|done]. destruct (integer_in _ _ _) eqn:I1 in E0; [|done]. simplify_eq/=.
  apply integer_in_spec in I1 as (? & ? & I1). specialize (I1 _ eq_refl). by rewrite Hd.
Qed.

(** ** What the handlers read *)

(** Every name is there. *)
Definition named (d : Deployed) : Prop :=
  Forall (fun n => n <> "") [tokenTableName d; rateLimitTableName d; denylistTableName d; bindingTableName d; hmacSecretArn d;
                             configurationSetName d; userPoolId d; clientId d].

(** A variable of a function's environment. *)
Ltac env_read :=
  repeat match goal with
  | |- context [env_of ?d ?i ?s ?f ?n] =>
      let v := eval lazy -[pretty number_text stringify enrollment_text mode_text signupMode enrollment tokenTtlMinutes sendsPerWindow sendsPerDay signUps
        createFloorMs sender linkDomain domains domain signInFloorMs refreshValiditySeconds userPoolId] in (env_of d i s f n) in change (env_of d i s f n) with v
  end.

Lemma all_digits_pretty n : 0 <= n -> all_digits (pretty n) = true /\ dec_val (pretty n) = n /\ String.eqb (pretty n) "" = false.
Proof.
  intros (Hne & Hd & Hv)%JwksFallback.JwksFallback.pretty_nonneg. unfold all_digits. rewrite Hd, andb_true_r. split; [|split; [done|]].
  - by destruct (pretty n).
  - by apply String.eqb_neq.
Qed.

Lemma parseTokenTtl_pretty n : 3 <= n <= 15 -> parseTokenTtlMinutes (Some (pretty n)) = Some n.
Proof.
  intros Hn. destruct (all_digits_pretty n) as (Hd & Hv & He); [lia|]. unfold parseTokenTtlMinutes. rewrite He, Hd, Hv. cbn [negb].
  unfold MIN_TOKEN_TTL_MINUTES, MAX_TOKEN_TTL_MINUTES. by destruct (Z.leb_spec 3 n), (Z.leb_spec n 15); try lia.
Qed.

Lemma parseMs_pretty n fallback : 0 <= n -> parseMs (Some (pretty n)) fallback = n.
Proof. intros Hn. destruct (all_digits_pretty n Hn) as (Hd & Hv & _). unfold parseMs. by rewrite Hd. Qed.

Lemma parseEnrollment_text e : parseEnrollment (Some (enrollment_text e)) = Some e.
Proof. by destruct e. Qed.

Lemma lower_texts_strings l : lower_texts (map VString l) = Ok (map toLowerCase l).
Proof. induction l as [|x l IH]; [done|]. cbn. by rewrite IH. Qed.

Lemma domains_read (env : process_env) l : env RuntimeEnv.ALLOWED_EMAIL_DOMAINS = Some (stringify (VArray (map VString l))) ->
  allowed_domains env = Ok (map toLowerCase l).
Proof.
  intros He. unfold allowed_domains. rewrite He. cbn [default from_option]. unfold Datatypes.id.
  rewrite JSON_parse_stringify; [by apply lower_texts_strings|]. cbn [json_wf]. clear He. induction l as [|x l IH]; [done|]. cbn. by constructor.
Qed.

Lemma env_value_Some (env : process_env) n v : env n = Some v -> v <> "" -> env_value env n = Some v.
Proof. intros He Hv. unfold env_value. rewrite He. by destruct (String.eqb_spec v ""). Qed.

Section configuration.
Context (d : Deployed) (Hd : named d).

Lemma named_parts : tokenTableName d <> "" /\ rateLimitTableName d <> "" /\ denylistTableName d <> "" /\ bindingTableName d <> "" /\
  hmacSecretArn d <> "" /\ configurationSetName d <> "" /\ userPoolId d <> "" /\ clientId d <> "".
Proof. unfold named in Hd. by rewrite !Forall_cons in Hd; destruct Hd as (? & ? & ? & ? & ? & ? & ? & ? & _). Qed.

(** A limit as the handlers read it: an integer as it is, any other number by
    the digits its text begins with. *)
Definition read_limit (v : number) : option Z := match v with Int n => Some n | Other text => parseInt10 text end.

Lemma read_limit_text v : parseInt10 (number_text v) = read_limit v.
Proof. destruct v as [n|text]; [apply LegacyKv.LegacyKv.parseInt10_print|done]. Qed.

(** C11 (The handlers read what was asked for): in a deployment that both
    constructs accept, the create trigger reads the sender, link domain,
    lifetime, enrolment, limits and floor of the properties or their defaults,
    the sign-up trigger their domains, mode and limit, the endpoints the same
    domain, lifetime, enrolment and floor and, when it is positive, the refresh
    validity; the sessions of the website client live as long as the link. The
    two limits that no construct checks are read by [parseInt], so a fraction
    counts as the digits before its point. *)
Theorem deployed_configuration p sp i s : new_MagicLinkIdentity p = Ok i -> new_MagicLinkAuthSite i sp = Ok s ->
  let env f := env_of d i s f in
  exists ttl createFloor perDay signInFloor enroll,
  default (Int 10) (p_tokenTtlMinutes p) = Int ttl /\ 3 <= ttl <= 15 /\
  default (Int 1000) (p_createFloorMs p) = Int createFloor /\ 100 <= createFloor <= 5000 /\
  default (Int 20) (p_tokenSendsPerDay p) = Int perDay /\ 1 <= perDay /\
  default (Int 2500) (p_signInFloorMs sp) = Int signInFloor /\ 500 <= signInFloor <= 6000 /\
  default "admin-only" (p_enrollment p) = match enroll with admin_only => "admin-only" | self_signup => "self-signup" end /\
  create_config (env CreateAuthFn) = Some
    {| cfg_from := sesIdentitySender p; cfg_domain := p_domain sp; cfg_denylistTable := Some (denylistTableName d);
       cfg_ttlMinutes := ttl; cfg_enrollment := enroll;
       cfg_sendsPerWindow := read_limit (default (Int 3) (tokenSendsPerWindow p));
       cfg_sendsPerDay := perDay; cfg_configurationSet := Some (configurationSetName d) |} /\
  parseMs (env CreateAuthFn RuntimeEnv.CREATE_FLOOR_MS) DEFAULT_CREATE_FLOOR_MS = createFloor /\
  parseEnrollment (env VerifyAuthFn RuntimeEnv.ENROLLMENT) = Some enroll /\
  (allowed_domains (env PreSignUpFn) = Ok (map toLowerCase (allowedEmailDomains p)) /\
   signup_limit (env PreSignUpFn) = default 3 (read_limit (default (Int 3) (signUpsPerWindow p))) /\
   (env PreSignUpFn RuntimeEnv.SIGNUP_MODE = Some "admin-invite-only" <-> p_signupMode p = Some CdkProps.CdkProps.admin_invite_only)) /\
  (forall email ip, login_config (env AuthLoginFn) email ip = Some
     {| lr_email := email; lr_ip := ip; lr_clientId := clientId d; lr_userPoolId := userPoolId d; lr_enrollment := enroll;
        lr_ttlMinutes := ttl; lr_limit := Some 10; lr_floorMs := signInFloor |}) /\
  Forall (fun f => env_value (env f) RuntimeEnv.DOMAIN = Some (p_domain sp) /\
                   env_value (env f) RuntimeEnv.COGNITO_CLIENT_ID = Some (clientId d)) [AuthLoginFn; AuthVerifyFn; AuthSignoutFn] /\
  (let validity := 60 * default (default 1440 (refreshTokenValidity p)) (s_refreshTokenValidity sp) in
   0 < validity ->
   Forall (fun f => parseRefreshTokenValiditySeconds (env f RuntimeEnv.REFRESH_TOKEN_VALIDITY_SECONDS) = Some validity)
     [AuthVerifyFn; AuthSignoutFn]) /\
  CdkRules.CdkRules.authSessionValidity (websiteClient s) = Some ttl.
Proof.
  intros Hi Hs env.
  apply identity_made in Hi as (Hsend & Hne & Hh & Hdom & Hm & He & Ht & Htr & Hf & Hfr & Hday & Hdr & Hw & Hu & Hrv & _).
  apply site_made in Hs as (Hsd & Hpd & Hsf & Hsfr & Hrs & Hc). apply host_name_nonempty in Hh.
  destruct named_parts as (N1 & N2 & N3 & N4 & N5 & N6 & N7 & N8).
  exists (tokenTtlMinutes i), (createFloorMs i), (sendsPerDay i), (signInFloorMs s), (enrollment i).
  do 8 (split; [done|]). split; [by destruct (enrollment i)|]. rewrite <- Hw, <- Hu, <- Hrv, <- Hrs.
  split; [|split; [|split; [|split; [|split; [|split; [|split]]]]]].
  - unfold create_config, sends_per_day, env.
    rewrite (env_value_Some _ RuntimeEnv.TOKEN_TABLE_NAME (tokenTableName d)), (env_value_Some _ RuntimeEnv.RATE_LIMIT_TABLE_NAME (rateLimitTableName d)),
      (env_value_Some _ RuntimeEnv.SES_FROM (sender i)), (env_value_Some _ RuntimeEnv.DOMAIN (linkDomain i)),
      (env_value_Some _ RuntimeEnv.DENYLIST_TABLE_NAME (denylistTableName d)),
      (env_value_Some _ RuntimeEnv.SES_CONFIGURATION_SET (configurationSetName d)),
      (env_value_Some _ RuntimeEnv.TOKEN_SENDS_PER_DAY (pretty (sendsPerDay i))) by (done || apply JwksFallback.JwksFallback.pretty_nonneg; lia).
    env_read. destruct (all_digits_pretty (sendsPerDay i)) as (Dd & Dv & _); [lia|].
    rewrite Dd, Dv, parseTokenTtl_pretty, parseEnrollment_text, read_limit_text by done. cbn [mbind option_bind].
    destruct (Z.ltb_spec (sendsPerDay i) 1); [lia|]. by rewrite Hpd, Hsend.
  - unfold env. env_read. apply parseMs_pretty. lia.
  - unfold env. env_read. apply parseEnrollment_text.
  - split; [|split].
    + rewrite <- Hdom. by apply domains_read.
    + unfold signup_limit, env. env_read. cbn [default from_option]. unfold Datatypes.id. by rewrite read_limit_text.
    + unfold env. env_read. rewrite Hm. destruct (p_signupMode p) as [[]|]; cbn; by split.
  - intros email ip. unfold login_config, env.
    rewrite (env_value_Some _ RuntimeEnv.RATE_LIMIT_TABLE_NAME (rateLimitTableName d)), (env_value_Some _ RuntimeEnv.BINDING_TABLE_NAME (bindingTableName d)),
      (env_value_Some _ RuntimeEnv.COGNITO_CLIENT_ID (clientId d)) by done.
    env_read. rewrite parseTokenTtl_pretty, parseEnrollment_text, parseMs_pretty by lia. cbn [mbind option_bind default from_option].
    unfold Datatypes.id. destruct (String.eqb_spec (userPoolId d) ""); [done|]. by rewrite andb_false_r.
  - unfold env. rewrite <- Hsd. repeat (apply Forall_cons; split; [split; by apply env_value_Some; [|rewrite ?Hsd, ?Hpd]|]). by apply Forall_nil.
  - intros v Hr. assert (parseRefreshTokenValiditySeconds (Some (pretty (refreshValiditySeconds s))) = Some v) as Hp.
    { destruct (all_digits_pretty (refreshValiditySeconds s)) as (Rd & Rv & Rn); [lia|]. unfold parseRefreshTokenValiditySeconds.
      rewrite Rn, Rd, Rv. cbn [negb]. by destruct (Z.ltb_spec 0 (refreshValiditySeconds s)); [|lia]. }
    unfold env. apply Forall_cons; split; [by env_read|]. apply Forall_singleton. by env_read.
  - unfold addWebsiteClient, CdkRules.CdkRules.buildAppClientOptions in Hc. cbv zeta in Hc. rewrite bool_decide_false in Hc by done.
    match type of Hc with match ?b with _ => _ end = _ => destruct b end; [done|]. by injection Hc as <-.
Qed.
End configuration.

(** ** What the roles let through *)

Section grants.
Context `{AwsIam, Digests} (d : Deployed) (i : MagicLinkIdentity).

Lemma permits_intro role x a st : st ∈ role -> deny st = false -> matches st x (call x a) = true ->
  Forall (fun st => deny st && matches st x (call x a) = false) role -> permits role (call x a) = true.
Proof.
  intros Hin Hd Hm Hall. unfold permits, permits_on. cbn [on call forallb]. rewrite andb_true_r. apply andb_true_iff. split.
  - apply existsb_exists. exists st. split; [by apply list_elem_of_In|]. by rewrite Hd, Hm.
  - apply negb_true_iff. apply not_true_iff_false. intros (y & Hy & Ht)%existsb_exists. apply list_elem_of_In in Hy.
    rewrite Forall_forall in Hall. by rewrite (Hall y Hy) in Ht.
Qed.

(** Every deny is of mails. *)
Lemma denies_mails f x r : mail r = None -> Forall (fun st => deny st && matches st x r = false) (role d i f).
Proof.
  intros Hr. destruct f; cbn [role]; rewrite ?Forall_app, ?Forall_cons, ?Forall_nil;
    unfold deny_statement, allow_list_policy; try (destruct (denyPatterns i)); destruct (enrollment i);
    rewrite ?Forall_cons, ?Forall_nil; repeat split; try done; unfold matches; cbn; by rewrite Hr, !andb_false_r.
Qed.

Lemma permits_call f x a acts : allow acts x ∈ role d i f -> a ∈ acts -> granted d i f (call x a).
Proof.
  intros Hin Ha. unfold granted. cbn [mail call]. apply (permits_intro _ _ _ (allow acts x)); [done|done| |by apply denies_mails].
  unfold matches, allow. cbn. rewrite bool_decide_true, !andb_true_r by set_solver. apply existsb_exists. exists a.
  split; [by apply list_elem_of_In|]. apply String.eqb_refl.
Qed.

Lemma read_actions : "dynamodb:GetItem" ∈ READ_DATA_ACTIONS /\ "dynamodb:Query" ∈ READ_DATA_ACTIONS /\ "dynamodb:Scan" ∈ READ_DATA_ACTIONS.
Proof. pose proof read_data as Hr. rewrite !Forall_cons in Hr. naive_solver. Qed.

Lemma write_actions : "dynamodb:PutItem" ∈ WRITE_DATA_ACTIONS /\ "dynamodb:UpdateItem" ∈ WRITE_DATA_ACTIONS /\ "dynamodb:DeleteItem" ∈ WRITE_DATA_ACTIONS.
Proof. pose proof write_data as Hw. rewrite !Forall_cons in Hw. naive_solver. Qed.

(** The calls each function is allowed, one by one. *)
Ltac by_statement acts := apply (permits_call _ _ _ acts);
  [cbn [role]; unfold grantWriteData, grantReadData, grantReadWriteData, grantRead, allow_list_policy; set_solver
  |try (apply elem_of_app); pose proof read_actions as (? & _); pose proof secret_read; destruct write_actions as (? & ? & ?); set_solver].

Lemma counter_granted f b l w t : f = PreSignUpFn \/ f = CreateAuthFn \/ f = AuthLoginFn -> granted d i f (needs (UpdateCounter b l w t)).
Proof.
  cbn [needs]. intros [->|[->| ->]].
  - by_statement WRITE_DATA_ACTIONS.
  - by_statement (READ_DATA_ACTIONS ++ WRITE_DATA_ACTIONS)%list.
  - by_statement (READ_DATA_ACTIONS ++ WRITE_DATA_ACTIONS)%list.
Qed.

Lemma secret_granted f : f = CreateAuthFn \/ f = VerifyAuthFn \/ f = BounceHandlerFn -> granted d i f (needs (GetSecretValue (hmacSecretArn d))).
Proof. cbn [needs]. intros [->|[->| ->]]; by_statement SECRET_READ_ACTIONS. Qed.

Lemma allow_list_granted f u : f = CreateAuthFn \/ f = VerifyAuthFn -> enrollment i = admin_only -> granted d i f (needs (AdminGetUser (userPoolId d) u)).
Proof. cbn [needs]. intros Hf He. destruct Hf as [->| ->]; apply (permits_call _ _ _ ["cognito-idp:AdminGetUser"]); (cbn [role]; unfold allow_list_policy; rewrite ?He; set_solver). Qed.

(** *** Mail *)

Lemma any_like_spec ps to : any_like ps to = true <-> exists a p, a ∈ to /\ p ∈ ps /\ like p a = true.
Proof.
  unfold any_like. rewrite existsb_exists. setoid_rewrite existsb_exists. setoid_rewrite <- list_elem_of_In. naive_solver.
Qed.

Lemma all_like_spec ps to : all_like ps to = true <-> to <> [] /\ Forall (fun a => exists p, p ∈ ps /\ like p a = true) to.
Proof.
  unfold all_like. rewrite andb_true_iff, negb_true_iff, bool_decide_eq_false, forallb_forall, Forall_forall.
  setoid_rewrite existsb_exists. setoid_rewrite <- list_elem_of_In. done.
Qed.

Lemma fence_spec to : inside_fence i to <->
  match allowedPatterns i with Some ps => all_like ps to | None => true end = true /\ any_like (denyPatterns i) to = false.
Proof.
  unfold inside_fence. rewrite <- not_true_iff_false, any_like_spec.
  split; (intros [H1 H2]; split).
  - destruct (allowedPatterns i) as [ps|]; [|done]. by apply all_like_spec, H1.
  - intros (a & p & Ha & Hp & Hl). by rewrite (H2 a p Ha Hp) in Hl.
  - intros ps Hps. rewrite Hps in H1. by apply all_like_spec.
  - intros a p Ha Hp. apply not_true_iff_false. intros Hl. apply H2. by exists a, p.
Qed.

Lemma deny_matches x from set to :
  existsb (fun st => deny st && matches st x (send_request from set to)) (deny_statement i) = any_like (denyPatterns i) to.
Proof.
  unfold deny_statement. destruct (denyPatterns i) as [|p ps].
  - cbn. symmetry. apply not_true_iff_false. intros (a & p & _ & Hp & _)%any_like_spec. by apply elem_of_nil in Hp.
  - cbn [existsb]. unfold matches. cbn. by rewrite orb_false_r.
Qed.

(** Only one statement of all roles allows a mail. *)
Lemma mail_allowed f x from set to : x ∈ on (send_request from set to) ->
  existsb (fun st => negb (deny st) && matches st x (send_request from set to)) (role d i f) = true <->
  f = CreateAuthFn /\ matches (send_statement d i) x (send_request from set to) = true.
Proof.
  intros Hx. rewrite existsb_exists. split.
  - intros (st & Hin & Hm). apply list_elem_of_In in Hin. apply andb_true_iff in Hm as [Hdn Hm].
    assert (forall acts y, (forall n, y <> SesIdentity n) -> (forall n, y <> ConfigurationSet n) -> matches (allow acts y) x (send_request from set to) = false) as Hno.
    { intros acts y H1 H2. unfold matches, allow. cbn. rewrite bool_decide_false; [by rewrite andb_false_r|].
      intros ->%list_elem_of_singleton. cbn in Hx. destruct set; set_solver. }
    destruct f; cbn [role] in Hin; unfold deny_statement, allow_list_policy in Hin;
      try (destruct (enrollment i)); try (destruct (denyPatterns i));
      rewrite ?elem_of_app, ?elem_of_cons, ?elem_of_nil in Hin;
      repeat match type of Hin with _ \/ _ => destruct Hin as [Hin|Hin] end; try done; subst st; try done;
      unfold grantWriteData, grantReadData, grantReadWriteData, grantRead in Hm; by rewrite Hno in Hm.
  - intros [-> Hc]. exists (send_statement d i). rewrite <- list_elem_of_In. split; [cbn [role]; set_solver|]. by rewrite Hc.
Qed.

(** Also (The fence around mail): a mail passes IAM exactly when the create
    trigger sends it, as the configured sender and with no configuration set but
    its own, to recipients each of which matches an allowed pattern, if there
    are any, and none of which matches a denied one. *)
Theorem mail_fence f from set to : identity_domain (sender i) = senderDomain i ->
  permits (role d i f) (send_request from set to) = true <->
  f = CreateAuthFn /\ from = sender i /\ (set = None \/ set = Some (configurationSetName d)) /\ inside_fence i to.
Proof.
  intros Hsd. rewrite fence_spec.
  assert (forall x, x ∈ on (send_request from set to) -> permits_on (role d i f) x (send_request from set to) = true <->
    f = CreateAuthFn /\ matches (send_statement d i) x (send_request from set to) = true /\ any_like (denyPatterns i) to = false) as Hone.
  { intros x Hx. unfold permits_on. rewrite andb_true_iff, mail_allowed, negb_true_iff by done.
    assert (f = CreateAuthFn -> existsb (fun st => deny st && matches st x (send_request from set to)) (role d i f) = any_like (denyPatterns i) to) as Hden.
    { intros ->. cbn [role]. rewrite !existsb_app, deny_matches. cbn. unfold allow_list_policy. by destruct (enrollment i); cbn; rewrite ?orb_false_r. }
    split; [intros [[Hf Hm] Hn]|intros (Hf & Hm & Hn)]; rewrite (Hden Hf) in *; done. }
  assert (forall x, matches (send_statement d i) x (send_request from set to) = true <->
    x ∈ [SesIdentity (senderDomain i); ConfigurationSet (configurationSetName d)] /\ from = sender i /\
    match allowedPatterns i with Some ps => all_like ps to | None => true end = true) as Hm.
  { intros x. unfold matches. cbn [send_statement actions resources condition action mail send_request existsb].
    rewrite String.eqb_refl. cbn [orb andb]. by rewrite !andb_true_iff, bool_decide_eq_true, String.eqb_eq. }
  unfold permits. rewrite forallb_forall. setoid_rewrite <- list_elem_of_In. split.
  - intros Hall. pose proof (Hall (SesIdentity (identity_domain from))) as Hid. rewrite Hone, Hm in Hid by (cbn; set_solver).
    destruct Hid as (Hf & (_ & Hfrom & Hlike) & Hden); [cbn; set_solver|]. do 2 (split; [done|]). split; [|done].
    destruct set as [name|]; [right|by left]. pose proof (Hall (ConfigurationSet name)) as Hcs.
    rewrite Hone, Hm in Hcs by (cbn; set_solver). destruct Hcs as (_ & (Hin & _) & _); [cbn; set_solver|]. set_solver.
  - intros (Hf & -> & Hset & Hlike & Hden) x Hx. apply Hone; [done|]. split; [done|]. split; [|done]. apply Hm. split; [|done].
    cbn in Hx. rewrite Hsd in Hx. destruct Hset as [->| ->]; set_solver.
Qed.

(** *** Programs of the triggers *)

Context (s : MagicLinkAuthSite) (Hd : named d) (Hsd : identity_domain (sender i) = senderDomain i).

Notation ok f := (fun X (c : cmd X) => granted d i f (needs c)).

Lemma sends_key f cache : f = CreateAuthFn \/ f = VerifyAuthFn \/ f = BounceHandlerFn ->
  sends (ok f) (resolveEmailHmacKeyFromEnv (env_of d i s f) cache).
Proof.
  intros Hf. destruct (named_parts d Hd) as (_ & _ & _ & _ & Hs & _). unfold resolveEmailHmacKeyFromEnv.
  rewrite (env_value_Some _ _ (hmacSecretArn d)) by (by destruct Hf as [->|[->| ->]]).
  assert (sends (ok f) (await (send (GetSecretValue (hmacSecretArn d))) (fun value =>
    match value with Some v => if String.eqb v "" then Raise EmptySecret else Ret (Some (v, hmacSecretArn d), v) | None => Raise EmptySecret end))) as Hfetch.
  { apply sends_await; [split; [by apply secret_granted|by intros []]|]. intros [v|]; [by destruct (String.eqb v "")|done]. }
  destruct cache as [[key for_]|]; [by destruct (String.eqb for_ (hmacSecretArn d))|done].
Qed.

Lemma sends_counter f b l w t : f = PreSignUpFn \/ f = CreateAuthFn \/ f = AuthLoginFn -> sends (ok f) (consume_counter (UpdateCounter b l w t)).
Proof. intros Hf. split; [by apply counter_granted|]. by intros [?|[]]. Qed.

Lemma sends_allow_list f u : f = CreateAuthFn \/ f = VerifyAuthFn -> enrollment i = admin_only -> sends (ok f) (allow_list_get (userPoolId d) u).
Proof. intros Hf He. split; [by apply allow_list_granted|done]. Qed.

Lemma sends_settle {A B} f (read : prog A) (k : option A -> prog B) : sends (ok f) read -> (forall o, sends (ok f) (k o)) -> sends (ok f) (settle read k).
Proof. intros Hr Hk. by apply sends_attempt. Qed.

Lemma sends_settle_key {A B} f key (read : string -> prog A) (k : option A -> prog B) :
  (forall x, sends (ok f) (read x)) -> (forall o, sends (ok f) (k o)) -> sends (ok f) (settle_with_key key read k).
Proof. intros Hr Hk. destruct key; [by apply sends_settle|apply Hk]. Qed.

Lemma sends_floor {C CE E A} (allowed : forall X, C X -> Prop) ms (p : Prog.prog C CE E event A) : sends allowed p -> sends allowed (withFloor ms p).
Proof.
  intros Hp start. apply sends_attempt; [done|]. intros r t. cbv zeta. destruct r, (0 <? ms - (t - start)); done.
Qed.

Lemma sends_preSignup ev : sends (ok PreSignUpFn) (preSignup (env_of d i s PreSignUpFn) ev).
Proof.
  unfold preSignup, reject. destruct (_ && _); [done|]. destruct (allowed_domains _) as [ds|]; [|done]. cbn [lift].
  destruct (negb _); [done|]. destruct (env_value _ _); [|done]. apply sends_await; [|by intros []].
  intros now. apply sends_counter. by left.
Qed.

Lemma sends_create_answer reason email code drawn : sends (ok CreateAuthFn) (unanswerableChallenge reason email code drawn).
Proof. done. Qed.

(** What the trigger's configuration is of the deployment's. *)
Definition configured (cfg : CreateConfig) : Prop :=
  cfg_from cfg = sender i /\ cfg_enrollment cfg = enrollment i /\ cfg_configurationSet cfg = Some (configurationSetName d).

Lemma sends_issue cfg email key nowMs drawn : configured cfg -> sends (ok CreateAuthFn) (issue_mail cfg email key nowMs drawn).
Proof.
  intros (Hf & _ & Hc). apply sends_attempt; [|by intros []]. apply sends_await; [split; [by by_statement WRITE_DATA_ACTIONS|by intros []]|].
  intros _. split; [|by intros []]. unfold granted. cbn [needs mail send_request]. rewrite mail_fence by done. cbn. rewrite Hf, Hc.
  do 2 (split; [done|]). split; [set_solver|].
  split; [by intros (_ & _ & _ & Hin)|]. intros Hin. split; [done|]. split; [done|]. split; [by right|done].
Qed.

Lemma sends_challenge cfg ev nowMs drawn key : configured cfg -> c_userPoolId ev = userPoolId d ->
  sends (ok CreateAuthFn) (challenge (env_of d i s CreateAuthFn) cfg ev nowMs drawn key).
Proof.
  intros Hf Hp. apply sends_settle_key.
  { intros k. unfold isDenylisted. destruct (cfg_denylistTable cfg); [|done]. split; [by by_statement READ_DATA_ACTIONS|by intros [?|[]]]. }
  intros deny_. apply sends_settle_key; [intros k; apply sends_counter; by right; left|]. intros cap.
  apply sends_settle_key; [intros k; unfold tryConsumeDailyCap; destruct (utcDate nowMs); [|done]; apply sends_counter; by right; left|]. intros day.
  assert (forall e, sends (ok CreateAuthFn) (decide_challenge cfg ev nowMs drawn key deny_ cap day e)) as Hdec.
  { intros e. unfold decide_challenge. cbv zeta. destruct (suppression _ _ _ _ _ _ _), (recipient ev), key; try done. by apply sends_issue. }
  unfold read_eligibility. rewrite (proj1 (proj2 Hf)). destruct (enrollment i) eqn:Hen; [|apply Hdec].
  env_read. rewrite Hp. apply sends_await; [apply sends_allow_list; [by left|done]|]. intros a. apply Hdec.
Qed.

Lemma create_config_deployed cfg : create_config (env_of d i s CreateAuthFn) = Some cfg -> configured cfg.
Proof.
  destruct (named_parts d Hd) as (_ & _ & _ & _ & _ & Hcs & _).
  unfold create_config. destruct (env_value _ RuntimeEnv.TOKEN_TABLE_NAME); [|done]. destruct (env_value _ RuntimeEnv.RATE_LIMIT_TABLE_NAME); [|done].
  assert (env_value (env_of d i s CreateAuthFn) RuntimeEnv.SES_FROM = Some (sender i) \/ env_value (env_of d i s CreateAuthFn) RuntimeEnv.SES_FROM = None) as Hs.
  { unfold env_value. env_read. cbv beta iota. destruct (String.eqb (sender i) ""); [by right|by left]. }
  destruct Hs as [-> | ->]; [|done]. destruct (env_value _ RuntimeEnv.DOMAIN); [|done]. cbn [mbind option_bind].
  destruct (parseTokenTtlMinutes _); [|done]. cbn [mbind option_bind]. env_read. rewrite parseEnrollment_text. cbn [mbind option_bind].
  rewrite (env_value_Some _ RuntimeEnv.SES_CONFIGURATION_SET (configurationSetName d)) by done.
  destruct (_ <? 1); [done|]. by intros [= <-].
Qed.

Lemma sends_create_trigger drawn cache ev : c_userPoolId ev = userPoolId d ->
  sends (ok CreateAuthFn) (createAuthChallenge (env_of d i s CreateAuthFn) drawn cache ev).
Proof.
  intros Hp. apply sends_floor. unfold issue. destruct (create_config _) as [cfg|] eqn:Hc; [|done]. apply create_config_deployed in Hc.
  intros nowMs. apply sends_await; [apply sends_attempt; [apply sends_key; by left|done]|]. intros [cache' key].
  apply sends_await; [by apply sends_challenge|done].
Qed.

Lemma sends_verify_trigger cache ev : v_userPoolId ev = userPoolId d ->
  sends (ok VerifyAuthFn) (verifyAuthChallengeResponse (env_of d i s VerifyAuthFn) cache ev).
Proof.
  intros Hp. unfold verifyAuthChallengeResponse. env_read. rewrite parseEnrollment_text.
  apply sends_attempt; [apply sends_key; by right; left|]. intros [[cache' key]|]; [|done].
  destruct (is_true _); [done|]. destruct (existsb _ _); [done|]. destruct (challengeAnswer ev) as [a|]; [|done].
  destruct (_ =? 0)%nat; [done|]. destruct (_ <? _)%nat; [done|]. destruct (classifyAnswer a) as [form|]; [|done].
  unfold redeem. cbv zeta. destruct (negb _); [done|]. destruct (p_token_hash _); [|done]. destruct (env_value _ _); [|done].
  split; [by by_statement (READ_DATA_ACTIONS ++ WRITE_DATA_ACTIONS)%list|]. intros [[row|]|]; try done.
  unfold check_row. destruct (match form with token_form => _ | code_form => _ end); [done|]. destruct (email_matches _ _) as [[]|]; try done.
  intros now. destruct (row_expires_at row); [|done]. destruct (_ <=? now); [done|].
  split; [by by_statement (READ_DATA_ACTIONS ++ WRITE_DATA_ACTIONS)%list|]. intros [|[]]; try done.
  unfold recheck. destruct (enrollment i) eqn:He; [|done]. env_read. rewrite Hp.
  apply sends_await; [apply sends_allow_list; [by right|done]|]. intros [v|]; [by destruct (eligible v)|done].
Qed.

Lemma sends_quarantine email hash : sends (ok BounceHandlerFn) (quarantineEmail (userPoolId d) email hash).
Proof.
  split.
  - apply (permits_call _ _ _ ["cognito-idp:AdminUpdateUserAttributes"; "cognito-idp:AdminDisableUser"]); cbn [role]; set_solver.
  - intros [|[]]; try done. intros t t'. destruct (toISOString t'); [|done]. apply sends_await; [|done].
    split; [by by_statement WRITE_DATA_ACTIONS|by intros []].
Qed.

Lemma sends_lift {A B} f (r : result signin_error A) (k : A -> prog B) : (forall a, sends (ok f) (k a)) -> sends (ok f) (lift r k).
Proof. intros Hk. destruct r; [apply Hk|done]. Qed.

Lemma sends_records hmac ms : forall errors, sends (ok BounceHandlerFn) (process_records (userPoolId d) hmac ms errors).
Proof.
  assert (forall l, sends (ok BounceHandlerFn) (quarantine_all (userPoolId d) hmac l)) as Hall.
  { induction l as [|x l IH]; [done|]. apply sends_await; [|done]. apply sends_lift. intros [[]|]; try done. apply sends_quarantine. }
  induction ms as [|m ms IH]; intros errors; [done|]. apply sends_attempt; [|intros []; by apply IH].
  unfold process_record. destruct (JSON_parse m) as [v|]; [|done]. do 2 (apply sends_lift; intros ?). cbv zeta.
  destruct (is_text _ "Bounce"); [|destruct (is_text _ "Complaint"); [|done]].
  - unfold processBounce. apply sends_lift. intros b. destruct (negb _); [done|]. do 3 (apply sends_lift; intros ?). cbn [sends].
    destruct (negb _); [done|]. apply sends_lift. intros l. apply Hall.
  - unfold processComplaint. apply sends_lift. intros b. destruct (negb _); [done|]. do 2 (apply sends_lift; intros ?). cbn [sends].
    apply sends_lift. intros l. apply Hall.
Qed.

Lemma sends_bounce cache ms : sends (ok BounceHandlerFn) (bounceHandler (env_of d i s BounceHandlerFn) cache ms).
Proof.
  destruct (named_parts d Hd) as (_ & _ & _ & _ & _ & _ & Hp & _). unfold bounceHandler.
  apply sends_await; [apply sends_key; by right; right|]. intros [cache' key].
  rewrite (env_value_Some _ RuntimeEnv.COGNITO_USER_POOL_ID (userPoolId d)) by done.
  destruct (env_value _ _); [|done]. destruct (String.eqb key ""); [done|]. apply sends_await; [apply sends_records|].
  intros errors. by destruct (0 <? length errors)%nat.
Qed.

(** *** Programs of the endpoints *)

Notation eok f := (fun X (c : ecmd X) => granted d i f (endpoint_needs d c)).

Lemma sends_base {A} f (p : prog A) : sends (ok f) p -> sends (eok f) (embed p).
Proof. induction p as [a|e|k IH|e p IH|X c k IH]; cbn; naive_solver. Qed.

Lemma login_config_facts email ip req : login_config (env_of d i s AuthLoginFn) email ip = Some req ->
  lr_enrollment req = enrollment i /\ lr_userPoolId req = userPoolId d.
Proof.
  unfold login_config. env_read. rewrite parseEnrollment_text. cbn [mbind option_bind]. cbv zeta. destruct (_ && _); [done|].
  destruct (env_value _ RuntimeEnv.RATE_LIMIT_TABLE_NAME); [|done]. destruct (env_value _ RuntimeEnv.BINDING_TABLE_NAME); [|done].
  destruct (env_value _ RuntimeEnv.COGNITO_CLIENT_ID); [|done]. cbn [mbind option_bind].
  destruct (parseTokenTtlMinutes _); [|done]. by intros [= <-].
Qed.

Lemma sends_login drawn ev : sends (eok AuthLoginFn) (authLogin (env_of d i s AuthLoginFn) drawn ev).
Proof.
  unfold authLogin. destruct (login_request _ ev) as [req|[[] ?]] eqn:Hr; [|done|done].
  assert (lr_enrollment req = enrollment i /\ lr_userPoolId req = userPoolId d) as [He Hp].
  { unfold login_request in Hr. destruct (env_value _ _); [|done]. destruct (negb _); [done|]. destruct (login_email _); [|done].
    destruct (login_ip ev); [|done]. destruct (login_config _ _ _) eqn:Hc; [|done]. injection Hr as ->. by eapply login_config_facts. }
  apply sends_floor. apply sends_attempt.
  - intros nowMs. apply sends_await; [apply sends_base, sends_counter; by right; right|]. intros []; [|done].
    apply sends_await; [|done]. apply sends_await.
    + unfold login_username, signUpQuietly, allow_list_lookup. rewrite He, Hp. destruct (enrollment i) eqn:Hen.
      * apply sends_await; [|done]. destruct (normalizeEmail _); [|done].
        split; [by apply (permits_call _ _ _ ["cognito-idp:ListUsers"; "cognito-idp:InitiateAuth"]); cbn [role]; rewrite ?Hen; set_solver|done].
      * apply sends_await; [|done]. apply sends_attempt; [|by intros []].
        split; [by apply (permits_call _ _ _ ["cognito-idp:SignUp"; "cognito-idp:InitiateAuth"]); cbn [role]; rewrite ?Hen; set_solver|by intros []].
    + intros u. apply sends_await; [|done]. split; [|by intros []].
      apply (permits_call _ _ _ (match enrollment i with self_signup => ["cognito-idp:SignUp"; "cognito-idp:InitiateAuth"]
                                 | admin_only => ["cognito-idp:ListUsers"; "cognito-idp:InitiateAuth"] end)); [cbn [role]; set_solver|].
      destruct (enrollment i); set_solver.
  - intros r. destruct (match r with Ok x => x | Throw _ => (None, auth_error) end) as [started outcome]. intros nowMs.
    split; [by by_statement ["dynamodb:PutItem"]|done].
Qed.

Lemma sends_verify_endpoint ev : sends (eok AuthVerifyFn) (authVerify (env_of d i s AuthVerifyFn) ev).
Proof.
  unfold authVerify. destruct (env_value _ _); [|done]. destruct (verify_gate ev _); [done|]. destruct (verify_answer _); [|done].
  destruct (env_value _ _); [|done]. destruct (env_value _ _); [|done]. destruct (parseRefreshTokenValiditySeconds _); [|done].
  destruct (request_cookie ev _); [|done]. split; [by by_statement ["dynamodb:DeleteItem"]|]. intros [[row|]|[]]; try done.
  intros nowMs. destruct (match b_expires_at row with None => true | Some _ => _ end); [done|]. destruct (pending row) as [[? ?]|]; [|done].
  split; [by by_statement ["cognito-idp:RespondToAuthChallenge"]|]. intros [out|]; [|done]. destruct (IdToken out); [|done].
  destruct (String.eqb _ ""); [done|]. by destruct (signed_in _ _ _ _).
Qed.

Lemma sends_signout verifyJwt ev : sends (eok AuthSignoutFn) (authSignout (env_of d i s AuthSignoutFn) verifyJwt ev).
Proof.
  destruct (named_parts d Hd) as (_ & _ & _ & _ & _ & _ & Hp & _).
  unfold authSignout. destruct (env_value _ _); [|done]. destruct (verify_gate ev _); [done|]. apply sends_await.
  - unfold signout_outcome. rewrite (env_value_Some _ RuntimeEnv.COGNITO_USER_POOL_ID (userPoolId d)) by done. destruct (env_value _ _); [|done].
    unfold revoke. destruct (request_cookie ev _); [|done]. destruct (parseRefreshTokenValiditySeconds _); [|done]. intros nowMs.
    destruct (verifyJwt _ _ _ _ _); [|done]. split; [by by_statement ["cognito-idp:AdminUserGlobalSignOut"]|by intros []].
  - intros o. cbv zeta. destruct o, (buildClearCookieHeaders _); done.
Qed.

End grants.

Section roles_suffice.
Context `{AwsIam, Digests} (d : Deployed) (i : MagicLinkIdentity) (s : MagicLinkAuthSite).
Notation ok f := (fun X (c : cmd X) => granted d i f (needs c)).
Notation eok f := (fun X (c : ecmd X) => granted d i f (endpoint_needs d c)).


(** ** What they keep out *)

(** Also (Bindings change hands once): of all functions only the login endpoint
    may write a binding and only the verify endpoint take one, and neither may do
    anything else with them. *)
Theorem binding_table_apart f a :
  permits (role d i f) (call BindingTable a) = true <->
  (f = AuthLoginFn /\ a = "dynamodb:PutItem") \/ (f = AuthVerifyFn /\ a = "dynamodb:DeleteItem").
Proof.
  split.
  - unfold permits, permits_on. cbn [on call forallb]. rewrite andb_true_r, andb_true_iff, existsb_exists.
    intros [(st & Hin & Hm) _]. apply list_elem_of_In in Hin.
    apply andb_true_iff in Hm as [Hdn Hm]. unfold matches in Hm. rewrite !andb_true_iff in Hm. destruct Hm as [[Ha Hr] _].
    apply existsb_exists_In in Ha as (x & Hx & Ex). cbn [action call] in Ex. apply String.eqb_eq in Ex as <-.
    destruct f; cbn [role] in Hin; unfold deny_statement, allow_list_policy in Hin; try (destruct (enrollment i)); try (destruct (denyPatterns i));
      rewrite ?elem_of_app, ?elem_of_cons, ?elem_of_nil in Hin;
      repeat match type of Hin with _ \/ _ => destruct Hin as [Hin|Hin] end; try done; subst st; try done;
      unfold grantWriteData, grantReadData, grantReadWriteData, grantRead, allow, send_statement in Hx, Hr; cbn [actions resources on call] in Hx, Hr;
      try (apply bool_decide_eq_true in Hr; set_solver);
      apply list_elem_of_singleton in Hx as ->; first [by left|by right].
  - intros [[-> ->]|[-> ->]]; [apply (permits_call d i AuthLoginFn _ _ ["dynamodb:PutItem"])|apply (permits_call d i AuthVerifyFn _ _ ["dynamodb:DeleteItem"])];
      cbn [role]; set_solver.
Qed.
End roles_suffice.

Lemma distinct_elem x l : x ∈ distinct l <-> x ∈ l.
Proof.
  unfold distinct. assert (forall acc, x ∈ fold_left (fun acc x => if existsb (String.eqb x) acc then acc else (acc ++ [x])%list) l acc <-> x ∈ acc \/ x ∈ l) as H.
  { induction l as [|y l IH]; intros acc; cbn [fold_left]; [set_solver|]. rewrite IH. destruct (existsb (String.eqb y) acc) eqn:E; [|set_solver].
    apply existsb_exists_In in E as (z & Hz & <-%String.eqb_eq). set_solver. }
  rewrite H. set_solver.
Qed.

(** Also (Test addresses are denied): whatever else a stage denies, in
    admin-only mode its fence denies the test addresses unless it opts out, and
    the patterns of the properties are the fence's. *)
Theorem test_addresses_denied p i : new_MagicLinkIdentity p = Ok i ->
  (enrollment i = admin_only -> allowTestRecipients p = false -> Forall (fun x => x ∈ denyPatterns i) DEFAULT_TEST_RECIPIENT_DENY_PATTERNS) /\
  Forall (fun x => x ∈ denyPatterns i) (default [] (deniedRecipientPatterns p)) /\
  allowedPatterns i = allowedRecipientPatterns p.
Proof.
  unfold new_MagicLinkIdentity. intros H. binds H. injection H as <-. cbn [denyPatterns enrollment allowedPatterns].
  assert (forall n ps r, optional_patterns n ps = Ok r -> r = ps) as Hopt.
  { intros n [ps|] r; cbn; [|congruence]. unfold CdkProps.CdkProps.validateRecipientPatterns. destruct ps; [done|].
    destruct (CdkProps.CdkProps.check_patterns _ _ _); [|done]. cbn. congruence. }
  apply Hopt in E6 as ->. apply Hopt in E7 as ->. split; [|split; [|done]].
  - intros -> ->. apply Forall_forall. intros x Hx. apply distinct_elem. rewrite bool_decide_true by done. cbn [negb andb]. set_solver.
  - apply Forall_forall. intros x Hx. apply distinct_elem. set_solver.
Qed.

(** ** Findings *)

(** The guides say an empty list of domains restricts nothing; deployed, every
    sign-up is refused. *)
Lemma empty_list_refuses d p i s ev : new_MagicLinkIdentity p = Ok i -> allowedEmailDomains p = [] ->
  exists reason, preSignup (env_of d i s PreSignUpFn) ev = reject reason.
Proof.
  intros Hi Hl. apply identity_made in Hi as (_ & _ & _ & Hdom & _). unfold preSignup.
  rewrite (domains_read _ (domains i)) by done. rewrite Hdom, Hl. cbn [lift map existsb negb]. destruct (_ && _); by eexists.
Qed.

(** The guards say a floor up to the maximum fits the trigger's limit; at the
    maximum nothing is left of it. *)
Lemma longest_floor_is_the_limit : MAX_CREATE_FLOOR_MS = CREATE_TIMEOUT_SECONDS * 1000.
Proof. done. Qed.

(** ** Two checks of a trigger's ARN *)

Lemma includes_suffix a b pat : includes b pat = true -> includes (a +:+ b) pat = true.
Proof.
  unfold includes. intros Hb. induction a as [|c a IH]; [done|]. cbn [String.append indexOf]. destruct (String.prefix pat _); [done|].
  by destruct (indexOf (a +:+ b) pat).
Qed.

Lemma includes_prefix a b pat : startsWith a pat = true -> includes (a +:+ b) pat = true.
Proof.
  intros [u ->]%prefix_spec. unfold includes. rewrite str_app_assoc. destruct (pat +:+ u +:+ b) as [|c r] eqn:E; cbn [indexOf]; rewrite <- E, prefix_app; done.
Qed.

Lemma part_includes c l part pat : part ∈ l -> startsWith part pat = true -> includes (join (String.String c "") l) pat = true.
Proof.
  intros Hin Hp. induction l as [|x l IH]; [by apply elem_of_nil in Hin|]. destruct l as [|y l].
  - apply list_elem_of_singleton in Hin as ->. cbn [join]. rewrite <- (str_app_nil_r x). by apply includes_prefix.
  - rewrite join_cons. apply elem_of_cons in Hin as [->|Hin]; [by apply includes_prefix|]. apply includes_suffix, includes_suffix. by apply IH.
Qed.

(** Also (Both checks of a trigger agree): in a stack of known region and account
    the construct and [attachTriggerHooks] accept the same ARNs that have the six
    parts of one. *)
Theorem locality_checks_agree region account arn :
  startsWith region "${" = false -> startsWith account "${" = false -> (6 <= length (split ":" arn))%nat ->
  validateSameAccountRegion region account arn = Ok tt <-> CdkRules.CdkRules.validateTriggerLambdaLocality arn region account = None.
Proof.
  intros Hr Ha Hl. unfold validateSameAccountRegion, CdkRules.CdkRules.validateTriggerLambdaLocality.
  destruct (includes arn "${") eqn:Ht; [done|]. cbv zeta. rewrite Hr, Ha. destruct (Nat.ltb_spec (length (split ":" arn)) 6); [lia|].
  assert (forall n, startsWith (default "" (split ":" arn !! n)) "${" = false) as Hp.
  { intros n. destruct (split ":" arn !! n) as [part|] eqn:En; [|done]. apply not_true_iff_false. intros Hs.
    apply list_elem_of_lookup_2 in En. pose proof (part_includes ":" _ part _ En Hs) as Hi. by rewrite join_split, Ht in Hi. }
  rewrite !Hp. cbn [negb]. rewrite !andb_true_r.
  set (r := default "" (split ":" arn !! 3%nat)). set (a := default "" (split ":" arn !! 4%nat)).
  by destruct (String.eqb r ""), (String.eqb r region), (String.eqb a ""), (String.eqb a account).
Qed.

(** In a stack whose region is not known yet only the construct waits. *)
Lemma agnostic_stack_refuses :
  let arn := "arn:aws:lambda:eu-central-1:1:function:f" in
  validateSameAccountRegion "${Token[AWS.Region.4]}" "${Token[AWS.AccountId.0]}" arn = Ok tt /\
  CdkRules.CdkRules.validateTriggerLambdaLocality arn "${Token[AWS.Region.4]}" "${Token[AWS.AccountId.0]}" = Some (CdkRules.CdkRules.OtherRegion "eu-central-1").
Proof. by vm_compute. Qed.

(** ** A deployment *)

(** [*] matches any text. *)
#[local] Fixpoint glob (p : string) : re :=
  match p with
  | EmptyString => REps
  | String.String c r => (if Ascii.eqb c "*" then RStar (RCls (fun _ => true)) else lit c) ⋅ glob r
  end.

#[local] Instance toy_iam : AwsIam.
Proof.
  refine {| like p a := re_match (glob p) a;
            READ_DATA_ACTIONS := ["dynamodb:BatchGetItem"; "dynamodb:GetItem"; "dynamodb:Query"; "dynamodb:Scan"];
            WRITE_DATA_ACTIONS := ["dynamodb:BatchWriteItem"; "dynamodb:PutItem"; "dynamodb:UpdateItem"; "dynamodb:DeleteItem"];
            SECRET_READ_ACTIONS := ["secretsmanager:GetSecretValue"; "secretsmanager:DescribeSecret"] |}.
  - rewrite !Forall_cons. split_and!; [set_solver..|by apply Forall_nil].
  - rewrite !Forall_cons. split_and!; [set_solver..|by apply Forall_nil].
  - set_solver.
Defined.

#[local] Definition props0 : IdentityProps :=
  {| sesIdentitySender := "signin@example.com"; zoneName := "example.com"; p_linkDomain := Some "app.example.com"; customAttributes := [];
     allowedEmailDomains := ["Example.com"]; federationEnabled := false; p_signupMode := None; p_enrollment := None; hostedUiDomain := None;
     allowedRecipientPatterns := Some ["*@example.com"]; deniedRecipientPatterns := None; allowTestRecipients := false;
     p_tokenTtlMinutes := Some (Int 5); p_createFloorMs := Some (Int 5000); p_tokenSendsPerDay := None; tokenSendsPerWindow := None;
     signUpsPerWindow := None; refreshTokenValidity := None; preTokenGeneration := None; postConfirmation := None;
     stackRegion := "eu-central-1"; stackAccount := "1" |}.
#[local] Definition site0 : SiteProps :=
  {| p_domain := "app.example.com"; p_signInFloorMs := None; s_idTokenValidity := None; s_refreshTokenValidity := None |}.
#[local] Definition deployed0 : Deployed :=
  {| tokenTableName := "tokens"; rateLimitTableName := "rate"; denylistTableName := "deny"; bindingTableName := "bindings";
     hmacSecretArn := "arn:secret"; configurationSetName := "set"; stack_region := "eu-central-1"; userPoolId := "pool"; clientId := "client";
     metricsNamespace := "Vestibulum" |}.
#[local] Definition identity0 : MagicLinkIdentity :=
  match new_MagicLinkIdentity props0 with
  | Ok i => i
  | Throw _ => {| sender := ""; senderDomain := ""; linkDomain := ""; domains := []; signupMode := CdkProps.CdkProps.open; enrollment := admin_only;
                  allowedPatterns := None; denyPatterns := []; federated := false; tokenTtlMinutes := 0; createFloorMs := 0; sendsPerDay := 0;
                  sendsPerWindow := Int 0; signUps := Int 0; defaultRefreshTokenValidity := 0 |}
  end.

#[local] Definition no_client : CdkRules.CdkRules.ClientOptions :=
  {| CdkRules.CdkRules.generateSecret := None; CdkRules.CdkRules.oAuth := None; CdkRules.CdkRules.idTokenValidity := None;
     CdkRules.CdkRules.refreshTokenValidity := None; CdkRules.CdkRules.authSessionValidity := None; CdkRules.CdkRules.password_flows := true;
     CdkRules.CdkRules.preventUserExistenceErrors := false; CdkRules.CdkRules.enableTokenRevocation := false |}.
#[local] Definition auth_site0 : MagicLinkAuthSite :=
  {| domain := "app.example.com"; signInFloorMs := 2500; refreshValiditySeconds := 86400;
     websiteClient := match addWebsiteClient identity0 site0 with Ok c => c | Throw _ => no_client end |}.

(** A sign-in under the deployed environment, the mails its role lets through,
    and the link domains that are taken. *)
Example deployment_runs :
  new_MagicLinkIdentity props0 = Ok identity0 /\
  new_MagicLinkAuthSite identity0 site0 = Ok auth_site0 /\
  match snd (run (createAuthChallenge (env_of deployed0 identity0 auth_site0 CreateAuthFn) example_drawn None ana_asks) (delivered (fun _ => 1000000)) 0 example_world) with
  | Ok (_, resp) => p_quarantined (privateChallengeParameters resp) = Some "false"
  | Throw _ => False
  end /\
  map (fun to => permits (role deployed0 identity0 CreateAuthFn) (send_request "signin@example.com" (Some "set") [to]))
    ["ana@example.com"; "ana+e2e-1@example.com"; "eve@example.org"] = [true; false; false] /\
  map host_name ["app.example.com"; "App.example.com"; "-a.example.com"; "localhost"] = [true; false; false; false].
Proof. by vm_compute. Qed.

#[local] Lemma named0 : named deployed0.
Proof. unfold named. repeat (apply Forall_cons; split; [done|]). by apply Forall_nil. Qed.

Lemma deployed_configuration_witness : exists ttl, CdkRules.CdkRules.authSessionValidity (websiteClient auth_site0) = Some ttl /\ ttl = 5.
Proof.
  destruct (deployed_configuration deployed0 named0 props0 site0 identity0 auth_site0) as
    (ttl & createFloor & perDay & signInFloor & enroll & Ht & _ & _ & _ & _ & _ & _ & _ & _ & _ & _ & _ & _ & _ & _ & _ & Hv);
    [by vm_compute|by vm_compute|].
  exists ttl. split; [exact Hv|]. by injection Ht as <-.
Defined.


Lemma test_addresses_denied_witness : Forall (fun x => x ∈ denyPatterns identity0) DEFAULT_TEST_RECIPIENT_DENY_PATTERNS.
Proof. apply (test_addresses_denied props0 identity0); by vm_compute. Defined.

Lemma locality_checks_agree_witness :
  validateSameAccountRegion "eu-central-1" "1" "arn:aws:lambda:us-east-1:1:function:f" <> Ok tt.
Proof.
  intros H. apply (locality_checks_agree "eu-central-1" "1" "arn:aws:lambda:us-east-1:1:function:f") in H; [done|done|done|].
  apply Nat.leb_le. by vm_compute.
Defined.
End Deployment.
