(* ===== verification/CloudFront.v ===== *)
(** The two CloudFront distributions of vestibulum-cdk:
    [magic-link-auth-site/magic-link-auth-site.ts] (one site) and
    [shared-distribution-identity/cloudfront-distribution.ts] (one for all
    tenants), with the function that rewrites page addresses.

    A distribution is its list of behaviours; a request takes the first whose
    path pattern matches, else the default one, as CloudFront documents it. The
    requests of the login pages ([login-pages/]), the mailed links and the
    cookies of the endpoints are followed through them. *)

From stdpp Require Import pretty.
From S2P Require Import Prelude JsString Prog SignIn AuthEndpoints TenantHost TenantTriggers.
From S2P Require MagicLink.
From Stdlib Require Import Ascii.

#[local] Open Scope js_scope.
#[local] Open Scope string_scope.
#[local] Open Scope Z_scope.

Module CloudFront.

(** ** Behaviours *)

Inductive AllowedMethods := ALLOW_GET_HEAD | ALLOW_ALL.

(** What of the viewer's headers reaches the origin. *)
Inductive OriginRequestPolicy := NoPolicy | ALL_VIEWER | ALL_VIEWER_EXCEPT_HOST_HEADER.

Inductive endpoint := AuthLogin | AuthVerify | AuthSignout.
Inductive Origin := Application | LoginPages | FunctionUrl (e : endpoint).

(** [gated]: [check-auth] runs on viewer requests; [rewrites]: [loginRewriteFn]
    does. *)
Record Behavior := {
  origin : Origin; gated : bool; allowedMethods : AllowedMethods; originRequestPolicy : OriginRequestPolicy; rewrites : bool
}.

Record Distribution := { domainNames : list string; defaultBehavior : Behavior; additionalBehaviors : list (string * Behavior) }.

(** A path pattern: [*] is any text and [?] any character. *)
Fixpoint path_match (pattern path : string) : bool :=
  match pattern with
  | EmptyString => match path with EmptyString => true | _ => false end
  | String.String p rest =>
      if Ascii.eqb p "*" then
        (fix from (s : string) : bool := path_match rest s || match s with EmptyString => false | String.String _ s' => from s' end) path
      else match path with
           | EmptyString => false
           | String.String c path' => (Ascii.eqb p "?" || Ascii.eqb p c) && path_match rest path'
           end
  end.

Definition route (d : Distribution) (path : string) : Behavior :=
  match List.find (fun b => path_match b.1 path) (additionalBehaviors d) with Some b => b.2 | None => defaultBehavior d end.

(** [loginRewriteFn]. *)
Definition loginRewriteFn (uri : string) : string :=
  if String.eqb uri "/login" then "/login.html" else if String.eqb uri "/login/callback" then "/login-callback.html" else uri.

Definition origin_uri (b : Behavior) (uri : string) : string := if rewrites b then loginRewriteFn uri else uri.

(** The host the origin is asked for: its own, unless the viewer's is sent. *)
Definition origin_host (b : Behavior) (viewer own : string) : string :=
  match originRequestPolicy b with ALL_VIEWER => viewer | NoPolicy | ALL_VIEWER_EXCEPT_HOST_HEADER => own end.

(** [BucketDeployment] of [login-pages/]. *)
Definition LOGIN_PAGES : list string :=
  ["login-callback.css"; "login-callback.html"; "login-callback.js"; "login.css"; "login.html"; "login.js"].

(** S3 answers with the object of that key. *)
Definition served (uri : string) : bool := existsb (fun key => String.eqb uri ("/" +:+ key)) LOGIN_PAGES.

(** ** magic-link-auth-site.ts *)

Definition authBehavior (e : endpoint) : Behavior :=
  {| origin := FunctionUrl e; gated := false; allowedMethods := ALLOW_ALL; originRequestPolicy := ALL_VIEWER_EXCEPT_HOST_HEADER; rewrites := false |}.

Definition site_distribution (domain : string) : Distribution :=
  {| domainNames := [domain];
     defaultBehavior := {| origin := Application; gated := true; allowedMethods := ALLOW_GET_HEAD; originRequestPolicy := NoPolicy; rewrites := false |};
     additionalBehaviors :=
       [("/login*", {| origin := LoginPages; gated := false; allowedMethods := ALLOW_GET_HEAD; originRequestPolicy := NoPolicy; rewrites := true |});
        ("/auth-verify*", authBehavior AuthVerify); ("/auth-login*", authBehavior AuthLogin); ("/auth-signout", authBehavior AuthSignout)] |}.

(** ** cloudfront-distribution.ts *)

Definition tenantEndpoint (e : endpoint) : Behavior :=
  {| origin := FunctionUrl e; gated := false; allowedMethods := ALLOW_ALL; originRequestPolicy := ALL_VIEWER; rewrites := false |}.

Definition loginBehavior : Behavior :=
  {| origin := LoginPages; gated := false; allowedMethods := ALLOW_GET_HEAD; originRequestPolicy := NoPolicy; rewrites := false |}.

Definition tenant_distribution (tenantSubdomainParent : string) : Distribution :=
  let parent := strip_trailing_dot tenantSubdomainParent in
  {| domainNames := ["*." +:+ parent; parent];
     defaultBehavior := {| origin := LoginPages; gated := true; allowedMethods := ALLOW_GET_HEAD; originRequestPolicy := NoPolicy; rewrites := false |};
     additionalBehaviors :=
       [("/login/callback*", tenantEndpoint AuthVerify); ("/logout*", tenantEndpoint AuthSignout); ("/login", loginBehavior);
        ("/login/*", loginBehavior)] |}.

(** ** Patterns *)

Definition plain (p : string) : bool := str_all (fun c => negb (Ascii.eqb c "*" || Ascii.eqb c "?")) p.

Lemma plain_cons c p : plain (String.String c p) = true -> Ascii.eqb c "*" = false /\ Ascii.eqb c "?" = false /\ plain p = true.
Proof. unfold plain. cbn [str_all]. intros H. by destruct (Ascii.eqb c "*"), (Ascii.eqb c "?"). Qed.

(** A text without wildcards matches itself. *)
Lemma match_exact p : plain p = true -> forall s, path_match p s = String.eqb p s.
Proof.
  induction p as [|c p IH]; intros Hp s; [by destruct s|]. apply plain_cons in Hp as (Hs & Hq & Hp). cbn [path_match]. rewrite Hs.
  destruct s as [|d s]; [done|]. rewrite Hq, IH by done. cbn. by destruct (Ascii.eqb c d).
Qed.

(** With a star at its end it matches what it begins. *)
Lemma match_prefix p : plain p = true -> forall s, path_match (p +:+ "*") s = startsWith s p.
Proof.
  unfold startsWith. induction p as [|c p IH]; intros Hp s.
  - cbn [String.append path_match Ascii.eqb]. change (Ascii.eqb "*" "*") with true. cbv iota. destruct s as [|d s]; [done|]. cbn [orb String.prefix].
    induction s as [|e s IHs]; [done|exact IHs].
  - apply plain_cons in Hp as (Hs & Hq & Hp). cbn [String.append path_match]. rewrite Hs. destruct s as [|d s]; [done|].
    rewrite Hq, IH by done. cbn [orb String.prefix]. destruct (Ascii.eqb_spec c d) as [->|Hn]; destruct (Ascii.ascii_dec _ _); done.
Qed.

(** What begins with a longer text begins with the shorter one, and two texts of
    which neither begins the other begin nothing in common. *)
Lemma prefix_weaken p q s : String.prefix p q = true -> startsWith s q = true -> startsWith s p = true.
Proof.
  unfold startsWith. intros [u ->]%prefix_spec [v ->]%prefix_spec. apply prefix_spec. exists (u +:+ v). by rewrite str_app_assoc.
Qed.

Lemma prefix_apart p q s : String.prefix p q = false -> String.prefix q p = false -> startsWith s p = true -> startsWith s q = false.
Proof.
  unfold startsWith. revert q s. induction p as [|c p IH]; intros q s Hpq Hqp Hs; [by destruct q|]. destruct q as [|d q]; [done|]. destruct s as [|e s]; [done|].
  cbn [String.prefix] in *. destruct (Ascii.ascii_dec c e) as [->|]; [|done]. destruct (Ascii.ascii_dec d e) as [->|Hn]; [|done].
  destruct (Ascii.ascii_dec e e); [|done]. by apply (IH q s).
Qed.

Lemma eqb_startsWith q s : String.eqb q s = true -> startsWith s q = true.
Proof. intros <-%String.eqb_eq. apply prefix_spec. exists "". by rewrite str_app_nil_r. Qed.

(** Which behaviour a path takes, pattern by pattern. *)
Lemma route_site domain s :
  route (site_distribution domain) s =
    if startsWith s "/login" then {| origin := LoginPages; gated := false; allowedMethods := ALLOW_GET_HEAD; originRequestPolicy := NoPolicy; rewrites := true |}
    else if startsWith s "/auth-verify" then authBehavior AuthVerify
    else if startsWith s "/auth-login" then authBehavior AuthLogin
    else if String.eqb "/auth-signout" s then authBehavior AuthSignout
    else defaultBehavior (site_distribution domain).
Proof.
  unfold route. cbn [additionalBehaviors site_distribution List.find fst].
  rewrite (match_prefix "/login"), (match_prefix "/auth-verify"), (match_prefix "/auth-login"), (match_exact "/auth-signout") by done.
  by repeat (match goal with |- context [if ?b then _ else _] => destruct b end; cbn [snd]).
Qed.

Lemma route_tenant parent s :
  route (tenant_distribution parent) s =
    if startsWith s "/login/callback" then tenantEndpoint AuthVerify
    else if startsWith s "/logout" then tenantEndpoint AuthSignout
    else if String.eqb "/login" s || startsWith s "/login/" then loginBehavior
    else defaultBehavior (tenant_distribution parent).
Proof.
  unfold route. cbn [additionalBehaviors tenant_distribution List.find fst].
  rewrite (match_prefix "/login/callback"), (match_prefix "/logout"), (match_exact "/login"), (match_prefix "/login/") by done.
  by repeat (match goal with |- context [if ?b then _ else _] => destruct b end; cbn [snd orb]).
Qed.

(** ** One site *)

(** Cases of a path by what it begins with; the cases that exclude each other
    are gone. *)
Ltac path_cases s := repeat
  match goal with
  | |- context [startsWith s ?p] => let E := fresh "E" in destruct (startsWith s p) eqn:E
  | |- context [String.eqb ?p s] => let E := fresh "E" in destruct (String.eqb p s) eqn:E; [apply eqb_startsWith in E|]
  end; try match goal with
  | H1 : startsWith s ?p = true, H2 : startsWith s ?q = true |- _ => by rewrite (prefix_apart p q s) in H2
  | H1 : startsWith s ?q = true, H2 : startsWith s ?p = false |- _ => by rewrite (prefix_weaken p q s) in H2
  end.

(** C16 (Only pages and endpoints are outside the gate): the application is
    reached behind the edge check and nothing else is; a path avoids the check
    exactly when it begins like the login pages or one of the endpoints or is the
    sign-out; each endpoint is reached by its own paths alone, by every method
    and under its own host. *)
Theorem site_routing domain s :
  let b := route (site_distribution domain) s in
  (gated b = true <-> origin b = Application) /\
  (gated b = true <-> startsWith s "/login" = false /\ startsWith s "/auth-verify" = false /\ startsWith s "/auth-login" = false /\ s <> "/auth-signout") /\
  (origin b = LoginPages <-> startsWith s "/login" = true) /\
  (origin b = FunctionUrl AuthVerify <-> startsWith s "/auth-verify" = true) /\
  (origin b = FunctionUrl AuthLogin <-> startsWith s "/auth-login" = true) /\
  (origin b = FunctionUrl AuthSignout <-> s = "/auth-signout") /\
  (forall e, origin b = FunctionUrl e -> allowedMethods b = ALLOW_ALL /\ forall viewer own, origin_host b viewer own = own).
Proof.
  intros b. unfold b. rewrite route_site.
  assert (s = "/auth-signout" <-> String.eqb "/auth-signout" s = true) as ->.
  { rewrite String.eqb_eq. by split. }
  path_cases s; cbn; split_and!; intros; naive_solver.
Qed.

(** The path a browser asks the host of an address for. *)
Definition path_at (host url : string) : option string :=
  let base := "https://" +:+ host in
  if startsWith url base then head (split "#" (str_drop (String.length base) url)) else None.

Lemma path_at_link host path fragment : char_in "#" path = false -> path_at host ("https://" +:+ host +:+ path +:+ "#" +:+ fragment) = Some path.
Proof.
  intros Hp. unfold path_at. rewrite <- (str_app_assoc "https://" host). unfold startsWith. rewrite prefix_app, str_drop_app.
  change ("#" +:+ fragment) with (String.String "#" fragment). by rewrite split_cons.
Qed.

(** Also (The pages work): the mailed link opens the page that confirms it; the
    login page, and what both pages load, is an object of the bucket; what they
    post reaches the endpoint that answers it, outside the gate. *)
Theorem site_pages_served domain token :
  let at_ path := route (site_distribution domain) path in
  let page path := origin (at_ path) = LoginPages /\ served (origin_uri (at_ path) path) = true in
  (exists path, path_at domain (MagicLink.buildMagicLinkUrl domain token) = Some path /\ page path /\
     origin_uri (at_ path) path = "/login-callback.html") /\
  page "/login" /\ page "/login.css" /\ page "/login.js" /\ page "/login-callback.css" /\ page "/login-callback.js" /\
  (forall path e, (path, e) ∈ [("/auth-login", AuthLogin); ("/auth-verify", AuthVerify)] ->
     origin (at_ path) = FunctionUrl e /\ allowedMethods (at_ path) = ALLOW_ALL /\ gated (at_ path) = false).
Proof.
  intros at_ page. split; [|split_and!; try done].
  - exists "/login/callback". split; [exact (path_at_link domain "/login/callback" ("token=" +:+ token) eq_refl)|done].
  - intros path e Hin. repeat (apply elem_of_cons in Hin as [Hin|Hin]; [by simplify_eq|]). by apply elem_of_nil in Hin.
Qed.

(** ** All tenants *)

(** Also (The gate of the shared distribution): a path avoids the check exactly
    when it is [/login], lies under it, or begins with [/logout]; the two
    functions answer what begins with [/login/callback] and [/logout], and are
    told the viewer's host, from which they take the tenant; the rest is the
    bucket. *)
Theorem tenant_routing parent s viewer own :
  let b := route (tenant_distribution parent) s in
  (gated b = true <-> s <> "/login" /\ startsWith s "/login/" = false /\ startsWith s "/logout" = false) /\
  (origin b = FunctionUrl AuthVerify <-> startsWith s "/login/callback" = true) /\
  (origin b = FunctionUrl AuthSignout <-> startsWith s "/logout" = true) /\
  (forall e, origin b = FunctionUrl e ->
     extractTenantSubdomain (Some (origin_host b viewer own)) parent DEFAULT_TENANT_PATTERN = extractTenantSubdomain (Some viewer) parent DEFAULT_TENANT_PATTERN) /\
  origin b <> Application.
Proof.
  intros b. unfold b. rewrite route_tenant.
  assert (s <> "/login" <-> String.eqb "/login" s = false) as ->.
  { rewrite String.eqb_neq. split; congruence. }
  destruct (String.eqb_spec "/login" s) as [<-|Hn]; cbn [orb].
  { cbn. split_and!; intros; naive_solver. }
  path_cases s; cbn; split_and!; intros; naive_solver.
Qed.

(** *** What the tenants' distribution does not serve *)

(** The address the mail gives is the tenant's site followed by the path of the
    page; [siteBaseUrl] is that of the administration. *)
Definition site_of (sub parent : string) : string := "https://" +:+ sub +:+ "." +:+ parent.

(** The pages the login pages post to, the page itself and the page of the link. *)
Lemma tenant_pages_unserved parent :
  let at_ path := route (tenant_distribution parent) path in
  (forall path, path ∈ ["/auth-login"; "/auth-verify"] -> origin (at_ path) = LoginPages /\ gated (at_ path) = true /\ allowedMethods (at_ path) = ALLOW_GET_HEAD) /\
  origin (at_ "/login") = LoginPages /\ served (origin_uri (at_ "/login") "/login") = false /\
  (forall path, path ∈ ["/login.css"; "/login.js"; "/login.html"] -> gated (at_ path) = true).
Proof.
  split_and!; [intros path Hin|done|done|intros path Hin];
    repeat (apply elem_of_cons in Hin as [->|Hin]; [done|]); by apply elem_of_nil in Hin.
Qed.

Section endpoints.
Context {C : Type} `{TenantAuth C} (T : Z -> Prop) (D : delivery -> Prop).

(** Opened in a browser, which sends no body, the address of the mail signs
    nobody in: it is not a page but the endpoint, which answers without
    cookies. *)
Theorem mailed_link_is_refused parent cfg token (c : Container) (ev : HttpEvent) (s : TenantSite C) sub :
  siteBaseUrl cfg = site_of sub parent -> body ev = None ->
  (exists path, path_at (sub +:+ "." +:+ parent) (tenant_link cfg token) = Some path /\
     origin (route (tenant_distribution parent) path) = FunctionUrl AuthVerify) /\
  wp T D (sharedAuthVerify (Some parent) c ev) s (fun _ out => exists c' r, out = Ok (c', r) /\
    match r with Ok resp => r_cookies resp = [] /\ statusCode resp <> 200 | Throw _ => True end).
Proof.
  intros Hbase Hbody. split.
  - exists "/login/callback". split; [|by rewrite route_tenant]. unfold tenant_link. rewrite Hbase. unfold site_of. rewrite str_app_assoc.
    exact (path_at_link (sub +:+ "." +:+ parent) "/login/callback" ("token=" +:+ token) eq_refl).
  - unfold sharedAuthVerify. eapply wp_weaken; [|apply (wp_with_tenant _ _ _ _ _ _ c ev _ s (fun _ _ resp => resp = authFailed))].
    + intros s' out (_ & c' & r & -> & Hr). exists c', r. split; [done|]. destruct r as [resp|e]; [|done].
      destruct Hr as [-> |[-> |[-> |(p & sub' & cfg' & _ & _ & _ & ->)]]]; done.
    + intros p sub' cfg' _ _. unfold redeem_or_refresh, parsed_body. by rewrite Hbody.
Qed.
End endpoints.

(** The [Path] of a cookie, and when a browser sends it (RFC 6265). *)
Definition cookie_path (set_cookie : string) : string :=
  match List.find (fun seg => startsWith seg " Path=") (split ";" set_cookie) with Some seg => str_drop 6 seg | None => "/" end.

Definition path_matches (cookiePath uri : string) : bool :=
  String.eqb cookiePath uri ||
  startsWith uri cookiePath && (endsWith cookiePath "/" || startsWith (str_drop (String.length cookiePath) uri) "/").

Lemma path_matches_prefix cookiePath uri : path_matches cookiePath uri = true -> startsWith uri cookiePath = true.
Proof. unfold path_matches. rewrite orb_true_iff, andb_true_iff. intros [E|[E _]]; [by apply eqb_startsWith|done]. Qed.

Lemma split_join_cons p x y r : char_in ";" (p +:+ x) = false ->
  split ";" (p +:+ join "; " (x :: y :: r)) = (p +:+ x) :: split ";" (" " +:+ join "; " (y :: r)).
Proof. intros Hx. rewrite join_cons, <- str_app_assoc. by apply split_cons. Qed.

Lemma refresh_cookie_path t maxAge domain sc : char_in ";" t = false -> char_in ";" (pretty maxAge) = false ->
  buildSetCookie "refresh-token" t {| c_sameSite := "Strict"; c_path := "/auth-verify"; c_domain := domain; c_maxAge := maxAge |} = Ok sc ->
  cookie_path sc = "/auth-verify".
Proof.
  intros Ht Hm. unfold buildSetCookie. cbn [c_path c_domain c_sameSite c_maxAge]. destruct (_ || _); [done|]. intros Hok.
  assert (forall x y : string, Ok (E := signin_error) x = Ok y -> x = y) as Hinj by (by intros x y [= ->]). apply Hinj in Hok as <-.
  unfold cookie_path. match goal with |- context [split ";" ?x] => change x with ("" +:+ x) end.
  rewrite split_join_cons by (cbn; exact Ht). rewrite split_join_cons by (cbn; exact Hm). by rewrite split_join_cons.
Qed.

(** Also (The refresh token reaches its endpoint, or never does): on one site the
    cookie a sign-in sets is sent to the endpoint's address; under the shared
    distribution a browser sends it to no address the endpoint answers. *)
Theorem refresh_cookie_reaches parent domain idToken t : t <> "" -> char_in ";" t = false ->
  (forall maxAge resp, signed_in domain idToken (Some t) maxAge = Ok resp ->
     exists sc, last (r_cookies resp) = Some sc /\ path_matches (cookie_path sc) "/auth-verify" = true /\
       origin (route (site_distribution domain) "/auth-verify") = FunctionUrl AuthVerify) /\
  (forall cookies uri, tenant_cookies domain idToken (Some t) = Ok cookies ->
     origin (route (tenant_distribution parent) uri) = FunctionUrl AuthVerify ->
     exists sc, last cookies = Some sc /\ path_matches (cookie_path sc) uri = false).
Proof.
  intros Hne Ht. split.
  - intros maxAge resp. unfold signed_in. destruct (buildSetCookie ID_TOKEN_COOKIE_NAME _ _); [|done]. rewrite (proj2 (String.eqb_neq _ _) Hne).
    destruct (buildSetCookie REFRESH_TOKEN_COOKIE_NAME _ _) as [sc|] eqn:Hc; [|done]. intros [= <-]. exists sc. split; [done|].
    apply refresh_cookie_path in Hc as ->; [done|done|by vm_compute].
  - intros cookies uri. unfold tenant_cookies. destruct (buildSetCookie "id-token" _ _); [|done]. cbn [result_bind].
    rewrite (proj2 (String.eqb_neq _ _) Hne). destruct (buildSetCookie "refresh-token" _ _) as [sc|] eqn:Hc; [|done]. intros [= <-] Hr.
    exists sc. split; [done|]. apply refresh_cookie_path in Hc as ->; [|done|by vm_compute]. apply not_true_iff_false. intros Hm%path_matches_prefix.
    destruct (tenant_routing parent uri "" "") as (_ & Hv & _). apply Hv in Hr. by rewrite (prefix_apart "/login/callback" "/auth-verify" uri) in Hm.
Qed.
(** Patterns, and some paths of both distributions. *)
Example paths_taken :
  map (path_match "/img/*.p?g") ["/img/a.png"; "/img/a/b.jpg.png"; "/img/.pg"; "/img/a.PNG"] = [true; true; false; false] /\
  map (fun p => let b := route (site_distribution "app.example.com") p in (gated b, origin_uri b p)) ["/"; "/login"; "/login/callback"; "/loginx"; "/auth-signout/x"] =
    [(true, "/"); (false, "/login.html"); (false, "/login-callback.html"); (false, "/loginx"); (true, "/auth-signout/x")] /\
  map (fun p => let b := route (tenant_distribution "tenants.example.com.") p in (gated b, origin b)) ["/"; "/login"; "/login.css"; "/login/callback"; "/logout"; "/auth-verify"] =
    [(true, LoginPages); (false, LoginPages); (true, LoginPages); (false, FunctionUrl AuthVerify); (false, FunctionUrl AuthSignout); (true, LoginPages)] /\
  domainNames (tenant_distribution "tenants.example.com.") = ["*.tenants.example.com"; "tenants.example.com"] /\
  map (path_matches "/auth-verify") ["/auth-verify"; "/auth-verify/x"; "/auth-verifyx"; "/login/callback"] = [true; true; false; false].
Proof. by vm_compute. Qed.
End CloudFront.
