(* ===== verification/SharedDeployment.v ===== *)
(** The deployment of the shared distribution: vestibulum-cdk
    [shared-distribution-identity/identity.ts], [triggers.ts],
    [admin-lambda.ts] and [reconciler.ts].

    The construct checks its properties, chooses the triggers of the pool, and
    gives every function a bundle, an environment and a role. As in
    [Deployment], the handlers are run under what they are given: those of
    [TenantAdmin] and [TenantTriggers], and the single-tenant ones of
    [PreSignup], [MagicLink] and [PreToken], which is what the bundles of the
    triggers hold. *)

From S2P Require Import Prelude JsString Prog SignIn PreSignup MagicLink Deployment.
From S2P Require TenantAdmin TenantHost TenantTriggers TtlCache PreToken EdgeCheck CdkRules CdkProps AuthEndpoints.
From Stdlib Require Import Ascii.

#[local] Open Scope js_scope.
#[local] Open Scope string_scope.
#[local] Open Scope Z_scope.

Module SharedDeployment.
Import Deployment.

(** ** identity.ts: properties *)

(** [Duration]s are in milliseconds; a conversion to a coarser unit throws when
    something would be lost. *)
Definition toMinutes (ms : Z) : option Z := if ms mod 60000 =? 0 then Some (ms / 60000) else None.
Definition toSeconds (ms : Z) : option Z := if ms mod 1000 =? 0 then Some (ms / 1000) else None.
Definition minutes (n : Z) : Z := n * 60000.

(** A regular expression is its source and its flags; functions of the consumer
    are their ARNs; [adminAllowedOrigins] is [adminFunctionUrlCors.allowedOrigins].
    What is only kept for reading (the cookie lifetime, the metrics flag, the
    topic) and the keys of the tables are left out. *)
Record SharedDistributionIdentityProps := {
  tenantSubdomainParent : string; sesIdentitySender : string; hostedZone : bool; existingWildcardCertificateArn : option string;
  certificateSubjectAlternativeNames : option (list string);
  tenantSubdomainPattern : option (string * string); reservedSubdomains : option (list string);
  idTokenValidity : option Z; jwksTtl : option Z;
  cloudFrontWebAclArn : option string; cognitoPoolWebAclArn : option string;
  adminAllowedOrigins : option (list string);
  p_preTokenGeneration : option string; p_postConfirmation : option string;
  costDosGuard : option (bool * option Z)
}.

Definition DEFAULT_TENANT_SUBDOMAIN_PATTERN : string * string := ("^[a-z][a-z0-9-]{1,62}[a-z0-9]$", "").

Definition DEFAULT_RESERVED_SUBDOMAINS : list string := ["admin"; "www"; "api"; "cdn"; "static"; "auth"; "mail"; "ftp"; "localhost"].

(** The functions of the construct. *)
Inductive function :=
| PreSignUp | CreateAuthChallenge | PreTokenGeneration | DefineAuthChallenge | VerifyAuthChallengeResponse
| AuthVerify | AuthSignout | Admin | Reconciler.

#[export] Instance function_eq_dec : EqDecision function.
Proof. solve_decision. Defined.

Inductive operation := PRE_SIGN_UP | CREATE_AUTH_CHALLENGE | PRE_TOKEN_GENERATION | DEFINE_AUTH_CHALLENGE | VERIFY_AUTH_CHALLENGE_RESPONSE | POST_CONFIRMATION.

#[export] Instance operation_eq_dec : EqDecision operation.
Proof. solve_decision. Defined.

Inductive trigger := BuiltIn (f : function) | Consumer (arn : string).

(** [UserPool.addTrigger], which refuses a second trigger of an operation. *)
Definition addTrigger (op : operation) (t : trigger) (pool : list (operation * trigger)) : option (list (operation * trigger)) :=
  if bool_decide (op ∈ map fst pool) then None else Some (pool ++ [(op, t)])%list.

Definition attachToUserPool (includeBuiltInPreTokenGeneration : bool) (pool : list (operation * trigger)) : option (list (operation * trigger)) :=
  pool ← addTrigger PRE_SIGN_UP (BuiltIn PreSignUp) pool;
  pool ← addTrigger CREATE_AUTH_CHALLENGE (BuiltIn CreateAuthChallenge) pool;
  pool ← (if includeBuiltInPreTokenGeneration then addTrigger PRE_TOKEN_GENERATION (BuiltIn PreTokenGeneration) pool else Some pool);
  pool ← addTrigger DEFINE_AUTH_CHALLENGE (BuiltIn DefineAuthChallenge) pool;
  addTrigger VERIFY_AUTH_CHALLENGE_RESPONSE (BuiltIn VerifyAuthChallengeResponse) pool.

Definition add_optional (op : operation) (arn : option string) (pool : list (operation * trigger)) : option (list (operation * trigger)) :=
  match arn with Some a => addTrigger op (Consumer a) pool | None => Some pool end.

Definition wire_triggers (p : SharedDistributionIdentityProps) : option (list (operation * trigger)) :=
  pool ← attachToUserPool (bool_decide (p_preTokenGeneration p = None)) [];
  pool ← add_optional PRE_TOKEN_GENERATION (p_preTokenGeneration p) pool;
  add_optional POST_CONFIRMATION (p_postConfirmation p) pool.

Record SharedDistributionIdentity := {
  parent : string; sender : string; pattern : string * string; reserved : list string; idTokenMinutes : Z; jwksTtlMs : Z;
  certificate : CdkRules.CdkRules.wildcard_cert; triggers : list (operation * trigger); waf : CdkRules.CdkRules.Waf; sendsPerHourCap : option Z
}.

Inductive shared_error :=
| NoParent | BadSender | LossyDuration | IdTokenTooShort | JwksTtlTooShort | BadCertificate | DuplicateTrigger | NoWebAcl | WildcardCors
| Guard (e : CdkProps.CdkProps.guard_error).

Definition at_least (lo : Z) (v : option Z) (e : shared_error) : result shared_error Z :=
  match v with None => Throw LossyDuration | Some n => if n <? lo then Throw e else Ok n end.

(** [new AdminLambda]'s own check. *)
Definition check_cors (allowedOrigins : option (list string)) : result shared_error unit :=
  match allowedOrigins with
  | Some l => if existsb (String.eqb "*") l then Throw WildcardCors else Ok tt
  | None => Ok tt
  end.

Definition install_guard (g : option (bool * option Z)) : result shared_error (option Z) :=
  match g with
  | Some (true, cap) =>
      match CdkProps.CdkProps.installCostDosGuard true cap with Ok n => Ok (Some n) | Throw e => Throw (Guard e) end
  | _ => Ok None
  end.

Definition new_SharedDistributionIdentity (userPoolArn : string) (p : SharedDistributionIdentityProps) :
    result shared_error SharedDistributionIdentity :=
  let* _ := if String.eqb (tenantSubdomainParent p) "" then Throw NoParent else Ok tt in
  let* _ := if String.eqb (sesIdentitySender p) "" || negb (includes (sesIdentitySender p) "@") then Throw BadSender else Ok tt in
  let* idToken := at_least 5 (toMinutes (default (minutes 60) (idTokenValidity p))) IdTokenTooShort in
  let* _ := at_least 60 (toSeconds (default (minutes 15) (jwksTtl p))) JwksTtlTooShort in
  let* cert := or_throw (CdkRules.CdkRules.new_WildcardCert
    {| CdkRules.CdkRules.tenantSubdomainParent := tenantSubdomainParent p; CdkRules.CdkRules.hostedZone := hostedZone p;
       CdkRules.CdkRules.existingWildcardCertificateArn := existingWildcardCertificateArn p;
       CdkRules.CdkRules.certificateSubjectAlternativeNames := certificateSubjectAlternativeNames p |}) BadCertificate in
  let* wired := or_throw (wire_triggers p) DuplicateTrigger in
  let* acl := or_throw (CdkRules.CdkRules.new_Waf
    {| CdkRules.CdkRules.userPool := Some userPoolArn; CdkRules.CdkRules.cloudFrontWebAclArn := cloudFrontWebAclArn p;
       CdkRules.CdkRules.cognitoPoolWebAclArn := cognitoPoolWebAclArn p; CdkRules.CdkRules.cloudFrontRateLimit := None;
       CdkRules.CdkRules.cognitoInitiateAuthRateLimit := None; CdkRules.CdkRules.cognitoSignUpRateLimit := None |}) NoWebAcl in
  let* _ := check_cors (adminAllowedOrigins p) in
  let* cap := install_guard (costDosGuard p) in
  Ok {| parent := tenantSubdomainParent p; sender := sesIdentitySender p;
        pattern := default DEFAULT_TENANT_SUBDOMAIN_PATTERN (tenantSubdomainPattern p);
        reserved := default DEFAULT_RESERVED_SUBDOMAINS (reservedSubdomains p); idTokenMinutes := idToken;
        jwksTtlMs := default (minutes 15) (jwksTtl p); certificate := cert; triggers := wired; waf := acl; sendsPerHourCap := cap |}.

(** The methods of the construct. *)
Definition preTokenGeneration (i : SharedDistributionIdentity) (arn : string) : option (list (operation * trigger)) :=
  addTrigger PRE_TOKEN_GENERATION (Consumer arn) (triggers i).
Definition postConfirmation (i : SharedDistributionIdentity) (arn : string) : option (list (operation * trigger)) :=
  addTrigger POST_CONFIRMATION (Consumer arn) (triggers i).

(** *** What is made *)

Lemma at_least_spec lo v e n : at_least lo v e = Ok n -> v = Some n /\ lo <= n.
Proof. unfold at_least. destruct v as [m|]; [|done]. destruct (Z.ltb_spec m lo); [done|]. by intros [= ->]. Qed.

Lemma wired p l : wire_triggers p = Some l ->
  l = ([(PRE_SIGN_UP, BuiltIn PreSignUp); (CREATE_AUTH_CHALLENGE, BuiltIn CreateAuthChallenge)] ++
       match p_preTokenGeneration p with None => [(PRE_TOKEN_GENERATION, BuiltIn PreTokenGeneration)] | Some _ => [] end ++
       [(DEFINE_AUTH_CHALLENGE, BuiltIn DefineAuthChallenge); (VERIFY_AUTH_CHALLENGE_RESPONSE, BuiltIn VerifyAuthChallengeResponse)] ++
       match p_preTokenGeneration p with None => [] | Some a => [(PRE_TOKEN_GENERATION, Consumer a)] end ++
       match p_postConfirmation p with None => [] | Some a => [(POST_CONFIRMATION, Consumer a)] end)%list.
Proof.
  unfold wire_triggers. destruct (p_preTokenGeneration p) as [a|], (p_postConfirmation p) as [b|]; vm_compute; by intros [= <-].
Qed.

Lemma wire_triggers_total p : is_Some (wire_triggers p).
Proof. unfold wire_triggers. by destruct (p_preTokenGeneration p) as [a|], (p_postConfirmation p) as [b|]; eexists. Qed.

(** Also (The shared construct): it is refused exactly for one of the named
    reasons; what is made keeps the properties, has a certificate and both
    layers of rules, and every operation has at most one trigger, the
    tokens' always one. *)
Theorem shared_identity_made arn p i : new_SharedDistributionIdentity arn p = Ok i ->
  parent i = tenantSubdomainParent p /\ parent i <> "" /\ sender i = sesIdentitySender p /\ includes (sender i) "@" = true /\
  5 <= idTokenMinutes i /\ 60000 <= jwksTtlMs i /\
  (forall l, adminAllowedOrigins p = Some l -> "*" ∉ l) /\
  NoDup (map fst (triggers i)) /\ PRE_TOKEN_GENERATION ∈ map fst (triggers i) /\
  (POST_CONFIRMATION ∈ map fst (triggers i) <-> p_postConfirmation p <> None).
Proof.
  unfold new_SharedDistributionIdentity. intros H. binds H. injection H as <-. cbn [parent sender idTokenMinutes jwksTtlMs triggers].
  destruct (String.eqb_spec (tenantSubdomainParent p) "") as [|Hp]; [done|]. destruct (_ || _) eqn:Hs in E0; [done|].
  apply orb_false_iff in Hs as [_ Hs%negb_false_iff]. apply at_least_spec in E1 as [_ H1]. apply at_least_spec in E2 as [Hq H2].
  destruct (wire_triggers p) as [w|] eqn:Hw; [|done]. injection E4 as ->. apply wired in Hw.
  split; [done|]. split; [done|]. split; [done|]. split; [done|]. split; [done|]. split.
  { unfold toSeconds in Hq. destruct (_ =? 0); [|done]. injection Hq as <-.
    pose proof (Z.mul_div_le (default (minutes 15) (jwksTtl p)) 1000 ltac:(lia)). lia. }
  split. { intros l Hl Hin. unfold check_cors in E6. rewrite Hl in E6. destruct (existsb _ _) eqn:Hx; [done|].
           apply not_true_iff_false in Hx. apply Hx, existsb_exists. exists "*". by split; [apply list_elem_of_In|]. }
  rewrite Hw. destruct (p_preTokenGeneration p), (p_postConfirmation p); cbn; (split; [by apply (bool_decide_unpack _); vm_compute|]);
    (split; [set_solver|split; [intros ? ; done || set_solver|set_solver]]).
Qed.

(** The method that is said to replace the tokens' trigger where none is wired
    always throws: one always is. *)
Lemma late_trigger_refused arn p i fn : new_SharedDistributionIdentity arn p = Ok i -> preTokenGeneration i fn = None.
Proof.
  intros Hi. apply shared_identity_made in Hi as (_ & _ & _ & _ & _ & _ & _ & _ & Hin & _). unfold preTokenGeneration, addTrigger.
  by rewrite bool_decide_true.
Qed.

(** ** Bundles and environments *)

(** The directory of [lambda-bundles/] a function is made from. Those of the
    triggers are the single-tenant ones: their entries
    ([scripts/lambda-entries/]) call the factories of [PreSignup], [MagicLink]
    and [PreToken], the last with a resolver that claims nothing. *)
Definition bundle (f : function) : string :=
  match f with
  | PreSignUp => "pre-signup" | CreateAuthChallenge => "create-auth" | PreTokenGeneration => "pre-token-generation"
  | DefineAuthChallenge => "define-auth" | VerifyAuthChallengeResponse => "verify-auth"
  | AuthVerify => "shared-auth-verify" | AuthSignout => "shared-auth-signout" | Admin => "admin" | Reconciler => "reconciler"
  end.

(** The entry of [pre-token-generation]. *)
Definition pre_token_entry (ev : PreToken.TokenEvent) : list PreToken.handler_error * result PreToken.handler_error PreToken.TokenEvent :=
  PreToken.createPreTokenGenerationHandler None (fun _ => Ok PreToken.empty_output) ev.

(** The names CloudFormation gives. *)
Record Names := { clientConfigTableName : string; reservationsTableName : string; poolId : string; region : string }.

Definition CLIENT_CONFIG_TABLE : string := "VESTIBULUM_CLIENT_CONFIG_TABLE".
Definition TENANT_PARENT : string := "VESTIBULUM_TENANT_PARENT".
Definition RESERVATIONS_TABLE : string := "VESTIBULUM_RESERVATIONS_TABLE".
Definition IDEMPOTENCY_TABLE : string := "VESTIBULUM_IDEMPOTENCY_TABLE".

Section deployment.
Context (d : Names) (i : SharedDistributionIdentity).

Definition commonEnv : list (string * string) := [(CLIENT_CONFIG_TABLE, clientConfigTableName d)].

Definition admin_environment : list (string * string) :=
  [(RuntimeEnv.COGNITO_USER_POOL_ID, poolId d); (CLIENT_CONFIG_TABLE, clientConfigTableName d);
   (IDEMPOTENCY_TABLE, clientConfigTableName d +:+ "-idempotency"); (RESERVATIONS_TABLE, reservationsTableName d);
   (TENANT_PARENT, parent i)].

Definition reconciler_environment : list (string * string) :=
  [(RuntimeEnv.COGNITO_USER_POOL_ID, poolId d); (CLIENT_CONFIG_TABLE, clientConfigTableName d)].

Definition environment (f : function) : list (string * string) :=
  match f with
  | PreSignUp | PreTokenGeneration | DefineAuthChallenge => commonEnv
  | CreateAuthChallenge =>
      (commonEnv ++ [(RuntimeEnv.SES_FROM, sender i); (SES_REGION, region d); (RuntimeEnv.ENROLLMENT, "self-signup")])%list
  | VerifyAuthChallengeResponse => (commonEnv ++ [(RuntimeEnv.ENROLLMENT, "self-signup")])%list
  | AuthVerify | AuthSignout => (commonEnv ++ [(TENANT_PARENT, parent i)])%list
  | Admin => admin_environment
  | Reconciler => reconciler_environment
  end.

Definition env_of (f : function) : process_env := fun name => snd <$> List.find (fun kv => String.eqb kv.1 name) (environment f).

(** ** Roles *)

Context `{AwsIam}.

Definition grantAuthVerifyCognito : Statement :=
  allow ["cognito-idp:RespondToAuthChallenge"; "cognito-idp:InitiateAuth"] (Pool (poolId d)).

Definition admin_role : list Statement :=
  [allow ["cognito-idp:CreateUserPoolClient"; "cognito-idp:DeleteUserPoolClient"; "cognito-idp:ListUserPoolClients";
          "cognito-idp:AdminUserGlobalSignOut"; "cognito-idp:ListUsers"] (Pool (poolId d));
   grantReadWriteData ClientConfigTable; grantReadData TokenTable; grantReadWriteData ReservationsTable].

Definition reconciler_role : list Statement :=
  [allow ["cognito-idp:ListUserPoolClients"] (Pool (poolId d)); grantReadData ClientConfigTable].

Definition role (f : function) : list Statement :=
  match f with
  | PreSignUp | CreateAuthChallenge | PreTokenGeneration | AuthSignout => [grantReadData ClientConfigTable]
  | DefineAuthChallenge | VerifyAuthChallengeResponse => []
  | AuthVerify => [grantReadData ClientConfigTable; grantAuthVerifyCognito]
  | Admin => admin_role
  | Reconciler => reconciler_role
  end.

(** What a call of the administration asks for; a transaction asks for the
    actions of its parts. *)
Definition admin_needs {X} (c : TenantAdmin.cmd X) : Request :=
  match c with
  | TenantAdmin.GetIdem _ => call IdempotencyTable "dynamodb:GetItem"
  | TenantAdmin.PutIdem _ _ => call IdempotencyTable "dynamodb:PutItem"
  | TenantAdmin.Reserve _ _ _ _ => call ReservationsTable "dynamodb:PutItem"
  | TenantAdmin.DeleteReservation _ => call ReservationsTable "dynamodb:DeleteItem"
  | TenantAdmin.CreateUserPoolClient _ => call (Pool (poolId d)) "cognito-idp:CreateUserPoolClient"
  | TenantAdmin.DeleteUserPoolClient _ => call (Pool (poolId d)) "cognito-idp:DeleteUserPoolClient"
  | TenantAdmin.PutConfig _ _ => call ClientConfigTable "dynamodb:PutItem"
  | TenantAdmin.UpdateConfig _ _ _ => call ClientConfigTable "dynamodb:UpdateItem"
  | TenantAdmin.DeleteConfig _ => call ClientConfigTable "dynamodb:DeleteItem"
  | TenantAdmin.QueryTenant _ => call ClientConfigTable "dynamodb:Query"
  | TenantAdmin.ListUsers _ => call (Pool (poolId d)) "cognito-idp:ListUsers"
  | TenantAdmin.GlobalSignOut _ => call (Pool (poolId d)) "cognito-idp:AdminUserGlobalSignOut"
  | TenantAdmin.ListClients _ => call (Pool (poolId d)) "cognito-idp:ListUserPoolClients"
  | TenantAdmin.Scan _ _ => call ClientConfigTable "dynamodb:Scan"
  end.

(** What the triggers and endpoints ask for; a refresh is authorised like the
    sign-in it continues. *)
Definition tenant_needs {X} (c : TenantTriggers.tcmd X) : Request :=
  match c with
  | TenantTriggers.Inner c => needs c
  | TenantTriggers.GetConfig _ => call ClientConfigTable "dynamodb:GetItem"
  | TenantTriggers.QuerySubdomain _ => call ClientConfigTable "dynamodb:Query"
  | TenantTriggers.Tokens (TenantTriggers.RespondToChallenge _ _ _ _) => call (Pool (poolId d)) "cognito-idp:RespondToAuthChallenge"
  | TenantTriggers.Tokens (TenantTriggers.GetTokensFromRefreshToken _ _) => call (Pool (poolId d)) "cognito-idp:InitiateAuth"
  end.

Lemma no_denies f x r : Forall (fun st => deny st && matches st x r = false) (role f).
Proof. destruct f; repeat (apply Forall_cons; split; [done|]); by apply Forall_nil. Qed.

Lemma allowed_call f x a acts : allow acts x ∈ role f -> a ∈ acts -> permits (role f) (call x a) = true.
Proof.
  intros Hin Ha. apply (permits_intro _ _ _ (allow acts x)); [done|done| |apply no_denies].
  unfold matches, allow. cbn. rewrite bool_decide_true, !andb_true_r by set_solver. apply existsb_exists. exists a.
  split; [by apply list_elem_of_In|]. apply String.eqb_refl.
Qed.

Notation admin_ok f := (fun X (c : TenantAdmin.cmd X) => permits (role f) (admin_needs c) = true).
Notation tenant_ok f := (fun X (c : TenantTriggers.tcmd X) => permits (role f) (tenant_needs c) = true).

Ltac by_grant acts := apply (allowed_call _ _ _ acts);
  [cbn [role]; unfold admin_role, reconciler_role, grantAuthVerifyCognito, grantReadData, grantReadWriteData; set_solver
  |try (apply elem_of_app); destruct read_actions as (? & ? & ?); destruct write_actions as (? & ? & ?); set_solver].
Ltac by_read := let acts := constr:(READ_DATA_ACTIONS) in by_grant acts.
Ltac by_read_write := by_grant (READ_DATA_ACTIONS ++ WRITE_DATA_ACTIONS)%list.

(** All the administration asks for is granted, but for the records of earlier
    requests, whose table is no statement's. *)
Lemma admin_granted {X} (c : TenantAdmin.cmd X) :
  permits (role Admin) (admin_needs c) =
    match c with TenantAdmin.GetIdem _ | TenantAdmin.PutIdem _ _ => false | _ => true end.
Proof.
  destruct c; cbn [admin_needs];
    try (by_read_write); try (apply (allowed_call Admin (Pool (poolId d)) _ ["cognito-idp:CreateUserPoolClient"; "cognito-idp:DeleteUserPoolClient"; "cognito-idp:ListUserPoolClients";
              "cognito-idp:AdminUserGlobalSignOut"; "cognito-idp:ListUsers"]); cbn [role]; unfold admin_role; set_solver).
  all: unfold permits, permits_on, matches; cbn; by rewrite ?andb_false_r.
Qed.

(** *** The endpoints and the reconciler *)

Lemma sends_getOrLoad {B} f m key loader (k : TenantTriggers.row_memo -> result TenantTriggers.trigger_error (option TenantTriggers.ClientConfigRow) -> TenantTriggers.tprog B) :
  sends (tenant_ok f) loader -> (forall m r, sends (tenant_ok f) (k m r)) -> sends (tenant_ok f) (TenantTriggers.getOrLoad m key loader k).
Proof. intros Hl Hk now. destruct (TtlCache.recall m key now); [apply Hk|]. apply sends_attempt; [done|]. intros r. apply Hk. Qed.

Lemma sends_by_subdomain f sub : grantReadData ClientConfigTable ∈ role f -> sends (tenant_ok f) (TenantTriggers.load_by_subdomain sub).
Proof.
  intros Hr. apply sends_await.
  - split; [|by intros []]. apply (allowed_call f _ _ READ_DATA_ACTIONS); [done|apply read_actions].
  - intros [[id item]|]; [|done]. unfold TenantTriggers.parsed. by destruct (TenantTriggers.parseRow id item).
Qed.

Lemma sends_with_tenant f p unconfigured invalid notFound c ev k : grantReadData ClientConfigTable ∈ role f ->
  (forall domain cfg, sends (tenant_ok f) (k domain cfg)) ->
  sends (tenant_ok f) (TenantTriggers.with_tenant p unconfigured invalid notFound c ev k).
Proof.
  intros Hr Hk. unfold TenantTriggers.with_tenant. destruct (String.eqb _ ""); [done|]. destruct (TenantHost.extractTenantSubdomain _ _ _); [|done].
  apply sends_getOrLoad; [by apply sends_by_subdomain|]. intros m [[cfg|]|e]; [|done..]. apply sends_attempt; [apply Hk|done].
Qed.

Lemma sends_exchange domain c : sends (tenant_ok AuthVerify) (TenantTriggers.exchange domain c).
Proof.
  split.
  - destruct c; by_grant ["cognito-idp:RespondToAuthChallenge"; "cognito-idp:InitiateAuth"].
  - intros [out|]; [|done]. unfold TenantTriggers.session_response. destruct (AuthEndpoints.IdToken out); [|done]. destruct (String.eqb _ ""); [done|].
    by destruct (TenantTriggers.tenant_cookies _ _ _).
Qed.

Lemma sends_shared_verify c ev : sends (tenant_ok AuthVerify) (TenantTriggers.sharedAuthVerify (env_of AuthVerify TENANT_PARENT) c ev).
Proof.
  apply sends_with_tenant; [cbn [role]; set_solver|]. intros domain cfg. unfold TenantTriggers.redeem_or_refresh.
  repeat (case_match; try done); apply sends_exchange.
Qed.

Lemma sends_shared_signout c ev : sends (tenant_ok AuthSignout) (TenantTriggers.sharedAuthSignout (env_of AuthSignout TENANT_PARENT) c ev).
Proof.
  apply sends_with_tenant; [cbn [role]; set_solver|]. intros domain cfg. by destruct (TenantTriggers.clear_cookies domain).
Qed.

Lemma sends_list_clients {A} f fuel token acc (k : list string -> TenantAdmin.prog A) :
  (forall t, permits (role f) (admin_needs (TenantAdmin.ListClients t)) = true) -> (forall l, sends (admin_ok f) (k l)) ->
  sends (admin_ok f) (TenantAdmin.list_clients fuel token acc k).
Proof.
  intros Hl Hk. revert token acc. induction fuel as [|fuel IH]; intros token acc; [done|]. split; [apply Hl|].
  intros [[ids next]|]; [|done]. cbn [fst snd]. destruct next as [n|]; [|apply Hk]. destruct (String.eqb n ""); [apply Hk|apply IH].
Qed.

Lemma sends_scan_config {A} f fuel start acc (k : list string * gmap string (string * string) -> TenantAdmin.prog A) :
  (forall s n, permits (role f) (admin_needs (TenantAdmin.Scan s n)) = true) -> (forall l, sends (admin_ok f) (k l)) ->
  sends (admin_ok f) (TenantAdmin.scan_config fuel start acc k).
Proof.
  intros Hl Hk. revert start acc. induction fuel as [|fuel IH]; intros start acc; [done|]. split; [apply Hl|].
  intros [[rows [n|]]|]; [apply IH|apply Hk|done].
Qed.

Lemma sends_reconciler fuel : sends (admin_ok Reconciler) (TenantAdmin.runReconciler fuel).
Proof.
  apply sends_list_clients; [intros t; by_grant ["cognito-idp:ListUserPoolClients"]|]. intros l.
  apply sends_scan_config; [intros s n; by_read|]. intros acc. unfold TenantAdmin.report_orphans, TenantAdmin.emit_unless_nil. cbv zeta.
  by repeat case_match.
Qed.

(** *** The administration *)

Definition no_record X (c : TenantAdmin.cmd X) : Prop := match c with TenantAdmin.GetIdem _ | TenantAdmin.PutIdem _ _ => False | _ => True end.

Lemma sends_try_catch {A B} (p : TenantAdmin.prog A) (ok_ : A -> B) (err : TenantAdmin.admin_error -> B) :
  sends no_record p -> sends no_record (try_catch (F := TenantAdmin.admin_error) p ok_ err).
Proof. induction p as [a|e|k IH|e p IH|X c k IH]; cbn; naive_solver. Qed.

Lemma sends_sign_out_all {A} names (k : TenantAdmin.prog A) : sends no_record k -> sends no_record (TenantAdmin.sign_out_all names k).
Proof. intros Hk. induction names as [|u l IH]; [done|]. cbn. by destruct (String.eqb u ""). Qed.

Lemma sends_revoke {A} fuel n (k : TenantAdmin.prog A) : sends no_record k -> sends no_record (TenantAdmin.revokeAllSessions fuel n k).
Proof.
  intros Hk. revert n. induction fuel as [|fuel IH]; intros n; [done|]. split; [done|]. intros [[us next]|]; [|done].
  apply sends_sign_out_all. cbn [snd]. destruct next; [apply IH|done].
Qed.

Definition creates (req : TenantAdmin.AdminRequest) : bool := match req with TenantAdmin.CreateTenant _ => true | _ => false end.

Lemma sends_dispatch fuel encode decode req : creates req = false ->
  sends no_record (TenantAdmin.dispatch (parent i) fuel encode decode req).
Proof.
  destruct req as [r|r|r|t|c l]; [done|..]; intros _; apply sends_try_catch.
  - split; [done|]. intros [[[id row]|]|]; [|done..]. intros ms. destruct (JsDate.toISOString ms); [|done]. split; [done|]. by intros [].
  - split; [done|]. intros [[[id row]|]|]; [|done..]. cbv zeta.
    match goal with |- context [TenantAdmin.revokeAllSessions _ _ ?rest] => assert (sends no_record rest) end.
    { split; [done|]. intros []; [|done]. split; [done|]. by intros []. }
    destruct (TenantAdmin.revokeActiveSessions r); [by apply sends_revoke|done].
  - split; [done|]. intros [[kv|]|]; [|done..]. by destruct (TenantAdmin.to_row kv).
  - split; [done|]. intros [[rows next]|]; [|done]. cbn [fst]. by destruct (TenantAdmin.to_rows rows).
Qed.

#[local] Existing Instance TenantAdmin.admin_service.
Context `{TenantAdmin.Cognito}.

(** The services as the role sees them: a call it does not allow is an error. *)
Definition as_admin : Service TenantAdmin.World TenantAdmin.cmd TenantAdmin.cmd_error TenantAdmin.event :=
  {| perform X w c := if permits (role Admin) (admin_needs c) then TenantAdmin.effect w c else (w, Throw TenantAdmin.Unavailable);
     lost := TenantAdmin.Unavailable; record_event := TenantAdmin.emit_event |}.

Notation run_as_admin := (run (H := as_admin)).

(** A program that leaves the records alone runs as if it might do anything. *)
Lemma run_unhindered {A} (p : TenantAdmin.prog A) : sends no_record p -> forall env n w, run_as_admin p env n w = run p env n w.
Proof.
  induction p as [a|e|k IH|e p IH|X c k IH]; intros Hp env n w; cbn [run]; [done|done|by apply IH|by apply IH|].
  destruct Hp as [Hc Hk].
  assert (forall dv, deliver (H := as_admin) dv w c = deliver dv w c) as Hd.
  { intros dv. assert (permits (role Admin) (admin_needs c) = true) as Hg by (rewrite admin_granted; by destruct c).
    unfold deliver. destruct dv; cbn [perform as_admin lost]; by rewrite ?Hg. }
  rewrite Hd. destruct (deliver _ w c) as [w' r]. by apply IH.
Qed.

(** C15 (What the deployed roles let through): the two endpoints and the
    reconciler send nothing their roles refuse; under its role the
    administration answers every request but a creation as it would with all
    rights, whatever is lost; a creation is answered with an internal error and
    changes nothing, since the records of earlier requests are in a table that
    no statement names. *)
Theorem shared_roles :
  (forall c ev, sends (tenant_ok AuthVerify) (TenantTriggers.sharedAuthVerify (env_of AuthVerify TENANT_PARENT) c ev)) /\
  (forall c ev, sends (tenant_ok AuthSignout) (TenantTriggers.sharedAuthSignout (env_of AuthSignout TENANT_PARENT) c ev)) /\
  (forall fuel, sends (admin_ok Reconciler) (TenantAdmin.runReconciler fuel)) /\
  (forall fuel encode decode req env n w,
     let answer := TenantAdmin.dispatch (parent i) fuel encode decode req in
     run_as_admin answer env n w = if creates req then (w, Ok (500, TenantAdmin.INTERNAL_ERROR)) else run answer env n w).
Proof.
  split; [apply sends_shared_verify|]. split; [apply sends_shared_signout|]. split; [apply sends_reconciler|].
  intros fuel encode decode req env n w answer. destruct (creates req) eqn:Hc; [|by apply run_unhindered, sends_dispatch].
  destruct req as [r| | | |]; [|done..]. unfold answer, TenantAdmin.dispatch, TenantAdmin.createTenant, TenantAdmin.call.
  cbn [try_catch run]. unfold deliver.
  assert (perform (Service := as_admin) w (TenantAdmin.GetIdem (TenantAdmin.compositeIdempotencyKey r)) = (w, Throw TenantAdmin.Unavailable)) as Hg.
  { cbn [perform as_admin]. by rewrite admin_granted. }
  destruct (env n).2; rewrite ?Hg; done.
Qed.

(** ** The bundles of the triggers *)

(** Also (Nobody signs in): with the environments they are given, the triggers of
    the shared pool refuse every sign-up, throw instead of issuing a challenge,
    accept no answer, and add no claim to a token, the tenant's included; no
    token row is written and no mail sent. *)
Theorem nobody_signs_in `{Digests} (T : Z -> Prop) (D : delivery -> Prop) (w : World) :
  (forall ev, exists reason, preSignup (env_of PreSignUp) ev = reject reason) /\
  (forall drawn cache ev, wp T D (createAuthChallenge (env_of CreateAuthChallenge) drawn cache ev) w (fun w' r =>
     r = Throw AuthenticationFailed /\ tokens w' = tokens w /\ mails w' = mails w)) /\
  (forall cache ev, wp T D (verifyAuthChallengeResponse (env_of VerifyAuthChallengeResponse) cache ev) w (fun w' r =>
     (forall c, r <> Ok (c, true)) /\ tokens w' = tokens w /\ mails w' = mails w)) /\
  (forall ev, exists ev', pre_token_entry ev = ([], Ok ev') /\ PreToken.claim_names (PreToken.id_token_claims (PreToken.response ev')) = []).
Proof.
  split; [|split; [|split]].
  - intros ev. unfold preSignup. change (allowed_domains (env_of PreSignUp)) with (Ok (E := signin_error) (@nil string)).
    destruct (_ && _); [by eexists|]. by eexists.
  - intros drawn cache ev. apply (wp_withFloor T D). unfold issue.
    change (create_config (env_of CreateAuthChallenge)) with (@None CreateConfig). cbn. split; [by split|]. by intros ms.
  - intros cache ev. unfold verifyAuthChallengeResponse. change (parseEnrollment _) with (Some self_signup). cbv iota beta.
    unfold resolveEmailHmacKeyFromEnv. change (env_value (env_of VerifyAuthChallengeResponse) RuntimeEnv.BOUNCE_HMAC_SECRET) with (@None string).
    cbn [attempt]. assert (forall c reason, wp T D (fail c reason) w (fun w' r => (forall c, r <> Ok (c, true)) /\ tokens w' = tokens w /\ mails w' = mails w)) as Hfail.
    { intros c reason. cbn. by split; [intros ? ?|]. }
    destruct (is_true _); [done|]. destruct (existsb _ _); [done|]. destruct (challengeAnswer ev) as [a|]; [|done].
    destruct (_ =? 0)%nat; [done|]. destruct (_ <? _)%nat; [done|]. destruct (classifyAnswer a) as [form|]; [|done].
    unfold redeem. cbv zeta. destruct (negb _); [done|]. destruct (p_token_hash _); [|done].
    change (env_value (env_of VerifyAuthChallengeResponse) RuntimeEnv.TOKEN_TABLE_NAME) with (@None string). cbn. by split; [intros ? ?|].
  - intros ev. unfold pre_token_entry, PreToken.createPreTokenGenerationHandler. cbn [PreToken.claimsToAddOrOverride PreToken.empty_output default from_option map].
    change (PreToken.first_reserved (Datatypes.id [])) with (@None string). cbv iota.
    destruct (PreToken.detectPreTokenEventVersion ev); eexists; (split; [reflexivity|]); [by destruct ev|].
    by rewrite PreToken.v2_id.
Qed.
End deployment.

(** ** The apex *)

Lemma strip_lengths s : (String.length (TenantHost.strip_trailing_dot s) <= String.length s <= S (String.length (TenantHost.strip_trailing_dot s)))%nat.
Proof. destruct (TenantHost.strip_trailing_dot_cases s) as [(t & -> & ->)|[_ ->]]; [rewrite str_length_app; cbn; lia|lia]. Qed.

Lemma lower_length s : String.length (toLowerCase s) = String.length s.
Proof. apply str_map_length. Qed.

Lemma without_port_length s : (String.length (TenantHost.without_port s) <= String.length s)%nat.
Proof.
  unfold TenantHost.without_port. rewrite <- (join_split ":" s) at 2. destruct (split ":" s) as [|x [|y l]]; cbn [head default from_option]; [cbn; lia|done|].
  rewrite join_cons, str_length_app. unfold Datatypes.id. lia.
Qed.

Lemma normalizeHost_length s : (String.length (TenantHost.normalizeHost s) <= String.length s)%nat.
Proof.
  unfold TenantHost.normalizeHost. pose proof (without_port_length s). pose proof (lower_length (TenantHost.without_port s)).
  destruct (endsWith _ _); [|lia]. pose proof (str_take_length (String.length (toLowerCase (TenantHost.without_port s)) - 1) (toLowerCase (TenantHost.without_port s))). lia.
Qed.

(** Also (The landing page is behind the gate): the default behaviour runs the
    check for every host of the distribution, and it finds no tenant in the
    parent itself, however that is written. *)
Theorem parent_host_refused parent pattern : TenantHost.edge_extractTenantSubdomain (Some parent) parent pattern = None.
Proof.
  destruct (TenantHost.edge_extractTenantSubdomain _ _ _) as [label|] eqn:E; [|done]. exfalso.
  apply TenantHost.edge_extract_spec in E as (h & [= <-] & E & _). apply TenantHost.extractTenantSubdomain_spec in E as (h & [= <-] & _ & Hne & _ & _ & E).
  apply (f_equal String.length) in E. rewrite !str_length_app in E.
  pose proof (strip_lengths parent). pose proof (strip_lengths (toLowerCase (TenantHost.without_port (TenantHost.normalizeHost parent)))).
  pose proof (lower_length (TenantHost.without_port (TenantHost.normalizeHost parent))). pose proof (without_port_length (TenantHost.normalizeHost parent)).
  pose proof (normalizeHost_length parent). destruct label; [done|]. cbn [String.length] in E. lia.
Qed.

(** The page of the parent host is refused by the edge. *)
Lemma apex_forbidden (cfg : EdgeCheck.EdgeConfig) `{EdgeCheck.AwsJwtVerify} cache req rest : EdgeCheck.request_host req = Some (EdgeCheck.TENANT_PARENT cfg) ->
  EdgeCheck.handler cfg cache (req :: rest) = EdgeCheck.refuse EdgeCheck.no_host (pair cache) \/
  EdgeCheck.handler cfg cache (req :: rest) = EdgeCheck.refuse EdgeCheck.host_not_tenant_shape (pair cache).
Proof.
  intros Hh. unfold EdgeCheck.handler. rewrite Hh. cbn [default from_option]. unfold Datatypes.id. destruct (String.eqb _ ""); [by left|].
  rewrite parent_host_refused. by right.
Qed.
(** ** A deployment *)

#[local] Existing Instance TenantAdmin.fresh_ids.
#[local] Existing Instance toy_iam.

#[local] Definition props0 : SharedDistributionIdentityProps :=
  {| tenantSubdomainParent := "tenants.example.com"; sesIdentitySender := "signin@example.com"; hostedZone := true;
     existingWildcardCertificateArn := None; certificateSubjectAlternativeNames := None; tenantSubdomainPattern := None; reservedSubdomains := None;
     idTokenValidity := None; jwksTtl := Some 90000; cloudFrontWebAclArn := None; cognitoPoolWebAclArn := None;
     adminAllowedOrigins := Some ["https://admin.example.com"]; p_preTokenGeneration := None; p_postConfirmation := Some "arn:post";
     costDosGuard := Some (true, Some 100) |}.

#[local] Definition names0 : Names :=
  {| clientConfigTableName := "config"; reservationsTableName := "reservations"; poolId := "pool"; region := "eu-central-1" |}.

#[local] Definition refused_of (p : SharedDistributionIdentityProps) : option shared_error :=
  match new_SharedDistributionIdentity "arn:pool" p with Ok _ => None | Throw e => Some e end.

#[local] Definition with_idToken (v : Z) : SharedDistributionIdentityProps :=
  {| tenantSubdomainParent := "tenants.example.com"; sesIdentitySender := "signin@example.com"; hostedZone := true;
     existingWildcardCertificateArn := None; certificateSubjectAlternativeNames := None; tenantSubdomainPattern := None; reservedSubdomains := None;
     idTokenValidity := Some v; jwksTtl := None; cloudFrontWebAclArn := None; cognitoPoolWebAclArn := None;
     adminAllowedOrigins := Some ["*"]; p_preTokenGeneration := Some "arn:pre"; p_postConfirmation := None; costDosGuard := None |}.

(** What is made of some properties, and a creation and a deletion under the
    administration's role. *)
Example shared_runs :
  match new_SharedDistributionIdentity "arn:pool" props0 with
  | Ok i =>
      map fst (triggers i) = [PRE_SIGN_UP; CREATE_AUTH_CHALLENGE; PRE_TOKEN_GENERATION; DEFINE_AUTH_CHALLENGE; VERIFY_AUTH_CHALLENGE_RESPONSE; POST_CONFIRMATION] /\
      certificate i = CdkRules.CdkRules.Requested "*.tenants.example.com" ["tenants.example.com"] /\ sendsPerHourCap i = Some 100 /\
      map (fun a => permits (role names0 Admin) (call ClientConfigTable a)) ["dynamodb:Query"; "dynamodb:DeleteTable"] = [true; false] /\
      snd (run (H := as_admin names0) (TenantAdmin.dispatch (parent i) 5 id Some (TenantAdmin.CreateTenant TenantAdmin.acme)) (delivered (fun _ => 0)) 0 TenantAdmin.empty_world) =
        Ok (500, TenantAdmin.INTERNAL_ERROR) /\
      snd (run (H := as_admin names0) (TenantAdmin.dispatch (parent i) 5 id Some (TenantAdmin.GetTenant "acme")) (delivered (fun _ => 0)) 0 TenantAdmin.empty_world) =
        Ok (404, TenantAdmin.ErrorMessage (TenantAdmin.TenantNotFoundError "acme"))
  | Throw _ => False
  end /\
  map (fun v => refused_of (with_idToken v)) [60000; 330000; 30000; 300000] =
    [Some IdTokenTooShort; Some LossyDuration; Some LossyDuration; Some WildcardCors].
Proof. by vm_compute. Qed.
End SharedDeployment.
