(* ===== verification/Metrics.v ===== *)
(** Metrics: how the handlers print them ([emitMetric], [emitSigninMetric] of
    vestibulum [lambda/]), the handles vestibulum-cdk builds for them
    ([metrics/index.ts]) and the alarms of its shared distribution
    ([admin-lambda.ts], [reconciler.ts]).

    A metric is printed as a line of JSON in the embedded metric format, from
    which CloudWatch takes one series per namespace, name and set of dimensions;
    a handle or an alarm sees the series with exactly its own dimensions. *)

From stdpp Require Import pretty.
From S2P Require Import Prelude JsString Json Prog SignIn.
From S2P Require TenantAdmin JwksFallback LegacyKv.
From Stdlib Require Import Ascii.

#[local] Open Scope js_scope.
#[local] Open Scope string_scope.
#[local] Open Scope Z_scope.

Module Metrics.

(** ** Printing *)

(** The arguments of [emitMetric], with the namespace of the module. *)
Record Emission := { e_namespace : string; e_name : string; e_value : Z; e_dimensions : list (string * string) }.

(** The directive, with the names of the dimensions. *)
Definition emf_directive (e : Emission) : JsonValue :=
  VObject [("Namespace", VString (e_namespace e)); ("Dimensions", VArray [VArray (map (fun kv => VString kv.1) (e_dimensions e))]);
           ("Metrics", VArray [VObject [("Name", VString (e_name e)); ("Unit", VString "Count")]])].

Definition aws_member (ms : Z) (e : Emission) : string * JsonValue :=
  ("_aws", VObject [("Timestamp", VNumber (pretty ms)); ("CloudWatchMetrics", VArray [emf_directive e])]).

(** [...dimensions], assigned one after the other. *)
Definition spread_dimensions (e : Emission) (o : JsonObject) : JsonObject :=
  fold_left (fun o kv => set_key kv.1 (VString kv.2) o) (e_dimensions e) o.

(** The sign-in handlers put the value after the dimensions, *)
Definition payload (ms : Z) (e : Emission) : JsonObject :=
  set_key (e_name e) (VNumber (pretty (e_value e))) (spread_dimensions e [aws_member ms e]).

Definition emitMetric (ms : Z) (e : Emission) : string := stringify (VObject (payload ms e)).

(** the administration before them. *)
Definition admin_payload (ms : Z) (e : Emission) : JsonObject :=
  spread_dimensions e (set_key (e_name e) (VNumber (pretty (e_value e))) [aws_member ms e]).

Definition admin_emitMetric (ms : Z) (e : Emission) : string := stringify (VObject (admin_payload ms e)).

(** ** CloudWatch *)

Record Series := { namespace : string; name : string; dimensions : gmap string string }.

#[export] Instance series_eq_dec : EqDecision Series.
Proof. solve_decision. Defined.

Definition as_string (v : JsonValue) : option string := match v with VString s => Some s | _ => None end.
Definition as_list (v : JsonValue) : option (list JsonValue) := match v with VArray l => Some l | _ => None end.
Definition member (v : JsonValue) (k : string) : option JsonValue := match v with VObject o => find_key k o | _ => None end.
Definition as_number (v : JsonValue) : option Z := match v with VNumber t => parseInt10 t | _ => None end.

(** One metric of one set of dimensions, both looked up in the root. *)
Definition datum (root : JsonValue) (ns : string) (keys : list string) (metric : JsonValue) : option (Series * Z) :=
  n ← member metric "Name" ≫= as_string;
  v ← member root n ≫= as_number;
  dims ← mapM (fun k => pair k <$> (member root k ≫= as_string)) keys;
  Some ({| namespace := ns; name := n; dimensions := list_to_map dims |}, v).

Definition directive (root d : JsonValue) : option (list (Series * Z)) :=
  ns ← member d "Namespace" ≫= as_string;
  sets ← member d "Dimensions" ≫= as_list;
  metrics ← member d "Metrics" ≫= as_list;
  keys ← mapM (fun s => as_list s ≫= mapM as_string) sets;
  mjoin <$> mapM (fun ks => mapM (datum root ns ks) metrics) keys.

(** What CloudWatch takes from a line. *)
Definition ingested (line : string) : list (Series * Z) :=
  default [] (
    root ← JSON_parse line;
    aws ← member root "_aws";
    ds ← member aws "CloudWatchMetrics" ≫= as_list;
    mjoin <$> mapM (directive root) ds).

Definition series_of (e : Emission) : Series :=
  {| namespace := e_namespace e; name := e_name e; dimensions := list_to_map (e_dimensions e) |}.

Definition well_formed (e : Emission) : Prop := NoDup ("_aws" :: e_name e :: map fst (e_dimensions e)) /\ 0 <= e_value e.

(** The members beside the directive, and a line with them in some order. *)
Definition dimension_members (e : Emission) : JsonObject := map (fun kv => (kv.1, VString kv.2)) (e_dimensions e).
Definition value_member (e : Emission) : string * JsonValue := (e_name e, VNumber (pretty (e_value e))).

Lemma fold_set_new (l : list (string * string)) : forall o, NoDup (map fst o ++ map fst l)%list ->
  fold_left (fun o kv => set_key kv.1 (VString kv.2) o) l o = (o ++ map (fun kv => (kv.1, VString kv.2)) l)%list.
Proof.
  induction l as [|[k v] l IH]; intros o Hn; cbn [fold_left map fst snd]; [by rewrite app_nil_r|]. cbn [map fst] in Hn.
  rewrite set_key_new, IH.
  - by rewrite <- app_assoc.
  - by rewrite map_app, <- app_assoc.
  - apply NoDup_app in Hn as (_ & Hd & _). intros Hin. by apply (Hd k Hin), list_elem_of_here.
Qed.

Lemma dimension_keys e : map fst (dimension_members e) = map fst (e_dimensions e).
Proof. unfold dimension_members. by rewrite map_map. Qed.

Lemma keys_distinct ms e l : well_formed e -> l ≡ₚ value_member e :: dimension_members e -> NoDup (map fst (aws_member ms e :: l)).
Proof. intros [Hn _] ->. cbn [map fst aws_member value_member]. by rewrite dimension_keys. Qed.

Lemma payload_members ms e : well_formed e ->
  payload ms e = (aws_member ms e :: dimension_members e ++ [value_member e])%list /\
  admin_payload ms e = aws_member ms e :: value_member e :: dimension_members e.
Proof.
  intros [Hn _]. rewrite <- (dimension_keys e) in Hn. unfold payload, admin_payload, spread_dimensions.
  pose proof Hn as [Ha Hr]%NoDup_cons. pose proof Hr as [Hv Hd]%NoDup_cons. rewrite dimension_keys in *. split.
  - rewrite fold_set_new; [|cbn; apply NoDup_cons; split; [set_solver|done]]. rewrite set_key_new; [done|].
    cbn [map fst app aws_member]. change (map _ (e_dimensions e)) with (dimension_members e). rewrite dimension_keys. set_solver.
  - rewrite set_key_new by set_solver. by rewrite fold_set_new.
Qed.

Lemma Forall_id_map {A} (P : A -> Prop) l : Forall P l -> Forall id (map P l).
Proof. induction 1; constructor; done. Qed.

Lemma root_wf ms e l : well_formed e -> 0 <= ms -> l ≡ₚ value_member e :: dimension_members e -> json_wf (VObject (aws_member ms e :: l)).
Proof.
  intros Hw Hms Hl. split; [by apply keys_distinct|]. apply Forall_id_map, Forall_cons; split.
  - cbn. rewrite JwksFallback.JwksFallback.number_literal_pretty by done. repeat (split || apply Forall_cons || apply Forall_nil); try done.
    all: try (apply (bool_decide_unpack _); by vm_compute).
    apply Forall_id_map, Forall_map, Forall_forall. done.
  - rewrite Hl. apply Forall_cons; split; [|apply Forall_map, Forall_forall; done]. cbn.
    destruct Hw as [_ Hv]. by apply JwksFallback.JwksFallback.number_literal_pretty.
Qed.

Lemma find_key_nodup k v (o : JsonObject) : NoDup (map fst o) -> (k, v) ∈ o -> find_key k o = Some v.
Proof.
  induction o as [|[k' v'] o IH]; intros Hn Hin; [by apply elem_of_nil in Hin|]. cbn in *. apply NoDup_cons in Hn as [Hk Hn].
  apply elem_of_cons in Hin as [[= <- <-]|Hin]; [by rewrite String.eqb_refl|].
  destruct (String.eqb_spec k' k) as [->|]; [|by apply IH]. destruct Hk. apply list_elem_of_fmap. by exists (k, v).
Qed.

Lemma mapM_some {A B} (f : A -> option B) l l' : Forall2 (fun x y => f x = Some y) l l' -> mapM f l = Some l'.
Proof. intros Hf. by apply mapM_Some_2. Qed.

(** What is taken from a line whose members beside the directive are those of the
    emission. *)
Lemma line_ingested ms e l : well_formed e -> 0 <= ms -> l ≡ₚ value_member e :: dimension_members e ->
  ingested (stringify (VObject (aws_member ms e :: l))) = [(series_of e, e_value e)].
Proof.
  intros Hw Hms Hl. pose proof (keys_distinct ms e l Hw Hl) as Hn. unfold ingested. rewrite JSON_parse_stringify by (by apply root_wf).
  set (root := VObject (aws_member ms e :: l)) in *.
  assert (forall k v, (k, v) ∈ value_member e :: dimension_members e -> member root k = Some v) as Hf.
  { intros k v Hin. apply find_key_nodup; [done|]. rewrite <- Hl in Hin. by apply list_elem_of_further. }
  assert (datum root (e_namespace e) (map fst (e_dimensions e)) (VObject [("Name", VString (e_name e)); ("Unit", VString "Count")]) = Some (series_of e, e_value e)) as Hd.
  { unfold datum. cbn [member find_key]. change (String.eqb "Name" "Name") with true. cbn [mbind option_bind as_string].
    rewrite (Hf _ (VNumber (pretty (e_value e)))) by apply list_elem_of_here. cbn [mbind option_bind as_number].
    destruct Hw as [_ Hv]. rewrite LegacyKv.LegacyKv.parseInt10_pretty by done. cbn [mbind option_bind].
    rewrite (mapM_some _ _ (e_dimensions e)); [done|]. apply Forall2_fmap_l, Forall_Forall2_diag, Forall_forall. intros [k v] Hin.
    change (pair k <$> (member root k ≫= as_string) = Some (k, v)). rewrite (Hf k (VString v)); [done|].
    apply list_elem_of_further, list_elem_of_fmap. by exists (k, v). }
  assert (directive root (emf_directive e) = Some [(series_of e, e_value e)]) as Hdir.
  { unfold directive. change (member (emf_directive e) "Namespace") with (Some (VString (e_namespace e))).
    change (member (emf_directive e) "Dimensions") with (Some (VArray [VArray (map (fun kv => VString kv.1) (e_dimensions e))])).
    change (member (emf_directive e) "Metrics") with (Some (VArray [VObject [("Name", VString (e_name e)); ("Unit", VString "Count")]])).
    cbn [mbind option_bind as_string as_list]. rewrite (mapM_some _ _ [map fst (e_dimensions e)]).
    - cbn [mbind option_bind]. rewrite (mapM_some _ _ [[(series_of e, e_value e)]]); [done|]. constructor; [|done].
      apply mapM_some. by constructor.
    - constructor; [|done]. apply mapM_some, Forall2_fmap_l, Forall2_fmap_r, Forall_Forall2_diag, Forall_forall. done. }
  cbn [mbind option_bind]. change (member root "_aws") with (Some (snd (aws_member ms e))).
  cbn [mbind option_bind]. change (member (snd (aws_member ms e)) "CloudWatchMetrics") with (Some (VArray [emf_directive e])).
  cbn [mbind option_bind as_list]. rewrite (mapM_some _ _ [[(series_of e, e_value e)]]); [done|]. by constructor.
Qed.

(** Also (What is printed is what is measured): from the line a sign-in handler or
    the administration prints for a metric, whose dimensions have names of their
    own, CloudWatch takes one datum: the value, in the series of the namespace,
    the name and the dimensions. *)
Theorem emission_ingested ms e : well_formed e -> 0 <= ms ->
  ingested (emitMetric ms e) = [(series_of e, e_value e)] /\ ingested (admin_emitMetric ms e) = [(series_of e, e_value e)].
Proof.
  intros Hw Hms. unfold emitMetric, admin_emitMetric. destruct (payload_members ms e Hw) as [-> ->].
  split; apply line_ingested; try done. by rewrite <- Permutation_cons_append.
Qed.

(** ** What the handlers emit *)

(** [CW_NAMESPACE], and the default of [emitSigninMetric]. *)
Definition CW_NAMESPACE : string := "Vestibulum/Identity".
Definition ADMIN_NAMESPACE : string := "Vestibulum/SharedDistribution".

Definition suppression_text (r : SuppressionReason) : string :=
  match r with
  | unknown_user => "unknown_user" | ineligible => "ineligible" | allow_list_down => "allow_list_down" | quarantined_user => "quarantined"
  | denylisted => "denylisted" | denylist_down => "denylist_down" | rate_limited => "rate_limited" | daily_cap => "daily_cap"
  | dependency_error => "dependency_error"
  end.
Definition request_text (o : RequestOutcome) : string :=
  match o with accepted => "accepted" | rate_limited_ip => "rate_limited" | auth_error => "auth_error" | store_error => "store_error" end.
Definition redeem_text (o : RedeemOutcome) : string :=
  match o with redeemed_ok => "ok" | no_binding => "no_binding" | expired => "expired" | no_session => "no_session" | rejected => "rejected" | redeem_error => "error" end.
Definition revocation_text (o : RevocationOutcome) : string :=
  match o with revoked => "revoked" | no_id_token => "no_id_token" | unverified => "unverified" | revocation_error => "error" end.

(** [emitSigninMetric]. *)
Definition emitSigninMetric (env : process_env) (metricName : string) (dims : list (string * string)) : Emission :=
  {| e_namespace := default CW_NAMESPACE (env "VESTIBULUM_METRICS_NAMESPACE"); e_name := metricName; e_value := 1; e_dimensions := dims |}.

Definition identity_metric (metricName : string) (value : Z) (dims : list (string * string)) : Emission :=
  {| e_namespace := CW_NAMESPACE; e_name := metricName; e_value := value; e_dimensions := dims |}.

(** Of a bounce notification only the texts and numbers it should hold. *)
Definition count_of (v : option JsonValue) : option Z := n ← v ≫= as_number; if n <? 0 then None else Some n.

Definition signin_emission (env : process_env) (e : event) : option Emission :=
  match e with
  | SignInSuppressed r => Some (emitSigninMetric env "SignInSuppressed" [("reason", suppression_text r)])
  | SignInRequest o => Some (emitSigninMetric env "SignInRequest" [("outcome", request_text o)])
  | SignInRedeem o => Some (emitSigninMetric env "SignInRedeem" [("outcome", redeem_text o)])
  | SignOutRevocation o => Some (emitSigninMetric env "SignOutRevocation" [("outcome", revocation_text o)])
  | PreSignUpRejection reason => Some (identity_metric "PreSignUpRejections" 1 [("Reason", reason)])
  | SesBounceRate recipients bounceType =>
      n ← count_of recipients; t ← bounceType ≫= as_string; Some (identity_metric "SesBounceRate" n [("BounceType", t)])
  | SesComplaintRate recipients => n ← count_of recipients; Some (identity_metric "SesComplaintRate" n [])
  | _ => None
  end.

Definition admin_metric (metricName : string) (value : Z) (dims : list (string * string)) : Emission :=
  {| e_namespace := ADMIN_NAMESPACE; e_name := metricName; e_value := value; e_dimensions := dims |}.

Definition admin_emissions (e : TenantAdmin.event) : list Emission :=
  match e with
  | TenantAdmin.CompensationTriggered subdomain => [admin_metric "CompensationTriggered" 1 [("subdomain", subdomain)]]
  | TenantAdmin.TenantCreated tenantId _ _ => [admin_metric "TenantCreated" 1 [("tenantId", tenantId)]]
  | TenantAdmin.TenantUpdated tenantId subdomain _ _ =>
      [admin_metric "AllowlistChanged" 1 [("tenantId", tenantId); ("subdomain", subdomain)]; admin_metric "TenantUpdated" 1 [("tenantId", tenantId)]]
  | TenantAdmin.TenantDeleted tenantId subdomain revokedSessions =>
      [admin_metric "TenantDeleted" 1 [("tenantId", tenantId); ("subdomain", subdomain); ("revokedSessions", if revokedSessions then "true" else "false")]]
  | TenantAdmin.Metric n v => [admin_metric n (Z.of_nat v) []]
  | TenantAdmin.OrphanedAppClients _ | TenantAdmin.OrphanedConfigRows _ => []
  end.

(** The names of the metrics the handlers emit. *)
Definition signin_names : list string :=
  ["SignInSuppressed"; "SignInRequest"; "SignInRedeem"; "SignOutRevocation"; "PreSignUpRejections"; "SesBounceRate"; "SesComplaintRate"].

Lemma signin_well_formed env e em : signin_emission env e = Some em -> well_formed em /\ e_name em ∈ signin_names.
Proof.
  assert (forall v n, count_of v = Some n -> 0 <= n) as Hc.
  { intros v n. unfold count_of. destruct (v ≫= as_number) as [m|]; [|done]. cbn. destruct (Z.ltb_spec m 0); [done|]. by intros [= <-]. }
  assert (forall ns n v dims, 0 <= v -> bool_decide (NoDup ("_aws" :: n :: map fst dims)) = true ->
    well_formed {| e_namespace := ns; e_name := n; e_value := v; e_dimensions := dims |}) as Hw by (intros ns n v dims Hv Hd; split; [by apply bool_decide_eq_true in Hd|done]).
  intros He. destruct e; try done; cbn [signin_emission] in He;
    try (injection He as <-; split; [apply Hw; [lia|by vm_compute]|unfold signin_names; set_solver]).
  - destruct (count_of recipients) as [n|] eqn:En; [|done]. cbn in He. destruct (bounceType ≫= as_string); [|done]. injection He as <-.
    split; [apply Hw; [by eapply Hc|by vm_compute]|unfold signin_names; set_solver].
  - destruct (count_of recipients) as [n|] eqn:En; [|done]. cbn in He. injection He as <-.
    split; [apply Hw; [by eapply Hc|by vm_compute]|unfold signin_names; set_solver].
Qed.

(** ** Alarms *)

(** Every alarm of the shared distribution adds up one metric over one period and
    is raised by more than [threshold]; no data does not raise it. *)
Record Alarm := { alarmName : string; metric : Series; periodMinutes : Z; threshold : Z }.

Definition real_time_alarm (id suffix metricName : string) (period : Z) : Alarm :=
  {| alarmName := id +:+ suffix; metric := {| namespace := ADMIN_NAMESPACE; name := metricName; dimensions := ∅ |};
     periodMinutes := period; threshold := 0 |}.

Definition admin_alarms (id : string) : list Alarm :=
  [real_time_alarm id "-AllowlistChanged-RealTime" "AllowlistChanged" 1; real_time_alarm id "-TenantDeleted-RealTime" "TenantDeleted" 1;
   real_time_alarm id "-CompensationTriggered" "CompensationTriggered" 1].

Definition orphaned_clients_alarm (id : string) : Alarm := real_time_alarm id "-OrphanedAppClients-Sustained" "OrphanedAppClients" 60.
Definition orphaned_rows_alarm (id : string) : Alarm := real_time_alarm id "-OrphanedConfigRows-Sustained" "OrphanedConfigRows" 60.

(** Raised by the data of a period. *)
Definition raised (a : Alarm) (data : list (Series * Z)) : bool :=
  threshold a <? foldr Z.add 0 (map snd (List.filter (fun x => bool_decide (x.1 = metric a)) data)).

(** What CloudWatch has of some events. *)
Definition data_of (events : list TenantAdmin.event) : list (Series * Z) := map (fun e => (series_of e, e_value e)) (flat_map admin_emissions events).

Lemma no_data_not_raised a data : threshold a = 0 -> Forall (fun x => x.1 <> metric a) data -> raised a data = false.
Proof.
  intros Ht Hd. unfold raised. rewrite Ht. induction Hd as [|x data Hx Hd IH]; [done|]. cbn [List.filter]. by rewrite bool_decide_false.
Qed.

(** Also (The real-time alarms see nothing): the administration's metrics all
    have dimensions and its three alarms watch series without any: whatever
    happens to tenants in a period, none is raised. *)
Theorem admin_alarms_blind id a events : a ∈ admin_alarms id ->
  Forall (fun e => match e with TenantAdmin.Metric _ _ => False | _ => True end) events -> raised a (data_of events) = false.
Proof.
  intros Ha He. apply no_data_not_raised; [by repeat (apply elem_of_cons in Ha as [->|Ha]; [done|]); apply elem_of_nil in Ha|].
  unfold data_of. apply Forall_map, Forall_flat_map.
  assert (dimensions (metric a) = ∅) as Hm by (by repeat (apply elem_of_cons in Ha as [->|Ha]; [done|]); apply elem_of_nil in Ha).
  assert (forall (k v : string) l, list_to_map ((k, v) :: l) <> (∅ : gmap string string)) as Hne.
  { intros k v l. cbn. apply insert_non_empty. }
  eapply Forall_impl; [exact He|]. intros e Hne_. cbn beta.
  destruct e; try done; cbn [admin_emissions]; repeat (apply Forall_cons; split); try (by apply Forall_nil);
    intros E; apply (f_equal dimensions) in E; rewrite Hm in E; cbn [fst series_of dimensions e_dimensions admin_metric] in E; exact (Hne _ _ _ E).
Qed.

Lemma filter_apart (a : Series) (data : list (Series * Z)) : Forall (fun x => x.1 <> a) data -> List.filter (fun x => bool_decide (x.1 = a)) data = [].
Proof. induction 1 as [|x l Hx _ IH]; [done|]. cbn [List.filter]. by rewrite bool_decide_false. Qed.

#[local] Definition unless_nil {A} (l : list A) (e : TenantAdmin.event) : list TenantAdmin.event := match l with [] => [] | _ => [e] end.

Lemma orphan_data n m c r :
  data_of ([TenantAdmin.Metric "OrphanedAppClients" n; TenantAdmin.Metric "OrphanedConfigRows" m] ++
           unless_nil c (TenantAdmin.OrphanedAppClients c) ++ unless_nil r (TenantAdmin.OrphanedConfigRows r))%list =
  [({| namespace := ADMIN_NAMESPACE; name := "OrphanedAppClients"; dimensions := ∅ |}, Z.of_nat n);
   ({| namespace := ADMIN_NAMESPACE; name := "OrphanedConfigRows"; dimensions := ∅ |}, Z.of_nat m)].
Proof. unfold data_of. by destruct c, r. Qed.

Lemma orphans_raised id n m c r :
  let data := data_of ([TenantAdmin.Metric "OrphanedAppClients" n; TenantAdmin.Metric "OrphanedConfigRows" m] ++
                       unless_nil c (TenantAdmin.OrphanedAppClients c) ++ unless_nil r (TenantAdmin.OrphanedConfigRows r))%list in
  raised (orphaned_clients_alarm id) data = (0 <? Z.of_nat n) /\ raised (orphaned_rows_alarm id) data = (0 <? Z.of_nat m).
Proof.
  cbv zeta. rewrite orphan_data. unfold raised. cbn [threshold orphaned_clients_alarm orphaned_rows_alarm real_time_alarm metric List.filter fst]. split.
  - rewrite bool_decide_true, bool_decide_false by done. cbn [map snd foldr]. by rewrite Z.add_0_r.
  - rewrite bool_decide_false, bool_decide_true by done. cbn [map snd foldr]. by rewrite Z.add_0_r.
Qed.

Lemma positive_length {A} (l : list A) : (0 <? Z.of_nat (length l)) = negb (match l with [] => true | _ => false end).
Proof. destruct l; [done|]. apply Z.ltb_lt. cbn. lia. Qed.

(** Also (An orphan raises its alarm): what a run of the reconciler reports raises
    the alarm on app clients exactly when one has no row, and that on rows
    exactly when one has no app client. *)
Theorem orphans_raise_alarms `{TenantAdmin.Cognito} id clients rows details env n w :
  let '(w', r) := run (H := TenantAdmin.admin_service) (TenantAdmin.report_orphans clients rows details) env n w in
  exists events, TenantAdmin.log w' = (TenantAdmin.log w ++ events)%list /\
    (raised (orphaned_clients_alarm id) (data_of events) = true <-> exists c, c ∈ clients /\ c ∉ rows) /\
    (raised (orphaned_rows_alarm id) (data_of events) = true <-> exists c, c ∈ rows /\ c ∉ clients).
Proof.
  assert (forall l other, negb (match TenantAdmin.missing l other with [] => true | _ => false end) = true <-> exists c, c ∈ l /\ c ∉ other) as Hmiss.
  { intros l other. transitivity (exists c, c ∈ TenantAdmin.missing l other).
    - destruct (TenantAdmin.missing l other) as [|x m]; cbn; split; try done; [intros [c Hc]; by apply elem_of_nil in Hc|intros _; exists x; set_solver].
    - apply base.exist_proper. intros c. unfold TenantAdmin.missing. rewrite !list_elem_of_In, filter_In, negb_true_iff, <- list_elem_of_In.
      assert (existsb (String.eqb c) other = false <-> c ∉ other) as ->; [|rewrite ?list_elem_of_In; tauto].
      rewrite <- not_true_iff_false, existsb_exists. split.
      + intros Hn Hin. apply Hn. exists c. rewrite String.eqb_refl. by split; [apply list_elem_of_In|].
      + intros Hn (x & Hx & <-%String.eqb_eq). by apply Hn, list_elem_of_In. }
  set (evs := ([TenantAdmin.Metric "OrphanedAppClients" (length (TenantAdmin.missing clients rows));
                TenantAdmin.Metric "OrphanedConfigRows" (length (TenantAdmin.missing rows clients))] ++
               unless_nil (TenantAdmin.missing clients rows) (TenantAdmin.OrphanedAppClients (TenantAdmin.missing clients rows)) ++
               let described := map (fun c => (c, default ("", "") (details !! c))) (TenantAdmin.missing rows clients) in
               unless_nil described (TenantAdmin.OrphanedConfigRows described))%list).
  assert (let '(w', r) := run (H := TenantAdmin.admin_service) (TenantAdmin.report_orphans clients rows details) env n w in TenantAdmin.log w' = (TenantAdmin.log w ++ evs)%list) as Hrun.
  { unfold TenantAdmin.report_orphans, TenantAdmin.emit_unless_nil, evs, unless_nil. cbv zeta. destruct (TenantAdmin.missing clients rows), (TenantAdmin.missing rows clients);
      cbn; by rewrite <- !app_assoc. }
  destruct (run _ env n w) as [w' r]. exists evs. split; [done|]. unfold evs. cbv zeta.
  destruct (orphans_raised id (length (TenantAdmin.missing clients rows)) (length (TenantAdmin.missing rows clients)) (TenantAdmin.missing clients rows)
    (map (fun c => (c, default ("", "") (details !! c))) (TenantAdmin.missing rows clients))) as [-> ->].
  rewrite !positive_length. split; apply Hmiss.
Qed.

(** ** metrics/index.ts *)

Definition DEFAULT_METRICS_NAMESPACE : string := "Vestibulum/AuthSite".

Inductive Statistic := Sum | Average.
Record MetricHandle := { series : Series; statistic : Statistic }.

Definition handle (ns metricName : string) (dims : list (string * string)) (st : Statistic) : MetricHandle :=
  {| series := {| namespace := ns; name := metricName; dimensions := list_to_map dims |}; statistic := st |}.

Record IdentityMetrics := {
  signUpSuccesses : MetricHandle; signInSuccesses : MetricHandle; tokenRefreshSuccesses : MetricHandle; challengeFailures : MetricHandle;
  preSignUpRejections : MetricHandle; sesBounceRate : MetricHandle; sesComplaintRate : MetricHandle
}.

Definition tenant_dimension (tenantId : option string) : list (string * string) := match tenantId with Some t => [("TenantId", t)] | None => [] end.

Definition buildIdentityMetrics (userPoolId : string) (metricsNamespace tenantId : option string) : IdentityMetrics :=
  let ns := default DEFAULT_METRICS_NAMESPACE metricsNamespace in
  let base := [("UserPoolId", userPoolId)] in
  {| signUpSuccesses := handle ns "SignUpSuccesses" base Sum; signInSuccesses := handle ns "SignInSuccesses" base Sum;
     tokenRefreshSuccesses := handle ns "TokenRefreshSuccesses" base Sum; challengeFailures := handle ns "ChallengeFailures" base Sum;
     preSignUpRejections := handle ns "PreSignUpRejections" (base ++ tenant_dimension tenantId)%list Sum;
     sesBounceRate := handle "AWS/SES" "Reputation.BounceRate" [] Average;
     sesComplaintRate := handle "AWS/SES" "Reputation.ComplaintRate" [] Average |}.

Record AuthSiteMetricCollection := {
  distributionRequests : MetricHandle; distributionErrors : MetricHandle; edgeAuthDenies : MetricHandle; authVerifyErrors : MetricHandle
}.

Definition buildAuthSiteMetrics (distributionId : string) (metricsNamespace tenantId : option string) : AuthSiteMetricCollection :=
  let ns := default DEFAULT_METRICS_NAMESPACE metricsNamespace in
  let cf := [("DistributionId", distributionId); ("Region", "Global")] in
  {| distributionRequests := handle "AWS/CloudFront" "Requests" cf Sum; distributionErrors := handle "AWS/CloudFront" "TotalErrorRate" cf Average;
     edgeAuthDenies := handle ns "EdgeAuthDenies" [("DistributionId", distributionId)] Sum;
     authVerifyErrors := handle ns "AuthVerifyErrors" ([("DistributionId", distributionId)] ++ tenant_dimension tenantId)%list Sum |}.

Record SharedDistributionMetrics := { sh_preSignUpRejections : MetricHandle; sh_authVerifyErrors : MetricHandle }.

Definition buildSharedDistributionMetrics (tenantId userPoolId distributionId : string) (metricsNamespace : option string) : SharedDistributionMetrics :=
  let ns := default DEFAULT_METRICS_NAMESPACE metricsNamespace in
  {| sh_preSignUpRejections := handle ns "PreSignUpRejections" [("TenantId", tenantId); ("UserPoolId", userPoolId)] Sum;
     sh_authVerifyErrors := handle ns "AuthVerifyErrors" [("TenantId", tenantId); ("DistributionId", distributionId)] Sum |}.

(** The handles that are not of an AWS namespace. *)
Definition custom_handles (m : IdentityMetrics) (s : AuthSiteMetricCollection) (t : SharedDistributionMetrics) : list MetricHandle :=
  [signUpSuccesses m; signInSuccesses m; tokenRefreshSuccesses m; challengeFailures m; preSignUpRejections m; edgeAuthDenies s; authVerifyErrors s;
   sh_preSignUpRejections t; sh_authVerifyErrors t].

Lemma unreported_name env ev em (s : Series) : signin_emission env ev = Some em -> name s ∉ signin_names -> series_of em <> s.
Proof. intros He Hn <-. by destruct (signin_well_formed _ _ _ He) as [_ Hin]. Qed.

Lemma rejection_dimensions env ev em : signin_emission env ev = Some em -> e_name em = "PreSignUpRejections" -> map fst (e_dimensions em) = ["Reason"].
Proof.
  intros He Hn. destruct ev; try done; cbn [signin_emission] in He; try (by injection He as <-).
  - destruct (count_of recipients); [|done]. cbn in He. destruct (bounceType ≫= as_string); [|done]. by injection He as <-.
  - destruct (count_of recipients); [|done]. cbn in He. by injection He as <-.
Qed.

(** Also (The handles see nothing): whatever the sign-in handlers report, in
    whatever namespace, it is in none of the series the handles of the package
    name: no handler has those names, and the rejections are counted by their
    reason, not by pool or tenant. *)
Theorem handles_blind userPoolId distributionId tenant ns1 ns2 ns3 t1 t2 env ev em h :
  signin_emission env ev = Some em ->
  h ∈ custom_handles (buildIdentityMetrics userPoolId ns1 t1) (buildAuthSiteMetrics distributionId ns2 t2)
                     (buildSharedDistributionMetrics tenant userPoolId distributionId ns3) ->
  series_of em <> series h.
Proof.
  intros He Hh. unfold custom_handles in Hh.
  assert (forall s, name s ∉ signin_names -> series_of em <> s) as Hname by (intros s; by apply (unreported_name env ev)).
  assert (forall s, name s = "PreSignUpRejections" -> is_Some (dimensions s !! "UserPoolId") -> series_of em <> s) as Hdims.
  { intros s Hs [v Hu] <-. pose proof (rejection_dimensions _ _ _ He Hs) as Hd. cbn [dimensions series_of] in Hu.
    apply elem_of_list_to_map_2 in Hu. assert ("UserPoolId" ∈ map fst (e_dimensions em)) as Hin.
    { apply list_elem_of_fmap. by exists ("UserPoolId", v). }
    rewrite Hd in Hin. by apply list_elem_of_singleton in Hin. }
  repeat (apply elem_of_cons in Hh as [->|Hh]; [first [apply Hname; cbn; unfold signin_names; set_solver
    |apply Hdims; [done|]; cbn; rewrite ?lookup_insert_ne by done; rewrite lookup_insert_eq; by eexists]|]).
  by apply elem_of_nil in Hh.
Qed.

#[local] Definition changed : Emission := admin_metric "AllowlistChanged" 1 [("tenantId", "acme"); ("subdomain", "acme")].

(** A line, what is taken from it, and from texts that are no such line. *)
Example lines_read :
  str_map (fun c => if Ascii.eqb c dquote then "'"%char else c) (emitMetric 5 (identity_metric "SesComplaintRate" 2 [])) =
    "{'_aws':{'Timestamp':5,'CloudWatchMetrics':[{'Namespace':'Vestibulum/Identity','Dimensions':[[]],'Metrics':[{'Name':'SesComplaintRate','Unit':'Count'}]}]},'SesComplaintRate':2}" /\
  map (fun x => (name x.1, map_to_list (dimensions x.1), x.2)) (ingested (admin_emitMetric 5 changed)) = [("AllowlistChanged", [("subdomain", "acme"); ("tenantId", "acme")], 1)] /\
  map ingested ["{}"; "x"; "[]"] = [[]; []; []].
Proof. split; [|split]; vm_compute; reflexivity. Qed.

Lemma emission_ingested_witness :
  ingested (emitMetric 1700000000000 changed) = [(series_of changed, 1)] /\ ingested (admin_emitMetric 1700000000000 changed) = [(series_of changed, 1)].
Proof. apply (emission_ingested 1700000000000 changed); [split; [apply (bool_decide_unpack _); by vm_compute|done]|done]. Defined.
End Metrics.
